(* ===== verification/_CoqProject ===== *)
-Q . S2P
Prelude.v
Buffers.v
TaskIO.v
DatagramIO.v
Splice.v
Socks5Addr.v
Prog.v
Socks5.v
Socks5Client.v
Auth.v
Socks5Server.v
Socks5Handshake.v
Socks5Safety.v
RBTree.v
RBTreeSpec.v
RBErase.v
SearchTree.v
Authenticator.v
HevList.v
MappedDns.v
DnsQuery.v
Socks5Udp.v
Socks5UdpSpec.v
Config.v
ConfigSpec.v
LwipAddr.v
SessionTcp.v
SessionTcpSpec.v
SessionUdp.v
SessionUdpSpec.v
Mutex.v
MemSlice.v
MemSliceSpec.v
CachedTree.v
TaskSched.v
TaskSchedSpec.v
TaskSchedSafe.v
TaskSchedRun.v
Tunnel.v
TunnelSync.v
JobQueue.v
Baddr.v
ParseNumber.v
IpAddr.v
IpAddrSpec.v
IpNetSpec.v
BaddrText.v
BaddrTextSpec.v
SocksClient.v
SocksClientSpec.v
Tun2socks.v
Tun2socksSpec.v
DeviceUdp.v
DeviceUdpSpec.v
PacketProto.v
ChunkBuffer.v
ChunkBufferSpec.v
Avl.v
Bavl.v
BavlSpec.v
BavlRefine.v
FairQueue.v
FairQueueSpec.v
UdpGw.v
UdpGwSpec.v
SocksUdpGw.v
DnsProxy.v
