(* ===== verification/Prelude.v ===== *)
(** * MSN-GUARD: the packet engine, verified

    MSN-GUARD is an Android VPN application.  Its native part in C lives under
    src/app/src/main/cpp; this library verifies the engine [hev], which takes the
    packets of the VPN device, terminates their TCP and UDP flows with lwIP and
    forwards each flow to a SOCKS5 server, and parts of a second engine for the same
    purpose, [badvpn].  The paths below are relative to
    src/app/src/main/cpp.

    ** The engine and its model

    A packet reaches lwIP; a new flow makes the tunnel create a session with a task of
    its own; the session connects to the SOCKS5 server, does the handshake and then
    copies data in both directions until it ends.  Names are handled by a mapped DNS:
    a query is answered with an address of a reserved network, and a connection to
    such an address is requested from the server by name.  The same repository has
    the server side of the protocol (hev/src/core), with users and authentication.

    The files, from the bottom up, and what they model:

    - [Prelude]: machine integers, buffers, C strings, tactics and hints.
    - [Buffers]: hev/src/misc/hev-ring-buffer.c (Module [Ring]) and the circular buffer
      of hev-task-system (Module [Circular]); [RingSpec]: refinement of a queue.
    - [TaskIO]: the retry loops of hev-task-io-socket.c around [recv], [send],
      [recvmsg], [sendmsg]; [DatagramIO]: the other functions of that file, and reads and writes;
      [Splice]: hev-task-io.c, [hev_task_io_splice].
    - [Socks5Addr]: addresses as bytes in memory (hev-socks5-misc.c, hev-socks5-proto.h).
    - [Prog]: the calls to the kernel and the task system as a tree of calls; functions
      of hev/src/core/src are programs in a state monad over it.
    - [Socks5], [Socks5Client], [Auth], [Socks5Server]: hev-socks5.c,
      hev-socks5-client*.c, hev-socks5-user.c, hev-socks5-server.c, hev-socks5-tcp.c,
      one definition per function.  [Socks5Handshake] and [Socks5Safety] hold their
      theorems.
    - [RBTree]: hev-rbtree.c pointer by pointer on a heap of nodes; [RBTreeSpec],
      [RBErase]: insertion and removal; [SearchTree]: trees ordered by a key, the
      interface (class [KeyOrder]) that the next two are proved against.
    - [Authenticator]: hev-socks5-authenticator.c with reference-counted users.
    - [HevList]: hev-list.c, hev-list.h, and lists that own their nodes.
    - [MappedDns], [DnsQuery]: hev-mapped-dns.c, the cache and the handling of packets.
    - [Socks5Udp], [Socks5UdpSpec]: hev-socks5-udp.c, datagrams over TCP or UDP.
    - [Config], [ConfigSpec]: hev-config.c on the document tree of libyaml.
    - [LwipAddr]: the conversions of hev/src/misc/hev-utils.c.
    - [SessionTcp], [SessionTcpSpec]: hev-socks5-session-tcp.c with the callbacks of
      lwIP; [SessionUdp], [SessionUdpSpec]: hev-socks5-session-udp.c.
    - [Mutex]: hev-task-mutex.c as steps of cooperatively scheduled tasks.
    - [DnsProxy]: lib/dns/hev-task-dns-proxy.c of hev-task-system, tasks that resolve names through
      a helper thread, as interleaved steps; the C library is a parameter.
    - [MemSlice], [MemSliceSpec]: the memory allocator of hev-task-system
      (hev-memory-allocator-slice.c) over the heap of the C library.
    - [CachedTree]: hev-rbtree-cached.c of hev-task-system over [RBTree]; [TaskSched]: its scheduler,
      tasks and timers (hev-task-system-schedule.c, hev-task.c, hev-task-executer.c,
      hev-task-timer.c) as steps between context switches; [TaskSchedSpec]: the queue of
      running tasks; [TaskSchedSafe]: timers, joins and the invariant; [TaskSchedRun]: the
      contract of the calls, and the theorems on runs.
    - [Tunnel]: the session set of hev-socks5-tunnel.c, its limit and the callbacks that
      create sessions; [TunnelSync]: start and stop across threads.

    The second engine, under badvpn, takes the packets of the device itself: TCP goes through
    its own lwIP to one SOCKS connection per flow, UDP through a gateway behind one SOCKS
    connection that all flows share.

    - [JobQueue]: base/BPending.c, the jobs of the reactor.
    - [Baddr]: addresses, integers in network order and sizes (system/BAddr.h, misc).
    - [ParseNumber]: numbers in text (misc/parse_number.h, find_char.h); [IpAddr]: IP addresses in
      text, masks and networks (misc/ipaddr.h, ipaddr6.h), the parsers on arrays with bounds;
      [IpAddrSpec]: the grammar that they accept, and printing; [IpNetSpec]: masks and networks
      by bits; [BaddrText], [BaddrTextSpec]: the rest of system/BAddr.h, with the resolver as a parameter.
    - [SocksClient], [SocksClientSpec]: socksclient/BSocksClient.c with
      flow/PacketStreamSender.c and flow/PacketPassInterface.c, handlers driven by events.
    - [Tun2socks], [Tun2socksSpec]: the TCP clients of tun2socks/tun2socks.c, between lwIP
      and the SOCKS client.
    - [DeviceUdp], [DeviceUdpSpec]: the packets of the device in tun2socks.c, with the
      headers and checksums of misc/ipv4_proto.h, ipv6_proto.h and udp_proto.h.
    - [PacketProto]: the framing of packets on a stream, flow/PacketProtoEncoder.c and
      flow/PacketProtoDecoder.c.
    - [ChunkBuffer], [ChunkBufferSpec]: structure/ChunkBuffer2.h and flow/PacketBuffer.c.
    - [Avl]: what the clients of the balanced trees (structure/SAvl_impl.h, BAVL.h) rely
      on, as a type class; [Bavl]: structure/BAVL.h pointer by pointer on a heap of nodes;
      [BavlSpec], [BavlRefine]: its correctness, and the instance of the class.
    - [FairQueue], [FairQueueSpec]: flow/PacketPassFairQueue.c over the class.
    - [UdpGw], [UdpGwSpec]: udpgw_client/UdpGwClient.c over the fair queue;
      [SocksUdpGw]: tun2socks/SocksUdpGwClient.c over that.

    ** How state and effects are modelled

    A C integer is a [Z] kept at its width where the code can wrap ([u8], [u16], [s32],
    ...); a buffer is the list of its bytes; memory with pointers is a [gmap] from
    addresses, and a read of what is not allocated is [None] or [Crash], so a theorem
    that a function returns says that it follows no wild pointer.  What the engine does
    not contain (the kernel, lwIP, libyaml, the C library) is quantified
    over, and for a session so is the order in which tasks run: as the answers of the calls of [Prog], constrained by [answer_ok]; as scripts
    of results ([ioev]) in [TaskIO], [Splice] and the sessions; as arguments ([Resolver],
    [malloc], [inet_pton]) with the hypotheses that the theorems name.  The sessions
    and the mutex interleave with the rest of the engine at the points where a task can
    lose the processor; the tunnel's threads interleave at every atomic operation.

    ** What is shown

    - Protocol: a client and a server of this code base complete the handshake, in any
      interleaving, for TCP and UDP, agree on the address and, for TCP, the server has
      connected to it ([tcp_handshake_interop],
      [udp_handshake_interop]); the server serves only users that the authenticator
      knows and releases every descriptor, object and buffer on every path
      ([server_serves_only_users], [server_releases_everything]; its data phase is one
      call there, and the loop behind it for datagrams over TCP has a defect,
      [udp_fwd_f_short_header_unsafe]); addresses and
      datagrams survive encoding and decoding ([sockaddr6_roundtrip],
      [addr_name_roundtrip], [udp_in_tcp_framing], [udp_in_udp_roundtrip]).
    - Sessions: a TCP session conserves both streams under every behaviour of lwIP and
      the kernel ([session_tcp_conserves]); a UDP session keeps order and bounds and
      frees its frames over a transport that hands over whole messages ([session_udp_correct]), and its replies come from the address
      that the application used ([session_udp_replies]); the generic splicer neither
      loses nor invents bytes and delivers all of them when the kernel does its part
      ([splice_lossless], [splice_delivers]); datagrams are received and sent in order
      ([recvmmsg_in_order], [sendmmsg_in_order]).
    - Names: the mapped DNS is a least-recently-used cache that refuses a name exactly when
      the allocator has no memory ([mapped_dns_refines_lru]),
      safe on arbitrary packets ([hev_mapped_dns_handle_safe]), and a connection to an
      address it answered is requested by the name ([mapped_connection_by_name]).
    - Names from the C library: tasks that share the helper thread get the answers to their own requests and
      the thread uses no record that is gone ([dns_proxy_correct]), provided that the socket pair does not fail
      ([dns_proxy_failed_read]), and each of them can return ([dns_proxy_returns]).
    - Second engine, TCP: the SOCKS client of badvpn follows the protocol however the bytes
      are cut ([socks_client_dialogue]), misuses nothing and leaks nothing whatever fails
      ([socks_client_safe]), and its handshake ends ([socks_client_terminates]); a TCP client
      of tun2socks uses lwIP and SOCKS within their contracts and frees itself once
      ([tun2socks_client_safe]) and delivers both streams ([tun2socks_delivery]), but leaks a
      buffer on one path ([tun2socks_pbuf_leak]).
    - Second engine, UDP: exactly the well-formed datagrams of the device are taken
      ([device_udp_accepts]), and what is written to the device is read back
      ([device_udp_roundtrip]) except for one checksum ([device_udp_all_ones]); the framing
      of packets survives any cutting of the stream ([packet_proto_roundtrip]); the packet
      buffer is a queue ([packet_buffer_fifo]) unless it is of 2 GiB or more
      ([packet_buffer_too_large]); the fair queue sends each packet once, in
      order per flow, never idles ([fair_queue_safe]) and lets no flow wait for more than a
      bounded amount of other traffic, also while flows come and go ([fair_queue_bounded_wait]); the gateway client is a table of
      connections by recency ([udpgw_refines_table]) that hands replies to the pair that
      asked ([udpgw_reply_delivered]) as long as the pair keeps its identifier
      ([udpgw_late_reply_misdelivered]), and it survives the loss of the gateway
      ([socks_udpgw_reconnects]).
    - Addresses in text: the parser of IPv6 addresses stays inside of its arrays and accepts
      exactly a grammar ([ipaddr6_parse_exact]); what is printed fits and is read back
      ([ipaddr_text_roundtrip]); masks and networks mean what their bits say
      ([ipaddr_networks_exact]); an address with a port is split, bounded and resolved as
      documented ([baddr_parse_exact]), but a printed IPv6 address with a port is not accepted
      ([baddr_text_roundtrip]); numbers are read exactly up to 64 bits
      ([parse_unsigned_integer_exact], [decimal_repr_roundtrip]).
    - Data structures: the red-black tree stays balanced and ordered under insertion and
      removal and its walk visits it in order; the balanced tree of badvpn is a sorted list
      to its clients ([bavl_refines_sorted_list]) and its look-ups are logarithmic
      ([bavl_lookup_steps]); the authenticator is a finite map; the
      ring buffer is a queue; the job queue of badvpn is a stack without duplicates
      ([bpending_refines_stack]).
    - Tunnel: the session set is the list of live sessions by last activity
      ([tunnel_sessions_refine]), of which one is told to end when their number reaches the
      setting ([tunnel_session_limit]); the mutex
      excludes and loses no wake-up ([task_mutex_correct]); stopping writes to no closed
      descriptor ([tunnel_stop_safe]) and is heard once the tunnel is initialised
      ([tunnel_stop_heard]), but not before ([tunnel_stop_lost]).
    - Memory: the allocator hands out no block twice and, up to 64 GiB, none that is too small, accesses nothing that is
      freed, leaks nothing and bounds its cache ([slice_allocator_safe]).
    - Scheduler: runs that respect the contract of its functions use nothing that is freed and reach no
      [abort] ([task_scheduler_safe]), keep its state well-formed ([task_system_well_formed]), let no task starve
      behind tasks of positive priority ([task_scheduler_bounded_wait]) and forget no sleeping task
      ([task_timer_prompt], [hev_task_timer_exact]); but a task that exits does not wake its joiner
      ([exit_forgets_joiner]).
    - Configuration: no parser, file or document is used when it is not live or left
      unreleased, and what is loaded from a document, within the sizes of the fields
      ([config_server_correct], [config_init_correct]), whatever was loaded before
      ([config_reload]).

    ** Fuel and bounds

    Loops over pointers take fuel: the number of allocated nodes for walks over lists
    and trees ([size], [enough]), and the theorems show that it suffices, since they
    state that the functions return.  Loops that wait for the environment run for a
    script of its choices; their theorems hold for every script, and [splice_delivers]
    and the completeness parts of [recv_waitall_correct] and [send_waitall_correct]
    state when they end.  Widths are those of the 64-bit Android ABIs, little endian.
    In [SessionTcp] the ring buffer is at most [TCP_SND_BUF] (65528 bytes): the code
    passes its segments to lwIP as [u16_t].  In the UDP splicer of [Socks5Udp] a change of the
    timeout during a blocked call is not tracked.  The contract of the scheduler bounds the keys: the first
    one is below 2^63, which a clock of nanoseconds reaches after decades.

    ** Not modelled

    lwIP and libyaml (third party); of hev-task-system the stacks, the assembly of the context switch and
    the backends of the I/O reactor; the tunnel devices
    (ioctl sequences per platform), the loggers and the JNI glue (no logic of their own
    to specify); the I/O and timer tasks of the hev tunnel, which call lwIP.  Of badvpn, the
    start of tun2socks (command line, creation of the parts in order), the reactor, and
    the interfaces between the parts of flow/, which only schedule the handlers that the
    models of both sides call; structure/CAvl_impl.h, a second instance of the algorithm of BAVL.h.
    The Java, Kotlin, Rust and Go parts of the repository are not C. *)

From Stdlib Require Export ZArith Lia.
From stdpp Require Export base option list gmap.

#[global] Open Scope Z_scope.

(** ** Machine integers

    A C integer of [w] bits is a [Z]; every place where the C code can wrap
    writes the wrap-around out with one of these functions.  The Android ABIs
    the project builds (arm64-v8a, armeabi-v7a, x86_64) are little endian. *)

Definition u8 (z : Z) : Z := z mod 2 ^ 8.
Definition u16 (z : Z) : Z := z mod 2 ^ 16.
Definition u32 (z : Z) : Z := z mod 2 ^ 32.
Definition u64 (z : Z) : Z := z mod 2 ^ 64.

(** Conversion to [int]: two's complement on 32 bits. *)
Definition s32 (z : Z) : Z := (z + 2 ^ 31) mod 2 ^ 32 - 2 ^ 31.

Definition INT_MAX : Z := 2 ^ 31 - 1.

Definition is_u8 (z : Z) : Prop := 0 <= z < 2 ^ 8.
Definition is_u16 (z : Z) : Prop := 0 <= z < 2 ^ 16.
Definition is_u32 (z : Z) : Prop := 0 <= z < 2 ^ 32.
Definition is_s32 (z : Z) : Prop := - 2 ^ 31 <= z < 2 ^ 31.

(** A C buffer is the list of its bytes. *)
Definition bytes_ok (l : list Z) : Prop := Forall is_u8 l.

Create HintDb hev.
#[export] Hint Unfold is_u8 is_u16 is_u32 is_s32 bytes_ok : hev.

(** [ntohs], [htons]: swap the two bytes of a 16-bit value. *)
Definition bswap16 (v : Z) : Z := (v mod 256) * 256 + (v / 256) mod 256.
Definition htons := bswap16.
Definition ntohs := bswap16.

(** [ntohl], [htonl]. *)
Definition bswap32 (v : Z) : Z :=
  (v mod 256) * 2 ^ 24 + (v / 256) mod 256 * 2 ^ 16
  + (v / 2 ^ 16) mod 256 * 2 ^ 8 + (v / 2 ^ 24) mod 256.
Definition ntohl := bswap32.

(** The bytes of a [uint16_t] and a [uint32_t] object in memory, and back. *)
Definition mem16 (v : Z) : list Z := [v mod 256; (v / 256) mod 256].
Definition mem32 (v : Z) : list Z :=
  [v mod 256; (v / 256) mod 256; (v / 2 ^ 16) mod 256; (v / 2 ^ 24) mod 256].

Definition nthb (m : list Z) (i : nat) : Z := default 0 (m !! i).
Definition load16 (m : list Z) (off : nat) : Z :=
  nthb m off + 256 * nthb m (S off).

(** ** Buffers *)

Definition slice (off n : nat) (m : list Z) : list Z := take n (drop off m).

(** [memcpy (m + off, bs, length bs)]. *)
Definition splice (off : nat) (bs m : list Z) : list Z :=
  take off m ++ bs ++ drop (off + length bs) m.

(** The C string that starts at the head of a buffer. *)
Fixpoint cstr (m : list Z) : list Z :=
  match m with
  | [] => []
  | b :: m' => if b =? 0 then [] else b :: cstr m'
  end.

(** A string that a [char *] can denote: bytes, none of them NUL. *)
Definition cstring (s : list Z) : Prop := Forall (fun b => 0 < b < 2 ^ 8) s.

(** [memcmp]/[strcmp] order on byte strings; the sign of the result. *)
Fixpoint bytes_cmp (a b : list Z) : Z :=
  match a, b with
  | [], [] => 0
  | [], _ => -1
  | _, [] => 1
  | x :: a', y :: b' =>
      if x <? y then -1 else if y <? x then 1 else bytes_cmp a' b'
  end.

#[global] Arguments splice : simpl never.
#[global] Arguments slice : simpl never.
#[global] Arguments load16 : simpl never.
#[global] Arguments bswap16 : simpl never.

(** ** Automation *)

Ltac bool_to_prop :=
  repeat match goal with
  | H : _ && _ = true |- _ => apply andb_true_iff in H as [? ?]
  | H : _ || _ = false |- _ => apply orb_false_iff in H as [? ?]
  | H : negb _ = true |- _ => apply negb_true_iff in H
  | H : negb _ = false |- _ => apply negb_false_iff in H
  | H : (_ =? _) = true |- _ => apply Z.eqb_eq in H
  | H : (_ =? _) = false |- _ => apply Z.eqb_neq in H
  | H : (_ <? _) = true |- _ => apply Z.ltb_lt in H
  | H : (_ <? _) = false |- _ => apply Z.ltb_ge in H
  | H : (_ <=? _) = true |- _ => apply Z.leb_le in H
  | H : (_ <=? _) = false |- _ => apply Z.leb_gt in H
  end.

(** Case split on the first boolean test of the goal, as a proposition. *)
Ltac case_test :=
  match goal with
  | |- context [if ?b then _ else _] =>
      let E := fresh "E" in destruct b eqn:E; bool_to_prop
  end.

(** Arithmetic with [/] and [mod] by constants. *)
Ltac zdiv := Z.div_mod_to_equations; lia.

Create Rewrite HintDb len.
#[export] Hint Rewrite @length_app @length_take @length_drop @length_replicate
  @length_insert @length_map @length_fmap @length_seq : len.
Ltac len := unfold slice, splice; repeat (progress (autorewrite with len; cbn [length])); lia.

(** ** Generic lemmas *)

Lemma u8_id z : is_u8 z -> u8 z = z.
Proof. intros H. apply Z.mod_small. exact H. Qed.

Lemma u8_range z : is_u8 (u8 z).
Proof. apply Z.mod_pos_bound. reflexivity. Qed.

Lemma u16_id z : is_u16 z -> u16 z = z.
Proof. intros H. apply Z.mod_small. exact H. Qed.

Lemma u64_id z : 0 <= z < 2 ^ 64 -> u64 z = z.
Proof. apply Z.mod_small. Qed.

Lemma s32_id z : is_s32 z -> s32 z = z.
Proof. unfold is_s32, s32. intros H. rewrite Z.mod_small; lia. Qed.

Lemma bswap16_invol v : is_u16 v -> bswap16 (bswap16 v) = v.
Proof. unfold is_u16, bswap16. intros H. zdiv. Qed.

Lemma bswap16_range v : is_u16 (bswap16 v).
Proof. unfold is_u16, bswap16. zdiv. Qed.

Lemma length_slice off n m : length (slice off n m) = (n `min` (length m - off))%nat.
Proof. unfold slice. rewrite length_take, length_drop. lia. Qed.

Lemma length_splice off bs m :
  (off + length bs <= length m)%nat -> length (splice off bs m) = length m.
Proof. intros H. len. Qed.

Lemma slice_app_exact (a b c : list Z) :
  slice (length a) (length b) (a ++ b ++ c) = b.
Proof. unfold slice. rewrite drop_app_length. apply take_app_length. Qed.

Lemma cstr_of_cstring s tl : cstring s -> cstr (s ++ 0 :: tl) = s.
Proof.
  induction 1 as [|b s Hb Hs IH]; simpl; [done|].
  destruct (Z.eqb_spec b 0); [lia|]. by rewrite IH.
Qed.

Lemma cstr_cstring m : bytes_ok m -> cstring (cstr m).
Proof.
  induction 1 as [|b m Hb Hm IH]; simpl; [constructor|].
  destruct (Z.eqb_spec b 0); constructor; [|exact IH].
  unfold is_u8 in Hb. lia.
Qed.

Lemma cstring_bytes s : cstring s -> bytes_ok s.
Proof. intros H. eapply Forall_impl; [exact H|]. unfold is_u8. intros; lia. Qed.

Lemma bytes_cmp_refl a : bytes_cmp a a = 0.
Proof. induction a as [|x a IH]; simpl; [done|]. by rewrite Z.ltb_irrefl. Qed.

Lemma bytes_cmp_eq a b : bytes_cmp a b = 0 <-> a = b.
Proof.
  split; [|intros ->; apply bytes_cmp_refl].
  revert b. induction a as [|x a IH]; intros [|y b]; simpl; try lia; [done|].
  repeat case_test; try lia. intros H. f_equal; [lia|]. by apply IH.
Qed.

Lemma bytes_cmp_anti a b : bytes_cmp a b = - bytes_cmp b a.
Proof.
  revert b. induction a as [|x a IH]; intros [|y b]; simpl; try lia.
  destruct (Z.ltb_spec x y), (Z.ltb_spec y x); try lia. apply IH.
Qed.

Lemma bytes_cmp_trans a b c : bytes_cmp a b < 0 -> bytes_cmp b c < 0 -> bytes_cmp a c < 0.
Proof.
  revert b c. induction a as [|x a IH]; intros [|y b] [|z c]; simpl; try lia.
  destruct (Z.ltb_spec x y), (Z.ltb_spec y x), (Z.ltb_spec y z), (Z.ltb_spec z y),
    (Z.ltb_spec x z), (Z.ltb_spec z x); try lia.
  apply IH.
Qed.

#[export] Hint Resolve u8_range bswap16_range cstring_bytes cstr_cstring : hev.

(** Writing right behind a known prefix, and over a field of known size. *)
Lemma splice_behind n a bs r :
  n = length a -> splice n bs (a ++ r) = a ++ bs ++ drop (length bs) r.
Proof.
  intros ->. unfold splice. rewrite take_app_length, drop_app_ge by lia. do 3 f_equal. lia.
Qed.

Lemma splice_front bs m : splice 0 bs m = bs ++ drop (length bs) m.
Proof. done. Qed.

Lemma splice_over n a bs b r :
  n = length a -> length b = length bs -> splice n bs (a ++ b ++ r) = a ++ bs ++ r.
Proof. intros -> H. rewrite splice_behind by done. do 2 f_equal. by rewrite <- H, drop_app_length. Qed.

Lemma slice_at n k a b r :
  n = length a -> k = length b -> slice n k (a ++ b ++ r) = b.
Proof. intros -> ->. apply slice_app_exact. Qed.

Lemma nthb_cons_S x m i : nthb (x :: m) (S i) = nthb m i.
Proof. done. Qed.

Lemma nthb_app_r n a r i : n = length a -> nthb (a ++ r) (n + i) = nthb r i.
Proof. intros ->. unfold nthb. rewrite lookup_app_r by lia. do 2 f_equal. lia. Qed.

Lemma load16_at n a lo hi r : n = length a -> load16 (a ++ lo :: hi :: r) n = lo + 256 * hi.
Proof.
  intros ->. unfold load16.
  pose proof (nthb_app_r (length a) a (lo :: hi :: r) 0 eq_refl) as H0.
  pose proof (nthb_app_r (length a) a (lo :: hi :: r) 1 eq_refl) as H1.
  rewrite Nat.add_0_r in H0. rewrite Nat.add_1_r in H1. by rewrite H0, H1.
Qed.

Lemma take_length_app (a b : list Z) n : n = length a -> take n (a ++ b) = a.
Proof. intros ->. apply take_app_length. Qed.

(** Name the elements of a list of known length. *)
Ltac explode l :=
  match goal with
  | H : length l = _ |- _ =>
      repeat (let x := fresh "x" in destruct l as [|x l]; [discriminate H|]);
      try (destruct l; [clear H|discriminate H])
  end.

Lemma drop_split2 i a b (m : list Z) :
  drop i m = take a (drop i m) ++ take b (drop (i + a) m) ++ drop (i + a + b) m.
Proof. by rewrite <- (drop_drop m b (i + a)), take_drop, <- (drop_drop m a i), take_drop. Qed.

(** ** Distinct elements *)

Definition disj {A} (l k : list A) : Prop := forall x, x ∈ l -> x ∉ k.

Section Disj.
Context {A : Type}.
Implicit Types l k : list A.

Lemma disj_app_l l1 l2 k : disj (l1 ++ l2) k <-> disj l1 k /\ disj l2 k.
Proof. unfold disj. set_solver. Qed.
Lemma disj_cons_l a l k : disj (a :: l) k <-> a ∉ k /\ disj l k.
Proof. unfold disj. set_solver. Qed.
Lemma disj_app_r l k1 k2 : disj l (k1 ++ k2) <-> disj l k1 /\ disj l k2.
Proof. unfold disj. set_solver. Qed.
Lemma disj_cons_r a l k : disj l (a :: k) <-> a ∉ l /\ disj l k.
Proof. unfold disj. set_solver. Qed.
Lemma nodup_app l k : NoDup (l ++ k) <-> NoDup l /\ disj l k /\ NoDup k.
Proof. apply NoDup_app. Qed.

End Disj.

(** Split what is known of distinct elements into atoms. *)
Ltac nodup_atoms :=
  repeat match goal with
  | H : NoDup (_ ++ _) |- _ => apply nodup_app in H as (? & ? & ?)
  | H : NoDup (_ :: _) |- _ => apply NoDup_cons in H as (? & ?)
  | H : NoDup [] |- _ => clear H
  | H : _ ∉ _ ++ _ |- _ => apply not_elem_of_app in H as (? & ?)
  | H : _ ∉ _ :: _ |- _ => apply not_elem_of_cons in H as (? & ?)
  | H : _ ∉ [] |- _ => clear H
  | H : disj [] _ |- _ => clear H
  | H : disj _ [] |- _ => clear H
  | H : disj (_ ++ _) _ |- _ => apply disj_app_l in H as (? & ?)
  | H : disj (_ :: _) _ |- _ => apply disj_cons_l in H as (? & ?)
  | H : disj _ (_ ++ _) |- _ => apply disj_app_r in H as (? & ?)
  | H : disj _ (_ :: _) |- _ => apply disj_cons_r in H as (? & ?)
  end.
