(* ===== verification/Buffers.v ===== *)
(** * Byte rings: the buffers between a socket and the TCP stack

    [Ring] models [hev/src/misc/hev-ring-buffer.c] (and the allocation macro of
    its header), the buffer in which a TCP session keeps the bytes read from the
    SOCKS5 server until lwIP has acknowledged them: lwIP is handed pointers into
    the buffer, so the bytes stay in use after they were read.  [Circular] models
    [hev-circular-buffer.c] of the task system, the buffer of
    [hev_task_io_splice].  Both are shown to implement a FIFO queue of bytes. *)

From S2P Require Import Prelude.

(** ** Scatter/gather vectors into one buffer *)

Record iovec := Iov { iov_base : Z; iov_len : Z }.

(** What [readv] does with the bytes it receives: fill the vector in order. *)
Fixpoint iov_store (d : list Z) (iov : list iovec) (bs : list Z) : list Z :=
  match iov with
  | [] => d
  | v :: iov' =>
      let n := Z.to_nat (iov_len v) in
      iov_store (splice (Z.to_nat (iov_base v)) (take n bs) d) iov' (drop n bs)
  end.

(** The bytes [writev] takes from a vector. *)
Fixpoint iov_load (d : list Z) (iov : list iovec) : list Z :=
  match iov with
  | [] => []
  | v :: iov' =>
      slice (Z.to_nat (iov_base v)) (Z.to_nat (iov_len v)) d ++ iov_load d iov'
  end.

(** ** The ring buffer of a TCP session *)

Module Ring.

Record HevRingBuffer := Mk {
  rp : Z;
  wp : Z;
  rda_size : Z;
  use_size : Z;
  max_size : Z;
  data : list Z
}.

(** [hev_ring_buffer_alloca(s)]; [mem] is whatever the stack holds. *)
Definition hev_ring_buffer_alloca (s : Z) (mem : list Z) : HevRingBuffer :=
  Mk 0 0 0 0 s mem.

Definition hev_ring_buffer_get_max_size (self : HevRingBuffer) : Z := max_size self.
Definition hev_ring_buffer_get_use_size (self : HevRingBuffer) : Z := use_size self.

Definition hev_ring_buffer_reading (self : HevRingBuffer) : list iovec :=
  if rda_size self =? 0 then []
  else
    let upper_size := u64 (max_size self - rp self) in
    if rda_size self <=? upper_size then [Iov (rp self) (rda_size self)]
    else [Iov (rp self) upper_size; Iov 0 (u64 (rda_size self - upper_size))].

Definition hev_ring_buffer_read_finish (self : HevRingBuffer) (size : Z) : HevRingBuffer :=
  Mk (u64 (rp self + size) mod max_size self) (wp self)
     (u64 (rda_size self - size)) (use_size self) (max_size self) (data self).

Definition hev_ring_buffer_read_release (self : HevRingBuffer) (size : Z) : HevRingBuffer :=
  let use := u64 (use_size self - size) in
  if use =? 0 then Mk 0 0 (rda_size self) use (max_size self) (data self)
  else Mk (rp self) (wp self) (rda_size self) use (max_size self) (data self).

Definition hev_ring_buffer_writing (self : HevRingBuffer) : list iovec :=
  if use_size self =? max_size self then []
  else
    let upper_size := u64 (max_size self - wp self) in
    let spc_size := u64 (max_size self - use_size self) in
    if spc_size <=? upper_size then [Iov (wp self) spc_size]
    else [Iov (wp self) upper_size; Iov 0 (u64 (spc_size - upper_size))].

Definition hev_ring_buffer_write_finish (self : HevRingBuffer) (size : Z) : HevRingBuffer :=
  Mk (rp self) (u64 (wp self + size) mod max_size self)
     (u64 (rda_size self + size)) (u64 (use_size self + size)) (max_size self) (data self).

(** One [readv] into the free space, as [tcp_splice_b] does it. *)
Definition ring_fill (self : HevRingBuffer) (bs : list Z) : HevRingBuffer :=
  hev_ring_buffer_write_finish
    (Mk (rp self) (wp self) (rda_size self) (use_size self) (max_size self)
        (iov_store (data self) (hev_ring_buffer_writing self) bs))
    (Z.of_nat (length bs)).

End Ring.

(** ** The circular buffer of the task system's splicer *)

Module Circular.

Record HevCircularBuffer := Mk {
  rp : Z;
  use_size : Z;
  max_size : Z;
  data : list Z
}.

Definition hev_circular_buffer_new (max : Z) (mem : list Z) : HevCircularBuffer :=
  Mk 0 0 max mem.

Definition hev_circular_buffer_reading (self : HevCircularBuffer) : list iovec :=
  let upper_size := u64 (max_size self - rp self) in
  if use_size self =? 0 then []
  else if use_size self <=? upper_size then [Iov (rp self) (use_size self)]
  else [Iov (rp self) upper_size; Iov 0 (u64 (use_size self - upper_size))].

Definition hev_circular_buffer_read_finish (self : HevCircularBuffer) (size : Z)
  : HevCircularBuffer :=
  Mk (u64 (rp self + size) mod max_size self) (u64 (use_size self - size))
     (max_size self) (data self).

Definition hev_circular_buffer_writing (self : HevCircularBuffer) : list iovec :=
  let wp := u64 (rp self + use_size self) mod max_size self in
  let upper_size := u64 (max_size self - wp) in
  let spc_size := u64 (max_size self - use_size self) in
  if use_size self =? max_size self then []
  else if spc_size <=? upper_size then [Iov wp spc_size]
  else [Iov wp upper_size; Iov 0 (u64 (spc_size - upper_size))].

Definition hev_circular_buffer_write_finish (self : HevCircularBuffer) (size : Z)
  : HevCircularBuffer :=
  Mk (rp self) (u64 (use_size self + size)) (max_size self) (data self).

Definition circ_fill (self : HevCircularBuffer) (bs : list Z) : HevCircularBuffer :=
  hev_circular_buffer_write_finish
    (Mk (rp self) (use_size self) (max_size self)
        (iov_store (data self) (hev_circular_buffer_writing self) bs))
    (Z.of_nat (length bs)).

End Circular.

(** ** Reading around the end of a buffer *)

(** Index [k] of a ring of [N] cells, for [k] below [2 * N]. *)
Definition wrap (N k : nat) : nat := if (k <? N)%nat then k else (k - N)%nat.

(** Arithmetic on wrapped positions. *)
Ltac wrap_lia :=
  unfold wrap;
  repeat (match goal with |- context [Nat.ltb ?a ?b] => destruct (Nat.ltb_spec a b) end);
  lia.

(** The [n] bytes of ring [d] from position [s]. *)
Definition ring_read (d : list Z) (s n : nat) : list Z := take n (drop s (d ++ d)).

Lemma wrap_lt N k : (k < 2 * N)%nat -> (wrap N k < N)%nat.
Proof. intros. wrap_lia. Qed.

Lemma lookup_ring_read d s n i :
  (s < length d)%nat -> (n <= length d)%nat -> (i < n)%nat ->
  ring_read d s n !! i = d !! wrap (length d) (s + i).
Proof.
  intros Hs Hn Hi. unfold ring_read, wrap.
  rewrite lookup_take_lt, lookup_drop by lia.
  destruct (Nat.ltb_spec (s + i) (length d)).
  - by rewrite lookup_app_l.
  - by rewrite lookup_app_r.
Qed.

Lemma length_ring_read d s n :
  (s < length d)%nat -> (n <= length d)%nat -> length (ring_read d s n) = n.
Proof. intros. unfold ring_read. autorewrite with len. lia. Qed.

(** The vector the C code builds for [n] bytes from position [s]. *)
Definition split_iov (N s n : Z) : list iovec :=
  if n <=? N - s then [Iov s n] else [Iov s (N - s); Iov 0 (n - (N - s))].

Lemma split_iov_load d s n :
  0 <= s < Z.of_nat (length d) -> 0 <= n <= Z.of_nat (length d) ->
  iov_load d (split_iov (Z.of_nat (length d)) s n) = ring_read d (Z.to_nat s) (Z.to_nat n).
Proof.
  intros Hs Hn. unfold split_iov. destruct (Z.leb_spec n (Z.of_nat (length d) - s)); simpl.
  - unfold slice, ring_read. rewrite app_nil_r, drop_app_le, take_app_le by len. done.
  - unfold slice, ring_read. rewrite app_nil_r, drop_app_le by lia.
    rewrite take_app_ge by len. rewrite take_ge by len. f_equal.
    rewrite drop_0. f_equal. len.
Qed.

Lemma lookup_splice off bs m j :
  (off + length bs <= length m)%nat ->
  splice off bs m !! j =
  if (Nat.leb off j && Nat.ltb j (off + length bs))%nat then bs !! (j - off)%nat else m !! j.
Proof.
  intros H. unfold splice.
  destruct (Nat.leb_spec off j), (Nat.ltb_spec j (off + length bs)); simpl.
  - rewrite lookup_app_r by len. rewrite lookup_app_l by len. f_equal. len.
  - rewrite lookup_app_r by len. rewrite lookup_app_r by len. rewrite lookup_drop. f_equal. len.
  - rewrite lookup_app_l by len. by apply lookup_take_lt.
  - rewrite lookup_app_l by len. by apply lookup_take_lt.
Qed.

Lemma iov_store_nil d iov : iov_store d iov [] = d.
Proof.
  revert d. induction iov as [|v iov IH]; intros d; simpl; [done|].
  rewrite take_nil, drop_nil, IH. unfold splice. simpl. rewrite Nat.add_0_r.
  apply take_drop.
Qed.

(** Filling a split vector writes exactly the cells [s .. s + length bs - 1] of
    the ring. *)
Lemma split_iov_store d s n bs j :
  0 <= s < Z.of_nat (length d) -> 0 <= n <= Z.of_nat (length d) ->
  (length bs <= Z.to_nat n)%nat -> (j < length d)%nat ->
  iov_store d (split_iov (Z.of_nat (length d)) s n) bs !! wrap (length d) (Z.to_nat s + j) =
  if (j <? length bs)%nat then bs !! j else d !! wrap (length d) (Z.to_nat s + j).
Proof.
  intros Hs Hn Hb Hj. unfold split_iov.
  destruct (Z.leb_spec n (Z.of_nat (length d) - s)); simpl.
  - rewrite take_ge by lia. rewrite lookup_splice by lia.
    unfold wrap. destruct (Nat.ltb_spec (Z.to_nat s + j) (length d)).
    + replace (Z.to_nat s <=? Z.to_nat s + j)%nat with true by (symmetry; apply Nat.leb_le; lia).
      simpl. destruct (Nat.ltb_spec (Z.to_nat s + j) (Z.to_nat s + length bs)),
        (Nat.ltb_spec j (length bs)); try lia; [|done].
      f_equal. lia.
    + destruct (Nat.leb_spec (Z.to_nat s) (Z.to_nat s + j - length d)); [lia|].
      simpl. destruct (Nat.ltb_spec j (length bs)); [lia|done].
  - set (m := Z.to_nat (Z.of_nat (length d) - s)).
    assert (Hm : (Z.to_nat s + m = length d)%nat) by (subst m; lia).
    rewrite (take_ge (drop m bs)) by (subst m; len).
    rewrite lookup_splice by (rewrite length_splice; subst m; len).
    rewrite lookup_splice by (subst m; len). autorewrite with len.
    change (Z.to_nat 0) with 0%nat. rewrite ?Nat.add_0_l, ?Nat.sub_0_r. simpl Nat.leb.
    rewrite andb_true_l. unfold wrap.
    destruct (Nat.ltb_spec (Z.to_nat s + j) (length d)).
    + destruct (Nat.ltb_spec (Z.to_nat s + j) (length bs - m)); [lia|].
      destruct (Nat.leb_spec (Z.to_nat s) (Z.to_nat s + j)); [|lia]. simpl.
      destruct (Nat.ltb_spec (Z.to_nat s + j) (Z.to_nat s + m `min` length bs)),
        (Nat.ltb_spec j (length bs)); try lia; [|done].
      rewrite lookup_take_lt by lia. f_equal. lia.
    + destruct (Nat.ltb_spec (Z.to_nat s + j - length d) (length bs - m)),
        (Nat.ltb_spec j (length bs)); try lia.
      * rewrite lookup_drop. f_equal. lia.
      * destruct (Nat.leb_spec (Z.to_nat s) (Z.to_nat s + j - length d)); [lia|]. done.
Qed.

Lemma length_split_iov_store d s n bs :
  0 <= s < Z.of_nat (length d) -> 0 <= n <= Z.of_nat (length d) ->
  (length bs <= Z.to_nat n)%nat ->
  length (iov_store d (split_iov (Z.of_nat (length d)) s n) bs) = length d.
Proof.
  intros Hs Hn Hb. unfold split_iov.
  destruct (Z.leb_spec n (Z.of_nat (length d) - s)); simpl;
    repeat (rewrite length_splice; autorewrite with len; try lia).
Qed.

(** Appending at the write position of a ring that holds [n] bytes from [s]
    leaves those bytes in place, behind them the new ones. *)
Lemma ring_append d s n spc bs :
  (s < length d)%nat -> (n <= length d)%nat -> (length bs <= spc)%nat ->
  (n + spc <= length d)%nat ->
  ring_read
    (iov_store d (split_iov (Z.of_nat (length d)) (Z.of_nat (wrap (length d) (s + n))) (Z.of_nat spc)) bs)
    s (n + length bs) = ring_read d s n ++ bs.
Proof.
  intros Hs Hn Hb Hspc.
  set (w := wrap (length d) (s + n)).
  assert (Hw : (w < length d)%nat) by (apply wrap_lt; lia).
  set (d' := iov_store _ _ _).
  assert (Hd' : length d' = length d) by (apply length_split_iov_store; lia).
  assert (Hcell : forall j, (j < length d)%nat ->
    d' !! wrap (length d) (w + j) =
    if (j <? length bs)%nat then bs !! j else d !! wrap (length d) (w + j)).
  { intros j Hj. pose proof (split_iov_store d (Z.of_nat w) (Z.of_nat spc) bs j) as H.
    rewrite !Nat2Z.id in H. apply H; lia. }
  apply list_eq_same_length with (n := (n + length bs)%nat).
  - rewrite length_app, length_ring_read by lia. lia.
  - apply length_ring_read; lia.
  - intros i x y Hi. rewrite lookup_ring_read by lia. rewrite Hd'.
    destruct (Nat.ltb_spec i n) as [Hin|Hin].
    + rewrite lookup_app_l by (rewrite length_ring_read; lia).
      rewrite lookup_ring_read by lia.
      specialize (Hcell (i + (length d - n))%nat ltac:(lia)).
      replace (wrap (length d) (w + (i + (length d - n)))) with (wrap (length d) (s + i)) in Hcell.
      * rewrite Hcell. destruct (Nat.ltb_spec (i + (length d - n)) (length bs)); [lia|]. congruence.
      * unfold w; wrap_lia.
    + rewrite lookup_app_r by (rewrite length_ring_read; lia).
      rewrite length_ring_read by lia.
      specialize (Hcell (i - n)%nat ltac:(lia)).
      replace (wrap (length d) (w + (i - n))) with (wrap (length d) (s + i)) in Hcell.
      * rewrite Hcell. destruct (Nat.ltb_spec (i - n) (length bs)); [congruence|lia].
      * unfold w; wrap_lia.
Qed.

Lemma ring_read_drop d s n k :
  (s < length d)%nat -> (n <= length d)%nat -> (k <= n)%nat ->
  ring_read d (wrap (length d) (s + k)) (n - k) = drop k (ring_read d s n).
Proof.
  intros Hs Hn Hk.
  assert (Hw : (k = length d /\ n = length d) \/ (wrap (length d) (s + k) < length d)%nat)
    by (unfold wrap; destruct (Nat.ltb_spec (s + k) (length d)); lia).
  destruct Hw as [[-> ->]|Hw].
  { rewrite Nat.sub_diag. rewrite drop_ge; [done|]. rewrite length_ring_read; lia. }
  apply list_eq_same_length with (n := (n - k)%nat).
  - autorewrite with len. rewrite length_ring_read by lia. done.
  - rewrite length_ring_read; lia.
  - intros i x y Hi. rewrite lookup_drop, !lookup_ring_read by lia.
    replace (wrap (length d) (wrap (length d) (s + k) + i)) with (wrap (length d) (s + (k + i)));
      [congruence|].
    wrap_lia.
Qed.

Lemma ring_read_take d s n k :
  (k <= n)%nat -> ring_read d s k = take k (ring_read d s n).
Proof. intros Hk. unfold ring_read. rewrite take_take. f_equal. lia. Qed.

(** [%] on positions below twice the size is [wrap]. *)
Lemma mod_wrap N k : 0 <= k < 2 * N -> k mod N = Z.of_nat (wrap (Z.to_nat N) (Z.to_nat k)).
Proof.
  intros H. unfold wrap. destruct (Nat.ltb_spec (Z.to_nat k) (Z.to_nat N)).
  - rewrite Z.mod_small; lia.
  - symmetry. apply Z.mod_unique with 1; lia.
Qed.

(** ** The ring buffer implements a queue with unacknowledged bytes

    The abstract state is the pair of the bytes handed to lwIP and not yet
    acknowledged, and the bytes not yet handed to it. *)

Module RingSpec.
Import Ring.

Record ring_rep (rb : HevRingBuffer) (una unread : list Z) : Prop := {
  rr_len : Z.of_nat (length (data rb)) = max_size rb;
  rr_max : 0 < max_size rb < 2 ^ 63;
  rr_rp : 0 <= rp rb < max_size rb;
  rr_wp : wp rb = Z.of_nat (wrap (length (data rb)) (Z.to_nat (rp rb) + length unread));
  rr_rda : rda_size rb = Z.of_nat (length unread);
  rr_use : use_size rb = Z.of_nat (length una + length unread);
  rr_fit : use_size rb <= max_size rb;
  rr_data : ring_read (data rb)
      (wrap (length (data rb)) (Z.to_nat (rp rb) + length (data rb) - length una))
      (length una + length unread) = una ++ unread
}.

Inductive op :=
  | Fill (bs : list Z)     (** [readv] into the buffer, [write_finish] *)
  | Deliver (n : Z)        (** [tcp_write] of [n] bytes, [read_finish] *)
  | Ack (n : Z).           (** [tcp_sent_handler]: [read_release] *)

Definition do_op (rb : HevRingBuffer) (o : op) : HevRingBuffer :=
  match o with
  | Fill bs => ring_fill rb bs
  | Deliver n => hev_ring_buffer_read_finish rb n
  | Ack n => hev_ring_buffer_read_release rb n
  end.

Definition queue := (list Z * list Z)%type.

Definition abs_op (max : Z) (q : queue) (o : op) : option queue :=
  let '(una, unread) := q in
  match o with
  | Fill bs =>
      if Z.of_nat (length una + length unread + length bs) <=? max
      then Some (una, unread ++ bs) else None
  | Deliver n =>
      if (0 <=? n) && (n <=? Z.of_nat (length unread))
      then Some (una ++ take (Z.to_nat n) unread, drop (Z.to_nat n) unread) else None
  | Ack n =>
      if (0 <=? n) && (n <=? Z.of_nat (length una))
      then Some (drop (Z.to_nat n) una, unread) else None
  end.

Fixpoint abs_run (max : Z) (q : queue) (os : list op) : option queue :=
  match os with
  | [] => Some q
  | o :: os' => match abs_op max q o with Some q' => abs_run max q' os' | None => None end
  end.

Lemma reading_split rb una unread :
  ring_rep rb una unread -> unread <> [] ->
  hev_ring_buffer_reading rb = split_iov (max_size rb) (rp rb) (rda_size rb).
Proof.
  intros [] Hne. unfold hev_ring_buffer_reading, split_iov.
  assert (0 < rda_size rb) by (rewrite rr_rda0; destruct unread; simpl; [done|lia]).
  destruct (Z.eqb_spec (rda_size rb) 0); [lia|].
  rewrite u64_id by lia. case_test; [done|]. rewrite u64_id by lia. done.
Qed.

Lemma writing_split rb una unread :
  ring_rep rb una unread -> use_size rb < max_size rb ->
  hev_ring_buffer_writing rb = split_iov (max_size rb) (wp rb) (max_size rb - use_size rb).
Proof.
  intros [] Hne. unfold hev_ring_buffer_writing, split_iov.
  destruct (Z.eqb_spec (use_size rb) (max_size rb)); [lia|].
  assert (wp rb < max_size rb)
    by (rewrite rr_wp0; pose proof (wrap_lt (length (data rb)) (Z.to_nat (rp rb) + length unread)); lia).
  rewrite !u64_id by lia. case_test; [done|]. rewrite u64_id by lia. done.
Qed.

Lemma rep_deliver rb una unread n :
  ring_rep rb una unread -> 0 <= n <= Z.of_nat (length unread) ->
  ring_rep (hev_ring_buffer_read_finish rb n)
    (una ++ take (Z.to_nat n) unread) (drop (Z.to_nat n) unread).
Proof.
  intros [] Hn.
  assert (Hrp : u64 (rp rb + n) mod max_size rb =
    Z.of_nat (wrap (length (data rb)) (Z.to_nat (rp rb) + Z.to_nat n))).
  { rewrite u64_id, mod_wrap by lia. do 2 f_equal; lia. }
  pose proof (wrap_lt (length (data rb)) (Z.to_nat (rp rb) + Z.to_nat n)).
  constructor; simpl; try rewrite Hrp; try (autorewrite with len; lia); try done.
  - rewrite rr_wp0, Nat2Z.id. f_equal. autorewrite with len. wrap_lia.
  - rewrite u64_id by lia. autorewrite with len. lia.
  - rewrite <- app_assoc, take_drop, <- rr_data0, Nat2Z.id. f_equal; [|autorewrite with len; lia].
    autorewrite with len. wrap_lia.
Qed.

Lemma rep_ack rb una unread n :
  ring_rep rb una unread -> 0 <= n <= Z.of_nat (length una) ->
  ring_rep (hev_ring_buffer_read_release rb n) (drop (Z.to_nat n) una) unread.
Proof.
  intros [] Hn. unfold hev_ring_buffer_read_release. rewrite u64_id by lia.
  destruct (Z.eqb_spec (use_size rb - n) 0) as [E|E].
  - assert (unread = []) as -> by (apply length_zero_iff_nil; lia).
    rewrite drop_ge by lia. constructor; simpl; try lia.
    + unfold wrap. destruct (Nat.ltb_spec 0 (length (data rb))); simpl; lia.
    + done.
  - constructor; simpl; try lia; try (autorewrite with len; lia).
    assert (Hs : (wrap (length (data rb)) (Z.to_nat (rp rb) + length (data rb) - length una)
                  < length (data rb))%nat)
      by wrap_lia.
    transitivity (drop (Z.to_nat n) (una ++ unread)).
    2: { rewrite drop_app_le by lia. done. }
    rewrite <- rr_data0, <- ring_read_drop by lia. f_equal; [|autorewrite with len; lia].
    autorewrite with len. wrap_lia.
Qed.

Lemma rep_fill rb una unread bs :
  ring_rep rb una unread ->
  Z.of_nat (length una + length unread + length bs) <= max_size rb ->
  ring_rep (ring_fill rb bs) una (unread ++ bs).
Proof.
  intros R Hb. pose proof R as [].
  assert (Hd : iov_store (data rb) (hev_ring_buffer_writing rb) bs =
    iov_store (data rb) (split_iov (Z.of_nat (length (data rb))) (wp rb)
      (max_size rb - use_size rb)) bs).
  { destruct (decide (use_size rb = max_size rb)).
    - assert (bs = []) as -> by (apply length_zero_iff_nil; lia). by rewrite !iov_store_nil.
    - rewrite (writing_split rb una unread), rr_len0 by (done || lia). done. }
  unfold ring_fill. rewrite Hd. clear Hd.
  pose proof (wrap_lt (length (data rb)) (Z.to_nat (rp rb) + length unread)).
  assert (Hlen : length (iov_store (data rb) (split_iov (Z.of_nat (length (data rb))) (wp rb)
      (max_size rb - use_size rb)) bs) = length (data rb))
    by (apply length_split_iov_store; lia).
  constructor; simpl; rewrite ?Hlen; try done; try lia.
  - rewrite u64_id, mod_wrap by lia. f_equal. rewrite rr_wp0, length_app. wrap_lia.
  - rewrite u64_id by lia. rewrite length_app. lia.
  - rewrite u64_id by lia. rewrite length_app. lia.
  - rewrite u64_id; lia.
  - set (s := wrap (length (data rb)) (Z.to_nat (rp rb) + length (data rb) - length una)) in *.
    assert (Hs : (s < length (data rb))%nat) by (unfold s; wrap_lia).
    pose proof (ring_append (data rb) s (length una + length unread)
      (Z.to_nat (max_size rb - use_size rb)) bs Hs ltac:(lia) ltac:(lia) ltac:(lia)) as Ha.
    rewrite Z2Nat.id in Ha by lia.
    replace (Z.of_nat (wrap (length (data rb)) (s + (length una + length unread)))) with (wp rb) in Ha.
    + rewrite length_app, Nat.add_assoc, Ha, rr_data0. by rewrite app_assoc.
    + rewrite rr_wp0. f_equal. subst s. wrap_lia.
Qed.

Lemma rep_alloca s mem :
  0 < s < 2 ^ 63 -> Z.of_nat (length mem) = s ->
  ring_rep (hev_ring_buffer_alloca s mem) [] [].
Proof.
  intros Hs Hm. constructor; simpl; try lia; [|done].
  unfold wrap. destruct (Nat.ltb_spec 0 (length mem)); simpl; lia.
Qed.

Lemma max_size_run rb os : max_size (foldl do_op rb os) = max_size rb.
Proof.
  revert rb. induction os as [|o os IH]; intros rb; simpl; [done|].
  rewrite IH. destruct o; simpl; try done. unfold hev_ring_buffer_read_release. by case_test.
Qed.

Lemma rep_run rb una unread os q :
  ring_rep rb una unread -> abs_run (max_size rb) (una, unread) os = Some q ->
  ring_rep (foldl do_op rb os) q.1 q.2.
Proof.
  revert rb una unread. induction os as [|o os IH]; intros rb una unread R Hrun;
    cbn [abs_run foldl] in *.
  { by simplify_eq. }
  destruct (abs_op (max_size rb) (una, unread) o) as [[una' unread']|] eqn:Eo; [|done].
  rewrite <- (max_size_run rb [o]) in Hrun. cbn [foldl] in Hrun.
  apply (IH _ una' unread'); [|exact Hrun]. clear IH Hrun.
  destruct o; simpl in Eo; case_match; bool_to_prop; simplify_eq; simpl.
  - by apply rep_fill.
  - by apply rep_deliver.
  - by apply rep_ack.
Qed.

Lemma rep_load rb una unread :
  ring_rep rb una unread -> iov_load (data rb) (hev_ring_buffer_reading rb) = unread.
Proof.
  intros R. pose proof R as [].
  destruct (decide (unread = [])) as [->|Hne].
  { unfold hev_ring_buffer_reading. simpl in rr_rda0. by rewrite rr_rda0. }
  erewrite reading_split by eauto. rewrite <- rr_len0, split_iov_load by lia.
  set (s := wrap (length (data rb)) (Z.to_nat (rp rb) + length (data rb) - length una)) in *.
  assert (Hs : (s < length (data rb))%nat) by (unfold s; wrap_lia).
  pose proof (ring_read_drop (data rb) s (length una + length unread) (length una)
    Hs ltac:(lia) ltac:(lia)) as H.
  rewrite rr_data0, drop_app_length in H.
  etransitivity; [|exact H]. f_equal; [|lia].
  subst s. wrap_lia.
Qed.

(** The ring buffer of a TCP session is a FIFO queue: for every sequence of
    fills, deliveries to lwIP and acknowledgements that the queue of capacity
    [s] permits, starting from [hev_ring_buffer_alloca], the vector that
    [hev_ring_buffer_reading] returns holds exactly the bytes received and not
    yet delivered, in order; the bytes delivered and not yet acknowledged (which
    lwIP still points at) are intact in the buffer, and [use_size] counts both. *)
Theorem ring_buffer_refines_queue s mem os una unread :
  0 < s < 2 ^ 63 -> Z.of_nat (length mem) = s ->
  abs_run s ([], []) os = Some (una, unread) ->
  let rb := foldl do_op (hev_ring_buffer_alloca s mem) os in
  iov_load (data rb) (hev_ring_buffer_reading rb) = unread
  /\ ring_read (data rb)
       (wrap (length (data rb)) (Z.to_nat (rp rb) + length (data rb) - length una))
       (length una + length unread) = una ++ unread
  /\ hev_ring_buffer_get_use_size rb = Z.of_nat (length una + length unread)
  /\ hev_ring_buffer_get_use_size rb <= hev_ring_buffer_get_max_size rb.
Proof.
  intros Hs Hm Hrun rb.
  pose proof (rep_run _ _ _ _ _ (rep_alloca s mem Hs Hm) Hrun) as R. simpl in R.
  split; [by eapply rep_load|]. destruct R. done.
Qed.

Lemma ring_buffer_refines_queue_witness :
  let os := [Fill [1; 2; 3]; Deliver 2; Ack 1; Fill [4; 5]; Deliver 1] in
  let rb := foldl do_op (hev_ring_buffer_alloca 4 [0; 0; 0; 0]) os in
  iov_load (data rb) (hev_ring_buffer_reading rb) = [4; 5].
Proof.
  exact (proj1 (ring_buffer_refines_queue 4 [0; 0; 0; 0]
    [Fill [1; 2; 3]; Deliver 2; Ack 1; Fill [4; 5]; Deliver 1] [2; 3] [4; 5]
    ltac:(lia) ltac:(reflexivity) ltac:(reflexivity))).
Defined.

End RingSpec.

(** ** The circular buffer implements a byte queue *)

Module CircularSpec.
Import Circular.

Record circ_rep (cb : HevCircularBuffer) (q : list Z) : Prop := {
  cr_len : Z.of_nat (length (data cb)) = max_size cb;
  cr_max : 0 < max_size cb < 2 ^ 63;
  cr_rp : 0 <= rp cb < max_size cb;
  cr_use : use_size cb = Z.of_nat (length q);
  cr_fit : use_size cb <= max_size cb;
  cr_data : ring_read (data cb) (Z.to_nat (rp cb)) (length q) = q
}.

Lemma rep_new max mem :
  0 < max < 2 ^ 63 -> Z.of_nat (length mem) = max ->
  circ_rep (hev_circular_buffer_new max mem) [].
Proof. intros Hs Hm. constructor; simpl; try lia. done. Qed.

Lemma circ_load cb q :
  circ_rep cb q -> iov_load (data cb) (hev_circular_buffer_reading cb) = q.
Proof.
  intros []. unfold hev_circular_buffer_reading.
  destruct (Z.eqb_spec (use_size cb) 0) as [E|E].
  { destruct q; simpl in *; [done|lia]. }
  rewrite <- cr_data0 at 1. rewrite u64_id by lia.
  pose proof (split_iov_load (data cb) (rp cb) (use_size cb) ltac:(lia) ltac:(lia)) as H.
  unfold split_iov in H. rewrite cr_len0 in H.
  destruct (Z.leb_spec (use_size cb) (max_size cb - rp cb)); rewrite ?u64_id by lia;
    rewrite H; f_equal; lia.
Qed.

Lemma circ_reading_nil cb q :
  circ_rep cb q -> hev_circular_buffer_reading cb = [] <-> q = [].
Proof.
  intros []. unfold hev_circular_buffer_reading.
  destruct (Z.eqb_spec (use_size cb) 0) as [E|E].
  - split; [intros _; destruct q; simpl in *; [done|lia]|done].
  - destruct q; simpl in *; [lia|]. by destruct (_ <=? _).
Qed.

Lemma circ_read_finish cb q n :
  circ_rep cb q -> 0 <= n <= Z.of_nat (length q) ->
  circ_rep (hev_circular_buffer_read_finish cb n) (drop (Z.to_nat n) q).
Proof.
  intros [] Hn.
  assert (Hrp : u64 (rp cb + n) mod max_size cb =
    Z.of_nat (wrap (length (data cb)) (Z.to_nat (rp cb) + Z.to_nat n))).
  { rewrite u64_id, mod_wrap by lia. do 2 f_equal; lia. }
  pose proof (wrap_lt (length (data cb)) (Z.to_nat (rp cb) + Z.to_nat n)).
  constructor; simpl; rewrite ?Hrp; try (autorewrite with len; lia); try done.
  - rewrite u64_id by lia. autorewrite with len. lia.
  - rewrite u64_id; lia.
  - rewrite Nat2Z.id, length_drop, ring_read_drop by lia. by rewrite cr_data0.
Qed.

Lemma circ_fill_rep cb q bs :
  circ_rep cb q -> Z.of_nat (length q + length bs) <= max_size cb ->
  circ_rep (circ_fill cb bs) (q ++ bs).
Proof.
  intros R Hb. pose proof R as [].
  set (w := Z.of_nat (wrap (length (data cb)) (Z.to_nat (rp cb) + length q))).
  assert (Hw : u64 (rp cb + use_size cb) mod max_size cb = w).
  { rewrite u64_id, mod_wrap by lia. unfold w. do 2 f_equal; lia. }
  assert (Hwl : 0 <= w < max_size cb)
    by (unfold w; pose proof (wrap_lt (length (data cb)) (Z.to_nat (rp cb) + length q)); lia).
  assert (Hd : iov_store (data cb) (hev_circular_buffer_writing cb) bs =
    iov_store (data cb) (split_iov (Z.of_nat (length (data cb))) w (max_size cb - use_size cb)) bs).
  { unfold hev_circular_buffer_writing. rewrite Hw.
    destruct (Z.eqb_spec (use_size cb) (max_size cb)).
    - assert (bs = []) as -> by (apply length_zero_iff_nil; lia). by rewrite !iov_store_nil.
    - rewrite (u64_id (max_size cb - w)), (u64_id (max_size cb - use_size cb)) by lia.
      unfold split_iov. rewrite cr_len0. case_test; [done|]. by rewrite u64_id by lia. }
  unfold circ_fill. rewrite Hd. clear Hd.
  assert (Hlen : length (iov_store (data cb) (split_iov (Z.of_nat (length (data cb))) w
      (max_size cb - use_size cb)) bs) = length (data cb))
    by (apply length_split_iov_store; lia).
  constructor; simpl; rewrite ?Hlen; try done; try lia.
  - rewrite u64_id by lia. rewrite length_app. lia.
  - rewrite u64_id; lia.
  - pose proof (ring_append (data cb) (Z.to_nat (rp cb)) (length q)
      (Z.to_nat (max_size cb - use_size cb)) bs ltac:(lia) ltac:(lia) ltac:(lia) ltac:(lia)) as Ha.
    rewrite Z2Nat.id in Ha by lia. fold w in Ha. by rewrite length_app, Ha, cr_data0.
Qed.

End CircularSpec.
