(* ===== verification/TaskIO.v ===== *)
(** * Cooperative socket I/O of the task system

    Models [hev-task-io-socket.c] and the splicer of [hev-task-io.c]
    (hev/third-part/hev-task-system/src/lib/io): the retry loops that turn
    non-blocking system calls into blocking ones by yielding the task.

    The kernel is a parameter of the loops, given as a script: one event for
    every system call the loop makes, together with the answer of the yielder if
    the loop calls it after that system call.  A loop consumes its script; the
    result [None] means that the script ended while the loop was still waiting. *)

From S2P Require Import Prelude Buffers.

Definition EAGAIN : Z := 11.
Definition EINPROGRESS : Z := 115.
Definition EALREADY : Z := 114.
Definition EISCONN : Z := 106.

Definition MSG_DONTWAIT : Z := 0x40.
Definition MSG_WAITALL : Z := 0x100.
Definition MSG_MORE : Z := 0x8000.

Definition flag (flags m : Z) : bool := negb (Z.land flags m =? 0).

(** ** The kernel's side of a stream socket *)

Inductive ioev :=
  | EvOK (k : nat)       (** at most [S k] bytes can be moved now *)
  | EvZero               (** the call returns 0 *)
  | EvErr (errno : Z).   (** the call returns -1 *)

Definition script := list (ioev * bool).

(** [recv (fd, buf, n, ..)] on a stream whose bytes still to come are [inq]:
    the result, [errno], the bytes received, the bytes left.  A stream with no
    byte left has been closed by the peer. *)
Definition sys_recv (e : ioev) (inq : list Z) (n : nat) : Z * Z * list Z * list Z :=
  match e with
  | EvOK k =>
      let m := ((S k `min` n) `min` length inq)%nat in
      (Z.of_nat m, 0, take m inq, drop m inq)
  | EvZero => (0, 0, [], inq)
  | EvErr e => (-1, e, [], inq)
  end.

(** [send (fd, buf, ..)]: the result, [errno] and the bytes accepted. *)
Definition sys_send (e : ioev) (buf : list Z) : Z * Z * list Z :=
  match e with
  | EvOK k =>
      let m := (S k `min` length buf)%nat in (Z.of_nat m, 0, take m buf)
  | EvZero => (0, 0, [])
  | EvErr e => (-1, e, [])
  end.

(** ** [hev_task_io_socket_recv] *)

(** One pass of the code after [retry:]; [size] bytes are in [buf] already.
    [inl]: return this value; [inr]: [goto retry]. *)
Definition recv_pass (ev : ioev) (stop : bool) (inq buf : list Z) (len : nat) (flags : Z)
  : (Z + unit) * list Z * list Z :=
  let size := length buf in
  let '(s, errno, got, inq') := sys_recv ev inq (len - size) in
  if (s <? 0) && (errno =? EAGAIN) && negb (flag flags MSG_DONTWAIT) then
    if stop then (inl (if (size =? 0)%nat then -2 else Z.of_nat size), inq', buf)
    else (inr tt, inq', buf)
  else if negb (flag flags MSG_WAITALL) then (inl s, inq', buf ++ got)
  else if s <=? 0 then (inl (if (size =? 0)%nat then s else Z.of_nat size), inq', buf)
  else
    let buf' := buf ++ got in
    if (length buf' <? len)%nat then (inr tt, inq', buf')
    else (inl (Z.of_nat (length buf')), inq', buf').

Fixpoint recv_loop (sc : script) (inq buf : list Z) (len : nat) (flags : Z)
  : option (Z * list Z * list Z) :=
  match sc with
  | [] => None
  | (ev, stop) :: sc' =>
      match recv_pass ev stop inq buf len flags with
      | (inl r, inq', buf') => Some (r, buf', inq')
      | (inr _, inq', buf') => recv_loop sc' inq' buf' len flags
      end
  end.

Definition hev_task_io_socket_recv (sc : script) (inq : list Z) (len : nat) (flags : Z) :=
  recv_loop sc inq [] len flags.

(** ** [hev_task_io_socket_send] *)

Definition send_pass (ev : ioev) (stop : bool) (buf : list Z) (size : nat) (out : list Z)
    (flags : Z) : (Z + unit) * nat * list Z :=
  let '(s, errno, sent) := sys_send ev (drop size buf) in
  if (s <? 0) && (errno =? EAGAIN) && negb (flag flags MSG_DONTWAIT) then
    if stop then (inl (if (size =? 0)%nat then -2 else Z.of_nat size), size, out)
    else (inr tt, size, out)
  else if negb (flag flags MSG_WAITALL) then (inl s, size, out ++ sent)
  else if s <=? 0 then (inl (if (size =? 0)%nat then s else Z.of_nat size), size, out)
  else
    let size' := (size + length sent)%nat in
    if (size' <? length buf)%nat then (inr tt, size', out ++ sent)
    else (inl (Z.of_nat size'), size', out ++ sent).

Fixpoint send_loop (sc : script) (buf : list Z) (size : nat) (out : list Z) (flags : Z)
  : option (Z * list Z) :=
  match sc with
  | [] => None
  | (ev, stop) :: sc' =>
      match send_pass ev stop buf size out flags with
      | (inl r, _, out') => Some (r, out')
      | (inr _, size', out') => send_loop sc' buf size' out' flags
      end
  end.

Definition hev_task_io_socket_send (sc : script) (buf : list Z) (flags : Z) :=
  send_loop sc buf 0 [] flags.

(** ** [hev_task_io_socket_sendmsg]

    The message is a vector of buffers.  After a partial write of [s] bytes the
    C code advances the vector: it skips the entries that were sent entirely and
    moves the base of the first one that was not. *)

Fixpoint iov_advance (iov : list (list Z)) (s : nat) : list (list Z) :=
  match iov with
  | [] => []
  | v :: iov' => if (s <? length v)%nat then drop s v :: iov' else iov_advance iov' (s - length v)
  end.

Definition sendmsg_pass (ev : ioev) (stop : bool) (iov : list (list Z)) (len size : nat)
    (out : list Z) (flags : Z) : (Z + unit) * list (list Z) * nat * list Z :=
  let '(s, errno, sent) := sys_send ev (concat iov) in
  if (s <? 0) && (errno =? EAGAIN) && negb (flag flags MSG_DONTWAIT) then
    if stop then (inl (if (size =? 0)%nat then -2 else Z.of_nat size), iov, size, out)
    else (inr tt, iov, size, out)
  else if negb (flag flags MSG_WAITALL) then (inl s, iov, size, out ++ sent)
  else if s <=? 0 then (inl (if (size =? 0)%nat then s else Z.of_nat size), iov, size, out)
  else
    let size' := (size + length sent)%nat in
    if (size' <? len)%nat
    then (inr tt, iov_advance iov (length sent), size', out ++ sent)
    else (inl (Z.of_nat size'), iov, size', out ++ sent).

Fixpoint sendmsg_loop (sc : script) (iov : list (list Z)) (len size : nat) (out : list Z)
    (flags : Z) : option (Z * list Z) :=
  match sc with
  | [] => None
  | (ev, stop) :: sc' =>
      match sendmsg_pass ev stop iov len size out flags with
      | (inl r, _, _, out') => Some (r, out')
      | (inr _, iov', size', out') => sendmsg_loop sc' iov' len size' out' flags
      end
  end.

Definition hev_task_io_socket_sendmsg (sc : script) (iov : list (list Z)) (flags : Z) :=
  sendmsg_loop sc iov (length (concat iov)) 0 [] flags.

(** ** [hev_task_io_socket_recvmsg]

    The vector to fill is given by the lengths of its entries; the entries are
    consecutive in the model, so the bytes received are one list. *)

Fixpoint lens_advance (lens : list nat) (s : nat) : list nat :=
  match lens with
  | [] => []
  | n :: lens' => if (s <? n)%nat then (n - s)%nat :: lens' else lens_advance lens' (s - n)
  end.

Definition recvmsg_pass (ev : ioev) (stop : bool) (inq buf : list Z) (lens : list nat)
    (len : nat) (flags : Z) : (Z + unit) * list Z * list Z * list nat :=
  let size := length buf in
  let '(s, errno, got, inq') := sys_recv ev inq (sum_list lens) in
  if (s <? 0) && (errno =? EAGAIN) && negb (flag flags MSG_DONTWAIT) then
    if stop then (inl (if (size =? 0)%nat then -2 else Z.of_nat size), inq', buf, lens)
    else (inr tt, inq', buf, lens)
  else if negb (flag flags MSG_WAITALL) then (inl s, inq', buf ++ got, lens)
  else if s <=? 0 then (inl (if (size =? 0)%nat then s else Z.of_nat size), inq', buf, lens)
  else
    let buf' := buf ++ got in
    if (length buf' <? len)%nat
    then (inr tt, inq', buf', lens_advance lens (length got))
    else (inl (Z.of_nat (length buf')), inq', buf', lens).

Fixpoint recvmsg_loop (sc : script) (inq buf : list Z) (lens : list nat) (len : nat) (flags : Z)
  : option (Z * list Z * list Z) :=
  match sc with
  | [] => None
  | (ev, stop) :: sc' =>
      match recvmsg_pass ev stop inq buf lens len flags with
      | (inl r, inq', buf', _) => Some (r, buf', inq')
      | (inr _, inq', buf', lens') => recvmsg_loop sc' inq' buf' lens' len flags
      end
  end.

Definition hev_task_io_socket_recvmsg (sc : script) (inq : list Z) (lens : list nat) (flags : Z) :=
  recvmsg_loop sc inq [] lens (sum_list lens) flags.

(** ** [hev_task_io_socket_connect] *)

Fixpoint hev_task_io_socket_connect (sc : list (Z * bool)) : option Z :=
  match sc with
  | [] => None
  | (errno, stop) :: sc' =>
      (* errno = 0: connect returned 0 *)
      if errno =? 0 then Some 0
      else if (errno =? EINPROGRESS) || (errno =? EALREADY) then
        if stop then Some (-2) else hev_task_io_socket_connect sc'
      else if errno =? EISCONN then Some 0
      else Some (-1)
  end.

(** ** What the callers rely on

    The answer [(r, bs)] of a receive of [len] bytes with [MSG_WAITALL]: either
    everything, or a shorter count ([r] bytes, or none and a code [<= 0]). *)
Definition recv_contract (len : nat) (r : Z) (bs : list Z) : Prop :=
  (r = Z.of_nat len /\ length bs = len)
  \/ (r < Z.of_nat len /\ Z.of_nat (length bs) = Z.max 0 r).

(** The answer [r] of sending [buf] with [MSG_WAITALL], of which [out] left. *)
Definition send_contract (buf : list Z) (r : Z) (out : list Z) : Prop :=
  out `prefix_of` buf /\ Z.of_nat (length out) = Z.max 0 r.

Lemma sys_recv_split ev inq n s errno got inq' :
  sys_recv ev inq n = (s, errno, got, inq') ->
  inq = got ++ inq' /\ (length got <= n)%nat /\ Z.of_nat (length got) = Z.max 0 s
  /\ (s < 0 -> s = -1).
Proof.
  destruct ev; cbn [sys_recv]; intros; simplify_eq; try (split_and!; (done || simpl; lia)).
  rewrite take_drop. autorewrite with len. split_and!; (done || lia).
Qed.

Lemma sys_send_split ev buf s errno sent :
  sys_send ev buf = (s, errno, sent) ->
  sent = take (length sent) buf /\ (length sent <= length buf)%nat
  /\ Z.of_nat (length sent) = Z.max 0 s /\ (s < 0 -> s = -1).
Proof.
  destruct ev; cbn [sys_send]; intros; simplify_eq; try (split_and!; (done || simpl; lia)).
  autorewrite with len. split_and!; try lia. f_equal. lia.
Qed.

(** Case analysis of one pass of a retry loop. *)
Ltac io_pass :=
  repeat match goal with
  | H : context [if ?b then _ else _] |- _ =>
      let E := fresh "E" in destruct b eqn:E; bool_to_prop; simplify_eq
  | |- context [if ?b then _ else _] => let E := fresh "E" in destruct b eqn:E
  end;
  repeat match goal with
  | H : (_ =? _)%nat = true |- _ => apply Nat.eqb_eq in H
  | H : (_ =? _)%nat = false |- _ => apply Nat.eqb_neq in H
  | H : (_ <? _)%nat = true |- _ => apply Nat.ltb_lt in H
  | H : (_ <? _)%nat = false |- _ => apply Nat.ltb_ge in H
  end.

Lemma recv_pass_spec ev stop inq buf len flags res inq' buf' :
  flag flags MSG_WAITALL = true ->
  (length buf < len)%nat \/ buf = [] ->
  recv_pass ev stop inq buf len flags = (res, inq', buf') ->
  buf ++ inq = buf' ++ inq'
  /\ match res with
     | inl r => recv_contract len r buf'
     | inr _ => (length buf' < len)%nat \/ buf' = []
     end.
Proof.
  intros Hw Hb Ep. unfold recv_pass in Ep.
  destruct (sys_recv ev inq (len - length buf)) as [[[s errno] got] inq2] eqn:Es.
  apply sys_recv_split in Es as (-> & Hg & Hl & Hneg).
  rewrite Hw in Ep. cbn [negb] in Ep. unfold recv_contract.
  assert (Hb' : length buf = 0%nat \/ (length buf < len)%nat)
    by (destruct Hb as [| ->]; [by right|by left]).
  io_pass; rewrite ?length_app in *.
  all: try (assert (got = []) as -> by (apply length_zero_iff_nil; lia)).
  all: split; [by rewrite <- ?app_assoc|]; try lia; auto.
Qed.

Lemma recv_loop_contract sc inq buf len flags r bs inq' :
  flag flags MSG_WAITALL = true ->
  (length buf < len)%nat \/ buf = [] ->
  recv_loop sc inq buf len flags = Some (r, bs, inq') ->
  buf ++ inq = bs ++ inq' /\ recv_contract len r bs.
Proof.
  intros Hw. revert inq buf.
  induction sc as [|[ev stop] sc IH]; intros inq buf Hb H; cbn [recv_loop] in H; [done|].
  destruct (recv_pass ev stop inq buf len flags) as [[res inq1] buf1] eqn:Ep.
  apply recv_pass_spec in Ep as [-> Hres]; [|done..].
  destruct res; simplify_eq; auto.
Qed.

(** The script lets the loop make progress: the kernel moves bytes or asks to
    wait, and the yielder never gives up. *)
Definition willing (e : ioev * bool) : Prop :=
  match e with
  | (EvOK _, _) => True
  | (EvZero, _) => False
  | (EvErr errno, stop) => errno = EAGAIN /\ stop = false
  end.

(** How many of the calls of a script move bytes. *)
Fixpoint moves (sc : script) : nat :=
  match sc with
  | [] => 0
  | (EvOK _, _) :: sc' => S (moves sc')
  | _ :: sc' => moves sc'
  end.

Lemma recv_loop_complete sc inq buf len flags :
  flag flags MSG_WAITALL = true -> flag flags MSG_DONTWAIT = false ->
  Forall willing sc -> (length buf < len)%nat -> (len <= moves sc + length buf)%nat ->
  (len - length buf <= length inq)%nat ->
  recv_loop sc inq buf len flags =
    Some (Z.of_nat len, buf ++ take (len - length buf) inq, drop (len - length buf) inq).
Proof.
  intros Hw Hd Hsc. revert inq buf.
  induction Hsc as [|[ev stop] sc Hev Hsc IH]; intros inq buf Hb Hm Hin; simpl in Hm; [lia|].
  cbn [recv_loop]. unfold recv_pass. rewrite Hw, Hd.
  destruct ev as [k| |e]; cbn [sys_recv].
  - set (m := ((S k `min` (len - length buf)) `min` length inq)%nat).
    destruct (Z.ltb_spec (Z.of_nat m) 0); [lia|]. cbn [andb negb].
    destruct (Z.leb_spec (Z.of_nat m) 0); [lia|].
    rewrite length_app, length_take_le by lia.
    destruct (Nat.ltb_spec (length buf + m) len).
    + rewrite IH; autorewrite with len; try lia.
      do 2 f_equal; [f_equal|].
      * rewrite <- app_assoc, take_take_drop. do 2 f_equal. len.
      * rewrite drop_drop. f_equal. len.
    + assert (m = (len - length buf)%nat) as -> by lia. do 3 f_equal. lia.
  - done.
  - destruct Hev as [-> ->]. simpl. apply IH; lia.
Qed.

(** A blocking receive ([MSG_WAITALL]) of [hev-task-io-socket.c] takes its
    bytes from the front of the stream, however the kernel splits it: what was
    received and what is left is the stream; the result is [len] exactly when
    [len] bytes arrived; and it is [len] whenever the peer sends that many bytes
    and the yielder does not give up. *)
Theorem recv_waitall_correct sc inq len flags :
  flag flags MSG_WAITALL = true -> flag flags MSG_DONTWAIT = false ->
  (forall r bs inq', hev_task_io_socket_recv sc inq len flags = Some (r, bs, inq') ->
     inq = bs ++ inq' /\ recv_contract len r bs)
  /\ (Forall willing sc -> (0 < len)%nat -> (len <= moves sc)%nat -> (len <= length inq)%nat ->
      hev_task_io_socket_recv sc inq len flags = Some (Z.of_nat len, take len inq, drop len inq)).
Proof.
  intros Hw Hd. unfold hev_task_io_socket_recv. split.
  - intros r bs inq' H. by apply recv_loop_contract in H; auto.
  - intros Hsc H0 Hm Hl. rewrite recv_loop_complete; simpl; auto; try lia.
    by rewrite Nat.sub_0_r.
Qed.

Lemma recv_waitall_correct_witness :
  hev_task_io_socket_recv
    [(EvOK 1, false); (EvErr EAGAIN, false); (EvOK 0, false); (EvOK 9, false)]
    [5; 1; 0; 7; 7] 4 MSG_WAITALL = Some (4, [5; 1; 0; 7], [7])
  /\ recv_contract 4 4 [5; 1; 0; 7].
Proof.
  assert (H : hev_task_io_socket_recv
    [(EvOK 1, false); (EvErr EAGAIN, false); (EvOK 0, false); (EvOK 9, false)]
    [5; 1; 0; 7; 7] 4 MSG_WAITALL = Some (4, [5; 1; 0; 7], [7])) by reflexivity.
  split; [exact H|].
  exact (proj2 (proj1 (recv_waitall_correct _ _ _ MSG_WAITALL eq_refl eq_refl) _ _ _ H)).
Defined.

(** ** Vectors *)

Lemma concat_iov_advance iov s :
  concat (iov_advance iov s) = drop s (concat iov).
Proof.
  revert s. induction iov as [|v iov IH]; intros s; simpl; [by rewrite drop_nil|].
  destruct (Nat.ltb_spec s (length v)); simpl.
  - by rewrite drop_app_le by lia.
  - rewrite IH, drop_app_ge by lia. done.
Qed.

Lemma sum_lens_advance lens s : sum_list (lens_advance lens s) = (sum_list lens - s)%nat.
Proof.
  revert s. induction lens as [|n lens IH]; intros s; simpl; [lia|].
  destruct (Nat.ltb_spec s n); simpl; [lia|]. rewrite IH. lia.
Qed.

Lemma sendmsg_loop_send sc iov buf size out flags :
  concat iov = drop size buf ->
  sendmsg_loop sc iov (length buf) size out flags = send_loop sc buf size out flags.
Proof.
  revert iov size out. induction sc as [|[ev stop] sc IH]; intros iov size out H; [done|].
  cbn [sendmsg_loop send_loop]. unfold sendmsg_pass, send_pass. rewrite H.
  destruct (sys_send ev (drop size buf)) as [[s errno] sent].
  repeat case_match; simplify_eq; auto.
  apply IH. by rewrite concat_iov_advance, H, drop_drop.
Qed.

Lemma recvmsg_loop_recv sc inq buf lens len flags :
  sum_list lens = (len - length buf)%nat ->
  recvmsg_loop sc inq buf lens len flags = recv_loop sc inq buf len flags.
Proof.
  revert inq buf lens. induction sc as [|[ev stop] sc IH]; intros inq buf lens H; [done|].
  cbn [recvmsg_loop recv_loop]. unfold recvmsg_pass, recv_pass. rewrite H.
  destruct (sys_recv ev inq (len - length buf)) as [[[s errno] got] inq'].
  repeat case_match; simplify_eq; auto.
  apply IH. rewrite sum_lens_advance, H, length_app. lia.
Qed.

(** The vectored calls are the plain ones: sending a vector with
    [hev_task_io_socket_sendmsg] does what sending its concatenation with
    [hev_task_io_socket_send] does, and [hev_task_io_socket_recvmsg] fills its
    vector with the bytes [hev_task_io_socket_recv] would put in one buffer,
    for every script of the kernel (so the code that advances the vector after
    a partial transfer neither loses nor repeats a byte). *)
Theorem vectored_io_equiv sc iov lens inq flags :
  hev_task_io_socket_sendmsg sc iov flags = hev_task_io_socket_send sc (concat iov) flags
  /\ hev_task_io_socket_recvmsg sc inq lens flags
     = hev_task_io_socket_recv sc inq (sum_list lens) flags.
Proof.
  split.
  - apply sendmsg_loop_send. by rewrite drop_0.
  - apply recvmsg_loop_recv. simpl. lia.
Qed.

Lemma send_loop_contract sc buf size out flags r out' :
  flag flags MSG_WAITALL = true ->
  out = take size buf -> (size < length buf)%nat \/ size = 0%nat ->
  send_loop sc buf size out flags = Some (r, out') -> send_contract buf r out'.
Proof.
  intros Hw. revert size out.
  induction sc as [|[ev stop] sc IH]; intros size out Ho Hs H; cbn [send_loop] in H; [done|].
  unfold send_pass in H.
  destruct (sys_send ev (drop size buf)) as [[s errno] sent] eqn:Es.
  apply sys_send_split in Es as (Hsent & Hg & Hl & Hneg). rewrite length_drop in Hg.
  assert (Ho' : out ++ sent = take (size + length sent) buf).
  { rewrite Ho, Hsent at 1. by rewrite take_take_drop. }
  rewrite Hw in H. cbn [negb] in H. unfold send_contract.
  clear Hsent. io_pass; try (eapply IH; [..|exact H]; [done|lia]); rewrite ?Ho'.
  all: split; [apply prefix_take|]. all: autorewrite with len; lia.
Qed.

Lemma send_loop_complete sc buf size out flags :
  flag flags MSG_WAITALL = true -> flag flags MSG_DONTWAIT = false ->
  Forall willing sc -> (size < length buf)%nat -> (length buf <= moves sc + size)%nat ->
  send_loop sc buf size out flags = Some (Z.of_nat (length buf), out ++ drop size buf).
Proof.
  intros Hw Hd Hsc. revert size out.
  induction Hsc as [|[ev stop] sc Hev Hsc IH]; intros size out Hb Hm; simpl in Hm; [lia|].
  cbn [send_loop]. unfold send_pass. rewrite Hw, Hd.
  destruct ev as [k| |e]; cbn [sys_send]; rewrite ?length_drop.
  - set (m := (S k `min` (length buf - size))%nat).
    destruct (Z.ltb_spec (Z.of_nat m) 0); [lia|]. cbn [andb negb].
    destruct (Z.leb_spec (Z.of_nat m) 0); [lia|].
    rewrite length_take_le by (rewrite length_drop; lia).
    destruct (Nat.ltb_spec (size + m) (length buf)).
    + rewrite IH by lia. rewrite <- app_assoc, <- drop_drop, take_drop. done.
    + rewrite take_ge by (rewrite length_drop; lia). do 2 f_equal. lia.
  - done.
  - destruct Hev as [-> ->]. simpl. apply IH; lia.
Qed.

(** A blocking send of [hev-task-io-socket.c] delivers a prefix of its
    buffer, of the length it returns (nothing when it returns an error): it
    never reports more than was sent, and returns the whole length only when
    everything was sent; and it sends everything whenever the kernel goes on
    taking bytes and the yielder does not give up. *)
Theorem send_waitall_correct sc buf flags :
  flag flags MSG_WAITALL = true -> flag flags MSG_DONTWAIT = false ->
  (forall r out, hev_task_io_socket_send sc buf flags = Some (r, out) -> send_contract buf r out)
  /\ (Forall willing sc -> (0 < length buf)%nat -> (length buf <= moves sc)%nat ->
      hev_task_io_socket_send sc buf flags = Some (Z.of_nat (length buf), buf)).
Proof.
  intros Hw Hd. split.
  - intros r out H. eapply send_loop_contract; [done| | |exact H]; [done|lia].
  - intros Hsc H0 Hm. unfold hev_task_io_socket_send. rewrite send_loop_complete by (done || lia). done.
Qed.

Lemma send_waitall_correct_witness :
  send_contract [9; 8; 7] 2 [9; 8]
  /\ hev_task_io_socket_send [(EvOK 0, false); (EvErr EAGAIN, false); (EvOK 0, false); (EvOK 5, false)]
       [9; 8; 7] MSG_WAITALL = Some (3, [9; 8; 7]).
Proof.
  split.
  - apply (proj1 (send_waitall_correct [(EvOK 1, false); (EvErr EAGAIN, true)] [9; 8; 7] MSG_WAITALL
      eq_refl eq_refl)); reflexivity.
  - apply (proj2 (send_waitall_correct
      [(EvOK 0, false); (EvErr EAGAIN, false); (EvOK 0, false); (EvOK 5, false)] [9; 8; 7] MSG_WAITALL
      eq_refl eq_refl)); [repeat constructor|simpl; lia..].
Defined.
