(* ===== verification/DatagramIO.v ===== *)
(** * Datagrams, connections and plain reads of the task system

    Models the functions of hev-task-io-socket.c and hev-task-io.c that [TaskIO] leaves: [hev_task_io_socket_recvfrom], [.._sendto], [.._recvmmsg], [.._sendmmsg],
    [.._accept] and [hev_task_io_read], [.._readv], [.._write], [.._writev].  They repeat two loops around different system calls; here the loops are
    definitions and the calls their arguments.  The kernel is a script, as in [TaskIO]; a datagram socket without a datagram answers [EAGAIN]. *)

From S2P Require Import Prelude TaskIO.

(** ** The loops *)

Section loops.
Context {S : Type}.

(** The code after [retry:] of the four functions with [MSG_WAITALL]; [count]: what was moved; [sys]: the call for [n] more. *)
Fixpoint retry_loop (sys : ioev -> S -> nat -> Z * Z * S) (sc : script) (st : S) (count len : nat) (flags : Z) : option (Z * S) :=
  match sc with
  | [] => None
  | (ev, stop) :: sc =>
      let '(s, errno, st) := sys ev st (len - count)%nat in
      if (s <? 0) && (errno =? EAGAIN) && negb (flag flags MSG_DONTWAIT) then
        if stop : bool then Some (if (count =? 0)%nat then -2 else Z.of_nat count, st) else retry_loop sys sc st count len flags
      else if negb (flag flags MSG_WAITALL) then Some (s, st)
      else if s <=? 0 then Some (if (count =? 0)%nat then s else Z.of_nat count, st)
      else
        let count := (count + Z.to_nat s)%nat in
        if (count <? len)%nat then retry_loop sys sc st count len flags else Some (Z.of_nat count, st)
  end.

(** The loop of the functions that only wait. *)
Fixpoint wait_loop (sys : ioev -> S -> Z * Z * S) (sc : script) (st : S) : option (Z * S) :=
  match sc with
  | [] => None
  | (ev, stop) :: sc =>
      let '(s, errno, st) := sys ev st in
      if (s <? 0) && (errno =? EAGAIN) then if stop : bool then Some (-2, st) else wait_loop sys sc st else Some (s, st)
  end.

End loops.

(** ** Datagrams *)

(** A datagram and its address. *)
Record dgram := mkDgram { d_addr : list Z; d_data : list Z }.

(** [recvmmsg]: what was received, and what is still to come. *)
Definition sys_recvmmsg (ev : ioev) (st : list dgram * list dgram) (n : nat) : Z * Z * (list dgram * list dgram) :=
  let '(got, inq) := st in
  match ev with
  | EvOK k => if bool_decide (inq = []) then (-1, EAGAIN, st) else let m := ((S k `min` n) `min` length inq)%nat in (Z.of_nat m, 0, (got ++ take m inq, drop m inq))
  | EvZero => (0, 0, st)
  | EvErr e => (-1, e, st)
  end.

Definition hev_task_io_socket_recvmmsg (sc : script) (inq : list dgram) (n : nat) (flags : Z) : option (Z * (list dgram * list dgram)) :=
  retry_loop sys_recvmmsg sc ([], inq) 0 n flags.

(** [sendmmsg]: what was sent, and the messages that are left. *)
Definition sys_sendmmsg (ev : ioev) (st : list dgram * list dgram) (n : nat) : Z * Z * (list dgram * list dgram) :=
  let '(out, msgv) := st in
  match ev with
  | EvOK k => let m := (S k `min` n)%nat in (Z.of_nat m, 0, (out ++ take m msgv, drop m msgv))
  | EvZero => (0, 0, st)
  | EvErr e => (-1, e, st)
  end.

Definition hev_task_io_socket_sendmmsg (sc : script) (msgv : list dgram) (flags : Z) : option (Z * (list dgram * list dgram)) :=
  retry_loop sys_sendmmsg sc ([], msgv) 0 (length msgv) flags.

(** [recvfrom]: the buffer, the address of the last datagram, and the datagrams still to come; what does not fit is lost. *)
Definition sys_recvfrom (ev : ioev) (st : list Z * list Z * list dgram) (n : nat) : Z * Z * (list Z * list Z * list dgram) :=
  let '(buf, addr, inq) := st in
  match ev with
  | EvOK _ => match inq with [] => (-1, EAGAIN, st) | d :: inq => let got := take n (d_data d) in (Z.of_nat (length got), 0, (buf ++ got, d_addr d, inq)) end
  | EvZero => (0, 0, st)
  | EvErr e => (-1, e, st)
  end.

Definition hev_task_io_socket_recvfrom (sc : script) (addr : list Z) (inq : list dgram) (len : nat) (flags : Z) : option (Z * (list Z * list Z * list dgram)) :=
  retry_loop sys_recvfrom sc ([], addr, inq) 0 len flags.

(** [sendto]: the datagrams that were sent, and the bytes that are left. *)
Definition sys_sendto (addr : list Z) (ev : ioev) (st : list dgram * list Z) (n : nat) : Z * Z * (list dgram * list Z) :=
  let '(out, buf) := st in
  match ev with
  | EvOK k => let m := (S k `min` n)%nat in (Z.of_nat m, 0, (out ++ [mkDgram addr (take m buf)], drop m buf))
  | EvZero => (0, 0, st)
  | EvErr e => (-1, e, st)
  end.

Definition hev_task_io_socket_sendto (sc : script) (addr buf : list Z) (flags : Z) : option (Z * (list dgram * list Z)) :=
  retry_loop (sys_sendto addr) sc ([], buf) 0 (length buf) flags.

(** ** Connections, reads and writes *)

(** [accept4]: the connections that wait, as descriptors. *)
Definition sys_accept (ev : ioev) (st : list Z) : Z * Z * list Z :=
  match ev with EvOK _ => match st with [] => (-1, EAGAIN, st) | fd :: st => (fd, 0, st) end | EvZero => (-1, EAGAIN, st) | EvErr e => (-1, e, st) end.
Definition hev_task_io_socket_accept (sc : script) (pending : list Z) : option (Z * list Z) := wait_loop sys_accept sc pending.

Definition sys_read (count : nat) (ev : ioev) (st : list Z * list Z) : Z * Z * (list Z * list Z) :=
  let '(buf, inq) := st in let '(s, errno, got, inq) := sys_recv ev inq count in (s, errno, (buf ++ got, inq)).
Definition hev_task_io_read (sc : script) (inq : list Z) (count : nat) : option (Z * (list Z * list Z)) := wait_loop (sys_read count) sc ([], inq).
(** The room of a vector; what is read is the concatenation of its parts. *)
Definition hev_task_io_readv (sc : script) (inq : list Z) (iov : list nat) : option (Z * (list Z * list Z)) := wait_loop (sys_read (sum_list iov)) sc ([], inq).

Definition sys_write (buf : list Z) (ev : ioev) (out : list Z) : Z * Z * list Z := let '(s, errno, sent) := sys_send ev buf in (s, errno, out ++ sent).
Definition hev_task_io_write (sc : script) (buf : list Z) : option (Z * list Z) := wait_loop (sys_write buf) sc [].
Definition hev_task_io_writev (sc : script) (iov : list (list Z)) : option (Z * list Z) := wait_loop (sys_write (concat iov)) sc [].

(** ** Theorems on the loops *)

Section loop_theorems.
Context {S : Type}.

(** What a call moves: [moved st k]: after [k] units. *)
Lemma retry_loop_moves (sys : ioev -> S -> nat -> Z * Z * S) (moved : S -> nat -> Prop) flags len :
  (forall ev st n k s errno st', moved st k -> (k + n <= len)%nat -> sys ev st n = (s, errno, st') -> (s <= 0 /\ st' = st) \/ (0 < s /\ (Z.to_nat s <= n)%nat /\ moved st' (k + Z.to_nat s)%nat)) ->
  forall sc st k r st', moved st k -> (k <= len)%nat -> (flag flags MSG_WAITALL = false -> k = 0%nat) -> retry_loop sys sc st k len flags = Some (r, st') -> exists j, (k <= j <= len)%nat /\ moved st' j /\ ((r = Z.of_nat j /\ (0 < j)%nat) \/ (j = 0%nat /\ r <= 0)).
Proof.
  intros Hsys sc. induction sc as [|[ev stop] sc IH]; intros st k r st' Hm Hk Hw E; [done|]. cbn [retry_loop] in E. destruct (sys ev st (len - k)%nat) as [[s errno] st1] eqn:Es. destruct (Hsys ev st (len - k)%nat k s errno st1 Hm ltac:(lia) Es) as [[Hs ->]|(Hs & Hle & Hm1)].
  - destruct ((s <? 0) && (errno =? EAGAIN) && negb (flag flags MSG_DONTWAIT)).
    + destruct stop; [|by apply (IH st k)]. injection E as <- <-. exists k. split; [lia|]. split; [done|]. destruct (Nat.eqb_spec k 0) as [->|]; [right; lia|left; lia].
    + destruct (flag flags MSG_WAITALL); cbn [negb] in E.
      * rewrite (proj2 (Z.leb_le s 0)) in E by done. injection E as <- <-. exists k. split; [lia|]. split; [done|]. destruct (Nat.eqb_spec k 0) as [->|]; [right; lia|left; lia].
      * injection E as <- <-. exists k. split; [lia|]. split; [done|]. right. split; [by apply Hw|done].
  - rewrite (proj2 (Z.ltb_ge s 0)) in E by lia. cbn [andb] in E. destruct (flag flags MSG_WAITALL) eqn:Ew; cbn [negb] in E.
    + rewrite (proj2 (Z.leb_gt s 0)) in E by lia. destruct (Nat.ltb_spec (k + Z.to_nat s) len) as [Hlt|Hge].
      * destruct (IH st1 (k + Z.to_nat s)%nat r st' Hm1 ltac:(lia) ltac:(done) E) as (j & Hj & Hr). exists j. split; [lia|done].
      * injection E as <- <-. exists (k + Z.to_nat s)%nat. split; [lia|]. split; [done|]. left. lia.
    + injection E as <- <-. assert (k = 0%nat) as -> by by apply Hw. exists (Z.to_nat s). split; [lia|]. split; [done|]. left. lia.
Qed.

(** With [MSG_WAITALL], a kernel that moves something at each call ends the loop with everything. *)
Lemma retry_loop_completes (sys : ioev -> S -> nat -> Z * Z * S) (avail : S -> nat -> Prop) flags len : flag flags MSG_WAITALL = true ->
  (forall k st n, avail st n -> (0 < n)%nat -> exists m st', sys (EvOK k) st n = (Z.of_nat m, 0, st') /\ (0 < m <= n)%nat /\ avail st' (n - m)%nat) ->
  forall sc st c, (c < len)%nat -> avail st (len - c)%nat -> (len - c <= length sc)%nat -> Forall (fun e => exists k, e.1 = EvOK k) sc -> exists st', retry_loop sys sc st c len flags = Some (Z.of_nat len, st').
Proof.
  intros Hw Hsys sc. induction sc as [|[ev stop] sc IH]; intros st c Hc Ha Hl Hok; [cbn in Hl; lia|]. apply Forall_cons in Hok as [[k Ek] Hok]. cbn in Ek. subst ev. cbn [retry_loop]. destruct (Hsys k st (len - c)%nat Ha ltac:(lia)) as (m & st' & -> & Hm & Ha').
  rewrite (proj2 (Z.ltb_ge (Z.of_nat m) 0)) by lia. cbn [andb]. rewrite Hw. cbn [negb]. rewrite (proj2 (Z.leb_gt (Z.of_nat m) 0)) by lia. rewrite Nat2Z.id. destruct (Nat.ltb_spec (c + m) len) as [Hlt|Hge].
  - apply IH; [done|by replace (len - (c + m))%nat with (len - c - m)%nat by lia|cbn in Hl; lia|done].
  - exists st'. by replace (c + m)%nat with len by lia.
Qed.

End loop_theorems.

(** [hev_task_io_socket_recvmmsg] hands over the datagrams that arrive, in order, none lost or twice, at most [n] of them, and returns their number; nothing is
    received when it returns an error or -2.  With [MSG_WAITALL] and enough datagrams it returns [n] of them. *)
Theorem recvmmsg_in_order (sc : script) (inq : list dgram) (n : nat) (flags : Z) :
  (forall r got rest, hev_task_io_socket_recvmmsg sc inq n flags = Some (r, (got, rest)) -> got ++ rest = inq /\ (length got <= n)%nat /\ ((r = Z.of_nat (length got) /\ got <> []) \/ (r <= 0 /\ got = []))) /\
  (flag flags MSG_WAITALL = true -> (0 < n <= length inq)%nat -> (n <= length sc)%nat -> Forall (fun e => exists k, e.1 = EvOK k) sc -> exists rest, hev_task_io_socket_recvmmsg sc inq n flags = Some (Z.of_nat n, (take n inq, rest))).
Proof.
  assert (Hsafe : forall r got rest, hev_task_io_socket_recvmmsg sc inq n flags = Some (r, (got, rest)) -> got ++ rest = inq /\ (length got <= n)%nat /\ ((r = Z.of_nat (length got) /\ got <> []) \/ (r <= 0 /\ got = []))).
  { intros r got rest E. apply (retry_loop_moves sys_recvmmsg (fun st k => st.1 ++ st.2 = inq /\ length st.1 = k) flags n) in E as (j & Hj & [Hm Hl] & Hr); [|..].
    - cbn [fst snd] in Hm, Hl. subst j. split; [done|]. split; [lia|]. destruct Hr as [[-> Hp]|[H0 Hr]]; [left; split; [done|]; intros ->; cbn in Hp; lia|right; split; [done|]; by destruct got].
    - intros ev [g q] m k s errno st' [H1 H2] Hk. cbn [sys_recvmmsg fst snd] in *. destruct ev as [j| |e]; [|intros [= <- _ <-]; left; split; [lia|done]..]. case_bool_decide as Eq; [intros [= <- _ <-]; left; split; [lia|done]|]. remember ((S j `min` m) `min` length q)%nat as w eqn:Hw. intros [= <- _ <-]. destruct (decide (m = 0%nat)) as [->|Hm]; [left; assert (w = 0%nat) as -> by lia; rewrite take_0, drop_0, app_nil_r; done|]. right.
      assert (0 < length q)%nat by (destruct q; [done|cbn; lia]). rewrite Nat2Z.id. split; [lia|]. split; [lia|]. cbn [fst snd]. split; [by rewrite <- app_assoc, take_drop|]. rewrite length_app, length_take. lia.
    - done.
    - lia.
    - done. }
  split; [exact Hsafe|]. intros Hw Hn Hl Hok. destruct (retry_loop_completes sys_recvmmsg (fun st m => (m <= length st.2)%nat) flags n Hw) with (sc := sc) (st := (@nil dgram, inq)) (c := 0%nat) as [[got rest] E]; [|lia|cbn; lia|lia|done|].
  { intros k [g q] m Hm H0. cbn [sys_recvmmsg fst snd] in *. rewrite bool_decide_false by (intros ->; cbn in Hm; lia). eexists _, _. split; [done|]. cbn [fst snd]. rewrite length_drop. lia. }
  destruct (Hsafe _ _ _ E) as (E1 & Hle & [[Hr _]|[Hr _]]); [|lia]. exists rest. unfold hev_task_io_socket_recvmmsg. rewrite E. do 3 f_equal. rewrite <- E1. apply Nat2Z.inj in Hr. rewrite Hr. by rewrite take_app_length.
Qed.

(** [hev_task_io_socket_sendmmsg] sends the messages in order and returns how many it sent. *)
Theorem sendmmsg_in_order (sc : script) (msgv : list dgram) (flags r : Z) (out left : list dgram) :
  hev_task_io_socket_sendmmsg sc msgv flags = Some (r, (out, left)) -> out ++ left = msgv /\ ((r = Z.of_nat (length out) /\ out <> []) \/ (r <= 0 /\ out = [])).
Proof.
  intros E. apply (retry_loop_moves sys_sendmmsg (fun st k => st.1 ++ st.2 = msgv /\ length st.1 = k) flags (length msgv)) in E as (j & Hj & [Hm Hl] & Hr); [|..].
  - cbn [fst snd] in Hm, Hl. subst j. split; [done|]. destruct Hr as [[-> Hp]|[H0 Hr]]; [left; split; [done|]; intros ->; cbn in Hp; lia|right; split; [done|]; by destruct out].
  - intros ev [o q] m k s errno st' [H1 H2] Hk. cbn [sys_sendmmsg fst snd] in *. destruct ev as [j| |e]; [|intros [= <- _ <-]; left; split; [lia|done]..]. remember (S j `min` m)%nat as w eqn:Hw. intros [= <- _ <-]. destruct (decide (m = 0%nat)) as [->|Hm]; [left; assert (w = 0%nat) as -> by lia; rewrite take_0, drop_0, app_nil_r; done|]. right. rewrite Nat2Z.id. split; [lia|]. split; [lia|]. cbn [fst snd]. split; [by rewrite <- app_assoc, take_drop|].
    assert (length msgv = k + length q)%nat by (rewrite <- H1, length_app; lia). rewrite length_app, length_take. lia.
  - done.
  - lia.
  - done.
Qed.

(** The functions that wait move at most once, and hand over what they moved; [accept] gives the first connection. *)
Theorem read_conserves (sc : script) (inq : list Z) (count : nat) (r : Z) (buf rest : list Z) :
  hev_task_io_read sc inq count = Some (r, (buf, rest)) -> buf ++ rest = inq /\ (length buf <= count)%nat /\ (r = Z.of_nat (length buf) \/ (r < 0 /\ buf = [])).
Proof.
  unfold hev_task_io_read. induction sc as [|[ev stop] sc IH]; [done|]. cbn [wait_loop sys_read]. destruct ev as [k| |e]; cbn [sys_recv app].
  - remember ((S k `min` count) `min` length inq)%nat as w eqn:Hw. rewrite (proj2 (Z.ltb_ge (Z.of_nat w) 0)) by lia. cbn [andb]. intros [= <- <- <-]. split; [apply take_drop|]. rewrite length_take. split; [lia|]. left. lia.
  - intros [= <- <- <-]. split; [done|]. split; [cbn; lia|by left].
  - change (-1 <? 0) with true. cbn [andb]. destruct (e =? EAGAIN); [destruct stop; [intros [= <- <- <-]|apply IH]|intros [= <- <- <-]]; (split; [done|]; split; [cbn; lia|]; right; split; [lia|done]).
Qed.
