(* ===== verification/Splice.v ===== *)
(** * The bidirectional splicer of the task system

    Models [task_io_splice] and [hev_task_io_splice] of
    hev/third-part/hev-task-system/src/lib/io/basic/hev-task-io.c, with which a
    SOCKS5 server copies a TCP connection in both directions.  The file has two
    implementations of one direction, over a kernel pipe
    ([ENABLE_IO_SPLICE_SYSCALL], what the Android build uses) and over a
    [HevCircularBuffer]; the class [Splicer] states what the loop needs of
    either, and both are instances. *)

From S2P Require Import Prelude Buffers TaskIO.

(** The outcome of one call of [task_io_splice]: the new state, the result, the
    bytes of the source not yet read, the bytes written to the destination,
    whether the destination was shut down, and whether the write failed. *)
Record outcome (T : Type) := Outcome {
  oc_self : T;
  oc_res : Z;
  oc_in : list Z;
  oc_out : list Z;
  oc_shut : bool;
  oc_wfail : bool
}.
Arguments Outcome {T}.
Arguments oc_self {T}.
Arguments oc_res {T}.
Arguments oc_in {T}.
Arguments oc_out {T}.
Arguments oc_shut {T}.
Arguments oc_wfail {T}.

(** [(0 > s) && (EAGAIN == errno) ? 0 : -1] *)
Definition soft (s errno : Z) : Z := if (s <? 0) && (errno =? EAGAIN) then 0 else -1.

(** ** The two implementations *)

Section Circ.
Import Circular.

Definition iov_total (iov : list iovec) : nat :=
  sum_list (map (fun v => Z.to_nat (iov_len v)) iov).

Definition task_io_splice_circ (self : HevCircularBuffer) (rd wr : ioev) (inq : list Z)
  : outcome HevCircularBuffer :=
  let iov := hev_circular_buffer_writing self in
  let '(self1, res1, inq1) :=
    match iov with
    | [] => (self, 1, inq)
    | _ =>
        let '(s, errno, got, inq') := sys_recv rd inq (iov_total iov) in
        if s <=? 0 then (self, soft s errno, inq') else (circ_fill self got, 1, inq')
    end in
  match hev_circular_buffer_reading self1 with
  | [] => Outcome self1 res1 inq1 [] (res1 <? 0) false
  | iov2 =>
      let '(s, errno, sent) := sys_send wr (iov_load (data self1) iov2) in
      if s <=? 0 then Outcome self1 (soft s errno) inq1 [] false (soft s errno <? 0)
      else Outcome (hev_circular_buffer_read_finish self1 s) 1 inq1 sent false false
  end.

End Circ.

(** The pipe variant keeps the kernel pipe (here with its contents), the count
    [wlen] of bytes in it and its size [blen]. *)
Record PipeSplicer := Pipe { pipe_q : list Z; wlen : Z; blen : Z }.

(** [splice (fd_in, pipe, blen, SPLICE_F_NONBLOCK)]: a full pipe would block. *)
Definition sys_splice_in (rd : ioev) (inq q : list Z) (size : Z) : Z * Z * list Z * list Z :=
  let room := (Z.to_nat size - length q)%nat in
  if (room =? 0)%nat then (-1, EAGAIN, [], inq) else sys_recv rd inq room.

Definition task_io_splice_pipe (self : PipeSplicer) (rd wr : ioev) (inq : list Z)
  : outcome PipeSplicer :=
  let '(s, errno, got, inq1) := sys_splice_in rd inq (pipe_q self) (blen self) in
  let '(self1, res1) :=
    if s <=? 0 then (self, soft s errno)
    else (Pipe (pipe_q self ++ got) (u64 (wlen self + s)) (blen self), 1) in
  if negb (wlen self1 =? 0) then
    let '(s, errno, sent) := sys_send wr (take (Z.to_nat (blen self)) (pipe_q self1)) in
    if s <=? 0 then Outcome self1 (soft s errno) inq1 [] false (soft s errno <? 0)
    else Outcome (Pipe (drop (length sent) (pipe_q self1)) (u64 (wlen self1 - s)) (blen self1))
           1 inq1 sent false false
  else Outcome self1 res1 inq1 [] (res1 <? 0) false.

(** ** The interface *)

(** A kernel that works: calls move bytes, or ask to be repeated. *)
Definition smooth (e : ioev) : Prop :=
  match e with EvOK _ => True | EvZero => False | EvErr errno => errno = EAGAIN end.
Definition ready (e : ioev) : bool := match e with EvOK _ => true | _ => false end.

Class Splicer (T : Type) := {
  sp_step : T -> ioev -> ioev -> list Z -> outcome T;
  (** the splicer holds exactly these bytes *)
  sp_rep : T -> list Z -> Prop;
  sp_step_ok : forall self rd wr inq q,
    sp_rep self q ->
    let o := sp_step self rd wr inq in
    exists q',
      sp_rep (oc_self o) q'
      /\ q ++ inq = oc_out o ++ q' ++ oc_in o
      /\ (oc_shut o = true -> q' = [])
      /\ (oc_res o < 0 -> oc_shut o = true \/ oc_wfail o = true)
      /\ (length (oc_in o) <= length inq)%nat
      /\ (smooth rd -> smooth wr -> oc_wfail o = false /\ (oc_res o < 0 -> oc_in o = []))
      /\ (ready rd = true -> ready wr = true ->
          oc_res o < 0 \/ (length (oc_in o) < length inq)%nat \/ oc_out o <> [])
}.

Lemma soft_values s errno : soft s errno = 0 \/ soft s errno = -1.
Proof. unfold soft. destruct (_ && _); auto. Qed.

Lemma sys_recv_smooth rd inq n s errno got inq' :
  sys_recv rd inq n = (s, errno, got, inq') -> (0 < n)%nat -> s <= 0 -> smooth rd -> soft s errno < 0 -> inq' = [].
Proof.
  intros E Hn Hle Hs Hsoft. destruct rd as [k| |e]; cbn [sys_recv] in E; simplify_eq; [|done|].
  - apply drop_ge. destruct inq; cbn [length] in *; lia.
  - cbn in Hs. subst. done.
Qed.

Lemma sys_recv_ready rd inq n s errno got inq' :
  sys_recv rd inq n = (s, errno, got, inq') -> ready rd = true -> s <= 0 -> soft s errno < 0.
Proof.
  intros E Hr Hs. destruct rd as [k| |e]; cbn [sys_recv] in E; simplify_eq; try done.
  unfold soft. by destruct (Z.ltb_spec (Z.of_nat (S k `min` n `min` length inq)) 0); [lia|].
Qed.

Lemma sys_send_smooth wr buf s errno sent :
  sys_send wr buf = (s, errno, sent) -> buf <> [] -> smooth wr -> s <= 0 -> soft s errno = 0.
Proof.
  intros E Hb Hs Hle. destruct wr as [k| |e]; cbn [sys_send smooth] in *; simplify_eq; [|done].
  destruct buf; cbn [length] in *; [done|lia].
Qed.

Lemma sys_send_ready wr buf s errno sent :
  sys_send wr buf = (s, errno, sent) -> buf <> [] -> ready wr = true -> 0 < s.
Proof.
  intros E Hb Hr. destruct wr as [k| |e]; cbn [sys_send] in E; simplify_eq; try done.
  destruct buf; cbn [length] in *; [done|lia].
Qed.

Lemma iov_total_split N s n :
  0 <= s <= N -> 0 <= n -> iov_total (split_iov N s n) = Z.to_nat n.
Proof. intros Hs Hn. unfold iov_total, split_iov. destruct (Z.leb_spec n (N - s)); simpl; lia. Qed.

Section CircInstance.
Import Circular CircularSpec.

Lemma circ_writing_total cb q :
  circ_rep cb q ->
  iov_total (hev_circular_buffer_writing cb) = Z.to_nat (max_size cb - use_size cb).
Proof.
  intros []. unfold hev_circular_buffer_writing.
  set (w := u64 (rp cb + use_size cb) mod max_size cb).
  assert (0 <= w < max_size cb) by (apply Z.mod_pos_bound; lia).
  destruct (Z.eqb_spec (use_size cb) (max_size cb)); [unfold iov_total; simpl; lia|].
  rewrite (u64_id (max_size cb - w)), (u64_id (max_size cb - use_size cb)) by lia.
  destruct (Z.leb_spec (max_size cb - use_size cb) (max_size cb - w)); unfold iov_total; simpl;
    [lia|]. rewrite u64_id by lia. lia.
Qed.

(** After the read part: the buffer holds what it held and what was read. *)
Lemma circ_read_part cb q rd inq :
  circ_rep cb q ->
  let '(self1, res1, inq1) :=
    match hev_circular_buffer_writing cb with
    | [] => (cb, 1, inq)
    | _ =>
        let '(s, errno, got, inq') := sys_recv rd inq (iov_total (hev_circular_buffer_writing cb)) in
        if s <=? 0 then (cb, soft s errno, inq') else (circ_fill cb got, 1, inq')
    end in
  exists q1, circ_rep self1 q1 /\ q ++ inq = q1 ++ inq1
    /\ (length inq1 <= length inq)%nat /\ (smooth rd -> res1 < 0 -> inq1 = [])
    /\ (ready rd = true -> q1 = [] -> res1 < 0).
Proof.
  intros R. pose proof (circ_writing_total cb q R) as Htot.
  destruct (hev_circular_buffer_writing cb) eqn:Ew.
  { exists q. split_and!; [done..|lia|intros; lia|]. intros _ ->.
    destruct R. unfold iov_total in Htot. simpl in *. lia. }
  rewrite Htot. assert (Hroom : (0 < Z.to_nat (max_size cb - use_size cb))%nat).
  { destruct R. unfold hev_circular_buffer_writing in Ew.
    destruct (Z.eqb_spec (use_size cb) (max_size cb)); [done|lia]. }
  destruct (sys_recv _ _ _) as [[[s errno] got] inq'] eqn:Es.
  pose proof (sys_recv_smooth _ _ _ _ _ _ _ Es Hroom). pose proof (sys_recv_ready _ _ _ _ _ _ _ Es).
  apply sys_recv_split in Es as (-> & Hg & Hl & _). rewrite length_app.
  destruct (Z.leb_spec s 0).
  - assert (got = []) as -> by (apply length_zero_iff_nil; lia). exists q. split_and!; auto.
  - exists (q ++ got). split_and!; [|by rewrite app_assoc|lia|intros; lia|].
    + apply circ_fill_rep; [done|]. destruct R. lia.
    + intros _ E. apply app_nil in E as [_ ->]. simpl in *. lia.
Qed.

#[export] Program Instance circ_splicer : Splicer HevCircularBuffer := {|
  sp_step := task_io_splice_circ;
  sp_rep := circ_rep
|}.
Next Obligation.
  intros self rd wr inq q R. unfold task_io_splice_circ.
  pose proof (circ_read_part self q rd inq R) as Hread.
  destruct (match hev_circular_buffer_writing self with [] => _ | _ => _ end) as [[self1 res1] inq1].
  destruct Hread as (q1 & R1 & Hq & Hle & Hend & Hrdy). pose proof (circ_reading_nil _ _ R1) as Hnil.
  pose proof (circ_load _ _ R1) as Hload.
  destruct (hev_circular_buffer_reading self1) as [|v iov] eqn:Er.
  - assert (q1 = []) as -> by (by apply Hnil). exists []. simpl.
    split_and!; auto. intros Hn. left. by apply Z.ltb_lt.
  - assert (Hne : q1 <> []) by (intros Hq1; apply Hnil in Hq1; discriminate).
    rewrite Hload. destruct (sys_send wr q1) as [[s errno] sent] eqn:Es.
    pose proof (sys_send_smooth _ _ _ _ _ Es Hne) as Hsm. pose proof (sys_send_ready _ _ _ _ _ Es Hne) as Hrd.
    apply sys_send_split in Es as (Hs & Hlen & Hmax & _). destruct (Z.leb_spec s 0); simpl.
    + exists q1. split_and!; auto; [done|..].
      * intros Hn. right. by apply Z.ltb_lt.
      * intros _ Hw. rewrite (Hsm Hw) by lia. split; [done|lia].
      * intros _ Hw. specialize (Hrd Hw). lia.
    + exists (drop (length sent) q1). split_and!; auto; try done; try lia.
      * replace (length sent) with (Z.to_nat s) by lia. apply circ_read_finish; [done|lia].
      * rewrite Hq, app_assoc. f_equal. rewrite Hs at 1. by rewrite take_drop.
      * right. right. intros ->. simpl in *. lia.
Qed.

End CircInstance.

(** The counter agrees with the pipe, which holds at most [blen] bytes. *)
Definition pipe_rep (self : PipeSplicer) (q : list Z) : Prop :=
  pipe_q self = q /\ wlen self = Z.of_nat (length q)
  /\ Z.of_nat (length q) <= blen self < 2 ^ 63 /\ 0 < blen self.

Lemma sys_splice_in_split rd inq q size :
  exists s errno got inq1,
    sys_splice_in rd inq q size = (s, errno, got, inq1)
    /\ inq = got ++ inq1 /\ Z.of_nat (length got) = Z.max 0 s
    /\ (Z.of_nat (length q) <= size -> Z.of_nat (length q + length got) <= size)
    /\ (smooth rd -> s <= 0 -> soft s errno < 0 -> inq1 = [])
    /\ (ready rd = true -> 0 < size -> s <= 0 -> q = [] -> soft s errno < 0).
Proof.
  unfold sys_splice_in. destruct (Nat.eqb_spec (Z.to_nat size - length q) 0).
  - exists (-1), EAGAIN, [], inq. simpl. split_and!; (done || lia || idtac). intros _ ? _ ->. simpl in *. lia.
  - destruct (sys_recv _ _ _) as [[[s errno] got] inq1] eqn:Es.
    pose proof (sys_recv_smooth _ _ _ _ _ _ _ Es ltac:(lia)). pose proof (sys_recv_ready _ _ _ _ _ _ _ Es).
    apply sys_recv_split in Es as (-> & Hg & Hl & _). repeat eexists; auto; lia.
Qed.

#[export] Program Instance pipe_splicer : Splicer PipeSplicer := {|
  sp_step := task_io_splice_pipe;
  sp_rep := pipe_rep
|}.
Next Obligation.
  intros self rd wr inq q (Hp & Hw & Hb & Hpos). unfold task_io_splice_pipe. rewrite Hp.
  destruct (sys_splice_in_split rd inq q (blen self))
    as (s & errno & got & inq1 & -> & -> & Hl & Hfit & Hend & Hrdy). specialize (Hfit (proj1 Hb)).
  set (self1 := if s <=? 0 then self else Pipe (q ++ got) (u64 (wlen self + s)) (blen self)).
  set (res1 := if s <=? 0 then soft s errno else 1).
  assert (Hres1 : (smooth rd -> res1 < 0 -> inq1 = []) /\ (ready rd = true -> q ++ got = [] -> res1 < 0)).
  { subst res1. destruct (Z.leb_spec s 0); split; auto; [|lia|].
    - intros Hr [-> _]%app_nil. by apply Hrdy.
    - intros _ [_ ->]%app_nil. simpl in *. lia. }
  assert (Hrep1 : pipe_rep self1 (q ++ got) /\ blen self1 = blen self).
  { subst self1. destruct (Z.leb_spec s 0).
    - assert (got = []) as -> by (apply length_zero_iff_nil; lia).
      rewrite app_nil_r. unfold pipe_rep. split_and!; (done || lia).
    - unfold pipe_rep. simpl. rewrite u64_id by lia. rewrite length_app. split_and!; (done || lia). }
  destruct Hrep1 as ((Hq1 & Hw1 & Hb1 & _) & Hbl). destruct Hres1 as [Hend1 Hrdy1].
  replace (if s <=? 0 then (self, soft s errno)
           else (Pipe (q ++ got) (u64 (wlen self + s)) (blen self), 1))
    with (self1, res1) by (subst self1 res1; by destruct (s <=? 0)).
  clearbody self1 res1. cbn beta iota. rewrite Hw1, Hq1, app_assoc, (length_app got inq1).
  destruct (Z.eqb_spec (Z.of_nat (length (q ++ got))) 0) as [E|E]; cbn [negb].
  - assert (Hnil : q ++ got = []) by (apply length_zero_iff_nil; lia). rewrite Hnil in *.
    exists []. unfold pipe_rep. simpl in *. split_and!; auto; lia.
  - assert (Hne : q ++ got <> []) by (intros Hn; by rewrite Hn in E).
    rewrite take_ge by lia. destruct (sys_send wr (q ++ got)) as [[s2 errno2] sent] eqn:Es.
    pose proof (sys_send_smooth _ _ _ _ _ Es Hne) as Hsm. pose proof (sys_send_ready _ _ _ _ _ Es Hne) as Hrd.
    apply sys_send_split in Es as (Hs & Hlen & Hmax & _). destruct (Z.leb_spec s2 0); simpl.
    + exists (q ++ got). unfold pipe_rep. split_and!; auto; try done; try lia.
      * intros _ Hwr. rewrite (Hsm Hwr) by lia. split; [done|lia].
      * intros _ Hwr. specialize (Hrd Hwr). lia.
    + exists (drop (length sent) (q ++ got)). split; [|split_and!; auto; try done; try lia].
      * unfold pipe_rep. simpl. rewrite length_drop, u64_id by lia. split_and!; (done || lia).
      * rewrite Hs at 1. by rewrite (app_assoc (take _ _)), take_drop.
      * right. right. intros ->. simpl in *. lia.
Qed.

(** ** The loop *)

Inductive HevTaskYieldType := HEV_TASK_YIELD | HEV_TASK_WAITIO.

Section Loop.
Context {T : Type} `{Splicer T}.

(** One direction of the copy: the splicer, the source, what reached the
    destination, and the outcome of the last call. *)
Record dir := Dir {
  d_sp : T;
  d_in : list Z;
  d_out : list Z;
  d_res : Z;
  d_shut : bool;
  d_wfail : bool
}.

(** [if (res_f >= 0) res_f = task_io_splice (..)] *)
Definition splice_dir (d : dir) (e : ioev * ioev) : dir :=
  if 0 <=? d_res d then
    let o := sp_step (d_sp d) e.1 e.2 (d_in d) in
    Dir (oc_self o) (oc_in o) (d_out d ++ oc_out o) (oc_res o) (oc_shut o) (oc_wfail o)
  else d.

(** One entry per turn: the kernel's answers for both directions, and the
    yielder's answer to the kind of yield it is asked for. *)
Definition turn := ((ioev * ioev) * (ioev * ioev) * (HevTaskYieldType -> bool))%type.

(** The [for (;;)] loop; the result tells whether it ended because both
    directions are finished, or because the yielder gave up. *)
Fixpoint splice_loop (sc : list turn) (f b : dir) : option (bool * dir * dir) :=
  match sc with
  | [] => None
  | (ef, eb, stop) :: sc' =>
      let f' := splice_dir f ef in
      let b' := splice_dir b eb in
      if (0 <? d_res f') || (0 <? d_res b') then
        if stop HEV_TASK_YIELD then Some (false, f', b') else splice_loop sc' f' b'
      else if Z.land (d_res f') (d_res b') =? 0 then
        if stop HEV_TASK_WAITIO then Some (false, f', b') else splice_loop sc' f' b'
      else Some (true, f', b')
  end.

Definition hev_task_io_splice (sc : list turn) (splicer_f splicer_b : T) (in_a in_b : list Z)
  : option (bool * dir * dir) :=
  splice_loop sc (Dir splicer_f in_a [] 1 false false) (Dir splicer_b in_b [] 1 false false).

(** What holds of a direction that copies the stream [src]. *)
Definition dir_ok (src : list Z) (d : dir) : Prop :=
  exists q, sp_rep (d_sp d) q
    /\ src = d_out d ++ q ++ d_in d
    /\ (d_shut d = true -> q = [])
    /\ (d_res d < 0 -> d_shut d = true \/ d_wfail d = true).

Lemma dir_start (sp : T) src : sp_rep sp [] -> dir_ok src (Dir sp src [] 1 false false).
Proof. intros Hr. exists []. split_and!; [done..|]. simpl. lia. Qed.

Lemma splice_dir_ok src d e : dir_ok src d -> dir_ok src (splice_dir d e).
Proof.
  intros (q & Hr & Hs & Hq & Hw). unfold splice_dir.
  destruct (Z.leb_spec 0 (d_res d)); [|by exists q].
  destruct (sp_step_ok (d_sp d) e.1 e.2 (d_in d) q Hr) as (q' & Hr' & Hs' & Hq' & Hw' & _).
  exists q'. simpl. split_and!; auto. by rewrite Hs, Hs', <- app_assoc.
Qed.

Lemma splice_loop_ok sc ia ib f b fin f' b' :
  dir_ok ia f -> dir_ok ib b -> splice_loop sc f b = Some (fin, f', b') ->
  dir_ok ia f' /\ dir_ok ib b' /\ (fin = true -> d_res f' < 0 /\ d_res b' < 0).
Proof.
  revert f b. induction sc as [|[[ef eb] stop] sc IH]; intros f b Hf Hb; cbn [splice_loop]; [done|].
  apply (splice_dir_ok _ _ ef) in Hf. apply (splice_dir_ok _ _ eb) in Hb.
  destruct (_ || _) eqn:E1.
  { destruct (stop _); [intros; by simplify_eq|by apply IH]. }
  destruct (Z.eqb_spec (Z.land (d_res (splice_dir f ef)) (d_res (splice_dir b eb))) 0) as [E2|E2].
  { destruct (stop _); [intros; by simplify_eq|by apply IH]. }
  intros; simplify_eq. split_and!; auto. intros _. bool_to_prop.
  split.
  - destruct (decide (d_res (splice_dir f ef) = 0)) as [E|]; [|lia]. by rewrite E in E2.
  - destruct (decide (d_res (splice_dir b eb) = 0)) as [E|]; [|lia].
    by rewrite E, Z.land_0_r in E2.
Qed.

(** *** Delivery *)

(** What is left to do in a direction; 0 when it is finished. *)
Definition todo (q : list Z) (d : dir) : nat :=
  if 0 <=? d_res d then S (2 * length (d_in d) + length q) else 0.

(** A direction that copies [src] and has not failed. *)
Definition dir_fine (src : list Z) (n : nat) (d : dir) : Prop :=
  exists q, sp_rep (d_sp d) q /\ src = d_out d ++ q ++ d_in d /\ (todo q d <= n)%nat
    /\ (d_res d < 0 -> d_shut d = true /\ q = [] /\ d_in d = []).

Definition smooth_pair (e : ioev * ioev) : Prop := smooth e.1 /\ smooth e.2.
Definition ready_pair (e : ioev * ioev) : bool := ready e.1 && ready e.2.

Lemma splice_dir_fine src n d e :
  dir_fine src n d -> smooth_pair e ->
  dir_fine src (if ready_pair e then pred n else n) (splice_dir d e).
Proof.
  intros (q & Hr & Hs & Hn & Hend) [Hrd Hwr]. unfold splice_dir, ready_pair.
  destruct (Z.leb_spec 0 (d_res d)) as [Hd|Hd].
  2: { exists q. unfold todo in *. destruct (Z.leb_spec 0 (d_res d)); [lia|].
       split_and!; auto. destruct (_ && _); lia. }
  destruct (sp_step_ok (d_sp d) e.1 e.2 (d_in d) q Hr) as (q' & Hr' & Hs' & Hq' & Hw' & Hle & Hsm & Hrdy).
  destruct (Hsm Hrd Hwr) as [Hwf Hin]. set (o := sp_step _ _ _ _) in *.
  exists q'. cbn [d_sp d_in d_out d_res d_shut d_wfail]. split_and!; [done| | |].
  - by rewrite Hs, Hs', <- app_assoc.
  - pose proof (f_equal length Hs') as Hlen. rewrite !length_app in Hlen.
    unfold todo in *. cbn [d_res d_in]. destruct (Z.leb_spec 0 (d_res d)); [|lia].
    destruct (Z.leb_spec 0 (oc_res o)) as [Ho|Ho]; [|destruct (_ && _); lia].
    destruct (ready e.1) eqn:E1, (ready e.2) eqn:E2; cbn [andb]; try lia.
    destruct (Hrdy eq_refl eq_refl) as [?|[?|Hout]]; [lia|lia|].
    destruct (oc_out o) as [|x out]; [done|]. cbn [length] in Hlen. lia.
  - intros Ho. destruct (Hw' Ho) as [Hsh|]; [|congruence]. split_and!; auto.
Qed.

Definition smooth_turn (t : turn) : Prop :=
  let '(ef, eb, stop) := t in smooth_pair ef /\ smooth_pair eb /\ forall y, stop y = false.
Definition ready_turn (t : turn) : bool := let '(ef, eb, _) := t in ready_pair ef && ready_pair eb.

Fixpoint ready_turns (sc : list turn) : nat :=
  match sc with
  | [] => 0
  | t :: sc => if ready_turn t then S (ready_turns sc) else ready_turns sc
  end.

Lemma dir_fine_le src n m d : dir_fine src n d -> (n <= m)%nat -> dir_fine src m d.
Proof. intros (q & ? & ? & ? & ?) Hle. exists q. split_and!; auto. lia. Qed.

Lemma splice_loop_fine sc : forall ia ib n f b,
  Forall smooth_turn sc -> (n <= ready_turns sc)%nat -> (0 < n)%nat ->
  dir_fine ia n f -> dir_fine ib n b ->
  exists f' b', splice_loop sc f b = Some (true, f', b')
    /\ dir_fine ia 0 f' /\ dir_fine ib 0 b' /\ d_res f' < 0 /\ d_res b' < 0.
Proof.
  induction sc as [|[[ef eb] stop] sc IH]; intros ia ib n f b Hsc Hn H0 Hf Hb.
  { simpl in Hn. lia. }
  apply Forall_cons in Hsc as [(Hef & Heb & Hstop) Hsc].
  apply (splice_dir_fine _ _ _ ef) in Hf; [|done]. apply (splice_dir_fine _ _ _ eb) in Hb; [|done].
  cbn [splice_loop]. cbn [ready_turns ready_turn] in Hn.
  set (f' := splice_dir f ef) in *. set (b' := splice_dir b eb) in *.
  set (n' := if ready_pair ef && ready_pair eb then pred n else n) in *.
  assert (Hf' : dir_fine ia n' f') by (eapply dir_fine_le; [done|]; subst n'; repeat case_match; simpl in *; lia).
  assert (Hb' : dir_fine ib n' b') by (eapply dir_fine_le; [done|]; subst n'; repeat case_match; simpl in *; lia).
  assert (Hn' : (n' <= ready_turns sc)%nat) by (subst n'; case_match; lia).
  destruct (decide (d_res f' < 0 /\ d_res b' < 0)) as [[Hf0 Hb0]|Hgo].
  - exists f', b'.
    replace (0 <? d_res f') with false by lia. replace (0 <? d_res b') with false by lia. cbn [orb].
    destruct (Z.eqb_spec (Z.land (d_res f') (d_res b')) 0) as [E|E].
    { assert (Z.land (d_res f') (d_res b') < 0) by (by apply Z.land_neg). lia. }
    split_and!; auto.
    + destruct Hf' as (q & ? & ? & ? & ?). exists q. unfold todo in *.
      destruct (Z.leb_spec 0 (d_res f')); [lia|]. split_and!; auto.
    + destruct Hb' as (q & ? & ? & ? & ?). exists q. unfold todo in *.
      destruct (Z.leb_spec 0 (d_res b')); [lia|]. split_and!; auto.
  - assert (Hpos : (0 < n')%nat).
    { destruct Hf' as (qf & _ & _ & Htf & _), Hb' as (qb & _ & _ & Htb & _). unfold todo in *.
      destruct (Z.leb_spec 0 (d_res f')), (Z.leb_spec 0 (d_res b')); lia. }
    destruct (IH ia ib n' f' b' Hsc Hn' Hpos Hf' Hb') as (f2 & b2 & Hl & Hrest).
    exists f2, b2. split; [|exact Hrest].
    rewrite !Hstop, Hl. clearbody f' b'. destruct (_ || _) eqn:Ep; [done|].
    destruct (Z.eqb_spec (Z.land (d_res f') (d_res b')) 0) as [El|El]; [done|].
    bool_to_prop. exfalso. apply Hgo.
    destruct (decide (d_res f' = 0)) as [E|]; [by rewrite E in El|].
    destruct (decide (d_res b' = 0)) as [E|]; [by rewrite E, Z.land_0_r in El|]. lia.
Qed.

End Loop.
Arguments dir T : clear implicits.

(** [hev_task_io_splice] copies both streams without loss, duplication or
    reordering, for every behaviour of the kernel and of the yielder: what
    reached a destination, what is still in the splicer and what was not yet
    read is the source.  When the loop ends because both directions are
    finished, each direction has either failed to write or has passed on every
    byte it read and then shut its destination down. *)
Theorem splice_lossless {T} `{Splicer T} sc (sf sb : T) in_a in_b fin f b :
  sp_rep sf [] -> sp_rep sb [] ->
  hev_task_io_splice sc sf sb in_a in_b = Some (fin, f, b) ->
  exists qf qb,
    in_a = d_out f ++ qf ++ d_in f /\ in_b = d_out b ++ qb ++ d_in b
    /\ (fin = true ->
        (d_wfail f = true \/ (d_shut f = true /\ in_a = d_out f ++ d_in f))
        /\ (d_wfail b = true \/ (d_shut b = true /\ in_b = d_out b ++ d_in b))).
Proof.
  intros Hf Hb Hl.
  destruct (splice_loop_ok sc in_a in_b _ _ _ _ _
    (dir_start _ _ Hf) (dir_start _ _ Hb) Hl)
    as ((qf & _ & Ha & Hqf & Hwf) & (qb & _ & Hb' & Hqb & Hwb) & Hfin).
  exists qf, qb. split_and!; [done..|]. intros E. destruct (Hfin E) as [H1 H2].
  split.
  - destruct (Hwf H1) as [Hs|]; [right|by left]. by rewrite (Hqf Hs) in Ha.
  - destruct (Hwb H2) as [Hs|]; [right|by left]. by rewrite (Hqb Hs) in Hb'.
Qed.

(** C37. [hev_task_io_splice] delivers both streams and ends.  If the kernel moves
    bytes or asks to wait, and the yielder does not give up, then after as many
    turns in which nothing has to wait as twice the longer stream has bytes, and
    one, each side has received everything the other one sent, in order, and both
    sides have been shut down. *)
Theorem splice_delivers {T} `{Splicer T} sc (sf sb : T) in_a in_b :
  sp_rep sf [] -> sp_rep sb [] -> Forall smooth_turn sc ->
  (2 * Nat.max (length in_a) (length in_b) + 1 <= ready_turns sc)%nat ->
  exists f b, hev_task_io_splice sc sf sb in_a in_b = Some (true, f, b)
    /\ d_out f = in_a /\ d_out b = in_b /\ d_shut f = true /\ d_shut b = true.
Proof.
  intros Hf Hb Hsc Hn.
  destruct (splice_loop_fine sc in_a in_b (2 * Nat.max (length in_a) (length in_b) + 1)
    (Dir sf in_a [] 1 false false) (Dir sb in_b [] 1 false false) Hsc Hn) as (f & b & Hl & Hdf & Hdb & Hf0 & Hb0).
  - lia.
  - exists []. unfold todo. simpl. split_and!; (done || lia).
  - exists []. unfold todo. simpl. split_and!; (done || lia).
  - destruct Hdf as (qf & _ & Ef & _ & Hf'), Hdb as (qb & _ & Eb & _ & Hb').
    destruct (Hf' Hf0) as (? & -> & Ei), (Hb' Hb0) as (? & -> & Ej).
    rewrite Ei, !app_nil_r in Ef. rewrite Ej, !app_nil_r in Eb. exists f, b. split_and!; auto.
Qed.

Lemma splice_delivers_witness :
  exists f b, hev_task_io_splice (repeat ((EvOK 0, EvOK 0), (EvOK 2, EvOK 0), fun _ => false) 7)
      (Pipe [] 0 2) (Pipe [] 0 2) [9] [1; 2; 3] = Some (true, f, b)
    /\ d_out f = [9] /\ d_out b = [1; 2; 3] /\ d_shut f = true /\ d_shut b = true.
Proof.
  assert (Hemp : sp_rep (Pipe [] 0 2) [])
    by (cbv [sp_rep pipe_splicer pipe_rep]; simpl; split_and!; (reflexivity || lia)).
  apply (splice_delivers (T := PipeSplicer)); [exact Hemp..| |simpl; lia].
  repeat constructor.
Defined.

(** A download of two bytes through pipes of 16 bytes: the request direction
    closes first, the response direction after a full turn. *)
Lemma splice_lossless_witness :
  exists f b,
    hev_task_io_splice
      [((EvZero, EvZero), (EvOK 3, EvErr EAGAIN), fun _ => false);
       ((EvZero, EvZero), (EvZero, EvOK 0), fun _ => false);
       ((EvZero, EvZero), (EvZero, EvOK 0), fun _ => false);
       ((EvZero, EvZero), (EvZero, EvZero), fun _ => false)]
      (Pipe [] 0 16) (Pipe [] 0 16) [] [1; 2] = Some (true, f, b)
    /\ d_shut b = true /\ [1; 2] = d_out b ++ d_in b.
Proof.
  eexists _, _. split; [reflexivity|].
  assert (Hemp : sp_rep (Pipe [] 0 16) [])
    by (cbv [sp_rep pipe_splicer pipe_rep]; simpl; split_and!; (reflexivity || lia)).
  destruct (splice_lossless (T := PipeSplicer)
    [((EvZero, EvZero), (EvOK 3, EvErr EAGAIN), fun _ => false);
     ((EvZero, EvZero), (EvZero, EvOK 0), fun _ => false);
     ((EvZero, EvZero), (EvZero, EvOK 0), fun _ => false);
     ((EvZero, EvZero), (EvZero, EvZero), fun _ => false)]
    (Pipe [] 0 16) (Pipe [] 0 16) [] [1; 2] true _ _
    Hemp Hemp eq_refl)
    as (qf & qb & _ & _ & H).
  destruct (H eq_refl) as [_ [Hw|Hs]]; [discriminate Hw|exact Hs].
Defined.
