(* ===== verification/Socks5Addr.v ===== *)
(** * SOCKS5 addresses

    Models the address part of hev/src/core/src/hev-socks5-proto.h and
    hev-socks5-misc.c: the packed union [HevSocks5Addr] as the memory it
    occupies, its constructors and its conversions to and from [sockaddr_in6].

    A [HevSocks5Addr] in memory is a list of bytes (260 for a whole object, fewer
    for one allocated to size); the members of the union are views of it, so code
    that writes through one member and reads through another is covered.  The
    name functions of the C library are parameters, in the record [Resolver]. *)

From S2P Require Import Prelude.

Definition HEV_SOCKS5_ADDR_TYPE_IPV4 : Z := 1.
Definition HEV_SOCKS5_ADDR_TYPE_NAME : Z := 3.
Definition HEV_SOCKS5_ADDR_TYPE_IPV6 : Z := 4.

Definition AF_UNSPEC : Z := 0.
Definition AF_INET : Z := 2.
Definition AF_INET6 : Z := 10.
Definition HEV_SOCKS5_ADDR_FAMILY_IPV4 : Z := AF_INET.
Definition HEV_SOCKS5_ADDR_FAMILY_IPV6 : Z := AF_INET6.
Definition HEV_SOCKS5_ADDR_FAMILY_UNSPEC : Z := AF_UNSPEC.

(** ** The union *)

Definition HevSocks5Addr := list Z.

(** [sizeof (HevSocks5Addr)]: the type byte, the length byte and
    [domain.addr[258]]. *)
Definition sizeof_HevSocks5Addr : nat := 260.

Definition atype (a : HevSocks5Addr) : Z := nthb a 0.
Definition ipv4_addr (a : HevSocks5Addr) : list Z := slice 1 4 a.
Definition ipv4_port (a : HevSocks5Addr) : Z := load16 a 5.
Definition ipv6_addr (a : HevSocks5Addr) : list Z := slice 1 16 a.
Definition ipv6_port (a : HevSocks5Addr) : Z := load16 a 17.
Definition domain_len (a : HevSocks5Addr) : Z := nthb a 1.
Definition domain_addr (a : HevSocks5Addr) : list Z := drop 2 a.

(** ** [struct sockaddr_in6]; [sin6_port] is in network byte order *)

Record sockaddr_in6 := SockAddr6 {
  sin6_family : Z;
  sin6_port : Z;
  sin6_addr : list Z
}.

Definition zero_sockaddr6 : sockaddr_in6 := SockAddr6 0 0 (replicate 16 0).

(** ** Constructors and length *)

Definition hev_socks5_addr_len (addr : HevSocks5Addr) : Z :=
  if atype addr =? HEV_SOCKS5_ADDR_TYPE_IPV4 then 7
  else if atype addr =? HEV_SOCKS5_ADDR_TYPE_IPV6 then 19
  else if atype addr =? HEV_SOCKS5_ADDR_TYPE_NAME then 4 + domain_len addr
  else -1.

(** [strncpy (dst, name, n)]: the bytes written. *)
Definition strncpy (name : list Z) (n : nat) : list Z :=
  take n name ++ replicate (n - length name) 0.

Definition hev_socks5_addr_from_name (addr : HevSocks5Addr) (name : list Z) (_port : Z)
  : HevSocks5Addr * Z :=
  let port := u16 _port in
  let addr := splice 0 [HEV_SOCKS5_ADDR_TYPE_NAME] addr in
  let addr := splice 2 (strncpy name 256) addr in
  let len := u8 (Z.of_nat (length (cstr (domain_addr addr)))) in
  let addr := splice 1 [len] addr in
  let addr := splice (2 + Z.to_nat len) (mem16 port) addr in
  (addr, 4 + len).

Definition hev_socks5_addr_from_ipv4 (addr : HevSocks5Addr) (ipv4 : list Z) (port : Z)
  : HevSocks5Addr * Z :=
  let addr := splice 0 [HEV_SOCKS5_ADDR_TYPE_IPV4] addr in
  let addr := splice 1 (take 4 ipv4) addr in
  let addr := splice 5 (mem16 (u16 port)) addr in
  (addr, 7).

Definition hev_socks5_addr_from_ipv6 (addr : HevSocks5Addr) (ipv6 : list Z) (port : Z)
  : HevSocks5Addr * Z :=
  let addr := splice 0 [HEV_SOCKS5_ADDR_TYPE_IPV6] addr in
  let addr := splice 1 (take 16 ipv6) addr in
  let addr := splice 17 (mem16 (u16 port)) addr in
  (addr, 19).

(** [IN6_IS_ADDR_V4MAPPED]: ten zero bytes, then [ff ff]. *)
Definition v4mapped_prefix : list Z := replicate 10 0 ++ [255; 255].
Definition IN6_IS_ADDR_V4MAPPED (a : list Z) : bool :=
  bool_decide (take 12 a = v4mapped_prefix).

Definition hev_socks5_addr_from_sockaddr6 (addr : HevSocks5Addr) (saddr : sockaddr_in6)
  : HevSocks5Addr * Z :=
  if IN6_IS_ADDR_V4MAPPED (sin6_addr saddr) then
    let addr := splice 0 [HEV_SOCKS5_ADDR_TYPE_IPV4] addr in
    let addr := splice 5 (mem16 (sin6_port saddr)) addr in
    let addr := splice 1 (slice 12 4 (sin6_addr saddr)) addr in
    (addr, 7)
  else
    let addr := splice 0 [HEV_SOCKS5_ADDR_TYPE_IPV6] addr in
    let addr := splice 17 (mem16 (sin6_port saddr)) addr in
    let addr := splice 1 (slice 0 16 (sin6_addr saddr)) addr in
    (addr, 19).

(** ** Conversion to a socket address *)

Definition hev_socks5_ipv4_into_sockaddr6 (addr : HevSocks5Addr) (saddr : sockaddr_in6)
  : sockaddr_in6 :=
  SockAddr6 AF_INET6 (ipv4_port addr)
    (splice 12 (ipv4_addr addr)
      (splice 11 [255] (splice 10 [255] (splice 0 (replicate 10 0) (sin6_addr saddr))))).

Definition hev_socks5_ipv6_into_sockaddr6 (addr : HevSocks5Addr) (saddr : sockaddr_in6)
  : sockaddr_in6 :=
  SockAddr6 AF_INET6 (ipv6_port addr) (splice 0 (ipv6_addr addr) (sin6_addr saddr)).

(** The functions of the C library that resolve names. *)
Record Resolver := {
  (** [inet_pton (AF_INET, ..)]: the 4 bytes, if the string is an address *)
  inet_pton4 : list Z -> option (list Z);
  (** [inet_pton (AF_INET6, ..)]: the 16 bytes *)
  inet_pton6 : list Z -> option (list Z);
  (** [getaddrinfo] with [ai_family] as a hint: family and address of the
      first result *)
  getaddrinfo : list Z -> Z -> option (Z * list Z)
}.

Section Resolve.
Context (res : Resolver).

Definition hev_socks5_name_resolve_ipv4 (name : list Z) (saddr : sockaddr_in6)
  : Z * sockaddr_in6 :=
  let a := splice 0 (replicate 10 0) (sin6_addr saddr) in
  match inet_pton4 res name with
  | None => (-1, SockAddr6 (sin6_family saddr) (sin6_port saddr) a)
  | Some ip =>
      (0, SockAddr6 (sin6_family saddr) (sin6_port saddr)
            (splice 11 [255] (splice 10 [255] (splice 12 ip a))))
  end.

Definition hev_socks5_name_resolve_ipv6 (name : list Z) (saddr : sockaddr_in6)
  : Z * sockaddr_in6 :=
  match inet_pton6 res name with
  | None => (-1, saddr)
  | Some ip => (0, SockAddr6 (sin6_family saddr) (sin6_port saddr) (splice 0 ip (sin6_addr saddr)))
  end.

Definition hev_socks5_name_resolve_name (name : list Z) (saddr : sockaddr_in6) (family : Z)
  : Z * sockaddr_in6 * Z :=
  match getaddrinfo res name family with
  | None => (-1, saddr, family)
  | Some (ai_family, ip) =>
      if ai_family =? AF_INET then
        (0, SockAddr6 (sin6_family saddr) (sin6_port saddr)
              (splice 12 (take 4 ip)
                (splice 11 [255] (splice 10 [255] (splice 0 (replicate 10 0) (sin6_addr saddr))))),
         HEV_SOCKS5_ADDR_FAMILY_IPV4)
      else if ai_family =? AF_INET6 then
        (0, SockAddr6 (sin6_family saddr) (sin6_port saddr)
              (splice 0 (take 16 ip) (sin6_addr saddr)),
         HEV_SOCKS5_ADDR_FAMILY_IPV6)
      else (-1, saddr, family)
  end.

Definition hev_socks5_name_into_sockaddr6 (name : list Z) (port : Z) (saddr : sockaddr_in6)
    (family : Z) : Z * sockaddr_in6 * Z :=
  let saddr := SockAddr6 AF_INET6 (htons (u16 port)) (sin6_addr saddr) in
  let '(r, saddr) := hev_socks5_name_resolve_ipv4 name saddr in
  if r =? 0 then (0, saddr, HEV_SOCKS5_ADDR_FAMILY_IPV4)
  else
    let '(r, saddr) := hev_socks5_name_resolve_ipv6 name saddr in
    if r =? 0 then (0, saddr, HEV_SOCKS5_ADDR_FAMILY_IPV6)
    else hev_socks5_name_resolve_name name saddr family.

Definition hev_socks5_addr_into_sockaddr6 (addr : HevSocks5Addr) (saddr : sockaddr_in6)
    (family : Z) : Z * sockaddr_in6 * Z :=
  if atype addr =? HEV_SOCKS5_ADDR_TYPE_IPV4 then
    (0, hev_socks5_ipv4_into_sockaddr6 addr saddr, HEV_SOCKS5_ADDR_FAMILY_IPV4)
  else if atype addr =? HEV_SOCKS5_ADDR_TYPE_IPV6 then
    (0, hev_socks5_ipv6_into_sockaddr6 addr saddr, HEV_SOCKS5_ADDR_FAMILY_IPV6)
  else if atype addr =? HEV_SOCKS5_ADDR_TYPE_NAME then
    let len := Z.to_nat (domain_len addr) in
    let name := cstr (take len (domain_addr addr) ++ [0]) in
    let port := load16 addr (2 + len) in
    hev_socks5_name_into_sockaddr6 name (ntohs port) saddr family
  else (-1, saddr, family).

End Resolve.

(** ** The address a byte string denotes

    The specification of the encoding (RFC 1928, section 5): an address and a
    port in host byte order, and its bytes on the wire. *)

Inductive address :=
  | AIPv4 (ip : list Z) (port : Z)
  | AIPv6 (ip : list Z) (port : Z)
  | AName (name : list Z) (port : Z).

Definition be16 (v : Z) : list Z := [v / 256; v mod 256].

Definition wire (a : address) : list Z :=
  match a with
  | AIPv4 ip port => HEV_SOCKS5_ADDR_TYPE_IPV4 :: ip ++ be16 port
  | AIPv6 ip port => HEV_SOCKS5_ADDR_TYPE_IPV6 :: ip ++ be16 port
  | AName name port =>
      HEV_SOCKS5_ADDR_TYPE_NAME :: Z.of_nat (length name) :: name ++ be16 port
  end.

Definition address_ok (a : address) : Prop :=
  match a with
  | AIPv4 ip port => length ip = 4%nat /\ bytes_ok ip /\ is_u16 port
  | AIPv6 ip port => length ip = 16%nat /\ bytes_ok ip /\ is_u16 port
  | AName name port => (length name <= 255)%nat /\ cstring name /\ is_u16 port
  end.

(** The socket address an IP address stands for. *)
Definition mapped (ip : list Z) : list Z := v4mapped_prefix ++ ip.

Definition sockaddr_of (ip16 : list Z) (port : Z) : sockaddr_in6 :=
  SockAddr6 AF_INET6 (htons port) ip16.

(** What a name resolves to, given the C library. *)
Definition resolves (res : Resolver) (name : list Z) (family : Z) : option (list Z * Z) :=
  match inet_pton4 res name with
  | Some ip => Some (mapped ip, HEV_SOCKS5_ADDR_FAMILY_IPV4)
  | None =>
      match inet_pton6 res name with
      | Some ip => Some (ip, HEV_SOCKS5_ADDR_FAMILY_IPV6)
      | None =>
          match getaddrinfo res name family with
          | Some (af, ip) =>
              if af =? AF_INET then Some (mapped (take 4 ip), HEV_SOCKS5_ADDR_FAMILY_IPV4)
              else if af =? AF_INET6 then Some (take 16 ip, HEV_SOCKS5_ADDR_FAMILY_IPV6)
              else None
          | None => None
          end
      end
  end.

Definition target (res : Resolver) (a : address) (family : Z) : option (sockaddr_in6 * Z) :=
  match a with
  | AIPv4 ip port => Some (sockaddr_of (mapped ip) port, HEV_SOCKS5_ADDR_FAMILY_IPV4)
  | AIPv6 ip port => Some (sockaddr_of ip port, HEV_SOCKS5_ADDR_FAMILY_IPV6)
  | AName name port =>
      match resolves res name family with
      | Some (ip16, fam) => Some (sockaddr_of ip16 port, fam)
      | None => None
      end
  end.

(** Documented sizes of what the library functions return. *)
Record resolver_ok (res : Resolver) : Prop := {
  pton4_len : forall n ip, inet_pton4 res n = Some ip -> length ip = 4%nat;
  pton6_len : forall n ip, inet_pton6 res n = Some ip -> length ip = 16%nat;
  gai_len : forall n f af ip, getaddrinfo res n f = Some (af, ip) ->
      (af = AF_INET -> (4 <= length ip)%nat) /\ (af = AF_INET6 -> (16 <= length ip)%nat)
}.

(** ** Lemmas *)

Lemma mem16_htons port : is_u16 port -> mem16 (u16 (htons port)) = be16 port.
Proof.
  intros H. rewrite u16_id by apply bswap16_range. unfold is_u16 in H.
  unfold mem16, htons, bswap16, be16. f_equal; [zdiv|]. f_equal. zdiv.
Qed.

Lemma be16_load port : is_u16 port -> port / 256 + 256 * (port mod 256) = htons port.
Proof. unfold is_u16, htons, bswap16. intros H. zdiv. Qed.

Lemma length_be16 v : length (be16 v) = 2%nat.
Proof. done. Qed.
#[export] Hint Rewrite length_be16 : len.

Lemma length_wire a : address_ok a ->
  Z.of_nat (length (wire a)) =
  match a with AIPv4 _ _ => 7 | AIPv6 _ _ => 19 | AName n _ => 4 + Z.of_nat (length n) end.
Proof. destruct a; simpl; intros (Hl & _ & _); rewrite length_app; simpl; lia. Qed.

Lemma from_ipv4_wire m ip port :
  length m = sizeof_HevSocks5Addr -> length ip = 4%nat -> is_u16 port ->
  hev_socks5_addr_from_ipv4 m ip (htons port) = (wire (AIPv4 ip port) ++ drop 7 m, 7).
Proof.
  intros Hm Hip Hp. unfold hev_socks5_addr_from_ipv4. rewrite mem16_htons by done.
  f_equal. rewrite (take_ge ip) by lia. rewrite splice_front.
  rewrite (splice_behind 1 [_]) by done. rewrite app_assoc, splice_behind by (simpl; lia).
  simpl. rewrite <- app_assoc, Hip, !drop_drop. done.
Qed.

Lemma from_ipv6_wire m ip port :
  length m = sizeof_HevSocks5Addr -> length ip = 16%nat -> is_u16 port ->
  hev_socks5_addr_from_ipv6 m ip (htons port) = (wire (AIPv6 ip port) ++ drop 19 m, 19).
Proof.
  intros Hm Hip Hp. unfold hev_socks5_addr_from_ipv6. rewrite mem16_htons by done.
  f_equal. rewrite (take_ge ip) by lia. rewrite splice_front.
  rewrite (splice_behind 1 [_]) by done. rewrite app_assoc, splice_behind by (simpl; lia).
  simpl. rewrite <- app_assoc, Hip, !drop_drop. done.
Qed.

(** Up to 255 bytes the name, its length and the port fit the object. *)
Lemma from_name_wire m name port :
  length m = sizeof_HevSocks5Addr -> (length name <= 255)%nat -> cstring name -> is_u16 port ->
  exists tl, hev_socks5_addr_from_name m name (htons port)
    = (wire (AName name port) ++ tl, 4 + Z.of_nat (length name))
    /\ length (wire (AName name port) ++ tl) = length m.
Proof.
  intros Hm Hn Hc Hp. unfold hev_socks5_addr_from_name, sizeof_HevSocks5Addr in *.
  rewrite mem16_htons by done.
  assert (H2 : exists b, splice 0 [HEV_SOCKS5_ADDR_TYPE_NAME] m = [3; b] ++ drop 2 m).
  { destruct m as [|x [|b m]]; simpl in Hm; try lia. by exists b. }
  destruct H2 as [b ->].
  rewrite splice_behind by done. unfold strncpy. rewrite (take_ge name) by lia.
  set (z := (256 - length name)%nat).
  rewrite !length_app, length_replicate.
  set (r := drop (length name + z) (drop 2 m)).
  assert (Hr : length r = 2%nat) by (subst r z; autorewrite with len; lia).
  replace (domain_addr _) with (name ++ 0 :: replicate (z - 1) 0 ++ r).
  2: { unfold domain_addr. simpl. rewrite <- app_assoc. f_equal.
       replace z with (S (z - 1)) at 2 by (subst z; lia). done. }
  rewrite cstr_of_cstring by done. rewrite u8_id by (unfold is_u8; lia).
  rewrite Nat2Z.id. change ([3; b] ++ ?x) with ([3] ++ [b] ++ x).
  rewrite splice_over by done.
  exists (drop 2 (replicate z 0 ++ r)). split.
  - f_equal. rewrite <- app_assoc, (app_assoc [3]), (app_assoc _ name).
    rewrite splice_behind by (autorewrite with len; simpl; lia).
    simpl. by rewrite <- !app_assoc.
  - simpl. autorewrite with len. simpl. autorewrite with len. subst z. lia.
Qed.

Lemma addr_len_wire a tl :
  address_ok a -> hev_socks5_addr_len (wire a ++ tl) = Z.of_nat (length (wire a)).
Proof.
  intros Ha. rewrite (length_wire a Ha). destruct a; unfold hev_socks5_addr_len; done.
Qed.

Lemma fill_mapped a ip :
  length a = 16%nat -> length ip = 4%nat ->
  splice 12 ip (splice 11 [255] (splice 10 [255] (splice 0 (replicate 10 0) a))) = mapped ip
  /\ splice 11 [255] (splice 10 [255] (splice 12 ip (splice 0 (replicate 10 0) a))) = mapped ip.
Proof. intros Ha Hi. explode a. explode ip. done. Qed.

Lemma fill_addr16 a ip : length a = 16%nat -> length ip = 16%nat -> splice 0 ip a = ip.
Proof. intros Ha Hi. rewrite splice_front, Hi, <- Ha, drop_all. apply app_nil_r. Qed.

Lemma name_into_sockaddr6_spec res name port saddr family :
  resolver_ok res -> is_u16 port -> length (sin6_addr saddr) = 16%nat ->
  match resolves res name family with
  | Some (ip16, fam) =>
      hev_socks5_name_into_sockaddr6 res name port saddr family = (0, sockaddr_of ip16 port, fam)
  | None => exists sa, hev_socks5_name_into_sockaddr6 res name port saddr family = (-1, sa, family)
  end.
Proof.
  intros [H4 H6 Hg] Hp Hs.
  unfold resolves, hev_socks5_name_into_sockaddr6, hev_socks5_name_resolve_ipv4,
    hev_socks5_name_resolve_ipv6, hev_socks5_name_resolve_name, sockaddr_of.
  rewrite u16_id by done. cbn [sin6_addr sin6_family sin6_port]. cbn zeta.
  destruct (inet_pton4 res name) as [ip|] eqn:E4; cbn beta iota; simpl (_ =? 0); cbn beta iota; cbn [sin6_addr sin6_family sin6_port].
  { by rewrite (proj2 (fill_mapped _ ip Hs (H4 _ _ E4))). }
  assert (Hs0 : length (splice 0 (replicate 10 0) (sin6_addr saddr)) = 16%nat)
    by (rewrite length_splice; simpl; lia).
  destruct (inet_pton6 res name) as [ip|] eqn:E6; cbn beta iota; simpl (_ =? 0); cbn beta iota; cbn [sin6_addr sin6_family sin6_port].
  { by rewrite (fill_addr16 _ ip Hs0 (H6 _ _ E6)). }
  destruct (getaddrinfo res name family) as [[af ip]|] eqn:Eg; [|by eexists].
  destruct (Hg _ _ _ _ Eg) as [Hg4 Hg6].
  destruct (Z.eqb_spec af AF_INET) as [->|_].
  { rewrite (proj1 (fill_mapped _ (take 4 ip) Hs0 ltac:(rewrite length_take_le; auto))). done. }
  destruct (Z.eqb_spec af AF_INET6) as [->|_]; [|by eexists].
  rewrite (fill_addr16 _ (take 16 ip) Hs0 ltac:(rewrite length_take_le; auto)). done.
Qed.

(** Reading back an address from memory gives its target. *)
Lemma into_sockaddr6_wire res a tl saddr family :
  resolver_ok res -> address_ok a -> length (sin6_addr saddr) = 16%nat ->
  match target res a family with
  | Some (sa, fam) =>
      hev_socks5_addr_into_sockaddr6 res (wire a ++ tl) saddr family = (0, sa, fam)
  | None => exists sa,
      hev_socks5_addr_into_sockaddr6 res (wire a ++ tl) saddr family = (-1, sa, family)
  end.
Proof.
  intros Hr Ha Hs. destruct a as [ip port|ip port|name port]; simpl target;
    destruct Ha as (Hl & Hb & Hp); unfold hev_socks5_addr_into_sockaddr6; cbn - [domain_addr load16].
  - unfold hev_socks5_ipv4_into_sockaddr6, sockaddr_of, ipv4_port, ipv4_addr. simpl wire.
    change (HEV_SOCKS5_ADDR_TYPE_IPV4 :: ?x) with ([HEV_SOCKS5_ADDR_TYPE_IPV4] ++ x).
    rewrite <- !app_assoc.
    rewrite slice_at by (simpl; lia).
    rewrite (proj1 (fill_mapped _ ip Hs Hl)). do 3 f_equal.
    rewrite app_assoc. etransitivity; [apply load16_at; simpl; lia|]. by apply be16_load.
  - unfold hev_socks5_ipv6_into_sockaddr6, sockaddr_of, ipv6_port, ipv6_addr. simpl wire.
    change (HEV_SOCKS5_ADDR_TYPE_IPV6 :: ?x) with ([HEV_SOCKS5_ADDR_TYPE_IPV6] ++ x).
    rewrite <- !app_assoc. rewrite slice_at by (simpl; lia).
    rewrite (fill_addr16 _ ip Hs Hl). do 3 f_equal.
    rewrite app_assoc. etransitivity; [apply load16_at; simpl; lia|]. by apply be16_load.
  - unfold domain_addr. cbn [drop]. rewrite <- app_assoc. rewrite Nat2Z.id, drop_0.
    rewrite take_length_app by done. rewrite cstr_of_cstring by done.
    replace (load16 _ _) with (htons port).
    2: { symmetry. etransitivity; [apply (load16_at _ (3 :: Z.of_nat (length name) :: name)); simpl; lia|].
         by apply be16_load. }
    unfold ntohs, htons. rewrite bswap16_invol by done.
    pose proof (name_into_sockaddr6_spec res name port saddr family Hr Hp Hs) as H.
    by destruct (resolves res name family) as [[ip16 fam]|].
Qed.

(** The address a socket address denotes: mapped ones are IPv4. *)
Definition address_of (sa : sockaddr_in6) : address :=
  if IN6_IS_ADDR_V4MAPPED (sin6_addr sa)
  then AIPv4 (slice 12 4 (sin6_addr sa)) (ntohs (sin6_port sa))
  else AIPv6 (sin6_addr sa) (ntohs (sin6_port sa)).

Definition sockaddr_ok (sa : sockaddr_in6) : Prop :=
  sin6_family sa = AF_INET6 /\ is_u16 (sin6_port sa)
  /\ length (sin6_addr sa) = 16%nat /\ bytes_ok (sin6_addr sa).

Lemma address_of_ok sa : sockaddr_ok sa -> address_ok (address_of sa).
Proof.
  intros (_ & Hp & Hl & Hb). unfold address_of.
  destruct (IN6_IS_ADDR_V4MAPPED _); simpl; split_and!; auto with hev.
  - rewrite length_slice. lia.
  - apply Forall_take, Forall_drop. done.
Qed.

Lemma mem16_ntohs p : is_u16 p -> mem16 p = be16 (ntohs p).
Proof.
  unfold is_u16, mem16, be16, ntohs, bswap16. intros H. f_equal; [zdiv|]. f_equal. zdiv.
Qed.

Lemma v4mapped_split a :
  length a = 16%nat -> IN6_IS_ADDR_V4MAPPED a = true -> a = mapped (slice 12 4 a).
Proof.
  unfold IN6_IS_ADDR_V4MAPPED, mapped. intros Hl H. apply bool_decide_eq_true in H.
  rewrite <- H. unfold slice. rewrite (take_ge (drop 12 a)) by len. symmetry. apply take_drop.
Qed.

Lemma from_sockaddr6_wire m sa :
  (19 <= length m)%nat -> sockaddr_ok sa ->
  exists tl, hev_socks5_addr_from_sockaddr6 m sa =
    (wire (address_of sa) ++ tl, Z.of_nat (length (wire (address_of sa))))
    /\ length (wire (address_of sa) ++ tl) = length m.
Proof.
  intros Hm Hs. pose proof (address_of_ok sa Hs) as Ho. rewrite (length_wire _ Ho).
  destruct Hs as (Hf & Hp & Hl & Hb).
  unfold hev_socks5_addr_from_sockaddr6, address_of in *.
  destruct (IN6_IS_ADDR_V4MAPPED (sin6_addr sa)); simpl in Ho; destruct Ho as (Hl4 & _ & _).
  - exists (drop 7 m). split; [|simpl; autorewrite with len; simpl; lia].
    f_equal. rewrite splice_front, mem16_ntohs by done. simpl (drop (length _) m).
    rewrite (drop_split2 1 4 2 m). set (b := take 4 (drop 1 m)).
    rewrite app_assoc, splice_over by (subst b; len).
    rewrite <- app_assoc, splice_over by (subst b; rewrite ?Hl4; len).
    simpl. by rewrite <- app_assoc.
  - exists (drop 19 m). split; [|simpl; autorewrite with len; simpl; lia].
    f_equal. rewrite splice_front, mem16_ntohs by done. simpl (drop (length _) m).
    rewrite (drop_split2 1 16 2 m). set (b := take 16 (drop 1 m)).
    rewrite app_assoc, splice_over by (subst b; len).
    replace (slice 0 16 (sin6_addr sa)) with (sin6_addr sa)
      by (unfold slice; rewrite drop_0, take_ge; [done|lia]).
    rewrite <- app_assoc, splice_over by (subst b; rewrite ?Hl4; len).
    simpl. by rewrite <- app_assoc.
Qed.

Lemma target_address_of res sa f :
  sockaddr_ok sa ->
  target res (address_of sa) f =
  Some (sa, if IN6_IS_ADDR_V4MAPPED (sin6_addr sa)
            then HEV_SOCKS5_ADDR_FAMILY_IPV4 else HEV_SOCKS5_ADDR_FAMILY_IPV6).
Proof.
  intros (Hf & Hp & Hl & Hb). unfold address_of.
  destruct (IN6_IS_ADDR_V4MAPPED (sin6_addr sa)) eqn:E; simpl; unfold sockaddr_of, htons, ntohs;
    rewrite bswap16_invol by done.
  - rewrite <- v4mapped_split by done. by destruct sa; simpl in *; subst.
  - by destruct sa; simpl in *; subst.
Qed.

(** Socket addresses survive the SOCKS5 encoding: writing any IPv6 socket
    address (IPv4-mapped ones become SOCKS5 IPv4 addresses) into any address
    object with [hev_socks5_addr_from_sockaddr6] and reading it back with
    [hev_socks5_addr_into_sockaddr6] returns the same address and port and the
    matching family; the length returned is [hev_socks5_addr_len], and exactly
    these bytes are the RFC 1928 encoding. *)
Theorem sockaddr6_roundtrip res m sa saddr family :
  resolver_ok res -> length m = sizeof_HevSocks5Addr -> sockaddr_ok sa ->
  length (sin6_addr saddr) = 16%nat ->
  let '(addr, len) := hev_socks5_addr_from_sockaddr6 m sa in
  hev_socks5_addr_into_sockaddr6 res addr saddr family =
    (0, sa, if IN6_IS_ADDR_V4MAPPED (sin6_addr sa)
            then HEV_SOCKS5_ADDR_FAMILY_IPV4 else HEV_SOCKS5_ADDR_FAMILY_IPV6)
  /\ hev_socks5_addr_len addr = len
  /\ take (Z.to_nat len) addr = wire (address_of sa)
  /\ length addr = length m.
Proof.
  intros Hr Hm Hs Hsa.
  destruct (from_sockaddr6_wire m sa) as (tl & -> & Hlen); [rewrite Hm; unfold sizeof_HevSocks5Addr; lia|done|].
  pose proof (address_of_ok sa Hs) as Ho.
  pose proof (into_sockaddr6_wire res _ tl saddr family Hr Ho Hsa) as Hi.
  rewrite target_address_of in Hi by done.
  split_and!; [done|by apply addr_len_wire| |done].
  rewrite Nat2Z.id. by apply take_length_app.
Qed.

Definition no_resolver : Resolver :=
  {| inet_pton4 _ := None; inet_pton6 _ := None; getaddrinfo _ _ := None |}.

Lemma no_resolver_ok : resolver_ok no_resolver.
Proof. by constructor. Qed.

Lemma sockaddr6_roundtrip_witness :
  hev_socks5_addr_into_sockaddr6 no_resolver
    (hev_socks5_addr_from_sockaddr6 (replicate 260 7) (sockaddr_of (mapped [10; 0; 0; 1]) 443)).1
    zero_sockaddr6 0 = (0, sockaddr_of (mapped [10; 0; 0; 1]) 443, 2).
Proof.
  exact (proj1 (sockaddr6_roundtrip no_resolver (replicate 260 7)
    (sockaddr_of (mapped [10; 0; 0; 1]) 443) zero_sockaddr6 0 no_resolver_ok eq_refl
    ltac:(repeat split; try (vm_compute; congruence); repeat constructor; vm_compute; congruence)
    eq_refl)).
Defined.

(** The name constructor: for a C string of at most 255 bytes,
    [hev_socks5_addr_from_name] (called with the port in network order) writes
    exactly the RFC 1928 encoding, reports its length, and stays inside the
    260-byte object; reading it back resolves that very name with that port. *)
Theorem addr_name_roundtrip res m name port saddr family :
  resolver_ok res -> length m = sizeof_HevSocks5Addr ->
  (length name <= 255)%nat -> cstring name -> is_u16 port -> length (sin6_addr saddr) = 16%nat ->
  let '(addr, len) := hev_socks5_addr_from_name m name (htons port) in
  take (Z.to_nat len) addr = wire (AName name port)
  /\ hev_socks5_addr_len addr = len /\ length addr = length m
  /\ match resolves res name family with
     | Some (ip16, fam) =>
         hev_socks5_addr_into_sockaddr6 res addr saddr family = (0, sockaddr_of ip16 port, fam)
     | None => exists sa, hev_socks5_addr_into_sockaddr6 res addr saddr family = (-1, sa, family)
     end.
Proof.
  intros Hr Hm Hn Hc Hp Hsa.
  destruct (from_name_wire m name port) as (tl & -> & Hlen); [done..|].
  assert (Ha : address_ok (AName name port)) by done.
  pose proof (length_wire _ Ha) as Hw. simpl in Hw.
  pose proof (into_sockaddr6_wire res _ tl saddr family Hr Ha Hsa) as Hi. simpl target in Hi.
  split_and!; [|by rewrite addr_len_wire|done|].
  - apply take_length_app. simpl in *. lia.
  - by destruct (resolves res name family) as [[ip16 fam]|].
Qed.

Lemma addr_name_roundtrip_witness :
  (hev_socks5_addr_from_name (replicate 260 7) [97; 98] (htons 80)).2 = 6
  /\ take 6 (hev_socks5_addr_from_name (replicate 260 7) [97; 98] (htons 80)).1
     = [3; 2; 97; 98; 0; 80].
Proof.
  split; [reflexivity|].
  exact (proj1 (addr_name_roundtrip no_resolver (replicate 260 7) [97; 98] 80 zero_sockaddr6 0
    no_resolver_ok eq_refl ltac:(simpl; lia) ltac:(repeat constructor; lia)
    ltac:(unfold is_u16; lia) eq_refl)).
Defined.
