(* ===== verification/Prog.v ===== *)
(** * Programs that do I/O

    The SOCKS5 code of hev/src/core/src calls the task system and the kernel.
    A function of that code is modelled as a program: a tree of calls ([sys]) with
    the rest of the function as a continuation of the answer, so a theorem about
    the program holds for every behaviour of what it calls.  The object the
    function works on is passed as explicit state; functions are composed in the
    monad [M], state passing in continuation style.

    Two semantics are given.  [wp] quantifies over all answers that keep the
    contracts of [TaskIO]; a program that satisfies it also never reaches
    undefined behaviour.  [pstep] connects two programs by a byte stream in each
    direction and interleaves them arbitrarily; [pstep_determinate] shows that
    the outcome does not depend on the interleaving. *)

From stdpp Require Import relations.
From S2P Require Import Prelude TaskIO Socks5Addr.

(** ** Calls *)

Definition SOCK_STREAM : Z := 1.
Definition SOCK_DGRAM : Z := 2.
Definition SOL_SOCKET : Z := 1.
Definition SO_REUSEADDR : Z := 2.
Definition SO_RCVBUF : Z := 8.
Definition IPPROTO_IPV6 : Z := 41.
Definition IPV6_V6ONLY : Z := 26.

Inductive sys : Type -> Type :=
  (** hev-task-io-socket.c; the yielder is [hev_socks5_task_io_yielder] *)
  | Recv (fd : Z) (len : nat) (flags : Z) : sys (Z * list Z)
  | Send (fd : Z) (buf : list Z) (flags : Z) : sys Z
  | SendMsg (fd : Z) (iov : list (list Z)) (flags : Z) : sys Z
  | Connect (fd : Z) (addr : sockaddr_in6) : sys Z
  | RecvMsg (fd : Z) (lens : list nat) (flags : Z) : sys (Z * list Z)
  | SendMmsg (fd : Z) (msgs : list (option sockaddr_in6 * list (list Z))) (flags : Z) : sys Z
  (** the payload of each datagram and its sender *)
  | RecvMmsg (fd : Z) (lens : list nat) (flags : Z) : sys (Z * list (list Z * sockaddr_in6))
  (** kernel and C library *)
  | Socket (domain type : Z) : sys Z
  | SetSockOpt (fd level opt val : Z) : sys Z
  | Bind (fd : Z) (addr : sockaddr_in6) : sys Z
  | GetSockName (fd : Z) : sys (Z * sockaddr_in6)
  | Close (fd : Z) : sys unit
  | SysRecv (fd : Z) (len : nat) : sys (Z * list Z)
  | SysConnect (fd : Z) (addr : sockaddr_in6) : sys Z
  | Errno : sys Z
  (** task system *)
  | TaskAddFd (fd : Z) : sys Z
  | TaskModFd (fd : Z) : sys Z
  | TaskDelFd (fd : Z) : sys unit
  | TaskSleep (ms : Z) : sys Z
  | TaskYield (waitio : bool) : sys unit
  (** [hev_malloc], [hev_malloc0]: whether it succeeded; [hev_free] *)
  | Malloc (size : Z) : sys bool
  | Free (size : Z) : sys unit
  (** hev-object *)
  | ObjectRef (obj : Z) : sys unit
  | ObjectUnref (obj : Z) : sys unit
  (** the data phase: [hev_socks5_tcp_splice], [hev_socks5_udp_splice] *)
  | TcpSplice (fd1 fd2 : Z) : sys Z
  | UdpSplice (fd : Z) : sys Z.

Inductive prog (A : Type) : Type :=
  | Ret (a : A)
  | Vis {X : Type} (e : sys X) (k : X -> prog A)
  (** undefined behaviour, such as a NULL dereference *)
  | Crash.
Arguments Ret {A} a.
Arguments Vis {A X} e k.
Arguments Crash {A}.

(** ** The state monad over programs *)

Definition M (S A : Type) : Type := forall R, (A -> S -> prog R) -> S -> prog R.

Definition ret {S A} (a : A) : M S A := fun R k s => k a s.
Definition bindM {S A B} (m : M S A) (f : A -> M S B) : M S B :=
  fun R k s => m R (fun a s' => f a R k s') s.
Definition call {S X} (e : sys X) : M S X := fun R k s => Vis e (fun x => k x s).
Definition modify {S} (f : S -> S) : M S unit := fun R k s => k tt (f s).
Definition gets {S A} (f : S -> A) : M S A := fun R k s => k (f s) s.
Definition undefined {S A} : M S A := fun R k s => Crash.

(** Run a function on a part of the state, as the C code calls the functions of
    a base class on [&self->base]. *)
Definition zoom {S T A} (rd : S -> T) (wr : T -> S -> S) (m : M T A) : M S A :=
  fun R k s => m R (fun a t => k a (wr t s)) (rd s).

(** The whole program of a call on the object [s]. *)
Definition run {S A} (m : M S A) (s : S) : prog (A * S) := m _ (fun a s' => Ret (a, s')) s.

Declare Scope prog_scope.
Delimit Scope prog_scope with prog.
Notation "x <- m ;; k" := (bindM m (fun x => k))
  (at level 100, m at next level, right associativity) : prog_scope.
Notation "m ;; k" := (bindM m (fun _ => k))
  (at level 100, right associativity) : prog_scope.
#[global] Open Scope prog_scope.

(** ** Traces *)

(** A call together with its answer. *)
Inductive item := | Item {X : Type} (e : sys X) (x : X).

(** The descriptors a trace has opened and not closed. *)
Definition item_open (i : item) (open : list Z) : list Z :=
  match i with
  | @Item _ (Socket _ _) x => if x <? 0 then open else x :: open
  | @Item _ (Close fd) _ => filter (fun d => d <> fd) open
  | _ => open
  end.

Definition open_fds (tr : list item) : list Z := foldl (fun open i => item_open i open) [] tr.

Lemma open_fds_snoc tr i : open_fds (tr ++ [i]) = item_open i (open_fds tr).
Proof. unfold open_fds. by rewrite foldl_app. Qed.

(** ** All behaviours

    What the code may assume of an answer after the calls [tr]: the contracts
    proved in [TaskIO], that a new descriptor is not one that is open, and the
    layout of a socket address. *)
Definition answer_ok (tr : list item) {X} (e : sys X) : X -> Prop :=
  match e in sys X return X -> Prop with
  | Recv _ len flags => fun x =>
      bytes_ok x.2 /\
      (if flag flags MSG_WAITALL then recv_contract len x.1 x.2
      else Z.of_nat (length x.2) = Z.max 0 x.1 /\ x.1 <= Z.of_nat len)
  | RecvMsg _ lens flags => fun x =>
      bytes_ok x.2 /\
      (if flag flags MSG_WAITALL then recv_contract (sum_list lens) x.1 x.2
      else Z.of_nat (length x.2) = Z.max 0 x.1 /\ x.1 <= Z.of_nat (sum_list lens))
  | RecvMmsg _ lens _ => fun x =>
      x.1 <= Z.of_nat (length lens) /\
      (0 < x.1 -> Z.of_nat (length x.2) = x.1 /\
        Forall2 (fun m n => bytes_ok m.1 /\ (length m.1 <= n)%nat /\ sockaddr_ok m.2)
          x.2 (take (Z.to_nat x.1) lens))
  | SendMmsg _ msgs _ => fun r => r <= Z.of_nat (length msgs)
  | Send _ buf _ => fun r => r <= Z.of_nat (length buf)
  | SendMsg _ iov _ => fun r => r <= Z.of_nat (length (concat iov))
  | Socket _ _ => fun x => 0 <= x -> x ∉ open_fds tr
  | GetSockName _ => fun x => 0 <= x.1 -> sockaddr_ok x.2
  | _ => fun _ => True
  end.

(** Every run of [p] whose answers keep the contracts does not crash and
    ends with [Q]; [tr] is what was called before. *)
Fixpoint wp {A} (p : prog A) (tr : list item) (Q : list item -> A -> Prop) : Prop :=
  match p with
  | Ret a => Q tr a
  | Vis e k => forall x, answer_ok tr e x -> wp (k x) (tr ++ [Item e x]) Q
  | Crash => False
  end.

(** The specification of a function: called on [s] after [tr], every run of it
    ends with a result, an object and a trace that satisfy [P]. *)
Definition spec {S A} (m : M S A) (s : S) (tr : list item) (P : A -> S -> list item -> Prop) :=
  forall R k Q, (forall a s' tr', P a s' tr' -> wp (k a s') tr' Q) -> wp (m R k s) tr Q.

Lemma spec_ret {S A} (a : A) (s : S) tr (P : A -> S -> list item -> Prop) :
  P a s tr -> spec (ret a) s tr P.
Proof. intros H R k Q HQ. by apply HQ. Qed.

Lemma spec_bind {S A B} (m : M S A) (f : A -> M S B) s tr P :
  spec m s tr (fun a s' tr' => spec (f a) s' tr' P) -> spec (bindM m f) s tr P.
Proof.
  intros H R k Q HQ. apply H. intros a s' tr' Hf. apply Hf. exact HQ.
Qed.

Lemma spec_call {S X} (e : sys X) (s : S) tr (P : X -> S -> list item -> Prop) :
  (forall x, answer_ok tr e x -> P x s (tr ++ [Item e x])) -> spec (call e) s tr P.
Proof. intros H R k Q HQ. simpl. auto. Qed.

Lemma spec_gets {S A} (f : S -> A) s tr (P : A -> S -> list item -> Prop) :
  P (f s) s tr -> spec (gets f) s tr P.
Proof. intros H R k Q HQ. by apply HQ. Qed.

Lemma spec_modify {S} (f : S -> S) s tr (P : unit -> S -> list item -> Prop) :
  P tt (f s) tr -> spec (modify f) s tr P.
Proof. intros H R k Q HQ. by apply HQ. Qed.

Lemma spec_zoom {S T A} (rd : S -> T) wr (m : M T A) s tr P :
  spec m (rd s) tr (fun a t tr' => P a (wr t s) tr') -> spec (zoom rd wr m) s tr P.
Proof. intros H R k Q HQ. apply H. auto. Qed.

Lemma spec_mono {S A} (m : M S A) s tr (P P' : A -> S -> list item -> Prop) :
  (forall a s' tr', P a s' tr' -> P' a s' tr') -> spec m s tr P -> spec m s tr P'.
Proof. intros HP H R k Q HQ. apply H. auto. Qed.

Lemma wp_mono {A} (p : prog A) tr (Q Q' : list item -> A -> Prop) :
  (forall tr' a, Q tr' a -> Q' tr' a) -> wp p tr Q -> wp p tr Q'.
Proof.
  intros HQ. revert tr. induction p as [a|X e k IH|]; intros tr; simpl; [apply HQ| |done].
  intros H x Hx. apply IH. by apply H.
Qed.

Lemma spec_run {S A} (m : M S A) s tr (P : A -> S -> list item -> Prop) :
  spec m s tr P -> wp (run m s) tr (fun tr' r => P r.1 r.2 tr').
Proof. intros H. apply H. auto. Qed.

(** ** Two programs on one connection *)

(** The answers of the calls that do not touch the connection, which may depend on
    everything that the party has called before. *)
Definition oracle := list item -> forall X, sys X -> X.

(** What a call does to the connection [fd]. *)
Inductive action :=
  | ASend (buf : list Z)       (** blocking send of all of [buf] *)
  | ARecv (len : nat)          (** blocking receive of [len] bytes *)
  | ALocal.                    (** nothing *)

Definition act {X} (fd : Z) (e : sys X) : action :=
  match e with
  | Recv fd' len flags => if (fd' =? fd) && flag flags MSG_WAITALL then ARecv len else ALocal
  | Send fd' buf flags => if (fd' =? fd) && flag flags MSG_WAITALL then ASend buf else ALocal
  | SendMsg fd' iov flags =>
      if (fd' =? fd) && flag flags MSG_WAITALL then ASend (concat iov) else ALocal
  | _ => ALocal
  end.

(** The answer to a complete transfer on the connection. *)
Definition sent_answer {X} (e : sys X) (other : X) : X :=
  match e in sys X return X -> X with
  | Send fd buf fl => fun _ => Z.of_nat (length buf)
  | SendMsg fd iov fl => fun _ => Z.of_nat (length (concat iov))
  | _ => fun x => x
  end other.

Definition recv_answer {X} (e : sys X) (bs : list Z) (other : X) : X :=
  match e in sys X return X -> X with
  | Recv fd len fl => fun _ => (Z.of_nat (length bs), bs)
  | _ => fun x => x
  end other.

(** One party makes a call after the calls [n]: [inq] is the stream towards it, [out] the
    stream from it; the last component is the call with its answer.  [None]: it waits for bytes, is done, or has crashed.  If the other party
    is done ([eof]), a receive that cannot be served ends with the bytes there
    are, as [TaskIO] shows of [hev_task_io_socket_recv]. *)
Definition advance {A} (fd : Z) (o : oracle) (n : list item) (eof : bool) (p : prog A)
    (inq out : list Z) : option (prog A * list Z * list Z * item) :=
  match p with
  | Ret _ | Crash => None
  | Vis e k =>
      match act fd e with
      | ASend buf => let x := sent_answer e (o n _ e) in Some (k x, inq, out ++ buf, Item e x)
      | ARecv len =>
          if (len <=? length inq)%nat
          then let x := recv_answer e (take len inq) (o n _ e) in Some (k x, drop len inq, out, Item e x)
          else if eof then let x := recv_answer e inq (o n _ e) in Some (k x, [], out, Item e x)
          else None
      | ALocal => let x := o n _ e in Some (k x, inq, out, Item e x)
      end
  end.

Definition finished {A} (p : prog A) : bool := match p with Ret _ => true | _ => false end.

(** A call of one party stays possible, with the same effect, after the other
    party has sent more bytes. *)
Lemma advance_more {T} fd o n (p p' : prog T) inq out inq' out' i eof more :
  advance fd o n false p inq out = Some (p', inq', out', i) ->
  advance fd o n eof p (inq ++ more) out = Some (p', inq' ++ more, out', i).
Proof.
  destruct p as [a|X e k|]; simpl; [done| |done].
  destruct (act fd e) as [buf|len|]; try (intros; by simplify_eq).
  destruct (Nat.leb_spec len (length inq)); [|done].
  intros; simplify_eq. destruct (Nat.leb_spec len (length (inq ++ more))).
  - rewrite take_app_le, drop_app_le by lia. done.
  - rewrite length_app in *. lia.
Qed.

(** What a party sends is appended, whatever was in the stream before. *)
Lemma advance_out {T} fd o n (p p' : prog T) inq out inq' out' i eof :
  advance fd o n eof p inq out = Some (p', inq', out', i) ->
  exists sent, out' = out ++ sent
    /\ forall out0, advance fd o n eof p inq out0 = Some (p', inq', out0 ++ sent, i).
Proof.
  destruct p as [a|X e k|]; simpl; [done| |done].
  destruct (act fd e) as [buf|len|]; intros; simplify_eq.
  - by exists buf.
  - exists []. rewrite app_nil_r. repeat case_match; simplify_eq; split; auto;
      intros; by rewrite app_nil_r.
  - exists []. rewrite app_nil_r. split; auto. intros; by rewrite app_nil_r.
Qed.

Lemma advance_not_finished {T} fd o n eof (p : prog T) inq out r :
  advance fd o n eof p inq out = Some r -> finished p = false.
Proof. by destruct p. Qed.

(** A client and a server, the bytes from client to server and from server to
    client, and the calls that each has made, with their answers. *)
Record conn A B := Conn {
  cl : prog A; sv : prog B; c2s : list Z; s2c : list Z; c_calls : list item; s_calls : list item }.
Arguments Conn {A B}.

Section Pair.
Context {A B : Type} (cfd sfd : Z) (co so : oracle).

Inductive pstep : conn A B -> conn A B -> Prop :=
  | client_step c c' s q1 q1' q2 q2' n m i :
      advance cfd co n (finished s) c q2 q1 = Some (c', q2', q1', i) ->
      pstep (Conn c s q1 q2 n m) (Conn c' s q1' q2' (n ++ [i]) m)
  | server_step c s s' q1 q1' q2 q2' n m i :
      advance sfd so m (finished c) s q1 q2 = Some (s', q1', q2', i) ->
      pstep (Conn c s q1 q2 n m) (Conn c s' q1' q2' n (m ++ [i])).

Lemma both_advance c s c' s' q1 q2 q1c q2c q1s q2s n m i j :
  advance cfd co n (finished s) c q2 q1 = Some (c', q2c, q1c, i) ->
  advance sfd so m (finished c) s q1 q2 = Some (s', q1s, q2s, j) ->
  exists w, pstep (Conn c' s q1c q2c (n ++ [i]) m) w /\ pstep (Conn c s' q1s q2s n (m ++ [j])) w.
Proof.
  intros Hc Hs.
  rewrite (advance_not_finished _ _ _ _ _ _ _ _ Hs) in Hc.
  rewrite (advance_not_finished _ _ _ _ _ _ _ _ Hc) in Hs.
  destruct (advance_out _ _ _ _ _ _ _ _ _ _ _ Hc) as (tc & -> & Hc').
  destruct (advance_out _ _ _ _ _ _ _ _ _ _ _ Hs) as (ts & -> & Hs').
  exists (Conn c' s' (q1s ++ tc) (q2c ++ ts) (n ++ [i]) (m ++ [j])). split.
  - apply server_step. eapply advance_more. by rewrite Hs'.
  - apply client_step. eapply advance_more. by rewrite Hc'.
Qed.

Lemma pstep_diamond x y z :
  pstep x y -> pstep x z -> y = z \/ exists w, pstep y w /\ pstep z w.
Proof.
  intros H1 H2. inversion H1; subst; inversion H2; subst.
  - left. congruence.
  - right. eauto using both_advance.
  - right. edestruct both_advance as (w & ? & ?); eauto.
  - left. congruence.
Qed.

(** Once one run of length [n] ends, all runs take at most [n] calls and can
    be continued to the same end. *)
Lemma pstep_determinate n x f :
  nsteps pstep n x f -> nf pstep f ->
  forall m y, nsteps pstep m x y -> (m <= n)%nat /\ nsteps pstep (n - m) y f.
Proof.
  intros Hn Hf. revert x Hn. induction n as [n IHn] using lt_wf_ind.
  intros x Hn m y Hm.
  destruct Hm as [|m x y1 y H1 Hm]; [rewrite Nat.sub_0_r; auto with lia|].
  inversion Hn as [|n' ? f1 ? H2 Hn']; subst; [destruct Hf; by exists y1|].
  assert (Hy1 : nsteps pstep n' y1 f).
  { destruct (pstep_diamond x f1 y1 H2 H1) as [->|(w & Hw1 & Hw2)]; [done|].
    destruct (IHn n' ltac:(lia) f1 Hn' 1%nat w) as [Hle Hw]; [by apply nsteps_once|].
    replace n' with (S (n' - 1)) by lia. econstructor; eauto. }
  destruct (IHn n' ltac:(lia) y1 Hy1 m y Hm) as [? ?]. split; [lia|].
  by replace (S n' - S m)%nat with (n' - m)%nat by lia.
Qed.

End Pair.

(** ** Running one party alone

    [seg n p inq n' p' rest out]: after the calls [n], [p] can run to [p'], after the
    calls [n'], with the bytes [inq] of its peer: it consumes all of them but [rest] and
    sends [out]. *)
Section Segments.
Context (fd : Z) (o : oracle).

Inductive seg {A} : list item -> prog A -> list Z -> list item -> prog A -> list Z -> list Z -> Prop :=
  | seg_refl n p inq : seg n p inq n p inq []
  | seg_step n p inq p1 inq1 out1 i n' p' rest out :
      advance fd o n false p inq [] = Some (p1, inq1, out1, i) ->
      seg (n ++ [i]) p1 inq1 n' p' rest out -> seg n p inq n' p' rest (out1 ++ out).

Lemma seg_trans {A} n (p : prog A) inq n1 p1 inq1 out1 n2 p2 inq2 out2 :
  seg n p inq n1 p1 inq1 out1 -> seg n1 p1 inq1 n2 p2 inq2 out2 ->
  seg n p inq n2 p2 inq2 (out1 ++ out2).
Proof.
  induction 1; intros; [done|]. rewrite <- (assoc_L (++)). econstructor; eauto.
Qed.

(** Whenever the function [m] is called on the object [s] and the peer sends
    [inq], it returns, and [P] holds of its result, of the object, of the bytes
    it did not consume, of the bytes it sent and of the calls it made. *)
Definition runs_log {S A} (m : M S A) (s : S) (inq : list Z)
    (P : A -> S -> list Z -> list Z -> list item -> Prop) : Prop :=
  forall n, exists l a s' rest out,
    P a s' rest out l /\ forall R k, seg (A := R) n (m R k s) inq (n ++ l) (k a s') rest out.

Lemma runs_log_ret {S A} (a : A) (s : S) inq (P : A -> S -> list Z -> list Z -> list item -> Prop) :
  P a s inq [] [] -> runs_log (ret a) s inq P.
Proof. intros H n. exists [], a, s, inq, []. split; [done|]. intros. rewrite app_nil_r. apply seg_refl. Qed.

Lemma runs_log_gets {S A} (f : S -> A) (s : S) inq (P : A -> S -> list Z -> list Z -> list item -> Prop) :
  P (f s) s inq [] [] -> runs_log (gets f) s inq P.
Proof. exact (runs_log_ret (f s) s inq P). Qed.

Lemma runs_log_modify {S} (f : S -> S) (s : S) inq (P : unit -> S -> list Z -> list Z -> list item -> Prop) :
  P tt (f s) inq [] [] -> runs_log (modify f) s inq P.
Proof. exact (runs_log_ret tt (f s) inq P). Qed.

Lemma runs_log_bind {S A B} (m : M S A) (f : A -> M S B) s inq P :
  runs_log m s inq (fun a s1 rest1 out1 l1 =>
    runs_log (f a) s1 rest1 (fun b s2 rest2 out2 l2 => P b s2 rest2 (out1 ++ out2) (l1 ++ l2))) ->
  runs_log (bindM m f) s inq P.
Proof.
  intros H n. destruct (H n) as (l1 & a & s1 & rest1 & out1 & H2 & Hs1).
  destruct (H2 (n ++ l1)) as (l2 & b & s2 & rest2 & out2 & HP & Hs2).
  exists (l1 ++ l2), b, s2, rest2, (out1 ++ out2). split; [done|].
  intros R k. rewrite (assoc_L (++)). eapply seg_trans; [apply Hs1|apply Hs2].
Qed.

Lemma runs_log_mono {S A} (m : M S A) s inq (P P' : A -> S -> list Z -> list Z -> list item -> Prop) :
  (forall a s' rest out l, P a s' rest out l -> P' a s' rest out l) -> runs_log m s inq P -> runs_log m s inq P'.
Proof.
  intros HP H n. destruct (H n) as (l & a & s' & rest & out & ? & ?).
  exists l, a, s', rest, out. auto.
Qed.

(** The same without the calls. *)
Definition runs {S A} (m : M S A) (s : S) (inq : list Z)
    (P : A -> S -> list Z -> list Z -> Prop) : Prop :=
  runs_log m s inq (fun a s' rest out _ => P a s' rest out).

Lemma runs_ret {S A} (a : A) (s : S) inq (P : A -> S -> list Z -> list Z -> Prop) :
  P a s inq [] -> runs (ret a) s inq P.
Proof. intros H. by apply runs_log_ret. Qed.

Lemma runs_gets {S A} (f : S -> A) (s : S) inq (P : A -> S -> list Z -> list Z -> Prop) :
  P (f s) s inq [] -> runs (gets f) s inq P.
Proof. intros H. by apply runs_log_gets. Qed.

Lemma runs_modify {S} (f : S -> S) (s : S) inq (P : unit -> S -> list Z -> list Z -> Prop) :
  P tt (f s) inq [] -> runs (modify f) s inq P.
Proof. intros H. by apply runs_log_modify. Qed.

Lemma runs_bind {S A B} (m : M S A) (f : A -> M S B) s inq P :
  runs m s inq (fun a s1 rest1 out1 =>
    runs (f a) s1 rest1 (fun b s2 rest2 out2 => P b s2 rest2 (out1 ++ out2))) ->
  runs (bindM m f) s inq P.
Proof. intros H. by apply runs_log_bind. Qed.

Lemma runs_mono {S A} (m : M S A) s inq (P P' : A -> S -> list Z -> list Z -> Prop) :
  (forall a s' rest out, P a s' rest out -> P' a s' rest out) -> runs m s inq P -> runs m s inq P'.
Proof. intros HP. apply runs_log_mono. auto. Qed.

Lemma runs_zoom {S T A} (rd : S -> T) wr (m : M T A) s inq P :
  runs m (rd s) inq (fun a t => P a (wr t s)) -> runs (zoom rd wr m) s inq P.
Proof.
  intros H n. destruct (H n) as (l & a & t & rest & out & ? & Hs).
  exists l, a, (wr t s), rest, out. split; [done|].
  intros R k. apply (Hs R (fun a t => k a (wr t s))).
Qed.

Lemma seg_one {A} n (p p' : prog A) inq rest out i :
  advance fd o n false p inq [] = Some (p', rest, out, i) -> seg n p inq (n ++ [i]) p' rest out.
Proof. intros H. rewrite <- (app_nil_r out). econstructor; [done|constructor]. Qed.

Lemma runs_send {S} (s : S) buf flags inq (P : Z -> S -> list Z -> list Z -> Prop) :
  flag flags MSG_WAITALL = true -> P (Z.of_nat (length buf)) s inq buf ->
  runs (call (Send fd buf flags)) s inq P.
Proof.
  intros H HP n. do 5 eexists. split; [apply HP|].
  intros. apply seg_one. simpl. by rewrite Z.eqb_refl, H.
Qed.

Lemma runs_sendmsg {S} (s : S) iov flags inq (P : Z -> S -> list Z -> list Z -> Prop) :
  flag flags MSG_WAITALL = true -> P (Z.of_nat (length (concat iov))) s inq (concat iov) ->
  runs (call (SendMsg fd iov flags)) s inq P.
Proof.
  intros H HP n. do 5 eexists. split; [apply HP|].
  intros. apply seg_one. simpl. by rewrite Z.eqb_refl, H.
Qed.

Lemma runs_recv {S} (s : S) len flags bs rest (P : _ -> S -> list Z -> list Z -> Prop) :
  flag flags MSG_WAITALL = true -> length bs = len ->
  P (Z.of_nat len, bs) s rest [] ->
  runs (call (Recv fd len flags)) s (bs ++ rest) P.
Proof.
  intros H <- HP n. do 5 eexists. split; [apply HP|].
  intros. apply seg_one. simpl. rewrite Z.eqb_refl, H. simpl.
  rewrite (proj2 (Nat.leb_le _ _)) by len. by rewrite take_app_length, drop_app_length.
Qed.

(** A call that does not touch the connection. *)
Lemma runs_log_local {S X} (e : sys X) (s : S) inq (P : X -> S -> list Z -> list Z -> list item -> Prop) :
  act fd e = ALocal -> (forall n, P (o n X e) s inq [] [Item e (o n X e)]) -> runs_log (call e) s inq P.
Proof.
  intros Ha HP n. exists [Item e (o n X e)], (o n X e), s, inq, []. split; [done|].
  intros. apply seg_one. simpl. by rewrite Ha.
Qed.

Lemma runs_local {S X} (e : sys X) (s : S) inq (P : X -> S -> list Z -> list Z -> Prop) :
  act fd e = ALocal -> (forall n, P (o n X e) s inq []) -> runs (call e) s inq P.
Proof. intros Ha HP. by apply runs_log_local. Qed.

End Segments.

(** A segment of one party is a run of the pair. *)
Section PairRuns.
Context {A B : Type} (cfd sfd : Z) (co so : oracle).

Lemma seg_client n (p p' : prog A) inq n' rest out (s : prog B) q1 more m :
  seg cfd co n p inq n' p' rest out ->
  rtc (pstep cfd sfd co so) (Conn p s q1 (inq ++ more) n m)
      (Conn p' s (q1 ++ out) (rest ++ more) n' m).
Proof.
  intros H. induction H as [|n p inq p1 inq1 out1 i n' p' rest out Ha _ IH] in q1 |- *.
  { by rewrite app_nil_r. }
  rewrite (assoc_L (++)). eapply rtc_l; [|apply IH].
  apply client_step. apply advance_more.
  destruct (advance_out _ _ _ _ _ _ _ _ _ _ _ Ha) as (? & -> & H'). apply H'.
Qed.

Lemma seg_server n (p p' : prog B) inq n' rest out (c : prog A) q2 more m :
  seg sfd so n p inq n' p' rest out ->
  rtc (pstep cfd sfd co so) (Conn c p (inq ++ more) q2 m n)
      (Conn c p' (rest ++ more) (q2 ++ out) m n').
Proof.
  intros H. induction H as [|n p inq p1 inq1 out1 i n' p' rest out Ha _ IH] in q2 |- *.
  { by rewrite app_nil_r. }
  rewrite (assoc_L (++)). eapply rtc_l; [|apply IH].
  apply server_step. apply advance_more.
  destruct (advance_out _ _ _ _ _ _ _ _ _ _ _ Ha) as (? & -> & H'). apply H'.
Qed.

End PairRuns.
