(* ===== verification/Socks5.v ===== *)
(** * The SOCKS5 object, its sockets and its timeouts

    Models hev/src/core/src/hev-socks5.c and the settings, the yielder and
    [hev_socks5_socket] of hev-socks5-misc.c, with the protocol constants of
    hev-socks5-proto.h. *)

From S2P Require Import Prelude TaskIO Socks5Addr Prog.

(** ** hev-socks5-proto.h *)

Definition HEV_SOCKS5_VERSION_5 : Z := 5.
Definition HEV_SOCKS5_AUTH_METHOD_NONE : Z := 0.
Definition HEV_SOCKS5_AUTH_METHOD_USER : Z := 2.
Definition HEV_SOCKS5_AUTH_METHOD_DENY : Z := 255.
Definition HEV_SOCKS5_AUTH_VERSION_1 : Z := 1.
Definition HEV_SOCKS5_REQ_CMD_CONNECT : Z := 1.
Definition HEV_SOCKS5_REQ_CMD_UDP_ASC : Z := 3.
Definition HEV_SOCKS5_REQ_CMD_FWD_UDP : Z := 5.
Definition HEV_SOCKS5_RES_REP_SUCC : Z := 0.
Definition HEV_SOCKS5_RES_REP_FAIL : Z := 1.
Definition HEV_SOCKS5_RES_REP_HOST : Z := 4.
Definition HEV_SOCKS5_RES_REP_IMPL : Z := 7.
Definition HEV_SOCKS5_RES_REP_ADDR : Z := 8.

(** ** The settings of hev-socks5-misc.c *)

Record Settings := {
  connect_timeout : Z;
  tcp_timeout : Z;
  udp_timeout : Z;
  task_stack_size : Z;
  udp_recv_buffer_size : Z;
  udp_copy_buffer_nums : Z
}.

Definition default_settings : Settings := {|
  connect_timeout := 10000;
  tcp_timeout := 300000;
  udp_timeout := 60000;
  task_stack_size := 8192;
  udp_recv_buffer_size := 512 * 1024;
  udp_copy_buffer_nums := 10
|}.

(** ** [struct _HevSocks5] *)

Inductive HevSocks5Type :=
  | HEV_SOCKS5_TYPE_NONE
  | HEV_SOCKS5_TYPE_TCP
  | HEV_SOCKS5_TYPE_UDP_IN_TCP
  | HEV_SOCKS5_TYPE_UDP_IN_UDP.

#[global] Instance HevSocks5Type_eq_dec : EqDecision HevSocks5Type.
Proof. solve_decision. Defined.

Record HevSocks5 := mkSocks5 {
  fd : Z;
  timeout : Z;
  type : HevSocks5Type;
  udp_associated : Z;
  addr_family : Z
}.

Definition set_fd (v : Z) (s : HevSocks5) :=
  mkSocks5 v (timeout s) (type s) (udp_associated s) (addr_family s).
Definition set_type (v : HevSocks5Type) (s : HevSocks5) :=
  mkSocks5 (fd s) (timeout s) v (udp_associated s) (addr_family s).
Definition set_udp_associated (v : Z) (s : HevSocks5) :=
  mkSocks5 (fd s) (timeout s) (type s) v (addr_family s).

(** ** hev-socks5.c *)

Definition hev_socks5_get_timeout (self : HevSocks5) : Z := timeout self.

(** Zero is final: it marks an object that is being terminated. *)
Definition hev_socks5_set_timeout (t : Z) (self : HevSocks5) : HevSocks5 :=
  if negb (timeout self =? 0)
  then mkSocks5 (fd self) t (type self) (udp_associated self) (addr_family self)
  else self.

Definition hev_socks5_get_addr_family (self : HevSocks5) : Z := addr_family self.

Definition hev_socks5_set_addr_family (family : Z) (self : HevSocks5) : HevSocks5 :=
  mkSocks5 (fd self) (timeout self) (type self) (udp_associated self) family.

(** The object is zeroed by its allocation; [hev_object_construct] succeeds. *)
Definition hev_socks5_construct (t : HevSocks5Type) : HevSocks5 :=
  mkSocks5 (-1) (-1) t 0 HEV_SOCKS5_ADDR_FAMILY_UNSPEC.

(** [hev_socks5_bind]: the default binder. *)
Definition hev_socks5_bind {S} (sock : Z) (dest : sockaddr_in6) : M S Z := ret 0.

(** The size of the object stands for the block that is freed. *)
Definition hev_socks5_destruct {S} (rd : S -> HevSocks5) (size : Z) : M S unit :=
  fd <- gets (fun s => fd (rd s)) ;;
  (if 0 <=? fd then call (TaskDelFd fd) ;; call (Close fd) else ret tt) ;;
  call (Free size).

(** ** hev-socks5-misc.c *)

Inductive HevTaskYieldType := HEV_TASK_YIELD | HEV_TASK_WAITIO.

(** [sleep] is [hev_task_sleep]: the milliseconds that were left when the task
    was woken up. *)
Definition hev_socks5_task_io_yielder (sleep : Z -> Z) (t : HevTaskYieldType) (self : HevSocks5)
  : Z :=
  match t with
  | HEV_TASK_YIELD => 0
  | HEV_TASK_WAITIO =>
      if timeout self <? 0 then 0
      else if sleep (timeout self) <=? 0 then -1 else 0
  end.

Definition hev_socks5_socket {S} (cfg : Settings) (type : Z) : M S Z :=
  fd <- call (Socket AF_INET6 type) ;;
  if fd <? 0 then ret (-1) else
  res <- call (SetSockOpt fd IPPROTO_IPV6 IPV6_V6ONLY 0) ;;
  if res <? 0 then call (Close fd) ;; ret (-1) else
  res <- call (TaskAddFd fd) ;;
  (if res <? 0 then call (TaskModFd fd) ;; ret tt else ret tt) ;;
  (if type =? SOCK_DGRAM
   then call (SetSockOpt fd SOL_SOCKET SO_RCVBUF (udp_recv_buffer_size cfg)) ;; ret tt
   else ret tt) ;;
  ret fd.

(** Read [n] bytes of an object of which the bytes [m] are allocated and
    initialised. *)
Definition read_mem {S} (n : Z) (m : list Z) : M S (list Z) :=
  if (0 <=? n) && (n <=? Z.of_nat (length m)) then ret (take (Z.to_nat n) m) else undefined.

(** ** Lemmas *)

Lemma timeout_zero_final t s : timeout s = 0 -> timeout (hev_socks5_set_timeout t s) = 0.
Proof. intros H. unfold hev_socks5_set_timeout. by rewrite H. Qed.
