(* ===== verification/Socks5Client.v ===== *)
(** * The SOCKS5 client

    Models hev/src/core/src/hev-socks5-client.c and its two classes,
    hev-socks5-client-tcp.c and hev-socks5-client-udp.c.  The virtual functions
    the client calls through its class are the type class [ClientClass]; the
    theorems about the client are proved against it and hold for both classes. *)

From S2P Require Import Prelude TaskIO Socks5Addr Prog Socks5.

(** [struct _HevSocks5Client]; a NULL string is [None]. *)
Record HevSocks5Client := mkClient {
  base : HevSocks5;
  auth_user : option (list Z);
  auth_pass : option (list Z)
}.

(** [struct _HevSocks5ClientClass]: where the client is in the object of the
    subclass, and the virtual functions.  [None] is a NULL pointer. *)
Class ClientClass (S : Type) := {
  rd_client : S -> HevSocks5Client;
  wr_client : HevSocks5Client -> S -> S;
  binder : Z -> sockaddr_in6 -> M S Z;
  get_upstream_addr : M S (option HevSocks5Addr);
  set_upstream_addr : HevSocks5Addr -> M S Z
}.

Section Client.
Context {S : Type} `{ClientClass S} (cfg : Settings) (res : Resolver).

Definition rd_base (s : S) : HevSocks5 := base (rd_client s).
Definition wr_base (b : HevSocks5) (s : S) : S :=
  wr_client (mkClient b (auth_user (rd_client s)) (auth_pass (rd_client s))) s.
Definition upd_base (f : HevSocks5 -> HevSocks5) : M S unit :=
  modify (fun s => wr_base (f (rd_base s)) s).

Definition has_creds (c : HevSocks5Client) : bool :=
  match auth_user c, auth_pass c with Some _, Some _ => true | _, _ => false end.

Definition hev_socks5_client_write_auth_methods : M S Z :=
  c <- gets rd_client ;;
  let method :=
    if negb (has_creds c) then HEV_SOCKS5_AUTH_METHOD_NONE else HEV_SOCKS5_AUTH_METHOD_USER in
  r <- call (Send (fd (base c)) [HEV_SOCKS5_VERSION_5; 1; method] (Z.lor MSG_WAITALL MSG_MORE)) ;;
  if r <=? 0 then ret (-1) else ret 0.

Definition hev_socks5_client_write_auth_creds : M S Z :=
  c <- gets rd_client ;;
  match auth_user c, auth_pass c with
  | Some user, Some pass =>
      let ub1 := u8 (Z.of_nat (length user)) in
      let ub2 := u8 (Z.of_nat (length pass)) in
      r <- call (SendMsg (fd (base c))
                  [ [HEV_SOCKS5_AUTH_VERSION_1; ub1]; take (Z.to_nat ub1) user;
                    [ub2]; take (Z.to_nat ub2) pass ]
                  (Z.lor MSG_WAITALL MSG_MORE)) ;;
      if r <=? 0 then ret (-1) else ret 0
  | _, _ => ret 0
  end.

Definition hev_socks5_client_write_request : M S Z :=
  b <- gets rd_base ;;
  let cmd :=
    match type b with
    | HEV_SOCKS5_TYPE_TCP => Some HEV_SOCKS5_REQ_CMD_CONNECT
    | HEV_SOCKS5_TYPE_UDP_IN_TCP => Some HEV_SOCKS5_REQ_CMD_FWD_UDP
    | HEV_SOCKS5_TYPE_UDP_IN_UDP => Some HEV_SOCKS5_REQ_CMD_UDP_ASC
    | HEV_SOCKS5_TYPE_NONE => None
    end in
  match cmd with
  | None => ret (-1)
  | Some cmd =>
      addr <- get_upstream_addr ;;
      match addr with
      | None => undefined                       (* addr->atype with addr NULL *)
      | Some addr =>
          let addrlen :=
            if atype addr =? HEV_SOCKS5_ADDR_TYPE_IPV4 then Some 7
            else if atype addr =? HEV_SOCKS5_ADDR_TYPE_IPV6 then Some 19
            else if atype addr =? HEV_SOCKS5_ADDR_TYPE_NAME then Some (4 + domain_len addr)
            else None in
          match addrlen with
          | None => ret (-1)
          | Some addrlen =>
              bytes <- read_mem addrlen addr ;;
              r <- call (SendMsg (fd b) [ [HEV_SOCKS5_VERSION_5; cmd; 0]; bytes ] MSG_WAITALL) ;;
              if r <=? 0 then ret (-1) else
              call (Free (Z.of_nat (length addr))) ;;
              ret 0
          end
      end
  end.

Definition hev_socks5_client_read_auth_method : M S Z :=
  b <- gets rd_base ;;
  r <- call (Recv (fd b) 2 MSG_WAITALL) ;;
  let '(n, auth) := r in
  if negb (n =? 2) then ret (-1) else
  if negb (nthb auth 0 =? HEV_SOCKS5_VERSION_5) then ret (-1) else
  ret (nthb auth 1).

Definition hev_socks5_client_read_auth_creds : M S Z :=
  b <- gets rd_base ;;
  r <- call (Recv (fd b) 2 MSG_WAITALL) ;;
  let '(n, rsp) := r in
  if negb (n =? 2) then ret (-1) else
  if negb (nthb rsp 0 =? HEV_SOCKS5_AUTH_VERSION_1) then ret (-1) else
  if negb (nthb rsp 1 =? HEV_SOCKS5_RES_REP_SUCC) then ret (-1) else
  ret 0.

(** [res.addr] is the type byte, the last of the first four, and what the
    second receive puts behind it. *)
Definition hev_socks5_client_read_response : M S Z :=
  b <- gets rd_base ;;
  r <- call (Recv (fd b) 4 MSG_WAITALL) ;;
  let '(n, rsp) := r in
  if negb (n =? 4) then ret (-1) else
  if negb (nthb rsp 0 =? HEV_SOCKS5_VERSION_5) then ret (-1) else
  if negb (nthb rsp 1 =? HEV_SOCKS5_RES_REP_SUCC) then ret (-1) else
  let addrlen :=
    if nthb rsp 3 =? HEV_SOCKS5_ADDR_TYPE_IPV4 then Some 6%nat
    else if nthb rsp 3 =? HEV_SOCKS5_ADDR_TYPE_IPV6 then Some 18%nat
    else None in
  match addrlen with
  | None => ret (-1)
  | Some addrlen =>
      r <- call (Recv (fd b) addrlen MSG_WAITALL) ;;
      let '(n, bytes) := r in
      if negb (n =? Z.of_nat addrlen) then ret (-1) else
      r <- set_upstream_addr (nthb rsp 3 :: bytes) ;;
      if r <? 0 then ret (-1) else ret 0
  end.

Definition hev_socks5_client_connect (addr : list Z) (port : Z) : M S Z :=
  upd_base (hev_socks5_set_timeout (connect_timeout cfg)) ;;
  b <- gets rd_base ;;
  let '(r, saddr, family) :=
    hev_socks5_name_into_sockaddr6 res addr port zero_sockaddr6 (hev_socks5_get_addr_family b) in
  if r <? 0 then ret (-1) else
  fd <- hev_socks5_socket cfg SOCK_STREAM ;;
  if fd <? 0 then ret (-1) else
  r <- binder fd saddr ;;
  if r <? 0 then call (TaskDelFd fd) ;; call (Close fd) ;; ret (-1) else
  r <- call (Connect fd saddr) ;;
  if r <? 0 then call (TaskDelFd fd) ;; call (Close fd) ;; ret (-1) else
  upd_base (set_fd fd) ;;
  upd_base (hev_socks5_set_addr_family family) ;;
  ret 0.

Definition hev_socks5_client_handshake_standard : M S Z :=
  r <- hev_socks5_client_write_auth_methods ;;
  if r <? 0 then ret (-1) else
  m <- hev_socks5_client_read_auth_method ;;
  if m <? 0 then ret (-1) else
  r <- (if m =? HEV_SOCKS5_AUTH_METHOD_USER then
          r <- hev_socks5_client_write_auth_creds ;;
          if r <? 0 then ret (-1) else
          r <- hev_socks5_client_read_auth_creds ;;
          if r <? 0 then ret (-1) else ret 0
        else if negb (m =? HEV_SOCKS5_AUTH_METHOD_NONE) then ret (-1) else ret 0) ;;
  if r <? 0 then ret (-1) else
  r <- hev_socks5_client_write_request ;;
  if r <? 0 then ret (-1) else
  r <- hev_socks5_client_read_response ;;
  if r <? 0 then ret (-1) else ret 0.

Definition hev_socks5_client_handshake_pipeline : M S Z :=
  r <- hev_socks5_client_write_auth_methods ;;
  if r <? 0 then ret (-1) else
  r <- hev_socks5_client_write_auth_creds ;;
  if r <? 0 then ret (-1) else
  r <- hev_socks5_client_write_request ;;
  if r <? 0 then ret (-1) else
  m <- hev_socks5_client_read_auth_method ;;
  if m <? 0 then ret (-1) else
  r <- (if m =? HEV_SOCKS5_AUTH_METHOD_USER then
          r <- hev_socks5_client_read_auth_creds ;;
          if r <? 0 then ret (-1) else ret 0
        else if negb (m =? HEV_SOCKS5_AUTH_METHOD_NONE) then ret (-1) else ret 0) ;;
  if r <? 0 then ret (-1) else
  r <- hev_socks5_client_read_response ;;
  if r <? 0 then ret (-1) else ret 0.

Definition hev_socks5_client_handshake (pipeline : bool) : M S Z :=
  upd_base (hev_socks5_set_timeout (tcp_timeout cfg)) ;;
  r <- (if pipeline then hev_socks5_client_handshake_pipeline
        else hev_socks5_client_handshake_standard) ;;
  b <- gets rd_base ;;
  (match type b with
   | HEV_SOCKS5_TYPE_UDP_IN_TCP | HEV_SOCKS5_TYPE_UDP_IN_UDP =>
       upd_base (hev_socks5_set_timeout (udp_timeout cfg))
   | _ => ret tt
   end) ;;
  ret r.

End Client.

Definition hev_socks5_client_set_auth (user pass : option (list Z)) (c : HevSocks5Client) :=
  mkClient (base c) user pass.

Definition hev_socks5_client_construct (t : HevSocks5Type) : HevSocks5Client :=
  mkClient (hev_socks5_construct t) None None.

(** ** hev-socks5-client-tcp.c *)

Module ClientTCP.

Record HevSocks5ClientTCP := mkTCP { client : HevSocks5Client; addr : option HevSocks5Addr }.

Definition hev_socks5_client_tcp_get_upstream_addr : M HevSocks5ClientTCP (option HevSocks5Addr) :=
  a <- gets addr ;;
  modify (fun s => mkTCP (client s) None) ;;
  ret a.

Definition hev_socks5_client_tcp_set_upstream_addr (a : HevSocks5Addr) : M HevSocks5ClientTCP Z :=
  ret 0.

(** The class, with the binder of the application's subclass. *)
Definition tcp_class (bnd : Z -> sockaddr_in6 -> M HevSocks5ClientTCP Z)
  : ClientClass HevSocks5ClientTCP := {|
  rd_client := client;
  wr_client := fun c s => mkTCP c (addr s);
  binder := bnd;
  get_upstream_addr := hev_socks5_client_tcp_get_upstream_addr;
  set_upstream_addr := hev_socks5_client_tcp_set_upstream_addr
|}.

(** [inr]: the object; [inl]: the code of the failure. *)
Definition hev_socks5_client_tcp_construct (a : HevSocks5Addr) : M unit (Z + HevSocks5ClientTCP) :=
  let c := hev_socks5_client_construct HEV_SOCKS5_TYPE_TCP in
  let r := hev_socks5_addr_len a in
  ok <- call (Malloc r) ;;
  if negb ok then ret (inl (-1)) else
  bytes <- read_mem r a ;;
  ret (inr (mkTCP c (Some bytes))).

(** LP64. *)
Definition sizeof_HevSocks5ClientTCP : Z := 56.

(** [hev_socks5_client_tcp_new_name], [.._ipv4] and [.._ipv6] differ in the
    function that fills the local [HevSocks5Addr]. *)
Definition hev_socks5_client_tcp_new (a : HevSocks5Addr) : M unit (option HevSocks5ClientTCP) :=
  ok <- call (Malloc sizeof_HevSocks5ClientTCP) ;;
  if negb ok then ret None else
  r <- hev_socks5_client_tcp_construct a ;;
  match r with
  | inl _ => call (Free sizeof_HevSocks5ClientTCP) ;; ret None
  | inr self => ret (Some self)
  end.

Definition hev_socks5_client_tcp_new_name (m : HevSocks5Addr) (name : list Z) (port : Z) :=
  hev_socks5_client_tcp_new (hev_socks5_addr_from_name m name port).1.
Definition hev_socks5_client_tcp_new_ipv4 (m : HevSocks5Addr) (ipv4 : list Z) (port : Z) :=
  hev_socks5_client_tcp_new (hev_socks5_addr_from_ipv4 m ipv4 port).1.
Definition hev_socks5_client_tcp_new_ipv6 (m : HevSocks5Addr) (ipv6 : list Z) (port : Z) :=
  hev_socks5_client_tcp_new (hev_socks5_addr_from_ipv6 m ipv6 port).1.

Definition hev_socks5_client_tcp_destruct : M HevSocks5ClientTCP unit :=
  a <- gets addr ;;
  (match a with Some a => call (Free (Z.of_nat (length a))) | None => ret tt end) ;;
  hev_socks5_destruct (fun s => base (client s)) sizeof_HevSocks5ClientTCP.

End ClientTCP.

(** ** hev-socks5-client-udp.c *)

Module ClientUDP.

Record HevSocks5ClientUDP := mkUDP { client : HevSocks5Client; udp_fd : Z }.

Section Methods.
Context (cfg : Settings) (res : Resolver) (bnd : Z -> sockaddr_in6 -> M HevSocks5ClientUDP Z).

Definition hev_socks5_client_udp_get_upstream_addr : M HevSocks5ClientUDP (option HevSocks5Addr) :=
  family <- gets (fun s => hev_socks5_get_addr_family (base (client s))) ;;
  if family =? HEV_SOCKS5_ADDR_FAMILY_IPV4 then
    ok <- call (Malloc 7) ;;
    ret (if ok : bool then Some (HEV_SOCKS5_ADDR_TYPE_IPV4 :: replicate 6 0) else None)
  else if family =? HEV_SOCKS5_ADDR_FAMILY_IPV6 then
    ok <- call (Malloc 19) ;;
    ret (if ok : bool then Some (HEV_SOCKS5_ADDR_TYPE_IPV6 :: replicate 18 0) else None)
  else ret None.

Definition hev_socks5_client_udp_set_upstream_addr (a : HevSocks5Addr) : M HevSocks5ClientUDP Z :=
  b <- gets (fun s => base (client s)) ;;
  if bool_decide (type b <> HEV_SOCKS5_TYPE_UDP_IN_UDP) then ret 0 else
  let '(r, saddr, _) :=
    hev_socks5_addr_into_sockaddr6 res a zero_sockaddr6 (hev_socks5_get_addr_family b) in
  if r <? 0 then ret (-1) else
  fd <- hev_socks5_socket cfg SOCK_DGRAM ;;
  if fd <? 0 then ret (-1) else
  r <- bnd fd saddr ;;
  if r <? 0 then call (TaskDelFd fd) ;; call (Close fd) ;; ret (-1) else
  r <- call (Connect fd saddr) ;;
  if r <? 0 then call (TaskDelFd fd) ;; call (Close fd) ;; ret (-1) else
  modify (fun s =>
    mkUDP (mkClient (set_udp_associated 1 (base (client s)))
                    (auth_user (client s)) (auth_pass (client s))) fd) ;;
  ret 0.

Definition udp_class : ClientClass HevSocks5ClientUDP := {|
  rd_client := client;
  wr_client := fun c s => mkUDP c (udp_fd s);
  binder := bnd;
  get_upstream_addr := hev_socks5_client_udp_get_upstream_addr;
  set_upstream_addr := hev_socks5_client_udp_set_upstream_addr
|}.

End Methods.

Definition hev_socks5_client_udp_get_fd (s : HevSocks5ClientUDP) : Z :=
  match type (base (client s)) with
  | HEV_SOCKS5_TYPE_UDP_IN_TCP => fd (base (client s))
  | HEV_SOCKS5_TYPE_UDP_IN_UDP => udp_fd s
  | _ => -1
  end.

Definition hev_socks5_client_udp_construct (t : HevSocks5Type) : HevSocks5ClientUDP :=
  mkUDP (hev_socks5_client_construct t) (-1).

(** LP64. *)
Definition sizeof_HevSocks5ClientUDP : Z := 56.

Definition hev_socks5_client_udp_new (t : HevSocks5Type) : M unit (option HevSocks5ClientUDP) :=
  ok <- call (Malloc sizeof_HevSocks5ClientUDP) ;;
  if negb ok then ret None else ret (Some (hev_socks5_client_udp_construct t)).

Definition hev_socks5_client_udp_destruct : M HevSocks5ClientUDP unit :=
  fd <- gets udp_fd ;;
  (if 0 <=? fd then call (TaskDelFd fd) ;; call (Close fd) else ret tt) ;;
  hev_socks5_destruct (fun s => base (client s)) sizeof_HevSocks5ClientUDP.

End ClientUDP.
