(* ===== verification/Auth.v ===== *)
(** * Users and what the server needs of an authenticator

    Models hev/src/core/src/hev-socks5-user.c and states the interface of
    hev-socks5-authenticator.c that hev-socks5-server.c relies on. *)

From S2P Require Import Prelude Prog.

(** [struct _HevSocks5User]: [u_obj] is the address of the object, the lengths
    are those of the lists. *)
Record HevSocks5User := mkUser { u_obj : Z; u_name : list Z; u_pass : list Z }.

#[global] Instance HevSocks5User_eq_dec : EqDecision HevSocks5User.
Proof. solve_decision. Defined.

(** [memcmp] over [n] bytes. *)
Definition memcmp (a b : list Z) (n : nat) : Z := bytes_cmp (take n a) (take n b).

Definition hev_socks5_user_checker (self : HevSocks5User) (pass : list Z) (pass_len : Z) : Z :=
  if negb (Z.of_nat (length (u_pass self)) =? pass_len) then -1
  else if negb (memcmp (u_pass self) pass (Z.to_nat pass_len) =? 0) then -1
  else 0.

(** The class of the tree's objects is [HevSocks5User], whose checker this is. *)
Definition hev_socks5_user_check := hev_socks5_user_checker.

(** The strings are copied; [None] when an allocation fails, with the first
    string freed if the second could not be allocated. *)
Definition hev_socks5_user_construct (obj : Z) (name pass : list Z) : M unit (option HevSocks5User) :=
  ok <- call (Malloc (Z.of_nat (length name) + 1)) ;;
  if negb ok then ret None else
  ok <- call (Malloc (Z.of_nat (length pass) + 1)) ;;
  if negb ok then call (Free (Z.of_nat (length name) + 1)) ;; ret None else
  ret (Some (mkUser obj name pass)).

(** What [hev_socks5_authenticator_get] promises. *)
Class Authenticator (A : Type) := {
  authenticator_get : A -> list Z -> option HevSocks5User;
  authenticator_get_name : forall a name u, authenticator_get a name = Some u -> u_name u = name
}.

Lemma memcmp_self_eq a b n :
  length a = n -> (n <= length b)%nat -> memcmp a b n = 0 -> a = take n b.
Proof.
  intros Ha Hb H. unfold memcmp in H. rewrite (take_ge a) in H by lia. by apply bytes_cmp_eq.
Qed.

(** The password is accepted exactly when it is the user's. *)
Lemma user_check_iff u pass :
  hev_socks5_user_check u pass (Z.of_nat (length pass)) = 0 <-> u_pass u = pass.
Proof.
  unfold hev_socks5_user_check, hev_socks5_user_checker. rewrite Nat2Z.id. split.
  - repeat case_test; intros; try done.
    transitivity (take (length pass) pass); [|by rewrite take_ge].
    apply memcmp_self_eq; [lia|lia|done].
  - intros ->. rewrite Z.eqb_refl. simpl.
    unfold memcmp. by rewrite (proj2 (bytes_cmp_eq _ _) eq_refl).
Qed.

Lemma user_check_cases u pass n : hev_socks5_user_check u pass n = 0 \/ hev_socks5_user_check u pass n = -1.
Proof. unfold hev_socks5_user_check, hev_socks5_user_checker. repeat case_test; auto. Qed.

(** ** The simplest authenticator: a list of users *)

Module UserList.

Definition users_get (l : list HevSocks5User) (name : list Z) : option HevSocks5User :=
  snd <$> list_find (fun u => u_name u = name) l.

Lemma users_get_name l name u : users_get l name = Some u -> u_name u = name.
Proof.
  unfold users_get. destruct (list_find _ l) as [[i v]|] eqn:E; simpl; [|done].
  intros [= <-]. by apply list_find_Some in E as (_ & ? & _).
Qed.

#[export] Instance users : Authenticator (list HevSocks5User) := {|
  authenticator_get := users_get;
  authenticator_get_name := users_get_name
|}.

Definition alice : HevSocks5User := mkUser 1000 [97] [112; 119].

End UserList.
