(* ===== verification/Socks5Server.v ===== *)
(** * The SOCKS5 server

    Models hev/src/core/src/hev-socks5-server.c and hev-socks5-tcp.c.  The
    authenticator is used through the class [Authenticator]. *)

From S2P Require Import Prelude TaskIO Socks5Addr Prog Socks5 Auth.

(** A receive of [len] bytes into an array of [cap]: beyond its end the
    behaviour is undefined. *)
Definition recv_into {S} (cap : Z) (fd : Z) (len : Z) : M S (Z * list Z) :=
  if len <=? cap then call (Recv fd (Z.to_nat len) MSG_WAITALL) else undefined.

Section Server.
Context {A : Type} `{Authenticator A}.

(** The union of [obj], [user] and [auth]; the first argument of [ObjAuth] is the
    address of the authenticator. *)
Inductive srv_obj :=
  | ObjNull
  | ObjUser (user : HevSocks5User)
  | ObjAuth (ptr : Z) (auth : A).

Record HevSocks5Server := mkServer {
  base : HevSocks5;
  fds0 : Z;
  fds1 : Z;
  obj : srv_obj
}.

Definition obj_ptr (o : srv_obj) : option Z :=
  match o with
  | ObjNull => None
  | ObjUser u => Some (u_obj u)
  | ObjAuth p _ => Some p
  end.

Definition upd_base (f : HevSocks5 -> HevSocks5) : M HevSocks5Server unit :=
  modify (fun s => mkServer (f (base s)) (fds0 s) (fds1 s) (obj s)).
Definition set_fds0 (v : Z) : M HevSocks5Server unit :=
  modify (fun s => mkServer (base s) v (fds1 s) (obj s)).
Definition set_fds1 (v : Z) : M HevSocks5Server unit :=
  modify (fun s => mkServer (base s) (fds0 s) v (obj s)).
Definition set_obj (v : srv_obj) : M HevSocks5Server unit :=
  modify (fun s => mkServer (base s) (fds0 s) (fds1 s) v).

Context (cfg : Settings) (res : Resolver).

Definition hev_socks5_server_set_auth (ptr : Z) (a : A) : M HevSocks5Server unit :=
  o <- gets obj ;;
  (match obj_ptr o with Some p => call (ObjectUnref p) | None => ret tt end) ;;
  call (ObjectRef ptr) ;;
  set_obj (ObjAuth ptr a).

Definition hev_socks5_server_read_auth_method : M HevSocks5Server Z :=
  s <- gets id ;;
  r <- recv_into 258 (fd (base s)) 2 ;;
  let '(n, auth) := r in
  if negb (n =? 2) then ret (-1) else
  if negb (nthb auth 0 =? HEV_SOCKS5_VERSION_5) then ret (-1) else
  let method_len := nthb auth 1 in
  r <- recv_into 256 (fd (base s)) method_len ;;
  let '(n, methods) := r in
  if negb (n =? method_len) then ret (-1) else
  let method :=
    match obj_ptr (obj s) with
    | Some _ => HEV_SOCKS5_AUTH_METHOD_USER
    | None => HEV_SOCKS5_AUTH_METHOD_NONE
    end in
  ret (if existsb (fun m => m =? method) methods then method else -1).

Definition hev_socks5_server_write_auth_method (auth_method : Z) : M HevSocks5Server Z :=
  s <- gets id ;;
  r <- call (Send (fd (base s)) [HEV_SOCKS5_VERSION_5; u8 auth_method] MSG_WAITALL) ;;
  if r <=? 0 then ret (-1) else ret 0.

Definition hev_socks5_server_read_auth_user : M HevSocks5Server Z :=
  s <- gets id ;;
  r <- recv_into 2 (fd (base s)) 2 ;;
  let '(n, head) := r in
  if negb (n =? 2) then ret (-1) else
  if negb (nthb head 0 =? 1) then ret (-1) else
  let nlen := nthb head 1 in
  if nlen =? 0 then ret (-1) else
  r <- recv_into 257 (fd (base s)) (nlen + 1) ;;
  let '(n, name) := r in
  if negb (n =? nlen + 1) then ret (-1) else
  let plen := nthb name (Z.to_nat nlen) in
  if plen =? 0 then ret (-1) else
  r <- recv_into 257 (fd (base s)) plen ;;
  let '(n, pass) := r in
  if negb (n =? plen) then ret (-1) else
  match obj s with
  | ObjAuth ptr a =>
      match authenticator_get a (take (Z.to_nat nlen) name) with
      | None => ret (-1)
      | Some user =>
          if hev_socks5_user_check user pass plen <? 0 then ret (-1) else
          call (ObjectRef (u_obj user)) ;;
          call (ObjectUnref ptr) ;;
          set_obj (ObjUser user) ;;
          ret 0
      end
  | _ => undefined                       (* the union does not hold an authenticator *)
  end.

Definition hev_socks5_server_write_auth_user (auth_res : Z) : M HevSocks5Server Z :=
  s <- gets id ;;
  r <- call (Send (fd (base s)) [1; u8 auth_res] MSG_WAITALL) ;;
  if r <=? 0 then ret (-1) else ret 0.

Definition hev_socks5_server_auth : M HevSocks5Server Z :=
  method <- hev_socks5_server_read_auth_method ;;
  r <- hev_socks5_server_write_auth_method method ;;
  if r <? 0 then ret (-1) else
  if method =? HEV_SOCKS5_AUTH_METHOD_NONE then ret 0
  else if method =? HEV_SOCKS5_AUTH_METHOD_USER then
    r1 <- hev_socks5_server_read_auth_user ;;
    r2 <- hev_socks5_server_write_auth_user r1 ;;
    if Z.lor r1 r2 <? 0 then ret (-1) else ret 0
  else ret (-1).

(** The results are the return value, [*cmd], [*rep] and [*addr].  [cmd] is
    not initialised on the paths that set [rep]; the caller does not use it
    there. *)
Definition hev_socks5_server_read_request (rep : Z) (addr : sockaddr_in6)
  : M HevSocks5Server (Z * Z * Z * sockaddr_in6) :=
  s <- gets id ;;
  r <- recv_into 263 (fd (base s)) 5 ;;
  let '(n, req) := r in
  if negb (n =? 5) then ret (-1, 0, rep, addr) else
  if negb (nthb req 0 =? HEV_SOCKS5_VERSION_5) then ret (0, 0, HEV_SOCKS5_RES_REP_FAIL, addr) else
  let addrlen :=
    if nthb req 3 =? HEV_SOCKS5_ADDR_TYPE_IPV4 then Some 5
    else if nthb req 3 =? HEV_SOCKS5_ADDR_TYPE_IPV6 then Some 17
    else if nthb req 3 =? HEV_SOCKS5_ADDR_TYPE_NAME then Some (2 + nthb req 4)
    else None in
  match addrlen with
  | None => ret (0, 0, HEV_SOCKS5_RES_REP_ADDR, addr)
  | Some addrlen =>
      r <- recv_into 258 (fd (base s)) addrlen ;;
      let '(n, bytes) := r in
      if negb (n =? addrlen) then ret (0, 0, HEV_SOCKS5_RES_REP_ADDR, addr) else
      let '(r, addr, family) :=
        hev_socks5_addr_into_sockaddr6 res (nthb req 3 :: nthb req 4 :: bytes) addr
          (hev_socks5_get_addr_family (base s)) in
      if r <? 0 then ret (0, 0, HEV_SOCKS5_RES_REP_ADDR, addr) else
      upd_base (hev_socks5_set_addr_family family) ;;
      ret (0, nthb req 1, rep, addr)
  end.

Definition hev_socks5_server_write_response (rep : Z) (addr : sockaddr_in6)
  : M HevSocks5Server Z :=
  s <- gets id ;;
  let '(a, n) := hev_socks5_addr_from_sockaddr6 (replicate sizeof_HevSocks5Addr 0) addr in
  bytes <- read_mem n a ;;
  r <- call (Send (fd (base s)) (HEV_SOCKS5_VERSION_5 :: u8 rep :: 0 :: bytes) MSG_WAITALL) ;;
  if r <=? 0 then ret (-1) else ret 0.

(** [klass->binder] is the one of [HevSocks5Class]. *)
Definition hev_socks5_server_connect (addr : sockaddr_in6) : M HevSocks5Server Z :=
  fd <- hev_socks5_socket cfg SOCK_STREAM ;;
  if fd <? 0 then ret (-1) else
  r <- hev_socks5_bind fd addr ;;
  if r <? 0 then call (TaskDelFd fd) ;; call (Close fd) ;; ret (-1) else
  upd_base (hev_socks5_set_timeout (connect_timeout cfg)) ;;
  r <- call (Connect fd addr) ;;
  if r <? 0 then call (TaskDelFd fd) ;; call (Close fd) ;; ret (-1) else
  upd_base (hev_socks5_set_timeout (tcp_timeout cfg)) ;;
  set_fds0 fd ;;
  ret 0.

Definition hev_socks5_server_udp_bind (sock : Z) (src : sockaddr_in6)
  : M HevSocks5Server (Z * sockaddr_in6) :=
  s <- gets id ;;
  r <- call (GetSockName (fd (base s))) ;;
  if r.1 <? 0 then ret (-1, src) else
  let src := SockAddr6 (sin6_family r.2) 0 (sin6_addr r.2) in
  b <- call (Bind sock src) ;;
  if b <? 0 then ret (-1, src) else
  r <- call (GetSockName sock) ;;
  if r.1 <? 0 then ret (-1, src) else
  ret (0, r.2).

(** [addr] is [None] for a NULL pointer.  The second result is [*addr]. *)
Definition hev_socks5_server_bind (addr : option sockaddr_in6)
  : M HevSocks5Server (Z * option sockaddr_in6) :=
  fd <- hev_socks5_socket cfg SOCK_DGRAM ;;
  if fd <? 0 then ret (-1, addr) else
  set_fds0 fd ;;
  match addr with
  | None => ret (0, None)
  | Some a =>
      fd <- hev_socks5_socket cfg SOCK_DGRAM ;;
      if fd <? 0 then ret (-1, addr) else
      r <- call (SetSockOpt fd SOL_SOCKET SO_REUSEADDR 1) ;;
      if r <? 0 then call (TaskDelFd fd) ;; call (Close fd) ;; ret (-1, addr) else
      r <- hev_socks5_server_udp_bind fd a ;;
      if r.1 <? 0 then call (TaskDelFd fd) ;; call (Close fd) ;; ret (-1, Some r.2) else
      set_fds1 fd ;;
      ret (0, Some r.2)
  end.

(** The [switch] on the command: [*rep] and [*addr] after it. *)
Definition server_command (cmd rep : Z) (addr : sockaddr_in6)
  : M HevSocks5Server (Z * sockaddr_in6) :=
  if cmd =? HEV_SOCKS5_REQ_CMD_CONNECT then
    r <- hev_socks5_server_connect addr ;;
    upd_base (set_type HEV_SOCKS5_TYPE_TCP) ;;
    ret (if r <? 0 then HEV_SOCKS5_RES_REP_HOST else rep, addr)
  else if cmd =? HEV_SOCKS5_REQ_CMD_UDP_ASC then
    r <- hev_socks5_server_bind (Some addr) ;;
    upd_base (set_type HEV_SOCKS5_TYPE_UDP_IN_UDP) ;;
    ret (if r.1 <? 0 then HEV_SOCKS5_RES_REP_FAIL else rep, default addr r.2)
  else if cmd =? HEV_SOCKS5_REQ_CMD_FWD_UDP then
    r <- hev_socks5_server_bind None ;;
    upd_base (set_type HEV_SOCKS5_TYPE_UDP_IN_TCP) ;;
    ret (if r.1 <? 0 then HEV_SOCKS5_RES_REP_FAIL else rep, addr)
  else ret (HEV_SOCKS5_RES_REP_IMPL, addr).

Definition hev_socks5_server_handshake : M HevSocks5Server Z :=
  upd_base (hev_socks5_set_timeout (tcp_timeout cfg)) ;;
  r <- hev_socks5_server_auth ;;
  if r <? 0 then ret (-1) else
  q <- hev_socks5_server_read_request HEV_SOCKS5_RES_REP_SUCC zero_sockaddr6 ;;
  let '(r, cmd, rep, addr) := q in
  if r <? 0 then ret (-1) else
  q <- (if rep =? HEV_SOCKS5_RES_REP_SUCC then server_command cmd rep addr else ret (rep, addr)) ;;
  let '(rep, addr) := q in
  r <- hev_socks5_server_write_response rep addr ;;
  if (r <? 0) || negb (rep =? HEV_SOCKS5_RES_REP_SUCC) then ret (-1) else ret 0.

(** hev-socks5-tcp.c *)
Definition hev_socks5_tcp_splicer (fd' : Z) : M HevSocks5Server Z :=
  s <- gets id ;;
  let cfd := fd (base s) in
  if cfd <? 0 then ret (-1) else
  r <- call (TaskAddFd fd') ;;
  (if r <? 0 then call (TaskModFd fd') ;; ret tt else ret tt) ;;
  call (TcpSplice cfd fd') ;;
  ret 0.

Definition hev_socks5_server_service : M HevSocks5Server Z :=
  s <- gets id ;;
  match type (base s) with
  | HEV_SOCKS5_TYPE_TCP => hev_socks5_tcp_splicer (fds0 s) ;; ret 0
  | HEV_SOCKS5_TYPE_UDP_IN_UDP | HEV_SOCKS5_TYPE_UDP_IN_TCP =>
      upd_base (hev_socks5_set_timeout (udp_timeout cfg)) ;;
      call (UdpSplice (fds0 s)) ;;
      ret 0
  | HEV_SOCKS5_TYPE_NONE => ret (-1)
  end.

Definition hev_socks5_server_run : M HevSocks5Server Z :=
  s <- gets id ;;
  r <- call (TaskAddFd (fd (base s))) ;;
  (if r <? 0 then call (TaskModFd (fd (base s))) ;; ret tt else ret tt) ;;
  r <- hev_socks5_server_handshake ;;
  if r <? 0 then ret (-1) else
  r <- hev_socks5_server_service ;;
  if r <? 0 then ret (-1) else ret 0.

Definition hev_socks5_server_get_fd (s : HevSocks5Server) : Z :=
  match type (base s) with
  | HEV_SOCKS5_TYPE_UDP_IN_TCP => fd (base s)
  | HEV_SOCKS5_TYPE_UDP_IN_UDP => fds1 s
  | _ => -1
  end.

Definition hev_socks5_server_construct (fd : Z) : HevSocks5Server :=
  mkServer (set_fd fd (hev_socks5_construct HEV_SOCKS5_TYPE_NONE)) (-1) (-1) ObjNull.

(** LP64. *)
Definition sizeof_HevSocks5Server : Z := 48.

Definition hev_socks5_server_new (fd : Z) : M unit (option HevSocks5Server) :=
  ok <- call (Malloc sizeof_HevSocks5Server) ;;
  if negb ok then ret None else ret (Some (hev_socks5_server_construct fd)).

Definition hev_socks5_server_destruct : M HevSocks5Server unit :=
  s <- gets id ;;
  (if 0 <=? fds0 s then call (TaskDelFd (fds0 s)) ;; call (Close (fds0 s)) else ret tt) ;;
  (if 0 <=? fds1 s then call (TaskDelFd (fds1 s)) ;; call (Close (fds1 s)) else ret tt) ;;
  (match obj_ptr (obj s) with Some p => call (ObjectUnref p) | None => ret tt end) ;;
  hev_socks5_destruct base sizeof_HevSocks5Server.

End Server.
Arguments srv_obj A : clear implicits.
Arguments HevSocks5Server A : clear implicits.
