(* ===== verification/Socks5Handshake.v ===== *)
(** * Client and server together

    The client of [Socks5Client] and the server of [Socks5Server] on one
    connection, under every interleaving of their calls ([pstep] of [Prog]). *)

From stdpp Require Import relations.
From S2P Require Import Prelude TaskIO Socks5Addr Prog Socks5 Auth.
From S2P Require Import Socks5Client Socks5Server.

Abbreviation Client := Socks5Client.HevSocks5Client.
Abbreviation Server := Socks5Server.HevSocks5Server.

(** The function ends with exactly this. *)
Definition ends {S A} (a : A) (s : S) (rest out : list Z) : A -> S -> list Z -> list Z -> Prop :=
  fun a' s' rest' out' => a' = a /\ s' = s /\ rest' = rest /\ out' = out.

Lemma ends_refl {S A} (a : A) (s : S) rest out : ends a s rest out a s rest out.
Proof. done. Qed.
#[export] Hint Resolve ends_refl : hev.

(** Symbolic execution of one party. *)
Ltac rn1 :=
  match goal with
  | |- runs _ _ (bindM _ _) _ _ _ => apply runs_bind
  | |- runs _ _ (gets _) _ _ _ => apply runs_gets
  | |- runs _ _ (modify _) _ _ _ => apply runs_modify
  | |- runs _ _ (ret _) _ _ _ => apply runs_ret
  | |- runs _ _ (call (Send _ _ _)) _ _ _ => apply runs_send; [done|]
  | |- runs _ _ (call (SendMsg _ _ _)) _ _ _ => apply runs_sendmsg; [done|]
  | |- runs _ _ (call (Recv _ _ _)) _ _ _ => apply runs_recv; [done|by simpl; try len|]
  | |- runs _ _ (if ?b then _ else _) _ _ _ =>
      let v := eval vm_compute in b in
      match v with true => change b with true | false => change b with false end
  end.
Ltac rn := repeat (rn1; cbn beta iota zeta delta [id]).

(** The same where the calls matter. *)
Ltac rnl1 :=
  match goal with
  | |- runs_log _ _ (bindM _ _) _ _ _ => apply runs_log_bind
  | |- runs_log _ _ (gets _) _ _ _ => apply runs_log_gets
  | |- runs_log _ _ (modify _) _ _ _ => apply runs_log_modify
  | |- runs_log _ _ (ret _) _ _ _ => apply runs_log_ret
  | |- runs_log _ _ (if ?b then _ else _) _ _ _ =>
      let v := eval vm_compute in b in
      match v with true => change b with true | false => change b with false end
  end.
Ltac rnl := repeat (rnl1; cbn beta iota zeta delta [id]).

(** ** The client's functions *)

Section ClientRuns.
Import Socks5Client.
Context {S : Type} `{ClientClass S} (o : oracle).

Definition cfd (s : S) : Z := fd (rd_base s).

(** The bytes the client sends in each phase. *)
Definition methods_msg (c : Client) : list Z :=
  [HEV_SOCKS5_VERSION_5; 1;
   if has_creds c then HEV_SOCKS5_AUTH_METHOD_USER else HEV_SOCKS5_AUTH_METHOD_NONE].

Definition creds_msg (user pass : list Z) : list Z :=
  HEV_SOCKS5_AUTH_VERSION_1 :: Z.of_nat (length user) :: user ++ Z.of_nat (length pass) :: pass.

Lemma write_auth_methods_runs s inq :
  runs (cfd s) o hev_socks5_client_write_auth_methods s inq
    (ends 0 s inq (methods_msg (rd_client s))).
Proof.
  unfold hev_socks5_client_write_auth_methods, methods_msg. rn.
  destruct (has_creds (rd_client s)); cbn; rn; done.
Qed.

Lemma write_auth_creds_runs s inq user pass :
  auth_user (rd_client s) = Some user -> auth_pass (rd_client s) = Some pass ->
  (length user < 256)%nat -> (length pass < 256)%nat ->
  runs (cfd s) o hev_socks5_client_write_auth_creds s inq (ends 0 s inq (creds_msg user pass)).
Proof.
  intros Hu Hp Hlu Hlp. unfold hev_socks5_client_write_auth_creds. rn.
  rewrite Hu, Hp, !u8_id, !Nat2Z.id, !take_ge by (unfold is_u8; lia). rn.
  unfold creds_msg. simpl. by rewrite !app_nil_r.
Qed.

Lemma write_auth_creds_none s inq :
  has_creds (rd_client s) = false ->
  runs (cfd s) o hev_socks5_client_write_auth_creds s inq (ends 0 s inq []).
Proof.
  intros Hc. unfold hev_socks5_client_write_auth_creds, has_creds in *. rn.
  destruct (auth_user _); [destruct (auth_pass _)|]; try done; rn; done.
Qed.

Lemma read_auth_method_runs s m rest :
  runs (cfd s) o hev_socks5_client_read_auth_method s ([HEV_SOCKS5_VERSION_5; m] ++ rest)
    (ends m s rest []).
Proof. unfold hev_socks5_client_read_auth_method. rn. done. Qed.

Lemma read_auth_creds_runs s v rest :
  runs (cfd s) o hev_socks5_client_read_auth_creds s ([HEV_SOCKS5_AUTH_VERSION_1; v] ++ rest)
    (ends (if v =? 0 then 0 else -1) s rest []).
Proof.
  unfold hev_socks5_client_read_auth_creds. rn. simpl. unfold HEV_SOCKS5_RES_REP_SUCC.
  change (nthb _ 1) with v. destruct (v =? 0); cbn; rn; done.
Qed.

Definition request_cmd (t : HevSocks5Type) : Z :=
  match t with
  | HEV_SOCKS5_TYPE_TCP => HEV_SOCKS5_REQ_CMD_CONNECT
  | HEV_SOCKS5_TYPE_UDP_IN_TCP => HEV_SOCKS5_REQ_CMD_FWD_UDP
  | _ => HEV_SOCKS5_REQ_CMD_UDP_ASC
  end.

Definition request_msg (t : HevSocks5Type) (a : address) : list Z :=
  HEV_SOCKS5_VERSION_5 :: request_cmd t :: 0 :: wire a.

Definition ip_address (a : address) : Prop :=
  match a with AName _ _ => False | _ => address_ok a end.

(** What the handshake needs of the class, for a request of [a]: an object that
    satisfies [I] yields [a], and accepts the bound address of the response. *)
Record class_ok (a : address) (I : S -> Prop) : Prop := {
  rd_wr : forall c s, rd_client (wr_client c s) = c;
  inv_timeout : forall v s, I s -> I (wr_base (hev_socks5_set_timeout v (rd_base s)) s);
  get_addr_runs : forall s inq, I s -> exists tl,
    runs (cfd s) o get_upstream_addr s inq (fun m s' rest out =>
      m = Some (wire a ++ tl) /\ rd_client s' = rd_client s /\ rest = inq /\ out = []);
  set_addr_runs : forall s inq b, ip_address b -> runs (cfd s) o (set_upstream_addr (wire b)) s inq
    (fun r s' rest out => r = 0 /\ fd (rd_base s') = fd (rd_base s)
       /\ type (rd_base s') = type (rd_base s) /\ rest = inq /\ out = [])
}.

Lemma addr_switch a tl {T} (f : Z -> T) (d : T) : address_ok a ->
  match (if atype (wire a ++ tl) =? HEV_SOCKS5_ADDR_TYPE_IPV4 then Some 7
         else if atype (wire a ++ tl) =? HEV_SOCKS5_ADDR_TYPE_IPV6 then Some 19
         else if atype (wire a ++ tl) =? HEV_SOCKS5_ADDR_TYPE_NAME
              then Some (4 + domain_len (wire a ++ tl))
         else None) with Some n => f n | None => d end
  = f (Z.of_nat (length (wire a))).
Proof. intros Ha. rewrite (length_wire a Ha). by destruct a. Qed.

Lemma read_mem_wire {T} fd' (s : T) a tl inq :
  runs fd' o (read_mem (Z.of_nat (length (wire a))) (wire a ++ tl)) s inq
    (ends (wire a) s inq []).
Proof.
  unfold read_mem. rewrite (proj2 (Z.leb_le 0 _)), (proj2 (Z.leb_le _ _)) by len.
  simpl. rn. by rewrite Nat2Z.id, take_app_length.
Qed.

Lemma write_request_runs a I s inq :
  class_ok a I -> I s -> address_ok a -> type (rd_base s) <> HEV_SOCKS5_TYPE_NONE ->
  runs (cfd s) o hev_socks5_client_write_request s inq (fun r s' rest out =>
    r = 0 /\ rd_client s' = rd_client s /\ rest = inq
    /\ out = request_msg (type (rd_base s)) a).
Proof.
  intros Hc HI Ha Ht. destruct (get_addr_runs a I Hc s inq HI) as [tl Hg].
  unfold hev_socks5_client_write_request. rn.
  assert (Hcmd : forall T (f : Z -> T) d, match
      match type (rd_base s) with
      | HEV_SOCKS5_TYPE_NONE => None
      | HEV_SOCKS5_TYPE_TCP => Some HEV_SOCKS5_REQ_CMD_CONNECT
      | HEV_SOCKS5_TYPE_UDP_IN_TCP => Some HEV_SOCKS5_REQ_CMD_FWD_UDP
      | HEV_SOCKS5_TYPE_UDP_IN_UDP => Some HEV_SOCKS5_REQ_CMD_UDP_ASC
      end with Some c => f c | None => d end = f (request_cmd (type (rd_base s)))).
  { intros. by destruct (type (rd_base s)). }
  rewrite Hcmd. clear Hcmd. rn. eapply runs_mono; [|apply Hg].
  intros m s' rest out (-> & Hs' & -> & ->). cbn beta iota zeta.
  rewrite addr_switch by done. rn. eapply runs_mono; [|apply read_mem_wire].
  intros ? ? ? ? (-> & -> & -> & ->). rn.
  apply runs_local; [done|]. intros n. rn. simpl. by rewrite !app_nil_r.
Qed.

Definition response_msg (rep : Z) (a : address) : list Z :=
  HEV_SOCKS5_VERSION_5 :: rep :: 0 :: wire a.

Lemma read_response_runs a I b s rest :
  class_ok a I -> ip_address b ->
  runs (cfd s) o hev_socks5_client_read_response s
    (response_msg HEV_SOCKS5_RES_REP_SUCC b ++ rest)
    (fun r s' rest' out => r = 0 /\ fd (rd_base s') = fd (rd_base s)
       /\ type (rd_base s') = type (rd_base s) /\ rest' = rest /\ out = []).
Proof.
  intros Hc Hb. unfold hev_socks5_client_read_response.
  assert (Hsplit : exists t bs, wire b = t :: bs /\
    ((t = HEV_SOCKS5_ADDR_TYPE_IPV4 /\ length bs = 6%nat)
     \/ (t = HEV_SOCKS5_ADDR_TYPE_IPV6 /\ length bs = 18%nat))).
  { destruct b as [ip p|ip p|]; simpl in Hb; [| |done]; destruct Hb as (Hl & _);
      simpl; do 2 eexists; (split; [done|]); rewrite length_app, Hl; auto. }
  destruct Hsplit as (t & bs & Hw & Ht). unfold response_msg. rewrite Hw.
  change ((HEV_SOCKS5_VERSION_5 :: HEV_SOCKS5_RES_REP_SUCC :: 0 :: t :: bs) ++ rest)
    with ([HEV_SOCKS5_VERSION_5; HEV_SOCKS5_RES_REP_SUCC; 0; t] ++ (bs ++ rest)).
  rn. cbn.
  destruct Ht as [[-> Hl]|[-> Hl]]; cbn; rn; rewrite <- Hw; (eapply runs_mono; [|apply (set_addr_runs a I Hc); done]);
    intros r s' rest' out (-> & ? & ? & -> & ->); simpl; rn; done.
Qed.

(** A refused request: the client stops at the reply code. *)
Lemma read_response_refused s rep b rest :
  rep <> HEV_SOCKS5_RES_REP_SUCC -> (exists t bs, wire b = t :: bs) ->
  runs (cfd s) o hev_socks5_client_read_response s (response_msg rep b ++ rest)
    (fun r s' _ out => r = -1 /\ s' = s /\ out = []).
Proof.
  intros Hr (t & bs & Hw). unfold hev_socks5_client_read_response, response_msg. rewrite Hw.
  change ((?v :: rep :: 0 :: t :: bs) ++ rest) with ([v; rep; 0; t] ++ (bs ++ rest)).
  rn. cbn. rewrite (proj2 (Z.eqb_neq rep _) Hr). simpl. rn. done.
Qed.

End ClientRuns.

(** ** The server's functions *)

Section ServerRuns.
Import Socks5Server.
Context {A : Type} `{Authenticator A} (cfg : Settings) (res : Resolver) (o : oracle).
Implicit Types s : Server A.

Definition sfd (s : Server A) : Z := fd (base s).

Lemma recv_into_runs {S} (s : S) cap d len bs rest (P : _ -> S -> list Z -> list Z -> Prop) :
  len <= cap -> Z.of_nat (length bs) = len -> P (len, bs) s rest [] ->
  runs d o (recv_into cap d len) s (bs ++ rest) P.
Proof.
  intros Hc Hl HP. unfold recv_into. rewrite (proj2 (Z.leb_le _ _)) by lia.
  apply runs_recv; [done|lia|]. by rewrite Z2Nat.id by lia.
Qed.

(** The method the server insists on. *)
Definition method_of (x : srv_obj A) : Z :=
  match obj_ptr x with
  | Some _ => HEV_SOCKS5_AUTH_METHOD_USER
  | None => HEV_SOCKS5_AUTH_METHOD_NONE
  end.

Lemma server_read_auth_method_runs s m rest :
  runs (sfd s) o hev_socks5_server_read_auth_method s ([HEV_SOCKS5_VERSION_5; 1; m] ++ rest)
    (ends (if m =? method_of (obj s) then method_of (obj s) else -1) s rest []).
Proof.
  unfold hev_socks5_server_read_auth_method. rn.
  change ([HEV_SOCKS5_VERSION_5; 1; m] ++ rest) with ([HEV_SOCKS5_VERSION_5; 1] ++ ([m] ++ rest)).
  apply recv_into_runs; [done|done|]. rn.
  apply recv_into_runs; [done|done|]. rn. cbn [existsb]. rewrite orb_false_r. done.
Qed.

Lemma server_write_auth_method_runs s m inq :
  runs (sfd s) o (hev_socks5_server_write_auth_method m) s inq
    (ends 0 s inq [HEV_SOCKS5_VERSION_5; u8 m]).
Proof. unfold hev_socks5_server_write_auth_method. rn. done. Qed.

Lemma server_write_auth_user_runs s r inq :
  runs (sfd s) o (hev_socks5_server_write_auth_user r) s inq (ends 0 s inq [1; u8 r]).
Proof. unfold hev_socks5_server_write_auth_user. rn. done. Qed.

(** Who the credentials belong to. *)
Definition login (a : A) (user pass : list Z) : option HevSocks5User :=
  match authenticator_get a user with
  | Some u => if decide (u_pass u = pass) then Some u else None
  | None => None
  end.

Definition with_obj (s : Server A) (x : srv_obj A) : Server A :=
  mkServer (base s) (fds0 s) (fds1 s) x.

Lemma server_read_auth_user_runs s ptr a user pass rest :
  obj s = ObjAuth ptr a ->
  (0 < length user < 256)%nat -> (0 < length pass < 256)%nat ->
  runs (sfd s) o hev_socks5_server_read_auth_user s (creds_msg user pass ++ rest)
    match login a user pass with
    | Some u => ends 0 (with_obj s (ObjUser u)) rest []
    | None => ends (-1) s rest []
    end.
Proof.
  intros Ho Hu Hp. unfold hev_socks5_server_read_auth_user, creds_msg. rn.
  set (nl := Z.of_nat (length user)). set (pl := Z.of_nat (length pass)).
  replace ((HEV_SOCKS5_AUTH_VERSION_1 :: nl :: user ++ pl :: pass) ++ rest)
    with ([HEV_SOCKS5_AUTH_VERSION_1; nl] ++ ((user ++ [pl]) ++ (pass ++ rest)))
    by (simpl; rewrite <- !app_assoc; done).
  apply recv_into_runs; [done|done|]. rn.
  change (nthb [_; nl] 1) with nl. rewrite (proj2 (Z.eqb_neq nl 0)) by lia.
  rn. apply recv_into_runs; [lia|unfold nl; len|].
  rewrite Z.eqb_refl. cbn [negb].
  replace (nthb (user ++ [pl]) (Z.to_nat nl)) with pl
    by (unfold nl, nthb; rewrite Nat2Z.id, list_lookup_middle; done).
  rewrite (proj2 (Z.eqb_neq pl 0)) by lia.
  rn. apply recv_into_runs; [lia|done|]. rewrite Z.eqb_refl, Ho. cbn [negb].
  replace (take (Z.to_nat nl) (user ++ [pl])) with user
    by (unfold nl; by rewrite Nat2Z.id, take_app_length).
  unfold login. destruct (authenticator_get a user) as [u|]; [|rn; done].
  destruct (decide (u_pass u = pass)) as [Hok|Hno].
  - unfold pl. rewrite (proj2 (user_check_iff u pass) Hok). rn.
    apply runs_local; [done|]. intros _. rn. apply runs_local; [done|]. intros _.
    unfold set_obj. rn. done.
  - replace (hev_socks5_user_check u pass pl) with (-1); [rn; done|].
    destruct (user_check_cases u pass pl) as [E|E]; [by apply user_check_iff in E|done].
Qed.

(** What the environment must grant for the request to be served: descriptors,
    and a connection to [sa]. *)
Record serves (sa : sockaddr_in6) : Prop := {
  socket_ok : forall n d t, 0 <= o n _ (Socket d t);
  setsockopt_ok : forall n d l p v, 0 <= o n _ (SetSockOpt d l p v);
  connect_ok : forall n d, 0 <= o n _ (Connect d sa);
  bind_ok : forall n d a, 0 <= o n _ (Bind d a);
  getsockname_ok : forall n d, 0 <= (o n _ (GetSockName d)).1
    /\ sockaddr_ok (o n _ (GetSockName d)).2
}.

Ltac local := apply runs_local; [done|]; intros ?; cbn beta iota zeta; rn.

Lemma socket_runs {S} d (x : S) t inq sa :
  serves sa ->
  runs d o (hev_socks5_socket cfg t) x inq
    (fun r (x' : S) rest out => 0 <= r /\ x' = x /\ rest = inq /\ out = []).
Proof.
  intros Hs. unfold hev_socks5_socket. rn. local.
  pose proof (socket_ok _ Hs n AF_INET6 t). rewrite (proj2 (Z.ltb_ge _ _)) by done. rn. local.
  rewrite (proj2 (Z.ltb_ge _ _)) by apply (setsockopt_ok _ Hs). rn. local.
  destruct (_ <? 0); rn; [local|]; destruct (t =? SOCK_DGRAM); rn; try local; done.
Qed.

(** The server has connected its first descriptor to [sa]. *)
Definition connected (sa : sockaddr_in6) (s : Server A) (log : list item) : Prop :=
  exists r, Item (Connect (fds0 s) sa) r ∈ log /\ 0 <= r.

Lemma server_connect_runs s sa inq :
  serves sa ->
  runs_log (sfd s) o (hev_socks5_server_connect cfg sa) s inq (fun r s' rest out l =>
    r = 0 /\ rest = inq /\ out = []
    /\ fd (base s') = fd (base s) /\ obj s' = obj s /\ 0 <= fds0 s' /\ connected sa s' l).
Proof.
  intros Hs. unfold hev_socks5_server_connect. apply runs_log_bind.
  eapply runs_log_mono; [|by apply (socket_runs _ s _ inq sa)].
  intros d s' rest out l (Hd & -> & -> & ->). cbn beta.
  rewrite (proj2 (Z.ltb_ge _ _)) by done. unfold hev_socks5_bind, upd_base, set_fds0. rnl.
  apply runs_log_local; [done|]. intros n.
  pose proof (connect_ok _ Hs n d) as Hc. rewrite (proj2 (Z.ltb_ge _ _)) by done. rnl.
  split_and!; try done; [simpl; unfold hev_socks5_set_timeout; by repeat case_match|].
  eexists. split; [|exact Hc]. set_solver.
Qed.

Lemma server_bind_runs s addr sa inq :
  serves sa ->
  runs (sfd s) o (hev_socks5_server_bind cfg addr) s inq (fun r s' rest out =>
    r.1 = 0 /\ (r.2 = None <-> addr = None) /\ (forall b, r.2 = Some b -> sockaddr_ok b)
    /\ rest = inq /\ out = []
    /\ base s' = base s /\ obj s' = obj s /\ 0 <= fds0 s'
    /\ (addr <> None -> 0 <= fds1 s')).
Proof.
  intros Hs. unfold hev_socks5_server_bind. rn.
  eapply runs_mono; [|by apply (socket_runs _ s _ inq sa)].
  intros d s' rest out (Hd & -> & -> & ->). cbn beta.
  rewrite (proj2 (Z.ltb_ge _ _)) by done. unfold set_fds0. rn.
  destruct addr as [a|]; [|rn; done].
  rn. eapply runs_mono; [|by apply (socket_runs _ _ _ inq sa)].
  intros d1 s' rest out (Hd1 & -> & -> & ->). cbn beta.
  rewrite (proj2 (Z.ltb_ge _ _)) by done. rn. local.
  rewrite (proj2 (Z.ltb_ge _ _)) by apply (setsockopt_ok _ Hs).
  unfold hev_socks5_server_udp_bind. rn. local. simpl (base _).
  rewrite (proj2 (Z.ltb_ge _ _)) by apply (getsockname_ok _ Hs). rn. local.
  rewrite (proj2 (Z.ltb_ge _ _)) by apply (bind_ok _ Hs). rn. local.
  rewrite (proj2 (Z.ltb_ge _ _)) by apply (getsockname_ok _ Hs). rn.
  unfold set_fds1. rn. split_and!; try done.
  intros b [= <-]. apply (getsockname_ok _ Hs).
Qed.

(** The first two bytes of an address tell the server how many follow. *)
Lemma wire_head a : address_ok a -> exists t b bytes, wire a = t :: b :: bytes
  /\ (length bytes <= 257)%nat
  /\ (if t =? HEV_SOCKS5_ADDR_TYPE_IPV4 then Some 5
      else if t =? HEV_SOCKS5_ADDR_TYPE_IPV6 then Some 17
      else if t =? HEV_SOCKS5_ADDR_TYPE_NAME then Some (2 + b) else None)
     = Some (Z.of_nat (length bytes)).
Proof.
  intros Ha. destruct a as [ip p|ip p|name p]; destruct Ha as (Hl & _ & _).
  1, 2: explode ip; simpl; do 3 eexists; split_and!; (done || simpl; lia).
  simpl. do 3 eexists. split_and!; [done|len|]. simpl. f_equal. len.
Qed.

Lemma server_read_request_runs s t a rest sa fam :
  resolver_ok res -> address_ok a -> target res a (addr_family (base s)) = Some (sa, fam) ->
  runs (sfd s) o (hev_socks5_server_read_request res HEV_SOCKS5_RES_REP_SUCC zero_sockaddr6) s
    (request_msg t a ++ rest)
    (ends (0, request_cmd t, HEV_SOCKS5_RES_REP_SUCC, sa)
       (mkServer (hev_socks5_set_addr_family fam (base s)) (fds0 s) (fds1 s) (obj s)) rest []).
Proof.
  intros Hr Ha Ht. unfold hev_socks5_server_read_request, request_msg. rn.
  destruct (wire_head a Ha) as (t0 & b0 & bytes & Hw & Hlb & Hlen). rewrite Hw.
  change ((HEV_SOCKS5_VERSION_5 :: request_cmd t :: 0 :: t0 :: b0 :: bytes) ++ rest)
    with ([HEV_SOCKS5_VERSION_5; request_cmd t; 0; t0; b0] ++ (bytes ++ rest)).
  apply recv_into_runs; [done|done|].
  change (nthb _ 0) with HEV_SOCKS5_VERSION_5. change (nthb _ 1) with (request_cmd t).
  change (nthb _ 3) with t0. change (nthb _ 4) with b0.
  cbn [negb Z.eqb Pos.eqb]. cbn beta iota zeta. rewrite Hlen.
  rn. apply recv_into_runs; [lia|done|]. rewrite Z.eqb_refl. cbn [negb].
  pose proof (into_sockaddr6_wire res a [] zero_sockaddr6 (addr_family (base s)) Hr Ha eq_refl) as Hi.
  rewrite Ht, app_nil_r, Hw in Hi. unfold hev_socks5_get_addr_family. rewrite Hi.
  rn. unfold upd_base. rn. done.
Qed.

Lemma server_write_response_runs s rep sa inq :
  sockaddr_ok sa -> is_u8 rep ->
  runs (sfd s) o (hev_socks5_server_write_response rep sa) s inq
    (ends 0 s inq (response_msg rep (address_of sa))).
Proof.
  intros Hsa Hrep. unfold hev_socks5_server_write_response. rn.
  destruct (from_sockaddr6_wire (replicate sizeof_HevSocks5Addr 0) sa) as [tl [-> _]];
    [simpl; lia|done|].
  rn. eapply runs_mono; [|apply read_mem_wire].
  intros ? ? ? ? (-> & -> & -> & ->). rewrite u8_id by done. rn. cbn [app]. by rewrite app_nil_r.
Qed.

(** The state of the server when the request has been granted. *)
Definition granted (t : HevSocks5Type) (s0 s : Server A) (x : srv_obj A) : Prop :=
  fd (base s) = fd (base s0) /\ type (base s) = t /\ obj s = x /\ 0 <= fds0 s
  /\ (t = HEV_SOCKS5_TYPE_UDP_IN_UDP -> 0 <= fds1 s).

Lemma server_command_runs s t sa inq :
  serves sa -> sockaddr_ok sa -> t <> HEV_SOCKS5_TYPE_NONE ->
  runs_log (sfd s) o (server_command cfg (request_cmd t) HEV_SOCKS5_RES_REP_SUCC sa) s inq
    (fun r s' rest out l => r.1 = HEV_SOCKS5_RES_REP_SUCC /\ sockaddr_ok r.2
      /\ rest = inq /\ out = [] /\ granted t s s' (obj s) /\ (t = HEV_SOCKS5_TYPE_TCP -> connected sa s' l)).
Proof.
  intros Hs Hsa Ht. unfold granted, server_command. destruct t; [done| | |]; rnl.
  - eapply runs_log_mono; [|by apply server_connect_runs].
    intros r s' rest out l (-> & -> & -> & ? & ? & ? & Hcn). cbn beta. unfold upd_base. rnl.
    simpl. split_and!; try done. intros _. by rewrite !app_nil_r.
  - eapply runs_log_mono; [|by apply (server_bind_runs s None sa)].
    intros r s' rest out l (E & ? & ? & -> & -> & Hb & ? & ? & ?). cbn beta. unfold upd_base. rnl.
    simpl. rewrite Hb, E. split_and!; done.
  - eapply runs_log_mono; [|by apply (server_bind_runs s (Some sa) sa)].
    intros r s' rest out l (E & Hn & Hok & -> & -> & Hb & ? & ? & Hf). cbn beta. unfold upd_base. rnl.
    simpl. rewrite Hb, E. split_and!; try done.
    + destruct (r.2) as [b|]; [by apply Hok|done].
    + intros _. by apply Hf.
Qed.

(** The second half of the handshake: request and response. *)
Definition server_request : M (Server A) Z :=
  q <- hev_socks5_server_read_request res HEV_SOCKS5_RES_REP_SUCC zero_sockaddr6 ;;
  let '(r, cmd, rep, addr) := q in
  if r <? 0 then ret (-1) else
  q <- (if rep =? HEV_SOCKS5_RES_REP_SUCC then server_command cfg cmd rep addr else ret (rep, addr)) ;;
  let '(rep, addr) := q in
  r <- hev_socks5_server_write_response rep addr ;;
  if (r <? 0) || negb (rep =? HEV_SOCKS5_RES_REP_SUCC) then ret (-1) else ret 0.

Lemma server_request_runs s t a rest sa fam :
  resolver_ok res -> address_ok a -> t <> HEV_SOCKS5_TYPE_NONE ->
  target res a (addr_family (base s)) = Some (sa, fam) -> sockaddr_ok sa -> serves sa ->
  runs_log (sfd s) o server_request s (request_msg t a ++ rest) (fun r s' rest' out l =>
    r = 0 /\ rest' = rest /\ granted t s s' (obj s) /\ (t = HEV_SOCKS5_TYPE_TCP -> connected sa s' l)
    /\ exists b, sockaddr_ok b /\ out = response_msg HEV_SOCKS5_RES_REP_SUCC (address_of b)).
Proof.
  intros Hr Ha Ht Htg Hsa Hs. unfold server_request. apply runs_log_bind.
  eapply runs_log_mono; [|by apply server_read_request_runs].
  intros ? ? ? ? l1 (-> & -> & -> & ->). cbn beta iota zeta. rnl.
  set (s1 := mkServer _ _ _ _). change (sfd s) with (sfd s1).
  eapply runs_log_mono; [|by apply server_command_runs].
  intros [rep b] s' ? ? l2 (Hrep & Hb & -> & -> & Hg & Hcn). cbn [fst snd] in *. subst rep. rnl.
  assert (Hfd : sfd s' = sfd s1) by apply Hg. rewrite <- Hfd.
  eapply runs_log_mono; [|by apply server_write_response_runs].
  intros ? ? ? ? l3 (-> & -> & -> & ->). cbn beta. rnl.
  split_and!; try done; [|exists b; cbn [app]; by rewrite app_nil_r].
  intros Hty. destruct (Hcn Hty) as (r & Hin & Hr0). exists r. split; [set_solver|done].
Qed.

End ServerRuns.

(** ** The pair *)

Section Handshake.
Context {S : Type} `{ClientClass S} {A : Type} `{Authenticator A}.
Context (ccfg scfg : Settings) (res : Resolver) (co so : oracle) (cd sd : Z).
Implicit Types (s : S) (t : Server A).

Abbreviation step := (pstep (A := Z * S) (B := Z * Server A) cd sd co so).

(** Some interleaving leads from [c] to a configuration that satisfies [G]. *)
Definition reaches (c : conn (Z * S) (Z * Server A)) (G : _ -> Prop) : Prop :=
  exists z, rtc step c z /\ G z.

Lemma reaches_now c (G : _ -> Prop) : G c -> reaches c G.
Proof. by exists c. Qed.

Lemma pair_client {X Y} (m : M S X) (f : X -> M S Y) (k : Y -> S -> prog _) s d inq P sv q1 q2 n ns G :
  runs d co m s inq P -> d = cd -> q2 = inq ->
  (forall n' a s' rest out, P a s' rest out ->
     reaches (Conn (f a _ k s') sv (q1 ++ out) rest n' ns) G) ->
  reaches (Conn (bindM m f _ k s) sv q1 q2 n ns) G.
Proof.
  intros Hm -> -> Hk. destruct (Hm n) as (l & a & s' & rest & out & HP & Hs).
  destruct (Hk (n ++ l) a s' rest out HP) as (z & Hz & HG). exists z. split; [|done].
  etransitivity; [|exact Hz].
  rewrite <- (app_nil_r inq), <- (app_nil_r rest). by apply seg_client, Hs.
Qed.

Lemma pair_server {X Y} (m : M (Server A) X) (f : X -> M (Server A) Y) (k : Y -> Server A -> prog _)
    t d inq P c q1 q2 n nc G :
  runs d so m t inq P -> d = sd -> q1 = inq ->
  (forall n' a t' rest out, P a t' rest out ->
     reaches (Conn c (f a _ k t') rest (q2 ++ out) nc n') G) ->
  reaches (Conn c (bindM m f _ k t) q1 q2 nc n) G.
Proof.
  intros Hm -> -> Hk. destruct (Hm n) as (l & a & t' & rest & out & HP & Hs).
  destruct (Hk (n ++ l) a t' rest out HP) as (z & Hz & HG). exists z. split; [|done].
  etransitivity; [|exact Hz].
  rewrite <- (app_nil_r inq), <- (app_nil_r rest). by apply seg_server, Hs.
Qed.

Lemma client_assoc {X Y V} (m : M S X) (f : X -> M S Y) (g : Y -> M S V) k s sv q1 q2 n ns G :
  reaches (Conn (bindM m (fun a => bindM (f a) g) _ k s) sv q1 q2 n ns) G ->
  reaches (Conn (bindM (bindM m f) g _ k s) sv q1 q2 n ns) G.
Proof. done. Qed.

Lemma server_assoc {X Y V} (m : M _ X) (f : X -> M (Server A) Y) (g : Y -> M _ V) k t c q1 q2 n nc G :
  reaches (Conn c (bindM m (fun a => bindM (f a) g) _ k t) q1 q2 nc n) G ->
  reaches (Conn c (bindM (bindM m f) g _ k t) q1 q2 nc n) G.
Proof. done. Qed.

(** Who is logged in when client and server agree on the authentication. *)
Inductive agree (c : Client) : srv_obj A -> srv_obj A -> Prop :=
  | agree_none : has_creds c = false -> agree c ObjNull ObjNull
  | agree_user user pass ptr db u :
      auth_user c = Some user -> auth_pass c = Some pass ->
      (0 < length user < 256)%nat -> (0 < length pass < 256)%nat ->
      login db user pass = Some u -> agree c (ObjAuth ptr db) (ObjUser u).

Definition same_client s s' : Prop :=
  fd (rd_base s') = fd (rd_base s) /\ type (rd_base s') = type (rd_base s)
  /\ auth_user (rd_client s') = auth_user (rd_client s)
  /\ auth_pass (rd_client s') = auth_pass (rd_client s).

Context (a : address) (s0 : S) (t0 : Server A) (sa : sockaddr_in6) (fam : Z) (x' : srv_obj A).
Context (I : S -> Prop) (Hclass : class_ok co a I) (HI : I s0) (Ha : address_ok a) (Hres : resolver_ok res)
  (Hcd : cfd s0 = cd) (Hsd : sfd t0 = sd)
  (Hty : type (rd_base s0) <> HEV_SOCKS5_TYPE_NONE)
  (Htg : target res a (addr_family (base t0)) = Some (sa, fam))
  (Hsa : sockaddr_ok sa) (Hserve : serves so sa)
  (Hagree : agree (rd_client s0) (obj t0) x').

(** Both after setting the timeout. *)
Definition s1 : S := wr_base (hev_socks5_set_timeout (tcp_timeout ccfg) (rd_base s0)) s0.
Definition t1 : Server A :=
  mkServer (hev_socks5_set_timeout (tcp_timeout scfg) (base t0)) (fds0 t0) (fds1 t0) (obj t0).

(** The client after the handshake proper, as [hev_socks5_client_handshake] ends. *)
Definition client_tail (r : Z) : M S Z :=
  b <- gets rd_base ;;
  (match type b with
   | HEV_SOCKS5_TYPE_UDP_IN_TCP | HEV_SOCKS5_TYPE_UDP_IN_UDP =>
       Socks5Client.upd_base (hev_socks5_set_timeout (udp_timeout ccfg))
   | _ => ret tt
   end) ;;
  ret r.

Definition server_tail (r : Z) : M (Server A) Z :=
  if r <? 0 then ret (-1) else server_request scfg res.

Definition start (pipeline : bool) : conn (Z * S) (Z * Server A) :=
  Conn (run (hev_socks5_client_handshake ccfg pipeline) s0)
       (run (hev_socks5_server_handshake scfg res) t0) [] [] [] [].

Lemma start_reaches (pipeline : bool) G :
  reaches (Conn (bindM (if pipeline then hev_socks5_client_handshake_pipeline
                        else hev_socks5_client_handshake_standard)
                       client_tail _ (fun a s' => Ret (a, s')) s1)
                (bindM hev_socks5_server_auth server_tail _ (fun a t' => Ret (a, t')) t1)
                [] [] [] []) G ->
  reaches (start pipeline) G.
Proof. intros Hz. exact Hz. Qed.

Lemma rd_base_wr b s : rd_base (wr_base b s) = b.
Proof. unfold rd_base, wr_base. by rewrite (rd_wr _ _ _ Hclass). Qed.

Lemma s1_same : same_client s0 s1.
Proof.
  unfold same_client, s1. rewrite rd_base_wr. unfold wr_base. rewrite (rd_wr _ _ _ Hclass).
  simpl. unfold hev_socks5_set_timeout. by case_match.
Qed.

Lemma s1_inv : I s1.
Proof. by apply (inv_timeout _ _ _ Hclass). Qed.

Lemma t1_same : sfd t1 = sd /\ addr_family (base t1) = addr_family (base t0) /\ obj t1 = obj t0.
Proof. unfold sfd, t1. simpl. unfold hev_socks5_set_timeout. by case_match. Qed.

Lemma pair_client0 {X} (m : M S X) (k : X -> S -> prog _) s d inq P sv q1 q2 n ns G :
  runs d co m s inq P -> d = cd -> q2 = inq ->
  (forall n' a s' rest out, P a s' rest out ->
     reaches (Conn (k a s') sv (q1 ++ out) rest n' ns) G) ->
  reaches (Conn (m _ k s) sv q1 q2 n ns) G.
Proof. exact (pair_client m ret k s d inq P sv q1 q2 n ns G). Qed.

(** With what the server has called before. *)
Lemma pair_server_log {X} (m : M _ X) (k : X -> Server A -> prog _) t d inq P c q1 q2 n nc G :
  runs_log d so m t inq P -> d = sd -> q1 = inq ->
  (forall l a t' rest out, P a t' rest out l ->
     reaches (Conn c (k a t') rest (q2 ++ out) nc (n ++ l)) G) ->
  reaches (Conn c (m _ k t) q1 q2 nc n) G.
Proof.
  intros Hm -> -> Hk. destruct (Hm n) as (l & v & t' & rest & out & HP & Hs).
  destruct (Hk l v t' rest out HP) as (z & Hz & HG). exists z. split; [|done].
  etransitivity; [|exact Hz].
  rewrite <- (app_nil_r inq), <- (app_nil_r rest). by apply seg_server, Hs.
Qed.

Lemma pair_server0 {X} (m : M _ X) (k : X -> Server A -> prog _) t d inq P c q1 q2 n nc G :
  runs d so m t inq P -> d = sd -> q1 = inq ->
  (forall n' a t' rest out, P a t' rest out ->
     reaches (Conn c (k a t') rest (q2 ++ out) nc n') G) ->
  reaches (Conn c (m _ k t) q1 q2 nc n) G.
Proof. exact (pair_server m ret k t d inq P c q1 q2 n nc G). Qed.

Lemma client_tail_runs r s inq :
  runs cd co (client_tail r) s inq (fun r' s' rest out =>
    r' = r /\ fd (rd_base s') = fd (rd_base s) /\ type (rd_base s') = type (rd_base s)
    /\ rest = inq /\ out = []).
Proof.
  unfold client_tail. rn. unfold Socks5Client.upd_base.
  assert (E : forall v, let s' := wr_base (hev_socks5_set_timeout v (rd_base s)) s in
    fd (rd_base s') = fd (rd_base s) /\ type (rd_base s') = type (rd_base s)).
  { intros v. simpl. rewrite rd_base_wr. unfold hev_socks5_set_timeout. by case_match. }
  destruct (type (rd_base s)) eqn:Et; rn; try (destruct (E (udp_timeout ccfg)));
    split_and!; try done; congruence.
Qed.

Definition done_ok (z : conn (Z * S) (Z * Server A)) : Prop :=
  exists n m s' t', z = Conn (Ret (0, s')) (Ret (0, t')) [] [] n m
    /\ fd (rd_base s') = fd (rd_base s0) /\ type (rd_base s') = type (rd_base s0)
    /\ granted (type (rd_base s0)) t0 t' x'
    /\ (type (rd_base s0) = HEV_SOCKS5_TYPE_TCP -> connected sa t' m).

(** The client when the response is all that is left. *)
Definition client_last : M S Z :=
  r <- hev_socks5_client_read_response ;;
  if r <? 0 then ret (-1) else ret 0.

Lemma last_phase s t b n ns :
  fd (rd_base s) = fd (rd_base s0) -> type (rd_base s) = type (rd_base s0) ->
  sockaddr_ok b -> granted (type (rd_base s0)) t0 t x' ->
  (type (rd_base s0) = HEV_SOCKS5_TYPE_TCP -> connected sa t ns) ->
  reaches (Conn (bindM client_last client_tail _ (fun a s' => Ret (a, s')) s) (Ret (0, t))
    [] (response_msg HEV_SOCKS5_RES_REP_SUCC (address_of b)) n ns) done_ok.
Proof.
  intros Hfd Hty' Hb Hg Hcn. unfold client_last. apply client_assoc.
  eapply pair_client.
  { eapply (read_response_runs co a I (address_of b) s []); [done|].
    pose proof (address_of_ok b Hb) as Hok. revert Hok. unfold address_of. by case_match. }
  { unfold cfd in *. congruence. }
  { by rewrite app_nil_r. }
  intros n1 r s' rest out (-> & Hf1 & Ht1 & -> & ->). cbn -[client_tail].
  eapply (pair_client0 (client_tail 0)); [apply client_tail_runs|done|done|].
  intros n2 r s2 rest out (-> & Hf2 & Ht2 & -> & ->).
  apply reaches_now. exists n2, ns, s2, t. split_and!; try done; congruence.
Qed.

(** The server once the client is authenticated and the request has arrived. *)
Lemma server_phase c t rest q2 n ns :
  sfd t = sd -> addr_family (base t) = addr_family (base t0) -> obj t = x' ->
  (forall b t' n', sockaddr_ok b -> granted (type (rd_base s0)) t0 t' x' ->
     (type (rd_base s0) = HEV_SOCKS5_TYPE_TCP -> connected sa t' n') ->
     reaches (Conn c (Ret (0, t')) rest
       (q2 ++ response_msg HEV_SOCKS5_RES_REP_SUCC (address_of b)) n n') done_ok) ->
  reaches (Conn c (server_request scfg res _ (fun a t' => Ret (a, t')) t)
     (request_msg (type (rd_base s0)) a ++ rest) q2 n ns) done_ok.
Proof.
  intros Hfd Hfam Hobj Hk.
  eapply (pair_server_log (server_request scfg res)); [|exact Hfd|done|].
  { eapply server_request_runs; try done. by rewrite Hfam. }
  intros l r t' rest' out (-> & -> & Hg & Hcn & b & Hb & ->). apply Hk; [done| |].
  - rewrite Hobj in Hg. unfold granted in *. unfold sfd in *. rewrite Hfd in Hg. by rewrite Hsd.
  - intros Ht. destruct (Hcn Ht) as (r & Hin & Hr). exists r. split; [set_solver|done].
Qed.

(** *** Standard *)

Definition client_request : M S Z :=
  r <- hev_socks5_client_write_request ;;
  if r <? 0 then ret (-1) else client_last.

Lemma standard_request s t n ns :
  same_client s0 s -> I s -> sfd t = sd -> addr_family (base t) = addr_family (base t0) -> obj t = x' ->
  reaches (Conn (bindM client_request client_tail _ (fun a s' => Ret (a, s')) s)
    (server_request scfg res _ (fun a t' => Ret (a, t')) t) [] [] n ns) done_ok.
Proof.
  intros (Hf & Ht & _ & _) HIs Hfd Hfam Hobj. unfold client_request. apply client_assoc.
  eapply pair_client.
  { apply (write_request_runs co a I s []); try done. by rewrite Ht. }
  { unfold cfd in *. congruence. }
  { done. }
  intros n1 r s' rest out (-> & Hc & -> & ->). cbn -[client_tail client_last].
  rewrite Ht, <- (app_nil_r (request_msg _ _)).
  apply server_phase; try done. intros b t' n' Hb Hg Hcn. cbn [app].
  apply last_phase; try done; unfold rd_base in *; congruence.
Qed.

Lemma same_creds s s' : same_client s s' -> has_creds (rd_client s') = has_creds (rd_client s).
Proof. intros (_ & _ & Hu & Hp). unfold has_creds. by rewrite Hu, Hp. Qed.

Lemma same_cfd s : same_client s0 s -> cfd s = cd.
Proof. intros (Hf & _). unfold cfd in *. congruence. Qed.

(** Server: read the method and answer it, when it is the one it insists on. *)
Lemma server_hello t m rest c k q2 n nc G :
  sfd t = sd -> m = method_of (obj t) ->
  (forall n', reaches (Conn c
     ((if m =? HEV_SOCKS5_AUTH_METHOD_NONE then ret 0
       else if m =? HEV_SOCKS5_AUTH_METHOD_USER then
         r1 <- hev_socks5_server_read_auth_user ;;
         r2 <- hev_socks5_server_write_auth_user r1 ;;
         if Z.lor r1 r2 <? 0 then ret (-1) else ret 0
       else ret (-1)) _ k t) rest (q2 ++ [HEV_SOCKS5_VERSION_5; m]) nc n') G) ->
  reaches (Conn c (hev_socks5_server_auth _ k t)
    ([HEV_SOCKS5_VERSION_5; 1; m] ++ rest) q2 nc n) G.
Proof.
  intros Hfd -> Hk. unfold hev_socks5_server_auth.
  eapply pair_server; [apply server_read_auth_method_runs|done|done|].
  intros ? ? ? ? ? (-> & -> & -> & ->). cbn beta iota zeta. rewrite Z.eqb_refl, app_nil_r.
  eapply pair_server; [apply server_write_auth_method_runs|done|done|].
  intros n1 ? ? ? ? (-> & -> & -> & ->). cbn beta iota zeta.
  replace (u8 (method_of (obj t))) with (method_of (obj t)); [apply Hk|].
  unfold method_of. by destruct (obj_ptr (obj t)).
Qed.

(** Server: check the credentials and confirm them. *)
Lemma server_login t ptr db user pass u rest c k q2 n nc G :
  sfd t = sd -> obj t = ObjAuth ptr db ->
  (0 < length user < 256)%nat -> (0 < length pass < 256)%nat -> login db user pass = Some u ->
  (forall n', reaches (Conn c (k 0 (with_obj t (ObjUser u))) rest (q2 ++ [1; 0]) nc n') G) ->
  reaches (Conn c ((r1 <- hev_socks5_server_read_auth_user ;;
         r2 <- hev_socks5_server_write_auth_user r1 ;;
         if Z.lor r1 r2 <? 0 then ret (-1) else ret 0) _ k t)
    (creds_msg user pass ++ rest) q2 nc n) G.
Proof.
  intros Hfd Ho Hu Hp Hl Hk.
  eapply pair_server; [by apply (server_read_auth_user_runs so t ptr db user pass rest)|done|done|].
  rewrite Hl. intros ? ? ? ? ? (-> & -> & -> & ->). cbn beta. rewrite app_nil_r.
  eapply pair_server; [apply server_write_auth_user_runs|done|done|].
  intros n1 ? ? ? ? (-> & -> & -> & ->). apply Hk.
Qed.

Lemma standard_reaches : reaches (start false) done_ok.
Proof.
  apply start_reaches. unfold hev_socks5_client_handshake_standard.
  pose proof s1_same as Hs1. pose proof (same_cfd _ Hs1) as Hc1.
  destruct t1_same as (Hfd1 & Hfam1 & Ho1).
  apply client_assoc. eapply pair_client; [apply write_auth_methods_runs|done|done|].
  intros n1 r s rest out (-> & -> & -> & ->). cbn [app].
  unfold methods_msg. rewrite (same_creds _ _ Hs1).
  change (bindM hev_socks5_server_auth server_tail _ ?k t1)
    with (hev_socks5_server_auth _ (fun a t => server_tail a _ k t) t1).
  destruct Hs1 as (Hf1 & Ht1 & Hu1 & Hp1).
  inversion Hagree as [Hc Ho Hx|user pass ptr db u Hu Hp Hlu Hlp Hlog Ho Hx].
  - rewrite Hc. eapply (server_hello _ _ []); [done|by rewrite Ho1, <- Ho|]. intros n2. cbn [app].
    eapply (pair_client hev_socks5_client_read_auth_method);
      [apply (read_auth_method_runs _ _ 0 [])|done|done|].
    intros n3 ? ? ? ? (-> & -> & -> & ->). cbn [app].
    apply standard_request; try done; [apply s1_inv|congruence].
  - assert (Hc : has_creds (rd_client s0) = true) by (unfold has_creds; by rewrite Hu, Hp).
    rewrite Hc. eapply (server_hello _ _ []); [done|by rewrite Ho1, <- Ho|]. intros n2. cbn [app].
    eapply (pair_client hev_socks5_client_read_auth_method);
      [apply (read_auth_method_runs _ _ 2 [])|done|done|].
    intros n3 ? ? ? ? (-> & -> & -> & ->). cbn [app].
    eapply (pair_client hev_socks5_client_write_auth_creds);
      [apply (write_auth_creds_runs _ _ [] user pass); (congruence || lia)|done|done|].
    intros n4 ? ? ? ? (-> & -> & -> & ->). cbn [app].
    rewrite <- (app_nil_r (creds_msg _ _)).
    eapply (server_login t1 ptr db user pass u); try done. intros n5. cbn [app].
    eapply (pair_client hev_socks5_client_read_auth_creds);
      [apply (read_auth_creds_runs _ _ 0 [])|done|done|].
    intros n6 ? ? ? ? (-> & -> & -> & ->). cbn [app].
    apply standard_request; try done. apply s1_inv.
Qed.

(** *** Pipeline *)

(** The client once everything is sent. *)
Definition client_replies : M S Z :=
  m <- hev_socks5_client_read_auth_method ;;
  if m <? 0 then ret (-1) else
  r <- (if m =? HEV_SOCKS5_AUTH_METHOD_USER then
          r <- hev_socks5_client_read_auth_creds ;;
          if r <? 0 then ret (-1) else ret 0
        else if negb (m =? HEV_SOCKS5_AUTH_METHOD_NONE) then ret (-1) else ret 0) ;;
  if r <? 0 then ret (-1) else client_last.

Lemma pipeline_sends creds sv ns G :
  (forall inq, runs cd co hev_socks5_client_write_auth_creds s1 inq (ends 0 s1 inq creds)) ->
  (forall s n, rd_client s = rd_client s1 ->
     reaches (Conn (bindM client_replies client_tail _ (fun a s' => Ret (a, s')) s) sv
       (methods_msg (rd_client s0) ++ creds ++ request_msg (type (rd_base s0)) a) [] n ns) G) ->
  reaches (Conn (bindM hev_socks5_client_handshake_pipeline client_tail _
                  (fun a s' => Ret (a, s')) s1) sv [] [] [] ns) G.
Proof.
  intros Hcr Hk. unfold hev_socks5_client_handshake_pipeline.
  pose proof s1_same as Hs1. pose proof (same_cfd _ Hs1) as Hc1.
  apply client_assoc. eapply pair_client; [apply write_auth_methods_runs|done|done|].
  intros n1 ? ? ? ? (-> & -> & -> & ->). cbn [app].
  eapply (pair_client hev_socks5_client_write_auth_creds); [apply Hcr|done|done|].
  intros n2 ? ? ? ? (-> & -> & -> & ->).
  eapply (pair_client hev_socks5_client_write_request); [|exact Hc1|done|].
  { apply (write_request_runs co a I s1 []); try done; [apply s1_inv|]. by destruct Hs1 as (_ & -> & _). }
  intros n3 r s' rest out (-> & Hc & -> & ->). rewrite <- app_assoc.
  unfold methods_msg. rewrite (same_creds _ _ Hs1).
  destruct Hs1 as (_ & -> & _). by apply Hk.
Qed.

Lemma pipeline_reaches : reaches (start true) done_ok.
Proof.
  apply start_reaches.
  pose proof s1_same as Hs1. pose proof (same_cfd _ Hs1) as Hc1.
  destruct t1_same as (Hfd1 & Hfam1 & Ho1). pose proof (same_creds _ _ Hs1) as Hcr.
  destruct Hs1 as (Hf1 & Ht1 & Hu1 & Hp1). unfold methods_msg.
  inversion Hagree as [Hc Ho Hx|user pass ptr db u Hu Hp Hlu Hlp Hlog Ho Hx].
  - apply (pipeline_sends []).
    { intros inq. rewrite <- Hc1. apply write_auth_creds_none. congruence. }
    intros s n Hs. unfold methods_msg. rewrite Hc.
    eapply (server_hello _ _ _); [done|by rewrite Ho1, <- Ho|]. intros n2. cbn [app].
    rewrite <- (app_nil_r (request_msg _ _)).
    apply server_phase; try done; [congruence|]. intros b t' n' Hb Hg Hcn.
    eapply (pair_client hev_socks5_client_read_auth_method);
      [apply (read_auth_method_runs _ _ 0)|unfold cfd, rd_base in *; congruence|done|].
    intros n3 ? ? ? ? (-> & -> & -> & ->).
    apply last_phase; try done; unfold rd_base in *; congruence.
  - assert (Hc : has_creds (rd_client s0) = true) by (unfold has_creds; by rewrite Hu, Hp).
    apply (pipeline_sends (creds_msg user pass)).
    { intros inq. rewrite <- Hc1. apply (write_auth_creds_runs _ _ _ user pass); (congruence || lia). }
    intros s n Hs. unfold methods_msg. rewrite Hc.
    eapply (server_hello _ _ _); [done|by rewrite Ho1, <- Ho|]. intros n2. cbn [app].
    eapply (server_login t1 ptr db user pass u); try done. intros n5.
    rewrite <- (app_nil_r (request_msg _ _)).
    apply server_phase; try done. intros b t' n' Hb Hg Hcn. cbn [app].
    eapply (pair_client hev_socks5_client_read_auth_method);
      [apply (read_auth_method_runs _ _ 2)|unfold cfd, rd_base in *; congruence|done|].
    intros n3 ? ? ? ? (-> & -> & -> & ->).
    eapply (pair_client hev_socks5_client_read_auth_creds);
      [apply (read_auth_creds_runs _ _ 0)|unfold cfd, rd_base in *; congruence|done|].
    intros n4 ? ? ? ? (-> & -> & -> & ->).
    apply last_phase; try done; unfold rd_base in *; congruence.
Qed.

End Handshake.

(** ** Every interleaving

    However the calls of the two parties are interleaved from [c] on, there are
    at most [N] of them, nobody gets stuck, and the end is the same [z]. *)
Definition always_ends {T U} (cd sd : Z) (co so : oracle) (c : conn T U) (G : conn T U -> Prop) :=
  exists N z, G z /\ forall m y, nsteps (pstep cd sd co so) m c y ->
    (m <= N)%nat /\ nsteps (pstep cd sd co so) (N - m) y z.

Lemma pstep_finished {T U} cd sd co so (x : T) (y : U) q1 q2 n m :
  nf (pstep cd sd co so) (Conn (Ret x) (Ret y) q1 q2 n m).
Proof. intros [z Hz]. by inversion Hz. Qed.

Lemma reaches_always {S A} (cd sd : Z) (co so : oracle) c (G : conn (Z * S) (Z * Server A) -> Prop) :
  (forall z, G z -> exists x y q1 q2 n m, z = Conn (Ret x) (Ret y) q1 q2 n m) ->
  reaches co so cd sd c G -> always_ends cd sd co so c G.
Proof.
  intros HG (z & Hz & HGz). apply rtc_nsteps in Hz as [N Hz]. exists N, z. split; [done|].
  intros m y Hm. eapply pstep_determinate; eauto.
  destruct (HG z HGz) as (? & ? & ? & ? & ? & ? & ->). apply pstep_finished.
Qed.

(** Both have ended with success, all bytes have been read, and the server is
    ready to serve a request of type [ty] on behalf of [x]; for a request of a connection,
    one of its calls was a successful [connect] of its descriptor to [sa]. *)
Definition established {S A} (ty : HevSocks5Type) (t : Server A) (x : srv_obj A) (sa : sockaddr_in6)
    (z : conn (Z * S) (Z * Server A)) : Prop :=
  exists n m s' t', z = Conn (Ret (0, s')) (Ret (0, t')) [] [] n m /\ granted ty t t' x
    /\ (ty = HEV_SOCKS5_TYPE_TCP -> connected sa t' m).

Lemma handshake_established {S} `{ClientClass S} {A} `{Authenticator A} ccfg scfg res co so
    (pipeline : bool) a (s0 : S) (t0 : Server A) sa fam x I :
  class_ok co a I -> I s0 -> address_ok a -> resolver_ok res ->
  type (rd_base s0) <> HEV_SOCKS5_TYPE_NONE ->
  target res a (addr_family (base t0)) = Some (sa, fam) -> sockaddr_ok sa -> serves so sa ->
  agree (rd_client s0) (obj t0) x ->
  always_ends (cfd s0) (sfd t0) co so
    (Conn (run (hev_socks5_client_handshake ccfg pipeline) s0)
          (run (hev_socks5_server_handshake scfg res) t0) [] [] [] [])
    (established (type (rd_base s0)) t0 x sa).
Proof.
  intros. apply reaches_always; [intros z (? & ? & ? & ? & -> & _); eauto 8|].
  assert (Hr : reaches co so (cfd s0) (sfd t0)
    (start ccfg scfg res s0 t0 pipeline) (done_ok s0 t0 sa x)).
  { destruct pipeline; [eapply pipeline_reaches|eapply standard_reaches]; eauto. }
  destruct Hr as (z & Hz & n & m & s' & t' & -> & _ & _ & Hg & Hcn).
  eexists. split; [exact Hz|]. by exists n, m, s', t'.
Qed.

(** *** The TCP client *)

Lemma tcp_class_ok bnd co a :
  class_ok (H := ClientTCP.tcp_class bnd) co a (fun c => ClientTCP.addr c = Some (wire a)).
Proof.
  split; try done.
  - intros c inq Hc. exists []. rewrite app_nil_r.
    cbn -[runs]. unfold ClientTCP.hev_socks5_client_tcp_get_upstream_addr. rn. by rewrite Hc.
  - intros s inq b _. cbn -[runs]. unfold ClientTCP.hev_socks5_client_tcp_set_upstream_addr. rn. done.
Qed.

(** C1. The TCP client and the server understand each other: whatever address
    the client asks for (IPv4, IPv6 or name), with or without authentication, in
    standard or pipelined mode, and however the two tasks are scheduled, both
    handshakes end with success after a bounded number of calls, every byte sent
    is consumed, the server has identified the user, and among the calls it made is a
    successful [connect] of the descriptor it will serve to the very address the client
    asked for ([sa], the address itself or what the resolver gives for the name).  The
    client and the server have to agree on the authentication ([agree]: the user and
    the password of the client, of 1 to 255 bytes each, are those of a user of the server,
    or both use none), and the environment to grant descriptors and the connection to that address
    only. *)
Theorem tcp_handshake_interop {A} `{Authenticator A} (ccfg scfg : Settings) (res : Resolver)
    (bnd : Z -> sockaddr_in6 -> M ClientTCP.HevSocks5ClientTCP Z) (co so : oracle)
    (pipeline : bool) (a : address) (c : ClientTCP.HevSocks5ClientTCP) (t : Server A)
    (sa : sockaddr_in6) (fam : Z) (x : srv_obj A) :
  address_ok a -> resolver_ok res ->
  ClientTCP.addr c = Some (wire a) ->
  type (Socks5Client.base (ClientTCP.client c)) = HEV_SOCKS5_TYPE_TCP ->
  target res a (addr_family (base t)) = Some (sa, fam) -> sockaddr_ok sa -> serves so sa ->
  agree (ClientTCP.client c) (obj t) x ->
  always_ends (fd (Socks5Client.base (ClientTCP.client c))) (fd (base t)) co so
    (Conn (run (hev_socks5_client_handshake (H := ClientTCP.tcp_class bnd) ccfg pipeline) c)
          (run (hev_socks5_server_handshake scfg res) t) [] [] [] [])
    (established HEV_SOCKS5_TYPE_TCP t x sa).
Proof.
  intros Ha Hr Hc Hty Htg Hsa Hs Hag. rewrite <- Hty.
  apply (handshake_established (H := ClientTCP.tcp_class bnd) ccfg scfg res co so pipeline a c t
           sa fam x _ (tcp_class_ok bnd co a)); try done.
  change (type (Socks5Client.base (ClientTCP.client c)) <> HEV_SOCKS5_TYPE_NONE). by rewrite Hty.
Qed.

(** *** The UDP client *)

(** The UDP client asks for the unspecified address of its family. *)
Definition unspecified (family : Z) : address :=
  if family =? HEV_SOCKS5_ADDR_FAMILY_IPV4 then AIPv4 (replicate 4 0) 0
  else AIPv6 (replicate 16 0) 0.

Lemma unspecified_ok family : address_ok (unspecified family).
Proof.
  unfold unspecified. case_test; split_and!; try done; repeat constructor; unfold is_u8; lia.
Qed.

Lemma udp_class_ok cfg res co family :
  resolver_ok res -> (forall sa, serves co sa) -> (forall n z, co n _ (Malloc z) = true) ->
  family = HEV_SOCKS5_ADDR_FAMILY_IPV4 \/ family = HEV_SOCKS5_ADDR_FAMILY_IPV6 ->
  class_ok (H := ClientUDP.udp_class cfg res hev_socks5_bind) co (unspecified family)
    (fun c => addr_family (Socks5Client.base (ClientUDP.client c)) = family).
Proof.
  intros Hr Hs Hm Hf. split; try done.
  - intros v s Hs'. cbn. unfold hev_socks5_set_timeout. by case_match.
  - intros s inq HI. exists []. rewrite app_nil_r. cbn -[runs].
    unfold ClientUDP.hev_socks5_client_udp_get_upstream_addr, hev_socks5_get_addr_family. rn.
    rewrite HI. destruct Hf as [-> | ->]; rn; (apply runs_local; [done|]); intros n; rn;
      by rewrite Hm.
  - intros s inq b Hb. cbn -[runs]. unfold ClientUDP.hev_socks5_client_udp_set_upstream_addr. rn.
    case_bool_decide; [rn; done|].
    assert (Hok : address_ok b) by (by destruct b).
    pose proof (into_sockaddr6_wire res b [] zero_sockaddr6
      (addr_family (Socks5Client.base (ClientUDP.client s))) Hr Hok eq_refl) as Hi.
    rewrite app_nil_r in Hi. unfold hev_socks5_get_addr_family.
    destruct (target res b _) as [[sa fam]|] eqn:Et; [|by destruct b].
    rewrite Hi. rn. eapply runs_mono; [|by apply (socket_runs _ _ _ _ _ inq sa)].
    intros d s' rest out (Hd & -> & -> & ->). cbn beta.
    rewrite (proj2 (Z.ltb_ge _ _)) by done. unfold hev_socks5_bind. rn.
    apply runs_local; [done|]. intros n.
    rewrite (proj2 (Z.ltb_ge _ _)) by apply (connect_ok _ _ (Hs sa)). rn. done.
Qed.

(** The UDP client and the server understand each other in both of its
    modes (datagrams in the TCP stream, or an association with a datagram socket):
    both handshakes end with success, however they are scheduled, and the server
    has the descriptors the mode needs. *)
Theorem udp_handshake_interop {A} `{Authenticator A} (ccfg scfg : Settings) (res : Resolver)
    (co so : oracle) (pipeline : bool) (c : ClientUDP.HevSocks5ClientUDP) (t : Server A)
    (ty : HevSocks5Type) (x : srv_obj A) :
  resolver_ok res ->
  (forall sa, serves co sa) -> (forall n z, co n _ (Malloc z) = true) -> (forall sa, serves so sa) ->
  type (Socks5Client.base (ClientUDP.client c)) = ty ->
  ty = HEV_SOCKS5_TYPE_UDP_IN_TCP \/ ty = HEV_SOCKS5_TYPE_UDP_IN_UDP ->
  addr_family (Socks5Client.base (ClientUDP.client c)) = HEV_SOCKS5_ADDR_FAMILY_IPV4 \/
  addr_family (Socks5Client.base (ClientUDP.client c)) = HEV_SOCKS5_ADDR_FAMILY_IPV6 ->
  agree (ClientUDP.client c) (obj t) x ->
  exists sa, always_ends (fd (Socks5Client.base (ClientUDP.client c))) (fd (base t)) co so
    (Conn (run (hev_socks5_client_handshake
                  (H := ClientUDP.udp_class ccfg res hev_socks5_bind) ccfg pipeline) c)
          (run (hev_socks5_server_handshake scfg res) t) [] [] [] [])
    (established ty t x sa).
Proof.
  intros Hr Hco Hm Hso Hty Htyp Hfam Hag. subst ty.
  pose proof (unspecified_ok (addr_family (Socks5Client.base (ClientUDP.client c)))) as Hu.
  destruct (target res (unspecified (addr_family (Socks5Client.base (ClientUDP.client c))))
              (addr_family (base t))) as [[sa fam]|] eqn:Et.
  2: { by destruct Hfam as [E | E]; rewrite E in Et. }
  exists sa. apply (handshake_established (H := ClientUDP.udp_class ccfg res hev_socks5_bind) ccfg scfg res
    co so pipeline _ c t sa fam x _
    (udp_class_ok ccfg res co _ Hr Hco Hm Hfam)); try done.
  - change (type (Socks5Client.base (ClientUDP.client c)) <> HEV_SOCKS5_TYPE_NONE).
    by destruct Htyp as [-> | ->].
  - destruct Hfam as [E | E]; rewrite E in Et; injection Et as <- <-; split_and!; try done;
      repeat constructor; unfold is_u8; lia.
Qed.

(** *** A concrete environment *)

Module Demo.
Import UserList.

Definition local_addr : sockaddr_in6 := SockAddr6 AF_INET6 (htons 1080) (mapped [127; 0; 0; 1]).

(** The kernel of the demo: it connects to [sa] only. *)
Definition kernel (sa : sockaddr_in6) : oracle := fun n X e =>
  match e in sys X return X with
  | Recv _ _ _ | RecvMsg _ _ _ | SysRecv _ _ => (-1, [])
  | RecvMmsg _ _ _ => (-1, [])
  | Send _ _ _ | SendMsg _ _ _ | SendMmsg _ _ _ | SysConnect _ _ => -1
  | Connect _ a => if bool_decide (sin6_addr a = sin6_addr sa /\ sin6_port a = sin6_port sa) then 0 else -1
  | Socket _ _ => 20 + Z.of_nat (length n)
  | SetSockOpt _ _ _ _ | Bind _ _ | TaskAddFd _ | TaskModFd _ => 0
  | GetSockName _ => (0, local_addr)
  | Close _ | TaskDelFd _ | Free _ | ObjectRef _ | ObjectUnref _ | TaskYield _ => tt
  | Errno | TaskSleep _ => 0
  | Malloc _ => true
  | TcpSplice _ _ | UdpSplice _ => 0
  end.

Lemma kernel_serves sa : serves (kernel sa) sa.
Proof.
  split; intros; cbn; try lia.
  - by rewrite bool_decide_true.
  - split; [done|]. split_and!; try done.
    unfold mapped, v4mapped_prefix. simpl. repeat constructor; unfold is_u8; lia.
Qed.

Definition tcp_client : ClientTCP.HevSocks5ClientTCP :=
  ClientTCP.mkTCP
    (mkClient (set_fd 3 (hev_socks5_construct HEV_SOCKS5_TYPE_TCP)) (Some [97]) (Some [112; 119]))
    (Some (wire (AIPv4 [93; 184; 216; 34] 443))).

Definition server : Server (list HevSocks5User) :=
  mkServer (base (hev_socks5_server_construct (A := list HevSocks5User) 4)) (-1) (-1)
    (ObjAuth 2000 [alice]).

Definition target_addr : sockaddr_in6 := sockaddr_of (mapped [93; 184; 216; 34]) 443.

Lemma target_addr_ok : sockaddr_ok target_addr.
Proof.
  split_and!; try done. unfold target_addr, sockaddr_of, mapped, v4mapped_prefix. simpl.
  repeat constructor; unfold is_u8; lia.
Qed.

Lemma demo_address_ok : address_ok (AIPv4 [93; 184; 216; 34] 443).
Proof. split_and!; try done. repeat constructor; unfold is_u8; lia. Qed.

Lemma demo_agree : agree (ClientTCP.client tcp_client) (obj server) (ObjUser alice).
Proof. by eapply agree_user; [reflexivity..| | |]; simpl; try lia. Qed.

Lemma tcp_handshake_interop_witness :
  always_ends 3 4 (kernel target_addr) (kernel target_addr)
    (Conn (run (hev_socks5_client_handshake (H := ClientTCP.tcp_class hev_socks5_bind)
                  default_settings true) tcp_client)
          (run (hev_socks5_server_handshake default_settings no_resolver) server) [] [] [] [])
    (established HEV_SOCKS5_TYPE_TCP server (ObjUser alice) target_addr).
Proof.
  apply (tcp_handshake_interop default_settings default_settings no_resolver hev_socks5_bind
    (kernel target_addr) (kernel target_addr) true (AIPv4 [93; 184; 216; 34] 443)
    tcp_client server target_addr HEV_SOCKS5_ADDR_FAMILY_IPV4 (ObjUser alice)).
  - apply demo_address_ok.
  - apply no_resolver_ok.
  - reflexivity.
  - reflexivity.
  - reflexivity.
  - apply target_addr_ok.
  - apply kernel_serves.
  - apply demo_agree.
Defined.

Definition udp_client : ClientUDP.HevSocks5ClientUDP :=
  ClientUDP.mkUDP
    (mkClient (hev_socks5_set_addr_family HEV_SOCKS5_ADDR_FAMILY_IPV4
                (set_fd 3 (hev_socks5_construct HEV_SOCKS5_TYPE_UDP_IN_UDP)))
       (Some [97]) (Some [112; 119])) (-1).

(** A kernel that connects anywhere. *)
Definition open_kernel : oracle := fun n X e =>
  match e in sys X return X -> X with
  | Connect _ _ => fun _ => 0
  | _ => fun x => x
  end (kernel target_addr n X e).

Lemma open_kernel_serves sa : serves open_kernel sa.
Proof.
  split; intros; cbn; try lia.
  split; [done|]. split_and!; try done.
  unfold mapped, v4mapped_prefix. simpl. repeat constructor; unfold is_u8; lia.
Qed.

Lemma udp_handshake_interop_witness :
  exists sa, always_ends 3 4 open_kernel open_kernel
    (Conn (run (hev_socks5_client_handshake
                  (H := ClientUDP.udp_class default_settings no_resolver hev_socks5_bind)
                  default_settings false) udp_client)
          (run (hev_socks5_server_handshake default_settings no_resolver) server) [] [] [] [])
    (established HEV_SOCKS5_TYPE_UDP_IN_UDP server (ObjUser alice) sa).
Proof.
  apply (udp_handshake_interop default_settings default_settings no_resolver open_kernel open_kernel
    false udp_client server).
  - apply no_resolver_ok.
  - apply open_kernel_serves.
  - reflexivity.
  - apply open_kernel_serves.
  - reflexivity.
  - by right.
  - by left.
  - by eapply agree_user; [reflexivity..| | |]; simpl; try lia.
Defined.

End Demo.
