(* ===== verification/Socks5Safety.v ===== *)
(** * The server against every client

    Properties of [Socks5Server] for every behaviour of the peer, the kernel and
    the task system ([wp] of [Prog]): the server runs without undefined behaviour,
    releases what it acquires, and serves nobody it has not authenticated. *)

From S2P Require Import Prelude TaskIO Socks5Addr Prog Socks5 Auth Socks5Server.

(** ** What a trace shows *)

(** The bytes received on [d]. *)
Definition item_received (d : Z) (i : item) (acc : list Z) : list Z :=
  match i with
  | @Item _ (Recv d' _ _) x => if d' =? d then acc ++ x.2 else acc
  | _ => acc
  end.
Definition received (d : Z) (tr : list item) : list Z :=
  foldl (fun acc i => item_received d i acc) [] tr.

(** References taken on the object [p], less those given back. *)
Definition item_refs (p : Z) (i : item) (n : Z) : Z :=
  match i with
  | @Item _ (ObjectRef q) _ => if q =? p then n + 1 else n
  | @Item _ (ObjectUnref q) _ => if q =? p then n - 1 else n
  | _ => n
  end.
Definition refs (p : Z) (tr : list item) : Z := foldl (fun n i => item_refs p i n) 0 tr.

(** Calls that act for the client: sockets, connections, data transfer. *)
Definition item_served (i : item) (n : nat) : nat :=
  match i with
  | @Item _ (Socket _ _) _ | @Item _ (Connect _ _) _ | @Item _ (Bind _ _) _
  | @Item _ (TcpSplice _ _) _ | @Item _ (UdpSplice _) _ => S n
  | _ => n
  end.
Definition served (tr : list item) : nat := foldl (fun n i => item_served i n) 0%nat tr.

Lemma received_snoc d tr i : received d (tr ++ [i]) = item_received d i (received d tr).
Proof. unfold received. by rewrite foldl_app. Qed.
Lemma refs_snoc p tr i : refs p (tr ++ [i]) = item_refs p i (refs p tr).
Proof. unfold refs. by rewrite foldl_app. Qed.
Lemma served_snoc tr i : served (tr ++ [i]) = item_served i (served tr).
Proof. unfold served. by rewrite foldl_app. Qed.

(** Two traces that show the same to everybody but the client. *)
Record silent (tr tr' : list item) : Prop := {
  silent_open : open_fds tr' = open_fds tr;
  silent_refs : forall p, refs p tr' = refs p tr;
  silent_served : served tr' = served tr
}.

#[global] Instance silent_preorder : PreOrder silent.
Proof.
  split; [by split|]. intros x y z [] []. split; congruence.
Qed.

(** Calls that are silent. *)
Definition quiet {X} (e : sys X) : bool :=
  match e with
  | Recv _ _ _ | Send _ _ _ | SendMsg _ _ _ | SetSockOpt _ _ _ _ | GetSockName _
  | TaskAddFd _ | TaskModFd _ | TaskDelFd _ | Malloc _ | Free _ => true
  | _ => false
  end.

Lemma silent_item {X} tr (e : sys X) x : quiet e = true -> silent tr (tr ++ [Item e x]).
Proof.
  intros He. split; intros; rewrite ?open_fds_snoc, ?refs_snoc, ?served_snoc; by destruct e.
Qed.

(** The bytes of [d] only grow. *)
Definition more_received (d : Z) (tr tr' : list item) : Prop :=
  exists bs, received d tr' = received d tr ++ bs.

#[global] Instance more_received_preorder d : PreOrder (more_received d).
Proof.
  split; [intros tr; exists []; by rewrite app_nil_r|].
  intros x y z [b1 E1] [b2 E2]. exists (b1 ++ b2). by rewrite E2, E1, app_assoc.
Qed.

Lemma more_received_item {X} d tr (e : sys X) x : more_received d tr (tr ++ [Item e x]).
Proof.
  unfold more_received. rewrite received_snoc.
  destruct e; simpl; try (exists []; by rewrite app_nil_r).
  case_test; [by eexists|exists []; by rewrite app_nil_r].
Qed.

(** [silent], and nothing is known of what is received. *)
Definition calm (tr tr' : list item) : Prop :=
  silent tr tr' /\ forall d, more_received d tr tr'.

#[global] Instance calm_preorder : PreOrder calm.
Proof.
  split; [by split|]. intros x y z [? M1] [? M2]. split; [by transitivity y|].
  intros d. by transitivity y.
Qed.

(** ** Symbolic execution *)

Lemma spec_quiet {S X} (e : sys X) (s : S) tr (P : X -> S -> list item -> Prop) :
  quiet e = true ->
  (forall x tr', answer_ok tr e x -> calm tr tr' -> P x s tr') ->
  spec (call e) s tr P.
Proof.
  intros He HP. apply spec_call. intros x Hx. apply HP; [done|].
  split; [by apply silent_item|]. intros d. apply more_received_item.
Qed.

(** A receive of [len] bytes that fit the buffer. *)
Lemma spec_recv_into {S} (s : S) tr cap d len (P : _ -> S -> list item -> Prop) :
  0 <= len <= cap ->
  (forall n bs tr', bytes_ok bs -> (n = len -> Z.of_nat (length bs) = len) ->
     calm tr tr' -> received d tr' = received d tr ++ bs -> P (n, bs) s tr') ->
  spec (recv_into cap d len) s tr P.
Proof.
  intros Hl HP. unfold recv_into. rewrite (proj2 (Z.leb_le _ _)) by lia.
  apply spec_call. intros [n bs] [Hb Hc]. apply HP; auto.
  - intros ->. simpl in Hc. destruct Hc as [[_ Hc]|[Hc _]]; lia.
  - split; [by apply silent_item|]. intros d'. apply more_received_item.
  - rewrite received_snoc. simpl. by rewrite Z.eqb_refl.
Qed.

Ltac sp1 :=
  match goal with
  | |- spec (bindM _ _) _ _ _ => apply spec_bind
  | |- spec (gets _) _ _ _ => apply spec_gets
  | |- spec (modify _) _ _ _ => apply spec_modify
  | |- spec (ret _) _ _ _ => apply spec_ret
  | |- spec (call _) _ _ _ => apply spec_quiet; [reflexivity|]; intros ? ? ? ?
  | |- spec (recv_into _ _ _) _ _ _ => apply spec_recv_into; [lia|]; intros ? ? ? ? ? ? ?
  | |- spec (if ?b then _ else _) _ _ _ => let E := fresh "E" in destruct b eqn:E; bool_to_prop
  | |- spec (let '(_, _) := ?p in _) _ _ _ =>
      first [is_var p; destruct p | let E := fresh "E" in destruct p eqn:E]
  end; cbn beta iota zeta delta [id].
Ltac sp := repeat sp1.

(** Chains of calm stretches. *)
Ltac calm := first [done | repeat (etransitivity; [eassumption|]); done].

Lemma nthb_u8 bs i : bytes_ok bs -> is_u8 (nthb bs i).
Proof.
  intros H. unfold nthb. destruct (bs !! i) as [b|] eqn:E; [|unfold is_u8; simpl; lia].
  eapply Forall_lookup_1 in H; eauto.
Qed.

(** ** The server *)

Section Server.
Context {A : Type} `{Authenticator A} (cfg : Settings) (res : Resolver).
Implicit Types s : HevSocks5Server A.

Abbreviation sfd s := (fd (base s)).

(** References the server itself holds on [q]. *)
Definition held (o : srv_obj A) (q : Z) : Z :=
  match obj_ptr o with Some p => if p =? q then 1 else 0 | None => 0 end.

(** The bytes of a login (RFC 1929). *)
Definition login_msg (name pass : list Z) : list Z :=
  1 :: Z.of_nat (length name) :: name ++ Z.of_nat (length pass) :: pass.

(** What every function of the server leaves alone. *)
Record frame s (tr : list item) s' (tr' : list item) : Prop := {
  frame_fd : sfd s' = sfd s;
  frame_refs : forall q, refs q tr' - held (obj s') q = refs q tr - held (obj s) q;
  frame_received : more_received (sfd s) tr tr'
}.

Lemma frame_refl s tr : frame s tr s tr.
Proof. by split. Qed.

Lemma frame_trans s tr s1 tr1 s2 tr2 :
  frame s tr s1 tr1 -> frame s1 tr1 s2 tr2 -> frame s tr s2 tr2.
Proof.
  intros [F1 R1 M1] [F2 R2 M2]. split; [congruence|intros q; by rewrite R2, R1|].
  rewrite F1 in M2. by transitivity tr1.
Qed.

(** A calm stretch that leaves the object alone. *)
Lemma frame_calm s tr s' tr' :
  sfd s' = sfd s -> obj s' = obj s -> calm tr tr' -> frame s tr s' tr'.
Proof. intros Hf Ho [Hs Hm]. split; [done| |done]. intros q. by rewrite Ho, (silent_refs _ _ Hs). Qed.

Definition method_of (o : srv_obj A) : Z :=
  match obj_ptr o with
  | Some _ => HEV_SOCKS5_AUTH_METHOD_USER
  | None => HEV_SOCKS5_AUTH_METHOD_NONE
  end.

Lemma read_auth_method_spec s tr :
  spec hev_socks5_server_read_auth_method s tr (fun m s' tr' =>
    s' = s /\ calm tr tr' /\ (m = -1 \/ m = method_of (obj s))).
Proof.
  unfold hev_socks5_server_read_auth_method. sp; try (split_and!; auto; calm).
  assert (Hml : is_u8 (nthb bs 1)) by (by apply nthb_u8). unfold is_u8 in Hml.
  sp; split_and!; auto; try calm. fold (method_of (obj s)). destruct (existsb _ _); auto.
Qed.

Lemma write_auth_method_spec s tr m :
  spec (hev_socks5_server_write_auth_method m) s tr (fun r s' tr' =>
    (r = 0 \/ r = -1) /\ s' = s /\ calm tr tr').
Proof. unfold hev_socks5_server_write_auth_method. sp; split_and!; auto; calm. Qed.

Lemma write_auth_user_spec s tr m :
  spec (hev_socks5_server_write_auth_user m) s tr (fun r s' tr' =>
    (r = 0 \/ r = -1) /\ s' = s /\ calm tr tr').
Proof. unfold hev_socks5_server_write_auth_user. sp; split_and!; auto; calm. Qed.

Lemma login_bytes head nm pass :
  length head = 2%nat -> nthb head 0 = 1 -> 0 <= nthb head 1 ->
  Z.of_nat (length nm) = nthb head 1 + 1 ->
  Z.of_nat (length pass) = nthb nm (Z.to_nat (nthb head 1)) ->
  head ++ nm ++ pass = login_msg (take (Z.to_nat (nthb head 1)) nm) pass.
Proof.
  intros Hh H0 H1 Hn Hp. destruct head as [|h0 [|h1 [|]]]; simpl in Hh; try lia.
  change (nthb [h0; h1] 0) with h0 in H0. change (nthb [h0; h1] 1) with h1 in *. subst h0.
  destruct nm as [|x nm] using rev_ind; [simpl in Hn; unfold login_msg; lia|]. clear IHnm.
  rewrite length_app in Hn. simpl in Hn.
  assert (E : Z.to_nat h1 = length nm) by lia. rewrite E in *.
  unfold nthb in Hp. rewrite list_lookup_middle in Hp by done. simpl in Hp.
  unfold login_msg. rewrite take_app_length. simpl. rewrite Hp, <- app_assoc.
  simpl. do 2 f_equal. lia.
Qed.

(** The server has been shown the name and the password of [u]. *)
Definition logged_in (a : A) (d : Z) (tr tr' : list item) (u : HevSocks5User) : Prop :=
  exists name pre post, authenticator_get a name = Some u
    /\ received d tr' = received d tr ++ pre ++ login_msg name (u_pass u) ++ post.

Lemma logged_in_trans a d tr tr1 tr2 tr3 u :
  more_received d tr tr1 -> logged_in a d tr1 tr2 u -> more_received d tr2 tr3 ->
  logged_in a d tr tr3 u.
Proof.
  intros [b0 E0] (name & pre & post & Hg & E) [b1 E1].
  exists name, (b0 ++ pre), (post ++ b1). split; [done|].
  rewrite E1, E, E0. by rewrite <- !app_assoc.
Qed.

Lemma read_auth_user_spec s tr ptr a :
  obj s = ObjAuth ptr a ->
  spec hev_socks5_server_read_auth_user s tr (fun r s' tr' =>
    (r = -1 /\ s' = s /\ calm tr tr') \/
    (r = 0 /\ frame s tr s' tr' /\ open_fds tr' = open_fds tr /\ served tr' = served tr
     /\ fds0 s' = fds0 s /\ fds1 s' = fds1 s
     /\ exists u, obj s' = ObjUser u /\ logged_in a (sfd s) tr tr' u)).
Proof.
  intros Ho. unfold hev_socks5_server_read_auth_user. sp; try (left; split_and!; auto; calm).
  rename bs into head. assert (Hn : is_u8 (nthb head 1)) by (by apply nthb_u8). unfold is_u8 in Hn.
  sp; try (left; split_and!; auto; calm).
  rename bs into nm.
  assert (Hp : is_u8 (nthb nm (Z.to_nat (nthb head 1)))) by (by apply nthb_u8). unfold is_u8 in Hp.
  sp; try (left; split_and!; auto; calm).
  rewrite Ho. destruct (authenticator_get a _) as [u|] eqn:Eu; sp; try (left; split_and!; auto; calm).
  apply spec_call. intros [] _. apply spec_bind, spec_call. intros [] _.
  unfold set_obj. sp. right.
  set (tr5 := (_ ++ [_]) ++ [_]).
  assert (Hc : calm tr tr'1) by calm. destruct Hc as [Hc Hm].
  assert (Hrc : received (sfd s) tr5 = received (sfd s) tr'1)
    by (unfold tr5; by rewrite !received_snoc).
  split_and!; try done.
  - split; [done| |].
    + intros q. unfold tr5. rewrite !refs_snoc, (silent_refs _ _ Hc), Ho. unfold held. simpl.
      repeat case_test; lia.
    + destruct (Hm (sfd s)) as [b Hb]. exists b. by rewrite Hrc.
  - unfold tr5. rewrite !open_fds_snoc. apply Hc.
  - unfold tr5. rewrite !served_snoc. apply Hc.
  - exists u. split; [done|]. exists (take (Z.to_nat (nthb head 1)) nm), [], [].
    split; [done|]. rewrite Hrc, app_nil_r. cbn [app].
    assert (Hpass : u_pass u = bs).
    { rewrite <- H9 in E5 by done. apply user_check_iff.
      destruct (user_check_cases u bs (Z.of_nat (length bs))); lia. }
    rewrite Hpass, H11, H7, H3, <- !app_assoc. f_equal. apply login_bytes; auto; lia.
Qed.

(** Nothing was done for the client, and the object is only read. *)
Record idle s (tr : list item) s' (tr' : list item) : Prop := {
  idle_frame : frame s tr s' tr';
  idle_open : open_fds tr' = open_fds tr;
  idle_served : served tr' = served tr;
  idle_fds0 : fds0 s' = fds0 s;
  idle_fds1 : fds1 s' = fds1 s
}.

Lemma idle_calm s tr tr' : calm tr tr' -> idle s tr s tr'.
Proof. intros Hc. split; try done; [by apply frame_calm|apply Hc|apply Hc]. Qed.

Lemma idle_trans s tr s1 tr1 s2 tr2 : idle s tr s1 tr1 -> idle s1 tr1 s2 tr2 -> idle s tr s2 tr2.
Proof. intros [] []. split; try congruence. by eapply frame_trans. Qed.

(** The object of a server that has not authenticated anybody yet. *)
Definition fresh_obj (o : srv_obj A) : Prop := match o with ObjUser _ => False | _ => True end.

(** With an authenticator, [o] ends up being a user who has logged in. *)
Definition authorised s tr s' tr' : Prop :=
  match obj s with
  | ObjAuth _ a => exists u, obj s' = ObjUser u /\ logged_in a (sfd s) tr tr' u
  | _ => True
  end.

Lemma authorised_trans s tr s1 tr1 s2 tr2 :
  authorised s tr s1 tr1 -> frame s tr s1 tr1 -> frame s1 tr1 s2 tr2 -> obj s2 = obj s1 ->
  authorised s tr s2 tr2.
Proof.
  unfold authorised. destruct (obj s); auto. intros (u & Hu & Hl) [Hf _ _] [_ _ Hm] Ho.
  exists u. split; [congruence|]. rewrite Hf in Hm. by eapply logged_in_trans.
Qed.

Lemma auth_spec s tr :
  fresh_obj (obj s) ->
  spec hev_socks5_server_auth s tr (fun r s' tr' =>
    idle s tr s' tr' /\ (r = -1 \/ (r = 0 /\ authorised s tr s' tr'))).
Proof.
  intros Hf. unfold hev_socks5_server_auth. apply spec_bind.
  eapply spec_mono; [|apply read_auth_method_spec]. intros m s1 tr1 (-> & C1 & Hm). cbn beta.
  apply spec_bind. eapply spec_mono; [|apply write_auth_method_spec].
  intros r s1 tr2 (_ & -> & C2). cbn beta. assert (C : calm tr tr2) by calm.
  pose proof (idle_calm s tr tr2 C) as Hi.
  sp; auto.
  - split; [done|]. right. split; [done|]. unfold authorised.
    destruct (obj s); try done. destruct Hm as [Hm|Hm]; rewrite E0 in Hm; done.
  - destruct (obj s) as [|u|p a] eqn:Eo; [destruct Hm as [Hm|Hm]; rewrite Hm in *; done|done|].
    eapply spec_mono; [|by apply (read_auth_user_spec s tr2 p a)].
    intros r1 s1 tr3 Hr1. cbn beta.
    apply spec_bind. eapply spec_mono; [|apply write_auth_user_spec].
    intros r2 s2 tr4 (Hr2 & -> & C4). cbn beta.
    destruct Hr1 as [(-> & -> & C3)|(-> & F & Ho & Hs & H0 & H1 & u & Hu & Hl)].
    + assert (C' : calm tr tr4) by (etransitivity; [exact C|]; calm).
      pose proof (idle_calm s tr tr4 C'). destruct Hr2 as [-> | ->]; sp; auto; by destruct E2.
    + assert (Hi4 : idle s tr s1 tr4).
      { eapply idle_trans; [exact Hi|]. eapply idle_trans; [|by apply idle_calm]. by split. }
      destruct Hr2 as [-> | ->]; sp; auto; [|by destruct E2].
      split; [done|]. right. split; [done|]. unfold authorised. rewrite Eo.
      exists u. split; [done|]. eapply logged_in_trans; [apply C|exact Hl|apply C4].
Qed.

(** Nothing is referenced or released; descriptors and connections may change. *)
Definition busy (tr tr' : list item) : Prop :=
  (forall q, refs q tr' = refs q tr) /\ (forall d, more_received d tr tr').

#[local] Instance busy_preorder : PreOrder busy.
Proof.
  split; [by split|]. intros x y z [R1 M1] [R2 M2].
  split; [intros; by rewrite R2, R1|]. intros d. by transitivity y.
Qed.

Lemma calm_busy tr tr' : calm tr tr' -> busy tr tr'.
Proof. intros [Hs Hm]. split; [apply Hs|done]. Qed.

Lemma busy_item {X} tr (e : sys X) x :
  match e with ObjectRef _ | ObjectUnref _ => False | _ => True end ->
  busy tr (tr ++ [Item e x]).
Proof.
  intros He. split; [|intros d; apply more_received_item].
  intros q. rewrite refs_snoc. by destruct e.
Qed.

Definition same_open (tr tr' : list item) : Prop := forall d, d ∈ open_fds tr' <-> d ∈ open_fds tr.
Definition opened (r : Z) (tr tr' : list item) : Prop :=
  0 <= r /\ r ∉ open_fds tr /\ forall d, d ∈ open_fds tr' <-> d = r \/ d ∈ open_fds tr.

Lemma elem_of_closed (d fd' : Z) (l : list Z) : d ∈ filter (fun x => x <> fd') l <-> d <> fd' /\ d ∈ l.
Proof. by rewrite list_elem_of_filter. Qed.

Lemma opened_calm r tr tr1 tr2 : opened r tr tr1 -> calm tr1 tr2 -> opened r tr tr2.
Proof. intros (? & ? & Ho) [Hs _]. split_and!; try done. intros d. by rewrite (silent_open _ _ Hs). Qed.

Lemma opened_close r tr tr1 x : opened r tr tr1 -> same_open tr (tr1 ++ [Item (Close r) x]).
Proof.
  intros (_ & Hn & Ho) d. rewrite open_fds_snoc. simpl. rewrite elem_of_closed, Ho.
  split; [|intros Hd; split; [congruence|by right]]. intros [? [->|]]; done.
Qed.

Lemma socket_open tr d ty r :
  answer_ok tr (Socket d ty) r -> 0 <= r -> opened r tr (tr ++ [Item (Socket d ty) r]).
Proof.
  intros Ha Hr. split_and!; [done|by apply Ha|]. intros x. rewrite open_fds_snoc. simpl.
  rewrite (proj2 (Z.ltb_ge _ _)) by done. by rewrite elem_of_cons.
Qed.

Lemma socket_failed tr d ty r : r < 0 -> same_open tr (tr ++ [Item (Socket d ty) r]).
Proof.
  intros Hr x. rewrite open_fds_snoc. simpl. by rewrite (proj2 (Z.ltb_lt _ _)) by done.
Qed.

Lemma socket_spec {S} (x : S) ty tr :
  spec (hev_socks5_socket cfg ty) x tr (fun r x' tr' =>
    x' = x /\ busy tr tr' /\ ((r = -1 /\ same_open tr tr') \/ opened r tr tr')).
Proof.
  unfold hev_socks5_socket. apply spec_bind, spec_call. intros r Hr.
  sp1; [sp; split_and!; auto using busy_item, socket_failed|].
  pose proof (socket_open _ _ _ _ Hr E) as Ho. set (tr0 := tr ++ _) in *.
  assert (Hb : busy tr tr0) by (by apply busy_item). clearbody tr0.
  sp1. sp1. sp1.
  { sp1. apply spec_call. intros [] _. sp. split_and!; auto.
    - etransitivity; [exact Hb|]. etransitivity; [by apply calm_busy|by apply busy_item].
    - left. split; [done|]. eapply opened_close, opened_calm; done. }
  sp; split_and!; auto;
    try (etransitivity; [exact Hb|]; apply calm_busy; calm);
    right; (eapply opened_calm; [exact Ho|]; calm).
Qed.

(** *** Memory *)

Lemma mapped_len x : length x = 16%nat ->
  length (splice 11 [255] (splice 10 [255] (splice 0 (replicate 10 0) x))) = 16%nat.
Proof. intros Hx. explode x. done. Qed.

Lemma name_into_sockaddr6_len name port sa fam r sa' fam' :
  resolver_ok res -> length (sin6_addr sa) = 16%nat ->
  hev_socks5_name_into_sockaddr6 res name port sa fam = (r, sa', fam') ->
  length (sin6_addr sa') = 16%nat.
Proof.
  intros [H4 H6 Hg] Hl. unfold hev_socks5_name_into_sockaddr6, hev_socks5_name_resolve_ipv4,
    hev_socks5_name_resolve_ipv6, hev_socks5_name_resolve_name. cbn [sin6_addr sin6_family sin6_port].
  assert (Hz : length (splice 0 (replicate 10 0) (sin6_addr sa)) = 16%nat)
    by (rewrite length_splice; simpl; lia).
  set (x := splice 0 _ (sin6_addr sa)) in *. clearbody x.
  destruct (inet_pton4 res name) as [ip|] eqn:E4; cbn.
  { intros [= <- <- <-]. cbn [sin6_addr]. specialize (H4 _ _ E4).
    explode x. explode ip. done. }
  destruct (inet_pton6 res name) as [ip|] eqn:E6; cbn.
  { intros [= <- <- <-]. cbn [sin6_addr]. specialize (H6 _ _ E6).
    rewrite length_splice; lia. }
  destruct (getaddrinfo res name fam) as [[af ip]|] eqn:Eg; cbn.
  2: { by intros [= <- <- <-]. }
  repeat case_test; intros [= <- <- <-]; cbn [sin6_addr]; try done.
  - change [0; 0; 0; 0; 0; 0; 0; 0; 0; 0] with (replicate 10 0).
    rewrite length_splice; rewrite mapped_len by done; [done|]. rewrite length_take. lia.
  - rewrite length_splice; [done|]. rewrite length_take. lia.
Qed.

Lemma into_sockaddr6_len addr sa fam r sa' fam' :
  resolver_ok res -> length (sin6_addr sa) = 16%nat ->
  hev_socks5_addr_into_sockaddr6 res addr sa fam = (r, sa', fam') ->
  length (sin6_addr sa') = 16%nat.
Proof.
  intros Hr Hl. unfold hev_socks5_addr_into_sockaddr6. repeat case_test.
  - intros [= <- <- <-]. cbn [sin6_addr hev_socks5_ipv4_into_sockaddr6].
    rewrite length_splice; rewrite mapped_len by done; [done|].
    unfold ipv4_addr. rewrite length_slice. lia.
  - intros [= <- <- <-]. cbn [sin6_addr hev_socks5_ipv6_into_sockaddr6].
    rewrite length_splice; [done|]. unfold ipv6_addr. rewrite length_slice. lia.
  - by apply name_into_sockaddr6_len.
  - by intros [= <- <- <-].
Qed.

Lemma from_sockaddr6_len m sa a n :
  length m = sizeof_HevSocks5Addr -> length (sin6_addr sa) = 16%nat ->
  hev_socks5_addr_from_sockaddr6 m sa = (a, n) -> 0 <= n <= Z.of_nat (length a).
Proof.
  intros Hm Hl. unfold hev_socks5_addr_from_sockaddr6, sizeof_HevSocks5Addr in *.
  assert (H1 : forall x, length (splice 0 [x] m) = 260%nat) by (intros; rewrite length_splice; simpl; lia).
  case_test; intros [= <- <-].
  - assert (H2 : forall x, length (splice 5 (mem16 (sin6_port sa)) (splice 0 [x] m)) = 260%nat)
      by (intros; rewrite length_splice; rewrite H1; simpl; lia).
    rewrite length_splice; rewrite H2; [lia|]. rewrite length_slice. lia.
  - assert (H2 : forall x, length (splice 17 (mem16 (sin6_port sa)) (splice 0 [x] m)) = 260%nat)
      by (intros; rewrite length_splice; rewrite H1; simpl; lia).
    rewrite length_splice; rewrite H2; [lia|]. rewrite length_slice. lia.
Qed.

(** *** Request and response *)

Lemma read_request_spec s tr rep sa :
  resolver_ok res -> length (sin6_addr sa) = 16%nat ->
  spec (hev_socks5_server_read_request res rep sa) s tr (fun q s' tr' =>
    idle s tr s' tr' /\ obj s' = obj s /\ length (sin6_addr q.2) = 16%nat).
Proof.
  intros Hr Hl. unfold hev_socks5_server_read_request. sp; try (split_and!; auto; apply idle_calm; calm).
  assert (Hb : is_u8 (nthb bs 4)) by (by apply nthb_u8). unfold is_u8 in Hb.
  destruct (if nthb bs 3 =? _ then _ else _) as [n'|] eqn:En; sp;
    try (split_and!; auto; apply idle_calm; calm).
  assert (Hn' : 0 <= n' <= 258) by (revert En; repeat case_match; intros; simplify_eq; lia).
  sp; try (split_and!; auto; apply idle_calm; calm).
  all: match goal with
       | Ei : hev_socks5_addr_into_sockaddr6 _ _ _ _ = _ |- _ =>
           apply into_sockaddr6_len in Ei; [|done..]
       end; try (split_and!; auto; apply idle_calm; calm).
  unfold upd_base. sp. split_and!; auto.
  assert (C : calm tr tr'0) by calm. split; try done; try apply C. by apply frame_calm.
Qed.

Lemma write_response_spec s tr rep a :
  length (sin6_addr a) = 16%nat ->
  spec (hev_socks5_server_write_response rep a) s tr (fun r s' tr' => s' = s /\ calm tr tr').
Proof.
  intros Ha. unfold hev_socks5_server_write_response. sp1. sp1.
  destruct (hev_socks5_addr_from_sockaddr6 _ a) as [m n] eqn:Em.
  apply from_sockaddr6_len in Em; [|by rewrite length_replicate|done].
  unfold read_mem. rewrite (proj2 (Z.leb_le _ _)), (proj2 (Z.leb_le _ _)) by lia. simpl.
  sp; auto.
Qed.

(** *** Descriptors *)

(** The open descriptors are those of [L] and the server's own two. *)
Record owns (L : list Z) s (tr : list item) : Prop := {
  owns_open : forall d, d ∈ open_fds tr <-> d ∈ L \/ (0 <= d /\ (d = fds0 s \/ d = fds1 s));
  owns_fresh0 : 0 <= fds0 s -> fds0 s ∉ L;
  owns_fresh1 : 0 <= fds1 s -> fds1 s ∉ L
}.

(** After a command on a server without descriptors. *)
Definition commanded s tr s' tr' : Prop :=
  owns (open_fds tr) s' tr' /\ busy tr tr' /\ sfd s' = sfd s /\ obj s' = obj s.

Definition no_fds s : Prop := fds0 s = -1 /\ fds1 s = -1.

Lemma commanded_same s tr s' tr' :
  no_fds s' -> same_open tr tr' -> busy tr tr' -> sfd s' = sfd s -> obj s' = obj s ->
  commanded s tr s' tr'.
Proof.
  intros [H0 H1] Ho Hb Hf Hobj. split_and!; auto. split; rewrite ?H0, ?H1; try lia.
  intros d. rewrite (Ho d). split; [by left|]. intros [?|[? [?|?]]]; [done|lia|lia].
Qed.

Lemma commanded_opened0 s tr s' tr' r :
  fds0 s' = r -> fds1 s' = -1 -> opened r tr tr' -> busy tr tr' ->
  sfd s' = sfd s -> obj s' = obj s -> commanded s tr s' tr'.
Proof.
  intros H0 H1 (Hr & Hn & Ho) Hb Hf Hobj. split_and!; auto. split; rewrite ?H0, ?H1; auto; try lia.
  intros d. rewrite (Ho d). split; [intros [->|?]; auto|]. intros [?|[? [?|?]]]; auto; lia.
Qed.

Lemma spec_close {S X} (x : S) tr d (k : M S X) (P : X -> S -> list item -> Prop) :
  (forall tr', calm tr tr' -> spec k x (tr' ++ [Item (Close d) tt]) P) ->
  spec (call (TaskDelFd d) ;; call (Close d) ;; k) x tr P.
Proof.
  intros HP. apply spec_bind, spec_quiet; [done|]. intros [] tr' _ Hc.
  apply spec_bind, spec_call. intros [] _. by apply HP.
Qed.

Lemma connect_spec s tr sa :
  no_fds s ->
  spec (hev_socks5_server_connect cfg sa) s tr (fun r s' tr' => commanded s tr s' tr').
Proof.
  intros Hn. unfold hev_socks5_server_connect. apply spec_bind.
  eapply spec_mono; [|apply socket_spec]. intros d s1 tr1 (-> & Hb & Hd). cbn beta.
  destruct Hd as [[-> Hs]|Ho].
  { sp; [by apply commanded_same|lia]. }
  assert (Hd : 0 <= d) by apply Ho. rewrite (proj2 (Z.ltb_ge _ _)) by lia.
  unfold hev_socks5_bind, upd_base, set_fds0. sp1. sp1. sp1; [lia|]. sp1. sp1. sp1.
  apply spec_call. intros r _. set (tr2 := tr1 ++ _).
  assert (Hb2 : busy tr tr2) by (etransitivity; [exact Hb|by apply busy_item]).
  assert (Ho2 : opened d tr tr2).
  { destruct Ho as (? & ? & Ho). split_and!; try done. intros x. unfold tr2. by rewrite open_fds_snoc. }
  clearbody tr2. cbn beta iota zeta. set (s1 := mkServer _ _ _ _).
  assert (Hs1 : no_fds s1 /\ sfd s1 = sfd s /\ obj s1 = obj s)
    by (split_and!; try apply Hn; try done; simpl; unfold hev_socks5_set_timeout; by case_match).
  destruct Hs1 as (? & ? & ?). sp1.
  - apply spec_close. intros tr3 Hc. sp. apply commanded_same; auto.
    + eapply opened_close, opened_calm; done.
    + etransitivity; [exact Hb2|]. etransitivity; [by apply calm_busy|by apply busy_item].
  - sp. eapply commanded_opened0; eauto; [apply Hn|].
    simpl. unfold hev_socks5_set_timeout. by repeat case_match.
Qed.

Lemma udp_bind_spec s tr sock src :
  length (sin6_addr src) = 16%nat ->
  spec (hev_socks5_server_udp_bind sock src) s tr (fun r s' tr' =>
    s' = s /\ busy tr tr' /\ open_fds tr' = open_fds tr /\ length (sin6_addr r.2) = 16%nat).
Proof.
  intros Hl. unfold hev_socks5_server_udp_bind. do 4 sp1.
  sp1; [sp; split_and!; auto using calm_busy; apply H1|].
  assert (Hok : sockaddr_ok x.2) by auto.
  sp1. apply spec_call. intros b _. set (tr1 := tr' ++ _).
  assert (Hb : busy tr tr1) by (etransitivity; [by apply calm_busy|by apply busy_item]).
  assert (Ho : open_fds tr1 = open_fds tr) by (unfold tr1; rewrite open_fds_snoc; apply H1).
  clearbody tr1. assert (Hl' : length (sin6_addr x.2) = 16%nat) by apply Hok.
  sp; split_and!; auto; try (etransitivity; [exact Hb|by apply calm_busy]);
    try (by match goal with C : calm tr1 _ |- _ => rewrite (silent_open _ _ (proj1 C)) end).
  simpl. match goal with Hx : answer_ok _ (GetSockName _) _ |- _ => by apply Hx end.
Qed.

Lemma bind_spec s tr addr :
  no_fds s -> (forall a, addr = Some a -> length (sin6_addr a) = 16%nat) ->
  spec (hev_socks5_server_bind cfg addr) s tr (fun r s' tr' =>
    commanded s tr s' tr' /\ (forall a, r.2 = Some a -> length (sin6_addr a) = 16%nat)).
Proof.
  intros Hn Ha. unfold hev_socks5_server_bind. apply spec_bind.
  eapply spec_mono; [|apply socket_spec]. intros d s1 tr1 (-> & Hb & Hd). cbn beta.
  destruct Hd as [[-> Hs]|Ho].
  { sp; [split; [by apply commanded_same|done]|lia]. }
  assert (Hd : 0 <= d) by apply Ho. rewrite (proj2 (Z.ltb_ge _ _)) by lia.
  unfold set_fds0, set_fds1. sp1. sp1. set (s1 := mkServer _ _ _ _).
  assert (H0 : forall tr', opened d tr tr' -> busy tr tr' -> commanded s tr s1 tr')
    by (intros; eapply commanded_opened0; eauto; apply Hn).
  destruct addr as [a|]; [|sp; auto]. specialize (Ha a eq_refl).
  apply spec_bind. eapply spec_mono; [|apply socket_spec].
  intros e s2 tr2 (-> & Hb2 & He). cbn beta.
  assert (B : busy tr tr2) by (by transitivity tr1).
  destruct He as [[-> Hs]|Oe].
  { change (-1 <? 0) with true. apply spec_ret. split; [|by intros ? [= <-]]. apply H0; [|done]. destruct Ho as (? & ? & Ho).
    split_and!; try done. intros x. by rewrite (Hs x). }
  assert (He : 0 <= e) by apply Oe. rewrite (proj2 (Z.ltb_ge _ _)) by lia.
  (* on the failure paths the second descriptor is closed again *)
  assert (Hfail : forall tr3, opened e tr1 tr3 -> busy tr tr3 -> forall tr4, calm tr3 tr4 ->
    commanded s tr s1 (tr4 ++ [Item (Close e) tt])).
  { intros tr3 O3 B3 tr4 C4. apply H0.
    - pose proof (opened_close e tr1 tr4 tt (opened_calm _ _ _ _ O3 C4)) as Hs.
      destruct Ho as (? & ? & Ho). split_and!; try done. intros x. by rewrite (Hs x).
    - etransitivity; [exact B3|]. etransitivity; [by apply calm_busy|by apply busy_item]. }
  sp1. sp1. sp1.
  { apply spec_close. intros tr4 C4. sp. split; [|by intros ? [= <-]].
    eapply (Hfail tr2); try done. by etransitivity. }
  apply spec_bind. eapply spec_mono; [|by apply udp_bind_spec].
  intros r s2 tr3 (-> & B3 & O3 & Hl). cbn beta.
  assert (O4 : opened e tr1 tr3).
  { destruct (opened_calm _ _ _ _ Oe H2) as (? & ? & Hx). split_and!; try done.
    intros y. by rewrite O3. }
  assert (B4 : busy tr tr3).
  { etransitivity; [exact B|]. etransitivity; [apply calm_busy; eassumption|done]. }
  sp1.
  { apply spec_close. intros tr4 C4. sp. split; [|by intros ? [= <-]]. by eapply Hfail. }
  sp. split; [|by intros ? [= <-]]. split_and!; auto.
  destruct Ho as (_ & Hdn & Ho). destruct O4 as (_ & Hen & O4). split; simpl.
  - intros y. rewrite O4, Ho. split; [intros [->|[->|?]]; auto|]. intros [?|[? [?|?]]]; auto.
  - done.
  - intros _ Hin. apply Hen. rewrite Ho. auto.
Qed.

Lemma command_spec s tr cmd rep a :
  no_fds s -> length (sin6_addr a) = 16%nat ->
  spec (server_command cfg cmd rep a) s tr (fun r s' tr' =>
    commanded s tr s' tr' /\ length (sin6_addr r.2) = 16%nat).
Proof.
  intros Hn Hl. unfold server_command.
  assert (Hty : forall s' ty tr', commanded s tr s' tr' ->
    commanded s tr (mkServer (set_type ty (base s')) (fds0 s') (fds1 s') (obj s')) tr').
  { intros s' ty tr' ([] & ? & ? & ?). split_and!; try done. }
  sp1; [|sp1; [|sp1]].
  - apply spec_bind. eapply spec_mono; [|by apply connect_spec]. intros r s' tr' Hc. cbn beta.
    unfold upd_base. sp. auto.
  - apply spec_bind. eapply spec_mono; [|apply (bind_spec _ _ (Some a)); [done|by intros ? [= <-]]].
    intros r s' tr' [Hc Hr]. cbn beta. unfold upd_base. sp. split; [auto|].
    simpl. destruct r.2 eqn:Er; [by apply Hr|done].
  - apply spec_bind. eapply spec_mono; [|apply (bind_spec _ _ None); done].
    intros r s' tr' [Hc Hr]. cbn beta. unfold upd_base. sp. auto.
  - sp. split; [|done]. by apply commanded_same.
Qed.

(** *** The whole server *)

(** How a run of the server may end: it has done nothing for the client, or the
    client was authorised first. *)
Definition served_ok s tr (r : Z) s' tr' : Prop :=
  frame s tr s' tr' /\ owns (open_fds tr) s' tr'
  /\ ((r = -1 /\ served tr' = served tr) \/ authorised s tr s' tr').

Lemma frame_busy s tr s' tr' : busy tr tr' -> sfd s' = sfd s -> obj s' = obj s -> frame s tr s' tr'.
Proof. intros [Hr Hm] Hf Ho. split; [done| |done]. intros q. by rewrite Hr, Ho. Qed.

Lemma idle_owns s tr s' tr' : idle s tr s' tr' -> no_fds s -> owns (open_fds tr) s' tr'.
Proof.
  intros [_ Ho _ H0 H1] [N0 N1]. split; rewrite ?H0, ?H1, ?N0, ?N1; try lia.
  intros d. rewrite Ho. split; [by left|]. intros [?|[? [?|?]]]; [done|lia|lia].
Qed.

Lemma owns_trans s tr s1 tr1 s2 tr2 :
  idle s tr s1 tr1 -> no_fds s -> owns (open_fds tr1) s2 tr2 -> owns (open_fds tr) s2 tr2.
Proof. intros [_ Ho _ _ _] _. by rewrite Ho. Qed.

Lemma handshake_spec s tr :
  resolver_ok res -> no_fds s -> fresh_obj (obj s) ->
  spec (hev_socks5_server_handshake cfg res) s tr (fun r s' tr' => served_ok s tr r s' tr').
Proof.
  intros Hres Hn Hfo. unfold hev_socks5_server_handshake, upd_base. sp1. sp1.
  set (s1 := mkServer _ _ _ _).
  assert (F1 : frame s tr s1 tr).
  { apply frame_calm; [|done|done]. simpl. unfold hev_socks5_set_timeout. by case_match. }
  assert (A1 : forall s' tr', authorised s1 tr s' tr' -> authorised s tr s' tr').
  { unfold authorised. rewrite (frame_fd _ _ _ _ F1). done. }
  apply spec_bind. eapply spec_mono; [|by apply auth_spec].
  intros r s2 tr2 [I2 Hr]. cbn beta. assert (N2 : no_fds s2).
  { destruct I2, Hn. unfold no_fds in *. simpl in *. split; congruence. }
  assert (F2 : frame s tr s2 tr2) by (eapply frame_trans; [exact F1|apply I2]).
  destruct Hr as [-> | [-> Hau]].
  { sp; [|lia]. split_and!; [done|by apply (idle_owns s1)|]. left. split; [done|]. apply I2. }
  change (0 <? 0) with false. apply spec_bind.
  eapply spec_mono; [|by apply read_request_spec].
  intros [[[r cmd] rep] sa] s3 tr3 (I3 & Ho3 & Hl3). cbn [snd] in Hl3. cbn beta iota.
  assert (F3 : frame s tr s3 tr3) by (eapply frame_trans; [exact F2|apply I3]).
  assert (O3 : owns (open_fds tr) s3 tr3).
  { rewrite <- (idle_open _ _ _ _ I2). by apply (idle_owns s2). }
  assert (Au3 : authorised s tr s3 tr3).
  { apply A1. eapply authorised_trans; [exact Hau|apply I2|apply I3|done]. }
  assert (N3 : no_fds s3) by (destruct I3; unfold no_fds in *; split; destruct N2; congruence).
  sp1; [sp; split_and!; auto|]. apply spec_bind.
  assert (Hcmd : spec (if rep =? HEV_SOCKS5_RES_REP_SUCC then server_command cfg cmd rep sa
                       else ret (rep, sa)) s3 tr3 (fun q s' tr' =>
     commanded s3 tr3 s' tr' /\ length (sin6_addr q.2) = 16%nat)).
  { sp1; [by apply command_spec|]. sp. split; [by apply commanded_same|done]. }
  eapply spec_mono; [|exact Hcmd]. clear Hcmd.
  intros [rep' sa'] s4 tr4 ((O4 & B4 & Hf4 & Ho4) & Hl4). cbn [snd] in Hl4. cbn beta iota.
  assert (F4 : frame s3 tr3 s4 tr4) by (by apply frame_busy).
  apply spec_bind. eapply spec_mono; [|by apply write_response_spec].
  intros r' s5 tr5 (-> & C5). cbn beta.
  assert (F5 : frame s4 tr4 s4 tr5) by (by apply frame_calm).
  assert (Hend : forall v, served_ok s tr v s4 tr5).
  { intros v. split_and!.
    - by eapply frame_trans; [exact F3|eapply frame_trans].
    - destruct O4 as [O4 ? ?]. rewrite (idle_open _ _ _ _ I3), (idle_open _ _ _ _ I2) in *.
      split; try done. intros d. by rewrite (silent_open _ _ (proj1 C5)), O4.
    - right. eapply authorised_trans; [exact Au3|done|by eapply frame_trans|done]. }
  sp; auto.
Qed.

(** The data phase and everything else that only moves data. *)
Definition passive s tr s' tr' : Prop :=
  busy tr tr' /\ open_fds tr' = open_fds tr /\ sfd s' = sfd s /\ obj s' = obj s
  /\ fds0 s' = fds0 s /\ fds1 s' = fds1 s.

Lemma passive_calm s tr tr' : calm tr tr' -> passive s tr s tr'.
Proof. intros C. split_and!; try done; [by apply calm_busy|apply C]. Qed.

Lemma passive_trans s tr s1 tr1 s2 tr2 :
  passive s tr s1 tr1 -> passive s1 tr1 s2 tr2 -> passive s tr s2 tr2.
Proof.
  intros (B1 & ? & ? & ? & ? & ?) (B2 & ? & ? & ? & ? & ?). split_and!; try congruence.
  by transitivity tr1.
Qed.

Lemma served_ok_passive s tr r r' s1 tr1 s2 tr2 :
  served_ok s tr r s1 tr1 -> 0 <= r -> passive s1 tr1 s2 tr2 -> served_ok s tr r' s2 tr2.
Proof.
  intros (F & O & [[-> _]|Au]) Hr (B & Ho & Hf & Hob & H0 & H1); [lia|].
  assert (F2 : frame s1 tr1 s2 tr2) by (by apply frame_busy). split_and!.
  - by eapply frame_trans.
  - destruct O as [O ? ?]. split; rewrite ?H0, ?H1; try done. intros d. by rewrite Ho.
  - right. by eapply authorised_trans.
Qed.

Lemma service_spec s tr :
  spec (hev_socks5_server_service cfg) s tr (fun r s' tr' => passive s tr s' tr').
Proof.
  assert (Hitem : forall {X} (e : sys X) x tr0 s0, passive s tr s0 tr0 ->
    match e with TcpSplice _ _ | UdpSplice _ => True | _ => False end ->
    passive s tr s0 (tr0 ++ [Item e x])).
  { intros X e x tr0 s0 Hp He. eapply passive_trans; [exact Hp|].
    split_and!; try done; [|by rewrite open_fds_snoc; destruct e].
    apply busy_item. by destruct e. }
  unfold hev_socks5_server_service, upd_base. sp1. sp1. destruct (type (base s)); try (sp; by apply passive_calm).
  - unfold hev_socks5_tcp_splicer. sp; try (by apply passive_calm).
    all: try (apply spec_call; intros x' _; sp; apply Hitem; [apply passive_calm; calm|done]).
  - sp1. sp1. sp1. apply spec_call. intros x' _. sp. apply Hitem; [|done].
    split_and!; try done. simpl. unfold hev_socks5_set_timeout. by case_match.
  - sp1. sp1. sp1. apply spec_call. intros x' _. sp. apply Hitem; [|done].
    split_and!; try done. simpl. unfold hev_socks5_set_timeout. by case_match.
Qed.

Lemma run_spec s tr :
  resolver_ok res -> no_fds s -> fresh_obj (obj s) ->
  spec (hev_socks5_server_run cfg res) s tr (fun r s' tr' => served_ok s tr r s' tr').
Proof.
  intros Hr Hn Ho. unfold hev_socks5_server_run. sp1. sp1. sp1. sp1.
  apply spec_bind. apply (spec_mono _ _ _ (fun _ s1 tr1 => s1 = s /\ calm tr tr1)).
  2: { sp; split; auto; calm. }
  intros _ s1 tr1 (-> & C1). apply spec_bind.
  eapply spec_mono; [|by apply handshake_spec]. intros r s2 tr2 Hok. cbn beta.
  assert (Hok' : served_ok s tr r s2 tr2).
  { destruct Hok as (F & O & Au). pose proof (frame_calm s tr s tr1 eq_refl eq_refl C1) as F0.
    split_and!; [by eapply frame_trans| |].
    - by rewrite (silent_open _ _ (proj1 C1)) in O.
    - destruct Au as [[? Hs]|Au]; [left; split; [done|]; rewrite Hs; apply C1|right].
      revert Au. unfold authorised. destruct (obj s); auto.
      intros (u & ? & ?). exists u. split; [done|]. eapply logged_in_trans; [apply C1|done|done]. }
  sp1.
  { sp. destruct Hok' as (? & ? & [[? ?]|?]); split_and!; auto. }
  apply spec_bind. eapply spec_mono; [|apply service_spec]. intros r' s3 tr3 Hp. cbn beta.
  sp; by eapply served_ok_passive.
Qed.

Lemma close_spec s0 tr d (L : Z -> Prop) :
  (forall x, x ∈ open_fds tr <-> L x) ->
  spec (S := HevSocks5Server A) (if 0 <=? d then call (TaskDelFd d) ;; call (Close d) else ret tt) s0 tr
    (fun _ s' tr' => s' = s0 /\ busy tr tr'
       /\ forall x, x ∈ open_fds tr' <-> L x /\ (0 <= d -> x <> d)).
Proof.
  intros HL. sp1.
  - sp1. sp1. rename tr' into tr1, H1 into C. apply spec_call. intros [] _. split_and!; [done| |].
    + etransitivity; [by apply calm_busy|by apply busy_item].
    + intros y. rewrite open_fds_snoc. simpl. rewrite elem_of_closed, (silent_open _ _ (proj1 C)), HL.
      tauto.
  - sp. split_and!; try done. intros x. rewrite HL. split; [|tauto]. split; [done|lia].
Qed.

Lemma destruct_spec s tr L :
  owns L s tr -> 0 <= sfd s ->
  spec hev_socks5_server_destruct s tr (fun _ _ tr' =>
    (forall d, d ∈ open_fds tr' <-> d ∈ L /\ d <> sfd s)
    /\ forall q, refs q tr' = refs q tr - held (obj s) q).
Proof.
  intros [O F0 F1] Hfd. unfold hev_socks5_server_destruct, hev_socks5_destruct. sp1. sp1.
  apply spec_bind. eapply spec_mono; [|apply (close_spec _ _ _ _ O)].
  intros _ s1 tr1 (-> & B1 & O1). cbn beta.
  apply spec_bind. eapply spec_mono; [|apply (close_spec _ _ _ _ O1)].
  intros _ s1 tr2 (-> & B2 & O2). cbn beta. apply spec_bind.
  apply (spec_mono _ _ _ (fun _ s3 tr3 => s3 = s /\ open_fds tr3 = open_fds tr2
    /\ forall q, refs q tr3 = refs q tr - held (obj s) q)).
  2: { assert (Hq : forall q, refs q tr2 = refs q tr) by (intros; by rewrite (proj1 B2), (proj1 B1)).
       unfold held. destruct (obj_ptr (obj s)) as [p|]; [apply spec_call; intros [] _|sp];
         (split; [done|]; split; [by rewrite ?open_fds_snoc|]); intros q; rewrite ?refs_snoc; simpl;
         rewrite ?Hq; try lia. case_test; lia. }
  intros _ s1 tr3 (-> & O3 & R3). cbn beta. sp1. sp1.
  apply spec_bind. eapply spec_mono; [|apply (close_spec _ _ _ _ (fun x => iff_refl _))].
  intros _ s1 tr4 (-> & B4 & O4). cbn beta.
  apply spec_quiet; [done|]. intros _ tr5 _ C5. split.
  - intros d. rewrite (silent_open _ _ (proj1 C5)), O4, O3, O2.
    split; [intros ((([?|[? [-> | ->]]] & ?) & ?) & ?); naive_solver|].
    intros [? ?]. split_and!; try tauto; intros ? ->; tauto.
  - intros q. by rewrite (silent_refs _ _ (proj1 C5)), (proj1 B4), R3.
Qed.

(** A server as [hev_socks5_server_new] and [hev_socks5_server_set_auth] make it. *)
Definition new_server (d : Z) (o : srv_obj A) : HevSocks5Server A :=
  mkServer (base (hev_socks5_server_construct (A := A) d)) (-1) (-1) o.

End Server.

(** C3. The handshake, the service and the end of a server, with the data phase as one call: whatever
    the client, the kernel and the task system do, a server that is run and then destroyed closes
    every descriptor it opened and the client's, closes no other, and gives back exactly the
    reference it was given: none leaks, and none is dropped twice; and on the way it overruns no
    buffer and never uses the wrong member of the union.  The transfer of data, to which
    [hev_socks5_server_service] hands over after a successful handshake, is a call that returns and
    leaves the descriptors alone; nothing is claimed of its inside here ([Splice] has the transfer of
    a connection, [Socks5UdpSpec] that of datagrams, which is safe over UDP and not over TCP). *)
Theorem server_releases_everything {A} `{Authenticator A} (cfg : Settings) (res : Resolver)
    (d : Z) (o : srv_obj A) (tr : list item) :
  resolver_ok res -> 0 <= d -> fresh_obj o ->
  wp (run (r <- hev_socks5_server_run cfg res ;; hev_socks5_server_destruct) (new_server d o)) tr
    (fun tr' _ =>
      (forall x, x ∈ open_fds tr' <-> x ∈ open_fds tr /\ x <> d)
      /\ forall q, refs q tr' = refs q tr - held o q).
Proof.
  intros Hr Hd Ho.
  apply (spec_run _ _ _ (fun _ _ tr' => (forall x, x ∈ open_fds tr' <-> x ∈ open_fds tr /\ x <> d)
      /\ forall q, refs q tr' = refs q tr - held o q)).
  apply spec_bind. eapply spec_mono; [|by apply run_spec].
  intros r s tr1 (F & O & _). cbn beta.
  pose proof (frame_fd _ _ _ _ F) as Hfd. simpl in Hfd.
  eapply spec_mono; [|apply (destruct_spec _ _ _ O); lia].
  intros _ _ tr2 [Hop Hre]. rewrite Hfd in Hop. split; [done|].
  intros q. rewrite Hre. pose proof (frame_refs _ _ _ _ F q) as Hq. simpl in Hq. lia.
Qed.

Module Witness.
Import UserList.

Lemma server_releases_everything_witness :
  wp (run (r <- hev_socks5_server_run default_settings no_resolver ;; hev_socks5_server_destruct)
        (new_server 5 (ObjAuth 2000 [alice]))) []
    (fun tr' _ => (forall x, x ∈ open_fds tr' <-> x ∈ open_fds [] /\ x <> 5)
      /\ forall q, refs q tr' = refs q [] - held (ObjAuth 2000 [alice]) q).
Proof.
  apply (server_releases_everything default_settings no_resolver 5 (ObjAuth 2000 [alice]) []).
  - apply no_resolver_ok.
  - lia.
  - done.
Defined.

End Witness.

(** C2. A server with an authenticator serves nobody else: in every run, unless
    the client has sent the name and the password of a user the authenticator
    knows, no socket is created, bound or connected and no data is transferred for
    it, and the run fails. *)
Theorem server_serves_only_users {A} `{Authenticator A} (cfg : Settings) (res : Resolver)
    (d ptr : Z) (a : A) (tr : list item) :
  resolver_ok res ->
  wp (run (hev_socks5_server_run cfg res) (new_server d (ObjAuth ptr a))) tr (fun tr' r =>
    (r.1 = -1 /\ served tr' = served tr) \/
    exists u name pre post,
      obj r.2 = ObjUser u /\ authenticator_get a name = Some u /\ u_name u = name
      /\ received d tr' = received d tr ++ pre ++ login_msg name (u_pass u) ++ post).
Proof.
  intros Hr. apply (wp_mono _ _ (fun tr' r => served_ok (new_server d (ObjAuth ptr a)) tr r.1 r.2 tr')).
  2: { by apply (spec_run _ _ _ (fun v s' tr' => served_ok (new_server d (ObjAuth ptr a)) tr v s' tr')), run_spec. }
  intros tr' [r s'] (_ & _ & [Hno|(u & Hu & name & pre & post & Hg & Hrc)]); [by left|right].
  exists u, name, pre, post. split_and!; auto. by apply (authenticator_get_name a).
Qed.

Module WitnessUsers.
Import UserList.

Lemma server_serves_only_users_witness :
  wp (run (hev_socks5_server_run default_settings no_resolver) (new_server 5 (ObjAuth 2000 [alice]))) []
    (fun tr' r => (r.1 = -1 /\ served tr' = served []) \/
      exists u name pre post,
        obj r.2 = ObjUser u /\ authenticator_get [alice] name = Some u /\ u_name u = name
        /\ received 5 tr' = received 5 [] ++ pre ++ login_msg name (u_pass u) ++ post).
Proof.
  apply (server_serves_only_users default_settings no_resolver 5 2000 [alice] []).
  apply no_resolver_ok.
Defined.

End WitnessUsers.
