(* ===== verification/RBTree.v ===== *)
(** * Red-black trees

    Models hev/src/core/src/hev-rbtree.c and hev-rbtree.h on a heap of nodes, with
    the code's pointers: each node has its parent, its colour and its children,
    and every function reads and writes them one field at a time.  A read or a
    write through a pointer that is not a node of the heap fails ([None]).

    The word [__parent_color] holds the parent's address and the colour in its
    lowest bit; nodes are aligned, so the two are kept as a pair. *)

From S2P Require Import Prelude.

(** ** Memory *)

Record node := mkNode { n_parent : Z; n_black : bool; n_left : Z; n_right : Z }.

(** The nodes and [HevRBTree.root]; a NULL pointer is 0. *)
Record rbstate := mkRB { heap : gmap Z node; root : Z }.

Definition O (A : Type) : Type := rbstate -> option (A * rbstate).
#[global] Instance O_ret : MRet O := fun A a st => Some (a, st).
#[global] Instance O_bind : MBind O := fun A B f m st =>
  match m st with Some (a, st') => f a st' | None => None end.

Definition load {A} (f : node -> A) (p : Z) : O A := fun st =>
  match heap st !! p with Some n => Some (f n, st) | None => None end.
Definition store (f : node -> node) (p : Z) : O unit := fun st =>
  match heap st !! p with
  | Some n => Some (tt, mkRB (<[p := f n]> (heap st)) (root st))
  | None => None
  end.

Definition get_left : Z -> O Z := load n_left.
Definition get_right : Z -> O Z := load n_right.
Definition set_left (p v : Z) : O unit :=
  store (fun n => mkNode (n_parent n) (n_black n) v (n_right n)) p.
Definition set_right (p v : Z) : O unit :=
  store (fun n => mkNode (n_parent n) (n_black n) (n_left n) v) p.
Definition get_root : O Z := fun st => Some (root st, st).
Definition set_root (v : Z) : O unit := fun st => Some (tt, mkRB (heap st) v).

Definition RED : bool := false.
Definition BLACK : bool := true.

(** ** hev-rbtree.h and the helpers of hev-rbtree.c *)

Definition hev_rbtree_node_parent : Z -> O Z := load n_parent.
Definition hev_rbtree_node_is_black : Z -> O bool := load n_black.
Definition hev_rbtree_node_is_red (p : Z) : O bool := b ← hev_rbtree_node_is_black p; mret (negb b).

(** The whole word [__parent_color]. *)
Definition get_parent_color (p : Z) : O (Z * bool) := load (fun n => (n_parent n, n_black n)) p.
Definition set_word (p : Z) (pc : Z * bool) : O unit :=
  store (fun n => mkNode pc.1 pc.2 (n_left n) (n_right n)) p.

(** The address without masking the colour bit: only right for a red node. *)
Definition hev_rbtree_node_red_parent (p : Z) : O Z :=
  '(q, b) ← get_parent_color p; mret (q + if b : bool then 1 else 0).

Definition hev_rbtree_node_set_black (p : Z) : O unit :=
  store (fun n => mkNode (n_parent n) BLACK (n_left n) (n_right n)) p.
Definition hev_rbtree_node_set_parent (p parent : Z) : O unit :=
  store (fun n => mkNode parent (n_black n) (n_left n) (n_right n)) p.
Definition hev_rbtree_node_set_parent_color (p parent : Z) (color : bool) : O unit :=
  set_word p (parent, color).

(** Where [*link] is: the root, or a child of the parent. *)
Inductive link := LinkRoot | LinkLeft (p : Z) | LinkRight (p : Z).

Definition set_link (l : link) (v : Z) : O unit :=
  match l with
  | LinkRoot => set_root v
  | LinkLeft p => set_left p v
  | LinkRight p => set_right p v
  end.

(** The node is part of the caller's object, so it is in the heap only from
    here on. *)
Definition hev_rbtree_node_link (p parent : Z) (l : link) : O unit := fun st =>
  set_link l p (mkRB (<[p := mkNode parent RED 0 0]> (heap st)) (root st)).

Definition hev_rbtree_change_child (old new parent : Z) : O unit :=
  if negb (parent =? 0) then
    l ← get_left parent;
    if l =? old then set_left parent new else set_right parent new
  else set_root new.

Definition hev_rbtree_rotate_set_parents (old new : Z) (color : bool) : O unit :=
  parent ← hev_rbtree_node_parent old;
  pc ← get_parent_color old;
  set_word new pc;;
  hev_rbtree_node_set_parent_color old new color;;
  hev_rbtree_change_child old new parent.

(** ** Walking; the loops take fuel *)

Fixpoint leftmost (fuel : nat) (n : Z) : O Z :=
  match fuel with
  | 0%nat => fun _ => None
  | S fuel => l ← get_left n; if negb (l =? 0) then leftmost fuel l else mret n
  end.

Fixpoint rightmost (fuel : nat) (n : Z) : O Z :=
  match fuel with
  | 0%nat => fun _ => None
  | S fuel => r ← get_right n; if negb (r =? 0) then rightmost fuel r else mret n
  end.

Definition hev_rbtree_first (fuel : nat) : O Z :=
  n ← get_root; if n =? 0 then mret 0 else leftmost fuel n.
Definition hev_rbtree_last (fuel : nat) : O Z :=
  n ← get_root; if n =? 0 then mret 0 else rightmost fuel n.

Definition hev_rbtree_node_empty (p : Z) : O bool :=
  '(q, b) ← get_parent_color p; mret ((q + if b : bool then 1 else 0) =? p).

Fixpoint up_while_left (fuel : nat) (n : Z) : O Z :=
  match fuel with
  | 0%nat => fun _ => None
  | S fuel =>
      parent ← hev_rbtree_node_parent n;
      if parent =? 0 then mret 0 else
      l ← get_left parent; if n =? l then up_while_left fuel parent else mret parent
  end.

Fixpoint up_while_right (fuel : nat) (n : Z) : O Z :=
  match fuel with
  | 0%nat => fun _ => None
  | S fuel =>
      parent ← hev_rbtree_node_parent n;
      if parent =? 0 then mret 0 else
      r ← get_right parent; if n =? r then up_while_right fuel parent else mret parent
  end.

Definition hev_rbtree_node_prev (fuel : nat) (n : Z) : O Z :=
  e ← hev_rbtree_node_empty n;
  if e : bool then mret 0 else
  l ← get_left n;
  if negb (l =? 0) then rightmost fuel l else up_while_left fuel n.

Definition hev_rbtree_node_next (fuel : nat) (n : Z) : O Z :=
  e ← hev_rbtree_node_empty n;
  if e : bool then mret 0 else
  r ← get_right n;
  if negb (r =? 0) then leftmost fuel r else up_while_right fuel n.

(** ** Insertion *)

(** [if (tmp) hev_rbtree_node_set_parent_color (tmp, p, BLACK)] *)
Definition reparent_black (tmp p : Z) : O unit :=
  if negb (tmp =? 0) then hev_rbtree_node_set_parent_color tmp p BLACK else mret tt.

Fixpoint insert_color_loop (fuel : nat) (n parent : Z) : O unit :=
  match fuel with
  | 0%nat => fun _ => None
  | S fuel =>
      if parent =? 0 then hev_rbtree_node_set_parent_color n 0 BLACK else
      b ← hev_rbtree_node_is_black parent;
      if b : bool then mret tt else
      gparent ← hev_rbtree_node_red_parent parent;
      tmp ← get_right gparent;
      if negb (parent =? tmp) then
        red ← (if negb (tmp =? 0) then hev_rbtree_node_is_red tmp else mret false);
        if red : bool then
          hev_rbtree_node_set_parent_color tmp gparent BLACK;;
          hev_rbtree_node_set_parent_color parent gparent BLACK;;
          parent ← hev_rbtree_node_parent gparent;
          hev_rbtree_node_set_parent_color gparent parent RED;;
          insert_color_loop fuel gparent parent
        else
          tmp ← get_right parent;
          '(parent, tmp) ←
            (if n =? tmp then
               tmp ← get_left n;
               set_right parent tmp;;
               set_left n parent;;
               reparent_black tmp parent;;
               hev_rbtree_node_set_parent_color parent n RED;;
               tmp ← get_right n;
               mret (n, tmp)
             else mret (parent, tmp));
          set_left gparent tmp;;
          set_right parent gparent;;
          reparent_black tmp gparent;;
          hev_rbtree_rotate_set_parents gparent parent RED
      else
        tmp ← get_left gparent;
        red ← (if negb (tmp =? 0) then hev_rbtree_node_is_red tmp else mret false);
        if red : bool then
          hev_rbtree_node_set_parent_color tmp gparent BLACK;;
          hev_rbtree_node_set_parent_color parent gparent BLACK;;
          parent ← hev_rbtree_node_parent gparent;
          hev_rbtree_node_set_parent_color gparent parent RED;;
          insert_color_loop fuel gparent parent
        else
          tmp ← get_left parent;
          '(parent, tmp) ←
            (if n =? tmp then
               tmp ← get_right n;
               set_left parent tmp;;
               set_right n parent;;
               reparent_black tmp parent;;
               hev_rbtree_node_set_parent_color parent n RED;;
               tmp ← get_left n;
               mret (n, tmp)
             else mret (parent, tmp));
          set_right gparent tmp;;
          set_left parent gparent;;
          reparent_black tmp gparent;;
          hev_rbtree_rotate_set_parents gparent parent RED
  end.

Definition hev_rbtree_insert_color (fuel : nat) (n : Z) : O unit :=
  parent ← hev_rbtree_node_red_parent n;
  insert_color_loop fuel n parent.

(** ** Replacement *)

Definition hev_rbtree_replace (victim new : Z) : O unit :=
  parent ← hev_rbtree_node_parent victim;
  (fun st => match heap st !! victim with
             | Some v => Some (tt, mkRB (<[new := v]> (heap st)) (root st))
             | None => None end);;
  l ← get_left victim;
  (if negb (l =? 0) then hev_rbtree_node_set_parent l new else mret tt);;
  r ← get_right victim;
  (if negb (r =? 0) then hev_rbtree_node_set_parent r new else mret tt);;
  hev_rbtree_change_child victim new parent.

(** ** Removal *)

(** The [do .. while] loop that looks for the successor: its parent and itself. *)
Fixpoint successor_loop (fuel : nat) (successor tmp : Z) : O (Z * Z) :=
  match fuel with
  | 0%nat => fun _ => None
  | S fuel =>
      tmp' ← get_left tmp;
      if negb (tmp' =? 0) then successor_loop fuel tmp tmp' else mret (successor, tmp)
  end.

(** [_hev_rbtree_erase]: the node from which to rebalance, or NULL. *)
Definition hev_rbtree_unlink (fuel : nat) (n : Z) : O Z :=
  child ← get_right n;
  tmp ← get_left n;
  if tmp =? 0 then
    pc ← get_parent_color n;
    let parent := pc.1 in
    hev_rbtree_change_child n child parent;;
    if negb (child =? 0) then set_word child pc;; mret 0
    else mret (if pc.2 : bool then parent else 0)
  else if child =? 0 then
    pc ← get_parent_color n;
    set_word tmp pc;;
    hev_rbtree_change_child n tmp pc.1;;
    mret 0
  else
    tmp ← get_left child;
    '(parent, successor, child2) ←
      (if tmp =? 0 then
         child2 ← get_right child;
         mret (child, child, child2)
       else
         '(parent, successor) ← successor_loop fuel child tmp;
         child2 ← get_right successor;
         set_left parent child2;;
         set_right successor child;;
         hev_rbtree_node_set_parent child successor;;
         mret (parent, successor, child2));
    tmp ← get_left n;
    set_left successor tmp;;
    hev_rbtree_node_set_parent tmp successor;;
    pc ← get_parent_color n;
    hev_rbtree_change_child n successor pc.1;;
    rebalance ←
      (if negb (child2 =? 0) then
         hev_rbtree_node_set_parent_color child2 parent BLACK;; mret 0
       else
         b ← hev_rbtree_node_is_black successor;
         mret (if b : bool then parent else 0));
    set_word successor pc;;
    mret rebalance.

(** [!tmp || hev_rbtree_node_is_black (tmp)] *)
Definition null_or_black (tmp : Z) : O bool :=
  if tmp =? 0 then mret true else hev_rbtree_node_is_black tmp.

Definition reparent (tmp p : Z) : O unit :=
  if negb (tmp =? 0) then hev_rbtree_node_set_parent tmp p else mret tt.

(** Case 4: left rotate at [parent], or right rotate. *)
Definition erase_case4_left (parent sibling tmp1 : Z) : O unit :=
  tmp2 ← get_left sibling;
  set_right parent tmp2;;
  set_left sibling parent;;
  hev_rbtree_node_set_parent_color tmp1 sibling BLACK;;
  reparent tmp2 parent;;
  hev_rbtree_rotate_set_parents parent sibling BLACK.

Definition erase_case4_right (parent sibling tmp1 : Z) : O unit :=
  tmp2 ← get_right sibling;
  set_left parent tmp2;;
  set_right sibling parent;;
  hev_rbtree_node_set_parent_color tmp1 sibling BLACK;;
  reparent tmp2 parent;;
  hev_rbtree_rotate_set_parents parent sibling BLACK.

(** Cases 2 to 4, for a black sibling; [continue] is the next round of the loop. *)
Definition erase_black_left (continue : Z -> Z -> O unit) (parent sibling : Z) : O unit :=
  tmp1 ← get_right sibling;
  nb1 ← null_or_black tmp1;
  if nb1 : bool then
    tmp2 ← get_left sibling;
    nb2 ← null_or_black tmp2;
    if nb2 : bool then
      hev_rbtree_node_set_parent_color sibling parent RED;;
      r ← hev_rbtree_node_is_red parent;
      if r : bool then hev_rbtree_node_set_black parent
      else
        gparent ← hev_rbtree_node_parent parent;
        if negb (gparent =? 0) then continue parent gparent else mret tt
    else
      tmp1 ← get_right tmp2;
      set_left sibling tmp1;;
      set_right tmp2 sibling;;
      set_right parent tmp2;;
      reparent_black tmp1 sibling;;
      erase_case4_left parent tmp2 sibling
  else erase_case4_left parent sibling tmp1.

Definition erase_black_right (continue : Z -> Z -> O unit) (parent sibling : Z) : O unit :=
  tmp1 ← get_left sibling;
  nb1 ← null_or_black tmp1;
  if nb1 : bool then
    tmp2 ← get_right sibling;
    nb2 ← null_or_black tmp2;
    if nb2 : bool then
      hev_rbtree_node_set_parent_color sibling parent RED;;
      r ← hev_rbtree_node_is_red parent;
      if r : bool then hev_rbtree_node_set_black parent
      else
        gparent ← hev_rbtree_node_parent parent;
        if negb (gparent =? 0) then continue parent gparent else mret tt
    else
      tmp1 ← get_left tmp2;
      set_right sibling tmp1;;
      set_left tmp2 sibling;;
      set_left parent tmp2;;
      reparent_black tmp1 sibling;;
      erase_case4_right parent tmp2 sibling
  else erase_case4_right parent sibling tmp1.

(** [_hev_rbtree_erase_color]: the loop, from [node] (NULL at first). *)
Fixpoint hev_rbtree_erase_color (fuel : nat) (n parent : Z) : O unit :=
  match fuel with
  | 0%nat => fun _ => None
  | S fuel =>
      sibling ← get_right parent;
      if negb (n =? sibling) then
        red ← hev_rbtree_node_is_red sibling;
        sibling ←
          (if red : bool then
             tmp1 ← get_left sibling;
             set_right parent tmp1;;
             set_left sibling parent;;
             hev_rbtree_node_set_parent_color tmp1 parent BLACK;;
             hev_rbtree_rotate_set_parents parent sibling RED;;
             mret tmp1
           else mret sibling);
        erase_black_left (hev_rbtree_erase_color fuel) parent sibling
      else
        sibling ← get_left parent;
        red ← hev_rbtree_node_is_red sibling;
        sibling ←
          (if red : bool then
             tmp1 ← get_right sibling;
             set_left parent tmp1;;
             set_right sibling parent;;
             hev_rbtree_node_set_parent_color tmp1 parent BLACK;;
             hev_rbtree_rotate_set_parents parent sibling RED;;
             mret tmp1
           else mret sibling);
        erase_black_right (hev_rbtree_erase_color fuel) parent sibling
  end.

Definition hev_rbtree_erase (fuel : nat) (n : Z) : O unit :=
  rebalance ← hev_rbtree_unlink fuel n;
  if negb (rebalance =? 0) then hev_rbtree_erase_color fuel 0 rebalance else mret tt.
