(* ===== verification/RBTreeSpec.v ===== *)
(** * Red-black trees: correctness

    The pointer code of [RBTree] implements trees: [wf st t] relates the memory
    to a tree of addresses.  The insertion and removal of the C code keep the
    in-order sequence (so a search tree stays a search tree, whatever the keys)
    and the red-black invariant, read no wild pointer and terminate. *)

From S2P Require Import Prelude RBTree.

(** ** Execution *)

Definition ospec {A} (m : O A) (st : rbstate) (P : A -> rbstate -> Prop) : Prop :=
  match m st with Some (a, st') => P a st' | None => False end.

Lemma ospec_ret {A} (a : A) st (P : A -> rbstate -> Prop) : P a st -> ospec (mret a) st P.
Proof. done. Qed.

Lemma ospec_bind {A B} (m : O A) (f : A -> O B) st P :
  ospec m st (fun a st' => ospec (f a) st' P) -> ospec (m ≫= f) st P.
Proof. unfold ospec, mbind, O_bind. destruct (m st) as [[a st']|]; done. Qed.

Lemma ospec_mono {A} (m : O A) st (P P' : A -> rbstate -> Prop) :
  (forall a st', P a st' -> P' a st') -> ospec m st P -> ospec m st P'.
Proof. unfold ospec. destruct (m st) as [[a st']|]; auto. Qed.

Lemma ospec_load {A} (f : node -> A) p st n (P : A -> rbstate -> Prop) :
  heap st !! p = Some n -> P (f n) st -> ospec (load f p) st P.
Proof. intros Hn HP. unfold ospec, load. by rewrite Hn. Qed.

Lemma ospec_store f p st n (P : unit -> rbstate -> Prop) :
  heap st !! p = Some n -> P tt (mkRB (<[p := f n]> (heap st)) (root st)) ->
  ospec (store f p) st P.
Proof. intros Hn HP. unfold ospec, store. by rewrite Hn. Qed.

(** ** Trees of addresses *)

Inductive tree := E | T (black : bool) (l : tree) (a : Z) (r : tree).

Definition root_of (t : tree) : Z := match t with E => 0 | T _ _ a _ => a end.

Fixpoint inorder (t : tree) : list Z :=
  match t with E => [] | T _ l a r => inorder l ++ a :: inorder r end.

(** [t] is in memory, and its root's parent is [p]. *)
Fixpoint rep (h : gmap Z node) (t : tree) (p : Z) : Prop :=
  match t with
  | E => True
  | T c l a r => a <> 0 /\ h !! a = Some (mkNode p c (root_of l) (root_of r)) /\ rep h l a /\ rep h r a
  end.

(** A tree with a hole: the path from the hole to the root. *)
Inductive frame := FL (black : bool) (a : Z) (r : tree) | FR (black : bool) (l : tree) (a : Z).
Definition ctx := list frame.

Definition fill (f : frame) (t : tree) : tree :=
  match f with FL c a r => T c t a r | FR c l a => T c l a t end.
Fixpoint plug (k : ctx) (t : tree) : tree :=
  match k with [] => t | f :: k => plug k (fill f t) end.

Definition frame_addr (f : frame) : Z := match f with FL _ a _ | FR _ _ a => a end.
Definition top (k : ctx) : Z := match k with [] => 0 | f :: _ => frame_addr f end.

Fixpoint pre (k : ctx) : list Z :=
  match k with
  | [] => []
  | FL _ _ _ :: k => pre k
  | FR _ l a :: k => pre k ++ inorder l ++ [a]
  end.
Fixpoint post (k : ctx) : list Z :=
  match k with
  | [] => []
  | FL _ a r :: k => a :: inorder r ++ post k
  | FR _ _ _ :: k => post k
  end.

Fixpoint repk (h : gmap Z node) (rp : Z) (k : ctx) (hole : Z) : Prop :=
  match k with
  | [] => rp = hole
  | FL c a r :: k =>
      a <> 0 /\ h !! a = Some (mkNode (top k) c hole (root_of r)) /\ rep h r a /\ repk h rp k a
  | FR c l a :: k =>
      a <> 0 /\ h !! a = Some (mkNode (top k) c (root_of l) hole) /\ rep h l a /\ repk h rp k a
  end.

Definition wf (st : rbstate) (t : tree) : Prop := rep (heap st) t 0 /\ root st = root_of t.

Lemma inorder_plug k t : inorder (plug k t) = pre k ++ inorder t ++ post k.
Proof.
  revert t. induction k as [|[c a r|c l a] k IH]; intros t; simpl; [by rewrite app_nil_r| |];
    rewrite IH; simpl; rewrite <- ?app_assoc; done.
Qed.

Lemma wf_plug st k t :
  wf st (plug k t) <-> rep (heap st) t (top k) /\ repk (heap st) (root st) k (root_of t).
Proof.
  revert t. induction k as [|[c a r|c l a] k IH]; intros t; simpl; [done| |];
    rewrite IH; simpl; tauto.
Qed.

(** ** Memory that agrees *)

Lemma rep_agree h h' t p :
  (forall q, q ∈ inorder t -> h' !! q = h !! q) -> rep h t p -> rep h' t p.
Proof.
  revert p. induction t as [|c l IHl a r IHr]; intros p Hq; simpl; [done|].
  intros (? & Ha & Hl & Hr). split_and!; auto.
  - rewrite Hq; [done|]. simpl. rewrite elem_of_app, elem_of_cons. auto.
  - apply IHl; [|done]. intros q Hin. apply Hq. simpl. rewrite elem_of_app. auto.
  - apply IHr; [|done]. intros q Hin. apply Hq. simpl. rewrite elem_of_app, elem_of_cons. auto.
Qed.

Lemma rep_insert h t p a n : a ∉ inorder t -> rep h t p -> rep (<[a := n]> h) t p.
Proof. intros Ha. apply rep_agree. intros q Hq. rewrite lookup_insert_ne; [done|]. by intros ->. Qed.

Lemma repk_agree h h' rp k hole :
  (forall q, q ∈ pre k ++ post k -> h' !! q = h !! q) -> repk h rp k hole -> repk h' rp k hole.
Proof.
  revert hole. induction k as [|[c a r|c l a] k IH]; intros hole Hq; simpl; [done| |];
    intros (? & Ha & Hr & Hk); (split_and!; [done| | |]).
  - rewrite Hq; [done|]. simpl. set_solver.
  - eapply rep_agree; [|done]. intros q Hin. apply Hq. simpl. set_solver.
  - apply IH; [|done]. intros q Hin. apply Hq. simpl. set_solver.
  - rewrite Hq; [done|]. simpl. set_solver.
  - eapply rep_agree; [|done]. intros q Hin. apply Hq. simpl. set_solver.
  - apply IH; [|done]. intros q Hin. apply Hq. simpl. set_solver.
Qed.

Lemma repk_insert h rp k hole a n :
  a ∉ pre k -> a ∉ post k -> repk h rp k hole -> repk (<[a := n]> h) rp k hole.
Proof.
  intros H1 H2. apply repk_agree. intros q Hq. rewrite lookup_insert_ne; [done|].
  intros ->. apply elem_of_app in Hq. tauto.
Qed.

(** ** Distinct addresses *)

(** Split a [NoDup] hypothesis into atoms. *)
Ltac nodup := cbn [inorder pre post] in *; nodup_atoms.

(** Symbolic execution in a memory given by updates. *)
Ltac look :=
  cbn [heap root];
  first
    [ eassumption
    | rewrite lookup_insert_eq; reflexivity
    | rewrite lookup_insert_ne by congruence; look ].

Ltac ox1 :=
  match goal with
  | |- ospec (_ ≫= _) _ _ => apply ospec_bind
  | |- ospec (mret _) _ _ => apply ospec_ret
  | |- ospec (load _ _) _ _ => eapply ospec_load; [look|]
  | |- ospec (store _ _) _ _ => eapply ospec_store; [look|]
  | |- ospec (get_left _) _ _ => unfold get_left
  | |- ospec (get_right _) _ _ => unfold get_right
  | |- ospec (set_left _ _) _ _ => unfold set_left
  | |- ospec (set_right _ _) _ _ => unfold set_right
  | |- ospec (set_word _ _) _ _ => unfold set_word
  | |- ospec (get_parent_color _) _ _ => unfold get_parent_color
  | |- ospec (hev_rbtree_node_parent _) _ _ => unfold hev_rbtree_node_parent
  | |- ospec (hev_rbtree_node_is_black _) _ _ => unfold hev_rbtree_node_is_black
  | |- ospec (hev_rbtree_node_is_red _) _ _ => unfold hev_rbtree_node_is_red
  | |- ospec (hev_rbtree_node_red_parent _) _ _ => unfold hev_rbtree_node_red_parent
  | |- ospec (hev_rbtree_node_set_black _) _ _ => unfold hev_rbtree_node_set_black
  | |- ospec (hev_rbtree_node_set_parent _ _) _ _ => unfold hev_rbtree_node_set_parent
  | |- ospec (hev_rbtree_node_set_parent_color _ _ _) _ _ => unfold hev_rbtree_node_set_parent_color
  | |- ospec (reparent_black _ _) _ _ => unfold reparent_black
  | |- ospec (reparent _ _) _ _ => unfold reparent
  | |- ospec (hev_rbtree_rotate_set_parents _ _ _) _ _ => unfold hev_rbtree_rotate_set_parents
  end; cbn [n_parent n_black n_left n_right heap root fst snd negb root_of]; rewrite ?Z.add_0_r.

(** Decide a test between pointers. *)
Ltac oeq :=
  match goal with
  | |- context [?a =? ?a] => rewrite (Z.eqb_refl a)
  | |- context [?a =? ?b] => rewrite (proj2 (Z.eqb_neq a b)) by congruence
  end; cbn [negb].
Ltac ox := repeat first [ox1 | oeq; cbn beta iota].

(** Establish [rep] in an updated memory. *)
Ltac reps :=
  cbn [rep repk heap root root_of top frame_addr];
  repeat match goal with
  | |- _ /\ _ => split
  | |- True => exact I
  | |- _ <> 0 => assumption
  | |- _ !! _ = Some _ => look
  | |- rep (<[_ := _]> _) _ _ => apply rep_insert; [assumption|]
  | |- repk (<[_ := _]> _) _ _ _ => apply repk_insert; [assumption|assumption|]
  | |- rep _ _ _ => eassumption
  | |- repk _ _ _ _ => eassumption
  end.

(** ** Replacing a child *)

Lemma change_child_wf st k old t :
  rep (heap st) t (top k) -> repk (heap st) (root st) k old -> old <> 0 ->
  old ∉ pre k -> old ∉ post k -> NoDup (pre k ++ inorder t ++ post k) ->
  ospec (hev_rbtree_change_child old (root_of t) (top k)) st (fun _ st' => wf st' (plug k t)).
Proof.
  intros Ht Hk Ho Hpre Hpost Hnd. unfold hev_rbtree_change_child.
  destruct k as [|[c a r|c l a] k]; cbn [top frame_addr pre post] in *.
  - cbn. split; done.
  - destruct Hk as (Ha & Hn & Hr & Hk). nodup. oeq.
    ox. apply wf_plug. reps.
  - destruct Hk as (Ha & Hn & Hr & Hk). nodup. oeq.
    assert (Hl : root_of l <> old) by (destruct l; simpl in *; nodup; congruence).
    ox. apply wf_plug. reps.
Qed.

(** ** The red-black invariant *)

(** [RB c n t]: the root of [t] is black iff [c], no red node has a red child,
    and every path to a leaf has [n] black nodes. *)
Inductive RB : bool -> nat -> tree -> Prop :=
  | RB_E : RB true 0 E
  | RB_red n l a r : RB true n l -> RB true n r -> RB false n (T false l a r)
  | RB_black c1 c2 n l a r : RB c1 n l -> RB c2 n r -> RB true (S n) (T true l a r).

(** [RBk k n]: a tree of black height [n] fits in the hole of [k]; it must be
    black if [must_black k]. *)
Definition must_black (k : ctx) : bool :=
  match k with [] => true | FL c _ _ :: _ | FR c _ _ :: _ => negb c end.

Inductive RBk : ctx -> nat -> Prop :=
  | RBk_nil n : RBk [] n
  | RBk_redL n a r k : RB true n r -> RBk k n -> must_black k = false -> RBk (FL false a r :: k) n
  | RBk_redR n l a k : RB true n l -> RBk k n -> must_black k = false -> RBk (FR false l a :: k) n
  | RBk_blackL c n a r k : RB c n r -> RBk k (S n) -> RBk (FL true a r :: k) n
  | RBk_blackR c n l a k : RB c n l -> RBk k (S n) -> RBk (FR true l a :: k) n.

Lemma RB_plug k c n t :
  RBk k n -> RB c n t -> (must_black k = true -> c = true) -> exists m, RB true m (plug k t).
Proof.
  intros Hk. revert c t. induction Hk; intros c0 t Ht Hc; simpl in *.
  - rewrite (Hc eq_refl) in Ht. eauto.
  - rewrite (Hc eq_refl) in Ht. eapply IHHk; [by constructor|]. congruence.
  - rewrite (Hc eq_refl) in Ht. eapply IHHk; [by constructor|]. congruence.
  - eapply IHHk; [by econstructor|done].
  - eapply IHHk; [by econstructor|done].
Qed.

Lemma RB_red_inv n l a r c : RB c n (T false l a r) -> c = false /\ RB true n l /\ RB true n r.
Proof. by inversion 1. Qed.
Lemma RB_black_inv n l a r c : RB c n (T true l a r) ->
  c = true /\ exists c1 c2 m, n = S m /\ RB c1 m l /\ RB c2 m r.
Proof. inversion 1; subst. split; [done|]. eauto 8. Qed.

(** The root of a tree that is required to be black. *)
Lemma RB_true_cases n t : RB true n t ->
  (t = E /\ n = 0%nat) \/ exists l a r m c1 c2, t = T true l a r /\ n = S m /\ RB c1 m l /\ RB c2 m r.
Proof. inversion 1; subst; eauto 12. Qed.

(** ** Insertion *)

(** The result of an operation that rearranges [t]: the same sequence, balanced. *)
Definition rebalanced (t : tree) (st' : rbstate) : Prop :=
  exists t', wf st' t' /\ inorder t' = inorder t /\ exists m, RB true m t'.

(** The last step of a rotation, with the new subtree [t'] in place of [t]. *)
Lemma rotate_last st k old t t' c n :
  rep (heap st) t' (top k) -> repk (heap st) (root st) k old -> old <> 0 ->
  old ∉ pre k -> old ∉ post k -> inorder t' = inorder t ->
  NoDup (inorder (plug k t)) -> RBk k n -> RB c n t' -> (must_black k = true -> c = true) ->
  ospec (hev_rbtree_change_child old (root_of t') (top k)) st
    (fun _ st' => rebalanced (plug k t) st').
Proof.
  intros Hr Hk Ho H1 H2 Hio Hnd Hrk Hrb Hc.
  eapply ospec_mono; [|apply (change_child_wf st k old t'); try done].
  2: by rewrite Hio, <- inorder_plug.
  intros [] st' Hw. exists (plug k t'). split_and!; [done|by rewrite !inorder_plug, Hio|].
  by eapply RB_plug.
Qed.

Ltac lists := cbn [inorder fill app]; repeat (rewrite <- app_assoc; cbn [app]); reflexivity.

Lemma rebalanced_ext t t' st : inorder t = inorder t' -> rebalanced t st -> rebalanced t' st.
Proof. intros E' (x & ? & ? & ?). exists x. split_and!; [done|congruence|done]. Qed.

(** Recursing one level up, at the recoloured subtree [t']. *)
Lemma flip_up st k t t' (m : O unit) :
  inorder t' = inorder t ->
  ospec m st (fun _ st' => rebalanced (plug k t') st') ->
  ospec m st (fun _ st' => rebalanced (plug k t) st').
Proof.
  intros Hio. apply ospec_mono. intros [] st'. apply rebalanced_ext. by rewrite !inorder_plug, Hio.
Qed.

Ltac rb := repeat first [eassumption | econstructor].
Ltac rotation k old t' :=
  eapply (rotate_last _ k old _ t'); [reps|reps|assumption|assumption|assumption|lists|assumption|eassumption|rb|done].
Ltac side t := destruct t; cbn [rep inorder root_of] in *; nodup; congruence.

Lemma nodup_ext k t t' : inorder t = inorder t' -> NoDup (inorder (plug k t)) -> NoDup (inorder (plug k t')).
Proof. rewrite !inorder_plug. by intros ->. Qed.

(** Case analysis on a tree with a black root. *)
Ltac on_black t H tac :=
  let l := fresh "l" in let a := fresh "a" in let r := fresh "r" in
  destruct t as [|[] l a r]; [|..|by inversion H];
  cbn [rep root_of] in *; destruct_and?; nodup; ox;
  [tac E|tac (T true l a r)].

Ltac on_tree t tac :=
  let b := fresh "b" in let l := fresh "l" in let a := fresh "a" in let r := fresh "r" in
  destruct t as [|b l a r];
  cbn [rep root_of] in *; destruct_and?; nodup; ox;
  [tac E|tac (T b l a r)].

Lemma insert_color_loop_ok fuel : forall k l n r m st,
  wf st (plug k (T RED l n r)) -> NoDup (inorder (plug k (T RED l n r))) ->
  RB true m l -> RB true m r -> RBk k m -> (length k < fuel)%nat ->
  ospec (insert_color_loop fuel n (top k)) st (fun _ st' => rebalanced (plug k (T RED l n r)) st').
Proof.
  induction fuel as [|fuel IH]; intros k l n r m st Hw Hnd Hl Hr Hk Hf; [lia|].
  pose proof Hw as Hw0. apply wf_plug in Hw as [Ht Hc].
  pose proof Hnd as Hnd0. rewrite inorder_plug in Hnd.
  destruct Ht as (Hn0 & Hn & Hln & Hrn). cbn [insert_color_loop].
  destruct k as [|f k'].
  { (* the root *)
    cbn [top]. rewrite Z.eqb_refl. nodup. ox. exists (T true l n r).
    split_and!; [|done|eexists; by econstructor].
    split; [reps|]. apply Hc. }
  destruct (must_black (f :: k')) eqn:Hmb0.
  2: { (* black parent *)
    destruct f as [[] p s|[] s p]; try done; destruct Hc as (Hp0 & Hp & Hs & Hc);
      cbn [top frame_addr]; ox; (eexists; split_and!; [exact Hw0|done|]);
      (eapply RB_plug; [exact Hk|by constructor|done]). }
  destruct f as [[] p s|[] s p]; try done; destruct Hc as (Hp0 & Hp & Hs & Hc);
    inversion Hk as [|? ? ? ? HRs Hk' Hmb|? ? ? ? HRs Hk' Hmb| |]; subst; cbn [top frame_addr];
    destruct k' as [|[[] g u|[] u g] k'']; try done; cbn [repk] in Hc;
    destruct Hc as (Hg0 & Hg & Hu & Hc); cbn [top frame_addr] in *; nodup;
    inversion Hk' as [| | |cu ? ? ? ? HRu Hk''|cu ? ? ? ? HRu Hk'']; subst;
    cbn [length] in Hf.
  - (* left of left *)
    assert (p <> root_of u) by side u. assert (n <> root_of s) by side s.
    destruct u as [|[] ul ua ur].
    + assert (cu = true) as -> by (by inversion HRu).
      on_black s HRs ltac:(fun s => rotation k'' g (T true (T RED l n r) p (T RED s g E))).
    + assert (cu = true) as -> by (by inversion HRu). cbn [rep root_of] in *. destruct_and?. nodup.
      on_black s HRs ltac:(fun s => rotation k'' g (T true (T RED l n r) p (T RED s g (T true ul ua ur)))).
    + apply RB_red_inv in HRu as (-> & ? & ?). cbn [rep root_of] in *. destruct_and?. nodup. ox.
      cbn [plug fill] in *. apply (flip_up _ k'' _ (T RED (T true (T RED l n r) p s) g (T true ul ua ur))); [lists|].
      apply (IH k'' _ _ _ (S m)); [apply wf_plug; reps| |rb|rb|eassumption|lia].
      by eapply nodup_ext; [|exact Hnd0]; lists.
  - (* left of right *)
    destruct u as [|[] ul ua ur].
    + assert (cu = true) as -> by (by inversion HRu).
      on_black l Hl ltac:(fun l => on_black r Hr ltac:(fun r => rotation k'' g (T true (T RED E g l) n (T RED r p s)))).
    + assert (cu = true) as -> by (by inversion HRu). cbn [rep root_of] in *. destruct_and?. nodup.
      on_black l Hl ltac:(fun l => on_black r Hr ltac:(fun r => rotation k'' g (T true (T RED (T true ul ua ur) g l) n (T RED r p s)))).
    + apply RB_red_inv in HRu as (-> & ? & ?). cbn [rep root_of] in *. destruct_and?. nodup. ox.
      cbn [plug fill] in *. apply (flip_up _ k'' _ (T RED (T true ul ua ur) g (T true (T RED l n r) p s))); [lists|].
      apply (IH k'' _ _ _ (S m)); [apply wf_plug; reps| |rb|rb|eassumption|lia].
      by eapply nodup_ext; [|exact Hnd0]; lists.
  - (* right of left *)
    assert (p <> root_of u) by side u.
    destruct u as [|[] ul ua ur].
    + assert (cu = true) as -> by (by inversion HRu).
      on_black l Hl ltac:(fun l => on_black r Hr ltac:(fun r => rotation k'' g (T true (T RED s p l) n (T RED r g E)))).
    + assert (cu = true) as -> by (by inversion HRu). cbn [rep root_of] in *. destruct_and?. nodup.
      on_black l Hl ltac:(fun l => on_black r Hr ltac:(fun r => rotation k'' g (T true (T RED s p l) n (T RED r g (T true ul ua ur))))).
    + apply RB_red_inv in HRu as (-> & ? & ?). cbn [rep root_of] in *. destruct_and?. nodup. ox.
      cbn [plug fill] in *. apply (flip_up _ k'' _ (T RED (T true s p (T RED l n r)) g (T true ul ua ur))); [lists|].
      apply (IH k'' _ _ _ (S m)); [apply wf_plug; reps| |rb|rb|eassumption|lia].
      by eapply nodup_ext; [|exact Hnd0]; lists.
  - (* right of right *)
    assert (n <> root_of s) by side s.
    destruct u as [|[] ul ua ur].
    + assert (cu = true) as -> by (by inversion HRu).
      on_black s HRs ltac:(fun s => rotation k'' g (T true (T RED E g s) p (T RED l n r))).
    + assert (cu = true) as -> by (by inversion HRu). cbn [rep root_of] in *. destruct_and?. nodup.
      on_black s HRs ltac:(fun s => rotation k'' g (T true (T RED (T true ul ua ur) g s) p (T RED l n r))).
    + apply RB_red_inv in HRu as (-> & ? & ?). cbn [rep root_of] in *. destruct_and?. nodup. ox.
      cbn [plug fill] in *. apply (flip_up _ k'' _ (T RED (T true ul ua ur) g (T true s p (T RED l n r)))); [lists|].
      apply (IH k'' _ _ _ (S m)); [apply wf_plug; reps| |rb|rb|eassumption|lia].
      by eapply nodup_ext; [|exact Hnd0]; lists.
Qed.

(** A path of a balanced tree. *)
Lemma RB_unplug k : forall m t, RB true m (plug k t) ->
  exists n c, RBk k n /\ RB c n t /\ (must_black k = true -> c = true).
Proof.
  induction k as [|f k IH]; intros m t Ht; simpl in *.
  { exists m, true. split_and!; [constructor|done|done]. }
  destruct (IH m _ Ht) as (n & c & Hk & Hf & Hc).
  destruct f as [[] a r|[] l a]; simpl in *.
  - apply RB_black_inv in Hf as (-> & c1 & c2 & j & -> & ? & ?).
    exists j, c1. split_and!; [by econstructor|done|done].
  - apply RB_red_inv in Hf as (-> & ? & ?). destruct (must_black k) eqn:Ek; [by specialize (Hc eq_refl)|].
    exists n, true. split_and!; [by constructor|done|done].
  - apply RB_black_inv in Hf as (-> & c1 & c2 & j & -> & ? & ?).
    exists j, c2. split_and!; [by econstructor|done|done].
  - apply RB_red_inv in Hf as (-> & ? & ?). destruct (must_black k) eqn:Ek; [by specialize (Hc eq_refl)|].
    exists n, true. split_and!; [by constructor|done|done].
Qed.

(** Where the caller's descent has ended. *)
Definition link_of (k : ctx) : link :=
  match k with [] => LinkRoot | FL _ a _ :: _ => LinkLeft a | FR _ _ a :: _ => LinkRight a end.

Lemma node_link_ok st k n :
  wf st (plug k E) -> NoDup (inorder (plug k E)) -> n <> 0 -> n ∉ inorder (plug k E) ->
  ospec (hev_rbtree_node_link n (top k) (link_of k)) st (fun _ st' =>
    wf st' (plug k (T RED E n E))).
Proof.
  intros Hw Hnd Hn Hin. apply wf_plug in Hw as [_ Hc]. rewrite inorder_plug in *. nodup.
  unfold hev_rbtree_node_link, ospec.
  destruct k as [|[c a r|c l a] k]; cbn [link_of set_link top frame_addr pre post repk] in *.
  - cbn. split; [|done]. reps.
  - destruct Hc as (Ha & Hx & Hr & Hc). nodup. unfold set_left, store. cbn [heap root].
    rewrite lookup_insert_ne, Hx by congruence. apply wf_plug. reps.
  - destruct Hc as (Ha & Hx & Hr & Hc). nodup. unfold set_right, store. cbn [heap root].
    rewrite lookup_insert_ne, Hx by congruence. apply wf_plug. reps.
Qed.

(** ** Removal: rebalancing *)

(** What the next round of the loop does, one level up. *)
Definition continues (continue : Z -> Z -> O unit) (k : ctx) (n : nat) : Prop :=
  k <> [] -> forall st t, wf st (plug k t) -> NoDup (inorder (plug k t)) -> RB true n t -> RBk k (S n) ->
  ospec (continue (root_of t) (top k)) st (fun _ st' => rebalanced (plug k t) st').

(** The tree as it is. *)
Lemma rebalanced_now st k t t' c n :
  wf st (plug k t') -> inorder t' = inorder t -> RBk k n -> RB c n t' -> (must_black k = true -> c = true) ->
  rebalanced (plug k t) st.
Proof.
  intros Hw Hio Hk Ht Hc. exists (plug k t'). split_and!; [done|by rewrite !inorder_plug, Hio|].
  by eapply RB_plug.
Qed.

Lemma top_nonzero st k hole : repk (heap st) (root st) k hole -> k <> [] -> top k <> 0.
Proof. destruct k as [|[] k]; [done| |]; intros (? & _) _; done. Qed.

(** Case 2: the colour flip. *)
Lemma flip_left st continue k c p t sl sa sr m :
  wf st (plug k (T c t p (T true sl sa sr))) -> NoDup (inorder (plug k (T c t p (T true sl sa sr)))) ->
  RB true m t -> RB true m sl -> RB true m sr ->
  RBk k (if c : bool then S (S m) else S m) -> (c = false -> must_black k = false) ->
  (c = true -> continues continue k (S m)) ->
  ospec (hev_rbtree_node_set_parent_color sa p RED ≫= (fun _ =>
      r ← hev_rbtree_node_is_red p;
      if r : bool then hev_rbtree_node_set_black p
      else gparent ← hev_rbtree_node_parent p;
           if negb (gparent =? 0) then continue p gparent else mret tt)) st
    (fun _ st' => rebalanced (plug k (T c t p (T true sl sa sr))) st').
Proof.
  intros Hw Hnd Ht Hsl Hsr Hk Hc Hcont. apply wf_plug in Hw as [Hr Hrk].
  pose proof Hnd as Hnd0. rewrite inorder_plug in Hnd.
  cbn [rep root_of] in Hr. destruct_and?. nodup.
  destruct c; ox; cbn [negb].
  - destruct (decide (k = [])) as [->|Hne].
    + cbn [top] in *. ox.
      eapply (rebalanced_now _ [] _ (T true t p (T false sl sa sr))); [|lists|constructor|rb|done].
      apply (wf_plug _ []). split; [reps|exact Hrk].
    + pose proof (top_nonzero _ _ _ Hrk Hne). oeq.
      apply (flip_up _ k _ (T true t p (T false sl sa sr))); [lists|].
      apply (Hcont eq_refl Hne _ (T true t p (T false sl sa sr))); [apply wf_plug; reps| |rb|done].
      by eapply nodup_ext; [|exact Hnd0]; lists.
  - eapply (rebalanced_now _ k _ (T true t p (T false sl sa sr))); [apply wf_plug; reps|lists|done|rb|done].
Qed.

Lemma flip_right st continue k c p t sl sa sr m :
  wf st (plug k (T c (T true sl sa sr) p t)) -> NoDup (inorder (plug k (T c (T true sl sa sr) p t))) ->
  RB true m t -> RB true m sl -> RB true m sr ->
  RBk k (if c : bool then S (S m) else S m) -> (c = false -> must_black k = false) ->
  (c = true -> continues continue k (S m)) ->
  ospec (hev_rbtree_node_set_parent_color sa p RED ≫= (fun _ =>
      r ← hev_rbtree_node_is_red p;
      if r : bool then hev_rbtree_node_set_black p
      else gparent ← hev_rbtree_node_parent p;
           if negb (gparent =? 0) then continue p gparent else mret tt)) st
    (fun _ st' => rebalanced (plug k (T c (T true sl sa sr) p t)) st').
Proof.
  intros Hw Hnd Ht Hsl Hsr Hk Hc Hcont. apply wf_plug in Hw as [Hr Hrk].
  pose proof Hnd as Hnd0. rewrite inorder_plug in Hnd.
  cbn [rep root_of] in Hr. destruct_and?. nodup.
  destruct c; ox; cbn [negb].
  - destruct (decide (k = [])) as [->|Hne].
    + cbn [top] in *. ox.
      eapply (rebalanced_now _ [] _ (T true (T false sl sa sr) p t)); [|lists|constructor|rb|done].
      apply (wf_plug _ []). split; [reps|exact Hrk].
    + pose proof (top_nonzero _ _ _ Hrk Hne). oeq.
      apply (flip_up _ k _ (T true (T false sl sa sr) p t)); [lists|].
      apply (Hcont eq_refl Hne _ (T true (T false sl sa sr) p t)); [apply wf_plug; reps| |rb|done].
      by eapply nodup_ext; [|exact Hnd0]; lists.
  - eapply (rebalanced_now _ k _ (T true (T false sl sa sr) p t)); [apply wf_plug; reps|lists|done|rb|done].
Qed.

Lemma RBk_colour k m (c : bool) : RBk k (if c then S (S m) else S m) ->
  (c = false -> must_black k = false) -> must_black k = true -> c = true.
Proof. intros _ Hc Hm. destruct c; [done|]. by rewrite Hc in Hm. Qed.

(** Two black subtrees under a node of colour [c]. *)
Lemma RB_join (c : bool) m l a r : RB true (S m) l -> RB true (S m) r ->
  RB c (if c then S (S m) else S m) (T c l a r).
Proof. intros Hl Hr. destruct c; by econstructor. Qed.

Lemma null_or_black_spec st t p c n (P : bool -> rbstate -> Prop) :
  rep (heap st) t p -> RB c n t -> P c st -> ospec (null_or_black (root_of t)) st P.
Proof.
  intros Hr Ht HP. unfold null_or_black. destruct t as [|b l a r]; cbn [root_of rep] in *.
  - inversion Ht; subst. by apply ospec_ret.
  - destruct_and?. oeq. ox. by inversion Ht; subst.
Qed.

Ltac final k old t' :=
  eapply (rotate_last _ k old _ t');
    [reps|reps|assumption|assumption|assumption|lists|assumption|eassumption|apply RB_join; rb
    |by eapply RBk_colour].

Lemma erase_black_left_ok st continue k c p t sl sa sr m c1 c2 :
  wf st (plug k (T c t p (T true sl sa sr))) -> NoDup (inorder (plug k (T c t p (T true sl sa sr)))) ->
  RB true m t -> RB c1 m sl -> RB c2 m sr ->
  RBk k (if c : bool then S (S m) else S m) -> (c = false -> must_black k = false) ->
  (c = true -> continues continue k (S m)) ->
  ospec (erase_black_left continue p sa) st
    (fun _ st' => rebalanced (plug k (T c t p (T true sl sa sr))) st').
Proof.
  intros Hw Hnd Ht Hsl Hsr Hk Hc Hcont. pose proof Hw as Hw0. apply wf_plug in Hw as [Hr Hrk].
  pose proof Hnd as Hnd0. rewrite inorder_plug in Hnd.
  cbn [rep root_of] in Hr. destruct_and?. nodup. unfold erase_black_left, erase_case4_left.
  ox1. ox1. ox1. ox1. eapply null_or_black_spec; [eassumption..|].
  destruct c2.
  - ox1. ox1. ox1. ox1. eapply null_or_black_spec; [eassumption..|]. destruct c1.
    { by eapply flip_left. }
    destruct sl as [|[] sll sla slr]; [by inversion Hsl..|]. apply RB_red_inv in Hsl as (_ & Hl1 & Hr1).
    cbn [rep root_of] in *. destruct_and?. nodup.
    on_black slr Hr1 ltac:(fun slr => on_black sll Hl1 ltac:(fun sll =>
      final k p (T c (T true t p sll) sla (T true slr sa sr)))).
  - destruct sr as [|[] srl sra srr]; [by inversion Hsr..|]. apply RB_red_inv in Hsr as (_ & ? & ?).
    cbn [rep root_of] in *. destruct_and?. nodup.
    on_tree sl ltac:(fun sl => final k p (T c (T true t p sl) sa (T true srl sra srr))).
Qed.

Lemma erase_black_right_ok st continue k c p t sl sa sr m c1 c2 :
  wf st (plug k (T c (T true sl sa sr) p t)) -> NoDup (inorder (plug k (T c (T true sl sa sr) p t))) ->
  RB true m t -> RB c1 m sl -> RB c2 m sr ->
  RBk k (if c : bool then S (S m) else S m) -> (c = false -> must_black k = false) ->
  (c = true -> continues continue k (S m)) ->
  ospec (erase_black_right continue p sa) st
    (fun _ st' => rebalanced (plug k (T c (T true sl sa sr) p t)) st').
Proof.
  intros Hw Hnd Ht Hsl Hsr Hk Hc Hcont. pose proof Hw as Hw0. apply wf_plug in Hw as [Hr Hrk].
  pose proof Hnd as Hnd0. rewrite inorder_plug in Hnd.
  cbn [rep root_of] in Hr. destruct_and?. nodup. unfold erase_black_right, erase_case4_right.
  ox1. ox1. ox1. ox1. eapply null_or_black_spec; [eassumption..|].
  destruct c1.
  - ox1. ox1. ox1. ox1. eapply null_or_black_spec; [eassumption..|]. destruct c2.
    { by eapply flip_right. }
    destruct sr as [|[] srl sra srr]; [by inversion Hsr..|]. apply RB_red_inv in Hsr as (_ & Hl1 & Hr1).
    cbn [rep root_of] in *. destruct_and?. nodup.
    on_black srl Hl1 ltac:(fun srl => on_black srr Hr1 ltac:(fun srr =>
      final k p (T c (T true sl sa srl) sra (T true srr p t)))).
  - destruct sl as [|[] sll sla slr]; [by inversion Hsl..|]. apply RB_red_inv in Hsl as (_ & ? & ?).
    cbn [rep root_of] in *. destruct_and?. nodup.
    on_tree sr ltac:(fun sr => final k p (T c (T true sll sla slr) sa (T true sr p t))).
Qed.

Lemma RBk_sibling f k m : RBk (f :: k) (S m) ->
  let '(c, s) := match f with FL c _ s => (c, s) | FR c s _ => (c, s) end in
  exists cs, RB cs (S m) s /\ RBk k (if c : bool then S (S m) else S m)
    /\ (c = false -> must_black k = false /\ cs = true).
Proof. inversion 1; subst; eexists; split_and!; eauto; done. Qed.

Lemma RB_S_inv c m s : RB c (S m) s ->
  (c = true /\ exists c1 c2 l a r, s = T true l a r /\ RB c1 m l /\ RB c2 m r) \/
  (c = false /\ exists l a r, s = T false l a r /\ RB true (S m) l /\ RB true (S m) r).
Proof. inversion 1; subst; [right|left]; eauto 12. Qed.

(** Case 1: after the rotation the sibling is black and the parent red. *)
Lemma erase_red_left st continue k p t sl sa sr m :
  wf st (plug k (T true t p (T false sl sa sr))) ->
  NoDup (inorder (plug k (T true t p (T false sl sa sr)))) ->
  RB true m t -> RB true (S m) sl -> RB true (S m) sr -> RBk k (S (S m)) ->
  ospec (sibling ← (tmp1 ← get_left sa;
                    set_right p tmp1;; set_left sa p;;
                    hev_rbtree_node_set_parent_color tmp1 p BLACK;;
                    hev_rbtree_rotate_set_parents p sa RED;;
                    mret tmp1);
         erase_black_left continue p sibling) st
    (fun _ st' => rebalanced (plug k (T true t p (T false sl sa sr))) st').
Proof.
  intros Hw Hnd Ht Hsl Hsr Hk. apply wf_plug in Hw as [Hr Hrk].
  pose proof Hnd as Hnd0. rewrite inorder_plug in Hnd.
  destruct (RB_S_inv _ _ _ Hsl) as [(_ & c1 & c2 & xl & x & xr & -> & ? & ?)|(? & _)]; [|done].
  cbn [rep root_of] in Hr. destruct_and?. nodup. ox.
  set (t' := T true (T false t p (T true xl x xr)) sa sr).
  assert (Hio : inorder t' = inorder (T true t p (T false (T true xl x xr) sa sr))) by (subst t'; lists).
  eapply ospec_mono; [|apply (change_child_wf _ k p t'); [subst t'; reps|reps|assumption..|]].
  2: by rewrite Hio, <- inorder_plug.
  intros [] st' Hw'. ox.
  apply (flip_up _ k _ t' _ Hio).
  apply (erase_black_left_ok st' continue (FL true sa sr :: k) false p t xl x xr m c1 c2); try done.
  - by apply (nodup_ext k _ t' (eq_sym Hio)).
  - by econstructor.
Qed.

Lemma erase_red_right st continue k p t sl sa sr m :
  wf st (plug k (T true (T false sl sa sr) p t)) ->
  NoDup (inorder (plug k (T true (T false sl sa sr) p t))) ->
  RB true m t -> RB true (S m) sl -> RB true (S m) sr -> RBk k (S (S m)) ->
  ospec (sibling ← (tmp1 ← get_right sa;
                    set_left p tmp1;; set_right sa p;;
                    hev_rbtree_node_set_parent_color tmp1 p BLACK;;
                    hev_rbtree_rotate_set_parents p sa RED;;
                    mret tmp1);
         erase_black_right continue p sibling) st
    (fun _ st' => rebalanced (plug k (T true (T false sl sa sr) p t)) st').
Proof.
  intros Hw Hnd Ht Hsl Hsr Hk. apply wf_plug in Hw as [Hr Hrk].
  pose proof Hnd as Hnd0. rewrite inorder_plug in Hnd.
  destruct (RB_S_inv _ _ _ Hsr) as [(_ & c1 & c2 & xl & x & xr & -> & ? & ?)|(? & _)]; [|done].
  cbn [rep root_of] in Hr. destruct_and?. nodup. ox.
  set (t' := T true sl sa (T false (T true xl x xr) p t)).
  assert (Hio : inorder t' = inorder (T true (T false sl sa (T true xl x xr)) p t)) by (subst t'; lists).
  eapply ospec_mono; [|apply (change_child_wf _ k p t'); [subst t'; reps|reps|assumption..|]].
  2: by rewrite Hio, <- inorder_plug.
  intros [] st' Hw'. ox.
  apply (flip_up _ k _ t' _ Hio).
  apply (erase_black_right_ok st' continue (FR true sl sa :: k) false p t xl x xr m c1 c2); try done.
  - by apply (nodup_ext k _ t' (eq_sym Hio)).
  - by econstructor.
Qed.

(** The loop: [t] has one black node too few on its paths. *)
Lemma erase_color_ok fuel : forall k t m st,
  wf st (plug k t) -> NoDup (inorder (plug k t)) -> RB true m t -> RBk k (S m) -> k <> [] ->
  (length k <= fuel)%nat ->
  ospec (hev_rbtree_erase_color fuel (root_of t) (top k)) st (fun _ st' => rebalanced (plug k t) st').
Proof.
  induction fuel as [|fuel IH]; intros k t m st Hw Hnd Ht Hk Hne Hf.
  { destruct k; [done|]. simpl in Hf. lia. }
  destruct k as [|f k]; [done|]. cbn [length] in Hf.
  assert (Hcont : continues (hev_rbtree_erase_color fuel) k (S m)).
  { intros Hk0 st' t' Hw' Hnd' Ht' Hk'. apply (IH k t' (S m)); try done. lia. }
  cbn [hev_rbtree_erase_color plug]. pose proof Hw as Hw0. pose proof Hnd as Hnd0.
  rewrite inorder_plug in Hnd. apply wf_plug in Hw as [Hr Hc].
  pose proof (RBk_sibling _ _ _ Hk) as HS.
  destruct f as [c p s|c s p]; cbn [fill plug top frame_addr repk] in *;
    destruct Hc as (Hp0 & Hp & Hs & Hc); destruct HS as (cs & HR & Hk' & Hcc);
    destruct (RB_S_inv _ _ _ HR) as [(-> & c1 & c2 & sl & sa & sr & -> & ? & ?)|(-> & sl & sa & sr & -> & ? & ?)];
    cbn [root_of rep] in *; destruct_and?; nodup;
    assert (root_of t <> sa) by (destruct t; cbn [root_of inorder] in *; nodup; congruence).
  - ox. eapply erase_black_left_ok; try done. intros E'. by destruct (Hcc E').
  - destruct c; [|by destruct (Hcc eq_refl)]. ox1. ox1. ox1. oeq. ox1. ox1. ox1. ox1. ox1.
    by eapply erase_red_left.
  - ox. eapply erase_black_right_ok; try done. intros E'. by destruct (Hcc E').
  - destruct c; [|by destruct (Hcc eq_refl)]. ox1. ox1. ox1. oeq. ox1. ox1. ox1. ox1. ox1. ox1. ox1. ox1.
    by eapply erase_red_right.
Qed.
