(* ===== verification/RBErase.v ===== *)
(** * Red-black trees: removal

    [_hev_rbtree_erase] and [hev_rbtree_erase] of [RBTree], on top of the
    rebalancing proved in [RBTreeSpec]. *)

From S2P Require Import Prelude RBTree RBTreeSpec.

Lemma change_child_repk st k old new :
  repk (heap st) (root st) k old -> old <> 0 -> old ∉ pre k -> old ∉ post k -> NoDup (pre k ++ post k) ->
  ospec (hev_rbtree_change_child old new (top k)) st (fun _ st' =>
    repk (heap st') (root st') k new /\
    forall q, q ∉ pre k -> q ∉ post k -> heap st' !! q = heap st !! q).
Proof.
  intros Hk Ho Hpre Hpost Hnd. unfold hev_rbtree_change_child.
  destruct k as [|[c a r|c l a] k]; cbn [top frame_addr pre post] in *.
  - cbn. split; done.
  - destruct Hk as (Ha & Hn & Hr & Hk). nodup. oeq. ox. split; [reps|].
    intros q _ Hq. nodup. by rewrite lookup_insert_ne by congruence.
  - destruct Hk as (Ha & Hn & Hr & Hk). nodup. oeq.
    assert (Hl : root_of l <> old) by (destruct l; simpl in *; nodup; congruence).
    ox. split; [reps|]. intros q Hq _. nodup. by rewrite lookup_insert_ne by congruence.
Qed.

(** What [_hev_rbtree_erase] leaves behind: the sequence without the node, and
    either a balanced tree or one leaf that is a black node short. *)
Definition unlinked (l : list Z) (reb : Z) (st' : rbstate) : Prop :=
  exists k t, wf st' (plug k t) /\ inorder (plug k t) = l
    /\ ((reb = 0 /\ exists m, RB true m (plug k t))
        \/ (reb = top k /\ k <> [] /\ reb <> 0 /\ t = E /\ RBk k 1)).

Lemma repk_top_zero h rp k hole : repk h rp k hole -> top k = 0 -> k = [].
Proof. destruct k as [|[] k]; [done| |]; intros (Ha & _) E'; by destruct Ha. Qed.

(** Without black nodes a tree is empty or a red leaf. *)
Lemma RB_0_inv c t : RB c 0 t -> (t = E /\ c = true) \/ (exists a, t = T false E a E /\ c = false).
Proof.
  inversion 1 as [|n l a r Hl Hr|]; subst; [by left|right]. exists a.
  inversion Hl; subst. by inversion Hr; subst.
Qed.

(** A node whose left child is missing: the other one is missing, or a red leaf
    under a black node. *)
Lemma RB_one_child c j n r : RB c j (T c E n r) ->
  (c = true /\ j = 1%nat /\ (r = E \/ exists a, r = T false E a E)) \/ (c = false /\ j = 0%nat /\ r = E).
Proof.
  destruct c.
  - intros Ht. apply RB_black_inv in Ht as (_ & c1 & c2 & m & -> & H1 & H2).
    assert (m = 0%nat) as -> by (by inversion H1).
    left. destruct (RB_0_inv _ _ H2) as [[-> _]|(a & -> & _)]; eauto.
  - intros Ht. apply RB_red_inv in Ht as (_ & H1 & H2). assert (j = 0%nat) as -> by (by inversion H1).
    right. destruct (RB_0_inv _ _ H2) as [[-> _]|(a & _ & ?)]; done.
Qed.

Lemma RB_left_only c j l n : RB c j (T c l n E) -> l = E \/ exists a, l = T false E a E.
Proof.
  assert (HE : forall c' m, RB c' m E -> m = 0%nat) by (by inversion 1).
  destruct c; intros Ht.
  - apply RB_black_inv in Ht as (_ & c1 & c2 & m & _ & H1 & H2). rewrite (HE _ _ H2) in H1.
    destruct (RB_0_inv _ _ H1) as [[-> _]|(a & -> & _)]; eauto.
  - apply RB_red_inv in Ht as (_ & H1 & H2). rewrite (HE _ _ H2) in H1.
    destruct (RB_0_inv _ _ H1) as [[-> _]|(a & _ & ?)]; [by left|done].
Qed.

(** A node without a left child. *)
Lemma unlink_no_left fuel st k c n r j :
  wf st (plug k (T c E n r)) -> NoDup (inorder (plug k (T c E n r))) ->
  RBk k j -> RB c j (T c E n r) -> (must_black k = true -> c = true) ->
  ospec (hev_rbtree_unlink fuel n) st (unlinked (pre k ++ inorder r ++ post k)).
Proof.
  intros Hw Hnd Hk Ht Hc. apply wf_plug in Hw as [Hr Hrk]. rewrite inorder_plug in Hnd.
  cbn [rep root_of] in *. destruct Hr as (Hn0 & Hn & _ & Hr). nodup.
  unfold hev_rbtree_unlink. ox.
  eapply ospec_mono; [|apply (change_child_repk st k n (root_of r)); try done; by apply nodup_app].
  intros [] st' [Hk' Hag].
  assert (Hend : root_of r = 0 -> r = E) by (destruct r; [done|]; destruct Hr; done).
  destruct (RB_one_child _ _ _ _ Ht) as [(-> & -> & [->|[a ->]])|(-> & -> & ->)]; cbn [root_of] in *.
  - ox. exists k, E. split; [by apply wf_plug|]. split; [by rewrite inorder_plug|].
    destruct (decide (top k = 0)) as [E'|E'].
    + left. split; [done|]. rewrite (repk_top_zero _ _ _ _ Hrk E'). eexists. simpl. by constructor.
    + right. split_and!; try done. by intros ->.
  - cbn [rep root_of] in Hr. destruct Hr as (Ha0 & Ha & _). nodup. rewrite <- Hag in Ha by done. ox.
    exists k, (T true E a E). split; [apply wf_plug; reps|]. split; [by rewrite inorder_plug|].
    left. split; [done|]. eapply RB_plug; [done|by econstructor; constructor|done].
  - ox. exists k, E. split; [by apply wf_plug|]. split; [by rewrite inorder_plug|].
    left. split; [done|]. eapply RB_plug; [done|by constructor|done].
Qed.

(** A node with a left child only: a black node with a red leaf. *)
Lemma unlink_no_right fuel st k c n a j :
  wf st (plug k (T c (T false E a E) n E)) -> NoDup (inorder (plug k (T c (T false E a E) n E))) ->
  RBk k j -> RB c j (T c (T false E a E) n E) ->
  ospec (hev_rbtree_unlink fuel n) st (unlinked (pre k ++ [a] ++ post k)).
Proof.
  intros Hw Hnd Hk Ht. apply wf_plug in Hw as [Hr Hrk]. rewrite inorder_plug in Hnd.
  cbn [rep root_of] in *. destruct_and?. nodup.
  destruct c; [|apply RB_red_inv in Ht as (_ & H1' & _); by inversion H1'].
  unfold hev_rbtree_unlink. ox.
  eapply ospec_mono; [|apply (change_child_wf _ k n (T true E a E)); [reps|reps|assumption..|]].
  2: { cbn [inorder app]. apply nodup_app. split_and!; [done|apply disj_cons_r; done|].
       by apply NoDup_cons. }
  intros [] st' Hw'. ox. exists k, (T true E a E). split; [done|]. split; [by rewrite inorder_plug|].
  left. split; [done|]. apply RB_black_inv in Ht as (_ & c1 & c2 & m & -> & H1' & H2').
  assert (m = 0%nat) as -> by (by inversion H2').
  eapply RB_plug; [done|by econstructor; constructor|done].
Qed.

(** Both children present: the successor takes the place of the node, and its
    right subtree moves up.  That is a black node short ([short]) if the
    successor was black and there is no such subtree. *)
Definition short (t : tree) (c : bool) (p : Z) : Z :=
  match t with E => if c then p else 0 | T _ _ _ _ => 0 end.
Definition blacken (t : tree) : tree := match t with E => E | T _ l a r => T true l a r end.

Lemma unlink_next fuel st k c n l cs s sr :
  l <> E ->
  wf st (plug k (T c l n (T cs E s sr))) -> NoDup (inorder (plug k (T c l n (T cs E s sr)))) ->
  ospec (hev_rbtree_unlink fuel n) st (fun reb st' =>
    wf st' (plug (FR c l s :: k) (blacken sr))
    /\ reb = short sr cs s).
Proof.
  intros Hl Hw Hnd. apply wf_plug in Hw as [Hr Hrk]. rewrite inorder_plug in Hnd.
  destruct l as [|cl ll la lr]; [done|].
  cbn [rep root_of] in *. destruct_and?. nodup.
  unfold hev_rbtree_unlink. ox.
  eapply ospec_mono; [|apply (change_child_repk _ k n s)]; cbn [heap root]; [|reps|done..|by apply nodup_app].
  intros [] st' [Hk' Hag]. cbn [heap] in Hag.
  assert (Hx : forall t p, disj (pre k) (inorder t) -> disj (inorder t) (post k) ->
    rep (<[la:=mkNode s cl (root_of ll) (root_of lr)]>
        (<[s:=mkNode n cs la (root_of sr)]> (heap st))) t p -> rep (heap st') t p).
  { intros t p D1 D2. apply rep_agree. intros q Hq. apply Hag; [|by apply D2].
    intros Hin. by apply (D1 q). }
  assert (Hs' : heap st' !! s = Some (mkNode n cs la (root_of sr))) by (rewrite Hag by done; look).
  assert (Hla' : heap st' !! la = Some (mkNode s cl (root_of ll) (root_of lr))) by (rewrite Hag by done; look).
  assert (rep (heap st') ll la) by (apply Hx; [done|done|reps]).
  assert (rep (heap st') lr la) by (apply Hx; [done|done|reps]).
  destruct sr as [|csr srl sra srr]; cbn [rep root_of] in *; destruct_and?; nodup.
  - ox. split; [|by destruct cs]. cbn [blacken]. apply wf_plug. reps.
  - assert (heap st' !! sra = Some (mkNode s csr (root_of srl) (root_of srr))) by (rewrite Hag by done; look).
    assert (rep (heap st') srl sra) by (apply Hx; [done|done|reps]).
    assert (rep (heap st') srr sra) by (apply Hx; [done|done|reps]).
    ox. split; [|done]. cbn [blacken]. apply wf_plug. reps.
Qed.

(** *** The way to the successor

    A part of a path, from a hole up to a node whose parent is [base]. *)
Definition top_or (k : ctx) (base : Z) : Z := match k with [] => base | f :: _ => frame_addr f end.
Fixpoint bottom (k : ctx) (hole : Z) : Z :=
  match k with [] => hole | f :: k => bottom k (frame_addr f) end.

Fixpoint repi (h : gmap Z node) (k : ctx) (base hole : Z) : Prop :=
  match k with
  | [] => True
  | FL c a r :: k =>
      a <> 0 /\ h !! a = Some (mkNode (top_or k base) c hole (root_of r)) /\ rep h r a /\ repi h k base a
  | FR c l a :: k =>
      a <> 0 /\ h !! a = Some (mkNode (top_or k base) c (root_of l) hole) /\ rep h l a /\ repi h k base a
  end.

Definition left_frame (f : frame) : Prop := match f with FL _ _ _ => True | FR _ _ _ => False end.

Lemma plug_app k1 k2 t : plug (k1 ++ k2) t = plug k2 (plug k1 t).
Proof. revert t. induction k1; intros t; simpl; auto. Qed.

Lemma root_of_plug k t : root_of (plug k t) = bottom k (root_of t).
Proof.
  revert t. induction k as [|f k IH]; intros t; simpl; [done|]. rewrite IH. by destruct f.
Qed.

Lemma rep_plug h k t base :
  rep h (plug k t) base <-> rep h t (top_or k base) /\ repi h k base (root_of t).
Proof.
  revert t. induction k as [|[c a r|c l a] k IH]; intros t; simpl; [tauto| |];
    rewrite IH; simpl; tauto.
Qed.

Lemma repk_app h rp k1 k2 hole :
  repk h rp (k1 ++ k2) hole <-> repi h k1 (top k2) hole /\ repk h rp k2 (bottom k1 hole).
Proof.
  revert hole. induction k1 as [|[c a r|c l a] k1 IH]; intros hole; simpl; [tauto| |];
    rewrite IH; (destruct k1 as [|[]]; simpl; tauto).
Qed.

Lemma repi_agree h h' k base hole :
  (forall q, q ∈ pre k ++ post k -> h' !! q = h !! q) -> repi h k base hole -> repi h' k base hole.
Proof.
  revert hole. induction k as [|[c a r|c l a] k IH]; intros hole Hq; simpl; [done| |];
    intros (? & Ha & Hr & Hk); (split_and!; [done| | |]).
  - rewrite Hq; [done|]. simpl. set_solver.
  - eapply rep_agree; [|done]. intros q Hin. apply Hq. simpl. set_solver.
  - apply IH; [|done]. intros q Hin. apply Hq. simpl. set_solver.
  - rewrite Hq; [done|]. simpl. set_solver.
  - eapply rep_agree; [|done]. intros q Hin. apply Hq. simpl. set_solver.
  - apply IH; [|done]. intros q Hin. apply Hq. simpl. set_solver.
Qed.

Lemma pre_left k : Forall left_frame k -> pre k = [].
Proof. induction 1 as [|[] ?]; simpl; auto; done. Qed.
Lemma pre_app k1 k2 : pre (k1 ++ k2) = pre k2 ++ pre k1.
Proof.
  induction k1 as [|[] k1 IH]; simpl; [by rewrite app_nil_r|done|].
  rewrite IH. by rewrite <- !app_assoc.
Qed.
Lemma post_app k1 k2 : post (k1 ++ k2) = post k1 ++ post k2.
Proof. induction k1 as [|[] k1 IH]; simpl; [done| |done]. rewrite IH. by rewrite <- !app_assoc. Qed.

Lemma successor_loop_ok fuel : forall t succ st,
  t <> E -> rep (heap st) t succ -> (length (inorder t) <= fuel)%nat ->
  exists k c s r, t = plug k (T c E s r) /\ Forall left_frame k /\
    ospec (successor_loop fuel succ (root_of t)) st (fun x st' => st' = st /\ x = (top_or k succ, s)).
Proof.
  induction fuel as [|fuel IH]; intros t succ st Ht Hr Hf; destruct t as [|c l a r]; try done.
  { simpl in Hf. rewrite length_app in Hf. simpl in Hf. lia. }
  cbn [rep root_of] in *. destruct Hr as (Ha0 & Ha & Hl & Hr).
  destruct l as [|cl ll la lr] eqn:El.
  - exists [], c, a, r. split_and!; [done|constructor|]. cbn [successor_loop]. ox. done.
  - rewrite <- El in *. destruct (IH l a st) as (k & c' & s & r' & Hk & Hfl & Hsp); [by rewrite El|done| |].
    { cbn [inorder] in Hf. rewrite length_app in Hf. simpl in Hf. lia. }
    exists (k ++ [FL c a r]), c', s, r'. split_and!.
    + rewrite plug_app, <- Hk. done.
    + apply Forall_app. split; [done|]. by repeat constructor.
    + cbn [successor_loop]. assert (root_of l <> 0) by (subst l; simpl in Hl; tauto). ox.
      eapply ospec_mono; [|exact Hsp]. intros x st' (-> & ->). split; [done|]. by destruct k.
Qed.

(** Hang another subtree into the hole. *)
Lemma repi_set_left h k base hole new :
  k <> [] -> Forall left_frame k -> NoDup (post k) -> repi h k base hole ->
  exists nd, h !! top k = Some nd /\
    repi (<[top k := mkNode (n_parent nd) (n_black nd) new (n_right nd)]> h) k base new.
Proof.
  intros Hne Hfl Hnd Hk. destruct k as [|[c a r|] k]; [done| |by inversion Hfl].
  cbn [repi top frame_addr] in *. destruct Hk as (Ha & Hx & Hr & Hk). inversion Hfl; subst. nodup.
  eexists. split; [exact Hx|]. simpl. split_and!; [done|by rewrite lookup_insert_eq| |].
  - by apply rep_insert.
  - eapply repi_agree; [|exact Hk]. intros q Hq. rewrite (pre_left k) in Hq by done.
    rewrite lookup_insert_ne; [done|]. by intros ->.
Qed.

(** Change the parent of the outermost node. *)
Lemma repi_set_parent h k c a r base base' hole :
  Forall left_frame k -> NoDup (post (k ++ [FL c a r])) -> repi h (k ++ [FL c a r]) base hole ->
  exists nd, h !! a = Some nd /\
    repi (<[a := mkNode base' (n_black nd) (n_left nd) (n_right nd)]> h) (k ++ [FL c a r]) base' hole.
Proof.
  intros Hfl Hnd. revert hole. induction k as [|[c0 a0 r0|] k IH]; intros hole Hk; [| |by inversion Hfl].
  - cbn [app repi top_or] in *. destruct Hk as (Ha & Hx & Hr & _). nodup.
    eexists. split; [exact Hx|]. simpl. split_and!; [done|by rewrite lookup_insert_eq| |done].
    by apply rep_insert.
  - cbn [app repi] in *. destruct Hk as (Ha & Hx & Hr & Hk). inversion Hfl; subst.
    assert (Ha' : a ∈ post (k ++ [FL c a r])) by (rewrite post_app; set_solver).
    cbn [post] in Hnd. apply NoDup_cons in Hnd as [Hn1 Hnd].
    apply nodup_app in Hnd as (_ & Hn2 & Hnd). apply not_elem_of_app in Hn1 as [_ Hn1].
    destruct (IH H2 Hnd a0 Hk) as (nd & Hnd1 & Hk'). exists nd. split_and!; [done|done| | |done].
    + rewrite lookup_insert_ne, Hx by congruence. by destruct k.
    + apply rep_insert; [|done]. intros Hin. by apply (Hn2 a).
Qed.

(** Take the successor out of its place: its parent adopts its right subtree,
    and it adopts the whole right subtree of the node. *)
Lemma splice_out st k c a r n s x nd :
  Forall left_frame k -> NoDup (post (k ++ [FL c a r])) -> s ∉ post (k ++ [FL c a r]) ->
  repi (heap st) (k ++ [FL c a r]) n s -> heap st !! s = Some nd ->
  ospec (set_left (top (k ++ [FL c a r])) x ≫= (fun _ =>
         set_right s a ≫= (fun _ => hev_rbtree_node_set_parent a s))) st (fun _ st' =>
    root st' = root st /\ repi (heap st') (k ++ [FL c a r]) s x
    /\ heap st' !! s = Some (mkNode (n_parent nd) (n_black nd) (n_left nd) a)
    /\ forall q, q ∉ post (k ++ [FL c a r]) -> q <> s -> heap st' !! q = heap st !! q).
Proof.
  intros Hfl Hnd Hs Hk Hx. set (K := k ++ [FL c a r]) in *.
  assert (HK : Forall left_frame K) by (apply Forall_app; split; [done|by repeat constructor]).
  assert (HKne : K <> []) by (by destruct k).
  assert (Htop : top K ∈ post K) by (destruct K as [|[] K']; [done|simpl; set_solver|by inversion HK]).
  assert (Ha : a ∈ post K) by (unfold K; rewrite post_app; set_solver).
  destruct (repi_set_left (heap st) K n s x HKne HK Hnd Hk) as (nd1 & Hnd1 & Hk1).
  unfold set_left, set_right, hev_rbtree_node_set_parent. ox1. eapply ospec_store; [exact Hnd1|].
  set (h1 := <[top K := _]> (heap st)) in *. cbn [heap root].
  ox1. eapply ospec_store; [cbn [heap]; unfold h1; rewrite lookup_insert_ne; [exact Hx|congruence]|].
  cbn [heap root]. set (h2 := <[s := _]> h1) in *.
  assert (Hk2 : repi h2 K n x).
  { eapply repi_agree; [|exact Hk1]. intros q Hq. rewrite (pre_left K HK) in Hq. cbn [app] in Hq.
    unfold h2. rewrite lookup_insert_ne; [done|congruence]. }
  destruct (repi_set_parent h2 k c a r n s x Hfl Hnd Hk2) as (nd3 & Hnd3 & Hk3).
  eapply ospec_store; [exact Hnd3|]. cbn [heap root]. split_and!; [done|exact Hk3| |].
  - rewrite lookup_insert_ne by congruence. unfold h2. by rewrite lookup_insert_eq.
  - intros q Hq Hqs. rewrite lookup_insert_ne by congruence. unfold h2, h1.
    rewrite lookup_insert_ne by congruence. rewrite lookup_insert_ne by congruence. done.
Qed.

Lemma ospec_bind_inv {A B} (m : O A) (f : A -> O B) st P :
  ospec (m ≫= f) st P -> ospec m st (fun a st' => ospec (f a) st' P).
Proof. unfold ospec, mbind, O_bind. destruct (m st) as [[a st']|]; done. Qed.

Lemma repi_insert h K base hole a n :
  Forall left_frame K -> a ∉ post K -> repi h K base hole -> repi (<[a := n]> h) K base hole.
Proof.
  intros HK Ha. apply repi_agree. intros q Hq. rewrite (pre_left K HK) in Hq.
  rewrite lookup_insert_ne; [done|]. by intros ->.
Qed.

(** The successor [s], already out of its place at the top of [K], moves to the
    place of [n]. *)
Lemma take_place st K k c n l s cs sr ra p0 l0 :
  l <> E -> Forall left_frame K -> K <> [] -> bottom K (root_of sr) = ra ->
  heap st !! n = Some (mkNode (top k) c (root_of l) ra) -> n <> 0 ->
  heap st !! s = Some (mkNode p0 cs l0 ra) -> s <> 0 ->
  rep (heap st) l n -> rep (heap st) sr s -> repi (heap st) K s (root_of sr) ->
  repk (heap st) (root st) k n ->
  NoDup (pre k ++ inorder l ++ n :: s :: inorder sr ++ post K ++ post k) ->
  ospec (tmp ← get_left n;
         set_left s tmp;;
         hev_rbtree_node_set_parent tmp s;;
         pc ← get_parent_color n;
         hev_rbtree_change_child n s pc.1;;
         rebalance ←
           (if negb (root_of sr =? 0) then
              hev_rbtree_node_set_parent_color (root_of sr) (top K) BLACK;; mret 0
            else
              b ← hev_rbtree_node_is_black s;
              mret (if b : bool then (top K) else 0));
         set_word s pc;;
         mret rebalance) st (fun reb st' =>
    wf st' (plug (K ++ FR c l s :: k) (blacken sr)) /\ reb = short sr cs (top K)).
Proof.
  intros Hl HK HKne Hra Hn Hn0 Hs Hs0 Hrl Hrs Hri Hrk Hnd.
  assert (Hdp : disj (pre k) (post K)) by (apply nodup_app in Hnd as (_ & D & _); unfold disj in *; set_solver).
  assert (Hdk : disj (post K) (post k)) by (by nodup).
  destruct l as [|cl ll la lr]; [done|].
  cbn [rep root_of] in *. destruct_and?. nodup. ox.
  eapply ospec_mono; [|apply (change_child_repk _ k n s)]; cbn [heap root]; [|reps|done..|by apply nodup_app].
  intros [] st' [Hk' Hag]. cbn [heap] in Hag.
  set (h1 := <[la := _]> _) in *.
  assert (Hx : forall t p, disj (pre k) (inorder t) -> disj (inorder t) (post k) ->
    rep h1 t p -> rep (heap st') t p).
  { intros t p D1 D2. apply rep_agree. intros q Hq. apply Hag; [|by apply D2].
    intros Hin. by apply (D1 q). }
  assert (Hs' : heap st' !! s = Some (mkNode p0 cs la ra)) by (rewrite Hag by done; subst h1; look).
  assert (Hla' : heap st' !! la = Some (mkNode s cl (root_of ll) (root_of lr))) by (rewrite Hag by done; subst h1; look).
  assert (rep (heap st') ll la) by (apply Hx; [done|done|subst h1; reps]).
  assert (rep (heap st') lr la) by (apply Hx; [done|done|subst h1; reps]).
  assert (repi (heap st') K s (root_of sr)).
  { assert (repi h1 K s (root_of sr)) by (subst h1; repeat (apply repi_insert; [done..|]); done).
    eapply repi_agree; [|eassumption]. intros q Hq. rewrite (pre_left K HK) in Hq. cbn [app] in Hq.
    apply Hag; [|by apply Hdk].
    intros Hin. by apply (Hdp q). }
  assert (Hend : forall st2 t, heap st2 !! s = Some (mkNode (top k) c la ra) ->
    rep (heap st2) (T cl ll la lr) s -> repk (heap st2) (root st2) k s -> repi (heap st2) K s (root_of t) ->
    root_of t = root_of sr -> rep (heap st2) t (top K) -> wf st2 (plug (K ++ FR c (T cl ll la lr) s :: k) t)).
  { intros st2 t E1 E2 E3 E4 E5 E6. apply wf_plug. split; [by destruct K|].
    apply repk_app. cbn [top frame_addr]. split; [done|]. rewrite E5, Hra. cbn [repk]. done. }
  destruct sr as [|csr srl sra srr]; cbn [rep root_of] in *; destruct_and?; nodup.
  - ox. split; [|by destruct cs]. apply Hend; cbn [heap root root_of blacken]; try done; try by reps.
    by apply repi_insert.
  - assert (heap st' !! sra = Some (mkNode s csr (root_of srl) (root_of srr)))
      by (rewrite Hag by done; subst h1; look).
    assert (rep (heap st') srl sra) by (apply Hx; [done|done|subst h1; reps]).
    assert (rep (heap st') srr sra) by (apply Hx; [done|done|subst h1; reps]).
    ox. split; [|done]. apply Hend; cbn [heap root root_of blacken]; try done; try by reps.
    by do 2 (apply repi_insert; [done..|]).
Qed.

Lemma top_or_top K base : K <> [] -> top_or K base = top K.
Proof. by destruct K. Qed.
Lemma bottom_snoc k f hole : bottom (k ++ [f]) hole = frame_addr f.
Proof. revert hole. induction k as [|g k IH]; intros hole; simpl; auto. Qed.

Lemma unlink_deep fuel st k c n l cr rl ra rr :
  l <> E -> rl <> E -> (length (inorder rl) <= fuel)%nat ->
  wf st (plug k (T c l n (T cr rl ra rr))) -> NoDup (inorder (plug k (T c l n (T cr rl ra rr)))) ->
  exists K cs s sr, T cr rl ra rr = plug K (T cs E s sr) /\ Forall left_frame K /\ K <> [] /\
  ospec (hev_rbtree_unlink fuel n) st (fun reb st' =>
    wf st' (plug (K ++ FR c l s :: k) (blacken sr)) /\ reb = short sr cs (top K)).
Proof.
  intros Hl Hrl Hf Hw Hnd. apply wf_plug in Hw as [Hr Hrk]. rewrite inorder_plug in Hnd.
  cbn [rep root_of] in Hr. destruct Hr as (Hn0 & Hn & Hrepl & Hra0 & Hra & Hreprl & Hreprr).
  destruct (successor_loop_ok fuel rl ra st Hrl Hreprl Hf) as (kl & cs & s & sr & Erl & Hfl & Hloop).
  set (K := kl ++ [FL cr ra rr]).
  assert (HK : Forall left_frame K) by (apply Forall_app; split; [done|by repeat constructor]).
  assert (HKne : K <> []) by (by destruct kl).
  assert (Et : T cr rl ra rr = plug K (T cs E s sr)) by (unfold K; by rewrite plug_app, <- Erl).
  assert (Hrt : rep (heap st) (plug K (T cs E s sr)) n) by (rewrite <- Et; done).
  apply rep_plug in Hrt as [Hrs Hri]. rewrite top_or_top in Hrs by done.
  cbn [rep root_of] in Hrs, Hri. destruct Hrs as (Hs0 & Hs & _ & Hrsr).
  assert (Hnd' : NoDup (pre k ++ inorder l ++ n :: s :: inorder sr ++ post K ++ post k)).
  { change (inorder (T c l n (T cr rl ra rr))) with (inorder l ++ n :: inorder (T cr rl ra rr)) in Hnd.
    rewrite Et, (inorder_plug K), (pre_left K HK) in Hnd. cbn [inorder app] in Hnd.
    rewrite <- !app_assoc in Hnd. cbn [app] in Hnd. rewrite <- !app_assoc in Hnd. exact Hnd. }
  exists K, cs, s, sr. split_and!; [done..|].
  assert (Hzl : root_of l <> 0) by (destruct l; [done|]; simpl in *; tauto).
  assert (Hzr : root_of rl <> 0) by (clear - Hrl Hreprl; destruct rl; [done|]; simpl in *; tauto).
  assert (Htk : top_or kl ra = top K) by (unfold K; by destruct kl).
  unfold hev_rbtree_unlink. ox.
  eapply ospec_mono; [|exact Hloop]. intros x st' (-> & ->). cbn beta iota. ox1. ox1. ox1.
  rewrite Htk.
  assert (Hsp : NoDup (post K) /\ s ∉ post K /\ n ∉ post K /\ n <> s /\ disj (inorder l) (post K)
    /\ s ∉ inorder l /\ disj (inorder sr) (post K) /\ s ∉ inorder sr
    /\ disj (pre k) (post K) /\ disj (post K) (post k) /\ s ∉ pre k /\ s ∉ post k).
  { split_and!; nodup; unfold disj in *; try done; naive_solver. }
  destruct Hsp as (? & ? & ? & ? & ? & ? & ? & ? & Hdp & Hdk & ? & ?).
  pose proof (splice_out st kl cr ra rr n s (root_of sr) _ Hfl ltac:(done) ltac:(done) Hri Hs) as Hspl.
  fold K in Hspl. apply ospec_bind_inv in Hspl. ox1. eapply ospec_mono; [|exact Hspl].
  intros [] st1 H1'. apply ospec_bind_inv in H1'. ox1. eapply ospec_mono; [|exact H1'].
  intros [] st2 H2'. ox1. eapply ospec_mono; [|exact H2'].
  intros [] st3 (Hroot & Hri3 & Hs3 & Hag). ox1. cbn beta iota. cbn [n_parent n_black n_left] in Hs3.
  assert (Hag' : forall t p, disj (inorder t) (post K) -> s ∉ inorder t -> rep (heap st) t p -> rep (heap st3) t p).
  { intros t p D1 D2. apply rep_agree. intros q Hq. apply Hag; [by apply D1|]. by intros ->. }
  eapply (take_place st3 K k c n l s cs sr ra); try done.
  - unfold K. by rewrite bottom_snoc.
  - by rewrite Hag.
  - by apply Hag'.
  - by apply Hag'.
  - rewrite Hroot. eapply repk_agree; [|exact Hrk]. intros q Hq. apply elem_of_app in Hq.
    apply Hag; [intros Hin|intros ->]; destruct Hq as [Hq|Hq]; try done; [by apply (Hdp q)|by apply (Hdk q)].
Qed.

(** Addresses do not matter to the invariant. *)
Lemma RBk_rename K c l n s k j : RBk (K ++ FR c l n :: k) j -> RBk (K ++ FR c l s :: k) j.
Proof.
  revert j. induction K as [|[c0 a r|c0 l0 a] K IH]; intros j; simpl; inversion 1; subst;
    econstructor; eauto; by destruct K as [|[]].
Qed.

Lemma must_black_rename K c l n s k : must_black (K ++ FR c l n :: k) = must_black (K ++ FR c l s :: k).
Proof. by destruct K. Qed.

(** The successor is gone from the hole of [k]. *)
Lemma unlinked_hole st k cs s sr reb j :
  k <> [] -> top k <> 0 -> RBk k j -> RB cs j (T cs E s sr) -> (must_black k = true -> cs = true) ->
  wf st (plug k (blacken sr)) -> reb = short sr cs (top k) ->
  unlinked (pre k ++ inorder sr ++ post k) reb st.
Proof.
  intros Hne Htop Hk Ht Hc Hw ->. exists k, (blacken sr). split; [done|]. split.
  { rewrite inorder_plug. by destruct sr. }
  destruct (RB_one_child _ _ _ _ Ht) as [(-> & -> & [->|[a ->]])|(-> & -> & ->)]; cbn [short blacken].
  - by right.
  - left. split; [done|]. eapply RB_plug; [done|by econstructor; constructor|done].
  - left. split; [done|]. eapply RB_plug; [done|by constructor|done].
Qed.

(** The same, with the successor in the place of [n]. *)
Lemma unlinked_place st K c l n cs s sr k m reb :
  RB true m (plug k (T c l n (plug K (T cs E s sr)))) -> Forall left_frame K ->
  top (K ++ FR c l s :: k) <> 0 ->
  wf st (plug (K ++ FR c l s :: k) (blacken sr)) -> reb = short sr cs (top (K ++ FR c l s :: k)) ->
  unlinked (pre k ++ inorder l ++ inorder (plug K (T cs E s sr)) ++ post k) reb st.
Proof.
  intros Hrb HK Htop Hw Hreb.
  change (plug k (T c l n (plug K (T cs E s sr)))) with (plug (FR c l n :: k) (plug K (T cs E s sr))) in Hrb.
  rewrite <- plug_app in Hrb. destruct (RB_unplug _ _ _ Hrb) as (j & c0 & Hk & Ht & Hc).
  assert (c0 = cs) as -> by (by inversion Ht). apply (RBk_rename _ _ _ _ s) in Hk.
  rewrite (must_black_rename _ _ _ _ s) in Hc.
  assert (Hne : K ++ FR c l s :: k <> []) by (by destruct K).
  pose proof (unlinked_hole _ _ _ _ _ _ _ Hne Htop Hk Ht Hc Hw Hreb) as HU.
  rewrite pre_app, post_app, (pre_left K HK) in HU. rewrite inorder_plug, (pre_left K HK).
  cbn [pre post inorder app] in *. rewrite <- ?app_assoc in *. cbn [app] in *.
  rewrite ?app_nil_r in *. rewrite <- ?app_assoc in *. exact HU.
Qed.

Lemma unlink_ok fuel st k c l n r m :
  wf st (plug k (T c l n r)) -> NoDup (inorder (plug k (T c l n r))) -> RB true m (plug k (T c l n r)) ->
  (length (inorder (plug k (T c l n r))) <= fuel)%nat ->
  ospec (hev_rbtree_unlink fuel n) st (unlinked (pre k ++ inorder l ++ inorder r ++ post k)).
Proof.
  intros Hw Hnd Hrb Hf. destruct (RB_unplug _ _ _ Hrb) as (j & c0 & Hk & Ht & Hc).
  assert (c0 = c) as -> by (by inversion Ht).
  destruct l as [|cl ll la lr] eqn:El; [by eapply unlink_no_left|]. rewrite <- El in *.
  destruct r as [|cr rl ra rr].
  - destruct (RB_left_only _ _ _ _ Ht) as [->|[a ->]]; [by rewrite El in *|by eapply unlink_no_right].
  - destruct rl as [|crl rll rla rlr] eqn:Erl.
    + eapply ospec_mono; [|apply (unlink_next fuel st k c n l cr ra rr); [by rewrite El|done|done]].
      intros reb st' [Hw' Hreb].
      apply (unlinked_place st' [] c l n cr ra rr k m reb); [done|constructor| |done|done].
      apply wf_plug in Hw' as [_ (? & _)]. done.
    + rewrite <- Erl in *.
      assert (Hlen : (length (inorder rl) <= fuel)%nat).
      { rewrite inorder_plug in Hf. cbn [inorder] in Hf. repeat (rewrite length_app in Hf; cbn [length] in Hf). lia. }
      destruct (unlink_deep fuel st k c n l cr rl ra rr) as (K & cs & s & sr & Et & HK & HKne & Hsp);
        [by rewrite El|by rewrite Erl|done..|].
      eapply ospec_mono; [|exact Hsp]. intros reb st' [Hw' Hreb].
      assert (Etop : top (K ++ FR c l s :: k) = top K) by (by destruct K).
      rewrite Et. apply (unlinked_place st' K c l n cs s sr k m reb); [by rewrite <- Et|done| |done|by rewrite Etop].
      apply wf_plug in Hw' as [_ Hk']. eapply top_nonzero; [exact Hk'|by destruct K].
Qed.

Lemma length_path k t : (length k <= length (inorder (plug k t)))%nat.
Proof.
  rewrite inorder_plug, !length_app. enough (length k <= length (pre k) + length (post k))%nat by lia.
  induction k as [|[] k IH]; simpl; rewrite ?length_app; simpl; lia.
Qed.

(** Every node of a tree is where a path leads. *)
Lemma tree_split t n : n ∈ inorder t -> exists k c l r, t = plug k (T c l n r).
Proof.
  induction t as [|c l IHl a r IHr]; cbn [inorder]; intros Hin; [by apply not_elem_of_nil in Hin|].
  apply elem_of_app in Hin as [Hin|Hin]; [|apply elem_of_cons in Hin as [->|Hin]].
  - destruct (IHl Hin) as (k & c' & l' & r' & ->). exists (k ++ [FL c a r]), c', l', r'. by rewrite plug_app.
  - by exists [], c, l, r.
  - destruct (IHr Hin) as (k & c' & l' & r' & ->). exists (k ++ [FR c l a]), c', l', r'. by rewrite plug_app.
Qed.

(** ** The operations *)

Lemma ospec_some {A} (m : O A) st P : ospec m st P -> exists a st', m st = Some (a, st') /\ P a st'.
Proof. unfold ospec. destruct (m st) as [[a st']|]; eauto; done. Qed.

(** What an operation on the tree establishes: a balanced tree of the nodes [l]. *)
Definition holds (l : list Z) (st' : rbstate) : Prop :=
  exists t' m', wf st' t' /\ RB true m' t' /\ inorder t' = l.

Lemma nodup_drop (a b : list Z) n : NoDup (a ++ n :: b) -> NoDup (a ++ b).
Proof. intros. nodup. apply nodup_app. split_and!; done. Qed.

Lemma erase_ok fuel st k c l n r m :
  wf st (plug k (T c l n r)) -> NoDup (inorder (plug k (T c l n r))) -> RB true m (plug k (T c l n r)) ->
  (length (inorder (plug k (T c l n r))) <= fuel)%nat ->
  ospec (hev_rbtree_erase fuel n) st (fun _ => holds (pre k ++ inorder l ++ inorder r ++ post k)).
Proof.
  intros Hw Hnd Hrb Hf. unfold hev_rbtree_erase. ox1. eapply ospec_mono; [|by eapply unlink_ok].
  rewrite inorder_plug in Hnd, Hf. cbn [inorder] in Hnd, Hf. rewrite <- app_assoc, app_assoc in Hnd.
  cbn [app] in Hnd. apply nodup_drop in Hnd. rewrite <- app_assoc in Hnd.
  intros reb st' (k' & t' & Hw' & Hio & [[-> [m' Hm]]|(-> & Hne & Hz & -> & Hk)]).
  - ox. exists (plug k' t'), m'. done.
  - oeq. eapply ospec_mono; [|apply (erase_color_ok fuel k' E 0 st'); try done].
    + intros [] st2 (t2 & Hw2 & Hio2 & m2 & Hm2). exists t2, m2. split_and!; [done..|]. by rewrite Hio2.
    + by rewrite Hio.
    + constructor.
    + etrans; [apply (length_path k' E)|]. rewrite Hio. etrans; [|exact Hf].
      rewrite !length_app. cbn [length]. lia.
Qed.

Lemma insert_ok fuel st k n m :
  wf st (plug k E) -> NoDup (inorder (plug k E)) -> RB true m (plug k E) ->
  n <> 0 -> n ∉ inorder (plug k E) -> (length k < fuel)%nat ->
  ospec (hev_rbtree_node_link n (top k) (link_of k);; hev_rbtree_insert_color fuel n) st
    (fun _ => holds (pre k ++ n :: post k)).
Proof.
  intros Hw Hnd Hrb Hn Hin Hf. apply ospec_bind. eapply ospec_mono; [|by apply node_link_ok].
  intros [] st' Hw'. unfold hev_rbtree_insert_color.
  pose proof Hw' as [Hr _]%wf_plug. cbn [rep root_of] in Hr.
  destruct_and?. do 4 ox1. cbn beta iota. ox1. rewrite ?Z.add_0_r. try ox1.
  destruct (RB_unplug _ _ _ Hrb) as (j & c & Hk & Ht & _). assert (j = 0%nat) as -> by (by inversion Ht).
  eapply ospec_mono; [|eapply insert_color_loop_ok; try done; [|constructor..]].
  - intros [] st2 (t' & Hw2 & Hio & m' & Hrb'). exists t', m'. split_and!; [done..|].
    by rewrite Hio, inorder_plug.
  - rewrite inorder_plug in *. cbn [inorder app] in *. nodup.
    apply nodup_app. split_and!; [done|by apply disj_cons_r|by apply NoDup_cons].
Qed.

(** The insertion of a node [n] where the caller's search has ended (at the
    hole of the path [k]): [hev_rbtree_node_link] and [hev_rbtree_insert_color]
    follow no wild pointer, end within one round more than the path is long, and
    leave a red-black tree (no red node with a red child, the same number of
    black nodes on every path, a black root) of the same nodes with [n] in its
    place. *)
Theorem hev_rbtree_insert_correct st k n m fuel :
  wf st (plug k E) -> NoDup (inorder (plug k E)) -> RB true m (plug k E) ->
  n <> 0 -> n ∉ inorder (plug k E) -> (length k < fuel)%nat ->
  exists st' t' m',
    (hev_rbtree_node_link n (top k) (link_of k);; hev_rbtree_insert_color fuel n) st = Some (tt, st')
    /\ wf st' t' /\ RB true m' t' /\ inorder t' = pre k ++ n :: post k.
Proof.
  intros Hw Hnd Hrb Hn Hin Hf.
  destruct (ospec_some _ _ _ (insert_ok fuel st k n m Hw Hnd Hrb Hn Hin Hf)) as ([] & st' & Hst & t' & m' & Ht').
  by exists st', t', m'.
Qed.

(** C6. [hev_rbtree_erase] of any node [n] of a red-black tree: no wild pointer
    is followed, the loops end within as many rounds as there are nodes, and the
    memory then holds a red-black tree of the same nodes in the same order,
    without [n]. *)
Theorem hev_rbtree_erase_correct st t n m fuel :
  wf st t -> NoDup (inorder t) -> RB true m t -> n ∈ inorder t ->
  (length (inorder t) <= fuel)%nat ->
  exists st' t' m', hev_rbtree_erase fuel n st = Some (tt, st') /\ wf st' t' /\ RB true m' t'
    /\ exists l r, inorder t = l ++ n :: r /\ inorder t' = l ++ r.
Proof.
  intros Hw Hnd Hrb Hin Hf. destruct (tree_split t n Hin) as (k & c & l & r & ->).
  destruct (ospec_some _ _ _ (erase_ok fuel st k c l n r m Hw Hnd Hrb Hf))
    as ([] & st' & Hst & t' & m' & Hw' & Hrb' & Hio).
  exists st', t', m'. split_and!; [done..|].
  exists (pre k ++ inorder l), (inorder r ++ post k). rewrite inorder_plug, Hio. cbn [inorder].
  split; by repeat (rewrite <- app_assoc; cbn [app]).
Qed.

(** A tree in memory. *)
Fixpoint layout (t : tree) (p : Z) : list (Z * node) :=
  match t with
  | E => []
  | T c l a r => (a, mkNode p c (root_of l) (root_of r)) :: layout l a ++ layout r a
  end.
Definition in_memory (t : tree) : rbstate := mkRB (list_to_map (layout t 0)) (root_of t).

Module RBWitness.

(** 20 over 10 and 30, with the red leaf 40 below 30. *)
Definition small : tree := T true (T true E 10 E) 20 (T true E 30 (T false E 40 E)).

Lemma small_ok : wf (in_memory small) small /\ NoDup (inorder small) /\ RB true 2 small.
Proof.
  split_and!.
  - vm_compute. split_and!; done.
  - by apply (bool_decide_unpack _).
  - repeat econstructor.
Qed.

Lemma hev_rbtree_insert_correct_witness :
  exists st' t' m',
    (hev_rbtree_node_link 50 40 (LinkRight 40);; hev_rbtree_insert_color 4 50) (in_memory small) = Some (tt, st')
    /\ wf st' t' /\ RB true m' t' /\ inorder t' = [10; 20; 30; 40; 50].
Proof.
  destruct small_ok as (H1 & H2 & H3).
  apply (hev_rbtree_insert_correct (in_memory small)
    [FR false E 40; FR true E 30; FR true (T true E 10 E) 20] 50 2 4).
  - exact H1.
  - exact H2.
  - exact H3.
  - done.
  - by apply (bool_decide_unpack _).
  - simpl. lia.
Defined.

(** 20 has two children, and its successor 30 is replaced by the red leaf. *)
Lemma hev_rbtree_erase_correct_witness :
  exists st' t' m', hev_rbtree_erase 4 20 (in_memory small) = Some (tt, st') /\ wf st' t' /\ RB true m' t'
    /\ exists l r, [10; 20; 30; 40] = l ++ 20 :: r /\ inorder t' = l ++ r.
Proof.
  destruct small_ok as (H1 & H2 & H3).
  apply (hev_rbtree_erase_correct (in_memory small) small 20 2 4); [exact H1|exact H2|exact H3| |simpl; lia].
  by apply (bool_decide_unpack _).
Defined.

End RBWitness.
