(* ===== verification/SearchTree.v ===== *)
(** * Search trees

    The searches that hev-socks5-authenticator.c and hev-mapped-dns.c write out
    over [hev-rbtree], and the walks of hev-rbtree.c.  The library compares with
    a total order on keys ([KeyOrder]); its users are the instances. *)

From stdpp Require Import sorting.
From S2P Require Import Prelude RBTree RBTreeSpec RBErase.

(** The sign of a comparison, as [memcmp] and [strcmp] return it. *)
Class KeyOrder (K : Type) := {
  kcmp : K -> K -> Z;
  kcmp_eq : forall a b, kcmp a b = 0 <-> a = b;
  kcmp_anti : forall a b, kcmp a b < 0 <-> 0 < kcmp b a;
  kcmp_trans : forall a b c, kcmp a b < 0 -> kcmp b c < 0 -> kcmp a c < 0
}.

(** ** The search

    The loop goes left from a node that compares below the key, right from one
    that compares above.
    [cmp] compares the object at a node with the key; [inl] is the node found,
    [inr] the parent and the link where the loop ended. *)
Fixpoint search (cmp : Z -> option Z) (fuel : nat) (n parent : Z) (new : link) : O (Z + Z * link) :=
  match fuel with
  | 0%nat => fun _ => None
  | S fuel =>
      if n =? 0 then mret (inr (parent, new)) else
      match cmp n with
      | None => fun _ => None
      | Some res =>
          if res <? 0 then l ← get_left n; search cmp fuel l n (LinkLeft n)
          else if 0 <? res then r ← get_right n; search cmp fuel r n (LinkRight n)
          else mret (inl n)
      end
  end.

Definition search_root (cmp : Z -> option Z) (fuel : nat) : O (Z + Z * link) :=
  n ← get_root; search cmp fuel n 0 LinkRoot.

Lemma search_ext f g fuel : (forall n, f n = g n) ->
  forall n parent new st, search f fuel n parent new st = search g fuel n parent new st.
Proof.
  intros Hfg. induction fuel as [|fuel IH]; intros n parent new st; [done|]. cbn [search].
  destruct (n =? 0); [done|]. rewrite Hfg. destruct (g n) as [res|]; [|done].
  unfold mbind, O_bind. repeat case_test; try done.
  - destruct (get_left n st) as [[l st']|]; [apply IH|done].
  - destruct (get_right n st) as [[r st']|]; [apply IH|done].
Qed.

Lemma search_root_ext f g fuel st : (forall n, f n = g n) -> search_root f fuel st = search_root g fuel st.
Proof. intros Hfg. unfold search_root, mbind, O_bind, get_root. by apply search_ext. Qed.

(** What is found compares equal. *)
Lemma search_found f fuel : forall n parent new st a st',
  search f fuel n parent new st = Some (inl a, st') -> f a = Some 0.
Proof.
  induction fuel as [|fuel IH]; intros n parent new st a st'; [done|]. cbn [search].
  destruct (n =? 0); [done|]. destruct (f n) as [res|] eqn:Ef; [|done].
  unfold mbind, O_bind. repeat case_test; try done.
  - destruct (get_left n st) as [[l st1]|]; [apply IH|done].
  - destruct (get_right n st) as [[r st1]|]; [apply IH|done].
  - intros [= <- _]. rewrite Ef. f_equal. lia.
Qed.

(** Rounds enough for every loop over the nodes of a tree. *)
Definition enough (st : rbstate) : nat := S (size (heap st)).

Section Sorted.
Context {K : Type} {KO : KeyOrder K}.

(** A smaller key goes right: the sequence is in descending order. *)
Definition above (keys : gmap Z K) (x y : Z) : Prop :=
  exists kx ky, keys !! x = Some kx /\ keys !! y = Some ky /\ kcmp ky kx < 0.

Definition sorted (keys : gmap Z K) (l : list Z) : Prop :=
  StronglySorted (above keys) l /\ Forall (fun x => is_Some (keys !! x)) l.

Definition cmp_key (keys : gmap Z K) (key : K) (n : Z) : option Z :=
  k ← keys !! n; Some (kcmp k key).

(** The tree holds the nodes [l] in the order of their keys. *)
Definition indexed (keys : gmap Z K) (l : list Z) (st : rbstate) : Prop := holds l st /\ sorted keys l.

(** Where a key would go. *)
Definition fits (keys : gmap Z K) (key : K) (a b : list Z) : Prop :=
  Forall (fun x => exists k, keys !! x = Some k /\ kcmp key k < 0) a /\
  Forall (fun x => exists k, keys !! x = Some k /\ kcmp k key < 0) b.

Lemma kcmp_irrefl k : ~ kcmp k k < 0.
Proof. rewrite (proj2 (kcmp_eq k k) eq_refl). lia. Qed.

Lemma sorted_app keys a b :
  sorted keys (a ++ b) <-> sorted keys a /\ sorted keys b /\ (forall x y, x ∈ a -> y ∈ b -> above keys x y).
Proof. unfold sorted. rewrite Forall_app, StronglySorted_app. naive_solver. Qed.

Lemma sorted_cons keys x b :
  sorted keys (x :: b) <-> is_Some (keys !! x) /\ sorted keys b /\ (forall y, y ∈ b -> above keys x y).
Proof.
  unfold sorted. rewrite Forall_cons. split.
  - intros [Hs [Hx Hb]]. apply StronglySorted_inv in Hs as [Hs Ha]. rewrite Forall_forall in Ha. naive_solver.
  - intros (Hx & [Hs Hb] & Ha). split; [|done]. constructor; [done|]. by apply Forall_forall.
Qed.

Lemma sorted_nodup keys l : sorted keys l -> NoDup l.
Proof.
  induction l as [|x l IH]; [constructor|]. intros (_ & Hs & Ha)%sorted_cons.
  constructor; [|by apply IH]. intros Hin. destruct (Ha x Hin) as (kx & ky & Hx & Hy & Hc).
  rewrite Hx in Hy. simplify_eq. by apply kcmp_irrefl in Hc.
Qed.

(** Only the keys of the nodes in the tree matter. *)
Lemma sorted_agree keys keys' l :
  (forall a, a ∈ l -> keys' !! a = keys !! a) -> sorted keys l -> sorted keys' l.
Proof.
  induction l as [|x l IH]; intros Hk; [by split; constructor|]. rewrite !sorted_cons.
  intros (Hx & Hl & Ha). split_and!.
  - rewrite Hk; [done|by left].
  - apply IH; [|done]. intros a ?. apply Hk. by right.
  - intros y Hy. destruct (Ha y Hy) as (kx & ky & H1 & H2 & H3). exists kx, ky.
    rewrite !Hk by set_solver. done.
Qed.

Lemma indexed_agree keys keys' l st :
  (forall a, a ∈ l -> keys' !! a = keys !! a) -> indexed keys l st -> indexed keys' l st.
Proof. intros Hk [Hh Hs]. split; [done|]. by eapply sorted_agree. Qed.

Lemma fits_agree keys keys' key a b :
  (forall x, x ∈ a ++ b -> keys' !! x = keys !! x) -> fits keys key a b -> fits keys' key a b.
Proof.
  intros Hk [Ha Hb]. unfold fits in *. rewrite Forall_forall in *. rewrite Forall_forall in *.
  split; intros x Hx; [destruct (Ha x Hx) as (k & ? & ?)|destruct (Hb x Hx) as (k & ? & ?)];
    exists k; rewrite Hk by set_solver; done.
Qed.

Lemma sorted_key keys l a : sorted keys l -> a ∈ l -> is_Some (keys !! a).
Proof. intros [_ Hf] Ha. rewrite Forall_forall in Hf. by apply Hf. Qed.

Lemma indexed_nodup keys l st : indexed keys l st -> NoDup l.
Proof. intros [_ Hs]. by eapply sorted_nodup. Qed.

(** Distinct nodes have distinct keys. *)
Lemma key_unique keys (l : list Z) a b k :
  sorted keys l -> a ∈ l -> b ∈ l -> keys !! a = Some k -> keys !! b = Some k -> a = b.
Proof.
  assert (Hirr : forall x (l : list Z), (forall y, y ∈ l -> above keys x y) -> forall y k,
    y ∈ l -> keys !! x = Some k -> keys !! y = Some k -> False).
  { intros x l' Hx y k' Hy H1 H2. destruct (Hx y Hy) as (k1 & k2 & ? & ? & H3). simplify_eq.
    by apply kcmp_irrefl in H3. }
  induction l as [|x l IH]; intros Hs Ha Hb Hka Hkb; [set_solver|].
  apply sorted_cons in Hs as (_ & Hs & Hx).
  apply elem_of_cons in Ha as [->|Ha]; apply elem_of_cons in Hb as [->|Hb]; [done| | |by apply IH];
    exfalso; by eapply (Hirr x l Hx).
Qed.

(** A node and a key: the nodes on the far side of the comparison. *)
Lemma fits_left keys key a kk (p q : list Z) :
  sorted keys (a :: q) -> keys !! a = Some kk -> kcmp kk key < 0 ->
  Forall (fun x => exists k, keys !! x = Some k /\ kcmp k key < 0) (a :: q).
Proof.
  intros (_ & _ & Ha)%sorted_cons Hk Hc. apply Forall_cons. split; [by exists kk|].
  apply Forall_forall. intros x Hx. destruct (Ha x Hx) as (k1 & k2 & H1 & H2 & H3).
  exists k2. split; [done|]. simplify_eq. by eapply kcmp_trans.
Qed.

Lemma fits_right keys key a kk (q : list Z) :
  sorted keys (q ++ [a]) -> keys !! a = Some kk -> kcmp key kk < 0 ->
  Forall (fun x => exists k, keys !! x = Some k /\ kcmp key k < 0) (q ++ [a]).
Proof.
  intros (_ & _ & Ha)%sorted_app Hk Hc. apply Forall_app. split; [|apply Forall_singleton; by exists kk].
  apply Forall_forall. intros x Hx. destruct (Ha x a Hx) as (k1 & k2 & H1 & H2 & H3); [set_solver|].
  exists k1. split; [done|]. simplify_eq. by eapply kcmp_trans.
Qed.

Lemma search_ok keys key fuel : forall k t st,
  wf st (plug k t) -> sorted keys (inorder t) -> fits keys key (pre k) (post k) ->
  (length (inorder t) < fuel)%nat ->
  ospec (search (cmp_key keys key) fuel (root_of t) (top k) (link_of k)) st (fun res st' => st' = st /\
    match res with
    | inl a => a ∈ inorder t /\ keys !! a = Some key
    | inr (parent, new) => exists k', plug k t = plug k' E /\ parent = top k' /\ new = link_of k'
        /\ fits keys key (pre k') (post k')
    end).
Proof.
  induction fuel as [|fuel IH]; intros k t st Hw Hs Hfit Hf; [lia|].
  destruct t as [|c l a r]; cbn [search root_of].
  { cbn [Z.eqb]. apply ospec_ret. split; [done|]. by exists k. }
  cbn [inorder] in Hs, Hf. rewrite length_app in Hf. cbn [length] in Hf.
  pose proof Hw as [(Ha0 & Ha & Hl & Hr) _]%wf_plug. oeq.
  pose proof Hs as (Hsl & (Hka & Hsr & Har)%sorted_cons & Hlr)%sorted_app.
  destruct Hka as [ka Hka]. unfold cmp_key at 1. rewrite Hka. cbn.
  destruct (Z.ltb_spec (kcmp ka key) 0) as [Hlt|Hge].
  - ox. eapply ospec_mono; [|apply (IH (FL c a r :: k) l st); [done|done| |lia]].
    + intros res st' [-> Hres]. split; [done|]. destruct res; [|done]. cbn [inorder]. set_solver.
    + destruct Hfit as [Hp Hq]. split; [done|]. cbn [post].
      change (a :: inorder r ++ post k) with ((a :: inorder r) ++ post k). apply Forall_app. split; [|done].
      eapply (fits_left _ _ _ _ []); [|done|done]. by apply sorted_app in Hs as (_ & ? & _).
  - destruct (Z.ltb_spec 0 (kcmp ka key)) as [Hgt|Hle].
    + ox. eapply ospec_mono; [|apply (IH (FR c l a :: k) r st); [done|done| |lia]].
      * intros res st' [-> Hres]. split; [done|]. destruct res; [|done]. cbn [inorder]. set_solver.
      * destruct Hfit as [Hp Hq]. split; [|done]. cbn [pre]. apply Forall_app. split; [done|].
        eapply fits_right; [|done|by apply kcmp_anti].
        replace (inorder l ++ a :: inorder r) with ((inorder l ++ [a]) ++ inorder r) in Hs
          by (by rewrite <- app_assoc). by apply sorted_app in Hs as (? & _ & _).
    + apply ospec_ret. split; [done|]. split; [cbn [inorder]; set_solver|].
      rewrite Hka. f_equal. apply kcmp_eq. lia.
Qed.

Lemma rep_dom h t p x : rep h t p -> x ∈ inorder t -> x <> 0 /\ is_Some (h !! x).
Proof.
  revert p. induction t as [|c l IHl a r IHr]; intros p; cbn [rep inorder]; [intros _ ?; set_solver|].
  intros (? & Ha & Hl & Hr) [Hx|[->|Hx]%elem_of_cons]%elem_of_app; eauto.
Qed.

Lemma nodup_size (h : gmap Z node) l :
  NoDup l -> (forall x, x ∈ l -> is_Some (h !! x)) -> (length l <= size h)%nat.
Proof.
  intros Hnd Hl. rewrite <- (size_list_to_set (C := gset Z) l Hnd), <- size_dom.
  apply subseteq_size. intros x Hx. apply elem_of_list_to_set in Hx. apply elem_of_dom. by apply Hl.
Qed.

Lemma holds_size l st : holds l st -> NoDup l -> (length l <= size (heap st))%nat.
Proof.
  intros (t & m & [Hw _] & _ & <-) Hnd. apply nodup_size; [done|]. intros x Hx. by eapply rep_dom.
Qed.

(** *** The three operations of a search tree *)

Lemma search_indexed keys key l st :
  indexed keys l st ->
  ospec (search_root (cmp_key keys key) (enough st)) st (fun res st' => st' = st /\
    match res with
    | inl a => a ∈ l /\ keys !! a = Some key
    | inr (parent, new) => (forall a, a ∈ l -> keys !! a <> Some key)
        /\ exists k' m, wf st (plug k' E) /\ RB true m (plug k' E) /\ parent = top k' /\ new = link_of k'
        /\ l = pre k' ++ post k' /\ fits keys key (pre k') (post k')
    end).
Proof.
  intros [Hh Hs]. pose proof (holds_size _ _ Hh (sorted_nodup _ _ Hs)) as Hsz.
  destruct Hh as (t & m & Hw & Hrb & Hio). subst l.
  unfold search_root. apply ospec_bind. unfold ospec at 1, get_root. rewrite (proj2 Hw).
  eapply ospec_mono; [|apply (search_ok keys key (enough st) [] t st); [done|done|by split|unfold enough; lia]].
  intros [a|[parent new]] st' [-> Hres]; (split; [done|]); [done|].
  destruct Hres as (k' & Et & -> & -> & Hfit). cbn [plug] in Et. rewrite Et in *.
  rewrite inorder_plug. cbn [inorder app]. split; [|by exists k', m].
  destruct Hfit as [H1 H2]. rewrite Forall_forall in H1, H2.
  intros a Ha E'. apply elem_of_app in Ha as [Ha|Ha]; [apply H1 in Ha|apply H2 in Ha];
    destruct Ha as (k & Hk & Hc); simplify_eq; by apply kcmp_irrefl in Hc.
Qed.

Lemma sorted_insert keys key n a b :
  sorted keys (a ++ b) -> keys !! n = Some key -> fits keys key a b -> sorted keys (a ++ n :: b).
Proof.
  intros (Ha & Hb & Hab)%sorted_app Hn [H1 H2]. rewrite Forall_forall in H1, H2.
  apply sorted_app. split_and!; [done| |].
  - apply sorted_cons. split_and!; [done|done|]. intros y Hy. destruct (H2 y Hy) as (k & Hk & Hc).
    exists key, k. done.
  - intros x y Hx [->|Hy]%elem_of_cons; [|by apply Hab]. destruct (H1 x Hx) as (k & Hk & Hc).
    exists k, key. done.
Qed.

Lemma insert_indexed keys key n l st k' m :
  sorted keys l -> wf st (plug k' E) -> RB true m (plug k' E) -> l = pre k' ++ post k' ->
  fits keys key (pre k') (post k') -> keys !! n = Some key -> n <> 0 -> n ∉ l ->
  ospec (hev_rbtree_node_link n (top k') (link_of k');; hev_rbtree_insert_color (enough st) n) st
    (fun _ st' => exists l', indexed keys l' st' /\ l' ≡ₚ n :: l).
Proof.
  intros Hs Hw Hrb Hl Hfit Hn Hn0 Hnl. pose proof (sorted_nodup _ _ Hs) as Hnd.
  assert (Hio : inorder (plug k' E) = l) by (rewrite inorder_plug; done).
  assert (Hsz : (length (inorder (plug k' E)) <= size (heap st))%nat).
  { rewrite Hio. apply holds_size; [|done]. by exists (plug k' E), m. }
  pose proof (length_path k' E) as Hlen. unfold enough.
  eapply ospec_mono; [|apply (insert_ok _ st k' n m); rewrite ?Hio; try done; lia].
  intros [] st' Hh. exists (pre k' ++ n :: post k'). split; [|rewrite Hl; by rewrite Permutation_middle].
  split; [done|]. apply sorted_insert with key; [by rewrite <- Hl|done|done].
Qed.

Lemma sorted_drop keys a n b : sorted keys (a ++ n :: b) -> sorted keys (a ++ b).
Proof.
  intros (Ha & (_ & Hb & _)%sorted_cons & Hab)%sorted_app. apply sorted_app. split_and!; [done..|].
  intros x y Hx Hy. apply Hab; [done|by right].
Qed.

Lemma erase_indexed keys n l st :
  indexed keys l st -> n ∈ l ->
  ospec (hev_rbtree_erase (enough st) n) st
    (fun _ st' => exists l1 l2, l = l1 ++ n :: l2 /\ indexed keys (l1 ++ l2) st').
Proof.
  intros [Hh Hs] Hn. pose proof (sorted_nodup _ _ Hs) as Hnd.
  pose proof (holds_size _ _ Hh Hnd) as Hsz. destruct Hh as (t & m & Hw & Hrb & Hio). subst l.
  destruct (tree_split t n Hn) as (k & c & l & r & ->).
  eapply ospec_mono; [|apply (erase_ok (enough st) st k c l n r m); try done; unfold enough; lia].
  assert (E1 : inorder (plug k (T c l n r)) = (pre k ++ inorder l) ++ n :: inorder r ++ post k).
  { rewrite inorder_plug. cbn [inorder]. by repeat (rewrite <- app_assoc; cbn [app]). }
  rewrite E1 in *. intros [] st' Hh. exists (pre k ++ inorder l), (inorder r ++ post k).
  split; [done|]. split; [by rewrite <- app_assoc|]. by eapply sorted_drop.
Qed.
End Sorted.

(** ** Walks *)

Lemma leftmost_ok fuel : forall t p st,
  t <> E -> rep (heap st) t p -> (length (inorder t) <= fuel)%nat ->
  ospec (leftmost fuel (root_of t)) st (fun a st' => st' = st /\ head (inorder t) = Some a).
Proof.
  induction fuel as [|fuel IH]; intros t p st Ht Hr Hf; destruct t as [|c l a r]; try done;
    cbn [inorder] in Hf; rewrite length_app in Hf; cbn [length] in Hf; [lia|].
  cbn [rep root_of leftmost] in *. destruct Hr as (Ha0 & Ha & Hl & Hr). ox.
  destruct l as [|cl ll la lr] eqn:El; [by ox|]. rewrite <- El in *.
  assert (root_of l <> 0) by (subst l; simpl in Hl; tauto). oeq.
  eapply ospec_mono; [|apply (IH l a st); [by rewrite El|done|lia]].
  intros x st' [-> Hx]. split; [done|]. cbn [inorder]. destruct (inorder l); [done|exact Hx].
Qed.

Lemma rightmost_ok fuel : forall t p st,
  t <> E -> rep (heap st) t p -> (length (inorder t) <= fuel)%nat ->
  ospec (rightmost fuel (root_of t)) st (fun a st' => st' = st /\ last (inorder t) = Some a).
Proof.
  induction fuel as [|fuel IH]; intros t p st Ht Hr Hf; destruct t as [|c l a r]; try done;
    cbn [inorder] in Hf; rewrite length_app in Hf; cbn [length] in Hf; [lia|].
  cbn [rep root_of rightmost] in *. destruct Hr as (Ha0 & Ha & Hl & Hr). ox.
  destruct r as [|cr rl ra rr] eqn:Er; [ox; split; [done|]; cbn [inorder]; by rewrite last_snoc|].
  rewrite <- Er in *. assert (root_of r <> 0) by (subst r; simpl in Hr; tauto). oeq.
  eapply ospec_mono; [|apply (IH r a st); [by rewrite Er|done|lia]].
  intros x st' [-> Hx]. split; [done|]. cbn [inorder]. rewrite last_app, last_cons, Hx. done.
Qed.

(** The first node, or NULL. *)
Lemma first_ok l st : holds l st -> NoDup l ->
  ospec (hev_rbtree_first (enough st)) st (fun a st' => st' = st /\ a = default 0 (head l)).
Proof.
  intros Hh Hnd. pose proof (holds_size _ _ Hh Hnd) as Hsz. destruct Hh as (t & m & [Hr Hroot] & _ & <-).
  unfold hev_rbtree_first. apply ospec_bind. unfold ospec at 1, get_root. rewrite Hroot.
  destruct t as [|c l a r] eqn:Et; [by ox|]. rewrite <- Et in *.
  assert (root_of t <> 0) by (subst t; simpl in *; tauto). oeq.
  eapply ospec_mono; [|apply (leftmost_ok _ t 0); [by rewrite Et|done|unfold enough; lia]].
  intros x st' [-> ->]. done.
Qed.

(** The nearest ancestor whose left, or right, subtree holds the hole. *)
Lemma up_while_right_ok fuel : forall k c l n r st,
  wf st (plug k (T c l n r)) -> NoDup (inorder (plug k (T c l n r))) -> (length k < fuel)%nat ->
  ospec (up_while_right fuel n) st (fun a st' => st' = st /\ a = default 0 (head (post k))).
Proof.
  induction fuel as [|fuel IH]; intros k c l n r st Hw Hnd Hf; [lia|].
  pose proof Hw as [(Hn0 & Hn & _) Hk]%wf_plug. cbn [up_while_right].
  do 3 ox1. destruct k as [|[ck a rk|ck lk a] k]; cbn [top frame_addr repk length] in *; [by ox| |];
    destruct Hk as (Ha0 & Ha & Hs & Hk).
  - oeq. do 3 ox1. rewrite inorder_plug in Hnd. nodup.
    assert (n <> root_of rk) by (destruct rk; [done|]; cbn [inorder root_of] in *; nodup; congruence).
    oeq. ox. done.
  - oeq. do 3 ox1. cbn [root_of]. oeq.
    apply (IH k ck lk a (T c l n r)); [done|done|lia].
Qed.

Lemma up_while_left_ok fuel : forall k c l n r st,
  wf st (plug k (T c l n r)) -> NoDup (inorder (plug k (T c l n r))) -> (length k < fuel)%nat ->
  ospec (up_while_left fuel n) st (fun a st' => st' = st /\ a = default 0 (last (pre k))).
Proof.
  induction fuel as [|fuel IH]; intros k c l n r st Hw Hnd Hf; [lia|].
  pose proof Hw as [(Hn0 & Hn & _) Hk]%wf_plug. cbn [up_while_left].
  do 3 ox1. destruct k as [|[ck a rk|ck lk a] k]; cbn [top frame_addr repk length] in *; [by ox| |];
    destruct Hk as (Ha0 & Ha & Hs & Hk).
  - oeq. do 3 ox1. cbn [root_of]. oeq.
    apply (IH k ck (T c l n r) a rk); [done|done|lia].
  - oeq. do 3 ox1. rewrite inorder_plug in Hnd. nodup.
    assert (n <> root_of lk) by (destruct lk; [done|]; cbn [inorder root_of] in *; nodup; congruence).
    oeq. ox. split; [done|]. cbn [pre]. by rewrite app_assoc, last_snoc.
Qed.

Lemma node_empty_ok st k c l n r :
  wf st (plug k (T c l n r)) -> NoDup (inorder (plug k (T c l n r))) ->
  Forall (fun x => x mod 2 = 0) (inorder (plug k (T c l n r))) ->
  ospec (hev_rbtree_node_empty n) st (fun b st' => st' = st /\ b = false).
Proof.
  intros Hw Hnd Hal. pose proof Hw as [(Hn0 & Hn & _) Hk]%wf_plug.
  unfold hev_rbtree_node_empty. do 3 ox1. cbn beta iota. ox1. split; [done|]. apply Z.eqb_neq.
  rewrite inorder_plug in Hnd, Hal. rewrite Forall_forall in Hal.
  assert (Hn2 : n mod 2 = 0) by (apply Hal; cbn [inorder]; set_solver).
  destruct k as [|[ck a rk|ck lk a] k]; cbn [top frame_addr] in *.
  - destruct c; [|lia]. intros <-. done.
  - assert (a mod 2 = 0) by (apply Hal; cbn [post]; set_solver).
    nodup. destruct c; [|lia]. intros <-. zdiv.
  - assert (a mod 2 = 0) by (apply Hal; cbn [pre]; set_solver).
    nodup. destruct c; [|lia]. intros <-. zdiv.
Qed.

Lemma nodup_middle (a1 a2 b1 b2 : list Z) n :
  NoDup (a1 ++ n :: a2) -> a1 ++ n :: a2 = b1 ++ n :: b2 -> a1 = b1 /\ a2 = b2.
Proof.
  revert b1. induction a1 as [|x a1 IH]; intros [|y b1]; cbn [app]; intros Hnd E'; simplify_eq; [done|..].
  - apply NoDup_cons in Hnd as [Hnd _]. set_solver.
  - apply NoDup_cons in Hnd as [Hnd _]. set_solver.
  - apply NoDup_cons in Hnd as [_ Hnd]. destruct (IH b1 Hnd) as [-> ->]; done.
Qed.

(** The walks: for a node [n] between [l1] and [l2] in the in-order sequence
    of a tree, [hev_rbtree_node_next] returns the first node of [l2] and
    [hev_rbtree_node_prev] the last one of [l1] (NULL if there is none), with
    no more rounds than there are nodes and one.  Nodes are aligned: an odd
    address is a colour bit. *)
Theorem hev_rbtree_walk_correct st t n l1 l2 fuel :
  wf st t -> NoDup (inorder t) -> Forall (fun x => x mod 2 = 0) (inorder t) ->
  inorder t = l1 ++ n :: l2 -> (length (inorder t) < fuel)%nat ->
  hev_rbtree_node_next fuel n st = Some (default 0 (head l2), st) /\
  hev_rbtree_node_prev fuel n st = Some (default 0 (last l1), st).
Proof.
  intros Hw Hnd Hal Hio Hf. destruct (tree_split t n) as (k & c & l & r & ->); [rewrite Hio; set_solver|].
  assert (E1 : inorder (plug k (T c l n r)) = (pre k ++ inorder l) ++ n :: inorder r ++ post k).
  { rewrite inorder_plug. cbn [inorder]. by repeat (rewrite <- app_assoc; cbn [app]). }
  destruct (nodup_middle (pre k ++ inorder l) (inorder r ++ post k) l1 l2 n) as [<- <-];
    [by rewrite <- E1|by rewrite <- E1|].
  pose proof Hw as [(Hn0 & Hn & Hl & Hr) Hk]%wf_plug.
  pose proof (node_empty_ok st k c l n r Hw Hnd Hal) as He.
  pose proof (length_path k (T c l n r)) as Hlen.
  assert (Hlen2 : (length (inorder l) < fuel /\ length (inorder r) < fuel)%nat).
  { rewrite E1 in Hf. rewrite !length_app in Hf. cbn [length] in Hf. rewrite length_app in Hf. lia. }
  split.
  - assert (HS : ospec (hev_rbtree_node_next fuel n) st
      (fun a st' => st' = st /\ a = default 0 (head (inorder r ++ post k)))).
    { unfold hev_rbtree_node_next. apply ospec_bind. eapply ospec_mono; [|exact He]. intros b st' [-> ->].
      do 3 ox1. destruct r as [|cr rl ra rr] eqn:Er.
      - cbn [root_of Z.eqb negb]. eapply (up_while_right_ok fuel k c l n E); try done. lia.
      - rewrite <- Er in *. assert (root_of r <> 0) by (subst r; simpl in Hr; tauto). oeq.
        eapply ospec_mono; [|apply (leftmost_ok _ r n); [by rewrite Er|done|lia]].
        intros x st' [-> Hx]. split; [done|]. destruct (inorder r); [done|]. by injection Hx. }
    apply ospec_some in HS as (a & st' & -> & -> & ->). done.
  - assert (HS : ospec (hev_rbtree_node_prev fuel n) st
      (fun a st' => st' = st /\ a = default 0 (last (pre k ++ inorder l)))).
    { unfold hev_rbtree_node_prev. apply ospec_bind. eapply ospec_mono; [|exact He]. intros b st' [-> ->].
      do 3 ox1. destruct l as [|cl ll la lr] eqn:El.
      - cbn [root_of Z.eqb negb inorder]. rewrite app_nil_r.
        eapply (up_while_left_ok fuel k c E n r); try done. lia.
      - rewrite <- El in *. assert (root_of l <> 0) by (subst l; simpl in Hl; tauto). oeq.
        eapply ospec_mono; [|apply (rightmost_ok _ l n); [by rewrite El|done|lia]].
        intros x st' [-> Hx]. split; [done|]. by rewrite last_app, Hx. }
    apply ospec_some in HS as (a & st' & -> & -> & ->). done.
Qed.

Lemma hev_rbtree_walk_correct_witness :
  hev_rbtree_node_next 5 30 (in_memory RBWitness.small) = Some (40, in_memory RBWitness.small) /\
  hev_rbtree_node_prev 5 30 (in_memory RBWitness.small) = Some (20, in_memory RBWitness.small).
Proof.
  destruct RBWitness.small_ok as (H1 & H2 & H3).
  apply (hev_rbtree_walk_correct (in_memory RBWitness.small) RBWitness.small 30 [10; 20] [40] 5);
    [exact H1|exact H2| |reflexivity|simpl; lia].
  repeat constructor.
Defined.
