(* ===== verification/Authenticator.v ===== *)
(** * The authenticator

    Models hev/src/core/src/hev-socks5-authenticator.c: users in a red-black tree
    by the length of their name and then its bytes.  The tree is the pointer-level
    one of [RBTree]; the users are objects with reference counts
    (hev-object-atomic.c), and looking at an object that is freed fails.

    [authenticator_refines_map] shows that it is a finite map from names to
    users, and the instance of [Authenticator] at the end gives it to the server. *)

From S2P Require Import Prelude RBTree RBTreeSpec RBErase SearchTree Auth.

(** The tree of the authenticator, and the live user objects of the program with
    their [ref_count], by address. *)
Record HevSocks5Authenticator := mkAuth { tree : rbstate; users : gmap Z (Z * HevSocks5User) }.

(** [_hev_object_atomic_ref]: the last reference calls [hev_socks5_user_destruct]. *)
Definition dropped (o : Z * HevSocks5User) : option (Z * HevSocks5User) :=
  if 1 <? o.1 then Some (o.1 - 1, o.2) else None.

Definition hev_object_unref (a : Z) (self : HevSocks5Authenticator) : option HevSocks5Authenticator :=
  o ← users self !! a;
  Some (mkAuth (tree self) (partial_alter (fun _ => dropped o) a (users self))).

Definition hev_object_ref (a : Z) (self : HevSocks5Authenticator) : option HevSocks5Authenticator :=
  o ← users self !! a;
  Some (mkAuth (tree self) (<[a := (o.1 + 1, o.2)]> (users self))).

(** The comparison the three searches write out. *)
Definition compare_name (this name : list Z) : Z :=
  let this_len := Z.of_nat (length this) in
  let name_len := Z.of_nat (length name) in
  if this_len <? name_len then -1
  else if name_len <? this_len then 1
  else memcmp this name (length this).

Definition cmp_user (self : HevSocks5Authenticator) (name : list Z) (node : Z) : option Z :=
  this ← users self !! node; Some (compare_name (u_name this.2) name).

(** [calloc]: an empty tree. *)
Definition hev_socks5_authenticator_new (objs : gmap Z (Z * HevSocks5User)) : HevSocks5Authenticator :=
  mkAuth (mkRB ∅ 0) objs.

Definition hev_socks5_authenticator_add (self : HevSocks5Authenticator) (user : Z)
  : option (Z * HevSocks5Authenticator) :=
  u ← users self !! user;
  '(pos, t) ← search_root (cmp_user self (u_name u.2)) (enough (tree self)) (tree self);
  match pos with
  | inl _ => Some (-1, self)
  | inr (parent, new) =>
      '(_, t) ← (hev_rbtree_node_link user parent new;;
                 hev_rbtree_insert_color (enough (tree self)) user) (tree self);
      Some (0, mkAuth t (users self))
  end.

Definition hev_socks5_authenticator_del (self : HevSocks5Authenticator) (name : list Z)
  : option (Z * HevSocks5Authenticator) :=
  '(pos, t) ← search_root (cmp_user self name) (enough (tree self)) (tree self);
  match pos with
  | inl node =>
      '(_, t) ← hev_rbtree_erase (enough (tree self)) node (tree self);
      self ← hev_object_unref node (mkAuth t (users self));
      Some (0, self)
  | inr _ => Some (-1, self)
  end.

(** The address of the user, or NULL. *)
Definition hev_socks5_authenticator_get (self : HevSocks5Authenticator) (name : list Z) : option Z :=
  '(pos, _) ← search_root (cmp_user self name) (enough (tree self)) (tree self);
  Some match pos with inl node => node | inr _ => 0 end.

Fixpoint clear_loop (fuel : nat) (self : HevSocks5Authenticator) : option HevSocks5Authenticator :=
  match fuel with
  | 0%nat => None
  | S fuel =>
      '(n, _) ← hev_rbtree_first (enough (tree self)) (tree self);
      if n =? 0 then Some self else
      '(_, t) ← hev_rbtree_erase (enough (tree self)) n (tree self);
      self ← hev_object_unref n (mkAuth t (users self));
      clear_loop fuel self
  end.

Definition hev_socks5_authenticator_clear (self : HevSocks5Authenticator) : option HevSocks5Authenticator :=
  clear_loop (enough (tree self)) self.

(** The users go with the authenticator; the rest frees the object itself. *)
Definition hev_socks5_authenticator_destruct := hev_socks5_authenticator_clear.

(** ** The order of names *)

Lemma memcmp_full a b : length a = length b -> memcmp a b (length a) = bytes_cmp a b.
Proof. intros Hl. unfold memcmp. rewrite !take_ge by lia. done. Qed.

#[export] Instance name_order : KeyOrder (list Z).
Proof.
  refine {| kcmp := compare_name |}; unfold compare_name.
  - intros a b. repeat case_test; [split; [done|intros ->; lia]..|].
    rewrite memcmp_full by lia. apply bytes_cmp_eq.
  - intros a b. repeat case_test; try lia.
    rewrite !memcmp_full by lia. rewrite (bytes_cmp_anti a b). lia.
  - intros a b c. repeat case_test; try lia.
    rewrite !memcmp_full by lia. apply bytes_cmp_trans.
Defined.

(** ** The specification: a map from names to users *)

Inductive op :=
  | OpUserNew (a : Z) (name pass : list Z)
  | OpAdd (a : Z)
  | OpDel (name : list Z)
  | OpGet (name : list Z)
  | OpRef (a : Z)
  | OpUnref (a : Z)
  | OpClear.

Definition exec (o : op) (self : HevSocks5Authenticator) : option (Z * HevSocks5Authenticator) :=
  match o with
  | OpUserNew a name pass => Some (0, mkAuth (tree self) (<[a := (1, mkUser a name pass)]> (users self)))
  | OpAdd a => hev_socks5_authenticator_add self a
  | OpDel name => hev_socks5_authenticator_del self name
  | OpGet name => r ← hev_socks5_authenticator_get self name; Some (r, self)
  | OpRef a => self ← hev_object_ref a self; Some (0, self)
  | OpUnref a => self ← hev_object_unref a self; Some (0, self)
  | OpClear => self ← hev_socks5_authenticator_clear self; Some (0, self)
  end.

Fixpoint exec_all (ops : list op) (self : HevSocks5Authenticator) : option (list Z * HevSocks5Authenticator) :=
  match ops with
  | [] => Some ([], self)
  | o :: ops => '(r, self) ← exec o self; '(rs, self) ← exec_all ops self; Some (r :: rs, self)
  end.

(** The users that are registered, by name, and all user objects. *)
Record registry := mkReg { dict : gmap (list Z) Z; objs : gmap Z (Z * HevSocks5User) }.

Definition registered (g : registry) (a : Z) : Prop := a ∈ (map_to_list (dict g)).*2.
#[export] Instance registered_dec g a : Decision (registered g a).
Proof. unfold registered. apply _. Defined.

Definition spec (o : op) (g : registry) : Z * registry :=
  match o with
  | OpUserNew a name pass => (0, mkReg (dict g) (<[a := (1, mkUser a name pass)]> (objs g)))
  | OpAdd a =>
      match objs g !! a with
      | Some (_, u) =>
          match dict g !! u_name u with
          | Some _ => (-1, g)
          | None => (0, mkReg (<[u_name u := a]> (dict g)) (objs g))
          end
      | None => (0, g)
      end
  | OpDel name =>
      match dict g !! name with
      | Some a => (0, mkReg (delete name (dict g)) (partial_alter (fun o => o ≫= dropped) a (objs g)))
      | None => (-1, g)
      end
  | OpGet name => (default 0 (dict g !! name), g)
  | OpRef a => (0, mkReg (dict g) (alter (fun o => (o.1 + 1, o.2)) a (objs g)))
  | OpUnref a => (0, mkReg (dict g) (partial_alter (fun o => o ≫= dropped) a (objs g)))
  | OpClear =>
      (0, mkReg ∅ (map_imap (fun a o => if decide (registered g a) then dropped o else Some o) (objs g)))
  end.

Fixpoint spec_all (ops : list op) (g : registry) : list Z * registry :=
  match ops with
  | [] => ([], g)
  | o :: ops => let '(r, g) := spec o g in let '(rs, g) := spec_all ops g in (r :: rs, g)
  end.

(** What the callers must respect: a new object has a fresh address, only live
    objects that are not registered are added, and nobody but the authenticator
    gives up the last reference to a registered user. *)
Definition allowed (o : op) (g : registry) : Prop :=
  match o with
  | OpUserNew a _ _ => a <> 0 /\ objs g !! a = None
  | OpAdd a => is_Some (objs g !! a) /\ ~ registered g a
  | OpRef a => is_Some (objs g !! a)
  | OpUnref a => exists o, objs g !! a = Some o /\ (registered g a -> 1 < o.1)
  | _ => True
  end.

Fixpoint allowed_all (ops : list op) (g : registry) : Prop :=
  match ops with [] => True | o :: ops => allowed o g /\ allowed_all ops (spec o g).2 end.

(** ** Refinement *)

Definition names (m : gmap Z (Z * HevSocks5User)) : gmap Z (list Z) := (fun o => u_name o.2) <$> m.

Definition rel (self : HevSocks5Authenticator) (g : registry) : Prop :=
  users self = objs g /\ objs g !! 0 = None /\
  exists l, indexed (names (objs g)) l (tree self)
    /\ forall a name, dict g !! name = Some a <-> a ∈ l /\ names (objs g) !! a = Some name.

Lemma registered_iff g a : registered g a <-> exists name, dict g !! name = Some a.
Proof.
  unfold registered. rewrite list_elem_of_fmap. split.
  - intros ([name b] & -> & Hin). apply elem_of_map_to_list in Hin. by exists name.
  - intros [name Hn]. exists (name, a). split; [done|]. by apply elem_of_map_to_list.
Qed.

Lemma auth_find_ok self g l name :
  users self = objs g -> indexed (names (objs g)) l (tree self) ->
  (forall a name, dict g !! name = Some a <-> a ∈ l /\ names (objs g) !! a = Some name) ->
  exists res, search_root (cmp_user self name) (enough (tree self)) (tree self) = Some (res, tree self) /\
    match res with
    | inl a => a ∈ l /\ dict g !! name = Some a
    | inr (parent, new) => dict g !! name = None
        /\ exists k m, wf (tree self) (plug k E) /\ RB true m (plug k E) /\ parent = top k /\ new = link_of k
        /\ l = pre k ++ post k /\ fits (names (objs g)) name (pre k) (post k)
    end.
Proof.
  intros Hu Hi Hd.
  rewrite (search_root_ext _ (cmp_key (names (objs g)) name)).
  2: { intros n. unfold cmp_user, cmp_key, names. rewrite Hu, lookup_fmap. by destruct (objs g !! n). }
  pose proof (search_indexed (names (objs g)) name l (tree self) Hi) as HS.
  apply ospec_some in HS as (res & st' & -> & -> & Hres). exists res. split; [done|].
  destruct res as [a|[parent new]].
  - destruct Hres as [Ha Hk]. split; [done|]. by apply Hd.
  - destruct Hres as [Hno Hk]. split; [|done]. destruct (dict g !! name) as [a|] eqn:E'; [|done].
    apply Hd in E' as [Ha Hka]. by destruct (Hno a Ha).
Qed.

Lemma rel_empty m : m !! 0 = None -> rel (hev_socks5_authenticator_new m) (mkReg ∅ m).
Proof.
  intros H0. split_and!; [done|done|]. exists []. split.
  - split; [|by split; constructor]. exists E, 0%nat. split_and!; [done|constructor|done].
  - intros a name. cbn. rewrite lookup_empty. set_solver.
Qed.

(** Objects that are not in the tree may change. *)
Lemma rel_objs self g l m' :
  users self = objs g -> indexed (names (objs g)) l (tree self) ->
  (forall a name, dict g !! name = Some a <-> a ∈ l /\ names (objs g) !! a = Some name) ->
  m' !! 0 = None -> (forall a, a ∈ l -> names m' !! a = names (objs g) !! a) ->
  rel (mkAuth (tree self) m') (mkReg (dict g) m').
Proof.
  intros Hu Hi Hd H0 Hm. split_and!; [done|done|]. exists l. cbn [objs tree dict]. split.
  - by eapply indexed_agree.
  - intros a name. rewrite Hd. split; intros [Ha Hn]; (split; [done|]); [by rewrite Hm|by rewrite Hm in Hn].
Qed.

Lemma add_ok self g a :
  rel self g -> allowed (OpAdd a) g ->
  exists self', hev_socks5_authenticator_add self a = Some ((spec (OpAdd a) g).1, self')
    /\ rel self' (spec (OpAdd a) g).2.
Proof.
  intros (Hu & H0 & l & Hi & Hd) [[[rc u] Ha] Hnr]. unfold hev_socks5_authenticator_add. cbn [spec].
  rewrite Hu, Ha. cbn [mbind option_bind snd].
  destruct (auth_find_ok self g l (u_name u) Hu Hi Hd) as (res & -> & Hres). cbn [mbind option_bind].
  destruct res as [b|[parent new]].
  - destruct Hres as [_ ->]. exists self. split; [done|]. split_and!; [done..|]. by exists l.
  - destruct Hres as (Hno & k & m & Hw & Hrb & -> & -> & Hl & Hfit). rewrite Hno.
    assert (Hka : names (objs g) !! a = Some (u_name u)) by (unfold names; by rewrite lookup_fmap, Ha).
    assert (Hal : a ∉ l).
    { intros Hin. apply Hnr, registered_iff. exists (u_name u). by apply Hd. }
    assert (Ha0 : a <> 0) by (intros ->; congruence).
    pose proof (insert_indexed _ _ a l _ k m (proj2 Hi) Hw Hrb Hl Hfit Hka Ha0 Hal) as HS.
    apply ospec_some in HS as ([] & st' & -> & l' & Hi' & Hp). cbn [mbind option_bind].
    eexists. split; [done|]. split_and!; [done..|]. exists l'. split; [done|].
    intros b name. cbn [dict objs snd]. rewrite Hp, elem_of_cons. destruct (decide (name = u_name u)) as [->|Hne].
    + rewrite lookup_insert_eq. split; [intros [= <-]; by split; [left|]|].
      intros [[->|Hb] Hn]; [done|]. exfalso. assert (dict g !! u_name u = Some b) by (by apply Hd). congruence.
    + rewrite lookup_insert_ne by done. rewrite Hd. split; [tauto|]. intros [[->|Hb] Hn]; [congruence|done].
Qed.

Lemma names_dropped m a b : a <> b ->
  names (partial_alter (fun o => o ≫= dropped) a m) !! b = names m !! b.
Proof. intros Hab. unfold names. by rewrite !lookup_fmap, lookup_partial_alter_ne. Qed.

(** The implementation drops a reference where the specification does. *)
Lemma unref_ok t m a o : m !! a = Some o ->
  hev_object_unref a (mkAuth t m) = Some (mkAuth t (partial_alter (fun o => o ≫= dropped) a m)).
Proof.
  intros Ha. unfold hev_object_unref. cbn [users tree]. rewrite Ha. cbn [mbind option_bind].
  do 2 f_equal. apply map_eq. intros b. destruct (decide (a = b)) as [->|Hne].
  - by rewrite !lookup_partial_alter_eq, Ha.
  - by rewrite !lookup_partial_alter_ne.
Qed.

(** Taking out one registered user. *)
Lemma remove_ok self g l a name :
  users self = objs g -> objs g !! 0 = None -> indexed (names (objs g)) l (tree self) ->
  (forall a name, dict g !! name = Some a <-> a ∈ l /\ names (objs g) !! a = Some name) ->
  dict g !! name = Some a ->
  exists t l1 l2, hev_rbtree_erase (enough (tree self)) a (tree self) = Some (tt, t) /\
  l = l1 ++ a :: l2 /\
  hev_object_unref a (mkAuth t (users self)) =
    Some (mkAuth t (partial_alter (fun o => o ≫= dropped) a (objs g))) /\
  let g' := mkReg (delete name (dict g)) (partial_alter (fun o => o ≫= dropped) a (objs g)) in
  objs g' !! 0 = None /\ indexed (names (objs g')) (l1 ++ l2) t /\
  (forall b n, dict g' !! n = Some b <-> b ∈ l1 ++ l2 /\ names (objs g') !! b = Some n).
Proof.
  intros Hu H0 Hi Hd Hn. pose proof Hn as [Ha Hka]%Hd.
  pose proof (erase_indexed _ a l _ Hi Ha) as HS.
  apply ospec_some in HS as ([] & t & Ht & l1 & l2 & Hl & Hi'). exists t, l1, l2.
  unfold names in Hka. rewrite lookup_fmap in Hka.
  destruct (objs g !! a) as [o|] eqn:Eo; [|done]. cbn in Hka. injection Hka as Hka.
  assert (Hal : a ∉ l1 ++ l2).
  { pose proof (indexed_nodup _ _ _ Hi) as Hnd. rewrite Hl in Hnd. clear - Hnd.
    rewrite <- Permutation_middle in Hnd. by apply NoDup_cons in Hnd as [? _]. }
  assert (Hag : forall b, b ∈ l1 ++ l2 ->
    names (partial_alter (fun o => o ≫= dropped) a (objs g)) !! b = names (objs g) !! b).
  { intros b Hb. apply names_dropped. by intros ->. }
  cbn zeta. cbn [objs dict]. split_and!; [done|done|rewrite Hu; by eapply unref_ok|..].
  - destruct (decide (a = 0)) as [->|]; [congruence|]. by rewrite lookup_partial_alter_ne.
  - by eapply indexed_agree.
  - intros b n. destruct (decide (n = name)) as [->|Hne].
    + rewrite lookup_delete_eq. split; [done|]. intros [Hb Hnb]. rewrite Hag in Hnb by done.
      assert (Hdb : dict g !! name = Some b) by (apply Hd; split; [rewrite Hl; set_solver|done]). congruence.
    + rewrite lookup_delete_ne, Hd by done. split; intros [Hb Hnb].
      * assert (b <> a) by (intros ->; unfold names in Hnb; rewrite lookup_fmap, Eo in Hnb; cbn in Hnb; congruence).
        assert (Hb' : b ∈ l1 ++ l2) by (rewrite Hl in Hb; set_solver). split; [done|]. by rewrite Hag.
      * rewrite Hag in Hnb by done. split; [rewrite Hl; set_solver|done].
Qed.

Lemma auth_del_ok self g name :
  rel self g ->
  exists self', hev_socks5_authenticator_del self name = Some ((spec (OpDel name) g).1, self')
    /\ rel self' (spec (OpDel name) g).2.
Proof.
  intros (Hu & H0 & l & Hi & Hd). unfold hev_socks5_authenticator_del. cbn [spec].
  destruct (auth_find_ok self g l name Hu Hi Hd) as (res & -> & Hres). cbn [mbind option_bind].
  destruct res as [a|[parent new]].
  - destruct Hres as [_ Hn]. rewrite Hn.
    destruct (remove_ok self g l a name Hu H0 Hi Hd Hn) as (t & l1 & l2 & -> & _ & Hun & H0' & Hi' & Hd').
    cbn [mbind option_bind]. rewrite Hun. cbn [mbind option_bind]. eexists. split; [done|].
    split_and!; [done..|]. by exists (l1 ++ l2).
  - destruct Hres as [-> _]. exists self. split; [done|]. split_and!; [done..|]. by exists l.
Qed.

Definition drop_all (l : list Z) (m : gmap Z (Z * HevSocks5User)) : gmap Z (Z * HevSocks5User) :=
  map_imap (fun a o => if decide (a ∈ l) then dropped o else Some o) m.

Lemma drop_all_cons l1 l2 a m : a ∉ l1 ++ l2 ->
  drop_all (l1 ++ l2) (partial_alter (fun o => o ≫= dropped) a m) = drop_all (l1 ++ a :: l2) m.
Proof.
  intros Ha. apply map_eq. intros b. unfold drop_all. rewrite !map_lookup_imap.
  destruct (decide (a = b)) as [->|Hne].
  - rewrite lookup_partial_alter_eq. destruct (m !! b) as [o|]; cbn; [|done].
    rewrite (decide_True (P := b ∈ l1 ++ b :: l2)) by set_solver.
    destruct (dropped o); cbn; [|done]. by rewrite decide_False.
  - rewrite lookup_partial_alter_ne by done. destruct (m !! b) as [o|]; cbn; [|done].
    destruct (decide (b ∈ l1 ++ l2)), (decide (b ∈ l1 ++ a :: l2)); set_solver.
Qed.

Lemma clear_loop_ok fuel : forall self g l,
  users self = objs g -> objs g !! 0 = None -> indexed (names (objs g)) l (tree self) ->
  (forall a name, dict g !! name = Some a <-> a ∈ l /\ names (objs g) !! a = Some name) ->
  (length l < fuel)%nat ->
  exists t, clear_loop fuel self = Some (mkAuth t (drop_all l (objs g))) /\ holds [] t.
Proof.
  induction fuel as [|fuel IH]; intros self g l Hu H0 Hi Hd Hf; [lia|]. cbn [clear_loop].
  pose proof (first_ok l _ (proj1 Hi) (indexed_nodup _ _ _ Hi)) as HS.
  apply ospec_some in HS as (n & st & -> & -> & ->). cbn [mbind option_bind].
  destruct l as [|a l]; cbn [head default from_option].
  - cbn [Z.eqb]. exists (tree self). destruct Hi as [Hh _]. split; [|done].
    destruct self as [t m]. cbn [users tree] in *. subst m. do 2 f_equal. apply map_eq. intros b.
    unfold drop_all. rewrite map_lookup_imap. destruct (objs g !! b); cbn; [|done].
    by rewrite decide_False by set_solver.
  - assert (Hka : is_Some (names (objs g) !! a)) by (eapply sorted_key; [apply Hi|by left]).
    destruct Hka as [name Hka].
    assert (Hn : dict g !! name = Some a) by (apply Hd; split; [by left|done]).
    assert (Ha0 : a <> 0).
    { intros ->. unfold names in Hka. by rewrite lookup_fmap, H0 in Hka. }
    unfold id. rewrite (proj2 (Z.eqb_neq a 0) Ha0).
    destruct (remove_ok self g _ a name Hu H0 Hi Hd Hn) as (t & l1 & l2 & -> & Hl & Hun & H0' & Hi' & Hd').
    cbn [mbind option_bind]. rewrite Hun. cbn [mbind option_bind].
    pose proof (indexed_nodup _ _ _ Hi) as Hnd. rewrite Hl in Hnd.
    destruct (IH (mkAuth t (partial_alter (fun o => o ≫= dropped) a (objs g)))
      (mkReg (delete name (dict g)) (partial_alter (fun o => o ≫= dropped) a (objs g))) (l1 ++ l2))
      as (t' & Hc & Ht'); [done..| |].
    { apply (f_equal length) in Hl. rewrite length_app in *. cbn [length] in *. lia. }
    exists t'. split; [|done]. rewrite Hc. cbn [objs]. do 2 f_equal. rewrite Hl. apply drop_all_cons.
    rewrite <- Permutation_middle in Hnd. by apply NoDup_cons in Hnd as [? _].
Qed.

Lemma clear_ok self g :
  rel self g ->
  exists self', hev_socks5_authenticator_clear self = Some self' /\ rel self' (spec OpClear g).2.
Proof.
  intros (Hu & H0 & l & Hi & Hd). unfold hev_socks5_authenticator_clear.
  destruct (clear_loop_ok (enough (tree self)) self g l Hu H0 Hi Hd) as (t & -> & Ht).
  { pose proof (holds_size _ _ (proj1 Hi) (indexed_nodup _ _ _ Hi)). unfold enough. lia. }
  eexists. split; [done|]. cbn [spec snd]. split_and!; cbn [users objs dict].
  - apply map_eq. intros a. unfold drop_all. rewrite !map_lookup_imap.
    destruct (objs g !! a) as [o|] eqn:Eo; cbn; [|done].
    assert (Hiff : a ∈ l <-> registered g a).
    { rewrite registered_iff. split; [|intros [n Hn]; by apply (Hd a n) in Hn as [? _]].
      intros Ha. destruct (sorted_key _ _ a (proj2 Hi) Ha) as [n Hn]. exists n. by apply Hd. }
    destruct (decide (a ∈ l)), (decide (registered g a)); try done; tauto.
  - unfold drop_all. rewrite map_lookup_imap, H0. done.
  - exists []. split; [split; [done|by split; constructor]|].
    intros a name. rewrite lookup_empty. set_solver.
Qed.

Lemma auth_exec_ok o self g :
  rel self g -> allowed o g -> exists self', exec o self = Some ((spec o g).1, self') /\ rel self' (spec o g).2.
Proof.
  intros Hr Ha. destruct o as [a name pass|a|name|name|a|a|]; cbn [exec].
  - destruct Hr as (Hu & H0 & l & Hi & Hd). destruct Ha as [Ha0 Ha]. eexists. split; [done|]. rewrite Hu.
    eapply (rel_objs self g l); try done; [by rewrite lookup_insert_ne|].
    intros b Hb. destruct (sorted_key _ _ b (proj2 Hi) Hb) as [n Hn]. unfold names in *.
    rewrite lookup_fmap in Hn |- *. rewrite lookup_fmap.
    rewrite lookup_insert_ne; [done|]. intros ->. by rewrite Ha in Hn.
  - by apply add_ok.
  - by apply auth_del_ok.
  - pose proof Hr as (Hu & H0 & l & Hi & Hd). unfold hev_socks5_authenticator_get.
    destruct (auth_find_ok self g l name Hu Hi Hd) as (res & -> & Hres). cbn [mbind option_bind spec fst snd].
    exists self. split; [|done]. destruct res as [a|[parent new]].
    + destruct Hres as [_ ->]. done.
    + destruct Hres as [-> _]. done.
  - destruct Hr as (Hu & H0 & l & Hi & Hd). destruct Ha as [o Ho]. unfold hev_object_ref.
    rewrite Hu, Ho. cbn [mbind option_bind]. eexists. split; [done|]. cbn [spec fst snd].
    replace (alter (fun o : Z * HevSocks5User => (o.1 + 1, o.2)) a (objs g)) with (<[a:=(o.1 + 1, o.2)]> (objs g)).
    2: { apply map_eq. intros b. destruct (decide (a = b)) as [->|]; [by rewrite lookup_insert_eq, lookup_alter_eq, Ho|].
         by rewrite lookup_insert_ne, lookup_alter_ne. }
    eapply (rel_objs self g l); try done.
    + rewrite lookup_insert_ne; [done|]. intros ->. congruence.
    + intros b _. unfold names. rewrite !lookup_fmap.
      destruct (decide (a = b)) as [->|]; [by rewrite lookup_insert_eq, Ho|by rewrite lookup_insert_ne].
  - destruct Hr as (Hu & H0 & l & Hi & Hd). destruct Ha as (o & Ho & Hrc).
    destruct self as [t m]. cbn [users tree] in *. subst m. rewrite (unref_ok _ _ _ o Ho). cbn [mbind option_bind].
    eexists. split; [done|]. cbn [spec fst snd].
    apply (rel_objs (mkAuth t (objs g)) g l); try done.
    + destruct (decide (a = 0)) as [->|]; [congruence|]. by rewrite lookup_partial_alter_ne.
    + intros b Hb. destruct (decide (a = b)) as [->|]; [|by apply names_dropped].
      unfold names. rewrite !lookup_fmap, lookup_partial_alter_eq, Ho. cbn.
      assert (Hreg : registered g b).
      { apply registered_iff. destruct (sorted_key _ _ b (proj2 Hi) Hb) as [n Hn]. exists n. by apply Hd. }
      unfold dropped. apply Hrc in Hreg. by rewrite (proj2 (Z.ltb_lt _ _) Hreg).
  - destruct (clear_ok self g Hr) as (self' & -> & Hr'). cbn [mbind option_bind]. by exists self'.
Qed.

Lemma auth_exec_all_ok ops : forall self g, rel self g -> allowed_all ops g ->
  exists self', exec_all ops self = Some ((spec_all ops g).1, self') /\ rel self' (spec_all ops g).2.
Proof.
  induction ops as [|o ops IH]; intros self g Hr Ha; [by exists self|]. destruct Ha as [Ho Ha].
  destruct (auth_exec_ok o self g Hr Ho) as (self1 & He & Hr1). cbn [exec_all spec_all]. rewrite He.
  destruct (spec o g) as [r g1]. cbn [fst snd mbind option_bind] in *.
  destruct (IH self1 g1 Hr1 Ha) as (self2 & -> & Hr2). destruct (spec_all ops g1) as [rs g2].
  by exists self2.
Qed.

(** C35. The authenticator is a map from names to users.  Any sequence of
    additions, removals, look-ups and clearings on a new authenticator, mixed
    with other holders taking and giving up references, runs without touching a
    freed user or a wild pointer, ends, returns what a finite map returns, and
    leaves every user object with the reference count that the specification
    says: an addition under a taken name is refused, a removal and a clearing
    drop exactly the references of the users they remove. *)
Theorem authenticator_refines_map ops m :
  m !! 0 = None -> allowed_all ops (mkReg ∅ m) ->
  exists self', exec_all ops (hev_socks5_authenticator_new m) = Some ((spec_all ops (mkReg ∅ m)).1, self')
    /\ users self' = objs (spec_all ops (mkReg ∅ m)).2.
Proof.
  intros H0 Ha. destruct (auth_exec_all_ok ops _ _ (rel_empty m H0) Ha) as (self' & He & Hu & _).
  by exists self'.
Qed.

(** ** What the server relies on *)

Definition get_user (self : HevSocks5Authenticator) (name : list Z) : option HevSocks5User :=
  a ← hev_socks5_authenticator_get self name;
  if a =? 0 then None else snd <$> users self !! a.

Lemma get_user_name self name u : get_user self name = Some u -> u_name u = name.
Proof.
  unfold get_user, hev_socks5_authenticator_get.
  destruct (search_root _ _ _) as [[res st']|] eqn:Es; cbn; [|done].
  unfold search_root, get_root, mbind, O_bind in Es.
  destruct res as [a|[parent new]]; [|done]. apply search_found in Es. unfold cmp_user in Es.
  destruct (a =? 0); [done|]. destruct (users self !! a) as [o|]; cbn in *; [|done].
  intros [= <-]. injection Es as Es. by apply (kcmp_eq (u_name o.2) name).
Qed.

#[export] Instance authenticator : Authenticator HevSocks5Authenticator := {|
  authenticator_get := get_user;
  authenticator_get_name := get_user_name
|}.

Module AuthWitness.

Definition script : list op :=
  [OpUserNew 8 [97; 108] [1]; OpUserNew 16 [98] [2]; OpUserNew 24 [98] [3];
   OpAdd 8; OpAdd 16; OpAdd 24; OpGet [98]; OpRef 16; OpDel [98]; OpGet [98]; OpAdd 24; OpClear].

Lemma authenticator_refines_map_witness :
  exists self', exec_all script (hev_socks5_authenticator_new ∅)
      = Some ([0; 0; 0; 0; 0; -1; 16; 0; 0; 0; 0; 0], self')
    /\ users self' = {[ 16 := (1, mkUser 16 [98] [2]) ]}.
Proof.
  destruct (authenticator_refines_map script ∅) as (self' & He & Hu).
  - reflexivity.
  - cbn [allowed_all script]. unfold allowed, registered. vm_compute.
    repeat split; try done; try (eexists; reflexivity); intros H; repeat (inversion H as [|? ? ? H']; clear H; rename H' into H; subst; try done).
  - exists self'. split; [rewrite He; reflexivity|]. rewrite Hu. vm_compute. reflexivity.
Defined.

End AuthWitness.
