(* ===== verification/HevList.v ===== *)
(** * Doubly linked lists

    Models hev/src/misc/hev-list.c and hev-list.h: intrusive lists, by the
    address of the node.  A read through a pointer that is not a node fails. *)

From S2P Require Import Prelude.

Record HevListNode := mkLink { next : Z; prev : Z }.

(** The nodes, and the [HevList] itself; NULL is 0. *)
Record HevList := mkList { cells : gmap Z HevListNode; head : Z; tail : Z }.

Definition hev_list_node_prev (self : HevList) (node : Z) : option Z := prev <$> cells self !! node.
Definition hev_list_node_next (self : HevList) (node : Z) : option Z := next <$> cells self !! node.
Definition hev_list_first (self : HevList) : Z := head self.
Definition hev_list_last (self : HevList) : Z := tail self.

Definition set_next (n v : Z) (self : HevList) : option HevList :=
  c ← cells self !! n; Some (mkList (<[n := mkLink v (prev c)]> (cells self)) (head self) (tail self)).
Definition set_prev (n v : Z) (self : HevList) : option HevList :=
  c ← cells self !! n; Some (mkList (<[n := mkLink (next c) v]> (cells self)) (head self) (tail self)).
Definition set_head (v : Z) (self : HevList) : HevList := mkList (cells self) v (tail self).
Definition set_tail (v : Z) (self : HevList) : HevList := mkList (cells self) (head self) v.

(** The node is part of the caller's object: its fields are written first. *)
Definition hev_list_add_tail (self : HevList) (new : Z) : option HevList :=
  let self := mkList (<[new := mkLink 0 (tail self)]> (cells self)) (head self) (tail self) in
  self ← (if negb (tail self =? 0) then set_next (tail self) new self else Some (set_head new self));
  Some (set_tail new self).

Definition hev_list_del (self : HevList) (node : Z) : option HevList :=
  c ← cells self !! node;
  self ← (if negb (prev c =? 0) then set_next (prev c) (next c) self else Some (set_head (next c) self));
  c ← cells self !! node;
  if negb (next c =? 0) then set_prev (next c) (prev c) self else Some (set_tail (prev c) self).

(** ** The sequence a list holds *)

Definition first_or (d : Z) (l : list Z) : Z := default d (list.head l).
Definition last_or (d : Z) (l : list Z) : Z := default d (last l).

(** The nodes [l] are linked between [p] and [n]. *)
Fixpoint linked (h : gmap Z HevListNode) (p : Z) (l : list Z) (n : Z) : Prop :=
  match l with
  | [] => True
  | a :: l => a <> 0 /\ h !! a = Some (mkLink (first_or n l) p) /\ linked h a l n
  end.

Definition holds_list (self : HevList) (l : list Z) : Prop :=
  NoDup l /\ linked (cells self) 0 l 0 /\ head self = first_or 0 l /\ tail self = last_or 0 l.

Lemma linked_app h p l1 l2 n :
  linked h p (l1 ++ l2) n <-> linked h p l1 (first_or n l2) /\ linked h (last_or p l1) l2 n.
Proof.
  revert p. induction l1 as [|a l1 IH]; intros p; cbn [app linked]; [tauto|]. rewrite IH.
  assert (E1 : first_or n (l1 ++ l2) = first_or (first_or n l2) l1) by (by destruct l1).
  assert (E2 : last_or p (a :: l1) = last_or a l1).
  { unfold last_or. rewrite last_cons. by destruct (last l1). }
  rewrite E1, E2. tauto.
Qed.

Lemma linked_insert h p l n a c : a ∉ l -> linked h p l n -> linked (<[a := c]> h) p l n.
Proof.
  revert p. induction l as [|b l IH]; intros p Ha; cbn [linked]; [done|].
  apply not_elem_of_cons in Ha as [Hab Ha]. intros (? & Hb & Hl). split_and!; [done| |by apply IH].
  by rewrite lookup_insert_ne.
Qed.

Lemma last_or_snoc p l a : last_or p (l ++ [a]) = a.
Proof. unfold last_or. by rewrite last_snoc. Qed.
Lemma last_or_cons p a l : last_or p (a :: l) = last_or a l.
Proof. unfold last_or. rewrite last_cons. by destruct (last l). Qed.
Lemma linked_nonzero h p l n a : linked h p l n -> a ∈ l -> a <> 0.
Proof.
  revert p. induction l as [|b l IH]; intros p; cbn [linked]; [set_solver|].
  intros (? & _ & Hl) [->|Ha]%elem_of_cons; eauto.
Qed.

(** Relink the end of a segment. *)
Lemma linked_set_next h p l n m :
  NoDup l -> linked h p l n -> l <> [] ->
  exists c, h !! last_or 0 l = Some c /\ linked (<[last_or 0 l := mkLink m (prev c)]> h) p l m.
Proof.
  intros Hnd Hl Hne. destruct (exists_last Hne) as (l' & b & ->). rewrite last_or_snoc.
  apply linked_app in Hl as [Hl' (Hb0 & Hb & _)]. cbn [first_or list.head default] in *.
  apply NoDup_app in Hnd as (_ & Hnd & _). eexists. split; [exact Hb|].
  apply linked_app. cbn [prev]. split.
  - apply linked_insert; [|done]. intros Hin. specialize (Hnd b Hin). set_solver.
  - cbn. split_and!; [done|by rewrite lookup_insert_eq|done].
Qed.

Lemma linked_set_prev h p q l n :
  NoDup l -> linked h p l n -> l <> [] ->
  exists c, h !! first_or 0 l = Some c /\ linked (<[first_or 0 l := mkLink (next c) q]> h) q l n.
Proof.
  intros Hnd Hl Hne. destruct l as [|b l]; [done|]. cbn [first_or list.head default from_option] in *.
  destruct Hl as (Hb0 & Hb & Hl). apply NoDup_cons in Hnd as [Hbl _]. eexists. split; [exact Hb|].
  cbn. split_and!; [done|by rewrite lookup_insert_eq|by apply linked_insert].
Qed.

Lemma add_tail_ok self l new :
  holds_list self l -> new <> 0 -> new ∉ l ->
  exists self', hev_list_add_tail self new = Some self' /\ holds_list self' (l ++ [new]).
Proof.
  intros (Hnd & Hl & Hh & Ht) Hn Hin. unfold hev_list_add_tail.
  assert (Hnd' : NoDup (l ++ [new])).
  { apply NoDup_app. split_and!; [done|set_solver|apply NoDup_singleton]. }
  destruct (decide (l = [])) as [->|Hne].
  - cbn [tail] in *. rewrite Ht. cbn. eexists. split; [done|]. split_and!; try done.
    cbn. split_and!; [done|by rewrite lookup_insert_eq|done].
  - rewrite Ht. set (h := <[new := mkLink 0 (last_or 0 l)]> (cells self)).
    destruct (linked_set_next h 0 l 0 new Hnd) as (c & Hc & Hl'); [by apply linked_insert|done|].
    assert (Hlast : last_or 0 l ∈ l).
    { destruct (exists_last Hne) as (l' & b & ->). rewrite last_or_snoc. set_solver. }
    assert (Htz : last_or 0 l <> 0) by (by eapply linked_nonzero).
    cbn [tail]. rewrite (proj2 (Z.eqb_neq _ _) Htz). cbn [negb]. unfold set_next. cbn [cells].
    rewrite Hc. cbn [mbind option_bind]. eexists. split; [done|].
    split_and!; cbn [cells head tail set_tail]; [done| |rewrite Hh; by destruct l|by rewrite last_or_snoc].
    apply linked_app. split; [done|]. cbn. split_and!; [done| |done].
    rewrite lookup_insert_ne by (intros E'; by rewrite E' in Hlast). subst h. by rewrite lookup_insert_eq.
Qed.

Lemma list_del_ok self l1 a l2 :
  holds_list self (l1 ++ a :: l2) ->
  exists self', hev_list_del self a = Some self' /\ holds_list self' (l1 ++ l2).
Proof.
  intros (Hnd & Hl & Hh & Ht). apply linked_app in Hl as [Hl1 (Ha0 & Ha & Hl2)].
  change (first_or 0 (a :: l2)) with a in Hl1. unfold hev_list_del. rewrite Ha. cbn [mbind option_bind next prev].
  assert (Hnd' : NoDup (l1 ++ l2)).
  { rewrite <- Permutation_middle in Hnd. by apply NoDup_cons in Hnd as [_ ?]. }
  pose proof Hnd as (Hn1 & Hd & [Han2 Hn2]%NoDup_cons)%NoDup_app.
  assert (Ha1 : a ∉ l1) by (intros Hin; by apply (Hd a Hin); left).
  (* the first half relinks [l1] to the front of [l2] *)
  assert (H1 : exists self1,
    (if negb (last_or 0 l1 =? 0) then set_next (last_or 0 l1) (first_or 0 l2) self
     else Some (set_head (first_or 0 l2) self)) = Some self1
    /\ linked (cells self1) 0 l1 (first_or 0 l2) /\ linked (cells self1) a l2 0
    /\ cells self1 !! a = Some (mkLink (first_or 0 l2) (last_or 0 l1))
    /\ head self1 = first_or 0 (l1 ++ l2) /\ tail self1 = tail self).
  { destruct (decide (l1 = [])) as [->|Hne].
    - cbn. eexists. split; [done|]. split_and!; done.
    - assert (Hlast : last_or 0 l1 ∈ l1).
      { destruct (exists_last Hne) as (l' & b & ->). rewrite last_or_snoc. set_solver. }
      assert (Hz : last_or 0 l1 <> 0) by (by apply (linked_nonzero _ _ _ _ _ Hl1)).
      rewrite (proj2 (Z.eqb_neq _ _) Hz). cbn [negb]. unfold set_next.
      destruct (linked_set_next (cells self) 0 l1 a (first_or 0 l2) Hn1 Hl1 Hne) as (c & Hc & Hl1').
      rewrite Hc. cbn [mbind option_bind]. eexists. split; [done|]. cbn [cells head tail].
      split_and!; [done| | | |done].
      + apply linked_insert; [|done]. intros Hin. apply (Hd _ Hlast). by right.
      + rewrite lookup_insert_ne; [done|]. intros E'. by rewrite E' in Hlast.
      + rewrite Hh. by destruct l1. }
  destruct H1 as (self1 & -> & Hl1' & Hl2' & Ha' & Hh' & Ht'). cbn [mbind option_bind].
  rewrite Ha'. cbn [mbind option_bind next prev].
  destruct (decide (l2 = [])) as [->|Hne].
  - cbn. eexists. split; [done|]. split_and!; cbn [set_tail cells head tail]; rewrite ?app_nil_r in *; try done.
  - assert (Hfirst : first_or 0 l2 ∈ l2) by (destruct l2; [done|]; by left).
    assert (Hz : first_or 0 l2 <> 0) by (by apply (linked_nonzero _ _ _ _ _ Hl2)).
    rewrite (proj2 (Z.eqb_neq _ _) Hz). cbn [negb]. unfold set_prev.
    destruct (linked_set_prev (cells self1) a (last_or 0 l1) l2 0 Hn2 Hl2' Hne) as (c & Hc & Hl2'').
    rewrite Hc. cbn [mbind option_bind]. eexists. split; [done|].
    split_and!; cbn [cells head tail]; [done| |done|].
    + apply linked_app. split; [|done]. apply linked_insert; [|done].
      intros Hin. apply (Hd _ Hin). by right.
    + rewrite Ht', Ht. unfold last_or. rewrite !last_app, last_cons.
      destruct l2; [done|]. rewrite last_cons. by destruct (last l2).
Qed.

(** Move a node to the end: the idiom of the least recently used lists. *)
Definition move_to_tail (self : HevList) (node : Z) : option HevList :=
  self ← hev_list_del self node; hev_list_add_tail self node.

Lemma move_to_tail_ok self l1 a l2 :
  holds_list self (l1 ++ a :: l2) ->
  exists self', move_to_tail self a = Some self' /\ holds_list self' (l1 ++ l2 ++ [a]).
Proof.
  intros Hl. unfold move_to_tail. destruct (list_del_ok _ _ _ _ Hl) as (self1 & -> & Hl1).
  cbn [mbind option_bind]. rewrite app_assoc. apply add_tail_ok; [done| |].
  - destruct Hl as (_ & Hl & _). eapply linked_nonzero; [exact Hl|set_solver].
  - destruct Hl as (Hnd & _). rewrite <- Permutation_middle in Hnd. by apply NoDup_cons in Hnd as [? _].
Qed.

(** Walking with [hev_list_node_next] from [hev_list_first] visits the sequence. *)
Lemma first_next_ok self l1 a l2 :
  holds_list self (l1 ++ a :: l2) ->
  hev_list_node_next self a = Some (first_or 0 l2) /\ hev_list_node_prev self a = Some (last_or 0 l1).
Proof.
  intros (_ & Hl & _). apply linked_app in Hl as [_ (_ & Ha & _)].
  unfold hev_list_node_next, hev_list_node_prev. by rewrite Ha.
Qed.

(** ** A list that owns its nodes *)

(** The nodes [ll] of [l] are what is allocated, and they hold [q]. *)
Definition owns {A} (l : HevList) (h : gmap Z A) (ll : list Z) (q : list A) : Prop :=
  holds_list l ll /\ Forall2 (fun a x => h !! a = Some x) ll q /\ forall a, is_Some (h !! a) <-> a ∈ ll.

Lemma entries_agree {A} (h h' : gmap Z A) ll q : Forall2 (fun a x => h !! a = Some x) ll q ->
  (forall a, a ∈ ll -> h' !! a = h !! a) -> Forall2 (fun a x => h' !! a = Some x) ll q.
Proof.
  induction 1 as [|a x ll q Hx HF IH]; intros Hag; constructor.
  - rewrite Hag; [done|by left].
  - apply IH. intros b Hb. apply Hag. by right.
Qed.

Lemma owns_empty {A} : owns (mkList ∅ 0 0) (∅ : gmap Z A) [] [].
Proof.
  split_and!; [by split_and!; [constructor|..]|constructor|]. intros a. rewrite lookup_empty. split; [by intros []|set_solver].
Qed.

Lemma owns_add {A} l (h : gmap Z A) ll q a x : owns l h ll q -> a <> 0 -> h !! a = None ->
  exists l', hev_list_add_tail l a = Some l' /\ owns l' (<[a := x]> h) (ll ++ [a]) (q ++ [x]).
Proof.
  intros (Hl & HF & Hd) Ha0 Ha.
  assert (Hin : a ∉ ll) by (intros H; apply Hd in H; rewrite Ha in H; by destruct H).
  destruct (add_tail_ok _ _ _ Hl Ha0 Hin) as (l' & -> & Hl'). exists l'. split; [done|]. split_and!; [done| |].
  - apply Forall2_app; [|repeat constructor; by rewrite lookup_insert_eq].
    apply (entries_agree h); [done|]. intros b Hb. apply lookup_insert_ne. by intros ->.
  - intros b. rewrite elem_of_app, list_elem_of_singleton, <- Hd. destruct (decide (b = a)) as [->|].
    + rewrite lookup_insert_eq. naive_solver.
    + rewrite lookup_insert_ne by done. naive_solver.
Qed.

(** Removing a node. *)
Lemma owns_remove {A} l (h : gmap Z A) l1 a l2 q1 x q2 : length l1 = length q1 ->
  owns l h (l1 ++ a :: l2) (q1 ++ x :: q2) ->
  h !! a = Some x /\ exists l', hev_list_del l a = Some l' /\ owns l' (delete a h) (l1 ++ l2) (q1 ++ q2).
Proof.
  intros Hlen (Hl & HF & Hd). pose proof Hl as (Hnd & _). rewrite <- Permutation_middle in Hnd.
  apply NoDup_cons in Hnd as [Han _].
  apply Forall2_app_inv in HF as [HF1 [Hx HF2]%Forall2_cons]; [|done]. split; [done|].
  destruct (list_del_ok l l1 a l2 Hl) as (l' & -> & Hl'). exists l'. split; [done|]. split_and!; [done| |].
  - apply (entries_agree h); [by apply Forall2_app|]. intros b Hb. apply lookup_delete_ne. by intros ->.
  - intros b. destruct (decide (b = a)) as [->|].
    + rewrite lookup_delete_eq. split; [by intros []|done].
    + rewrite lookup_delete_ne, Hd by done. set_solver.
Qed.

Lemma owns_del {A} l (h : gmap Z A) a ll x q : owns l h (a :: ll) (x :: q) ->
  hev_list_first l = a /\ h !! a = Some x
  /\ exists l', hev_list_del l a = Some l' /\ owns l' (delete a h) ll q.
Proof.
  intros Ho. pose proof Ho as ((_ & _ & Hh & _) & _). split; [exact Hh|].
  by apply (owns_remove l h [] a ll [] x q).
Qed.

(** Moving a node to the end. *)
Lemma owns_move {A} l (h : gmap Z A) l1 a l2 q1 x q2 : length l1 = length q1 ->
  owns l h (l1 ++ a :: l2) (q1 ++ x :: q2) ->
  exists l', move_to_tail l a = Some l' /\ owns l' h (l1 ++ l2 ++ [a]) (q1 ++ q2 ++ [x]).
Proof.
  intros Hlen (Hl & HF & Hd). destruct (move_to_tail_ok l l1 a l2 Hl) as (l' & -> & Hl'). exists l'. split; [done|].
  apply Forall2_app_inv in HF as [HF1 [Hx HF2]%Forall2_cons]; [|done]. split_and!; [done| |].
  - apply Forall2_app; [done|]. apply Forall2_app; [done|]. by repeat constructor.
  - intros b. rewrite Hd. set_solver.
Qed.

(** Writing to a node. *)
Lemma owns_set {A} l (h : gmap Z A) l1 a l2 q1 x q2 y : length l1 = length q1 ->
  owns l h (l1 ++ a :: l2) (q1 ++ x :: q2) ->
  h !! a = Some x /\ owns l (<[a := y]> h) (l1 ++ a :: l2) (q1 ++ y :: q2).
Proof.
  intros Hlen (Hl & HF & Hd). pose proof Hl as (Hnd & _). rewrite <- Permutation_middle in Hnd.
  apply NoDup_cons in Hnd as [Han _].
  apply Forall2_app_inv in HF as [HF1 [Hx HF2]%Forall2_cons]; [|done]. split; [done|]. split_and!; [done| |].
  - apply Forall2_app; [|constructor; [by rewrite lookup_insert_eq|]]; (apply (entries_agree h); [done|]);
      intros b Hb; apply lookup_insert_ne; intros ->; set_solver.
  - intros b. rewrite <- Hd. destruct (decide (b = a)) as [->|].
    + rewrite lookup_insert_eq, Hx. naive_solver.
    + by rewrite lookup_insert_ne.
Qed.

Lemma owns_size {A} l (h : gmap Z A) ll q : owns l h ll q -> (length ll <= size h)%nat.
Proof.
  intros ((Hnd & _) & _ & Hd). rewrite <- (size_list_to_set (C := gset Z) ll Hnd), <- size_dom.
  apply subseteq_size. intros x Hx. apply elem_of_list_to_set, Hd in Hx. by apply elem_of_dom.
Qed.
