(* ===== verification/MappedDns.v ===== *)
(** * Mapped DNS

    Models hev/src/hev-mapped-dns.c: names are given addresses [net | idx] out of
    a pool of [max], the least recently used name giving way to a new one.  The
    names are found through a red-black tree ([RBTree], by [strcmp]), the order of
    use is a linked list ([HevList]), and [records] finds a name by its index. *)

From S2P Require Import Prelude RBTree RBTreeSpec RBErase SearchTree HevList.

(** [struct _HevMappedDNSNode]; the links are in the tree and the list. *)
Record HevMappedDNSNode := mkEntry { name : list Z; idx : Z }.

(** [nodes]: the live nodes, by address; [clock] numbers the allocations. *)
Record HevMappedDNS := mkDNS {
  use : Z; max : Z; net : Z; mask : Z;
  lru : HevList; tree : rbstate; records : list Z;
  nodes : gmap Z HevMappedDNSNode; clock : nat
}.

#[global] Instance HevMappedDNSNode_eq_dec : EqDecision HevMappedDNSNode.
Proof. solve_decision. Defined.

Definition set_lru (l : HevList) (d : HevMappedDNS) : HevMappedDNS :=
  mkDNS (use d) (max d) (net d) (mask d) l (tree d) (records d) (nodes d) (clock d).
Definition set_tree (t : rbstate) (d : HevMappedDNS) : HevMappedDNS :=
  mkDNS (use d) (max d) (net d) (mask d) (lru d) t (records d) (nodes d) (clock d).
Definition set_use (u : Z) (d : HevMappedDNS) : HevMappedDNS :=
  mkDNS u (max d) (net d) (mask d) (lru d) (tree d) (records d) (nodes d) (clock d).
Definition set_nodes (m : gmap Z HevMappedDNSNode) (d : HevMappedDNS) : HevMappedDNS :=
  mkDNS (use d) (max d) (net d) (mask d) (lru d) (tree d) (records d) m (clock d).

(** [strcmp] on the name of a node; a node that is freed must not be looked at. *)
Definition cmp_node (d : HevMappedDNS) (nm : list Z) (node : Z) : option Z :=
  n ← nodes d !! node; Some (bytes_cmp (name n) nm).

(** An array store: out of bounds it fails. *)
Definition set_record (i a : Z) (d : HevMappedDNS) : option HevMappedDNS :=
  if (0 <=? i) && (i <? Z.of_nat (length (records d))) then
    Some (mkDNS (use d) (max d) (net d) (mask d) (lru d) (tree d) (<[Z.to_nat i := a]> (records d))
            (nodes d) (clock d))
  else None.

(** [hev_mapped_dns_construct] on the zeroed object of [hev_mapped_dns_new]. *)
Definition hev_mapped_dns_construct (net mask max : Z) : option HevMappedDNS :=
  if Z.lnot mask <? max then None
  else Some (mkDNS 0 max net mask (mkList ∅ 0 0) (mkRB ∅ 0) (replicate (Z.to_nat max) 0) ∅ 0).

Section Malloc.
(** The answer of [hev_malloc0] and [strdup]: the address of a node, or NULL. *)
Variable malloc : nat -> gmap Z HevMappedDNSNode -> option Z.

Definition hev_mapped_dns_node_alloc (nm : list Z) (d : HevMappedDNS) : option Z * HevMappedDNS :=
  let d' := mkDNS (use d) (max d) (net d) (mask d) (lru d) (tree d) (records d) (nodes d) (S (clock d)) in
  match malloc (clock d) (nodes d) with
  | None => (None, d')
  | Some a => (Some a, set_nodes (<[a := mkEntry nm 0]> (nodes d)) d')
  end.

Definition hev_mapped_dns_node_free (node : Z) (d : HevMappedDNS) : HevMappedDNS :=
  set_nodes (delete node (nodes d)) d.

Definition hev_mapped_dns_find (self : HevMappedDNS) (nm : list Z) : option (Z * HevMappedDNS) :=
  '(pos, _) ← search_root (cmp_node self nm) (enough (tree self)) (tree self);
  match pos with
  | inl node =>
      l ← hev_list_del (lru self) node;
      l ← hev_list_add_tail l node;
      n ← nodes self !! node;
      Some (idx n, set_lru l self)
  | inr (parent, new) =>
      let i := use self in
      let '(node, self) := hev_mapped_dns_node_alloc nm self in
      match node with
      | None => Some (-1, self)
      | Some node =>
          '(_, t) ← (hev_rbtree_node_link node parent new;;
                     hev_rbtree_insert_color (enough (tree self)) node) (tree self);
          l ← hev_list_add_tail (lru self) node;
          let self := set_lru l (set_tree t self) in
          '(i, self) ←
            (if use self <? max self then Some (i, set_use (use self + 1) self)
             else
               let nf := hev_list_first (lru self) in
               n ← nodes self !! nf;
               '(_, t) ← hev_rbtree_erase (enough (tree self)) nf (tree self);
               l ← hev_list_del (lru self) nf;
               Some (idx n, hev_mapped_dns_node_free nf (set_lru l (set_tree t self))));
          self ← set_record i node self;
          n ← nodes self !! node;
          Some (i, set_nodes (<[node := mkEntry (name n) i]> (nodes self)) self)
      end
  end.

Definition hev_mapped_dns_lookup (self : HevMappedDNS) (ip : Z) : option (option (list Z) * HevMappedDNS) :=
  if negb (Z.land ip (mask self) =? net self) then Some (None, self) else
  let i := Z.land ip (Z.lnot (mask self)) in
  if max self <=? i then Some (None, self) else
  if i <? 0 then None else
  node ← records self !! Z.to_nat i;
  if node =? 0 then Some (None, self) else
  l ← hev_list_del (lru self) node;
  l ← hev_list_add_tail l node;
  n ← nodes self !! node;
  Some (Some (name n), set_lru l self).

(** The loop of [hev_mapped_dns_destruct]: frees the nodes of the list. *)
Fixpoint destruct_loop (fuel : nat) (n : Z) (self : HevMappedDNS) : option HevMappedDNS :=
  if n =? 0 then Some self else
  match fuel with
  | 0%nat => None
  | S fuel =>
      _ ← nodes self !! n;
      n' ← hev_list_node_next (lru self) n;
      destruct_loop fuel n' (hev_mapped_dns_node_free n self)
  end.

Definition hev_mapped_dns_destruct (self : HevMappedDNS) : option HevMappedDNS :=
  destruct_loop (size (nodes self)) (hev_list_first (lru self)) self.

(** ** Queries *)

Definition rd (b : list Z) (i : Z) : option Z := if 0 <=? i then b !! Z.to_nat i else None.
Definition wr (b : list Z) (i v : Z) : option (list Z) :=
  if (0 <=? i) && (i <? Z.of_nat (length b)) then Some (<[Z.to_nat i := u8 v]> b) else None.

Definition read_u16 (b : list Z) (i : Z) : option Z :=
  hi ← rd b i; lo ← rd b (i + 1); Some (Z.lor (Z.shiftl hi 8) lo).
Definition write_u16 (b : list Z) (i v : Z) : option (list Z) :=
  b ← wr b i (Z.shiftr v 8); wr b (i + 1) v.
Definition write_u32 (b : list Z) (i v : Z) : option (list Z) :=
  b ← wr b i (Z.shiftr v 24); b ← wr b (i + 1) (Z.shiftr v 16); b ← wr b (i + 2) (Z.shiftr v 8); wr b (i + 3) v.

(** The [char *] at an offset: its NUL must be in the buffer. *)
Definition string_at (b : list Z) (i : Z) : option (list Z) :=
  if (0 <=? i) && bool_decide (0 ∈ drop (Z.to_nat i) b) then Some (cstr (drop (Z.to_nat i) b)) else None.

(** The loop over the labels of a name: each length byte becomes a dot.  The inner
    [None] is [return -1]. *)
Fixpoint labels (fuel : nat) (rb : list Z) (qlen off : Z) : option (option (list Z * Z)) :=
  match fuel with
  | 0%nat => None
  | S fuel =>
      c ← rd rb off;
      if c =? 0 then Some (Some (rb, off)) else
      let poff := off in
      let off := off + (1 + c) in
      if qlen <=? off then Some None else
      rb ← wr rb poff 46;
      labels fuel rb qlen off
  end.

(** The loop over the questions: the answers are pairs of [ipo] and [ips]. *)
Fixpoint questions (n : nat) (self : HevMappedDNS) (rb : list Z) (qlen off : Z) (ans : list (Z * Z))
  : option (HevMappedDNS * option (list Z * Z * list (Z * Z))) :=
  match n with
  | 0%nat => Some (self, Some (rb, off, ans))
  | S n =>
      let ipo := off in
      if qlen <=? off then Some (self, None) else
      r ← labels (length rb) rb qlen off;
      match r with
      | None => Some (self, None)
      | Some (rb, off) =>
          let off := off + 1 in
          if qlen <=? off + 3 then Some (self, None) else
          qtype ← read_u16 rb off;
          qclass ← read_u16 rb (off + 2);
          '(ans, self) ←
            (if (qtype =? 1) && (qclass =? 1) then
               nm ← string_at rb (ipo + 1);
               '(i, self) ← hev_mapped_dns_find self nm;
               Some (if 0 <=? i then ans ++ [(ipo, Z.lor (net self) i)] else ans, self)
             else Some (ans, self));
          questions n self rb qlen (off + 4) ans
      end
  end.

(** The loop that writes the answers; the inner [None] is [return -1]. *)
Fixpoint answers (ans : list (Z * Z)) (sb : list Z) (slen off : Z) : option (option (list Z * Z)) :=
  match ans with
  | [] => Some (Some (sb, off))
  | (ipo, ip) :: ans =>
      if slen <=? off + 15 then Some None else
      sb ← write_u16 sb off (Z.lor 0xc000 ipo);
      sb ← write_u16 sb (off + 2) 1;
      sb ← write_u16 sb (off + 4) 1;
      sb ← write_u32 sb (off + 6) 1;
      sb ← write_u16 sb (off + 10) 4;
      sb ← write_u32 sb (off + 12) ip;
      answers ans sb slen (off + 16)
  end.

(** The header's fields are [uint16_t] in network order. *)
Definition sizeof_DNSHdr : Z := 12.
Definition hdr_fl : nat := 2.
Definition hdr_qd : nat := 4.
Definition hdr_an : nat := 6.

(** The result, and both buffers; [None] where the code would leave them. *)
Definition hev_mapped_dns_handle (self : HevMappedDNS) (req res : list Z)
  : option (HevMappedDNS * Z * list Z) :=
  let qlen := Z.of_nat (length req) in
  let slen := Z.of_nat (length res) in
  if slen <? qlen then Some (self, -1, res) else
  if qlen <? sizeof_DNSHdr then Some (self, -1, res) else
  let res := splice 0 req res in
  let qd := ntohs (load16 req hdr_qd) in
  let req := splice hdr_qd (mem16 qd) req in
  let fl := ntohs (load16 res hdr_fl) in
  let res := splice hdr_an [0; 0; 0; 0; 0; 0] (splice hdr_fl (mem16 fl) res) in
  if 32 <? qd then Some (self, -1, res) else
  '(self, r) ← questions (Z.to_nat qd) self req qlen sizeof_DNSHdr [];
  match r with
  | None => Some (self, -1, res)
  | Some (_, off, ans) =>
      r ← answers ans res slen off;
      match r with
      | None => Some (self, -1, res)
      | Some (res, off) =>
          let fl := load16 res hdr_fl in
          let fl := Z.lor (Z.lor fl 0x8000) (Z.shiftr (Z.land fl 0x100) 1) in
          let res := splice hdr_fl (mem16 (htons fl)) res in
          let res := splice hdr_an (mem16 (htons (Z.of_nat (length ans)))) res in
          Some (self, off, res)
      end
  end.
End Malloc.

(** ** The specification: a bounded cache, least recently used first *)

Abbreviation cache := (list HevMappedDNSNode).

Section Cache.
Variable max : Z.

(** Use the entry at position [i]. *)
Definition touch (i : nat) (e : HevMappedDNSNode) (c : cache) : cache := delete i c ++ [e].

(** [ok]: whether there is memory for a new node. *)
Definition spec_find (ok : bool) (nm : list Z) (c : cache) : Z * cache :=
  match list_find (fun e => name e = nm) c with
  | Some (i, e) => (idx e, touch i e c)
  | None =>
      if ok then
        if Z.of_nat (length c) <? max then (Z.of_nat (length c), c ++ [mkEntry nm (Z.of_nat (length c))])
        else match c with
             | e :: c => (idx e, c ++ [mkEntry nm (idx e)])
             | [] => (-1, c)
             end
      else (-1, c)
  end.

Definition spec_lookup (i : Z) (c : cache) : option (list Z) * cache :=
  match list_find (fun e => idx e = i) c with
  | Some (p, e) => (Some (name e), touch p e c)
  | None => (None, c)
  end.
End Cache.

(** ** The invariant *)

#[export] Instance strcmp_order : KeyOrder (list Z) := {|
  kcmp := bytes_cmp;
  kcmp_eq := bytes_cmp_eq;
  kcmp_anti := fun a b => ltac:(rewrite (bytes_cmp_anti a b); lia);
  kcmp_trans := bytes_cmp_trans
|}.

Definition names (m : gmap Z HevMappedDNSNode) : gmap Z (list Z) := name <$> m.

(** The nodes [ll], in the order of the list, are the live ones; each is in the
    tree under its name and in the slot of [records] of its index. *)
Record inv (d : HevMappedDNS) (ll : list Z) : Prop := {
  inv_max : 1 <= max d;
  inv_pool : max d <= Z.lnot (mask d);
  inv_records : length (records d) = Z.to_nat (max d);
  inv_use : use d = Z.of_nat (length ll) /\ use d <= max d;
  inv_lru : holds_list (lru d) ll;
  inv_tree : exists lt, indexed (names (nodes d)) lt (tree d) /\ lt ≡ₚ ll;
  inv_nodes : forall a, is_Some (nodes d !! a) <-> a ∈ ll;
  inv_slot : forall a e, nodes d !! a = Some e ->
    0 <= idx e < use d /\ records d !! Z.to_nat (idx e) = Some a;
  inv_used : forall i a, records d !! i = Some a -> a <> 0 ->
    exists e, nodes d !! a = Some e /\ idx e = Z.of_nat i
}.

(** The cache a state stands for. *)
Definition rel (d : HevMappedDNS) (c : cache) : Prop :=
  exists ll, inv d ll /\ Forall2 (fun a e => nodes d !! a = Some e) ll c.

Lemma rel_construct nt mk mx d :
  hev_mapped_dns_construct nt mk mx = Some d -> 1 <= mx -> rel d [].
Proof.
  unfold hev_mapped_dns_construct. case_test; [done|]. intros [= <-] Hm. exists []. split; [|constructor].
  constructor; cbn [max use records nodes lru tree mask].
  - done.
  - done.
  - by rewrite length_replicate.
  - simpl. lia.
  - split_and!; [constructor|done..].
  - exists []. split; [|done]. split; [|by split; constructor]. exists RBTreeSpec.E, 0%nat. split_and!; [done|constructor|done].
  - intros a. rewrite lookup_empty. split; [by intros []|set_solver].
  - intros a e. by rewrite lookup_empty.
  - intros i a Ha Hz. apply lookup_replicate in Ha as [-> _]. done.
Qed.

Lemma inv_nodup d ll : inv d ll -> NoDup ll.
Proof. intros H. by destruct (inv_lru _ _ H). Qed.

(** Only the order of use changes. *)
Lemma inv_permute d ll ll' l : inv d ll -> ll' ≡ₚ ll -> holds_list l ll' -> inv (set_lru l d) ll'.
Proof.
  intros [] Hp Hl. constructor; cbn [set_lru max records use lru tree nodes]; try done.
  - by rewrite (Permutation_length Hp).
  - destruct inv_tree0 as (lt & ? & Hlt). exists lt. split; [done|]. by rewrite Hp.
  - intros a. by rewrite inv_nodes0, Hp.
Qed.

(** Using the entry that is the only one to satisfy [P]. *)
Lemma use_entry (P : HevMappedDNSNode -> Prop) `{!forall e, Decision (P e)} d ll c a e :
  inv d ll -> Forall2 (fun a e => nodes d !! a = Some e) ll c -> nodes d !! a = Some e -> P e ->
  (forall b e', nodes d !! b = Some e' -> P e' -> b = a) ->
  exists i l1 l', hev_list_del (lru d) a = Some l1 /\ hev_list_add_tail l1 a = Some l'
    /\ list_find P c = Some (i, e) /\ rel (set_lru l' d) (touch i e c).
Proof.
  intros Hi Hc Ha HP Hu. assert (Hin : a ∈ ll) by (apply (inv_nodes _ _ Hi); eauto).
  apply list_elem_of_lookup in Hin as [i Hia].
  pose proof (take_drop_middle ll i a Hia) as Hll. pose proof (inv_lru _ _ Hi) as Hl. rewrite <- Hll in Hl.
  destruct (move_to_tail_ok _ _ _ _ Hl) as (l' & Hmv & Hl'). unfold move_to_tail in Hmv.
  destruct (hev_list_del (lru d) a) as [l1|] eqn:El1; [|done].
  assert (Hce : c !! i = Some e).
  { destruct (Forall2_lookup_l _ _ _ _ _ Hc Hia) as (e' & ? & ?). congruence. }
  exists i, l1, l'. split_and!; [done|done| |].
  - apply list_find_Some. split_and!; [done|done|]. intros j y Hy Hj HPy.
    destruct (Forall2_lookup_r _ _ _ _ _ Hc Hy) as (b & Hb & Hbn). rewrite (Hu b y Hbn HPy) in Hb.
    pose proof (NoDup_lookup _ _ _ _ (inv_nodup _ _ Hi) Hb Hia). lia.
  - exists (take i ll ++ drop (S i) ll ++ [a]). split.
    + eapply inv_permute; [done| |done]. transitivity (take i ll ++ a :: drop (S i) ll); [|by rewrite Hll].
      apply Permutation_app_head. symmetry. apply Permutation_cons_append.
    + unfold touch. rewrite delete_take_drop, <- app_assoc. cbn [set_lru nodes].
      apply Forall2_app; [by apply Forall2_take|]. apply Forall2_app; [by apply Forall2_drop|]. by repeat constructor.
Qed.

(** Looking a name up in the tree. *)
Lemma search_name d ll nm :
  inv d ll ->
  exists res, search_root (cmp_node d nm) (enough (tree d)) (tree d) = Some (res, tree d) /\
    match res with
    | inl a => exists e, nodes d !! a = Some e /\ name e = nm
        /\ forall b e', nodes d !! b = Some e' -> name e' = nm -> b = a
    | inr (parent, new) => (forall a e, nodes d !! a = Some e -> name e <> nm)
        /\ exists k m lt, wf (tree d) (plug k RBTreeSpec.E) /\ RB true m (plug k RBTreeSpec.E)
        /\ parent = top k /\ new = link_of k
        /\ lt = pre k ++ post k /\ fits (names (nodes d)) nm (pre k) (post k)
        /\ sorted (names (nodes d)) lt /\ lt ≡ₚ ll
    end.
Proof.
  intros Hi. destruct (inv_tree _ _ Hi) as (lt & Hx & Hp).
  assert (Hkey : forall b e, nodes d !! b = Some e -> b ∈ lt /\ names (nodes d) !! b = Some (name e)).
  { intros b e Hb. split; [|unfold names; by rewrite lookup_fmap, Hb].
    rewrite Hp. apply (inv_nodes _ _ Hi). eauto. }
  rewrite (search_root_ext _ (cmp_key (names (nodes d)) nm)).
  2: { intros n. unfold cmp_node, cmp_key, names. rewrite lookup_fmap. by destruct (nodes d !! n). }
  pose proof (search_indexed (names (nodes d)) nm lt (tree d) Hx) as HS.
  apply ospec_some in HS as (res & st' & -> & -> & Hres). exists res. split; [done|].
  destruct res as [a|[parent new]].
  - destruct Hres as [Ha Hk]. pose proof Hk as Hk'. unfold names in Hk'. rewrite lookup_fmap in Hk'.
    destruct (nodes d !! a) as [e|] eqn:Ee; [|done]. injection Hk' as Hk'. exists e. split_and!; [done..|].
    intros b e' Hb He'. destruct (Hkey b e' Hb) as [Hbl Hbk]. rewrite He' in Hbk.
    by apply (key_unique _ _ _ _ _ (proj2 Hx) Hbl Ha Hbk).
  - destruct Hres as (Hno & k & m & ? & ? & ? & ? & ? & ?). split.
    + intros a e Ha He. destruct (Hkey a e Ha) as [Hal Hk]. rewrite He in Hk. by apply (Hno a Hal).
    + exists k, m, lt. split_and!; try done. by destruct Hx.
Qed.

Section Find.
Variable malloc : nat -> gmap Z HevMappedDNSNode -> option Z.
(** Memory that is handed out is not NULL and not in use. *)
Hypothesis malloc_fresh : forall n m a, malloc n m = Some a -> a <> 0 /\ m !! a = None.

Definition has_memory (d : HevMappedDNS) : bool := bool_decide (is_Some (malloc (clock d) (nodes d))).

Lemma names_insert_same m a e i : m !! a = Some e -> names (<[a := mkEntry (name e) i]> m) = names m.
Proof.
  intros Ha. apply map_eq. intros b. unfold names. rewrite !lookup_fmap.
  destruct (decide (a = b)) as [->|]; [by rewrite lookup_insert_eq, Ha|by rewrite lookup_insert_ne].
Qed.

(** The end of [hev_mapped_dns_find]: the new node gets a slot. *)
Definition assign (i a : Z) (d : HevMappedDNS) : option (Z * HevMappedDNS) :=
  self ← set_record i a d; n ← nodes self !! a;
  Some (i, set_nodes (<[a := mkEntry (name n) i]> (nodes self)) self).

Lemma finish d ll a nm i u :
  1 <= max d -> max d <= Z.lnot (mask d) -> length (records d) = Z.to_nat (max d) -> u = Z.of_nat (length ll + 1) -> u <= max d ->
  holds_list (lru d) (ll ++ [a]) -> use d = u -> a <> 0 ->
  (exists lt, indexed (names (nodes d)) lt (tree d) /\ lt ≡ₚ ll ++ [a]) ->
  (forall b, is_Some (nodes d !! b) <-> b ∈ ll ++ [a]) -> nodes d !! a = Some (mkEntry nm 0) ->
  0 <= i < u ->
  (forall b e, b <> a -> nodes d !! b = Some e ->
    0 <= idx e < u /\ records d !! Z.to_nat (idx e) = Some b /\ idx e <> i) ->
  (forall j b, records d !! j = Some b -> b <> 0 -> Z.of_nat j <> i ->
    b <> a /\ exists e, nodes d !! b = Some e /\ idx e = Z.of_nat j) ->
  exists d', assign i a d = Some (i, d')
    /\ inv d' (ll ++ [a]) /\ nodes d' = <[a := mkEntry nm i]> (nodes d)
    /\ max d' = max d /\ net d' = net d /\ mask d' = mask d.
Proof.
  intros Hm Hpool Hrec Hu Hum Hl Huse Ha0 (lt & Hx & Hlt) Hn Ha Hi Hs Hr. unfold assign, set_record.
  destruct (andb_true_iff (0 <=? i) (i <? Z.of_nat (length (records d)))) as [_ ->].
  2: { split; [apply Z.leb_le|apply Z.ltb_lt]; lia. }
  cbn [mbind option_bind nodes]. rewrite Ha. cbn [mbind option_bind name]. eexists. split; [done|].
  split; [|done]. constructor; cbn [set_nodes max records use lru tree nodes]; try done.
  - by rewrite length_insert.
  - rewrite length_app. cbn [length]. lia.
  - exists lt. split; [|done].
    pose proof (names_insert_same _ _ _ i Ha) as Hni. cbn [name] in Hni. by rewrite Hni.
  - intros b. destruct (decide (b = a)) as [->|Hne].
    + rewrite lookup_insert_eq, elem_of_app. split; [right; by left|done].
    + rewrite lookup_insert_ne by done. apply Hn.
  - intros b e. destruct (decide (b = a)) as [->|Hne].
    + rewrite lookup_insert_eq. intros [= <-]. cbn [idx]. split; [lia|]. apply list_lookup_insert_eq. lia.
    + rewrite lookup_insert_ne by done. intros Hb. destruct (Hs b e Hne Hb) as (? & ? & ?). split; [lia|].
      rewrite list_lookup_insert_ne; [done|lia].
  - intros j b Hj Hb0. destruct (decide (Z.to_nat i = j)) as [<-|Hne].
    + rewrite list_lookup_insert_eq in Hj by lia. injection Hj as <-. rewrite lookup_insert_eq.
      eexists. split; [done|]. cbn [idx]. lia.
    + rewrite list_lookup_insert_ne in Hj by done. destruct (Hr j b Hj Hb0) as (Hba & e & He); [lia|].
      exists e. by rewrite lookup_insert_ne.
Qed.

Lemma names_insert m a e : names (<[a := e]> m) = <[a := name e]> (names m).
Proof. unfold names. by rewrite fmap_insert. Qed.

(** A new node enters the tree and the list. *)
Lemma enter_ok d ll nm a k m lt :
  inv d ll -> nodes d !! a = None -> a <> 0 ->
  wf (tree d) (plug k RBTreeSpec.E) -> RB true m (plug k RBTreeSpec.E) ->
  lt = pre k ++ post k -> fits (names (nodes d)) nm (pre k) (post k) -> sorted (names (nodes d)) lt -> lt ≡ₚ ll ->
  exists t l, (hev_rbtree_node_link a (top k) (link_of k);; hev_rbtree_insert_color (enough (tree d)) a) (tree d)
      = Some (tt, t)
    /\ hev_list_add_tail (lru d) a = Some l /\ holds_list l (ll ++ [a])
    /\ exists lt', indexed (names (<[a := mkEntry nm 0]> (nodes d))) lt' t /\ lt' ≡ₚ ll ++ [a].
Proof.
  intros Hi Ha Ha0 Hw Hrb Hlt Hfit Hs Hp.
  assert (Hal : a ∉ ll) by (intros Hin; apply (inv_nodes _ _ Hi) in Hin; rewrite Ha in Hin; by destruct Hin).
  assert (Hal' : a ∉ lt) by (by rewrite Hp).
  assert (Hag : forall b, b ∈ lt -> names (<[a := mkEntry nm 0]> (nodes d)) !! b = names (nodes d) !! b).
  { intros b Hb. rewrite names_insert, lookup_insert_ne; [done|]. by intros ->. }
  assert (Hfit' : fits (names (<[a := mkEntry nm 0]> (nodes d))) nm (pre k) (post k))
    by (eapply fits_agree; [|exact Hfit]; intros x Hx; apply Hag; by rewrite Hlt).
  pose proof (insert_indexed (names (<[a := mkEntry nm 0]> (nodes d))) nm a lt (tree d) k m) as HS.
  destruct (add_tail_ok (lru d) ll a (inv_lru _ _ Hi) Ha0 Hal) as (l & Hl & Hhl).
  apply ospec_some in HS as ([] & t & Ht & lt' & Hx & Hlt'); try done.
  - exists t, l. split_and!; try done. exists lt'. split; [done|]. by rewrite Hlt', Hp, Permutation_cons_append.
  - by eapply sorted_agree.
  - by rewrite names_insert, lookup_insert_eq.
Qed.

(** The least recently used node leaves the tree and the list. *)
Lemma evict_ok m b ll t l lt :
  indexed (names m) lt t -> lt ≡ₚ b :: ll -> holds_list l (b :: ll) ->
  exists t' l', hev_rbtree_erase (enough t) b t = Some (tt, t') /\ hev_list_del l b = Some l'
    /\ holds_list l' ll /\ exists lt', indexed (names (delete b m)) lt' t' /\ lt' ≡ₚ ll.
Proof.
  intros Hx Hlt Hl. destruct (list_del_ok l [] b ll Hl) as (l' & Hd & Hl').
  pose proof (erase_indexed _ b lt t Hx) as HS.
  apply ospec_some in HS as ([] & t' & Ht & l1 & l2 & E' & Hx'); [|rewrite Hlt; by left].
  assert (Hp : l1 ++ l2 ≡ₚ ll).
  { apply (Permutation_cons_inv (a := b)). rewrite <- Hlt, E'. by rewrite Permutation_middle. }
  exists t', l'. split_and!; try done. exists (l1 ++ l2). split; [|done].
  eapply indexed_agree; [|exact Hx']. intros q Hq. unfold names. rewrite !lookup_fmap, lookup_delete_ne; [done|].
  intros ->. rewrite Hp in Hq. destruct Hl as [[? _]%NoDup_cons _]. done.
Qed.

Lemma grow_ok d d1 ll a nm l t :
  inv d ll -> nodes d !! a = None -> a <> 0 -> use d < max d -> holds_list l (ll ++ [a]) ->
  (exists lt, indexed (names (<[a := mkEntry nm 0]> (nodes d))) lt t /\ lt ≡ₚ ll ++ [a]) ->
  d1 = mkDNS (use d + 1) (max d) (net d) (mask d) l t (records d) (<[a := mkEntry nm 0]> (nodes d)) (S (clock d)) ->
  exists d', assign (use d) a d1 = Some (use d, d')
    /\ inv d' (ll ++ [a]) /\ nodes d' = <[a := mkEntry nm (use d)]> (nodes d1)
    /\ max d' = max d1 /\ net d' = net d1 /\ mask d' = mask d1.
Proof.
  intros Hi Ha Ha0 Hlt Hl Hx ->. destruct (inv_use _ _ Hi) as [Hu Hum].
  assert (Hlive : forall b e, nodes d !! b = Some e -> b <> a) by (intros b e Hb ->; congruence).
  apply (finish _ ll a nm (use d) (use d + 1)); cbn [use max records lru tree nodes]; try done.
  - apply (inv_max _ _ Hi).
  - apply (inv_pool _ _ Hi).
  - apply (inv_records _ _ Hi).
  - lia.
  - lia.
  - intros b. destruct (decide (b = a)) as [->|Hne].
    + rewrite lookup_insert_eq, elem_of_app. split; [right; by left|done].
    + rewrite lookup_insert_ne, elem_of_app, (inv_nodes _ _ Hi) by done. split; [by left|].
      by intros [?|E'%list_elem_of_singleton].
  - by rewrite lookup_insert_eq.
  - lia.
  - intros b e Hb. rewrite lookup_insert_ne by done. intros He.
    destruct (inv_slot _ _ Hi b e He). split_and!; [lia|lia|done|lia].
  - intros j b Hj Hb0 _. destruct (inv_used _ _ Hi j b Hj Hb0) as (e & He & ?).
    pose proof (Hlive b e He). split; [done|]. exists e. by rewrite lookup_insert_ne.
Qed.

Lemma recycle_ok d d1 b e ll a nm l t :
  inv d (b :: ll) -> nodes d !! b = Some e -> nodes d !! a = None -> a <> 0 -> holds_list l (ll ++ [a]) ->
  (exists lt, indexed (names (delete b (<[a := mkEntry nm 0]> (nodes d)))) lt t /\ lt ≡ₚ ll ++ [a]) ->
  d1 = mkDNS (use d) (max d) (net d) (mask d) l t (records d) (delete b (<[a := mkEntry nm 0]> (nodes d))) (S (clock d)) ->
  exists d', assign (idx e) a d1 = Some (idx e, d')
    /\ inv d' (ll ++ [a]) /\ nodes d' = <[a := mkEntry nm (idx e)]> (nodes d1)
    /\ max d' = max d1 /\ net d' = net d1 /\ mask d' = mask d1.
Proof.
  intros Hi Hb Ha Ha0 Hl Hx ->. destruct (inv_use _ _ Hi) as [Hu Hum]. cbn [length] in Hu.
  pose proof (inv_nodup _ _ Hi) as [Hbl _]%NoDup_cons. destruct (inv_slot _ _ Hi b e Hb) as [Hie Hre].
  assert (Hlive : forall q e, nodes d !! q = Some e -> q <> a) by (intros q e' Hq ->; congruence).
  assert (Hba : b <> a) by (by eapply Hlive).
  apply (finish _ ll a nm (idx e) (use d)); cbn [use max records lru tree nodes]; try done.
  - apply (inv_max _ _ Hi).
  - apply (inv_pool _ _ Hi).
  - apply (inv_records _ _ Hi).
  - lia.
  - intros q. destruct (decide (q = a)) as [->|Hne]; [|destruct (decide (q = b)) as [->|Hqb]].
    + rewrite lookup_delete_ne, lookup_insert_eq, elem_of_app by done. split; [right; by left|done].
    + rewrite lookup_delete_eq, elem_of_app. split; [by intros []|]. by intros [?|E'%list_elem_of_singleton].
    + rewrite lookup_delete_ne, lookup_insert_ne, (inv_nodes _ _ Hi) by done. rewrite elem_of_app, elem_of_cons.
      split; [intros [?|?]; [done|by left]|]. intros [?|E'%list_elem_of_singleton]; [by right|done].
  - by rewrite lookup_delete_ne, lookup_insert_eq.
  - intros q e' Hqa. destruct (decide (q = b)) as [->|Hqb]; [by rewrite lookup_delete_eq|].
    rewrite lookup_delete_ne, lookup_insert_ne by done. intros He'.
    destruct (inv_slot _ _ Hi q e' He') as [? Hrq]. split_and!; [lia|lia|done|].
    intros E'. rewrite E' in Hrq. congruence.
  - intros j q Hj Hq0 Hne. destruct (inv_used _ _ Hi j q Hj Hq0) as (e' & He' & ?).
    pose proof (Hlive q e' He'). split; [done|]. exists e'.
    assert (q <> b) by (intros ->; rewrite Hb in He'; simplify_eq; lia).
    by rewrite lookup_delete_ne, lookup_insert_ne.
Qed.

(** The same entries in another memory, and one more. *)
Lemma entries_snoc (m m' : gmap Z HevMappedDNSNode) ll c a e :
  Forall2 (fun b e => m !! b = Some e) ll c -> (forall b, b ∈ ll -> m' !! b = m !! b) -> m' !! a = Some e ->
  Forall2 (fun b e => m' !! b = Some e) (ll ++ [a]) (c ++ [e]).
Proof.
  intros HF Hag Ha. apply Forall2_app; [|by repeat constructor].
  induction HF as [|b e' ll c Hb HF IH]; [constructor|]. constructor.
  - rewrite Hag; [done|by left].
  - apply IH. intros q Hq. apply Hag. by right.
Qed.

Lemma dns_find_ok d c nm :
  rel d c ->
  exists d', hev_mapped_dns_find malloc d nm = Some ((spec_find (max d) (has_memory d) nm c).1, d')
    /\ rel d' (spec_find (max d) (has_memory d) nm c).2
    /\ max d' = max d /\ net d' = net d /\ mask d' = mask d.
Proof.
  intros (ll & Hi & Hc). unfold hev_mapped_dns_find, spec_find.
  destruct (search_name d ll nm Hi) as (res & -> & Hres). cbn [mbind option_bind].
  destruct res as [a|[parent new]].
  { destruct Hres as (e & Ha & Hnm & Hu).
    destruct (use_entry (fun e => name e = nm) d ll c a e Hi Hc Ha Hnm Hu) as (i & l1 & l' & -> & Hl' & -> & Hr).
    cbn [mbind option_bind]. rewrite Hl'. cbn [mbind option_bind]. rewrite Ha. by eexists. }
  destruct Hres as (Hno & k & m & lt & Hw & Hrb & -> & -> & Hlt & Hfit & Hs & Hp).
  assert (Hfind : list_find (fun e => name e = nm) c = None).
  { apply list_find_None, Forall_forall. intros e He. apply list_elem_of_lookup in He as [i He].
    destruct (Forall2_lookup_r _ _ _ _ _ Hc He) as (b & _ & Hb). by apply (Hno b e). }
  rewrite Hfind. unfold hev_mapped_dns_node_alloc, has_memory.
  destruct (malloc (clock d) (nodes d)) as [a|] eqn:Em.
  2: { cbn [mbind option_bind]. eexists. split; [done|]. split; [|done].
       exists ll. split; [by destruct Hi|done]. }
  rewrite bool_decide_true by done. destruct (malloc_fresh _ _ _ Em) as [Ha0 Ha].
  pose proof (Forall2_length _ _ _ Hc) as Hlen. destruct (inv_use _ _ Hi) as [Huse Hum].

  destruct (enter_ok d ll nm a k m lt Hi Ha Ha0 Hw Hrb Hlt Hfit Hs Hp) as (t & l & Ht & Hl & Hhl & lt' & Hx & Hlt').
  assert (Hal : a ∉ ll) by (intros Hin; apply (inv_nodes _ _ Hi) in Hin; rewrite Ha in Hin; by destruct Hin).
  cbn [set_nodes tree lru enough]. rewrite Ht. cbn [mbind option_bind]. rewrite Hl. cbn [mbind option_bind].
  cbn [set_lru set_tree set_nodes use max lru]. rewrite <- Hlen, <- Huse.
  destruct (Z.ltb_spec (use d) (max d)) as [Hlt1|Hge]; cbn [mbind option_bind fst snd].
  - match goal with |- context [set_record (use d) a ?s] =>
      destruct (grow_ok d s ll a nm l t) as (d' & Hd' & Hi' & Hn' & Hm'); [done..|by exists lt'|done|] end.
    unfold assign in Hd'. rewrite Hd'. exists d'. split; [done|]. split; [|done].
    exists (ll ++ [a]). split; [done|]. rewrite Hn'. apply (entries_snoc (nodes d)); [done| |by rewrite lookup_insert_eq].
    intros b Hb. cbn [nodes set_use set_lru set_tree set_nodes]. rewrite !lookup_insert_ne; [done|by intros ->..].
  - destruct ll as [|b ll]; [pose proof (inv_max _ _ Hi); simpl in Huse; lia|].
    destruct c as [|e c]; [done|]. apply Forall2_cons in Hc as [Hb Hc]. cbn [length] in *.
    assert (Hba : b <> a) by congruence.
    assert (Hf : hev_list_first l = b) by (destruct Hhl as (_ & _ & Hh & _); exact Hh).
    rewrite Hf. cbn [nodes set_lru set_tree set_nodes]. rewrite lookup_insert_ne, Hb by done. cbn [mbind option_bind tree].
    destruct (evict_ok _ b (ll ++ [a]) t l lt' Hx Hlt' Hhl) as (t2 & l2 & Ht2 & Hl2 & Hhl2 & Hx2).
    cbn [set_lru set_tree set_nodes tree]. rewrite Ht2. cbn [mbind option_bind]. rewrite Hl2. cbn [mbind option_bind].
    match goal with |- context [set_record (idx e) a ?s] =>
      destruct (recycle_ok d s b e ll a nm l2 t2) as (d' & Hd' & Hi' & Hn' & Hm'); [done..|] end.
    unfold assign in Hd'. rewrite Hd'. exists d'. split; [done|]. split; [|done].
    exists (ll ++ [a]). split; [done|]. rewrite Hn'. apply (entries_snoc (nodes d)); [done| |by rewrite lookup_insert_eq].
    pose proof (inv_nodup _ _ Hi) as [Hbl _]%NoDup_cons. apply not_elem_of_cons in Hal as [_ Hal].
    intros q Hq. cbn [nodes set_lru set_tree set_nodes hev_mapped_dns_node_free]. rewrite lookup_insert_ne, lookup_delete_ne, lookup_insert_ne; [done|by intros ->..].
Qed.

(** Looking an index up. *)
Lemma lookup_ok d c ip :
  rel d c ->
  let i := Z.land ip (Z.lnot (mask d)) in
  let r := if negb (Z.land ip (mask d) =? net d) then (None, c)
           else if max d <=? i then (None, c) else spec_lookup i c in
  exists d', hev_mapped_dns_lookup d ip = Some (r.1, d') /\ rel d' r.2
    /\ max d' = max d /\ net d' = net d /\ mask d' = mask d.
Proof.
  intros (ll & Hi & Hc) i r. subst r. unfold hev_mapped_dns_lookup. fold i.
  case_test; [exists d; split; [done|]; split; [by exists ll|done]|].
  case_test; [exists d; split; [done|]; split; [by exists ll|done]|].
  assert (Hi0 : 0 <= i).
  { subst i. apply Z.land_nonneg. right. pose proof (inv_max _ _ Hi). pose proof (inv_pool _ _ Hi). lia. }
  rewrite (proj2 (Z.ltb_ge i 0) Hi0).
  destruct (lookup_lt_is_Some_2 (records d) (Z.to_nat i)) as [a Ha].
  { rewrite (inv_records _ _ Hi). lia. }
  rewrite Ha. cbn [mbind option_bind]. unfold spec_lookup. destruct (Z.eqb_spec a 0) as [->|Ha0].
  - rewrite (proj2 (list_find_None (fun e => idx e = i) c)).
    { exists d. split; [done|]. split; [by exists ll|done]. }
    apply Forall_forall. intros e He Hie. apply list_elem_of_lookup in He as [j He].
    destruct (Forall2_lookup_r _ _ _ _ _ Hc He) as (b & Hb & Hbn).
    destruct (inv_slot _ _ Hi b e Hbn) as [_ Hre]. rewrite Hie, Ha in Hre. injection Hre as <-.
    assert (Hz : 0 ∈ ll) by (by eapply list_elem_of_lookup_2).
    destruct (inv_lru _ _ Hi) as (_ & Hl & _). by apply (linked_nonzero _ _ _ _ _ Hl) in Hz.
  - destruct (inv_used _ _ Hi _ _ Ha Ha0) as (e & He & Hie). rewrite Z2Nat.id in Hie by done.
    destruct (use_entry (fun e => idx e = i) d ll c a e Hi Hc He Hie) as (p & l1 & l' & -> & Hl' & -> & Hr).
    + intros b e' Hb He'. destruct (inv_slot _ _ Hi b e' Hb) as [_ Hre]. rewrite He', Ha in Hre. congruence.
    + cbn [mbind option_bind]. rewrite Hl'. cbn [mbind option_bind]. rewrite He. by eexists.
Qed.

(** *** Sequences of operations *)

Inductive op := OpFind (nm : list Z) | OpLookup (ip : Z).
Inductive answer := AIdx (i : Z) | AName (nm : option (list Z)).

Definition exec (o : op) (d : HevMappedDNS) : option (answer * HevMappedDNS) :=
  match o with
  | OpFind nm => '(i, d) ← hev_mapped_dns_find malloc d nm; Some (AIdx i, d)
  | OpLookup ip => '(nm, d) ← hev_mapped_dns_lookup d ip; Some (AName nm, d)
  end.

Fixpoint exec_all (ops : list op) (d : HevMappedDNS) : option (list answer * HevMappedDNS) :=
  match ops with
  | [] => Some ([], d)
  | o :: ops => '(r, d) ← exec o d; '(rs, d) ← exec_all ops d; Some (r :: rs, d)
  end.

(** The pool: its first address, the mask and the number of names. *)
Definition spec_op (mx nt mk : Z) (ok : bool) (o : op) (c : cache) : answer * cache :=
  match o with
  | OpFind nm => let '(i, c) := spec_find mx ok nm c in (AIdx i, c)
  | OpLookup ip =>
      let i := Z.land ip (Z.lnot mk) in
      let '(nm, c) := if negb (Z.land ip mk =? nt) then (None, c)
                      else if mx <=? i then (None, c) else spec_lookup i c in
      (AName nm, c)
  end.

(** What the allocator would answer at each operation of a run: [true] where it has
    memory for a node. *)
Fixpoint memory (ops : list op) (d : HevMappedDNS) : list bool :=
  match ops with
  | [] => []
  | o :: ops => has_memory d :: match exec o d with Some (_, d') => memory ops d' | None => [] end
  end.

(** Each operation comes with the allocator's answer at its time. *)
Fixpoint spec_all (mx nt mk : Z) (ops : list (op * bool)) (c : cache) : list answer * cache :=
  match ops with
  | [] => ([], c)
  | (o, ok) :: ops =>
      let '(r, c) := spec_op mx nt mk ok o c in
      let '(rs, c) := spec_all mx nt mk ops c in (r :: rs, c)
  end.

Lemma dns_exec_ok o d c :
  rel d c ->
  exists d', exec o d = Some ((spec_op (max d) (net d) (mask d) (has_memory d) o c).1, d')
    /\ rel d' (spec_op (max d) (net d) (mask d) (has_memory d) o c).2
    /\ max d' = max d /\ net d' = net d /\ mask d' = mask d.
Proof.
  intros Hr. destruct o as [nm|ip]; cbn [exec spec_op].
  - destruct (dns_find_ok d c nm Hr) as (d' & -> & Hr'). cbn [mbind option_bind].
    destruct (spec_find _ _ nm c) as [i c']. by exists d'.
  - destruct (lookup_ok d c ip Hr) as (d' & -> & Hr'). cbn [mbind option_bind]. cbv zeta in *.
    destruct (if negb (Z.land ip (mask d) =? net d) then _ else _) as [nm c']. by exists d'.
Qed.

Lemma dns_exec_all_ok ops : forall d c, rel d c ->
  exists d', length (memory ops d) = length ops
    /\ exec_all ops d = Some ((spec_all (max d) (net d) (mask d) (zip ops (memory ops d)) c).1, d')
    /\ rel d' (spec_all (max d) (net d) (mask d) (zip ops (memory ops d)) c).2
    /\ max d' = max d /\ net d' = net d /\ mask d' = mask d.
Proof.
  induction ops as [|o ops IH]; intros d c Hr; [by exists d|].
  destruct (dns_exec_ok o d c Hr) as (d1 & He & Hr1 & Hm1 & Hn1 & Hk1). cbn [exec_all memory]. rewrite He.
  cbn [mbind option_bind].
  destruct (spec_op (max d) (net d) (mask d) (has_memory d) o c) as [r c1] eqn:Er. cbn [fst snd] in *.
  destruct (IH d1 c1 Hr1) as (d2 & Hlen & -> & Hr2 & Hm2 & Hn2 & Hk2). cbn [mbind option_bind fst].
  exists d2. cbn [length zip zip_with spec_all]. rewrite Er, Hm1, Hn1, Hk1 in *.
  destruct (spec_all (max d) (net d) (mask d) (zip_with pair ops (memory ops d1)) c1) as [rs c2].
  cbn [fst snd] in *. split_and!; congruence || done.
Qed.



(** *** The entry that was used last is evicted last *)

(** At most [n] entries were used since [e]. *)
Definition recent (n : nat) (e : HevMappedDNSNode) (c : cache) : Prop :=
  exists c1 c2, c = c1 ++ e :: c2 /\ (length c2 <= n)%nat.

Lemma recent_snoc n e e' c : recent n e c -> recent (S n) e (c ++ [e']).
Proof.
  intros (c1 & c2 & -> & Hn). exists c1, (c2 ++ [e']). rewrite <- app_assoc. split; [done|].
  rewrite length_app. simpl. lia.
Qed.

Lemma recent_touch n e j e' c : recent n e c -> c !! j = Some e' -> recent (S n) e (touch j e' c).
Proof.
  intros (c1 & c2 & -> & Hn) Hj. unfold touch. rewrite delete_take_drop.
  apply lookup_app_Some in Hj as [Hj|[Hlen Hj]].
  - exists (take j c1 ++ drop (S j) c1), (c2 ++ [e']). apply lookup_lt_Some in Hj.
    rewrite take_app_le, drop_app_le by lia. rewrite <- !app_assoc. split; [done|]. rewrite length_app. simpl. lia.
  - destruct (j - length c1)%nat as [|i] eqn:Ei; cbn in Hj.
    + injection Hj as ->. eexists _, []. split; [done|simpl; lia].
    + exists c1, (delete i c2 ++ [e']). rewrite delete_take_drop.
      rewrite take_app_ge, drop_app_ge by lia. replace (j - length c1)%nat with (S i) by lia.
      replace (S j - length c1)%nat with (S (S i)) by lia. cbn [take drop]. rewrite <- !app_assoc.
      split; [done|]. apply lookup_lt_Some in Hj. len.
Qed.

Lemma recent_op mx nt mk ok o c n e :
  recent n e c -> (S n < Z.to_nat mx)%nat -> recent (S n) e (spec_op mx nt mk ok o c).2.
Proof.
  intros Hr Hn. assert (Hmono : recent (S n) e c) by (destruct Hr as (c1 & c2 & ? & ?); exists c1, c2; split; [done|lia]).
  destruct o as [nm|ip]; cbn [spec_op].
  - unfold spec_find. destruct (list_find _ c) as [[j e']|] eqn:Ef.
    + apply list_find_Some in Ef as (Hj & _). cbn. by apply recent_touch.
    + destruct ok; [|done]. case_test; cbn; [by apply recent_snoc|].
      destruct c as [|e0 c]; [done|]. cbn. apply recent_snoc.
      destruct Hr as ([|e1 c1] & c2 & Hc & Hl); injection Hc as -> ->; [|by exists c1, c2].
      simpl in *. lia.
  - case_test; cbn; [done|]. case_test; cbn; [done|]. unfold spec_lookup.
    destruct (list_find _ c) as [[j e']|] eqn:Ef; cbn; [|done].
    apply list_find_Some in Ef as (Hj & _). by apply recent_touch.
Qed.

Lemma recent_all mx nt mk ops : forall c n e,
  recent n e c -> (n + length ops < Z.to_nat mx)%nat ->
  recent (n + length ops) e (spec_all mx nt mk ops c).2.
Proof.
  induction ops as [|[o ok] ops IH]; intros c n e Hr Hn; cbn [length] in *; [by rewrite Nat.add_0_r|].
  cbn [spec_all]. pose proof (recent_op mx nt mk ok o c n e Hr) as Hr1.
  destruct (spec_op mx nt mk ok o c) as [r c1]. specialize (Hr1 ltac:(lia)). cbn [snd] in Hr1.
  specialize (IH c1 (S n) e Hr1 ltac:(lia)). destruct (spec_all mx nt mk ops c1) as [rs c2]. cbn [snd] in *.
  by rewrite Nat.add_succ_r.
Qed.

Lemma found_recent mx ok nm c i c' :
  spec_find mx ok nm c = (i, c') -> 0 <= i -> recent 0 (mkEntry nm i) c'.
Proof.
  unfold spec_find. intros Hs Hi. destruct (list_find _ c) as [[j e]|] eqn:Ef.
  - apply list_find_Some in Ef as (_ & Hn & _). injection Hs as <- <-. exists (delete j c), [].
    split; [|simpl; lia]. unfold touch. destruct e as [n' i']. cbn in *. by subst.
  - destruct ok; [|injection Hs; lia].
    destruct (_ <? mx); [injection Hs as <- <-; by eexists _, []|].
    destruct c as [|e c]; [injection Hs; lia|]. injection Hs as <- <-. by eexists _, [].
Qed.

(** An address of the pool is split into the network and the index. *)
Lemma pool_address nt k i :
  0 <= k -> Z.land nt (- 2 ^ k) = nt -> 0 <= i < 2 ^ k ->
  Z.land (Z.lor nt i) (- 2 ^ k) = nt /\ Z.land (Z.lor nt i) (Z.lnot (- 2 ^ k)) = i.
Proof.
  intros Hk Hnt Hi.
  assert (Hm : - 2 ^ k = Z.lnot (Z.ones k)) by (unfold Z.lnot; rewrite Z.ones_equiv; lia).
  rewrite Hm in *. rewrite Z.lnot_involutive, Z.land_ones by done. rewrite <- Z.ldiff_land in *.
  assert (Hnt0 : nt mod 2 ^ k = 0) by (rewrite <- Hnt, Z.ldiff_ones_r, Z.shiftl_mul_pow2 by done; apply Z_mod_mult).
  assert (Hor : Z.lor nt i = nt + i).
  { symmetry. apply Z.add_nocarry_lor. rewrite <- Hnt. apply Z.bits_inj'. intros j Hj.
    rewrite Z.land_spec, Z.ldiff_spec, Z.bits_0.
    destruct (Z.lt_ge_cases j k); [rewrite Z.ones_spec_low by lia; by rewrite andb_false_r|].
    rewrite <- (Z.mod_small i (2 ^ k)) by done. rewrite Z.mod_pow2_bits_high by lia. by rewrite andb_false_r. }
  assert (Hq : nt = nt / 2 ^ k * 2 ^ k) by (pose proof (Z.div_mod nt (2 ^ k)); lia).
  rewrite Hor. split.
  - rewrite Z.ldiff_ones_r, Z.shiftl_mul_pow2, Z.shiftr_div_pow2 by done.
    rewrite Hq at 1. rewrite Z.div_add_l, (Z.div_small i) by lia. lia.
  - rewrite Hq, Z.add_comm, Z_mod_plus_full. by apply Z.mod_small.
Qed.

(** Indices tell entries apart. *)
Lemma rel_lookup d c e :
  rel d c -> e ∈ c -> 0 <= idx e < max d /\ exists p, list_find (fun e' => idx e' = idx e) c = Some (p, e).
Proof.
  intros (ll & Hi & Hc) He. apply list_elem_of_lookup in He as [j Hj].
  destruct (Forall2_lookup_r _ _ _ _ _ Hc Hj) as (b & Hb & Hbn).
  destruct (inv_slot _ _ Hi b e Hbn) as [Hie Hre]. destruct (inv_use _ _ Hi) as [_ Hum]. split; [lia|].
  destruct (use_entry (fun e' => idx e' = idx e) d ll c b e Hi Hc Hbn eq_refl) as (p & _ & _ & _ & _ & Hf & _).
  - intros q e' Hq E'. destruct (inv_slot _ _ Hi q e' Hq) as [_ Hrq]. rewrite E', Hre in Hrq. congruence.
  - by exists p.
Qed.

(** An index that was handed out is in the pool, and the address made of it is looked
    up to the name after any sequence of fewer than [max] operations. *)
Lemma find_survives d c k nm i d2 ops :
  rel d c -> 0 <= k -> mask d = - 2 ^ k -> Z.land (net d) (mask d) = net d ->
  hev_mapped_dns_find malloc d nm = Some (i, d2) -> 0 <= i -> Z.of_nat (length ops) < max d ->
  i < max d /\ max d < 2 ^ k /\
  exists outs d3 d4, exec_all ops d2 = Some (outs, d3) /\
    hev_mapped_dns_lookup d3 (Z.lor (net d) i) = Some (Some nm, d4).
Proof.
  intros Hr Hk Hmk Hnt Hf Hi Hlen.
  destruct (dns_find_ok d c nm Hr) as (d2' & Hf' & Hr2 & Hm2 & Hn2 & Hk2). rewrite Hf in Hf'.
  assert (Hpool : max d < 2 ^ k).
  { destruct Hr as (ll & Hi' & _). pose proof (inv_pool _ _ Hi') as Hp. rewrite Hmk in Hp. unfold Z.lnot in Hp. lia. }
  destruct (spec_find _ _ nm _) as [i' c2] eqn:Es. cbn [fst snd] in *. injection Hf' as <- <-.
  pose proof (found_recent _ _ _ _ _ _ Es Hi) as Hrec.
  destruct (dns_exec_all_ok ops d2 c2 Hr2) as (d3 & Hl2 & He3 & Hr3 & Hm3 & Hn3 & Hk3).
  pose proof (recent_all (max d2) (net d2) (mask d2) (zip ops (memory ops d2)) c2 0 _ Hrec) as Hrec3.
  rewrite length_zip_with in Hrec3. specialize (Hrec3 ltac:(lia)).
  set (c3 := (spec_all _ _ _ _ c2).2) in *.
  assert (Hin : mkEntry nm i ∈ c3) by (destruct Hrec3 as (c1' & c2' & -> & _); set_solver).
  destruct (rel_lookup d3 c3 _ Hr3 Hin) as [Hir [p Hp]]. cbn [idx] in *.
  rewrite Hmk in Hnt. destruct (pool_address (net d) k i Hk Hnt ltac:(lia)) as [Ha1 Ha2].
  destruct (lookup_ok d3 c3 (Z.lor (net d) i) Hr3) as (d4 & Hl4 & _). cbv zeta in Hl4.
  rewrite Hm3, Hm2, Hn3, Hn2, Hk3, Hk2, Hmk, Ha1, Ha2, Z.eqb_refl in Hl4. cbn [negb] in Hl4.
  rewrite (proj2 (Z.leb_gt (max d) i)) in Hl4 by lia. unfold spec_lookup in Hl4. rewrite Hp in Hl4.
  split; [lia|]. split; [done|]. by eexists _, d3, d4.
Qed.

(** With memory a name is given an index. *)
Lemma find_gives_index d c nm : rel d c -> has_memory d = true ->
  exists i d' c', hev_mapped_dns_find malloc d nm = Some (i, d') /\ 0 <= i /\ rel d' c' /\ max d' = max d
    /\ net d' = net d /\ mask d' = mask d.
Proof.
  intros Hr Hmem. destruct (dns_find_ok d c nm Hr) as (d' & Hf & Hr' & Hrest). rewrite Hmem in *.
  destruct (spec_find (max d) true nm c) as [i c'] eqn:Es. cbn [fst snd] in *.
  exists i, d', c'. split; [done|]. split; [|done].
  pose proof Hr as (ll & Hi & Hc). pose proof (inv_max _ _ Hi). unfold spec_find in Es.
  assert (Hidx : forall e, e ∈ c -> 0 <= idx e) by (intros e He; by apply (rel_lookup d c e Hr He)).
  destruct (list_find _ c) as [[j e]|] eqn:Ef.
  - apply list_find_Some in Ef as (Hj & _). injection Es as <- _. apply Hidx. by eapply list_elem_of_lookup_2.
  - destruct (Z.ltb_spec (Z.of_nat (length c)) (max d)); [injection Es; lia|].
    destruct c as [|e c0]; [simpl in *; lia|]. injection Es as <- _. apply Hidx. by left.
Qed.

(** The address that a name is given stands for the name until at least
    [max] other look-ups have been made: if [hev_mapped_dns_find] gives the index
    [i >= 0] to a name, then after any sequence of fewer than [max] operations
    [hev_mapped_dns_lookup] of [net | i] returns the name.  The network is a
    prefix: the mask is [- 2 ^ k] as a signed integer. *)
Theorem mapped_dns_roundtrip nt mk mx k d before outs d1 nm i d2 ops :
  hev_mapped_dns_construct nt mk mx = Some d -> 1 <= mx -> 0 <= k -> mk = - 2 ^ k -> Z.land nt mk = nt ->
  exec_all before d = Some (outs, d1) -> hev_mapped_dns_find malloc d1 nm = Some (i, d2) -> 0 <= i ->
  Z.of_nat (length ops) < mx ->
  exists outs' d3 d4, exec_all ops d2 = Some (outs', d3) /\
    hev_mapped_dns_lookup d3 (Z.lor nt i) = Some (Some nm, d4).
Proof.
  intros Hd Hmx Hk Hmk Hnt Hb Hf Hi Hlen.
  destruct (dns_exec_all_ok before d [] (rel_construct _ _ _ _ Hd Hmx)) as (d1' & _ & He & Hr1 & Hm1 & Hn1 & Hk1).
  rewrite Hb in He. injection He as _ <-.
  assert (Hfix : max d1 = mx /\ net d1 = nt /\ mask d1 = mk).
  { unfold hev_mapped_dns_construct in Hd. destruct (Z.lnot mk <? mx); [done|]. by injection Hd as <-. }
  destruct Hfix as (Hm & <- & <-).
  by destruct (find_survives d1 _ k nm i d2 ops Hr1 Hk Hmk Hnt Hf Hi ltac:(lia)) as (_ & _ & Hlk).
Qed.
End Find.
