(* ===== verification/DnsQuery.v ===== *)
(** * Mapped DNS: queries and destruction

    [hev_mapped_dns_handle] of [MappedDns] on arbitrary packets and on a query for
    a name, and [hev_mapped_dns_destruct]. *)

From S2P Require Import Prelude RBTree RBTreeSpec RBErase SearchTree HevList MappedDns.

(** ** Destruction *)

Lemma destruct_loop_ok fuel : forall d l1 l2,
  holds_list (lru d) (l1 ++ l2) -> (forall a, is_Some (nodes d !! a) <-> a ∈ l2) -> (length l2 <= fuel)%nat ->
  exists d', destruct_loop fuel (first_or 0 l2) d = Some d' /\ nodes d' = ∅.
Proof.
  induction fuel as [|fuel IH]; intros d l1 l2 Hl Hn Hf; destruct l2 as [|a l2]; cbn [length] in Hf; try lia.
  - exists d. split; [done|]. apply map_eq. intros b. rewrite lookup_empty.
    destruct (nodes d !! b) as [e|] eqn:E'; [|done]. assert (Hb : b ∈ []) by (apply Hn; eauto). set_solver.
  - exists d. split; [done|]. apply map_eq. intros b. rewrite lookup_empty.
    destruct (nodes d !! b) as [e|] eqn:E'; [|done]. assert (Hb : b ∈ []) by (apply Hn; eauto). set_solver.
  - destruct (first_next_ok _ _ _ _ Hl) as [Hnx _]. cbn [destruct_loop first_or list.head default from_option].
    assert (Ha0 : a <> 0) by (destruct Hl as (_ & Hl & _); eapply linked_nonzero; [exact Hl|set_solver]).
    unfold id. rewrite (proj2 (Z.eqb_neq a 0) Ha0).
    destruct (proj2 (Hn a)) as [e He]; [by left|]. rewrite He. cbn [mbind option_bind]. rewrite Hnx. cbn [mbind option_bind].
    apply (IH (hev_mapped_dns_node_free a d) (l1 ++ [a]) l2); [by rewrite <- app_assoc| |lia].
    assert (Hal : a ∉ l2).
    { destruct Hl as [Hnd _]. apply NoDup_app in Hnd as (_ & _ & Hnd). by apply NoDup_cons in Hnd as [? _]. }
    intros b. cbn [hev_mapped_dns_node_free set_nodes nodes]. destruct (decide (b = a)) as [->|Hne].
    + rewrite lookup_delete_eq. split; [by intros []|done].
    + rewrite lookup_delete_ne, Hn, elem_of_cons by done. naive_solver.
Qed.

(** The destructor frees every node exactly once: after any sequence of
    operations on a new object the walk over the list ends, looks at no freed
    node, and leaves none allocated. *)
Theorem mapped_dns_destruct_frees_all malloc nt mk mx d ops :
  (forall n m a, malloc n m = Some a -> a <> 0 /\ m !! a = None) ->
  hev_mapped_dns_construct nt mk mx = Some d -> 1 <= mx ->
  exists outs d1 d2, exec_all malloc ops d = Some (outs, d1) /\
    hev_mapped_dns_destruct d1 = Some d2 /\ nodes d2 = ∅.
Proof.
  intros Hfresh Hd Hm.
  destruct (dns_exec_all_ok malloc Hfresh ops d [] (rel_construct _ _ _ _ Hd Hm)) as (d1 & _ & He & Hr & _).
  destruct Hr as (ll & Hi & _). pose proof (inv_lru _ _ Hi) as Hl.
  destruct (destruct_loop_ok (size (nodes d1)) d1 [] ll Hl (inv_nodes _ _ Hi)) as (d2 & Hd2 & Hn2).
  { rewrite <- (size_list_to_set (C := gset Z) ll (inv_nodup _ _ Hi)), <- size_dom.
    apply subseteq_size. intros x Hx. apply elem_of_list_to_set, (inv_nodes _ _ Hi) in Hx. by apply elem_of_dom. }
  eexists _, d1, d2. split_and!; [done| |done].
  unfold hev_mapped_dns_destruct, hev_list_first. destruct Hl as (_ & _ & -> & _). done.
Qed.

(** ** Arbitrary packets *)

Lemma rd_ok b i : bytes_ok b -> 0 <= i < Z.of_nat (length b) -> exists v, rd b i = Some v /\ is_u8 v.
Proof.
  intros Hb Hi. unfold rd. rewrite (proj2 (Z.leb_le 0 i)) by lia.
  destruct (lookup_lt_is_Some_2 b (Z.to_nat i)) as [v Hv]; [lia|]. exists v. split; [done|].
  by eapply Forall_lookup_1 in Hv.
Qed.

Lemma wr_ok b i v : 0 <= i < Z.of_nat (length b) ->
  wr b i v = Some (<[Z.to_nat i := u8 v]> b) /\ length (<[Z.to_nat i := u8 v]> b) = length b
  /\ (bytes_ok b -> bytes_ok (<[Z.to_nat i := u8 v]> b)).
Proof.
  intros Hi. unfold wr. rewrite (proj2 (Z.leb_le 0 i)), (proj2 (Z.ltb_lt i _)) by lia.
  split_and!; [done|by rewrite length_insert|]. intros Hb. apply Forall_insert; [done|]. apply u8_range.
Qed.

Lemma labels_ok fuel : forall rb off,
  bytes_ok rb -> 0 <= off < Z.of_nat (length rb) -> Z.of_nat (length rb) - off < Z.of_nat fuel ->
  exists r, labels fuel rb (Z.of_nat (length rb)) off = Some r /\
    match r with
    | None => True
    | Some (rb', off') => length rb' = length rb /\ bytes_ok rb' /\ off <= off' < Z.of_nat (length rb)
        /\ rb' !! Z.to_nat off' = Some 0
    end.
Proof.
  induction fuel as [|fuel IH]; intros rb off Hb Hoff Hf; [lia|]. cbn [labels].
  destruct (rd_ok rb off Hb Hoff) as (c & Hc & Hc8). rewrite Hc. cbn [mbind option_bind].
  destruct (Z.eqb_spec c 0) as [->|Hne].
  - eexists. split; [done|]. cbn. split_and!; [done|done|lia|lia|].
    unfold rd in Hc. by rewrite (proj2 (Z.leb_le 0 off)) in Hc by lia.
  - unfold is_u8 in Hc8. case_test; [by exists None|].
    destruct (wr_ok rb off 46 Hoff) as (-> & Hl & Hb'). cbn [mbind option_bind]. rewrite <- Hl.
    destruct (IH (<[Z.to_nat off := u8 46]> rb) (off + (1 + c))) as (r & -> & Hr); [by apply Hb'|lia|lia|].
    exists r. split; [done|]. destruct r as [[rb' off']|]; [|done]. destruct Hr as (? & ? & ? & ?).
    split_and!; [lia|done|lia|lia|done].
Qed.

Lemma read_u16_ok b i : bytes_ok b -> 0 <= i -> i + 1 < Z.of_nat (length b) ->
  exists v, read_u16 b i = Some v /\ (v = 1 -> b !! Z.to_nat i = Some 0).
Proof.
  intros Hb H0 H1. unfold read_u16. destruct (rd_ok b i Hb) as (hi & Hhi & Hhi8); [lia|].
  destruct (rd_ok b (i + 1) Hb) as (lo & -> & Hlo8); [lia|]. rewrite Hhi. cbn [mbind option_bind].
  eexists. split; [done|]. intros E'. unfold rd in Hhi. rewrite (proj2 (Z.leb_le 0 i)) in Hhi by lia.
  rewrite Hhi. f_equal. unfold is_u8 in *. apply (f_equal (fun x => Z.shiftr x 8)) in E'.
  rewrite Z.shiftr_lor, Z.shiftr_shiftl_l in E' by lia. rewrite (Z.shiftr_div_pow2 lo), (Z.div_small lo) in E' by lia.
  rewrite Z.lor_0_r, Z.shiftl_0_r in E'. exact E'.
Qed.

Lemma string_at_ok b i j : 0 <= i -> i <= j -> b !! Z.to_nat j = Some 0 -> exists nm, string_at b i = Some nm.
Proof.
  intros Hi Hij Hj. unfold string_at. rewrite (proj2 (Z.leb_le 0 i)) by lia.
  rewrite bool_decide_true; [cbn; eauto|]. apply list_elem_of_lookup. exists (Z.to_nat j - Z.to_nat i)%nat.
  rewrite lookup_drop. rewrite <- Hj. f_equal. lia.
Qed.

Section Query.
Context (malloc : nat -> gmap Z HevMappedDNSNode -> option Z).
Hypothesis malloc_fresh : forall n m a, malloc n m = Some a -> a <> 0 /\ m !! a = None.

Lemma questions_ok n : forall d c rb off ans,
  rel d c -> bytes_ok rb -> 12 <= off <= Z.of_nat (length rb) ->
  exists d' c' r, questions malloc n d rb (Z.of_nat (length rb)) off ans = Some (d', r) /\ rel d' c' /\
    match r with
    | None => True
    | Some (rb', off', ans') => off <= off' <= Z.of_nat (length rb)
        /\ (length ans' <= length ans + n)%nat
    end.
Proof.
  induction n as [|n IH]; intros d c rb off ans Hr Hb Hoff; cbn [questions].
  { eexists d, c, _. split; [done|]. split; [done|]. cbn beta iota. lia. }
  case_test; [by exists d, c, None|].
  destruct (labels_ok (length rb) rb off Hb) as (r & -> & Hlr); [lia|lia|]. cbn [mbind option_bind].
  destruct r as [[rb1 off1]|]; [|by exists d, c, None]. destruct Hlr as (Hl1 & Hb1 & Hoff1 & Hz).
  case_test; [by exists d, c, None|].
  destruct (read_u16_ok rb1 (off1 + 1) Hb1) as (qt & -> & Hqt); [lia|lia|]. cbn [mbind option_bind].
  destruct (read_u16_ok rb1 (off1 + 1 + 2) Hb1) as (qc & -> & Hqc); [lia|lia|]. cbn [mbind option_bind].
  assert (Hstep : exists ans2 d2 c2,
    (if (qt =? 1) && (qc =? 1)
     then nm ← string_at rb1 (off + 1);
          '(i, self) ← hev_mapped_dns_find malloc d nm;
          Some (if 0 <=? i then ans ++ [(off, Z.lor (net self) i)] else ans, self)
     else Some (ans, d)) = Some (ans2, d2) /\ rel d2 c2 /\ (length ans2 <= S (length ans))%nat).
  { destruct ((qt =? 1) && (qc =? 1)) eqn:Eq; bool_to_prop; [|exists ans, d, c; split_and!; [done|done|lia]].
    assert (exists nm, string_at rb1 (off + 1) = Some nm) as [nm ->].
    { destruct (Z.eq_dec off1 off) as [->|Hne].
      - apply (string_at_ok _ _ (off + 1)); [lia|lia|by apply Hqt].
      - apply (string_at_ok _ _ off1); [lia|lia|done]. }
    cbn [mbind option_bind]. destruct (dns_find_ok malloc malloc_fresh d c nm Hr) as (d2 & -> & Hr2 & _).
    cbn [mbind option_bind]. eexists _, d2, _. split_and!; [done|exact Hr2|].
    case_test; [rewrite length_app; simpl; lia|lia]. }
  destruct Hstep as (ans2 & d2 & c2 & -> & Hr2 & Hlen). cbn [mbind option_bind].
  rewrite <- Hl1. destruct (IH d2 c2 rb1 (off1 + 1 + 4) ans2 Hr2 Hb1) as (d' & c' & r & -> & Hr' & Hres); [lia|].
  exists d', c', r. split_and!; [done|done|]. destruct r as [[[rb' off'] ans']|]; [|done]. lia.
Qed.

Lemma wr_bind {A} b i v (k : list Z -> option A) : 0 <= i < Z.of_nat (length b) ->
  (b' ← wr b i v; k b') = k (<[Z.to_nat i := u8 v]> b).
Proof. intros Hi. by destruct (wr_ok b i v Hi) as (-> & _). Qed.

Lemma answers_ok ans : forall sb off,
  0 <= off <= Z.of_nat (length sb) ->
  exists r, answers ans sb (Z.of_nat (length sb)) off = Some r /\
    match r with
    | None => True
    | Some (sb', off') => length sb' = length sb
        /\ off' = off + 16 * Z.of_nat (length ans) /\ off' <= Z.of_nat (length sb)
    end.
Proof.
  induction ans as [|[ipo ip] ans IH]; intros sb off Hoff; cbn [answers].
  { eexists. split; [done|]. cbn [length]. split_and!; [done|lia|lia]. }
  case_test; [by exists None|]. unfold write_u16, write_u32.
  repeat (rewrite wr_bind by (rewrite ?length_insert; lia)).
  match goal with |- context [answers ans ?sb' _ _] => assert (Hl : length sb' = length sb) by (by rewrite !length_insert);
    rewrite <- Hl; destruct (IH sb' (off + 16)) as (r & -> & Hr); [lia|] end.
  exists r. split; [done|]. destruct r as [[sb' off']|]; [|done]. cbn [length]. lia.
Qed.

(** No packet makes the DNS handler misbehave: for every request and every
    response buffer, from a state in which the structures agree, the handler
    reads and writes inside the two buffers and the array only, passes only
    terminated strings on, ends, and keeps the invariant; it reports an error or
    a length between the header's and the buffer's. *)
Theorem hev_mapped_dns_handle_safe d c req res :
  rel d c -> bytes_ok req ->
  exists d' c' r res', hev_mapped_dns_handle malloc d req res = Some (d', r, res') /\ rel d' c'
    /\ length res' = length res /\ (r = -1 \/ 12 <= r <= Z.of_nat (length res)).
Proof.
  intros Hr Hb. unfold hev_mapped_dns_handle, sizeof_DNSHdr. case_test; [by eexists d, c, _, _; split_and!; auto|].
  case_test; [by eexists d, c, _, _; split_and!; auto|].
  set (qd := ntohs (load16 req hdr_qd)). set (req1 := splice hdr_qd (mem16 qd) req).
  set (res1 := splice hdr_an _ _).
  assert (Hl1 : length res1 = length res) by (subst res1; unfold hdr_an, hdr_fl, mem16; len).
  case_test; [by eexists d, c, _, _; split_and!; auto|].
  assert (Hb1 : bytes_ok req1).
  { subst req1. unfold splice. repeat (apply Forall_app; split); [by apply Forall_take| |by apply Forall_drop].
    unfold mem16. repeat constructor; apply Z.mod_pos_bound; lia. }
  assert (Hq1 : length req1 = length req) by (subst req1; unfold hdr_qd, mem16; len).
  rewrite <- Hq1. destruct (questions_ok (Z.to_nat qd) d c req1 12 [] Hr Hb1) as (d' & c' & r & -> & Hr' & Hres); [lia|].
  cbn [mbind option_bind]. destruct r as [[[rb off] ans]|]; [|by eexists d', c', _, _; split_and!; auto].
  rewrite <- Hl1. destruct (answers_ok ans res1 off) as (r & -> & Hans); [lia|]. cbn [mbind option_bind].
  destruct r as [[sb off']|]; [|by eexists d', c', _, _; split_and!; auto]. destruct Hans as (Hlen & Hoff' & ?).
  eexists d', c', _, _. split_and!; [done|done| |right; lia]. unfold hdr_an, hdr_fl, mem16. len.
Qed.

(** ** A query for a name *)

(** A name on the wire, and as the string the cache is asked for. *)
Definition encode_name (ls : list (list Z)) : list Z := concat ((fun l => Z.of_nat (length l) :: l) <$> ls) ++ [0].
Definition dots (ls : list (list Z)) : list Z := concat ((fun l => 46 :: l) <$> ls).
Definition dotted (ls : list (list Z)) : list Z := drop 1 (dots ls).

Definition label_ok (l : list Z) : Prop := cstring l /\ (1 <= length l < 256)%nat.

Lemma rd_app a x r off : off = Z.of_nat (length a) -> rd (a ++ x :: r) off = Some x.
Proof.
  intros ->. unfold rd. rewrite (proj2 (Z.leb_le 0 _)) by lia. rewrite Nat2Z.id. by rewrite list_lookup_middle.
Qed.

Lemma wr_app a x r off v : off = Z.of_nat (length a) -> wr (a ++ x :: r) off v = Some (a ++ u8 v :: r).
Proof.
  intros ->. unfold wr. rewrite (proj2 (Z.leb_le 0 _)), (proj2 (Z.ltb_lt _ _)) by (rewrite ?length_app; simpl; lia).
  rewrite Nat2Z.id. by rewrite insert_app_r_alt, Nat.sub_diag by lia.
Qed.

Lemma encode_name_cons l ls : encode_name (l :: ls) = Z.of_nat (length l) :: l ++ encode_name ls.
Proof. unfold encode_name. cbn. by rewrite <- app_assoc. Qed.
Lemma dots_cons l ls : dots (l :: ls) = 46 :: l ++ dots ls.
Proof. done. Qed.
Lemma length_dots ls : length (encode_name ls) = S (length (dots ls)).
Proof.
  induction ls as [|l ls IH]; [done|]. rewrite encode_name_cons, dots_cons. cbn [length].
  rewrite !length_app, IH. lia.
Qed.

Lemma labels_name ls : forall fuel a r,
  Forall label_ok ls -> (length ls < fuel)%nat ->
  labels fuel (a ++ encode_name ls ++ r) (Z.of_nat (length (a ++ encode_name ls ++ r))) (Z.of_nat (length a))
  = Some (Some (a ++ dots ls ++ 0 :: r, Z.of_nat (length a + length (dots ls)))).
Proof.
  induction ls as [|l ls IH]; intros fuel a r Hok Hf; (destruct fuel as [|fuel]; [simpl in Hf; lia|]); cbn [labels].
  - unfold encode_name. cbn. rewrite rd_app by done. cbn. by rewrite Nat.add_0_r.
  - apply Forall_cons in Hok as [[Hl Hlen] Hok]. rewrite encode_name_cons, dots_cons.
    cbn [app]. rewrite <- !app_assoc. rewrite rd_app by done. cbn [mbind option_bind].
    rewrite (proj2 (Z.eqb_neq _ 0)) by lia. rewrite (proj2 (Z.leb_gt _ _)).
    2: { pose proof (length_dots ls). repeat (rewrite length_app; cbn [length]). lia. }
    rewrite wr_app by done. cbn [mbind option_bind]. change (u8 46) with 46.
    pose proof (IH fuel (a ++ 46 :: l) r Hok ltac:(simpl in Hf; lia)) as IH'.
    rewrite <- !app_assoc in IH'. cbn [app] in IH'.
    replace (Z.of_nat (length a) + (1 + Z.of_nat (length l))) with (Z.of_nat (length (a ++ 46 :: l)))
      by (rewrite length_app; simpl; lia).
    match goal with |- labels _ _ ?n _ = _ => match type of IH' with labels _ _ ?m _ = _ =>
      replace n with m by (repeat (rewrite length_app; cbn [length]); lia) end end.
    etrans; [exact IH'|]. do 3 f_equal. repeat (rewrite length_app; cbn [length]). lia.
Qed.

(** The answer record: a pointer to the name at offset 12, an address of four
    bytes with a time to live of one second. *)
Definition answer_record (ip : Z) : list Z :=
  [0xc0; 12; 0; 1; 0; 1; 0; 0; 0; 1; 0; 4; u8 (Z.shiftr ip 24); u8 (Z.shiftr ip 16); u8 (Z.shiftr ip 8); u8 ip].

Lemma wr_at a l k v : 0 <= k < Z.of_nat (length l) ->
  wr (a ++ l) (Z.of_nat (length a) + k) v = Some (a ++ <[Z.to_nat k := u8 v]> l).
Proof.
  intros Hk. destruct (wr_ok (a ++ l) (Z.of_nat (length a) + k) v) as (-> & _); [rewrite length_app; lia|].
  f_equal. rewrite insert_app_r_alt by lia. do 2 f_equal. lia.
Qed.

Lemma write_u16_at a l k v : 0 <= k -> k + 1 < Z.of_nat (length l) ->
  write_u16 (a ++ l) (Z.of_nat (length a) + k) v
  = Some (a ++ <[Z.to_nat (k + 1) := u8 v]> (<[Z.to_nat k := u8 (Z.shiftr v 8)]> l)).
Proof.
  intros H1 H2. unfold write_u16. rewrite wr_at by lia. cbn [mbind option_bind].
  rewrite <- Z.add_assoc, wr_at; [done|]. rewrite length_insert. lia.
Qed.

Lemma write_u32_at a l k v : 0 <= k -> k + 3 < Z.of_nat (length l) ->
  write_u32 (a ++ l) (Z.of_nat (length a) + k) v
  = Some (a ++ <[Z.to_nat (k + 3) := u8 v]> (<[Z.to_nat (k + 2) := u8 (Z.shiftr v 8)]>
      (<[Z.to_nat (k + 1) := u8 (Z.shiftr v 16)]> (<[Z.to_nat k := u8 (Z.shiftr v 24)]> l)))).
Proof.
  intros H1 H2. unfold write_u32. rewrite wr_at by lia. cbn [mbind option_bind].
  rewrite <- !Z.add_assoc. rewrite wr_at by (rewrite ?length_insert; lia). cbn [mbind option_bind].
  rewrite wr_at by (rewrite ?length_insert; lia). cbn [mbind option_bind].
  rewrite wr_at by (rewrite ?length_insert; lia). done.
Qed.

Lemma answers_one a b r ip :
  length b = 16%nat ->
  answers [(12, ip)] (a ++ b ++ r) (Z.of_nat (length (a ++ b ++ r))) (Z.of_nat (length a))
  = Some (Some (a ++ answer_record ip ++ r, Z.of_nat (length a + 16))).
Proof.
  intros Hb. explode b. cbn [answers]. rewrite (proj2 (Z.leb_gt _ _)) by (rewrite !length_app; simpl; lia).
  cbn [app]. rewrite <- (Z.add_0_r (Z.of_nat (length a))) at 1.
  rewrite write_u16_at by (simpl; lia). cbn [mbind option_bind].
  do 2 (rewrite write_u16_at by (rewrite ?length_insert; simpl; lia); cbn [mbind option_bind]).
  rewrite write_u32_at by (rewrite ?length_insert; simpl; lia). cbn [mbind option_bind].
  rewrite write_u16_at by (rewrite ?length_insert; simpl; lia). cbn [mbind option_bind].
  rewrite write_u32_at by (rewrite ?length_insert; simpl; lia). cbn [mbind option_bind].
  rewrite Nat2Z.inj_add. reflexivity.
Qed.

Lemma cstring_dots ls : Forall label_ok ls -> cstring (dots ls).
Proof.
  induction 1 as [|l ls [Hl _] Hok IH]; [constructor|]. rewrite dots_cons. constructor; [lia|].
  by apply Forall_app.
Qed.

Lemma string_at_name a ls r off :
  ls <> [] -> Forall label_ok ls -> off = Z.of_nat (length a) ->
  string_at (a ++ dots ls ++ 0 :: r) (off + 1) = Some (dotted ls).
Proof.
  intros Hne Hok ->. destruct ls as [|l ls]; [done|]. pose proof (cstring_dots _ Hok) as Hd.
  unfold string_at, dotted. rewrite (proj2 (Z.leb_le 0 _)) by lia.
  replace (Z.to_nat (Z.of_nat (length a) + 1)) with (length a + 1)%nat by lia.
  rewrite <- (drop_drop _ 1 (length a)), drop_app_length. rewrite dots_cons in *. cbn [app drop].
  rewrite bool_decide_true by set_solver. cbn [andb]. f_equal.
  apply Forall_cons in Hd as [_ Hd]. by apply cstr_of_cstring.
Qed.

(** One question of type A and class IN. *)
Lemma question_one d ls hdr extra i d' :
  ls <> [] -> Forall label_ok ls -> length hdr = 12%nat ->
  hev_mapped_dns_find malloc d (dotted ls) = Some (i, d') -> 0 <= i ->
  let rb := hdr ++ encode_name ls ++ [0; 1; 0; 1] ++ extra in
  exists rb', questions malloc 1 d rb (Z.of_nat (length rb)) 12 []
    = Some (d', Some (rb', Z.of_nat (16 + length (encode_name ls)), [(12, Z.lor (net d') i)])).
Proof.
  intros Hne Hok Hh Hf Hi rb. cbn [questions].
  assert (Hlen : length rb = (16 + length (encode_name ls) + length extra)%nat).
  { subst rb. repeat (rewrite length_app; cbn [length]). lia. }
  pose proof (length_dots ls) as Hdots.
  assert (Hls : (length ls <= length (dots ls))%nat).
  { clear. induction ls as [|l ls IH]; [done|]. rewrite dots_cons. cbn [length]. rewrite length_app. lia. }
  rewrite (proj2 (Z.leb_gt _ _)) by lia.
  pose proof (labels_name ls (length rb) hdr ([0; 1; 0; 1] ++ extra) Hok) as HL.
  fold rb in HL. rewrite Hh in HL. change (Z.of_nat 12) with 12 in HL. rewrite HL by lia.
  cbn [mbind option_bind]. rewrite (proj2 (Z.leb_gt _ _)) by lia.
  set (off := Z.of_nat (12 + length (dots ls)) + 1).
  assert (Hoff : off = Z.of_nat (length (hdr ++ dots ls ++ [0]))) by (subst off; rewrite !length_app; simpl; lia).
  assert (Hrb : hdr ++ dots ls ++ 0 :: [0; 1; 0; 1] ++ extra = (hdr ++ dots ls ++ [0]) ++ [0; 1; 0; 1] ++ extra)
    by (by rewrite <- !app_assoc).
  assert (Hr : forall k v, nth_error [0; 1; 0; 1] k = Some v ->
    rd (hdr ++ dots ls ++ 0 :: [0; 1; 0; 1] ++ extra) (off + Z.of_nat k) = Some v).
  { intros k v Hk. rewrite Hrb, Hoff. unfold rd. rewrite (proj2 (Z.leb_le 0 _)) by lia.
    rewrite lookup_app_r by lia. replace (Z.to_nat _ - _)%nat with k by lia.
    do 4 (destruct k as [|k]; [exact Hk|]). destruct k; done. }
  assert (Hu : forall k, (k = 0 \/ k = 2)%nat ->
    read_u16 (hdr ++ dots ls ++ 0 :: [0; 1; 0; 1] ++ extra) (off + Z.of_nat k) = Some 1).
  { intros k Hk. unfold read_u16. rewrite (Hr k 0) by (by destruct Hk as [->| ->]). cbn [mbind option_bind].
    replace (off + Z.of_nat k + 1) with (off + Z.of_nat (S k)) by lia.
    rewrite (Hr (S k) 1) by (by destruct Hk as [->| ->]). done. }
  pose proof (Hu 0%nat ltac:(by left)) as Hu0. rewrite Z.add_0_r in Hu0. rewrite Hu0. cbn [mbind option_bind].
  change 2 with (Z.of_nat 2). rewrite (Hu 2%nat) by (by right). cbn [mbind option_bind].
  cbn [Z.eqb Pos.eqb andb].
  rewrite (string_at_name hdr ls ([0; 1; 0; 1] ++ extra) 12 Hne Hok) by (by rewrite Hh).
  cbn [mbind option_bind]. rewrite Hf. cbn [mbind option_bind]. rewrite (proj2 (Z.leb_le 0 i)) by done.
  eexists. do 3 f_equal. f_equal. f_equal. subst off. lia.
Qed.

Lemma handle_query d ls i0 i1 f0 f1 a0 a1 n0 n1 r0 r1 extra res i d' :
  ls <> [] -> Forall label_ok ls -> is_u8 f0 -> is_u8 f1 ->
  let qname := encode_name ls in
  let req := [i0; i1; f0; f1; 0; 1; a0; a1; n0; n1; r0; r1] ++ qname ++ [0; 1; 0; 1] ++ extra in
  (length req <= length res)%nat -> (32 + length qname <= length res)%nat ->
  hev_mapped_dns_find malloc d (dotted ls) = Some (i, d') -> 0 <= i ->
  let fl := f0 * 256 + f1 in
  let fl' := Z.lor (Z.lor fl 0x8000) (Z.shiftr (Z.land fl 0x100) 1) in
  exists res', hev_mapped_dns_handle malloc d req res = Some (d', Z.of_nat (32 + length qname), res') /\
    take (32 + length qname) res' =
      [i0; i1; (fl' / 256) mod 256; fl' mod 256; 0; 1; 0; 1; 0; 0; 0; 0] ++ qname ++ [0; 1; 0; 1]
      ++ answer_record (Z.lor (net d') i).
Proof.
  intros Hne Hok Hf0 Hf1 qname req Hlr Hl32 Hf Hi fl fl'. unfold hev_mapped_dns_handle.
  rewrite (proj2 (Z.ltb_ge _ _)) by lia.
  assert (Hlreq : length req = (16 + length qname + length extra)%nat).
  { subst req. repeat (rewrite length_app; cbn [length]). lia. }
  unfold sizeof_DNSHdr. rewrite (proj2 (Z.ltb_ge _ _)) by lia.
  change (ntohs (load16 req hdr_qd)) with 1. cbn [Z.ltb Z.compare Pos.compare Pos.compare_cont].
  change (splice hdr_qd (mem16 1) req) with
    ([i0; i1; f0; f1; 1; 0; a0; a1; n0; n1; r0; r1] ++ qname ++ [0; 1; 0; 1] ++ extra).
  change (Z.to_nat 1) with 1%nat.
  destruct (question_one d ls [i0; i1; f0; f1; 1; 0; a0; a1; n0; n1; r0; r1] extra i d' Hne Hok eq_refl Hf Hi)
    as (rb' & HQ). fold qname in HQ.
  replace (length ([i0; i1; f0; f1; 1; 0; a0; a1; n0; n1; r0; r1] ++ qname ++ [0; 1; 0; 1] ++ extra))
    with (length req) in HQ by done.
  rewrite HQ. cbn [mbind option_bind].
  rewrite splice_front. set (rest := drop (length req) res).
  assert (Hrest : req ++ rest = [i0; i1; f0; f1; 0; 1; a0; a1; n0; n1; r0; r1] ++ qname ++ [0; 1; 0; 1] ++ extra ++ rest).
  { subst req. by rewrite <- !app_assoc. }
  rewrite Hrest. set (tl := extra ++ rest).
  change (load16 ([i0; i1; f0; f1; 0; 1; a0; a1; n0; n1; r0; r1] ++ qname ++ [0; 1; 0; 1] ++ tl) hdr_fl)
    with (f0 + 256 * f1).
  assert (Hfl : ntohs (f0 + 256 * f1) = fl) by (unfold ntohs, bswap16, fl, is_u8 in *; zdiv). rewrite Hfl.
  assert (Htl : (16 <= length tl)%nat) by (subst tl rest; rewrite length_app, length_drop; lia).
  change (splice hdr_an [0; 0; 0; 0; 0; 0] (splice hdr_fl (mem16 fl)
    ([i0; i1; f0; f1; 0; 1; a0; a1; n0; n1; r0; r1] ++ qname ++ [0; 1; 0; 1] ++ tl)))
    with ([i0; i1; fl mod 256; (fl / 256) mod 256; 0; 1; 0; 0; 0; 0; 0; 0] ++ qname ++ [0; 1; 0; 1] ++ tl).
  set (a := [i0; i1; fl mod 256; (fl / 256) mod 256; 0; 1; 0; 0; 0; 0; 0; 0] ++ qname ++ [0; 1; 0; 1]).
  assert (Ha : length a = (16 + length qname)%nat) by (subst a; repeat (rewrite length_app; cbn [length]); lia).
  assert (Hb : [i0; i1; fl mod 256; (fl / 256) mod 256; 0; 1; 0; 0; 0; 0; 0; 0] ++ qname ++ [0; 1; 0; 1] ++ tl
    = a ++ take 16 tl ++ drop 16 tl) by (subst a; rewrite take_drop, <- !app_assoc; done).
  rewrite Hb. pose proof (answers_one a (take 16 tl) (drop 16 tl) (Z.lor (net d') i)) as HA.
  replace (length (a ++ take 16 tl ++ drop 16 tl)) with (length res) in HA.
  2: { rewrite take_drop, length_app, Ha. subst tl rest. rewrite length_app, length_drop. lia. }
  rewrite Ha in HA. rewrite HA by (rewrite length_take; lia). cbn [mbind option_bind].
  set (out := a ++ answer_record _ ++ drop 16 tl).
  assert (Hfl2 : load16 out hdr_fl = fl).
  { change (load16 out hdr_fl) with (fl mod 256 + 256 * ((fl / 256) mod 256)).
    unfold fl, is_u8 in *. zdiv. }
  rewrite Hfl2. fold fl'. change (mem16 (htons (Z.of_nat (length [(12, Z.lor (net d') i)])))) with [0; 1].
  replace (16 + length qname + 16)%nat with (32 + length qname)%nat by lia. eexists. split; [done|].
  assert (Hh : mem16 (htons fl') = [(fl' / 256) mod 256; fl' mod 256]).
  { unfold mem16, htons, bswap16. f_equal; [zdiv|]. f_equal. zdiv. }
  rewrite Hh.
  change (splice hdr_an [0; 1] (splice hdr_fl [(fl' / 256) mod 256; fl' mod 256] out)) with
    (([i0; i1; (fl' / 256) mod 256; fl' mod 256; 0; 1; 0; 1; 0; 0; 0; 0] ++ qname ++ [0; 1; 0; 1])
     ++ answer_record (Z.lor (net d') i) ++ drop 16 tl).
  rewrite app_assoc. rewrite take_length_app; [by rewrite <- !app_assoc|].
  repeat (rewrite length_app; cbn [length answer_record]). lia.
Qed.

(** A query is answered, and the answer can be resolved back.  For a packet
    that asks for the address of a name (one question of type A and class IN, any
    identifier and flags, any number of further bytes) and a response buffer with
    room, the handler gives the name an index [i] and returns the header with the
    response bit set, the recursion-available bit copied from recursion-desired
    and one answer announced, the question unchanged, and the answer record with
    the address [net | i]; and [hev_mapped_dns_lookup] of that address then returns
    the name, with dots between its labels. *)
Theorem hev_mapped_dns_handle_answers d c k ls i0 i1 f0 f1 a0 a1 n0 n1 r0 r1 extra res :
  rel d c -> 0 <= k -> mask d = - 2 ^ k -> Z.land (net d) (mask d) = net d ->
  has_memory malloc d = true ->
  ls <> [] -> Forall label_ok ls -> is_u8 f0 -> is_u8 f1 ->
  let qname := encode_name ls in
  let req := [i0; i1; f0; f1; 0; 1; a0; a1; n0; n1; r0; r1] ++ qname ++ [0; 1; 0; 1] ++ extra in
  (length req <= length res)%nat -> (32 + length qname <= length res)%nat ->
  let fl := f0 * 256 + f1 in
  let fl' := Z.lor (Z.lor fl 0x8000) (Z.shiftr (Z.land fl 0x100) 1) in
  exists i d' res' d'', 0 <= i < max d /\
    hev_mapped_dns_handle malloc d req res = Some (d', Z.of_nat (32 + length qname), res') /\
    take (32 + length qname) res' =
      [i0; i1; (fl' / 256) mod 256; fl' mod 256; 0; 1; 0; 1; 0; 0; 0; 0] ++ qname ++ [0; 1; 0; 1]
      ++ answer_record (Z.lor (net d) i) /\
    hev_mapped_dns_lookup d' (Z.lor (net d) i) = Some (Some (dotted ls), d'').
Proof.
  intros Hr Hk Hmk Hnt Hmem Hne Hok Hf0 Hf1 qname req Hlr Hl32 fl fl'.
  destruct (find_gives_index malloc malloc_fresh d c (dotted ls) Hr Hmem) as (i & d' & c' & Hf & Hi0 & _ & _ & Hn' & _).
  destruct (find_survives malloc malloc_fresh d c k (dotted ls) i d' [] Hr Hk Hmk Hnt Hf Hi0)
    as (Him & _ & _ & d3 & d'' & [= _ <-] & Hl).
  { destruct Hr as (ll & Hi & _). pose proof (inv_max _ _ Hi). simpl. lia. }
  destruct (handle_query d ls i0 i1 f0 f1 a0 a1 n0 n1 r0 r1 extra res i d' Hne Hok Hf0 Hf1 Hlr Hl32 Hf Hi0)
    as (res' & Hh & Ht).
  exists i, d', res', d''. split_and!; [lia|lia|done| |done]. by rewrite <- Hn'.
Qed.
End Query.

Module DnsWitness.

(** Memory that never runs out. *)
Definition alloc (n : nat) (m : gmap Z HevMappedDNSNode) : option Z := Some (fresh (dom m ∪ {[0]} : gset Z)).

Lemma alloc_fresh n m a : alloc n m = Some a -> a <> 0 /\ m !! a = None.
Proof.
  intros [= <-]. pose proof (is_fresh (dom m ∪ {[0]} : gset Z)) as Hf.
  apply not_elem_of_union in Hf as [H1 H2]. split; [set_solver|]. by apply not_elem_of_dom.
Qed.

(** 198.18.0.0/15 as a signed integer, with room for two names. *)
Definition NET : Z := -971898880.
Definition MASK : Z := - 2 ^ 17.

Definition start : HevMappedDNS := mkDNS 0 2 NET MASK (mkList ∅ 0 0) (mkRB ∅ 0) [0; 0] ∅ 0.

Definition script : list op := [OpFind [97]; OpFind [98]; OpLookup NET; OpFind [99]; OpLookup (Z.lor NET 1)].


Lemma mapped_dns_roundtrip_witness :
  exists i d2, hev_mapped_dns_find alloc start [97] = Some (i, d2) /\ i = 0 /\
  exists outs' d3 d4, exec_all alloc [OpFind [98]] d2 = Some (outs', d3) /\
    hev_mapped_dns_lookup d3 (Z.lor NET i) = Some (Some [97], d4).
Proof.
  eexists 0, _. split; [vm_compute; reflexivity|]. split; [reflexivity|].
  apply (mapped_dns_roundtrip alloc alloc_fresh NET MASK 2 17 start [] [] start [97] 0);
    [reflexivity|lia|lia|reflexivity|reflexivity|reflexivity|vm_compute; reflexivity|lia|simpl; lia].
Defined.

Lemma mapped_dns_destruct_frees_all_witness :
  exists outs d1 d2, exec_all alloc script start = Some (outs, d1) /\
    hev_mapped_dns_destruct d1 = Some d2 /\ nodes d2 = ∅.
Proof. apply (mapped_dns_destruct_frees_all alloc NET MASK 2 start script alloc_fresh); [reflexivity|lia]. Defined.

Lemma start_rel : rel start [].
Proof. apply (rel_construct NET MASK 2); [reflexivity|lia]. Qed.

(** A truncated query. *)
Lemma hev_mapped_dns_handle_safe_witness :
  exists d' c' r res',
    hev_mapped_dns_handle alloc start [0; 7; 1; 0; 0; 1; 0; 0; 0; 0; 0; 0; 9; 97] (replicate 64 0) = Some (d', r, res')
    /\ rel d' c' /\ length res' = 64%nat /\ (r = -1 \/ 12 <= r <= 64).
Proof.
  apply (hev_mapped_dns_handle_safe alloc alloc_fresh start [] _ (replicate 64 0)); [exact start_rel|].
  repeat constructor; unfold is_u8; lia.
Defined.

(** [a.b], identifier 7, recursion desired. *)
Lemma hev_mapped_dns_handle_answers_witness :
  exists i d' res' d'', 0 <= i < 2 /\
    hev_mapped_dns_handle alloc start [0; 7; 1; 0; 0; 1; 0; 0; 0; 0; 0; 0; 1; 97; 1; 98; 0; 0; 1; 0; 1] (replicate 64 0)
      = Some (d', 37, res') /\
    take 37 res' = [0; 7; 129; 128; 0; 1; 0; 1; 0; 0; 0; 0; 1; 97; 1; 98; 0; 0; 1; 0; 1] ++ answer_record (Z.lor NET i) /\
    hev_mapped_dns_lookup d' (Z.lor NET i) = Some (Some [97; 46; 98], d'').
Proof.
  apply (hev_mapped_dns_handle_answers alloc alloc_fresh start [] 17 [[97]; [98]] 0 7 1 0 0 0 0 0 0 0 [] (replicate 64 0));
    [exact start_rel|lia|reflexivity|reflexivity|reflexivity|discriminate| |unfold is_u8; lia|unfold is_u8; lia|simpl; lia|simpl; lia].
  repeat constructor; simpl; lia.
Defined.

End DnsWitness.
