(* ===== verification/Socks5Udp.v ===== *)
(** * UDP over SOCKS5

    Models hev/src/core/src/hev-socks5-udp.c: datagrams in frames on a TCP
    connection (HEV_SOCKS5_TYPE_UDP_IN_TCP) or in SOCKS5 datagrams
    (HEV_SOCKS5_TYPE_UDP_IN_UDP), and the loop that forwards both ways between
    such a channel and a UDP socket. *)

From S2P Require Import Prelude TaskIO Socks5Addr Prog Socks5.

Definition UDP_BUF_SIZE : Z := 1500.

(** The pointer [addr] of a message: NULL, not set yet, or to the memory from the
    address on. *)
Inductive addr_ptr := AddrNull | AddrUnset | Addr (mem : HevSocks5Addr).

(** [HevSocks5UDPMsg]: the memory at [buf], and [len], a [size_t]. *)
Record HevSocks5UDPMsg := mkMsg { m_addr : addr_ptr; m_buf : list Z; m_len : Z }.

(** The first three bytes of [HevSocks5UDPHdr]. *)
Definition udp_hdr (datlen hdrlen : Z) : list Z := mem16 (u16 datlen) ++ [u8 hdrlen].

Section Udp.
(** An object with a [HevSocks5] and the interface's [get_fd] and [binder]. *)
Context {S : Type} (rd : S -> HevSocks5) (wr : HevSocks5 -> S -> S) (hev_socks5_udp_get_fd : S -> Z).
Context (binder : Z -> sockaddr_in6 -> M S Z) (res : Resolver) (copy_buffer_nums : nat).

Definition task_io_yielder (t : HevTaskYieldType) : M S Z :=
  s <- gets rd ;;
  stop <- (match type s with
           | HEV_SOCKS5_TYPE_UDP_IN_UDP =>
               r <- call (SysRecv (fd s) 1) ;;
               if r.1 =? 0 then ret true
               else if r.1 <? 0 then e <- call Errno ;; ret (negb (e =? EAGAIN))
               else ret false
           | _ => ret false
           end) ;;
  if stop : bool then modify (fun s => wr (hev_socks5_set_timeout 0 (rd s)) s) ;; ret (-1) else
  match t with
  | HEV_TASK_YIELD => call (TaskYield false) ;; ret (hev_socks5_task_io_yielder (fun _ => 0) t s)
  | HEV_TASK_WAITIO =>
      if timeout s <? 0 then call (TaskYield true) ;; ret (hev_socks5_task_io_yielder (fun _ => 0) t s)
      else ms <- call (TaskSleep (timeout s)) ;; ret (hev_socks5_task_io_yielder (fun _ => ms) t s)
  end.

(** ** Sending *)

(** The loop that lays out the messages: whether all addresses are valid. *)
Fixpoint addrs_valid (msgv : list HevSocks5UDPMsg) : M S bool :=
  match msgv with
  | [] => ret true
  | m :: msgv =>
      match m_addr m with
      | AddrNull | AddrUnset => undefined
      | Addr a => if hev_socks5_addr_len a <=? 0 then ret false else addrs_valid msgv
      end
  end.

(** The bytes of one message: the three entries of its vector. *)
Definition msg_iov (hdr : Z -> Z -> list Z) (m : HevSocks5UDPMsg) : M S (list (list Z)) :=
  match m_addr m with
  | AddrNull | AddrUnset => undefined
  | Addr a =>
      let addrlen := hev_socks5_addr_len a in
      ab <- read_mem addrlen a ;;
      data <- read_mem (m_len m) (m_buf m) ;;
      ret [hdr (m_len m) addrlen; ab; data]
  end.

Fixpoint msgs_iov (hdr : Z -> Z -> list Z) (msgv : list HevSocks5UDPMsg) : M S (list (list (list Z))) :=
  match msgv with
  | [] => ret []
  | m :: msgv => i <- msg_iov hdr m ;; r <- msgs_iov hdr msgv ;; ret (i :: r)
  end.

(** [datlen] is in network order, [hdrlen] a [uint8_t]. *)
Definition tcp_hdr (len addrlen : Z) : list Z := udp_hdr (htons (u16 len)) (3 + addrlen).
Definition dgram_hdr (len addrlen : Z) : list Z := udp_hdr 0 0.

Definition hev_socks5_udp_sendmmsg_tcp (msgv : list HevSocks5UDPMsg) : M S Z :=
  ok <- addrs_valid msgv ;;
  if negb ok then ret (-1) else
  iov <- msgs_iov tcp_hdr msgv ;;
  fd <- gets hev_socks5_udp_get_fd ;;
  r <- call (SendMsg fd (concat iov) MSG_WAITALL) ;;
  if r <=? 0 then ret (-1) else ret (Z.of_nat (length msgv)).

Definition hev_socks5_udp_sendmmsg_udp (msgv : list HevSocks5UDPMsg) : M S Z :=
  ok <- addrs_valid msgv ;;
  if negb ok then ret (-1) else
  iov <- msgs_iov dgram_hdr msgv ;;
  fd <- gets hev_socks5_udp_get_fd ;;
  call (SendMmsg fd (pair None <$> iov) MSG_WAITALL).

Definition hev_socks5_udp_sendmmsg (msgv : list HevSocks5UDPMsg) : M S Z :=
  s <- gets rd ;;
  match type s with
  | HEV_SOCKS5_TYPE_UDP_IN_TCP => hev_socks5_udp_sendmmsg_tcp msgv
  | HEV_SOCKS5_TYPE_UDP_IN_UDP => hev_socks5_udp_sendmmsg_udp msgv
  | _ => ret (-1)
  end.

(** ** Receiving *)

(** The five bytes of the header: the two receives, and their sum. *)
Definition recv_head (fd flags : Z) : M S (Z * list Z) :=
  r <- call (Recv fd 5 flags) ;;
  if (0 <? r.1) && (r.1 <? 5) then
    r2 <- call (Recv fd (Z.to_nat (5 - r.1)) MSG_WAITALL) ;;
    ret (r.1 + r2.1, r.2 ++ r2.2)
  else ret r.

(** The loop of [hev_socks5_udp_recvmmsg_tcp]: [done] is filled, [msgv] is not;
    the result, and the messages. *)
Fixpoint recv_frames (fd flags : Z) (done msgv : list HevSocks5UDPMsg) : M S (Z * list HevSocks5UDPMsg) :=
  let rlen := Z.of_nat (length done) in
  match msgv with
  | [] => ret (rlen, done)
  | m :: msgv' =>
      r <- recv_head fd flags ;;
      let '(n, h) := r in
      if negb (n =? 5) then ret (if 0 <? rlen then rlen else n, done ++ msgv) else
      let hdrlen := nthb h 2 in
      if hdrlen <? 5 then ret (-1, done ++ msgv) else
      let addrlen := hdrlen - 3 in
      let datlen := ntohs (load16 h 0) in
      if u64 (m_len m - addrlen) <? datlen then ret (-1, done ++ msgv) else
      if Z.of_nat (length (m_buf m)) <? addrlen + datlen then undefined else
      r <- call (RecvMsg fd [Z.to_nat (addrlen - 2); Z.to_nat datlen] MSG_WAITALL) ;;
      let '(n, got) := r in
      let mem := splice 2 got (m_buf m) in
      if negb (n =? addrlen - 2 + datlen)
      then ret (n, done ++ mkMsg (m_addr m) mem (m_len m) :: msgv') else
      let mem := splice 0 [nthb h 3; nthb h 4] mem in
      recv_frames fd flags (done ++ [mkMsg (Addr mem) (drop (Z.to_nat addrlen) mem) datlen]) msgv'
  end.

Definition dontwait (nonblock : bool) : Z := if nonblock then MSG_DONTWAIT else 0.

Definition hev_socks5_udp_recvmmsg_tcp (msgv : list HevSocks5UDPMsg) (nonblock : bool)
  : M S (Z * list HevSocks5UDPMsg) :=
  fd <- gets hev_socks5_udp_get_fd ;;
  recv_frames fd (dontwait nonblock) [] msgv.

(** The loop over the datagrams received: [None] is [return -1]. *)
Fixpoint parse_datagrams (msgv : list HevSocks5UDPMsg) (ms : list (list Z)) : M S (option (list HevSocks5UDPMsg)) :=
  match ms, msgv with
  | [], _ => ret (Some msgv)
  | _, [] => undefined
  | bytes :: ms, m :: msgv =>
      let mem := splice 0 bytes (m_buf m) in
      let len := Z.of_nat (length bytes) in
      if (length mem <? 5)%nat then undefined else
      let addr := drop 3 mem in
      let addrlen := hev_socks5_addr_len addr in
      if len <? 4 then
        r <- parse_datagrams msgv ms ;; ret (cons (mkMsg AddrNull mem 0) <$> r)
      else if addrlen <=? 0 then ret None
      else
        let doff := 3 + addrlen in
        if len <? doff then ret None else
        r <- parse_datagrams msgv ms ;;
        ret (cons (mkMsg (Addr addr) (drop (Z.to_nat doff) mem) (len - doff)) <$> r)
  end.

Definition hev_socks5_udp_recvmmsg_udp (msgv : list HevSocks5UDPMsg) (nonblock : bool)
  : M S (Z * list HevSocks5UDPMsg) :=
  s <- gets id ;;
  let fd := hev_socks5_udp_get_fd s in
  r <- call (RecvMmsg fd ((fun m => Z.to_nat (m_len m)) <$> msgv) (dontwait nonblock)) ;;
  let '(n, ms) := r in
  if n <=? 0 then ret (n, msgv) else
  ok <- (if udp_associated (rd s) =? 0 then
           match ms with
           | [] => undefined
           | (_, from) :: _ =>
               c <- call (SysConnect fd from) ;;
               if c <? 0 then ret false else
               modify (fun s => wr (set_udp_associated 1 (rd s)) s) ;; ret true
           end
         else ret true) ;;
  if negb ok then ret (-1, msgv) else
  p <- parse_datagrams msgv (fst <$> ms) ;;
  match p with
  | None => ret (-1, msgv)
  | Some msgv => ret (n, msgv)
  end.

Definition hev_socks5_udp_recvmmsg (msgv : list HevSocks5UDPMsg) (nonblock : bool)
  : M S (Z * list HevSocks5UDPMsg) :=
  s <- gets rd ;;
  match type s with
  | HEV_SOCKS5_TYPE_UDP_IN_TCP => hev_socks5_udp_recvmmsg_tcp msgv nonblock
  | HEV_SOCKS5_TYPE_UDP_IN_UDP => hev_socks5_udp_recvmmsg_udp msgv nonblock
  | _ => ret (-1, msgv)
  end.

(** ** Forwarding *)

(** The tests at the end of both directions: nothing to do, or an error. *)
Definition fwd_result (r : Z) : M S Z :=
  if r <=? 0 then
    if r =? -1 then e <- call Errno ;; ret (if e =? EAGAIN then 0 else -1) else ret (-1)
  else ret 1.

(** The destination of each message; [None] is [return -1]. *)
Fixpoint fwd_targets (svec : list HevSocks5UDPMsg)
  : M S (option (list (option sockaddr_in6 * list (list Z)))) :=
  match svec with
  | [] => ret (Some [])
  | m :: svec =>
      if m_len m =? 0 then ret None else
      match m_addr m with
      | AddrUnset => undefined
      | AddrNull => ret None
      | Addr a =>
          (if 0 <? hev_socks5_addr_len a then read_mem (hev_socks5_addr_len a) a else ret []) ;;
          s <- gets rd ;;
          let '(r, sa, _) := hev_socks5_addr_into_sockaddr6 res a zero_sockaddr6 (hev_socks5_get_addr_family s) in
          if r <? 0 then ret None else
          data <- read_mem (m_len m) (m_buf m) ;;
          d <- fwd_targets svec ;;
          ret (cons (Some sa, [data]) <$> d)
      end
  end.

(** [bufs]: what is in the buffers before the receive; [bind] is the flag of the
    caller.  The result and the flag. *)
Definition hev_socks5_udp_fwd_f (dst : Z) (bufs : list (list Z)) (bind : bool) : M S (Z * bool) :=
  r <- hev_socks5_udp_recvmmsg ((fun b => mkMsg AddrUnset b UDP_BUF_SIZE) <$> bufs) true ;;
  let '(n, svec) := r in
  if 0 <? n then
    if Z.of_nat (length svec) <? n then undefined else
    d <- fwd_targets (take (Z.to_nat n) svec) ;;
    match d with
    | None => ret (-1, bind)
    | Some dvec =>
        bound <- (if bind then ret true else
                  match dvec with
                  | (Some sa, _) :: _ => b <- binder dst sa ;; ret (negb (b <? 0))
                  | _ => undefined
                  end) ;;
        if negb bound then ret (-1, bind) else
        r <- call (SendMmsg dst dvec MSG_WAITALL) ;;
        x <- fwd_result r ;; ret (x, true)
    end
  else x <- fwd_result n ;; ret (x, bind).

Definition hev_socks5_udp_fwd_b (src : Z) (bufs : list (list Z)) : M S Z :=
  r <- call (RecvMmsg src ((fun _ => Z.to_nat UDP_BUF_SIZE) <$> bufs) MSG_DONTWAIT) ;;
  let '(n, ms) := r in
  if 0 <? n then
    r <- hev_socks5_udp_sendmmsg
           ((fun m => mkMsg (Addr (hev_socks5_addr_from_sockaddr6 (replicate 19 0) m.2).1)
                        m.1 (Z.of_nat (length m.1))) <$> ms) ;;
    fwd_result r
  else fwd_result n.

(** The loop, at most [fuel] rounds of it: whether it ended.  [mem]: the contents
    of the buffers at each round. *)
Fixpoint udp_splice_loop (fuel : nat) (mem : nat -> list (list Z)) (fd_b res_f res_b : Z) (bind : bool) : M S bool :=
  match fuel with
  | 0%nat => ret false
  | Datatypes.S fuel =>
      x <- (if 0 <=? res_f then hev_socks5_udp_fwd_f fd_b (mem fuel) bind else ret (res_f, bind)) ;;
      let '(res_f, bind) := x in
      res_b <- (if 0 <=? res_b then hev_socks5_udp_fwd_b fd_b (mem fuel) else ret res_b) ;;
      let go t := y <- task_io_yielder t ;;
                  if negb (y =? 0) then ret true else udp_splice_loop fuel mem fd_b res_f res_b bind in
      if (0 <? res_f) || (0 <? res_b) then go HEV_TASK_YIELD
      else if Z.land res_f res_b =? 0 then go HEV_TASK_WAITIO
      else ret true
  end.

(** [None]: still running after [fuel] rounds. *)
Definition hev_socks5_udp_splicer (fuel : nat) (mem : nat -> list (list Z)) (fd_b : Z) : M S (option Z) :=
  let size := UDP_BUF_SIZE * Z.of_nat copy_buffer_nums * 2 in
  ok <- call (Malloc size) ;;
  if negb ok then ret (Some (-1)) else
  fd_a <- gets hev_socks5_udp_get_fd ;;
  r <- call (TaskModFd fd_a) ;;
  (if r <? 0 then call (TaskAddFd fd_a) ;; ret tt else ret tt) ;;
  r <- call (TaskAddFd fd_b) ;;
  (if r <? 0 then call (TaskModFd fd_b) ;; ret tt else ret tt) ;;
  ended <- udp_splice_loop fuel mem fd_b 1 1 false ;;
  if negb ended then ret None else
  call (Free size) ;;
  ret (Some 0).

End Udp.
