(* ===== verification/Socks5UdpSpec.v ===== *)
(** * UDP over SOCKS5: framing and safety

    What one side of [Socks5Udp] sends, the other side receives: as frames on a
    byte stream that arrives in pieces of any size, and as datagrams.  Whatever
    arrives, the forwarding loop does not read or write outside its buffers, and
    frees them. *)

From S2P Require Import Prelude TaskIO Socks5Addr Prog Socks5 Socks5Udp.

(** ** Programs that read a stream

    [stream_ok d e inq x inq']: an answer [x] to a receive on [d] of which the bytes
    [inq] are still to come, leaving [inq']: everything, if the call waits for it,
    at least one byte if not, and nothing if there is nothing yet and the call
    does not wait at all. *)
Definition stream_ok (d : Z) {X} (e : sys X) (inq : list Z) : X -> list Z -> Prop :=
  match e in sys X return X -> list Z -> Prop with
  | Recv d' len flags => fun x inq' =>
      if d' =? d then
        (flag flags MSG_DONTWAIT = true /\ x = (-1, []) /\ inq' = inq)
        \/ (x.1 = Z.of_nat (length x.2) /\ inq = x.2 ++ inq'
            /\ if flag flags MSG_WAITALL then length x.2 = len else (1 <= length x.2 <= len)%nat)
      else inq' = inq
  | RecvMsg d' lens flags => fun x inq' =>
      if d' =? d then
        flag flags MSG_WAITALL = true /\ x.1 = Z.of_nat (length x.2) /\ inq = x.2 ++ inq'
        /\ length x.2 = sum_list lens
      else inq' = inq
  | _ => fun x inq' => inq' = inq
  end.

Fixpoint swp {A} (d : Z) (p : prog A) (inq : list Z) (Q : A -> list Z -> Prop) : Prop :=
  match p with
  | Ret a => Q a inq
  | Vis e k => forall x inq', stream_ok d e inq x inq' -> swp d (k x) inq' Q
  | Crash => False
  end.

Definition sspec {S A} (d : Z) (m : M S A) (s : S) (inq : list Z) (P : A -> S -> list Z -> Prop) : Prop :=
  forall R k Q, (forall a s' inq', P a s' inq' -> swp d (k a s') inq' Q) -> swp (A := R) d (m R k s) inq Q.

Lemma sspec_ret {S A} d (a : A) (s : S) inq (P : A -> S -> list Z -> Prop) : P a s inq -> sspec d (ret a) s inq P.
Proof. intros H R k Q HQ. by apply HQ. Qed.
Lemma sspec_bind {S A B} d (m : M S A) (f : A -> M S B) s inq P :
  sspec d m s inq (fun a s' inq' => sspec d (f a) s' inq' P) -> sspec d (bindM m f) s inq P.
Proof. intros H R k Q HQ. apply H. intros a s' inq' Hf. by apply Hf. Qed.
Lemma sspec_gets {S A} d (f : S -> A) s inq (P : A -> S -> list Z -> Prop) : P (f s) s inq -> sspec d (gets f) s inq P.
Proof. intros H R k Q HQ. by apply HQ. Qed.
Lemma sspec_call {S X} d (e : sys X) (s : S) inq (P : X -> S -> list Z -> Prop) :
  (forall x inq', stream_ok d e inq x inq' -> P x s inq') -> sspec d (call e) s inq P.
Proof. intros H R k Q HQ x inq' Hx. auto. Qed.
Lemma sspec_mono {S A} d (m : M S A) s inq (P P' : A -> S -> list Z -> Prop) :
  (forall a s' inq', P a s' inq' -> P' a s' inq') -> sspec d m s inq P -> sspec d m s inq P'.
Proof. intros HP H R k Q HQ. apply H. auto. Qed.

(** ** Datagrams and their encodings *)

Record datagram := mkDgram { dst : address; data : list Z }.

(** The frame on a stream: the length of the data, the length of the header
    (three bytes and the address), the address and the data. *)
Definition frame (d : datagram) : list Z :=
  be16 (Z.of_nat (length (data d))) ++ [3 + Z.of_nat (length (wire (dst d)))] ++ wire (dst d) ++ data d.

(** The SOCKS5 datagram (RFC 1928): reserved bytes, fragment number 0. *)
Definition packet (d : datagram) : list Z := [0; 0; 0] ++ wire (dst d) ++ data d.

(** What a frame can carry: the header's length is one byte, the data's two. *)
Definition framable (d : datagram) : Prop :=
  address_ok (dst d) /\ (length (wire (dst d)) <= 252)%nat /\ Z.of_nat (length (data d)) < 2 ^ 16.

(** A message in memory that holds a datagram. *)
Definition message_of (m : HevSocks5UDPMsg) (d : datagram) : Prop :=
  (exists tl, m_addr m = Addr (wire (dst d) ++ tl)) /\ m_len m = Z.of_nat (length (data d))
  /\ exists tl, m_buf m = data d ++ tl.

(** An empty message with room for a datagram behind [off] bytes. *)
Definition room_for (off : nat) (m : HevSocks5UDPMsg) (d : datagram) : Prop :=
  m_len m = Z.of_nat (length (m_buf m)) /\ m_len m < 2 ^ 64
  /\ (off + length (wire (dst d)) + length (data d) <= length (m_buf m))%nat.

Lemma wire_two a : address_ok a -> exists x y w, wire a = x :: y :: w.
Proof.
  destruct a as [ip port|ip port|nm port]; cbn [wire address_ok]; intros (Hl & _ & _); [| |eauto];
    (destruct ip as [|y ip]; [done|]; cbn; eauto).
Qed.

Lemma addr_len_pos a tl : address_ok a -> 0 < hev_socks5_addr_len (wire a ++ tl).
Proof.
  intros Ha. rewrite addr_len_wire by done. destruct (wire_two a Ha) as (x & y & w & ->). simpl. lia.
Qed.

Lemma read_mem_app {S} R (k : list Z -> S -> prog R) s a b n :
  n = Z.of_nat (length a) -> read_mem n (a ++ b) R k s = k a s.
Proof.
  intros ->. unfold read_mem. rewrite (proj2 (Z.leb_le 0 _)), (proj2 (Z.leb_le _ _)) by (rewrite ?length_app; lia).
  cbn. by rewrite Nat2Z.id, take_app_length.
Qed.

Section Sender.
Context {S : Type}.

Lemma addrs_valid_ok msgv ds : Forall2 message_of msgv ds -> Forall (fun d => address_ok (dst d)) ds ->
  forall R (k : bool -> S -> prog R) s, addrs_valid msgv R k s = k true s.
Proof.
  induction 1 as [|m d msgv ds ((tl & Ha) & _) Hm IH]; intros Hok R k s; [done|].
  apply Forall_cons in Hok as [Hd Hok]. cbn [addrs_valid]. rewrite Ha.
  rewrite (proj2 (Z.leb_gt _ _)) by (by apply addr_len_pos). by apply IH.
Qed.

Lemma msgs_iov_ok hdr msgv ds : Forall2 message_of msgv ds -> Forall (fun d => address_ok (dst d)) ds ->
  forall R (k : list (list (list Z)) -> S -> prog R) s,
  msgs_iov hdr msgv R k s = k ((fun d => [hdr (Z.of_nat (length (data d))) (Z.of_nat (length (wire (dst d))));
                                      wire (dst d); data d]) <$> ds) s.
Proof.
  induction 1 as [|m d msgv ds ((tl & Ha) & Hl & (tl' & Hb)) Hm IH]; intros Hok R k s; [done|].
  apply Forall_cons in Hok as [Hd Hok]. cbn [msgs_iov fmap list_fmap]. unfold bindM at 1, msg_iov. rewrite Ha.
  rewrite addr_len_wire by done. unfold bindM at 1. rewrite read_mem_app by done.
  unfold bindM at 1. rewrite Hb, read_mem_app by done. unfold ret at 1. unfold bindM. rewrite IH by done.
  rewrite Hl. done.
Qed.
End Sender.

Lemma tcp_hdr_ok d : framable d ->
  tcp_hdr (Z.of_nat (length (data d))) (Z.of_nat (length (wire (dst d))))
  = be16 (Z.of_nat (length (data d))) ++ [3 + Z.of_nat (length (wire (dst d)))].
Proof.
  intros (_ & Hw & Hd). unfold tcp_hdr, udp_hdr.
  assert (Hu : is_u16 (Z.of_nat (length (data d)))) by (unfold is_u16; lia).
  rewrite (u16_id (Z.of_nat _)) by done. rewrite mem16_htons by done. by rewrite u8_id by (unfold is_u8; lia).
Qed.

Lemma frames_iov ds : Forall framable ds ->
  concat (concat ((fun d => [tcp_hdr (Z.of_nat (length (data d))) (Z.of_nat (length (wire (dst d))));
                             wire (dst d); data d]) <$> ds)) = concat (frame <$> ds).
Proof.
  induction 1 as [|d ds Hd Hds IH]; [done|]. cbn [fmap list_fmap concat app]. rewrite IH, tcp_hdr_ok by done.
  unfold frame. by rewrite <- !app_assoc.
Qed.

(** ** Receiving frames *)

Lemma frame_split d : address_ok (dst d) -> exists x y w,
  wire (dst d) = x :: y :: w /\
  frame d = (be16 (Z.of_nat (length (data d))) ++ [3 + Z.of_nat (length (wire (dst d))); x; y]) ++ w ++ data d.
Proof.
  intros Ha. destruct (wire_two _ Ha) as (x & y & w & E). exists x, y, w. split; [done|].
  unfold frame. by rewrite E.
Qed.

(** The header arrives whole, or not at all. *)
Lemma recv_head_ok {S} fd flags (s : S) h rest :
  length h = 5%nat -> flag flags MSG_WAITALL = false ->
  sspec fd (recv_head fd flags) s (h ++ rest) (fun r s' inq' => s' = s /\
    ((r = (5, h) /\ inq' = rest) \/ (r = (-1, []) /\ inq' = h ++ rest /\ flag flags MSG_DONTWAIT = true))).
Proof.
  intros Hh Hfl. unfold recv_head. apply sspec_bind, sspec_call. intros [n b] inq1.
  cbn [stream_ok fst snd]. rewrite Z.eqb_refl, Hfl. intros [(Hd & [= -> ->] & ->)|(-> & Hb & Hlen)].
  { cbn. apply sspec_ret. split; [done|]. by right. }
  destruct (decide (length b = 5%nat)) as [E5|E5].
  - rewrite E5. cbn. apply sspec_ret. split; [done|]. left.
    apply (app_inj_1 h b) in Hb as [-> ->]; [done|lia].
  - rewrite (proj2 (Z.ltb_lt 0 _)), (proj2 (Z.ltb_lt _ 5)) by lia. cbn [andb].
    apply sspec_bind, sspec_call. intros [n2 b2] inq2. cbn [stream_ok fst snd]. rewrite Z.eqb_refl.
    intros [(Hd & _)|(-> & -> & Hl2)]; [done|]. change (flag MSG_WAITALL MSG_WAITALL) with true in Hl2.
    cbn beta iota in Hl2. apply sspec_ret. split; [done|]. left. cbn [fst snd].
    rewrite app_assoc in Hb. apply (app_inj_1 h (b ++ b2)) in Hb as [-> ->]; [|rewrite length_app; lia].
    split; [|done]. f_equal. lia.
Qed.

(** The memory of a message after its frame. *)
Lemma fill_frame x y (w dat buf : list Z) :
  (2 + length w + length dat <= length buf)%nat ->
  splice 0 [x; y] (splice 2 (w ++ dat) buf) = x :: y :: w ++ dat ++ drop (2 + length w + length dat) buf.
Proof.
  intros Hb. destruct buf as [|b0 [|b1 buf]]; cbn [length] in Hb; try lia.
  unfold splice. cbn [take drop app length Nat.add]. rewrite length_app, <- app_assoc. done.
Qed.

Lemma ntohs_be16 v : is_u16 v -> forall r, ntohs (load16 (be16 v ++ r) 0) = v.
Proof.
  intros Hv r. change (load16 (be16 v ++ r) 0) with (v / 256 + 256 * (v mod 256)).
  rewrite be16_load by done. unfold ntohs, htons. by apply bswap16_invol.
Qed.

(** One round of the loop on the stream that starts with the frame of [d]. *)
Lemma recv_frames_step {S} fd flags (s : S) m msgv done d more P :
  flag flags MSG_WAITALL = false -> framable d -> room_for 0 m d ->
  (flag flags MSG_DONTWAIT = true ->
   P (if 0 <? Z.of_nat (length done) then Z.of_nat (length done) else -1, done ++ m :: msgv) s (frame d ++ more)) ->
  (forall m', message_of m' d -> sspec fd (recv_frames fd flags (done ++ [m']) msgv) s more P) ->
  sspec fd (recv_frames fd flags done (m :: msgv)) s (frame d ++ more) P.
Proof.
  intros Hfl (Ha & Hw252 & Hdat) (Hml & Hm64 & Hroom) Hno Hgo.
  destruct (frame_split d Ha) as (x & y & w & Ew & Ef).
  set (h := be16 (Z.of_nat (length (data d))) ++ [3 + Z.of_nat (length (wire (dst d))); x; y]) in Ef.
  assert (Hu : is_u16 (Z.of_nat (length (data d)))) by (unfold is_u16; lia).
  assert (Hlw : length (wire (dst d)) = (2 + length w)%nat) by (by rewrite Ew).
  assert (Hdl : ntohs (load16 h 0) = Z.of_nat (length (data d))) by (by apply ntohs_be16).
  assert (Hhl : nthb h 2 = 3 + Z.of_nat (length (wire (dst d)))) by done.
  rewrite Ef in *. rewrite <- !app_assoc in *. cbn [recv_frames]. apply sspec_bind.
  eapply sspec_mono; [|by apply recv_head_ok]. intros r s' inq' (-> & [(-> & ->)|(-> & -> & Hdw)]).
  2: { cbn [Z.eqb Pos.eqb negb]. apply sspec_ret. by apply Hno. }
  cbn [Z.eqb Pos.eqb negb]. rewrite Hdl, Hhl. change (nthb h 3) with x. change (nthb h 4) with y.
  rewrite (proj2 (Z.ltb_ge _ 5)) by lia.
  replace (3 + Z.of_nat (length (wire (dst d))) - 3) with (Z.of_nat (length (wire (dst d)))) by lia.
  rewrite u64_id by lia. rewrite !(proj2 (Z.ltb_ge _ _)) by lia.
  apply sspec_bind, sspec_call. intros [n got] inq2. cbn [stream_ok fst snd]. rewrite Z.eqb_refl.
  intros (_ & -> & Hg & Hgl). cbn [sum_list sum_list_with] in Hgl.
  rewrite app_assoc in Hg. apply (app_inj_1 (w ++ data d) got) in Hg as [<- <-].
  2: { rewrite length_app. cbn in Hgl. lia. }
  rewrite (proj2 (Z.eqb_eq _ _)) by (rewrite length_app; lia). cbn [negb].
  apply Hgo. rewrite fill_frame by lia.
  rewrite Hlw. rewrite Nat2Z.id. split_and!; cbn [m_addr m_len m_buf].
  - eexists. rewrite Ew. cbn [app]. done.
  - done.
  - exists (drop (2 + length w + length (data d)) (m_buf m)). cbn [Nat.add drop]. by rewrite drop_app_length.
Qed.

Lemma recv_frames_ok {S} fd flags : flag flags MSG_WAITALL = false -> forall msgv ds done rest (s : S),
  (length msgv <= length ds)%nat -> Forall framable ds -> Forall2 (room_for 0) msgv (take (length msgv) ds) ->
  sspec fd (recv_frames fd flags done msgv) s (concat (frame <$> ds) ++ rest) (fun r s' inq' => s' = s /\
    exists filled n, (n <= length msgv)%nat /\ length filled = n /\
      inq' = concat (frame <$> drop n ds) ++ rest /\ r.2 = done ++ filled ++ drop n msgv /\
      Forall2 message_of filled (take n ds) /\
      ((n = length msgv /\ r.1 = Z.of_nat (length done + n))
       \/ (flag flags MSG_DONTWAIT = true /\
           r.1 = if (length done + n =? 0)%nat then -1 else Z.of_nat (length done + n)))).
Proof.
  intros Hfl. induction msgv as [|m msgv IH]; intros ds done rest s Hlen Hok Hroom.
  { cbn [recv_frames]. apply sspec_ret. split; [done|]. exists [], 0%nat. cbn. rewrite app_nil_r.
    split_and!; [lia|done|done|done|constructor|]. left. split; [done|]. f_equal. lia. }
  destruct ds as [|d ds]; [simpl in Hlen; lia|]. cbn [length] in *. apply Forall_cons in Hok as [Hd Hok].
  cbn [take] in Hroom. apply Forall2_cons in Hroom as [Hroom1 Hroom].
  cbn [fmap list_fmap concat]. rewrite <- app_assoc. apply recv_frames_step; [done|done|done|..].
  - intros Hdw. split; [done|]. exists [], 0%nat. cbn [fst snd drop take app fmap list_fmap concat].
    rewrite <- app_assoc. split_and!; [lia|done|done|done|constructor|right; split; [done|]].
    rewrite Nat.add_0_r. by destruct done.
  - intros m' Hm'. eapply sspec_mono; [|apply (IH ds (done ++ [m'])); [lia|done|done]].
    intros r s' inq' (-> & filled & n & Hn & Hfn & -> & Hr & HF & Hres). split; [done|].
    exists (m' :: filled), (Datatypes.S n). cbn [length drop take]. rewrite length_app in Hres. cbn [length] in Hres.
    split_and!; [lia|lia|done|rewrite Hr; by rewrite <- app_assoc|by constructor|].
    replace (length done + Datatypes.S n)%nat with (length done + 1 + n)%nat by lia.
    destruct Hres as [[-> ?]|?]; [left; split; [done|done]|by right].
Qed.

(** C36. Datagrams sent over a TCP connection arrive as they were sent.
    [hev_socks5_udp_sendmmsg_tcp] makes one send, of the frames of its messages;
    and [hev_socks5_udp_recvmmsg_tcp] on a stream that starts with those frames,
    however it is cut into pieces, fills its messages with the addresses and the
    data of the first [n] datagrams and returns [n], leaving the stream at the
    start of the next frame: [n] is the number of messages if it may wait, and
    any number up to it (or -1 and nothing consumed) if not.  The messages have
    room for the datagrams, whose addresses take at most 252 bytes. *)
Theorem udp_in_tcp_framing {S} (get_fd : S -> Z) (s : S) msgv ds rest bufs nonblock :
  Forall2 message_of msgv ds -> Forall framable ds ->
  (length bufs <= length ds)%nat -> Forall2 (room_for 0) bufs (take (length bufs) ds) -> bufs <> [] ->
  exists iov k, run (hev_socks5_udp_sendmmsg_tcp get_fd msgv) s = Vis (SendMsg (get_fd s) iov MSG_WAITALL) k /\
    k (Z.of_nat (length (concat iov))) = Ret (Z.of_nat (length msgv), s) /\
    swp (get_fd s) (run (hev_socks5_udp_recvmmsg_tcp get_fd bufs nonblock) s) (concat iov ++ rest)
      (fun '(r, got, s') inq' => s' = s /\ exists filled n, (n <= length bufs)%nat /\
         got = filled ++ drop n bufs /\ Forall2 message_of filled (take n ds) /\
         inq' = concat (frame <$> drop n ds) ++ rest /\
         (r = Z.of_nat n /\ (0 < n)%nat /\ (nonblock = false -> n = length bufs)
          \/ r = -1 /\ n = 0%nat /\ nonblock = true)).
Proof.
  intros Hm Hok Hlen Hroom Hne.
  assert (Hads : Forall (fun d => address_ok (dst d)) ds) by (eapply Forall_impl; [exact Hok|]; by intros d (? & _)).
  set (iovs := (fun d => [tcp_hdr (Z.of_nat (length (data d))) (Z.of_nat (length (wire (dst d)))); wire (dst d); data d]) <$> ds).
  exists (concat iovs), (fun r => run (if r <=? 0 then ret (-1) else ret (Z.of_nat (length msgv))) s).
  pose proof (frames_iov ds Hok) as Hfr. fold iovs in Hfr. split_and!.
  - unfold run, hev_socks5_udp_sendmmsg_tcp, bindM at 1. rewrite (addrs_valid_ok msgv ds) by done.
    cbn [negb]. unfold bindM at 1. by rewrite (msgs_iov_ok _ msgv ds).
  - rewrite Hfr. destruct ds as [|d ds]; [destruct bufs; [done|simpl in Hlen; lia]|].
    cbn [fmap list_fmap concat]. rewrite (proj2 (Z.leb_gt _ 0)); [done|]. rewrite length_app.
    unfold frame. rewrite !length_app, length_be16. simpl. lia.
  - rewrite Hfr. unfold hev_socks5_udp_recvmmsg_tcp, run, bindM at 1, gets at 1.
    set (fl := dontwait nonblock).
    assert (Hfl : flag fl MSG_WAITALL = false) by (by destruct nonblock).
    apply (recv_frames_ok (get_fd s) fl Hfl bufs ds [] rest s Hlen Hok Hroom).
    intros [r got] s' inq' (-> & filled & n & Hn & Hfn & -> & Hgot & HF & Hres). cbn [fst snd] in *. cbn [swp].
    split; [done|]. exists filled, n. split_and!; [done|done|done|done|]. cbn [length Nat.add] in Hres.
    destruct Hres as [[-> ->]|[Hdw ->]].
    + left. split_and!; [done| |done]. destruct bufs; [done|simpl; lia].
    + assert (nonblock = true) as -> by (destruct nonblock; [done|by vm_compute in Hdw]).
      destruct n as [|n]; cbn [Nat.eqb]; [right; by split_and!|left; split_and!; [done|lia|done]].
Qed.

(** ** Datagrams *)

Lemma parse_datagrams_ok {S} ds : forall msgv, Forall (fun d => address_ok (dst d)) ds ->
  (length ds <= length msgv)%nat -> Forall2 (room_for 3) (take (length ds) msgv) ds ->
  exists filled, Forall2 message_of filled ds /\
    forall R (k : _ -> S -> prog R) s,
      parse_datagrams msgv (packet <$> ds) R k s = k (Some (filled ++ drop (length ds) msgv)) s.
Proof.
  induction ds as [|d ds IH]; intros msgv Hok Hlen Hroom.
  { exists []. split; [constructor|]. intros R k s. by destruct msgv. }
  destruct msgv as [|m msgv]; cbn [length] in *; [lia|]. apply Forall_cons in Hok as [Ha Hok].
  cbn [take] in Hroom. apply Forall2_cons in Hroom as [(Hml & Hm64 & Hroom1) Hroom].
  destruct (IH msgv Hok ltac:(lia) Hroom) as (filled & HF & Hp).
  destruct (wire_two _ Ha) as (x & y & w & Ew).
  set (tl := drop (length (packet d)) (m_buf m)).
  assert (Hmem : splice 0 (packet d) (m_buf m) = [0; 0; 0] ++ wire (dst d) ++ data d ++ tl).
  { rewrite splice_front. unfold packet. by rewrite <- !app_assoc. }
  assert (Hpl : length (packet d) = (3 + length (wire (dst d)) + length (data d))%nat).
  { unfold packet. rewrite !length_app. simpl. lia. }
  assert (Hlw : length (wire (dst d)) = (2 + length w)%nat) by (by rewrite Ew).
  exists (mkMsg (Addr (wire (dst d) ++ data d ++ tl)) (data d ++ tl) (Z.of_nat (length (data d))) :: filled). split.
  { constructor; [|done]. split_and!; [by eexists|done|by eexists]. }
  intros R k s. cbn [fmap list_fmap parse_datagrams]. rewrite Hmem.
  rewrite (proj2 (Nat.ltb_ge _ _)) by (rewrite !length_app; simpl; lia).
  change (drop 3 ([0; 0; 0] ++ wire (dst d) ++ data d ++ tl)) with (wire (dst d) ++ data d ++ tl).
  rewrite (proj2 (Z.ltb_ge _ 4)) by lia. rewrite addr_len_wire by done.
  rewrite (proj2 (Z.leb_gt _ 0)) by lia. rewrite (proj2 (Z.ltb_ge _ _)) by lia.
  unfold bindM. fold (packet <$> ds). rewrite Hp. unfold ret. cbn [fmap option_fmap option_map app drop].
  replace (Z.to_nat (3 + Z.of_nat (length (wire (dst d))))) with (3 + length (wire (dst d)))%nat by lia.
  cbn [Nat.add drop]. rewrite drop_app_length. do 5 f_equal. lia.
Qed.

(** The object after a first datagram: the socket is connected to its sender. *)
Definition associated {S} (rd : S -> HevSocks5) (wr : HevSocks5 -> S -> S) (s : S) : S :=
  wr (set_udp_associated 1 (rd s)) s.

(** Datagrams sent over UDP arrive as they were sent.
    [hev_socks5_udp_sendmmsg_udp] makes one call, with the RFC 1928 datagram of
    each of its messages; and when the kernel hands such datagrams over,
    [hev_socks5_udp_recvmmsg_udp] returns their number and messages with their
    addresses and data, connecting the socket to the sender of the first one if
    no sender was known (and failing if that fails). *)
Theorem udp_in_udp_roundtrip {S} (rd : S -> HevSocks5) (wr : HevSocks5 -> S -> S) (get_fd : S -> Z)
    (s : S) msgv ds bufs nonblock sa sas :
  Forall2 message_of msgv ds -> Forall (fun d => address_ok (dst d)) ds ->
  (length ds <= length bufs)%nat -> Forall2 (room_for 3) (take (length ds) bufs) ds ->
  length ds = length (sa :: sas) ->
  exists iovs, run (hev_socks5_udp_sendmmsg_udp get_fd msgv) s
      = Vis (SendMmsg (get_fd s) (pair None <$> iovs) MSG_WAITALL) (fun r => Ret (r, s))
    /\ concat (A := Z) <$> iovs = packet <$> ds /\
  exists k filled, run (hev_socks5_udp_recvmmsg_udp rd wr get_fd bufs nonblock) s
      = Vis (RecvMmsg (get_fd s) ((fun m => Z.to_nat (m_len m)) <$> bufs) (dontwait nonblock)) k
    /\ Forall2 message_of filled ds /\
    let n := Z.of_nat (length ds) in
    let done := (n, filled ++ drop (length ds) bufs) in
    if udp_associated (rd s) =? 0
    then exists k2, k (n, zip (packet <$> ds) (sa :: sas)) = Vis (SysConnect (get_fd s) sa) k2 /\
           forall c, k2 c = if c <? 0 then Ret (-1, bufs, s) else Ret (done, associated rd wr s)
    else k (n, zip (packet <$> ds) (sa :: sas)) = Ret (done, s).
Proof.
  intros Hm Hok Hlen Hroom Hsas.
  destruct (parse_datagrams_ok (S := S) ds bufs Hok Hlen Hroom) as (filled & HF & Hp).
  eexists. split_and!.
  - unfold run, hev_socks5_udp_sendmmsg_udp, bindM at 1. rewrite (addrs_valid_ok msgv ds) by done.
    cbn [negb]. unfold bindM at 1. by rewrite (msgs_iov_ok _ msgv ds).
  - rewrite <- list_fmap_compose. apply list_fmap_ext. intros i d _. cbn. by rewrite app_nil_r.
  - eexists _, filled. split; [reflexivity|]. split; [done|]. cbn zeta.
    assert (Hn : (Z.of_nat (length ds) <=? 0) = false) by (apply Z.leb_gt; rewrite Hsas; cbn [length]; lia).
    assert (Hz : fst <$> zip (packet <$> ds) (sa :: sas) = packet <$> ds).
    { apply fst_zip. rewrite length_fmap. lia. }
    cbn beta iota. rewrite Hn. change (id s) with s. destruct (udp_associated (rd s) =? 0).
    + destruct (zip (packet <$> ds) (sa :: sas)) as [|[b sa'] z] eqn:Ez; [destruct ds; done|].
      assert (sa' = sa) as -> by (destruct ds; [done|]; by injection Ez).
      eexists. split; [reflexivity|]. intros c. unfold bindM. destruct (c <? 0); [done|].
      cbn -[parse_datagrams fmap]. rewrite Hz, Hp. done.
    + unfold bindM, ret at 1. cbn [negb]. rewrite Hz, Hp. done.
Qed.

(** ** Every behaviour of the peers *)

(** Bytes allocated and not freed. *)
Definition item_alloc (i : item) (n : Z) : Z :=
  match i with
  | @Item _ (Malloc size) x => if x : bool then n + size else n
  | @Item _ (Free size) _ => n - size
  | _ => n
  end.
Definition allocated (tr : list item) : Z := foldl (fun n i => item_alloc i n) 0 tr.

Lemma allocated_snoc tr i : allocated (tr ++ [i]) = item_alloc i (allocated tr).
Proof. unfold allocated. by rewrite foldl_app. Qed.

(** Nothing acquired, nothing released. *)
Definition neutral (tr tr' : list item) : Prop :=
  allocated tr' = allocated tr /\ open_fds tr' = open_fds tr.

#[global] Instance neutral_preorder : PreOrder neutral.
Proof. split; [by split|]. intros x y z [? ?] [? ?]. split; congruence. Qed.

Definition harmless {X} (e : sys X) : bool :=
  match e with Malloc _ | Free _ | Socket _ _ | Close _ => false | _ => true end.

Lemma spec_harmless {S X} (e : sys X) (s : S) tr (P : X -> S -> list item -> Prop) :
  harmless e = true -> (forall x tr', answer_ok tr e x -> neutral tr tr' -> P x s tr') -> spec (call e) s tr P.
Proof.
  intros He HP. apply spec_call. intros x Hx. apply HP; [done|].
  split; rewrite ?allocated_snoc, ?open_fds_snoc; by destruct e.
Qed.

Ltac us1 :=
  match goal with
  | |- Prog.spec (bindM _ _) _ _ _ => apply spec_bind
  | |- Prog.spec (gets _) _ _ _ => apply spec_gets
  | |- Prog.spec (modify _) _ _ _ => apply spec_modify
  | |- Prog.spec (ret _) _ _ _ => apply spec_ret
  | |- Prog.spec (call _) _ _ _ => apply spec_harmless; [reflexivity|]; intros ? ? ? ?
  | |- Prog.spec (if ?b then _ else _) _ _ _ => let E := fresh "E" in destruct b eqn:E; bool_to_prop
  end; cbn beta iota zeta delta [id].
Ltac us := repeat us1.
Ltac neut := first [done | repeat (etransitivity; [eassumption|]); done].

Section Safe.
Context {S : Type} (rd : S -> HevSocks5) (wr : HevSocks5 -> S -> S) (get_fd : S -> Z).
Context (binder : Z -> sockaddr_in6 -> M S Z) (res : Resolver).
Hypothesis rd_wr : forall b s, rd (wr b s) = b.
(** The binder of the class touches neither the object nor memory. *)
Hypothesis binder_ok : forall fd sa s tr,
  spec (binder fd sa) s tr (fun _ s' tr' => s' = s /\ neutral tr tr').

(** A message that can be forwarded without leaving its buffer. *)
Definition sane (m : HevSocks5UDPMsg) : Prop :=
  0 <= m_len m <= Z.of_nat (length (m_buf m)) /\
  match m_addr m with
  | AddrUnset => False
  | AddrNull => True
  | Addr a => hev_socks5_addr_len a <= Z.of_nat (length a)
  end.

Definition udp_object (s : S) : Prop := type (rd s) = HEV_SOCKS5_TYPE_UDP_IN_UDP.

Lemma read_mem_spec n m (s : S) tr (P : list Z -> S -> list item -> Prop) :
  0 <= n <= Z.of_nat (length m) -> P (take (Z.to_nat n) m) s tr -> spec (read_mem n m) s tr P.
Proof.
  intros Hn HP. unfold read_mem. rewrite (proj2 (Z.leb_le 0 n)), (proj2 (Z.leb_le n _)) by lia. by apply spec_ret.
Qed.

Lemma yielder_spec t s tr :
  spec (task_io_yielder rd wr t) s tr (fun _ s' tr' => type (rd s') = type (rd s) /\ neutral tr tr').
Proof.
  unfold task_io_yielder. us1. us1. us1.
  apply (spec_mono _ _ _ (fun _ s' tr' => s' = s /\ neutral tr tr')).
  - intros stop s' tr' [-> Hn]. destruct stop.
    + us. split; [|done]. rewrite rd_wr. unfold hev_socks5_set_timeout. by case_test.
    + destruct t; us; (split; [done|neut]).
  - destruct (type (rd s)); us; (split; [done|neut]).
Qed.

Lemma parse_datagrams_safe ms : forall msgv (s : S) tr,
  Forall2 (fun b m => (length b <= length (m_buf m))%nat /\ (5 <= length (m_buf m))%nat) ms (take (length ms) msgv) ->
  spec (parse_datagrams msgv ms) s tr (fun r s' tr' => s' = s /\ tr' = tr /\
    match r with
    | None => True
    | Some v => (length ms <= length v)%nat /\ Forall sane (take (length ms) v)
    end).
Proof.
  induction ms as [|b ms IH]; intros msgv s tr HF.
  { destruct msgv; cbn [parse_datagrams]; us; (split_and!; [done|done|cbn; lia|constructor]). }
  destruct msgv as [|m msgv]; [by apply Forall2_nil_inv_r in HF|]. cbn [take length] in HF.
  apply Forall2_cons in HF as [[Hb H5] HF]. cbn [parse_datagrams].
  assert (Hl : length (splice 0 b (m_buf m)) = length (m_buf m)) by (apply length_splice; simpl; lia).
  rewrite (proj2 (Nat.ltb_ge _ _)) by lia. cbn zeta.
  assert (Hrest : forall m', sane m' ->
    spec (r <- parse_datagrams msgv ms ;; ret (cons m' <$> r)) s tr (fun r s' tr' => s' = s /\ tr' = tr /\
      match r with
      | None => True
      | Some v => (length (b :: ms) <= length v)%nat /\ Forall sane (take (length (b :: ms)) v)
      end)).
  { intros m' Hm'. us1. eapply spec_mono; [|apply IH, HF]. intros r s' tr' (-> & -> & Hr). us.
    split_and!; [done..|]. destruct r as [v|]; cbn; [|done]. destruct Hr as [? ?]. split; [lia|by constructor]. }
  set (addr := drop 3 (splice 0 b (m_buf m))) in *.
  assert (Hla : length addr = (length (m_buf m) - 3)%nat) by (subst addr; rewrite length_drop; lia).
  destruct (Z.ltb_spec (Z.of_nat (length b)) 4); [apply Hrest; split; cbn; [lia|done]|].
  destruct (Z.leb_spec (hev_socks5_addr_len addr) 0); [by us|].
  destruct (Z.ltb_spec (Z.of_nat (length b)) (3 + hev_socks5_addr_len addr)); [by us|].
  apply Hrest. split; cbn [m_len m_buf m_addr]; [rewrite length_drop|]; lia.
Qed.

Lemma recvmmsg_udp_spec bufs nb s tr :
  Forall (fun m => m_len m = Z.of_nat (length (m_buf m)) /\ 5 <= m_len m) bufs ->
  spec (hev_socks5_udp_recvmmsg_udp rd wr get_fd bufs nb) s tr (fun r s' tr' =>
    type (rd s') = type (rd s) /\ neutral tr tr' /\
    (0 < r.1 -> r.1 <= Z.of_nat (length r.2) /\ Forall sane (take (Z.to_nat r.1) r.2))).
Proof.
  intros Hb. unfold hev_socks5_udp_recvmmsg_udp. us1. us1. us1. us1. destruct x as [n ms].
  destruct H as [Hn Hms]. cbn [fst snd] in *. rewrite length_fmap in Hn.
  destruct (Z.leb_spec n 0); [us; split_and!; [done|done|cbn; lia]|].
  destruct (Hms ltac:(lia)) as [Hlen HF]. us1.
  apply (spec_mono _ _ _ (fun _ s' tr'' => type (rd s') = type (rd s) /\ neutral tr tr'')).
  2: { destruct (udp_associated (rd s) =? 0); [|by us]. destruct ms as [|[b from] ms]; [simpl in Hlen; lia|].
       us; (split; [|neut]); [done|]. by rewrite rd_wr. }
  intros ok s' tr'' [Ht Hne]. destruct ok; cbn [negb]; [|us; split_and!; [done|done|cbn; lia]].
  us1. eapply spec_mono; [|apply parse_datagrams_safe].
  - intros r s2 tr2 (-> & -> & Hr). destruct r as [v|]; us; (split_and!; [done|done|cbn [fst snd]; try lia]).
    intros _. rewrite length_fmap in Hr. replace (Z.to_nat n) with (length ms) by lia.
    destruct Hr. split; [lia|done].
  - rewrite length_fmap. replace (Z.to_nat n) with (length ms) in HF by lia.
    rewrite <- fmap_take in HF. apply Forall2_fmap_r in HF. apply Forall2_fmap_l.
    apply (Forall_take _ (length ms)) in Hb. apply Forall2_same_length_lookup.
    split; [by apply Forall2_length in HF|].
    intros i x y Hx Hy. pose proof (Forall2_lookup_lr _ _ _ _ _ _ HF Hx Hy) as (_ & Hl & _).
    pose proof (Forall_lookup_1 _ _ _ _ Hb Hy) as [? ?]. cbn in *. split; lia.
Qed.

Lemma fwd_targets_spec svec : forall s tr, Forall sane svec ->
  spec (fwd_targets rd res svec) s tr (fun r s' tr' => s' = s /\ tr' = tr /\
    match r with None => True | Some d => Forall2 (fun _ x => exists sa, x.1 = Some sa) svec d end).
Proof.
  induction svec as [|m svec IH]; intros s tr HF; cbn [fwd_targets]; [us; split_and!; done || constructor|].
  apply Forall_cons in HF as [[Hm Ha] HF]. case_test; [by us|].
  destruct (m_addr m) as [| |a]; [by us|done|]. us1.
  apply (spec_mono _ _ _ (fun _ s' tr' => s' = s /\ tr' = tr)).
  2: { case_test; [apply read_mem_spec; [lia|done]|by us]. }
  intros _ s' tr' [-> ->]. us1. us1.
  destruct (hev_socks5_addr_into_sockaddr6 res a zero_sockaddr6 (hev_socks5_get_addr_family (rd s))) as [[r sa] fam].
  case_test; [by us|]. us1. apply read_mem_spec; [lia|]. us1. eapply spec_mono; [|by apply IH].
  intros d s' tr' (-> & -> & Hd). us. split_and!; [done..|]. destruct d as [d|]; cbn; [|done].
  constructor; [by exists sa|done].
Qed.

Lemma fwd_result_spec r (s : S) tr :
  spec (fwd_result r) s tr (fun x s' tr' => s' = s /\ neutral tr tr' /\ (x = 0 \/ x = 1 \/ x = -1)).
Proof. unfold fwd_result. us; (split_and!; [done|neut|]); auto. destruct (_ =? EAGAIN); auto. Qed.

Definition buffers_ok (bufs : list (list Z)) : Prop := Forall (fun b => length b = 1500%nat) bufs.

Lemma fwd_f_spec dst bufs bind s tr :
  udp_object s -> buffers_ok bufs ->
  spec (hev_socks5_udp_fwd_f rd wr get_fd binder res dst bufs bind) s tr (fun r s' tr' =>
    udp_object s' /\ neutral tr tr').
Proof.
  intros Ht Hb. unfold hev_socks5_udp_fwd_f, hev_socks5_udp_recvmmsg. us1. us1. us1. rewrite Ht.
  eapply spec_mono; [|apply recvmmsg_udp_spec].
  2: { apply Forall_fmap. eapply Forall_impl; [exact Hb|]. intros b Hl. cbn. rewrite Hl. unfold UDP_BUF_SIZE. lia. }
  intros [n svec] s1 tr1 (Ht1 & Hn1 & Hsane). cbn [fst snd] in *. unfold udp_object in *.
  destruct (Z.ltb_spec 0 n) as [Hpos|Hneg].
  2: { us1. eapply spec_mono; [|apply fwd_result_spec]. intros x s2 tr2 (-> & ? & _). us. split; [congruence|neut]. }
  destruct (Hsane Hpos) as [Hle HF]. rewrite (proj2 (Z.ltb_ge _ _)) by lia. us1.
  eapply spec_mono; [|by apply fwd_targets_spec]. intros d s2 tr2 (-> & -> & Hd).
  destruct d as [dvec|]; [|us; split; [congruence|neut]]. us1.
  apply (spec_mono _ _ _ (fun _ s' tr' => s' = s1 /\ neutral tr1 tr')).
  - intros bound s2 tr2 [-> Hn2]. destruct bound; cbn [negb]; [|us; split; [congruence|neut]].
    us1. us1. us1. eapply spec_mono; [|apply fwd_result_spec]. intros y s3 tr3 (-> & ? & _). us. split; [congruence|neut].
  - destruct bind; [by us|]. destruct dvec as [|[o io] dvec].
    { apply Forall2_nil_inv_r in Hd. apply (f_equal length) in Hd. rewrite length_take in Hd. simpl in Hd. lia. }
    destruct (Forall2_cons_inv_r _ _ _ _ Hd) as (m & svec' & [sa Hsa] & _ & _). cbn in Hsa. subst o.
    us1. eapply spec_mono; [|apply binder_ok]. intros b s3 tr3 [-> ?]. by us.
Qed.

Lemma spec_eq {A} (m : M S A) (a : A) s tr (P : A -> S -> list item -> Prop) :
  (forall R (k : A -> S -> prog R), m R k s = k a s) -> P a s tr -> spec m s tr P.
Proof. intros Hm HP R k Q HQ. rewrite Hm. by apply HQ. Qed.

Lemma fwd_b_messages ms ds : ds = (fun m => mkDgram (address_of m.2) m.1) <$> ms ->
  Forall (fun m => sockaddr_ok m.2) ms ->
  Forall2 message_of ((fun m => mkMsg (Addr (hev_socks5_addr_from_sockaddr6 (replicate 19 0) m.2).1)
                                  m.1 (Z.of_nat (length m.1))) <$> ms) ds
  /\ Forall (fun d => address_ok (dst d)) ds.
Proof.
  intros -> HF. split.
  - induction HF as [|[b sa] ms Hsa HF IH]; [constructor|]. constructor; [|exact IH].
    destruct (from_sockaddr6_wire (replicate 19 0) sa) as (tl & E' & _); [rewrite length_replicate; lia|done|].
    cbn [fst snd] in *. rewrite E'. split_and!; cbn; [by eexists|done|exists []; by rewrite app_nil_r].
  - apply Forall_fmap. eapply Forall_impl; [exact HF|]. intros m Hm. cbn. by apply address_of_ok.
Qed.

Lemma fwd_b_spec src bufs s tr :
  udp_object s ->
  spec (hev_socks5_udp_fwd_b rd get_fd src bufs) s tr (fun _ s' tr' => udp_object s' /\ neutral tr tr').
Proof.
  intros Ht. unfold hev_socks5_udp_fwd_b. us1. us1. destruct x as [n ms]. destruct H as [_ Hms]. cbn [fst snd] in *.
  destruct (Z.ltb_spec 0 n) as [Hpos|Hneg].
  2: { eapply spec_mono; [|apply fwd_result_spec]. intros x s2 tr2 (-> & ? & _). split; [done|neut]. }
  destruct (Hms Hpos) as [_ HF].
  assert (Hsa : Forall (fun m => sockaddr_ok m.2) ms).
  { apply Forall_forall. intros m Hm. apply list_elem_of_lookup in Hm as [i Hm].
    by destruct (Forall2_lookup_l _ _ _ _ _ HF Hm) as (n' & _ & _ & _ & ?). }
  destruct (fwd_b_messages ms _ eq_refl Hsa) as [Hmsg Hads]. us1.
  unfold hev_socks5_udp_sendmmsg. us1. us1. rewrite Ht. unfold hev_socks5_udp_sendmmsg_udp. us1.
  eapply spec_eq; [intros R k; by apply (addrs_valid_ok _ _ Hmsg Hads)|]. cbn [negb]. us1.
  eapply spec_eq; [intros R k; by apply (msgs_iov_ok dgram_hdr _ _ Hmsg Hads)|]. us1. us1. us1.
  eapply spec_mono; [|apply fwd_result_spec]. intros y s2 tr2 (-> & ? & _). split; [done|neut].
Qed.

Lemma udp_splice_loop_spec fuel mem dst : (forall i, buffers_ok (mem i)) ->
  forall res_f res_b bind s tr, udp_object s ->
  spec (udp_splice_loop rd wr get_fd binder res fuel mem dst res_f res_b bind) s tr (fun _ s' tr' => neutral tr tr').
Proof.
  intros Hmem. induction fuel as [|fuel IH]; intros res_f res_b bind s tr Ht; cbn [udp_splice_loop]; [by us|].
  us1. apply (spec_mono _ _ _ (fun _ s' tr' => udp_object s' /\ neutral tr tr')).
  2: { case_test; [by apply fwd_f_spec|by us]. }
  intros [rf bnd] s1 tr1 [Ht1 Hn1]. us1. apply (spec_mono _ _ _ (fun _ s' tr' => udp_object s' /\ neutral tr tr')).
  2: { case_test; [eapply spec_mono; [|by apply fwd_b_spec]; intros x s2 tr2 [? ?]; split; [done|neut]|by us]. }
  intros rb s2 tr2 [Ht2 Hn2].
  assert (Hgo : forall t, spec (y <- task_io_yielder rd wr t ;;
    if negb (y =? 0) then ret true else udp_splice_loop rd wr get_fd binder res fuel mem dst rf rb bnd) s2 tr2
    (fun _ s' tr' => neutral tr tr')).
  { intros t. us1. eapply spec_mono; [|apply yielder_spec]. intros y s3 tr3 [Ht3 Hn3].
    case_test; [us; neut|]. eapply spec_mono; [|apply IH; unfold udp_object in *; congruence].
    intros x s4 tr4 Hn4. neut. }
  case_test; [by apply Hgo|]. case_test; [by apply Hgo|by us].
Qed.

(** The forwarding loop of a UDP association is safe against its peers.  For
    every behaviour of the client, of the other hosts, of the kernel and of the
    task system, whatever is in the buffers, and for any number of rounds,
    [hev_socks5_udp_splicer] on an object of type HEV_SOCKS5_TYPE_UDP_IN_UDP does
    not use an address that was not set or read or write outside the buffers,
    opens and closes no descriptor, and when it returns has freed the buffers;
    if they could not be allocated it returns -1. *)
Theorem udp_splicer_safe nums fuel mem dst s :
  udp_object s -> (forall i, buffers_ok (mem i)) ->
  wp (run (hev_socks5_udp_splicer rd wr get_fd binder res nums fuel mem dst) s) [] (fun tr r =>
    open_fds tr = [] /\
    match r.1 with
    | Some _ => allocated tr = 0
    | None => allocated tr = UDP_BUF_SIZE * Z.of_nat nums * 2
    end).
Proof.
  intros Ht Hmem. apply (spec_run _ s [] (fun r _ tr => open_fds tr = [] /\
    match r with Some _ => allocated tr = 0 | None => allocated tr = UDP_BUF_SIZE * Z.of_nat nums * 2 end)).
  unfold hev_socks5_udp_splicer. us1. apply spec_call. intros ok _. destruct ok; cbn [negb]; [|by us].
  set (tr0 := [] ++ _). assert (H0 : allocated tr0 = UDP_BUF_SIZE * Z.of_nat nums * 2 /\ open_fds tr0 = [])
    by (unfold tr0, allocated; cbn; split; [lia|done]).
  clearbody tr0. us1. us1. us1. us1. us1.
  apply (spec_mono _ _ _ (fun _ s' tr' => s' = s /\ neutral tr0 tr')).
  2: { case_test; us; (split; [done|neut]). }
  intros _ s1 tr1 [-> Hn1]. us1. us1. us1.
  apply (spec_mono _ _ _ (fun _ s' tr' => s' = s /\ neutral tr0 tr')).
  2: { case_test; us; (split; [done|neut]). }
  intros _ s2 tr2 [-> Hn2]. us1. eapply spec_mono; [|by apply udp_splice_loop_spec].
  intros ended s3 tr3 Hn3. assert (Hn : neutral tr0 tr3) by neut. destruct Hn as [Ha Ho].
  destruct ended; cbn [negb]; us1.
  - apply spec_call. intros y _. us1. rewrite allocated_snoc, open_fds_snoc. cbn. split; [|lia].
    rewrite Ho. by destruct H0.
  - split; [rewrite Ho; by destruct H0|rewrite Ha; by destruct H0].
Qed.
End Safe.

(** One byte of a header, and then the end of the stream. *)
Lemma short_header {S} (get_fd : S -> Z) s m msgv tr R (k : Z * list HevSocks5UDPMsg -> S -> prog R) Q :
  wp (hev_socks5_udp_recvmmsg_tcp get_fd (m :: msgv) true R k s) tr Q ->
  exists tr', wp (k (1, m :: msgv) s) tr' Q.
Proof.
  intros Hwp.
  assert (H1 : answer_ok tr (Recv (get_fd s) 5 MSG_DONTWAIT) (1, [0])).
  { split; [apply Forall_singleton; unfold is_u8; lia|]. vm_compute. split; [reflexivity|discriminate]. }
  assert (H2 : forall tr', answer_ok tr' (Recv (get_fd s) 4 MSG_WAITALL) (0, [])).
  { intros tr'. split; [constructor|]. right. simpl. lia. }
  eexists. exact (Hwp (1, [0]) H1 (0, []) (H2 _)).
Qed.

(** C40. Over TCP the loop is not safe.  If the connection ends within the header
    of a frame, [hev_socks5_udp_recvmmsg_tcp] returns the number of bytes it got,
    which [hev_socks5_udp_fwd_f] takes for a number of messages: it goes on to use
    the address of a message that was never set.  Whatever one wants to conclude
    of its runs, not all of them are free of undefined behaviour. *)
Theorem udp_fwd_f_short_header_unsafe {S} (rd : S -> HevSocks5) (wr : HevSocks5 -> S -> S) (get_fd : S -> Z)
    binder res dst bufs bind s tr (Q : list item -> Z * bool * S -> Prop) :
  type (rd s) = HEV_SOCKS5_TYPE_UDP_IN_TCP -> bufs <> [] ->
  ~ wp (run (hev_socks5_udp_fwd_f rd wr get_fd binder res dst bufs bind) s) tr Q.
Proof.
  intros Ht Hne Hwp. destruct bufs as [|b bufs]; [done|].
  unfold hev_socks5_udp_fwd_f, hev_socks5_udp_recvmmsg, run, bindM at 1 2, gets at 1 in Hwp. rewrite Ht in Hwp.
  apply short_header in Hwp as [tr' Hwp]. cbn [Z.ltb Z.compare] in Hwp.
  rewrite (proj2 (Z.ltb_ge _ 1)) in Hwp by (cbn [length]; lia). exact Hwp.
Qed.

Module UdpWitness.

(** The object is the [HevSocks5] itself. *)
Definition obj (t : HevSocks5Type) : HevSocks5 := set_fd 3 (hev_socks5_construct t).
Definition rd (s : HevSocks5) : HevSocks5 := s.
Definition wr (b _ : HevSocks5) : HevSocks5 := b.

Definition hello : datagram := mkDgram (AIPv4 [8; 8; 8; 8] 53) [104; 105].
Definition message : HevSocks5UDPMsg := mkMsg (Addr (wire (dst hello))) [104; 105] 2.
Definition buffer : HevSocks5UDPMsg := mkMsg AddrUnset (replicate 64 0) 64.

Lemma message_hello : message_of message hello.
Proof. split_and!; [by exists []|done|by exists []]. Qed.

Lemma hello_ok : address_ok (dst hello).
Proof. split_and!; [done|repeat constructor; unfold is_u8; lia|unfold is_u16; lia]. Qed.

Lemma udp_in_tcp_framing_witness :
  exists iov k, run (hev_socks5_udp_sendmmsg_tcp fd [message]) (obj HEV_SOCKS5_TYPE_UDP_IN_TCP)
      = Vis (SendMsg 3 iov MSG_WAITALL) k /\
    k (Z.of_nat (length (concat iov))) = Ret (1, obj HEV_SOCKS5_TYPE_UDP_IN_TCP) /\
    swp 3 (run (hev_socks5_udp_recvmmsg_tcp fd [buffer] false) (obj HEV_SOCKS5_TYPE_UDP_IN_TCP)) (concat iov ++ [])
      (fun '(r, got, s') inq' => s' = obj HEV_SOCKS5_TYPE_UDP_IN_TCP /\ exists filled n, (n <= 1)%nat /\
         got = filled ++ drop n [buffer] /\ Forall2 message_of filled (take n [hello]) /\
         inq' = concat (frame <$> drop n [hello]) ++ [] /\
         (r = Z.of_nat n /\ (0 < n)%nat /\ (false = false -> n = 1%nat) \/ r = -1 /\ n = 0%nat /\ false = true)).
Proof.
  apply (udp_in_tcp_framing fd (obj HEV_SOCKS5_TYPE_UDP_IN_TCP) [message] [hello] [] [buffer] false).
  - apply Forall2_cons; split; [exact message_hello|constructor].
  - apply Forall_singleton. split_and!; [exact hello_ok|simpl; lia..].
  - simpl. lia.
  - repeat constructor; simpl; lia.
  - discriminate.
Defined.

Lemma udp_in_udp_roundtrip_witness :
  exists iovs, run (hev_socks5_udp_sendmmsg_udp fd [message]) (obj HEV_SOCKS5_TYPE_UDP_IN_UDP)
      = Vis (SendMmsg 3 (pair None <$> iovs) MSG_WAITALL) (fun r => Ret (r, obj HEV_SOCKS5_TYPE_UDP_IN_UDP))
    /\ concat (A := Z) <$> iovs = [packet hello] /\
  exists k filled, run (hev_socks5_udp_recvmmsg_udp rd wr fd [buffer] true) (obj HEV_SOCKS5_TYPE_UDP_IN_UDP)
      = Vis (RecvMmsg 3 [64%nat] MSG_DONTWAIT) k
    /\ Forall2 message_of filled [hello] /\
    exists k2, k (1, [(packet hello, zero_sockaddr6)]) = Vis (SysConnect 3 zero_sockaddr6) k2 /\
      forall c, k2 c = if c <? 0 then Ret (-1, [buffer], obj HEV_SOCKS5_TYPE_UDP_IN_UDP)
        else Ret (1, filled ++ [], associated rd wr (obj HEV_SOCKS5_TYPE_UDP_IN_UDP)).
Proof.
  apply (udp_in_udp_roundtrip rd wr fd (obj HEV_SOCKS5_TYPE_UDP_IN_UDP) [message] [hello] [buffer] true
    zero_sockaddr6 []).
  - apply Forall2_cons; split; [exact message_hello|constructor].
  - apply Forall_singleton. exact hello_ok.
  - simpl. lia.
  - repeat constructor; simpl; lia.
  - reflexivity.
Defined.

Lemma udp_splicer_safe_witness :
  wp (run (hev_socks5_udp_splicer rd wr fd hev_socks5_bind no_resolver 2 3 (fun _ => [replicate 1500 0; replicate 1500 0]) 7)
        (obj HEV_SOCKS5_TYPE_UDP_IN_UDP)) [] (fun tr r =>
    open_fds tr = [] /\ match r.1 with Some _ => allocated tr = 0 | None => allocated tr = 6000 end).
Proof.
  apply (udp_splicer_safe rd wr fd hev_socks5_bind no_resolver).
  - reflexivity.
  - intros d sa s tr. apply spec_ret. by split.
  - reflexivity.
  - intros i. by repeat constructor.
Defined.

Lemma udp_fwd_f_short_header_unsafe_witness :
  ~ wp (run (hev_socks5_udp_fwd_f rd wr fd hev_socks5_bind no_resolver 7 [replicate 1500 0] false)
        (obj HEV_SOCKS5_TYPE_UDP_IN_TCP)) [] (fun _ _ => True).
Proof. apply (udp_fwd_f_short_header_unsafe rd wr fd); [reflexivity|discriminate]. Defined.

End UdpWitness.
