(* ===== verification/Config.v ===== *)
(** * Configuration

    Models hev/src/hev-config.c: the settings, and how they are read from a YAML
    document.  The document is what libyaml's [yaml_parser_load] returns (an array
    of nodes that refer to each other by index); loading it is a parameter.  A
    setting that the code keeps in a [char] array is the memory of the array. *)

From stdpp Require Import strings.
From S2P Require Import Prelude Socks5Addr.

(** ** The C library *)

Definition str (s : string) : list Z := (fun a => Z.of_N (Ascii.N_of_ascii a)) <$> String.list_ascii_of_string s.

(** [0 == strcmp (key, s)] *)
Definition streq (key : list Z) (s : string) : bool := bytes_cmp key (str s) =? 0.

Definition tolower (c : Z) : Z := if (65 <=? c) && (c <=? 90) then c + 32 else c.

Fixpoint strcasecmp (a b : list Z) : Z :=
  match a, b with
  | [], [] => 0
  | x :: _, [] => tolower x
  | [], y :: _ => - tolower y
  | x :: a, y :: b => if tolower x =? tolower y then strcasecmp a b else tolower x - tolower y
  end.

Definition isspace (c : Z) : bool := (c =? 32) || ((9 <=? c) && (c <=? 13)).

Fixpoint skip_spaces (s : list Z) : list Z :=
  match s with c :: s' => if isspace c then skip_spaces s' else s | [] => [] end.

Definition sign (s : list Z) : bool * list Z :=
  match s with
  | 43 :: s' => (false, s')
  | 45 :: s' => (true, s')
  | _ => (false, s)
  end.

(** The value of a digit, 36 if it is none. *)
Definition digit (c : Z) : Z :=
  if (48 <=? c) && (c <=? 57) then c - 48
  else if (97 <=? c) && (c <=? 122) then c - 87
  else if (65 <=? c) && (c <=? 90) then c - 55
  else 36.

Fixpoint digits (base : Z) (s : list Z) (acc : Z) : Z :=
  match s with
  | c :: s => if digit c <? base then digits base s (acc * base + digit c) else acc
  | [] => acc
  end.

(** Base 0: the prefix decides. *)
Definition prefix (base : Z) (s : list Z) : Z * list Z :=
  if negb (base =? 0) then (base, s) else
  match s with
  | 48 :: x :: c :: s' => if (tolower x =? 120) && (digit c <? 16) then (16, c :: s') else (8, s)
  | 48 :: _ => (8, s)
  | _ => (10, s)
  end.

(** [long] has 64 bits; out of range, the functions return the nearest value. *)
Definition strtoul (s : list Z) (base : Z) : Z :=
  let '(neg, s) := sign (skip_spaces s) in
  let '(base, s) := prefix base s in
  let v := digits base s 0 in
  if 2 ^ 64 - 1 <? v then 2 ^ 64 - 1 else if neg : bool then u64 (- v) else v.

Definition strtol (s : list Z) (base : Z) : Z :=
  let '(neg, s) := sign (skip_spaces s) in
  let '(base, s) := prefix base s in
  let v := digits base s 0 in
  if neg : bool then Z.max (- 2 ^ 63) (- v) else Z.min (2 ^ 63 - 1) v.

(** [strncpy (dst, value, n)] into an array. *)
Definition strncpy_to (dst value : list Z) (n : nat) : list Z := splice 0 (strncpy value n) dst.

(** ** libyaml *)

Inductive yaml_node :=
  | YAML_NO_NODE
  | YAML_SCALAR_NODE (value : list Z)
  | YAML_SEQUENCE_NODE (items : list Z)
  | YAML_MAPPING_NODE (pairs : list (Z * Z)).

Definition yaml_document := list yaml_node.

Definition yaml_document_get_node (doc : yaml_document) (index : Z) : option yaml_node :=
  if 0 <? index then doc !! Z.to_nat (index - 1) else None.

Definition yaml_document_get_root_node (doc : yaml_document) : option yaml_node := head doc.

(** [!node || YAML_SCALAR_NODE != node->type], or the string. *)
Definition scalar (node : option yaml_node) : option (list Z) :=
  match node with Some (YAML_SCALAR_NODE v) => Some (cstr v) | _ => None end.

(** ** The settings *)

Record Tunnel := mkTunnel {
  tun_name : list Z; tun_guid : list Z; tun_mtu : Z; multi_queue : Z; icmp : Z;
  tun_ipv4_address : list Z; tun_ipv6_address : list Z;
  tun_post_up_script : list Z; tun_pre_down_script : list Z }.

(** [user] and [pass] are NULL or point to the static arrays [_user] and [_pass]. *)
Record HevConfigServer := mkSrv {
  user : bool; pass : bool; mark : Z; udp_in_udp : Z; port : Z; pipeline : Z; fastopen : Z;
  udp_addr : list Z; addr : list Z }.

Record MapDns := mkMapDns {
  mapdns_address : Z; mapdns_port : Z; mapdns_network : Z; mapdns_netmask : Z; mapdns_cache_size : Z }.

Record Misc := mkMisc {
  log_file : list Z; pid_file : list Z; max_session_count : Z; task_stack_size : Z; tcp_buffer_size : Z;
  udp_recv_buffer_size : Z; udp_copy_buffer_nums : Z; connect_timeout : Z;
  tcp_read_write_timeout : Z; udp_read_write_timeout : Z; limit_nofile : Z; log_level : Z }.

Record Config := mkConfig {
  tunnel : Tunnel; srv : HevConfigServer; mapdns : MapDns; misc : Misc; _user : list Z; _pass : list Z }.

Definition set_tun_name v t := mkTunnel v (tun_guid t) (tun_mtu t) (multi_queue t) (icmp t)
  (tun_ipv4_address t) (tun_ipv6_address t) (tun_post_up_script t) (tun_pre_down_script t).
Definition set_tun_guid v t := mkTunnel (tun_name t) v (tun_mtu t) (multi_queue t) (icmp t)
  (tun_ipv4_address t) (tun_ipv6_address t) (tun_post_up_script t) (tun_pre_down_script t).
Definition set_tun_mtu v t := mkTunnel (tun_name t) (tun_guid t) v (multi_queue t) (icmp t)
  (tun_ipv4_address t) (tun_ipv6_address t) (tun_post_up_script t) (tun_pre_down_script t).
Definition set_multi_queue v t := mkTunnel (tun_name t) (tun_guid t) (tun_mtu t) v (icmp t)
  (tun_ipv4_address t) (tun_ipv6_address t) (tun_post_up_script t) (tun_pre_down_script t).
Definition set_icmp v t := mkTunnel (tun_name t) (tun_guid t) (tun_mtu t) (multi_queue t) v
  (tun_ipv4_address t) (tun_ipv6_address t) (tun_post_up_script t) (tun_pre_down_script t).
Definition set_tun_ipv4_address v t := mkTunnel (tun_name t) (tun_guid t) (tun_mtu t) (multi_queue t) (icmp t)
  v (tun_ipv6_address t) (tun_post_up_script t) (tun_pre_down_script t).
Definition set_tun_ipv6_address v t := mkTunnel (tun_name t) (tun_guid t) (tun_mtu t) (multi_queue t) (icmp t)
  (tun_ipv4_address t) v (tun_post_up_script t) (tun_pre_down_script t).
Definition set_tun_post_up_script v t := mkTunnel (tun_name t) (tun_guid t) (tun_mtu t) (multi_queue t) (icmp t)
  (tun_ipv4_address t) (tun_ipv6_address t) v (tun_pre_down_script t).
Definition set_tun_pre_down_script v t := mkTunnel (tun_name t) (tun_guid t) (tun_mtu t) (multi_queue t) (icmp t)
  (tun_ipv4_address t) (tun_ipv6_address t) (tun_post_up_script t) v.

Definition set_mapdns_address v m :=
  mkMapDns v (mapdns_port m) (mapdns_network m) (mapdns_netmask m) (mapdns_cache_size m).
Definition set_mapdns_port v m :=
  mkMapDns (mapdns_address m) v (mapdns_network m) (mapdns_netmask m) (mapdns_cache_size m).
Definition set_mapdns_network v m :=
  mkMapDns (mapdns_address m) (mapdns_port m) v (mapdns_netmask m) (mapdns_cache_size m).
Definition set_mapdns_netmask v m :=
  mkMapDns (mapdns_address m) (mapdns_port m) (mapdns_network m) v (mapdns_cache_size m).
Definition set_mapdns_cache_size v m :=
  mkMapDns (mapdns_address m) (mapdns_port m) (mapdns_network m) (mapdns_netmask m) v.

Definition set_log_file v m := mkMisc v (pid_file m) (max_session_count m) (task_stack_size m)
  (tcp_buffer_size m) (udp_recv_buffer_size m) (udp_copy_buffer_nums m) (connect_timeout m)
  (tcp_read_write_timeout m) (udp_read_write_timeout m) (limit_nofile m) (log_level m).
Definition set_pid_file v m := mkMisc (log_file m) v (max_session_count m) (task_stack_size m)
  (tcp_buffer_size m) (udp_recv_buffer_size m) (udp_copy_buffer_nums m) (connect_timeout m)
  (tcp_read_write_timeout m) (udp_read_write_timeout m) (limit_nofile m) (log_level m).
Definition set_max_session_count v m := mkMisc (log_file m) (pid_file m) v (task_stack_size m)
  (tcp_buffer_size m) (udp_recv_buffer_size m) (udp_copy_buffer_nums m) (connect_timeout m)
  (tcp_read_write_timeout m) (udp_read_write_timeout m) (limit_nofile m) (log_level m).
Definition set_task_stack_size v m := mkMisc (log_file m) (pid_file m) (max_session_count m) v
  (tcp_buffer_size m) (udp_recv_buffer_size m) (udp_copy_buffer_nums m) (connect_timeout m)
  (tcp_read_write_timeout m) (udp_read_write_timeout m) (limit_nofile m) (log_level m).
Definition set_tcp_buffer_size v m := mkMisc (log_file m) (pid_file m) (max_session_count m) (task_stack_size m)
  v (udp_recv_buffer_size m) (udp_copy_buffer_nums m) (connect_timeout m)
  (tcp_read_write_timeout m) (udp_read_write_timeout m) (limit_nofile m) (log_level m).
Definition set_udp_recv_buffer_size v m := mkMisc (log_file m) (pid_file m) (max_session_count m) (task_stack_size m)
  (tcp_buffer_size m) v (udp_copy_buffer_nums m) (connect_timeout m)
  (tcp_read_write_timeout m) (udp_read_write_timeout m) (limit_nofile m) (log_level m).
Definition set_udp_copy_buffer_nums v m := mkMisc (log_file m) (pid_file m) (max_session_count m) (task_stack_size m)
  (tcp_buffer_size m) (udp_recv_buffer_size m) v (connect_timeout m)
  (tcp_read_write_timeout m) (udp_read_write_timeout m) (limit_nofile m) (log_level m).
Definition set_connect_timeout v m := mkMisc (log_file m) (pid_file m) (max_session_count m) (task_stack_size m)
  (tcp_buffer_size m) (udp_recv_buffer_size m) (udp_copy_buffer_nums m) v
  (tcp_read_write_timeout m) (udp_read_write_timeout m) (limit_nofile m) (log_level m).
Definition set_tcp_read_write_timeout v m := mkMisc (log_file m) (pid_file m) (max_session_count m) (task_stack_size m)
  (tcp_buffer_size m) (udp_recv_buffer_size m) (udp_copy_buffer_nums m) (connect_timeout m)
  v (udp_read_write_timeout m) (limit_nofile m) (log_level m).
Definition set_udp_read_write_timeout v m := mkMisc (log_file m) (pid_file m) (max_session_count m) (task_stack_size m)
  (tcp_buffer_size m) (udp_recv_buffer_size m) (udp_copy_buffer_nums m) (connect_timeout m)
  (tcp_read_write_timeout m) v (limit_nofile m) (log_level m).
Definition set_limit_nofile v m := mkMisc (log_file m) (pid_file m) (max_session_count m) (task_stack_size m)
  (tcp_buffer_size m) (udp_recv_buffer_size m) (udp_copy_buffer_nums m) (connect_timeout m)
  (tcp_read_write_timeout m) (udp_read_write_timeout m) v (log_level m).
Definition set_log_level v m := mkMisc (log_file m) (pid_file m) (max_session_count m) (task_stack_size m)
  (tcp_buffer_size m) (udp_recv_buffer_size m) (udp_copy_buffer_nums m) (connect_timeout m)
  (tcp_read_write_timeout m) (udp_read_write_timeout m) (limit_nofile m) v.

Definition set_tunnel v c := mkConfig v (srv c) (mapdns c) (misc c) (_user c) (_pass c).
Definition set_srv v c := mkConfig (tunnel c) v (mapdns c) (misc c) (_user c) (_pass c).
Definition set_mapdns v c := mkConfig (tunnel c) (srv c) v (misc c) (_user c) (_pass c).
Definition set_misc v c := mkConfig (tunnel c) (srv c) (mapdns c) v (_user c) (_pass c).

(** ** Parsing *)

Section Parse.
(** [inet_pton (AF_INET, ..)]: the four bytes, or failure. *)
Context (inet_pton : list Z -> option (list Z)).
Context (doc : yaml_document).

(** The loop over the pairs of a mapping whose keys and values are scalars: it
    ends at the first pair that is not. *)
Fixpoint for_scalars {A} (body : list Z -> list Z -> A -> A) (pairs : list (Z * Z)) (a : A) : A :=
  match pairs with
  | [] => a
  | (k, v) :: pairs =>
      if (k =? 0) || (v =? 0) then for_scalars body pairs a else
      match scalar (yaml_document_get_node doc k) with
      | None => a
      | Some key =>
          match scalar (yaml_document_get_node doc v) with
          | None => a
          | Some value => for_scalars body pairs (body key value a)
          end
      end
  end.

Definition hev_config_parse_tunnel_ipv4 (base : option yaml_node) (t : Tunnel) : Z * Tunnel :=
  match base with
  | Some (YAML_MAPPING_NODE pairs) =>
      (0, for_scalars (fun key value t =>
            if streq key "address" then set_tun_ipv4_address (strncpy_to (tun_ipv4_address t) value 15) t else t) pairs t)
  | _ => (-1, t)
  end.

Definition hev_config_parse_tunnel_ipv6 (base : option yaml_node) (t : Tunnel) : Z * Tunnel :=
  match base with
  | Some (YAML_MAPPING_NODE pairs) =>
      (0, for_scalars (fun key value t =>
            if streq key "address" then set_tun_ipv6_address (strncpy_to (tun_ipv6_address t) value 63) t else t) pairs t)
  | _ => (-1, t)
  end.

Definition tunnel_scalar (key value : list Z) (t : Tunnel) : Tunnel :=
  if streq key "name" then set_tun_name (strncpy_to (tun_name t) value 63) t
  else if streq key "guid" then set_tun_guid (strncpy_to (tun_guid t) value 63) t
  else if streq key "mtu" then set_tun_mtu (u32 (strtoul value 10)) t
  else if streq key "multi-queue" then set_multi_queue (strcasecmp value (str "false")) t
  else if streq key "ipv4" then set_tun_ipv4_address (strncpy_to (tun_ipv4_address t) value 15) t
  else if streq key "ipv6" then set_tun_ipv6_address (strncpy_to (tun_ipv6_address t) value 63) t
  else if streq key "icmp" then set_icmp (if strcasecmp value (str "reply") =? 0 then 1 else 0) t
  else if streq key "post-up-script" then set_tun_post_up_script (strncpy_to (tun_post_up_script t) value 1023) t
  else if streq key "pre-down-script" then set_tun_pre_down_script (strncpy_to (tun_pre_down_script t) value 1023) t
  else t.

Fixpoint tunnel_loop (pairs : list (Z * Z)) (t : Tunnel) : Tunnel :=
  match pairs with
  | [] => t
  | (k, v) :: pairs =>
      if (k =? 0) || (v =? 0) then tunnel_loop pairs t else
      match scalar (yaml_document_get_node doc k) with
      | None => t
      | Some key =>
          match yaml_document_get_node doc v with
          | None => t
          | Some node =>
              tunnel_loop pairs
                match scalar (Some node) with
                | Some value => tunnel_scalar key value t
                | None =>
                    if streq key "ipv4" then (hev_config_parse_tunnel_ipv4 (Some node) t).2
                    else if streq key "ipv6" then (hev_config_parse_tunnel_ipv6 (Some node) t).2
                    else t
                end
          end
      end
  end.

Definition hev_config_parse_tunnel (base : option yaml_node) (c : Config) : Z * Config :=
  match base with
  | Some (YAML_MAPPING_NODE pairs) => (0, set_tunnel (tunnel_loop pairs (tunnel c)) c)
  | _ => (-1, c)
  end.

(** The local pointers of [hev_config_parse_socks5]. *)
Record socks5_keys := mkKeys {
  k_addr : option (list Z); k_port : option (list Z); k_udpm : option (list Z); k_udpa : option (list Z);
  k_user : option (list Z); k_pass : option (list Z); k_mark : option (list Z); k_pipe : option (list Z);
  k_tfso : option (list Z) }.

Definition socks5_key (key value : list Z) (l : socks5_keys) : socks5_keys :=
  let '(mkKeys addr port udpm udpa user pass mark pipe tfso) := l in
  if streq key "port" then mkKeys addr (Some value) udpm udpa user pass mark pipe tfso
  else if streq key "address" then mkKeys (Some value) port udpm udpa user pass mark pipe tfso
  else if streq key "udp" then mkKeys addr port (Some value) udpa user pass mark pipe tfso
  else if streq key "udp-address" then mkKeys addr port udpm (Some value) user pass mark pipe tfso
  else if streq key "pipeline" then mkKeys addr port udpm udpa user pass mark (Some value) tfso
  else if streq key "username" then mkKeys addr port udpm udpa (Some value) pass mark pipe tfso
  else if streq key "password" then mkKeys addr port udpm udpa user (Some value) mark pipe tfso
  else if streq key "mark" then mkKeys addr port udpm udpa user pass (Some value) pipe tfso
  else if streq key "tcp-fastopen" then mkKeys addr port udpm udpa user pass mark pipe (Some value)
  else l.

Definition no_keys : socks5_keys := mkKeys None None None None None None None None None.

Definition hev_config_parse_socks5 (base : option yaml_node) (c : Config) : Z * Config :=
  match base with
  | Some (YAML_MAPPING_NODE pairs) =>
      let '(mkKeys addr' port' udpm udpa user' pass' mark' pipe tfso) := for_scalars socks5_key pairs no_keys in
      match port', addr' with
      | None, _ | _, None => (-1, c)
      | Some port', Some addr' =>
          match user', pass' with
          | Some _, None | None, Some _ => (-1, c)
          | _, _ =>
              let s := srv c in
              let '(u, p, _user', _pass') :=
                match user', pass' with
                | Some user', Some pass' => (true, true, strncpy_to (_user c) user' 255, strncpy_to (_pass c) pass' 255)
                | _, _ => (user s, pass s, _user c, _pass c)
                end in
              let true_ o := match o with Some v => strcasecmp v (str "true") =? 0 | None => false end in
              (0, mkConfig (tunnel c)
                    (mkSrv u p
                       (match mark' with Some v => u32 (strtoul v 0) | None => mark s end)
                       (match udpm with Some v => if strcasecmp v (str "udp") =? 0 then 1 else udp_in_udp s
                                      | None => udp_in_udp s end)
                       (u16 (strtoul port' 10))
                       (if true_ pipe then 1 else pipeline s)
                       (match tfso with Some _ => if true_ tfso then 1 else 0 | None => fastopen s end)
                       (match udpa with Some v => strncpy_to (udp_addr s) v 255 | None => udp_addr s end)
                       (strncpy_to (addr s) addr' 255))
                    (mapdns c) (misc c) _user' _pass')
          end
      end
  | _ => (-1, c)
  end.

(** [inet_pton (AF_INET, value, &v)]: an [int] in memory. *)
Definition pton (value : list Z) (old : Z) : Z :=
  match inet_pton value with
  | Some b => s32 (nthb b 0 + 2 ^ 8 * nthb b 1 + 2 ^ 16 * nthb b 2 + 2 ^ 24 * nthb b 3)
  | None => old
  end.

Definition mapdns_key (key value : list Z) (m : MapDns) : MapDns :=
  if streq key "address" then set_mapdns_address (pton value (mapdns_address m)) m
  else if streq key "port" then set_mapdns_port (s32 (strtoul value 10)) m
  else if streq key "network" then set_mapdns_network (pton value (mapdns_network m)) m
  else if streq key "netmask" then set_mapdns_netmask (pton value (mapdns_netmask m)) m
  else if streq key "cache-size" then set_mapdns_cache_size (s32 (strtoul value 10)) m
  else m.

Definition hev_config_parse_mapdns (base : option yaml_node) (c : Config) : Z * Config :=
  match base with
  | Some (YAML_MAPPING_NODE pairs) =>
      let m := for_scalars mapdns_key pairs (mapdns c) in
      let m := set_mapdns_network (s32 (ntohl (u32 (mapdns_network m)))) m in
      (0, set_mapdns (set_mapdns_netmask (s32 (ntohl (u32 (mapdns_netmask m)))) m) c)
  | _ => (-1, c)
  end.

Definition HEV_LOGGER_DEBUG : Z := 0.
Definition HEV_LOGGER_INFO : Z := 1.
Definition HEV_LOGGER_WARN : Z := 2.
Definition HEV_LOGGER_ERROR : Z := 3.

Definition hev_config_parse_log_level (value : list Z) : Z :=
  if streq value "debug" then HEV_LOGGER_DEBUG
  else if streq value "info" then HEV_LOGGER_INFO
  else if streq value "error" then HEV_LOGGER_ERROR
  else HEV_LOGGER_WARN.

(** The settings, and the locals [tcp_rw_timeout], [udp_rw_timeout], [rw_timeout]. *)
Record misc_loop := mkLoop { l_misc : Misc; l_tcp : Z; l_udp : Z; l_rw : Z }.

Definition misc_key (key value : list Z) (l : misc_loop) : misc_loop :=
  let '(mkLoop m tcp udp rw) := l in
  let num := s32 (strtoul value 10) in
  let put m := mkLoop m tcp udp rw in
  if streq key "task-stack-size" then put (set_task_stack_size num m)
  else if streq key "tcp-buffer-size" then put (set_tcp_buffer_size num m)
  else if streq key "udp-recv-buffer-size" then put (set_udp_recv_buffer_size num m)
  else if streq key "udp-copy-buffer-nums" then put (set_udp_copy_buffer_nums num m)
  else if streq key "max-session-count" then put (set_max_session_count num m)
  else if streq key "connect-timeout" then put (set_connect_timeout num m)
  else if streq key "read-write-timeout" then mkLoop m tcp udp num
  else if streq key "tcp-read-write-timeout" then mkLoop m num udp rw
  else if streq key "udp-read-write-timeout" then mkLoop m tcp num rw
  else if streq key "pid-file" then put (set_pid_file (strncpy_to (pid_file m) value 1023) m)
  else if streq key "log-file" then put (set_log_file (strncpy_to (log_file m) value 1023) m)
  else if streq key "log-level" then put (set_log_level (hev_config_parse_log_level value) m)
  else if streq key "limit-nofile" then put (set_limit_nofile (s32 (strtol value 10)) m)
  else l.

Definition hev_config_parse_misc (base : option yaml_node) (c : Config) : Z * Config :=
  match base with
  | Some (YAML_MAPPING_NODE pairs) =>
      let '(mkLoop m tcp udp rw) := for_scalars misc_key pairs (mkLoop (misc c) (-1) (-1) (-1)) in
      let tcp := if tcp <=? 0 then rw else tcp in
      let udp := if udp <=? 0 then rw else udp in
      let m := if 0 <? tcp then set_tcp_read_write_timeout tcp m else m in
      let m := if 0 <? udp then set_udp_read_write_timeout udp m else m in
      (0, set_misc m c)
  | _ => (-1, c)
  end.

Definition parse_section (key : list Z) (node : option yaml_node) (c : Config) : Z * Config :=
  if streq key "tunnel" then hev_config_parse_tunnel node c
  else if streq key "socks5" then hev_config_parse_socks5 node c
  else if streq key "mapdns" then hev_config_parse_mapdns node c
  else if streq key "misc" then hev_config_parse_misc node c
  else (0, c).

Fixpoint doc_loop (pairs : list (Z * Z)) (c : Config) : Z * Config :=
  match pairs with
  | [] => (0, c)
  | (k, v) :: pairs =>
      if (k =? 0) || (v =? 0) then doc_loop pairs c else
      match scalar (yaml_document_get_node doc k) with
      | None => (0, c)
      | Some key =>
          let '(res, c) := parse_section key (yaml_document_get_node doc v) c in
          if res <? 0 then (-1, c) else doc_loop pairs c
      end
  end.

(** [TCP_MSS] and [TCP_SND_BUF] are those of lwipopts.h. *)
Definition TCP_SND_BUF : Z := 8 * 8191.
Definition UDP_BUF_SIZE : Z := 1500.
Definition TASK_STACK_SIZE : Z := 20480.

(** Signed arithmetic: [None] is an overflow. *)
Definition int (z : Z) : option Z := if (- 2 ^ 31 <=? z) && (z <? 2 ^ 31) then Some z else None.

Definition finish_misc (m : Misc) : option Misc :=
  let m := if TCP_SND_BUF <? tcp_buffer_size m then set_tcp_buffer_size TCP_SND_BUF m else m in
  udp_buffer_size ← int (UDP_BUF_SIZE * udp_copy_buffer_nums m);
  min_task_stack_size ←
    int (TASK_STACK_SIZE + if udp_buffer_size <? tcp_buffer_size m then tcp_buffer_size m else udp_buffer_size);
  Some (if task_stack_size m <? min_task_stack_size then set_task_stack_size min_task_stack_size m else m).

Definition hev_config_parse_doc (c : Config) : option (Z * Config) :=
  match yaml_document_get_root_node doc with
  | Some (YAML_MAPPING_NODE pairs) =>
      let '(res, c) := doc_loop pairs c in
      if res <? 0 then Some (-1, c) else
      m ← finish_misc (misc c); Some (0, set_misc m c)
  | _ => Some (-1, c)
  end.

End Parse.

(** ** Initialisation *)

Definition reset_tunnel : Tunnel :=
  mkTunnel (replicate 64 0) (replicate 64 0) 8500 0 0 (replicate 16 0) (replicate 64 0)
    (replicate 1024 0) (replicate 1024 0).
Definition reset_srv : HevConfigServer := mkSrv false false 0 0 0 0 0 (replicate 256 0) (replicate 256 0).
Definition reset_mapdns : MapDns := mkMapDns 0 0 0 0 0.
Definition reset_misc : Misc :=
  mkMisc (replicate 1024 0) (replicate 1024 0) 0 86016 65536 524288 10 10000 300000 60000 65535 HEV_LOGGER_WARN.

Definition hev_config_reset (c : Config) : Config :=
  mkConfig reset_tunnel reset_srv reset_mapdns reset_misc (_user c) (_pass c).

(** What the initialisation acquires and releases. *)
Inductive call := ParserInitialize | ParserDelete | Fopen | Fclose | ParserLoad | DocumentDelete.

(** Where a parser reads from. *)
Inductive input := InputNone | InputFile | InputString.

(** The objects of the C library and of libyaml that the initialisation holds: the
    parser while it is initialised, whether the file is open, the document while it
    is loaded; and what was acquired and released so far. *)
Record Lib := mkLib {
  parser : option input;
  fp : bool;
  document : option yaml_document;
  calls : list call
}.

Definition idle : Lib := mkLib None false None [].

Section Init.
Context (inet_pton : list Z -> option (list Z)).
(** Whether [yaml_parser_initialize] and [fopen] succeed, and the document that
    [yaml_parser_load] finds. *)
Context (initialize open : bool) (load : option yaml_document).

(** The calls.  [None] is a call on an object that is not live: a parser that is not
    initialised, has its input twice or none, or reads a file that is closed; a
    document or a file that is released a second time. *)
Definition yaml_parser_initialize (l : Lib) : bool * Lib :=
  if initialize then (true, mkLib (Some InputNone) (fp l) (document l) (calls l ++ [ParserInitialize])) else (false, l).

Definition fopen (l : Lib) : bool * Lib :=
  if open then (true, mkLib (parser l) true (document l) (calls l ++ [Fopen])) else (false, l).

Definition yaml_parser_set_input (i : input) (l : Lib) : option Lib :=
  match parser l with
  | Some InputNone => Some (mkLib (Some i) (fp l) (document l) (calls l))
  | _ => None
  end.

Definition readable (l : Lib) : bool :=
  match parser l with Some InputFile => fp l | Some InputString => true | _ => false end.

Definition yaml_parser_load (l : Lib) : option (bool * Lib) :=
  if negb (readable l) then None else
  match load with
  | Some doc => Some (true, mkLib (parser l) (fp l) (Some doc) (calls l ++ [ParserLoad]))
  | None => Some (false, l)
  end.

Definition yaml_document_delete (l : Lib) : option Lib :=
  _ ← document l; Some (mkLib (parser l) (fp l) None (calls l ++ [DocumentDelete])).

Definition fclose (l : Lib) : option Lib :=
  if fp l then Some (mkLib (parser l) false (document l) (calls l ++ [Fclose])) else None.

Definition yaml_parser_delete (l : Lib) : option Lib :=
  _ ← parser l; Some (mkLib None (fp l) (document l) (calls l ++ [ParserDelete])).

(** The labels. *)
Definition exit_free_parser (res : Z) (c : Config) (l : Lib) : option (Z * Config * Lib) :=
  l ← yaml_parser_delete l; Some (res, c, l).

Definition exit_close_fp (res : Z) (c : Config) (l : Lib) : option (Z * Config * Lib) :=
  l ← fclose l; exit_free_parser res c l.

Definition hev_config_init_from_file (c : Config) : option (Z * Config * Lib) :=
  let res := -1 in
  let c := hev_config_reset c in
  let '(ok, l) := yaml_parser_initialize idle in
  if negb ok then Some (res, c, l) else
  let '(ok, l) := fopen l in
  if negb ok then exit_free_parser res c l else
  l ← yaml_parser_set_input InputFile l;
  '(ok, l) ← yaml_parser_load l;
  if negb ok then exit_close_fp res c l else
  doc ← document l;
  '(res, c) ← hev_config_parse_doc inet_pton doc c;
  l ← yaml_document_delete l;
  exit_close_fp res c l.

Definition hev_config_init_from_str (c : Config) : option (Z * Config * Lib) :=
  let res := -1 in
  let c := hev_config_reset c in
  let '(ok, l) := yaml_parser_initialize idle in
  if negb ok then Some (res, c, l) else
  l ← yaml_parser_set_input InputString l;
  '(ok, l) ← yaml_parser_load l;
  if negb ok then exit_free_parser res c l else
  doc ← document l;
  '(res, c) ← hev_config_parse_doc inet_pton doc c;
  l ← yaml_document_delete l;
  exit_free_parser res c l.
End Init.

(** ** The settings as the program sees them *)

(** [!a[0] ? NULL : a] *)
Definition string_or_null (a : list Z) : option (list Z) := if nthb a 0 =? 0 then None else Some (cstr a).

Definition hev_config_get_tunnel_name (c : Config) := string_or_null (tun_name (tunnel c)).
Definition hev_config_get_tunnel_guid (c : Config) := string_or_null (tun_guid (tunnel c)).
Definition hev_config_get_tunnel_mtu (c : Config) : Z := tun_mtu (tunnel c).
Definition hev_config_get_tunnel_multi_queue (c : Config) : Z := multi_queue (tunnel c).
Definition hev_config_get_tunnel_icmp (c : Config) : Z := icmp (tunnel c).
Definition hev_config_get_tunnel_ipv4_address (c : Config) := string_or_null (tun_ipv4_address (tunnel c)).
Definition hev_config_get_tunnel_ipv6_address (c : Config) := string_or_null (tun_ipv6_address (tunnel c)).
Definition hev_config_get_tunnel_post_up_script (c : Config) := string_or_null (tun_post_up_script (tunnel c)).
Definition hev_config_get_tunnel_pre_down_script (c : Config) := string_or_null (tun_pre_down_script (tunnel c)).

(** The server, with the strings its pointers lead to. *)
Definition hev_config_get_socks5_server (c : Config) : HevConfigServer * option (list Z) * option (list Z) :=
  (srv c, if user (srv c) then Some (cstr (_user c)) else None, if pass (srv c) then Some (cstr (_pass c)) else None).

Definition hev_config_get_mapdns_address (c : Config) : Z := mapdns_address (mapdns c).
Definition hev_config_get_mapdns_port (c : Config) : Z := mapdns_port (mapdns c).
Definition hev_config_get_mapdns_network (c : Config) : Z := mapdns_network (mapdns c).
Definition hev_config_get_mapdns_netmask (c : Config) : Z := mapdns_netmask (mapdns c).
Definition hev_config_get_mapdns_cache_size (c : Config) : Z := mapdns_cache_size (mapdns c).
Definition hev_config_get_misc_task_stack_size (c : Config) : Z := task_stack_size (misc c).
Definition hev_config_get_misc_tcp_buffer_size (c : Config) : Z := tcp_buffer_size (misc c).
Definition hev_config_get_misc_udp_recv_buffer_size (c : Config) : Z := udp_recv_buffer_size (misc c).
Definition hev_config_get_misc_udp_copy_buffer_nums (c : Config) : Z := udp_copy_buffer_nums (misc c).
Definition hev_config_get_misc_max_session_count (c : Config) : Z := max_session_count (misc c).
Definition hev_config_get_misc_connect_timeout (c : Config) : Z := connect_timeout (misc c).
Definition hev_config_get_misc_tcp_read_write_timeout (c : Config) : Z := tcp_read_write_timeout (misc c).
Definition hev_config_get_misc_udp_read_write_timeout (c : Config) : Z := udp_read_write_timeout (misc c).
Definition hev_config_get_misc_limit_nofile (c : Config) : Z := limit_nofile (misc c).
Definition hev_config_get_misc_pid_file (c : Config) := string_or_null (pid_file (misc c)).
Definition hev_config_get_misc_log_file (c : Config) : option (list Z) :=
  let f := log_file (misc c) in
  if nthb f 0 =? 0 then None else if streq (cstr f) "null" then None else Some (cstr f).
Definition hev_config_get_misc_log_level (c : Config) : Z := log_level (misc c).
