(* ===== verification/ConfigSpec.v ===== *)
(** * Configuration: what the parser promises

    The strings of [Config] stay inside their arrays and terminated, the numbers
    the rest of the program divides memory by are within bounds, a reload does not
    depend on what was loaded before, and the SOCKS5 server is the one the
    document names. *)

From stdpp Require Import strings.
From S2P Require Import Prelude Socks5Addr Config.

(** ** Strings in arrays *)

(** An array of [n + 1] chars whose last one is NUL. *)
Definition array (n : nat) (a : list Z) : Prop := exists b, length b = n /\ a = b ++ [0].

Lemma length_strncpy v n : length (strncpy v n) = n.
Proof. unfold strncpy. len. Qed.

Lemma strncpy_to_eq n a v : array n a -> strncpy_to a v n = strncpy v n ++ [0].
Proof.
  intros (b & Hb & ->). unfold strncpy_to. rewrite splice_front, length_strncpy.
  by rewrite <- Hb, drop_app_length.
Qed.

Lemma array_strncpy n a v : array n a -> array n (strncpy_to a v n).
Proof. intros Ha. rewrite strncpy_to_eq by done. exists (strncpy v n). by rewrite length_strncpy. Qed.

Lemma array_strncpy_eq n v : array n (strncpy v n ++ [0]).
Proof. exists (strncpy v n). by rewrite length_strncpy. Qed.

Lemma array_zero n : array n (replicate (S n) 0).
Proof. exists (replicate n 0). by rewrite length_replicate, replicate_S_end. Qed.

Definition no_nul (s : list Z) : Prop := Forall (fun c => c <> 0) s.

Lemma cstr_no_nul m : no_nul (cstr m).
Proof.
  induction m as [|c m IH]; simpl; [constructor|].
  destruct (Z.eqb_spec c 0); [constructor|]. by constructor.
Qed.

Lemma cstr_no_nul_app s r : no_nul s -> cstr (s ++ 0 :: r) = s.
Proof. induction 1 as [|c s Hc Hs IH]; simpl; [done|]. destruct (Z.eqb_spec c 0); [done|]. by rewrite IH. Qed.

Lemma cstr_strncpy v n : no_nul v -> cstr (strncpy v n ++ [0]) = take n v.
Proof.
  intros Hv. unfold strncpy. assert (Ht : no_nul (take n v)) by by apply Forall_take.
  destruct (n - length v)%nat; simpl; rewrite ?app_nil_r, <- ?app_assoc; by apply cstr_no_nul_app.
Qed.

Lemma length_cstr m : (length (cstr m) <= length m)%nat.
Proof. induction m as [|c m IH]; simpl; [done|]. destruct (c =? 0); simpl; lia. Qed.

Lemma cstr_in_array n a : array n a -> (length (cstr a) <= n)%nat.
Proof.
  intros (b & <- & ->). induction b as [|c b IH]; simpl; [done|]. destruct (c =? 0); simpl; lia.
Qed.

Lemma streq_eq k s : streq k s = true <-> k = str s.
Proof. unfold streq. rewrite Z.eqb_eq. apply bytes_cmp_eq. Qed.

(** ** Well-formed settings *)

Record wf_tunnel (t : Tunnel) : Prop := {
  wt_name : array 63 (tun_name t);
  wt_guid : array 63 (tun_guid t);
  wt_mtu : is_u32 (tun_mtu t);
  wt_ipv4 : array 15 (tun_ipv4_address t);
  wt_ipv6 : array 63 (tun_ipv6_address t);
  wt_up : array 1023 (tun_post_up_script t);
  wt_down : array 1023 (tun_pre_down_script t)
}.

Record wf_srv (s : HevConfigServer) : Prop := {
  ws_creds : user s = pass s;
  ws_mark : is_u32 (mark s);
  ws_port : is_u16 (port s);
  ws_udp : udp_in_udp s = 0 \/ udp_in_udp s = 1;
  ws_pipe : pipeline s = 0 \/ pipeline s = 1;
  ws_fast : fastopen s = 0 \/ fastopen s = 1;
  ws_udp_addr : array 255 (udp_addr s);
  ws_addr : array 255 (addr s)
}.

Record wf_misc (m : Misc) : Prop := {
  wm_log : array 1023 (log_file m);
  wm_pid : array 1023 (pid_file m);
  wm_stack : is_s32 (task_stack_size m);
  wm_buf : is_s32 (tcp_buffer_size m);
  wm_nums : is_s32 (udp_copy_buffer_nums m);
  wm_connect : is_s32 (connect_timeout m);
  wm_tcp : 0 < tcp_read_write_timeout m;
  wm_udp : 0 < udp_read_write_timeout m;
  wm_level : HEV_LOGGER_DEBUG <= log_level m <= HEV_LOGGER_ERROR
}.

(** The arrays that are not reset. *)
Definition wf_static (c : Config) : Prop := array 255 (_user c) /\ array 255 (_pass c).

Record wf_config (c : Config) : Prop := {
  wc_tunnel : wf_tunnel (tunnel c);
  wc_srv : wf_srv (srv c);
  wc_misc : wf_misc (misc c);
  wc_static : wf_static c
}.

Create HintDb config.
#[export] Hint Resolve array_strncpy array_zero : config.

Lemma u32_range z : is_u32 (u32 z).
Proof. apply Z.mod_pos_bound. reflexivity. Qed.
Lemma u16_range z : is_u16 (u16 z).
Proof. apply Z.mod_pos_bound. reflexivity. Qed.
Lemma s32_range z : is_s32 (s32 z).
Proof. unfold is_s32, s32. pose proof (Z.mod_pos_bound (z + 2 ^ 31) (2 ^ 32)). lia. Qed.
#[export] Hint Resolve u32_range u16_range s32_range : config.

Lemma for_scalars_inv {A} (P : A -> Prop) doc body pairs : forall a,
  (forall k v a, P a -> P (body k v a)) -> P a -> P (for_scalars doc body pairs a).
Proof.
  induction pairs as [|[k v] pairs IH]; intros a Hb Ha; cbn [for_scalars]; [done|].
  repeat case_match; auto.
Qed.

Lemma tunnel_scalar_wf k v t : wf_tunnel t -> wf_tunnel (tunnel_scalar k v t).
Proof. intros []. unfold tunnel_scalar. repeat case_match; constructor; cbn; auto with config. Qed.

Lemma parse_ipv4_wf doc n t : wf_tunnel t -> wf_tunnel (hev_config_parse_tunnel_ipv4 doc n t).2.
Proof.
  intros Ht. destruct n as [[| | |pairs]|]; cbn; auto. apply for_scalars_inv; [|done].
  intros k v t' []. case_match; constructor; cbn; auto with config.
Qed.

Lemma parse_ipv6_wf doc n t : wf_tunnel t -> wf_tunnel (hev_config_parse_tunnel_ipv6 doc n t).2.
Proof.
  intros Ht. destruct n as [[| | |pairs]|]; cbn; auto. apply for_scalars_inv; [|done].
  intros k v t' []. case_match; constructor; cbn; auto with config.
Qed.

Lemma tunnel_loop_wf doc pairs : forall t, wf_tunnel t -> wf_tunnel (tunnel_loop doc pairs t).
Proof.
  induction pairs as [|[k v] pairs IH]; intros t Ht; cbn [tunnel_loop]; [done|].
  repeat case_match; auto using tunnel_scalar_wf, parse_ipv4_wf, parse_ipv6_wf.
Qed.

Lemma parse_socks5_wf doc n c : wf_config c -> wf_config (hev_config_parse_socks5 doc n c).2.
Proof.
  intros Hc. unfold hev_config_parse_socks5. destruct n as [[| | |pairs]|]; try done.
  destruct (for_scalars doc socks5_key pairs no_keys) as [ad po um ua us pw mk pi tf].
  destruct po as [po|], ad as [ad|]; try done. destruct Hc as [Ht [] Hm [Hu Hp]].
  destruct us as [us|], pw as [pw|]; try done; constructor; cbn; auto.
  all: try (split; cbn; auto with config; done).
  all: constructor; cbn; auto with config; repeat case_match; auto with config.
Qed.

Lemma misc_key_wf k v l : wf_misc (l_misc l) -> wf_misc (l_misc (misc_key k v l)).
Proof.
  destruct l as [m tcp udp rw]. cbn [l_misc]. intros []. unfold misc_key.
  repeat case_match; cbn [l_misc]; try (constructor; cbn; auto with config; done).
  constructor; cbn; auto. unfold hev_config_parse_log_level, HEV_LOGGER_DEBUG, HEV_LOGGER_INFO, HEV_LOGGER_WARN, HEV_LOGGER_ERROR.
  repeat case_match; lia.
Qed.

Lemma parse_misc_wf doc n c : wf_config c -> wf_config (hev_config_parse_misc doc n c).2.
Proof.
  intros Hc. unfold hev_config_parse_misc. destruct n as [[| | |pairs]|]; try done.
  assert (Hl : wf_misc (l_misc (for_scalars doc misc_key pairs (mkLoop (misc c) (-1) (-1) (-1))))).
  { apply (for_scalars_inv (fun l => wf_misc (l_misc l))); [apply misc_key_wf|apply Hc]. }
  destruct (for_scalars doc misc_key pairs _) as [m tcp udp rw]. cbn in Hl. destruct Hl, Hc as [Ht Hs Hm Hst].
  constructor; cbn; auto. repeat case_match; bool_to_prop; constructor; cbn; auto; lia.
Qed.

Lemma parse_section_wf pton doc k n c : wf_config c -> wf_config (parse_section pton doc k n c).2.
Proof.
  intros Hc. unfold parse_section. repeat case_match; auto using parse_socks5_wf, parse_misc_wf.
  - unfold hev_config_parse_tunnel. destruct n as [[| | |pairs]|]; try done. destruct Hc.
    constructor; cbn; auto using tunnel_loop_wf.
  - unfold hev_config_parse_mapdns. destruct n as [[| | |pairs]|]; try done. destruct Hc. by constructor.
Qed.

Lemma doc_loop_wf pton doc pairs : forall c, wf_config c -> wf_config (doc_loop pton doc pairs c).2.
Proof.
  induction pairs as [|[k v] pairs IH]; intros c Hc; cbn [doc_loop]; [done|].
  destruct (_ || _); [auto|]. destruct (scalar _); [|done].
  pose proof (parse_section_wf pton doc l (yaml_document_get_node doc v) c Hc) as Hs.
  destruct (parse_section _ _ _ _ _) as [r c']. destruct (r <? 0); [done|]. by apply IH.
Qed.

Lemma reset_wf c : wf_static c -> wf_config (hev_config_reset c).
Proof.
  intros Hs. constructor; cbn; [| | |done]; constructor; cbn; auto;
    try apply array_zero; unfold is_u32, is_u16, is_s32; try done; lia.
Qed.

(** ** Bounds *)

(** A task has room on its stack for the buffer of a TCP session and for the
    buffers of a UDP session, and the buffer of a TCP session fits what lwIP can
    take. *)
Definition fits_stack (m : Misc) : Prop :=
  tcp_buffer_size m <= TCP_SND_BUF
  /\ TASK_STACK_SIZE + tcp_buffer_size m <= task_stack_size m
  /\ TASK_STACK_SIZE + UDP_BUF_SIZE * udp_copy_buffer_nums m <= task_stack_size m.

Definition excessive (n : Z) : Prop := n < -1431655 \/ 1431642 < n.

Lemma int_spec z : match int z with Some y => y = z /\ is_s32 z | None => ~ is_s32 z end.
Proof. unfold int, is_s32. destruct (_ && _) eqn:E; [bool_to_prop; lia|]. apply andb_false_iff in E. lia. Qed.

Lemma finish_misc_ok m : wf_misc m ->
  match finish_misc m with
  | Some m' => wf_misc m' /\ fits_stack m'
  | None => excessive (udp_copy_buffer_nums m)
  end.
Proof.
  intros []. unfold finish_misc.
  set (m1 := if TCP_SND_BUF <? tcp_buffer_size m then set_tcp_buffer_size TCP_SND_BUF m else m).
  assert (Hm1 : wf_misc m1 /\ tcp_buffer_size m1 <= TCP_SND_BUF /\ udp_copy_buffer_nums m1 = udp_copy_buffer_nums m).
  { subst m1. destruct (Z.ltb_spec TCP_SND_BUF (tcp_buffer_size m)); split_and!; done. }
  clearbody m1. destruct Hm1 as ([] & Hbuf & Hnums). rewrite <- Hnums. unfold excessive.
  pose proof (int_spec (UDP_BUF_SIZE * udp_copy_buffer_nums m1)) as Hu.
  destruct (int _) as [u|]; cbn [mbind option_bind]; [|unfold UDP_BUF_SIZE, is_s32 in *; lia].
  destruct Hu as [-> Hu]. set (b := if _ <? _ then _ else _).
  pose proof (int_spec (TASK_STACK_SIZE + b)) as Hi.
  assert (Hb : tcp_buffer_size m1 <= b /\ UDP_BUF_SIZE * udp_copy_buffer_nums m1 <= b /\
    (b = tcp_buffer_size m1 \/ b = UDP_BUF_SIZE * udp_copy_buffer_nums m1)).
  { subst b. destruct (Z.ltb_spec (UDP_BUF_SIZE * udp_copy_buffer_nums m1) (tcp_buffer_size m1)); lia. }
  clearbody b. unfold TCP_SND_BUF, TASK_STACK_SIZE, UDP_BUF_SIZE, fits_stack, is_s32 in *.
  destruct (int _) as [mn|]; cbn [mbind option_bind]; [|lia]. destruct Hi as [-> Hi].
  destruct (Z.ltb_spec (task_stack_size m1) (20480 + b)).
  - split; [constructor; cbn; auto; unfold is_s32; lia|]. cbn. unfold TCP_SND_BUF, UDP_BUF_SIZE, TASK_STACK_SIZE. lia.
  - split; [by constructor|]. unfold TCP_SND_BUF, UDP_BUF_SIZE, TASK_STACK_SIZE. lia.
Qed.

#[global] Instance call_eq_dec : EqDecision call.
Proof. solve_decision. Defined.

(** Everything acquired is released, once, and nothing is held. *)
Definition times (x : call) (l : list call) : nat := length (filter (fun y => y = x) l).
Definition released (l : Lib) : Prop :=
  times ParserInitialize (calls l) = times ParserDelete (calls l)
  /\ times Fopen (calls l) = times Fclose (calls l)
  /\ times ParserLoad (calls l) = times DocumentDelete (calls l)
  /\ parser l = None /\ fp l = false /\ document l = None.

Lemma parse_doc_ok pton doc c : wf_config c ->
  match hev_config_parse_doc pton doc c with
  | Some (res, c') => wf_config c' /\ (res = -1 \/ res = 0 /\ fits_stack (misc c'))
  | None => exists pairs, yaml_document_get_root_node doc = Some (YAML_MAPPING_NODE pairs)
      /\ excessive (udp_copy_buffer_nums (misc (doc_loop pton doc pairs c).2))
  end.
Proof.
  intros Hc. unfold hev_config_parse_doc.
  destruct (yaml_document_get_root_node doc) as [[| | |pairs]|]; auto.
  pose proof (doc_loop_wf pton doc pairs c Hc) as Hl.
  destruct (doc_loop pton doc pairs c) as [r c1] eqn:El. destruct (r <? 0); [auto|].
  cbn [snd] in Hl. pose proof (finish_misc_ok (misc c1) (wc_misc _ Hl)) as Hm.
  destruct (finish_misc (misc c1)) as [m|]; cbn [mbind option_bind].
  - destruct Hm, Hl. split; [by constructor|auto].
  - exists pairs. by rewrite El.
Qed.

(** What an initialisation of [c] from the document [load] may end in. *)
Definition sound inet_pton (load : option yaml_document) (c : Config) (result : option (Z * Config * Lib)) : Prop :=
  match result with
  | Some (res, c', l) =>
      wf_config c' /\ released l /\ (res = -1 \/ res = 0 /\ fits_stack (misc c'))
  | None => exists doc pairs, load = Some doc
      /\ yaml_document_get_root_node doc = Some (YAML_MAPPING_NODE pairs)
      /\ excessive (udp_copy_buffer_nums (misc (doc_loop inet_pton doc pairs (hev_config_reset c)).2))
  end.

Lemma sound_parsed inet_pton doc c l k : wf_static c -> released l ->
  (forall res c, k res c = Some (res, c, l)) ->
  sound inet_pton (Some doc) c
    ('(res, c) ← hev_config_parse_doc inet_pton doc (hev_config_reset c); k res c).
Proof.
  intros Hs Hr Hk. pose proof (parse_doc_ok inet_pton doc _ (reset_wf _ Hs)) as Hp.
  destruct (hev_config_parse_doc inet_pton doc _) as [[res c']|]; cbn.
  - rewrite Hk. destruct Hp. cbn. auto.
  - destruct Hp as (pairs & ? & ?). eauto.
Qed.

Lemma sound_failed inet_pton load c l : wf_static c -> released l ->
  sound inet_pton load c (Some (-1, hev_config_reset c, l)).
Proof. intros. split; [by apply reset_wf|auto]. Qed.

(** C38. Whatever the document, the settings are well-formed after an
    initialisation from a file or from memory: every string is terminated within
    its array, the port is 16 bits, a user name comes with a password, the TCP and
    the UDP read-write timeouts are positive (the connect timeout is any [int]: it
    is stored as it is read).  No call is made on a parser, a file or a document
    that is not live, and each of them that was acquired is released exactly once on
    every path.  If the initialisation succeeds a task's stack has room for the
    session's buffers.  The only way to no result is an [int] overflow by a number
    of UDP buffers beyond 1.4 million in absolute value. *)
Theorem config_init_correct inet_pton initialize open load c :
  wf_static c ->
  sound inet_pton load c (hev_config_init_from_file inet_pton initialize open load c)
  /\ sound inet_pton load c (hev_config_init_from_str inet_pton initialize load c).
Proof.
  intros Hs. unfold hev_config_init_from_file, hev_config_init_from_str.
  destruct initialize, open, load; split; cbn -[sound hev_config_reset hev_config_parse_doc];
    first [by apply sound_failed | eapply sound_parsed; [exact Hs| |intros; reflexivity]; by repeat split].
Qed.

(** ** Reloading *)

(** Two settings that the rest of the program cannot tell apart. *)
Record same (c1 c2 : Config) : Prop := {
  sm_tunnel : tunnel c1 = tunnel c2;
  sm_srv : hev_config_get_socks5_server c1 = hev_config_get_socks5_server c2;
  sm_mapdns : mapdns c1 = mapdns c2;
  sm_misc : misc c1 = misc c2
}.

(** What the parser keeps of it. *)
Definition alike (c1 c2 : Config) : Prop :=
  same c1 c2 /\ srv c1 = srv c2 /\ wf_static c1 /\ wf_static c2.

Lemma parse_socks5_alike doc n c1 c2 : alike c1 c2 ->
  (hev_config_parse_socks5 doc n c1).1 = (hev_config_parse_socks5 doc n c2).1
  /\ alike (hev_config_parse_socks5 doc n c1).2 (hev_config_parse_socks5 doc n c2).2.
Proof.
  intros Ha. unfold hev_config_parse_socks5. destruct n as [[| | |pairs]|]; try done.
  destruct (for_scalars doc socks5_key pairs no_keys) as [ad po um ua us pw mk pi tf].
  destruct po as [po|], ad as [ad|]; try done.
  destruct Ha as ([Ht Hg Hd Hm] & Hs & [Hu1 Hp1] & [Hu2 Hp2]).
  destruct us as [us|], pw as [pw|]; try done; cbn [fst snd]; rewrite Hs; (split; [done|]).
  - rewrite (strncpy_to_eq 255 (_user c1)), (strncpy_to_eq 255 (_user c2)),
      (strncpy_to_eq 255 (_pass c1)), (strncpy_to_eq 255 (_pass c2)) by done.
    split_and!; [by constructor|done|..]; split; cbn; apply array_strncpy_eq.
  - split_and!; [|done..]. constructor; cbn; auto.
    unfold hev_config_get_socks5_server in *. rewrite Hs in Hg. cbn. by injection Hg as -> ->.
Qed.

Lemma parse_section_alike pton doc k n c1 c2 : alike c1 c2 ->
  (parse_section pton doc k n c1).1 = (parse_section pton doc k n c2).1
  /\ alike (parse_section pton doc k n c1).2 (parse_section pton doc k n c2).2.
Proof.
  intros Ha. unfold parse_section. repeat case_match; auto using parse_socks5_alike.
  - unfold hev_config_parse_tunnel. destruct n as [[| | |pairs]|]; try done.
    destruct Ha as ([Ht Hg Hd Hm] & Hs & ?). cbn. rewrite Ht. split; [done|]. split; [|done].
    by constructor.
  - unfold hev_config_parse_mapdns. destruct n as [[| | |pairs]|]; try done.
    destruct Ha as ([Ht Hg Hd Hm] & Hs & ?). cbn. rewrite Hd. split; [done|]. split; [|done].
    by constructor.
  - unfold hev_config_parse_misc. destruct n as [[| | |pairs]|]; try done.
    destruct Ha as ([Ht Hg Hd Hm] & Hs & ?). rewrite Hm.
    destruct (for_scalars doc misc_key pairs _) as [m tcp udp rw]. cbn. split; [done|]. split; [|done].
    by constructor.
Qed.

Lemma doc_loop_alike pton doc pairs : forall c1 c2, alike c1 c2 ->
  (doc_loop pton doc pairs c1).1 = (doc_loop pton doc pairs c2).1
  /\ alike (doc_loop pton doc pairs c1).2 (doc_loop pton doc pairs c2).2.
Proof.
  induction pairs as [|[k v] pairs IH]; intros c1 c2 Ha; cbn [doc_loop]; [done|].
  destruct (_ || _); [auto|]. destruct (scalar _); [|done].
  pose proof (parse_section_alike pton doc l (yaml_document_get_node doc v) c1 c2 Ha) as [Hr Hs].
  destruct (parse_section _ _ _ _ c1) as [r1 d1], (parse_section _ _ _ _ c2) as [r2 d2].
  cbn in Hr, Hs. subst r2. destruct (r1 <? 0); [done|]. by apply IH.
Qed.

(** Results that agree, up to what cannot be told apart. *)
Definition agrees (r1 r2 : option (Z * Config * Lib)) : Prop :=
  match r1, r2 with
  | Some (res1, c1, l1), Some (res2, c2, l2) => res1 = res2 /\ same c1 c2 /\ l1 = l2
  | None, None => True
  | _, _ => False
  end.

Lemma reset_alike c1 c2 : wf_static c1 -> wf_static c2 -> alike (hev_config_reset c1) (hev_config_reset c2).
Proof. intros H1 H2. split; [by constructor|done]. Qed.

Lemma parse_doc_agrees pton doc c1 c2 l k : alike c1 c2 ->
  (forall res c, k res c = Some (res, c, l)) ->
  agrees ('(res, c) ← hev_config_parse_doc pton doc c1; k res c)
         ('(res, c) ← hev_config_parse_doc pton doc c2; k res c).
Proof.
  intros Ha Hk. unfold hev_config_parse_doc.
  destruct (yaml_document_get_root_node doc) as [[| | |pairs]|]; try (cbn; rewrite !Hk; cbn; split_and!; auto; apply Ha).
  pose proof (doc_loop_alike pton doc pairs c1 c2 Ha) as [Hr Hs].
  destruct (doc_loop _ _ _ c1) as [r1 d1], (doc_loop _ _ _ c2) as [r2 d2]. cbn in Hr, Hs. subst r2.
  destruct (r1 <? 0); [cbn; rewrite !Hk; cbn; split_and!; auto; apply Hs|]. destruct Hs as ([Ht Hg Hd Hm] & _). rewrite Hm.
  destruct (finish_misc (misc d2)); cbn; [|done]. rewrite !Hk. cbn. split_and!; auto. by constructor.
Qed.

(** A reload forgets what was loaded before: from any two states of the
    program an initialisation from the same source returns the same result, makes
    the same calls and leaves settings that no accessor tells apart. *)
Theorem config_reload inet_pton initialize open load c1 c2 :
  wf_static c1 -> wf_static c2 ->
  agrees (hev_config_init_from_file inet_pton initialize open load c1)
         (hev_config_init_from_file inet_pton initialize open load c2)
  /\ agrees (hev_config_init_from_str inet_pton initialize load c1)
            (hev_config_init_from_str inet_pton initialize load c2).
Proof.
  intros H1 H2. pose proof (reset_alike _ _ H1 H2) as Ha.
  unfold hev_config_init_from_file, hev_config_init_from_str.
  destruct initialize, open, load; split; cbn -[agrees hev_config_reset hev_config_parse_doc];
    first [split_and!; auto; apply Ha | eapply parse_doc_agrees; [exact Ha|intros; reflexivity]].
Qed.

(** ** The SOCKS5 server *)

Section Server.
Context (inet_pton : list Z -> option (list Z)) (doc : yaml_document).

(** The keys and values that the loop over a mapping sees. *)
Fixpoint scalars (pairs : list (Z * Z)) : list (list Z * list Z) :=
  match pairs with
  | [] => []
  | (k, v) :: pairs =>
      if (k =? 0) || (v =? 0) then scalars pairs else
      match scalar (yaml_document_get_node doc k), scalar (yaml_document_get_node doc v) with
      | Some key, Some value => (key, value) :: scalars pairs
      | _, _ => []
      end
  end.

(** The value of a key: the last one counts. *)
Definition value_of (k : string) (kvs : list (list Z * list Z)) : option (list Z) :=
  foldl (fun o kv => if streq kv.1 k then Some kv.2 else o) None kvs.

Lemma for_scalars_foldl {A} (body : list Z -> list Z -> A -> A) pairs : forall a,
  for_scalars doc body pairs a = foldl (fun a kv => body kv.1 kv.2 a) a (scalars pairs).
Proof.
  induction pairs as [|[k v] pairs IH]; intros a; cbn [for_scalars scalars]; [done|].
  destruct (_ || _); [done|]. destruct (scalar _); [|done]. destruct (scalar _); [|done]. cbn. by rewrite IH.
Qed.

Lemma value_of_snoc k kvs key v :
  value_of k (kvs ++ [(key, v)]) = if streq key k then Some v else value_of k kvs.
Proof. unfold value_of. by rewrite foldl_snoc. Qed.

Lemma socks5_keys_values kvs :
  foldl (fun a kv => socks5_key kv.1 kv.2 a) no_keys kvs =
  mkKeys (value_of "address" kvs) (value_of "port" kvs) (value_of "udp" kvs) (value_of "udp-address" kvs)
    (value_of "username" kvs) (value_of "password" kvs) (value_of "mark" kvs) (value_of "pipeline" kvs)
    (value_of "tcp-fastopen" kvs).
Proof.
  induction kvs as [|[key v] kvs IH] using rev_ind; [done|].
  rewrite foldl_snoc, IH, !value_of_snoc. cbn [fst snd socks5_key].
  repeat match goal with
  | |- context [if streq key ?s then _ else _] =>
      let E := fresh "E" in destruct (streq key s) eqn:E; [apply streq_eq in E; subst key; reflexivity|]
  end.
  done.
Qed.

Lemma scalars_no_nul pairs k : from_option no_nul True (value_of k (scalars pairs)).
Proof.
  assert (Hall : Forall (fun kv => no_nul kv.2) (scalars pairs)).
  { induction pairs as [|[a b] pairs IH]; cbn [scalars]; [constructor|].
    destruct (_ || _); [done|]. destruct (scalar (yaml_document_get_node doc a)) as [key|]; [|constructor].
    destruct (yaml_document_get_node doc b) as [[|v| |]|]; cbn [scalar]; constructor; [apply cstr_no_nul|done]. }
  generalize dependent (scalars pairs). intros kvs. induction kvs as [|kv kvs IH] using rev_ind; intros Hall; [done|].
  apply Forall_app in Hall as [Hall Hkv]. rewrite Forall_singleton in Hkv. destruct kv as [key v].
  rewrite value_of_snoc. destruct (streq key k); [done|]. by apply IH.
Qed.

(** The sections the loop over the document sees. *)
Fixpoint sections (pairs : list (Z * Z)) : list (list Z * option yaml_node) :=
  match pairs with
  | [] => []
  | (k, v) :: pairs =>
      if (k =? 0) || (v =? 0) then sections pairs else
      match scalar (yaml_document_get_node doc k) with
      | Some key => (key, yaml_document_get_node doc v) :: sections pairs
      | None => []
      end
  end.

Fixpoint parse_sections (l : list (list Z * option yaml_node)) (c : Config) : Z * Config :=
  match l with
  | [] => (0, c)
  | (key, node) :: l =>
      let '(res, c) := parse_section inet_pton doc key node c in
      if res <? 0 then (-1, c) else parse_sections l c
  end.

Lemma doc_loop_sections pairs : forall c, doc_loop inet_pton doc pairs c = parse_sections (sections pairs) c.
Proof.
  induction pairs as [|[k v] pairs IH]; intros c; cbn [doc_loop sections]; [done|].
  destruct (_ || _); [done|]. destruct (scalar _); [|done]. cbn [parse_sections].
  destruct (parse_section _ _ _ _ _) as [r c']. by rewrite IH.
Qed.

(** A section other than [socks5] that is a mapping. *)
Definition other (s : list Z * option yaml_node) : Prop :=
  s.1 <> str "socks5" /\ exists pairs, s.2 = Some (YAML_MAPPING_NODE pairs).

(** What the server's settings depend on. *)
Definition server_part (c : Config) : HevConfigServer * list Z * list Z := (srv c, _user c, _pass c).

Lemma parse_section_other s c : other s ->
  (parse_section inet_pton doc s.1 s.2 c).1 = 0
  /\ server_part (parse_section inet_pton doc s.1 s.2 c).2 = server_part c.
Proof.
  destruct s as [key node]. unfold other. cbn [fst snd]. intros (Hk & pairs & ->). unfold parse_section.
  destruct (streq key "tunnel"); [done|]. destruct (streq key "socks5") eqn:E; [by apply streq_eq in E|].
  destruct (streq key "mapdns"); [done|]. destruct (streq key "misc"); [|done].
  cbn. by destruct (for_scalars _ _ _ _).
Qed.

Lemma parse_sections_other l : forall c, Forall other l ->
  (parse_sections l c).1 = 0 /\ server_part (parse_sections l c).2 = server_part c.
Proof.
  induction l as [|[key node] l IH]; intros c Hl; cbn [parse_sections]; [done|].
  apply Forall_cons in Hl as [Ho Hl]. destruct (parse_section_other _ c Ho) as [Hr Hc].
  cbn [fst snd] in Hr, Hc. destruct (parse_section _ _ _ _ _) as [r c']. cbn in Hr, Hc. subst r. cbn.
  rewrite <- Hc. by apply IH.
Qed.

Lemma parse_sections_app l1 l2 c : Forall other l1 ->
  parse_sections (l1 ++ l2) c = parse_sections l2 (parse_sections l1 c).2.
Proof.
  revert c. induction l1 as [|[key node] l1 IH]; intros c Hl; cbn [app parse_sections]; [done|].
  apply Forall_cons in Hl as [Ho Hl]. destruct (parse_section_other _ c Ho) as [Hr _]. cbn [fst snd] in Hr.
  destruct (parse_section _ _ _ _ _) as [r c']. cbn in Hr. subst r. cbn. by apply IH.
Qed.

(** Whether the section [kvs] gives [key] the value [word], in any case. *)
Definition says (kvs : list (list Z * list Z)) (key word : string) : bool :=
  match value_of key kvs with Some v => strcasecmp v (str word) =? 0 | None => false end.

Definition complete (kvs : list (list Z * list Z)) : Prop :=
  is_Some (value_of "address" kvs) /\ is_Some (value_of "port" kvs)
  /\ (is_Some (value_of "username" kvs) <-> is_Some (value_of "password" kvs)).

(** The settings [c] have the server that the section [kvs] describes. *)
Record describes (kvs : list (list Z * list Z)) (c : Config) : Prop := {
  ds_addr : Some (cstr (addr (srv c))) = take 255 <$> value_of "address" kvs;
  ds_port : Some (port (srv c)) = (fun v => u16 (strtoul v 10)) <$> value_of "port" kvs;
  ds_udp_addr : cstr (udp_addr (srv c)) = default [] (take 255 <$> value_of "udp-address" kvs);
  ds_creds : hev_config_get_socks5_server c =
    (srv c, take 255 <$> value_of "username" kvs, take 255 <$> value_of "password" kvs);
  ds_mark : mark (srv c) = default 0 ((fun v => u32 (strtoul v 0)) <$> value_of "mark" kvs);
  ds_flags : (udp_in_udp (srv c), pipeline (srv c), fastopen (srv c)) =
    (Z.b2z (says kvs "udp" "udp"), Z.b2z (says kvs "pipeline" "true"), Z.b2z (says kvs "tcp-fastopen" "true"))
}.

Lemma describes_part kvs c1 c2 : server_part c1 = server_part c2 -> describes kvs c1 -> describes kvs c2.
Proof.
  unfold server_part. intros E [H1 H2 H3 H4 H5 H6]. injection E as Es Eu Ep.
  unfold hev_config_get_socks5_server in H4. rewrite Es, ?Eu, ?Ep in *. by constructor.
Qed.

Lemma no_keys_missing pairs c :
  ~ complete (scalars pairs) -> (hev_config_parse_socks5 doc (Some (YAML_MAPPING_NODE pairs)) c).1 = -1.
Proof.
  intros Hn. unfold hev_config_parse_socks5. rewrite for_scalars_foldl, socks5_keys_values.
  unfold complete in Hn.
  destruct (value_of "port" (scalars pairs)) eqn:E1, (value_of "address" (scalars pairs)) eqn:E2; try done.
  destruct (value_of "username" (scalars pairs)) eqn:E3, (value_of "password" (scalars pairs)) eqn:E4; try done;
    exfalso; apply Hn; split_and!; eauto; split; intros []; done.
Qed.

Lemma parse_socks5_describes pairs c : srv c = reset_srv -> wf_static c -> complete (scalars pairs) ->
  (hev_config_parse_socks5 doc (Some (YAML_MAPPING_NODE pairs)) c).1 = 0
  /\ describes (scalars pairs) (hev_config_parse_socks5 doc (Some (YAML_MAPPING_NODE pairs)) c).2.
Proof.
  intros Hs [Hu Hp] ([a Ea] & [p Ep] & Hc). pose proof (scalars_no_nul pairs) as Hn.
  pose proof (Hn "address"%string) as Na. pose proof (Hn "udp-address"%string) as Nua.
  pose proof (Hn "username"%string) as Nu. pose proof (Hn "password"%string) as Np. clear Hn.
  unfold hev_config_parse_socks5. rewrite for_scalars_foldl, socks5_keys_values, Hs. rewrite Ea, Ep in *.
  destruct (value_of "username" (scalars pairs)) as [u|] eqn:Eu,
    (value_of "password" (scalars pairs)) as [w|] eqn:Ew.
  2: { destruct (proj1 Hc ltac:(eauto)). done. }
  2: { destruct (proj2 Hc ltac:(eauto)). done. }
  all: cbn [fst snd] in *; (split; [done|]); constructor; cbn [srv addr port udp_addr mark udp_in_udp pipeline fastopen];
    rewrite ?Ea, ?Ep, ?Eu, ?Ew; unfold says.
  all: try (by destruct (value_of "mark" (scalars pairs))).
  all: try (rewrite (strncpy_to_eq 255) by apply array_zero; cbn; f_equal; by apply cstr_strncpy).
  all: try (destruct (value_of "udp-address" (scalars pairs)); [|done];
            rewrite (strncpy_to_eq 255) by apply array_zero; by apply cstr_strncpy).
  all: try (f_equal; [f_equal|]; repeat case_match; done).
  unfold hev_config_get_socks5_server. cbn [srv _user _pass user pass].
  by rewrite (strncpy_to_eq 255 (_user c)), (strncpy_to_eq 255 (_pass c)), (cstr_strncpy u), (cstr_strncpy w) by done.
Qed.

Lemma doc_loop_server c pairs before sp after :
  wf_static c ->
  sections pairs = before ++ (str "socks5", Some (YAML_MAPPING_NODE sp)) :: after ->
  Forall other before -> Forall other after ->
  (~ complete (scalars sp) -> (doc_loop inet_pton doc pairs (hev_config_reset c)).1 = -1)
  /\ (complete (scalars sp) -> (doc_loop inet_pton doc pairs (hev_config_reset c)).1 = 0
      /\ describes (scalars sp) (doc_loop inet_pton doc pairs (hev_config_reset c)).2).
Proof.
  intros Hw Hs Hb Ha. rewrite doc_loop_sections, Hs, parse_sections_app by done.
  destruct (parse_sections_other before (hev_config_reset c) Hb) as [_ Hc].
  set (c1 := (parse_sections before (hev_config_reset c)).2) in *. clearbody c1. injection Hc as Hs1 Hu1 Hp1.
  cbn [parse_sections]. change (parse_section inet_pton doc (str "socks5") (Some (YAML_MAPPING_NODE sp)) c1)
    with (hev_config_parse_socks5 doc (Some (YAML_MAPPING_NODE sp)) c1).
  pose proof (no_keys_missing sp c1) as Hno. pose proof (parse_socks5_describes sp c1 Hs1) as Hyes.
  destruct (hev_config_parse_socks5 _ _ _) as [r c2]. cbn [fst snd] in *. split; intros Hk.
  - by rewrite (Hno Hk).
  - destruct Hyes as [-> Hd]; [unfold wf_static; rewrite Hu1, Hp1; exact Hw|done|].
    cbn [Z.ltb Z.compare]. destruct (parse_sections_other after c2 Ha) as [Hr Hp]. split; [done|].
    eapply describes_part; [|exact Hd]. done.
Qed.

(** The program connects to the server that the document describes.  For a
    document with one [socks5] section among other sections, read into any state:
    without an address, without a port, or with only one of user name and password
    the initialisation fails; otherwise it succeeds, and the address, the port, the
    credentials (the first 255 bytes of each string), the mark and the flags are
    those of the section, where the last value given to a key counts, and what is
    not given is off. *)
Theorem config_server_correct c pairs before sp after :
  wf_static c -> yaml_document_get_root_node doc = Some (YAML_MAPPING_NODE pairs) ->
  sections pairs = before ++ (str "socks5", Some (YAML_MAPPING_NODE sp)) :: after ->
  Forall other before -> Forall other after ->
  match hev_config_init_from_str inet_pton true (Some doc) c with
  | Some (res, c', _) => (~ complete (scalars sp) /\ res = -1) \/ (complete (scalars sp) /\ res = 0 /\ describes (scalars sp) c')
  | None => excessive (udp_copy_buffer_nums (misc (doc_loop inet_pton doc pairs (hev_config_reset c)).2))
  end.
Proof.
  intros Hw Hroot Hs Hb Ha. destruct (doc_loop_server c pairs before sp after Hw Hs Hb Ha) as [Hno Hyes].
  pose proof (parse_doc_ok inet_pton doc _ (reset_wf _ Hw)) as Hp.
  unfold hev_config_init_from_str. cbn -[hev_config_reset hev_config_parse_doc]. unfold hev_config_parse_doc in *. rewrite Hroot in *.
  destruct (doc_loop inet_pton doc pairs (hev_config_reset c)) as [r c1] eqn:El. cbn [fst snd] in *.
  assert (Hdec : complete (scalars sp) \/ ~ complete (scalars sp)).
  { unfold complete. destruct (value_of "address" _), (value_of "port" _), (value_of "username" _),
      (value_of "password" _); (left; split_and!; by eauto) || (right; intros ([] & [] & [? ?]); naive_solver). }
  destruct Hdec as [Hc|Hc].
  - destruct (Hyes Hc) as [-> Hd]. cbn [Z.ltb Z.compare] in *.
    destruct (finish_misc (misc c1)); cbn in *.
    + right. split_and!; auto. by eapply describes_part; [|exact Hd].
    + destruct Hp as (pairs' & E & He). injection E as <-. by rewrite El in He.
  - rewrite (Hno Hc). cbn. auto.
Qed.

End Server.

(** ** A document *)

Module ConfigWitness.

Definition no_pton (_ : list Z) : option (list Z) := None.

(** The program before it has read any settings. *)
Definition started : Config :=
  mkConfig reset_tunnel reset_srv reset_mapdns reset_misc (replicate 256 0) (replicate 256 0).

Lemma started_ok : wf_static started.
Proof. split; apply array_zero. Qed.

Definition socks5_section : list (Z * Z) := [(4, 5); (6, 7)].

Definition document : yaml_document :=
  [YAML_MAPPING_NODE [(2, 3); (8, 9)]; YAML_SCALAR_NODE (str "socks5"); YAML_MAPPING_NODE socks5_section;
   YAML_SCALAR_NODE (str "address"); YAML_SCALAR_NODE (str "127.0.0.1");
   YAML_SCALAR_NODE (str "port"); YAML_SCALAR_NODE (str "1080");
   YAML_SCALAR_NODE (str "misc"); YAML_MAPPING_NODE []].

Lemma config_init_correct_witness :
  sound no_pton (Some document) started (hev_config_init_from_file no_pton true true (Some document) started)
  /\ sound no_pton (Some document) started (hev_config_init_from_str no_pton true (Some document) started).
Proof. apply (config_init_correct no_pton true true (Some document) started). exact started_ok. Defined.

(** The settings after reading a document with credentials, and a second one. *)
Definition used : Config :=
  mkConfig reset_tunnel reset_srv reset_mapdns reset_misc (str "bob" ++ replicate 253 0) (replicate 256 0).

Lemma config_reload_witness :
  agrees (hev_config_init_from_file no_pton true true (Some document) started)
         (hev_config_init_from_file no_pton true true (Some document) used)
  /\ agrees (hev_config_init_from_str no_pton true (Some document) started)
            (hev_config_init_from_str no_pton true (Some document) used).
Proof.
  apply (config_reload no_pton true true (Some document) started used); [exact started_ok|].
  split; [exists (str "bob" ++ replicate 252 0)|apply array_zero]; by split.
Defined.

Lemma config_server_correct_witness :
  complete (scalars document socks5_section)
  /\ match hev_config_init_from_str no_pton true (Some document) started with
     | Some (res, c', _) => (~ complete (scalars document socks5_section) /\ res = -1)
         \/ (complete (scalars document socks5_section) /\ res = 0 /\ describes (scalars document socks5_section) c')
     | None => excessive (udp_copy_buffer_nums
         (misc (doc_loop no_pton document [(2, 3); (8, 9)] (hev_config_reset started)).2))
     end.
Proof.
  split.
  - split_and!; [by eexists..|]. split; intros [x Hx]; discriminate Hx.
  - apply (config_server_correct no_pton document started [(2, 3); (8, 9)] [] socks5_section
      [(str "misc", Some (YAML_MAPPING_NODE []))]); [exact started_ok|reflexivity|reflexivity|constructor|].
    apply Forall_singleton. split; [discriminate|by eexists].
Defined.

(** The connect timeout is stored as it is read: this document is accepted and sets
    it to zero. *)
Definition impatient : yaml_document :=
  [YAML_MAPPING_NODE [(2, 3); (8, 9)]; YAML_SCALAR_NODE (str "socks5"); YAML_MAPPING_NODE socks5_section;
   YAML_SCALAR_NODE (str "address"); YAML_SCALAR_NODE (str "127.0.0.1");
   YAML_SCALAR_NODE (str "port"); YAML_SCALAR_NODE (str "1080");
   YAML_SCALAR_NODE (str "misc"); YAML_MAPPING_NODE [(10, 11)];
   YAML_SCALAR_NODE (str "connect-timeout"); YAML_SCALAR_NODE (str "0")].

Example connect_timeout_unchecked :
  option_map (fun '(res, c, _) => (res, hev_config_get_misc_connect_timeout c))
    (hev_config_init_from_str no_pton true (Some impatient) started) = Some (0, 0).
Proof. vm_compute. reflexivity. Qed.

End ConfigWitness.
