(* ===== verification/LwipAddr.v ===== *)
(** * Addresses of lwIP

    Models the conversions of hev/src/misc/hev-utils.c between the addresses of lwIP
    and those of the SOCKS5 protocol, where mapped DNS and the client meet: the
    address of a connection is looked up, and what was mapped is sent as a name. *)

From S2P Require Import Prelude RBTree SearchTree HevList MappedDns DnsQuery Socks5Addr.

(** ** Data *)

Definition IPADDR_TYPE_V4 : Z := 0.
Definition IPADDR_TYPE_V6 : Z := 6.
Definition IPADDR_TYPE_ANY : Z := 46.

(** [ip_addr_t]: the union as the memory it occupies, and the type. *)
Record ip_addr_t := mkIp { u_addr : list Z; ip_type : Z }.

Definition load32 (m : list Z) (off : nat) : Z := load16 m off + 2 ^ 16 * load16 m (S (S off)).

(** ** Operations *)

(** [dns]: the object of [hev_mapped_dns_get], or NULL. *)
Definition hev_socks5_addr_from_lwip (dns : option HevMappedDNS) (addr : HevSocks5Addr) (ip : ip_addr_t) (port : Z)
  : option (Z * HevSocks5Addr * option HevMappedDNS) :=
  if ip_type ip =? IPADDR_TYPE_V4 then
    '(nm, dns) ← match dns with
                 | Some d => '(nm, d) ← hev_mapped_dns_lookup d (s32 (ntohl (load32 (u_addr ip) 0))); Some (nm, Some d)
                 | None => Some (None, None)
                 end;
    Some (0, match nm with
             | Some nm => (hev_socks5_addr_from_name addr nm (htons port)).1
             | None => (hev_socks5_addr_from_ipv4 addr (u_addr ip) (htons port)).1
             end, dns)
  else if ip_type ip =? IPADDR_TYPE_V6 then
    Some (0, (hev_socks5_addr_from_ipv6 addr (u_addr ip) (htons port)).1, dns)
  else Some (-1, addr, dns).

Definition hev_socks5_addr_into_lwip (addr : HevSocks5Addr) (ip : ip_addr_t) (port : Z) : Z * ip_addr_t * Z :=
  if atype addr =? HEV_SOCKS5_ADDR_TYPE_IPV4 then
    (0, mkIp (splice 0 (ipv4_addr addr) (u_addr ip)) IPADDR_TYPE_V4, ntohs (ipv4_port addr))
  else if atype addr =? HEV_SOCKS5_ADDR_TYPE_IPV6 then
    (0, mkIp (splice 0 (ipv6_addr addr) (u_addr ip)) IPADDR_TYPE_V6, ntohs (ipv6_port addr))
  else (-1, ip, port).

(** ** Lemmas *)

(** The bytes of an address on the wire, read as the code reads them. *)
Lemma ntohl_wire v r : is_s32 v ->
  s32 (ntohl (load32 (u8 (Z.shiftr v 24) :: u8 (Z.shiftr v 16) :: u8 (Z.shiftr v 8) :: u8 v :: r) 0)) = v.
Proof.
  intros Hv. unfold is_s32 in Hv. rewrite !Z.shiftr_div_pow2 by lia. unfold load32, load16, nthb, ntohl, bswap32, u8, s32. cbn.
  change (Z.pow_pos 2 ?p) with (2 ^ Z.pos p). zdiv.
Qed.

(** An address of the pool is an [int]. *)
Lemma pool_s32 nt k i : 0 <= k <= 31 -> is_s32 nt -> Z.land nt (- 2 ^ k) = nt -> 0 <= i < 2 ^ k -> is_s32 (Z.lor nt i).
Proof.
  intros Hk Hnt Hland Hi. unfold is_s32 in *.
  assert (Hm : - 2 ^ k = Z.lnot (Z.ones k)) by (unfold Z.lnot; rewrite Z.ones_equiv; lia).
  rewrite Hm, <- Z.ldiff_land, Z.ldiff_ones_r, Z.shiftl_mul_pow2, Z.shiftr_div_pow2 in Hland by lia.
  destruct (pool_address nt k i) as [Ha Hb]; [lia| |done|].
  { rewrite Hm, <- Z.ldiff_land, Z.ldiff_ones_r, Z.shiftl_mul_pow2, Z.shiftr_div_pow2; lia. }
  rewrite Hm, <- Z.ldiff_land, Z.ldiff_ones_r, Z.shiftl_mul_pow2, Z.shiftr_div_pow2 in Ha by lia.
  rewrite Hm, Z.lnot_involutive, Z.land_ones in Hb by lia.
  assert (Z.lor nt i = nt + i) as -> by (rewrite (Z.div_mod (Z.lor nt i) (2 ^ k)), Hb by lia; lia).
  assert (H31 : 2 ^ 31 = 2 ^ (31 - k) * 2 ^ k) by (rewrite <- Z.pow_add_r by lia; f_equal; lia).
  assert (nt / 2 ^ k < 2 ^ (31 - k)) by (apply (Z.mul_lt_mono_pos_r (2 ^ k)); lia).
  assert ((nt / 2 ^ k + 1) * 2 ^ k <= 2 ^ (31 - k) * 2 ^ k) by (apply Z.mul_le_mono_nonneg_r; lia). lia.
Qed.

Lemma into_lwip_ipv4 ip port tl x p : length ip = 4%nat -> is_u16 port ->
  hev_socks5_addr_into_lwip (wire (AIPv4 ip port) ++ tl) x p = (0, mkIp (splice 0 ip (u_addr x)) IPADDR_TYPE_V4, port).
Proof.
  intros Hip Hp. explode ip. unfold hev_socks5_addr_into_lwip. cbn.
  unfold ipv4_port, load16, nthb. cbn. rewrite be16_load by done. unfold ntohs, htons. by rewrite bswap16_invol.
Qed.

Lemma into_lwip_ipv6 ip port tl x p : length ip = 16%nat -> is_u16 port ->
  hev_socks5_addr_into_lwip (wire (AIPv6 ip port) ++ tl) x p = (0, mkIp (splice 0 ip (u_addr x)) IPADDR_TYPE_V6, port).
Proof.
  intros Hip Hp. explode ip. unfold hev_socks5_addr_into_lwip. cbn.
  unfold ipv6_port, load16, nthb. cbn. rewrite be16_load by done. unfold ntohs, htons. by rewrite bswap16_invol.
Qed.

(** ** Properties *)

(** An address that is not mapped survives the way to the SOCKS5 server and back:
    what [hev_socks5_addr_into_lwip] makes of the address that
    [hev_socks5_addr_from_lwip] built is the same address, type and port.  Of the
    other types of lwIP none is converted, and a name cannot be converted back. *)
Theorem lwip_addr_roundtrip m ip port x p :
  length m = sizeof_HevSocks5Addr -> length (u_addr ip) = 16%nat -> length (u_addr x) = 16%nat -> is_u16 port ->
  let n := if ip_type ip =? IPADDR_TYPE_V4 then 4%nat else 16%nat in
  (ip_type ip = IPADDR_TYPE_V4 \/ ip_type ip = IPADDR_TYPE_V6 ->
    exists a ip', hev_socks5_addr_from_lwip None m ip port = Some (0, a, None)
      /\ length a = sizeof_HevSocks5Addr
      /\ hev_socks5_addr_into_lwip a x p = (0, ip', port)
      /\ ip_type ip' = ip_type ip /\ take n (u_addr ip') = take n (u_addr ip) /\ length (u_addr ip') = 16%nat)
  /\ (ip_type ip <> IPADDR_TYPE_V4 -> ip_type ip <> IPADDR_TYPE_V6 ->
      hev_socks5_addr_from_lwip None m ip port = Some (-1, m, None)).
Proof.
  intros Hm Hip Hx Hp n. split.
  - intros [Ht|Ht]; unfold hev_socks5_addr_from_lwip, n; rewrite Ht; cbn [Z.eqb IPADDR_TYPE_V4 IPADDR_TYPE_V6].
    + assert (E : hev_socks5_addr_from_ipv4 m (u_addr ip) (htons port) = hev_socks5_addr_from_ipv4 m (take 4 (u_addr ip)) (htons port))
        by (unfold hev_socks5_addr_from_ipv4; by rewrite take_take).
      cbn [mbind option_bind]. rewrite E, from_ipv4_wire by (len || done). eexists _, _. split; [done|]. cbn [fst].
      rewrite into_lwip_ipv4 by (len || done). split; [|split; [done|]].
      * unfold sizeof_HevSocks5Addr in *. cbn. len.
      * cbn. split; [done|]. rewrite splice_front. split; [|len]. rewrite take_app_le by len. by rewrite take_take.
    + assert (E : hev_socks5_addr_from_ipv6 m (u_addr ip) (htons port) = hev_socks5_addr_from_ipv6 m (take 16 (u_addr ip)) (htons port))
        by (unfold hev_socks5_addr_from_ipv6; by rewrite take_take).
      rewrite E, from_ipv6_wire by (len || done). eexists _, _. split; [done|]. cbn [fst].
      rewrite into_lwip_ipv6 by (len || done). split; [|split; [done|]].
      * unfold sizeof_HevSocks5Addr in *. cbn. len.
      * cbn. split; [done|]. rewrite splice_front. split; [|len]. rewrite take_app_le by len. by rewrite take_take.
  - intros H4 H6. unfold hev_socks5_addr_from_lwip.
    by rewrite (proj2 (Z.eqb_neq _ _) H4), (proj2 (Z.eqb_neq _ _) H6).
Qed.

Section Names.
Context (malloc : nat -> gmap Z HevMappedDNSNode -> option Z).
Hypothesis malloc_fresh : forall n m a, malloc n m = Some a -> a <> 0 /\ m !! a = None.

(** C5. A connection to an address that mapped DNS answered is requested by name.  For
    a packet that asks for the address of a name of at most 255 bytes, take the four
    bytes of the address from the response of [hev_mapped_dns_handle]; after fewer than
    [max] other look-ups, [hev_socks5_addr_from_lwip] of that address is the SOCKS5
    address with the name that was asked for and the port of the connection. *)
Theorem mapped_connection_by_name d c k ls i0 i1 f0 f1 a0 a1 n0 n1 r0 r1 extra res ops m port pad :
  rel d c -> 0 <= k <= 31 -> is_s32 (net d) -> mask d = - 2 ^ k -> Z.land (net d) (mask d) = net d ->
  has_memory malloc d = true ->
  ls <> [] -> Forall label_ok ls -> (length (dotted ls) <= 255)%nat -> is_u8 f0 -> is_u8 f1 ->
  let qname := encode_name ls in
  let req := [i0; i1; f0; f1; 0; 1; a0; a1; n0; n1; r0; r1] ++ qname ++ [0; 1; 0; 1] ++ extra in
  (length req <= length res)%nat -> (32 + length qname <= length res)%nat ->
  Z.of_nat (length ops) < max d -> length m = sizeof_HevSocks5Addr -> is_u16 port ->
  exists d' res' outs d3 d4 tl,
    hev_mapped_dns_handle malloc d req res = Some (d', Z.of_nat (32 + length qname), res') /\
    exec_all malloc ops d' = Some (outs, d3) /\
    let ip := mkIp (slice (28 + length qname) 4 res' ++ pad) IPADDR_TYPE_V4 in
    hev_socks5_addr_from_lwip (Some d3) m ip port = Some (0, wire (AName (dotted ls) port) ++ tl, Some d4)
    /\ length (wire (AName (dotted ls) port) ++ tl) = sizeof_HevSocks5Addr.
Proof.
  intros Hr Hk Hs Hmk Hnt Hmem Hne Hok Hlen Hf0 Hf1 qname req Hlr Hl32 Hops Hm Hp.
  destruct (find_gives_index malloc malloc_fresh d c (dotted ls) Hr Hmem) as (i & d' & c' & Hf & Hi0 & _ & _ & Hn' & _).
  destruct (find_survives malloc malloc_fresh d c k (dotted ls) i d' ops Hr ltac:(lia) Hmk Hnt Hf Hi0 Hops)
    as (Him & Hpool & outs & d3 & d4 & Hrun & Hl).
  destruct (handle_query malloc malloc_fresh d ls i0 i1 f0 f1 a0 a1 n0 n1 r0 r1 extra res i d' Hne Hok Hf0 Hf1 Hlr Hl32 Hf Hi0)
    as (res' & Hh & Ht).
  assert (Hc : cstring (dotted ls)) by (apply Forall_drop, cstring_dots, Hok).
  destruct (from_name_wire m (dotted ls) port Hm Hlen Hc Hp) as (tl & Hn & Htl).
  exists d', res', outs, d3, d4, tl. split; [done|]. split; [done|]. cbv zeta.
  assert (Hip : slice (28 + length qname) 4 res' = drop 12 (answer_record (Z.lor (net d') i))).
  { unfold slice. replace (take 4 (drop (28 + length qname) res'))
      with (drop (28 + length qname) (take (32 + length qname) res')) by (rewrite skipn_firstn_comm; f_equal; lia).
    fold qname in Ht. rewrite Ht, !app_assoc, drop_app_ge by (repeat (rewrite length_app; cbn [length]); lia).
    f_equal. repeat (rewrite length_app; cbn [length]). lia. }
  rewrite Hip, Hn'. unfold hev_socks5_addr_from_lwip. cbn [ip_type u_addr answer_record drop app IPADDR_TYPE_V4 Z.eqb].
  rewrite ntohl_wire by (rewrite Hmk in Hnt; apply (pool_s32 _ k); lia || done).
  rewrite Hl. cbn [mbind option_bind]. rewrite Hn. cbn [fst]. split; [done|]. by rewrite Htl.
Qed.
End Names.

(** A name of 256 bytes or more, which a query can carry, loses all of its bytes:
    in an object whose next byte is zero the length of the copy, 256, does not fit
    [domain.len], and the address is that of the empty name. *)
Theorem addr_from_long_name_empty m name port :
  length m = sizeof_HevSocks5Addr -> nthb m 258 = 0 -> cstring name -> (256 <= length name)%nat -> is_u16 port ->
  exists tl, hev_socks5_addr_from_name m name (htons port) = (wire (AName [] port) ++ tl, 4).
Proof.
  intros Hm Hz Hc Hn Hp. unfold hev_socks5_addr_from_name, sizeof_HevSocks5Addr in *. rewrite mem16_htons by done.
  assert (H2 : exists b r0 r1, m = b :: r0 :: r1) by (destruct m as [|b [|r0 r1]]; simpl in Hm; [lia..|eauto]).
  destruct H2 as (b & r0 & r1 & ->). change (splice 0 [?x] (b :: r0 :: r1)) with ([x; r0] ++ r1).
  rewrite splice_behind by done. unfold strncpy. replace (256 - length name)%nat with 0%nat by lia.
  cbn [replicate length] in *. rewrite app_nil_r, length_take, Nat.min_l by lia.
  unfold nthb in Hz. cbn in Hz. destruct (drop 256 r1) as [|z tl] eqn:Ed.
  { apply (f_equal length) in Ed. rewrite length_drop in Ed. simpl in *. lia. }
  assert (z = 0) as ->.
  { rewrite <- Hz. replace (r1 !! 256%nat) with (drop 256 r1 !! 0%nat) by (rewrite lookup_drop; done). by rewrite Ed. }
  assert (Hd : domain_addr ([3; r0] ++ take 256 name ++ 0 :: tl) = take 256 name ++ 0 :: tl) by done.
  change HEV_SOCKS5_ADDR_TYPE_NAME with 3 in *. rewrite Hd, cstr_of_cstring by (by apply Forall_take).
  rewrite length_take, Nat.min_l by lia. change (u8 (Z.of_nat 256)) with 0. cbn [Z.to_nat Nat.add].
  change ([3; r0] ++ ?l) with ([3] ++ [r0] ++ l). rewrite splice_over by done.
  rewrite (app_assoc [3] [0]), splice_behind by done. eexists. reflexivity.
Qed.

Module LwipWitness.
Import DnsWitness.

Definition blank : HevSocks5Addr := replicate 260 0.

Lemma lwip_addr_roundtrip_witness :
  exists a ip', hev_socks5_addr_from_lwip None blank (mkIp [192; 0; 2; 1; 0; 0; 0; 0; 0; 0; 0; 0; 0; 0; 0; 0] 0) 443 = Some (0, a, None)
    /\ hev_socks5_addr_into_lwip a (mkIp (replicate 16 255) 46) 0 = (0, ip', 443)
    /\ take 4 (u_addr ip') = [192; 0; 2; 1].
Proof.
  destruct (lwip_addr_roundtrip blank (mkIp [192; 0; 2; 1; 0; 0; 0; 0; 0; 0; 0; 0; 0; 0; 0; 0] 0) 443 (mkIp (replicate 16 255) 46) 0)
    as [H _]; [reflexivity..|unfold is_u16; lia|].
  destruct (H (or_introl eq_refl)) as (a & ip' & H1 & _ & H2 & _ & H3 & _). by exists a, ip'.
Defined.

(** [a.b] is asked for, another name is, and a connection to port 80 is made. *)
Lemma mapped_connection_by_name_witness :
  exists d' res' outs d3 d4 tl,
    hev_mapped_dns_handle alloc start [0; 7; 1; 0; 0; 1; 0; 0; 0; 0; 0; 0; 1; 97; 1; 98; 0; 0; 1; 0; 1] (replicate 64 0)
      = Some (d', 37, res') /\
    exec_all alloc [OpFind [99]] d' = Some (outs, d3) /\
    hev_socks5_addr_from_lwip (Some d3) blank (mkIp (slice 33 4 res' ++ replicate 12 0) IPADDR_TYPE_V4) 80
      = Some (0, wire (AName [97; 46; 98] 80) ++ tl, Some d4).
Proof.
  destruct (mapped_connection_by_name alloc alloc_fresh start [] 17 [[97]; [98]] 0 7 1 0 0 0 0 0 0 0 [] (replicate 64 0)
    [OpFind [99]] blank 80 (replicate 12 0)) as (d' & res' & outs & d3 & d4 & tl & H1 & H2 & H3 & _);
    [exact start_rel|lia|unfold is_s32, start, NET; simpl; lia|reflexivity|reflexivity|reflexivity|discriminate|
     repeat constructor; simpl; lia|simpl; lia|unfold is_u8; lia|unfold is_u8; lia|simpl; lia|simpl; lia|simpl; lia|
     reflexivity|unfold is_u16; lia|].
  by exists d', res', outs, d3, d4, tl.
Defined.

Lemma addr_from_long_name_empty_witness :
  exists tl, hev_socks5_addr_from_name blank (replicate 300 97) (htons 80) = (wire (AName [] 80) ++ tl, 4).
Proof.
  apply (addr_from_long_name_empty blank (replicate 300 97) 80); [reflexivity|reflexivity| |simpl; lia|unfold is_u16; lia].
  apply Forall_replicate. lia.
Defined.

End LwipWitness.
