(* ===== verification/SessionTcp.v ===== *)
(** * TCP sessions

    Models hev/src/hev-socks5-session-tcp.c: the task that copies between the
    connection of an application (a [tcp_pcb] of lwIP) and the socket to the SOCKS5
    server, and the callbacks that lwIP makes meanwhile.  Bytes of the application
    wait in the [pbuf] chain [queue], bytes of the server in the ring buffer
    [buffer], where they stay until the application has acknowledged them.

    lwIP, the kernel and the other tasks are the environment: it chooses the
    result of every call and which callbacks run where the task can lose the
    processor (at a yield, or waiting for the mutex).  [offers] is what is relied
    on: lwIP respects its receive window and acknowledges only what it was given. *)

From S2P Require Import Prelude Buffers TaskIO Splice.
Import Ring.

(** [TCP_WND] and [TCP_SND_BUF] of lwipopts.h. *)
Definition TCP_WND : Z := 8 * 8191.
Definition TCP_SND_BUF : Z := 8 * 8191.

(** ** Chains of buffers *)

(** A [pbuf] chain is the list of its payloads; NULL is the empty list. *)
Definition pbufs := list (list Z).

(** The loop of [pbuf_free_header]; the count is a [u16_t]. *)
Fixpoint pbuf_free_header (q : pbufs) (free_left : Z) : pbufs :=
  match q with
  | [] => []
  | p :: q' =>
      if free_left =? 0 then q
      else if Z.of_nat (length p) <=? free_left
      then pbuf_free_header q' (u16 (free_left - Z.of_nat (length p)))
      else drop (Z.to_nat free_left) p :: q'
  end.

(** ** The session and its environment *)

Record HevSocks5SessionTCP := mkTcp {
  queue : pbufs;
  pcb : bool;              (** the pointer is not NULL *)
  buffer : HevRingBuffer;
  pcb_eof : bool;
  timeout : Z              (** of the [HevSocks5] it is *)
}.

Record Env := mkEnv {
  sock_in : list Z;        (** what the server has still to send *)
  sock_out : list Z;       (** what was written to the server *)
  sock_shut : bool;
  sock_fail : bool;        (** a write failed *)
  rcvd : list Z;           (** what lwIP has handed over *)
  recved : Z;              (** the sum of [tcp_recved] *)
  wrote : list Z;          (** what [tcp_write] has taken *)
  acked : Z;               (** the sum of the [sent] callbacks *)
  fin : bool;              (** [tcp_shutdown] was called *)
  refused : bool;          (** a [tcp_write] failed *)
  lwip_err : bool          (** a [tcp_write] or a [tcp_output] failed *)
}.

Definition state := (HevSocks5SessionTCP * Env)%type.

Definition set_queue q s := mkTcp q (pcb s) (buffer s) (pcb_eof s) (timeout s).
Definition set_buffer b s := mkTcp (queue s) (pcb s) b (pcb_eof s) (timeout s).

Definition env_sock i o sh fl e :=
  mkEnv i o sh fl (rcvd e) (recved e) (wrote e) (acked e) (fin e) (refused e) (lwip_err e).
Definition env_rcv r n e :=
  mkEnv (sock_in e) (sock_out e) (sock_shut e) (sock_fail e) r n (wrote e) (acked e) (fin e) (refused e) (lwip_err e).
Definition env_snd w a f rf le e :=
  mkEnv (sock_in e) (sock_out e) (sock_shut e) (sock_fail e) (rcvd e) (recved e) w a f rf le.

(** ** Callbacks *)

Inductive callback := CbRecv (p : option pbufs) | CbSent (len : Z) | CbErr.

Definition tcp_recv_handler (p : option pbufs) (s : HevSocks5SessionTCP) : HevSocks5SessionTCP :=
  match p with
  | Some p => match queue s with [] => set_queue p s | q => set_queue (q ++ p) s end
  | None => mkTcp (queue s) (pcb s) (buffer s) true (timeout s)
  end.

Definition tcp_sent_handler (len : Z) (s : HevSocks5SessionTCP) : HevSocks5SessionTCP :=
  set_buffer (hev_ring_buffer_read_release (buffer s) len) s.

(** [hev_socks5_session_terminate] clears the timeout. *)
Definition tcp_err_handler (s : HevSocks5SessionTCP) : HevSocks5SessionTCP :=
  mkTcp (queue s) false (buffer s) (pcb_eof s) 0.

Definition size_of (l : list Z) : Z := Z.of_nat (length l).

(** What lwIP may do: nothing for a connection that is gone, no data after the
    end of the stream or beyond the window, no acknowledgement of what it was not
    given. *)
Definition offers (cb : callback) (st : state) : bool :=
  let '(s, e) := st in
  pcb s &&
  match cb with
  | CbRecv (Some p) =>
      negb (pcb_eof s) && (size_of (rcvd e) - recved e + size_of (concat p) <=? TCP_WND)
  | CbRecv None => true
  | CbSent n => (0 <=? n) && (n <=? size_of (wrote e) - acked e)
  | CbErr => true
  end.

Definition deliver (cb : callback) (st : state) : option state :=
  if negb (offers cb st) then None else
  let '(s, e) := st in
  Some match cb with
  | CbRecv p => (tcp_recv_handler p s, env_rcv (rcvd e ++ concat (default [] p)) (recved e) e)
  | CbSent n => (tcp_sent_handler n s, env_snd (wrote e) (acked e + n) (fin e) (refused e) (lwip_err e) e)
  | CbErr => (tcp_err_handler s, e)
  end.

Fixpoint callbacks (cbs : list callback) (st : state) : option state :=
  match cbs with
  | [] => Some st
  | cb :: cbs => st ← deliver cb st; callbacks cbs st
  end.

(** ** The application's bytes *)

(** [wr]: the kernel's answer to the [writev]; [cbs]: what runs while the task
    waits for the mutex. *)
Definition tcp_splice_f (wr : ioev) (cbs : list callback) (st : state) : option (Z * state) :=
  let '(s, e) := st in
  match queue s with
  | [] =>
      if pcb_eof s then Some (-1, (s, env_sock (sock_in e) (sock_out e) true (sock_fail e) e))
      else Some (0, st)
  | _ =>
      let '(n, errno, sent) := sys_send wr (concat (take 64 (queue s))) in
      if n <=? 0 then
        Some (soft n errno,
              (s, env_sock (sock_in e) (sock_out e) (sock_shut e) (sock_fail e || (soft n errno <? 0)) e))
      else
        '(s, e) ← callbacks cbs (s, env_sock (sock_in e) (sock_out e ++ sent) (sock_shut e) (sock_fail e) e);
        Some (1, (set_queue (pbuf_free_header (queue s) (u16 n)) s,
                  env_rcv (rcvd e) (if pcb s then recved e + u16 n else recved e) e))
  end.

(** ** The server's bytes *)

(** The loop of [tcp_write] over the vector; [oks]: its results. *)
Fixpoint write_iov (d : list Z) (iov : list iovec) (oks : list bool) (e : Env) : Env :=
  match iov with
  | [] => e
  | v :: iov =>
      let ok := default true (head oks) in
      let len := u16 (iov_len v) in
      write_iov d iov (tail oks)
        (if ok then env_snd (wrote e ++ iov_load d [Iov (iov_base v) len]) (acked e) (fin e) (refused e) (lwip_err e) e
         else env_snd (wrote e) (acked e) (fin e) true true e)
  end.

Definition iov_sum (iov : list iovec) : Z := Z.of_nat (iov_total iov).

(** The part of [tcp_splice_b] under the mutex; [output]: whether [tcp_output]
    succeeds. *)
Definition splice_b_locked (oks : list bool) (output : bool) (res : Z) (st : state) : Z * state :=
  let '(s, e) := st in
  if pcb s then
    match hev_ring_buffer_reading (buffer s) with
    | [] =>
        (res, (s, if res <? 0 then env_snd (wrote e) (acked e) true (refused e) (lwip_err e) e else e))
    | iov =>
        let e1 := write_iov (data (buffer s)) iov oks (env_snd (wrote e) (acked e) (fin e) (refused e) false e) in
        let err := lwip_err e1 || negb output in
        let e2 := env_snd (wrote e1) (acked e1) (fin e1) (refused e1) (lwip_err e || err) e1 in
        (if err then -1 else 1, (set_buffer (hev_ring_buffer_read_finish (buffer s) (iov_sum iov)) s, e2))
    end
  else (-1, st).

Definition tcp_splice_b (rd : ioev) (cbs : list callback) (oks : list bool) (output : bool) (st : state)
  : option (Z * state) :=
  let '(s, e) := st in
  let iov := hev_ring_buffer_writing (buffer s) in
  let '(res, st) :=
    match iov with
    | [] => (0, st)
    | _ =>
        let '(n, errno, got, inq) := sys_recv rd (sock_in e) (iov_total iov) in
        let e := env_sock inq (sock_out e) (sock_shut e) (sock_fail e) e in
        if n <=? 0 then (soft n errno, (s, e)) else (1, (set_buffer (ring_fill (buffer s) got) s, e))
    end in
  st ← callbacks cbs st;
  Some (splice_b_locked oks output res st).

(** ** The task *)

(** Where the task is: in the loop, waiting for acknowledgements, or past both;
    the flag tells that a yielder has told it to give up. *)
Inductive phase := Running (res_f res_b : Z) | Draining (gave_up : bool) | Finished (gave_up : bool).

(** The choices of the environment in one turn of a loop. *)
Record turn := mkTurn {
  t_wr : ioev; t_lock_f : list callback;
  t_rd : ioev; t_lock_b : list callback; t_oks : list bool; t_output : bool;
  t_yield : list callback; t_stop : HevTaskYieldType -> Z
}.

Definition splice_turn (t : turn) (c : phase * state) : option (phase * state) :=
  let '(ph, st) := c in
  match ph with
  | Running res_f res_b =>
      '(res_f, st) ← (if 0 <=? res_f then tcp_splice_f (t_wr t) (t_lock_f t) st else Some (res_f, st));
      '(res_b, st) ← (if 0 <=? res_b then tcp_splice_b (t_rd t) (t_lock_b t) (t_oks t) (t_output t) st
                      else Some (res_b, st));
      let yield y :=
        st ← callbacks (t_yield t) st;
        Some (if t_stop t y <? 0 then Draining true else Running res_f res_b, st) in
      if (0 <? res_f) || (0 <? res_b) then yield HEV_TASK_YIELD
      else if Z.land res_f res_b =? 0 then yield HEV_TASK_WAITIO
      else Some (Draining false, st)
  | Draining g =>
      if negb (pcb st.1) then Some (Finished g, st)
      else if hev_ring_buffer_get_use_size (buffer st.1) =? 0 then Some (Finished g, st)
      else
        st ← callbacks (t_yield t) st;
        Some (if t_stop t HEV_TASK_WAITIO <? 0 then Finished true else Draining g, st)
  | Finished _ => Some c
  end.

Fixpoint splice_turns (ts : list turn) (c : phase * state) : option (phase * state) :=
  match ts with
  | [] => Some c
  | t :: ts => c ← splice_turn t c; splice_turns ts c
  end.

(** [hev_socks5_session_tcp_splice], for [ts] turns of its loops; [mem] is what the
    stack holds. *)
Definition hev_socks5_session_tcp_splice (tcp_buffer_size : Z) (mem : list Z) (ts : list turn) (st : state)
  : option (phase * state) :=
  let '(s, e) := st in
  if negb (pcb s) then Some (Finished false, st)
  else splice_turns ts (Running 1 1, (set_buffer (hev_ring_buffer_alloca tcp_buffer_size mem) s, e)).

(** The part of [hev_socks5_session_tcp_destruct] that concerns lwIP: the connection is
    aborted, with its callbacks cleared before, and the chain is freed. *)
Definition hev_socks5_session_tcp_destruct (s : HevSocks5SessionTCP) : HevSocks5SessionTCP :=
  mkTcp [] false (buffer s) (pcb_eof s) (timeout s).
