(* ===== verification/SessionTcpSpec.v ===== *)
(** * TCP sessions: no byte is lost, repeated or reordered

    The invariant of [SessionTcp] under every choice of the environment, and what
    it means when the task ends. *)

From S2P Require Import Prelude Buffers TaskIO Splice SessionTcp.
Import Ring.
Import RingSpec(ring_rep, rep_alloca, rep_fill, rep_deliver, rep_ack, rep_load, reading_split, writing_split).

(** ** Chains *)

Lemma pbuf_free_header_drop q : forall n, 0 <= n < 2 ^ 16 ->
  concat (pbuf_free_header q n) = drop (Z.to_nat n) (concat q).
Proof.
  induction q as [|p q IH]; intros n Hn; cbn [pbuf_free_header concat]; [by rewrite drop_nil|].
  destruct (Z.eqb_spec n 0) as [->|]; [done|].
  destruct (Z.leb_spec (Z.of_nat (length p)) n).
  - rewrite u16_id by (unfold is_u16; lia). rewrite IH by lia. rewrite drop_app_ge by lia. f_equal. lia.
  - simpl. by rewrite drop_app_le by lia.
Qed.

Lemma concat_take_prefix (n : nat) (q : pbufs) : exists r, concat q = concat (take n q) ++ r.
Proof. exists (concat (drop n q)). by rewrite <- concat_app, take_drop. Qed.

(** ** The invariant *)

(** Of the ring buffer, [una] was given to lwIP and [unread] was not. *)
Record inv (src : list Z) (st : state) (una unread : list Z) : Prop := {
  iv_ring : ring_rep (buffer st.1) una unread;
  iv_cap : max_size (buffer st.1) <= TCP_SND_BUF;
  iv_up : rcvd st.2 = sock_out st.2 ++ concat (queue st.1);
  iv_recved : pcb st.1 = true -> recved st.2 = size_of (sock_out st.2);
  iv_window : size_of (concat (queue st.1)) <= TCP_WND;
  iv_shut : sock_shut st.2 = true -> pcb_eof st.1 = true /\ concat (queue st.1) = [];
  iv_acked : 0 <= acked st.2 <= size_of (wrote st.2);
  iv_una : size_of (wrote st.2) - acked st.2 <= size_of una;
  iv_down : refused st.2 = false ->
    src = wrote st.2 ++ unread ++ sock_in st.2 /\ una = drop (Z.to_nat (acked st.2)) (wrote st.2)
}.

(** What callbacks cannot change. *)
Record kept (st st' : state) : Prop := {
  kp_sock : (sock_in st'.2, sock_out st'.2, sock_shut st'.2, sock_fail st'.2)
          = (sock_in st.2, sock_out st.2, sock_shut st.2, sock_fail st.2);
  kp_snd : (wrote st'.2, fin st'.2, refused st'.2, lwip_err st'.2)
         = (wrote st.2, fin st.2, refused st.2, lwip_err st.2);
  kp_recved : recved st'.2 = recved st.2;
  kp_pcb : pcb st'.1 = true -> pcb st.1 = true;
  kp_queue : exists more, concat (queue st'.1) = concat (queue st.1) ++ more
}.

Lemma kept_refl st : kept st st.
Proof. constructor; auto. exists []. by rewrite app_nil_r. Qed.

Lemma kept_trans a b c : kept a b -> kept b c -> kept a c.
Proof.
  intros [A1 A2 A3 A4 (m1 & A5)] [B1 B2 B3 B4 (m2 & B5)].
  constructor; [by rewrite B1|by rewrite B2|by rewrite B3|auto|].
  exists (m1 ++ m2). by rewrite B5, A5, app_assoc.
Qed.

Lemma deliver_inv src una unread cb st st' : inv src st una unread -> deliver cb st = Some st' ->
  exists una', inv src st' una' unread /\ kept st st'.
Proof.
  destruct st as [s e]. intros [] Hd. unfold deliver, offers in Hd. cbn [fst snd] in *.
  destruct (pcb s) eqn:Ep; [|done]. cbn [andb] in Hd. specialize (iv_recved0 eq_refl).
  destruct cb as [[p|]|n|]; cbn [negb] in Hd.
  - destruct (pcb_eof s) eqn:Ee; cbn [negb andb] in Hd; [done|].
    destruct (Z.leb_spec (size_of (rcvd e) - recved e + size_of (concat p)) TCP_WND) as [Hw|]; [|done].
    exists una.
    assert (Hq : concat (queue (tcp_recv_handler (Some p) s)) = concat (queue s) ++ concat p)
      by (unfold tcp_recv_handler; destruct (queue s); cbn [set_queue queue]; [done|apply concat_app]).
    assert (Hs : pcb (tcp_recv_handler (Some p) s) = true /\ buffer (tcp_recv_handler (Some p) s) = buffer s
      /\ pcb_eof (tcp_recv_handler (Some p) s) = false) by (cbn; by destruct (queue s)).
    destruct Hs as (Hs1 & Hs2 & Hs3). cbn [negb] in Hd.
    set (s' := tcp_recv_handler (Some p) s) in *. clearbody s'. injection Hd as <-.
    split; constructor; cbn [fst snd env_rcv sock_in sock_out sock_shut sock_fail rcvd recved wrote acked fin
      refused lwip_err default]; rewrite ?Hq, ?Hs1, ?Hs2, ?Hs3; auto.
    + by rewrite iv_up0, app_assoc.
    + unfold size_of in *. rewrite iv_up0, !length_app in *. lia.
    + intros Hsh. destruct (iv_shut0 Hsh). congruence.
    + eauto.
  - injection Hd as <-. exists una. split; constructor; cbn; rewrite ?app_nil_r; auto.
    + intros Hsh. destruct (iv_shut0 Hsh). auto.
    + exists []. by rewrite app_nil_r.
  - destruct ((0 <=? n) && (n <=? size_of (wrote e) - acked e)) eqn:En; [|done]. bool_to_prop. injection Hd as <-.
    exists (drop (Z.to_nat n) una). split.
    + constructor; cbn; auto.
      * apply rep_ack; [done|]. unfold size_of in *. lia.
      * unfold hev_ring_buffer_read_release. case_match; done.
      * lia.
      * unfold size_of in *. rewrite length_drop. lia.
      * intros Hr. destruct (iv_down0 Hr) as [Hsrc ->]. split; [done|]. rewrite drop_drop. f_equal. lia.
    + constructor; auto. exists []. by rewrite app_nil_r.
  - injection Hd as <-. exists una. split; constructor; cbn; auto; [done..|]. exists []. by rewrite app_nil_r.
Qed.

Lemma callbacks_inv src unread cbs : forall st una st', inv src st una unread -> callbacks cbs st = Some st' ->
  exists una', inv src st' una' unread /\ kept st st'.
Proof.
  induction cbs as [|cb cbs IH]; intros st una st' Hi Hc; cbn [callbacks] in Hc.
  - injection Hc as <-. exists una. split; [done|apply kept_refl].
  - destruct (deliver cb st) as [st1|] eqn:Ed; [|done]. cbn in Hc.
    destruct (deliver_inv _ _ _ _ _ _ Hi Ed) as (una1 & Hi1 & Hk1).
    destruct (IH _ _ _ Hi1 Hc) as (una2 & Hi2 & Hk2). eauto using kept_trans.
Qed.

(** Callbacks do not look at the socket. *)
Lemma callbacks_sock i o sh fl cbs : forall s e,
  callbacks cbs (s, env_sock i o sh fl e) =
  (fun st => (st.1, env_sock i o sh fl st.2)) <$> callbacks cbs (s, e).
Proof.
  induction cbs as [|cb cbs IH]; intros s e; cbn [callbacks]; [done|].
  assert (Hd : deliver cb (s, env_sock i o sh fl e) =
    (fun st => (st.1, env_sock i o sh fl st.2)) <$> deliver cb (s, e)).
  { unfold deliver, offers. cbn. destruct (negb _); [done|]. by destruct cb. }
  rewrite Hd. destruct (deliver cb (s, e)) as [[s1 e1]|]; cbn; [apply IH|done].
Qed.

(** What the direction of the application leaves alone. *)
Record kept_f (st st' : state) : Prop := {
  kf_down : (sock_in st'.2, wrote st'.2, fin st'.2, refused st'.2, lwip_err st'.2)
          = (sock_in st.2, wrote st.2, fin st.2, refused st.2, lwip_err st.2);
  kf_pcb : pcb st'.1 = true -> pcb st.1 = true;
  kf_shut : sock_shut st.2 = true -> sock_shut st'.2 = true;
  kf_fail : sock_fail st.2 = true -> sock_fail st'.2 = true
}.

Lemma splice_f_inv src una unread wr cbs st r st' :
  inv src st una unread -> tcp_splice_f wr cbs st = Some (r, st') ->
  exists una', inv src st' una' unread /\ kept_f st st'
    /\ (r < 0 -> sock_shut st'.2 = true \/ sock_fail st'.2 = true).
Proof.
  destruct st as [s e]. intros Hi Hf. unfold tcp_splice_f in Hf.
  destruct (queue s) as [|p q] eqn:Eq.
  { destruct (pcb_eof s) eqn:Ee; simplify_eq; exists una; destruct Hi; cbn [fst snd] in *.
    - rewrite Eq in *. split; [constructor|split; [constructor|]]; cbn [fst snd env_sock sock_in sock_out sock_shut sock_fail
        rcvd recved wrote acked fin refused lwip_err]; rewrite ?Eq; auto.
    - split; [by constructor|]. split; [by constructor|lia]. }
  rewrite <- Eq in Hf. destruct (sys_send wr (concat (take 64 (queue s)))) as [[n errno] sent] eqn:Es.
  apply sys_send_split in Es as (Hsent & Hlen & Hmax & _).
  destruct (Z.leb_spec n 0) as [Hn|Hn].
  { simplify_eq. exists una. split; [destruct Hi; by constructor|]. split.
    - constructor; auto. cbn. by intros ->.
    - intros Hr. right. cbn. replace (soft n errno <? 0) with true by lia. by rewrite orb_true_r. }
  rewrite callbacks_sock in Hf. destruct (callbacks cbs (s, e)) as [[s2 e2]|] eqn:Ec; [|done].
  cbn in Hf. simplify_eq. destruct (callbacks_inv _ _ _ _ _ _ Hi Ec) as (una2 & Hi2 & Hk).
  destruct (concat_take_prefix 64 (queue s)) as (r1 & Hr1). destruct Hk as [K1 K2 K3 K4 (more & K5)].
  cbn [fst snd] in *. injection K1 as K11 K12 K13 K14. injection K2 as K21 K22 K23 K24.
  assert (Hq : exists r2, concat (queue s) = sent ++ r2).
  { exists (drop (length sent) (concat (take 64 (queue s))) ++ r1).
    rewrite app_assoc, Hr1. f_equal. rewrite Hsent at 1. by rewrite take_drop. }
  destruct Hq as (r2 & Hq). pose proof (iv_window _ _ _ _ Hi) as Hwin. cbn [fst snd] in Hwin. clear Hi.
  assert (Hn16 : u16 n = n).
  { apply u16_id. unfold is_u16, size_of, TCP_WND in *. rewrite Hq, length_app in Hwin. lia. }
  assert (Hq2 : concat (pbuf_free_header (queue s2) (u16 n)) = r2 ++ more).
  { rewrite Hn16, pbuf_free_header_drop by (rewrite <- Hn16; apply Z.mod_pos_bound; done).
    rewrite K5, Hq, <- app_assoc. rewrite drop_app_ge by lia.
    replace (Z.to_nat n - length sent)%nat with 0%nat by lia. done. }
  exists una2. destruct Hi2. cbn [fst snd] in *. split; [|split].
  - constructor; cbn [fst snd set_queue env_sock env_rcv queue pcb buffer pcb_eof sock_in sock_out sock_shut
      sock_fail rcvd recved wrote acked fin refused lwip_err]; rewrite ?Hq2; auto.
    + rewrite iv_up0, K12, K5, Hq. by rewrite <- !app_assoc.
    + intros Hp. rewrite Hp, iv_recved0, K12 by done. unfold size_of. rewrite length_app, Hn16. lia.
    + rewrite K5, Hq in iv_window0. unfold size_of in *. rewrite !length_app in *. lia.
    + intros Hsh. rewrite <- K13 in Hsh. destruct (iv_shut0 Hsh) as [? Hnil]. split; [done|].
      rewrite K5, Hq, <- app_assoc in Hnil. by apply app_nil in Hnil as [_ Hnil].
    + intros Hr. rewrite K11 in *. auto.
  - constructor; cbn; auto; congruence.
  - lia.
Qed.

(** ** The direction of the server *)

Lemma writing_total rb una unread : ring_rep rb una unread ->
  iov_total (hev_ring_buffer_writing rb) = Z.to_nat (max_size rb - use_size rb).
Proof.
  intros R. destruct (decide (use_size rb = max_size rb)) as [E|E].
  - unfold hev_ring_buffer_writing. rewrite E, Z.eqb_refl. unfold iov_total. simpl. lia.
  - pose proof R as []. rewrite (writing_split rb una unread) by (done || lia).
    pose proof (wrap_lt (length (data rb)) (Z.to_nat (rp rb) + length unread)).
    apply iov_total_split; lia.
Qed.

Lemma reading_total rb una unread : ring_rep rb una unread ->
  iov_sum (hev_ring_buffer_reading rb) = size_of unread
  /\ Forall (fun v => 0 <= iov_len v <= max_size rb) (hev_ring_buffer_reading rb)
  /\ (hev_ring_buffer_reading rb = [] -> unread = []).
Proof.
  intros R. pose proof R as []. unfold iov_sum, size_of. destruct (decide (unread = [])) as [->|E].
  - unfold hev_ring_buffer_reading. simpl in rr_rda. rewrite rr_rda. simpl. by repeat split.
  - rewrite (reading_split rb una unread) by done. split; [|split].
    + rewrite iov_total_split by lia. lia.
    + unfold split_iov. case_test; repeat constructor; cbn; lia.
    + intros Hn. unfold split_iov in Hn. by destruct (_ <=? _).
Qed.

(** What the loop of [tcp_write] does to the environment. *)
Record wrote_from (e e' : Env) (bs : list Z) : Prop := {
  wf_rest : e' = env_snd (wrote e') (acked e) (fin e) (refused e') (lwip_err e') e;
  wf_size : size_of (wrote e) <= size_of (wrote e') <= size_of (wrote e) + size_of bs;
  wf_refused : refused e' = false -> refused e = false /\ wrote e' = wrote e ++ bs
}.

Lemma write_iov_from d iov : forall oks e,
  Forall (fun v => 0 <= iov_len v < 2 ^ 16) iov -> wrote_from e (write_iov d iov oks e) (iov_load d iov).
Proof.
  induction iov as [|v iov IH]; intros oks e Hv.
  { constructor; [by destruct e|unfold size_of; simpl; lia|]. intros Hr. by rewrite app_nil_r. }
  apply Forall_cons in Hv as [Hv Hiov].
  change (iov_load d (v :: iov)) with (slice (Z.to_nat (iov_base v)) (Z.to_nat (iov_len v)) d ++ iov_load d iov).
  cbn [write_iov]. set (piece := slice _ _ d).
  assert (Hp : iov_load d [Iov (iov_base v) (u16 (iov_len v))] = piece).
  { cbn. rewrite u16_id by done. by rewrite app_nil_r. }
  rewrite Hp. specialize (IH (tail oks)). clearbody piece.
  destruct (default true (head oks)).
  - destruct (IH (env_snd (wrote e ++ piece) (acked e) (fin e) (refused e) (lwip_err e) e) Hiov) as [H1 H2 H3].
    constructor; cbn in *; unfold size_of in *; rewrite ?length_app in *; try lia.
    + by rewrite H1.
    + intros Hr. destruct (H3 Hr) as [? ->]. by rewrite app_assoc.
  - destruct (IH (env_snd (wrote e) (acked e) (fin e) true true e) Hiov) as [H1 H2 H3].
    constructor; cbn in *; unfold size_of in *; rewrite ?length_app in *; try lia.
    + by rewrite H1.
    + intros Hr. by destruct (H3 Hr).
Qed.

(** What the direction of the server leaves alone. *)
Record kept_b (st st' : state) : Prop := {
  kb_sock : (sock_shut st'.2, sock_fail st'.2) = (sock_shut st.2, sock_fail st.2);
  kb_pcb : pcb st'.1 = true -> pcb st.1 = true;
  kb_err : lwip_err st.2 = true -> lwip_err st'.2 = true
}.

Lemma splice_b_locked_inv src una unread oks output res st r st' :
  inv src st una unread -> fin st.2 = false -> splice_b_locked oks output res st = (r, st') ->
  exists una' unread', inv src st' una' unread' /\ kept_b st st'
    /\ (r < 0 -> fin st'.2 = true \/ pcb st'.1 = false \/ lwip_err st'.2 = true)
    /\ (fin st'.2 = true -> unread' = [] /\ r < 0).
Proof.
  destruct st as [s e]. intros Hi Hfin Hl. pose proof Hi as []. cbn [fst snd] in *. unfold splice_b_locked in Hl.
  destruct (reading_total _ _ _ iv_ring0) as (Hsum & Hlens & Hnil).
  destruct (pcb s) eqn:Ep.
  2: { simplify_eq. exists una, unread. split; [done|]. split; [by constructor|]. split; [by auto|]. intros Hf. cbn in Hf. congruence. }
  destruct (hev_ring_buffer_reading (buffer s)) as [|v iov] eqn:Er.
  { exists una, unread. specialize (Hnil eq_refl). subst unread. destruct (Z.ltb_spec res 0); simplify_eq.
    - split; [by constructor; auto|]. split; [by constructor|]. auto.
    - split; [done|]. split; [by constructor|]. split; [lia|cbn; congruence]. }
  rewrite <- Er in Hl, Hlens, Hsum. set (e0 := env_snd _ _ _ _ _ e) in Hl.
  pose proof (rep_load _ _ _ iv_ring0) as Hload.
  pose proof (write_iov_from (data (buffer s)) (hev_ring_buffer_reading (buffer s)) oks e0) as Hw.
  rewrite Hload in Hw. specialize (Hw ltac:(eapply Forall_impl; [exact Hlens|]; unfold TCP_SND_BUF in *; cbn; lia)).
  set (e1 := write_iov _ _ oks e0) in *. clearbody e1. destruct Hw as [H1 H2 H3]. cbn in H1, H2, H3.
  injection Hl as <- <-. exists (una ++ unread), [].
  assert (Hring : ring_rep (hev_ring_buffer_read_finish (buffer s) (iov_sum (hev_ring_buffer_reading (buffer s))))
    (una ++ unread) []).
  { rewrite Hsum. pose proof (rep_deliver _ _ _ (size_of unread) iv_ring0) as Hd. unfold size_of in *.
    rewrite Nat2Z.id, take_ge, drop_ge in Hd by lia. apply Hd. lia. }
  rewrite H1. split; [|split; [|split]].
  - constructor; cbn; auto; try lia.
    + unfold size_of in *. rewrite length_app. lia.
    + intros Hr. destruct (H3 Hr) as [Hr0 ->]. destruct (iv_down0 Hr0) as [-> ->].
      rewrite <- app_assoc. split; [done|]. unfold size_of in *. by rewrite drop_app_le by lia.
  - constructor; cbn; auto. by intros ->.
  - cbn. destruct (lwip_err e1); cbn; [rewrite orb_true_r; auto|].
    destruct output; cbn; [lia|rewrite orb_true_r; auto].
  - cbn. congruence.
Qed.

Lemma splice_b_inv src una unread rd cbs oks output st r st' :
  inv src st una unread -> fin st.2 = false -> tcp_splice_b rd cbs oks output st = Some (r, st') ->
  exists una' unread', inv src st' una' unread' /\ kept_b st st'
    /\ (r < 0 -> fin st'.2 = true \/ pcb st'.1 = false \/ lwip_err st'.2 = true)
    /\ (fin st'.2 = true -> unread' = [] /\ r < 0).
Proof.
  destruct st as [s e]. intros Hi Hfin Hb. unfold tcp_splice_b in Hb.
  set (read := match hev_ring_buffer_writing (buffer s) with [] => _ | _ => _ end) in Hb.
  assert (Hread : exists unread1, inv src read.2 una unread1 /\ kept_b (s, e) read.2 /\ fin read.2.2 = false).
  { subst read. pose proof (writing_total _ _ _ (iv_ring _ _ _ _ Hi)) as Htot. cbn [fst] in Htot.
    destruct (hev_ring_buffer_writing (buffer s)) as [|v iov]; [exists unread; split; [done|]; by split|].
    rewrite Htot. destruct (sys_recv rd (sock_in e) (Z.to_nat (max_size (buffer s) - use_size (buffer s))))
      as [[[n errno] got] inq] eqn:Es.
    apply sys_recv_split in Es as (Hin & Hg & Hl & _). destruct Hi. cbn [fst snd] in *.
    destruct (Z.leb_spec n 0).
    - assert (got = []) as -> by (apply length_zero_iff_nil; lia). cbn in Hin. subst inq.
      exists unread. cbn. split; [by constructor|]. by split.
    - exists (unread ++ got). cbn. split; [|by split]. constructor; cbn; auto.
      + apply rep_fill; [done|]. destruct iv_ring0. lia.
      + intros Hr. destruct (iv_down0 Hr) as [-> ?]. split; [|done]. rewrite Hin. by rewrite <- !app_assoc. }
  clearbody read. destruct read as [res st1]. cbn [fst snd] in Hread.
  destruct Hread as (unread1 & Hi1 & [A1 A2 A3] & Hfin1).
  destruct (callbacks cbs st1) as [st2|] eqn:Ec; [|done]. cbn in Hb. injection Hb as Hb.
  destruct (callbacks_inv _ _ _ _ _ _ Hi1 Ec) as (una2 & Hi2 & [K1 K2 K3 K4 K5]).
  injection K1 as K11 K12 K13 K14. injection K2 as K21 K22 K23 K24.
  destruct (splice_b_locked_inv _ _ _ _ _ _ _ _ _ Hi2 ltac:(congruence) Hb) as (una' & unread' & Hi' & [B1 B2 B3] & Hr).
  exists una', unread'. split; [done|]. split; [|done]. constructor; [congruence|auto|]. intros He. apply B3. rewrite K24. auto.
Qed.

(** ** The task *)

Definition up_done (st : state) : Prop := sock_shut st.2 = true \/ sock_fail st.2 = true.
Definition down_done (st : state) : Prop := fin st.2 = true \/ pcb st.1 = false \/ lwip_err st.2 = true.

(** What the phase of the task tells. *)
Definition settled (ph : phase) (st : state) : Prop :=
  match ph with
  | Running f b => (f < 0 -> up_done st) /\ (b < 0 -> down_done st) /\ (fin st.2 = true -> b < 0)
  | Draining false => up_done st /\ down_done st
  | Finished false => up_done st /\ down_done st /\ (pcb st.1 = true -> use_size (buffer st.1) = 0)
  | _ => True
  end.

Definition good (src : list Z) (c : phase * state) : Prop := exists una unread,
  inv src c.2 una unread /\ (fin c.2.2 = true -> unread = []) /\ settled c.1 c.2.

Lemma kept_done st st' : kept st st' -> (up_done st -> up_done st') /\ (down_done st -> down_done st')
  /\ fin st'.2 = fin st.2.
Proof.
  intros [K1 K2 _ K4 _]. injection K1 as K11 K12 K13 K14. injection K2 as K21 K22 K23 K24.
  unfold up_done, down_done. rewrite K13, K14, K22, K24. split_and!; [done| |done].
  intros [?|[?|?]]; auto. right. left. destruct (pcb st'.1); [|done]. specialize (K4 eq_refl). congruence.
Qed.

Lemma kept_f_done st st' : kept_f st st' -> (up_done st -> up_done st') /\ (down_done st -> down_done st')
  /\ fin st'.2 = fin st.2.
Proof.
  intros [K1 K2 K3 K4]. injection K1 as K11 K12 K13 K14 K15.
  unfold up_done, down_done. rewrite K13, K15. split_and!; [naive_solver| |done].
  intros [?|[?|?]]; auto. right. left. destruct (pcb st'.1); [|done]. specialize (K2 eq_refl). congruence.
Qed.

Lemma kept_b_done st st' : kept_b st st' -> up_done st -> up_done st'.
Proof. intros [K1 _ _]. injection K1 as K11 K12. unfold up_done. by rewrite K11, K12. Qed.

(** A turn of the loop, up to the yield. *)
Lemma running_f src t f b st f' st' : good src (Running f b, st) ->
  (if 0 <=? f then tcp_splice_f (t_wr t) (t_lock_f t) st else Some (f, st)) = Some (f', st') ->
  good src (Running f' b, st').
Proof.
  intros (una & unread & Hi & Hfin & Hf & Hb & Hr) H. destruct (Z.leb_spec 0 f).
  - destruct (splice_f_inv _ _ _ _ _ _ _ _ Hi H) as (una' & Hi' & Hk & Hdone).
    destruct (kept_f_done _ _ Hk) as (K1 & K2 & K3). exists una', unread. cbn [fst snd settled] in *.
    rewrite K3. auto 8.
  - simplify_eq. exists una, unread. by split_and!.
Qed.

Lemma running_b src t f b st b' st' : good src (Running f b, st) ->
  (if 0 <=? b then tcp_splice_b (t_rd t) (t_lock_b t) (t_oks t) (t_output t) st else Some (b, st)) = Some (b', st') ->
  good src (Running f b', st').
Proof.
  intros (una & unread & Hi & Hfin & Hf & Hb & Hr) H. cbn [fst snd settled] in *. destruct (Z.leb_spec 0 b).
  - assert (fin st.2 = false) as Hfin0 by (destruct (fin st.2); [specialize (Hr eq_refl); lia|done]).
    destruct (splice_b_inv _ _ _ _ _ _ _ _ _ _ Hi Hfin0 H) as (una' & unread' & Hi' & Hk & Hdone & Hend).
    pose proof (kept_b_done _ _ Hk). exists una', unread'. cbn [fst snd settled]. unfold down_done. naive_solver.
  - simplify_eq. exists una, unread. by split_and!.
Qed.

Lemma good_callbacks src ph st cbs st' : good src (ph, st) -> callbacks cbs st = Some st' ->
  (forall g, ph <> Finished g) -> good src (ph, st').
Proof.
  intros (una & unread & Hi & Hfin & Hs) Hc Hph.
  destruct (callbacks_inv _ _ _ _ _ _ Hi Hc) as (una' & Hi' & Hk). destruct (kept_done _ _ Hk) as (K1 & K2 & K3).
  exists una', unread. cbn [fst snd] in *. rewrite K3. split_and!; [done|done|].
  destruct ph as [f b|[]|g]; cbn in *; rewrite ?K3; [naive_solver|done|naive_solver|by destruct (Hph g)].
Qed.

Lemma good_gave_up src ph ph' st : good src (ph, st) -> ph' = Draining true \/ ph' = Finished true ->
  good src (ph', st).
Proof. intros (una & unread & ? & ? & _) Hp. exists una, unread. by destruct Hp as [-> | ->]. Qed.

Lemma good_turn src t c c' : good src c -> splice_turn t c = Some c' -> good src c'.
Proof.
  destruct c as [ph st]. intros Hg Ht. unfold splice_turn in Ht. destruct ph as [f b|g|g].
  - destruct (if 0 <=? f then _ else _) as [[f' st1]|] eqn:Ef; [|done]. cbn in Ht.
    pose proof (running_f _ _ _ _ _ _ _ Hg Ef) as Hg1.
    destruct (if 0 <=? b then _ else _) as [[b' st2]|] eqn:Eb; [|done]. cbn in Ht.
    pose proof (running_b _ _ _ _ _ _ _ Hg1 Eb) as Hg2.
    assert (Hy : forall y, (st ← callbacks (t_yield t) st2;
      Some (if t_stop t y <? 0 then Draining true else Running f' b', st)) = Some c' -> good src c').
    { intros y Hy. destruct (callbacks (t_yield t) st2) as [st3|] eqn:Ec; [|done]. cbn in Hy.
      pose proof (good_callbacks _ _ _ _ _ Hg2 Ec ltac:(done)) as Hg3.
      destruct (t_stop t y <? 0); simplify_eq; [|done]. eapply good_gave_up; eauto. }
    destruct (Z.ltb_spec 0 f'); [exact (Hy _ Ht)|]. destruct (Z.ltb_spec 0 b'); [exact (Hy _ Ht)|]. cbn [orb] in Ht.
    destruct (Z.eqb_spec (Z.land f' b') 0) as [|Hland]; [exact (Hy _ Ht)|]. simplify_eq.
    destruct Hg2 as (una & unread & Hi & Hfin & Hf & Hb & _). exists una, unread. split_and!; [done..|]. cbn.
    assert (f' <> 0) by (intros ->; done). assert (b' <> 0) by (intros ->; by rewrite Z.land_0_r in Hland).
    split; [apply Hf|apply Hb]; lia.
  - assert (Hdone : pcb st.1 = false \/ use_size (buffer st.1) = 0 -> good src (Finished g, st)).
    { intros Hd. destruct Hg as (una & unread & Hi & Hfin & Hs). exists una, unread. split_and!; [done..|].
      destruct g; [done|]. destruct Hs. cbn. split_and!; [done..|]. intros Hp. destruct Hd; [congruence|done]. }
    destruct (pcb st.1) eqn:Ep; cbn [negb] in Ht; [|simplify_eq; auto].
    unfold hev_ring_buffer_get_use_size in Ht.
    destruct (Z.eqb_spec (use_size (buffer st.1)) 0); [simplify_eq; auto|].
    destruct (callbacks (t_yield t) st) as [st3|] eqn:Ec; [|done]. cbn in Ht.
    pose proof (good_callbacks _ _ _ _ _ Hg Ec ltac:(done)) as Hg3.
    destruct (t_stop t HEV_TASK_WAITIO <? 0); simplify_eq; [|done]. eapply good_gave_up; eauto.
  - by simplify_eq.
Qed.

Lemma good_turns src ts : forall c c', good src c -> splice_turns ts c = Some c' -> good src c'.
Proof.
  induction ts as [|t ts IH]; intros c c' Hg Ht; cbn in Ht; [by simplify_eq|].
  destruct (splice_turn t c) as [c1|] eqn:E; [|done]. cbn in Ht. eauto using good_turn.
Qed.

(** A session whose handshake is over: lwIP may have handed over bytes of the
    application meanwhile, none of them went anywhere yet. *)
Record opened (st : state) : Prop := {
  op_pcb : pcb st.1 = true;
  op_queue : rcvd st.2 = concat (queue st.1);
  op_window : size_of (rcvd st.2) <= TCP_WND;
  op_up : sock_out st.2 = [] /\ recved st.2 = 0 /\ sock_shut st.2 = false /\ sock_fail st.2 = false;
  op_down : wrote st.2 = [] /\ acked st.2 = 0 /\ fin st.2 = false /\ refused st.2 = false /\ lwip_err st.2 = false
}.

Lemma opened_good size mem s e : opened (s, e) -> 0 < size <= TCP_SND_BUF -> Z.of_nat (length mem) = size ->
  good (sock_in e) (Running 1 1, (set_buffer (hev_ring_buffer_alloca size mem) s, e)).
Proof.
  intros [Hp Hq Hw (U1 & U2 & U3 & U4) (D1 & D2 & D3 & D4 & D5)] Hs Hm. cbn [fst snd] in *.
  exists [], []. split; [|split; [done|]].
  - constructor; cbn; rewrite ?U1, ?U2, ?U3, ?D1, ?D2; auto; try done.
    + apply rep_alloca; [unfold TCP_SND_BUF in *|]; lia.
    + lia.
    + by rewrite <- Hq.
  - cbn. rewrite D3. split_and!; lia || done.
Qed.

(** C4. A TCP session moves both streams intact, whatever lwIP, the kernel and the
    other tasks do between its steps: what the application sent is what was written to
    the server followed by what waits in the chain, the receive window is reopened by
    exactly what was written, and the server is told that the stream ends only after
    all of it was written.  As long as lwIP refuses no write, what the server sent is
    what lwIP has taken, then what is unread in the ring buffer, then what is still in
    the socket; the ring buffer holds the unacknowledged bytes unchanged, and the
    connection is half-closed only when nothing is unread.  If the task ends without
    having been told to give up, both directions have ended, and while the connection
    lives the application has acknowledged everything. *)
Theorem session_tcp_conserves size mem ts s e ph s' e' :
  opened (s, e) -> 0 < size <= TCP_SND_BUF -> Z.of_nat (length mem) = size ->
  hev_socks5_session_tcp_splice size mem ts (s, e) = Some (ph, (s', e')) ->
  (rcvd e' = sock_out e' ++ concat (queue s')
   /\ (pcb s' = true -> recved e' = size_of (sock_out e'))
   /\ (sock_shut e' = true -> pcb_eof s' = true /\ rcvd e' = sock_out e'))
  /\ (refused e' = false -> exists unread,
        sock_in e = wrote e' ++ unread ++ sock_in e'
        /\ ring_rep (buffer s') (drop (Z.to_nat (acked e')) (wrote e')) unread
        /\ (fin e' = true -> unread = []))
  /\ (ph = Finished false ->
        (sock_shut e' = true \/ sock_fail e' = true)
        /\ (fin e' = true \/ pcb s' = false \/ lwip_err e' = true)
        /\ (pcb s' = true -> refused e' = false -> acked e' = size_of (wrote e'))).
Proof.
  intros Ho Hs Hm Hrun. unfold hev_socks5_session_tcp_splice in Hrun.
  pose proof (op_pcb _ Ho) as Hp. cbn in Hp. rewrite Hp in Hrun. cbn [negb] in Hrun.
  destruct (good_turns _ _ _ _ (opened_good _ _ _ _ Ho Hs Hm) Hrun) as (una & unread & [] & Hfin & Hset).
  cbn [fst snd] in *. split; [|split].
  - split_and!; [done|done|]. intros Hsh. destruct (iv_shut0 Hsh) as [? Hnil]. by rewrite iv_up0, Hnil, app_nil_r.
  - intros Hr. destruct (iv_down0 Hr) as [-> <-]. eauto.
  - intros ->. destruct Hset as (Hu & Hd & Hacked). split; [done|]. split; [done|]. intros Hp' Hr.
    destruct (iv_down0 Hr) as [_ Huna]. specialize (Hacked Hp'). cbn [fst] in Hacked. destruct iv_ring0.
    assert (length una = 0%nat) as Hl by lia. unfold size_of in *. rewrite Huna, length_drop in Hl. lia.
Qed.

Module SessionTcpWitness.

Definition app_bytes : pbufs := [[1; 2; 3]; [4; 5]].
Definition fresh : state :=
  (mkTcp [[7]] true (Mk 0 0 0 0 0 []) false 60000,
   mkEnv [10; 11; 12; 13; 14; 15] [] false false [7] 0 [] 0 false false false).
Definition go (y : HevTaskYieldType) : Z := 0.

(** Data of both sides, the end of both streams, acknowledgements while the task waits. *)
Definition day : list turn := [
  mkTurn (EvOK 100) [] (EvOK 100) [] [true] true [CbRecv (Some app_bytes)] go;
  mkTurn (EvOK 3) [CbRecv None] (EvErr EAGAIN) [CbSent 3] [] true [CbSent 1] go;
  mkTurn (EvOK 3) [] (EvOK 100) [] [true; true] true [CbSent 2] go;
  mkTurn (EvOK 3) [] (EvOK 100) [] [] true [] go;
  mkTurn (EvOK 3) [] (EvOK 100) [] [] true [] go;
  mkTurn (EvOK 3) [] (EvOK 100) [] [] true [] go;
  mkTurn (EvOK 3) [] (EvOK 100) [] [] true [] go ].

Definition ended : state :=
  (mkTcp [] true (Mk 0 0 0 0 4 [14; 15; 12; 13]) true 60000,
   mkEnv [] [7; 1; 2; 3; 4; 5] true false [7; 1; 2; 3; 4; 5] 6 [10; 11; 12; 13; 14; 15] 6 true false false).

Lemma session_tcp_conserves_witness :
  hev_socks5_session_tcp_splice 4 [0; 0; 0; 0] day fresh = Some (Finished false, ended)
  /\ rcvd ended.2 = sock_out ended.2 ++ concat (queue ended.1)
  /\ (exists unread, sock_in fresh.2 = wrote ended.2 ++ unread ++ sock_in ended.2
        /\ ring_rep (buffer ended.1) (drop (Z.to_nat (acked ended.2)) (wrote ended.2)) unread)
  /\ acked ended.2 = size_of (wrote ended.2).
Proof.
  assert (Hrun : hev_socks5_session_tcp_splice 4 [0; 0; 0; 0] day fresh = Some (Finished false, ended))
    by (vm_compute; reflexivity).
  destruct (session_tcp_conserves 4 [0; 0; 0; 0] day fresh.1 fresh.2 (Finished false) ended.1 ended.2)
    as ((H1 & _) & H2 & H3).
  - constructor; cbn; auto 6. by vm_compute.
  - unfold TCP_SND_BUF. lia.
  - reflexivity.
  - exact Hrun.
  - split; [exact Hrun|]. split; [exact H1|]. split.
    + destruct (H2 eq_refl) as (unread & ? & ? & _). eauto.
    + destruct (H3 eq_refl) as (_ & _ & H4). exact (H4 eq_refl eq_refl).
Defined.

End SessionTcpWitness.
