(* ===== verification/SessionUdp.v ===== *)
(** * UDP sessions

    Models hev/src/hev-socks5-session-udp.c: datagrams of an application wait, with
    their destination, in a linked list of frames until they are sent to the SOCKS5
    server in batches; what the server sends back is given to lwIP.

    The list and the frames are modelled node by node on a heap, so a read of a
    freed frame fails ([None]).  lwIP, the kernel, the allocator and the other tasks
    are the environment: it chooses the result of every call and the datagrams that
    arrive where the task can lose the processor.  [hev_socks5_udp_sendmmsg] is
    relied on for one thing: it takes a prefix of its messages. *)

From S2P Require Import Prelude TaskIO Socks5Addr HevList MappedDns LwipAddr Prog Socks5 Socks5Udp SessionTcp.

Definition UDP_POOL_SIZE : Z := 512.

(** [HevSocks5UDPFrame]: the destination, and the datagram as lwIP hands it over. *)
Record HevSocks5UDPFrame := mkFrame { f_addr : HevSocks5Addr; f_data : pbufs }.

(** [heap]: the frames that are allocated; [clock] numbers the allocations. *)
Record HevSocks5SessionUDP := mkUdp {
  frame_list : HevList;
  frames : Z;
  addr : Z;
  port : Z;
  timeout : Z;
  heap : gmap Z HevSocks5UDPFrame;
  clock : nat
}.

(** [accepted]: the frames that were queued, [sent]: the messages that the server
    was sent, [lwip_out]: the datagrams that lwIP was given. *)
Record Env := mkEnv {
  dns : option HevMappedDNS;
  accepted : list HevSocks5UDPFrame;
  sent : list HevSocks5UDPMsg;
  lwip_out : list (ip_addr_t * Z * list Z)
}.

Definition state := (HevSocks5SessionUDP * Env)%type.

Section Session.
(** [hev_malloc], and what the memory it returns holds. *)
Context (malloc : nat -> gmap Z HevSocks5UDPFrame -> option Z) (junk : nat -> HevSocks5Addr).
(** The address and port that the application sends to, of the [udp_pcb]. *)
Context (local_ip : ip_addr_t) (local_port : Z).

(** ** Arrival *)

Definition udp_recv_handler (p : option pbufs) (st : state) : option state :=
  let '(s, e) := st in
  match p with
  | None => Some (mkUdp (frame_list s) (frames s) (addr s) (port s) 0 (heap s) (clock s), e)
  | Some p =>
      if UDP_POOL_SIZE <? frames s then Some st else
      match malloc (clock s) (heap s) with
      | None => Some (mkUdp (frame_list s) (frames s) (addr s) (port s) (timeout s) (heap s) (S (clock s)), e)
      | Some a =>
          '(_, fa, dns) ← hev_socks5_addr_from_lwip (dns e) (junk (clock s)) local_ip local_port;
          let named := atype fa =? HEV_SOCKS5_ADDR_TYPE_NAME in
          l ← hev_list_add_tail (frame_list s) a;
          Some (mkUdp l (frames s + 1) (if named then s32 (load32 (u_addr local_ip) 0) else addr s)
                  (if named then local_port else port s) (timeout s) (<[a := mkFrame fa p]> (heap s)) (S (clock s)),
                mkEnv dns (accepted e ++ [mkFrame fa p]) (sent e) (lwip_out e))
      end
  end.

Fixpoint arrivals (ps : list (option pbufs)) (st : state) : option state :=
  match ps with
  | [] => Some st
  | p :: ps => st ← udp_recv_handler p st; arrivals ps st
  end.

(** ** To the server *)

(** The message of a frame: [buf->payload] and [buf->len] are the first buffer of the
    chain. *)
Definition frame_msg (f : HevSocks5UDPFrame) : option HevSocks5UDPMsg :=
  p ← list.head (f_data f); Some (mkMsg (Addr (f_addr f)) p (Z.of_nat (length p))).

Fixpoint collect (n : nat) (node : Z) (s : HevSocks5SessionUDP) : option (list HevSocks5UDPMsg) :=
  match n with
  | 0%nat => Some []
  | S n =>
      f ← heap s !! node;
      next ← hev_list_node_next (frame_list s) node;
      m ← frame_msg f;
      ms ← collect n next s;
      Some (m :: ms)
  end.

Fixpoint release (n : nat) (s : HevSocks5SessionUDP) : option HevSocks5SessionUDP :=
  match n with
  | 0%nat => Some s
  | S n =>
      let node := hev_list_first (frame_list s) in
      _ ← heap s !! node;
      l ← hev_list_del (frame_list s) node;
      release n (mkUdp l (frames s - 1) (addr s) (port s) (timeout s) (delete node (heap s)) (clock s))
  end.

(** The result of [hev_socks5_udp_sendmmsg] on [n] messages. *)
Definition sendmmsg_result (ev : ioev) (n : nat) : Z :=
  match ev with
  | EvOK k => Z.of_nat (S k `min` n)
  | EvZero => 0
  | EvErr _ => -1
  end.

Definition hev_socks5_session_udp_fwd_f (num : nat) (ev : ioev) (ps : list (option pbufs)) (st : state)
  : option (Z * state) :=
  let '(s, e) := st in
  if frames s <=? 0 then Some (0, st) else
  let n := if Z.of_nat num <? frames s then num else Z.to_nat (frames s) in
  msgv ← collect n (hev_list_first (frame_list s)) s;
  st ← arrivals ps st;
  let res := sendmmsg_result ev (length msgv) in
  if res <=? 0 then Some (-1, st) else
  let '(s, e) := st in
  s ← release (Z.to_nat res) s;
  Some (1, (s, mkEnv (dns e) (accepted e) (sent e ++ take (Z.to_nat res) msgv) (lwip_out e))).

(** ** From the server *)

(** [stack]: what the memory of [saddr] holds; [locks]: for each message that is
    given to lwIP, whether there is a buffer, whether [udp_sendfrom] succeeds, and
    what arrives while the task waits for the mutex. *)
Fixpoint send_back (stack : list Z) (msgv : list HevSocks5UDPMsg) (locks : list (bool * bool * list (option pbufs)))
    (st : state) : option (Z * state) :=
  match msgv with
  | [] => Some (1, st)
  | m :: msgv =>
      match m_addr m with
      | AddrUnset => None
      | AddrNull => send_back stack msgv locks st
      | Addr a =>
          if m_len m =? 0 then send_back stack msgv locks st else
          let '(ret, saddr, p) :=
            if negb (addr st.1 =? 0) && negb (port st.1 =? 0)
            then (0, mkIp (splice 0 (mem32 (addr st.1)) stack) IPADDR_TYPE_V4, u16 (port st.1))
            else hev_socks5_addr_into_lwip a (mkIp stack 0) 0 in
          if ret <? 0 then Some (-1, st) else
          let '(alloc, ok, ps) := default (true, true, []) (list.head locks) in
          if negb alloc then Some (-1, st) else
          if Z.of_nat (length (m_buf m)) <? m_len m then None else
          st ← arrivals ps st;
          if negb ok then Some (-1, st) else
          let '(s, e) := st in
          send_back stack msgv (list.tail locks)
            (s, mkEnv (dns e) (accepted e) (sent e) (lwip_out e ++ [(saddr, p, take (Z.to_nat (m_len m)) (m_buf m))]))
      end
  end.

(** What [hev_socks5_udp_recvmmsg] returns: messages, or a result that is not
    positive, with [errno]. *)
Inductive recvmmsg_result := Got (msgv : list HevSocks5UDPMsg) | Failed (res errno : Z).

Definition hev_socks5_session_udp_fwd_b (r : recvmmsg_result) (ps : list (option pbufs)) (stack : list Z)
    (locks : list (bool * bool * list (option pbufs))) (st : state) : option (Z * state) :=
  st ← arrivals ps st;
  match r with
  | Failed res errno => Some (if (res =? -1) && (errno =? EAGAIN) then 0 else -1, st)
  | Got msgv => send_back stack msgv locks st
  end.

(** ** The task *)

(** The choices of the environment in one turn of the loop. *)
Record turn := mkTurn {
  t_send : ioev; t_arrive_f : list (option pbufs);
  t_recv : recvmmsg_result; t_arrive_b : list (option pbufs); t_stack : list Z;
  t_locks : list (bool * bool * list (option pbufs));
  t_yield : list (option pbufs); t_stop : HevTaskYieldType -> Z
}.

(** [None] as the phase: the loop has ended. *)
Definition splice_turn (num : nat) (t : turn) (c : option (Z * Z) * state) : option (option (Z * Z) * state) :=
  let '(ph, st) := c in
  match ph with
  | None => Some c
  | Some (res_f, res_b) =>
      '(res_f, st) ← (if 0 <=? res_f then hev_socks5_session_udp_fwd_f num (t_send t) (t_arrive_f t) st
                      else Some (res_f, st));
      '(res_b, st) ← (if 0 <=? res_b
                      then hev_socks5_session_udp_fwd_b (t_recv t) (t_arrive_b t) (t_stack t) (t_locks t) st
                      else Some (res_b, st));
      let yield y :=
        st ← arrivals (t_yield t) st;
        Some (if t_stop t y =? 0 then Some (res_f, res_b) else None, st) in
      if (0 <? res_f) || (0 <? res_b) then yield HEV_TASK_YIELD
      else if Z.land res_f res_b =? 0 then yield HEV_TASK_WAITIO
      else Some (None, st)
  end.

Fixpoint splice_turns (num : nat) (ts : list turn) (c : option (Z * Z) * state) : option (option (Z * Z) * state) :=
  match ts with
  | [] => Some c
  | t :: ts => c ← splice_turn num t c; splice_turns num ts c
  end.

(** [hev_socks5_session_udp_splice], for [ts] turns of its loop. *)
Definition hev_socks5_session_udp_splice (num : nat) (ts : list turn) (st : state) : option (option (Z * Z) * state) :=
  splice_turns num ts (Some (1, 1), st).

End Session.

(** The object of [hev_socks5_session_udp_new] is zeroed. *)
Definition hev_socks5_session_udp_construct (timeout : Z) : HevSocks5SessionUDP :=
  mkUdp (mkList ∅ 0 0) 0 0 0 timeout ∅ 0.

(** The loop of [hev_socks5_session_udp_destruct] frees the frames of the list. *)
Fixpoint free_frames (fuel : nat) (node : Z) (s : HevSocks5SessionUDP) : option HevSocks5SessionUDP :=
  if node =? 0 then Some s else
  match fuel with
  | 0%nat => None
  | S fuel =>
      _ ← heap s !! node;
      next ← hev_list_node_next (frame_list s) node;
      free_frames fuel next
        (mkUdp (frame_list s) (frames s) (addr s) (port s) (timeout s) (delete node (heap s)) (clock s))
  end.

Definition hev_socks5_session_udp_destruct (s : HevSocks5SessionUDP) : option HevSocks5SessionUDP :=
  free_frames (size (heap s)) (hev_list_first (frame_list s)) s.
