(* ===== verification/SessionUdpSpec.v ===== *)
(** * UDP sessions: order, bounds and memory

    The queue of [SessionUdp] under every choice of the environment: datagrams leave
    in the order in which they came, the queue is bounded, no freed frame is touched
    and none is left behind. *)

From S2P Require Import Prelude TaskIO Socks5Addr HevList MappedDns LwipAddr Prog Socks5 Socks5Udp Socks5UdpSpec SessionTcp SessionUdp.

(** ** The invariant *)

Section Inv.
Context (malloc : nat -> gmap Z HevSocks5UDPFrame -> option Z) (junk : nat -> HevSocks5Addr).
Context (local_ip : ip_addr_t) (local_port : Z).
(** Memory that is handed out is not NULL and not in use. *)
Hypothesis malloc_fresh : forall n m a, malloc n m = Some a -> a <> 0 /\ m !! a = None.

Definition dns_ok (d : option HevMappedDNS) : Prop := match d with Some d => exists c, rel d c | None => True end.

(** A frame holds a datagram and the address the application sent it to. *)
Definition frame_ok (f : HevSocks5UDPFrame) : Prop :=
  f_data f <> [] /\ exists n d r d', hev_socks5_addr_from_lwip d (junk n) local_ip local_port = Some (r, f_addr f, d').

Definition is_named (f : HevSocks5UDPFrame) : Prop := atype (f_addr f) = HEV_SOCKS5_ADDR_TYPE_NAME.

Record inv (st : state) (ll : list Z) (q : list HevSocks5UDPFrame) : Prop := {
  iv_owns : owns (frame_list st.1) (heap st.1) ll q;
  iv_frames : frames st.1 = Z.of_nat (length q);
  iv_bound : frames st.1 <= UDP_POOL_SIZE + 1;
  iv_dns : dns_ok (dns st.2);
  iv_ok : Forall frame_ok (accepted st.2);
  iv_fifo : exists gone, accepted st.2 = gone ++ q /\ Forall2 (fun f m => frame_msg f = Some m) gone (sent st.2);
  iv_named : Exists is_named (accepted st.2) ->
    addr st.1 = s32 (load32 (u_addr local_ip) 0) /\ port st.1 = local_port;
  iv_plain : Forall (fun f => ~ is_named f) (accepted st.2) -> addr st.1 = 0
}.

Lemma from_lwip_total d m : dns_ok d ->
  exists r a d', hev_socks5_addr_from_lwip d m local_ip local_port = Some (r, a, d') /\ dns_ok d'.
Proof.
  intros Hd. unfold hev_socks5_addr_from_lwip. destruct (ip_type local_ip =? IPADDR_TYPE_V4).
  - destruct d as [d|].
    + destruct Hd as [c Hc]. destruct (lookup_ok d c (s32 (ntohl (load32 (u_addr local_ip) 0))) Hc) as (d' & -> & Hr & _).
      cbn [mbind option_bind]. eexists _, _, _. split; [done|]. by eexists.
    + cbn [mbind option_bind]. by eexists _, _, _.
  - destruct (ip_type local_ip =? IPADDR_TYPE_V6); by eexists _, _, _.
Qed.

(** What an arrival leaves alone. *)
Record grew (st st' : state) (q q' : list HevSocks5UDPFrame) : Prop := {
  gr_queue : exists more, q' = q ++ more /\ accepted st'.2 = accepted st.2 ++ more;
  gr_out : (sent st'.2, lwip_out st'.2) = (sent st.2, lwip_out st.2)
}.

Lemma grew_refl st q : grew st st q q.
Proof. constructor; [|done]. exists []. by rewrite !app_nil_r. Qed.

Lemma grew_trans a b c qa qb qc : grew a b qa qb -> grew b c qb qc -> grew a c qa qc.
Proof.
  intros [(m1 & -> & A2) A3] [(m2 & -> & B2) B3]. constructor; [|congruence].
  exists (m1 ++ m2). by rewrite B2, A2, !app_assoc.
Qed.

Abbreviation handler := (udp_recv_handler malloc junk local_ip local_port).
Abbreviation arrive := (arrivals malloc junk local_ip local_port).

Lemma handler_inv st ll q p : inv st ll q -> p <> Some [] ->
  exists st' ll' q', handler p st = Some st' /\ inv st' ll' q' /\ grew st st' q q'.
Proof.
  destruct st as [s e]. intros Hi Hp. pose proof Hi as []. cbn [fst snd] in *. unfold udp_recv_handler.
  destruct p as [p|].
  2: { eexists _, ll, q. split; [done|]. split; [by constructor|]. constructor; [|done]. exists []. by rewrite !app_nil_r. }
  destruct (Z.ltb_spec UDP_POOL_SIZE (frames s)).
  { exists (s, e), ll, q. split; [done|]. split; [done|apply grew_refl]. }
  destruct (malloc (clock s) (heap s)) as [a|] eqn:Em.
  2: { eexists _, ll, q. split; [done|]. split; [by constructor|]. constructor; [|done]. exists []. by rewrite !app_nil_r. }
  destruct (malloc_fresh _ _ _ Em) as [Ha0 Ha].
  destruct (from_lwip_total (dns e) (junk (clock s)) iv_dns0) as (r & fa & d' & Hf & Hd'). rewrite Hf.
  cbn [mbind option_bind]. destruct (owns_add _ _ _ _ a (mkFrame fa p) iv_owns0 Ha0 Ha) as (l' & -> & Ho).
  cbn [mbind option_bind]. eexists _, (ll ++ [a]), (q ++ [mkFrame fa p]). split; [done|]. split.
  - constructor; cbn; auto.
    + rewrite length_app. simpl. lia.
    + lia.
    + apply Forall_app. split; [done|]. repeat constructor; cbn; [congruence|]. by eexists _, _, _, _.
    + destruct iv_fifo0 as (gone & -> & Hg). exists gone. by rewrite <- app_assoc.
    + intros [Hn|Hn]%Exists_app; [destruct (iv_named0 Hn) as [-> ->]; by destruct (_ =? _)|].
      apply Exists_cons in Hn as [Hn|Hn%Exists_nil]; [|done]. unfold is_named in Hn. cbn in Hn. rewrite Hn. done.
    + intros [Hall [Hn _]%Forall_cons]%Forall_app. unfold is_named in Hn. cbn in Hn.
      rewrite (proj2 (Z.eqb_neq _ _) Hn). auto.
  - constructor; [|done]. by eexists.
Qed.

Definition packets (ps : list (option pbufs)) : Prop := Forall (fun p => p <> Some []) ps.

Lemma arrivals_inv ps : forall st ll q, inv st ll q -> packets ps ->
  exists st' ll' q', arrive ps st = Some st' /\ inv st' ll' q' /\ grew st st' q q'.
Proof.
  induction ps as [|p ps IH]; intros st ll q Hi Hp; cbn [arrivals].
  - exists st, ll, q. split; [done|]. split; [done|apply grew_refl].
  - apply Forall_cons in Hp as [Hp Hps]. destruct (handler_inv st ll q p Hi Hp) as (st1 & ll1 & q1 & -> & Hi1 & Hg1).
    cbn [mbind option_bind]. destruct (IH st1 ll1 q1 Hi1 Hps) as (st2 & ll2 & q2 & -> & Hi2 & Hg2).
    exists st2, ll2, q2. split; [done|]. split; [done|]. eapply grew_trans; eauto.
Qed.

(** ** To the server *)

Lemma frame_msg_ok f : frame_ok f -> exists m, frame_msg f = Some m.
Proof. intros [Hd _]. unfold frame_msg. destruct (f_data f); [done|]. by eexists. Qed.

Lemma collect_ok s n : forall l1 l2 q2,
  holds_list (frame_list s) (l1 ++ l2) -> Forall2 (fun a f => heap s !! a = Some f) l2 q2 -> Forall frame_ok q2 ->
  (n <= length q2)%nat ->
  exists ms, collect n (first_or 0 l2) s = Some ms /\ Forall2 (fun f m => frame_msg f = Some m) (take n q2) ms.
Proof.
  induction n as [|n IH]; intros l1 l2 q2 Hl HF Hok Hn; cbn [collect].
  { exists []. split; [done|]. rewrite take_0. constructor. }
  destruct HF as [|a f l2 q2 Ha HF]; [simpl in Hn; lia|]. apply Forall_cons in Hok as [Hf Hok].
  cbn [first_or list.head default from_option]. unfold id. rewrite Ha. cbn [mbind option_bind].
  destruct (first_next_ok _ _ _ _ Hl) as [-> _]. cbn [mbind option_bind].
  destruct (frame_msg_ok f Hf) as (m & Hm). rewrite Hm. cbn [mbind option_bind].
  destruct (IH (l1 ++ [a]) l2 q2) as (ms & -> & Hms); [by rewrite <- app_assoc|done|done|simpl in Hn; lia|].
  exists (m :: ms). split; [done|]. by constructor.
Qed.

(** The fields that sending does not touch. *)
Definition rest (s : HevSocks5SessionUDP) := (addr s, port s, timeout s, clock s).

Lemma release_ok n : forall s ll q, owns (frame_list s) (heap s) ll q -> (n <= length q)%nat ->
  exists s', release n s = Some s' /\ owns (frame_list s') (heap s') (drop n ll) (drop n q)
    /\ frames s' = frames s - Z.of_nat n /\ rest s' = rest s.
Proof.
  induction n as [|n IH]; intros s ll q Ho Hn; cbn [release].
  { exists s. split_and!; [done|by rewrite !drop_0|lia|done]. }
  destruct q as [|f q]; [simpl in Hn; lia|]. destruct ll as [|a ll]; [by destruct Ho as (_ & HF%Forall2_length & _)|].
  destruct (owns_del _ _ _ _ _ _ Ho) as (-> & Ha & l' & Hdel & Ho'). rewrite Ha. cbn [mbind option_bind].
  rewrite Hdel. cbn [mbind option_bind]. cbn [length] in Hn.
  destruct (IH (mkUdp l' (frames s - 1) (addr s) (port s) (timeout s) (delete a (heap s)) (clock s)) ll q Ho')
    as (s' & Hr & Hown & Hfr & Hrest); [lia|].
  exists s'. split_and!; [done|done|cbn in Hfr; lia|done].
Qed.

(** What a step of the task keeps. *)
Abbreviation fwd_f := (hev_socks5_session_udp_fwd_f malloc junk local_ip local_port).

Lemma fwd_f_inv num ev ps st ll q : inv st ll q -> packets ps ->
  exists r st' ll' q', fwd_f num ev ps st = Some (r, st') /\ inv st' ll' q'.
Proof.
  intros Hi Hp. destruct st as [s e]. unfold hev_socks5_session_udp_fwd_f.
  destruct (Z.leb_spec (frames s) 0); [by exists 0, (s, e), ll, q|].
  set (n := if Z.of_nat num <? frames s then num else Z.to_nat (frames s)).
  assert (Hn : (n <= length q)%nat).
  { pose proof (iv_frames _ _ _ Hi) as Hf. cbn in Hf. subst n. destruct (Z.ltb_spec (Z.of_nat num) (frames s)); lia. }
  clearbody n. pose proof (iv_owns _ _ _ Hi) as (Hl & HF & _). cbn [fst] in *.
  destruct (iv_fifo _ _ _ Hi) as (gone0 & Hacc0 & _). cbn [snd] in Hacc0.
  assert (Hok : Forall frame_ok q) by (pose proof (iv_ok _ _ _ Hi) as Hk; cbn in Hk; rewrite Hacc0 in Hk; by apply Forall_app in Hk as [_ ?]).
  destruct (collect_ok s n [] ll q Hl HF Hok Hn) as (msgv & Hc & Hms).
  unfold hev_list_first. replace (head (frame_list s)) with (first_or 0 ll) by (by destruct Hl as (_ & _ & -> & _)).
  rewrite Hc. cbn [mbind option_bind].
  destruct (arrivals_inv ps (s, e) ll q Hi Hp) as ([s1 e1] & ll1 & q1 & -> & Hi1 & [(more & -> & Hacc) Hout]).
  cbn [mbind option_bind]. set (res := sendmmsg_result ev (length msgv)).
  assert (Hres : res <= Z.of_nat (length msgv)) by (subst res; unfold sendmmsg_result; destruct ev; lia).
  clearbody res. destruct (Z.leb_spec res 0); [by exists (-1), (s1, e1), ll1, (q ++ more)|].
  pose proof (Forall2_length _ _ _ Hms) as Hlen. rewrite length_take, Nat.min_l in Hlen by lia.
  pose proof Hi1 as []. cbn [fst snd] in *.
  destruct (release_ok (Z.to_nat res) s1 ll1 (q ++ more) iv_owns0) as (s2 & Hrel & Hown & Hfr & Hrest);
    [rewrite length_app; lia|].
  rewrite Hrel. cbn [mbind option_bind]. injection Hrest as R1 R2 R3 R4.
  eexists 1, _, _, _. split; [done|]. constructor; cbn [fst snd dns accepted sent lwip_out]; eauto.
  - rewrite Hfr, iv_frames0, length_drop. rewrite length_app in *. lia.
  - lia.
  - destruct iv_fifo0 as (gone & Hg & Hs). exists (gone ++ take (Z.to_nat res) (q ++ more)). split.
    + by rewrite Hg, <- app_assoc, take_drop.
    + apply Forall2_app; [done|]. rewrite take_app_le by lia.
      replace (take (Z.to_nat res) q) with (take (Z.to_nat res) (take n q)) by (rewrite take_take; f_equal; lia).
      by apply Forall2_take.
  - rewrite R1, R2. done.
  - rewrite R1. done.
Qed.

(** ** From the server *)

Abbreviation back := (send_back malloc junk local_ip local_port).

Lemma inv_lwip_out s e out ll q : inv (s, e) ll q -> inv (s, mkEnv (dns e) (accepted e) (sent e) out) ll q.
Proof. intros []. by constructor. Qed.

Definition locks_ok (locks : list (bool * bool * list (option pbufs))) : Prop := Forall (fun x => packets x.2) locks.

Lemma send_back_inv stack msgv : forall locks st ll q, inv st ll q -> Forall sane msgv -> locks_ok locks ->
  exists r st' ll' q', back stack msgv locks st = Some (r, st') /\ inv st' ll' q'.
Proof.
  induction msgv as [|m msgv IH]; intros locks st ll q Hi Hs Hk; cbn [send_back]; [by eexists _, _, ll, q|].
  apply Forall_cons in Hs as [[Hlen Ha] Hs]. destruct (m_addr m) as [| |a]; [by eapply IH|done|].
  destruct (m_len m =? 0); [by eapply IH|].
  destruct (if _ && _ then _ else _) as [[ret saddr] p]. destruct (ret <? 0); [by eexists _, _, ll, q|].
  assert (Hps : packets (default (true, true, []) (list.head locks)).2) by (destruct Hk; [constructor|done]).
  destruct (default (true, true, []) (list.head locks)) as [[alloc ok] ps]. cbn [snd] in Hps.
  destruct alloc; cbn [negb]; [|by eexists _, _, ll, q].
  rewrite (proj2 (Z.ltb_ge _ _)) by lia.
  destruct (arrivals_inv ps st ll q Hi Hps) as ([s1 e1] & ll1 & q1 & -> & Hi1 & _). cbn [mbind option_bind].
  destruct ok; cbn [negb]; [|by eexists _, _, ll1, q1].
  eapply IH; [by apply inv_lwip_out|done|]. destruct Hk; [constructor|done].
Qed.

Definition recv_ok (r : recvmmsg_result) : Prop := match r with Got msgv => Forall sane msgv | Failed _ _ => True end.

Lemma fwd_b_inv r ps stack locks st ll q : inv st ll q -> recv_ok r -> packets ps -> locks_ok locks ->
  exists x st' ll' q',
    hev_socks5_session_udp_fwd_b malloc junk local_ip local_port r ps stack locks st = Some (x, st') /\ inv st' ll' q'.
Proof.
  intros Hi Hr Hp Hk. unfold hev_socks5_session_udp_fwd_b.
  destruct (arrivals_inv ps st ll q Hi Hp) as (st1 & ll1 & q1 & -> & Hi1 & _). cbn [mbind option_bind].
  destruct r as [msgv|res errno]; [by eapply send_back_inv|by eexists _, _, ll1, q1].
Qed.

(** ** The task *)

Record turn_ok (t : turn) : Prop := {
  to_f : packets (t_arrive_f t);
  to_b : packets (t_arrive_b t);
  to_y : packets (t_yield t);
  to_recv : recv_ok (t_recv t);
  to_locks : locks_ok (t_locks t)
}.

Lemma splice_turn_inv num t ph st ll q : inv st ll q -> turn_ok t ->
  exists ph' st' ll' q', splice_turn malloc junk local_ip local_port num t (ph, st) = Some (ph', st') /\ inv st' ll' q'.
Proof.
  intros Hi []. unfold splice_turn. destruct ph as [[f b]|]; [|by eexists _, _, ll, q].
  assert (H1 : exists f' st1 ll1 q1, (if 0 <=? f then fwd_f num (t_send t) (t_arrive_f t) st else Some (f, st)) = Some (f', st1)
    /\ inv st1 ll1 q1) by (destruct (0 <=? f); [by eapply fwd_f_inv|by eexists _, _, ll, q]).
  destruct H1 as (f' & st1 & ll1 & q1 & -> & Hi1). cbn [mbind option_bind].
  assert (H2 : exists b' st2 ll2 q2, (if 0 <=? b then hev_socks5_session_udp_fwd_b malloc junk local_ip local_port
      (t_recv t) (t_arrive_b t) (t_stack t) (t_locks t) st1 else Some (b, st1)) = Some (b', st2) /\ inv st2 ll2 q2)
    by (destruct (0 <=? b); [by eapply fwd_b_inv|by eexists _, _, ll1, q1]).
  destruct H2 as (b' & st2 & ll2 & q2 & -> & Hi2). cbn [mbind option_bind].
  destruct (arrivals_inv (t_yield t) st2 ll2 q2 Hi2 to_y0) as (st3 & ll3 & q3 & Harr & Hi3 & _). rewrite Harr.
  cbn [mbind option_bind]. destruct ((0 <? f') || (0 <? b')); [by eexists _, _, ll3, q3|].
  destruct (Z.land f' b' =? 0); [by eexists _, _, ll3, q3|by eexists _, _, ll2, q2].
Qed.

Lemma splice_turns_inv num ts : forall ph st ll q, inv st ll q -> Forall turn_ok ts ->
  exists ph' st' ll' q', splice_turns malloc junk local_ip local_port num ts (ph, st) = Some (ph', st') /\ inv st' ll' q'.
Proof.
  induction ts as [|t ts IH]; intros ph st ll q Hi Hts; cbn [splice_turns]; [by eexists _, _, ll, q|].
  apply Forall_cons in Hts as [Ht Hts]. destruct (splice_turn_inv num t ph st ll q Hi Ht) as (ph1 & st1 & ll1 & q1 & -> & Hi1).
  cbn [mbind option_bind]. by eapply IH.
Qed.
End Inv.

(** ** Destruction *)



(** ** Properties *)

Section Properties.
Context (malloc : nat -> gmap Z HevSocks5UDPFrame -> option Z) (junk : nat -> HevSocks5Addr).
Context (local_ip : ip_addr_t) (local_port : Z).
Hypothesis malloc_fresh : forall n m a, malloc n m = Some a -> a <> 0 /\ m !! a = None.

Definition opened (timeout : Z) (d : option HevMappedDNS) : state :=
  (hev_socks5_session_udp_construct timeout, mkEnv d [] [] []).

(** A session: datagrams [ps] arrive during the handshake, then the splicer runs. *)
Definition session (num : nat) (ps : list (option pbufs)) (ts : list turn) (st : state)
  : option (option (Z * Z) * state) :=
  st ← arrivals malloc junk local_ip local_port ps st;
  hev_socks5_session_udp_splice malloc junk local_ip local_port num ts st.

Lemma opened_inv timeout d : dns_ok d -> inv junk local_ip local_port (opened timeout d) [] [].
Proof.
  intros Hd. constructor; cbn; [apply owns_empty|done|unfold UDP_POOL_SIZE; lia|done|constructor| |by intros ?%Exists_nil|done].
  exists []. by split; [|constructor].
Qed.

Lemma session_inv num ps ts timeout d : dns_ok d -> packets ps -> Forall turn_ok ts ->
  exists ph st ll q, session num ps ts (opened timeout d) = Some (ph, st) /\ inv junk local_ip local_port st ll q.
Proof.
  intros Hd Hp Ht. unfold session.
  destruct (arrivals_inv malloc junk local_ip local_port malloc_fresh ps _ _ _ (opened_inv timeout d Hd) Hp)
    as (st1 & ll1 & q1 & -> & Hi1 & _). cbn [mbind option_bind].
  by eapply splice_turns_inv.
Qed.


(** The messages that are given to lwIP. *)
Definition forwardable (m : HevSocks5UDPMsg) : bool :=
  match m_addr m with Addr _ => negb (m_len m =? 0) | _ => false end.

(** The source that lwIP is told: the address that the application sent to. *)
Definition from_local (o : ip_addr_t * Z * list Z) : Prop :=
  ip_type o.1.1 = IPADDR_TYPE_V4 /\ take 4 (u_addr o.1.1) = take 4 (u_addr local_ip) /\ o.1.2 = local_port.

(** The source that lwIP is told: the address in the message. *)
Definition from_message (m : HevSocks5UDPMsg) (o : ip_addr_t * Z * list Z) : Prop :=
  forall ip p tl, length ip = 4%nat -> is_u16 p -> m_addr m = Addr (wire (AIPv4 ip p) ++ tl) ->
    ip_type o.1.1 = IPADDR_TYPE_V4 /\ take 4 (u_addr o.1.1) = ip /\ o.1.2 = p.

Lemma mem32_load b r : bytes_ok b -> length b = 4%nat -> mem32 (s32 (load32 (b ++ r) 0)) = b.
Proof.
  intros Hb Hl. explode b. do 4 (apply Forall_cons in Hb as [? Hb]). unfold is_u8 in *.
  change (load32 ([x; x0; x1; x2] ++ r) 0) with (x + 256 * x0 + 2 ^ 16 * (x1 + 256 * x2)).
  unfold mem32, s32. f_equal; [zdiv|]. f_equal; [zdiv|]. f_equal; [zdiv|]. f_equal. zdiv.
Qed.

Hypothesis Hip : exists b r, u_addr local_ip = b ++ r /\ length b = 4%nat /\ bytes_ok b.
Hypothesis Hport : is_u16 local_port.

(** What [send_back] has given to lwIP: [outs], for the messages [ms]. *)
Record replied (msgv : list HevSocks5UDPMsg) (r : Z) (st st' : state) (outs : list (ip_addr_t * Z * list Z))
    (ms : list HevSocks5UDPMsg) : Prop := {
  rp_out : lwip_out st'.2 = lwip_out st.2 ++ outs;
  rp_grew : exists more, accepted st'.2 = accepted st.2 ++ more;
  rp_prefix : ms `prefix_of` List.filter forwardable msgv;
  rp_all : r = 1 -> ms = List.filter forwardable msgv;
  rp_data : Forall2 (fun m o => o.2 = take (Z.to_nat (m_len m)) (m_buf m)) ms outs;
  rp_local : Exists is_named (accepted st.2) -> s32 (load32 (u_addr local_ip) 0) <> 0 -> local_port <> 0 ->
    Forall from_local outs;
  rp_message : Forall (fun f => ~ is_named f) (accepted st'.2) -> Forall2 from_message ms outs
}.

Lemma replied_skip m msgv r st st' outs ms : forwardable m = false ->
  replied msgv r st st' outs ms -> replied (m :: msgv) r st st' outs ms.
Proof. intros Hm []. constructor; auto; cbn [List.filter]; by rewrite Hm. Qed.

Lemma replied_stop msgv r st st' : lwip_out st'.2 = lwip_out st.2 -> (exists more, accepted st'.2 = accepted st.2 ++ more) ->
  (r = 1 -> msgv = []) -> replied msgv r st st' [] [].
Proof.
  intros Ho Hm Hr. constructor; auto.
  - by rewrite app_nil_r.
  - apply prefix_nil.
  - intros H. by rewrite (Hr H).
Qed.

Lemma replied_cons m msgv r st st1 st' o outs ms : forwardable m = true ->
  lwip_out st1.2 = lwip_out st.2 ++ [o] -> (exists more, accepted st1.2 = accepted st.2 ++ more) ->
  o.2 = take (Z.to_nat (m_len m)) (m_buf m) ->
  (Exists is_named (accepted st.2) -> s32 (load32 (u_addr local_ip) 0) <> 0 -> local_port <> 0 -> from_local o) ->
  (Forall (fun f => ~ is_named f) (accepted st.2) -> from_message m o) ->
  replied msgv r st1 st' outs ms -> replied (m :: msgv) r st st' (o :: outs) (m :: ms).
Proof.
  intros Hm Ho (more1 & Ha) Hd Hl Hf [H1 (more2 & H2) H3 H4 H5 H6 H7].
  constructor; cbn [List.filter]; rewrite ?Hm; auto.
  - by rewrite H1, Ho, <- app_assoc.
  - exists (more1 ++ more2). by rewrite H2, Ha, app_assoc.
  - by apply prefix_cons.
  - intros Hr. by rewrite H4.
  - intros Hn Hz Hp. constructor; [auto|]. apply H6; [|done..]. rewrite Ha. by apply Exists_app; left.
  - intros Hn. constructor; [|auto]. apply Hf. rewrite H2, Ha in Hn. by apply Forall_app in Hn as [[Hn _]%Forall_app _].
Qed.

(** The choice of the source. *)
Lemma source_ok stack st ll q m a ret saddr p data : length stack = 16%nat ->
  inv junk local_ip local_port st ll q -> m_addr m = Addr a ->
  (if negb (addr st.1 =? 0) && negb (port st.1 =? 0)
   then (0, mkIp (splice 0 (mem32 (addr st.1)) stack) IPADDR_TYPE_V4, u16 (port st.1))
   else hev_socks5_addr_into_lwip a (mkIp stack 0) 0) = (ret, saddr, p) ->
  (Exists is_named (accepted st.2) -> s32 (load32 (u_addr local_ip) 0) <> 0 -> local_port <> 0 ->
   from_local (saddr, p, data))
  /\ (Forall (fun f => ~ is_named f) (accepted st.2) -> from_message m (saddr, p, data)).
Proof.
  intros Hst Hi Ea Hs. split.
  - intros Hn Hz Hp. destruct (iv_named _ _ _ _ _ _ Hi Hn) as [Ha Hpo]. rewrite Ha, Hpo in Hs.
    rewrite (proj2 (Z.eqb_neq _ _) Hz), (proj2 (Z.eqb_neq _ _) Hp) in Hs. cbn [negb andb] in Hs. simplify_eq.
    destruct Hip as (b & r & Eb & Hl & Hb). unfold from_local. cbn [fst snd ip_type u_addr].
    rewrite Eb, mem32_load by done. split; [done|]. rewrite splice_front. split; [|by apply u16_id].
    by rewrite !take_app_le, !take_ge by lia.
  - intros Hn ip p' tl Hl Hp' Em. rewrite (iv_plain _ _ _ _ _ _ Hi Hn) in Hs. cbn [Z.eqb negb andb] in Hs.
    assert (a = wire (AIPv4 ip p') ++ tl) as -> by congruence. rewrite into_lwip_ipv4 in Hs by done. injection Hs as <- <- <-.
    cbn. rewrite splice_front. split; [done|]. by rewrite take_app_le, take_ge by lia.
Qed.

Lemma send_back_replied stack msgv : length stack = 16%nat ->
  forall locks st ll q r st', inv junk local_ip local_port st ll q -> locks_ok locks ->
  send_back malloc junk local_ip local_port stack msgv locks st = Some (r, st') ->
  exists outs ms, replied msgv r st st' outs ms.
Proof.
  intros Hst. induction msgv as [|m msgv IH]; intros locks st ll q r st' Hi Hk H; cbn [send_back] in H.
  { simplify_eq. exists [], []. apply replied_stop; [done| |done]. exists []. by rewrite app_nil_r. }
  assert (Hstop : r <> 1 -> st' = st -> exists outs ms, replied (m :: msgv) r st st' outs ms).
  { intros Hr ->. exists [], []. apply replied_stop; [done| |done]. exists []. by rewrite app_nil_r. }
  destruct (m_addr m) as [| |a] eqn:Ea; [|done|].
  { destruct (IH _ _ _ _ _ _ Hi Hk H) as (outs & ms & Hr). exists outs, ms. apply replied_skip; [|done].
    unfold forwardable. by rewrite Ea. }
  destruct (m_len m =? 0) eqn:El.
  { destruct (IH _ _ _ _ _ _ Hi Hk H) as (outs & ms & Hr). exists outs, ms. apply replied_skip; [|done].
    unfold forwardable. by rewrite Ea, El. }
  destruct (if _ && _ then _ else _) as [[ret saddr] p] eqn:Es.
  destruct (ret <? 0); [simplify_eq; by apply Hstop|].
  assert (Hps : packets (default (true, true, []) (list.head locks)).2) by (destruct Hk; [constructor|done]).
  destruct (default (true, true, []) (list.head locks)) as [[alloc ok] ps]. cbn [snd] in Hps.
  destruct alloc; cbn [negb] in H; [|simplify_eq; by apply Hstop]. destruct (_ <? m_len m); [done|].
  destruct (arrivals_inv malloc junk local_ip local_port malloc_fresh ps st ll q Hi Hps)
    as ([s1 e1] & ll1 & q1 & Harr & Hi1 & [(more & _ & Hacc) Hout]).
  rewrite Harr in H. cbn [mbind option_bind] in H. injection Hout as _ Hlo. cbn [snd] in Hacc, Hlo.
  destruct ok; cbn [negb] in H.
  2: { simplify_eq. exists [], []. apply replied_stop; [done|by exists more|done]. }
  apply (inv_lwip_out _ _ _ s1 e1 (lwip_out e1 ++ [(saddr, p, take (Z.to_nat (m_len m)) (m_buf m))])) in Hi1.
  apply IH with (ll := ll1) (q := q1) in H as (outs & ms & Hr); [|done|by destruct Hk; [constructor|]].
  destruct (source_ok stack st ll q m a ret saddr p (take (Z.to_nat (m_len m)) (m_buf m)) Hst Hi Ea Es) as [Hsl Hsm].
  eexists _, _. refine (replied_cons _ _ _ _ _ _ _ _ _ _ _ _ _ Hsl Hsm Hr);
    [unfold forwardable; by rewrite Ea, El|cbn; by rewrite Hlo|by exists more|done].
Qed.

(** What the server sends back reaches the application.  In a session that has run
    for any number of turns, the messages that
    [hev_socks5_udp_recvmmsg] returned are given to lwIP in order, up to the first
    that fails, all of them if the result is 1, empty ones left out.  If the
    application sends to an address that stands for a name, they appear to come from
    that address and port; otherwise they come from the address in the message. *)
Theorem session_udp_replies num ps ts timeout d ph st msgv ps' stack locks :
  dns_ok d -> packets ps -> Forall turn_ok ts -> session num ps ts (opened timeout d) = Some (ph, st) ->
  Forall sane msgv -> packets ps' -> locks_ok locks -> length stack = 16%nat ->
  exists r st' outs ms,
    hev_socks5_session_udp_fwd_b malloc junk local_ip local_port (Got msgv) ps' stack locks st = Some (r, st')
    /\ lwip_out st'.2 = lwip_out st.2 ++ outs
    /\ ms `prefix_of` List.filter forwardable msgv /\ (r = 1 -> ms = List.filter forwardable msgv)
    /\ Forall2 (fun m o => o.2 = take (Z.to_nat (m_len m)) (m_buf m)) ms outs
    /\ (Exists is_named (accepted st.2) -> s32 (load32 (u_addr local_ip) 0) <> 0 -> local_port <> 0 ->
         Forall from_local outs)
    /\ (Forall (fun f => ~ is_named f) (accepted st'.2) -> Forall2 from_message ms outs).
Proof.
  intros Hd Hp Ht Hrun Hs Hp' Hk Hst.
  destruct (session_inv num ps ts timeout d Hd Hp Ht) as (ph' & st0 & ll & q & Hrun' & Hi).
  rewrite Hrun in Hrun'. injection Hrun' as <- <-. unfold hev_socks5_session_udp_fwd_b.
  destruct (arrivals_inv malloc junk local_ip local_port malloc_fresh ps' st ll q Hi Hp')
    as (st1 & ll1 & q1 & -> & Hi1 & [(more & _ & Hacc) Hout]). cbn [mbind option_bind]. injection Hout as _ Hlo.
  destruct (send_back_inv malloc junk local_ip local_port malloc_fresh stack msgv locks st1 ll1 q1 Hi1 Hs Hk)
    as (r & st' & _ & _ & Hb & _).
  destruct (send_back_replied stack msgv Hst locks st1 ll1 q1 r st' Hi1 Hk Hb) as (outs & ms & []).
  exists r, st', outs, ms. split_and!; try done; [congruence|].
  intros Hn. apply rp_local0. rewrite Hacc. by apply Exists_app; left.
Qed.
End Properties.

Module SessionUdpWitness.

Definition alloc (n : nat) (m : gmap Z HevSocks5UDPFrame) : option Z := Some (fresh (dom m ∪ {[0]} : gset Z)).

Lemma udp_alloc_fresh n m a : alloc n m = Some a -> a <> 0 /\ m !! a = None.
Proof.
  intros [= <-]. pose proof (is_fresh (dom m ∪ {[0]} : gset Z)) as Hf.
  apply not_elem_of_union in Hf as [H1 H2]. split; [set_solver|]. by apply not_elem_of_dom.
Qed.

Definition blank (n : nat) : HevSocks5Addr := replicate 260 0.
Definition target : ip_addr_t := mkIp ([192; 0; 2; 7] ++ replicate 12 0) IPADDR_TYPE_V4.
Definition go (y : HevTaskYieldType) : Z := 0.

(** Three datagrams, the second of two buffers; the server takes one, then the rest,
    and answers. *)
Definition early : list (option pbufs) := [Some [[1; 2]]; Some [[3]; [4]]].
Definition reply : HevSocks5UDPMsg := mkMsg (Addr (wire (AIPv4 [192; 0; 2; 7] 53))) [9; 9] 2.
Definition day : list turn := [
  mkTurn (EvOK 0) [Some [[5]]] (Got [reply; mkMsg AddrNull [] 0]) [] (replicate 16 0) [] [] go;
  mkTurn (EvOK 9) [] (Failed (-1) EAGAIN) [] (replicate 16 0) [] [] go ].

Lemma udp_day_ok : packets early /\ Forall turn_ok day.
Proof.
  split; [repeat constructor; done|].
  assert (Hr : Forall sane [reply; mkMsg AddrNull [] 0]) by (repeat constructor; cbn; lia).
  repeat constructor; done.
Qed.

(** Only the first buffer of a datagram is sent: of the second one, [3; 4], the byte 4
    is lost. *)
Lemma session_udp_first_buffer_only : exists ph s e,
  session alloc blank target 53 8 early day (opened 60000 None) = Some (ph, (s, e))
  /\ ((fun f => concat (f_data f)) <$> accepted e) = [[1; 2]; [3; 4]; [5]]
  /\ (m_buf <$> sent e) = [[1; 2]; [3]; [5]].
Proof. eexists _, _, _. split; [vm_compute; reflexivity|]. split; vm_compute; reflexivity. Qed.


Lemma session_udp_replies_witness :
  exists ph st r st' outs ms,
    session alloc blank target 53 8 early [] (opened 60000 None) = Some (ph, st)
    /\ hev_socks5_session_udp_fwd_b alloc blank target 53 (Got [reply]) [] (replicate 16 0) [] st = Some (r, st')
    /\ lwip_out st'.2 = lwip_out st.2 ++ outs /\ ms `prefix_of` [reply].
Proof.
  destruct udp_day_ok as [Hp _].
  assert (Hrun : exists ph st, session alloc blank target 53 8 early [] (opened 60000 None) = Some (ph, st))
    by (eexists _, _; vm_compute; reflexivity).
  destruct Hrun as (ph & st & Hrun).
  destruct (session_udp_replies alloc blank target 53 udp_alloc_fresh) with (num := 8%nat) (ps := early) (ts := @nil turn)
    (timeout := 60000) (d := @None HevMappedDNS) (ph := ph) (st := st) (msgv := [reply]) (ps' := @nil (option pbufs))
    (stack := replicate 16 0) (locks := @nil (bool * bool * list (option pbufs)))
    as (r & st' & outs & ms & H1 & H2 & H3 & _).
  - exists [192; 0; 2; 7], (replicate 12 0). split_and!; [done|done|repeat constructor; unfold is_u8; lia].
  - unfold is_u16; lia.
  - exact I.
  - exact Hp.
  - constructor.
  - exact Hrun.
  - repeat constructor; cbn; lia.
  - constructor.
  - constructor.
  - reflexivity.
  - exists ph, st, r, st', outs, ms. exact (conj Hrun (conj H1 (conj H2 H3))).
Defined.

End SessionUdpWitness.
