(* ===== verification/Mutex.v ===== *)
(** * The mutex of the task system

    Models hev-task-mutex.c of hev-task-system, which every session of the tunnel
    takes around its calls to lwIP.  Tasks are scheduled cooperatively: a function
    runs to its next [hev_task_yield] without interruption, so the atomic steps are
    the code before the loop of [hev_task_mutex_lock], one test of its condition
    after a wake-up, and the other functions. *)

From stdpp Require Import relations.
From S2P Require Import Prelude.

(** [waiters]: the tasks of the linked nodes, from the first; [held] and [woken] are
    not fields of the mutex but facts about the tasks: those past [lock], and those
    that the scheduler will resume. *)
Record HevTaskMutex := mkMutex {
  locker : bool;
  waiters : list Z;
  held : gset Z;
  woken : gset Z
}.

Definition hev_task_mutex_init : HevTaskMutex := mkMutex false [] ∅ ∅.

(** Up to the yield: the task takes the mutex, or puts its node in front. *)
Definition hev_task_mutex_lock (t : Z) (m : HevTaskMutex) : HevTaskMutex :=
  if locker m then mkMutex true (t :: waiters m) (held m) (woken m ∖ {[t]})
  else mkMutex true (waiters m) (held m ∪ {[t]}) (woken m).

(** The condition of the loop, after a wake-up. *)
Definition lock_resume (t : Z) (m : HevTaskMutex) : HevTaskMutex :=
  match waiters m with
  | w :: ws =>
      if negb (locker m) && (w =? t) then mkMutex true ws (held m ∪ {[t]}) (woken m ∖ {[t]})
      else mkMutex (locker m) (waiters m) (held m) (woken m ∖ {[t]})
  | [] => mkMutex (locker m) [] (held m) (woken m ∖ {[t]})
  end.

(** Whether it succeeded. *)
Definition hev_task_mutex_trylock (t : Z) (m : HevTaskMutex) : Z * HevTaskMutex :=
  if locker m then (-1, m) else (0, mkMutex true (waiters m) (held m ∪ {[t]}) (woken m)).

Definition hev_task_mutex_unlock (t : Z) (m : HevTaskMutex) : HevTaskMutex :=
  mkMutex false (waiters m) (held m ∖ {[t]})
    (match waiters m with w :: _ => woken m ∪ {[w]} | [] => woken m end).

(** ** Executions *)

(** A task that waits does nothing else; a task can be woken for other reasons at any
    time. *)
Inductive step : HevTaskMutex -> HevTaskMutex -> Prop :=
  | StepLock t m : t ∉ waiters m -> step m (hev_task_mutex_lock t m)
  | StepResume t m : t ∈ waiters m -> t ∈ woken m -> step m (lock_resume t m)
  | StepTrylock t m : t ∉ waiters m -> step m (hev_task_mutex_trylock t m).2
  | StepUnlock t m : t ∈ held m -> t ∉ waiters m -> step m (hev_task_mutex_unlock t m)
  | StepWake t m : step m (mkMutex (locker m) (waiters m) (held m) (woken m ∪ {[t]})).

Definition reachable (m : HevTaskMutex) : Prop := rtc step hev_task_mutex_init m.

(** ** The invariant *)

Record inv (m : HevTaskMutex) : Prop := {
  iv_nodup : NoDup (waiters m);
  iv_held : (locker m = false /\ held m = ∅) \/ (locker m = true /\ exists t, held m = {[t]});
  iv_wake : locker m = false -> forall w ws, waiters m = w :: ws -> w ∈ woken m
}.

Lemma inv_init : inv hev_task_mutex_init.
Proof. constructor; [constructor|by left|done]. Qed.

Lemma inv_take t m : inv m -> locker m = false -> inv (mkMutex true (waiters m) (held m ∪ {[t]}) (woken m)).
Proof.
  intros [] Hl. constructor; cbn; [done| |done]. right. split; [done|]. exists t.
  destruct iv_held0 as [[_ ->]|[? _]]; [set_solver|congruence].
Qed.

Lemma mutex_inv_step m m' : inv m -> step m m' -> inv m'.
Proof.
  intros Hi Hs. pose proof Hi as []. destruct Hs as [t m Ht|t m Ht Hw|t m Ht|t m Hh Ht|t m].
  - unfold hev_task_mutex_lock. destruct (locker m) eqn:El; [|by apply inv_take].
    constructor; cbn; [by constructor| |done]. destruct iv_held0 as [[? _]|Hh]; [congruence|by right].
  - unfold lock_resume. destruct (waiters m) as [|w ws] eqn:Ew; [set_solver|].
    destruct (locker m) eqn:El; cbn [negb andb].
    + constructor; cbn; [done| |done]. destruct iv_held0 as [[? _]|Hh]; [congruence|by right].
    + destruct (Z.eqb_spec w t) as [->|Hne].
      * apply NoDup_cons in iv_nodup0 as [Hn Hnd]. constructor; cbn; [done| |done]. right. split; [done|]. exists t.
        destruct iv_held0 as [[_ ->]|[? _]]; [set_solver|congruence].
      * constructor; cbn; [done| |].
        -- destruct iv_held0 as [[_ Hh]|[? _]]; [by left|congruence].
        -- intros _ w' ws' [= <- <-]. specialize (iv_wake0 eq_refl w ws eq_refl). set_solver.
  - unfold hev_task_mutex_trylock. destruct (locker m) eqn:El; [done|by apply inv_take].
  - constructor; cbn; [done| |].
    + left. split; [done|]. destruct iv_held0 as [[_ Hh0]|[_ [t' Hh']]]; [set_solver|]. rewrite Hh' in *. set_solver.
    + intros _ w ws ->. set_solver.
  - constructor; cbn; [done|done|]. intros Hl w ws Hw. specialize (iv_wake0 Hl w ws Hw). set_solver.
Qed.

Lemma mutex_inv_reachable m : reachable m -> inv m.
Proof. apply (rtc_ind_r inv); [apply inv_init|]. intros x y _ Hs Hi. by eapply mutex_inv_step. Qed.

(** ** Properties *)

(** C11. The mutex excludes: in every execution at most one task is past
    [hev_task_mutex_lock], and [locker] is set exactly while there is one.  And no
    wake-up is lost: when the mutex is free and tasks wait, the first waiter is going
    to be resumed, and finds the mutex free; it can always be reached by a step. *)
Theorem task_mutex_correct m : reachable m ->
  (forall x y, x ∈ held m -> y ∈ held m -> x = y)
  /\ (locker m = true <-> exists t, t ∈ held m)
  /\ (locker m = false -> forall w ws, waiters m = w :: ws ->
        step m (lock_resume w m) /\ w ∈ held (lock_resume w m) /\ waiters (lock_resume w m) = ws).
Proof.
  intros []%mutex_inv_reachable. split_and!.
  - destruct iv_held0 as [[_ ->]|[_ [t ->]]]; set_solver.
  - destruct iv_held0 as [[-> ->]|[-> [t ->]]]; [|set_solver]. split; [done|]. intros [t Ht]. set_solver.
  - intros Hl w ws Hw. specialize (iv_wake0 Hl w ws Hw). split; [apply StepResume; [rewrite Hw; by left|done]|].
    unfold lock_resume. rewrite Hw, Hl, Z.eqb_refl. cbn. split; [set_solver|done].
Qed.

(** A task that waits for the mutex it holds. *)
Definition stuck (t : Z) (m : HevTaskMutex) : Prop := locker m = true /\ held m = {[t]} /\ t ∈ waiters m.

Lemma stuck_step t m m' : stuck t m -> step m m' -> stuck t m'.
Proof.
  intros (Hl & Hh & Hw) Hs. destruct Hs as [t' m Ht|t' m Ht Hwo|t' m Ht|t' m Hh' Ht|t' m].
  - unfold hev_task_mutex_lock. rewrite Hl. split_and!; [done|done|set_solver].
  - unfold lock_resume. destruct (waiters m) as [|w ws]; [set_solver|]. rewrite Hl. by split_and!.
  - unfold hev_task_mutex_trylock. by rewrite Hl.
  - rewrite Hh in Hh'. apply elem_of_singleton in Hh' as ->. done.
  - by split_and!.
Qed.

(** The mutex is not recursive: a task that locks it while it holds it never gets
    past the call, and the mutex is never free again, whatever the other tasks do. *)
Theorem task_mutex_relock_deadlocks m t : reachable m -> t ∈ held m -> t ∉ waiters m ->
  forall m', rtc step (hev_task_mutex_lock t m) m' ->
    locker m' = true /\ t ∈ waiters m' /\ (forall w, step m' (lock_resume w m') -> held (lock_resume w m') = held m').
Proof.
  intros []%mutex_inv_reachable Ht Hw m' Hs.
  assert (H0 : stuck t (hev_task_mutex_lock t m)).
  { destruct iv_held0 as [[_ Hh]|[Hl [t' Hh]]]; [rewrite Hh in Ht; set_solver|].
    rewrite Hh in Ht. apply elem_of_singleton in Ht as ->. unfold hev_task_mutex_lock. rewrite Hl.
    split_and!; [done|done|by left]. }
  assert (H1 : stuck t m').
  { revert Hs. apply (rtc_ind_r (stuck t)); [done|]. intros x y _ Hxy Hx. by eapply stuck_step. }
  destruct H1 as (Hl & Hh & Hin). split; [done|]. split; [done|]. intros w _. unfold lock_resume.
  destruct (waiters m') as [|x xs]; [done|]. by rewrite Hl.
Qed.

Module MutexWitness.

(** Task 1 holds the mutex, 2 and 3 wait, 1 has unlocked. *)
Definition busy : HevTaskMutex :=
  hev_task_mutex_lock 3 (hev_task_mutex_lock 2 (hev_task_mutex_lock 1 hev_task_mutex_init)).

Lemma busy_reachable : reachable busy /\ reachable (hev_task_mutex_unlock 1 busy).
Proof.
  assert (H : reachable busy).
  { eapply rtc_l; [apply (StepLock 1); cbn; set_solver|]. eapply rtc_l; [apply (StepLock 2); cbn; set_solver|].
    eapply rtc_l; [apply (StepLock 3); cbn; set_solver|]. apply rtc_refl. }
  split; [done|]. eapply rtc_r; [exact H|]. apply StepUnlock; cbn; set_solver.
Qed.

Lemma task_mutex_correct_witness :
  waiters (hev_task_mutex_unlock 1 busy) = [3; 2] /\
  3 ∈ held (lock_resume 3 (hev_task_mutex_unlock 1 busy)).
Proof.
  split; [reflexivity|].
  destruct (task_mutex_correct (hev_task_mutex_unlock 1 busy)) as (_ & _ & H); [apply busy_reachable|].
  destruct (H eq_refl 3 [2] eq_refl) as (_ & H2 & _). exact H2.
Defined.

(** Task 1 locks again, then task 4 does. *)
Lemma task_mutex_relock_deadlocks_witness :
  let m' := hev_task_mutex_lock 4 (hev_task_mutex_lock 1 busy) in
  locker m' = true /\ 1 ∈ waiters m' /\ waiters m' = [4; 1; 3; 2].
Proof.
  destruct (task_mutex_relock_deadlocks busy 1) with (m' := hev_task_mutex_lock 4 (hev_task_mutex_lock 1 busy)) as (H1 & H2 & _).
  - apply busy_reachable.
  - vm_compute. reflexivity.
  - cbn. set_solver.
  - apply rtc_once, StepLock. cbn. set_solver.
  - exact (conj H1 (conj H2 eq_refl)).
Defined.

End MutexWitness.
