(* ===== verification/MemSlice.v ===== *)
(** * The memory allocator of the engine

    Models mem/slice/hev-memory-allocator-slice.c of hev-task-system, the allocator behind [hev_malloc] and [hev_free]: blocks of up to
    4096 bytes go to a cache by size when they are freed; at most 1000 blocks are cached, and the sizes with cached blocks are in a list by recency.

    The heap of the C library is a map from addresses to the blocks that were allocated; a block is identified with its header, behind which
    are [room] bytes (the code hands out the address after the header).  An access to what is not allocated, or outside of an array, is [None].  [malloc] and
    [realloc] answer what the C library chooses: no block, or an address, with anything in its memory. *)

From S2P Require Import Prelude.

(** ** State *)

Definition CACHED_SLICE_ALIGN : Z := 16.
Definition MAX_CACHED_SLICE_SIZE : Z := 4096.
Definition MAX_CACHED_SLICE_COUNT : Z := 1000.
Definition MAX_CACHED_SLICE_INDEX : Z := MAX_CACHED_SLICE_SIZE / CACHED_SLICE_ALIGN.

Record HevMemorySlice := mkSlice { next : option positive; index : Z; room : Z }.
Record HevMemoryLRUNode := mkLRU { lprev : option nat; lnext : option nat }.
Record HevMemoryAllocatorSlice := mkAllocator
  { lru_head : option nat; lru_tail : option nat; lru_nodes : list HevMemoryLRUNode; cached_count : Z; cached_mslices : list (option positive); heap : gmap positive HevMemorySlice }.

#[local] Notation allocator := HevMemoryAllocatorSlice.

Definition with_nodes (n : list HevMemoryLRUNode) (a : allocator) : allocator := mkAllocator (lru_head a) (lru_tail a) n (cached_count a) (cached_mslices a) (heap a).
Definition with_head (h : option nat) (a : allocator) : allocator := mkAllocator h (lru_tail a) (lru_nodes a) (cached_count a) (cached_mslices a) (heap a).
Definition with_tail (t : option nat) (a : allocator) : allocator := mkAllocator (lru_head a) t (lru_nodes a) (cached_count a) (cached_mslices a) (heap a).
Definition with_count (n : Z) (a : allocator) : allocator := mkAllocator (lru_head a) (lru_tail a) (lru_nodes a) n (cached_mslices a) (heap a).
Definition with_heap (h : gmap positive HevMemorySlice) (a : allocator) : allocator := mkAllocator (lru_head a) (lru_tail a) (lru_nodes a) (cached_count a) (cached_mslices a) h.
(** [*owner = p] *)
Definition set_owner (k : nat) (p : option positive) (a : allocator) : allocator := mkAllocator (lru_head a) (lru_tail a) (lru_nodes a) (cached_count a) (<[k := p]> (cached_mslices a)) (heap a).

(** ** The C library *)

Definition sizeof_HevMemorySlice : Z := 16.

(** [n] bytes, of which the header takes the first. *)
Definition malloc (answer : option (positive * HevMemorySlice)) (n : Z) (a : allocator) : option (positive * allocator) :=
  match answer with None => None | Some (p, junk) => Some (p, with_heap (<[p := mkSlice (next junk) (index junk) (n - sizeof_HevMemorySlice)]> (heap a)) a) end.

Definition free (p : positive) (a : allocator) : option allocator := _ ← heap a !! p; Some (with_heap (delete p (heap a)) a).

(** The block moves with its header, or stays; [None]: it was not allocated. *)
Definition realloc (answer : option positive) (p : positive) (n : Z) (a : allocator) : option (option positive * allocator) :=
  s ← heap a !! p;
  match answer with None => Some (None, a) | Some q => Some (Some q, with_heap (<[q := mkSlice (next s) (index s) (n - sizeof_HevMemorySlice)]> (delete p (heap a))) a) end.

Definition set_index (p : positive) (i : Z) (a : allocator) : option allocator := s ← heap a !! p; Some (with_heap (<[p := mkSlice (next s) i (room s)]> (heap a)) a).
Definition set_next (p : positive) (n : option positive) (a : allocator) : option allocator := s ← heap a !! p; Some (with_heap (<[p := mkSlice n (index s) (room s)]> (heap a)) a).

(** ** The list of sizes *)

Definition set_lprev (k : nat) (v : option nat) (a : allocator) : option allocator := n ← lru_nodes a !! k; Some (with_nodes (<[k := mkLRU v (lnext n)]> (lru_nodes a)) a).
Definition set_lnext (k : nat) (v : option nat) (a : allocator) : option allocator := n ← lru_nodes a !! k; Some (with_nodes (<[k := mkLRU (lprev n) v]> (lru_nodes a)) a).

Definition _hev_memory_allocator_lru_insert (a : allocator) (node : nat) : option allocator :=
  a ← set_lprev node None a;
  a ← (match lru_head a with Some h => a ← set_lnext node (Some h) a; set_lprev h (Some node) a | None => set_lnext node None a end);
  let a := with_head (Some node) a in
  Some (match lru_tail a with None => with_tail (Some node) a | Some _ => a end).

Definition _hev_memory_allocator_lru_remove (a : allocator) (node : nat) : option allocator :=
  n ← lru_nodes a !! node;
  a ← (match lprev n with Some p => set_lnext p (lnext n) a | None => Some a end);
  n ← lru_nodes a !! node;
  a ← (match lnext n with Some q => set_lprev q (lprev n) a | None => Some a end);
  n ← lru_nodes a !! node;
  let a := if bool_decide (lru_head a = Some node) then with_head (lnext n) a else a in
  Some (if bool_decide (lru_tail a = Some node) then with_tail (lprev n) a else a).

(** ** Operations *)

(** [nodes]: the uninitialised array. *)
Definition hev_memory_allocator_slice_new (nodes : list HevMemoryLRUNode) : allocator := mkAllocator None None nodes 0 (replicate (Z.to_nat MAX_CACHED_SLICE_INDEX) None) ∅.

Definition ALIGN_UP (size align : Z) : Z := Z.land (u64 (size + align - 1)) (u64 (Z.lnot (align - 1))).

(** What does not come from the cache. *)
Definition alloc_new (answer : option (positive * HevMemorySlice)) (size i : Z) (a : allocator) : option (option positive * allocator) :=
  match malloc answer (u64 (sizeof_HevMemorySlice + size)) a with None => Some (None, a) | Some (p, a) => a ← set_index p i a; Some (Some p, a) end.

Definition _hev_memory_allocator_alloc (a : allocator) (size : Z) (answer : option (positive * HevMemorySlice)) : option (option positive * allocator) :=
  let size := ALIGN_UP size CACHED_SLICE_ALIGN in
  let index := s32 (size / CACHED_SLICE_ALIGN) in
  if index =? 0 then Some (None, a) else
  if (1 <=? index) && (index <=? MAX_CACHED_SLICE_INDEX) then
    let k := Z.to_nat (index - 1) in
    owner ← cached_mslices a !! k;
    match owner with
    | Some slice =>
        s ← heap a !! slice;
        let a := with_count (u32 (cached_count a - 1)) (set_owner k (next s) a) in
        a ← _hev_memory_allocator_lru_remove a k;
        a ← (match next s with Some _ => _hev_memory_allocator_lru_insert a k | None => Some a end);
        Some (Some slice, a)
    | None => alloc_new answer size (index - 1) a
    end
  else alloc_new answer size (-1) a.

(** The block of the size that was cached first is given back. *)
Definition evict (a : allocator) : option allocator :=
  node ← lru_tail a;
  owner ← cached_mslices a !! node;
  free_slice ← owner;
  s ← heap a !! free_slice;
  let a := with_count (u32 (cached_count a - 1)) (set_owner node (next s) a) in
  a ← (match next s with None => _hev_memory_allocator_lru_remove a node | Some _ => Some a end);
  free free_slice a.

Definition _hev_memory_allocator_free (a : allocator) (slice : positive) : option allocator :=
  s ← heap a !! slice;
  if index s <? 0 then free slice a else
  a ← (if MAX_CACHED_SLICE_COUNT <=? cached_count a then evict a else Some a);
  s ← heap a !! slice;
  let k := Z.to_nat (index s) in
  first ← cached_mslices a !! k;
  a ← set_next slice first a;
  let a := with_count (u32 (cached_count a + 1)) (set_owner k (Some slice) a) in
  match first with None => _hev_memory_allocator_lru_insert a k | Some _ => Some a end.

Definition _hev_memory_allocator_realloc (a : allocator) (slice : positive) (size : Z) (answer : option positive) : option (option positive * allocator) :=
  if size =? 0 then a ← _hev_memory_allocator_free a slice; Some (None, a) else
  let size := ALIGN_UP size CACHED_SLICE_ALIGN in
  let index := s32 (size / CACHED_SLICE_ALIGN) in
  '(r, a) ← realloc answer slice (u64 (sizeof_HevMemorySlice + size)) a;
  match r with
  | None => Some (None, a)
  | Some slice => a ← set_index slice (if (1 <=? index) && (index <=? MAX_CACHED_SLICE_INDEX) then index - 1 else -1) a; Some (Some slice, a)
  end.

Fixpoint free_chain (fuel : nat) (iter : option positive) (a : allocator) : option allocator :=
  match iter with
  | None => Some a
  | Some p => match fuel with 0%nat => None | S fuel => s ← heap a !! p; a ← free p a; free_chain fuel (next s) a end
  end.

Fixpoint destroy_loop (fuel : nat) (node : option nat) (a : allocator) : option allocator :=
  match node with
  | None => Some a
  | Some k =>
      match fuel with
      | 0%nat => None
      | S fuel => iter ← cached_mslices a !! k; a ← free_chain (size (heap a)) iter a; n ← lru_nodes a !! k; destroy_loop fuel (lnext n) a
      end
  end.

(** A node per size. *)
Definition _hev_memory_allocator_destroy (a : allocator) : option allocator := destroy_loop (length (lru_nodes a)) (lru_head a) a.
