(* ===== verification/MemSliceSpec.v ===== *)
(** * The memory allocator: theorems

    An invariant ties the cache, its list of sizes and the heap to the blocks that the callers own; every operation keeps it, so that no run of the allocator accesses freed memory or
    hands out a block twice. *)

From S2P Require Import Prelude MemSlice.

#[local] Notation allocator := HevMemoryAllocatorSlice.

(** ** Sizes *)

Lemma align_up size : 0 <= size < 2 ^ 64 - 15 -> ALIGN_UP size CACHED_SLICE_ALIGN = 16 * ((size + 15) / 16).
Proof.
  intros H. unfold ALIGN_UP, CACHED_SLICE_ALIGN. replace (size + 16 - 1) with (size + 15) by lia. rewrite u64_id by (unfold is_u8; lia). change (u64 (Z.lnot (16 - 1))) with (Z.shiftl (Z.ones 60) 4).
  apply Z.bits_inj'. intros n Hn. rewrite Z.land_spec, Z.shiftl_spec by done. replace (16 * ((size + 15) / 16)) with (Z.shiftl (Z.shiftr (size + 15) 4) 4) by (rewrite Z.shiftl_mul_pow2, Z.shiftr_div_pow2 by lia; change (2 ^ 4) with 16; lia). rewrite Z.shiftl_spec by done.
  destruct (Z.lt_ge_cases n 4) as [Hlt|Hge]; [rewrite !(Z.testbit_neg_r _ (n - 4)) by lia; by rewrite andb_false_r|]. rewrite Z.shiftr_spec by lia. replace (n - 4 + 4) with n by lia. destruct (Z.lt_ge_cases (n - 4) 60) as [Hlt|Hge'].
  - rewrite Z.ones_spec_low by lia. by rewrite andb_true_r.
  - rewrite Z.ones_spec_high by lia. rewrite andb_false_r. destruct (decide (size + 15 = 0)) as [->|]; [by rewrite Z.bits_0|]. symmetry. apply Z.bits_above_log2; [lia|]. apply Z.log2_lt_pow2; [lia|]. assert (2 ^ 64 <= 2 ^ n) by (apply Z.pow_le_mono_r; lia). lia.
Qed.

(** The requests for which the number of a size fits: up to 64 GiB. *)
Definition sane (size : Z) : Prop := 0 <= size <= 2 ^ 36 - 16.

(** What is allocated for a request. *)
Definition units (size : Z) : Z := (size + 15) / 16.

Lemma sane_units size : sane size -> 0 <= units size < 2 ^ 32 /\ size <= 16 * units size /\ (units size = 0 <-> size = 0) /\ ALIGN_UP size CACHED_SLICE_ALIGN = 16 * units size /\ ALIGN_UP size CACHED_SLICE_ALIGN / CACHED_SLICE_ALIGN = units size /\ u64 (sizeof_HevMemorySlice + ALIGN_UP size CACHED_SLICE_ALIGN) - sizeof_HevMemorySlice = 16 * units size.
Proof.
  unfold sane, units. intros H. rewrite align_up by lia. assert (0 <= (size + 15) / 16 < 2 ^ 32) by zdiv. unfold CACHED_SLICE_ALIGN, sizeof_HevMemorySlice. split_and!; [lia|lia|zdiv|zdiv|done|zdiv|rewrite u64_id; lia].
Qed.

(** ** The list of sizes *)

Definition head_or (l : list nat) (d : option nat) : option nat := match l with [] => d | x :: _ => Some x end.

Fixpoint dll (nodes : list HevMemoryLRUNode) (prv : option nat) (l : list nat) (nxt : option nat) : Prop :=
  match l with [] => True | i :: l => nodes !! i = Some (mkLRU prv (head_or l nxt)) /\ dll nodes (Some i) l nxt end.

Definition last_or (l : list nat) (d : option nat) : option nat := match last l with None => d | Some x => Some x end.

Lemma lru_last_cons x l d : last_or (x :: l) d = last_or l (Some x).
Proof. unfold last_or. destruct l as [|y l]; [done|]. by rewrite last_cons_cons; destruct (last (y :: l)) eqn:E; [|by apply last_None in E]. Qed.

Lemma dll_app nodes prv a b nxt : dll nodes prv (a ++ b) nxt <-> dll nodes prv a (head_or b nxt) /\ dll nodes (last_or a prv) b nxt.
Proof.
  revert prv. induction a as [|i a IH]; intros prv; [cbn; tauto|]. cbn [app dll]. rewrite IH, lru_last_cons. assert (head_or (a ++ b) nxt = head_or a (head_or b nxt)) as -> by by destruct a. tauto.
Qed.

(** Nodes that are not in the list do not matter. *)
Lemma dll_frame nodes nodes' prv l nxt : dll nodes prv l nxt -> (forall i, i ∈ l -> nodes' !! i = nodes !! i) -> dll nodes' prv l nxt.
Proof.
  revert prv. induction l as [|i l IH]; intros prv; [done|]. intros [H1 H2] Hf. split; [rewrite Hf by (by left); done|]. apply IH; [done|]. intros j Hj. apply Hf. by right.
Qed.

Lemma dll_bound nodes prv l nxt : dll nodes prv l nxt -> forall i, i ∈ l -> (i < length nodes)%nat.
Proof. revert prv. induction l as [|j l IH]; intros prv Hd i Hi; [by apply not_elem_of_nil in Hi|]. destruct Hd as [H1 H2]. apply elem_of_cons in Hi as [->|Hi]; [by apply lookup_lt_Some in H1|by apply (IH _ H2)]. Qed.

Definition lru_ok (a : allocator) (l : list nat) : Prop := dll (lru_nodes a) None l None /\ lru_head a = head_or l None /\ lru_tail a = last l /\ NoDup l.

(** What the operations on the list leave alone. *)
Definition same_cache (a a' : allocator) : Prop := cached_count a' = cached_count a /\ cached_mslices a' = cached_mslices a /\ heap a' = heap a /\ length (lru_nodes a') = length (lru_nodes a).

Lemma lru_insert_ok a l k : lru_ok a l -> k ∉ l -> (k < length (lru_nodes a))%nat -> exists a', _hev_memory_allocator_lru_insert a k = Some a' /\ lru_ok a' (k :: l) /\ same_cache a a'.
Proof.
  intros (Hd & Hh & Ht & Hnd) Hk Hlt. unfold _hev_memory_allocator_lru_insert, set_lprev, set_lnext. destruct (lookup_lt_is_Some_2 _ _ Hlt) as [n Hn]. rewrite Hn. cbn [mbind option_bind with_nodes lru_nodes lru_head lru_tail lnext lprev]. rewrite Hh. destruct l as [|h l]; cbn [head_or].
  - rewrite list_lookup_insert_eq by done. cbn [mbind option_bind with_nodes lru_nodes lru_head lru_tail lnext lprev with_head]. rewrite Ht. cbn. eexists. split; [done|]. unfold lru_ok, same_cache. cbn. rewrite !list_insert_insert_eq, !length_insert, list_lookup_insert_eq by done. split_and!; try done. apply NoDup_singleton.
  - rewrite list_lookup_insert_eq by done. cbn [mbind option_bind with_nodes lru_nodes lru_head lru_tail lnext lprev with_head]. apply not_elem_of_cons in Hk as [Hkh Hk]. destruct Hd as [Hdh Hd]. rewrite !list_insert_insert_eq, list_lookup_insert_ne, Hdh by done. cbn [mbind option_bind with_nodes lru_nodes lru_head lru_tail lnext lprev with_head]. rewrite Ht.
    destruct (last (h :: l)) as [t|] eqn:El; [|by apply last_None in El]. eexists. split; [done|]. pose proof (lookup_lt_Some _ _ _ Hdh) as Hlh. apply NoDup_cons in Hnd as [Hhl Hnd]. unfold lru_ok, same_cache. cbn. rewrite !length_insert. split_and!; try done.
    + rewrite list_lookup_insert_ne by done. by rewrite list_lookup_insert_eq.
    + rewrite list_lookup_insert_eq by (by rewrite length_insert). done.
    + eapply dll_frame; [exact Hd|]. intros i Hi. rewrite !list_lookup_insert_ne; [done|by intros ->|by intros ->].
    + by rewrite Ht, El.
    + apply NoDup_cons. split; [by apply not_elem_of_cons|]. by apply NoDup_cons.
Qed.

(** The neighbours of a node that leaves. *)
Lemma dll_set_next nodes prv x p nxt nxt' n : dll nodes prv (x ++ [p]) nxt -> NoDup (x ++ [p]) -> nodes !! p = Some n -> dll (<[p := mkLRU (lprev n) nxt']> nodes) prv (x ++ [p]) nxt'.
Proof.
  rewrite !dll_app. intros [H1 [H2 _]] Hnd Hn. rewrite H2 in Hn. injection Hn as <-. apply NoDup_app in Hnd as (_ & Hnd & _). cbn [head_or dll lprev]. split.
  - eapply dll_frame; [exact H1|]. intros i Hi. rewrite list_lookup_insert_ne; [done|]. intros ->. by apply (Hnd i Hi), list_elem_of_singleton.
  - split; [|done]. apply list_lookup_insert_eq. by apply lookup_lt_Some in H2.
Qed.

Lemma dll_set_prev nodes prv prv' q y nxt n : dll nodes prv (q :: y) nxt -> NoDup (q :: y) -> nodes !! q = Some n -> dll (<[q := mkLRU prv' (lnext n)]> nodes) prv' (q :: y) nxt.
Proof.
  intros [H1 H2] [Hq Hnd]%NoDup_cons Hn. rewrite H1 in Hn. injection Hn as <-. cbn [dll lnext]. split; [apply list_lookup_insert_eq; by apply lookup_lt_Some in H1|]. eapply dll_frame; [exact H2|]. intros i Hi. rewrite list_lookup_insert_ne; [done|]. by intros ->.
Qed.

Lemma dll_insert_ne nodes prv l nxt i n : dll nodes prv l nxt -> i ∉ l -> dll (<[i := n]> nodes) prv l nxt.
Proof. intros H Hi. eapply dll_frame; [exact H|]. intros j Hj. rewrite list_lookup_insert_ne; [done|]. by intros ->. Qed.

(** The nodes change, and nothing else. *)
Definition only_nodes (a a' : allocator) : Prop := same_cache a a' /\ lru_head a' = lru_head a /\ lru_tail a' = lru_tail a.

Lemma lru_last_snoc x p d : last_or (x ++ [p]) d = Some p.
Proof. unfold last_or. by rewrite last_snoc. Qed.

Lemma bypass_next a x k y n nxt : dll (lru_nodes a) None x (Some k) -> dll (lru_nodes a) (Some k) y None -> lru_nodes a !! k = Some n -> NoDup (x ++ k :: y) ->
  exists a', match last_or x None with Some p => set_lnext p nxt a | None => Some a end = Some a' /\ dll (lru_nodes a') None x nxt /\ dll (lru_nodes a') (Some k) y None /\ lru_nodes a' !! k = Some n /\ only_nodes a a'.
Proof.
  intros Hx Hy Hk Hnd. destruct x as [|p x _] using rev_ind; [exists a; by split_and!|]. rewrite lru_last_snoc. apply NoDup_app in Hnd as (Hndx & Hxy & _). assert (Hp : p ∉ k :: y) by (apply Hxy; apply elem_of_app; right; by left). apply not_elem_of_cons in Hp as [Hpk Hpy].
  assert (exists m, lru_nodes a !! p = Some m) as [m Hm] by (apply dll_app in Hx as [_ [Hp _]]; by eexists). unfold set_lnext. rewrite Hm. cbn [mbind option_bind]. eexists. split; [done|]. unfold only_nodes, same_cache. cbn. rewrite length_insert. split_and!; try done.
  - by apply (dll_set_next _ _ _ _ (Some k)).
  - by apply dll_insert_ne.
  - by rewrite list_lookup_insert_ne.
Qed.

Lemma bypass_prev a x k y n prv nxt : dll (lru_nodes a) None x nxt -> dll (lru_nodes a) (Some k) y None -> lru_nodes a !! k = Some n -> NoDup (x ++ k :: y) ->
  exists a', match head_or y None with Some q => set_lprev q prv a | None => Some a end = Some a' /\ dll (lru_nodes a') None x nxt /\ dll (lru_nodes a') prv y None /\ lru_nodes a' !! k = Some n /\ only_nodes a a'.
Proof.
  intros Hx Hy Hk Hnd. destruct y as [|q y]; [exists a; by split_and!|]. cbn [head_or]. apply NoDup_app in Hnd as (Hndx & Hxy & [Hky Hndy]%NoDup_cons). assert (Hqx : q ∉ x) by (intros Hin; apply (Hxy q Hin); right; by left). apply not_elem_of_cons in Hky as [Hkq _].
  pose proof Hy as [Hq _]. unfold set_lprev. rewrite Hq. cbn [mbind option_bind]. eexists. split; [done|]. unfold only_nodes, same_cache. cbn [with_nodes lru_nodes lru_head lru_tail cached_count cached_mslices heap]. rewrite length_insert. split_and!; try done.
  - by apply dll_insert_ne.
  - by apply (dll_set_prev _ (Some k)).
  - by rewrite list_lookup_insert_ne.
Qed.

Lemma lru_remove_ok a x k y : lru_ok a (x ++ k :: y) -> exists a', _hev_memory_allocator_lru_remove a k = Some a' /\ lru_ok a' (x ++ y) /\ same_cache a a'.
Proof.
  intros (Hd & Hh & Ht & Hnd). apply dll_app in Hd as [Hx [Hk Hy]]. cbn [head_or] in Hx. unfold _hev_memory_allocator_lru_remove. rewrite Hk. cbn [mbind option_bind lprev lnext].
  destruct (bypass_next a x k y _ (head_or y None) Hx Hy Hk Hnd) as (a1 & -> & Hx1 & Hy1 & Hk1 & (S1 & Hh1 & Ht1)). cbn [mbind option_bind]. rewrite Hk1. cbn [mbind option_bind lprev lnext].
  destruct (bypass_prev a1 x k y _ (last_or x None) (head_or y None) Hx1 Hy1 Hk1 Hnd) as (a2 & -> & Hx2 & Hy2 & Hk2 & (S2 & Hh2 & Ht2)). cbn [mbind option_bind]. rewrite Hk2. cbn [mbind option_bind lprev lnext]. rewrite Hh2, Hh1, Hh.
  pose proof Hnd as Hnd'. apply NoDup_app in Hnd' as (Hndx & Hxy & [Hky Hndy]%NoDup_cons). assert (Hkx : k ∉ x) by (intros Hin; apply (Hxy k Hin); by left).
  assert (Hnd2 : NoDup (x ++ y)) by (apply NoDup_app; split; [done|]; split; [|done]; intros i Hi Hi'; apply (Hxy i Hi); by right). assert (Hdll : dll (lru_nodes a2) None (x ++ y) None) by by apply dll_app.
  set (a3 := if bool_decide (head_or (x ++ k :: y) None = Some k) then with_head (head_or y None) a2 else a2).
  assert (H3 : lru_nodes a3 = lru_nodes a2 /\ lru_tail a3 = lru_tail a2 /\ same_cache a2 a3 /\ lru_head a3 = head_or (x ++ y) None).
  { unfold a3. destruct x as [|h x]; [cbn [app head_or]; rewrite bool_decide_true by done; by split_and!|]. cbn [app head_or]. rewrite bool_decide_false by (intros [= ->]; apply Hkx; by left). split_and!; try done. by rewrite Hh2, Hh1, Hh. }
  destruct H3 as (N3 & T3 & S3 & H3). rewrite T3, Ht2, Ht1, Ht. eexists. split; [done|]. rewrite last_app_cons. case_bool_decide as E.
  - assert (y = []) as -> by (destruct y as [|q y]; [done|]; rewrite last_cons_cons in E; apply last_Some_elem_of in E; done). unfold lru_ok, same_cache in *. cbn [with_tail lru_nodes lru_head lru_tail cached_count cached_mslices heap]. rewrite N3, H3, app_nil_r in *. split; [split_and!; try done|naive_solver congruence]. unfold last_or. by destruct (last x).
  - unfold lru_ok. rewrite N3, H3. split; [split_and!; try done|unfold same_cache in *; naive_solver congruence]. rewrite T3, Ht2, Ht1, Ht, last_app_cons. destruct y as [|q y]; [done|]. by rewrite last_cons_cons, last_app_cons.
Qed.

(** ** The cache *)

(** The blocks of one size, in their order. *)
Fixpoint linked (h : gmap positive HevMemorySlice) (k : nat) (c : list positive) : Prop :=
  match c with [] => True | p :: c => h !! p = Some (mkSlice (head c) (Z.of_nat k) (16 * (Z.of_nat k + 1))) /\ linked h k c end.

Lemma linked_frame h h' k c : linked h k c -> (forall p, p ∈ c -> h' !! p = h !! p) -> linked h' k c.
Proof. induction c as [|p c IH]; [done|]. intros [H1 H2] Hf. split; [rewrite Hf by (by left); done|]. apply IH; [done|]. intros q Hq. apply Hf. by right. Qed.

Lemma linked_lookup h k c p : linked h k c -> p ∈ c -> exists n, h !! p = Some (mkSlice n (Z.of_nat k) (16 * (Z.of_nat k + 1))).
Proof. induction c as [|q c IH]; intros Hl Hp; [by apply not_elem_of_nil in Hp|]. destruct Hl as [H1 H2]. apply elem_of_cons in Hp as [->|Hp]; [by eexists|by apply IH]. Qed.

Lemma concat_split (chains : list (list positive)) k c : chains !! k = Some c -> exists rest, concat chains ≡ₚ c ++ rest /\ forall c', concat (<[k := c']> chains) ≡ₚ c' ++ rest.
Proof.
  intros H. exists (concat (take k chains) ++ concat (drop (S k) chains)). pose proof (lookup_lt_Some _ _ _ H) as Hlt. assert (Hsplit : forall c', concat (<[k := c']> chains) ≡ₚ c' ++ concat (take k chains) ++ concat (drop (S k) chains)).
  { intros c'. rewrite insert_take_drop by done. rewrite concat_app. cbn [concat]. solve_Permutation. }
  split; [|done]. rewrite <- (Hsplit c). by rewrite list_insert_id.
Qed.

Lemma push_concat (chains : list (list positive)) k c p : chains !! k = Some c -> concat (<[k := p :: c]> chains) ≡ₚ p :: concat chains.
Proof. intros H. destruct (concat_split _ _ _ H) as (rest & E1 & E2). rewrite E1, E2. done. Qed.

Lemma pop_concat (chains : list (list positive)) k c p : chains !! k = Some (p :: c) -> concat chains ≡ₚ p :: concat (<[k := c]> chains).
Proof. intros H. destruct (concat_split _ _ _ H) as (rest & E1 & E2). rewrite E1, E2. done. Qed.

Lemma elem_concat (chains : list (list positive)) k c p : chains !! k = Some c -> p ∈ c -> p ∈ concat chains.
Proof. intros H Hp. destruct (concat_split _ _ _ H) as (rest & E1 & _). rewrite E1. apply elem_of_app. by left. Qed.

(** ** The invariant *)

(** A block with [n] bytes asked for. *)
Definition block_ok (s : HevMemorySlice) (n : Z) : Prop := n <= room s /\ (index s = -1 \/ (0 <= index s < 256 /\ room s = 16 * (index s + 1))).

(** [chains]: the cached blocks by size; [lru]: the sizes that have some; [owned]: the blocks of the callers, with the bytes they asked for. *)
Record alloc_inv (a : allocator) (chains : list (list positive)) (lru : list nat) (owned : gmap positive Z) : Prop := {
  inv_chains : length chains = 256%nat;
  inv_owners : cached_mslices a = head <$> chains;
  inv_nodes : length (lru_nodes a) = 256%nat;
  inv_linked : forall k c, chains !! k = Some c -> linked (heap a) k c;
  inv_nodup : NoDup (concat chains);
  inv_owned : forall p n, owned !! p = Some n -> p ∉ concat chains /\ exists s, heap a !! p = Some s /\ block_ok s n;
  inv_dom : forall p, is_Some (heap a !! p) -> p ∈ concat chains \/ is_Some (owned !! p);
  inv_count : cached_count a = Z.of_nat (length (concat chains));
  inv_max : (length (concat chains) <= 1000)%nat;
  inv_lru : lru_ok a lru;
  inv_sizes : forall k, k ∈ lru <-> exists c, chains !! k = Some c /\ c <> [];
}.

Lemma inv_owner a chains lru owned k c : alloc_inv a chains lru owned -> chains !! k = Some c -> cached_mslices a !! k = Some (head c).
Proof. intros H Hk. rewrite (inv_owners _ _ _ _ H). by rewrite list_lookup_fmap, Hk. Qed.

Lemma inv_free_not_cached a chains lru owned p : alloc_inv a chains lru owned -> heap a !! p = None -> p ∉ concat chains /\ owned !! p = None.
Proof.
  intros H Hp. split.
  - intros Hin. apply list_elem_of_In, in_concat in Hin as (c & Hc & Hin). apply list_elem_of_In in Hin, Hc. apply list_elem_of_lookup_1 in Hc as [k Hk]. destruct (linked_lookup _ _ _ _ (inv_linked _ _ _ _ H k c Hk) Hin) as [n Hn]. congruence.
  - destruct (owned !! p) as [n|] eqn:E; [|done]. apply (inv_owned _ _ _ _ H) in E as (_ & s & Hs & _). congruence.
Qed.

(** A block leaves the heap. *)
Lemma inv_delete a chains lru owned p n : alloc_inv a chains lru owned -> owned !! p = Some n -> alloc_inv (with_heap (delete p (heap a)) a) chains lru (delete p owned).
Proof.
  intros H Hp. destruct (inv_owned _ _ _ _ H p n Hp) as [Hnot _]. destruct H. split; try done.
  - intros k c Hc. eapply linked_frame; [by apply inv_linked0|]. intros q Hq. cbn. apply lookup_delete_ne. intros <-. apply Hnot. by apply (elem_concat _ _ _ _ Hc).
  - intros q m. rewrite lookup_delete_Some. intros [Hne Hq]. destruct (inv_owned0 q m Hq) as (? & s & Hs & ?). split; [done|]. exists s. split; [|done]. cbn. by rewrite lookup_delete_ne.
  - intros q. cbn. intros [s [Hne Hs]%lookup_delete_Some]. destruct (inv_dom0 q ltac:(by eexists)) as [|[m Hm]]; [by left|]. right. exists m. by rewrite lookup_delete_ne.
Qed.

(** A block enters it. *)
Lemma inv_insert a chains lru owned p s n : alloc_inv a chains lru owned -> heap a !! p = None -> block_ok s n -> alloc_inv (with_heap (<[p := s]> (heap a)) a) chains lru (<[p := n]> owned).
Proof.
  intros H Hp Hs. destruct (inv_free_not_cached _ _ _ _ _ H Hp) as [Hnot Hno]. destruct H. split; try done.
  - intros k c Hc. eapply linked_frame; [by apply inv_linked0|]. intros q Hq. cbn. apply lookup_insert_ne. intros <-. apply Hnot. by apply (elem_concat _ _ _ _ Hc).
  - intros q m. rewrite lookup_insert_Some. cbn. intros [[<- <-]|[Hne Hq]]; [split; [done|]; exists s; split; [apply lookup_insert_eq|done]|]. destruct (inv_owned0 q m Hq) as (? & t & Ht & ?). split; [done|]. exists t. split; [|done]. by rewrite lookup_insert_ne.
  - intros q. cbn. intros [t [[<- _]|[Hne Ht]]%lookup_insert_Some]; [right; exists n; apply lookup_insert_eq|]. destruct (inv_dom0 q ltac:(by eexists)) as [|[m Hm]]; [by left|]. right. exists m. by rewrite lookup_insert_ne.
Qed.

(** The chains other than [k]. *)
Lemma chains_insert (chains : list (list positive)) k c j d : (k < length chains)%nat -> <[k := c]> chains !! j = Some d <-> (j = k /\ d = c) \/ (j <> k /\ chains !! j = Some d).
Proof.
  intros Hk. destruct (decide (j = k)) as [->|Hne]; [rewrite list_lookup_insert_eq by done; naive_solver congruence|]. rewrite list_lookup_insert_ne by done. naive_solver.
Qed.

Lemma sizes_insert (chains : list (list positive)) k c j : (k < length chains)%nat -> (exists d, <[k := c]> chains !! j = Some d /\ d <> []) <-> (j = k /\ c <> []) \/ (j <> k /\ exists d, chains !! j = Some d /\ d <> []).
Proof.
  intros Hk. destruct (decide (j = k)) as [->|Hne]; [rewrite list_lookup_insert_eq by done|rewrite list_lookup_insert_ne by done].
  - split; [intros (d & [= <-] & Hd); by left|]. intros [[_ Hc]|[? _]]; [by exists c|done].
  - split; [intros Hd; by right|]. intros [[? _]|[_ Hd]]; done.
Qed.

(** The first block of a size goes to a caller. *)
Lemma inv_pop a a' chains lru lru' owned k p c n : alloc_inv a chains lru owned -> chains !! k = Some (p :: c) -> n <= 16 * (Z.of_nat k + 1) ->
  cached_mslices a' = <[k := head c]> (cached_mslices a) -> cached_count a' = cached_count a - 1 -> heap a' = heap a -> length (lru_nodes a') = length (lru_nodes a) -> lru_ok a' lru' ->
  (forall j, j ∈ lru' <-> (j <> k /\ j ∈ lru) \/ (j = k /\ c <> [])) -> owned !! p = None /\ alloc_inv a' (<[k := c]> chains) lru' (<[p := n]> owned).
Proof.
  intros H Hk Hn Ho Hc Hh Hl Hlru Hsz. pose proof (lookup_lt_Some _ _ _ Hk) as Hlt. pose proof (pop_concat _ _ _ _ Hk) as Hpop. pose proof (inv_linked _ _ _ _ H k _ Hk) as [Hp Hlk]. destruct H as [I1 I2 I3 I4 I5 I6 I7 I8 I9 I10 I11].
  assert (Hpn : owned !! p = None) by (destruct (owned !! p) as [m|] eqn:E; [|done]; apply I6 in E as [E _]; destruct E; rewrite Hpop; by left). rewrite Hpop in I5, I8, I9. pose proof I5 as [Hpc Hnd]%NoDup_cons. split; [done|]. split.
  - by rewrite length_insert.
  - rewrite Ho, I2. by rewrite list_fmap_insert.
  - congruence.
  - intros j d [[-> ->]|[Hne Hd]]%chains_insert; [rewrite Hh; done|rewrite Hh; by apply I4|done].
  - done.
  - intros q m. rewrite lookup_insert_Some, Hh. intros [[<- <-]|[Hne Hq]]; [split; [done|]; eexists; split; [exact Hp|]; split; [done|right; cbn; split; [lia|done]]|]. destruct (I6 q m Hq) as [Hq1 Hq2]. split; [|done]. intros Hin. apply Hq1. rewrite Hpop. by right.
  - intros q Hq. rewrite Hh in Hq. destruct (I7 q Hq) as [Hin|[m Hm]]; [rewrite Hpop in Hin; apply elem_of_cons in Hin as [->|Hin]; [right; exists n; apply lookup_insert_eq|by left]|]. right. destruct (decide (p = q)) as [->|Hne]; [exists n; apply lookup_insert_eq|exists m; by rewrite lookup_insert_ne].
  - rewrite Hc, I8. cbn [length]. lia.
  - cbn [length] in I9. lia.
  - done.
  - intros j. rewrite Hsz, I11, sizes_insert by done. tauto.
Qed.

(** A block of a caller becomes the first of its size. *)
Lemma inv_push a a' chains lru lru' owned k p c n s : alloc_inv a chains lru owned -> owned !! p = Some n -> heap a !! p = Some s -> index s = Z.of_nat k -> chains !! k = Some c -> (length (concat chains) < 1000)%nat ->
  cached_mslices a' = <[k := Some p]> (cached_mslices a) -> cached_count a' = cached_count a + 1 -> heap a' = <[p := mkSlice (head c) (index s) (room s)]> (heap a) -> length (lru_nodes a') = length (lru_nodes a) -> lru_ok a' lru' ->
  (forall j, j ∈ lru' <-> j = k \/ j ∈ lru) -> alloc_inv a' (<[k := p :: c]> chains) lru' (delete p owned).
Proof.
  intros H Hp Hs Hi Hk Hmax Ho Hc Hh Hl Hlru Hsz. pose proof (lookup_lt_Some _ _ _ Hk) as Hlt. pose proof (push_concat _ _ _ p Hk) as Hpush. pose proof (inv_owned _ _ _ _ H p n Hp) as (Hnot & s' & Hs' & Hb). rewrite Hs in Hs'. injection Hs' as <-. destruct H as [I1 I2 I3 I4 I5 I6 I7 I8 I9 I10 I11].
  assert (Hr : room s = 16 * (Z.of_nat k + 1)) by (destruct Hb as [_ [Hb|[_ Hb]]]; [lia|by rewrite Hi in Hb]).
  assert (Hfr : forall j d, chains !! j = Some d -> linked (heap a') j d) by (intros j d Hd; eapply linked_frame; [by apply I4|]; intros q Hq; rewrite Hh; apply lookup_insert_ne; intros <-; apply Hnot; by apply (elem_concat _ _ _ _ Hd)). split.
  - by rewrite length_insert.
  - rewrite Ho, I2. by rewrite list_fmap_insert.
  - congruence.
  - intros j d [[-> ->]|[Hne Hd]]%chains_insert; [|by apply Hfr|done]. split; [rewrite Hh, lookup_insert_eq, Hi, Hr; done|by apply Hfr].
  - rewrite Hpush. by apply NoDup_cons.
  - intros q m. rewrite lookup_delete_Some. intros [Hne Hq]. destruct (I6 q m Hq) as (Hq1 & t & Ht & Hq2). split; [rewrite Hpush; by apply not_elem_of_cons|]. exists t. split; [|done]. rewrite Hh. by rewrite lookup_insert_ne.
  - intros q. rewrite Hh. intros [t [[<- _]|[Hne Ht]]%lookup_insert_Some]; [left; rewrite Hpush; by left|]. destruct (I7 q ltac:(by eexists)) as [Hin|[m Hm]]; [left; rewrite Hpush; by right|]. right. exists m. by rewrite lookup_delete_ne.
  - rewrite Hc, I8, Hpush. cbn [length]. lia.
  - rewrite Hpush. cbn [length]. lia.
  - done.
  - intros j. rewrite Hsz, I11, sizes_insert by done. destruct (decide (j = k)) as [->|Hne]; [|tauto]. split; [intros _; by left|intros _; by left].
Qed.

(** ** The operations *)

(** The list of sizes after the owner and the count were changed. *)
Lemma lru_ok_owner a l n k p : lru_ok a l -> lru_ok (with_count n (set_owner k p a)) l.
Proof. done. Qed.

Lemma u32_count n : 0 <= n <= 1000 -> u32 n = n.
Proof. intros H. apply Z.mod_small. lia. Qed.

Lemma size_listed a chains lru owned k p c : alloc_inv a chains lru owned -> chains !! k = Some (p :: c) -> exists x y, lru = x ++ k :: y.
Proof. intros H Hk. apply list_elem_of_split. apply (inv_sizes _ _ _ _ H). by exists (p :: c). Qed.

(** A block from the cache; its size is the most recent one now. *)
Lemma alloc_hit a chains lru owned k p c n : alloc_inv a chains lru owned -> chains !! k = Some (p :: c) -> n <= 16 * (Z.of_nat k + 1) ->
  exists a1 a2 lru', _hev_memory_allocator_lru_remove (with_count (u32 (cached_count a - 1)) (set_owner k (head c) a)) k = Some a1 /\
    match head c with Some _ => _hev_memory_allocator_lru_insert a1 k | None => Some a1 end = Some a2 /\ owned !! p = None /\ alloc_inv a2 (<[k := c]> chains) lru' (<[p := n]> owned).
Proof.
  intros H Hk Hn. destruct (size_listed _ _ _ _ _ _ _ H Hk) as (x & y & ->). pose proof (inv_lru _ _ _ _ H) as Hlru. assert (Hcnt : u32 (cached_count a - 1) = cached_count a - 1).
  { pose proof (inv_max _ _ _ _ H) as Hm. rewrite (inv_count _ _ _ _ H). rewrite (pop_concat _ _ _ _ Hk) in Hm |- *. cbn [length] in *. apply u32_count. lia. }
  destruct (lru_remove_ok _ x k y (lru_ok_owner a _ (u32 (cached_count a - 1)) k (head c) Hlru)) as (a1 & E1 & L1 & S1). exists a1. destruct Hlru as (_ & _ & _ & Hnd). assert (Hkn : k ∉ x ++ y) by (apply NoDup_app in Hnd as (_ & Hxy & [Hky _]%NoDup_cons); intros [Hin|Hin]%elem_of_app; [apply (Hxy k Hin); by left|done]).
  pose proof (inv_nodes _ _ _ _ H) as Hlen. pose proof (lookup_lt_Some _ _ _ Hk) as Hlt. rewrite (inv_chains _ _ _ _ H) in Hlt. destruct S1 as (S1 & S2 & S3 & S4). cbn [with_count set_owner cached_count cached_mslices heap lru_nodes] in S1, S2, S3, S4.
  destruct c as [|q c]; cbn [head].
  - exists a1, (x ++ y). split; [done|]. split; [done|]. apply (inv_pop a a1 chains (x ++ k :: y) (x ++ y) owned k p [] n); [done|done|done|done|congruence|done|done|done|]. intros j. rewrite elem_of_app, elem_of_app, elem_of_cons. split; [|naive_solver]. intros Hj. left. split; [|tauto]. intros ->. by apply Hkn, elem_of_app.
  - destruct (lru_insert_ok a1 (x ++ y) k L1 Hkn) as (a2 & E2 & L2 & (T1 & T2 & T3 & T4)); [lia|]. exists a2, (k :: x ++ y). split; [done|]. split; [done|]. apply (inv_pop a a2 chains (x ++ k :: y) (k :: x ++ y) owned k p (q :: c) n); [done|done|done|congruence|congruence|congruence|congruence|done|]. intros j. rewrite elem_of_cons, elem_of_app, elem_of_app, elem_of_cons. destruct (decide (j = k)) as [->|]; naive_solver.
Qed.

(** What the C library answers is not in use. *)
Definition answer_ok (a : allocator) (answer : option (positive * HevMemorySlice)) : Prop := match answer with Some (p, _) => heap a !! p = None | None => True end.

Lemma with_heap_twice h h' a : with_heap h' (with_heap h a) = with_heap h' a.
Proof. done. Qed.

Lemma alloc_new_ok a chains lru owned answer size i : alloc_inv a chains lru owned -> answer_ok a answer -> sane size -> (i = -1 \/ (i = units size - 1 /\ 0 <= i < 256)) ->
  exists r a', alloc_new answer (ALIGN_UP size CACHED_SLICE_ALIGN) i a = Some (r, a') /\ match r with None => a' = a /\ answer = None | Some p => owned !! p = None /\ alloc_inv a' chains lru (<[p := size]> owned) end.
Proof.
  intros H Ha Hs Hi. destruct (sane_units size Hs) as (Hu & Hle & _ & _ & _ & Er). unfold alloc_new, malloc, set_index. destruct answer as [[p junk]|]; [|by exists None, a]. cbn [mbind option_bind with_heap heap]. rewrite lookup_insert_eq. cbn [mbind option_bind MemSlice.next room]. exists (Some p). eexists. split; [done|]. rewrite with_heap_twice, insert_insert_eq, Er. split; [by apply (inv_free_not_cached _ _ _ _ _ H Ha)|].
  apply inv_insert; [done|done|]. split; [done|]. cbn [index room]. destruct Hi as [->|[-> Hi]]; [by left|right; split; [done|lia]].
Qed.

Lemma s32_units u : 0 <= u < 2 ^ 32 -> (s32 u = 0 <-> u = 0) /\ ((1 <= s32 u <= 256) <-> (1 <= u <= 256)) /\ (1 <= u <= 256 -> s32 u = u).
Proof.
  intros Hu. unfold s32. destruct (Z.lt_ge_cases u (2 ^ 31)); [rewrite Z.mod_small by lia; lia|]. replace (u + 2 ^ 31) with (u - 2 ^ 31 + 1 * 2 ^ 32) by lia. rewrite Z_mod_plus_full, Z.mod_small by lia. lia.
Qed.

(** Allocation: no block for no bytes; otherwise a block that no caller owns, with room for what was asked for, unless there is no memory. *)
Lemma slice_alloc_ok a chains lru owned size answer : alloc_inv a chains lru owned -> sane size -> answer_ok a answer ->
  exists r a', _hev_memory_allocator_alloc a size answer = Some (r, a') /\ match r with None => a' = a /\ (size = 0 \/ answer = None) | Some p => size <> 0 /\ owned !! p = None /\ exists chains' lru', alloc_inv a' chains' lru' (<[p := size]> owned) end.
Proof.
  intros H Hs Ha. destruct (sane_units size Hs) as (Hu & Hle & Hz & _ & Ed & _). destruct (s32_units (units size) Hu) as (E0 & Er & Ei). unfold _hev_memory_allocator_alloc. rewrite Ed. destruct (Z.eqb_spec (s32 (units size)) 0) as [E|E]; [exists None, a; split; [done|]; split; [done|]; left; apply Hz; by apply E0|]. assert (Hsz : size <> 0) by (intros Hsz; apply E, E0, Hz, Hsz).
  change MAX_CACHED_SLICE_INDEX with 256. destruct ((1 <=? s32 (units size)) && (s32 (units size) <=? 256)) eqn:Eb.
  - apply andb_true_iff in Eb as [Eb1 Eb2]. apply Z.leb_le in Eb1, Eb2. assert (Hr : 1 <= units size <= 256) by (apply Er; lia). rewrite (Ei Hr). set (k := Z.to_nat (units size - 1)). assert (Hk : Z.of_nat k = units size - 1) by lia. destruct (lookup_lt_is_Some_2 chains k) as [c Hc]; [rewrite (inv_chains _ _ _ _ H); lia|].
    rewrite (inv_owner _ _ _ _ _ _ H Hc). cbn [mbind option_bind]. destruct c as [|p c]; cbn [head].
    + destruct (alloc_new_ok a chains lru owned answer size (units size - 1) H Ha Hs) as (r & a' & -> & Hres); [right; lia|]. exists r, a'. split; [done|]. destruct r as [p|]; [split; [done|]; destruct Hres as [? ?]; split; [done|by exists chains, lru]|]. destruct Hres as [-> ->]. split; [done|by right].
    + destruct (inv_linked _ _ _ _ H k _ Hc) as [Hp _]. rewrite Hp. cbn [mbind option_bind MemSlice.next]. destruct (alloc_hit a chains lru owned k p c size H Hc ltac:(lia)) as (a1 & a2 & lru' & -> & E2 & Hpn & Hinv). cbn [mbind option_bind]. rewrite E2. cbn [mbind option_bind]. exists (Some p), a2. split; [done|]. split; [done|]. split; [done|]. by exists (<[k := c]> chains), lru'.
  - destruct (alloc_new_ok a chains lru owned answer size (-1) H Ha Hs) as (r & a' & -> & Hres); [by left|]. exists r, a'. split; [done|]. destruct r as [p|]; [split; [done|]; destruct Hres as [? ?]; split; [done|by exists chains, lru]|]. destruct Hres as [-> ->]. split; [done|by right].
Qed.

(** The cache is full: some size is in the list. *)
Lemma full_listed a chains lru owned : alloc_inv a chains lru owned -> concat chains <> [] -> exists x k p c, lru = x ++ [k] /\ chains !! k = Some (p :: c).
Proof.
  intros H Hne. assert (Hin : exists k, k ∈ lru).
  { destruct (concat chains) as [|p l] eqn:E; [done|]. assert (Hp : In p (concat chains)) by (rewrite E; by left). apply in_concat in Hp as (c & Hc & Hp). apply list_elem_of_In in Hc. apply list_elem_of_lookup_1 in Hc as [k Hk]. exists k. apply (inv_sizes _ _ _ _ H). exists c. split; [done|]. by intros ->. }
  destruct lru as [|k x _] using rev_ind; [by destruct Hin as [k Hk%not_elem_of_nil]|]. destruct (proj1 (inv_sizes _ _ _ _ H k) ltac:(apply elem_of_app; right; by left)) as (c & Hc & Hcn). destruct c as [|p c]; [done|]. by exists x, k, p, c.
Qed.

Lemma slice_evict_ok a chains lru owned : alloc_inv a chains lru owned -> MAX_CACHED_SLICE_COUNT <= cached_count a -> exists a' chains' lru', evict a = Some a' /\ alloc_inv a' chains' lru' owned /\ (length (concat chains') < 1000)%nat /\ forall q, is_Some (owned !! q) -> heap a' !! q = heap a !! q.
Proof.
  unfold MAX_CACHED_SLICE_COUNT. intros H Hfull. pose proof (inv_count _ _ _ _ H) as Hcnt. pose proof (inv_max _ _ _ _ H) as Hmax. destruct (full_listed a chains lru owned H) as (x & k & p & c & -> & Hk); [intros E; rewrite E in Hcnt; cbn in Hcnt; lia|].
  pose proof (inv_lru _ _ _ _ H) as Hlru. pose proof Hlru as (_ & _ & Ht & Hnd). rewrite last_snoc in Ht. unfold evict. rewrite Ht. cbn [mbind option_bind]. rewrite (inv_owner _ _ _ _ _ _ H Hk). cbn [mbind option_bind head]. destruct (inv_linked _ _ _ _ H k _ Hk) as [Hp _]. rewrite Hp. cbn [mbind option_bind MemSlice.next].
  set (a1 := with_count (u32 (cached_count a - 1)) (set_owner k (head c) a)). assert (Hkx : k ∉ x) by (apply NoDup_app in Hnd as (_ & Hxk & _); intros Hin; apply (Hxk k Hin); by left).
  assert (exists a2 lru', match head c with None => _hev_memory_allocator_lru_remove a1 k | Some _ => Some a1 end = Some a2 /\ lru_ok a2 lru' /\ same_cache a1 a2 /\ forall j, j ∈ lru' <-> (j <> k /\ j ∈ x ++ [k]) \/ (j = k /\ c <> [])) as (a2 & lru' & -> & L2 & (S1 & S2 & S3 & S4) & Hsz).
  { destruct c as [|q c]; cbn [head].
    - destruct (lru_remove_ok a1 x k []) as (a2 & -> & L2 & S2); [by apply lru_ok_owner|]. rewrite app_nil_r in L2. exists a2, x. split_and!; try done. intros j. rewrite elem_of_app, list_elem_of_singleton. split; [intros Hj; left; split; [by intros ->|by left]|]. intros [[Hne [Hj| ->]]|[_ ?]]; done.
    - exists a1, (x ++ [k]). split_and!; try done. intros j. rewrite elem_of_app, list_elem_of_singleton. destruct (decide (j = k)) as [->|]; [split; [by right|intros _; by right]|tauto]. }
  cbn [mbind option_bind]. assert (Hc1 : cached_count a2 = cached_count a - 1) by (rewrite S1; cbn; apply u32_count; lia). destruct (inv_pop a a2 chains (x ++ [k]) lru' owned k p c 0 H Hk ltac:(lia) S2 Hc1 S3 S4 L2 Hsz) as [Hpn Hinv].
  change (heap a1) with (heap a) in S3. unfold free. rewrite S3, Hp. cbn [mbind option_bind]. exists (with_heap (delete p (heap a)) a2), (<[k := c]> chains), lru'. split; [done|]. split; [|split].
  - pose proof (inv_delete a2 _ _ _ p 0 Hinv (lookup_insert_eq _ _ _)) as Hd. rewrite S3 in Hd. by rewrite delete_insert_id in Hd.
  - rewrite (pop_concat _ _ _ _ Hk) in Hmax. cbn [length] in Hmax. lia.
  - intros q [m Hq]. cbn. apply lookup_delete_ne. intros <-. congruence.
Qed.

(** A block of a caller is cached, or given back. *)
Lemma slice_free_ok a chains lru owned p n : alloc_inv a chains lru owned -> owned !! p = Some n -> exists a' chains' lru', _hev_memory_allocator_free a p = Some a' /\ alloc_inv a' chains' lru' (delete p owned).
Proof.
  intros H Hp. pose proof (inv_owned _ _ _ _ H p n Hp) as (Hnot & s & Hs & Hb). unfold _hev_memory_allocator_free. rewrite Hs. cbn [mbind option_bind]. destruct (Z.ltb_spec (index s) 0) as [Hneg|Hpos].
  { unfold free. rewrite Hs. cbn [mbind option_bind]. exists (with_heap (delete p (heap a)) a), chains, lru. split; [done|]. by apply (inv_delete _ _ _ _ _ n). }
  assert (Hk : 0 <= index s < 256) by (destruct Hb as [_ [?|[? _]]]; lia).
  assert (exists a1 chains1 lru1, (if MAX_CACHED_SLICE_COUNT <=? cached_count a then evict a else Some a) = Some a1 /\ alloc_inv a1 chains1 lru1 owned /\ (length (concat chains1) < 1000)%nat /\ heap a1 !! p = Some s) as (a1 & chains1 & lru1 & -> & H1 & Hmax & Hs1).
  { destruct (Z.leb_spec MAX_CACHED_SLICE_COUNT (cached_count a)) as [Hf|Hf].
    - destruct (slice_evict_ok a chains lru owned H Hf) as (a1 & chains1 & lru1 & E & H1 & Hm & Hh). exists a1, chains1, lru1. split_and!; try done. rewrite Hh by (by eexists). done.
    - exists a, chains, lru. split_and!; try done. unfold MAX_CACHED_SLICE_COUNT in Hf. rewrite (inv_count _ _ _ _ H) in Hf. lia. }
  cbn [mbind option_bind]. rewrite Hs1. cbn [mbind option_bind]. set (k := Z.to_nat (index s)). destruct (lookup_lt_is_Some_2 chains1 k) as [c Hc]; [rewrite (inv_chains _ _ _ _ H1); lia|]. rewrite (inv_owner _ _ _ _ _ _ H1 Hc). cbn [mbind option_bind]. unfold set_next. rewrite Hs1. cbn [mbind option_bind].
  set (a2 := with_count _ _). assert (Hcnt : cached_count a2 = cached_count a1 + 1) by (cbn; rewrite (inv_count _ _ _ _ H1); apply u32_count; lia). pose proof (inv_lru _ _ _ _ H1) as Hlru.
  assert (Hpush : forall a3 lru3, lru_ok a3 lru3 -> same_cache a2 a3 -> (forall j, j ∈ lru3 <-> j = k \/ j ∈ lru1) -> alloc_inv a3 (<[k := p :: c]> chains1) lru3 (delete p owned)).
  { intros a3 lru3 L3 (S1 & S2 & S3 & S4) Hsz. apply (inv_push a1 a3 chains1 lru1 lru3 owned k p c n s); try done; [lia|congruence]. }
  assert (Hlen : (k < length (lru_nodes a2))%nat) by (change (lru_nodes a2) with (lru_nodes a1); rewrite (inv_nodes _ _ _ _ H1); lia). destruct c as [|q c]; cbn [head].
  - assert (Hkn : k ∉ lru1) by (intros Hin; apply (inv_sizes _ _ _ _ H1) in Hin as (d & Hd & Hdn); congruence). destruct (lru_insert_ok a2 lru1 k Hlru Hkn Hlen) as (a3 & E3 & L3 & S3). exists a3, (<[k := [p]]> chains1), (k :: lru1). split; [done|]. apply Hpush; [done|done|]. intros j. apply elem_of_cons.
  - exists a2, (<[k := p :: q :: c]> chains1), lru1. split; [done|]. apply Hpush; [done|by split_and!|]. intros j. split; [by right|]. intros [->|]; [|done]. apply (inv_sizes _ _ _ _ H1). by exists (q :: c).
Qed.

(** What [realloc] of the C library answers: the same block, or one that is not in use. *)
Definition move_ok (a : allocator) (p : positive) (answer : option positive) : Prop := match answer with Some q => q = p \/ heap a !! q = None | None => True end.

Lemma slice_realloc_ok a chains lru owned p n size answer : alloc_inv a chains lru owned -> owned !! p = Some n -> sane size -> move_ok a p answer ->
  exists r a' chains' lru', _hev_memory_allocator_realloc a p size answer = Some (r, a') /\
    match r with
    | Some q => size <> 0 /\ delete p owned !! q = None /\ alloc_inv a' chains' lru' (<[q := size]> (delete p owned))
    | None => if decide (size = 0) then alloc_inv a' chains' lru' (delete p owned) else answer = None /\ a' = a /\ alloc_inv a' chains' lru' owned
    end.
Proof.
  intros H Hp Hs Hm. unfold _hev_memory_allocator_realloc. destruct (Z.eqb_spec size 0) as [->|Hne].
  { destruct (slice_free_ok a chains lru owned p n H Hp) as (a' & chains' & lru' & -> & H'). exists None, a', chains', lru'. split; [done|]. by rewrite decide_True. }
  destruct (sane_units size Hs) as (Hu & Hle & Hz & _ & Ed & Er). destruct (s32_units (units size) Hu) as (_ & Ei & Eu). pose proof (inv_owned _ _ _ _ H p n Hp) as (Hnot & s & Hsl & Hb). rewrite Ed. unfold realloc. rewrite Hsl. cbn [mbind option_bind].
  destruct answer as [q|]; cbn [mbind option_bind]; [|exists None, a, chains, lru; split; [done|]; by rewrite decide_False]. unfold set_index. cbn [with_heap heap]. rewrite lookup_insert_eq. cbn [mbind option_bind MemSlice.next room]. rewrite insert_insert_eq, Er. exists (Some q). eexists. exists chains, lru. split; [done|]. pose proof (inv_delete _ _ _ _ p n H Hp) as Hd.
  assert (Hq : delete p (heap a) !! q = None) by (destruct Hm as [->|Hm]; [apply lookup_delete_eq|rewrite lookup_delete_None; by right]). split; [done|]. split; [by apply (inv_free_not_cached _ _ _ _ _ Hd Hq)|]. rewrite with_heap_twice.
  set (s' := mkSlice _ _ _). change (with_heap (<[q := s']> (delete p (heap a))) a) with (with_heap (<[q := s']> (heap (with_heap (delete p (heap a)) a))) (with_heap (delete p (heap a)) a)). apply inv_insert; [done|done|]. split; [done|]. cbn [s' index room]. change MAX_CACHED_SLICE_INDEX with 256. destruct ((1 <=? s32 (units size)) && (s32 (units size) <=? 256)) eqn:Eb; [|by left].
  apply andb_true_iff in Eb as [Eb1 Eb2]. apply Z.leb_le in Eb1, Eb2. assert (Hr : 1 <= units size <= 256) by (apply Ei; lia). rewrite (Eu Hr). right. lia.
Qed.

Lemma new_ok nodes : length nodes = 256%nat -> alloc_inv (hev_memory_allocator_slice_new nodes) (replicate 256 []) [] ∅.
Proof.
  intros Hl. assert (Hc : concat (replicate 256 (@nil positive)) = []) by done. split; try rewrite Hc; try done.
  - intros k c [-> _]%lookup_replicate. done.
  - constructor.
  - intros p [s Hs]. cbn [heap hev_memory_allocator_slice_new] in Hs. by apply lookup_empty_Some in Hs.
  - cbn. lia.
  - split_and!; [done|done|done|constructor].
  - intros k. split; [by intros ?%not_elem_of_nil|]. intros (c & [-> _]%lookup_replicate & ?). done.
Qed.

(** ** Destruction *)

Lemma linked_size h k c : linked h k c -> NoDup c -> (length c <= size h)%nat.
Proof.
  intros Hl Hnd. rewrite <- (size_dom h), <- (size_list_to_set (C := gset positive) c Hnd). apply subseteq_size. intros p Hp%elem_of_list_to_set. apply elem_of_dom. destruct (linked_lookup h k c p Hl Hp) as [n Hn]. by eexists.
Qed.

Lemma free_chain_ok c : forall fuel a k, linked (heap a) k c -> NoDup c -> (length c <= fuel)%nat -> exists h, free_chain fuel (head c) a = Some (with_heap h a) /\ forall q, h !! q = if decide (q ∈ c) then None else heap a !! q.
Proof.
  induction c as [|p c IH]; intros fuel a k Hl Hnd Hf.
  - exists (heap a). split; [by destruct a, fuel|]. intros q. by rewrite decide_False by apply not_elem_of_nil.
  - destruct fuel as [|fuel]; [cbn in Hf; lia|]. destruct Hl as [Hp Hl]. apply NoDup_cons in Hnd as [Hpc Hnd]. cbn [head free_chain]. rewrite Hp. cbn [mbind option_bind MemSlice.next]. unfold free. rewrite Hp. cbn [mbind option_bind].
    destruct (IH fuel (with_heap (delete p (heap a)) a) k) as (h & E & Hh); [eapply linked_frame; [exact Hl|]; intros q Hq; cbn; apply lookup_delete_ne; by intros <-|done|cbn in Hf; lia|]. exists h. split; [exact E|]. intros q. rewrite Hh. cbn [with_heap heap]. destruct (decide (q = p)) as [->|Hne]; [rewrite (decide_True (P := p ∈ p :: c)) by (by left); destruct (decide (p ∈ c)); [done|apply lookup_delete_eq]|].
    rewrite lookup_delete_ne by done. destruct (decide (q ∈ c)); [rewrite decide_True by (by right); done|rewrite decide_False by (by apply not_elem_of_cons); done].
Qed.

Lemma chains_disjoint (chains : list (list positive)) j k c d q : NoDup (concat chains) -> chains !! j = Some c -> chains !! k = Some d -> q ∈ c -> q ∈ d -> j = k.
Proof.
  intros Hnd Hj Hk Hc Hd. destruct (decide (j = k)) as [|Hne]; [done|]. exfalso. destruct (concat_split _ _ _ Hj) as (rest & E & E'). specialize (E' []). cbn [app] in E'. assert (Hr : q ∈ rest) by (rewrite <- E'; apply (elem_concat _ k d); [by rewrite list_lookup_insert_ne|done]). rewrite E in Hnd. apply NoDup_app in Hnd as (_ & Hnd & _). by apply (Hnd q Hc).
Qed.

Lemma destroy_loop_ok chains l : forall fuel a prv, dll (lru_nodes a) prv l None -> NoDup l -> (length l <= fuel)%nat -> cached_mslices a = head <$> chains -> NoDup (concat chains) ->
  (forall k, k ∈ l -> exists c, chains !! k = Some c /\ linked (heap a) k c) ->
  exists h, destroy_loop fuel (head_or l None) a = Some (with_heap h a) /\ forall q, ((exists k c, k ∈ l /\ chains !! k = Some c /\ q ∈ c) /\ h !! q = None) \/ ((forall k c, k ∈ l -> chains !! k = Some c -> q ∉ c) /\ h !! q = heap a !! q).
Proof.
  induction l as [|k l IH]; intros fuel a prv Hd Hnd Hf Ho Hnc Hl.
  - exists (heap a). split; [by destruct a, fuel|]. intros q. right. split; [by intros ? ? ?%not_elem_of_nil|done].
  - destruct fuel as [|fuel]; [cbn in Hf; lia|]. destruct Hd as [Hk Hd]. apply NoDup_cons in Hnd as [Hkl Hnd]. destruct (Hl k ltac:(by left)) as (c & Hc & Hlc). cbn [head_or destroy_loop]. rewrite Ho, list_lookup_fmap, Hc. cbn [fmap option_fmap option_map mbind option_bind]. assert (Hndc : NoDup c) by (destruct (concat_split _ _ _ Hc) as (rest & E & _); rewrite E in Hnc; by apply NoDup_app in Hnc as [? _]).
    destruct (free_chain_ok c (size (heap a)) a k Hlc Hndc (linked_size _ _ _ Hlc Hndc)) as (h1 & -> & Hh1). cbn [mbind option_bind with_heap lru_nodes]. rewrite Hk. cbn [mbind option_bind lnext].
    assert (Hother : forall j d q, j ∈ l -> chains !! j = Some d -> q ∈ d -> q ∉ c) by (intros j d q Hj Hjd Hq Hqc; by assert (j = k) as -> by apply (chains_disjoint chains j k d c q Hnc Hjd Hc Hq Hqc)).
    destruct (IH fuel (with_heap h1 a) (Some k)) as (h & E & Hh); [done|done|cbn in Hf; lia|done|done| |].
    { intros j Hj. destruct (Hl j ltac:(by right)) as (d & Hjd & Hld). exists d. split; [done|]. eapply linked_frame; [exact Hld|]. intros q Hq. cbn. rewrite Hh1. by rewrite decide_False by (by apply (Hother j d)). }
    exists h. split; [exact E|]. intros q. destruct (Hh q) as [[(j & d & Hj & Hjd & Hq) Hn]|[Hno Hn]]; [left; split; [exists j, d; split_and!; [by right|done|done]|done]|]. cbn [with_heap heap] in Hn. rewrite Hh1 in Hn. destruct (decide (q ∈ c)) as [Hqc|Hqc].
    + left. split; [exists k, c; split_and!; [by left|done|done]|done].
    + right. split; [|done]. intros j d [->|Hj]%elem_of_cons Hjd; [congruence|by apply (Hno j)].
Qed.

Lemma nodup_bounded (l : list nat) n : NoDup l -> (forall i, i ∈ l -> (i < n)%nat) -> (length l <= n)%nat.
Proof. intros Hnd Hb. rewrite <- (length_seq n 0). apply NoDup_incl_length; [by apply NoDup_ListNoDup|]. intros i Hi%list_elem_of_In. apply in_seq. specialize (Hb i Hi). lia. Qed.

(** Every cached block is given back, and no other. *)
Lemma destroy_ok a chains lru owned : alloc_inv a chains lru owned -> exists a', _hev_memory_allocator_destroy a = Some a' /\ forall q, heap a' !! q = if decide (is_Some (owned !! q)) then heap a !! q else None.
Proof.
  intros H. pose proof (inv_lru _ _ _ _ H) as (Hd & Hh & _ & Hnd). unfold _hev_memory_allocator_destroy. rewrite Hh.
  destruct (destroy_loop_ok chains lru (length (lru_nodes a)) a None Hd Hnd) as (h & E & Hq); [apply nodup_bounded; [done|by apply (dll_bound _ _ _ _ Hd)]|apply (inv_owners _ _ _ _ H)|apply (inv_nodup _ _ _ _ H)|intros k (c & Hc & _)%(inv_sizes _ _ _ _ H); exists c; split; [done|by apply (inv_linked _ _ _ _ H)]|].
  exists (with_heap h a). split; [done|]. intros q. cbn [with_heap heap]. destruct (Hq q) as [[(k & c & Hk & Hc & Hin) ->]|[Hno ->]].
  - rewrite decide_False; [done|]. intros [n Hn]. apply (inv_owned _ _ _ _ H) in Hn as [Hn _]. apply Hn. by apply (elem_concat _ k c).
  - destruct (decide (is_Some (owned !! q))) as [|Hn]; [done|]. destruct (heap a !! q) as [s|] eqn:Es; [|done]. destruct (inv_dom _ _ _ _ H q ltac:(by eexists)) as [Hin|]; [|done]. exfalso. apply list_elem_of_In, in_concat in Hin as (c & Hc & Hin). apply list_elem_of_In in Hin, Hc. apply list_elem_of_lookup_1 in Hc as [k Hk].
    apply (Hno k c); [|done|done]. apply (inv_sizes _ _ _ _ H). exists c. split; [done|]. intros ->. by apply not_elem_of_nil in Hin.
Qed.

(** ** Runs *)

Inductive call := CAlloc (size : Z) (answer : option (positive * HevMemorySlice)) | CRealloc (p : positive) (size : Z) (answer : option positive) | CFree (p : positive).

(** A call, and the blocks of the callers after it. *)
Definition do_call (a : allocator) (owned : gmap positive Z) (c : call) : option (allocator * gmap positive Z) :=
  match c with
  | CAlloc size answer => '(r, a) ← _hev_memory_allocator_alloc a size answer; Some (a, match r with Some p => <[p := size]> owned | None => owned end)
  | CRealloc p size answer =>
      '(r, a) ← _hev_memory_allocator_realloc a p size answer;
      Some (a, match r with Some q => <[q := size]> (delete p owned) | None => if decide (size = 0) then delete p owned else owned end)
  | CFree p => a ← _hev_memory_allocator_free a p; Some (a, delete p owned)
  end.

(** Callers give back only what they own; the C library answers with unused memory. *)
Definition allowed (a : allocator) (owned : gmap positive Z) (c : call) : Prop :=
  match c with
  | CAlloc size answer => sane size /\ answer_ok a answer
  | CRealloc p size answer => is_Some (owned !! p) /\ sane size /\ move_ok a p answer
  | CFree p => is_Some (owned !! p)
  end.

Inductive reachable : allocator -> gmap positive Z -> Prop :=
  | reach_new nodes : length nodes = 256%nat -> reachable (hev_memory_allocator_slice_new nodes) ∅
  | reach_call a owned c a' owned' : reachable a owned -> allowed a owned c -> do_call a owned c = Some (a', owned') -> reachable a' owned'.

Lemma call_ok a chains lru owned c : alloc_inv a chains lru owned -> allowed a owned c -> exists a' owned' chains' lru', do_call a owned c = Some (a', owned') /\ alloc_inv a' chains' lru' owned'.
Proof.
  intros H. destruct c as [size answer|p size answer|p]; cbn [allowed do_call].
  - intros [Hs Ha]. destruct (slice_alloc_ok a chains lru owned size answer H Hs Ha) as (r & a' & -> & Hr). cbn [mbind option_bind]. destruct r as [p|]; [destruct Hr as (_ & _ & chains' & lru' & H'); by exists a', (<[p := size]> owned), chains', lru'|]. destruct Hr as [-> _]. by exists a, owned, chains, lru.
  - intros ([n Hp] & Hs & Hm). destruct (slice_realloc_ok a chains lru owned p n size answer H Hp Hs Hm) as (r & a' & chains' & lru' & -> & Hr). cbn [mbind option_bind]. destruct r as [q|]; [destruct Hr as (_ & _ & H'); by eexists _, _, chains', lru'|]. destruct (decide (size = 0)); [by eexists _, _, chains', lru'|]. destruct Hr as (_ & _ & H'). by eexists _, _, chains', lru'.
  - intros [n Hp]. destruct (slice_free_ok a chains lru owned p n H Hp) as (a' & chains' & lru' & -> & H'). by eexists _, _, chains', lru'.
Qed.

Lemma allocator_reachable_inv a owned : reachable a owned -> exists chains lru, alloc_inv a chains lru owned.
Proof.
  induction 1 as [nodes Hn|a owned c a' owned' _ (chains & lru & H) Hc E]; [eexists _, _; by apply new_ok|]. destruct (call_ok a chains lru owned c H Hc) as (a2 & owned2 & chains' & lru' & E' & H'). rewrite E in E'. injection E' as <- <-. by exists chains', lru'.
Qed.

(** Every block of the heap is cached or owned. *)
Lemma inv_size a chains lru owned : alloc_inv a chains lru owned -> Z.of_nat (size (heap a)) = cached_count a + Z.of_nat (size owned).
Proof.
  intros H. rewrite (inv_count _ _ _ _ H), <- Nat2Z.inj_add. f_equal. rewrite <- !size_dom, <- (size_list_to_set (C := gset positive) (concat chains)) by apply (inv_nodup _ _ _ _ H). rewrite <- size_union; [f_equal|].
  - apply set_eq. intros p. rewrite elem_of_union, elem_of_list_to_set, !elem_of_dom. split; [apply (inv_dom _ _ _ _ H)|]. intros [Hp|[n Hn]]; [|apply (inv_owned _ _ _ _ H) in Hn as (_ & s & Hs & _); by eexists].
    destruct (heap a !! p) eqn:E; [by eexists|]. by apply (inv_free_not_cached _ _ _ _ _ H) in E as [? _].
  - intros p Hp%elem_of_list_to_set [n Hn]%elem_of_dom. by apply (inv_owned _ _ _ _ H) in Hn as [? _].
Qed.

(** C17. Whatever the callers do with the blocks that they own, and whatever the C library answers, as long as no request is for more than 64 GiB less 16 bytes ([sane]), the allocator accesses
    no memory that is not allocated and no index outside of its arrays: every allowed call returns.  A block that is handed out belongs to nobody else and has room for what was asked for, and none
    is handed out only when nothing was asked for or the C library has no memory; the blocks of the callers stay allocated with their room.  Nothing leaks: every block is cached or owned, at most
    1000 are cached, and the destructor gives back all cached blocks and no other.  Beyond that size the number of the size class wraps, and a block may be too small
    ([MemSliceExample.huge_request_gets_small_block]). *)
Theorem slice_allocator_safe (a : HevMemoryAllocatorSlice) (owned : gmap positive Z) : reachable a owned ->
  (forall c, allowed a owned c -> is_Some (do_call a owned c)) /\
  (forall size answer r a', sane size -> answer_ok a answer -> _hev_memory_allocator_alloc a size answer = Some (r, a') ->
     match r with Some p => owned !! p = None /\ exists s, heap a' !! p = Some s /\ 0 < size <= room s | None => size = 0 \/ answer = None end) /\
  (forall p n, owned !! p = Some n -> exists s, heap a !! p = Some s /\ n <= room s) /\
  Z.of_nat (size (heap a)) = cached_count a + Z.of_nat (size owned) /\ 0 <= cached_count a <= MAX_CACHED_SLICE_COUNT /\
  exists a', _hev_memory_allocator_destroy a = Some a' /\ forall p, heap a' !! p = if decide (is_Some (owned !! p)) then heap a !! p else None.
Proof.
  intros (chains & lru & H)%allocator_reachable_inv. split; [|split; [|split; [|split; [|split]]]].
  - intros c Hc. destruct (call_ok a chains lru owned c H Hc) as (a' & owned' & _ & _ & -> & _). by eexists.
  - intros size answer r a' Hs Ha E. destruct (slice_alloc_ok a chains lru owned size answer H Hs Ha) as (r' & a2 & E' & Hr). rewrite E in E'. injection E' as <- <-. destruct r as [p|]; [|by destruct Hr]. destruct Hr as (Hne & Hp & chains' & lru' & H'). split; [done|]. destruct (inv_owned _ _ _ _ H' p size (lookup_insert_eq _ _ _)) as (_ & s & Hsl & Hb & _). exists s. split; [done|]. unfold sane in Hs. lia.
  - intros p n (_ & s & Hs & Hb & _)%(inv_owned _ _ _ _ H). by exists s.
  - by apply (inv_size _ chains lru).
  - rewrite (inv_count _ _ _ _ H). pose proof (inv_max _ _ _ _ H). unfold MAX_CACHED_SLICE_COUNT. lia.
  - by apply (destroy_ok a chains lru).
Qed.

Module MemSliceExample.

Definition nodes0 : list HevMemoryLRUNode := replicate 256 (mkLRU (Some 7%nat) (Some 9%nat)).
Definition junk : HevMemorySlice := mkSlice (Some 5%positive) 77 3.
Definition world (a : allocator) (owned : gmap positive Z) (c : call) : allocator * gmap positive Z := default (a, owned) (do_call a owned c).

(** Two blocks of 100 bytes; the first one is freed. *)
Definition w1 := world (hev_memory_allocator_slice_new nodes0) ∅ (CAlloc 100 (Some (1%positive, junk))).
Definition w2 := world w1.1 w1.2 (CAlloc 100 (Some (2%positive, junk))).
Definition w3 := world w2.1 w2.2 (CFree 1).

Lemma reachable_w3 : reachable w3.1 w3.2.
Proof.
  apply (reach_call w2.1 w2.2 (CFree 1)); [|by eexists; vm_compute|by vm_compute]. apply (reach_call w1.1 w1.2 (CAlloc 100 (Some (2%positive, junk)))); [|split; [unfold sane; lia|by vm_compute]|by vm_compute].
  apply (reach_call (hev_memory_allocator_slice_new nodes0) ∅ (CAlloc 100 (Some (1%positive, junk)))); [by apply reach_new|split; [unfold sane; lia|by vm_compute]|by vm_compute].
Qed.

(** A request of 110 bytes gets the block that was freed. *)
Lemma slice_allocator_safe_witness : fst <$> _hev_memory_allocator_alloc w3.1 110 None = Some (Some 1%positive) /\ cached_count w3.1 = 1 /\ Z.of_nat (size (heap w3.1)) = 1 + Z.of_nat (size w3.2).
Proof. split; [by vm_compute|]. split; [by vm_compute|]. destruct (slice_allocator_safe w3.1 w3.2 reachable_w3) as (_ & _ & _ & -> & _). by vm_compute. Defined.

(** With a block of 16 bytes in the cache, a request of more than 64 GiB gets it: the number of its size wraps to 1. *)
Definition w4 := world (hev_memory_allocator_slice_new nodes0) ∅ (CAlloc 16 (Some (1%positive, junk))).
Definition w5 := world w4.1 w4.2 (CFree 1).

Example huge_request_gets_small_block : fst <$> _hev_memory_allocator_alloc w5.1 (2 ^ 36 + 1) None = Some (Some 1%positive) /\ room <$> heap w5.1 !! 1%positive = Some 16.
Proof. split; by vm_compute. Qed.

End MemSliceExample.
