(* ===== verification/CachedTree.v ===== *)
(** * Red-black trees with a cached first node

    Models hev-rbtree-cached.c of hev-task-system over [RBTree] (the hev-rbtree.c of
    hev-task-system is the file of hev/src/core, verbatim), and the insertion that its users,
    the scheduler and the timers, write out over it.  To them it is a sequence in which a node is inserted
    behind those that it is not below. *)

From S2P Require Import Prelude RBTree RBTreeSpec RBErase SearchTree.

Record HevRBTreeCached := mkCached { base : rbstate; cached : Z }.

Definition empty_tree : HevRBTreeCached := mkCached (mkRB ∅ 0) 0.

Definition hev_rbtree_cached_first (self : HevRBTreeCached) : Z := cached self.

Definition hev_rbtree_cached_insert_color (self : HevRBTreeCached) (n : Z) (leftmost : bool) : option HevRBTreeCached :=
  let first := if leftmost then n else cached self in
  '(_, st) ← hev_rbtree_insert_color (enough (base self)) n (base self);
  Some (mkCached st first).

Definition hev_rbtree_cached_erase (self : HevRBTreeCached) (n : Z) : option HevRBTreeCached :=
  first ← (if n =? cached self then fst <$> hev_rbtree_node_next (enough (base self)) n (base self) else Some (cached self));
  '(_, st) ← hev_rbtree_erase (enough (base self)) n (base self);
  Some (mkCached st first).

Definition hev_rbtree_cached_replace (self : HevRBTreeCached) (victim new : Z) : option HevRBTreeCached :=
  '(_, st) ← hev_rbtree_replace victim new (base self);
  Some (mkCached st (if cached self =? victim then new else cached self)).

(** The loop of the users: left when the new node is [below] the node, right otherwise.  [None]: there
    is no object at the node. *)
Fixpoint place (below : Z -> option bool) (fuel : nat) (n parent : Z) (new : link) (leftmost : bool) : O (Z * link * bool) :=
  match fuel with
  | 0%nat => fun _ => None
  | S fuel =>
      if n =? 0 then mret (parent, new, leftmost) else
      match below n with
      | None => fun _ => None
      | Some true => l ← get_left n; place below fuel l n (LinkLeft n) leftmost
      | Some false => r ← get_right n; place below fuel r n (LinkRight n) false
      end
  end.

Definition insert_below (below : Z -> option bool) (n : Z) (self : HevRBTreeCached) : option (HevRBTreeCached * bool) :=
  '((parent, new, leftmost), st) ← place below (enough (base self)) (root (base self)) 0 LinkRoot true (base self);
  '(_, st) ← hev_rbtree_node_link n parent new st;
  self ← hev_rbtree_cached_insert_color (mkCached st (cached self)) n leftmost;
  Some (self, leftmost).

(** ** As a sequence *)

(** Nodes are aligned. *)
Definition aligned (n : Z) : Prop := n <> 0 /\ n mod 2 = 0.

Definition sequence (l : list Z) (self : HevRBTreeCached) : Prop :=
  holds l (base self) /\ NoDup l /\ Forall aligned l /\ cached self = default 0 (head l).

Lemma sequence_empty : sequence [] empty_tree.
Proof. split; [|split; [constructor|done]]. exists E, 0%nat. split; [done|]. split; [constructor|done]. Qed.

(** First those that the new node is not below, then the others. *)
Definition splits (below : Z -> option bool) (l1 l2 : list Z) : Prop := Forall (fun y => below y = Some false) l1 /\ Forall (fun y => below y = Some true) l2.

(** Once the new node is below one element, it is below all that follow. *)
Definition monotone (below : Z -> option bool) (l : list Z) : Prop := exists l1 l2, l = l1 ++ l2 /\ splits below l1 l2.

Lemma monotone_at below (p q : list Z) a : monotone below (p ++ a :: q) -> match below a with Some true => Forall (fun y => below y = Some true) q | Some false => Forall (fun y => below y = Some false) p | None => False end.
Proof.
  intros (l1 & l2 & E & H1 & H2). rewrite Forall_forall in H1, H2. assert (Ha : a ∈ l1 ++ l2) by (rewrite <- E; set_solver). destruct (below a) as [[]|] eqn:Ea; [apply Forall_forall; intros y Hy..|apply elem_of_app in Ha as [Ha%H1|Ha%H2]; congruence].
  - apply H2. apply app_eq_inv in E as [(k & -> & E)|(k & -> & E)]; [set_solver|]. destruct k as [|z k]; cbn in E; [by subst; set_solver|]. injection E as <- ->. specialize (H1 a ltac:(set_solver)). congruence.
  - apply H1. apply app_eq_inv in E as [(k & -> & E)|(k & -> & E)]; [|set_solver]. specialize (H2 a ltac:(subst; set_solver)). congruence.
Qed.

Lemma place_ok below fuel : forall k t st lm,
  wf st (plug k t) -> monotone below (inorder (plug k t)) -> splits below (pre k) (post k) -> (length (inorder t) < fuel)%nat -> lm = bool_decide (pre k = []) ->
  ospec (place below fuel (root_of t) (top k) (link_of k) lm) st (fun res st' => st' = st /\
    exists k', plug k t = plug k' E /\ res = (top k', link_of k', bool_decide (pre k' = [])) /\ splits below (pre k') (post k')).
Proof.
  induction fuel as [|fuel IH]; intros k t st lm Hw Hm Hs Hf Hlm; [lia|]. destruct t as [|c l a r]; cbn [place root_of].
  { cbn [Z.eqb]. apply ospec_ret. split; [done|]. exists k. by subst lm. }
  cbn [inorder] in Hf. rewrite length_app in Hf. cbn [length] in Hf. pose proof Hw as [(Ha0 & Ha & Hl & Hr) _]%wf_plug. oeq.
  assert (Hat := monotone_at below (pre k ++ inorder l) (inorder r ++ post k) a). rewrite inorder_plug in Hm. cbn [inorder] in Hm. rewrite <- app_assoc, app_assoc in Hm. cbn [app] in Hm. specialize (Hat Hm).
  assert (Hio : inorder (plug k (T c l a r)) = (pre k ++ inorder l) ++ a :: inorder r ++ post k) by (rewrite inorder_plug; cbn [inorder]; by rewrite <- !app_assoc).
  destruct (below a) as [[]|] eqn:Eb; [| |done].
  - ox. apply (IH (FL c a r :: k) l st lm); [done|by cbn [plug fill]; rewrite Hio| |lia|done]. destruct Hs as [H1 H2]. split; [done|]. cbn [post]. by constructor.
  - ox. apply (IH (FR c l a :: k) r st false); [done|by cbn [plug fill]; rewrite Hio| |lia|].
    + destruct Hs as [H1 H2]. split; [|done]. cbn [pre]. rewrite app_assoc. apply Forall_app. split; [done|by constructor].
    + symmetry. apply bool_decide_eq_false. cbn [pre]. by destruct (pre k), (inorder l).
Qed.

Lemma insert_below_ok below n self l : sequence l self -> monotone below l -> aligned n -> n ∉ l ->
  exists l1 l2 self', l = l1 ++ l2 /\ splits below l1 l2 /\ insert_below below n self = Some (self', bool_decide (l1 = [])) /\ sequence (l1 ++ n :: l2) self'.
Proof.
  intros (Hh & Hnd & Hal & Hc) Hm Hn Hnl. pose proof (holds_size _ _ Hh Hnd) as Hsz. destruct Hh as (t & m & Hw & Hrb & Hio). subst l. pose proof Hw as [_ Hroot].
  assert (Hp : ospec (place below (enough (base self)) (root (base self)) 0 LinkRoot true) (base self) (fun res st' => st' = base self /\ exists k', t = plug k' E /\ res = (top k', link_of k', bool_decide (pre k' = [])) /\ splits below (pre k') (post k'))).
  { rewrite Hroot. apply (place_ok below _ [] t); [done|done|split; constructor|unfold enough; lia|done]. }
  destruct (ospec_some _ _ _ Hp) as (res & st' & E & -> & k & -> & -> & Hs). exists (pre k), (post k). rewrite inorder_plug in *. cbn [inorder app] in *. unfold insert_below. rewrite E. cbn [mbind option_bind].
  pose proof (length_path k RBTreeSpec.E) as Hlen. rewrite inorder_plug in Hlen. cbn [inorder app] in Hlen.
  pose proof (node_link_ok (base self) k n Hw ltac:(by rewrite inorder_plug) (proj1 Hn) ltac:(by rewrite inorder_plug)) as Hlink.
  destruct (ospec_some _ _ _ Hlink) as ([] & st1 & E1 & Hw1). rewrite E1. cbn [mbind option_bind]. unfold hev_rbtree_cached_insert_color. cbn [base cached].
  assert (Hnd1 : NoDup (inorder (plug k (T false RBTreeSpec.E n RBTreeSpec.E)))) by (rewrite inorder_plug; cbn [inorder app]; rewrite <- Permutation_middle; by constructor).
  assert (Hsz1 : (length (pre k ++ n :: post k) <= size (heap st1))%nat) by (apply nodup_size; [by rewrite inorder_plug in Hnd1|]; intros x Hx; eapply rep_dom; [apply Hw1|by rewrite inorder_plug]).
  rewrite length_app in Hsz1, Hlen. cbn [length] in Hsz1.
  pose proof (insert_ok (enough st1) (base self) k n m Hw ltac:(by rewrite inorder_plug) Hrb (proj1 Hn) ltac:(by rewrite inorder_plug) ltac:(unfold enough; lia)) as Hins.
  apply ospec_bind_inv in Hins. unfold ospec at 1 in Hins. rewrite E1 in Hins. destruct (ospec_some _ _ _ Hins) as ([] & st2 & E2 & Hh2). rewrite E2. cbn [mbind option_bind]. eexists. split; [done|]. split; [done|]. split; [done|].
  split; [done|]. split; [by rewrite inorder_plug in Hnd1|]. split; [|].
  - apply Forall_app in Hal as [? ?]. apply Forall_app. split; [done|by constructor].
  - cbn. destruct (pre k) as [|y l1]; [done|]. by rewrite bool_decide_false.
Qed.

Lemma erase_sequence_ok n self l1 l2 : sequence (l1 ++ n :: l2) self -> exists self', hev_rbtree_cached_erase self n = Some self' /\ sequence (l1 ++ l2) self'.
Proof.
  intros (Hh & Hnd & Hal & Hc). pose proof (holds_size _ _ Hh Hnd) as Hsz. destruct Hh as (t & m & Hw & Hrb & Hio). unfold hev_rbtree_cached_erase.
  assert (Hfirst : (if n =? cached self then fst <$> hev_rbtree_node_next (enough (base self)) n (base self) else Some (cached self)) = Some (default 0 (head (l1 ++ l2)))).
  { rewrite Hc. destruct l1 as [|y l1]; cbn [app head default from_option id].
    - rewrite Z.eqb_refl. destruct (hev_rbtree_walk_correct (base self) t n [] l2 (enough (base self)) Hw) as [E _]; [by rewrite Hio|rewrite Hio; eapply Forall_impl; [exact Hal|by intros ? [? ?]]|done|rewrite Hio; unfold enough; lia|]. by rewrite E.
    - rewrite (proj2 (Z.eqb_neq n y)); [done|]. intros ->. cbn in Hnd. apply NoDup_cons in Hnd. set_solver. }
  rewrite Hfirst. cbn [mbind option_bind]. destruct (tree_split t n) as (k & c & l & r & ->); [rewrite Hio; set_solver|].
  assert (Hsplit : l1 = pre k ++ inorder l /\ l2 = inorder r ++ post k). { rewrite inorder_plug in Hio. cbn [inorder] in Hio. rewrite <- app_assoc, app_assoc in Hio. cbn [app] in Hio. by apply (nodup_middle _ _ _ _ n Hnd). }
  destruct Hsplit as [-> ->]. destruct (ospec_some _ _ _ (erase_ok (enough (base self)) (base self) k c l n r m Hw ltac:(by rewrite Hio) Hrb ltac:(rewrite Hio; unfold enough; lia))) as ([] & st' & E & Hh').
  rewrite E. cbn [mbind option_bind]. eexists. split; [done|]. split; [by rewrite <- app_assoc|]. split; [by apply nodup_drop in Hnd|]. split; [|done].
  apply Forall_app in Hal as [? Hal]. apply Forall_cons in Hal as [_ ?]. by apply Forall_app.
Qed.
