(* ===== verification/TaskSched.v ===== *)
(** * The task scheduler

    Models the scheduler of hev-task-system: kern/core/hev-task-system-schedule.c, the tasks of
    kern/task/hev-task.c and kern/task/hev-task-executer.c, and the timers of
    kern/time/hev-task-timer.c, over [CachedTree].

    A task runs until it yields, sleeps, joins another task or ends; the kernel context then
    picks the next one, after a poll of the I/O reactor when some task waits.  What a task does in between are calls
    of the functions below.  Context switches are the steps of [step]; a task that was
    switched away inside [hev_task_timer_wait] or [hev_task_join] has a [pc] that says how it
    goes on.  [None]: a freed or foreign object is used, or [abort].  Stacks, the switch itself and the list of all
    tasks, which only the debugger reads, are left out. *)

From S2P Require Import Prelude CachedTree.

Inductive HevTaskState := HEV_TASK_STOPPED | HEV_TASK_RUNNING | HEV_TASK_WAITING.
#[export] Instance HevTaskState_eq_dec : EqDecision HevTaskState.
Proof. solve_decision. Defined.

Definition HEV_TASK_PRIORITY_MIN : Z := 0.
Definition HEV_TASK_PRIORITY_MAX : Z := 15.
Definition HEV_TASK_PRIORITY_DEFAULT : Z := 8.

Record HevTask := mkTask { sched_key : Z; joiner : Z; ref_count : Z; priority : Z; next_priority : Z; state : HevTaskState }.

Record timespec := mkTime { tv_sec : Z; tv_nsec : Z }.
Record HevTaskTimerNode := mkTimerNode { expire : timespec; node_task : Z }.

Record HevTaskSystemContext := mkContext {
  tasks : gmap Z HevTask; total_task_count : Z; running_task_count : Z; current_task : Z; running_tasks : HevRBTreeCached;
  sort_tree : HevRBTreeCached; timer_nodes : gmap Z HevTaskTimerNode
}.
#[local] Notation Ctx := HevTaskSystemContext.

Definition with_key (v : Z) (t : HevTask) : HevTask := mkTask v (joiner t) (ref_count t) (priority t) (next_priority t) (state t).
Definition with_joiner (v : Z) (t : HevTask) : HevTask := mkTask (sched_key t) v (ref_count t) (priority t) (next_priority t) (state t).
Definition with_refs (v : Z) (t : HevTask) : HevTask := mkTask (sched_key t) (joiner t) v (priority t) (next_priority t) (state t).
Definition with_priority (v : Z) (t : HevTask) : HevTask := mkTask (sched_key t) (joiner t) (ref_count t) v (next_priority t) (state t).
Definition with_next (v : Z) (t : HevTask) : HevTask := mkTask (sched_key t) (joiner t) (ref_count t) (priority t) v (state t).
Definition with_state (v : HevTaskState) (t : HevTask) : HevTask := mkTask (sched_key t) (joiner t) (ref_count t) (priority t) (next_priority t) v.

Definition set_tasks (v : gmap Z HevTask) (c : Ctx) : Ctx := mkContext v (total_task_count c) (running_task_count c) (current_task c) (running_tasks c) (sort_tree c) (timer_nodes c).
Definition set_total (v : Z) (c : Ctx) : Ctx := mkContext (tasks c) v (running_task_count c) (current_task c) (running_tasks c) (sort_tree c) (timer_nodes c).
Definition set_count (v : Z) (c : Ctx) : Ctx := mkContext (tasks c) (total_task_count c) v (current_task c) (running_tasks c) (sort_tree c) (timer_nodes c).
Definition set_current (v : Z) (c : Ctx) : Ctx := mkContext (tasks c) (total_task_count c) (running_task_count c) v (running_tasks c) (sort_tree c) (timer_nodes c).
Definition set_running (v : HevRBTreeCached) (c : Ctx) : Ctx := mkContext (tasks c) (total_task_count c) (running_task_count c) (current_task c) v (sort_tree c) (timer_nodes c).
Definition set_timers (tr : HevRBTreeCached) (v : gmap Z HevTaskTimerNode) (c : Ctx) : Ctx := mkContext (tasks c) (total_task_count c) (running_task_count c) (current_task c) (running_tasks c) tr v.

(** An update of the task at an address. *)
Definition update (f : HevTask -> HevTask) (t : Z) (c : Ctx) : option Ctx := k ← tasks c !! t; Some (set_tasks (<[t := f k]> (tasks c)) c).

(** ** The tree of running tasks *)

(** [runtime]: one more than the time that passed; always one as the project is configured, without a clock (CLOCK_NONE). *)
Definition hev_task_system_update_sched_key (runtime : Z) (c : Ctx) : option Ctx :=
  update (fun k => with_key (u64 (sched_key k + runtime * priority k)) k) (current_task c) c.

Definition hev_task_system_get_min_sched_key (c : Ctx) : option Z :=
  let n := hev_rbtree_cached_first (running_tasks c) in
  if negb (n =? 0) then k ← tasks c !! n; Some (sched_key k) else Some 0.

Definition key_below (h : gmap Z HevTask) (key : Z) (y : Z) : option bool := k ← h !! y; Some (key <? sched_key k).

Definition _hev_task_system_insert_task (task : Z) (c : Ctx) : option Ctx :=
  k ← tasks c !! task;
  '(tr, _) ← insert_below (key_below (tasks c) (sched_key k)) task (running_tasks c);
  Some (set_running tr c).

Definition hev_task_system_insert_task (task : Z) (c : Ctx) : option Ctx :=
  c ← update (fun k => with_priority (next_priority k) (with_state HEV_TASK_RUNNING k)) task c;
  c ← _hev_task_system_insert_task task c;
  Some (set_count (u32 (running_task_count c + 1)) c).

Definition hev_task_system_reinsert_current_task (c : Ctx) : option Ctx :=
  let task := current_task c in
  c ← update (fun k => with_priority (next_priority k) k) task c;
  tr ← hev_rbtree_cached_erase (running_tasks c) task;
  _hev_task_system_insert_task task (set_running tr c).

(** Frees the task with its last reference. *)
Definition hev_task_unref (task : Z) (c : Ctx) : option Ctx :=
  k ← tasks c !! task;
  if negb (ref_count k - 1 =? 0) then update (fun k => with_refs (ref_count k - 1) k) task c
  else Some (set_tasks (delete task (tasks c)) c).

Definition hev_task_system_remove_current_task (st : HevTaskState) (c : Ctx) : option Ctx :=
  let task := current_task c in
  c ← update (with_state st) task c;
  tr ← hev_rbtree_cached_erase (running_tasks c) task;
  let c := set_count (u32 (running_task_count c - 1)) (set_running tr c) in
  if bool_decide (st = HEV_TASK_STOPPED) then hev_task_unref task (set_total (u32 (total_task_count c - 1)) c)
  else update (fun k => with_key (next_priority k) k) task c.

Definition hev_task_system_wakeup_task_with_context (task : Z) (c : Ctx) : option Ctx :=
  k ← tasks c !! task;
  match state k with
  | HEV_TASK_RUNNING => Some c
  | HEV_TASK_STOPPED => None
  | HEV_TASK_WAITING =>
      min ← hev_task_system_get_min_sched_key c;
      c ← update (fun k => with_key (u64 (sched_key k + min)) k) task c;
      hev_task_system_insert_task task c
  end.

Definition hev_task_system_run_new_task (task : Z) (c : Ctx) : option Ctx :=
  c ← (if negb (current_task c =? 0) then min ← hev_task_system_get_min_sched_key c; update (fun k => with_key (u64 (sched_key k + min)) k) task c
       else Some c);
  c ← hev_task_system_insert_task task c;
  Some (set_total (u32 (total_task_count c + 1)) c).

(** ** Timers *)

Definition hev_task_timer_cmp (a b : timespec) : Z :=
  if tv_sec a <? tv_sec b then -1 else if tv_sec b <? tv_sec a then 1
  else if tv_nsec a <? tv_nsec b then -1 else if tv_nsec b <? tv_nsec a then 1 else 0.

(** [a], [b]: the addresses of the nodes. *)
Definition hev_task_timer_node_cmp (h : gmap Z HevTaskTimerNode) (a b : Z) : option Z :=
  na ← h !! a; nb ← h !! b;
  let res := hev_task_timer_cmp (expire na) (expire nb) in
  Some (if negb (res =? 0) then res else if a <? b then -1 else if b <? a then 1 else 0).

Definition hev_task_timer_get_expire (curr : timespec) (milliseconds : Z) : timespec :=
  let sec := tv_sec curr + milliseconds / 1000 in
  let nsec := tv_nsec curr + (milliseconds mod 1000) * 1000000 in
  if 1000000000 <? nsec then mkTime (sec + 1) (nsec - 1000000000) else mkTime sec nsec.

(** In C the quotient is that of a non-negative number. *)
Definition hev_task_timer_get_time (curr expire : timespec) : Z :=
  let sec := tv_sec expire - tv_sec curr in
  let nsec := tv_nsec expire - tv_nsec curr in
  let '(sec, nsec) := if nsec <? 0 then (sec - 1, nsec + 1000000000) else (sec, nsec) in
  if sec <? 0 then 0 else u32 (sec * 1000 + (nsec + 999999) / 1000000).

(** The time for which the kernel may wait for I/O, in milliseconds; negative: without limit. *)
Definition hev_task_timer_get_timeout (curr : timespec) (c : Ctx) : option Z :=
  let n := hev_rbtree_cached_first (sort_tree c) in
  if n =? 0 then Some (-1) else this ← timer_nodes c !! n; Some (s32 (hev_task_timer_get_time curr (expire this))).

Definition hev_task_timer_wakeup (curr : timespec) (c : Ctx) : option Ctx :=
  let n := hev_rbtree_cached_first (sort_tree c) in
  if n =? 0 then Some c else
  this ← timer_nodes c !! n;
  if hev_task_timer_cmp curr (expire this) <? 0 then Some c else hev_task_system_wakeup_task_with_context (node_task this) c.

Definition hev_task_timer_wake (curr : timespec) (c : Ctx) : option Ctx :=
  if hev_rbtree_cached_first (sort_tree c) =? 0 then Some c else hev_task_timer_wakeup curr c.

(** [hev_task_timer_wait] before the task is switched away: [node] is on its stack, [curr] the time.
    The result is [leftmost]. *)
Definition timer_wait_begin (node : Z) (milliseconds : Z) (curr : timespec) (task : Z) (c : Ctx) : option (bool * Ctx) :=
  let h := <[node := mkTimerNode (hev_task_timer_get_expire curr milliseconds) task]> (timer_nodes c) in
  '(tr, leftmost) ← insert_below (fun this => r ← hev_task_timer_node_cmp h node this; Some (r <? 0)) node (sort_tree c);
  Some (leftmost, set_timers tr h c).

(** ... and after it; the result is the time that is left. *)
Definition timer_wait_end (node : Z) (leftmost : bool) (curr : timespec) (c : Ctx) : option (Z * Ctx) :=
  this ← timer_nodes c !! node;
  let leftmost := leftmost || (node =? hev_rbtree_cached_first (sort_tree c)) in
  tr ← hev_rbtree_cached_erase (sort_tree c) node;
  let c := set_timers tr (delete node (timer_nodes c)) c in
  c ← (if leftmost then hev_task_timer_wakeup curr c else Some c);
  Some (hev_task_timer_get_time curr (expire this), c).

(** ** Tasks *)

(** At an address that the allocator returns. *)
Definition hev_task_new (task : Z) (c : Ctx) : Ctx := set_tasks (<[task := mkTask 0 0 1 0 HEV_TASK_PRIORITY_DEFAULT HEV_TASK_STOPPED]> (tasks c)) c.
Definition hev_task_ref (task : Z) (c : Ctx) : option Ctx := update (fun k => with_refs (ref_count k + 1) k) task c.

Definition hev_task_set_priority (task p : Z) (c : Ctx) : option Ctx :=
  let p := if p <? HEV_TASK_PRIORITY_MIN then HEV_TASK_PRIORITY_MIN else if HEV_TASK_PRIORITY_MAX <? p then HEV_TASK_PRIORITY_MAX else p in
  update (with_next p) task c.

Definition hev_task_run (task : Z) (c : Ctx) : option Ctx :=
  k ← tasks c !! task;
  if negb (bool_decide (state k = HEV_TASK_STOPPED)) then Some c else
  c ← update (fun k => with_key (next_priority k) (with_priority (next_priority k) k)) task c;
  hev_task_system_run_new_task task c.

(** One round of the loop of [hev_task_join]; the result: whether the loop ends. *)
Definition join_round (task : Z) (c : Ctx) : option (bool * Ctx) :=
  k ← tasks c !! task;
  if bool_decide (state k = HEV_TASK_STOPPED) then Some (true, c) else
  c ← hev_task_system_wakeup_task_with_context task c; Some (false, c).

(** The end of [hev_task_executer], up to the switch. *)
Definition executer_end (c : Ctx) : option Ctx :=
  k ← tasks c !! current_task c;
  if negb (joiner k =? 0) then hev_task_system_wakeup_task_with_context (joiner k) c else Some c.

(** ** Steps *)

(** How a task goes on that was switched away inside a function. *)
Inductive pc := InSleep (node : Z) (leftmost : bool) | InJoin (task : Z).

(** Outside of the scheduler, polling for I/O, or in the current task. *)
Inductive mode := Outside | Polling | InTask.
#[export] Instance mode_eq_dec : EqDecision mode.
Proof. solve_decision. Defined.

(** [checked]: the time at which the first timer was last looked at. *)
Record system := mkSystem { context : Ctx; at_ : mode; pcs : gmap Z pc; checked : timespec }.

Definition set_context (v : Ctx) (s : system) : system := mkSystem v (at_ s) (pcs s) (checked s).
Definition set_mode (m : mode) (v : Ctx) (s : system) : system := mkSystem v m (pcs s) (checked s).
Definition set_pcs (v : gmap Z pc) (s : system) : system := mkSystem (context s) (at_ s) v (checked s).
Definition set_checked (v : timespec) (s : system) : system := mkSystem (context s) (at_ s) (pcs s) v.

(** Why the current task was switched away. *)
Inductive reason := HEV_TASK_SCHED_SWITCH | HEV_TASK_SCHED_WAITIO | HEV_TASK_SCHED_REMOVE.

Definition switch_away (why : reason) (runtime : Z) (c : Ctx) : option Ctx :=
  match why with
  | HEV_TASK_SCHED_SWITCH => c ← hev_task_system_update_sched_key runtime c; hev_task_system_reinsert_current_task c
  | HEV_TASK_SCHED_WAITIO => c ← hev_task_system_update_sched_key runtime c; hev_task_system_remove_current_task HEV_TASK_WAITING c
  | HEV_TASK_SCHED_REMOVE => hev_task_system_remove_current_task HEV_TASK_STOPPED c
  end.

(** The end of [hev_task_system_pick_current_task], and the switch; the second result is the task that runs. *)
Definition pick (s : system) : option (system * list Z) :=
  let n := hev_rbtree_cached_first (running_tasks (context s)) in
  if n =? 0 then None else Some (set_mode InTask (set_current n (context s)) s, [n]).

(** [hev_task_system_schedule] in the kernel context. *)
Definition hev_task_system_schedule (s : system) : option (system * list Z) :=
  let c := context s in
  if total_task_count c =? 0 then Some (set_mode Outside (set_current 0 c) s, []) else
  if running_task_count c <? total_task_count c then Some (set_mode Polling c s, []) else pick s.

(** The events that the reactor returns, in order. *)
Fixpoint wakeup_all (ts : list Z) (c : Ctx) : option Ctx :=
  match ts with [] => Some c | t :: ts => c ← hev_task_system_wakeup_task_with_context t c; wakeup_all ts c end.

Definition hev_task_system_io_poll (ts : list Z) (curr : timespec) (c : Ctx) : option Ctx := c ← wakeup_all ts c; hev_task_timer_wake curr c.

(** The rest of [hev_task_system_pick_current_task]: once when a task is running, until one is otherwise. *)
Definition poll (ts : list Z) (curr : timespec) (s : system) : option (system * list Z) :=
  c ← hev_task_system_io_poll ts curr (context s);
  let s := set_checked curr (set_context c s) in
  if running_task_count c =? 0 then Some (s, []) else pick s.

Definition yields (why : reason) (runtime : Z) (s : system) : option (system * list Z) :=
  c ← switch_away why runtime (context s); hev_task_system_schedule (set_context c s).

Inductive event :=
  | ENew (t : Z) | ERef (t : Z) | EUnref (t : Z) | ESetPriority (t p : Z) | ERun (t : Z) | EWakeup (t : Z)
  | ESchedule
  | EYield (runtime : Z) | EWait (runtime : Z)
  | ESleep (milliseconds node : Z) (curr : timespec) (runtime : Z)
  | EJoin (t runtime : Z)
  | EResume (curr : timespec) (runtime : Z)
  | EReturn | EExit
  | EPoll (ts : list Z) (curr : timespec).

(** A call that does not switch. *)
Definition call (f : Ctx -> option Ctx) (s : system) : option (system * list Z) := c ← f (context s); Some (set_context c s, []).

(** The task waits for another one, or goes on. *)
Definition join_step (t runtime : Z) (s : system) : option (system * list Z) :=
  '(done, c) ← join_round t (context s);
  let me := current_task c in
  if done : bool then Some (set_context c (set_pcs (delete me (pcs s)) s), [])
  else yields HEV_TASK_SCHED_WAITIO runtime (set_context c (set_pcs (<[me := InJoin t]> (pcs s)) s)).

(** Up to the switch; [node] is on the stack of the task, [curr] the time. *)
Definition hev_task_sleep (ms node : Z) (curr : timespec) (runtime : Z) (s : system) : option (system * list Z) :=
  if ms =? 0 then Some (s, []) else
  let me := current_task (context s) in
  '(leftmost, c) ← timer_wait_begin node ms curr me (context s);
  yields HEV_TASK_SCHED_WAITIO runtime (set_context c (set_pcs (<[me := InSleep node leftmost]> (pcs s)) s)).

Definition hev_task_join (t runtime : Z) (s : system) : option (system * list Z) :=
  k ← tasks (context s) !! t;
  if negb (joiner k =? 0) then Some (s, []) else
  c ← update (with_joiner (current_task (context s))) t (context s);
  join_step t runtime (set_context c s).

(** The current task goes on inside the function in which it was switched away. *)
Definition resume (curr : timespec) (runtime : Z) (s : system) : option (system * list Z) :=
  let me := current_task (context s) in
  match pcs s !! me with
  | Some (InSleep node leftmost) =>
      '(_, c) ← timer_wait_end node leftmost curr (context s);
      let first := leftmost || (node =? hev_rbtree_cached_first (sort_tree (context s))) in
      Some (set_checked (if first then curr else checked s) (set_context c (set_pcs (delete me (pcs s)) s)), [])
  | Some (InJoin t) => join_step t runtime s
  | None => None
  end.

(** [hev_task_system_kill_current_task]: the time that passed is not used. *)
Definition hev_task_exit (s : system) : option (system * list Z) := yields HEV_TASK_SCHED_REMOVE 1 s.

(** When the entry function has returned. *)
Definition hev_task_executer (s : system) : option (system * list Z) := c ← executer_end (context s); hev_task_exit (set_context c s).

Definition step (e : event) (s : system) : option (system * list Z) :=
  match e with
  | ENew t => call (fun c => Some (hev_task_new t c)) s
  | ERef t => call (hev_task_ref t) s
  | EUnref t => call (hev_task_unref t) s
  | ESetPriority t p => call (hev_task_set_priority t p) s
  | ERun t => call (hev_task_run t) s
  | EWakeup t => call (hev_task_system_wakeup_task_with_context t) s
  | ESchedule => hev_task_system_schedule s
  | EYield runtime => yields HEV_TASK_SCHED_SWITCH runtime s
  | EWait runtime => yields HEV_TASK_SCHED_WAITIO runtime s
  | ESleep ms node curr runtime => hev_task_sleep ms node curr runtime s
  | EJoin t runtime => hev_task_join t runtime s
  | EResume curr runtime => resume curr runtime s
  | EReturn => hev_task_executer s
  | EExit => hev_task_exit s
  | EPoll ts curr => poll ts curr s
  end.

(** The final state, and the tasks that ran, in order. *)
Fixpoint run (es : list event) (s : system) : option (system * list Z) :=
  match es with
  | [] => Some (s, [])
  | e :: es => '(s, p) ← step e s; '(s, ps) ← run es s; Some (s, p ++ ps)
  end.

Definition hev_task_system_init : system := mkSystem (mkContext ∅ 0 0 0 empty_tree empty_tree ∅) Outside ∅ (mkTime 0 0).
