(* ===== verification/TaskSchedSpec.v ===== *)
(** * The task scheduler: theorems

    The running tasks are a queue by key, in which the current task is the first; nothing is used
    after it is freed; no task waits for ever for others of positive priority; an expired timer
    wakes its task. *)

From stdpp Require Import sorting.
From S2P Require Import Prelude CachedTree TaskSched.

#[local] Notation Ctx := HevTaskSystemContext.

(** ** The queue of running tasks *)

Definition key_of (h : gmap Z HevTask) (x : Z) : Z := match h !! x with Some k => sched_key k | None => 0 end.
Definition key_le (h : gmap Z HevTask) (x y : Z) : Prop := key_of h x <= key_of h y.
Definition in_state (h : gmap Z HevTask) (st : HevTaskState) (x : Z) : Prop := exists k, h !! x = Some k /\ state k = st.

Definition task_ok (x : Z) (k : HevTask) : Prop :=
  aligned x /\ 1 <= ref_count k /\ 0 <= priority k <= 15 /\ 0 <= next_priority k <= 15 /\ 0 <= sched_key k < 2 ^ 64 /\ (state k = HEV_TASK_WAITING -> sched_key k <= 15).

(** [l]: the running tasks in order; [w]: those that wait. *)
Record sched (c : Ctx) (l w : list Z) : Prop := mkSched {
  s_seq : sequence l (running_tasks c);
  s_run x : x ∈ l <-> in_state (tasks c) HEV_TASK_RUNNING x;
  s_wait : NoDup w /\ forall x, x ∈ w <-> in_state (tasks c) HEV_TASK_WAITING x;
  s_sorted : StronglySorted (key_le (tasks c)) l;
  s_count : running_task_count c = Z.of_nat (length l) /\ total_task_count c = Z.of_nat (length l + length w);
  s_task x k : tasks c !! x = Some k -> task_ok x k
}.

(** The least key, and that it is low. *)
Definition min_key (c : Ctx) (l : list Z) : Z := match l with [] => 0 | x :: _ => key_of (tasks c) x end.
Definition low (c : Ctx) (l : list Z) : Prop := min_key c l < 2 ^ 63 /\ Z.of_nat (size (tasks c)) < 2 ^ 31.

Lemma sched_dom c l w x : sched c l w -> x ∈ l -> exists k, tasks c !! x = Some k /\ state k = HEV_TASK_RUNNING.
Proof. intros Hs Hx. by apply (s_run _ _ _ Hs). Qed.

Lemma min_nonneg c l w : sched c l w -> 0 <= min_key c l.
Proof. intros Hs. destruct l as [|x l]; [done|]. destruct (sched_dom _ _ _ x Hs) as (k & Hk & _); [set_solver|]. cbn. unfold key_of. rewrite Hk. destruct (s_task _ _ _ Hs x k Hk) as (_ & _ & _ & _ & ? & _). lia. Qed.

Lemma sched_total c l w : sched c l w -> (length l + length w <= size (tasks c))%nat.
Proof.
  intros Hs. rewrite <- length_app. rewrite <- size_dom. assert (Hnd : NoDup (l ++ w)).
  { apply NoDup_app. split; [apply (s_seq _ _ _ Hs)|]. split; [|apply (s_wait _ _ _ Hs)]. intros x (k & Hk & E)%(s_run _ _ _ Hs) (k' & Hk' & E')%(s_wait _ _ _ Hs). congruence. }
  rewrite <- (size_list_to_set (C := gset Z) _ Hnd). apply subseteq_size. intros x. rewrite elem_of_list_to_set, elem_of_app, elem_of_dom. intros [(k & Hk & _)%(s_run _ _ _ Hs)|(k & Hk & _)%(s_wait _ _ _ Hs)]; eauto.
Qed.

Lemma sorted_all h x l y : StronglySorted (key_le h) (x :: l) -> y ∈ x :: l -> key_of h x <= key_of h y.
Proof. intros [Hf _]%StronglySorted_cons [->|Hy]%elem_of_cons; [lia|]. rewrite Forall_forall in Hf. by apply Hf. Qed.

Lemma get_min_ok c l w : sched c l w -> hev_task_system_get_min_sched_key c = Some (min_key c l).
Proof.
  intros Hs. unfold hev_task_system_get_min_sched_key, hev_rbtree_cached_first. destruct (s_seq _ _ _ Hs) as (_ & _ & Hal & ->). destruct l as [|x l]; [done|]. cbn [head from_option default min_key]. unfold id.
  apply Forall_cons in Hal as [[Hx _] _]. rewrite (proj2 (Z.eqb_neq x 0)) by done. cbn [negb]. destruct (sched_dom _ _ _ x Hs) as (k & Hk & _); [set_solver|]. unfold key_of. by rewrite Hk.
Qed.

Lemma update_eq f t c k : tasks c !! t = Some k -> update f t c = Some (set_tasks (<[t := f k]> (tasks c)) c).
Proof. intros Hk. unfold update. by rewrite Hk. Qed.

Lemma set_tasks_twice h h' c : set_tasks h (set_tasks h' c) = set_tasks h c.
Proof. done. Qed.

(** The tree, when [h] is a memory whose tasks in the tree are ordered. *)
Lemma insert_key_ok h tr l t key : sequence l tr -> StronglySorted (key_le h) l -> (forall x, x ∈ l -> is_Some (h !! x)) -> aligned t -> t ∉ l ->
  exists l1 l2 tr' lm, l = l1 ++ l2 /\ insert_below (key_below h key) t tr = Some (tr', lm) /\ sequence (l1 ++ t :: l2) tr' /\ (forall x, x ∈ l1 -> key_of h x <= key) /\ (forall x, x ∈ l2 -> key < key_of h x).
Proof.
  intros Hseq Hso Hdom Hal Ht. assert (Hb : forall x, x ∈ l -> key_below h key x = Some (key <? key_of h x)) by (intros x [k Hk]%Hdom; unfold key_below, key_of; by rewrite Hk).
  assert (Hm : monotone (key_below h key) l).
  { clear Hseq Ht. induction l as [|x l IH]; [by exists [], []; split; [|split; constructor]|]. apply StronglySorted_cons in Hso as [Hf Hso]. rewrite Forall_forall in Hf. destruct (Z.ltb_spec key (key_of h x)) as [Hlt|Hge].
    - exists [], (x :: l). split; [done|]. split; [constructor|]. apply Forall_forall. intros y Hy. rewrite Hb by done. f_equal. apply Z.ltb_lt. apply elem_of_cons in Hy as [->|Hy]; [done|]. specialize (Hf y Hy). unfold key_le in Hf. lia.
    - destruct IH as (l1 & l2 & -> & H1 & H2); [done|intros; apply Hdom; set_solver|intros; apply Hb; set_solver|]. exists (x :: l1), l2. split; [done|]. split; [|done]. constructor; [|done]. rewrite Hb by set_solver. f_equal. apply Z.ltb_ge. lia. }
  destruct (insert_below_ok _ t tr l Hseq Hm Hal Ht) as (l1 & l2 & tr' & -> & [H1 H2] & E & Hseq'). rewrite Forall_forall in H1, H2. exists l1, l2, tr', (bool_decide (l1 = [])). split_and!; try done.
  - intros x Hx. specialize (H1 x Hx). rewrite Hb in H1 by set_solver. injection H1. rewrite Z.ltb_ge. lia.
  - intros x Hx. specialize (H2 x Hx). rewrite Hb in H2 by set_solver. injection H2. rewrite Z.ltb_lt. lia.
Qed.

(** Keys that are unchanged keep the order. *)
Lemma sorted_keys h h' l : StronglySorted (key_le h) l -> (forall x, x ∈ l -> key_of h' x = key_of h x) -> StronglySorted (key_le h') l.
Proof.
  induction l as [|x l IH]; intros Hs He; [constructor|]. apply StronglySorted_cons in Hs as [Hf Hs]. apply StronglySorted_cons. split; [|apply IH; [done|intros; apply He; set_solver]].
  apply Forall_forall. intros y Hy. rewrite Forall_forall in Hf. unfold key_le. rewrite !He by set_solver. by apply Hf.
Qed.

Lemma sorted_middle h l1 t l2 : StronglySorted (key_le h) (l1 ++ l2) -> (forall x, x ∈ l1 -> key_of h x <= key_of h t) -> (forall x, x ∈ l2 -> key_of h t <= key_of h x) -> StronglySorted (key_le h) (l1 ++ t :: l2).
Proof.
  rewrite !StronglySorted_app. intros (H12 & H1 & H2) Hl Hr. split; [|split; [done|]].
  - intros x y Hx [->|Hy]%elem_of_cons; [by apply Hl|by apply H12].
  - apply StronglySorted_cons. split; [|done]. apply Forall_forall. intros y Hy. by apply Hr.
Qed.

Lemma task_eta k : mkTask (sched_key k) (joiner k) (ref_count k) (priority k) (next_priority k) (state k) = k.
Proof. by destruct k. Qed.

(** A task that was not running is put into the queue. *)
Lemma insert_task_ok c l w w' t k k' : sched c l w -> tasks c !! t = Some k -> state k <> HEV_TASK_RUNNING -> task_ok t k' -> state k' = HEV_TASK_RUNNING -> priority k' = next_priority k' ->
  NoDup w' -> (forall x, x ∈ w' <-> x ∈ w /\ x <> t) -> Z.of_nat (size (tasks c)) < 2 ^ 31 ->
  exists c' l1 l2, l = l1 ++ l2 /\ hev_task_system_insert_task t (set_tasks (<[t := mkTask (sched_key k') (joiner k') (ref_count k') (priority k) (next_priority k') (state k)]> (tasks c)) c) = Some c'
    /\ sched (set_total (Z.of_nat (length (l1 ++ t :: l2) + length w')) c') (l1 ++ t :: l2) w' /\ tasks c' = <[t := k']> (tasks c)
    /\ total_task_count c' = total_task_count c /\ current_task c' = current_task c /\ sort_tree c' = sort_tree c /\ timer_nodes c' = timer_nodes c
    /\ (forall x, x ∈ l1 -> key_of (tasks c) x <= sched_key k') /\ (forall x, x ∈ l2 -> sched_key k' < key_of (tasks c) x).
Proof.
  intros Hs Hk Hst Hok Hrun Hpri Hndw Hw Hsz. assert (Ht : t ∉ l) by (intros (k0 & Hk0 & ?)%(s_run _ _ _ Hs); congruence). pose proof (s_seq _ _ _ Hs) as Hseq. set (h := <[t := k']> (tasks c)).
  assert (Hkey : forall x, x ∈ l -> key_of h x = key_of (tasks c) x) by (intros x Hx; unfold key_of, h; by rewrite lookup_insert_ne by (intros ->; done)). assert (Hkt : key_of h t = sched_key k') by (unfold key_of, h; by rewrite lookup_insert_eq).
  destruct (insert_key_ok h (running_tasks c) l t (sched_key k') Hseq) as (l1 & l2 & tr & lm & -> & E & Hseq' & H1 & H2); [by apply (sorted_keys (tasks c)); [apply (s_sorted _ _ _ Hs)|]| |apply Hok|done|].
  { intros x (k0 & Hk0 & _)%(s_run _ _ _ Hs). unfold h. destruct (decide (x = t)) as [->|Hx]; [by rewrite lookup_insert_eq|rewrite lookup_insert_ne by done; eauto]. }
  unfold hev_task_system_insert_task, update. cbn [tasks set_tasks]. rewrite lookup_insert_eq. cbn [mbind option_bind]. unfold with_priority, with_state. cbn [sched_key joiner ref_count priority next_priority state]. rewrite insert_insert_eq.
  assert (Ek : mkTask (sched_key k') (joiner k') (ref_count k') (next_priority k') (next_priority k') HEV_TASK_RUNNING = k') by (etrans; [|apply (task_eta k')]; by f_equal). rewrite Ek. fold h.
  unfold _hev_task_system_insert_task. cbn [tasks set_tasks running_tasks]. assert (Hht : h !! t = Some k') by apply lookup_insert_eq. rewrite Hht. cbn [mbind option_bind]. rewrite E. cbn [mbind option_bind]. eexists _, l1, l2. split; [done|]. split; [done|].
  assert (Hr : forall x, x ∈ l1 ++ t :: l2 <-> x = t \/ x ∈ l1 ++ l2) by (intros x; set_solver).
  split; [|split; [done|]; split; [done|]; split; [done|]; split; [done|]; split; [done|]; split; [intros x Hx; rewrite <- Hkey by set_solver; by apply H1|intros x Hx; rewrite <- Hkey by set_solver; by apply H2]].
  assert (Hlen := sched_total _ _ _ Hs). destruct (s_count _ _ _ Hs) as [Hc1 Hc2].
  split; cbn [running_tasks tasks running_task_count total_task_count set_total set_count set_running set_tasks].
  - done.
  - intros x. rewrite Hr. unfold in_state, h. destruct (decide (x = t)) as [->|Hx]; [rewrite lookup_insert_eq; split; [eauto|by left]|]. rewrite lookup_insert_ne by done. rewrite (s_run _ _ _ Hs x). unfold in_state. tauto.
  - split; [done|]. intros x. rewrite Hw, (proj2 (s_wait _ _ _ Hs)). unfold in_state, h. destruct (decide (x = t)) as [->|Hx]; [rewrite lookup_insert_eq|by rewrite lookup_insert_ne by done; tauto]. split; [by intros [_ ?]|]. intros (k0 & [= <-] & ?). congruence.
  - apply sorted_middle; [apply (sorted_keys (tasks c)); [apply (s_sorted _ _ _ Hs)|done]| |]; rewrite Hkt; [exact H1|intros x Hx; specialize (H2 x Hx); lia].
  - split; [|done]. rewrite Hc1. unfold u32. rewrite Z.mod_small; rewrite !length_app in *; cbn [length]; lia.
  - intros x k0. unfold h. destruct (decide (x = t)) as [->|Hx]; [rewrite lookup_insert_eq; by intros [= <-]|rewrite lookup_insert_ne by done; apply (s_task _ _ _ Hs)].
Qed.

(** ** Tasks are added *)

(** The key that a task brings along. *)
Definition share (k : HevTask) : Z := match state k with HEV_TASK_WAITING => sched_key k | _ => next_priority k end.

(** Tasks [a] may join the queue, behind the first, and nothing else changes. *)
Record grows (c : Ctx) (l : list Z) (c' : Ctx) (l' : list Z) (added : Z -> Prop) : Prop := mkGrows {
  g_frame : current_task c' = current_task c /\ sort_tree c' = sort_tree c /\ timer_nodes c' = timer_nodes c;
  g_dom x : tasks c !! x = None -> tasks c' !! x = None;
  g_old x k : tasks c !! x = Some k -> exists k', tasks c' !! x = Some k' /\ joiner k' = joiner k /\ ref_count k' = ref_count k /\ next_priority k' = next_priority k
    /\ (k' = k \/ (added x /\ x ∉ l /\ state k' = HEV_TASK_RUNNING /\ priority k' = next_priority k /\ min_key c l + share k <= sched_key k'));
  g_sub x : x ∈ l -> x ∈ l';
  g_head : l <> [] -> head l' = head l;
  g_size : size (tasks c') = size (tasks c)
}.

Lemma grows_refl c l a : grows c l c l a.
Proof. split; try done. intros x k Hk. exists k. split_and!; auto. Qed.

Lemma grows_key c l c' l' a w x : sched c l w -> grows c l c' l' a -> x ∈ l -> key_of (tasks c') x = key_of (tasks c) x.
Proof.
  intros Hs Hg Hx. destruct (sched_dom _ _ _ x Hs Hx) as (k & Hk & _). destruct (g_old _ _ _ _ _ Hg x k Hk) as (k' & Hk' & _ & _ & _ & [->|(_ & Hn & _)]); [|done]. unfold key_of. by rewrite Hk, Hk'.
Qed.

Lemma grows_min c l c' l' a w : sched c l w -> grows c l c' l' a -> l <> [] -> min_key c' l' = min_key c l.
Proof.
  intros Hs Hg Hne. pose proof (g_head _ _ _ _ _ Hg Hne) as Hh. destruct l as [|x l]; [done|]. destruct l' as [|x' l']; [done|]. injection Hh as ->. cbn. apply (grows_key c (x :: l) c' (x :: l') a w); [done|done|set_solver].
Qed.

Lemma grows_low c l c' l' a w w' : sched c l w -> sched c' l' w' -> grows c l c' l' a -> low c l -> (l = [] -> forall x, x ∈ l' -> key_of (tasks c') x <= 15) -> low c' l'.
Proof.
  intros Hs Hs' Hg [Hm Hsz] Hnil. split; [|by rewrite (g_size _ _ _ _ _ Hg)]. destruct l as [|x l].
  - destruct l' as [|y l']; [done|]. specialize (Hnil eq_refl y ltac:(set_solver)). cbn. lia.
  - by rewrite (grows_min c (x :: l) c' l' a w).
Qed.

Lemma grows_trans c l w c1 l1 w1 c2 l2 a1 a2 a : sched c l w -> sched c1 l1 w1 -> grows c l c1 l1 a1 -> grows c1 l1 c2 l2 a2 -> (forall x, a1 x -> a x) -> (forall x, a2 x -> a x) -> grows c l c2 l2 a.
Proof.
  intros Hs Hs1 G1 G2 Ha1 Ha2. destruct (g_frame _ _ _ _ _ G1) as (F1 & F2 & F3), (g_frame _ _ _ _ _ G2) as (F4 & F5 & F6).
  assert (Hmin : min_key c l <= min_key c1 l1) by (destruct l as [|y l]; [apply (min_nonneg _ _ _ Hs1)|rewrite (grows_min _ _ _ _ _ _ Hs G1) by done; lia]).
  split.
  - split_and!; congruence.
  - intros x Hx. by apply (g_dom _ _ _ _ _ G2), (g_dom _ _ _ _ _ G1).
  - intros x k Hk. destruct (g_old _ _ _ _ _ G1 x k Hk) as (k1 & Hk1 & J1 & R1 & N1 & H1). destruct (g_old _ _ _ _ _ G2 x k1 Hk1) as (k2 & Hk2 & J2 & R2 & N2 & H2). exists k2. split_and!; [done|congruence..|].
    destruct H1 as [->|(A1 & Hn & S1 & P1 & K1)]; destruct H2 as [->|(A2 & Hn2 & S2 & P2 & K2)]; [by left| |right; split; [auto|]; done|].
    + right. split; [auto|]. split; [intros Hx; apply Hn2, (g_sub _ _ _ _ _ G1 x Hx)|]. split; [done|]. split; [done|]. lia.
    + exfalso. apply Hn2. apply (s_run _ _ _ Hs1). by exists k1.
  - intros x Hx. apply (g_sub _ _ _ _ _ G2), (g_sub _ _ _ _ _ G1 _ Hx).
  - intros Hne. rewrite (g_head _ _ _ _ _ G2), (g_head _ _ _ _ _ G1); [done|done|]. intros E. pose proof (g_head _ _ _ _ _ G1 Hne) as Hh. rewrite E in Hh. by destruct l.
  - rewrite (g_size _ _ _ _ _ G2). apply (g_size _ _ _ _ _ G1).
Qed.

(** One task joins the queue. *)
Lemma grows_insert c l w c' l1 l2 t k k' a : sched c l w -> tasks c !! t = Some k -> state k <> HEV_TASK_RUNNING -> l = l1 ++ l2 -> tasks c' = <[t := k']> (tasks c) ->
  current_task c' = current_task c -> sort_tree c' = sort_tree c -> timer_nodes c' = timer_nodes c -> joiner k' = joiner k -> ref_count k' = ref_count k -> next_priority k' = next_priority k -> state k' = HEV_TASK_RUNNING ->
  priority k' = next_priority k -> sched_key k' = min_key c l + share k -> 0 <= share k -> (forall x, x ∈ l2 -> sched_key k' < key_of (tasks c) x) -> a t -> grows c l c' (l1 ++ t :: l2) a.
Proof.
  intros Hs Hk Hst -> Et F1 F2 F3 J R N S P K Hsh H2 Ha. assert (Ht : t ∉ l1 ++ l2) by (intros (k0 & Hk0 & ?)%(s_run _ _ _ Hs); congruence). split.
  - done.
  - intros x Hx. rewrite Et, lookup_insert_ne; [done|]. intros <-. congruence.
  - intros x k0 Hk0. rewrite Et. destruct (decide (x = t)) as [->|Hx]; [|rewrite lookup_insert_ne by done; exists k0; split_and!; auto]. rewrite lookup_insert_eq. rewrite Hk in Hk0. injection Hk0 as <-. exists k'. split_and!; try done. right. split_and!; try done. lia.
  - set_solver.
  - intros Hne. destruct l1 as [|y l1]; [|done]. cbn in *. destruct l2 as [|y l2]; [done|]. specialize (H2 y ltac:(set_solver)). cbn in K. lia.
  - rewrite Et. apply map_size_insert_Some. by rewrite Hk.
Qed.

(** ** Waking up a task *)

Lemma wakeup_ok c l w t k : sched c l w -> low c l -> tasks c !! t = Some k -> state k <> HEV_TASK_STOPPED ->
  exists c' l' w', hev_task_system_wakeup_task_with_context t c = Some c' /\ sched c' l' w' /\ low c' l' /\ grows c l c' l' (fun x => x = t) /\ t ∈ l' /\ total_task_count c' = total_task_count c.
Proof.
  intros Hs Hl Hk Hst. unfold hev_task_system_wakeup_task_with_context. rewrite Hk. cbn [mbind option_bind]. destruct (state k) eqn:Es; [done| |].
  - exists c, l, w. split_and!; try done; [apply grows_refl|]. apply (s_run _ _ _ Hs). by exists k.
  - rewrite (get_min_ok c l w Hs). cbn [mbind option_bind]. unfold update. rewrite Hk. cbn [mbind option_bind].
    destruct (s_task _ _ _ Hs t k Hk) as (Hal & Href & Hp & Hn & Hkey & Hw15). specialize (Hw15 Es). pose proof (min_nonneg _ _ _ Hs) as Hm0. destruct Hl as [Hm Hsz].
    assert (Eu : u64 (sched_key k + min_key c l) = sched_key k + min_key c l) by (unfold u64; apply Z.mod_small; lia). rewrite Eu.
    set (k' := mkTask (sched_key k + min_key c l) (joiner k) (ref_count k) (next_priority k) (next_priority k) HEV_TASK_RUNNING).
    destruct (s_wait _ _ _ Hs) as [Hndw Hw]. assert (Htw : t ∈ w) by (apply Hw; by exists k). apply list_elem_of_split in Htw as (w1 & w2 & ->).
    assert (Hw' : NoDup (w1 ++ w2) /\ forall x, x ∈ w1 ++ w2 <-> x ∈ w1 ++ t :: w2 /\ x <> t) by (nodup_atoms; split; [by apply nodup_app|intros x; set_solver]). destruct Hw' as [Hndw' Hw'].
    destruct (insert_task_ok c l (w1 ++ t :: w2) (w1 ++ w2) t k k' Hs Hk) as (c' & l1 & l2 & El & E & Hs' & Et & Etot & F1 & F2 & F3 & H1 & H2); try done; [by rewrite Es|split; [done|]; cbn; split_and!; try done; lia|].
    exists c', (l1 ++ t :: l2), (w1 ++ w2). split; [exact E|]. destruct (s_count _ _ _ Hs) as [Hc1 Hc2].
    assert (Hs2 : sched c' (l1 ++ t :: l2) (w1 ++ w2)).
    { destruct Hs' as [S1 S2 S3 S4 [S5 _] S6]. split; try done. split; [done|]. rewrite Etot, Hc2, El, !length_app. cbn [length]. lia. }
    assert (Hg : grows c l c' (l1 ++ t :: l2) (fun x => x = t)) by (eapply (grows_insert c l _ c' l1 l2 t k k'); try done; [by rewrite Es|unfold share; rewrite Es; cbn; lia|unfold share; rewrite Es; lia]).
    split; [done|]. split; [|split; [done|]; split; [set_solver|done]]. apply (grows_low _ _ _ _ _ _ _ Hs Hs2 Hg); [done|]. intros El0. rewrite El0 in El. symmetry in El. apply app_eq_nil in El as [-> ->]. intros x ->%list_elem_of_singleton. unfold key_of. rewrite Et, lookup_insert_eq. unfold k'. rewrite El0. cbn. lia.
Qed.

Lemma wakeup_all_ok ts : forall c l w, sched c l w -> low c l -> (forall t, t ∈ ts -> exists k, tasks c !! t = Some k /\ state k <> HEV_TASK_STOPPED) ->
  exists c' l' w', wakeup_all ts c = Some c' /\ sched c' l' w' /\ low c' l' /\ grows c l c' l' (fun x => x ∈ ts) /\ total_task_count c' = total_task_count c.
Proof.
  induction ts as [|t ts IH]; intros c l w Hs Hl Hts.
  - exists c, l, w. split_and!; try done. apply grows_refl.
  - destruct (Hts t) as (k & Hk & Hst); [set_solver|]. destruct (wakeup_ok c l w t k Hs Hl Hk Hst) as (c1 & l1 & w1 & E1 & Hs1 & Hl1 & Hg1 & _ & Ht1). cbn [wakeup_all]. rewrite E1. cbn [mbind option_bind].
    destruct (IH c1 l1 w1 Hs1 Hl1) as (c2 & l2 & w2 & E2 & Hs2 & Hl2 & Hg2 & Ht2).
    { intros u Hu. destruct (Hts u) as (ku & Hku & Hstu); [set_solver|]. destruct (g_old _ _ _ _ _ Hg1 u ku Hku) as (ku' & Hku' & _ & _ & _ & [->|(_ & _ & S & _)]); eauto. exists ku'. split; [done|by rewrite S]. }
    exists c2, l2, w2. split_and!; try done; [|congruence]. apply (grows_trans c l w c1 l1 w1 c2 l2 _ _ _ Hs Hs1 Hg1 Hg2); set_solver.
Qed.

(** ** Changes that the queue does not see *)

(** What the queue sees of the task at an address. *)
Definition view (h : gmap Z HevTask) (x : Z) : option (Z * HevTaskState) :=
  k ← h !! x; if bool_decide (state k = HEV_TASK_STOPPED) then None else Some (sched_key k, state k).

Lemma view_state h x st : st <> HEV_TASK_STOPPED -> in_state h st x <-> exists key, view h x = Some (key, st).
Proof.
  intros Hst. unfold in_state, view. destruct (h !! x) as [k|]; cbn [mbind option_bind]; [|split; [by intros (? & ? & _)|by intros []]]. split.
  - intros (k0 & [= <-] & E). exists (sched_key k). rewrite bool_decide_false by congruence. by rewrite E.
  - intros (key & E). case_bool_decide; [done|]. injection E as _ E. eauto.
Qed.

Lemma view_key h x key st : view h x = Some (key, st) -> key_of h x = key.
Proof. unfold view, key_of. destruct (h !! x) as [k|]; [|done]. cbn. case_bool_decide; [done|]. by intros [= <- _]. Qed.

Lemma sched_view c l w h : sched c l w -> (forall x, view h x = view (tasks c) x) -> (forall x k, h !! x = Some k -> task_ok x k) -> sched (set_tasks h c) l w.
Proof.
  intros Hs Hv Hok. assert (Hi : forall st x, st <> HEV_TASK_STOPPED -> in_state h st x <-> in_state (tasks c) st x) by (intros st x Hst; rewrite !view_state by done; by rewrite Hv).
  destruct Hs as [S1 S2 [S3 S3'] S4 S5 S6]. split; cbn; try done.
  - intros x. rewrite Hi by done. apply S2.
  - split; [done|]. intros x. rewrite Hi by done. apply S3'.
  - apply (sorted_keys (tasks c)); [done|]. intros x (key & E)%S2%view_state; [|done]. rewrite (view_key _ _ _ _ E). rewrite <- Hv in E. by apply view_key in E.
Qed.

Lemma view_insert h t k : view (<[t := k]> h) t = if bool_decide (state k = HEV_TASK_STOPPED) then None else Some (sched_key k, state k).
Proof. unfold view. by rewrite lookup_insert_eq. Qed.

(** The task at an address is replaced by one that looks the same. *)
Lemma sched_replace c l w t k k' : sched c l w -> tasks c !! t = Some k -> task_ok t k' -> sched_key k' = sched_key k -> state k' = state k -> sched (set_tasks (<[t := k']> (tasks c)) c) l w.
Proof.
  intros Hs Hk Hok Ek Es. apply sched_view; [done| |].
  - intros x. destruct (decide (x = t)) as [->|Hx]; [rewrite view_insert; unfold view; rewrite Hk; cbn; by rewrite Ek, Es|]. unfold view. by rewrite lookup_insert_ne by done.
  - intros x k0. destruct (decide (x = t)) as [->|Hx]; [rewrite lookup_insert_eq; by intros [= <-]|]. rewrite lookup_insert_ne by done. apply (s_task _ _ _ Hs).
Qed.

Lemma sched_new c l w t k : sched c l w -> tasks c !! t = None -> task_ok t k -> state k = HEV_TASK_STOPPED -> sched (set_tasks (<[t := k]> (tasks c)) c) l w.
Proof.
  intros Hs Hk Hok Es. apply sched_view; [done| |].
  - intros x. destruct (decide (x = t)) as [->|Hx]; [rewrite view_insert; unfold view; rewrite Hk; cbn; by rewrite Es|]. unfold view. by rewrite lookup_insert_ne by done.
  - intros x k0. destruct (decide (x = t)) as [->|Hx]; [rewrite lookup_insert_eq; by intros [= <-]|]. rewrite lookup_insert_ne by done. apply (s_task _ _ _ Hs).
Qed.

Lemma sched_free c l w t k : sched c l w -> tasks c !! t = Some k -> state k = HEV_TASK_STOPPED -> sched (set_tasks (delete t (tasks c)) c) l w.
Proof.
  intros Hs Hk Es. apply sched_view; [done| |].
  - intros x. unfold view. destruct (decide (x = t)) as [->|Hx]; [rewrite lookup_delete_eq, Hk; cbn; by rewrite Es|by rewrite lookup_delete_ne by done].
  - intros x k0 Hk0. apply lookup_delete_Some in Hk0 as [_ Hk0]. by apply (s_task _ _ _ Hs).
Qed.

(** ** A task starts *)

Lemma sched_run_ok c l w t k : sched c l w -> low c l -> tasks c !! t = Some k -> state k = HEV_TASK_STOPPED ->
  exists c' l' key, hev_task_run t c = Some c' /\ sched c' l' w /\ (forall x, x ∈ l' <-> x = t \/ x ∈ l) /\ current_task c' = current_task c /\ sort_tree c' = sort_tree c /\ timer_nodes c' = timer_nodes c
    /\ tasks c' = <[t := mkTask key (joiner k) (ref_count k) (next_priority k) (next_priority k) HEV_TASK_RUNNING]> (tasks c)
    /\ (current_task c <> 0 -> grows c l c' l' (fun x => x = t)).
Proof.
  intros Hs [Hm Hsz] Hk Es. destruct (s_task _ _ _ Hs t k Hk) as (Hal & Href & Hp & Hn & Hkey & _). pose proof (min_nonneg _ _ _ Hs) as Hm0. destruct (s_wait _ _ _ Hs) as [Hndw Hw].
  unfold hev_task_run. rewrite Hk. cbn [mbind option_bind]. rewrite Es, bool_decide_true by done. cbn [negb]. unfold update at 1. rewrite Hk. cbn [mbind option_bind]. unfold with_key, with_priority. cbn [sched_key joiner ref_count priority next_priority state]. rewrite Es.
  set (key := if negb (current_task c =? 0) then next_priority k + min_key c l else next_priority k).
  set (k0 := mkTask (next_priority k) (joiner k) (ref_count k) (next_priority k) (next_priority k) HEV_TASK_STOPPED). set (c0 := set_tasks (<[t := k0]> (tasks c)) c).
  assert (Hv : sched c0 l w). { apply sched_view; [done| |]. - intros x. destruct (decide (x = t)) as [->|Hx]; [rewrite view_insert; unfold view; rewrite Hk; cbn; by rewrite Es|unfold view; by rewrite lookup_insert_ne by done]. - intros x k1. destruct (decide (x = t)) as [->|Hx]; [rewrite lookup_insert_eq; intros [= <-]; split_and!; cbn; try done; lia|rewrite lookup_insert_ne by done; apply (s_task _ _ _ Hs)]. }
  assert (Hmin : min_key c0 l = min_key c l). { destruct l as [|x l]; [done|]. cbn. unfold key_of, c0. cbn. destruct (decide (x = t)) as [->|Hx]; [|by rewrite lookup_insert_ne by done]. exfalso. destruct (sched_dom _ _ _ t Hs) as (k1 & Hk1 & E1); [set_solver|congruence]. }
  assert (Hin : (if negb (current_task c0 =? 0) then min ← hev_task_system_get_min_sched_key c0; update (fun k => with_key (u64 (sched_key k + min)) k) t c0 else Some c0)
    = Some (set_tasks (<[t := mkTask key (joiner k) (ref_count k) (next_priority k) (next_priority k) HEV_TASK_STOPPED]> (tasks c)) c)).
  { unfold key. change (current_task c0) with (current_task c). destruct (current_task c =? 0); cbn [negb]; [done|]. rewrite (get_min_ok c0 l w Hv), Hmin. cbn [mbind option_bind]. rewrite (update_eq _ t c0 k0) by apply lookup_insert_eq. unfold c0. cbn [tasks set_tasks]. rewrite insert_insert_eq. unfold with_key, k0. cbn.
    assert (Eu : u64 (next_priority k + min_key c l) = next_priority k + min_key c l) by (unfold u64; apply Z.mod_small; lia). by rewrite Eu. }
  unfold hev_task_system_run_new_task. rewrite Hin. cbn [mbind option_bind].
  set (k1 := mkTask (next_priority k) (joiner k) (ref_count k) (next_priority k) (next_priority k) HEV_TASK_STOPPED).
  set (k' := mkTask key (joiner k) (ref_count k) (next_priority k) (next_priority k) HEV_TASK_RUNNING).
  assert (Hkb : 0 <= key < 2 ^ 64) by (unfold key; destruct (negb (current_task c =? 0)); lia).
  assert (Hsz0 : Z.of_nat (size (tasks c0)) < 2 ^ 31) by (unfold c0; cbn; rewrite map_size_insert_Some by (by rewrite Hk); done).
  destruct (insert_task_ok c0 l w w t k0 k' Hv) as (c' & l1 & l2 & El & E & Hs' & Et & Etot & F1 & F2 & F3 & H1 & H2); [apply lookup_insert_eq|done|unfold task_ok; cbn; split_and!; [done|done|lia..|done]|done|done|done|
    intros x; split; [intros Hx; split; [done|]; intros ->; apply Hw in Hx as (? & ? & ?); congruence|by intros [? _]]|done|].
  unfold c0 in E. cbn [tasks set_tasks] in E. rewrite insert_insert_eq, set_tasks_twice in E. cbn in E. rewrite E. cbn [mbind option_bind].
  assert (Hs2 : sched (set_total (u32 (total_task_count c' + 1)) c') (l1 ++ t :: l2) w).
  { destruct Hs' as [S1 S2 S3 S4 [S5 S5'] S6]. split; try done. split; [done|]. cbn in *. rewrite Etot. destruct (s_count _ _ _ Hs) as [_ ->]. pose proof (sched_total _ _ _ Hs). rewrite El, !length_app in *. cbn [length]. unfold u32. rewrite Z.mod_small; lia. }
  exists (set_total (u32 (total_task_count c' + 1)) c'), (l1 ++ t :: l2), key. cbn. unfold c0 in Et. cbn in Et. rewrite insert_insert_eq in Et. split_and!; try done.
  - intros x. rewrite El. set_solver.
  - intros Hc. assert (Ekey : key = min_key c l + next_priority k) by (unfold key; rewrite (proj2 (Z.eqb_neq _ 0)) by done; cbn; lia).
    apply (grows_insert c l w _ l1 l2 t k k'); cbn; try done; [by rewrite Es|unfold share; by rewrite Es|unfold share; rewrite Es; lia|]. intros x Hx. specialize (H2 x Hx). unfold key_of, c0 in *. cbn in H2. rewrite lookup_insert_ne in H2; [done|]. intros <-. destruct (sched_dom _ _ _ t Hs) as (kk & Hkk & Ekk); [rewrite El; set_solver|congruence].
Qed.

(** ** The current task is switched away *)

(** The first task without a change of the others. *)
Lemma sched_tail c cur l w : sched c (cur :: l) w -> cur ∉ l /\ cur ∉ w /\ (forall x, x ∈ l -> x <> cur).
Proof.
  intros Hs. assert (Hn : cur ∉ l) by (destruct (s_seq _ _ _ Hs) as (_ & Hnd & _); by apply NoDup_cons in Hnd as [? _]). split; [done|]. split; [|intros x Hx ->; done].
  intros (k & Hk & E)%(s_wait _ _ _ Hs). destruct (sched_dom _ _ _ cur Hs) as (k' & Hk' & E'); [set_solver|]. congruence.
Qed.

Lemma key_insert_ne h t k x : x <> t -> key_of (<[t := k]> h) x = key_of h x.
Proof. intros Hx. unfold key_of. by rewrite lookup_insert_ne by done. Qed.

Lemma tail_sorted h h' cur l : StronglySorted (key_le h) (cur :: l) -> (forall x, x ∈ l -> key_of h' x = key_of h x) -> StronglySorted (key_le h') l.
Proof. intros [_ Hso]%StronglySorted_cons He. by apply (sorted_keys h). Qed.

Lemma in_state_insert h t k st x : in_state (<[t := k]> h) st x <-> (x = t /\ state k = st) \/ (x <> t /\ in_state h st x).
Proof. unfold in_state. destruct (decide (x = t)) as [->|Hx]; [rewrite lookup_insert_eq|rewrite lookup_insert_ne by done; naive_solver]. split; [intros (k0 & [= <-] & E); auto|intros [[_ E]|[? _]]; [eauto|done]]. Qed.

Lemma task_ok_insert (h : gmap Z HevTask) t k : (forall x k, h !! x = Some k -> task_ok x k) -> task_ok t k -> forall x k', <[t := k]> h !! x = Some k' -> task_ok x k'.
Proof. intros Hh Hk x k' E. apply lookup_insert_Some in E as [[<- <-]|[_ E]]; [done|by apply Hh]. Qed.

Lemma update_key_ok c cur l w k runtime : sched c (cur :: l) w -> low c (cur :: l) -> current_task c = cur -> tasks c !! cur = Some k -> 1 <= runtime <= 2 ^ 59 ->
  hev_task_system_update_sched_key runtime c = Some (set_tasks (<[cur := with_key (sched_key k + runtime * priority k) k]> (tasks c)) c) /\ 0 <= sched_key k + runtime * priority k < 2 ^ 64.
Proof.
  intros Hs [Hm _] <- Hk Hr. destruct (s_task _ _ _ Hs _ k Hk) as (_ & _ & Hp & _ & Hkey & _). unfold hev_task_system_update_sched_key. rewrite (update_eq _ _ c k Hk).
  assert (Hb : 0 <= sched_key k + runtime * priority k < 2 ^ 64) by (cbn in Hm; unfold key_of in Hm; rewrite Hk in Hm; nia). split; [|done]. unfold u64. by rewrite Z.mod_small.
Qed.

Lemma yield_ok c cur l w k runtime : sched c (cur :: l) w -> low c (cur :: l) -> current_task c = cur -> tasks c !! cur = Some k -> 1 <= runtime <= 2 ^ 59 ->
  exists c' l1 l2, switch_away HEV_TASK_SCHED_SWITCH runtime c = Some c' /\ l = l1 ++ l2 /\ sched c' (l1 ++ cur :: l2) w
    /\ tasks c' = <[cur := mkTask (sched_key k + runtime * priority k) (joiner k) (ref_count k) (next_priority k) (next_priority k) HEV_TASK_RUNNING]> (tasks c)
    /\ total_task_count c' = total_task_count c /\ sort_tree c' = sort_tree c /\ timer_nodes c' = timer_nodes c.
Proof.
  intros Hs Hl Hc Hk Hr. destruct (update_key_ok c cur l w k runtime Hs Hl Hc Hk Hr) as [E Hb]. destruct (sched_tail _ _ _ _ Hs) as (Hn & _ & Hne). destruct (s_task _ _ _ Hs _ k Hk) as (Hal & Href & Hp & Hnp & _).
  assert (Es : state k = HEV_TASK_RUNNING) by (destruct (sched_dom _ _ _ cur Hs) as (k0 & Hk0 & ?); [set_solver|congruence]).
  cbn [switch_away]. rewrite E. cbn [mbind option_bind]. unfold hev_task_system_reinsert_current_task. cbn [current_task set_tasks]. rewrite Hc. rewrite (update_eq _ cur _ (with_key (sched_key k + runtime * priority k) k)) by (cbn; apply lookup_insert_eq). cbn [mbind option_bind tasks set_tasks running_tasks]. rewrite insert_insert_eq.
  unfold with_key, with_priority. cbn [sched_key joiner ref_count priority next_priority state]. rewrite Es. set (k' := mkTask _ _ _ _ _ _). set (h := <[cur := k']> (tasks c)).
  destruct (erase_sequence_ok cur (running_tasks c) [] l (s_seq _ _ _ Hs)) as (tr & Er & Hseq). rewrite Er. cbn [mbind option_bind]. unfold _hev_task_system_insert_task. cbn [tasks set_running set_tasks running_tasks]. assert (Hh : h !! cur = Some k') by apply lookup_insert_eq. rewrite Hh. cbn [mbind option_bind].
  assert (Hkeys : forall x, x ∈ l -> key_of h x = key_of (tasks c) x) by (intros x Hx; apply key_insert_ne; auto). assert (Hso : StronglySorted (key_le h) l) by (eapply tail_sorted; [apply (s_sorted _ _ _ Hs)|done]).
  destruct (insert_key_ok h tr l cur (sched_key k') Hseq Hso) as (l1 & l2 & tr' & lm & -> & Ei & Hseq' & H1 & H2); [intros x Hx; unfold h; rewrite lookup_insert_ne by (intros ->; done); destruct (sched_dom _ _ _ x Hs) as (? & -> & _); [set_solver|eauto]|done|done|].
  change ([] ++ l1 ++ l2) with (l1 ++ l2) in *. rewrite Ei. cbn [mbind option_bind]. eexists _, l1, l2. split; [done|]. split; [done|]. split; [|by cbn]. assert (Hkc : key_of h cur = sched_key k') by (unfold key_of; by rewrite Hh).
  destruct (s_count _ _ _ Hs) as [C1 C2]. split; cbn [running_tasks tasks running_task_count total_task_count set_running set_tasks].
  - done.
  - intros x. unfold h. rewrite in_state_insert. rewrite <- (s_run _ _ _ Hs x). cbn [state k']. set_solver.
  - split; [apply (s_wait _ _ _ Hs)|]. intros x. unfold h. rewrite in_state_insert, <- (proj2 (s_wait _ _ _ Hs) x). cbn [state k']. destruct (sched_tail _ _ _ _ Hs) as (_ & Hw & _). split; [intros Hx; right; split; [intros ->; done|done]|intros [[_ ?]|[_ ?]]; done].
  - apply sorted_middle; [done|intros x Hx; rewrite Hkc; by apply H1|intros x Hx; rewrite Hkc; specialize (H2 x Hx); lia].
  - rewrite C1, C2. cbn [length]. rewrite !length_app. cbn [length]. split; lia.
  - apply task_ok_insert; [apply (s_task _ _ _ Hs)|]. unfold task_ok. cbn. split_and!; try done; lia.
Qed.

Lemma sched_wait_ok c cur l w k runtime : sched c (cur :: l) w -> low c (cur :: l) -> current_task c = cur -> tasks c !! cur = Some k -> 1 <= runtime <= 2 ^ 59 ->
  exists c', switch_away HEV_TASK_SCHED_WAITIO runtime c = Some c' /\ sched c' l (cur :: w)
    /\ tasks c' = <[cur := mkTask (next_priority k) (joiner k) (ref_count k) (priority k) (next_priority k) HEV_TASK_WAITING]> (tasks c)
    /\ total_task_count c' = total_task_count c /\ sort_tree c' = sort_tree c /\ timer_nodes c' = timer_nodes c.
Proof.
  intros Hs Hl Hc Hk Hr. destruct (update_key_ok c cur l w k runtime Hs Hl Hc Hk Hr) as [E Hb]. destruct (sched_tail _ _ _ _ Hs) as (Hn & Hnw & Hne). destruct (s_task _ _ _ Hs _ k Hk) as (Hal & Href & Hp & Hnp & _).
  cbn [switch_away]. rewrite E. cbn [mbind option_bind]. unfold hev_task_system_remove_current_task. cbn [current_task set_tasks]. rewrite Hc. rewrite (update_eq _ cur _ (with_key (sched_key k + runtime * priority k) k)) by (cbn; apply lookup_insert_eq). cbn [mbind option_bind tasks set_tasks running_tasks]. rewrite insert_insert_eq.
  unfold with_key, with_state. cbn [sched_key joiner ref_count priority next_priority state]. destruct (erase_sequence_ok cur (running_tasks c) [] l (s_seq _ _ _ Hs)) as (tr & Er & Hseq). rewrite Er. cbn [mbind option_bind]. rewrite bool_decide_false by done.
  erewrite update_eq by (cbn; apply lookup_insert_eq). cbn [tasks set_running set_tasks set_count joiner ref_count priority next_priority state]. rewrite insert_insert_eq. set (k' := mkTask _ _ _ _ _ _). eexists. split; [done|]. split; [|by cbn].
  destruct (s_count _ _ _ Hs) as [C1 C2]. pose proof (sched_total _ _ _ Hs) as Htot. destruct Hl as [_ Hsz]. cbn [length] in C1, Htot. split; cbn [running_tasks tasks running_task_count total_task_count set_running set_tasks set_count].
  - done.
  - intros x. rewrite in_state_insert, <- (s_run _ _ _ Hs x). cbn [state k']. split; [intros Hx; right; split; [by apply Hne|set_solver]|intros [[_ ?]|[? ?]]; [done|set_solver]].
  - destruct (s_wait _ _ _ Hs) as [W1 W2]. split; [by constructor|]. intros x. rewrite in_state_insert, <- (W2 x). cbn [state k']. destruct (decide (x = cur)); set_solver.
  - eapply tail_sorted; [apply (s_sorted _ _ _ Hs)|]. intros x Hx. apply key_insert_ne. auto.
  - rewrite C1, C2. cbn [length]. unfold u32. rewrite Z.mod_small by lia. split; lia.
  - apply task_ok_insert; [apply (s_task _ _ _ Hs)|]. unfold task_ok. cbn. split_and!; try done; lia.
Qed.

(** The task that ends is freed when the scheduler had the last reference. *)
Definition ended (cur : Z) (k : HevTask) (h : gmap Z HevTask) : gmap Z HevTask :=
  if ref_count k =? 1 then delete cur h else <[cur := mkTask (sched_key k) (joiner k) (ref_count k - 1) (priority k) (next_priority k) HEV_TASK_STOPPED]> h.

Lemma sched_remove_ok c cur l w k runtime : sched c (cur :: l) w -> low c (cur :: l) -> current_task c = cur -> tasks c !! cur = Some k ->
  exists c', switch_away HEV_TASK_SCHED_REMOVE runtime c = Some c' /\ sched c' l w /\ tasks c' = ended cur k (tasks c) /\ sort_tree c' = sort_tree c /\ timer_nodes c' = timer_nodes c.
Proof.
  intros Hs Hl Hc Hk. destruct (sched_tail _ _ _ _ Hs) as (Hn & Hnw & Hne). destruct (s_task _ _ _ Hs _ k Hk) as (Hal & Href & Hp & Hnp & Hkey & _).
  cbn [switch_away]. unfold hev_task_system_remove_current_task. rewrite Hc, (update_eq _ cur _ k Hk). cbn [mbind option_bind tasks set_tasks running_tasks]. destruct (erase_sequence_ok cur (running_tasks c) [] l (s_seq _ _ _ Hs)) as (tr & Er & Hseq). rewrite Er. cbn [mbind option_bind]. rewrite bool_decide_true by done.
  set (k1 := with_state HEV_TASK_STOPPED k). set (c1 := set_total _ _).
  assert (Hs1 : sched c1 l w).
  { destruct (s_count _ _ _ Hs) as [C1 C2]. pose proof (sched_total _ _ _ Hs) as Htot. destruct Hl as [_ Hsz]. cbn [length] in C1, C2, Htot. split; unfold c1; cbn [running_tasks tasks running_task_count total_task_count set_running set_tasks set_count set_total].
    - done.
    - intros x. rewrite in_state_insert, <- (s_run _ _ _ Hs x). cbn [state k1 with_state]. split; [intros Hx; right; split; [by apply Hne|set_solver]|intros [[_ ?]|[? ?]]; [done|set_solver]].
    - destruct (s_wait _ _ _ Hs) as [W1 W2]. split; [done|]. intros x. rewrite in_state_insert, <- (W2 x). cbn [state k1 with_state]. split; [intros Hx; right; split; [by intros ->|done]|intros [[_ ?]|[_ ?]]; done].
    - eapply tail_sorted; [apply (s_sorted _ _ _ Hs)|]. intros x Hx. apply key_insert_ne. auto.
    - rewrite C1, C2. unfold u32. rewrite !Z.mod_small by lia. split; lia.
    - apply task_ok_insert; [apply (s_task _ _ _ Hs)|]. unfold task_ok. cbn. split_and!; try done; lia. }
  assert (Hk1 : tasks c1 !! cur = Some k1) by apply lookup_insert_eq. unfold hev_task_unref. rewrite Hk1. cbn [mbind option_bind]. change (ref_count k1) with (ref_count k). unfold ended. destruct (Z.eqb_spec (ref_count k) 1) as [E1|E1].
  - rewrite (proj2 (Z.eqb_eq _ 0)) by lia. cbn [negb]. eexists. split; [done|]. split; [by apply (sched_free c1 l w cur k1)|]. split; [|done]. cbn. by rewrite delete_insert_eq.
  - rewrite (proj2 (Z.eqb_neq _ 0)) by lia. cbn [negb]. rewrite (update_eq _ cur _ k1 Hk1). eexists. split; [done|]. split; [apply (sched_replace c1 l w cur k1); try done; unfold task_ok; cbn; split_and!; try done; lia|]. split; [|done]. cbn. by rewrite insert_insert_eq.
Qed.
