(* ===== verification/TaskSchedSafe.v ===== *)
(** * The task scheduler: invariant of the system

    The timers are a sequence by expiry whose members are the sleeping tasks; a task that
    joins another exists as long as the other may wake it.  What the operations do to this, and to the
    order in which tasks run. *)

From stdpp Require Import sorting.
From S2P Require Import Prelude CachedTree TaskSched TaskSchedSpec.

#[local] Notation Ctx := HevTaskSystemContext.

(** ** Timers *)

Definition time_lt (a b : timespec) : Prop := tv_sec a < tv_sec b \/ (tv_sec a = tv_sec b /\ tv_nsec a < tv_nsec b).

Lemma timer_cmp_neg a b : hev_task_timer_cmp a b < 0 <-> time_lt a b.
Proof. unfold hev_task_timer_cmp, time_lt. repeat case_match; rewrite ?Z.ltb_lt, ?Z.ltb_ge in *; lia. Qed.

Definition time_le (a b : timespec) : Prop := ~ time_lt b a.

(** Earlier, or at the same time with a lower address. *)
Definition node_lt (h : gmap Z HevTaskTimerNode) (a b : Z) : Prop :=
  exists na nb, h !! a = Some na /\ h !! b = Some nb /\ (time_lt (expire na) (expire nb) \/ (time_le (expire na) (expire nb) /\ a < b)).

Lemma node_cmp_ok h a b na nb : h !! a = Some na -> h !! b = Some nb -> exists r, hev_task_timer_node_cmp h a b = Some r /\ (r < 0 <-> node_lt h a b) /\ (0 < r <-> node_lt h b a).
Proof.
  intros Ha Hb. unfold hev_task_timer_node_cmp. rewrite Ha, Hb. cbn [mbind option_bind]. eexists. split; [done|]. split; (split; [intros H; eexists _, _; split; [eassumption|]; split; [eassumption|]|intros (n1 & n2 & E1 & E2 & H); simplify_eq]);
    revert H; unfold hev_task_timer_cmp, time_le, time_lt; repeat case_match; rewrite ?Z.ltb_lt, ?Z.ltb_ge in *; cbn [negb] in *; simplify_eq; lia.
Qed.

Lemma node_lt_trans h a b c : node_lt h a b -> node_lt h b c -> node_lt h a c.
Proof. intros (na & nb & Ha & Hb & H1) (nb' & nc & Hb' & Hc & H2). simplify_eq. exists na, nc. split; [done|]. split; [done|]. unfold time_le, time_lt in *. lia. Qed.

Lemma node_lt_mono (h h' : gmap Z HevTaskTimerNode) a b : (forall n, n = a \/ n = b -> h' !! n = h !! n) -> node_lt h a b -> node_lt h' a b.
Proof. intros He (na & nb & Ha & Hb & H). exists na, nb. rewrite !He by auto. done. Qed.

Lemma nodes_sorted h h' l : (forall n, n ∈ l -> h' !! n = h !! n) -> StronglySorted (node_lt h) l -> StronglySorted (node_lt h') l.
Proof.
  induction l as [|x l IH]; intros He Hs; [constructor|]. apply StronglySorted_cons in Hs as [Hf Hs]. apply StronglySorted_cons. split; [|apply IH; [set_solver|done]].
  rewrite Forall_forall in *. intros y Hy. apply (node_lt_mono h); [|by apply Hf]. intros n [->| ->]; apply He; set_solver.
Qed.

(** Once a node is before one of a sorted sequence, it is before all that follow. *)
Lemma timers_monotone h n nd l : h !! n = Some nd -> n ∉ l -> (forall x, x ∈ l -> is_Some (h !! x)) -> StronglySorted (node_lt h) l ->
  monotone (fun this => r ← hev_task_timer_node_cmp h n this; Some (r <? 0)) l.
Proof.
  intros Hn Hnl. induction l as [|x l IH]; intros Hdom Hs; [by exists [], []; split; [|split; constructor]|]. apply StronglySorted_cons in Hs as [Hf Hs].
  assert (Hb : forall y, y ∈ x :: l -> exists r, hev_task_timer_node_cmp h n y = Some r /\ (r < 0 <-> node_lt h n y)).
  { intros y Hy. destruct (Hdom y Hy) as [ny Hny]. destruct (node_cmp_ok h n y nd ny Hn Hny) as (r & ? & ? & _). eauto. }
  destruct (Hb x ltac:(set_solver)) as (r & Er & Hr). rewrite Forall_forall in Hf. destruct (Z.ltb_spec r 0) as [Hlt|Hge].
  - exists [], (x :: l). split; [done|]. split; [constructor|]. apply Forall_forall. intros y Hy. destruct (Hb y Hy) as (ry & Ery & Hry). rewrite Ery. cbn. f_equal. apply Z.ltb_lt. apply Hry. apply elem_of_cons in Hy as [->|Hy]; [by apply Hr|]. eapply node_lt_trans; [by apply Hr|by apply Hf].
  - destruct IH as (l1 & l2 & -> & H1 & H2); [set_solver|intros; apply Hdom; set_solver|done|]. exists (x :: l1), l2. split; [done|]. split; [|done]. constructor; [|done]. rewrite Er. cbn. f_equal. by apply Z.ltb_ge.
Qed.

(** A new node is put into the sequence. *)
Lemma timer_insert_ok h tr l n nd : sequence l tr -> StronglySorted (node_lt h) l -> (forall x, x ∈ l -> is_Some (h !! x)) -> aligned n -> h !! n = None -> let h' := <[n := nd]> h in
  exists l1 l2 tr', l = l1 ++ l2 /\ insert_below (fun this => r ← hev_task_timer_node_cmp h' n this; Some (r <? 0)) n tr = Some (tr', bool_decide (l1 = [])) /\ sequence (l1 ++ n :: l2) tr' /\ StronglySorted (node_lt h') (l1 ++ n :: l2).
Proof.
  intros Hseq Hs Hdom Hal Hn h'. assert (Hnl : n ∉ l) by (intros [? ?]%Hdom; congruence). assert (Hn' : h' !! n = Some nd) by apply lookup_insert_eq.
  assert (He : forall x, x ∈ l -> h' !! x = h !! x) by (intros x Hx; apply lookup_insert_ne; intros ->; done). assert (Hs' : StronglySorted (node_lt h') l) by by apply (nodes_sorted h).
  assert (Hdom' : forall x, x ∈ l -> is_Some (h' !! x)) by (intros x Hx; rewrite He by done; by apply Hdom).
  destruct (insert_below_ok _ n tr l Hseq (timers_monotone h' n nd l Hn' Hnl Hdom' Hs') Hal Hnl) as (l1 & l2 & tr' & -> & [H1 H2] & E & Hseq'). exists l1, l2, tr'. split_and!; try done.
  rewrite Forall_forall in H1, H2. apply StronglySorted_app in Hs' as (H12 & S1 & S2). apply StronglySorted_app. split; [|split; [done|]].
  - intros x y Hx [->|Hy]%elem_of_cons; [|by apply H12]. destruct (Hdom' x ltac:(set_solver)) as [nx Hx']. destruct (node_cmp_ok h' n x nd nx Hn' Hx') as (r & Er & Hneg & Hpos). specialize (H1 x Hx). rewrite Er in H1. injection H1 as H1. apply Z.ltb_ge in H1.
    apply Hpos. assert (r <> 0); [|lia]. intros ->. unfold hev_task_timer_node_cmp in Er. rewrite Hn', Hx' in Er. cbn in Er. destruct (hev_task_timer_cmp (expire nd) (expire nx) =? 0) eqn:E0; cbn in Er; [|by injection Er as Er; rewrite Er in E0]. assert (x <> n) by (intros ->; set_solver). repeat case_match; rewrite ?Z.ltb_lt, ?Z.ltb_ge in *; simplify_eq; lia.
  - apply StronglySorted_cons. split; [|done]. apply Forall_forall. intros x Hx. destruct (Hdom' x ltac:(set_solver)) as [nx Hx']. destruct (node_cmp_ok h' n x nd nx Hn' Hx') as (r & Er & Hneg & _). specialize (H2 x Hx). rewrite Er in H2. injection H2 as H2. apply Z.ltb_lt in H2. by apply Hneg.
Qed.

Definition normal (ts : timespec) : Prop := 0 <= tv_nsec ts < 1000000000.

(** A task sleeps at least a moment. *)
Lemma expire_later curr ms : normal curr -> 0 < ms -> time_lt curr (hev_task_timer_get_expire curr ms).
Proof.
  intros Hn Hms. unfold hev_task_timer_get_expire, time_lt, normal in *. pose proof (Z.div_mod ms 1000). pose proof (Z.mod_pos_bound ms 1000). case_match; rewrite ?Z.ltb_lt, ?Z.ltb_ge in *; cbn; lia.
Qed.

(** [lt]: the nodes of the sleeping tasks, by expiry. *)
Record timers_ok (c : Ctx) (ps : gmap Z pc) (lt : list Z) : Prop := mkTimers {
  t_seq : sequence lt (sort_tree c);
  t_dom n : n ∈ lt <-> is_Some (timer_nodes c !! n);
  t_sorted : StronglySorted (node_lt (timer_nodes c)) lt;
  t_node n nd : timer_nodes c !! n = Some nd -> 0 <= tv_nsec (expire nd) <= 1000000000 /\ exists lm, ps !! node_task nd = Some (InSleep n lm);
  t_sleep t n lm : ps !! t = Some (InSleep n lm) -> exists nd, timer_nodes c !! n = Some nd /\ node_task nd = t
}.

Record joins_ok (h : gmap Z HevTask) (ps : gmap Z pc) : Prop := mkJoins {
  j_alive t p : ps !! t = Some p -> exists k, h !! t = Some k /\ state k <> HEV_TASK_STOPPED;
  j_target t u : ps !! t = Some (InJoin u) -> is_Some (h !! u);
  j_joiner t k : h !! t = Some k -> state k <> HEV_TASK_STOPPED -> joiner k <> 0 -> ps !! joiner k = Some (InJoin t)
}.

Definition core (c : Ctx) (ps : gmap Z pc) (l w lt : list Z) : Prop := sched c l w /\ timers_ok c ps lt /\ joins_ok (tasks c) ps.

(** When the first sleeping task has slept enough at [curr], then it is one of [P]. *)
Definition prompt (c : Ctx) (lt : list Z) (curr : timespec) (P : Z -> Prop) : Prop :=
  match lt with [] => True | n :: _ => forall nd, timer_nodes c !! n = Some nd -> time_le (expire nd) curr -> P (node_task nd) end.

(** Outside of the scheduler there is no current task; a running task is the first of the queue; the reactor is
    polled only while there are tasks. *)
Definition mode_ok (s : system) (l : list Z) : Prop :=
  match at_ s with Outside => current_task (context s) = 0 | Polling => 0 < total_task_count (context s) | InTask => head l = Some (current_task (context s)) end.

Record inv (s : system) (l w lt : list Z) : Prop := mkInv {
  i_core : core (context s) (pcs s) l w lt;
  i_prompt : prompt (context s) lt (checked s) (fun x => x ∈ l);
  i_mode : mode_ok s l
}.

(** ** Changes of the tasks *)

Definition alive (h : gmap Z HevTask) (x : Z) : Prop := exists k, h !! x = Some k /\ state k <> HEV_TASK_STOPPED.

(** Those that wait for others stay alive, those that they wait for exist, and no task gets a joiner. *)
Record keeps (h h' : gmap Z HevTask) (ps : gmap Z pc) : Prop := mkKeeps {
  k_alive x p : ps !! x = Some p -> alive h x -> alive h' x;
  k_target t x : ps !! t = Some (InJoin x) -> is_Some (h !! x) -> is_Some (h' !! x);
  k_joiner x k' : h' !! x = Some k' -> state k' <> HEV_TASK_STOPPED -> joiner k' <> 0 -> exists k, h !! x = Some k /\ state k <> HEV_TASK_STOPPED /\ joiner k = joiner k'
}.

Lemma joins_keeps h h' ps : joins_ok h ps -> keeps h h' ps -> joins_ok h' ps.
Proof.
  intros [J1 J2 J3] [K1 K2 K3]. split.
  - intros t p Hp. by apply (K1 t p Hp), (J1 t p).
  - intros t u Hp. by apply (K2 t u Hp), (J2 t u).
  - intros t k' Hk' Hst Hj. destruct (K3 t k' Hk' Hst Hj) as (k & Hk & Hst0 & Ej). rewrite <- Ej in *. by apply (J3 t k).
Qed.

Lemma timers_frame c c' ps lt : timers_ok c ps lt -> sort_tree c' = sort_tree c -> timer_nodes c' = timer_nodes c -> timers_ok c' ps lt.
Proof. intros [T1 T2 T3 T4 T5] E1 E2. split; rewrite ?E1, ?E2; done. Qed.

Lemma prompt_frame c c' lt curr (P Q : Z -> Prop) : prompt c lt curr P -> timer_nodes c' = timer_nodes c -> (forall x, P x -> Q x) -> prompt c' lt curr Q.
Proof. unfold prompt. intros H E Hi. destruct lt as [|n lt]; [done|]. rewrite E. eauto. Qed.

(** A step of the queue that leaves the timers alone. *)
Lemma core_keeps c c' ps l l' w w' lt : core c ps l w lt -> sched c' l' w' -> keeps (tasks c) (tasks c') ps -> sort_tree c' = sort_tree c -> timer_nodes c' = timer_nodes c -> core c' ps l' w' lt.
Proof. intros (Hs & Ht & Hj) Hs' Hk E1 E2. split; [done|]. split; [by apply (timers_frame c)|by apply (joins_keeps (tasks c))]. Qed.

Lemma grows_keeps c l c' l' a ps : grows c l c' l' a -> (forall x k, a x -> tasks c !! x = Some k -> state k <> HEV_TASK_STOPPED \/ joiner k = 0) -> keeps (tasks c) (tasks c') ps.
Proof.
  intros Hg Ha. split.
  - intros x p _ (k & Hk & Hst). destruct (g_old _ _ _ _ _ Hg x k Hk) as (k' & Hk' & _ & _ & _ & [->|(_ & _ & S & _)]); [by exists k|exists k'; split; [done|by rewrite S]].
  - intros t x _ [k Hk]. destruct (g_old _ _ _ _ _ Hg x k Hk) as (k' & Hk' & _). by exists k'.
  - intros x k' Hk' Hst Hj. destruct (tasks c !! x) as [k|] eqn:Hk; [|by rewrite (g_dom _ _ _ _ _ Hg x Hk) in Hk']. exists k. split; [done|]. destruct (g_old _ _ _ _ _ Hg x k Hk) as (k1 & Hk1 & J & _ & _ & [->|(A & _ & S & _)]); simplify_eq; [done|].
    destruct (Ha x k A Hk); [done|congruence].
Qed.

Lemma keeps_insert h t k k' ps : h !! t = Some k -> (state k <> HEV_TASK_STOPPED -> state k' <> HEV_TASK_STOPPED) -> joiner k' = joiner k -> (state k' <> HEV_TASK_STOPPED -> joiner k <> 0 -> state k <> HEV_TASK_STOPPED) -> keeps h (<[t := k']> h) ps.
Proof.
  intros Hk Hst Hj Hnew. split.
  - intros x p _ (k0 & Hk0 & Hst0). unfold alive. destruct (decide (x = t)) as [->|Hx]; [rewrite lookup_insert_eq; simplify_eq; eauto|rewrite lookup_insert_ne by done; eauto].
  - intros u x _ [k0 Hk0]. destruct (decide (x = t)) as [->|Hx]; [rewrite lookup_insert_eq; eauto|rewrite lookup_insert_ne by done; eauto].
  - intros x k0. destruct (decide (x = t)) as [->|Hx]; [rewrite lookup_insert_eq; intros [= <-] ? ?; exists k; split; [done|]; split; [apply Hnew; congruence|done]|rewrite lookup_insert_ne by done; eauto].
Qed.

Lemma keeps_new h t k ps : h !! t = None -> state k = HEV_TASK_STOPPED -> keeps h (<[t := k]> h) ps.
Proof.
  intros Hk Hst. split.
  - intros x p _ (k0 & Hk0 & Hst0). exists k0. rewrite lookup_insert_ne by congruence. done.
  - intros u x _ [k0 Hk0]. rewrite lookup_insert_ne by congruence. eauto.
  - intros x k0. destruct (decide (x = t)) as [->|Hx]; [rewrite lookup_insert_eq; by intros [= <-]|rewrite lookup_insert_ne by done; eauto].
Qed.

(** A task that waits for nothing stops, or is freed when nobody waits for it. *)
Lemma keeps_free h t ps : ps !! t = None -> (forall x, ps !! x <> Some (InJoin t)) -> keeps h (delete t h) ps.
Proof.
  intros Hp Hj. split.
  - intros x p Hx (k0 & Hk0 & Hst0). exists k0. rewrite lookup_delete_ne by congruence. done.
  - intros u x Hu [k0 Hk0]. rewrite lookup_delete_ne by (intros ->; by apply (Hj u)). eauto.
  - intros x k0 Hk0 Hst Hj0. apply lookup_delete_Some in Hk0 as [_ Hk0]. eauto.
Qed.

Lemma keeps_stop h t k k' ps : h !! t = Some k -> ps !! t = None -> state k' = HEV_TASK_STOPPED -> keeps h (<[t := k']> h) ps.
Proof.
  intros Hk Hp Hst. split.
  - intros x p Hx (k0 & Hk0 & Hst0). exists k0. rewrite lookup_insert_ne by congruence. done.
  - intros u x _ [k0 Hk0]. destruct (decide (x = t)) as [->|Hx]; [rewrite lookup_insert_eq; eauto|rewrite lookup_insert_ne by done; eauto].
  - intros x k0. destruct (decide (x = t)) as [->|Hx]; [rewrite lookup_insert_eq; by intros [= <-]|rewrite lookup_insert_ne by done; eauto].
Qed.

(** ** Changes of the program counters *)

Lemma joins_begin h ps me p : joins_ok h ps -> alive h me -> match p with InJoin u => is_Some (h !! u) | InSleep _ _ => True end ->
  (forall x k, h !! x = Some k -> state k <> HEV_TASK_STOPPED -> joiner k = me -> me <> 0 -> p = InJoin x) -> joins_ok h (<[me := p]> ps).
Proof.
  intros [J1 J2 J3] Ha Hu Hx. split.
  - intros t q [[<- <-]|[_ Hq]]%lookup_insert_Some; [done|by apply (J1 t q)].
  - intros t u [[<- ->]|[_ Hq]]%lookup_insert_Some; [done|by apply (J2 t u)].
  - intros t k Hk Hst Hj. destruct (decide (joiner k = me)) as [E|E]; [|rewrite lookup_insert_ne by done; by apply (J3 t k)]. rewrite E, lookup_insert_eq. f_equal. apply (Hx t k Hk Hst E). congruence.
Qed.

Lemma joins_end h ps me : joins_ok h ps -> (forall x k, h !! x = Some k -> state k <> HEV_TASK_STOPPED -> joiner k = me -> me = 0) -> joins_ok h (delete me ps).
Proof.
  intros [J1 J2 J3] Hx. split.
  - intros t q [_ Hq]%lookup_delete_Some. by apply (J1 t q).
  - intros t u [_ Hq]%lookup_delete_Some. by apply (J2 t u).
  - intros t k Hk Hst Hj. rewrite lookup_delete_ne; [by apply (J3 t k)|]. intros E. apply Hj. rewrite <- E. eapply Hx; eauto.
Qed.

Lemma timers_other c ps ps' lt me : timers_ok c ps lt -> (forall n lm, ps !! me <> Some (InSleep n lm)) -> (forall n lm, ps' !! me <> Some (InSleep n lm)) -> (forall x, x <> me -> ps' !! x = ps !! x) -> timers_ok c ps' lt.
Proof.
  intros [T1 T2 T3 T4 T5] H H' He. split; try done.
  - intros n nd Hn. destruct (T4 n nd Hn) as (B & lm & Hp). split; [done|]. exists lm. rewrite He; [done|]. intros E. rewrite E in Hp. by apply (H n lm).
  - intros t n lm Hp. apply (T5 t n lm). rewrite <- He; [done|]. intros ->. by apply (H' n lm).
Qed.

(** ** The operations of the timers *)

Lemma timer_first c ps lt : timers_ok c ps lt -> hev_rbtree_cached_first (sort_tree c) = default 0 (head lt) /\ forall n, n ∈ lt -> n <> 0 /\ aligned n.
Proof. intros Ht. destruct (t_seq _ _ _ Ht) as (_ & _ & Hal & E). split; [done|]. rewrite Forall_forall in Hal. intros n Hn. destruct (Hal n Hn). by split. Qed.

Lemma timer_first_node c ps n lt : timers_ok c ps (n :: lt) -> exists nd, timer_nodes c !! n = Some nd /\ (n =? 0) = false.
Proof. intros Ht. destruct (proj1 (t_dom _ _ _ Ht n)) as [nd Hnd]; [set_solver|]. exists nd. split; [done|]. destruct (timer_first _ _ _ Ht) as [_ H]. apply Z.eqb_neq. by apply (H n); set_solver. Qed.

(** The first sleeping task is woken when it has slept enough. *)
Lemma timer_wakeup_ok c ps l w lt curr : core c ps l w lt -> low c l ->
  exists c' l' w', hev_task_timer_wakeup curr c = Some c' /\ core c' ps l' w' lt /\ low c' l' /\ prompt c' lt curr (fun x => x ∈ l') /\ (exists a, grows c l c' l' a) /\ total_task_count c' = total_task_count c.
Proof.
  intros Hc Hl. pose proof Hc as (Hs & Ht & Hj). unfold hev_task_timer_wakeup. destruct (timer_first _ _ _ Ht) as [-> Hal].
  assert (Hskip : exists a, grows c l c l a) by (exists (fun _ => True); apply grows_refl). destruct lt as [|n lt]; cbn [head default from_option].
  { exists c, l, w. done. }
  unfold id. destruct (timer_first_node _ _ _ _ Ht) as (nd & Hnd & En). rewrite En, Hnd. cbn [mbind option_bind]. destruct (Z.ltb_spec (hev_task_timer_cmp curr (expire nd)) 0) as [Hlt|Hge].
  - exists c, l, w. split_and!; try done. cbn. intros nd' Hnd' Hle. exfalso. rewrite Hnd in Hnd'. injection Hnd' as <-. by apply Hle, timer_cmp_neg.
  - destruct (t_node _ _ _ Ht n nd Hnd) as (_ & lm & Hp). destruct (j_alive _ _ Hj _ _ Hp) as (k & Hk & Hst). destruct (wakeup_ok c l w _ k Hs Hl Hk Hst) as (c' & l' & w' & E & Hs' & Hl' & Hg & Hin & Etot).
    destruct (g_frame _ _ _ _ _ Hg) as (F1 & F2 & F3). exists c', l', w'. split; [done|]. split; [|split; [done|]; split; [|split; [by eexists|done]]].
    + apply (core_keeps c c' ps l l' w w' (n :: lt) Hc Hs'); [|done..]. apply (grows_keeps c l c' l' _ ps Hg). intros x k0 -> Hk0. left. congruence.
    + cbn. rewrite F3. intros nd' Hnd' _. rewrite Hnd in Hnd'. by injection Hnd' as <-.
Qed.

(** The current task goes to sleep: its node is not due. *)
Lemma sleep_begin_ok c ps l w lt me node ms curr ck : core c ps l w lt -> alive (tasks c) me -> ps !! me = None -> aligned node -> timer_nodes c !! node = None -> normal curr -> 0 < ms -> time_le ck curr -> prompt c lt ck (fun x => x ∈ l) ->
  exists lm c' lt', timer_wait_begin node ms curr me c = Some (lm, c') /\ core c' (<[me := InSleep node lm]> ps) l w lt' /\ prompt c' lt' ck (fun x => x ∈ l /\ x <> me)
    /\ tasks c' = tasks c /\ total_task_count c' = total_task_count c /\ current_task c' = current_task c.
Proof.
  intros (Hs & Ht & Hj) Ha Hme Hal Hfresh Hn Hms Hck Hp. unfold timer_wait_begin. set (nd := mkTimerNode (hev_task_timer_get_expire curr ms) me). set (h := <[node := nd]> (timer_nodes c)).
  destruct (timer_insert_ok (timer_nodes c) (sort_tree c) lt node nd (t_seq _ _ _ Ht) (t_sorted _ _ _ Ht)) as (l1 & l2 & tr & -> & E & Hseq & Hso); [intros x Hx; by apply (t_dom _ _ _ Ht)|done..|]. fold h in E, Hso. rewrite E. cbn [mbind option_bind].
  eexists _, _, (l1 ++ node :: l2). split; [done|]. split; [|split; [|done]].
  - split; [by destruct Hs as [S1 S2 S3 S4 S5 S6]; split|]. split.
    + split; cbn [sort_tree timer_nodes set_timers]; try done.
      * intros n. unfold h. destruct (decide (n = node)) as [->|Hne]; [rewrite lookup_insert_eq; split; [eauto|set_solver]|]. rewrite lookup_insert_ne by done. rewrite <- (t_dom _ _ _ Ht n). set_solver.
      * intros n nd' [[<- <-]|[Hne Hn']]%lookup_insert_Some; [split; [|exists (bool_decide (l1 = [])); by rewrite lookup_insert_eq]|destruct (t_node _ _ _ Ht n nd' Hn') as (B & lm & Hpn); split; [done|exists lm; rewrite lookup_insert_ne by congruence; done]].
        unfold nd, hev_task_timer_get_expire, normal in *. pose proof (Z.mod_pos_bound ms 1000). cbn. case_match; rewrite ?Z.ltb_lt, ?Z.ltb_ge in *; cbn; lia.
      * intros t n lm [[<- [= <- <-]]|[Hne Hpt]]%lookup_insert_Some; [exists nd; split; [apply lookup_insert_eq|done]|]. destruct (t_sleep _ _ _ Ht t n lm Hpt) as (nd' & Hnd' & Et). exists nd'. split; [|done]. unfold h. rewrite lookup_insert_ne by congruence. done.
    + cbn. apply joins_begin; try done. intros x k Hk Hst Hjx H0. pose proof (j_joiner _ _ Hj x k Hk Hst) as H. rewrite Hjx in H. specialize (H H0). congruence.
  - destruct l1 as [|y l1]; cbn [app prompt timer_nodes set_timers].
    + intros nd' Hnd' Hle. exfalso. unfold h in Hnd'. rewrite lookup_insert_eq in Hnd'. injection Hnd' as <-. pose proof (expire_later curr ms Hn Hms) as Hlt. cbn in Hle. unfold time_le, time_lt in *. lia.
    + intros nd' Hnd' Hle. unfold h in Hnd'. assert (Hy : y <> node) by (intros ->; destruct (proj1 (t_dom _ _ _ Ht node)); [set_solver|congruence]). rewrite lookup_insert_ne in Hnd' by done. split; [by apply Hp|]. destruct (t_node _ _ _ Ht y nd' Hnd') as (_ & lm & Hpn). congruence.
Qed.

(** It goes on: its node is taken out, and the next one is looked at when it was the first. *)
Lemma sleep_end_ok c ps l w lt me node lm curr ck : core c ps l w lt -> low c l -> ps !! me = Some (InSleep node lm) -> prompt c lt ck (fun x => x ∈ l) ->
  exists r c' l' w' lt', timer_wait_end node lm curr c = Some (r, c') /\ core c' (delete me ps) l' w' lt'
    /\ prompt c' lt' (if lm || (node =? hev_rbtree_cached_first (sort_tree c)) then curr else ck) (fun x => x ∈ l') /\ (exists a, grows (set_timers (sort_tree c') (timer_nodes c') c) l c' l' a) /\ total_task_count c' = total_task_count c.
Proof.
  intros (Hs & Ht & Hj) Hl Hme Hp. unfold timer_wait_end. destruct (t_sleep _ _ _ Ht me node lm Hme) as (nd & Hnd & Etask). rewrite Hnd. cbn [mbind option_bind]. assert (Hin : node ∈ lt) by (apply (t_dom _ _ _ Ht); eauto).
  pose proof Hin as (l1 & l2 & El)%list_elem_of_split. subst lt. destruct (erase_sequence_ok node (sort_tree c) l1 l2 (t_seq _ _ _ Ht)) as (tr & Er & Hseq). rewrite Er. cbn [mbind option_bind].
  assert (Hnd1 : NoDup (l1 ++ node :: l2)) by apply (t_seq _ _ _ Ht). assert (Hnl : node ∉ l1 ++ l2) by (rewrite <- Permutation_middle in Hnd1; by apply NoDup_cons in Hnd1 as [? _]).
  set (c1 := set_timers tr (delete node (timer_nodes c)) c). assert (Hs1 : sched c1 l w) by by destruct Hs as [S1 S2 S3 S4 S5 S6]; split.
  assert (Hc1 : core c1 (delete me ps) l w (l1 ++ l2)).
  { split; [done|]. split; [split; unfold c1; cbn [sort_tree timer_nodes set_timers]; try done|].
    - intros n. destruct (decide (n = node)) as [->|Hne]; [rewrite lookup_delete_eq; split; [done|by intros []]|]. rewrite lookup_delete_ne by done. rewrite <- (t_dom _ _ _ Ht n). set_solver.
    - apply (nodes_sorted (timer_nodes c)); [intros n Hn; apply lookup_delete_ne; by intros <-|]. pose proof (t_sorted _ _ _ Ht) as Hso. rewrite StronglySorted_app in *. destruct Hso as (H12 & H1 & [_ H2]%StronglySorted_cons). split; [intros; apply H12; set_solver|done].
    - intros n nd' [Hne Hn']%lookup_delete_Some. destruct (t_node _ _ _ Ht n nd' Hn') as (B & lm' & Hpn). split; [done|]. exists lm'. rewrite lookup_delete_ne by congruence. done.
    - intros t n lm' [Hne Hpt]%lookup_delete_Some. destruct (t_sleep _ _ _ Ht t n lm' Hpt) as (nd' & Hnd' & Et). exists nd'. split; [|done]. rewrite lookup_delete_ne by congruence. done.
    - unfold c1. cbn. apply joins_end; [done|]. intros x k Hk Hst Hjx. destruct (decide (me = 0)) as [|H0]; [done|]. pose proof (j_joiner _ _ Hj x k Hk Hst) as H. rewrite Hjx in H. specialize (H H0). congruence. }
  destruct (timer_first _ _ _ Ht) as [-> _]. destruct (lm || (node =? default 0 (head (l1 ++ node :: l2)))) eqn:Eb.
  - destruct (timer_wakeup_ok c1 (delete me ps) l w (l1 ++ l2) curr Hc1 Hl) as (c' & l' & w' & E & Hc' & _ & Hp' & (a & Hg) & Htot). rewrite E. cbn [mbind option_bind]. eexists _, c', l', w', (l1 ++ l2). split; [done|]. split; [done|]. split; [done|]. split; [|done]. exists a. destruct (g_frame _ _ _ _ _ Hg) as (F1 & F2 & F3). by rewrite F2, F3.
  - cbn [mbind option_bind]. eexists _, c1, l, w, (l1 ++ l2). split; [done|]. split; [done|]. split; [|split; [exists (fun _ => True); apply grows_refl|done]]. destruct l1 as [|y l1]; [by cbn in Eb; unfold id in Eb; rewrite Z.eqb_refl, orb_true_r in Eb|]. cbn in *. intros nd' Hnd'. apply Hp. by apply lookup_delete_Some in Hnd' as [_ ?].
Qed.

(** ** How long a task waits for others *)

(** The current task, when one runs. *)
Definition cur_of (s : system) : option Z := match at_ s with InTask => Some (current_task (context s)) | _ => None end.

(** [x] is in the queue and does not run. *)
Definition waits (l : list Z) (o : option Z) (x : Z) : Prop := x ∈ l /\ o <> Some x.

(** The task at [y], if there is one, does not run for free. *)
Definition positive (h : gmap Z HevTask) (y : Z) : Prop :=
  forall k, h !! y = Some k -> 1 <= next_priority k /\ (state k = HEV_TASK_RUNNING -> 1 <= priority k) /\ (state k = HEV_TASK_WAITING -> 1 <= sched_key k).

(** A bound for the key with which [y] runs the next time. *)
Definition due (c : Ctx) (l : list Z) (o : option Z) (y : Z) : Z :=
  if decide (o = Some y) then key_of (tasks c) y + 1 else if decide (y ∈ l) then key_of (tasks c) y else min_key c l + 1.

(** While [x] waits, [y] does not come nearer. *)
Definition adv (x y : Z) (c : Ctx) (l : list Z) (o : option Z) (c' : Ctx) (l' : list Z) (o' : option Z) : Prop :=
  waits l o x -> positive (tasks c) y -> waits l' o' x /\ positive (tasks c') y /\ key_of (tasks c') x = key_of (tasks c) x /\ due c l o y <= due c' l' o' y.

Lemma adv_refl x y c l o : adv x y c l o c l o.
Proof. intros Hw Hp. split_and!; done. Qed.

Lemma adv_trans x y c l o c1 l1 o1 c2 l2 o2 : adv x y c l o c1 l1 o1 -> adv x y c1 l1 o1 c2 l2 o2 -> adv x y c l o c2 l2 o2.
Proof. intros H1 H2 Hw Hp. destruct (H1 Hw Hp) as (W1 & P1 & K1 & D1). destruct (H2 W1 P1) as (W2 & P2 & K2 & D2). split_and!; try done; [congruence|lia]. Qed.

Lemma due_tasks c c' l o y : (forall z, z ∈ l \/ o = Some z -> key_of (tasks c') z = key_of (tasks c) z) -> due c' l o y = due c l o y.
Proof.
  intros He. assert (Em : min_key c' l = min_key c l) by (destruct l as [|z l]; [done|]; cbn; apply He; set_solver). unfold due. rewrite Em. case_decide; [by rewrite He by auto|]. case_decide; [by rewrite He by auto|done].
Qed.

(** Nothing happens to the queue. *)
Lemma adv_view x y c l w o c' : sched c l w -> (forall z, o = Some z -> z ∈ l) -> (forall z, view (tasks c') z = view (tasks c) z) -> (positive (tasks c) y -> positive (tasks c') y) -> adv x y c l o c' l o.
Proof.
  intros Hs Ho Hv Hp Hw Hpy. assert (He : forall z, z ∈ l -> key_of (tasks c') z = key_of (tasks c) z).
  { intros z (key & E)%(s_run _ _ _ Hs)%view_state; [|done]. rewrite (view_key _ _ _ _ E). rewrite <- Hv in E. by apply view_key in E. }
  split; [done|]. split; [by apply Hp|]. split; [apply He, Hw|]. rewrite (due_tasks c c' l o y); [done|]. intros z [Hz|Hz]; apply He; auto.
Qed.

Lemma adv_grows x y c l w o c' l' w' a : sched c l w -> sched c' l' w' -> (forall z, o = Some z -> z ∈ l) -> grows c l c' l' a -> adv x y c l o c' l' o.
Proof.
  intros Hs Hs' Ho Hg [Hx Hox] Hp. assert (Hne : l <> []) by by intros ->; apply elem_of_nil in Hx. split; [split; [by apply (g_sub _ _ _ _ _ Hg)|done]|].
  assert (Hpos : positive (tasks c') y).
  { intros k' Hk'. destruct (tasks c !! y) as [k|] eqn:Hk; [|by rewrite (g_dom _ _ _ _ _ Hg y Hk) in Hk']. destruct (Hp k Hk) as (P1 & P2 & P3). destruct (g_old _ _ _ _ _ Hg y k Hk) as (k1 & Hk1 & _ & _ & Nn & H). rewrite Hk1 in Hk'. injection Hk' as ->. destruct H as [->|(_ & _ & S & Pr & _)]; [done|]. by rewrite Nn, S, Pr. }
  split; [done|]. split; [by apply (grows_key c l c' l' a w)|]. unfold due. rewrite (grows_min c l c' l' a w Hs Hg Hne). case_decide as Eo.
  { by rewrite (grows_key c l c' l' a w y Hs Hg) by auto. }
  destruct (decide (y ∈ l)) as [Hy|Hy]; [rewrite decide_True by (by apply (g_sub _ _ _ _ _ Hg)); by rewrite (grows_key c l c' l' a w y Hs Hg Hy)|]. case_decide as Hy'; [|done].
  destruct (sched_dom _ _ _ y Hs' Hy') as (k' & Hk' & Es'). destruct (tasks c !! y) as [k|] eqn:Hk; [|by rewrite (g_dom _ _ _ _ _ Hg y Hk) in Hk'].
  destruct (g_old _ _ _ _ _ Hg y k Hk) as (k1 & Hk1 & _ & _ & _ & H). rewrite Hk1 in Hk'. injection Hk' as ->. destruct (Hp k Hk) as (P1 & P2 & P3). assert (Hst : state k <> HEV_TASK_RUNNING) by (intros E; apply Hy, (s_run _ _ _ Hs); by exists k).
  destruct H as [->|(_ & _ & _ & _ & K)]; [done|]. unfold key_of. rewrite Hk1. unfold share in K. destruct (state k); [lia|done|specialize (P3 eq_refl); lia].
Qed.

(** The current task is switched away. *)
Lemma adv_switch x y c cur l w c' l' w' : sched c (cur :: l) w -> sched c' l' w' -> (forall z, z ∈ l -> z ∈ l' /\ key_of (tasks c') z = key_of (tasks c) z) -> (forall z, z ∈ l' -> z = cur \/ z ∈ l) ->
  (cur ∈ l' -> key_of (tasks c) cur <= key_of (tasks c') cur) -> (cur ∈ l' -> y = cur -> positive (tasks c) y -> key_of (tasks c) cur + 1 <= key_of (tasks c') cur) -> (positive (tasks c) y -> positive (tasks c') y) ->
  adv x y c (cur :: l) (Some cur) c' l' None.
Proof.
  intros Hs Hs' Hl Hl' Hc Hcy Hpos [Hx Hox] Hp. assert (Hxl : x ∈ l) by (apply elem_of_cons in Hx as [->|?]; done). destruct (Hl x Hxl) as [Hx' Ex]. split; [by split|]. split; [by apply Hpos|]. split; [done|].
  assert (Hmin : key_of (tasks c) cur <= min_key c' l').
  { destruct l' as [|z l']; [by apply elem_of_nil in Hx'|]. cbn. destruct (Hl' z) as [->|Hz]; [set_solver|apply Hc; set_solver|]. rewrite (proj2 (Hl z Hz)). apply (sorted_all _ _ _ _ (s_sorted _ _ _ Hs)). set_solver. }
  unfold due. rewrite (decide_False (P := None = Some y)) by done. cbn [min_key]. destruct (decide (Some cur = Some y)) as [[= <-]|Hy].
  - case_decide; [by apply Hcy|lia].
  - destruct (decide (y ∈ cur :: l)) as [Hin|Hin].
    + assert (Hyl : y ∈ l) by (apply elem_of_cons in Hin as [->|?]; done). destruct (Hl y Hyl) as [Hy' Ey]. rewrite decide_True by done. lia.
    + rewrite decide_False; [lia|]. intros Hy'. apply Hin. destruct (Hl' y Hy'); set_solver.
Qed.

(** What a step does to [x] and [y]; [p]: the tasks that it picks. *)
Definition advance (x y : Z) (s : system) (l : list Z) (s' : system) (l' : list Z) (p : list Z) : Prop :=
  at_ s <> Outside -> waits l (cur_of s) x -> positive (tasks (context s)) y -> x ∉ p ->
  at_ s' <> Outside /\ waits l' (cur_of s') x /\ positive (tasks (context s')) y /\ key_of (tasks (context s')) x = key_of (tasks (context s)) x
  /\ due (context s) l (cur_of s) y + Z.of_nat (count_occ Z.eq_dec p y) <= due (context s') l' (cur_of s') y /\ (y ∈ p -> due (context s') l' (cur_of s') y = min_key (context s') l' + 1).

Lemma advance_call x y s l s' l' : at_ s' = at_ s -> adv x y (context s) l (cur_of s) (context s') l' (cur_of s') -> advance x y s l s' l' [].
Proof. intros Em H Hm Hw Hp _. destruct (H Hw Hp) as (W & P & K & D). split_and!; try done; [congruence|cbn; lia|by intros ?%elem_of_nil]. Qed.

(** The first of the queue is picked, or none yet. *)
Definition picked (c : Ctx) (l : list Z) (s' : system) (p : list Z) : Prop :=
  tasks (context s') = tasks c /\ (at_ s' = Outside -> l = []) /\ ((p = [] /\ cur_of s' = None) \/ exists n, p = [n] /\ head l = Some n /\ cur_of s' = Some n).

Lemma advance_pick x y s l c1 l1 s' p : adv x y (context s) l (cur_of s) c1 l1 None -> picked c1 l1 s' p -> advance x y s l s' l1 p.
Proof.
  intros H (Et & Hout & Hpk) _ Hw Hp Hx. destruct (H Hw Hp) as ([W1 _] & P & K & D). split; [intros E; specialize (Hout E); subst l1; by apply elem_of_nil in W1|]. rewrite Et. assert (Hm : min_key (context s') l1 = min_key c1 l1) by (destruct l1; [done|]; cbn; by rewrite Et).
  destruct Hpk as [[-> Eo]|(n & -> & Hh & Eo)]; rewrite Eo.
  - split; [by split|]. split; [done|]. split; [done|]. split; [|by intros ?%elem_of_nil]. cbn. unfold due in *. rewrite Et, Hm in *. lia.
  - destruct l1 as [|n' l1]; [done|]. injection Hh as ->. cbn [min_key]. unfold due in *. rewrite Et. cbn [min_key] in *. rewrite Et. split; [split; [done|intros [= ->]; set_solver]|]. split; [done|]. split; [done|]. rewrite (decide_False (P := None = Some y)) in D by done.
    cbn [count_occ]. destruct (Z.eq_dec n y) as [->|Hny].
    + rewrite (decide_True (P := Some y = Some y)) by done. rewrite (decide_True (P := y ∈ y :: l1)) in D by set_solver. split; [lia|done].
    + rewrite (decide_False (P := Some n = Some y)) by congruence. split; [lia|]. intros Hy%list_elem_of_singleton. by subst y.
Qed.
