(* ===== verification/TaskSchedRun.v ===== *)
(** * The task scheduler: its runs

    The contract of the calls, and what it gives: a run that respects it succeeds and keeps the invariant
    of [TaskSchedSafe]; a task in the queue is overtaken only so often; a task that has slept
    enough is in the queue. *)

From stdpp Require Import sorting.
From S2P Require Import Prelude CachedTree TaskSched TaskSchedSpec TaskSchedSafe.

#[local] Notation Ctx := HevTaskSystemContext.

(** ** The contract *)

#[export] Instance pc_eq_dec : EqDecision pc.
Proof. solve_decision. Defined.

Definition task_is (P : HevTask -> bool) (t : Z) (c : Ctx) : bool := match tasks c !! t with Some k => P k | None => false end.
Definition stopped (k : HevTask) : bool := bool_decide (state k = HEV_TASK_STOPPED).

(** Some task is inside [hev_task_join] of [t]. *)
Definition joined (t : Z) (s : system) : bool := negb (bool_decide (map_Forall (fun _ p => p <> InJoin t) (pcs s))).

(** A reference may be given up: there is another one, or the task has stopped and nobody joins it. *)
Definition may_unref (k : HevTask) (t : Z) (s : system) : bool := (1 <? ref_count k) || negb (joined t s).

(** Where functions of the library are called: outside of the scheduler, and in a task that is not inside a function. *)
Definition in_task (s : system) : bool := bool_decide (at_ s = InTask) && bool_decide (pcs s !! current_task (context s) = None).
Definition calling (s : system) : bool := bool_decide (at_ s = Outside) || in_task s.

(** Up to 18 years. *)
Definition runs (runtime : Z) : bool := (1 <=? runtime) && (runtime <=? 2 ^ 59).
Definition address (a : Z) : bool := negb (a =? 0) && (a mod 2 =? 0).
Definition later (s : system) (curr : timespec) : bool := negb (hev_task_timer_cmp curr (checked s) <? 0).

(** The key of the first task stays far below the width of a key. *)
Definition lowb (c : Ctx) : bool :=
  match hev_task_system_get_min_sched_key c with Some m => (m <? 2 ^ 63) && (Z.of_nat (size (tasks c)) <? 2 ^ 31) | None => false end.

Definition allowed (e : event) (s : system) : bool :=
  let c := context s in
  lowb c &&
  match e with
  | ENew t => calling s && address t && bool_decide (tasks c !! t = None)
  | ERef t => calling s && task_is (fun k => ref_count k <? 2 ^ 31 - 1) t c
  | EUnref t => calling s && task_is (fun k => (1 <? ref_count k) || (stopped k && negb (joined t s))) t c
  | ESetPriority t p => calling s && task_is (fun _ => true) t c
  | ERun t => calling s && task_is (fun k => negb (stopped k) || (joiner k =? 0)) t c
  | EWakeup t => calling s && task_is (fun k => negb (stopped k)) t c
  | ESchedule => bool_decide (at_ s = Outside)
  | EYield runtime | EWait runtime => in_task s && runs runtime
  | ESleep ms node curr runtime => in_task s && runs runtime && (0 <=? ms) && (ms <? 2 ^ 32) && address node && bool_decide (timer_nodes c !! node = None) && ((0 <=? tv_nsec curr) && (tv_nsec curr <? 1000000000)) && later s curr
  | EJoin t runtime => in_task s && runs runtime && task_is (fun _ => true) t c
  | EResume curr runtime => bool_decide (at_ s = InTask) && bool_decide (is_Some (pcs s !! current_task c)) && runs runtime && later s curr
  | EReturn | EExit => in_task s && task_is (fun k => may_unref k (current_task c) s) (current_task c) c
  | EPoll ts curr => bool_decide (at_ s = Polling) && forallb (fun t => task_is (fun k => negb (stopped k)) t c) ts && later s curr
  end.

(** Every event of a run is allowed where it happens. *)
Fixpoint respects (es : list event) (s : system) : bool :=
  match es with [] => true | e :: es => allowed e s && match step e s with Some (s, _) => respects es s | None => true end end.

Lemma task_is_spec P t c : task_is P t c = true <-> exists k, tasks c !! t = Some k /\ P k = true.
Proof. unfold task_is. destruct (tasks c !! t) as [k|]; [|naive_solver]. split; [eauto|by intros (k0 & [= <-] & ?)]. Qed.

Lemma stopped_spec k : stopped k = true <-> state k = HEV_TASK_STOPPED.
Proof. unfold stopped. apply bool_decide_eq_true. Qed.

Lemma not_joined t s : joined t s = false <-> forall x, pcs s !! x <> Some (InJoin t).
Proof. unfold joined. rewrite negb_false_iff, bool_decide_eq_true. split; [intros H x Hx; by apply (H x _ Hx)|intros H x p Hp ->; by apply (H x)]. Qed.

Lemma lowb_ok c l w : sched c l w -> lowb c = true -> low c l.
Proof. intros Hs. unfold lowb. rewrite (get_min_ok c l w Hs). rewrite andb_true_iff, !Z.ltb_lt. done. Qed.

Lemma address_ok a : address a = true -> aligned a.
Proof. unfold address, aligned. rewrite andb_true_iff, negb_true_iff, Z.eqb_neq, Z.eqb_eq. done. Qed.

Lemma later_ok s curr : later s curr = true -> time_le (checked s) curr.
Proof. unfold later. rewrite negb_true_iff, Z.ltb_ge. intros H Hlt%timer_cmp_neg. lia. Qed.

Lemma sched_runs_ok r : runs r = true -> 1 <= r <= 2 ^ 59.
Proof. unfold runs. rewrite andb_true_iff, !Z.leb_le. done. Qed.

(** ** Steps *)

(** The priority of [y] does not become that of a task which runs for free. *)
Definition gentle (y : Z) (e : event) : Prop := match e with ESetPriority t p => t = y -> 1 <= p | _ => True end.

(** The step succeeds, and what it leads to. *)
Definition good (e : event) (s : system) (l : list Z) : Prop :=
  exists s' p l' w' lt', step e s = Some (s', p) /\ inv s' l' w' lt' /\ forall x y, gentle y e -> advance x y s l s' l' p.

Lemma cur_in s l z : mode_ok s l -> cur_of s = Some z -> z ∈ l.
Proof. unfold mode_ok, cur_of. destruct (at_ s); [done|done|]. intros H [= <-]. destruct l as [|y l]; [done|]. injection H as ->. set_solver. Qed.

(** A call that does not switch. *)
Lemma call_good e f s l w lt c' l' w' : inv s l w lt -> step e s = call f s -> calling s = true -> f (context s) = Some c' -> sched c' l' w' -> keeps (tasks (context s)) (tasks c') (pcs s) ->
  sort_tree c' = sort_tree (context s) -> timer_nodes c' = timer_nodes (context s) -> current_task c' = current_task (context s) -> (forall x, x ∈ l -> x ∈ l') -> (at_ s = InTask -> l <> [] -> head l' = head l) ->
  (forall x y, at_ s <> Outside -> gentle y e -> adv x y (context s) l (cur_of s) c' l' (cur_of s)) -> good e s l.
Proof.
  intros [Hc Hp Hm] Es Hcall Ef Hs' Hk F1 F2 F3 Hsub Hh Ha. exists (set_context c' s), [], l', w', lt. unfold call in Es. rewrite Ef in Es. cbn [mbind option_bind] in Es. split; [done|]. split.
  - split; cbn [context pcs checked set_context].
    + by apply (core_keeps (context s) c' (pcs s) l l' w w' lt).
    + by apply (prompt_frame (context s) c' lt _ _ _ Hp F2).
    + unfold mode_ok in *. cbn. unfold calling, in_task in Hcall. destruct (at_ s) eqn:Em; [congruence|by cbn in Hcall|]. rewrite F3, Hh; [done|done|by intros ->].
  - intros x y Hg Hout. apply (advance_call x y s l (set_context c' s) l'); [done| |done]. assert (Eo : cur_of (set_context c' s) = cur_of s) by (unfold cur_of; cbn; by rewrite F3). rewrite Eo. by apply Ha.
Qed.

(** A call that the queue does not see. *)
Lemma quiet_good e f s l w lt h : inv s l w lt -> step e s = call f s -> calling s = true -> f (context s) = Some (set_tasks h (context s)) -> sched (set_tasks h (context s)) l w -> keeps (tasks (context s)) h (pcs s) ->
  (forall x, view h x = view (tasks (context s)) x) -> (forall y, gentle y e -> positive (tasks (context s)) y -> positive h y) -> good e s l.
Proof.
  intros Hi Es Hcall Ef Hs' Hk Hv Hp. apply (call_good e f s l w lt (set_tasks h (context s)) l w Hi Es Hcall Ef Hs' Hk); try done.
  intros x y _ Hg. apply (adv_view x y _ l w); [apply Hi|intros z; apply cur_in, Hi|done|by apply Hp].
Qed.

Lemma positive_insert h t k k' y : h !! t = Some k -> positive h y -> (y = t -> 1 <= next_priority k -> 1 <= next_priority k') -> priority k' = priority k -> sched_key k' = sched_key k -> state k' = state k -> positive (<[t := k']> h) y.
Proof. intros Hk Hp Hn Ep Ek Es k0 [[-> <-]|[_ H]]%lookup_insert_Some; [|by apply Hp]. rewrite Ep, Ek, Es. destruct (Hp k Hk) as (? & ? & ?). split_and!; auto. Qed.

(** The task at [t] is replaced by one of which the queue sees nothing. *)
Lemma replace_good e f s l w lt t k k' : inv s l w lt -> step e s = call f s -> calling s = true -> tasks (context s) !! t = Some k -> f (context s) = Some (set_tasks (<[t := k']> (tasks (context s))) (context s)) ->
  task_ok t k' -> sched_key k' = sched_key k -> state k' = state k -> joiner k' = joiner k -> priority k' = priority k -> (forall y, gentle y e -> y = t -> 1 <= next_priority k -> 1 <= next_priority k') -> good e s l.
Proof.
  intros Hi Es Hcall Hk Ef Hok E1 E2 E3 E4 Hn. pose proof (i_core _ _ _ _ Hi) as (Hs & _). apply (quiet_good e f s l w lt _ Hi Es Hcall Ef).
  - by apply (sched_replace _ l w t k).
  - apply (keeps_insert _ t k); [done|congruence|done|congruence].
  - intros x. destruct (decide (x = t)) as [->|Hx]; [rewrite view_insert; unfold view; rewrite Hk; cbn; by rewrite E1, E2|unfold view; by rewrite lookup_insert_ne by done].
  - intros y Hg Hp. apply (positive_insert _ t k); [done|done|by apply Hn|done..].
Qed.

Lemma new_good t s l w lt : inv s l w lt -> allowed (ENew t) s = true -> good (ENew t) s l.
Proof.
  intros Hi. pose proof (i_core _ _ _ _ Hi) as (Hs & _). unfold allowed. rewrite !andb_true_iff, bool_decide_eq_true. intros (_ & (Hcall & Hal%address_ok) & Hn). eapply (quiet_good _ (fun c => Some (hev_task_new t c)) s l w lt _ Hi); [done|done|done| | | |].
  - apply sched_new; [done|done| |done]. unfold task_ok. cbn. split_and!; try done; lia.
  - by apply keeps_new.
  - intros x. destruct (decide (x = t)) as [->|Hx]; [rewrite view_insert; unfold view; by rewrite Hn|unfold view; by rewrite lookup_insert_ne by done].
  - intros y _ Hp k [[_ <-]|[_ Hk]]%lookup_insert_Some; [|by apply Hp]. by split_and!.
Qed.

Lemma ref_good t s l w lt : inv s l w lt -> allowed (ERef t) s = true -> good (ERef t) s l.
Proof.
  intros Hi. pose proof (i_core _ _ _ _ Hi) as (Hs & _). unfold allowed. rewrite !andb_true_iff, task_is_spec. intros (_ & Hcall & k & Hk & _). destruct (s_task _ _ _ Hs t k Hk) as (Hal & Href & H). eapply (replace_good _ (hev_task_ref t) s l w lt t k _ Hi); [done|done|done|by apply update_eq| |done..].
  split; [done|]. split; [cbn; lia|done].
Qed.

Lemma set_priority_good t p s l w lt : inv s l w lt -> allowed (ESetPriority t p) s = true -> good (ESetPriority t p) s l.
Proof.
  intros Hi. pose proof (i_core _ _ _ _ Hi) as (Hs & _). unfold allowed. rewrite !andb_true_iff, task_is_spec. intros (_ & Hcall & k & Hk & _). destruct (s_task _ _ _ Hs t k Hk) as (Hal & Href & Hp & Hnp & H). eapply (replace_good _ (hev_task_set_priority t p) s l w lt t k _ Hi); [done|done|done|by apply update_eq| |done|done|done|done|].
  - unfold task_ok. cbn. split; [done|]; split; [done|]; split; [done|]; split; [|done]; unfold HEV_TASK_PRIORITY_MIN, HEV_TASK_PRIORITY_MAX; repeat case_match; rewrite ?Z.ltb_lt, ?Z.ltb_ge in *; lia.
  - intros y Hg -> _. cbn in *. specialize (Hg eq_refl). unfold HEV_TASK_PRIORITY_MIN, HEV_TASK_PRIORITY_MAX. repeat case_match; rewrite ?Z.ltb_lt, ?Z.ltb_ge in *; lia.
Qed.

Lemma unref_good t s l w lt : inv s l w lt -> allowed (EUnref t) s = true -> good (EUnref t) s l.
Proof.
  intros Hi. pose proof (i_core _ _ _ _ Hi) as (Hs & _ & Hj). unfold allowed. rewrite !andb_true_iff, task_is_spec. intros (_ & Hcall & k & Hk & Hal). destruct (s_task _ _ _ Hs t k Hk) as (Ha & Href & H). assert (Eu : hev_task_unref t (context s) = if negb (ref_count k - 1 =? 0) then update (fun k => with_refs (ref_count k - 1) k) t (context s) else Some (set_tasks (delete t (tasks (context s))) (context s))) by (unfold hev_task_unref; by rewrite Hk).
  destruct (Z.eqb_spec (ref_count k - 1) 0) as [E|E]; cbn [negb] in Eu.
  - apply orb_true_iff in Hal as [Hal|Hal]; [apply Z.ltb_lt in Hal; lia|]. rewrite andb_true_iff, negb_true_iff, stopped_spec, not_joined in Hal. destruct Hal as [Hst Hnj]. assert (Hpt : pcs s !! t = None) by (destruct (pcs s !! t) as [p|] eqn:Ep; [|done]; destruct (j_alive _ _ Hj t p Ep) as (k0 & Hk0 & ?); congruence).
    eapply (quiet_good _ (hev_task_unref t) s l w lt _ Hi); [done|done|exact Eu|by apply (sched_free _ _ _ _ k)|by apply keeps_free| |].
    + intros x. unfold view. destruct (decide (x = t)) as [->|Hx]; [rewrite lookup_delete_eq, Hk; cbn; by rewrite Hst|by rewrite lookup_delete_ne by done].
    + intros y _ Hp k0 [_ Hk0]%lookup_delete_Some. by apply Hp.
  - eapply (replace_good _ (hev_task_unref t) s l w lt t k _ Hi); [done|done|done|rewrite Eu; by apply update_eq| |done..]. split; [done|]. split; [cbn; lia|done].
Qed.

(** Calls after which tasks may have joined the queue. *)
Lemma grows_good e f s l w lt c' l' w' a : inv s l w lt -> step e s = call f s -> calling s = true -> f (context s) = Some c' -> sched c' l' w' -> grows (context s) l c' l' a ->
  (forall x k, a x -> tasks (context s) !! x = Some k -> state k <> HEV_TASK_STOPPED \/ joiner k = 0) -> good e s l.
Proof.
  intros Hi Es Hcall Ef Hs' Hg Ha. pose proof (i_core _ _ _ _ Hi) as (Hs & _). destruct (g_frame _ _ _ _ _ Hg) as (F1 & F2 & F3). apply (call_good e f s l w lt c' l' w' Hi Es Hcall Ef Hs'); try done.
  - by apply (grows_keeps _ l _ l' a).
  - apply (g_sub _ _ _ _ _ Hg).
  - intros _. apply (g_head _ _ _ _ _ Hg).
  - intros x y _ _. apply (adv_grows x y _ l w _ _ _ w' a); [done|done|intros z; apply cur_in, Hi|done].
Qed.

Lemma wakeup_good t s l w lt : inv s l w lt -> allowed (EWakeup t) s = true -> good (EWakeup t) s l.
Proof.
  intros Hi. pose proof (i_core _ _ _ _ Hi) as (Hs & _). unfold allowed. rewrite !andb_true_iff, task_is_spec. intros (Hl%(lowb_ok _ l w Hs) & Hcall & k & Hk & Hst). rewrite negb_true_iff, <- not_true_iff_false, stopped_spec in Hst.
  destruct (wakeup_ok _ l w t k Hs Hl Hk Hst) as (c' & l' & w' & E & Hs' & _ & Hg & _). eapply (grows_good _ (hev_task_system_wakeup_task_with_context t) s l w lt); try done. intros x k0 -> Hk0. left. congruence.
Qed.

Lemma run_good t s l w lt : inv s l w lt -> allowed (ERun t) s = true -> good (ERun t) s l.
Proof.
  intros Hi. pose proof (i_core _ _ _ _ Hi) as (Hs & _ & Hj). unfold allowed. rewrite !andb_true_iff, task_is_spec. intros (Hl%(lowb_ok _ l w Hs) & Hcall & k & Hk & Hst). destruct (stopped k) eqn:Est; cbn [negb orb] in Hst.
  - apply stopped_spec in Est. apply Z.eqb_eq in Hst. destruct (sched_run_ok _ l w t k Hs Hl Hk Est) as (c' & l' & key & E & Hs' & Hl' & F1 & F2 & F3 & Et & Hg). destruct (decide (current_task (context s) = 0)) as [E0|E0].
    + apply (call_good _ (hev_task_run t) s l w lt c' l' w Hi); try done; [rewrite Et; by apply (keeps_insert _ t k)|intros x Hx; apply Hl'; auto|intros Em _; exfalso|intros x y Hout _; exfalso].
      all: pose proof (i_mode _ _ _ _ Hi) as Hm; unfold mode_ok in Hm; unfold calling, in_task in Hcall.
      * rewrite Em in Hm. destruct l as [|z l]; [done|]. injection Hm as ->. destruct (s_seq _ _ _ Hs) as (_ & _ & Hal & _). apply Forall_cons in Hal as [[? _] _]. congruence.
      * destruct (at_ s); [done|done|]. destruct l as [|z l]; [done|]. injection Hm as ->. destruct (s_seq _ _ _ Hs) as (_ & _ & Hal & _). apply Forall_cons in Hal as [[? _] _]. congruence.
    + eapply (grows_good _ (hev_task_run t) s l w lt); [done..|by apply Hg|]. intros x k0 -> Hk0. right. congruence.
  - eapply (grows_good _ (hev_task_run t) s l w lt (context s) l w (fun _ => False)); [done..|unfold hev_task_run; rewrite Hk; cbn; unfold stopped in Est; by rewrite Est|done|apply grows_refl|done].
Qed.

(** ** Switches *)

Lemma core_current c v ps l w lt : core c ps l w lt -> core (set_current v c) ps l w lt.
Proof. intros ([S1 S2 S3 S4 S5 S6] & [T1 T2 T3 T4 T5] & Hj). split; [by split|]. split; [by split|done]. Qed.

Lemma pick_ok s l w lt : core (context s) (pcs s) l w lt -> prompt (context s) lt (checked s) (fun x => x ∈ l) -> l <> [] -> exists s' p, pick s = Some (s', p) /\ inv s' l w lt /\ picked (context s) l s' p.
Proof.
  intros Hc Hp Hne. pose proof Hc as (Hs & _). unfold pick, hev_rbtree_cached_first. destruct (s_seq _ _ _ Hs) as (_ & _ & Hal & ->). destruct l as [|n l]; [done|]. cbn [head from_option default]. unfold id. apply Forall_cons in Hal as [[Hn _] _]. rewrite (proj2 (Z.eqb_neq n 0)) by done.
  eexists _, _. split; [done|]. split; [split; [by apply core_current|done|done]|]. split; [done|]. split; [done|]. right. by exists n.
Qed.

Lemma sched_schedule_ok s l w lt : core (context s) (pcs s) l w lt -> prompt (context s) lt (checked s) (fun x => x ∈ l) -> exists s' p, hev_task_system_schedule s = Some (s', p) /\ inv s' l w lt /\ picked (context s) l s' p.
Proof.
  intros Hc Hp. pose proof Hc as (Hs & _). destruct (s_count _ _ _ Hs) as [C1 C2]. unfold hev_task_system_schedule. destruct (Z.eqb_spec (total_task_count (context s)) 0) as [E|E].
  - eexists _, _. split; [done|]. split; [split; [by apply core_current|done|done]|]. split; [done|]. split; [intros _; destruct l; [done|cbn in C2; lia]|]. by left.
  - destruct (Z.ltb_spec (running_task_count (context s)) (total_task_count (context s))) as [Hlt|Hge].
    + eexists _, _. split; [done|]. split; [split; [done|done|unfold mode_ok; cbn; lia]|]. split; [done|]. split; [done|]. by left.
    + apply pick_ok; [done|done|]. intros ->. cbn in C1, C2. lia.
Qed.

(** The task [cur] is switched away; [c], [ps]: what the function did before. *)
Lemma yields_good s0 s l0 why runtime cur l w lt k :
  core (context s) (pcs s) (cur :: l) w lt -> low (context s) (cur :: l) -> prompt (context s) lt (checked s) (fun x => x ∈ cur :: l) ->
  match why with
  | HEV_TASK_SCHED_SWITCH => 1 <= runtime <= 2 ^ 59
  | HEV_TASK_SCHED_WAITIO => 1 <= runtime <= 2 ^ 59 /\ prompt (context s) lt (checked s) (fun x => x <> cur)
  | HEV_TASK_SCHED_REMOVE => pcs s !! cur = None /\ (1 < ref_count k \/ forall x, pcs s !! x <> Some (InJoin cur))
  end ->
  current_task (context s) = cur -> tasks (context s) !! cur = Some k -> (forall x y, adv x y (context s0) l0 (cur_of s0) (context s) (cur :: l) (Some cur)) ->
  exists s' p l' w', yields why runtime s = Some (s', p) /\ inv s' l' w' lt /\ forall x y, advance x y s0 l0 s' l' p.
Proof.
  intros Hc Hl Hp Hwhy Ecur Hk Hadv. pose proof Hc as (Hs & Ht & Hj). destruct (sched_tail _ _ _ _ Hs) as (Hn & Hnw & Hne).
  assert (Est : state k = HEV_TASK_RUNNING) by (destruct (sched_dom _ _ _ cur Hs) as (k0 & Hk0 & ?); [set_solver|congruence]). destruct (s_task _ _ _ Hs cur k Hk) as (_ & _ & Hpr & Hnpr & Hkey & _).
  assert (Ek : key_of (tasks (context s)) cur = sched_key k) by (unfold key_of; by rewrite Hk).
  assert (Hfin : forall c' l' w', switch_away why runtime (context s) = Some c' -> core c' (pcs s) l' w' lt -> prompt c' lt (checked s) (fun x => x ∈ l') -> (forall x y, adv x y (context s) (cur :: l) (Some cur) c' l' None) ->
    exists s' p l' w', yields why runtime s = Some (s', p) /\ inv s' l' w' lt /\ forall x y, advance x y s0 l0 s' l' p).
  { intros c' l' w' E Hc' Hp' Ha. unfold yields. rewrite E. cbn [mbind option_bind]. destruct (sched_schedule_ok (set_context c' s) l' w' lt Hc' Hp') as (s' & p & Es & Hi & Hpk). exists s', p, l', w'. split; [done|]. split; [done|]. intros x y. apply (advance_pick x y s0 l0 c' l' s' p); [|done]. eapply adv_trans; [apply Hadv|apply Ha]. }
  destruct why.
  - destruct (yield_ok _ cur l w k runtime Hs Hl Ecur Hk Hwhy) as (c' & l1 & l2 & E & -> & Hs' & Et & _ & F2 & F3). apply (Hfin c' (l1 ++ cur :: l2) w E).
    + apply (core_keeps (context s) c' (pcs s) _ _ w w lt Hc Hs'); [|done..]. rewrite Et. apply (keeps_insert _ cur k); [done|done|done|by rewrite Est].
    + apply (prompt_frame (context s) c' lt _ _ _ Hp F3). set_solver.
    + intros x y. assert (Ekc : key_of (tasks c') cur = sched_key k + runtime * priority k) by (unfold key_of; by rewrite Et, lookup_insert_eq).
      apply (adv_switch x y _ cur (l1 ++ l2) w c' _ w Hs Hs'); [intros z Hz; split; [set_solver|rewrite Et; apply key_insert_ne; auto]|set_solver|intros _; nia| |].
      * intros _ -> Hpos. destruct (Hpos k Hk) as (_ & H1 & _). specialize (H1 Est). nia.
      * intros Hpos k' Hk'. rewrite Et in Hk'. apply lookup_insert_Some in Hk' as [[-> <-]|[_ Hk']]; [|by apply Hpos]. cbn. destruct (Hpos k Hk) as (? & _). done.
  - destruct Hwhy as [Hr Hpc]. destruct (sched_wait_ok _ cur l w k runtime Hs Hl Ecur Hk Hr) as (c' & E & Hs' & Et & _ & F2 & F3). apply (Hfin c' l (cur :: w) E).
    + apply (core_keeps (context s) c' (pcs s) _ _ w _ lt Hc Hs'); [|done..]. rewrite Et. apply (keeps_insert _ cur k); [done|done|done|by rewrite Est].
    + unfold prompt in *. destruct lt as [|n lt]; [done|]. rewrite F3. intros nd Hnd Hle. specialize (Hp nd Hnd Hle). specialize (Hpc nd Hnd Hle). apply elem_of_cons in Hp as [?|?]; done.
    + intros x y. apply (adv_switch x y _ cur l w c' _ _ Hs Hs'); [intros z Hz; split; [done|rewrite Et; apply key_insert_ne; auto]|auto|intros Hin; by apply Hn in Hin|intros Hin; by apply Hn in Hin|].
      intros Hpos k' Hk'. rewrite Et in Hk'. apply lookup_insert_Some in Hk' as [[-> <-]|[_ Hk']]; [|by apply Hpos]. cbn. destruct (Hpos k Hk) as (? & _). done.
  - destruct Hwhy as [Hpc Href]. destruct (sched_remove_ok _ cur l w k runtime Hs Hl Ecur Hk) as (c' & E & Hs' & Et & F2 & F3). apply (Hfin c' l w E).
    + apply (core_keeps (context s) c' (pcs s) _ _ w _ lt Hc Hs'); [|done..]. rewrite Et. unfold ended. destruct (Z.eqb_spec (ref_count k) 1); [apply keeps_free; [done|]; destruct Href; [lia|done]|by apply (keeps_stop _ cur k)].
    + unfold prompt in *. destruct lt as [|n lt]; [done|]. rewrite F3. intros nd Hnd Hle. specialize (Hp nd Hnd Hle). destruct (t_node _ _ _ Ht n nd Hnd) as (_ & lm & Hpn). apply elem_of_cons in Hp as [E0|?]; [congruence|done].
    + intros x y. assert (Hk' : forall z, z <> cur -> tasks c' !! z = tasks (context s) !! z) by (intros z Hz; rewrite Et; unfold ended; case_match; [by rewrite lookup_delete_ne|by rewrite lookup_insert_ne]).
      apply (adv_switch x y _ cur l w c' _ _ Hs Hs'); [intros z Hz; split; [done|unfold key_of; rewrite Hk' by auto; done]|auto|intros Hin; by apply Hn in Hin|intros Hin; by apply Hn in Hin|].
      intros Hpos k' H'. destruct (decide (y = cur)) as [->|Hy]; [|rewrite Hk' in H' by done; by apply Hpos]. rewrite Et in H'. unfold ended in H'. case_match; [by rewrite lookup_delete_eq in H'|]. rewrite lookup_insert_eq in H'. injection H' as <-. cbn. destruct (Hpos k Hk) as (? & _). done.
Qed.

(** The state in which a task runs. *)
Lemma running_task s l w lt : inv s l w lt -> at_ s = InTask ->
  exists l0 k, l = current_task (context s) :: l0 /\ tasks (context s) !! current_task (context s) = Some k /\ state k = HEV_TASK_RUNNING /\ current_task (context s) <> 0 /\ cur_of s = Some (current_task (context s)).
Proof.
  intros Hi Em. pose proof (i_mode _ _ _ _ Hi) as Hm. unfold mode_ok in Hm. rewrite Em in Hm. destruct l as [|z l0]; [done|]. injection Hm as ->. pose proof (i_core _ _ _ _ Hi) as (Hs & _). destruct (sched_dom _ _ _ (current_task (context s)) Hs) as (k & Hk & Est); [set_solver|].
  destruct (s_task _ _ _ Hs _ k Hk) as ([? _] & _). exists l0, k. split_and!; try done. unfold cur_of. by rewrite Em.
Qed.

Lemma in_task_spec s : in_task s = true <-> at_ s = InTask /\ pcs s !! current_task (context s) = None.
Proof. unfold in_task. by rewrite andb_true_iff, !bool_decide_eq_true. Qed.

(** A task that is not inside a function does not sleep. *)
Lemma prompt_awake c ps lt curr (P : Z -> Prop) t : timers_ok c ps lt -> (forall n lm, ps !! t <> Some (InSleep n lm)) -> prompt c lt curr P -> prompt c lt curr (fun x => x <> t).
Proof. intros Ht Hp H. unfold prompt in *. destruct lt as [|n lt]; [done|]. intros nd Hnd _ <-. destruct (t_node _ _ _ Ht n nd Hnd) as (_ & lm & E). by apply (Hp n lm). Qed.

Lemma schedule_good s l w lt : inv s l w lt -> allowed ESchedule s = true -> good ESchedule s l.
Proof.
  intros [Hc Hp Hm]. unfold allowed. rewrite andb_true_iff, bool_decide_eq_true. intros [_ Em]. destruct (sched_schedule_ok s l w lt Hc Hp) as (s' & p & E & Hi & Hpk). exists s', p, l, w, lt. split; [done|]. split; [done|]. by intros x y _ Hout.
Qed.

Lemma yield_good why runtime e s l w lt : inv s l w lt -> lowb (context s) = true -> in_task s = true -> runs runtime = true -> why <> HEV_TASK_SCHED_REMOVE -> step e s = yields why runtime s -> good e s l.
Proof.
  intros Hi Hl [Em Hpc]%in_task_spec Hr%sched_runs_ok Hwhy Es. destruct (running_task _ _ _ _ Hi Em) as (l0 & k & -> & Hk & Est & H0 & Eo). pose proof Hi as [Hc Hp Hm]. pose proof Hc as (Hs & Ht & Hj). apply (lowb_ok _ _ _ Hs) in Hl.
  destruct (yields_good s s (current_task (context s) :: l0) why runtime (current_task (context s)) l0 w lt k) as (s' & p & l' & w' & E & Hi' & Ha); try done; [destruct why; [done|split; [done|eapply prompt_awake; [done|by rewrite Hpc|done]]|done]|rewrite Eo; intros; apply adv_refl|].
  exists s', p, l', w', lt. rewrite Es. eauto.
Qed.

Lemma exit_good s l w lt : inv s l w lt -> allowed EExit s = true -> good EExit s l.
Proof.
  intros Hi. unfold allowed. rewrite !andb_true_iff, task_is_spec. intros (Hl & [Em Hpc]%in_task_spec & k0 & Hk0 & Href). destruct (running_task _ _ _ _ Hi Em) as (l0 & k & -> & Hk & Est & H0 & Eo). rewrite Hk in Hk0. injection Hk0 as <-. pose proof Hi as [Hc Hp Hm]. pose proof Hc as (Hs & Ht & Hj). apply (lowb_ok _ _ _ Hs) in Hl.
  destruct (yields_good s s (current_task (context s) :: l0) HEV_TASK_SCHED_REMOVE 1 (current_task (context s)) l0 w lt k) as (s' & p & l' & w' & E & Hi' & Ha); try done; [split; [done|]|rewrite Eo; intros; apply adv_refl|exists s', p, l', w', lt; eauto].
  unfold may_unref in Href. rewrite orb_true_iff, negb_true_iff, Z.ltb_lt, not_joined in Href. done.
Qed.

Lemma return_good s l w lt : inv s l w lt -> allowed EReturn s = true -> good EReturn s l.
Proof.
  intros Hi. unfold allowed. rewrite !andb_true_iff, task_is_spec. intros (Hl & [Em Hpc]%in_task_spec & k0 & Hk0 & Href). destruct (running_task _ _ _ _ Hi Em) as (l0 & k & -> & Hk & Est & H0 & Eo). rewrite Hk in Hk0. injection Hk0 as <-. pose proof Hi as [Hc Hp Hm]. pose proof Hc as (Hs & Ht & Hj). apply (lowb_ok _ _ _ Hs) in Hl.
  set (cur := current_task (context s)) in *.
  assert (Hend : exists c1 l1 w1, executer_end (context s) = Some c1 /\ sched c1 (cur :: l1) w1 /\ low c1 (cur :: l1) /\ (exists a, grows (context s) (cur :: l0) c1 (cur :: l1) a /\ (forall x k, a x -> tasks (context s) !! x = Some k -> state k <> HEV_TASK_STOPPED))).
  { unfold executer_end. fold cur. rewrite Hk. cbn [mbind option_bind]. destruct (Z.eqb_spec (joiner k) 0) as [E|E]; cbn [negb]; [exists (context s), l0, w; split_and!; try done; exists (fun _ => False); split; [apply grows_refl|done]|].
    destruct (j_alive _ _ Hj _ _ (j_joiner _ _ Hj cur k Hk ltac:(congruence) E)) as (kj & Hkj & Hstj). destruct (wakeup_ok _ _ w (joiner k) kj Hs Hl Hkj Hstj) as (c1 & l1 & w1 & E1 & Hs1 & Hl1 & Hg & _).
    pose proof (g_head _ _ _ _ _ Hg ltac:(done)) as Hh. destruct l1 as [|z l1]; [done|]. injection Hh as ->. exists c1, l1, w1. split_and!; try done. eexists. split; [done|]. intros x k' -> Hk'. congruence. }
  destruct Hend as (c1 & l1 & w1 & E1 & Hs1 & Hl1 & a & Hg & Ha). destruct (g_frame _ _ _ _ _ Hg) as (F1 & F2 & F3). destruct (g_old _ _ _ _ _ Hg cur k Hk) as (k1 & Hk1 & _ & R1 & _ & H1). assert (k1 = k) as -> by (destruct H1 as [?|(_ & Hn & _)]; [done|]; exfalso; apply Hn; set_solver). cbn [step].
  assert (Hc1 : core c1 (pcs s) (cur :: l1) w1 lt) by (apply (core_keeps (context s) c1 (pcs s) _ _ w _ lt Hc Hs1); [apply (grows_keeps _ _ _ _ a _ Hg); intros x k' Hax Hk'; left; by apply (Ha x k')|done..]).
  destruct (yields_good s (set_context c1 s) (cur :: l0) HEV_TASK_SCHED_REMOVE 1 cur l1 w1 lt k) as (s' & p & l' & w' & E & Hi' & Hadv); try done.
  - apply (prompt_frame (context s) c1 lt _ _ _ Hp F3). apply (g_sub _ _ _ _ _ Hg).
  - split; [done|]. unfold may_unref in Href. rewrite orb_true_iff, negb_true_iff, Z.ltb_lt, not_joined in Href. done.
  - intros x y. rewrite Eo. apply (adv_grows x y _ _ w _ _ _ w1 a); [done|done|by intros z [= <-]; set_solver|done].
  - exists s', p, l', w', lt. cbn [step]. unfold hev_task_executer, hev_task_exit. rewrite E1. cbn [mbind option_bind]. eauto.
Qed.

Lemma sleep_good ms node curr runtime s l w lt : inv s l w lt -> allowed (ESleep ms node curr runtime) s = true -> good (ESleep ms node curr runtime) s l.
Proof.
  intros Hi. unfold allowed. rewrite !andb_true_iff, !Z.leb_le, !Z.ltb_lt, bool_decide_eq_true. intros (Hl & ((((((Hin & Hr%sched_runs_ok) & Hms) & _) & Hal%address_ok) & Hfresh) & Hnorm) & Hck%later_ok). apply in_task_spec in Hin as [Em Hpc].
  destruct (running_task _ _ _ _ Hi Em) as (l0 & k & -> & Hk & Est & H0 & Eo). pose proof Hi as [Hc Hp Hm]. pose proof Hc as (Hs & Ht & Hj). apply (lowb_ok _ _ _ Hs) in Hl. unfold good. cbn [step]. unfold hev_task_sleep. destruct (Z.eqb_spec ms 0) as [E0|E0].
  { exists s, [], (current_task (context s) :: l0), w, lt. split; [done|]. split; [done|]. intros x y _. apply advance_call, adv_refl. done. }
  set (cur := current_task (context s)) in *. destruct (sleep_begin_ok (context s) (pcs s) (cur :: l0) w lt cur node ms curr (checked s) Hc) as (lm & c1 & lt1 & E1 & Hc1 & Hp1 & Et1 & _ & F1); try done; [exists k; split; [done|congruence]|lia|]. rewrite E1. cbn [mbind option_bind].
  assert (Hadv : forall x y, adv x y (context s) (cur :: l0) (cur_of s) c1 (cur :: l0) (Some cur)) by (intros x y; rewrite Eo; apply (adv_view x y _ _ w); [done|intros z [= <-]; set_solver|by rewrite Et1|by rewrite Et1]).
  set (s1 := set_context c1 _). destruct (yields_good s s1 (cur :: l0) HEV_TASK_SCHED_WAITIO runtime cur l0 w lt1 k) as (s' & p & l' & w' & E & Hi' & Ha); try done; unfold s1; cbn [context pcs checked set_context set_pcs].
  - destruct Hl as [Hl1 Hl2]. split; [cbn in *; by rewrite Et1|by rewrite Et1].
  - eapply prompt_frame; [exact Hp1|done|by intros x [? _]].
  - split; [done|]. eapply prompt_frame; [exact Hp1|done|by intros x [_ ?]].
  - by rewrite Et1.
  - exists s', p, l', w', lt1. eauto.
Qed.

(** One round of the loop of a join; [pcs s] may not show yet that [cur] joins [t]. *)
Lemma join_step_good s0 l0 s cur l w lt t runtime : core (context s) (<[cur := InJoin t]> (pcs s)) (cur :: l) w lt -> low (context s) (cur :: l) -> prompt (context s) lt (checked s) (fun x => x ∈ cur :: l) -> at_ s = InTask -> at_ s0 = InTask -> current_task (context s) = cur ->
  1 <= runtime <= 2 ^ 59 -> (forall x y, adv x y (context s0) l0 (cur_of s0) (context s) (cur :: l) (Some cur)) ->
  exists s' p l' w', join_step t runtime s = Some (s', p) /\ inv s' l' w' lt /\ forall x y, advance x y s0 l0 s' l' p.
Proof.
  intros Hc Hl Hp Em Em0 Ecur Hr Hadv. pose proof Hc as (Hs & Ht & Hj). destruct (j_target _ _ Hj cur t) as [kt Hkt]; [apply lookup_insert_eq|]. unfold join_step, join_round. rewrite Hkt. cbn [mbind option_bind]. destruct (decide (state kt = HEV_TASK_STOPPED)) as [Est|Est].
  - rewrite bool_decide_true by done. cbn [mbind option_bind]. rewrite Ecur. exists (set_context (context s) (set_pcs (delete cur (pcs s)) s)), [], (cur :: l), w. split; [done|]. split.
    + split; cbn [context pcs checked set_context set_pcs]; [|done|unfold mode_ok; cbn; by rewrite Em, Ecur]. split; [done|]. split; [apply (timers_other _ (<[cur := InJoin t]> (pcs s)) _ lt cur Ht); [intros n lm; by rewrite lookup_insert_eq|intros n lm; by rewrite lookup_delete_eq|intros x Hx; by rewrite lookup_delete_ne, lookup_insert_ne by done]|].
      rewrite <- (delete_insert_eq (pcs s) cur (InJoin t)). apply joins_end; [done|]. intros x k Hk Hst Hjx. destruct (decide (cur = 0)) as [|H0]; [done|]. pose proof (j_joiner _ _ Hj x k Hk Hst) as H. rewrite Hjx, lookup_insert_eq in H. specialize (H H0). injection H as ->. congruence.
    + intros x y. apply advance_call; [cbn; congruence|]. cbn. unfold cur_of at 2. cbn. rewrite Em, Ecur. apply Hadv.
  - rewrite bool_decide_false by done. destruct (wakeup_ok _ _ w t kt Hs Hl Hkt Est) as (c1 & l1 & w1 & E1 & Hs1 & Hl1 & Hg & _). rewrite E1. cbn [mbind option_bind]. destruct (g_frame _ _ _ _ _ Hg) as (F1 & F2 & F3). rewrite F1, Ecur.
    pose proof (g_head _ _ _ _ _ Hg ltac:(done)) as Hh. destruct l1 as [|z l1]; [done|]. injection Hh as ->. destruct (sched_dom _ _ _ cur Hs1) as (k1 & Hk1 & _); [set_solver|]. set (s1 := set_context c1 _).
    assert (Hc1 : core c1 (<[cur := InJoin t]> (pcs s)) (cur :: l1) w1 lt) by (apply (core_keeps (context s) c1 _ _ _ w _ lt Hc Hs1); [apply (grows_keeps _ _ _ _ _ _ Hg); intros x k' -> Hk'; left; congruence|done..]).
    assert (Hp1 : prompt c1 lt (checked s) (fun x => x ∈ cur :: l1)) by (apply (prompt_frame (context s) c1 lt _ _ _ Hp F3); apply (g_sub _ _ _ _ _ Hg)).
    destruct (yields_good s0 s1 l0 HEV_TASK_SCHED_WAITIO runtime cur l1 w1 lt k1) as (s' & p & l' & w' & E & Hi' & Ha); try done; [split; [done|]|cbn; congruence| |].
    + eapply prompt_awake; [apply Hc1|intros n lm; by rewrite lookup_insert_eq|exact Hp1].
    + intros x y. eapply adv_trans; [apply Hadv|]. eapply adv_grows; [exact Hs|exact Hs1|intros z [= <-]; set_solver|exact Hg].
    + exists s', p, l', w'. done.
Qed.

Lemma join_good t runtime s l w lt : inv s l w lt -> allowed (EJoin t runtime) s = true -> good (EJoin t runtime) s l.
Proof.
  intros Hi. unfold allowed. rewrite !andb_true_iff, task_is_spec. intros (Hl & ([Em Hpc]%in_task_spec & Hr%sched_runs_ok) & kt & Hkt & _). destruct (running_task _ _ _ _ Hi Em) as (l0 & k & -> & Hk & Est & H0 & Eo). pose proof Hi as [Hc Hp Hm]. pose proof Hc as (Hs & Ht & Hj). apply (lowb_ok _ _ _ Hs) in Hl.
  unfold good. cbn [step]. unfold hev_task_join. rewrite Hkt. cbn [mbind option_bind]. destruct (Z.eqb_spec (joiner kt) 0) as [E0|E0]; cbn [negb].
  2:{ exists s, [], (current_task (context s) :: l0), w, lt. split; [done|]. split; [done|]. intros x y _. apply advance_call, adv_refl. done. }
  set (cur := current_task (context s)) in *. rewrite (update_eq _ t _ kt Hkt). cbn [mbind option_bind]. set (k' := with_joiner cur kt). set (h := <[t := k']> (tasks (context s))). set (c1 := set_tasks h (context s)).
  assert (Hok : task_ok t k') by apply (s_task _ _ _ Hs t kt Hkt). assert (Hs1 : sched c1 (cur :: l0) w) by by apply (sched_replace _ _ _ t kt).
  assert (Hv : forall x, view h x = view (tasks (context s)) x) by (intros x; unfold h; destruct (decide (x = t)) as [->|Hx]; [rewrite view_insert; unfold view; by rewrite Hkt|unfold view; by rewrite lookup_insert_ne by done]).
  assert (Hadv : forall x y, adv x y (context s) (cur :: l0) (cur_of s) c1 (cur :: l0) (Some cur)).
  { intros x y. rewrite Eo. apply (adv_view x y _ _ w); [done|intros z [= <-]; set_solver|done|]. intros Hpos. by apply (positive_insert _ t kt). }
  assert (Halive : forall x, alive (tasks (context s)) x -> alive h x) by (intros x (kx & Hkx & Hstx); unfold alive, h; destruct (decide (x = t)) as [->|Hx]; [rewrite lookup_insert_eq; simplify_eq; eauto|rewrite lookup_insert_ne by done; eauto]).
  assert (Hj1 : joins_ok h (<[cur := InJoin t]> (pcs s))).
  { split.
    - intros x p [[<- _]|[_ Hx]]%lookup_insert_Some; apply Halive; [exists k; split; [done|congruence]|by apply (j_alive _ _ Hj x p)].
    - intros x u [[_ [= <-]]|[_ Hx]]%lookup_insert_Some; [unfold h; rewrite lookup_insert_eq; eauto|]. destruct (j_target _ _ Hj x u Hx) as [ku Hku]. unfold h. destruct (decide (u = t)) as [->|Hu]; [rewrite lookup_insert_eq; eauto|rewrite lookup_insert_ne by done; eauto].
    - intros x kx [[<- <-]|[Hx Hkx]]%lookup_insert_Some Hst Hjx; [cbn; by rewrite lookup_insert_eq|]. pose proof (j_joiner _ _ Hj x kx Hkx Hst Hjx) as Hpx. rewrite lookup_insert_ne; [done|]. intros E. rewrite <- E in Hpx. congruence. }
  assert (Hc1 : core c1 (<[cur := InJoin t]> (pcs s)) (cur :: l0) w lt).
  { split; [done|]. split; [|done]. apply (timers_frame (context s)); [|done..]. apply (timers_other _ (pcs s) _ lt cur Ht); [by rewrite Hpc|intros n lm; by rewrite lookup_insert_eq|intros x Hx; by rewrite lookup_insert_ne by done]. }
  destruct (join_step_good s (cur :: l0) (set_context c1 s) cur l0 w lt t runtime) as (s' & p & l' & w' & E & Hi' & Ha); try done.
  - destruct Hl as [Hl1 Hl2]. assert (Hkc : key_of h cur = key_of (tasks (context s)) cur) by (unfold key_of, h; destruct (decide (cur = t)) as [<-|Hx]; [by rewrite lookup_insert_eq, Hkt|by rewrite lookup_insert_ne by done]). split; cbn in *; [by rewrite Hkc|unfold h; by rewrite map_size_insert_Some by (by rewrite Hkt)].
  - exists s', p, l', w', lt. eauto.
Qed.

Lemma resume_good curr runtime s l w lt : inv s l w lt -> allowed (EResume curr runtime) s = true -> good (EResume curr runtime) s l.
Proof.
  intros Hi. unfold allowed. rewrite !andb_true_iff, !bool_decide_eq_true. intros (Hl & ((Em & [p Hpc]) & Hr%sched_runs_ok) & Hck%later_ok). destruct (running_task _ _ _ _ Hi Em) as (l0 & k & -> & Hk & Est & H0 & Eo). pose proof Hi as [Hc Hp Hm]. pose proof Hc as (Hs & Ht & Hj). apply (lowb_ok _ _ _ Hs) in Hl.
  unfold good. cbn [step]. unfold resume. rewrite Hpc. set (cur := current_task (context s)) in *. destruct p as [node lm|t].
  - destruct (sleep_end_ok (context s) (pcs s) (cur :: l0) w lt cur node lm curr (checked s) Hc Hl Hpc Hp) as (r & c' & l' & w' & lt' & E & Hc' & Hp' & (a & Hg) & _). rewrite E. cbn [mbind option_bind].
    destruct (g_frame _ _ _ _ _ Hg) as (F1 & _). cbn in F1. pose proof (g_head _ _ _ _ _ Hg ltac:(done)) as Hh. pose proof Hc' as (Hs' & _). eexists _, [], l', w', lt'. split; [done|]. split.
    + split; cbn; [done|done|]. unfold mode_ok. cbn. by rewrite Em, F1, Hh.
    + intros x y _. apply advance_call; [done|]. cbn. unfold cur_of at 2. cbn. rewrite Em, F1, Eo. set (c1 := set_timers _ _ _) in Hg. assert (Hs1 : sched c1 (cur :: l0) w) by by destruct Hs as [S1 S2 S3 S4 S5 S6]; split.
      eapply adv_trans; [apply (adv_view x y _ _ w _ c1); [done|intros z [= <-]; set_solver|done|done]|]. apply (adv_grows x y _ _ w _ _ _ w' a); [done|done|intros z [= <-]; set_solver|done].
  - destruct (join_step_good s (cur :: l0) s cur l0 w lt t runtime) as (s' & p & l' & w' & E & Hi' & Ha); try done; [by rewrite insert_id|rewrite Eo; intros; apply adv_refl|]. exists s', p, l', w', lt. eauto.
Qed.

Lemma poll_good ts curr s l w lt : inv s l w lt -> allowed (EPoll ts curr) s = true -> good (EPoll ts curr) s l.
Proof.
  intros Hi. unfold allowed. rewrite !andb_true_iff, bool_decide_eq_true, forallb_forall. intros (Hl & (Em & Hts) & Hck). pose proof Hi as [Hc Hp Hm]. pose proof Hc as (Hs & Ht & Hj). apply (lowb_ok _ _ _ Hs) in Hl. unfold mode_ok in Hm. rewrite Em in Hm. unfold good. cbn [step]. unfold poll, hev_task_system_io_poll.
  assert (Hts' : forall t, t ∈ ts -> exists k, tasks (context s) !! t = Some k /\ state k <> HEV_TASK_STOPPED). { intros t Hin%list_elem_of_In%Hts. apply task_is_spec in Hin as (k & Hk & Hst). exists k. split; [done|]. by rewrite negb_true_iff, <- not_true_iff_false, stopped_spec in Hst. }
  destruct (wakeup_all_ok ts _ l w Hs Hl Hts') as (c1 & l1 & w1 & E1 & Hs1 & Hl1 & Hg1 & Et1). rewrite E1. cbn [mbind option_bind]. destruct (g_frame _ _ _ _ _ Hg1) as (F1 & F2 & F3).
  assert (Hc1 : core c1 (pcs s) l1 w1 lt) by (apply (core_keeps (context s) c1 _ _ _ w _ lt Hc Hs1); [apply (grows_keeps _ _ _ _ _ _ Hg1); intros x k Hx Hk; left; destruct (Hts' x Hx) as (k' & Hk' & ?); congruence|done..]).
  assert (Ew : hev_task_timer_wake curr c1 = hev_task_timer_wakeup curr c1) by (unfold hev_task_timer_wake, hev_task_timer_wakeup; by case_match). rewrite Ew. destruct (timer_wakeup_ok c1 (pcs s) l1 w1 lt curr Hc1 Hl1) as (c2 & l2 & w2 & E2 & Hc2 & _ & Hp2 & (a & Hg2) & Et2). rewrite E2. cbn [mbind option_bind].
  pose proof Hc2 as (Hs2 & _). assert (Eo : cur_of s = None) by (unfold cur_of; by rewrite Em).
  assert (Ha : forall x y, adv x y (context s) l (cur_of s) c2 l2 None) by (intros x y; rewrite Eo; eapply adv_trans; [eapply adv_grows; [exact Hs|exact Hs1|done|exact Hg1]|eapply adv_grows; [exact Hs1|exact Hs2|done|exact Hg2]]).
  destruct (s_count _ _ _ Hs2) as [C1 C2]. destruct (Z.eqb_spec (running_task_count c2) 0) as [E|E].
  - eexists _, [], l2, w2, lt. split; [done|]. split; [split; cbn; [done|done|unfold mode_ok; cbn; rewrite Em; congruence]|]. intros x y _. apply advance_call; [done|]. cbn. unfold cur_of at 2. cbn. rewrite Em. apply Ha.
  - destruct (pick_ok (set_checked curr (set_context c2 s)) l2 w2 lt Hc2 Hp2) as (s' & p & Ep & Hi' & Hpk); [intros ->; cbn in C1; lia|]. exists s', p, l2, w2, lt. split; [done|]. split; [done|]. intros x y _. apply (advance_pick x y s l c2 l2 s' p); [apply Ha|exact Hpk].
Qed.

(** Every step that is allowed succeeds. *)
Lemma step_good e s l w lt : inv s l w lt -> allowed e s = true -> good e s l.
Proof.
  intros Hi Ha. destruct e.
  - by apply (new_good t s l w lt).
  - by apply (ref_good t s l w lt).
  - by apply (unref_good t s l w lt).
  - by apply (set_priority_good t p s l w lt).
  - by apply (run_good t s l w lt).
  - by apply (wakeup_good t s l w lt).
  - by apply (schedule_good s l w lt).
  - unfold allowed in Ha. rewrite !andb_true_iff in Ha. destruct Ha as (? & ? & ?). by apply (yield_good HEV_TASK_SCHED_SWITCH runtime _ s l w lt).
  - unfold allowed in Ha. rewrite !andb_true_iff in Ha. destruct Ha as (? & ? & ?). by apply (yield_good HEV_TASK_SCHED_WAITIO runtime _ s l w lt).
  - by apply (sleep_good milliseconds node curr runtime s l w lt).
  - by apply (join_good t runtime s l w lt).
  - by apply (resume_good curr runtime s l w lt).
  - by apply (return_good s l w lt).
  - by apply (exit_good s l w lt).
  - by apply (poll_good ts curr s l w lt).
Qed.

(** ** Runs *)

Lemma run_good_all es : forall s l w lt, inv s l w lt -> respects es s = true -> exists s' ps l' w' lt', run es s = Some (s', ps) /\ inv s' l' w' lt'.
Proof.
  induction es as [|e es IH]; intros s l w lt Hi Hr; [by exists s, [], l, w, lt|]. cbn in Hr. apply andb_true_iff in Hr as [Ha Hr]. destruct (step_good e s l w lt Hi Ha) as (s1 & p & l1 & w1 & lt1 & E & Hi1 & _). rewrite E in Hr.
  destruct (IH s1 l1 w1 lt1 Hi1 Hr) as (s' & ps & l' & w' & lt' & E' & Hi'). cbn [run]. rewrite E. cbn [mbind option_bind]. rewrite E'. cbn [mbind option_bind]. by exists s', (p ++ ps), l', w', lt'.
Qed.

Lemma sched_init_ok : inv hev_task_system_init [] [] [].
Proof.
  split; [|done|done]. split; [split; cbn; try done|split; [split; cbn; try done|split; cbn]].
  - apply sequence_empty.
  - intros x. split; [by intros ?%elem_of_nil|by intros (k & ? & _)].
  - split; [constructor|]. intros x. split; [by intros ?%elem_of_nil|by intros (k & ? & _)].
  - constructor.
  - apply sequence_empty.
  - intros n. rewrite lookup_empty. split; [by intros ?%elem_of_nil|by intros []].
  - constructor.
  - done.
  - done.
  - done.
Qed.

(** A state that a run from the start reaches which respects the contract. *)
Definition reachable (s : system) : Prop := exists es ps, respects es hev_task_system_init = true /\ run es hev_task_system_init = Some (s, ps).

Lemma reachable_inv s : reachable s -> exists l w lt, inv s l w lt.
Proof. intros (es & ps & Hr & E). destruct (run_good_all es _ _ _ _ sched_init_ok Hr) as (s' & ps' & l & w & lt & E' & Hi). rewrite E in E'. injection E' as <- <-. eauto. Qed.

(** The task [x] in the queue is overtaken by [y] only until the key of [y] has passed its own. *)
Lemma overtaken es x y : forall s l w lt, inv s l w lt -> respects es s = true -> Forall (gentle y) es -> at_ s <> Outside -> waits l (cur_of s) x -> positive (tasks (context s)) y ->
  forall s' ps, run es s = Some (s', ps) -> x ∉ ps -> (count_occ Z.eq_dec ps y = 0)%nat \/ due (context s) l (cur_of s) y + Z.of_nat (count_occ Z.eq_dec ps y) <= key_of (tasks (context s)) x + 1.
Proof.
  induction es as [|e es IH]; intros s l w lt Hi Hr Hg Hm Hw Hp s' ps E Hx; [injection E as <- <-; by left|]. cbn in Hr. apply andb_true_iff in Hr as [Ha Hr]. apply Forall_cons in Hg as [Hge Hg]. destruct (step_good e s l w lt Hi Ha) as (s1 & p & l1 & w1 & lt1 & E1 & Hi1 & Hadv). rewrite E1 in Hr.
  cbn [run] in E. rewrite E1 in E. cbn [mbind option_bind] in E. destruct (run es s1) as [[s2 ps2]|] eqn:E2; [|done]. injection E as <- <-. destruct (Hadv x y Hge Hm Hw Hp ltac:(set_solver)) as (Hm1 & Hw1 & Hp1 & K1 & D1 & M1). rewrite count_occ_app.
  destruct (IH s1 l1 w1 lt1 Hi1 Hr Hg Hm1 Hw1 Hp1 s2 ps2 E2 ltac:(set_solver)) as [Hc|Hc]; [|right; rewrite K1 in Hc; lia]. rewrite Hc, Nat.add_0_r. destruct (decide (y ∈ p)) as [Hy|Hy]; [right|left; apply count_occ_not_In; by rewrite <- list_elem_of_In].
  specialize (M1 Hy). destruct Hw1 as [Hx1 _]. assert (Hmin : min_key (context s1) l1 <= key_of (tasks (context s1)) x) by (destruct l1 as [|z l1]; [by apply elem_of_nil in Hx1|]; apply (sorted_all _ _ _ _ (s_sorted _ _ _ (proj1 (i_core _ _ _ _ Hi1))) Hx1)). lia.
Qed.

Lemma due_min s l w lt y : inv s l w lt -> min_key (context s) l <= due (context s) l (cur_of s) y.
Proof.
  intros Hi. pose proof (i_core _ _ _ _ Hi) as (Hs & _). assert (Hle : forall z, z ∈ l -> min_key (context s) l <= key_of (tasks (context s)) z) by (intros z Hz; destruct l as [|z0 l]; [by apply elem_of_nil in Hz|]; by apply (sorted_all _ _ _ _ (s_sorted _ _ _ Hs))).
  unfold due. case_decide as E; [|case_decide as Hy; [by apply Hle|lia]]. specialize (Hle y (cur_in _ _ _ (i_mode _ _ _ _ Hi) E)). lia.
Qed.

Definition nanos (t : timespec) : Z := tv_sec t * 1000000000 + tv_nsec t.

(** ** What runs show *)

(** C12. No run of the scheduler that respects the contract of its functions uses a task or a timer node after it is freed,
    reaches an [abort], or picks a task from an empty queue: whatever tasks do between their switches (create,
    start, wake, join and free others, sleep, yield, wait for I/O, return or exit) and in whichever order I/O wakes them,
    every step succeeds. *)
Theorem task_scheduler_safe (es : list event) : respects es hev_task_system_init = true -> exists s ps, run es hev_task_system_init = Some (s, ps).
Proof. intros Hr. destruct (run_good_all es _ _ _ _ sched_init_ok Hr) as (s & ps & _ & _ & _ & E & _). eauto. Qed.

(** C15. In every reachable state the tasks and the counters are well-formed: priorities are between 0 and 15, the key of a
    task fits into 64 bits, a waiting task keeps only a share of at most 15, there is a reference to every
    task; [running_task_count] is the number of tasks in the queue, which are the running ones, each once and by ascending key, and
    [total_task_count] counts those that wait too. *)
Theorem task_system_well_formed (s : system) : reachable s ->
  (forall t k, tasks (context s) !! t = Some k -> task_ok t k) /\
  exists l w, sequence l (running_tasks (context s)) /\ NoDup l /\ (forall x, x ∈ l <-> in_state (tasks (context s)) HEV_TASK_RUNNING x) /\ Sorted.StronglySorted (key_le (tasks (context s))) l
    /\ NoDup w /\ (forall x, x ∈ w <-> in_state (tasks (context s)) HEV_TASK_WAITING x)
    /\ running_task_count (context s) = Z.of_nat (length l) /\ total_task_count (context s) = Z.of_nat (length l + length w).
Proof.
  intros (l & w & lt & Hi)%reachable_inv. destruct (i_core _ _ _ _ Hi) as ([S1 S2 [S3 S3'] S4 [S5 S5'] S6] & _). split; [exact S6|]. exists l, w. split_and!; try done. apply S1.
Qed.

(** C13. No starvation: while a task [x] is in the queue and does not run, a task [y] of positive priority is
    picked at most as often as the key of [x] exceeds the least key, plus one; whatever the tasks do, whether
    [y] yields, waits and is woken, ends and is started again, or is freed and allocated again. *)
Theorem task_scheduler_bounded_wait (s : system) (es : list event) (x y m : Z) : reachable s -> respects es s = true -> at_ s <> Outside ->
  in_state (tasks (context s)) HEV_TASK_RUNNING x -> cur_of s <> Some x -> positive (tasks (context s)) y -> Forall (gentle y) es -> hev_task_system_get_min_sched_key (context s) = Some m ->
  exists s' ps, run es s = Some (s', ps) /\ (x ∉ ps -> Z.of_nat (count_occ Z.eq_dec ps y) <= key_of (tasks (context s)) x - m + 1).
Proof.
  intros (l & w & lt & Hi)%reachable_inv Hr Hm Hx Hc Hp Hg Em. pose proof (i_core _ _ _ _ Hi) as (Hs & _). rewrite (get_min_ok _ l w Hs) in Em. injection Em as <-. destruct (run_good_all es s l w lt Hi Hr) as (s' & ps & _ & _ & _ & E & _). exists s', ps. split; [done|]. intros Hnx.
  assert (Hxl : x ∈ l) by by apply (s_run _ _ _ Hs). assert (Hle : min_key (context s) l <= key_of (tasks (context s)) x) by (destruct l as [|z l]; [by apply elem_of_nil in Hxl|]; by apply (sorted_all _ _ _ _ (s_sorted _ _ _ Hs))).
  destruct (overtaken es x y s l w lt Hi Hr Hg Hm (conj Hxl Hc) Hp s' ps E Hnx) as [->|Hd]; [cbn; lia|]. pose proof (due_min s l w lt y Hi). lia.
Qed.

(** C14. The first node of the timers is the sleeping task that is due first; when its time had come at the moment the timers
    were last looked at, the task is in the queue, where its wait is bounded.  Sleeping tasks are not forgotten when the first one is
    woken before its time, when one goes to sleep for less time than the others, or when several are due at once. *)
Theorem task_timer_prompt (s : system) (n : Z) : reachable s -> hev_rbtree_cached_first (sort_tree (context s)) = n -> n <> 0 ->
  exists nd, timer_nodes (context s) !! n = Some nd /\ (forall m nm, timer_nodes (context s) !! m = Some nm -> time_le (expire nd) (expire nm))
    /\ (exists lm, pcs s !! node_task nd = Some (InSleep n lm)) /\ (time_le (expire nd) (checked s) -> in_state (tasks (context s)) HEV_TASK_RUNNING (node_task nd)).
Proof.
  intros (l & w & lt & Hi)%reachable_inv En Hn0. destruct (i_core _ _ _ _ Hi) as (Hs & Ht & _). destruct (timer_first _ _ _ Ht) as [Ef _]. rewrite Ef in En. destruct lt as [|n' lt]; [by cbn in En|]. cbn in En. unfold id in En. subst n'. destruct (timer_first_node _ _ _ _ Ht) as (nd & Hnd & _). exists nd. split; [done|]. split; [|split].
  - intros m nm Hm. assert (Hin : m ∈ n :: lt) by (apply (t_dom _ _ _ Ht); eauto). apply elem_of_cons in Hin as [->|Hin]; [rewrite Hnd in Hm; injection Hm as <-; unfold time_le, time_lt; lia|]. pose proof (t_sorted _ _ _ Ht) as Hso. apply StronglySorted_cons in Hso as [Hf _]. rewrite Forall_forall in Hf. destruct (Hf m Hin) as (na & nb & Ha & Hb & H). simplify_eq. unfold time_le, time_lt in *. lia.
  - by destruct (t_node _ _ _ Ht n nd Hnd) as (_ & ?).
  - intros Hle. apply (s_run _ _ _ Hs). by apply (i_prompt _ _ _ _ Hi).
Qed.

(** The times of a sleep: the node of a task that sleeps from [curr] for [ms] milliseconds is due exactly when they have passed, to the
    nanosecond; seen from a later moment [now] the time that is left is at most [ms]; a wait of that time reaches the expiry, and passes
    it by less than a millisecond. *)
Theorem hev_task_timer_exact (curr now after : timespec) (ms : Z) : normal curr -> normal now -> normal after -> 0 < ms < 2 ^ 31 -> nanos curr <= nanos now ->
  let e := hev_task_timer_get_expire curr ms in let t := hev_task_timer_get_time now e in
  (time_le e after <-> nanos curr + ms * 1000000 <= nanos after) /\ 0 <= t <= ms /\ (nanos now + t * 1000000 <= nanos after -> time_le e after) /\ (nanos now < nanos e -> nanos now + t * 1000000 < nanos e + 1000000).
Proof.
  intros Hc Hn Ha Hms Hle e t.
  assert (He : nanos e = nanos curr + ms * 1000000 /\ 0 <= tv_nsec e <= 1000000000).
  { unfold e, hev_task_timer_get_expire, nanos, normal in *. pose proof (Z.div_mod ms 1000). pose proof (Z.mod_pos_bound ms 1000). case_match; rewrite ?Z.ltb_lt, ?Z.ltb_ge in *; cbn; lia. }
  destruct He as [He Hne]. assert (Hcmp : time_le e after <-> nanos e <= nanos after) by (unfold time_le, time_lt, nanos, normal in *; lia).
  assert (Ht : 0 <= t <= ms /\ nanos e <= nanos now + t * 1000000 /\ (nanos now < nanos e -> nanos now + t * 1000000 < nanos e + 1000000)).
  { unfold t, hev_task_timer_get_time. set (sec := tv_sec e - tv_sec now). set (nsec := tv_nsec e - tv_nsec now). assert (Hd : nanos e - nanos now = sec * 1000000000 + nsec) by (unfold nanos, sec, nsec; lia).
    set (sn := if nsec <? 0 then (sec - 1, nsec + 1000000000) else (sec, nsec)). assert (Hsn : nanos e - nanos now = fst sn * 1000000000 + snd sn /\ 0 <= snd sn <= 1000000000) by (unfold sn, nsec, normal in *; case_match; rewrite ?Z.ltb_lt, ?Z.ltb_ge in *; cbn; lia).
    destruct sn as [sec' nsec']. cbn in Hsn. destruct Hsn as [Hd' Hb]. destruct (Z.ltb_spec sec' 0) as [Hs|Hs]; [lia|]. pose proof (Z.div_mod (nsec' + 999999) 1000000). pose proof (Z.mod_pos_bound (nsec' + 999999) 1000000). unfold u32. rewrite Z.mod_small; lia. }
  rewrite Hcmp. destruct Ht as (T1 & T2 & T3). split_and!; try done; lia.
Qed.

Lemma schedule_tasks s s' p : hev_task_system_schedule s = Some (s', p) -> tasks (context s') = tasks (context s).
Proof. unfold hev_task_system_schedule, pick. repeat case_match; intros E; by simplify_eq. Qed.

Lemma removed_others c cur l w k runtime s s' p : sched c (cur :: l) w -> low c (cur :: l) -> current_task c = cur -> tasks c !! cur = Some k -> yields HEV_TASK_SCHED_REMOVE runtime (set_context c s) = Some (s', p) -> forall x, x <> cur -> tasks (context s') !! x = tasks c !! x.
Proof.
  intros Hs Hl Hc Hk E x Hx. unfold yields in E. destruct (sched_remove_ok c cur l w k runtime Hs Hl Hc Hk) as (c' & E1 & _ & Et & _). cbn [context set_context] in E. rewrite E1 in E. cbn [mbind option_bind] in E. rewrite (schedule_tasks _ _ _ E). cbn. rewrite Et. unfold ended. case_match; [by rewrite lookup_delete_ne|by rewrite lookup_insert_ne].
Qed.

(** C39. A task that ends by [hev_task_exit] does not wake the task that joins it, which stays as it was; one whose entry function
    returns does. *)
Theorem exit_forgets_joiner (s : system) (k : HevTask) : reachable s -> tasks (context s) !! current_task (context s) = Some k -> joiner k <> 0 -> allowed EExit s = true ->
  exists s1 p1 s2 p2, step EExit s = Some (s1, p1) /\ step EReturn s = Some (s2, p2) /\ tasks (context s1) !! joiner k = tasks (context s) !! joiner k /\ in_state (tasks (context s2)) HEV_TASK_RUNNING (joiner k).
Proof.
  intros (l & w & lt & Hi)%reachable_inv Hk Hj0 Ha. destruct (exit_good s l w lt Hi Ha) as (s1 & p1 & _ & _ & _ & E1 & _). destruct (return_good s l w lt Hi Ha) as (s2 & p2 & _ & _ & _ & E2 & _). exists s1, p1, s2, p2. split; [done|]. split; [done|].
  unfold allowed in Ha. rewrite !andb_true_iff in Ha. destruct Ha as (Hl & [Em Hpc]%in_task_spec & _). destruct (running_task _ _ _ _ Hi Em) as (l0 & k0 & -> & Hk0 & Est & H0 & _). rewrite Hk in Hk0. injection Hk0 as <-. pose proof (i_core _ _ _ _ Hi) as (Hs & _ & Hj). apply (lowb_ok _ _ _ Hs) in Hl.
  pose proof (j_joiner _ _ Hj _ k Hk ltac:(congruence) Hj0) as Hpj. assert (Hne : joiner k <> current_task (context s)) by (intros E; rewrite E in Hpj; congruence). split.
  - cbn [step] in E1. unfold hev_task_exit in E1. assert (Es : set_context (context s) s = s) by by destruct s. apply (removed_others (context s) _ l0 w k 1 s s1 p1 Hs Hl eq_refl Hk); [by rewrite Es|done].
  - destruct (j_alive _ _ Hj _ _ Hpj) as (kj & Hkj & Hstj). destruct (wakeup_ok _ _ w (joiner k) kj Hs Hl Hkj Hstj) as (c1 & l1 & w1 & Ew & Hs1 & Hl1 & Hg & Hin & _). cbn [step] in E2. unfold hev_task_executer, hev_task_exit, executer_end in E2. rewrite Hk in E2. cbn [mbind option_bind] in E2. rewrite (proj2 (Z.eqb_neq _ 0) Hj0) in E2. cbn [negb] in E2. rewrite Ew in E2. cbn [mbind option_bind] in E2.
    pose proof (g_head _ _ _ _ _ Hg ltac:(done)) as Hh. destruct l1 as [|z l1]; [done|]. injection Hh as ->. destruct (sched_dom _ _ _ (current_task (context s)) Hs1) as (k1 & Hk1 & _); [set_solver|]. destruct (g_frame _ _ _ _ _ Hg) as (F1 & _).
    unfold in_state. rewrite (removed_others c1 _ l1 w1 k1 1 s s2 p2 Hs1 Hl1 F1 Hk1 E2) by done. by apply (s_run _ _ _ Hs1).
Qed.

(** ** A run *)

Module SchedExample.

(** Tasks 16, 32 and 48 are started; 48 is the most urgent. *)
Definition start : list event := [ENew 16; ERun 16; ENew 32; ERef 32; ERun 32; ENew 48; ESetPriority 48 1; ERun 48; ESchedule].
(** 48 sleeps for 5 ms at 10.999 s, 16 joins 32, and the timer runs out. *)
Definition middle : list event := [ESleep 5 112 (mkTime 10 999000000) 3; EPoll [] (mkTime 10 999500000); EJoin 32 4; EPoll [] (mkTime 11 10000000)].
(** 32 returns, 48 goes on and returns, 16 goes on, frees 32 and returns. *)
Definition finish : list event := [EReturn; EResume (mkTime 11 20000000) 1; EReturn; EResume (mkTime 11 30000000) 1; EUnref 32; EReturn].

Definition life : list event := start ++ middle ++ finish.

Definition after (es : list event) : system := match run es hev_task_system_init with Some (s, _) => s | None => hev_task_system_init end.
Definition picks (es : list event) : list Z := match run es hev_task_system_init with Some (_, ps) => ps | None => [] end.

Example life_picks : picks life = [48; 16; 32; 48; 16] /\ at_ (after life) = Outside /\ tasks (context (after life)) = ∅ /\ timer_nodes (context (after life)) = ∅.
Proof. vm_compute. done. Qed.

Lemma reaches es : respects es hev_task_system_init = true -> (exists x, run es hev_task_system_init = Some x) -> reachable (after es).
Proof. intros Hr [[s ps] E]. exists es, ps. split; [done|]. unfold after. by rewrite E. Qed.

Lemma task_scheduler_safe_witness : respects life hev_task_system_init = true /\ exists s ps, run life hev_task_system_init = Some (s, ps).
Proof. split; [vm_compute; reflexivity|]. apply (task_scheduler_safe life). vm_compute. reflexivity. Defined.

Lemma started : reachable (after start).
Proof. apply reaches; [vm_compute; reflexivity|]. eexists. vm_compute. reflexivity. Qed.

Lemma halfway : reachable (after (start ++ middle)).
Proof. apply reaches; [vm_compute; reflexivity|]. eexists. vm_compute. reflexivity. Qed.

Lemma task_system_well_formed_witness : task_ok 32 (mkTask 8 16 2 8 8 HEV_TASK_RUNNING) /\ exists l (w : list Z), sequence l (running_tasks (context (after (start ++ middle)))) /\ 2 = Z.of_nat (length l) /\ 3 = Z.of_nat (length l + length w).
Proof.
  destruct (task_system_well_formed (after (start ++ middle)) halfway) as [Hok (l & w & Hs & _ & _ & _ & _ & _ & Hr & Ht)]. split; [apply Hok; vm_compute; reflexivity|]. exists l, w. split; [exact Hs|]. split; [exact Hr|exact Ht].
Defined.

(** The urgent task yields twice before 16 runs. *)
Lemma task_scheduler_bounded_wait_witness : exists s' ps, run [EYield 3; EYield 3] (after start) = Some (s', ps) /\ (16 ∉ ps -> Z.of_nat (count_occ Z.eq_dec ps 48) <= 8).
Proof.
  apply (task_scheduler_bounded_wait (after start) [EYield 3; EYield 3] 16 48 1 started).
  - vm_compute. reflexivity.
  - vm_compute. discriminate.
  - eexists. split; [vm_compute; reflexivity|reflexivity].
  - vm_compute. discriminate.
  - intros k E. vm_compute in E. injection E as <-. vm_compute. split; [discriminate|]. split; intros _; discriminate.
  - repeat constructor.
  - vm_compute. reflexivity.
Defined.

Lemma task_timer_prompt_witness : exists nd, timer_nodes (context (after (start ++ middle))) !! 112 = Some nd /\ (time_le (expire nd) (mkTime 11 10000000) -> in_state (tasks (context (after (start ++ middle)))) HEV_TASK_RUNNING (node_task nd)).
Proof.
  destruct (task_timer_prompt (after (start ++ middle)) 112 halfway) as (nd & H1 & _ & _ & H4); [vm_compute; reflexivity|discriminate|]. exists nd. split; [exact H1|exact H4].
Defined.

Lemma hev_task_timer_exact_witness : let e := hev_task_timer_get_expire (mkTime 10 999000000) 5 in e = mkTime 11 4000000 /\ hev_task_timer_get_time (mkTime 10 999500000) e = 5 /\ time_le e (mkTime 11 10000000).
Proof.
  intros e. split; [reflexivity|]. split; [reflexivity|].
  destruct (hev_task_timer_exact (mkTime 10 999000000) (mkTime 10 999500000) (mkTime 11 10000000) 5) as [Hdue _]; [unfold normal, nanos; cbn; lia..|]. apply Hdue. vm_compute. discriminate.
Defined.

(** 32 runs, and 16 joins it. *)
Lemma exit_forgets_joiner_witness : exists s1 p1 s2 p2, step EExit (after (start ++ middle)) = Some (s1, p1) /\ step EReturn (after (start ++ middle)) = Some (s2, p2)
  /\ tasks (context s1) !! 16 = tasks (context (after (start ++ middle))) !! 16 /\ in_state (tasks (context s2)) HEV_TASK_RUNNING 16.
Proof.
  eapply (exit_forgets_joiner (after (start ++ middle)) (mkTask 8 16 2 8 8 HEV_TASK_RUNNING) halfway); [vm_compute; reflexivity|discriminate|vm_compute; reflexivity].
Defined.

End SchedExample.
