(* ===== verification/Tunnel.v ===== *)
(** * The tunnel: its sessions

    Models the session set of hev/src/hev-socks5-tunnel.c: the linked list in which
    the sessions stand in the order of their last activity, the limit on their number,
    the callbacks that create them and the walk that ends them. *)

From S2P Require Import Prelude HevList.

(** [err_t] of lwIP. *)
Definition ERR_OK : Z := 0.
Definition ERR_MEM : Z := -1.
Definition ERR_RST : Z := -14.

(** [sessions]: the timeout of each session, by the address of its node;
    [hev_socks5_session_terminate] sets it to 0. *)
Record Tunnel := mkTunnel {
  run : bool;
  session_set : HevList;
  session_count : Z;
  sessions : gmap Z Z
}.

Definition new_tunnel : Tunnel := mkTunnel true (mkList ∅ 0 0) 0 ∅.

Definition hev_socks5_session_terminate (node : Z) (t : Tunnel) : option Tunnel :=
  _ ← sessions t !! node;
  Some (mkTunnel (run t) (session_set t) (session_count t) (<[node := 0]> (sessions t))).

Definition hev_socks5_tunnel_insert_session (max_session_count node : Z) (t : Tunnel) : option Tunnel :=
  l ← hev_list_add_tail (session_set t) node;
  let t := mkTunnel (run t) l (session_count t + 1) (sessions t) in
  if (max_session_count =? 0) || (session_count t <? max_session_count) then Some t
  else hev_socks5_session_terminate (hev_list_first (session_set t)) t.

Definition hev_socks5_tunnel_delete_session (node : Z) (t : Tunnel) : option Tunnel :=
  l ← hev_list_del (session_set t) node;
  Some (mkTunnel (run t) l (session_count t - 1) (sessions t)).

Definition hev_socks5_tunnel_update_session (max_session_count node : Z) (t : Tunnel) : option Tunnel :=
  if max_session_count =? 0 then Some t else
  l ← hev_list_del (session_set t) node;
  l ← hev_list_add_tail l node;
  Some (mkTunnel (run t) l (session_count t) (sessions t)).

(** What follows [hev_socks5_session_run] in [hev_socks5_session_task_entry]. *)
Definition hev_socks5_session_task_entry (node : Z) (t : Tunnel) : option Tunnel :=
  t ← hev_socks5_tunnel_delete_session node t;
  Some (mkTunnel (run t) (session_set t) (session_count t) (delete node (sessions t))).

(** [hev_socks5_session_tcp_new] and [hev_task_new]: a session (its node and timeout),
    and whether there is a task. *)
Definition tcp_accept_handler (max_session_count err : Z) (new : option (Z * Z)) (task : bool) (t : Tunnel)
  : option (Z * Tunnel) :=
  if negb (err =? ERR_OK) then Some (err, t) else
  if negb (run t) then Some (ERR_RST, t) else
  match new with
  | None => Some (ERR_MEM, t)
  | Some (node, timeout) =>
      if negb task then Some (ERR_MEM, t) else
      t ← hev_socks5_tunnel_insert_session max_session_count node
            (mkTunnel (run t) (session_set t) (session_count t) (<[node := timeout]> (sessions t)));
      Some (ERR_OK, t)
  end.

(** What becomes of a new flow of datagrams: it is refused, it is left to the mapped
    DNS, or there is a session for it. *)
Inductive flow := Refused | MappedDnsFlow | SessionFlow.

(** [dns]: whether the flow is for the address and port of an existing mapped DNS. *)
Definition udp_recv_handler (max_session_count : Z) (dns : bool) (new : option (Z * Z)) (task : bool) (t : Tunnel)
  : option (flow * Tunnel) :=
  if negb (run t) then Some (Refused, t) else
  if dns then Some (MappedDnsFlow, t) else
  match new with
  | None => Some (Refused, t)
  | Some (node, timeout) =>
      if negb task then Some (Refused, t) else
      t ← hev_socks5_tunnel_insert_session max_session_count node
            (mkTunnel (run t) (session_set t) (session_count t) (<[node := timeout]> (sessions t)));
      Some (SessionFlow, t)
  end.

(** The walk of [event_task_entry]. *)
Fixpoint terminate_all (fuel : nat) (node : Z) (t : Tunnel) : option Tunnel :=
  if node =? 0 then Some t else
  match fuel with
  | 0%nat => None
  | S fuel =>
      t ← hev_socks5_session_terminate node t;
      next ← hev_list_node_next (session_set t) node;
      terminate_all fuel next t
  end.

Definition event_task_entry (t : Tunnel) : option Tunnel :=
  let t := mkTunnel false (session_set t) (session_count t) (sessions t) in
  terminate_all (size (sessions t)) (hev_list_first (session_set t)) t.

(** ** The specification

    The sessions and their timeouts, the one that was active least recently first. *)

Record Spec := mkSpec { sp_run : bool; sp_list : list (Z * Z) }.

Inductive op :=
  | OpAccept (new : option (Z * Z)) (task : bool)
  | OpFlow (dns : bool) (new : option (Z * Z)) (task : bool)
  | OpActive (node : Z)
  | OpEnd (node : Z)
  | OpStop.

Section Limit.
Variable max_session_count : Z.

(** How many sessions there may be before one is told to end: one less than the setting,
    and any number if the setting is 0. *)
Definition spec_limit : option Z := if max_session_count =? 0 then None else Some (max_session_count - 1).

(** The session that was active least recently is told to end. *)
Definition spec_evict (l : list (Z * Z)) : list (Z * Z) :=
  match l with [] => [] | (n, _) :: l => (n, 0) :: l end.

Definition spec_insert (x : Z * Z) (l : list (Z * Z)) : list (Z * Z) :=
  let l := l ++ [x] in
  match spec_limit with
  | None => l
  | Some limit => if Z.of_nat (length l) <=? limit then l else spec_evict l
  end.

Definition spec_accept (new : option (Z * Z)) (task : bool) (s : Spec) : Spec :=
  match new with
  | Some x => if sp_run s && task then mkSpec true (spec_insert x (sp_list s)) else s
  | None => s
  end.

Definition spec_op (o : op) (s : Spec) : Spec :=
  match o with
  | OpAccept new task => spec_accept new task s
  | OpFlow dns new task => if dns then s else spec_accept new task s
  | OpActive n =>
      match spec_limit with
      | None => s
      | Some _ => mkSpec (sp_run s) (List.filter (fun x => negb (x.1 =? n)) (sp_list s)
                                  ++ List.filter (fun x => x.1 =? n) (sp_list s))
      end
  | OpEnd n => mkSpec (sp_run s) (List.filter (fun x => negb (x.1 =? n)) (sp_list s))
  | OpStop => mkSpec false ((fun x => (x.1, 0)) <$> sp_list s)
  end.

(** Only sessions that exist are active or end, and a new one is a new object. *)
Definition op_ok (o : op) (s : Spec) : Prop :=
  match o with
  | OpAccept (Some (n, _)) _ | OpFlow _ (Some (n, _)) _ => n <> 0 /\ n ∉ (sp_list s).*1
  | OpActive n | OpEnd n => n ∈ (sp_list s).*1
  | _ => True
  end.

Fixpoint ops_ok (ops : list op) (s : Spec) : Prop :=
  match ops with [] => True | o :: ops => op_ok o s /\ ops_ok ops (spec_op o s) end.

Definition exec (o : op) (t : Tunnel) : option Tunnel :=
  match o with
  | OpAccept new task => snd <$> tcp_accept_handler max_session_count ERR_OK new task t
  | OpFlow dns new task => snd <$> udp_recv_handler max_session_count dns new task t
  | OpActive n => hev_socks5_tunnel_update_session max_session_count n t
  | OpEnd n => hev_socks5_session_task_entry n t
  | OpStop => event_task_entry t
  end.

Fixpoint exec_all (ops : list op) (t : Tunnel) : option Tunnel :=
  match ops with [] => Some t | o :: ops => t ← exec o t; exec_all ops t end.
End Limit.

(** ** Refinement *)

(** The nodes in [l] are the sessions, in this order, with their timeouts. *)
Record rel (t : Tunnel) (s : Spec) : Prop := {
  rl_run : run t = sp_run s;
  rl_owns : owns (session_set t) (sessions t) (sp_list s).*1 (sp_list s).*2;
  rl_count : session_count t = Z.of_nat (length (sp_list s))
}.

Lemma rel_new : rel new_tunnel (mkSpec true []).
Proof. constructor; [done|apply owns_empty|done]. Qed.

(** The place of a session in the list. *)
Lemma rel_split t s n : rel t s -> n ∈ (sp_list s).*1 ->
  exists l1 v l2, sp_list s = l1 ++ (n, v) :: l2
    /\ List.filter (fun x => negb (x.1 =? n)) (sp_list s) = l1 ++ l2
    /\ List.filter (fun x => x.1 =? n) (sp_list s) = [(n, v)].
Proof.
  intros [_ ((Hnd & _) & _) _] Hn. apply list_elem_of_fmap in Hn as ([n' v] & -> & Hin).
  apply list_elem_of_split in Hin as (l1 & l2 & E'). exists l1, v, l2. split; [done|]. rewrite E' in *.
  rewrite fmap_app, fmap_cons in Hnd. cbn [fst] in *. apply NoDup_app in Hnd as (_ & H1 & [H2 _]%NoDup_cons).
  assert (Hout : forall l : list (Z * Z), n' ∉ l.*1 ->
    List.filter (fun x => negb (x.1 =? n')) l = l /\ List.filter (fun x => x.1 =? n') l = []).
  { induction l as [|[m w] l IH]; [done|]. cbn [List.filter fmap list_fmap fst]. intros [Hm Hl]%not_elem_of_cons.
    rewrite (proj2 (Z.eqb_neq m n')) by done. cbn [negb]. destruct (IH Hl) as [-> ->]. done. }
  destruct (Hout l1) as [A1 A2]; [intros Hin; specialize (H1 _ Hin); set_solver|]. destruct (Hout l2 H2) as [B1 B2].
  rewrite !List.filter_app. cbn [List.filter fst]. rewrite Z.eqb_refl. cbn [negb]. by rewrite A1, A2, B1, B2.
Qed.

Lemma split_owns {A} (l : HevList) (h : gmap Z A) l1 n v l2 :
  owns l h ((l1 ++ (n, v) :: l2).*1) ((l1 ++ (n, v) :: l2).*2) <-> owns l h (l1.*1 ++ n :: l2.*1) (l1.*2 ++ v :: l2.*2).
Proof. by rewrite !fmap_app, !fmap_cons. Qed.

Lemma spec_insert_limit mx x l :
  spec_insert mx x l = if (mx =? 0) || (Z.of_nat (length (l ++ [x])) <? mx) then l ++ [x] else spec_evict (l ++ [x]).
Proof.
  unfold spec_insert, spec_limit. destruct (mx =? 0); [done|]. cbn [orb].
  destruct (Z.leb_spec (Z.of_nat (length (l ++ [x]))) (mx - 1)), (Z.ltb_spec (Z.of_nat (length (l ++ [x]))) mx); done || lia.
Qed.

Lemma session_insert_ok mx n v t s : rel t s -> n <> 0 -> n ∉ (sp_list s).*1 ->
  exists t', hev_socks5_tunnel_insert_session mx n
      (mkTunnel (run t) (session_set t) (session_count t) (<[n := v]> (sessions t))) = Some t'
    /\ rel t' (mkSpec (sp_run s) (spec_insert mx (n, v) (sp_list s))).
Proof.
  intros [Hrun Ho Hc] Hn0 Hn. rewrite spec_insert_limit. unfold hev_socks5_tunnel_insert_session, spec_evict. cbn [session_set session_count sessions run].
  assert (Hfree : sessions t !! n = None).
  { destruct (sessions t !! n) eqn:E'; [|done]. destruct Ho as (_ & _ & Hd). destruct Hn. apply Hd. by eexists. }
  destruct (owns_add _ _ _ _ n v Ho Hn0 Hfree) as (l' & -> & Ho'). cbn [mbind option_bind].
  change [n] with ([(n, v)].*1) in Ho'. change [v] with ([(n, v)].*2) in Ho'. rewrite <- !fmap_app in Ho'.
  set (l := sp_list s ++ [(n, v)]) in *.
  assert (Hlen : session_count t + 1 = Z.of_nat (length l)) by (subst l; rewrite Hc, length_app; simpl; lia).
  rewrite Hlen. case_test.
  - eexists. split; [done|]. by constructor.
  - assert (Hne : l <> []) by (by subst l; destruct (sp_list s)). clearbody l. destruct l as [|[a w] l]; [done|].
    pose proof (owns_set l' _ [] a _ [] w _ 0 eq_refl Ho') as [Ha Ho2].
    assert (Hf : hev_list_first l' = a) by (destruct Ho' as ((_ & _ & Hh & _) & _); exact Hh).
    unfold hev_socks5_session_terminate. cbn [session_set sessions]. rewrite Hf, Ha. cbn [mbind option_bind].
    eexists. split; [done|]. constructor; [done|exact Ho2|done].
Qed.

Lemma accept_ok mx new task t s : rel t s ->
  match new with Some (n, _) => n <> 0 /\ n ∉ (sp_list s).*1 | None => True end ->
  exists r t', tcp_accept_handler mx ERR_OK new task t = Some (r, t') /\ rel t' (spec_accept mx new task s).
Proof.
  intros Hr Hn. pose proof (rl_run _ _ Hr) as Hrun. unfold tcp_accept_handler, spec_accept. cbn [Z.eqb ERR_OK negb].
  rewrite Hrun. destruct (sp_run s) eqn:Es; cbn [negb andb]; [|destruct new as [[n v]|]; by eexists _, _].
  destruct new as [[n v]|]; [|by eexists _, _]. destruct task; cbn [negb]; [|by eexists _, _].
  destruct Hn as [Hn0 Hn]. destruct (session_insert_ok mx n v t s Hr Hn0 Hn) as (t' & Ht & Hr'). rewrite Hrun, Es in *. rewrite Ht.
  by eexists _, _.
Qed.

Lemma flow_ok mx dns new task t s : rel t s ->
  match new with Some (n, _) => n <> 0 /\ n ∉ (sp_list s).*1 | None => True end ->
  exists r t', udp_recv_handler mx dns new task t = Some (r, t')
    /\ rel t' (if dns then s else spec_accept mx new task s).
Proof.
  intros Hr Hn. pose proof (rl_run _ _ Hr) as Hrun. unfold udp_recv_handler, spec_accept. rewrite Hrun.
  destruct (sp_run s) eqn:Es; cbn [negb andb]; [|destruct dns; [|destruct new as [[n v]|]]; by eexists _, _].
  destruct dns; [by eexists _, _|]. destruct new as [[n v]|]; [|by eexists _, _].
  destruct task; cbn [negb]; [|by eexists _, _].
  destruct Hn as [Hn0 Hn]. destruct (session_insert_ok mx n v t s Hr Hn0 Hn) as (t' & Ht & Hr'). rewrite Hrun, Es in *. rewrite Ht.
  by eexists _, _.
Qed.

Lemma active_ok mx n t s : rel t s -> n ∈ (sp_list s).*1 ->
  exists t', hev_socks5_tunnel_update_session mx n t = Some t' /\ rel t' (spec_op mx (OpActive n) s).
Proof.
  intros Hr Hn. destruct (rel_split t s n Hr Hn) as (l1 & v & l2 & El & E1 & E2).
  unfold hev_socks5_tunnel_update_session, spec_op, spec_limit. destruct (mx =? 0); [by exists t|]. rewrite E1, E2.
  destruct Hr as [Hrun Ho Hc]. rewrite El in *. apply split_owns in Ho.
  apply owns_move in Ho as (l' & Hm & Ho'); [|by rewrite !length_fmap].
  unfold move_to_tail in Hm. destruct (hev_list_del (session_set t) n) as [l0|]; [|done]. cbn [mbind option_bind] in *.
  rewrite Hm. cbn [mbind option_bind]. eexists. split; [done|]. constructor; cbn [run session_set session_count sessions sp_run sp_list].
  - done.
  - by rewrite <- app_assoc, !fmap_app.
  - rewrite Hc. repeat (rewrite length_app; cbn [length]). lia.
Qed.

Lemma end_ok mx n t s : rel t s -> n ∈ (sp_list s).*1 ->
  exists t', hev_socks5_session_task_entry n t = Some t' /\ rel t' (spec_op mx (OpEnd n) s).
Proof.
  intros Hr Hn. destruct (rel_split t s n Hr Hn) as (l1 & v & l2 & El & E1 & _).
  unfold hev_socks5_session_task_entry, hev_socks5_tunnel_delete_session, spec_op. rewrite E1.
  destruct Hr as [Hrun Ho Hc]. rewrite El in *. apply split_owns in Ho.
  apply owns_remove in Ho as (_ & l' & -> & Ho'); [|by rewrite !length_fmap].
  cbn [mbind option_bind]. eexists. split; [done|]. constructor; cbn [run session_set session_count sessions sp_run sp_list].
  - done.
  - by rewrite !fmap_app.
  - rewrite Hc. repeat (rewrite length_app; cbn [length]). lia.
Qed.

Lemma terminate_all_ok fuel : forall t l1 l2, (length l2 <= fuel)%nat ->
  owns (session_set t) (sessions t) ((l1 ++ l2).*1) (((fun x => (x.1, 0)) <$> l1).*2 ++ l2.*2) ->
  exists t', terminate_all fuel (first_or 0 (l2.*1)) t = Some t'
    /\ run t' = run t /\ session_count t' = session_count t
    /\ owns (session_set t') (sessions t') ((l1 ++ l2).*1) (((fun x => (x.1, 0)) <$> (l1 ++ l2)).*2).
Proof.
  induction fuel as [|fuel IH]; intros t l1 l2 Hf Ho; destruct l2 as [|[a v] l2]; cbn [length] in Hf; try lia;
    [exists t; rewrite !app_nil_r in *; by split_and!..|].
  assert (Hlen : length (l1.*1) = length (((fun x : Z * Z => (x.1, 0)) <$> l1).*2)) by (by rewrite !length_fmap).
  rewrite fmap_app in Ho. cbn [fmap list_fmap fst snd] in Ho.
  destruct (owns_set _ _ (l1.*1) a (l2.*1) _ v (l2.*2) 0 Hlen Ho) as [Ha Ho2].
  pose proof Ho2 as (Hl & _).
  assert (Ha0 : a <> 0) by (destruct Hl as (_ & Hl & _); eapply linked_nonzero; [exact Hl|set_solver]).
  cbn [terminate_all fmap list_fmap first_or list.head default from_option fst]. unfold id.
  rewrite (proj2 (Z.eqb_neq a 0) Ha0). unfold hev_socks5_session_terminate. rewrite Ha. cbn [mbind option_bind session_set].
  destruct (first_next_ok _ _ _ _ Hl) as [-> _]. cbn [mbind option_bind].
  destruct (IH (mkTunnel (run t) (session_set t) (session_count t) (<[a := 0]> (sessions t))) (l1 ++ [(a, v)]) l2)
    as (t' & Ht & Hr & Hc & Ho'); [lia| |].
  { cbn [session_set sessions]. rewrite !fmap_app. cbn [fmap list_fmap fst snd]. by rewrite <- !app_assoc. }
  exists t'. rewrite <- app_assoc in Ho'. by split_and!.
Qed.

Lemma stop_ok mx t s : rel t s -> exists t', event_task_entry t = Some t' /\ rel t' (spec_op mx OpStop s).
Proof.
  intros [Hrun Ho Hc]. unfold event_task_entry. cbn [sessions session_set].
  destruct (terminate_all_ok (size (sessions t)) (mkTunnel false (session_set t) (session_count t) (sessions t)) [] (sp_list s))
    as (t' & Ht & Hr & Hcnt & Ho').
  - pose proof (owns_size _ _ _ _ Ho) as Hs. by rewrite length_fmap in Hs.
  - exact Ho.
  - exists t'. split.
    + unfold hev_list_first. destruct Ho as ((_ & _ & -> & _) & _). exact Ht.
    + constructor; cbn [sp_run sp_list spec_op].
      * by rewrite Hr.
      * rewrite <- (list_fmap_compose _ fst (sp_list s)). exact Ho'.
      * by rewrite Hcnt, length_fmap.
Qed.

Lemma exec_ok mx o t s : rel t s -> op_ok o s -> exists t', exec mx o t = Some t' /\ rel t' (spec_op mx o s).
Proof.
  intros Hr Ho. destruct o as [new task|dns new task|n|n|]; cbn [exec spec_op op_ok] in *.
  - destruct (accept_ok mx new task t s Hr) as (r & t' & -> & Hr'); [by destruct new as [[n v]|]|]. by exists t'.
  - destruct (flow_ok mx dns new task t s Hr) as (r & t' & -> & Hr'); [by destruct new as [[n v]|]|]. by exists t'.
  - by apply active_ok.
  - by apply (end_ok mx).
  - by apply (stop_ok mx).
Qed.

Lemma exec_all_ok mx ops : forall t s, rel t s -> ops_ok mx ops s ->
  exists t', exec_all mx ops t = Some t' /\ rel t' (foldl (fun s o => spec_op mx o s) s ops).
Proof.
  induction ops as [|o ops IH]; intros t s Hr Ho; cbn [exec_all foldl]; [by exists t|].
  destruct Ho as [H1 H2]. destruct (exec_ok mx o t s Hr H1) as (t1 & -> & Hr1). cbn [mbind option_bind]. by apply IH.
Qed.

(** ** Properties *)

Definition after (mx : Z) (ops : list op) : Spec := foldl (fun s o => spec_op mx o s) (mkSpec true []) ops.


(** The limit.  If fewer than [max] sessions exist, a new connection leaves at most
    [max]; if it makes [max], the session that was active least recently is told to end,
    and when it has there are [max - 1]; otherwise no session is disturbed. *)
Theorem tunnel_session_limit mx ops n v t : 1 <= mx -> ops_ok mx ops (mkSpec true []) ->
  exec_all mx ops new_tunnel = Some t -> run t = true -> session_count t < mx ->
  n <> 0 -> n ∉ (sp_list (after mx ops)).*1 ->
  exists t', tcp_accept_handler mx ERR_OK (Some (n, v)) true t = Some (ERR_OK, t')
    /\ session_count t' = session_count t + 1
    /\ (session_count t' < mx -> sessions t' = <[n := v]> (sessions t))
    /\ (session_count t' = mx -> exists t'',
          sessions t' !! hev_list_first (session_set t') = Some 0
          /\ (forall m, m <> hev_list_first (session_set t') -> sessions t' !! m = <[n := v]> (sessions t) !! m)
          /\ hev_socks5_session_task_entry (hev_list_first (session_set t')) t' = Some t''
          /\ session_count t'' = mx - 1).
Proof.
  intros Hmx Ho Ht Hrun Hlt Hn0 Hn.
  destruct (exec_all_ok mx ops _ _ rel_new Ho) as (t0 & Ht0 & Hr). fold (after mx ops) in Hr.
  rewrite Ht in Ht0. injection Ht0 as <-. set (s := after mx ops) in *. clearbody s.
  unfold tcp_accept_handler. cbn [Z.eqb ERR_OK negb]. rewrite Hrun. cbn [negb].
  destruct (session_insert_ok mx n v t s Hr Hn0 Hn) as (t' & Hi & Hr'). rewrite Hrun in Hi. rewrite Hi. cbn [mbind option_bind].
  exists t'. split; [done|]. unfold hev_socks5_tunnel_insert_session in Hi. cbn [session_set session_count sessions run] in Hi.
  destruct (hev_list_add_tail (session_set t) n) as [l|]; [|done]. cbn [mbind option_bind] in Hi.
  rewrite (proj2 (Z.eqb_neq mx 0)) in Hi by lia. cbn [orb] in Hi. destruct (Z.ltb_spec (session_count t + 1) mx).
  { injection Hi as <-. cbn [session_count sessions]. split_and!; [done|done|lia]. }
  unfold hev_socks5_session_terminate in Hi. cbn [session_set sessions session_count run] in Hi.
  destruct (_ !! hev_list_first l) as [x|] eqn:Ef; [|done]. cbn [mbind option_bind] in Hi. injection Hi as <-.
  cbn [session_count sessions session_set]. split; [done|]. split; [lia|]. intros _.
  destruct (end_ok mx (hev_list_first l) _ _ Hr') as (t'' & He & Hr'').
  { destruct Hr' as [_ (_ & _ & Hd) _]. cbn [sessions sp_list] in Hd. apply Hd. rewrite lookup_insert_eq. by eexists. }
  exists t''. split_and!; [by rewrite lookup_insert_eq|by intros m Hm; apply lookup_insert_ne|done|].
  unfold hev_socks5_session_task_entry, hev_socks5_tunnel_delete_session in He. cbn [session_set session_count sessions run] in He.
  destruct (hev_list_del l (hev_list_first l)); [|done]. cbn [mbind option_bind] in He. injection He as <-. cbn. lia.
Qed.

(** The stop is final: after [event_task_entry] every session there is has been told
    to end, whatever happens afterwards, and no connection is accepted. *)
Theorem tunnel_stop_ends_sessions mx ops1 ops2 t : ops_ok mx (ops1 ++ OpStop :: ops2) (mkSpec true []) ->
  exec_all mx (ops1 ++ OpStop :: ops2) new_tunnel = Some t ->
  run t = false /\ (forall n v, sessions t !! n = Some v -> v = 0)
  /\ forall new task, tcp_accept_handler mx ERR_OK new task t = Some (ERR_RST, t).
Proof.
  intros Ho Ht. destruct (exec_all_ok mx _ _ _ rel_new Ho) as (t0 & Ht0 & Hr). rewrite Ht in Ht0. injection Ht0 as <-.
  rewrite foldl_app in Hr. cbn [foldl] in Hr.
  assert (Hz : forall ops s, sp_run s = false -> Forall (fun x => x.2 = 0) (sp_list s) ->
    sp_run (foldl (fun s o => spec_op mx o s) s ops) = false
    /\ Forall (fun x => x.2 = 0) (sp_list (foldl (fun s o => spec_op mx o s) s ops))).
  { clear. induction ops as [|o ops IH]; intros s Hs Hz; [done|]. cbn [foldl].
    assert (Hf : forall P, Forall (fun x : Z * Z => x.2 = 0) (List.filter P (sp_list s))).
    { intros P. rewrite Forall_forall in *. intros x Hx. apply list_elem_of_In, List.filter_In in Hx as [Hx _].
      apply Hz. by apply list_elem_of_In. }
    apply IH; destruct o as [new task|dns new task|n|n|]; cbn [spec_op spec_accept]; unfold spec_accept; rewrite ?Hs; cbn [andb].
    all: try (by repeat case_match).
    - repeat case_match; try done. cbn [sp_list]. by apply Forall_app.
    - cbn. by apply Hf.
    - cbn. apply Forall_fmap, Forall_true. done. }
  destruct (Hz ops2 (spec_op mx OpStop (foldl (fun s o => spec_op mx o s) (mkSpec true []) ops1))) as [H1 H2];
    [done|cbn; by apply Forall_fmap, Forall_true|].
  destruct Hr as [Hrun (_ & HF & Hd) _]. rewrite H1 in Hrun. split; [done|]. split.
  - intros n v Hv. assert (Hin : n ∈ (sp_list (foldl (fun s o => spec_op mx o s)
      (spec_op mx OpStop (foldl (fun s o => spec_op mx o s) (mkSpec true []) ops1)) ops2)).*1) by (apply Hd; by eexists).
    apply list_elem_of_lookup in Hin as (i & Hi). destruct (Forall2_lookup_l _ _ _ _ _ HF Hi) as (w & Hw & Hnw).
    rewrite list_lookup_fmap in Hw. destruct (_ !! i) as [[n' v']|] eqn:E' in Hw; [|done]. injection Hw as <-.
    rewrite Forall_lookup in H2. specialize (H2 i _ E'). cbn in *. congruence.
  - intros new task. unfold tcp_accept_handler. by rewrite Hrun.
Qed.

(** With a limit of one session no session survives: the new one is terminated. *)
Lemma limit_of_one n v : n <> 0 -> exists t,
  tcp_accept_handler 1 ERR_OK (Some (n, v)) true new_tunnel = Some (ERR_OK, t) /\ sessions t !! n = Some 0.
Proof.
  intros Hn. destruct (session_insert_ok 1 n v new_tunnel _ rel_new Hn) as (t & Ht & [_ (_ & HF & _) _]); [set_solver|].
  exists t. split; [unfold tcp_accept_handler; change (run new_tunnel) with true in Ht |- *; cbn [Z.eqb ERR_OK negb]; by rewrite Ht|].
  cbn in HF. by apply Forall2_cons in HF as [? _].
Qed.

Module TunnelWitness.

(** Three sessions with a limit of three: the first is active after the second was
    created, so the second is told to end, and does. *)
Definition day : list op :=
  [OpAccept (Some (8, 300)) true; OpFlow false (Some (16, 60)) true; OpActive 8; OpFlow true None true;
   OpAccept (Some (24, 300)) true; OpEnd 16].

Lemma tunnel_day_ok : ops_ok 3 day (mkSpec true []).
Proof. cbn. split_and!; first [done|set_solver|lia]. Qed.


Lemma tunnel_session_limit_witness :
  exists t t', exec_all 3 day new_tunnel = Some t
    /\ tcp_accept_handler 3 ERR_OK (Some (32, 9)) true t = Some (ERR_OK, t') /\ session_count t' = 3
    /\ sessions t' !! hev_list_first (session_set t') = Some 0.
Proof.
  assert (Hrun : exists t, exec_all 3 day new_tunnel = Some t /\ run t = true /\ session_count t = 2)
    by (eexists; split; [vm_compute; reflexivity|]; split; reflexivity).
  destruct Hrun as (t & Ht & Hr & Hc).
  destruct (tunnel_session_limit 3 day 32 9 t) as (t' & H1 & H2 & _ & H3);
    [clear; lia|exact tunnel_day_ok|exact Ht|exact Hr|rewrite Hc; clear; lia|discriminate|clear; cbn; set_solver|].
  assert (H4 : session_count t' = 3) by (rewrite H2, Hc; reflexivity). destruct (H3 H4) as (t'' & H5 & _).
  exists t, t'. exact (conj Ht (conj H1 (conj H4 H5))).
Defined.

Lemma tunnel_stop_ends_sessions_witness :
  exists t, exec_all 3 (day ++ OpStop :: [OpAccept (Some (40, 300)) true; OpEnd 8]) new_tunnel = Some t
    /\ run t = false /\ sessions t !! 24 = Some 0.
Proof.
  assert (Hrun : exists t, exec_all 3 (day ++ OpStop :: [OpAccept (Some (40, 300)) true; OpEnd 8]) new_tunnel = Some t
    /\ is_Some (sessions t !! 24)) by (eexists; split; [vm_compute; reflexivity|]; by eexists).
  destruct Hrun as (t & Ht & v & Hv).
  destruct (tunnel_stop_ends_sessions 3 day [OpAccept (Some (40, 300)) true; OpEnd 8] t) as (H1 & H2 & _);
    [clear; cbn; split_and!; first [done|set_solver|lia]|exact Ht|].
  exists t. rewrite Hv. rewrite (H2 24 v Hv). exact (conj Ht (conj H1 eq_refl)).
Defined.

End TunnelWitness.
