(* ===== verification/TunnelSync.v ===== *)
(** * The tunnel: starting and stopping

    Models how hev/src/hev-socks5-tunnel.c is stopped from another thread.  The
    tunnel's thread runs [hev_socks5_tunnel_init], [hev_socks5_tunnel_run] and
    [hev_socks5_tunnel_fini] in turn, over and over; any number of threads call
    [hev_socks5_tunnel_stop] meanwhile.  They agree through the atomic [tsync] and
    the socket pair [event_fds].  One step is one atomic operation or one system
    call. *)

From stdpp Require Import relations.
From S2P Require Import Prelude.

Definition SYNC_SEND : Z := Z.shiftl 1 0.
Definition SYNC_SENT : Z := Z.shiftl 1 1.
Definition SYNC_WAIT : Z := Z.shiftl 1 2.
Definition SYNC_STOP : Z := Z.shiftl 1 3.

(** Where the tunnel's thread is: outside, in [init] with the socket pair open, after
    [init], in [run] before a byte was read from the pair, after that, after [run], in
    the loop of [fini], and behind it. *)
Inductive mpc := M_idle | M_open | M_ready | M_run | M_woken | M_ended | M_fini | M_close.

(** Where the thread is that has set [SYNC_WAIT] in [stop]; [S_done told]: [told] if it
    had seen [SYNC_SEND]. *)
Inductive spc := S_send | S_write | S_nosend | S_done (told : bool).

#[global] Instance mpc_eq_dec : EqDecision mpc.
Proof. solve_decision. Defined.

(** [fds]: whether [event_fds] are open; [pipe]: the bytes in the pair; [stray]: a byte
    was written to a descriptor that was closed. *)
Record Sync := mkSync {
  tsync : Z; main : mpc; crit : option spc; fds : bool; pipe : nat; stray : bool
}.

Definition start : Sync := mkSync 0 M_idle None false 0 false.

Definition has (ts bit : Z) : bool := negb (Z.land ts bit =? 0).

(** ** The tunnel's thread *)

(** [event_task_init] succeeds, or it or what precedes it fails. *)
Definition init_open (ok : bool) (s : Sync) : Sync :=
  if ok then mkSync (tsync s) M_open (crit s) true 0 (stray s)
  else mkSync (tsync s) M_fini (crit s) (fds s) (pipe s) (stray s).

(** The rest of [hev_socks5_tunnel_init]; if it fails it calls [fini]. *)
Definition init_done (ok : bool) (s : Sync) : Sync :=
  if ok then mkSync (Z.lor (tsync s) SYNC_SEND) M_ready (crit s) (fds s) (pipe s) (stray s)
  else mkSync (tsync s) M_fini (crit s) (fds s) (pipe s) (stray s).

Definition hev_socks5_tunnel_run (s : Sync) : Sync :=
  mkSync (Z.land (tsync s) (Z.lnot SYNC_STOP)) (if has (tsync s) SYNC_STOP then M_ended else M_run)
    (crit s) (fds s) (pipe s) (stray s).

(** [hev_task_io_read] of at most four bytes, in [event_task_entry]. *)
Definition event_read (s : Sync) : Sync :=
  mkSync (tsync s) M_woken (crit s) (fds s) (pipe s - 4) (stray s).

Definition event_clear (s : Sync) : Sync :=
  mkSync (Z.land (tsync s) (Z.lnot SYNC_SENT)) M_ended (crit s) (fds s) (pipe s) (stray s).

(** One turn of the loop of [hev_socks5_tunnel_fini]. *)
Definition fini_try (s : Sync) : Sync :=
  mkSync (Z.land (tsync s) (Z.lnot (Z.lor SYNC_SEND SYNC_SENT))) (if has (tsync s) SYNC_WAIT then M_fini else M_close)
    (crit s) (fds s) (pipe s) (stray s).

(** [event_task_fini] and the rest. *)
Definition fini_close (s : Sync) : Sync := mkSync (tsync s) M_idle (crit s) false 0 (stray s).

(** ** The threads that stop it *)

Definition stop_enter (s : Sync) : Sync :=
  mkSync (Z.lor (tsync s) SYNC_WAIT) (main s)
    (if has (tsync s) SYNC_WAIT then crit s else Some (if has (tsync s) SYNC_SEND then S_send else S_nosend))
    (fds s) (pipe s) (stray s).

Definition stop_send (s : Sync) : Sync :=
  mkSync (Z.lor (tsync s) SYNC_SENT) (main s) (Some (if has (tsync s) SYNC_SENT then S_done true else S_write))
    (fds s) (pipe s) (stray s).

Definition stop_write (s : Sync) : Sync :=
  mkSync (tsync s) (main s) (Some (S_done true)) (fds s) (if fds s then S (pipe s) else pipe s)
    (stray s || negb (fds s)).

Definition stop_nosend (s : Sync) : Sync :=
  mkSync (Z.lor (tsync s) SYNC_STOP) (main s) (Some (S_done false)) (fds s) (pipe s) (stray s).

Definition stop_leave (s : Sync) : Sync :=
  mkSync (Z.land (tsync s) (Z.lnot SYNC_WAIT)) (main s) None (fds s) (pipe s) (stray s).

(** ** Executions *)

Inductive step : Sync -> Sync -> Prop :=
  | InitOpen ok s : main s = M_idle -> step s (init_open ok s)
  | InitDone ok s : main s = M_open -> step s (init_done ok s)
  | Run s : main s = M_ready -> step s (hev_socks5_tunnel_run s)
  | EventRead s : main s = M_run -> (0 < pipe s)%nat -> step s (event_read s)
  | EventClear s : main s = M_woken -> step s (event_clear s)
  | FiniEnter s : main s = M_ended -> step s (mkSync (tsync s) M_fini (crit s) (fds s) (pipe s) (stray s))
  | FiniTry s : main s = M_fini -> step s (fini_try s)
  | FiniClose s : main s = M_close -> step s (fini_close s)
  | StopEnter s : step s (stop_enter s)
  | StopSend s : crit s = Some S_send -> step s (stop_send s)
  | StopWrite s : crit s = Some S_write -> step s (stop_write s)
  | StopNoSend s : crit s = Some S_nosend -> step s (stop_nosend s)
  | StopLeave told s : crit s = Some (S_done told) -> step s (stop_leave s).

Definition reachable (s : Sync) : Prop := rtc step start s.

(** ** The flags *)

Definition enc (send sent wait stop : bool) : Z :=
  Z.b2z send + 2 * Z.b2z sent + 4 * Z.b2z wait + 8 * Z.b2z stop.

Lemma enc_has a b c d :
  has (enc a b c d) SYNC_SEND = a /\ has (enc a b c d) SYNC_SENT = b
  /\ has (enc a b c d) SYNC_WAIT = c /\ has (enc a b c d) SYNC_STOP = d.
Proof. by destruct a, b, c, d. Qed.

Lemma enc_or a b c d :
  Z.lor (enc a b c d) SYNC_SEND = enc true b c d /\ Z.lor (enc a b c d) SYNC_SENT = enc a true c d
  /\ Z.lor (enc a b c d) SYNC_WAIT = enc a b true d /\ Z.lor (enc a b c d) SYNC_STOP = enc a b c true.
Proof. by destruct a, b, c, d. Qed.

Lemma enc_and a b c d :
  Z.land (enc a b c d) (Z.lnot SYNC_SENT) = enc a false c d
  /\ Z.land (enc a b c d) (Z.lnot SYNC_WAIT) = enc a b false d
  /\ Z.land (enc a b c d) (Z.lnot SYNC_STOP) = enc a b c false
  /\ Z.land (enc a b c d) (Z.lnot (Z.lor SYNC_SEND SYNC_SENT)) = enc false false c d.
Proof. by destruct a, b, c, d. Qed.

(** ** The invariant *)

(** The phases in which the socket pair may be used, and those in which a stop has to
    be heard. *)
Definition serving (m : mpc) : bool :=
  match m with M_ready | M_run | M_woken | M_ended | M_fini => true | _ => false end.
Definition listening (m : mpc) : bool := match m with M_ready | M_run => true | _ => false end.
Definition before_run (m : mpc) : bool := match m with M_close | M_idle | M_open | M_ready => true | _ => false end.

Definition is_crit (cr : option spc) (x : spc) : bool :=
  match cr, x with
  | Some S_send, S_send | Some S_write, S_write | Some S_nosend, S_nosend => true
  | Some (S_done a), S_done b => Bool.eqb a b
  | _, _ => false
  end.

Definition is_open (m : mpc) : bool := match m with M_open => true | _ => false end.

(** The invariant as a test on the flags, the two places, [fds], and whether there are
    bytes in the pair. *)
Definition okb (send sent wait stop : bool) (m : mpc) (cr : option spc) (f p : bool) : bool :=
  Bool.eqb wait (match cr with Some _ => true | None => false end)
  && implb send (f && serving m)
  && implb (is_open m) f
  && implb (is_crit cr S_send || is_crit cr S_write) (f && serving m)
  && implb (sent || is_crit cr (S_done true)) (serving m)
  && implb (sent && listening m) (is_crit cr S_write || p)
  && implb (is_crit cr (S_done true) && listening m) p
  && implb (is_crit cr (S_done false) && before_run m) stop.

Definition inv (s : Sync) : Prop := exists a b c d, tsync s = enc a b c d
  /\ okb a b c d (main s) (crit s) (fds s) (bool_decide (0 < pipe s)%nat) = true /\ stray s = false.

(** *** The test over all combinations *)

Definition bools : list bool := [true; false].
Definition mpcs : list mpc := [M_idle; M_open; M_ready; M_run; M_woken; M_ended; M_fini; M_close].
Definition crits : list (option spc) :=
  [None; Some S_send; Some S_write; Some S_nosend; Some (S_done true); Some (S_done false)].

Definition everywhere (P : bool -> bool -> bool -> bool -> mpc -> option spc -> bool -> bool -> bool) : bool :=
  forallb (fun a => forallb (fun b => forallb (fun c => forallb (fun d => forallb (fun m => forallb (fun cr =>
    forallb (fun f => forallb (fun p => P a b c d m cr f p) bools) bools) crits) mpcs) bools) bools) bools) bools.

Lemma forallb_all {A} (l : list A) : (forall x, In x l) -> forall f, forallb f l = true -> forall x, f x = true.
Proof. intros Hl f H x. rewrite forallb_forall in H. auto. Qed.

Lemma everywhere_ok P : everywhere P = true -> forall a b c d m cr f p, P a b c d m cr f p = true.
Proof.
  intros H a b c d m cr f p. unfold everywhere in H.
  assert (Hb : forall x, In x bools) by (intros []; cbn; auto).
  assert (Hm : forall x, In x mpcs) by (intros []; cbn; tauto).
  assert (Hc : forall x, In x crits) by (intros [[| | |[]]|]; cbn; tauto).
  pose proof (forallb_all _ Hb _ H a) as Ha. pose proof (forallb_all _ Hb _ Ha b) as Hbb.
  pose proof (forallb_all _ Hb _ Hbb c) as Hcc. pose proof (forallb_all _ Hb _ Hcc d) as Hd.
  pose proof (forallb_all _ Hm _ Hd m) as Hmm. pose proof (forallb_all _ Hc _ Hmm cr) as Hcr.
  pose proof (forallb_all _ Hb _ Hcr f) as Hf. exact (forallb_all _ Hb _ Hf p).
Qed.

(** Every step from a state that passes the test leads to one that does. *)
Definition steps_ok (a b c d : bool) (m : mpc) (cr : option spc) (f p : bool) : bool :=
  implb (okb a b c d m cr f p)
    (match m with
     | M_idle => okb a b c d M_open cr true false && okb a b c d M_fini cr f p
     | M_open => okb true b c d M_ready cr f p && okb a b c d M_fini cr f p
     | M_ready => okb a b c false (if d then M_ended else M_run) cr f p
     | M_run => okb a b c d M_woken cr f true && okb a b c d M_woken cr f false
     | M_woken => okb a false c d M_ended cr f p
     | M_ended => okb a b c d M_fini cr f p
     | M_fini => okb false false c d (if c then M_fini else M_close) cr f p
     | M_close => okb a b c d M_idle cr false false
     end
     && okb a b true d m (if c then cr else Some (if a then S_send else S_nosend)) f p
     && match cr with
        | Some S_send => okb a true c d m (Some (if b then S_done true else S_write)) f p
        | Some S_write => f && okb a b c d m (Some (S_done true)) f true
        | Some S_nosend => okb a b c true m (Some (S_done false)) f p
        | Some (S_done _) => okb a b false d m None f p
        | None => true
        end).

Lemma steps_ok_all : forall a b c d m cr f p, steps_ok a b c d m cr f p = true.
Proof. apply everywhere_ok. vm_compute. reflexivity. Qed.

(** Compute the flags. *)
Ltac sync :=
  repeat match goal with
  | |- context [enc ?a ?b ?c ?d] => first
      [ destruct (enc_has a b c d) as (-> & _) | destruct (enc_has a b c d) as (_ & -> & _)
      | destruct (enc_has a b c d) as (_ & _ & -> & _) | destruct (enc_has a b c d) as (_ & _ & _ & ->)
      | destruct (enc_or a b c d) as (-> & _) | destruct (enc_or a b c d) as (_ & -> & _)
      | destruct (enc_or a b c d) as (_ & _ & -> & _) | destruct (enc_or a b c d) as (_ & _ & _ & ->)
      | destruct (enc_and a b c d) as (-> & _) | destruct (enc_and a b c d) as (_ & -> & _)
      | destruct (enc_and a b c d) as (_ & _ & -> & _) | destruct (enc_and a b c d) as (_ & _ & _ & ->) ]
  end.

Lemma sync_inv_step s s' : inv s -> step s s' -> inv s'.
Proof.
  destruct s as [ts m cr f p st]. intros (a & b & c & d & Hts & Hok & Hst) Hs.
  cbn [tsync main crit fds pipe stray] in *. subst st ts.
  pose proof (steps_ok_all a b c d m cr f (bool_decide (0 < p)%nat)) as Hall. unfold steps_ok in Hall.
  rewrite Hok in Hall. cbn [implb] in Hall. apply andb_true_iff in Hall as [Hall Hcr].
  apply andb_true_iff in Hall as [Hm Henter].
  inversion Hs as [ok s Hpc|ok s Hpc|s Hpc|s Hpc Hp|s Hpc|s Hpc|s Hpc|s Hpc|s|s Hc|s Hc|s Hc|told s Hc]; subst s s';
    cbn [main crit pipe] in *; subst;
    unfold init_open, init_done, hev_socks5_tunnel_run, event_read, event_clear, fini_try, fini_close,
      stop_enter, stop_send, stop_write, stop_nosend, stop_leave; cbn [tsync main crit fds pipe stray]; sync;
    unfold inv; cbn [tsync main crit fds pipe stray].
  all: try (by eexists _, _, _, _).
  - apply andb_true_iff in Hm as [H1 H2]. destruct ok; by eexists _, _, _, _.
  - apply andb_true_iff in Hm as [H1 H2]. destruct ok; by eexists _, _, _, _.
  - apply andb_true_iff in Hm as [H1 H2]. eexists _, _, _, _. split; [done|]. split; [|done].
    by destruct (bool_decide (0 < p - 4)%nat).
  - apply andb_true_iff in Hcr as [-> Hcr]. eexists _, _, _, _. split; [done|]. split; [|done].
    by rewrite bool_decide_true by lia.
Qed.

Lemma sync_inv_reachable s : reachable s -> inv s.
Proof.
  apply (rtc_ind_r inv); [by exists false, false, false, false|]. intros x y _ Hs Hi. by eapply sync_inv_step.
Qed.

(** ** Properties *)

(** C9. Stopping is safe: in every interleaving of the tunnel's thread, through any
    number of starts, with any number of threads that stop it, no byte is written to a
    descriptor that is closed, [SYNC_WAIT] is set exactly while one thread is inside
    [hev_socks5_tunnel_stop], and [event_fds] are not closed while it may use them. *)
Theorem tunnel_stop_safe s : reachable s ->
  stray s = false
  /\ (has (tsync s) SYNC_WAIT = true <-> crit s <> None)
  /\ (crit s = Some S_send \/ crit s = Some S_write -> fds s = true /\ main s <> M_close).
Proof.
  intros (a & b & c & d & Ht & Hok & Hst)%sync_inv_reachable. split; [done|]. rewrite Ht.
  destruct (enc_has a b c d) as (_ & _ & -> & _). unfold okb in Hok.
  repeat match type of Hok with _ && _ = true => apply andb_true_iff in Hok as [Hok ?] end.
  split.
  - apply Bool.eqb_prop in Hok as ->. destruct (crit s); done.
  - intros [Hc|Hc]; rewrite Hc in *; cbn in *; destruct (fds s), (main s); done.
Qed.

(** C8. A stop is heard.  When a thread that found [SYNC_SEND] set is about to return
    from [hev_socks5_tunnel_stop] and the tunnel is about to run or runs, then there is
    a byte in the socket pair, so the event task is woken and stops the tunnel; when it
    found the tunnel not initialised and [run] has not been entered, [SYNC_STOP] is set,
    and [run] will return at once. *)
Theorem tunnel_stop_heard s told : reachable s -> crit s = Some (S_done told) ->
  (told = true -> main s = M_ready \/ main s = M_run -> (0 < pipe s)%nat)
  /\ (told = true -> main s = M_run -> exists s', step s s' /\ main s' = M_woken)
  /\ (told = false -> main s = M_idle \/ main s = M_open \/ main s = M_ready ->
      has (tsync s) SYNC_STOP = true /\ main (hev_socks5_tunnel_run s) = M_ended).
Proof.
  intros (a & b & c & d & Ht & Hok & Hst)%sync_inv_reachable Hc. unfold okb in Hok. rewrite Hc in Hok.
  repeat match type of Hok with _ && _ = true => apply andb_true_iff in Hok as [Hok ?] end.
  assert (Hpipe : told = true -> main s = M_ready \/ main s = M_run -> (0 < pipe s)%nat).
  { intros -> Hm. apply (bool_decide_unpack (0 < pipe s)%nat), Is_true_eq_left. destruct Hm as [Hm|Hm]; rewrite Hm in *; done. }
  split; [done|]. split.
  - intros Htold Hm. exists (event_read s). split; [|done]. apply EventRead; auto.
  - intros -> Hm. assert (d = true) as -> by (destruct Hm as [Hm|[Hm|Hm]]; rewrite Hm in *; done).
    unfold hev_socks5_tunnel_run. rewrite Ht. destruct (enc_has a b c true) as (_ & _ & _ & ->). done.
Qed.

(** A stop can be lost: a thread that looks at [tsync] before [SYNC_SEND] is set and
    sets [SYNC_STOP] only after [hev_socks5_tunnel_run] has tested it leaves a tunnel
    that runs, with no byte in the socket pair, though the stop has returned. *)
Theorem tunnel_stop_lost : exists s1 s2,
  reachable s1 /\ main s1 = M_open /\ crit s1 = Some S_nosend
  /\ rtc step s1 s2 /\ crit s2 = None /\ main s2 = M_run /\ pipe s2 = 0%nat
  /\ forall s3, step s2 s3 -> main s3 = M_run.
Proof.
  exists (stop_enter (init_open true start)),
    (stop_leave (stop_nosend (hev_socks5_tunnel_run (init_done true (stop_enter (init_open true start)))))).
  split; [|split; [done|split; [done|split; [|split; [done|split; [done|split; [done|]]]]]]].
  - eapply rtc_l; [by apply (InitOpen true)|]. apply rtc_once, StopEnter.
  - eapply rtc_l; [by apply (InitDone true)|]. eapply rtc_l; [by apply Run|].
    eapply rtc_l; [by apply StopNoSend|]. apply rtc_once. by eapply StopLeave.
  - intros s3 Hs. inversion Hs; subst; cbn in *; try done. lia.
Qed.

Module SyncWitness.

(** The tunnel runs, a thread stops it and is about to return. *)
Definition stopping : Sync :=
  stop_write (stop_send (stop_enter (hev_socks5_tunnel_run (init_done true (init_open true start))))).

Lemma stopping_reachable : reachable stopping.
Proof.
  eapply rtc_l; [by apply (InitOpen true)|]. eapply rtc_l; [by apply (InitDone true)|].
  eapply rtc_l; [by apply Run|]. eapply rtc_l; [apply StopEnter|]. eapply rtc_l; [by apply StopSend|].
  apply rtc_once. by apply StopWrite.
Qed.

Lemma tunnel_stop_safe_witness : stray stopping = false /\ has (tsync stopping) SYNC_WAIT = true.
Proof.
  destruct (tunnel_stop_safe stopping stopping_reachable) as (H1 & H2 & _). split; [exact H1|].
  apply H2. discriminate.
Defined.

Lemma tunnel_stop_heard_witness : crit stopping = Some (S_done true) /\ main stopping = M_run /\ (0 < pipe stopping)%nat.
Proof.
  split; [reflexivity|]. split; [reflexivity|].
  destruct (tunnel_stop_heard stopping true stopping_reachable eq_refl) as (H & _).
  apply (H eq_refl). right. reflexivity.
Defined.

End SyncWitness.
