(* ===== verification/JobQueue.v ===== *)
(** * The job queue of badvpn

    Models badvpn/base/BPending.c over badvpn/structure/SLinkedList_impl.h: the list of
    jobs that the reactor of the badvpn engine executes, last set first.  An entry whose
    [next] is itself is not in the list; [prev] of the first entry is not kept up to
    date.  Entries are modelled pointer by pointer; an access to an object that is freed
    fails. *)

From S2P Require Import Prelude.

(** [SLinkedListNode]; [next] of the last entry is NULL. *)
Record SLinkedListNode := mkNode { next : Z; prev : Z }.

(** [handler] and [user] of a [BSmallPending]. *)
Definition Handler : Type := Z * Z.

(** [BPendingGroup]: the first entry of [jobs].  Of the [BSmallPending] objects that exist,
    [objs] holds the links and [hnds] the handlers. *)
Record BPendingGroup := mkGroup { first : Z; objs : gmap Z SLinkedListNode; hnds : gmap Z Handler }.

Definition set_next (a v : Z) (g : BPendingGroup) : option BPendingGroup :=
  n ← objs g !! a; Some (mkGroup (first g) (<[a := mkNode v (prev n)]> (objs g)) (hnds g)).
Definition set_prev (a v : Z) (g : BPendingGroup) : option BPendingGroup :=
  n ← objs g !! a; Some (mkGroup (first g) (<[a := mkNode (next n) v]> (objs g)) (hnds g)).
Definition set_first (v : Z) (g : BPendingGroup) : BPendingGroup := mkGroup v (objs g) (hnds g).

(** ** The list *)

Definition SLinkedListMarkRemoved (entry : Z) (g : BPendingGroup) : option BPendingGroup := set_next entry entry g.

Definition SLinkedListIsRemoved (entry : Z) (g : BPendingGroup) : option bool :=
  n ← objs g !! entry; Some (entry =? next n).

Definition SLinkedList_Prepend (entry : Z) (g : BPendingGroup) : option BPendingGroup :=
  g ← set_next entry (first g) g;
  g ← (if negb (first g =? 0) then set_prev (first g) entry g else Some g);
  Some (set_first entry g).

Definition SLinkedList_Remove (entry : Z) (g : BPendingGroup) : option BPendingGroup :=
  n ← objs g !! entry;
  if negb (entry =? first g) then
    g ← set_next (prev n) (next n) g;
    n ← objs g !! entry;
    if negb (next n =? 0) then set_prev (next n) (prev n) g else Some g
  else Some (set_first (next n) g).

Definition SLinkedList_RemoveFirst (g : BPendingGroup) : option BPendingGroup :=
  n ← objs g !! first g; Some (set_first (next n) g).

(** ** Jobs *)

Definition BPendingGroup_Init : BPendingGroup := mkGroup 0 ∅ ∅.
Definition BPendingGroup_HasJobs (g : BPendingGroup) : bool := negb (first g =? 0).
Definition BPendingGroup_PeekJob (g : BPendingGroup) : Z := first g.

(** The handler that is called, with the state it is called in: the call is the last thing
    the function does. *)
Definition BPendingGroup_ExecuteJob (g : BPendingGroup) : option (Handler * BPendingGroup) :=
  let p := first g in
  g ← SLinkedList_RemoveFirst g;
  g ← SLinkedListMarkRemoved p g;
  f ← hnds g !! p;
  Some (f, g).

Definition BSmallPending_Init (o : Z) (f : Handler) (g : BPendingGroup) : option BPendingGroup :=
  SLinkedListMarkRemoved o (mkGroup (first g) (<[o := mkNode 0 0]> (objs g)) (<[o := f]> (hnds g))).

Definition BSmallPending_SetHandler (o : Z) (f : Handler) (g : BPendingGroup) : option BPendingGroup :=
  _ ← hnds g !! o; Some (mkGroup (first g) (objs g) (<[o := f]> (hnds g))).

Definition BSmallPending_Free (o : Z) (g : BPendingGroup) : option BPendingGroup :=
  r ← SLinkedListIsRemoved o g;
  g ← (if negb r then SLinkedList_Remove o g else Some g);
  Some (mkGroup (first g) (delete o (objs g)) (delete o (hnds g))).

Definition BSmallPending_Set (o : Z) (g : BPendingGroup) : option BPendingGroup :=
  r ← SLinkedListIsRemoved o g;
  g ← (if negb r then SLinkedList_Remove o g else Some g);
  SLinkedList_Prepend o g.

Definition BSmallPending_Unset (o : Z) (g : BPendingGroup) : option BPendingGroup :=
  r ← SLinkedListIsRemoved o g;
  if negb r then g ← SLinkedList_Remove o g; SLinkedListMarkRemoved o g else Some g.

Definition BSmallPending_IsSet (o : Z) (g : BPendingGroup) : option bool :=
  r ← SLinkedListIsRemoved o g; Some (negb r).

(** A [BPending] is a [BSmallPending] with a pointer to its group, which is the state here. *)
Definition BPending_Init (o : Z) (f : Handler) (g : BPendingGroup) : option BPendingGroup := BSmallPending_Init o f g.
Definition BPending_Free (o : Z) (g : BPendingGroup) : option BPendingGroup := BSmallPending_Free o g.
Definition BPending_Set (o : Z) (g : BPendingGroup) : option BPendingGroup := BSmallPending_Set o g.
Definition BPending_Unset (o : Z) (g : BPendingGroup) : option BPendingGroup := BSmallPending_Unset o g.
Definition BPending_IsSet (o : Z) (g : BPendingGroup) : option bool := BSmallPending_IsSet o g.

(** ** The specification: a stack without duplicates, and the handlers of the objects *)

Record Spec := mkSpec { jobs : list Z; live : gmap Z Handler }.

Definition without (o : Z) (l : list Z) : list Z := List.filter (fun x => negb (x =? o)) l.

Inductive op :=
  | OpInit (o : Z) (f : Handler) | OpFree (o : Z) | OpSetHandler (o : Z) (f : Handler)
  | OpSet (o : Z) | OpUnset (o : Z) | OpIsSet (o : Z) | OpHasJobs | OpPeek | OpExecute.

(** What a caller sees of an operation. *)
Inductive result := RNone | RBool (b : bool) | RObj (o : Z) | RCall (f : Handler).

Definition spec_op (o : op) (s : Spec) : result * Spec :=
  match o with
  | OpInit o f | OpSetHandler o f => (RNone, mkSpec (jobs s) (<[o := f]> (live s)))
  | OpFree o => (RNone, mkSpec (without o (jobs s)) (delete o (live s)))
  | OpSet o => (RNone, mkSpec (o :: without o (jobs s)) (live s))
  | OpUnset o => (RNone, mkSpec (without o (jobs s)) (live s))
  | OpIsSet o => (RBool (bool_decide (o ∈ jobs s)), s)
  | OpHasJobs => (RBool (bool_decide (jobs s <> [])), s)
  | OpPeek => (RObj (default 0 (list.head (jobs s))), s)
  | OpExecute => (RCall (default (0, 0) (list.head (jobs s) ≫= fun p => live s !! p)), mkSpec (tail (jobs s)) (live s))
  end.

(** An object is initialised once, used while it exists, and a job is executed only if
    there is one. *)
Definition op_ok (o : op) (s : Spec) : Prop :=
  match o with
  | OpInit o _ => o <> 0 /\ live s !! o = None
  | OpFree o | OpSetHandler o _ | OpSet o | OpUnset o | OpIsSet o => is_Some (live s !! o)
  | OpHasJobs | OpPeek => True
  | OpExecute => jobs s <> []
  end.

Fixpoint ops_ok (ops : list op) (s : Spec) : Prop :=
  match ops with [] => True | o :: ops => op_ok o s /\ ops_ok ops (spec_op o s).2 end.

Definition exec (o : op) (g : BPendingGroup) : option (result * BPendingGroup) :=
  match o with
  | OpInit o f => g ← BSmallPending_Init o f g; Some (RNone, g)
  | OpFree o => g ← BSmallPending_Free o g; Some (RNone, g)
  | OpSetHandler o f => g ← BSmallPending_SetHandler o f g; Some (RNone, g)
  | OpSet o => g ← BSmallPending_Set o g; Some (RNone, g)
  | OpUnset o => g ← BSmallPending_Unset o g; Some (RNone, g)
  | OpIsSet o => b ← BSmallPending_IsSet o g; Some (RBool b, g)
  | OpHasJobs => Some (RBool (BPendingGroup_HasJobs g), g)
  | OpPeek => Some (RObj (BPendingGroup_PeekJob g), g)
  | OpExecute => '(f, g) ← BPendingGroup_ExecuteJob g; Some (RCall f, g)
  end.

Fixpoint exec_all (ops : list op) (g : BPendingGroup) : option (list result * BPendingGroup) :=
  match ops with
  | [] => Some ([], g)
  | o :: ops => '(r, g) ← exec o g; '(rs, g) ← exec_all ops g; Some (r :: rs, g)
  end.

Fixpoint spec_all (ops : list op) (s : Spec) : list result * Spec :=
  match ops with
  | [] => ([], s)
  | o :: ops => let '(r, s) := spec_op o s in let '(rs, s) := spec_all ops s in (r :: rs, s)
  end.

(** ** Representation *)

Definition hd_or (e : Z) (l : list Z) : Z := default e (list.head l).
Definition last_or (p : Z) (l : list Z) : Z := default p (last l).

(** [l] is linked up to [e]; [p] is the entry before it, or 0 if [l] starts the list. *)
Fixpoint linked (h : gmap Z SLinkedListNode) (p : Z) (l : list Z) (e : Z) : Prop :=
  match l with
  | [] => True
  | a :: l => (exists q, h !! a = Some (mkNode (hd_or e l) q) /\ (p <> 0 -> q = p)) /\ linked h a l e
  end.

Record rel (g : BPendingGroup) (s : Spec) : Prop := {
  rl_nodup : NoDup (jobs s);
  rl_hnds : hnds g = live s;
  rl_live : forall a, is_Some (objs g !! a) <-> is_Some (live s !! a);
  rl_zero : live s !! 0 = None;
  rl_jobs : forall a, a ∈ jobs s -> is_Some (live s !! a);
  rl_first : first g = hd_or 0 (jobs s);
  rl_linked : linked (objs g) 0 (jobs s) 0;
  rl_removed : forall a n, objs g !! a = Some n -> a ∉ jobs s -> next n = a
}.

Lemma slinked_agree h h' p l e : linked h p l e -> (forall a, a ∈ l -> h' !! a = h !! a) -> linked h' p l e.
Proof.
  revert p. induction l as [|a l IH]; intros p; cbn [linked]; [done|]. intros [(q & Ha & Hq) Hl] Hag. split.
  - exists q. split; [|done]. rewrite Hag; [done|by left].
  - apply IH; [done|]. intros b Hb. apply Hag. by right.
Qed.

Lemma slinked_weaken h p l e : linked h p l e -> linked h 0 l e.
Proof. destruct l as [|a l]; [done|]. intros [(q & Ha & _) Hl]. split; [|done]. by exists q. Qed.

Lemma last_or_cons' p a l : last_or p (a :: l) = last_or a l.
Proof. unfold last_or. rewrite last_cons. by destruct (last l). Qed.

Lemma slinked_app h l1 l2 e : forall p,
  linked h p (l1 ++ l2) e <-> linked h p l1 (hd_or e l2) /\ linked h (last_or p l1) l2 e.
Proof.
  induction l1 as [|a l1 IH]; intros p; cbn [app linked]; [unfold last_or; cbn; tauto|].
  rewrite IH, last_or_cons'. assert (E' : hd_or e (l1 ++ l2) = hd_or (hd_or e l2) l1) by (by destruct l1).
  rewrite E'. tauto.
Qed.

(** Storing to [prev] of the first, and to [next] of the last entry of a segment. *)
Lemma slinked_set_prev h p q a l e : a ∉ l -> linked h p (a :: l) e ->
  exists n, h !! a = Some n /\ next n = hd_or e l /\ linked (<[a := mkNode (next n) q]> h) q (a :: l) e.
Proof.
  intros Ha [(q0 & Hn & _) Hl]. exists (mkNode (hd_or e l) q0). split; [done|]. split; [done|]. split.
  - exists q. by rewrite lookup_insert_eq.
  - apply (slinked_agree h); [done|]. intros b Hb. apply lookup_insert_ne. by intros ->.
Qed.

Lemma slinked_set_next h p l b e e' : b ∉ l -> linked h p (l ++ [b]) e ->
  exists n, h !! b = Some n /\ linked (<[b := mkNode e' (prev n)]> h) p (l ++ [b]) e'.
Proof.
  intros Hb Hl. apply slinked_app in Hl as [H1 [(q & Hn & Hq) _]]. exists (mkNode (hd_or e []) q). split; [done|].
  apply slinked_app. split.
  - apply (slinked_agree h); [done|]. intros a Ha. apply lookup_insert_ne. by intros ->.
  - split; [|done]. exists q. by rewrite lookup_insert_eq.
Qed.

(** ** Operations *)

Lemma without_not_in o l : o ∉ l -> without o l = l.
Proof.
  induction l as [|a l IH]; [done|]. intros [Ho Hl]%not_elem_of_cons. cbn [without List.filter].
  rewrite (proj2 (Z.eqb_neq a o)) by done. cbn [negb]. f_equal. by apply IH.
Qed.

Lemma without_split o l1 l2 : NoDup (l1 ++ o :: l2) -> without o (l1 ++ o :: l2) = l1 ++ l2.
Proof.
  intros Hnd. apply NoDup_app in Hnd as (_ & H1 & [H2 _]%NoDup_cons). unfold without.
  rewrite List.filter_app. cbn [List.filter]. rewrite Z.eqb_refl. cbn [negb]. f_equal; apply without_not_in; [|done].
  intros Hin. specialize (H1 _ Hin). set_solver.
Qed.

(** Whether an entry is in the list. *)
Lemma is_removed_ok g s o : rel g s -> is_Some (live s !! o) ->
  SLinkedListIsRemoved o g = Some (bool_decide (o ∉ jobs s)).
Proof.
  intros [] Ho. unfold SLinkedListIsRemoved. destruct (proj2 (rl_live0 o) Ho) as [n Hn]. rewrite Hn. cbn [mbind option_bind].
  f_equal. destruct (decide (o ∈ jobs s)) as [Hin|Hin].
  - rewrite bool_decide_false by tauto. apply Z.eqb_neq. apply list_elem_of_split in Hin as (l1 & l2 & E').
    rewrite E' in *. apply slinked_app in rl_linked0 as [_ [(q & Hq & _) _]]. rewrite Hn in Hq. injection Hq as ->.
    cbn [next]. apply NoDup_app in rl_nodup0 as (_ & _ & [H2 _]%NoDup_cons). unfold hd_or.
    destruct l2 as [|b l2]; cbn; [intros ->; rewrite rl_zero0 in Ho; by destruct Ho|]. intros ->. set_solver.
  - rewrite bool_decide_true by done. apply Z.eqb_eq. symmetry. by apply (rl_removed0 o n).
Qed.

(** An entry of the list is not NULL. *)
Lemma job_not_null g s a : rel g s -> a ∈ jobs s -> a <> 0.
Proof. intros [] Ha ->. destruct (rl_jobs0 0 Ha) as [f Hf]. congruence. Qed.

(** What removing an entry leaves: [l] without it, the other nodes linked, its own node as
    it was. *)
Record removed (o : Z) (g g' : BPendingGroup) (l l' : list Z) : Prop := {
  rm_first : first g' = hd_or 0 l';
  rm_hnds : hnds g' = hnds g;
  rm_linked : linked (objs g') 0 l' 0;
  rm_dom : forall a, is_Some (objs g' !! a) <-> is_Some (objs g !! a);
  rm_other : forall a, a ∉ l -> objs g' !! a = objs g !! a
}.

Lemma dom_insert_same (h : gmap Z SLinkedListNode) b n n' a :
  h !! b = Some n -> is_Some (<[b := n']> h !! a) <-> is_Some (h !! a).
Proof. intros Hb. destruct (decide (a = b)) as [->|]; [rewrite lookup_insert_eq, Hb; naive_solver|by rewrite lookup_insert_ne]. Qed.

Lemma remove_first_ok g l o : NoDup (o :: l) -> first g = o -> linked (objs g) 0 (o :: l) 0 ->
  exists g', SLinkedList_Remove o g = Some g' /\ removed o g g' (o :: l) l.
Proof.
  intros Hnd Hf [(q & Hn & Hq) Hl]. unfold SLinkedList_Remove. rewrite Hn, Hf, Z.eqb_refl. cbn [mbind option_bind next negb].
  eexists. split; [done|]. by constructor; cbn [set_first first objs hnds]; try done; eapply slinked_weaken.
Qed.

(** An entry with [b] before it. *)
Lemma remove_inner_ok g l0 b o l2 : NoDup (l0 ++ b :: o :: l2) -> 0 ∉ l0 ++ b :: o :: l2 ->
  first g = hd_or 0 (l0 ++ b :: o :: l2) -> linked (objs g) 0 (l0 ++ b :: o :: l2) 0 ->
  exists g', SLinkedList_Remove o g = Some g' /\ removed o g g' (l0 ++ b :: o :: l2) (l0 ++ b :: l2).
Proof.
  intros Hnd Hz Hf Hl. rewrite cons_middle, app_assoc in Hl. apply slinked_app in Hl as [Hl1 [(q & Hn & Hq) Hl2]].
  assert (Hlast : last_or 0 (l0 ++ [b]) = b) by (unfold last_or; by rewrite last_snoc). rewrite Hlast in *.
  apply NoDup_app in Hnd as (Hn0 & Hd0 & (Hb & (Ho & Hn2)%NoDup_cons)%NoDup_cons).
  assert (Hbl0 : b ∉ l0) by (intros Hin; apply (Hd0 b Hin); set_solver).
  assert (Hol0 : o ∉ l0) by (intros Hin; apply (Hd0 o Hin); set_solver).
  assert (Hfo : o <> first g) by (rewrite Hf; destruct l0 as [|c l0]; cbn; set_solver).
  assert (Hqb : q = b) by (apply Hq; set_solver). subst q.
  unfold SLinkedList_Remove. rewrite Hn. cbn [mbind option_bind next prev].
  rewrite (proj2 (Z.eqb_neq o (first g)) Hfo). cbn [negb].
  destruct (slinked_set_next (objs g) 0 l0 b o (hd_or 0 l2) Hbl0 Hl1) as (nb & Hnb & Hl1').
  unfold set_next. rewrite Hnb. cbn [mbind option_bind objs first hnds].
  rewrite lookup_insert_ne, Hn by set_solver. cbn [mbind option_bind next prev].
  pose proof (dom_insert_same (objs g) b nb (mkNode (hd_or 0 l2) (prev nb))) as Hdom.
  assert (Hl2' : linked (<[b := mkNode (hd_or 0 l2) (prev nb)]> (objs g)) o l2 0).
  { apply (slinked_agree (objs g)); [done|]. intros a Ha. apply lookup_insert_ne. set_solver. }
  destruct l2 as [|c l2].
  - cbn [hd_or list.head default from_option Z.eqb negb]. eexists. split; [done|].
    constructor; cbn [first objs hnds]; [rewrite Hf; by destruct l0|done|done|intros a; by apply Hdom|].
    intros a Ha. apply lookup_insert_ne. set_solver.
  - change (hd_or 0 (c :: l2)) with c in *. rewrite (proj2 (Z.eqb_neq c 0)) by set_solver. cbn [negb].
    apply NoDup_cons in Hn2 as [Hcl2 _].
    destruct (slinked_set_prev _ o b c l2 0 Hcl2 Hl2') as (nc & Hnc & _ & Hl2'').
    unfold set_prev. cbn [objs]. rewrite Hnc. cbn [mbind option_bind]. eexists. split; [done|].
    constructor; cbn [first objs hnds]; [rewrite Hf; by destruct l0|done| | |].
    + rewrite cons_middle, app_assoc. apply slinked_app. rewrite Hlast. split; [|done].
      apply (slinked_agree _ _ _ _ _ Hl1'). intros a Ha. apply lookup_insert_ne. intros ->. apply elem_of_app in Ha as [Ha|Ha]; [apply (Hd0 _ Ha)|]; set_solver.
    + intros a. rewrite dom_insert_same by done. by apply Hdom.
    + intros a Ha. rewrite !lookup_insert_ne; set_solver.
Qed.

Lemma slist_remove_ok g s o : rel g s -> o ∈ jobs s ->
  exists g', SLinkedList_Remove o g = Some g' /\ removed o g g' (jobs s) (without o (jobs s)).
Proof.
  intros Hr Ho. pose proof (fun Hz => job_not_null g s 0 Hr Hz eq_refl) as Hz. destruct Hr.
  apply list_elem_of_split in Ho as (l1 & l2 & E'). rewrite E' in *. rewrite without_split by done.
  destruct (decide (l1 = [])) as [->|Hne]; [by apply remove_first_ok|].
  destruct (exists_last Hne) as (l0 & b & ->). rewrite <- !app_assoc in *. cbn [app] in *. by apply remove_inner_ok.
Qed.

Lemma elem_of_without o a l : a ∈ without o l <-> a ∈ l /\ a <> o.
Proof.
  unfold without. rewrite !list_elem_of_In, List.filter_In, negb_true_iff, Z.eqb_neq. done.
Qed.

Lemma NoDup_without o l : NoDup l -> NoDup (without o l).
Proof. rewrite !NoDup_ListNoDup. apply List.NoDup_filter. Qed.

(** Prepending an entry that the list [l] does not hold. *)
Lemma prepend_ok g l o : o ∉ l -> 0 ∉ l -> NoDup l -> is_Some (objs g !! o) -> first g = hd_or 0 l -> linked (objs g) 0 l 0 ->
  exists g', SLinkedList_Prepend o g = Some g' /\ first g' = o /\ hnds g' = hnds g
    /\ linked (objs g') 0 (o :: l) 0
    /\ (forall a, is_Some (objs g' !! a) <-> is_Some (objs g !! a))
    /\ (forall a, a ∉ o :: l -> objs g' !! a = objs g !! a).
Proof.
  intros Ho Hz Hnd [n Hn] Hf Hl. unfold SLinkedList_Prepend, set_next. rewrite Hn. cbn [mbind option_bind first objs hnds].
  assert (Hl' : linked (<[o := mkNode (first g) (prev n)]> (objs g)) 0 l 0).
  { apply (slinked_agree (objs g)); [done|]. intros a Ha. apply lookup_insert_ne. by intros ->. }
  rewrite Hf in *. destruct l as [|c l].
  - cbn [hd_or list.head default from_option id Z.eqb negb]. eexists. split; [done|]. cbn [set_first first objs hnds].
    split_and!; [done|done| | |]; [split; [|done]; exists (prev n); by rewrite lookup_insert_eq|intros a; by eapply dom_insert_same|].
    intros a Ha. apply lookup_insert_ne. set_solver.
  - change (hd_or 0 (c :: l)) with c in *. rewrite (proj2 (Z.eqb_neq c 0)) by set_solver. cbn [negb].
    apply NoDup_cons in Hnd as [Hcl _]. destruct (slinked_set_prev _ 0 o c l 0 Hcl Hl') as (nc & Hnc & _ & Hl'').
    unfold set_prev. cbn [objs]. rewrite Hnc. cbn [mbind option_bind]. eexists. split; [done|]. cbn [set_first first objs hnds].
    split_and!; [done|done| | |].
    + split; [|done]. exists (prev n). rewrite lookup_insert_ne by set_solver. by rewrite lookup_insert_eq.
    + intros a. rewrite dom_insert_same by done. by eapply dom_insert_same.
    + intros a Ha. rewrite !lookup_insert_ne; set_solver.
Qed.

(** The first part of [Free], [Set] and [Unset]: the entry leaves the list if it is in it;
    all but its node still represents the specification. *)
Lemma remove_if_set_ok g s o : rel g s -> is_Some (live s !! o) ->
  exists g', (r ← SLinkedListIsRemoved o g; if negb r then SLinkedList_Remove o g else Some g) = Some g'
    /\ removed o g g' (jobs s) (without o (jobs s)).
Proof.
  intros Hr Ho. rewrite (is_removed_ok g s) by done. cbn [mbind option_bind]. case_bool_decide as Hin; cbn [negb].
  - exists g. split; [done|]. rewrite without_not_in by done. by destruct Hr.
  - apply slist_remove_ok; [done|]. destruct (decide (o ∈ jobs s)); [done|]. exfalso. tauto.
Qed.

(** A node outside the list refers to itself. *)
Lemma removed_self g s o g' a n : rel g s -> removed o g g' (jobs s) (without o (jobs s)) ->
  a <> o -> objs g' !! a = Some n -> a ∉ without o (jobs s) -> next n = a.
Proof.
  intros Hr Hm Hao Ha Hin. assert (Hj : a ∉ jobs s) by (intros Hj; apply Hin, elem_of_without; done).
  rewrite (rm_other _ _ _ _ _ Hm a Hj) in Ha. by apply (rl_removed g s Hr a n).
Qed.

(** ** Refinement *)

Definition refines (o : op) (g : BPendingGroup) (s : Spec) : Prop :=
  exists g', exec o g = Some ((spec_op o s).1, g') /\ rel g' (spec_op o s).2.

Lemma init_refines g s o f : rel g s -> op_ok (OpInit o f) s -> refines (OpInit o f) g s.
Proof.
  intros [] [Ho Hl]. assert (Hj : o ∉ jobs s) by (intros Hj; destruct (rl_jobs0 o Hj); congruence).
  unfold refines. cbn [exec spec_op fst snd]. unfold BSmallPending_Init, SLinkedListMarkRemoved, set_next. cbn [objs].
  rewrite lookup_insert_eq. cbn [mbind option_bind first objs hnds prev]. eexists. split; [done|].
  constructor; cbn [first objs hnds jobs live]; [done|by rewrite rl_hnds0| | | |done| |].
  - intros a. destruct (decide (a = o)) as [->|]; [by rewrite !lookup_insert_eq|]. by rewrite !lookup_insert_ne.
  - by rewrite lookup_insert_ne.
  - intros a Ha. rewrite lookup_insert_ne by (by intros ->). by apply rl_jobs0.
  - apply (slinked_agree (objs g)); [done|]. intros a Ha. by rewrite !lookup_insert_ne by (by intros ->).
  - intros a n. destruct (decide (a = o)) as [->|]; [rewrite lookup_insert_eq; by intros [= <-]|].
    rewrite !lookup_insert_ne by done. apply rl_removed0.
Qed.

Lemma set_handler_refines g s o f : rel g s -> op_ok (OpSetHandler o f) s -> refines (OpSetHandler o f) g s.
Proof.
  intros [] [f0 Hf]. unfold refines. cbn [exec spec_op fst snd]. unfold BSmallPending_SetHandler.
  rewrite rl_hnds0, Hf. cbn [mbind option_bind]. eexists. split; [done|].
  assert (Hd : forall a, is_Some (<[o := f]> (live s) !! a) <-> is_Some (live s !! a)).
  { intros a. destruct (decide (a = o)) as [->|]; [rewrite lookup_insert_eq, Hf; naive_solver|by rewrite lookup_insert_ne]. }
  constructor; cbn [first objs hnds jobs live]; [done|done| | | |done|done|done].
  - intros a. rewrite Hd. done.
  - rewrite lookup_insert_ne; [done|]. intros ->. congruence.
  - intros a Ha. apply Hd. by apply rl_jobs0.
Qed.

Lemma free_refines g s o : rel g s -> op_ok (OpFree o) s -> refines (OpFree o) g s.
Proof.
  intros Hr Ho. destruct (remove_if_set_ok g s o Hr Ho) as (g' & Hrem & Hm). unfold refines. cbn [exec spec_op fst snd].
  unfold BSmallPending_Free. destruct (SLinkedListIsRemoved o g) as [r|]; [|done]. cbn [mbind option_bind] in Hrem |- *.
  rewrite Hrem. cbn [mbind option_bind]. eexists. split; [done|]. pose proof (removed_self g s o g') as Hself.
  assert (Hj : forall a, a ∈ without o (jobs s) -> a <> o) by (intros a; rewrite elem_of_without; tauto).
  destruct Hm, Hr. constructor; cbn [first objs hnds jobs live]; [by apply NoDup_without|congruence| | | |done| |].
  - intros a. destruct (decide (a = o)) as [->|]; [by rewrite !lookup_delete_eq|].
    rewrite !lookup_delete_ne by done. by rewrite rm_dom0.
  - rewrite lookup_delete_ne; [done|]. intros ->. destruct Ho. congruence.
  - intros a Ha. rewrite lookup_delete_ne by (symmetry; by apply Hj). apply rl_jobs0. by apply elem_of_without in Ha as [].
  - apply (slinked_agree (objs g')); [done|]. intros a Ha. apply lookup_delete_ne. symmetry. by apply Hj.
  - intros a n. destruct (decide (a = o)) as [->|]; [by rewrite lookup_delete_eq|].
    rewrite lookup_delete_ne by done. intros Ha Hin. by eapply Hself.
Qed.

Lemma unset_refines g s o : rel g s -> op_ok (OpUnset o) s -> refines (OpUnset o) g s.
Proof.
  intros Hr Ho. destruct (remove_if_set_ok g s o Hr Ho) as (g' & Hrem & Hm). unfold refines. cbn [exec spec_op fst snd].
  unfold BSmallPending_Unset. rewrite (is_removed_ok g s o Hr Ho) in *. cbn [mbind option_bind] in Hrem |- *.
  case_bool_decide as Hin; cbn [negb] in *.
  { eexists. split; [done|]. rewrite without_not_in by done. by destruct s. }
  rewrite Hrem. cbn [mbind option_bind]. unfold SLinkedListMarkRemoved, set_next.
  pose proof (removed_self g s o g') as Hself. destruct Hm, Hr.
  destruct (proj2 (rm_dom0 o) (proj2 (rl_live0 o) Ho)) as [n Hn]. rewrite Hn. cbn [mbind option_bind].
  eexists. split; [done|]. constructor; cbn [first objs hnds jobs live]; [by apply NoDup_without|congruence| |done| |done| |].
  - intros a. rewrite dom_insert_same by done. by rewrite rm_dom0.
  - intros a Ha. apply rl_jobs0. by apply elem_of_without in Ha as [].
  - apply (slinked_agree (objs g')); [done|]. intros a Ha. apply lookup_insert_ne. apply elem_of_without in Ha as [_ Ha]. done.
  - intros a m. destruct (decide (a = o)) as [->|]; [rewrite lookup_insert_eq; by intros [= <-]|].
    rewrite lookup_insert_ne by done. intros Ha Hout. by eapply Hself.
Qed.

Lemma set_refines g s o : rel g s -> op_ok (OpSet o) s -> refines (OpSet o) g s.
Proof.
  intros Hr Ho. destruct (remove_if_set_ok g s o Hr Ho) as (g' & Hrem & Hm). unfold refines. cbn [exec spec_op fst snd].
  unfold BSmallPending_Set. destruct (SLinkedListIsRemoved o g) as [r|]; [|done]. cbn [mbind option_bind] in Hrem |- *.
  rewrite Hrem. cbn [mbind option_bind]. pose proof (removed_self g s o g') as Hself.
  assert (Hno : o ∉ without o (jobs s)) by (rewrite elem_of_without; tauto).
  assert (Hz : 0 ∉ without o (jobs s)).
  { rewrite elem_of_without. intros [Hz _]. by apply (job_not_null g s 0 Hr Hz). }
  destruct (prepend_ok g' (without o (jobs s)) o) as (g2 & E2 & Hf2 & Hh2 & Hl2 & Hd2 & Ho2);
    [done|done|by apply NoDup_without, (rl_nodup g s)|by apply Hm, (rl_live g s)|by apply Hm|by apply Hm|].
  rewrite E2. cbn [mbind option_bind]. eexists. split; [done|]. destruct Hm, Hr.
  constructor; cbn [jobs live]; [|congruence| |done| |done|done|].
  - constructor; [done|by apply NoDup_without].
  - intros a. by rewrite Hd2, rm_dom0.
  - intros a [->|[Ha _]%elem_of_without]%elem_of_cons; [done|by apply rl_jobs0].
  - intros a n Ha Hin. rewrite Ho2 in Ha by done. apply not_elem_of_cons in Hin as []. by eapply Hself.
Qed.

Lemma execute_refines g s : rel g s -> op_ok OpExecute s -> refines OpExecute g s.
Proof.
  intros [] Hne. unfold refines. cbn [exec spec_op fst snd]. unfold BPendingGroup_ExecuteJob, SLinkedList_RemoveFirst.
  destruct s as [[|p l] lv]; [done|]. cbn [jobs live op_ok] in *. change (hd_or 0 (p :: l)) with p in *.
  destruct rl_linked0 as [(q & Hn & _) Hl]. apply NoDup_cons in rl_nodup0 as [Hp Hnd].
  assert (Hpl : is_Some (lv !! p)) by (apply rl_jobs0; by left). destruct Hpl as [f Hf].
  rewrite rl_first0, Hn. cbn [mbind option_bind]. unfold SLinkedListMarkRemoved, set_next. cbn [set_first objs first hnds].
  rewrite Hn. cbn [mbind option_bind next prev hnds]. rewrite rl_hnds0. rewrite Hf. cbn [mbind option_bind].
  change (list.head (p :: l) ≫= fun p => lv !! p) with (lv !! p). rewrite Hf.
  eexists. split; [done|]. constructor; cbn [first objs hnds jobs live tail]; [done|done| |done| |done| |].
  - intros a. by rewrite dom_insert_same.
  - intros a Ha. apply rl_jobs0. by right.
  - apply (slinked_agree (objs g)); [by eapply slinked_weaken|]. intros a Ha. apply lookup_insert_ne. by intros ->.
  - intros a n. destruct (decide (a = p)) as [->|]; [rewrite lookup_insert_eq; by intros [= <-]|].
    rewrite lookup_insert_ne by done. intros Ha Hin. apply (rl_removed0 a n Ha). by apply not_elem_of_cons.
Qed.

Lemma query_refines g s o : rel g s -> op_ok o s ->
  match o with OpIsSet _ | OpHasJobs | OpPeek => True | _ => False end -> refines o g s.
Proof.
  intros Hr Hok Hq. unfold refines. destruct o; try done; clear Hq; exists g; split; try exact Hr; cbn [exec spec_op fst].
  - unfold BSmallPending_IsSet. rewrite (is_removed_ok g s) by done. cbn [mbind option_bind]. do 3 f_equal.
    by rewrite bool_decide_not, negb_involutive.
  - unfold BPendingGroup_HasJobs. do 3 f_equal. rewrite (rl_first g s Hr). pose proof (job_not_null g s) as Hnn.
    destruct (jobs s) as [|a l] eqn:E'; [done|]. rewrite bool_decide_true by done. change (hd_or 0 (a :: l)) with a.
    rewrite (proj2 (Z.eqb_neq a 0)); [done|]. apply Hnn; [done|]. by left.
  - unfold BPendingGroup_PeekJob. by rewrite (rl_first g s Hr).
Qed.

Lemma op_refines o g s : rel g s -> op_ok o s -> refines o g s.
Proof.
  intros Hr Hok. destruct o; eauto using init_refines, free_refines, set_handler_refines, set_refines, unset_refines,
    execute_refines; by apply query_refines.
Qed.

Lemma ops_refine ops : forall g s, rel g s -> ops_ok ops s ->
  exists g', exec_all ops g = Some ((spec_all ops s).1, g') /\ rel g' (spec_all ops s).2.
Proof.
  induction ops as [|o ops IH]; intros g s Hr Hok; cbn [exec_all spec_all]; [by exists g|].
  destruct Hok as [Ho Hops]. destruct (op_refines o g s Hr Ho) as (g1 & E1 & Hr1). rewrite E1. cbn [mbind option_bind].
  destruct (IH g1 _ Hr1 Hops) as (g2 & E2 & Hr2). rewrite E2. cbn [mbind option_bind]. exists g2.
  destruct (spec_op o s) as [r s1]. cbn [fst snd] in *. by destruct (spec_all ops s1).
Qed.

Lemma init_rel : rel BPendingGroup_Init (mkSpec [] ∅).
Proof.
  split; cbn [jobs live first objs hnds BPendingGroup_Init linked]; [apply NoDup_nil_2|done| |done| |done|done|].
  - intros a. by rewrite !lookup_empty.
  - intros a Ha. by apply elem_of_nil in Ha.
  - intros a n Ha. by rewrite lookup_empty in Ha.
Qed.

(** The job queue implements a stack without duplicates: starting from
    [BPendingGroup_Init], any sequence of operations in which objects are initialised once,
    used while they exist, and a job is executed only when there is one, never touches a
    freed object, gives each caller exactly the result that the stack gives (in particular
    the handlers called are those of the most recently set jobs, in that order, and a job
    freed or unset is not called), and ends in links that represent the stack. *)
Theorem bpending_refines_stack ops :
  ops_ok ops (mkSpec [] ∅) ->
  exists g', exec_all ops BPendingGroup_Init = Some ((spec_all ops (mkSpec [] ∅)).1, g')
    /\ rel g' (spec_all ops (mkSpec [] ∅)).2.
Proof. intros Hok. exact (ops_refine ops _ _ init_rel Hok). Qed.

(** Three jobs; the first is set again, the second is freed. *)
Definition example_ops : list op :=
  [OpInit 1 (10, 100); OpInit 2 (20, 200); OpInit 3 (30, 300); OpSet 1; OpSet 2; OpSet 3; OpSet 1; OpFree 2;
   OpSetHandler 3 (31, 301); OpIsSet 3; OpExecute; OpPeek; OpExecute; OpHasJobs].

Lemma bpending_refines_stack_witness :
  ops_ok example_ops (mkSpec [] ∅)
  /\ (spec_all example_ops (mkSpec [] ∅)).1
     = [RNone; RNone; RNone; RNone; RNone; RNone; RNone; RNone; RNone; RBool true; RCall (10, 100); RObj 3;
        RCall (31, 301); RBool false]
  /\ exists g', exec_all example_ops BPendingGroup_Init = Some ((spec_all example_ops (mkSpec [] ∅)).1, g')
     /\ rel g' (spec_all example_ops (mkSpec [] ∅)).2.
Proof.
  assert (Hok : ops_ok example_ops (mkSpec [] ∅)).
  { cbn -[lookup insert delete]. repeat split; try done; try (eexists; vm_compute; reflexivity). }
  split; [exact Hok|]. split; [vm_compute; reflexivity|]. exact (bpending_refines_stack example_ops Hok).
Defined.
