(* ===== verification/Baddr.v ===== *)
(** * Socket addresses of badvpn

    Models the IP addresses of badvpn/system/BAddr.h, the integers in network byte order
    of badvpn/misc/byteorder.h and the sizes of badvpn/misc/bsize.h.  A field in network byte order is the list of its bytes in
    memory, so nothing depends on the byte order of the machine. *)

From S2P Require Import Prelude.

(** ** Integers in network byte order *)

Definition hton16 (v : Z) : list Z := [u8 (Z.shiftr v 8); u8 v].
Definition ntoh16 (l : list Z) : Z := Z.lor (Z.shiftl (nthb l 0) 8) (nthb l 1).
Definition hton32 (v : Z) : list Z := [u8 (Z.shiftr v 24); u8 (Z.shiftr v 16); u8 (Z.shiftr v 8); u8 v].
Definition ntoh32 (l : list Z) : Z :=
  Z.lor (Z.lor (Z.lor (Z.shiftl (nthb l 0) 24) (Z.shiftl (nthb l 1) 16)) (Z.shiftl (nthb l 2) 8)) (nthb l 3).

(** ** Sizes: misc/bsize.h, with the size_t of a 64-bit ABI *)

Record bsize_t := mkSize { is_overflow : bool; value : Z }.

Definition SIZE_MAX : Z := 2 ^ 64 - 1.
Definition bsize_fromsize (v : Z) : bsize_t := mkSize false v.
Definition bsize_fromint (v : Z) : bsize_t := mkSize (v <? 0) (v mod 2 ^ 64).
(** [None]: the function returns 0. *)
Definition bsize_toint (s : bsize_t) : option Z := if is_overflow s || (INT_MAX <? value s) then None else Some (value s).
Definition bsize_add (s1 s2 : bsize_t) : bsize_t :=
  mkSize (is_overflow s1 || is_overflow s2 || (SIZE_MAX - value s1 <? value s2)) ((value s1 + value s2) mod 2 ^ 64).
Definition bsize_max (s1 s2 : bsize_t) : bsize_t :=
  mkSize (is_overflow s1 || is_overflow s2) (if value s2 <? value s1 then value s1 else value s2).
Definition bsize_mul (s1 s2 : bsize_t) : bsize_t :=
  mkSize (is_overflow s1 || is_overflow s2 || (negb (value s1 =? 0) && (SIZE_MAX / value s1 <? value s2)))
    ((value s1 * value s2) mod 2 ^ 64).

(** ** Addresses *)

(** [BAddr]: the bytes of the address and of the port, both in network order. *)
Record BAddr := mkBAddr { addr_type : Z; addr_ip : list Z; addr_port : list Z }.

Definition BADDR_TYPE_NONE : Z := 0.
Definition BADDR_TYPE_IPV4 : Z := 1.
Definition BADDR_TYPE_IPV6 : Z := 2.

Definition BAddr_InitIPv4 (ip port : list Z) : BAddr := mkBAddr BADDR_TYPE_IPV4 ip port.
Definition BAddr_InitIPv6 (ip port : list Z) : BAddr := mkBAddr BADDR_TYPE_IPV6 ip port.

(** misc/compare.h *)
Definition B_COMPARE (a b : Z) : Z := Z.b2z (b <? a) - Z.b2z (a <? b).

(** [memcmp] is the sign of [bytes_cmp]. *)
Definition BAddr_CompareOrder (a1 a2 : BAddr) : Z :=
  let cmp := B_COMPARE (addr_type a1) (addr_type a2) in
  if negb (cmp =? 0) then cmp else
  if addr_type a1 =? BADDR_TYPE_NONE then 0
  else if addr_type a1 =? BADDR_TYPE_IPV4 then
    let cmp := B_COMPARE (ntoh32 (addr_ip a1)) (ntoh32 (addr_ip a2)) in
    if negb (cmp =? 0) then cmp else B_COMPARE (ntoh16 (addr_port a1)) (ntoh16 (addr_port a2))
  else if addr_type a1 =? BADDR_TYPE_IPV6 then
    let cmp := bytes_cmp (addr_ip a1) (addr_ip a2) in
    if negb (cmp =? 0) then B_COMPARE cmp 0 else B_COMPARE (ntoh16 (addr_port a1)) (ntoh16 (addr_port a2))
  else 0.

(** An IP address with its port. *)
Definition addr_ok (a : BAddr) : Prop :=
  bytes_ok (addr_ip a) /\ bytes_ok (addr_port a) /\ length (addr_port a) = 2%nat
  /\ ((addr_type a = BADDR_TYPE_IPV4 /\ length (addr_ip a) = 4%nat) \/ (addr_type a = BADDR_TYPE_IPV6 /\ length (addr_ip a) = 16%nat)).

#[global] Instance BAddr_eq_dec : EqDecision BAddr.
Proof. solve_decision. Defined.

#[global] Instance addr_ok_dec a : Decision (addr_ok a).
Proof. unfold addr_ok, bytes_ok, is_u8. apply _. Defined.

(** ** Lemmas *)

Lemma lor_byte a b k : 0 <= k -> 0 <= b < 2 ^ k -> Z.lor (Z.shiftl a k) b = a * 2 ^ k + b.
Proof.
  intros Hk Hb. rewrite Z.shiftl_mul_pow2 by lia. rewrite <- Z.add_lor_land, <- Z.land_comm.
  assert (E : Z.land b (a * 2 ^ k) = 0).
  { apply Z.bits_inj'. intros n Hn. rewrite Z.land_spec, Z.bits_0, <- Z.shiftl_mul_pow2, Z.shiftl_spec by lia.
    destruct (Z.ltb_spec n k); [by rewrite (Z.testbit_neg_r a), andb_false_r by lia|].
    destruct (Z.eq_dec b 0) as [->|]; [by rewrite Z.bits_0|].
    rewrite (Z.bits_above_log2 b); [done|lia|]. apply Z.log2_lt_pow2; [lia|].
    eapply Z.lt_le_trans; [apply Hb|]. apply Z.pow_le_mono_r; lia. }
  rewrite E. lia.
Qed.

Lemma ntoh16_val a b : is_u8 b -> ntoh16 [a; b] = a * 256 + b.
Proof. intros Hb. unfold ntoh16, nthb. cbn. by apply (lor_byte a b 8). Qed.

Lemma ntoh32_val a b c d : is_u8 b -> is_u8 c -> is_u8 d -> ntoh32 [a; b; c; d] = a * 2 ^ 24 + b * 2 ^ 16 + c * 2 ^ 8 + d.
Proof.
  unfold is_u8. intros Hb Hc Hd. unfold ntoh32, nthb. cbn [default lookup list_lookup id].
  rewrite <- !Z.lor_assoc, (lor_byte c d 8) by lia.
  rewrite (lor_byte b) by lia. rewrite lor_byte by lia. lia.
Qed.

Lemma hton16_val v : hton16 v = [v / 256 mod 256; v mod 256].
Proof. unfold hton16, u8. by rewrite Z.shiftr_div_pow2 by lia. Qed.

Lemma ntoh16_hton16 v : is_u16 v -> ntoh16 (hton16 v) = v.
Proof. unfold is_u16. intros Hv. rewrite hton16_val, ntoh16_val by (unfold is_u8; zdiv). zdiv. Qed.

Lemma hton16_ntoh16 a b : is_u8 a -> is_u8 b -> hton16 (ntoh16 [a; b]) = [a; b].
Proof. unfold is_u8. intros Ha Hb. rewrite ntoh16_val, hton16_val by done. f_equal; [zdiv|]. f_equal. zdiv. Qed.

Lemma hton16_ok v : bytes_ok (hton16 v).
Proof. repeat constructor; apply u8_range. Qed.

Lemma B_COMPARE_0 a b : B_COMPARE a b = 0 <-> a = b.
Proof. unfold B_COMPARE. destruct (Z.ltb_spec b a), (Z.ltb_spec a b); cbn; lia. Qed.

Lemma B_COMPARE_lt a b : B_COMPARE a b < 0 <-> a < b.
Proof. unfold B_COMPARE. destruct (Z.ltb_spec b a), (Z.ltb_spec a b); cbn; lia. Qed.
Lemma B_COMPARE_gt a b : 0 < B_COMPARE a b <-> b < a.
Proof. unfold B_COMPARE. destruct (Z.ltb_spec b a), (Z.ltb_spec a b); cbn; lia. Qed.

(** Two IP addresses compare equal only if they are the same. *)
Lemma BAddr_CompareOrder_0 a1 a2 : addr_ok a1 -> addr_ok a2 -> BAddr_CompareOrder a1 a2 = 0 <-> a1 = a2.
Proof.
  intros (Hi1 & Hp1 & Hl1 & Ht1) (Hi2 & Hp2 & Hl2 & Ht2).
  destruct a1 as [t1 ip1 p1], a2 as [t2 ip2 p2]; cbn in *. unfold BAddr_CompareOrder. cbn.
  assert (Hport : ntoh16 p1 = ntoh16 p2 <-> p1 = p2).
  { explode p1. explode p2. unfold bytes_ok in *. rewrite !Forall_cons in *. split; [|congruence]. intros E.
    rewrite <- (hton16_ntoh16 x x0), <- (hton16_ntoh16 x1 x2), E by tauto. done. }
  destruct (Z.eqb_spec (B_COMPARE t1 t2) 0) as [Ht|Ht]; cbn [negb].
  2: { split; [done|]. intros [= -> -> ->]. exfalso. apply Ht. by apply B_COMPARE_0. }
  rewrite B_COMPARE_0 in Ht. subst t2. destruct Ht1 as [[-> Hl]|[-> Hl]], Ht2 as [[He Hl']|[He Hl']]; try done; cbn.
  - assert (Hip : ntoh32 ip1 = ntoh32 ip2 <-> ip1 = ip2).
    { explode ip1. explode ip2. unfold bytes_ok in *. rewrite !Forall_cons in *. unfold is_u8 in *.
      split; [|congruence]. rewrite !ntoh32_val by (unfold is_u8; lia). intros E. repeat f_equal; lia. }
    destruct (Z.eqb_spec (B_COMPARE (ntoh32 ip1) (ntoh32 ip2)) 0) as [E|E]; cbn [negb].
    + rewrite B_COMPARE_0 in E. apply Hip in E. subst. rewrite B_COMPARE_0, Hport. split; congruence.
    + split; [done|]. intros [= -> ->]. exfalso. apply E. by apply B_COMPARE_0.
  - destruct (Z.eqb_spec (bytes_cmp ip1 ip2) 0) as [E|E]; cbn [negb].
    + rewrite bytes_cmp_eq in E. subst. rewrite B_COMPARE_0, Hport. split; congruence.
    + rewrite B_COMPARE_0. split; [done|]. intros [= -> ->]. by rewrite bytes_cmp_refl in E.
Qed.

Lemma addr_ok_len a : addr_ok a -> length (addr_ip a) = if addr_type a =? BADDR_TYPE_IPV4 then 4%nat else 16%nat.
Proof. by intros (_ & _ & _ & [[-> ?]|[-> ?]]). Qed.

(** The order of addresses: by type, address and port. *)
Definition ip_cmp (a1 a2 : BAddr) : Z := if addr_type a1 =? BADDR_TYPE_IPV4 then ntoh32 (addr_ip a1) - ntoh32 (addr_ip a2) else bytes_cmp (addr_ip a1) (addr_ip a2).

Lemma BAddr_CompareOrder_sgn a1 a2 : addr_ok a1 -> addr_ok a2 ->
  (BAddr_CompareOrder a1 a2 < 0 <-> addr_type a1 < addr_type a2 \/ (addr_type a1 = addr_type a2 /\ (ip_cmp a1 a2 < 0 \/ (ip_cmp a1 a2 = 0 /\ ntoh16 (addr_port a1) < ntoh16 (addr_port a2)))))
  /\ (0 < BAddr_CompareOrder a1 a2 <-> addr_type a2 < addr_type a1 \/ (addr_type a1 = addr_type a2 /\ (0 < ip_cmp a1 a2 \/ (ip_cmp a1 a2 = 0 /\ ntoh16 (addr_port a2) < ntoh16 (addr_port a1))))).
Proof.
  intros (_ & _ & _ & H1) (_ & _ & _ & H2). unfold BAddr_CompareOrder, ip_cmp, BADDR_TYPE_NONE.
  destruct (Z.eqb_spec (B_COMPARE (addr_type a1) (addr_type a2)) 0) as [E|E]; cbn [negb]; [|rewrite B_COMPARE_lt, B_COMPARE_gt; rewrite B_COMPARE_0 in E; lia].
  rewrite B_COMPARE_0 in E. destruct H1 as [[H1 _]|[H1 _]]; rewrite H1 in *; cbn.
  - destruct (Z.eqb_spec (B_COMPARE (ntoh32 (addr_ip a1)) (ntoh32 (addr_ip a2))) 0) as [E2|E2]; cbn [negb]; rewrite B_COMPARE_lt, B_COMPARE_gt; rewrite B_COMPARE_0 in E2; lia.
  - destruct (Z.eqb_spec (bytes_cmp (addr_ip a1) (addr_ip a2)) 0) as [E2|E2]; cbn [negb]; rewrite B_COMPARE_lt, B_COMPARE_gt; lia.
Qed.

Lemma BAddr_CompareOrder_anti a1 a2 : addr_ok a1 -> addr_ok a2 -> BAddr_CompareOrder a1 a2 < 0 <-> 0 < BAddr_CompareOrder a2 a1.
Proof.
  intros H1 H2. destruct (BAddr_CompareOrder_sgn a1 a2 H1 H2) as [-> _], (BAddr_CompareOrder_sgn a2 a1 H2 H1) as [_ ->]. unfold ip_cmp.
  destruct (Z.eqb_spec (addr_type a1) BADDR_TYPE_IPV4), (Z.eqb_spec (addr_type a2) BADDR_TYPE_IPV4); try lia. rewrite (bytes_cmp_anti (addr_ip a1) (addr_ip a2)). lia.
Qed.

Lemma BAddr_CompareOrder_trans a1 a2 a3 : addr_ok a1 -> addr_ok a2 -> addr_ok a3 -> BAddr_CompareOrder a1 a2 < 0 -> BAddr_CompareOrder a2 a3 < 0 -> BAddr_CompareOrder a1 a3 < 0.
Proof.
  intros H1 H2 H3. destruct (BAddr_CompareOrder_sgn a1 a2 H1 H2) as [-> _], (BAddr_CompareOrder_sgn a2 a3 H2 H3) as [-> _], (BAddr_CompareOrder_sgn a1 a3 H1 H3) as [-> _]. unfold ip_cmp.
  destruct (Z.eqb_spec (addr_type a1) BADDR_TYPE_IPV4), (Z.eqb_spec (addr_type a2) BADDR_TYPE_IPV4); try lia.
  pose proof (bytes_cmp_trans (addr_ip a1) (addr_ip a2) (addr_ip a3)). pose proof (bytes_cmp_eq (addr_ip a1) (addr_ip a2)) as Ha. pose proof (bytes_cmp_eq (addr_ip a2) (addr_ip a3)) as Hb.
  intros [L1|(T1 & [L1|[L1 P1]])] [L2|(T2 & [L2|[L2 P2]])]; try lia; right; (split; [lia|]).
  - apply Hb in L2. rewrite <- L2. auto.
  - apply Ha in L1. rewrite L1. auto.
  - apply Ha in L1. apply Hb in L2. rewrite L1, L2. rewrite bytes_cmp_refl. right. lia.
Qed.
