(* ===== verification/ParseNumber.v ===== *)
(** * Numbers in text

    Models badvpn/misc/parse_number.h, except for the variants on chunked strings, and badvpn/misc/find_char.h.  A string with its length is the
    list of its characters, as codes; [None]: the function returns 0. *)

From stdpp Require Import strings.
From S2P Require Import Prelude.

(** ** Functions *)

Definition decode_decimal_digit (c : Z) : Z := if (48 <=? c) && (c <=? 57) then c - 48 else -1.

Definition decode_hex_digit (c : Z) : Z :=
  if (48 <=? c) && (c <=? 57) then c - 48 else if (65 <=? c) && (c <=? 70) then c - 55 else if (97 <=? c) && (c <=? 102) then c - 87 else -1.

Definition UINTMAX_MAX : Z := 2 ^ 64 - 1.

(** "18446744073709551615" *)
Definition parse_number__uintmax_max_str : list Z := (fun d => 48 + d) <$> [1; 8; 4; 4; 6; 7; 4; 4; 0; 7; 3; 7; 0; 9; 5; 5; 1; 6; 1; 5].

Fixpoint parse__no_overflow (str : list Z) (n : Z) : option Z :=
  match str with
  | [] => Some n
  | c :: str => if (c <? 48) || (57 <? c) then None else parse__no_overflow str (u64 (10 * n + (c - 48)))
  end.

Fixpoint skip_zeros (str : list Z) : list Z := match str with c :: rest => if c =? 48 then skip_zeros rest else str | [] => [] end.

Definition parse_unsigned_integer_bin (str : list Z) : option Z :=
  if bool_decide (str = []) then None else
  let str := skip_zeros str in
  if (20 <? length str)%nat || ((length str =? 20)%nat && (0 <? bytes_cmp str parse_number__uintmax_max_str)) then None else
  parse__no_overflow str 0.

Fixpoint parse_hex_loop (str : list Z) (n : Z) : option Z :=
  match str with
  | [] => Some n
  | c :: str =>
      let digit := decode_hex_digit c in
      if digit <? 0 then None else
      if UINTMAX_MAX / 16 <? n then None else
      let n := n * 16 in
      if UINTMAX_MAX - n <? digit then None else parse_hex_loop str (n + digit)
  end.

Definition parse_unsigned_hex_integer_bin (str : list Z) : option Z := if bool_decide (str = []) then None else parse_hex_loop str 0.

(** The sign and the magnitude. *)
Definition parse_signmag_integer_bin (str : list Z) : option (Z * Z) :=
  let '(sign, str) := match str with c :: rest => if (c =? 43) || (c =? 45) then (1 - 2 * Z.b2z (c =? 45), rest) else (1, str) | [] => (1, str) end in
  mag ← parse_unsigned_integer_bin str; Some (sign, mag).

(** A store to [out + pos]; [None]: outside of it. *)
Definition put (pos v : Z) (out : list Z) : option (list Z) :=
  if (0 <=? pos) && (pos <? Z.of_nat (length out)) then Some (<[Z.to_nat pos := v]> out) else None.

Fixpoint size_loop (fuel : nat) (x size : Z) : Z :=
  match fuel with 0%nat => size | S fuel => let size := size + 1 in let x := x / 10 in if 0 <? x then size_loop fuel x size else size end.

(** A number has at most 20 digits. *)
Definition compute_decimal_repr_size (x : Z) : Z := size_loop 20 x 0.

Fixpoint repr_loop (fuel : nat) (x pos : Z) (out : list Z) : option (list Z) :=
  match fuel with
  | 0%nat => None
  | S fuel => let pos := pos - 1 in out ← put pos (48 + x mod 10) out; let x := x / 10 in if 0 <? x then repr_loop fuel x pos out else Some out
  end.

(** [None]: an assertion fails, or a store outside of [out]. *)
Definition generate_decimal_repr (x : Z) (out : list Z) (repr_size : Z) : option (list Z) :=
  if negb (repr_size =? compute_decimal_repr_size x) then None else repr_loop 20 x repr_size out.

Definition generate_decimal_repr_string (x : Z) (out : list Z) : option (Z * list Z) :=
  let repr_size := compute_decimal_repr_size x in
  out ← generate_decimal_repr x out repr_size;
  out ← put repr_size 0 out;
  Some (repr_size, out).

Fixpoint b_find_char_bin (str : list Z) (c : Z) (i : nat) : option nat :=
  match str with [] => None | x :: str => if x =? c then Some i else b_find_char_bin str c (S i) end.

(** ** The value of a text *)

Section value.
Context (base : Z) (digit : Z -> Z).
Context (Hbase : 1 < base) (Hdigit : forall c, digit c < base).

Definition text_value (ds : list Z) : Z := foldl (fun n c => base * n + digit c) 0 ds.

Lemma foldl_value ds n : foldl (fun n c => base * n + digit c) n ds = n * base ^ Z.of_nat (length ds) + text_value ds.
Proof.
  unfold text_value. induction ds as [|c ds IH] using rev_ind; cbn; [lia|]. rewrite !foldl_snoc, IH, length_app. cbn [length]. rewrite Nat2Z.inj_add, Z.pow_add_r by lia. change (Z.of_nat 1) with 1. rewrite Z.pow_1_r. ring.
Qed.

Lemma value_cons c ds : text_value (c :: ds) = digit c * base ^ Z.of_nat (length ds) + text_value ds.
Proof. unfold text_value at 1. cbn [foldl]. rewrite foldl_value. f_equal. f_equal. lia. Qed.

Lemma value_snoc c ds : text_value (ds ++ [c]) = base * text_value ds + digit c.
Proof. unfold text_value. by rewrite foldl_snoc. Qed.

Lemma value_app ds es : text_value (ds ++ es) = text_value ds * base ^ Z.of_nat (length es) + text_value es.
Proof. unfold text_value at 1. rewrite foldl_app. apply foldl_value. Qed.

Definition is_text (ds : list Z) : Prop := Forall (fun c => 0 <= digit c) ds.

Lemma value_bound ds : is_text ds -> 0 <= text_value ds < base ^ Z.of_nat (length ds).
Proof.
  induction 1 as [|c ds Hc Hds IH]; [done|]. rewrite value_cons. cbn [length]. rewrite Nat2Z.inj_succ, Z.pow_succ_r by lia. pose proof (Hdigit c). pose proof (Z.pow_pos_nonneg base (Z.of_nat (length ds))). nia.
Qed.

Lemma value_prefix ds es : is_text (ds ++ es) -> text_value ds <= text_value (ds ++ es).
Proof. intros [Hd He]%Forall_app. rewrite value_app. pose proof (value_bound ds Hd). pose proof (value_bound es He). pose proof (Z.pow_pos_nonneg base (Z.of_nat (length es))). nia. Qed.

(** Texts of the same length are ordered like their values. *)
Lemma value_order ds es : (forall c d, 0 <= digit c -> 0 <= digit d -> c < d -> digit c < digit d) -> is_text ds -> is_text es -> length ds = length es -> 0 < bytes_cmp ds es <-> text_value es < text_value ds.
Proof.
  intros Hmono. revert es. induction ds as [|c ds IH]; intros [|d es] Hd He Hl; try done. apply Forall_cons in Hd as [Hc Hd]. apply Forall_cons in He as [Hd' He]. injection Hl as Hl. cbn [bytes_cmp]. rewrite !value_cons.
  pose proof (value_bound ds Hd). pose proof (value_bound es He) as Hbe. rewrite <- Hl in *. destruct (Z.ltb_spec c d) as [H1|H1]; [pose proof (Hmono c d Hc Hd' H1); nia|]. destruct (Z.ltb_spec d c) as [H2|H2]; [pose proof (Hmono d c Hd' Hc H2); nia|].
  assert (c = d) as -> by lia. rewrite (IH es Hd He Hl). lia.
Qed.
End value.

Definition decimal_value : list Z -> Z := text_value 10 decode_decimal_digit.
Definition decimal : list Z -> Prop := is_text decode_decimal_digit.
Definition hex_value : list Z -> Z := text_value 16 decode_hex_digit.
Definition hexadecimal : list Z -> Prop := is_text decode_hex_digit.

Lemma decimal_digit_bound c : decode_decimal_digit c < 10.
Proof. unfold decode_decimal_digit. case_test; lia. Qed.

Lemma hex_digit_bound c : decode_hex_digit c < 16.
Proof. unfold decode_hex_digit. repeat (case_test; [lia|]). lia. Qed.

Lemma decimal_digit_spec c : 0 <= decode_decimal_digit c <-> 48 <= c <= 57.
Proof. unfold decode_decimal_digit. destruct (Z.leb_spec 48 c), (Z.leb_spec c 57); cbn; lia. Qed.

Lemma decimal_digit_value c : 48 <= c <= 57 -> decode_decimal_digit c = c - 48.
Proof. intros H. unfold decode_decimal_digit. destruct (Z.leb_spec 48 c), (Z.leb_spec c 57); cbn; lia. Qed.

Lemma decimal_mono c d : 0 <= decode_decimal_digit c -> 0 <= decode_decimal_digit d -> c < d -> decode_decimal_digit c < decode_decimal_digit d.
Proof. rewrite !decimal_digit_spec. intros. rewrite !decimal_digit_value by done. lia. Qed.

(** ** Parsing *)

#[export] Instance decimal_dec ds : Decision (decimal ds).
Proof. unfold decimal, is_text. apply _. Defined.

Lemma no_overflow_some str : forall n, decimal str -> 0 <= n -> n * 10 ^ Z.of_nat (length str) + decimal_value str < 2 ^ 64 -> parse__no_overflow str n = Some (n * 10 ^ Z.of_nat (length str) + decimal_value str).
Proof.
  induction str as [|c str IH]; intros n Hd Hn Hb; cbn [parse__no_overflow]; [f_equal; cbn; lia|]. apply Forall_cons in Hd as [Hc Hd]. pose proof (value_bound 10 _ ltac:(lia) decimal_digit_bound str Hd) as Hv. fold decimal_value in Hv. unfold decimal_value in Hb. rewrite value_cons in Hb by lia. fold decimal_value in Hb.
  apply decimal_digit_spec in Hc. rewrite decimal_digit_value in Hb by done. cbn [length] in Hb. rewrite Nat2Z.inj_succ, Z.pow_succ_r in Hb by lia. pose proof (Z.pow_pos_nonneg 10 (Z.of_nat (length str))) as Hp.
  destruct (Z.ltb_spec c 48); [lia|]. destruct (Z.ltb_spec 57 c); [lia|]. cbn [orb]. rewrite u64_id by nia. rewrite IH; [|done|lia|nia]. f_equal. unfold decimal_value. rewrite value_cons by lia. rewrite decimal_digit_value by done. cbn [length]. rewrite Nat2Z.inj_succ, Z.pow_succ_r by lia. ring.
Qed.

Lemma no_overflow_decimal str : forall n m, parse__no_overflow str n = Some m -> decimal str.
Proof.
  induction str as [|c str IH]; intros n m E; [constructor|]. cbn [parse__no_overflow] in E. destruct (Z.ltb_spec c 48); [done|]. destruct (Z.ltb_spec 57 c); [done|]. cbn [orb] in E. constructor; [apply decimal_digit_spec; lia|by apply (IH _ m E)].
Qed.

Lemma skip_zeros_spec str : exists z, str = replicate z 48 ++ skip_zeros str /\ (skip_zeros str = [] \/ exists c r, skip_zeros str = c :: r /\ c <> 48).
Proof.
  induction str as [|c str IH]; [by exists 0%nat; split; [|left]|]. cbn [skip_zeros]. destruct (Z.eqb_spec c 48) as [->|Hc]; [|exists 0%nat; split; [done|right; by exists c, str]]. destruct IH as (z & E & H). exists (S z). split; [|done]. cbn. by rewrite <- E.
Qed.

Lemma zeros_decimal z r : decimal (replicate z 48 ++ r) <-> decimal r.
Proof. unfold decimal, is_text. rewrite Forall_app. split; [by intros [_ ?]|]. intros H. split; [|done]. apply Forall_replicate. done. Qed.

Lemma zeros_value z r : decimal_value (replicate z 48 ++ r) = decimal_value r.
Proof. induction z as [|z IH]; [done|]. cbn [replicate app]. unfold decimal_value in *. rewrite value_cons by lia. rewrite IH. cbn. lia. Qed.

(** The test for overflow, on a text without leading zeros. *)
Lemma overflow_exact r : (r = [] \/ exists c q, r = c :: q /\ c <> 48) -> decimal r -> (20 <? length r)%nat || ((length r =? 20)%nat && (0 <? bytes_cmp r parse_number__uintmax_max_str)) = true <-> 2 ^ 64 <= decimal_value r.
Proof.
  intros Hhead Hd. pose proof (value_bound 10 _ ltac:(lia) decimal_digit_bound r Hd) as Hb. fold decimal_value in Hb. rewrite orb_true_iff, andb_true_iff, Nat.ltb_lt, Nat.eqb_eq, Z.ltb_lt. assert (Hmax : decimal_value parse_number__uintmax_max_str = 2 ^ 64 - 1) by reflexivity.
  assert (Hcmp : length r = 20%nat -> 0 < bytes_cmp r parse_number__uintmax_max_str <-> decimal_value parse_number__uintmax_max_str < decimal_value r) by (intros Hl; apply (value_order 10); [lia|apply decimal_digit_bound|apply decimal_mono|done|by repeat constructor|done]).
  destruct (Nat.lt_total (length r) 20) as [Hlt|[He|Hgt]].
  - assert (10 ^ Z.of_nat (length r) <= 10 ^ 19) by (apply Z.pow_le_mono_r; lia). lia.
  - rewrite (Hcmp He). lia.
  - split; [intros _|by left]. destruct Hhead as [->|(c & q & -> & Hc)]; [cbn in Hgt; lia|]. apply Forall_cons in Hd as [Hdc Hq]. apply decimal_digit_spec in Hdc. pose proof (value_bound 10 _ ltac:(lia) decimal_digit_bound q Hq). unfold decimal_value. rewrite value_cons by lia. rewrite decimal_digit_value by done. cbn [length] in Hgt.
    assert (10 ^ 20 <= 10 ^ Z.of_nat (length q)) by (apply Z.pow_le_mono_r; lia). nia.
Qed.

(** The parser of numbers accepts exactly the non-empty texts of decimal digits whose value fits into 64 bits, and returns that value;
    the test for overflow, which compares the text with that of the largest number before its characters are checked, is exact
    with any number of leading zeros. *)
Theorem parse_unsigned_integer_exact (str : list Z) (n : Z) : parse_unsigned_integer_bin str = Some n <-> str <> [] /\ decimal str /\ n = decimal_value str /\ n < 2 ^ 64.
Proof.
  unfold parse_unsigned_integer_bin. case_bool_decide as Hnil; [split; [done|by intros [? _]]|]. destruct (skip_zeros_spec str) as (z & E & Hhead). set (r := skip_zeros str) in *. assert (Hd : decimal str <-> decimal r) by (rewrite E; apply zeros_decimal). assert (Hv : decimal_value str = decimal_value r) by (rewrite E; apply zeros_value). rewrite Hd, Hv. clear Hd Hv E.
  set (over := (20 <? length r)%nat || ((length r =? 20)%nat && (0 <? bytes_cmp r parse_number__uintmax_max_str))).
  assert (Hover : decimal r -> over = true <-> 2 ^ 64 <= decimal_value r) by apply (overflow_exact r Hhead). destruct over eqn:Eo.
  - split; [done|]. intros (_ & Hd & -> & Hlt). pose proof (proj1 (Hover Hd) eq_refl). lia.
  - split.
    + intros E. pose proof (no_overflow_decimal _ _ _ E) as Hd. assert (Hlt : decimal_value r < 2 ^ 64) by (destruct (Z.lt_ge_cases (decimal_value r) (2 ^ 64)) as [|Hge]; [done|]; by apply Hover in Hge). rewrite no_overflow_some in E; [|done|lia|lia]. injection E as <-. split_and!; try done; lia.
    + intros (_ & Hd & -> & Hlt). rewrite no_overflow_some; [f_equal; lia|done|lia|lia].
Qed.

Lemma hex_loop_exact str : forall n m, 0 <= n < 2 ^ 64 -> parse_hex_loop str n = Some m <-> hexadecimal str /\ m = n * 16 ^ Z.of_nat (length str) + hex_value str /\ m < 2 ^ 64.
Proof.
  induction str as [|c str IH]; intros n m Hn; cbn [parse_hex_loop]; [cbn; split; [intros [= <-]; split_and!; [constructor|lia..]|intros (_ & -> & _); f_equal; lia]|].
  unfold hex_value, hexadecimal, is_text. rewrite Forall_cons, value_cons by lia. fold hex_value. cbn [length]. rewrite Nat2Z.inj_succ, Z.pow_succ_r by lia. pose proof (hex_digit_bound c) as Hc. set (digit := decode_hex_digit c) in *. pose proof (Z.pow_pos_nonneg 16 (Z.of_nat (length str))) as Hp. unfold UINTMAX_MAX.
  destruct (Z.ltb_spec digit 0) as [|Hd]; [split; [done|intros [[? _] _]; lia]|].
  assert (Hbig : hexadecimal str -> 2 ^ 64 <= n * 16 + digit -> n * (16 * 16 ^ Z.of_nat (length str)) + (digit * 16 ^ Z.of_nat (length str) + hex_value str) < 2 ^ 64 -> False).
  { intros Ht Hb Hlt. pose proof (value_bound 16 _ ltac:(lia) hex_digit_bound str Ht) as Hv. fold hex_value in Hv. nia. }
  destruct (Z.ltb_spec ((2 ^ 64 - 1) / 16) n) as [H1|H1]; [split; [done|intros ((_ & Ht) & -> & Hlt); exfalso; apply (Hbig Ht); [|done]; zdiv]|]. destruct (Z.ltb_spec (2 ^ 64 - 1 - n * 16) digit) as [H2|H2]; [split; [done|intros ((_ & Ht) & -> & Hlt); exfalso; apply (Hbig Ht); [|done]; lia]|].
  rewrite (IH (n * 16 + digit) m) by lia. replace (n * (16 * 16 ^ Z.of_nat (length str)) + (digit * 16 ^ Z.of_nat (length str) + hex_value str)) with ((n * 16 + digit) * 16 ^ Z.of_nat (length str) + hex_value str) by ring. naive_solver.
Qed.

(** The parser of hexadecimal numbers, likewise. *)
Theorem parse_unsigned_hex_exact (str : list Z) (n : Z) : parse_unsigned_hex_integer_bin str = Some n <-> str <> [] /\ hexadecimal str /\ n = hex_value str /\ n < 2 ^ 64.
Proof.
  unfold parse_unsigned_hex_integer_bin. case_bool_decide as Hnil; [split; [done|by intros [? _]]|]. rewrite (hex_loop_exact str 0 n) by lia. rewrite Z.mul_0_l, Z.add_0_l. naive_solver.
Qed.

(** ** Printing *)

(** The text of [x], as [sprintf] writes it. *)
Fixpoint text_of (base : Z) (char : Z -> Z) (fuel : nat) (x : Z) (acc : list Z) : list Z :=
  match fuel with 0%nat => acc | S fuel => let acc := char (x mod base) :: acc in let x := x / base in if 0 <? x then text_of base char fuel x acc else acc end.

Definition decimal_text (x : Z) : list Z := text_of 10 (fun d => 48 + d) 20 x [].
Definition hex_text (x : Z) : list Z := text_of 16 (fun d => if d <? 10 then 48 + d else 87 + d) 16 x [].

Section printing.
Context (base : Z) (char digit : Z -> Z).
Context (Hbase : 1 < base) (Hchar : forall d, 0 <= d < base -> digit (char d) = d).

Lemma text_of_app fuel : forall x acc, text_of base char fuel x acc = text_of base char fuel x [] ++ acc.
Proof.
  induction fuel as [|fuel IH]; intros x acc; [done|]. cbn [text_of]. case_test; [|done]. rewrite (IH _ (_ :: acc)), (IH _ [_]), <- app_assoc. done.
Qed.

Lemma text_of_ok fuel : forall x, 0 <= x < base ^ Z.of_nat fuel -> (0 < fuel)%nat -> let t := text_of base char fuel x [] in
  is_text digit t /\ text_value base digit t = x /\ t <> [] /\ (length t <= fuel)%nat /\ (x <> 0 -> base ^ Z.of_nat (length t - 1) <= x).
Proof.
  induction fuel as [|fuel IH]; intros x Hx Hf; [lia|]. cbn [text_of]. rewrite Nat2Z.inj_succ, Z.pow_succ_r in Hx by lia. pose proof (Z.mod_pos_bound x base ltac:(lia)) as Hm. pose proof (Z.div_mod x base ltac:(lia)) as Hdm. assert (Hq : 0 <= x / base) by (apply Z.div_pos; lia).
  destruct (Z.ltb_spec 0 (x / base)) as [Hd|Hd].
  - rewrite text_of_app. assert (Hlt : x / base < base ^ Z.of_nat fuel) by (apply Z.div_lt_upper_bound; lia). assert (Hf' : (0 < fuel)%nat) by (destruct fuel; [cbn in Hlt; lia|lia]). destruct (IH (x / base) ltac:(lia) Hf') as (H1 & H2 & H3 & H4 & H5).
    split; [apply Forall_app; split; [done|constructor; [rewrite Hchar by done; lia|constructor]]|]. split; [rewrite value_snoc, H2, Hchar by done; lia|]. split; [by destruct (text_of base char fuel (x / base) [])|]. rewrite length_app. cbn [length]. split; [lia|]. intros _.
    replace (length (text_of base char fuel (x / base) []) + 1 - 1)%nat with (S (length (text_of base char fuel (x / base) []) - 1)) by (destruct (text_of base char fuel (x / base) []); [done|cbn; lia]). rewrite Nat2Z.inj_succ, Z.pow_succ_r by lia. specialize (H5 ltac:(lia)). nia.
  - assert (x / base = 0) as Hz by lia. split; [constructor; [rewrite Hchar by done; lia|constructor]|]. split; [unfold text_value; cbn; rewrite Hchar by done; nia|]. split; [done|]. cbn. split; [lia|]. intros. lia.
Qed.
End printing.

Lemma decimal_text_ok x : 0 <= x < 2 ^ 64 -> decimal (decimal_text x) /\ decimal_value (decimal_text x) = x /\ decimal_text x <> [] /\ (length (decimal_text x) <= 20)%nat /\ (x <> 0 -> 10 ^ Z.of_nat (length (decimal_text x) - 1) <= x).
Proof. intros Hx. apply (text_of_ok 10 (fun d => 48 + d) decode_decimal_digit); [lia|intros d Hd; rewrite decimal_digit_value; lia|cbn; lia|lia]. Qed.

Lemma hex_char_value d : 0 <= d < 16 -> decode_hex_digit (if d <? 10 then 48 + d else 87 + d) = d.
Proof. intros Hd. unfold decode_hex_digit. destruct (Z.ltb_spec d 10); repeat case_test; try lia. all: rewrite ?andb_false_iff, ?Z.leb_gt in *; lia. Qed.

Lemma hex_text_ok x : 0 <= x < 2 ^ 64 -> hexadecimal (hex_text x) /\ hex_value (hex_text x) = x /\ hex_text x <> [] /\ (length (hex_text x) <= 16)%nat /\ (x <> 0 -> 16 ^ Z.of_nat (length (hex_text x) - 1) <= x).
Proof. intros Hx. apply (text_of_ok 16 _ decode_hex_digit); [lia|apply hex_char_value|cbn; lia|lia]. Qed.

Lemma size_loop_ok fuel : forall x size, 0 <= x -> size_loop fuel x size = size + Z.of_nat (length (text_of 10 (fun d => 48 + d) fuel x [])).
Proof.
  induction fuel as [|fuel IH]; intros x size Hx; [cbn; lia|]. cbn [size_loop text_of]. case_test; [|cbn; lia]. rewrite IH by zdiv. rewrite (text_of_app 10 (fun d => 48 + d) fuel _ [_]), length_app. cbn [length]. lia.
Qed.

Lemma repr_loop_ok fuel : forall x (a b r : list Z), 0 <= x < 10 ^ Z.of_nat fuel -> (0 < fuel)%nat -> length b = length (text_of 10 (fun d => 48 + d) fuel x []) ->
  repr_loop fuel x (Z.of_nat (length a + length b)) (a ++ b ++ r) = Some (a ++ text_of 10 (fun d => 48 + d) fuel x [] ++ r).
Proof.
  induction fuel as [|fuel IH]; intros x a b r Hx Hf Hl; [lia|]. cbn [repr_loop text_of] in *. rewrite Nat2Z.inj_succ, Z.pow_succ_r in Hx by lia. destruct b as [|v b _] using rev_ind; [exfalso; revert Hl; case_test; [rewrite text_of_app, length_app; cbn; lia|cbn; lia]|]. rewrite length_app. cbn [length].
  assert (Ep : put (Z.of_nat (length a + (length b + 1)) - 1) (48 + x mod 10) (a ++ (b ++ [v]) ++ r) = Some (a ++ b ++ (48 + x mod 10) :: r)).
  { unfold put. rewrite !length_app. cbn [length]. destruct (Z.leb_spec 0 (Z.of_nat (length a + (length b + 1)) - 1)); [|lia]. destruct (Z.ltb_spec (Z.of_nat (length a + (length b + 1)) - 1) (Z.of_nat (length a + (length b + 1 + length r)))); [|lia]. cbn [andb]. f_equal. rewrite <- (app_assoc b), (app_assoc a). cbn [app]. replace (Z.to_nat (Z.of_nat (length a + (length b + 1)) - 1)) with (length (a ++ b) + 0)%nat by (rewrite length_app; lia). rewrite insert_app_r. cbn. by rewrite <- app_assoc. }
  rewrite Ep. cbn [mbind option_bind]. destruct (Z.ltb_spec 0 (x / 10)) as [Hd|Hd].
  - rewrite text_of_app in Hl |- *. rewrite !length_app in Hl. cbn [length] in Hl. replace (Z.of_nat (length a + (length b + 1)) - 1) with (Z.of_nat (length a + length b)) by lia. assert (Hlt : x / 10 < 10 ^ Z.of_nat fuel) by (apply Z.div_lt_upper_bound; lia).
    rewrite (IH (x / 10) a b ((48 + x mod 10) :: r)); [by rewrite <- app_assoc|zdiv|destruct fuel; [cbn in Hlt; lia|lia]|lia].
  - rewrite length_app in Hl. cbn in Hl. destruct b; [|cbn in Hl; lia]. done.
Qed.

(** Printing a number into a buffer that has room for its digits and a terminator writes its decimal text there, of the size that was computed, and
    nothing else; parsing that text gives the number back. *)
Theorem decimal_repr_roundtrip (x : Z) (b : list Z) (v : Z) (r : list Z) : 0 <= x < 2 ^ 64 -> Z.of_nat (length b) = compute_decimal_repr_size x ->
  exists t, generate_decimal_repr_string x (b ++ v :: r) = Some (Z.of_nat (length t), t ++ 0 :: r) /\ length t = length b /\ parse_unsigned_integer_bin t = Some x.
Proof.
  intros Hx Hb. destruct (decimal_text_ok x Hx) as (H1 & H2 & H3 & H4 & _). exists (decimal_text x). unfold compute_decimal_repr_size in Hb. rewrite size_loop_ok in Hb by lia. fold (decimal_text x) in Hb. assert (Hl : length b = length (decimal_text x)) by lia. split; [|split; [done|apply parse_unsigned_integer_exact; split_and!; [done..|lia]]].
  unfold generate_decimal_repr_string, generate_decimal_repr, compute_decimal_repr_size. rewrite size_loop_ok by lia. fold (decimal_text x). rewrite Z.eqb_refl. cbn [negb]. rewrite Z.add_0_l.
  pose proof (repr_loop_ok 20 x [] b (v :: r) ltac:(cbn; lia) ltac:(lia) Hl) as E. cbn [app length Nat.add] in E. rewrite Hl in E. rewrite E. cbn [mbind option_bind]. fold (decimal_text x). unfold put. rewrite length_app. cbn [length]. destruct (Z.leb_spec 0 (Z.of_nat (length (decimal_text x)))); [|lia]. destruct (Z.ltb_spec (Z.of_nat (length (decimal_text x))) (Z.of_nat (length (decimal_text x) + S (length r)))); [|lia]. cbn [andb mbind option_bind].
  rewrite Nat2Z.id. rewrite <- (Nat.add_0_r (length (decimal_text x))) at 2. by rewrite insert_app_r.
Qed.
