(* ===== verification/IpAddr.v ===== *)
(** * IP addresses in text

    Models badvpn/misc/ipaddr.h and badvpn/misc/ipaddr6.h, with which tun2socks reads the addresses of its options.  An address is the list of its
    bytes in memory, in network order; a string with its length is the list of its characters.  A parser returns
    [None] when it reads or writes outside of an array, [Some None] when it returns 0. *)

From S2P Require Import Prelude Baddr ParseNumber.

(** ** Reads and writes *)

Definition at_pos (name : list Z) (i : Z) : option Z := if 0 <=? i then name !! Z.to_nat i else None.

(** [memmove (out + dst, out + src, n)] and [memset (out + dst, v, n)]. *)
Definition move (dst src n : Z) (out : list Z) : option (list Z) :=
  if (0 <=? n) && (0 <=? dst) && (0 <=? src) && (dst + n <=? Z.of_nat (length out)) && (src + n <=? Z.of_nat (length out))
  then Some (splice (Z.to_nat dst) (slice (Z.to_nat src) (Z.to_nat n) out) out) else None.
Definition fill (dst v n : Z) (out : list Z) : option (list Z) :=
  if (0 <=? n) && (0 <=? dst) && (dst + n <=? Z.of_nat (length out)) then Some (splice (Z.to_nat dst) (replicate (Z.to_nat n) v) out) else None.
Definition copy (dst : Z) (bs out : list Z) : option (list Z) :=
  if (0 <=? dst) && (dst + Z.of_nat (length bs) <=? Z.of_nat (length out)) then Some (splice (Z.to_nat dst) bs out) else None.

(** ** IPv4 *)

(** The characters before the first dot. *)
Fixpoint until_dot (name : list Z) : nat := match name with c :: name => if c =? 46 then 0%nat else S (until_dot name) | [] => 0%nat end.

(** [fuel]: the bytes that are left. *)
Fixpoint parse4_loop (fuel : nat) (i : Z) (name out : list Z) : option (option (list Z)) :=
  match fuel with
  | 0%nat => None
  | S fuel =>
      let name_len := length name in let j := until_dot name in
      if ((j =? name_len)%nat && (i <? 3)) || ((j <? name_len)%nat && (i =? 3)) then Some None else
      if (j <? 1)%nat || (3 <? j)%nat then Some None else
      match parse_unsigned_integer_bin (take j name) with
      | None => Some None
      | Some d =>
          if 255 <? d then Some None else
          out ← put i d out;
          if i =? 3 then Some (Some out) else parse4_loop fuel (i + 1) (drop (j + 1) name) out
      end
  end.

Definition ipaddr_parse_ipv4_addr_bin (name out : list Z) : option (option (list Z)) := parse4_loop 4 0 name out.

(** A prefix length of at most [max]. *)
Definition parse_prefix (max : Z) (str : list Z) : option Z := d ← parse_unsigned_integer_bin str; if max <? d then None else Some d.
Definition ipaddr_parse_ipv4_prefix_bin (str : list Z) : option Z := parse_prefix 32 str.

(** An address and a prefix length, separated by a slash. *)
Definition parse_ifaddr (addr : list Z -> list Z -> option (option (list Z))) (prefix : list Z -> option Z) (str out : list Z) : option (option (list Z * Z)) :=
  match b_find_char_bin str 47 0 with
  | None => Some None
  | Some slash_pos =>
      r ← addr (take slash_pos str) out;
      Some (a ← r; p ← prefix (drop (slash_pos + 1) str); Some (a, p))
  end.

Definition ipaddr_parse_ipv4_ifaddr_bin (str out : list Z) : option (option (list Z * Z)) := parse_ifaddr ipaddr_parse_ipv4_addr_bin ipaddr_parse_ipv4_prefix_bin str out.

Fixpoint mask_loop (n : nat) (bits i t : Z) : Z := match n with 0%nat => t | S n => mask_loop n bits (i + 1) (Z.lor t (Z.shiftl 1 (bits - i - 1))) end.

Definition ipaddr_ipv4_mask_from_prefix (prefix : Z) : list Z := hton32 (mask_loop (Z.to_nat prefix) 32 0 0).

(** The number of ones at the front of [v], when only zeros follow. *)
Fixpoint prefix_loop (n : nat) (bits v i t : Z) : option Z :=
  if v =? t then Some i else match n with 0%nat => None | S n => prefix_loop n bits v (i + 1) (Z.lor t (Z.shiftl 1 (bits - i - 1))) end.

Definition ipaddr_ipv4_prefix_from_mask (mask : list Z) : option Z := prefix_loop 32 32 (ntoh32 mask) 0 0.

Definition ipaddr_ipv4_ifaddr_from_addr_mask (addr mask : list Z) : option (list Z * Z) := p ← ipaddr_ipv4_prefix_from_mask mask; Some (addr, p).

Definition ipaddr_ipv4_addrs_in_network (addr1 addr2 : list Z) (netprefix : Z) : bool :=
  let mask := ipaddr_ipv4_mask_from_prefix netprefix in
  Z.land (ntoh32 addr1) (ntoh32 mask) =? Z.land (ntoh32 addr2) (ntoh32 mask).

(** The buffers of the callers. *)
Definition IPADDR_PRINT_MAX : nat := 19.

Definition ipaddr_print_addr (addr : list Z) : list Z :=
  decimal_text (nthb addr 0) ++ 46 :: decimal_text (nthb addr 1) ++ 46 :: decimal_text (nthb addr 2) ++ 46 :: decimal_text (nthb addr 3).
Definition ipaddr_print_ifaddr (addr : list Z) (prefix : Z) : list Z := ipaddr_print_addr addr ++ 47 :: decimal_text prefix.

(** ** IPv6 *)

(** The locals of the parser. *)
Record parser6 := mkParser { num_blocks : Z; compress_pos : Z; block : Z; empty : bool; bytes : list Z }.

Definition store_block (s : parser6) : option (list Z) :=
  out ← put (2 * num_blocks s) (Z.shiftr (block s) 8) (bytes s); put (2 * num_blocks s + 1) (Z.land (block s) 255) out.

(** How the loop over the blocks ends: [return 0], the end of the text, or the dot at [i]. *)
Inductive blocks_end := BlocksBad | BlocksDone (s : parser6) | BlocksDot (i : Z) (s : parser6).

Fixpoint blocks_loop (fuel : nat) (name : list Z) (i : Z) (s : parser6) : option blocks_end :=
  match fuel with
  | 0%nat => None
  | S fuel =>
      let name_len := Z.of_nat (length name) in
      if negb (i <? name_len) then Some (BlocksDone s) else
      c ← at_pos name i;
      if c =? 46 then Some (BlocksDot i s)
      else if c =? 58 then
        is_double ← (if i + 1 <? name_len then c ← at_pos name (i + 1); Some (c =? 58) else Some false);
        if (0 <? i) && (empty s || (num_blocks s =? 7)) then Some BlocksBad else
        if negb (0 <? i) && negb is_double then Some BlocksBad else
        s ← (if 0 <? i then out ← store_block s; Some (mkParser (num_blocks s + 1) (compress_pos s) 0 true out) else Some s);
        if is_double && negb (compress_pos s =? -1) then Some BlocksBad else
        let s := if is_double : bool then mkParser (num_blocks s) (num_blocks s) (block s) (empty s) (bytes s) else s in
        blocks_loop fuel name (i + 1 + Z.b2z is_double) s
      else
        let digit := decode_hex_digit c in
        if digit <? 0 then Some BlocksBad else
        if 65535 / 16 <? block s then Some BlocksBad else
        let b := block s * 16 in
        if 65535 - b <? digit then Some BlocksBad else
        blocks_loop fuel name (i + 1) (mkParser (num_blocks s) (compress_pos s) (b + digit) false (bytes s))
  end.

(** From [ipv4_done] on. *)
Definition expand (s : parser6) : option (option (list Z)) :=
  if (compress_pos s =? -1) && negb (num_blocks s =? 8) then Some None else
  let compress_pos := if compress_pos s =? -1 then 0 else compress_pos s in
  let num_rear := num_blocks s - compress_pos in
  out ← move (2 * (8 - num_rear)) (2 * compress_pos) (2 * num_rear) (bytes s);
  out ← fill (2 * compress_pos) 0 (2 * (8 - num_rear - compress_pos)) out;
  Some (Some out).

(** Back to the character after the last colon. *)
Fixpoint back_to_colon (fuel : nat) (name : list Z) (i : Z) : option Z :=
  match fuel with 0%nat => None | S fuel => c ← at_pos name (i - 1); if c =? 58 then Some i else back_to_colon fuel name (i - 1) end.

(** The four bytes at the end; [quad]: those that were read. *)
Fixpoint quad_loop (fuel : nat) (name : list Z) (i : Z) (quad : list Z) (cur_byte byte : Z) (empty : bool) : option (option (list Z)) :=
  match fuel with
  | 0%nat => None
  | S fuel =>
      if negb (i <? Z.of_nat (length name)) then
        if negb (cur_byte =? 3) || empty then Some None else quad ← put cur_byte byte quad; Some (Some quad)
      else
      c ← at_pos name i;
      if c =? 46 then
        if empty || (cur_byte =? 3) then Some None else
        quad ← put cur_byte byte quad;
        quad_loop fuel name (i + 1) quad (cur_byte + 1) 0 true
      else
        if negb empty && (byte =? 0) then Some None else
        let digit := decode_decimal_digit c in
        if digit <? 0 then Some None else
        if 255 / 10 <? byte then Some None else
        let byte := byte * 10 in
        if 255 - byte <? digit then Some None else
        quad_loop fuel name (i + 1) quad cur_byte (byte + digit) false
  end.

Definition quad_ending (fuel : nat) (name : list Z) (i : Z) (quad : list Z) (s : parser6) : option (option (list Z)) :=
  if empty s || ((num_blocks s =? 0) && (compress_pos s =? -1)) then Some None else
  i ← back_to_colon fuel name i;
  r ← quad_loop fuel name i quad 0 0 true;
  match r with
  | None => Some None
  | Some quad =>
      if 8 - num_blocks s <? 2 then Some None else
      out ← copy (2 * num_blocks s) quad (bytes s);
      expand (mkParser (num_blocks s + 2) (compress_pos s) (block s) (empty s) out)
  end.

(** After the loop. *)
Definition parse_end (fuel : nat) (name quad : list Z) (r : blocks_end) : option (option (list Z)) :=
  match r with
  | BlocksBad => Some None
  | BlocksDot i s => quad_ending fuel name i quad s
  | BlocksDone s =>
      if negb (empty s) then out ← store_block s; expand (mkParser (num_blocks s + 1) (compress_pos s) (block s) (empty s) out)
      else if negb (num_blocks s =? compress_pos s) then Some None else expand s
  end.

(** [quad]: the uninitialised [bytes]. *)
Definition ipaddr6_parse_ipv6_addr_bin (name out quad : list Z) : option (option (list Z)) :=
  let fuel := S (length name) in
  r ← blocks_loop fuel name 0 (mkParser 0 (-1) 0 true out);
  parse_end fuel name quad r.

Definition ipaddr6_parse_ipv6_prefix_bin (str : list Z) : option Z := parse_prefix 128 str.
Definition ipaddr6_parse_ipv6_ifaddr_bin (str out quad : list Z) : option (option (list Z * Z)) := parse_ifaddr (fun name out => ipaddr6_parse_ipv6_addr_bin name out quad) ipaddr6_parse_ipv6_prefix_bin str out.

Definition ipaddr6_ipv6_mask_from_prefix (prefix : Z) : list Z :=
  let quot := Z.to_nat (prefix / 8) in let rem := Z.to_nat (prefix mod 8) in
  let mask := replicate quot 255 ++ replicate (16 - quot) 0 in
  if (rem =? 0)%nat then mask else <[quot := Z.lor (nthb mask quot) (mask_loop rem 8 0 0)]> mask.

(** Ones up to some byte, then only zeros; [prefix]: the ones before [mask]. *)
Fixpoint mask_prefix (mask : list Z) (prefix : Z) : option Z :=
  match mask with
  | [] => Some prefix
  | b :: mask =>
      if b =? 255 then mask_prefix mask (prefix + 8) else
      j ← prefix_loop 8 8 b 0 0;
      if forallb (fun b => b =? 0) mask then Some (prefix + j) else None
  end.
Definition ipaddr6_ipv6_prefix_from_mask (mask : list Z) : option Z := mask_prefix mask 0.
Definition ipaddr6_ipv6_ifaddr_from_addr_mask (addr mask : list Z) : option (list Z * Z) := p ← ipaddr6_ipv6_prefix_from_mask mask; Some (addr, p).

Definition ipaddr6_ipv6_addrs_in_network (addr1 addr2 : list Z) (netprefix : Z) : bool :=
  let quot := Z.to_nat (netprefix / 8) in let rem := Z.to_nat (netprefix mod 8) in
  if negb (bytes_cmp (take quot addr1) (take quot addr2) =? 0) then false else
  if (rem =? 0)%nat then true else
  let t := mask_loop rem 8 0 0 in
  Z.land (nthb addr1 quot) t =? Z.land (nthb addr2 quot) t.

Definition block_of (addr : list Z) (i : nat) : Z := Z.lor (Z.shiftl (nthb addr (2 * i)) 8) (nthb addr (2 * i + 1)).

(** The longest run of zero blocks, its start and its length. *)
Fixpoint longest_loop (n : nat) (addr : list Z) (i largest_start largest_len current_start current_len : nat) : nat * nat :=
  match n with
  | 0%nat => (largest_start, largest_len)
  | S n =>
      if (nthb addr (2 * i) =? 0) && (nthb addr (2 * i + 1) =? 0) then
        let current_len := S current_len in
        if (largest_len <? current_len)%nat then longest_loop n addr (S i) current_start current_len current_start current_len
        else longest_loop n addr (S i) largest_start largest_len current_start current_len
      else longest_loop n addr (S i) largest_start largest_len (S i) 0
  end.

Definition IPADDR6_PRINT_MAX : nat := 44.

Definition ipaddr6_print_addr (addr : list Z) : list Z :=
  let '(start, len) := longest_loop 8 addr 0 0 0 0 0 in
  if (1 <? len)%nat then
    concat ((fun i => hex_text (block_of addr i) ++ [58]) <$> seq 0 start)
    ++ (if (start =? 0)%nat then [58] else [])
    ++ concat ((fun i => 58 :: hex_text (block_of addr i)) <$> seq (start + len) (8 - (start + len)))
    ++ (if (start + len =? 8)%nat then [58] else [])
  else concat ((fun i => (if (i =? 0)%nat then [] else [58]) ++ hex_text (block_of addr i)) <$> seq 0 8).

Definition ipaddr6_print_ifaddr (addr : list Z) (prefix : Z) : list Z := ipaddr6_print_addr addr ++ 47 :: decimal_text prefix.
