(* ===== verification/IpAddrSpec.v ===== *)
(** * IP addresses in text: theorems

    The parsers accept exactly the texts of a grammar, touch nothing outside of their arrays on any input, and read what is printed. *)

From S2P Require Import Prelude Baddr ParseNumber IpAddr.

(** ** The grammar of IPv6 addresses *)

(** A part between colons: a block, or four bytes with dots. *)
Inductive item := Hex (t : list Z) | Quad (t0 t1 t2 t3 : list Z).

(** A byte without leading zeros. *)
Definition byte_text (t : list Z) : Prop := t <> [] /\ decimal t /\ decimal_value t < 256 /\ (head t = Some 48 -> t = [48]).

Definition item_ok (x : item) : Prop :=
  match x with
  | Hex t => t <> [] /\ hexadecimal t /\ hex_value t < 2 ^ 16
  | Quad t0 t1 t2 t3 => byte_text t0 /\ byte_text t1 /\ byte_text t2 /\ byte_text t3
  end.

Definition item_text (x : item) : list Z := match x with Hex t => t | Quad t0 t1 t2 t3 => t0 ++ 46 :: t1 ++ 46 :: t2 ++ 46 :: t3 end.
Definition item_bytes (x : item) : list Z :=
  match x with Hex t => [hex_value t / 256; hex_value t mod 256] | Quad t0 t1 t2 t3 => [decimal_value t0; decimal_value t1; decimal_value t2; decimal_value t3] end.

(** Bytes with dots come last. *)
Fixpoint items_ok (l : list item) : Prop :=
  match l with [] => True | [x] => item_ok x | x :: l => (match x with Hex _ => True | Quad _ _ _ _ => False end) /\ item_ok x /\ items_ok l end.

Fixpoint join (l : list item) : list Z := match l with [] => [] | [x] => item_text x | x :: l => item_text x ++ 58 :: join l end.
Definition items_bytes (l : list item) : list Z := concat (item_bytes <$> l).

(** All blocks; or one double colon, for the zeros that are missing. *)
Definition denotes (name addr : list Z) : Prop :=
  (exists l, items_ok l /\ name = join l /\ length (items_bytes l) = 16%nat /\ addr = items_bytes l) \/
  (exists pre post, Forall (fun x => exists t, x = Hex t /\ item_ok x) pre /\ items_ok post /\ name = join pre ++ 58 :: 58 :: join post /\ (length pre <= 7)%nat /\ (length (items_bytes pre ++ items_bytes post) <= 16)%nat
    /\ addr = items_bytes pre ++ replicate (16 - length (items_bytes pre ++ items_bytes post)) 0 ++ items_bytes post).

(** ** Texts *)

Lemma decimal_hex c : 0 <= decode_decimal_digit c -> decode_hex_digit c = decode_decimal_digit c /\ 0 <= decode_hex_digit c.
Proof. intros H. assert (H' := H). apply decimal_digit_spec in H'. rewrite (decimal_digit_value c H'). unfold decode_hex_digit. destruct (Z.leb_spec 48 c), (Z.leb_spec c 57); cbn; lia. Qed.

Lemma decimal_hexadecimal t : decimal t -> hexadecimal t.
Proof. intros H. eapply Forall_impl; [exact H|]. intros c Hc. by apply decimal_hex. Qed.

(** A token that is followed by something else is determined by the text. *)
Section tokens.
Context (digit : Z -> Z).

Definition stops_at (r : list Z) : Prop := match r with [] => True | c :: _ => digit c < 0 end.

Lemma token_prefix a b r q : is_text digit a -> is_text digit b -> stops_at q -> a ++ r = b ++ q -> exists e, b = a ++ e /\ r = e ++ q.
Proof.
  revert b. induction a as [|c a IH]; intros b Ha Hb Hq E; [by exists b|]. apply Forall_cons in Ha as [Hc Ha]. destruct b as [|d b]; [cbn in E; subst q; cbn in Hq; lia|]. injection E as -> E. apply Forall_cons in Hb as [_ Hb]. destruct (IH b Ha Hb Hq E) as (e & -> & ->). by exists e.
Qed.

Lemma token_unique a b r q : is_text digit a -> is_text digit b -> stops_at r -> stops_at q -> a ++ r = b ++ q -> a = b /\ r = q.
Proof.
  intros Ha Hb Hr Hq E. destruct (token_prefix a b r q Ha Hb Hq E) as (e & -> & ->). destruct e as [|c e]; [by rewrite app_nil_r|]. apply Forall_app in Hb as [_ Hb]. apply Forall_cons in Hb as [Hc _]. cbn in Hr. lia.
Qed.

(** ... also character by character. *)
Lemma token_step a c r b q : is_text digit a -> is_text digit b -> stops_at q -> a ++ c :: r = b ++ q -> (digit c < 0 /\ b = a /\ q = c :: r) \/ (0 <= digit c /\ exists e, b = (a ++ [c]) ++ e /\ r = e ++ q).
Proof.
  intros Ha Hb Hq E. destruct (Z.lt_ge_cases (digit c) 0) as [Hc|Hc].
  - left. destruct (token_unique a b (c :: r) q Ha Hb Hc Hq E) as [-> ->]. done.
  - right. split; [lia|]. apply token_prefix; [apply Forall_app; split; [done|constructor; [lia|constructor]]|done|done|by rewrite <- app_assoc].
Qed.
End tokens.

#[local] Notation stops := (stops_at decode_hex_digit).

(** A byte has at most three digits. *)
Lemma byte_text_short t : byte_text t -> (length t <= 3)%nat.
Proof.
  intros (Hne & Hd & Hv & Hz). destruct t as [|c t]; [done|]. apply Forall_cons in Hd as [Hc Hd]. pose proof (value_bound 10 _ ltac:(lia) decimal_digit_bound t Hd) as Hb. unfold decimal_value in Hv. rewrite value_cons in Hv by lia. apply decimal_digit_spec in Hc. rewrite decimal_digit_value in Hv by done.
  destruct (decide (c = 48)) as [->|Hc0]; [specialize (Hz eq_refl); injection Hz as ->; cbn; lia|]. cbn [length]. destruct (Nat.le_gt_cases (length t) 2) as [|Hgt]; [lia|]. assert (10 ^ 3 <= 10 ^ Z.of_nat (length t)) by (apply Z.pow_le_mono_r; lia). nia.
Qed.

(** The first token of a non-empty list of items. *)
Lemma first_token l : items_ok l -> l <> [] -> exists x l' b q, l = x :: l' /\ join l = b ++ q /\ hexadecimal b /\ b <> [] /\ hex_value b < 2 ^ 16 /\ stops q /\
  match x with Hex t => b = t /\ ((l' = [] /\ q = []) \/ (l' <> [] /\ items_ok l' /\ q = 58 :: join l')) | Quad t0 t1 t2 t3 => b = t0 /\ l' = [] /\ q = 46 :: t1 ++ 46 :: t2 ++ 46 :: t3 /\ byte_text t0 /\ byte_text t1 /\ byte_text t2 /\ byte_text t3 end.
Proof.
  destruct l as [|x l']; [done|]. intros Hok _. exists x, l'. destruct x as [t|t0 t1 t2 t3].
  - assert (Ht : item_ok (Hex t)) by (destruct l'; [done|apply Hok]). destruct Ht as (Hne & Hh & Hv). destruct l' as [|y l'].
    + exists t, []. cbn [join item_text]. rewrite app_nil_r. split_and!; try done. by left.
    + exists t, (58 :: join (y :: l')). split_and!; try done. right. split; [done|]. split; [apply Hok|done].
  - destruct l' as [|y l']; [|by destruct Hok]. destruct Hok as (H0 & H1 & H2 & H3). exists t0, (46 :: t1 ++ 46 :: t2 ++ 46 :: t3). pose proof (byte_text_short _ H0) as Hs. destruct H0 as (Hne & Hd & Hv & Hz). pose proof (decimal_hexadecimal _ Hd) as Hh.
    split_and!; try done. pose proof (value_bound 16 _ ltac:(lia) hex_digit_bound t0 Hh) as Hb. fold hex_value in Hb. assert (16 ^ Z.of_nat (length t0) <= 16 ^ 3) by (apply Z.pow_le_mono_r; lia). lia.
Qed.

Lemma items_bytes_cons x l : items_bytes (x :: l) = item_bytes x ++ items_bytes l.
Proof. done. Qed.

Lemma items_bytes_pos l : l <> [] -> (2 <= length (items_bytes l))%nat.
Proof. destruct l as [|x l]; [done|]. intros _. rewrite items_bytes_cons, length_app. destruct x; cbn; lia. Qed.

(** Blocks, as a list that may be continued. *)
Definition hexes (pre : list item) : Prop := Forall (fun x => exists t, x = Hex t /\ item_ok x) pre.

Lemma hexes_ok pre : hexes pre -> items_ok pre.
Proof. induction 1 as [|x pre (t & -> & Hx) Hpre IH]; [done|]. destruct pre; [done|]. by split. Qed.

Lemma hexes_bytes pre : hexes pre -> length (items_bytes pre) = (2 * length pre)%nat.
Proof. induction 1 as [|x pre (t & -> & Hx) Hpre IH]; [done|]. rewrite items_bytes_cons, length_app, IH. cbn. lia. Qed.

(** ** Bytes with dots *)

Fixpoint dots (ts : list (list Z)) : list Z := match ts with [] => [] | [t] => t | t :: ts => t ++ 46 :: dots ts end.

Lemma quad_dots_cons t ts : dots (t :: ts) = t ++ (if ts is [] then [] else 46 :: dots ts).
Proof. destruct ts; [by rewrite app_nil_r|done]. Qed.

Lemma dots_stop ts : stops_at decode_decimal_digit (if ts is [] then [] else 46 :: dots ts).
Proof. by destruct ts. Qed.

(** What was read of a byte. *)
Definition byte_prefix (t : list Z) : Prop := decimal t /\ decimal_value t < 256 /\ (head t = Some 48 -> t = [48]).

Lemma at_pos_app done c rest : at_pos (done ++ c :: rest) (Z.of_nat (length done)) = Some c.
Proof. unfold at_pos. rewrite (proj2 (Z.leb_le 0 _)) by lia. rewrite Nat2Z.id. by rewrite list_lookup_middle. Qed.

Lemma put_middle k v (a : list Z) x r : k = Z.of_nat (length a) -> put k v (a ++ x :: r) = Some (a ++ v :: r).
Proof. intros ->. unfold put. rewrite length_app. cbn [length]. destruct (Z.leb_spec 0 (Z.of_nat (length a))); [|lia]. destruct (Z.ltb_spec (Z.of_nat (length a)) (Z.of_nat (length a + S (length r)))); [|lia]. cbn [andb]. f_equal. rewrite Nat2Z.id. rewrite <- (Nat.add_0_r (length a)) at 1. by rewrite insert_app_r. Qed.

(** The texts of bytes that are left, of which [cur] was read. *)
Lemma quad_exact fuel : forall dn cur rest vs us, (length rest < fuel)%nat -> (length vs + length us = 4)%nat -> (length us <> 0)%nat -> byte_prefix cur ->
  exists r, quad_loop fuel (dn ++ rest) (Z.of_nat (length dn)) (vs ++ us) (Z.of_nat (length vs)) (decimal_value cur) (bool_decide (cur = [])) = Some r /\
    forall q, r = Some q <-> exists ts, length ts = length us /\ Forall byte_text ts /\ cur ++ rest = dots ts /\ q = vs ++ (decimal_value <$> ts).
Proof.
  induction fuel as [|fuel IH]; intros dn cur rest vs us Hf Hl Hu Hcur; [lia|]. destruct us as [|u us]; [done|]. cbn [length] in Hl. cbn [quad_loop]. rewrite length_app. pose proof Hcur as (Hd & Hv & Hz). destruct rest as [|c rest].
  - rewrite app_nil_r. cbn [length]. rewrite Nat.add_0_r, Z.ltb_irrefl. cbn [negb]. destruct (decide (cur = [])) as [->|Hne].
    + rewrite bool_decide_true, orb_true_r by done. eexists. split; [done|]. intros q. split; [done|]. intros ([|t ts] & Hlt & Hts & E & _); [done|]. rewrite quad_dots_cons in E. apply Forall_cons in Hts as [(Hne & _) _]. by destruct t.
    + rewrite bool_decide_false, orb_false_r by done. destruct (Z.eqb_spec (Z.of_nat (length vs)) 3) as [E3|E3]; cbn [negb].
      * destruct us; [|cbn in Hl; lia]. rewrite put_middle by done. cbn [mbind option_bind]. eexists. split; [done|]. intros q. split.
        -- intros [= <-]. exists [cur]. split_and!; try done; [by constructor|by rewrite app_nil_r].
        -- intros ([|t [|]] & Hlt & Hts & E & ->); try done. cbn in E. rewrite app_nil_r in E. by subst t.
      * eexists. split; [done|]. intros q. split; [done|]. intros ([|t ts] & Hlt & Hts & E & _); [done|]. rewrite quad_dots_cons in E. apply Forall_cons in Hts as [(_ & Htd & _) _]. destruct (token_unique decode_decimal_digit cur t [] _ Hd Htd I (dots_stop ts) E) as [_ E2]. destruct ts; [|done]. cbn in Hlt. lia.
  - cbn [length] in Hf. destruct (Z.ltb_spec (Z.of_nat (length dn)) (Z.of_nat (length dn + length (c :: rest)))) as [_|?]; [|cbn [length] in *; lia]. cbn [negb]. rewrite at_pos_app. cbn [mbind option_bind]. replace (Z.of_nat (length dn) + 1) with (Z.of_nat (length (dn ++ [c]))) by (rewrite length_app; cbn; lia). replace (dn ++ c :: rest) with ((dn ++ [c]) ++ rest) by by rewrite <- app_assoc.
    destruct (Z.eqb_spec c 46) as [->|Hdot].
    + destruct (decide (cur = [])) as [->|Hne].
      { rewrite bool_decide_true by done. cbn [orb]. eexists. split; [done|]. intros q. split; [done|]. intros ([|t ts] & Hlt & Hts & E & _); [done|]. rewrite quad_dots_cons in E. apply Forall_cons in Hts as [(Hne & Htd & _) _]. destruct t as [|c t]; [done|]. injection E as <- _. by apply Forall_cons in Htd as [? _]. }
      rewrite bool_decide_false by done. cbn [orb]. destruct (Z.eqb_spec (Z.of_nat (length vs)) 3) as [E3|E3].
      { eexists. split; [done|]. intros q. split; [done|]. intros ([|t ts] & Hlt & Hts & E & _); [done|]. destruct us; [|cbn in Hl; lia]. destruct ts; [|done]. cbn in E. apply Forall_cons in Hts as [(_ & Htd & _) _]. rewrite <- E in Htd. apply Forall_app in Htd as [_ Htd]. by apply Forall_cons in Htd as [? _]. }
      rewrite put_middle by done. cbn [mbind option_bind]. replace (Z.of_nat (length vs) + 1) with (Z.of_nat (length (vs ++ [decimal_value cur]))) by (rewrite length_app; cbn; lia). replace (vs ++ decimal_value cur :: us) with ((vs ++ [decimal_value cur]) ++ us) by by rewrite <- app_assoc.
      destruct (IH (dn ++ [46]) [] rest (vs ++ [decimal_value cur]) us) as (r & Er & Hr); [lia|rewrite length_app; cbn; lia|lia|by split_and!; [constructor|done|done]|]. exists r. split; [exact Er|]. intros q. rewrite Hr. split.
      * intros (ts & Hlt & Hts & E & ->). exists (cur :: ts). split; [cbn; lia|]. split; [by constructor|]. split; [|by rewrite <- app_assoc]. rewrite quad_dots_cons. cbn in E. rewrite E. destruct ts; [|done]. cbn in Hlt. lia.
      * intros ([|t ts] & Hlt & Hts & E & ->); [done|]. rewrite quad_dots_cons in E. apply Forall_cons in Hts as [Ht Hts]. destruct (token_unique decode_decimal_digit cur t (46 :: rest) _ Hd (proj1 (proj2 Ht)) ltac:(done) (dots_stop ts) E) as [<- E2]. destruct ts as [|t' ts]; [done|]. injection E2 as ->. exists (t' :: ts). split; [cbn in *; lia|]. split; [done|]. split; [done|]. by rewrite <- app_assoc.
    + assert (Hbad : forall ts q, (decode_decimal_digit c < 0 \/ (forall t, byte_text t -> forall e, t = (cur ++ [c]) ++ e -> False)) -> ts <> [] -> Forall byte_text ts -> cur ++ c :: rest = dots ts -> Some q = None (A := list Z)).
      { intros [|t ts] q Hb Hnil Hts E; [done|]. rewrite quad_dots_cons in E. apply Forall_cons in Hts as [Ht _]. destruct (token_step decode_decimal_digit cur c rest t _ Hd (proj1 (proj2 Ht)) (dots_stop ts) E) as [(Hc & -> & Eq)|(Hc & e & Et & _)]; [destruct ts; [done|]; injection Eq as <- _; done|]. destruct Hb as [Hb|Hb]; [lia|]. by destruct (Hb t Ht e). }
      assert (Hrej : (decode_decimal_digit c < 0 \/ (forall t, byte_text t -> forall e, t = (cur ++ [c]) ++ e -> False)) -> forall q, None = Some q <-> exists ts, length ts = length (u :: us) /\ Forall byte_text ts /\ cur ++ c :: rest = dots ts /\ q = vs ++ (decimal_value <$> ts)).
      { intros Hb q. split; [done|]. intros (ts & Hlt & Hts & E & _). symmetry. apply (Hbad ts q Hb); [by intros ->|done|done]. }
      assert (Hsnoc : decimal_value (cur ++ [c]) = 10 * decimal_value cur + decode_decimal_digit c) by apply value_snoc. pose proof (value_bound 10 _ ltac:(lia) decimal_digit_bound cur Hd) as Hvb. fold decimal_value in Hvb.
      destruct (negb (bool_decide (cur = [])) && (decimal_value cur =? 0)) eqn:E0.
      { eexists. split; [done|]. apply Hrej. right. intros t (_ & _ & _ & Htz) e ->. apply andb_true_iff in E0 as [E1 E0]. apply negb_true_iff, bool_decide_eq_false in E1. apply Z.eqb_eq in E0. destruct cur as [|c0 cur]; [done|]. cbn in Htz, Hz. assert (c0 = 48) as ->; [|by specialize (Htz eq_refl); destruct cur].
        apply Forall_cons in Hd as [Hc0 Hd']. unfold decimal_value in E0. rewrite value_cons in E0 by lia. pose proof (value_bound 10 _ ltac:(lia) decimal_digit_bound cur Hd'). pose proof (Z.pow_pos_nonneg 10 (Z.of_nat (length cur))). assert (decode_decimal_digit c0 = 0) as E2 by nia. apply decimal_digit_spec in Hc0. rewrite decimal_digit_value in E2 by done. lia. }
      destruct (Z.ltb_spec (decode_decimal_digit c) 0) as [Hc|Hc]; [eexists; split; [done|]; apply Hrej; by left|].
      assert (Hsc : decimal (cur ++ [c])) by (apply Forall_app; split; [done|by constructor; [|constructor]]).
      assert (Hover : 255 < decimal_value (cur ++ [c]) -> forall t, byte_text t -> forall e, t = (cur ++ [c]) ++ e -> False) by (intros Hgt t (_ & Htd & Htv & _) e ->; pose proof (value_prefix 10 _ ltac:(lia) decimal_digit_bound (cur ++ [c]) e Htd); unfold decimal_value in *; lia).
      destruct (Z.ltb_spec (255 / 10) (decimal_value cur)) as [H1|H1]; [eexists; split; [done|]; apply Hrej; right; apply Hover; zdiv|]. destruct (Z.ltb_spec (255 - decimal_value cur * 10) (decode_decimal_digit c)) as [H2|H2]; [eexists; split; [done|]; apply Hrej; right; apply Hover; lia|].
      assert (Hpre : byte_prefix (cur ++ [c])).
      { split; [done|]. split; [lia|]. destruct cur as [|c0 cur]; [cbn; by intros [= ->]|]. cbn [head app]. intros Eh. specialize (Hz Eh). injection Hz as -> ->. cbn in E0. done. }
      destruct (IH (dn ++ [c]) (cur ++ [c]) rest vs (u :: us)) as (r & Er & Hr); [lia|cbn; lia|done|done|]. rewrite Hsnoc, (bool_decide_false (cur ++ [c] = [])) in Er by (by destruct cur). replace (decimal_value cur * 10) with (10 * decimal_value cur) by lia. exists r. split; [exact Er|]. intros q. rewrite Hr. by rewrite <- app_assoc.
Qed.

(** ** Blocks *)

(** The address of the bytes [w], of which the missing ones go to block [cp], followed by [tail]. *)
Definition result (cp : Z) (w tail addr : list Z) : Prop :=
  (cp = -1 /\ length (w ++ tail) = 16%nat /\ addr = w ++ tail) \/
  (0 <= cp /\ (length (w ++ tail) <= 16)%nat /\ addr = take (2 * Z.to_nat cp) w ++ replicate (16 - length (w ++ tail)) 0 ++ drop (2 * Z.to_nat cp) w ++ tail).

Lemma result_app cp w v tail addr : (2 * Z.to_nat cp <= length w)%nat -> result cp (w ++ v) tail addr <-> result cp w (v ++ tail) addr.
Proof. intros H. unfold result. rewrite take_app_le, drop_app_le by lia. by rewrite <- !app_assoc. Qed.

Lemma move_ok (a b c : list Z) (dst src n : Z) : dst = Z.of_nat (length a + length c) -> src = Z.of_nat (length a) -> n = Z.of_nat (length b) -> exists m, length m = length c /\ move dst src n (a ++ b ++ c) = Some (a ++ m ++ b).
Proof.
  intros -> -> ->. unfold move. rewrite !length_app. destruct (Z.leb_spec 0 (Z.of_nat (length b))); [|lia]. destruct (Z.leb_spec 0 (Z.of_nat (length a + length c))); [|lia]. destruct (Z.leb_spec 0 (Z.of_nat (length a))); [|lia]. destruct (Z.leb_spec (Z.of_nat (length a + length c) + Z.of_nat (length b)) (Z.of_nat (length a + (length b + length c)))); [|lia]. destruct (Z.leb_spec (Z.of_nat (length a) + Z.of_nat (length b)) (Z.of_nat (length a + (length b + length c)))); [|lia].
  cbn [andb]. rewrite !Nat2Z.id. rewrite slice_app_exact. exists (take (length c) (b ++ c)). split; [rewrite length_take, length_app; lia|]. f_equal. unfold splice. rewrite take_app_ge by lia. replace (length a + length c - length a)%nat with (length c) by lia. rewrite <- app_assoc. f_equal. f_equal. rewrite drop_ge; [by rewrite app_nil_r|]. rewrite !length_app. lia.
Qed.

Lemma fill_ok (a m b : list Z) (dst n : Z) : dst = Z.of_nat (length a) -> n = Z.of_nat (length m) -> fill dst 0 n (a ++ m ++ b) = Some (a ++ replicate (length m) 0 ++ b).
Proof.
  intros -> ->. unfold fill. rewrite !length_app. destruct (Z.leb_spec 0 (Z.of_nat (length m))); [|lia]. destruct (Z.leb_spec 0 (Z.of_nat (length a))); [|lia]. destruct (Z.leb_spec (Z.of_nat (length a) + Z.of_nat (length m)) (Z.of_nat (length a + (length m + length b)))); [|lia]. cbn [andb]. rewrite !Nat2Z.id. f_equal. unfold splice. rewrite take_app_length. f_equal. f_equal. rewrite length_replicate. rewrite drop_app_ge by lia. replace (length a + length m - length a)%nat with (length m) by lia. by rewrite drop_app_length.
Qed.

Lemma expand_ok nb cp blk emp w r : length w = (2 * nb)%nat -> length (w ++ r) = 16%nat -> cp = -1 \/ (0 <= cp <= Z.of_nat nb) ->
  exists res, expand (mkParser (Z.of_nat nb) cp blk emp (w ++ r)) = Some res /\ forall addr, res = Some addr <-> result cp w [] addr.
Proof.
  intros Hw Hl Hcp. unfold expand. cbn [compress_pos num_blocks bytes]. rewrite length_app in Hl. destruct (Z.eqb_spec cp (-1)) as [->|Hne]; cbn [andb].
  - destruct (Z.eqb_spec (Z.of_nat nb) 8) as [E8|E8]; cbn [negb].
    + destruct r; [|cbn in Hl; lia]. rewrite app_nil_r. destruct (move_ok [] w [] (2 * (8 - (Z.of_nat nb - 0))) (2 * 0) (2 * (Z.of_nat nb - 0))) as (m & Hm & E); [cbn; lia|cbn; lia|lia|]. rewrite app_nil_r in E. destruct m; [|done]. cbn [app] in E. rewrite E. cbn [mbind option_bind].
      pose proof (fill_ok [] [] w (2 * 0) (2 * (8 - (Z.of_nat nb - 0) - 0)) ltac:(cbn; lia) ltac:(cbn; lia)) as E2. cbn [app length replicate] in E2. rewrite E2. cbn [mbind option_bind]. eexists. split; [done|]. intros addr. unfold result. rewrite app_nil_r. split; [intros [= <-]; left; split_and!; [done|lia|done]|intros [(_ & _ & ->)|(? & _)]; [done|lia]].
    + eexists. split; [done|]. intros addr. split; [done|]. intros [(_ & H & _)|(? & _)]; [rewrite app_nil_r in H; lia|lia].
  - set (k := Z.to_nat cp). assert (Ek : cp = Z.of_nat k) by lia. set (a := take (2 * k) w). set (b := drop (2 * k) w). assert (Ew : w = a ++ b) by (symmetry; apply take_drop). assert (Ha : length a = (2 * k)%nat) by (unfold a; rewrite length_take; lia). assert (Hb : length b = (2 * nb - 2 * k)%nat) by (unfold b; rewrite length_drop; lia). rewrite Ew, <- app_assoc.
    destruct (move_ok a b r (2 * (8 - (Z.of_nat nb - cp))) (2 * cp) (2 * (Z.of_nat nb - cp))) as (m & Hm & E); [lia|lia|lia|]. rewrite E. cbn [mbind option_bind]. rewrite (fill_ok a m b) by lia. cbn [mbind option_bind]. eexists. split; [done|]. intros addr. unfold result. rewrite <- Ew, app_nil_r. fold k a b. rewrite Hm. replace (16 - length w)%nat with (length r) by lia.
    split; [intros [= <-]; right; split; [lia|]; split; [lia|by rewrite app_nil_r]|intros [(-> & _)|(_ & _ & ->)]; [lia|by rewrite app_nil_r]].
Qed.

Lemma store_block_ok nb cp cur emp w r : length w = (2 * nb)%nat -> length (w ++ r) = 16%nat -> (nb <= 7)%nat -> hexadecimal cur -> hex_value cur < 2 ^ 16 ->
  exists r', store_block (mkParser (Z.of_nat nb) cp (hex_value cur) emp (w ++ r)) = Some ((w ++ item_bytes (Hex cur)) ++ r') /\ length ((w ++ item_bytes (Hex cur)) ++ r') = 16%nat.
Proof.
  intros Hw Hl Hnb Hh Hv. rewrite length_app in Hl. destruct r as [|x [|y r]]; [cbn in Hl; lia..|]. unfold store_block. cbn [num_blocks block bytes]. rewrite put_middle by lia. cbn [mbind option_bind]. replace (w ++ Z.shiftr (hex_value cur) 8 :: y :: r) with ((w ++ [Z.shiftr (hex_value cur) 8]) ++ y :: r) by by rewrite <- app_assoc. rewrite put_middle by (rewrite length_app; cbn; lia).
  pose proof (value_bound 16 _ ltac:(lia) hex_digit_bound cur Hh) as Hb. fold hex_value in Hb. exists r. split; [|cbn in *; rewrite !length_app; cbn; lia]. f_equal. rewrite <- !app_assoc. cbn. f_equal. rewrite Z.shiftr_div_pow2 by lia. f_equal. f_equal. change 255 with (Z.ones 8). by rewrite Z.land_ones by lia.
Qed.

Lemma back_ok fuel d : forall cur rest, hexadecimal cur -> (length cur < fuel)%nat -> back_to_colon fuel ((d ++ [58]) ++ cur ++ rest) (Z.of_nat (length (d ++ [58]) + length cur)) = Some (Z.of_nat (length (d ++ [58]))).
Proof.
  induction fuel as [|fuel IH]; intros cur rest Hc Hf; [lia|]. cbn [back_to_colon]. destruct cur as [|c cur _] using rev_ind.
  - cbn [length app]. rewrite Nat.add_0_r. replace (Z.of_nat (length (d ++ [58])) - 1) with (Z.of_nat (length d)) by (rewrite length_app; cbn; lia). rewrite <- app_assoc. cbn [app]. rewrite at_pos_app. done.
  - replace (Z.of_nat (length (d ++ [58]) + length (cur ++ [c])) - 1) with (Z.of_nat (length ((d ++ [58]) ++ cur))) by (rewrite !length_app; cbn; lia). replace ((d ++ [58]) ++ (cur ++ [c]) ++ rest) with (((d ++ [58]) ++ cur) ++ c :: rest) by by rewrite <- !app_assoc. rewrite at_pos_app. cbn [mbind option_bind]. apply Forall_app in Hc as [Hcur Hc]. apply Forall_cons in Hc as [Hc _].
    destruct (Z.eqb_spec c 58) as [->|_]; [by cbn in Hc|]. rewrite length_app in Hf. cbn in Hf. specialize (IH cur (c :: rest) Hcur ltac:(lia)). rewrite <- app_assoc, (length_app (d ++ [58]) cur). exact IH.
Qed.

(** What is left of a text after [nb] blocks, of the bytes [w]; [start]: nothing was read yet. *)
Definition remains (nb : nat) (cp : Z) (start : Prop) (w text addr : list Z) : Prop :=
  (exists l, items_ok l /\ text = join l /\ (l = [] -> cp = Z.of_nat nb) /\ result cp w (items_bytes l) addr) \/
  (cp = -1 /\ exists pre post, hexes pre /\ items_ok post /\ text = join pre ++ 58 :: 58 :: join post /\ (pre = [] -> start) /\ (nb + length pre <= 7)%nat /\ result (Z.of_nat (nb + length pre)) (w ++ items_bytes pre) (items_bytes post) addr).

(** The same by the first token. *)
Inductive remains_first (nb : nat) (cp : Z) (start : Prop) (w addr : list Z) : list Z -> Prop :=
  | RemEnd : cp = Z.of_nat nb -> result cp w [] addr -> remains_first nb cp start w addr []
  | RemLast t : item_ok (Hex t) -> result cp (w ++ item_bytes (Hex t)) [] addr -> remains_first nb cp start w addr t
  | RemBlock t text : item_ok (Hex t) -> head text <> Some 58 -> (nb <= 6)%nat -> remains (S nb) cp False (w ++ item_bytes (Hex t)) text addr -> remains_first nb cp start w addr (t ++ 58 :: text)
  | RemQuad t0 t1 t2 t3 : item_ok (Quad t0 t1 t2 t3) -> result cp w (item_bytes (Quad t0 t1 t2 t3)) addr -> remains_first nb cp start w addr (item_text (Quad t0 t1 t2 t3))
  | RemStart text : cp = -1 -> start -> (nb <= 7)%nat -> remains nb (Z.of_nat nb) False w text addr -> remains_first nb cp start w addr (58 :: 58 :: text)
  | RemDouble t text : cp = -1 -> item_ok (Hex t) -> (nb <= 6)%nat -> remains (S nb) (Z.of_nat (S nb)) False (w ++ item_bytes (Hex t)) text addr -> remains_first nb cp start w addr (t ++ 58 :: 58 :: text).

Lemma items_ok_cons t l : item_ok (Hex t) -> items_ok l -> items_ok (Hex t :: l).
Proof. intros Ht Hl. destruct l; [done|]. by split. Qed.

Lemma join_cons t l : l <> [] -> join (Hex t :: l) = t ++ 58 :: join l.
Proof. by destruct l. Qed.

Lemma join_head l : items_ok l -> head (join l) <> Some 58.
Proof. intros Hl. destruct l as [|y l]; [done|]. destruct (first_token (y :: l) Hl ltac:(done)) as (x & l' & b & q & _ & -> & Hb & Hne & _). destruct b as [|c b]; [done|]. apply Forall_cons in Hb as [Hc _]. cbn. by intros [= ->]. Qed.

Lemma result_length cp w tail addr : result cp w tail addr -> (length w + length tail <= 16)%nat.
Proof. intros [(_ & H & _)|(_ & H & _)]; rewrite length_app in H; lia. Qed.

(** After a double colon only the items of the end can follow. *)
Lemma remains_after nb w text addr : remains nb (Z.of_nat nb) False w text addr <-> exists post, items_ok post /\ text = join post /\ result (Z.of_nat nb) w (items_bytes post) addr.
Proof.
  split.
  - intros [(l & H1 & H2 & _ & H4)|(H & _)]; [eauto|lia].
  - intros (post & H1 & H2 & H3). left. by exists post.
Qed.

Lemma remains_by_token nb cp start w text addr : length w = (2 * nb)%nat -> cp = -1 \/ (0 <= cp <= Z.of_nat nb) -> remains nb cp start w text addr <-> remains_first nb cp start w addr text.
Proof.
  intros Hw Hcp. assert (Hcw : (2 * Z.to_nat cp <= length w)%nat) by lia. split.
  - intros [(l & Hok & -> & Hnil & Hr)|(-> & pre & post & Hpre & Hpost & -> & Hnil & Hn & Hr)].
    + destruct l as [|x l']; [by apply RemEnd; [apply Hnil|]|]. destruct x as [t|t0 t1 t2 t3].
      * assert (Ht : item_ok (Hex t)) by (destruct l'; [done|apply Hok]). destruct l' as [|y l']; [apply RemLast; [done|]; apply result_app; [lia|]; by rewrite items_bytes_cons in Hr|]. rewrite join_cons by done. assert (Hl' : items_ok (y :: l')) by apply Hok.
        pose proof (result_length _ _ _ _ Hr) as Hlen. rewrite items_bytes_cons, length_app in Hlen. pose proof (items_bytes_pos (y :: l') ltac:(done)). cbn [item_bytes length] in Hlen. apply RemBlock; [done|by apply join_head|lia|]. left. exists (y :: l'). split_and!; try done. apply result_app; [lia|]. exact Hr.
      * destruct l'; [|by destruct Hok]. cbn [join]. apply RemQuad; [done|]. by rewrite items_bytes_cons, app_nil_r in Hr.
    + destruct pre as [|x pre]; [cbn [join app]; apply RemStart; [done|by apply Hnil|cbn in Hn; lia|]; cbn [length] in Hr; rewrite Nat.add_0_r, app_nil_r in Hr; apply remains_after; eauto|]. apply Forall_cons in Hpre as [(t & -> & Ht) Hpre]. cbn [length] in *. destruct pre as [|y pre].
      * cbn [join item_text length] in *. apply RemDouble; [done|done|lia|]. replace (nb + 1)%nat with (S nb) in Hr by lia. rewrite items_bytes_cons, app_nil_r in Hr. apply remains_after. eauto.
      * rewrite join_cons by done. rewrite <- app_assoc. cbn [app]. apply RemBlock; [done| |cbn in Hn; lia|].
        -- pose proof (join_head (y :: pre) (hexes_ok _ Hpre)) as Hh. apply Forall_cons in Hpre as [(t' & -> & (Hne & _)) Hpre]. destruct (join (Hex t' :: pre)) as [|c j] eqn:E; [|exact Hh]. destruct pre; cbn in E; [done|]. by destruct t'.
        -- right. split; [done|]. exists (y :: pre), post. split_and!; try done; [lia|]. rewrite items_bytes_cons, app_assoc in Hr. by replace (S nb + length (y :: pre))%nat with (nb + S (length (y :: pre)))%nat by lia.
  - intros []; subst.
    + left. exists []. done.
    + left. exists [Hex t]. split; [done|]. split; [done|]. split; [done|]. by apply result_app in H0; [|lia].
    + destruct H2 as [(l & Hok & -> & Hnil & Hr)|(-> & pre & post & Hpre & Hpost & -> & Hnil & Hn & Hr)].
      * assert (l <> []) by (intros ->; specialize (Hnil eq_refl); lia). left. exists (Hex t :: l). split; [by apply items_ok_cons|]. split; [by rewrite join_cons|]. split; [done|]. rewrite items_bytes_cons. by apply result_app; [lia|].
      * assert (pre <> []) by (intros ->; by apply Hnil). right. split; [done|]. exists (Hex t :: pre), post. split; [constructor; [by exists t|done]|]. split; [done|]. split; [rewrite join_cons by done; by rewrite <- app_assoc|]. split; [done|]. cbn [length]. split; [lia|]. rewrite items_bytes_cons, app_assoc. by replace (nb + S (length pre))%nat with (S nb + length pre)%nat by lia.
    + left. exists [Quad t0 t1 t2 t3]. split; [done|]. split; [done|]. split; [done|]. by rewrite items_bytes_cons, app_nil_r.
    + apply remains_after in H2 as (post & Hpost & -> & Hr). right. split; [done|]. exists [], post. split_and!; try done; [constructor|cbn; lia|]. cbn [length]. by rewrite Nat.add_0_r, app_nil_r.
    + apply remains_after in H2 as (post & Hpost & -> & Hr). right. split; [done|]. exists [Hex t], post. split; [constructor; [by exists t|constructor]|]. split_and!; try done; [cbn; lia|]. cbn [length]. rewrite items_bytes_cons, app_nil_r. by replace (nb + 1)%nat with (S nb) by lia.
Qed.

(** ** One character after another *)

Section first_token.
Context (nb : nat) (cp : Z) (start : Prop) (w addr cur : list Z).
Context (Hcur : hexadecimal cur) (Hval : hex_value cur < 2 ^ 16).
#[local] Notation first := (remains_first nb cp start w addr).

Lemma quad_first t0 t1 t2 t3 : item_ok (Quad t0 t1 t2 t3) -> hexadecimal t0 /\ t0 <> [].
Proof. intros ((Hne & Hd & _) & _). split; [by apply decimal_hexadecimal|done]. Qed.

(** The end of the text. *)
Lemma first_end : first cur <-> (cur = [] /\ cp = Z.of_nat nb /\ result cp w [] addr) \/ (cur <> [] /\ result cp (w ++ item_bytes (Hex cur)) [] addr).
Proof.
  split.
  - intros H. remember cur as text eqn:E in H. destruct H as [Hc Hr|t Ht Hr|t text Ht Hh Hn Hr|t0 t1 t2 t3 Ht Hr|text Hc Hs Hn Hr|t text Hc Ht Hn Hr].
    + by left.
    + subst t. right. by destruct Ht.
    + exfalso. destruct Ht as (_ & Ht & _). destruct (token_unique decode_hex_digit cur t [] (58 :: text) Hcur Ht I ltac:(done) ltac:(by rewrite app_nil_r)) as [_ ?]. done.
    + exfalso. destruct (quad_first _ _ _ _ Ht) as [Ht0 _]. destruct (token_unique decode_hex_digit cur t0 [] (46 :: t1 ++ 46 :: t2 ++ 46 :: t3) Hcur Ht0 I ltac:(done) ltac:(rewrite app_nil_r; symmetry; exact E)) as [_ ?]. done.
    + exfalso. rewrite <- E in Hcur. by apply Forall_cons in Hcur as [? _].
    + exfalso. destruct Ht as (_ & Ht & _). destruct (token_unique decode_hex_digit cur t [] (58 :: 58 :: text) Hcur Ht I ltac:(done) ltac:(by rewrite app_nil_r)) as [_ ?]. done.
  - intros [(-> & Hc & Hr)|(Hne & Hr)]; [by apply RemEnd|by apply RemLast].
Qed.

(** A character that is no digit follows. *)
Lemma first_stop c rest : decode_hex_digit c < 0 -> first (cur ++ c :: rest) ->
  (c = 58 /\ cur <> [] /\ (nb <= 6)%nat /\ head rest <> Some 58 /\ remains (S nb) cp False (w ++ item_bytes (Hex cur)) rest addr) \/
  (c = 58 /\ cur <> [] /\ (nb <= 6)%nat /\ cp = -1 /\ exists text, rest = 58 :: text /\ remains (S nb) (Z.of_nat (S nb)) False (w ++ item_bytes (Hex cur)) text addr) \/
  (c = 58 /\ cur = [] /\ (nb <= 7)%nat /\ cp = -1 /\ start /\ exists text, rest = 58 :: text /\ remains nb (Z.of_nat nb) False w text addr) \/
  (c = 46 /\ cur <> [] /\ exists t1 t2 t3, item_ok (Quad cur t1 t2 t3) /\ rest = t1 ++ 46 :: t2 ++ 46 :: t3 /\ result cp w (item_bytes (Quad cur t1 t2 t3)) addr).
Proof.
  intros Hc H. remember (cur ++ c :: rest) as all eqn:E. symmetry in E. destruct H as [Hcp Hr|t Ht Hr|t text Ht Hh Hn Hr|t0 t1 t2 t3 Ht Hr|text Hcp Hs Hn Hr|t text Hcp Ht Hn Hr].
  - by destruct cur.
  - exfalso. destruct Ht as (_ & Ht & _). rewrite <- E in Ht. apply Forall_app in Ht as [_ Ht]. apply Forall_cons in Ht as [? _]. lia.
  - destruct Ht as (Hne & Ht & _). destruct (token_unique decode_hex_digit cur t (c :: rest) (58 :: text) Hcur Ht Hc ltac:(done) E) as [-> [= -> ->]]. left. done.
  - destruct (quad_first _ _ _ _ Ht) as [Ht0 Hne]. destruct (token_unique decode_hex_digit cur t0 (c :: rest) (46 :: t1 ++ 46 :: t2 ++ 46 :: t3) Hcur Ht0 Hc ltac:(done) E) as [<- [= -> ->]]. right. right. right. split; [done|]. split; [done|]. by exists t1, t2, t3.
  - destruct cur as [|d cur']; [injection E as -> ->|exfalso; injection E as -> _; by apply Forall_cons in Hcur as [? _]]. right. right. left. split_and!; try done. eauto.
  - destruct Ht as (Hne & Ht & _). destruct (token_unique decode_hex_digit cur t (c :: rest) (58 :: 58 :: text) Hcur Ht Hc ltac:(done) E) as [-> [= -> ->]]. right. left. split_and!; try done. eauto.
Qed.

(** A digit too many. *)
Lemma first_overflow c rest : 0 <= decode_hex_digit c -> 2 ^ 16 <= hex_value (cur ++ [c]) -> first (cur ++ c :: rest) -> False.
Proof.
  intros Hc Hv H. assert (Hsc : hexadecimal (cur ++ [c])) by (apply Forall_app; split; [done|by constructor; [|constructor]]).
  assert (Hno : forall b q, hexadecimal b -> hex_value b < 2 ^ 16 -> stops q -> cur ++ c :: rest = b ++ q -> False).
  { intros b q Hb Hbv Hq E. destruct (token_prefix decode_hex_digit (cur ++ [c]) b rest q Hsc Hb Hq) as (e & -> & _); [by rewrite <- app_assoc|]. pose proof (value_prefix 16 _ ltac:(lia) hex_digit_bound (cur ++ [c]) e Hb). unfold hex_value in *. lia. }
  remember (cur ++ c :: rest) as all eqn:E. symmetry in E. destruct H as [Hcp Hr|t Ht Hr|t text Ht Hh Hn Hr|t0 t1 t2 t3 Ht Hr|text Hcp Hs Hn Hr|t text Hcp Ht Hn Hr].
  - by destruct cur.
  - destruct Ht as (_ & Ht & Htv). by apply (Hno t [] Ht Htv I); rewrite app_nil_r.
  - destruct Ht as (_ & Ht & Htv). by apply (Hno t (58 :: text) Ht Htv).
  - destruct (first_token [Quad t0 t1 t2 t3] Ht ltac:(done)) as (x & l' & b & q & [= <- <-] & Ej & Hb & _ & Hbv & Hq & _). by apply (Hno b q Hb Hbv Hq).
  - destruct cur as [|d cur']; [injection E as -> _; done|injection E as -> _; by apply Forall_cons in Hcur as [? _]].
  - destruct Ht as (_ & Ht & Htv). by apply (Hno t (58 :: 58 :: text) Ht Htv).
Qed.
End first_token.

Lemma remains_start nb cp (start start' : Prop) w text addr : (start <-> start') -> remains nb cp start w text addr <-> remains nb cp start' w text addr.
Proof. intros H. unfold remains. by setoid_rewrite H. Qed.

(** The dotted end, at the dot behind [cur]. *)
Lemma quad_ending_exact N (d cur rest : list Z) nb cp (w r quad : list Z) : hexadecimal cur -> hex_value cur < 2 ^ 16 -> cur <> [] -> length w = (2 * nb)%nat -> length (w ++ r) = 16%nat -> cp = -1 \/ (0 <= cp <= Z.of_nat nb) -> (0 < nb)%nat \/ cp <> -1 -> length quad = 4%nat ->
  (length ((d ++ [58%Z]) ++ cur ++ 46%Z :: rest) < N)%nat ->
  exists res, quad_ending N ((d ++ [58]) ++ cur ++ 46 :: rest) (Z.of_nat (length (d ++ [58]) + length cur)) quad (mkParser (Z.of_nat nb) cp (hex_value cur) (bool_decide (cur = [])) (w ++ r)) = Some res
    /\ forall addr, res = Some addr <-> exists t1 t2 t3, item_ok (Quad cur t1 t2 t3) /\ rest = t1 ++ 46 :: t2 ++ 46 :: t3 /\ result cp w (item_bytes (Quad cur t1 t2 t3)) addr.
Proof.
  intros Hcur Hval Hne Hw Hl Hcp Hpos Hq HN. unfold quad_ending. cbn [empty num_blocks compress_pos bytes block]. rewrite bool_decide_false by done. cbn [orb]. assert (E0 : (Z.of_nat nb =? 0) && (cp =? -1) = false) by (destruct (Z.eqb_spec (Z.of_nat nb) 0), (Z.eqb_spec cp (-1)); cbn; lia). rewrite E0.
  rewrite back_ok; [|done|rewrite !length_app in HN; lia]. cbn [mbind option_bind]. destruct (quad_exact N (d ++ [58]) [] (cur ++ 46 :: rest) [] quad) as (rq & Eq & Hrq); [rewrite (length_app (d ++ [58])) in HN; lia|cbn; lia|lia|by split_and!; [constructor|done|done]|]. cbn [length] in Eq. change (Z.of_nat 0) with 0 in Eq. change (decimal_value []) with 0 in Eq. rewrite bool_decide_true in Eq by done. cbn [app] in Eq. rewrite Eq. cbn [mbind option_bind]. rewrite Hq in Hrq.
  assert (Htexts : forall q, rq = Some q <-> exists t1 t2 t3, item_ok (Quad cur t1 t2 t3) /\ rest = t1 ++ 46 :: t2 ++ 46 :: t3 /\ q = item_bytes (Quad cur t1 t2 t3)).
  { intros q. rewrite Hrq. split.
    - intros (ts & Hlt & Hts & E & ->). destruct ts as [|t0 [|t1 [|t2 [|t3 [|]]]]]; try done. do 4 (apply Forall_cons in Hts as [? Hts]). cbn in E. destruct (quad_first t0 t1 t2 t3) as [Ht0 _]; [done|]. destruct (token_unique decode_hex_digit cur t0 (46 :: rest) (46 :: t1 ++ 46 :: t2 ++ 46 :: t3) Hcur Ht0 ltac:(done) ltac:(done) E) as [<- [= ->]]. exists t1, t2, t3. done.
    - intros (t1 & t2 & t3 & (H0 & H1 & H2 & H3) & -> & ->). exists [cur; t1; t2; t3]. split; [done|]. split; [by repeat (apply Forall_cons; split; [assumption|]); apply Forall_nil|]. done. }
  destruct rq as [q|].
  - destruct (proj1 (Htexts q) eq_refl) as (t1 & t2 & t3 & Hok & -> & Eqq).
    assert (Huniq : forall addr, (exists t1' t2' t3', item_ok (Quad cur t1' t2' t3') /\ t1 ++ 46 :: t2 ++ 46 :: t3 = t1' ++ 46 :: t2' ++ 46 :: t3' /\ result cp w (item_bytes (Quad cur t1' t2' t3')) addr) <-> result cp w q addr).
    { intros addr. split; [|intros H; exists t1, t2, t3; split; [done|]; split; [done|by rewrite <- Eqq]]. intros (t1' & t2' & t3' & Hok' & Et & H). assert (Hq' : Some q = Some (item_bytes (Quad cur t1' t2' t3'))) by (apply Htexts; by exists t1', t2', t3'). by injection Hq' as ->. }
    assert (Hlq : length q = 4%nat) by by subst q. destruct (Z.ltb_spec (8 - Z.of_nat nb) 2) as [H8|H8].
    + eexists. split; [done|]. intros addr. rewrite Huniq. split; [done|]. intros H%result_length. lia.
    + rewrite length_app in Hl. assert (Ec : copy (2 * Z.of_nat nb) q (w ++ r) = Some ((w ++ q) ++ drop 4 r)).
      { unfold copy. rewrite length_app. destruct (Z.leb_spec 0 (2 * Z.of_nat nb)); [|lia]. destruct (Z.leb_spec (2 * Z.of_nat nb + Z.of_nat (length q)) (Z.of_nat (length w + length r))); [|lia]. cbn [andb]. f_equal. unfold splice. replace (Z.to_nat (2 * Z.of_nat nb)) with (length w) by lia. rewrite take_app_length. rewrite drop_app_ge by lia. replace (length w + length q - length w)%nat with 4%nat by lia. by rewrite app_assoc. }
      rewrite Ec. cbn [mbind option_bind]. replace (Z.of_nat nb + 2) with (Z.of_nat (nb + 2)) by lia. destruct (expand_ok (nb + 2) cp (hex_value cur) false (w ++ q) (drop 4 r)) as (res & Ee & He); [rewrite length_app; lia|rewrite !length_app, length_drop; lia|lia|]. rewrite Ee. eexists. split; [done|]. intros addr. rewrite He, Huniq. rewrite result_app by lia. by rewrite app_nil_r.
  - eexists. split; [done|]. intros addr. split; [done|]. intros (t1 & t2 & t3 & Hok & E & _). exfalso. assert (None = Some (item_bytes (Quad cur t1 t2 t3))); [|done]. apply Htexts. by exists t1, t2, t3.
Qed.

Lemma blocks_exact fuel : forall (dn cur rest : list Z) nb cp w r N quad, (length rest < fuel)%nat -> (length (dn ++ cur ++ rest) < N)%nat -> length quad = 4%nat -> length w = (2 * nb)%nat -> length (w ++ r) = 16%nat -> (nb <= 7)%nat -> cp = -1 \/ (0 <= cp <= Z.of_nat nb) ->
  hexadecimal cur -> hex_value cur < 2 ^ 16 -> (dn = [] /\ nb = 0%nat /\ cp = -1) \/ (exists d, dn = d ++ [58]) ->
  exists res, (e ← blocks_loop fuel (dn ++ cur ++ rest) (Z.of_nat (length dn + length cur)) (mkParser (Z.of_nat nb) cp (hex_value cur) (bool_decide (cur = [])) (w ++ r)); parse_end N (dn ++ cur ++ rest) quad e) = Some res
    /\ forall addr, res = Some addr <-> remains nb cp (dn = []) w (cur ++ rest) addr.
Proof.
  induction fuel as [|fuel IH]; intros dn cur rest nb cp w r N quad Hf HN Hq Hw Hl Hnb Hcp Hcur Hval Hdn; [lia|]. cbn [blocks_loop]. assert (Htok : forall addr, remains nb cp (dn = []) w (cur ++ rest) addr <-> remains_first nb cp (dn = []) w addr (cur ++ rest)) by (intros addr; by apply remains_by_token). setoid_rewrite Htok. clear Htok.
  assert (Hrej : (forall addr, ~ remains_first nb cp (dn = []) w addr (cur ++ rest)) -> exists res, (e ← Some BlocksBad; parse_end N (dn ++ cur ++ rest) quad e) = Some res /\ forall addr, res = Some addr <-> remains_first nb cp (dn = []) w addr (cur ++ rest)).
  { intros H. exists None. split; [done|]. intros addr. split; [done|]. intros Hr. by apply H in Hr. }
  set (name := dn ++ cur ++ rest) in *. assert (Hname : length name = (length dn + length cur + length rest)%nat) by (unfold name; rewrite !length_app; lia). destruct rest as [|c rest].
  - (* the end *)
    cbn [length] in Hname. rewrite Hname, Nat.add_0_r, Z.ltb_irrefl. cbn [negb mbind option_bind parse_end empty num_blocks compress_pos block]. rewrite app_nil_r. setoid_rewrite (first_end nb cp (dn = []) w _ cur Hcur Hval). destruct (decide (cur = [])) as [->|Hne].
    + rewrite bool_decide_true by done. cbn [negb]. destruct (Z.eqb_spec (Z.of_nat nb) cp) as [E|E]; cbn [negb].
      * destruct (expand_ok nb cp (hex_value []) true w r Hw Hl Hcp) as (res & Ee & He). exists res. split; [done|]. intros addr. rewrite He. naive_solver.
      * exists None. split; [done|]. naive_solver.
    + rewrite bool_decide_false by done. cbn [negb]. destruct (store_block_ok nb cp cur false w r Hw Hl Hnb Hcur Hval) as (r' & Es & Hl'). rewrite Es. cbn [mbind option_bind]. replace (Z.of_nat nb + 1) with (Z.of_nat (S nb)) by lia. destruct (expand_ok (S nb) cp (hex_value cur) false (w ++ item_bytes (Hex cur)) r') as (res & Ee & He); [rewrite length_app; cbn; lia|done|lia|]. exists res. split; [done|]. intros addr. rewrite He. naive_solver.
  - cbn [length] in Hf, Hname. destruct (Z.ltb_spec (Z.of_nat (length dn + length cur)) (Z.of_nat (length name))) as [_|?]; [|lia]. cbn [negb].
    assert (Eat : at_pos name (Z.of_nat (length dn + length cur)) = Some c) by (unfold name; rewrite app_assoc, <- length_app; apply at_pos_app). rewrite Eat. cbn [mbind option_bind]. destruct (Z.eqb_spec c 46) as [->|H46].
    + (* a dot *)
      cbn [mbind option_bind parse_end].
      assert (Hiff : forall addr, remains_first nb cp (dn = []) w addr (cur ++ 46 :: rest) <-> cur <> [] /\ exists t1 t2 t3, item_ok (Quad cur t1 t2 t3) /\ rest = t1 ++ 46 :: t2 ++ 46 :: t3 /\ result cp w (item_bytes (Quad cur t1 t2 t3)) addr).
      { intros addr. split; [intros [(? & _)|[(? & _)|[(? & _)|(_ & ? & ?)]]]%(first_stop nb cp (dn = []) w addr cur Hcur); done|]. intros (_ & t1 & t2 & t3 & Hok & -> & Hr). by apply (RemQuad nb cp (dn = []) w addr cur t1 t2 t3). }
      destruct (decide (cur = [])) as [->|Hne]; [exists None; split; [done|]; intros addr; rewrite Hiff; naive_solver|]. destruct Hdn as [(-> & -> & ->)|(d & ->)].
      * unfold quad_ending. cbn [empty num_blocks compress_pos]. rewrite bool_decide_false by done. cbn. exists None. split; [done|]. intros addr. rewrite Hiff. split; [done|]. intros (_ & t1 & t2 & t3 & _ & _ & [(_ & H & _)|(? & _)]); [|lia]. rewrite length_app, Hw in H. cbn in H. lia.
      * destruct (decide (nb = 0%nat /\ cp = -1)) as [[-> ->]|Hpos].
        -- unfold quad_ending. cbn [empty num_blocks compress_pos]. rewrite bool_decide_false by done. cbn. exists None. split; [done|]. intros addr. rewrite Hiff. split; [done|]. intros (_ & t1 & t2 & t3 & _ & _ & [(_ & H & _)|(? & _)]); [|lia]. rewrite length_app, Hw in H. cbn in H. lia.
        -- destruct (quad_ending_exact N d cur rest nb cp w r quad Hcur Hval Hne Hw Hl Hcp ltac:(lia) Hq HN) as (res & Er & Hres). exists res. split; [exact Er|]. intros addr. rewrite Hres, Hiff. split; [by intros H|by intros [_ H]].
    + destruct (Z.eqb_spec c 58) as [->|H58].
      * (* a colon *)
        set (i := Z.of_nat (length dn + length cur)). set (dbl := match rest with c' :: _ => c' =? 58 | [] => false end). assert (Edbl : (if i + 1 <? Z.of_nat (length name) then c ← at_pos name (i + 1); Some (c =? 58) else Some false) = Some dbl).
        { unfold i, dbl. destruct rest as [|c' rest]; [rewrite (proj2 (Z.ltb_ge _ _)); [done|cbn in Hname; lia]|]. rewrite (proj2 (Z.ltb_lt _ _)) by (cbn [length] in Hname; lia). unfold name. replace (dn ++ cur ++ 58 :: c' :: rest) with ((dn ++ cur ++ [58]) ++ c' :: rest) by by rewrite <- !app_assoc. replace (Z.of_nat (length dn + length cur) + 1) with (Z.of_nat (length (dn ++ cur ++ [58]))) by (rewrite !length_app; cbn; lia). by rewrite at_pos_app. }
        rewrite Edbl. cbn [mbind option_bind empty num_blocks]. assert (Hdbl : dbl = true -> exists rest', rest = 58 :: rest') by (unfold dbl; destruct rest as [|c' rest']; [done|]; intros ->%Z.eqb_eq; eauto). assert (Hndbl : dbl = false -> head rest <> Some 58) by (unfold dbl; destruct rest as [|c' rest']; [done|]; intros H%Z.eqb_neq; cbn; congruence).
        destruct (decide (cur = [])) as [->|Hne].
        -- rewrite bool_decide_true by done. cbn [orb]. rewrite andb_true_r. destruct Hdn as [(-> & -> & ->)|(d & Ed)].
           ++ change (0 <? i) with false. cbn [negb andb]. destruct dbl eqn:Ed; cbn [negb].
              ** destruct (Hdbl eq_refl) as (rest' & ->). cbn [mbind option_bind compress_pos Z.eqb andb negb num_blocks block empty bytes Z.b2z]. destruct (IH [58; 58] [] rest' 0%nat 0 w r N quad) as (res & Er & Hres); [cbn [length] in Hf; lia|done|done|done|done|lia|lia|done|done|by right; exists [58]|]. exists res. split; [exact Er|]. intros addr. rewrite Hres. cbn [app]. rewrite (remains_start 0 0 _ False) by done. split.
                 --- intros Hr. by apply (RemStart 0 (-1) _ w addr rest'); [|done|lia|].
                 --- intros [(_ & ? & _)|[(_ & ? & _)|[(_ & _ & _ & _ & _ & text & [= ->] & Hr)|(? & _)]]]%(first_stop 0 (-1) ([] = []) w addr [] Hcur Hval 58 _ ltac:(done)); done.
              ** apply Hrej. intros addr [(_ & ? & _)|[(_ & ? & _)|[(_ & _ & _ & _ & _ & text & -> & _)|(? & _)]]]%(first_stop 0 (-1) ([] = []) w addr [] Hcur Hval 58 _ ltac:(done)); done.
           ++ rewrite (proj2 (Z.ltb_lt 0 i)) by (unfold i; rewrite Ed, length_app; cbn; lia). apply Hrej. intros addr [(_ & ? & _)|[(_ & ? & _)|[(_ & _ & _ & _ & Hs & _)|(? & _)]]]%(first_stop nb cp (dn = []) w addr [] Hcur Hval 58 _ ltac:(done)); try done. rewrite Ed in Hs. by destruct d.
        -- rewrite bool_decide_false by done. cbn [orb]. assert (Hi : (0 <? i) = true) by (apply Z.ltb_lt; unfold i; destruct cur; [done|cbn; lia]). rewrite Hi. cbn [andb negb]. destruct (Z.eqb_spec (Z.of_nat nb) 7) as [E7|E7].
           { apply Hrej. intros addr [(_ & _ & ? & _)|[(_ & _ & ? & _)|[(_ & ? & _)|(? & _)]]]%(first_stop nb cp (dn = []) w addr cur Hcur Hval 58 _ ltac:(done)); try done; lia. }
           destruct (store_block_ok nb cp cur false w r Hw Hl Hnb Hcur Hval) as (r' & Es & Hl'). rewrite Es. cbn [mbind option_bind compress_pos num_blocks block empty bytes]. assert (Hw' : length (w ++ item_bytes (Hex cur)) = (2 * S nb)%nat) by (rewrite length_app; cbn; lia). replace (Z.of_nat nb + 1) with (Z.of_nat (S nb)) by lia. destruct dbl eqn:Ed; cbn [andb].
           ++ destruct (Hdbl eq_refl) as (rest' & ->). destruct (Z.eqb_spec cp (-1)) as [->|Hc]; cbn [negb].
              ** replace (i + 1 + Z.b2z true) with (Z.of_nat (length ((dn ++ cur ++ [58]) ++ [58]) + length (A := Z) [])) by (unfold i; rewrite !length_app; cbn; lia). unfold name. replace (dn ++ cur ++ 58 :: 58 :: rest') with (((dn ++ cur ++ [58]) ++ [58]) ++ [] ++ rest') by by rewrite <- !app_assoc.
                 destruct (IH ((dn ++ cur ++ [58]) ++ [58]) [] rest' (S nb) (Z.of_nat (S nb)) (w ++ item_bytes (Hex cur)) r' N quad) as (res & Er & Hres); [cbn [length] in Hf; lia|cbn [app]; rewrite <- !app_assoc; exact HN|done|done|done|lia|lia|by constructor|done|by right; eexists|]. exists res. split; [exact Er|]. intros addr. rewrite Hres. rewrite (remains_start (S nb) (Z.of_nat (S nb)) _ False) by (split; [by destruct (dn ++ cur ++ [58])|done]). cbn [app]. split.
                 --- intros Hr. by apply RemDouble; [| |lia|].
                 --- intros [(_ & _ & _ & Hh & _)|[(_ & _ & _ & _ & text & [= ->] & Hr)|[(_ & ? & _)|(? & _)]]]%(first_stop nb (-1) (dn = []) w addr cur Hcur Hval 58 _ ltac:(done)); done.
              ** apply Hrej. intros addr [(_ & _ & _ & Hh & _)|[(_ & _ & _ & ? & _)|[(_ & ? & _)|(? & _)]]]%(first_stop nb cp (dn = []) w addr cur Hcur Hval 58 _ ltac:(done)); done.
           ++ replace (i + 1 + Z.b2z false) with (Z.of_nat (length ((dn ++ cur) ++ [58]) + length (A := Z) [])) by (unfold i; rewrite !length_app; cbn; lia). unfold name. replace (dn ++ cur ++ 58 :: rest) with (((dn ++ cur) ++ [58]) ++ [] ++ rest) by by rewrite <- !app_assoc.
              destruct (IH ((dn ++ cur) ++ [58]) [] rest (S nb) cp (w ++ item_bytes (Hex cur)) r' N quad) as (res & Er & Hres); [lia|cbn [app]; rewrite <- !app_assoc; exact HN|done|done|done|lia|lia|by constructor|done|by right; eexists|]. exists res. split; [exact Er|]. intros addr. rewrite Hres. rewrite (remains_start (S nb) cp _ False) by (split; [by destruct (dn ++ cur)|done]). cbn [app]. split.
              --- intros Hr. apply RemBlock; [done|by apply Hndbl|lia|done].
              --- intros [(_ & _ & _ & _ & Hr)|[(_ & _ & _ & _ & text & -> & _)|[(_ & ? & _)|(? & _)]]]%(first_stop nb cp (dn = []) w addr cur Hcur Hval 58 _ ltac:(done)); done.
      * (* a digit *)
        cbn [block num_blocks compress_pos bytes]. destruct (Z.ltb_spec (decode_hex_digit c) 0) as [Hd|Hd].
        { apply Hrej. intros addr [(? & _)|[(? & _)|[(? & _)|(? & _)]]]%(first_stop nb cp (dn = []) w addr cur Hcur Hval c rest Hd); done. }
        assert (Hsnoc : hex_value (cur ++ [c]) = 16 * hex_value cur + decode_hex_digit c) by apply value_snoc. assert (Hover : 2 ^ 16 <= hex_value (cur ++ [c]) -> forall addr, ~ remains_first nb cp (dn = []) w addr (cur ++ c :: rest)) by (intros Hv addr Hr; by apply (first_overflow nb cp (dn = []) w addr cur Hcur Hval c rest)).
        destruct (Z.ltb_spec (65535 / 16) (hex_value cur)) as [H1|H1]; [apply Hrej, Hover; zdiv|]. destruct (Z.ltb_spec (65535 - hex_value cur * 16) (decode_hex_digit c)) as [H2|H2]; [apply Hrej, Hover; lia|].
        destruct (IH dn (cur ++ [c]) rest nb cp w r N quad) as (res & Er & Hres); [lia|rewrite <- app_assoc; exact HN|done|done|done|done|done|apply Forall_app; split; [done|by constructor; [|constructor]]|lia|done|]. exists res. rewrite Hsnoc, (bool_decide_false (cur ++ [c] = [])) in Er by (by destruct cur). rewrite <- app_assoc in Er. cbn [app] in Er. replace (hex_value cur * 16) with (16 * hex_value cur) by lia. replace (Z.of_nat (length dn + length cur) + 1) with (Z.of_nat (length dn + length (cur ++ [c]))) by (rewrite length_app; cbn; lia). split; [exact Er|]. intros addr. rewrite Hres, <- app_assoc. by apply remains_by_token.
Qed.

Lemma remains_denotes name addr : remains 0 (-1) ([] = (@nil Z)) [] name addr <-> denotes name addr.
Proof.
  unfold remains, denotes. split.
  - intros [(l & Hok & -> & Hnil & [(_ & Hlen & ->)|(? & _)])|(_ & pre & post & Hpre & Hpost & -> & _ & Hn & [(? & _)|(_ & Hlen & ->)])]; [|lia|lia|].
    + left. exists l. done.
    + right. exists pre, post. cbn [app Nat.add] in *. rewrite Nat2Z.id, <- (hexes_bytes _ Hpre), take_ge, drop_ge by done. by split_and!.
  - intros [(l & Hok & -> & Hlen & ->)|(pre & post & Hpre & Hpost & -> & Hn & Hlen & ->)].
    + left. exists l. split; [done|]. split; [done|]. split; [by intros ->|]. by left.
    + right. split; [done|]. exists pre, post. split; [done|]. split; [done|]. split; [done|]. split; [done|]. split; [done|]. right. cbn [app Nat.add]. split; [lia|]. split; [done|]. by rewrite Nat2Z.id, <- (hexes_bytes _ Hpre), take_ge, drop_ge by done.
Qed.

Lemma ipaddr6_parse_ok (name out quad : list Z) : length out = 16%nat -> length quad = 4%nat -> exists r, ipaddr6_parse_ipv6_addr_bin name out quad = Some r /\ forall addr, r = Some addr <-> denotes name addr.
Proof.
  intros Ho Hq. destruct (blocks_exact (S (length name)) [] [] name 0 (-1) [] out (S (length name)) quad) as (res & E & Hres); [lia|cbn; lia|done|done|done|lia|by left|by constructor|done|by left|]. exists res. split; [exact E|]. intros addr. rewrite Hres. apply remains_denotes.
Qed.

(** ** Printing *)

Definition hex_item (addr : list Z) (i : nat) : item := Hex (hex_text (block_of addr i)).
Definition pairs (addr : list Z) (ks : list nat) : list Z := concat ((fun i => [nthb addr (2 * i); nthb addr (2 * i + 1)]) <$> ks).

Lemma nthb_byte addr i : bytes_ok addr -> 0 <= nthb addr i < 256.
Proof. intros H. unfold nthb. destruct (addr !! i) as [b|] eqn:E; cbn; [|lia]. by apply (Forall_lookup_1 _ _ _ _ H) in E. Qed.

Lemma block_value addr i : bytes_ok addr -> block_of addr i = nthb addr (2 * i) * 256 + nthb addr (2 * i + 1).
Proof. intros H. unfold block_of. rewrite lor_byte; [done|lia|]. by apply nthb_byte. Qed.

Lemma block_text addr i : bytes_ok addr -> let t := hex_text (block_of addr i) in item_ok (Hex t) /\ (length t <= 4)%nat /\ item_bytes (Hex t) = [nthb addr (2 * i); nthb addr (2 * i + 1)].
Proof.
  intros H. pose proof (block_value addr i H) as Hb. pose proof (nthb_byte addr (2 * i) H) as Hhi. pose proof (nthb_byte addr (2 * i + 1) H) as Hlo. destruct (hex_text_ok (block_of addr i)) as (H1 & H2 & H3 & H4 & H5); [lia|]. cbn zeta. split; [split_and!; [done|done|lia]|]. split.
  - destruct (decide (block_of addr i = 0)) as [E0|Hne]; [rewrite E0; vm_compute; lia|]. specialize (H5 Hne). destruct (Nat.le_gt_cases (length (hex_text (block_of addr i))) 4) as [|Hgt]; [done|]. assert (16 ^ 4 <= 16 ^ Z.of_nat (length (hex_text (block_of addr i)) - 1)) by (apply Z.pow_le_mono_r; lia). lia.
  - cbn [item_bytes]. rewrite H2, Hb. f_equal; [zdiv|]. f_equal. zdiv.
Qed.

Lemma hex_items_ok addr ks : bytes_ok addr -> hexes (hex_item addr <$> ks) /\ items_bytes (hex_item addr <$> ks) = pairs addr ks.
Proof.
  intros H. induction ks as [|i ks [IH1 IH2]]; [split; [constructor|done]|]. cbn [fmap list_fmap]. destruct (block_text addr i H) as (H1 & _ & H2). split; [constructor; [by eexists|done]|]. rewrite items_bytes_cons, IH2. unfold hex_item. by rewrite H2.
Qed.

Lemma join_item addr i l : l <> [] -> join (hex_item addr i :: l) = hex_text (block_of addr i) ++ 58 :: join l.
Proof. by destruct l. Qed.

Lemma join_before addr ks : ks <> [] -> concat ((fun i => hex_text (block_of addr i) ++ [58]) <$> ks) = join (hex_item addr <$> ks) ++ [58].
Proof. induction ks as [|i ks IH]; [done|]. intros _. destruct (decide (ks = [])) as [->|Hne]; [cbn; by rewrite app_nil_r|]. rewrite !fmap_cons. cbn [concat]. rewrite (IH Hne), join_item by (by destruct ks). by rewrite <- !app_assoc. Qed.

Lemma join_after addr ks : ks <> [] -> concat ((fun i => 58 :: hex_text (block_of addr i)) <$> ks) = 58 :: join (hex_item addr <$> ks).
Proof. induction ks as [|i ks IH]; [done|]. intros _. destruct (decide (ks = [])) as [->|Hne]; [cbn; by rewrite app_nil_r|]. rewrite !fmap_cons. cbn [concat]. by rewrite (IH Hne), join_item by (by destruct ks). Qed.

(** A run of zero blocks. *)
Lemma longest_ok n addr : forall i ls ll cs cl, (cs + cl = i)%nat -> (ls + ll <= i)%nat -> (forall j, (ls <= j < ls + ll)%nat -> nthb addr (2 * j) = 0 /\ nthb addr (2 * j + 1) = 0) -> (forall j, (cs <= j < i)%nat -> nthb addr (2 * j) = 0 /\ nthb addr (2 * j + 1) = 0) ->
  let '(s, l) := longest_loop n addr i ls ll cs cl in (s + l <= i + n)%nat /\ forall j, (s <= j < s + l)%nat -> nthb addr (2 * j) = 0 /\ nthb addr (2 * j + 1) = 0.
Proof.
  induction n as [|n IH]; intros i ls ll cs cl Hi Hl Hz Hc; cbn [longest_loop]; [split; [lia|done]|]. replace (i + S n)%nat with (S i + n)%nat by lia. destruct (Z.eqb_spec (nthb addr (2 * i)) 0) as [E1|E1], (Z.eqb_spec (nthb addr (2 * i + 1)) 0) as [E2|E2]; cbn [andb].
  - assert (Hc' : forall j, (cs <= j < S i)%nat -> nthb addr (2 * j) = 0 /\ nthb addr (2 * j + 1) = 0) by (intros j Hj; destruct (decide (j = i)) as [->|]; [done|apply Hc; lia]). destruct (Nat.ltb_spec ll (S cl)); apply IH; [lia|lia|intros j Hj; apply Hc'; lia|done|lia|lia|done|done].
  - apply IH; [lia|lia|done|intros; lia].
  - apply IH; [lia|lia|done|intros; lia].
  - apply IH; [lia|lia|done|intros; lia].
Qed.

Lemma pairs_app addr l k : pairs addr (l ++ k) = pairs addr l ++ pairs addr k.
Proof. unfold pairs. by rewrite fmap_app, concat_app. Qed.

Lemma pairs_all addr : length addr = 16%nat -> pairs addr (seq 0 8) = addr.
Proof. intros H. do 16 (destruct addr as [|? addr]; [done|]). by destruct addr. Qed.

Lemma pairs_zero addr s l : (forall j, (s <= j < s + l)%nat -> nthb addr (2 * j) = 0 /\ nthb addr (2 * j + 1) = 0) -> pairs addr (seq s l) = replicate (2 * l) 0.
Proof.
  revert s. induction l as [|l IH]; intros s H; [done|]. cbn [seq]. change (pairs addr (s :: seq (S s) l)) with ([nthb addr (2 * s); nthb addr (2 * s + 1)] ++ pairs addr (seq (S s) l)). rewrite (IH (S s)) by (intros; apply H; lia). destruct (H s) as [-> ->]; [lia|]. by replace (2 * S l)%nat with (S (S (2 * l))) by lia.
Qed.

Lemma length_pairs addr l : length (pairs addr l) = (2 * length l)%nat.
Proof. induction l as [|i l IH]; [done|]. change (pairs addr (i :: l)) with ([nthb addr (2 * i); nthb addr (2 * i + 1)] ++ pairs addr l). rewrite length_app, IH. cbn. lia. Qed.

Lemma print_denotes addr : bytes_ok addr -> length addr = 16%nat -> denotes (ipaddr6_print_addr addr) addr.
Proof.
  intros Hb Hl. unfold ipaddr6_print_addr. pose proof (longest_ok 8 addr 0 0 0 0 0 ltac:(lia) ltac:(lia) ltac:(intros; lia) ltac:(intros; lia)) as Hlong. destruct (longest_loop 8 addr 0 0 0 0 0) as [s l]. destruct Hlong as [Hsl Hz]. cbn [Nat.add] in Hsl. destruct (Nat.ltb_spec 1 l) as [H1|H1].
  - right. set (pre := hex_item addr <$> seq 0 s). set (post := hex_item addr <$> seq (s + l) (8 - (s + l))). destruct (hex_items_ok addr (seq 0 s) Hb) as [Hpre Epre]. destruct (hex_items_ok addr (seq (s + l) (8 - (s + l))) Hb) as [Hpost Epost]. fold pre in Hpre, Epre. fold post in Hpost, Epost. exists pre, post.
    split; [done|]. split; [by apply hexes_ok|]. split; [|split; [|split]].
    + assert (E1 : concat ((fun i => hex_text (block_of addr i) ++ [58]) <$> seq 0 s) ++ (if (s =? 0)%nat then [58] else []) = join pre ++ [58]).
      { destruct (Nat.eqb_spec s 0) as [->|Hs]; [done|]. rewrite app_nil_r. apply join_before. by destruct s. }
      assert (E2 : concat ((fun i => 58 :: hex_text (block_of addr i)) <$> seq (s + l) (8 - (s + l))) ++ (if (s + l =? 8)%nat then [58] else []) = 58 :: join post).
      { destruct (Nat.eqb_spec (s + l) 8) as [E|Hne]; [unfold post; rewrite E; done|]. rewrite app_nil_r. apply join_after. by destruct (8 - (s + l))%nat eqn:E; [lia|]. }
      rewrite app_assoc, E1, E2, <- app_assoc. done.
    + unfold pre. rewrite length_fmap, length_seq. lia.
    + rewrite Epre, Epost, length_app, !length_pairs, !length_seq. lia.
    + rewrite Epre, Epost, length_app, !length_pairs, !length_seq. replace (16 - (2 * s + 2 * (8 - (s + l))))%nat with (2 * l)%nat by lia. rewrite <- (pairs_zero addr s l Hz), <- !pairs_app. rewrite <- (pairs_all addr Hl) at 1. f_equal. replace (seq 0 8) with (seq 0 (s + (l + (8 - (s + l))))) by (f_equal; lia). by rewrite !seq_app.
  - left. exists (hex_item addr <$> seq 0 8). destruct (hex_items_ok addr (seq 0 8) Hb) as [Hok E]. split; [by apply hexes_ok|]. rewrite E, pairs_all by done. split; [|done]. change (seq 0 8) with (0%nat :: seq 1 7). cbn [fmap list_fmap concat Nat.eqb app]. rewrite join_item by done. f_equal. rewrite <- (join_after addr (seq 1 7)) by done. done.
Qed.

(** The texts of [n] blocks at most. *)
Lemma print_length addr : bytes_ok addr -> length addr = 16%nat -> (length (ipaddr6_print_addr addr) <= 39)%nat.
Proof.
  intros Hb Hl. assert (Hbefore : forall ks, (length (concat ((fun i => hex_text (block_of addr i) ++ [58%Z]) <$> ks)) <= 5 * length ks)%nat) by (induction ks as [|i ks IH]; [cbn; lia|]; cbn [fmap list_fmap concat]; rewrite !length_app; destruct (block_text addr i Hb) as (_ & ? & _); cbn [length] in *; lia).
  assert (Hafter : forall ks, (length (concat ((fun i => 58%Z :: hex_text (block_of addr i)) <$> ks)) <= 5 * length ks)%nat) by (induction ks as [|i ks IH]; [cbn; lia|]; cbn [fmap list_fmap concat]; rewrite !length_app; destruct (block_text addr i Hb) as (_ & ? & _); cbn [length] in *; lia).
  unfold ipaddr6_print_addr. pose proof (longest_ok 8 addr 0 0 0 0 0 ltac:(lia) ltac:(lia) ltac:(intros; lia) ltac:(intros; lia)) as Hlong. destruct (longest_loop 8 addr 0 0 0 0 0) as [s l]. destruct Hlong as [Hsl _]. cbn [Nat.add] in Hsl. destruct (Nat.ltb_spec 1 l) as [H1|H1].
  - rewrite !length_app. pose proof (Hbefore (seq 0 s)). pose proof (Hafter (seq (s + l) (8 - (s + l)))). rewrite length_seq in *. destruct (s =? 0)%nat, (s + l =? 8)%nat; cbn [length]; lia.
  - transitivity (length (hex_text (block_of addr 0) ++ concat ((fun i => 58 :: hex_text (block_of addr i)) <$> seq 1 7))); [done|]. rewrite length_app. pose proof (Hafter (seq 1 7)) as H7. rewrite length_seq in H7. destruct (block_text addr 0 Hb) as (_ & ? & _). lia.
Qed.

(** ** Dotted addresses *)

Definition octet_text (t : list Z) : Prop := (1 <= length t <= 3)%nat /\ decimal t /\ decimal_value t <= 255.
Definition denotes4 (name addr : list Z) : Prop := exists ts, length ts = 4%nat /\ Forall octet_text ts /\ name = dots ts /\ addr = decimal_value <$> ts.

Lemma until_dot_spec name : exists t rest, name = t ++ rest /\ until_dot name = length t /\ Forall (fun c => c <> 46) t /\ (rest = [] \/ exists q, rest = 46 :: q).
Proof.
  induction name as [|c name (t & rest & -> & E & Ht & Hr)]; [exists [], []; by split_and!; [..|constructor|left]|]. cbn [until_dot]. destruct (Z.eqb_spec c 46) as [->|Hc]; [exists [], (46 :: t ++ rest); split_and!; [done|done|constructor|by right; eexists]|]. exists (c :: t), rest. cbn. rewrite E. by split_and!; [..|constructor|].
Qed.

Lemma decimal_no_dot t : decimal t -> Forall (fun c => c <> 46) t.
Proof. intros H. eapply Forall_impl; [exact H|]. by intros c Hc ->. Qed.

(** The first token, up to a dot. *)
Lemma dots_split t rest ts : Forall (fun c => c <> 46) t -> (rest = [] \/ exists q, rest = 46 :: q) -> Forall octet_text ts -> ts <> [] -> t ++ rest = dots ts ->
  exists ts', ts = t :: ts' /\ octet_text t /\ Forall octet_text ts' /\ ((rest = [] /\ ts' = []) \/ (ts' <> [] /\ rest = 46 :: dots ts')).
Proof.
  intros Ht Hr Hts Hnil E. destruct ts as [|u ts]; [done|]. apply Forall_cons in Hts as [Hu Hts]. rewrite quad_dots_cons in E. pose proof (decimal_no_dot u (proj1 (proj2 Hu))) as Hud.
  assert (t = u /\ rest = (if ts is [] then [] else 46 :: dots ts)) as [-> ->].
  { clear Hu Hnil. revert u Hud E. induction t as [|c t IH]; intros [|d u] Hud E.
    - done.
    - destruct Hr as [->|[q ->]]; [done|]. injection E as <- _. by apply Forall_cons in Hud as [? _].
    - apply Forall_cons in Ht as [Hc _]. destruct ts; [done|]. by injection E as -> _.
    - apply Forall_cons in Ht as [_ Ht]. apply Forall_cons in Hud as [_ Hud]. injection E as -> E. destruct (IH Ht u Hud E) as [-> ->]. done. }
  exists ts. split_and!; try done. destruct ts; [by left|by right].
Qed.

Lemma parse4_exact us : forall name vs, (length vs + length us = 4)%nat -> us <> [] ->
  exists r, parse4_loop (length us) (Z.of_nat (length vs)) name (vs ++ us) = Some r /\ forall a, r = Some a <-> exists ts, length ts = length us /\ Forall octet_text ts /\ name = dots ts /\ a = vs ++ (decimal_value <$> ts).
Proof.
  induction us as [|u us IH]; intros name vs Hl Hu; [done|]. cbn [length] in Hl. cbn [length parse4_loop]. destruct (until_dot_spec name) as (t & rest & -> & -> & Ht & Hr).
  assert (Hsplit : forall ts, length ts = S (length us) -> Forall octet_text ts -> t ++ rest = dots ts -> exists ts', ts = t :: ts' /\ octet_text t /\ Forall octet_text ts' /\ ((rest = [] /\ ts' = []) \/ (ts' <> [] /\ rest = 46 :: dots ts'))) by (intros ts Hts; intros; apply dots_split; try done; by intros ->).
  assert (Hrej : (forall ts', length ts' = length us -> octet_text t -> ((rest = [] /\ ts' = []) \/ (ts' <> [] /\ rest = 46 :: dots ts')) -> False) -> exists r, Some None = Some r /\ forall a, r = Some a <-> exists ts, length ts = S (length us) /\ Forall octet_text ts /\ t ++ rest = dots ts /\ a = vs ++ (decimal_value <$> ts)).
  { intros Hb. exists None. split; [done|]. intros a. split; [done|]. intros (ts & Hlt & Hts & E & _). destruct (Hsplit ts Hlt Hts E) as (ts' & -> & Ho & _ & Hc). destruct (Hb ts' ltac:(cbn in Hlt; lia) Ho Hc). }
  assert (Hlen : (length (t ++ rest) = length t)%nat <-> rest = []) by (rewrite length_app; destruct rest; cbn; [|]; split; intros; try done; lia).
  assert (Hvs : (Z.of_nat (length vs) = 3) <-> us = []) by (destruct us; cbn in *; split; intros; try done; lia).
  destruct (((length t =? length (t ++ rest))%nat && (Z.of_nat (length vs) <? 3)) || ((length t <? length (t ++ rest))%nat && (Z.of_nat (length vs) =? 3))) eqn:Eg.
  { apply Hrej. intros ts' Hlt _ Hc. apply orb_true_iff in Eg as [[E1 E2]%andb_true_iff|[E1 E2]%andb_true_iff].
    - apply Nat.eqb_eq in E1. apply Z.ltb_lt in E2. assert (rest = []) as -> by (apply Hlen; done). destruct Hc as [[_ ->]|[_ ?]]; [|done]. assert (us = []) as Hn by (by destruct us). apply Hvs in Hn. lia.
    - apply Nat.ltb_lt in E1. apply Z.eqb_eq, Hvs in E2. subst us. destruct Hc as [[-> _]|[Hne _]]; [rewrite app_nil_r in E1; lia|by destruct ts']. }
  assert (Hmid : (rest = [] /\ us = []) \/ (us <> [] /\ exists q, rest = 46 :: q)).
  { apply orb_false_iff in Eg as [E1 E2]. destruct Hr as [->|[q ->]].
    - left. split; [done|]. rewrite app_nil_r, Nat.eqb_refl in E1. cbn [andb] in E1. apply Z.ltb_ge in E1. apply Hvs. lia.
    - right. split; [|by eexists]. intros Hn%Hvs. rewrite length_app in E2. cbn [length] in E2. rewrite Hn, (proj2 (Nat.ltb_lt _ _)) in E2 by lia. done. }
  clear Eg. destruct ((length t <? 1)%nat || (3 <? length t)%nat) eqn:El; [apply Hrej; intros ts' _ (Ho & _) _; apply orb_true_iff in El as [El|El]; apply Nat.ltb_lt in El; lia|]. apply orb_false_iff in El as [El1 El2]. apply Nat.ltb_ge in El1, El2.
  rewrite take_app_length. destruct (parse_unsigned_integer_bin t) as [d|] eqn:Ep.
  2:{ apply Hrej. intros ts' _ (_ & Hd & Hv) _. assert (parse_unsigned_integer_bin t = Some (decimal_value t)) as E; [|by rewrite E in Ep]. apply parse_unsigned_integer_exact. split_and!; [intros ->; cbn in El1; lia|done|done|lia]. }
  apply parse_unsigned_integer_exact in Ep as (_ & Hd & -> & _). destruct (Z.ltb_spec 255 (decimal_value t)) as [Hv|Hv]; [apply Hrej; intros ts' _ (_ & _ & ?) _; lia|]. assert (Ho : octet_text t) by done.
  rewrite put_middle by done. cbn [mbind option_bind]. destruct (Z.eqb_spec (Z.of_nat (length vs)) 3) as [E3|E3].
  - apply Hvs in E3 as ->. destruct Hmid as [[-> _]|[? _]]; [|done]. eexists. split; [done|]. intros a. split.
    + intros [= <-]. exists [t]. split_and!; [done|by constructor|by rewrite app_nil_r|done].
    + intros (ts & Hlt & Hts & E & ->). destruct (Hsplit ts Hlt Hts E) as (ts' & -> & _). by destruct ts'.
  - destruct Hmid as [[_ Hn]|[Hne [q ->]]]; [by apply Hvs in Hn|]. replace (drop (length t + 1) (t ++ 46 :: q)) with q by (rewrite drop_app_add; done). replace (Z.of_nat (length vs) + 1) with (Z.of_nat (length (vs ++ [decimal_value t]))) by (rewrite length_app; cbn; lia).
    destruct (IH q (vs ++ [decimal_value t])) as (r & Er & Hres); [rewrite length_app; cbn; lia|done|]. rewrite <- app_assoc in Er. exists r. split; [exact Er|]. intros a. rewrite Hres. split.
    + intros (ts & Hlt & Hts & -> & ->). exists (t :: ts). split_and!; [cbn; lia|by constructor|destruct ts; [by destruct us|done]|by rewrite <- app_assoc].
    + intros (ts & Hlt & Hts & E & ->). destruct (Hsplit ts Hlt Hts E) as (ts' & -> & _ & Hts' & Hc). destruct Hc as [[? _]|[_ Ec]]; [done|]. injection Ec as ->. exists ts'. split_and!; [cbn in Hlt; lia|done|done|by rewrite <- app_assoc].
Qed.

Lemma ipaddr_parse_ok (name out : list Z) : length out = 4%nat -> exists r, ipaddr_parse_ipv4_addr_bin name out = Some r /\ forall addr, r = Some addr <-> denotes4 name addr.
Proof.
  intros Ho. destruct (parse4_exact out name []) as (r & E & Hr); [cbn; lia|by intros ->|]. rewrite Ho in E. exists r. split; [exact E|]. intros addr. rewrite Hr, Ho. done.
Qed.

(** ** Addresses with a prefix *)

Definition prefix_text (max : Z) (t : list Z) (p : Z) : Prop := t <> [] /\ decimal t /\ p = decimal_value t /\ p <= max.

Lemma parse_prefix_exact max t p : max < 2 ^ 64 -> parse_prefix max t = Some p <-> prefix_text max t p.
Proof.
  intros Hm. unfold parse_prefix, prefix_text. destruct (parse_unsigned_integer_bin t) as [d|] eqn:E; cbn [mbind option_bind].
  - apply parse_unsigned_integer_exact in E as (H1 & H2 & -> & H3). destruct (Z.ltb_spec max (decimal_value t)); split.
    + done.
    + intros (_ & _ & -> & ?). lia.
    + by intros [= <-].
    + by intros (_ & _ & -> & _).
  - split; [done|]. intros (H1 & H2 & -> & H3). assert (E' : parse_unsigned_integer_bin t = Some (decimal_value t)) by (apply parse_unsigned_integer_exact; split_and!; [done..|lia]). by rewrite E' in E.
Qed.

Lemma find_char_spec str c : forall i, match b_find_char_bin str c i with Some k => exists a t, str = a ++ c :: t /\ k = (i + length a)%nat /\ Forall (fun x => x <> c) a | None => Forall (fun x => x <> c) str end.
Proof.
  induction str as [|x str IH]; intros i; [constructor|]. cbn [b_find_char_bin]. destruct (Z.eqb_spec x c) as [->|Hx]; [exists [], str; split_and!; [done|cbn; lia|constructor]|]. specialize (IH (S i)). destruct (b_find_char_bin str c (S i)); [|by constructor]. destruct IH as (a & t & -> & -> & Ha). exists (x :: a), t. split_and!; [done|cbn; lia|by constructor].
Qed.

Lemma split_unique (c : Z) a b r q : Forall (fun x => x <> c) a -> Forall (fun x => x <> c) b -> a ++ c :: r = b ++ c :: q -> a = b /\ r = q.
Proof.
  revert b. induction a as [|x a IH]; intros [|y b] Ha Hb E.
  - by injection E.
  - injection E as <- _. by apply Forall_cons in Hb as [? _].
  - injection E as -> _. by apply Forall_cons in Ha as [? _].
  - injection E as -> E. apply Forall_cons in Ha as [_ Ha]. apply Forall_cons in Hb as [_ Hb]. by destruct (IH b Ha Hb E) as [-> ->].
Qed.

(** [P]: the texts that the parser of addresses accepts. *)
Lemma parse_ifaddr_ok (P : list Z -> list Z -> Prop) parse max str out :
  (forall name, exists r, parse name out = Some r /\ forall a, r = Some a <-> P name a) -> (forall name a, P name a -> Forall (fun c => c <> 47) name) -> max < 2 ^ 64 ->
  exists r, parse_ifaddr parse (parse_prefix max) str out = Some r /\ forall a p, r = Some (a, p) <-> exists name t, str = name ++ 47 :: t /\ P name a /\ prefix_text max t p.
Proof.
  intros Hp Hc Hm. unfold parse_ifaddr. pose proof (find_char_spec str 47 0) as Hf. destruct (b_find_char_bin str 47 0) as [k|].
  - destruct Hf as (name & t & -> & -> & Hn). cbn [Nat.add]. rewrite take_app_length, drop_app_add. cbn [drop]. rewrite drop_0. destruct (Hp name) as (r & -> & Hr). cbn [mbind option_bind]. eexists. split; [done|]. intros a p. split.
    + destruct r as [a'|]; [|done]. cbn [mbind option_bind]. destruct (parse_prefix max t) as [p'|] eqn:Ep; [|done]. intros [= -> ->]. exists name, t. split; [done|]. split; [by apply Hr|by apply parse_prefix_exact].
    + intros (name' & t' & E & Ha & Ht). destruct (split_unique 47 name name' t t' Hn (Hc _ _ Ha) E) as [<- <-]. apply Hr in Ha as ->. apply parse_prefix_exact in Ht; [|done]. cbn [mbind option_bind]. by rewrite Ht.
  - eexists. split; [done|]. intros a p. split; [done|]. intros (name & t & -> & _). apply Forall_app in Hf as [_ Hf]. by apply Forall_cons in Hf as [? _].
Qed.

(** *** No address has a slash *)

#[local] Notation no_slash := (Forall (fun c => c <> 47)).

Lemma decimal_no_slash t : decimal t -> no_slash t.
Proof. intros H. eapply Forall_impl; [exact H|]. by intros c Hc ->. Qed.
Lemma hexadecimal_no_slash t : hexadecimal t -> no_slash t.
Proof. intros H. eapply Forall_impl; [exact H|]. by intros c Hc ->. Qed.

Lemma item_no_slash x : item_ok x -> no_slash (item_text x).
Proof.
  destruct x as [t|t0 t1 t2 t3]; [intros (_ & H & _); by apply hexadecimal_no_slash|]. intros ((_ & H0 & _) & (_ & H1 & _) & (_ & H2 & _) & (_ & H3 & _)). cbn [item_text]. repeat (apply Forall_app; split; [by apply decimal_no_slash|]; constructor; [done|]). by apply decimal_no_slash.
Qed.

Lemma join_no_slash l : items_ok l -> no_slash (join l).
Proof.
  induction l as [|x l IH]; [constructor|]. intros H. destruct l as [|y l]; [by apply item_no_slash|]. destruct H as (_ & Hx & Hl). change (join (x :: y :: l)) with (item_text x ++ 58 :: join (y :: l)). apply Forall_app. split; [by apply item_no_slash|]. constructor; [done|by apply IH].
Qed.

Lemma denotes_no_slash name addr : denotes name addr -> no_slash name.
Proof.
  intros [(l & Hl & -> & _)|(pre & post & Hpre & Hpost & -> & _)]; [by apply join_no_slash|]. apply Forall_app. split; [by apply join_no_slash, hexes_ok|]. do 2 (constructor; [done|]). by apply join_no_slash.
Qed.

Lemma dots_no_slash ts : Forall octet_text ts -> no_slash (dots ts).
Proof. induction 1 as [|t ts Ht Hts IH]; [constructor|]. rewrite quad_dots_cons. apply Forall_app. split; [apply decimal_no_slash, Ht|]. destruct ts; [constructor|by constructor]. Qed.

Lemma denotes4_no_slash name addr : denotes4 name addr -> no_slash name.
Proof. intros (ts & _ & Hts & -> & _). by apply dots_no_slash. Qed.

(** *** Printing *)

Lemma decimal_text_length k p : (0 < k <= 18)%nat -> 0 <= p < 10 ^ Z.of_nat k -> (length (decimal_text p) <= k)%nat.
Proof.
  intros Hk Hp. assert (10 ^ Z.of_nat k <= 10 ^ 18) by (apply Z.pow_le_mono_r; lia). destruct (decimal_text_ok p ltac:(lia)) as (_ & _ & _ & _ & H5). destruct (decide (p = 0)) as [->|Hne]; [change (length (decimal_text 0)) with 1%nat; lia|]. specialize (H5 Hne).
  destruct (Nat.le_gt_cases (length (decimal_text p)) k) as [|Hgt]; [done|]. assert (10 ^ Z.of_nat k <= 10 ^ Z.of_nat (length (decimal_text p) - 1)) by (apply Z.pow_le_mono_r; lia). lia.
Qed.

Lemma prefix_printed max p : 0 <= p <= max -> max < 1000 -> prefix_text max (decimal_text p) p /\ (length (decimal_text p) <= 3)%nat.
Proof.
  intros Hp Hm. destruct (decimal_text_ok p ltac:(lia)) as (H1 & H2 & H3 & _). split; [split_and!; [done|done|done|lia]|]. apply (decimal_text_length 3); lia.
Qed.

Lemma octet_printed x : is_u8 x -> octet_text (decimal_text x) /\ decimal_value (decimal_text x) = x.
Proof.
  intros Hx. unfold is_u8 in Hx. destruct (prefix_printed 255 x ltac:(lia) ltac:(lia)) as [(H1 & H2 & H3 & H4) H5]. split; [|done]. split_and!; [destruct (decimal_text x); [done|cbn; lia]|done|done|lia].
Qed.

Lemma print4_denotes addr : bytes_ok addr -> length addr = 4%nat -> denotes4 (ipaddr_print_addr addr) addr /\ (length (ipaddr_print_addr addr) <= 15)%nat.
Proof.
  intros Hb Hl. destruct addr as [|x0 [|x1 [|x2 [|x3 [|]]]]]; try done. change (ipaddr_print_addr [x0; x1; x2; x3]) with (decimal_text x0 ++ 46 :: decimal_text x1 ++ 46 :: decimal_text x2 ++ 46 :: decimal_text x3).
  apply Forall_cons in Hb as [[H0 E0]%octet_printed Hb]. apply Forall_cons in Hb as [[H1 E1]%octet_printed Hb]. apply Forall_cons in Hb as [[H2 E2]%octet_printed Hb]. apply Forall_cons in Hb as [[H3 E3]%octet_printed _]. split.
  - exists (decimal_text <$> [x0; x1; x2; x3]). split; [done|]. split; [by do 4 (constructor; [done|])|]. split; [done|]. cbn [fmap list_fmap]. by rewrite E0, E1, E2, E3.
  - destruct H0 as (? & _), H1 as (? & _), H2 as (? & _), H3 as (? & _). repeat (rewrite length_app; cbn [length]). lia.
Qed.

(** ** The theorems on texts *)

(** C25. The parsers of IPv6 addresses, without and with a prefix, read and write only inside of their arrays on every text, end, and accept exactly a grammar ([denotes]): eight blocks of
    hexadecimal digits that fit into 16 bits, with any number of leading zeros, the last two of which may be four bytes with dots and without leading zeros; or at most eight blocks with one double colon
    among them, at most seven of them before it, where the double colon stands for the blocks that are missing, which may be none (RFC 4291 wants one at least: [IpAddrExample.double_colon_for_nothing]).  The address
    that they store is the one that the text denotes, with zeros in place of the double colon; and a prefix is a decimal number of at most 128 after a slash. *)
Theorem ipaddr6_parse_exact (str out quad : list Z) : length out = 16%nat -> length quad = 4%nat ->
  (exists r, ipaddr6_parse_ipv6_addr_bin str out quad = Some r /\ forall addr, r = Some addr <-> denotes str addr) /\
  (exists r, ipaddr6_parse_ipv6_ifaddr_bin str out quad = Some r /\ forall addr p, r = Some (addr, p) <-> exists name t, str = name ++ 47 :: t /\ denotes name addr /\ prefix_text 128 t p).
Proof.
  intros Ho Hq. split; [by apply ipaddr6_parse_ok|]. apply parse_ifaddr_ok; [|apply denotes_no_slash|lia]. intros name. by apply ipaddr6_parse_ok.
Qed.

Lemma parse_printed (P : list Z -> list Z -> Prop) parse max str out a p name t :
  (forall name, exists r, parse name out = Some r /\ forall a, r = Some a <-> P name a) -> (forall name a, P name a -> Forall (fun c => c <> 47) name) -> max < 2 ^ 64 ->
  str = name ++ 47 :: t -> P name a -> prefix_text max t p -> parse_ifaddr parse (parse_prefix max) str out = Some (Some (a, p)).
Proof. intros Hp Hc Hm E Ha Ht. destruct (parse_ifaddr_ok P parse max str out Hp Hc Hm) as (r & -> & Hr). f_equal. apply Hr. by exists name, t. Qed.

(** C26. What is printed of an address with a prefix fits into the buffer that the callers have for it, with its terminator, and parsing it gives the address and the prefix back;
    for IPv4 and for IPv6, of which the longest run of zero blocks is left out. *)
Theorem ipaddr_text_roundtrip (a4 a6 : list Z) (p4 p6 : Z) (out4 out6 quad : list Z) :
  bytes_ok a4 -> length a4 = 4%nat -> 0 <= p4 <= 32 -> bytes_ok a6 -> length a6 = 16%nat -> 0 <= p6 <= 128 -> length out4 = 4%nat -> length out6 = 16%nat -> length quad = 4%nat ->
  ((length (ipaddr_print_ifaddr a4 p4) < IPADDR_PRINT_MAX)%nat /\ ipaddr_parse_ipv4_addr_bin (ipaddr_print_addr a4) out4 = Some (Some a4) /\ ipaddr_parse_ipv4_ifaddr_bin (ipaddr_print_ifaddr a4 p4) out4 = Some (Some (a4, p4))) /\
  ((length (ipaddr6_print_ifaddr a6 p6) < IPADDR6_PRINT_MAX)%nat /\ ipaddr6_parse_ipv6_addr_bin (ipaddr6_print_addr a6) out6 quad = Some (Some a6) /\ ipaddr6_parse_ipv6_ifaddr_bin (ipaddr6_print_ifaddr a6 p6) out6 quad = Some (Some (a6, p6))).
Proof.
  intros Hb4 Hl4 Hp4 Hb6 Hl6 Hp6 Ho4 Ho6 Hq. destruct (print4_denotes a4 Hb4 Hl4) as [H4 Hlen4]. pose proof (print_denotes a6 Hb6 Hl6) as H6. pose proof (print_length a6 Hb6 Hl6) as Hlen6. destruct (prefix_printed 128 p6 Hp6 ltac:(lia)) as [Ht6 Hn6]. destruct (prefix_printed 32 p4 Hp4 ltac:(lia)) as [Ht4 _].
  assert (Hn4 : (length (decimal_text p4) <= 2)%nat) by (apply (decimal_text_length 2); lia).
  unfold IPADDR_PRINT_MAX, IPADDR6_PRINT_MAX, ipaddr_print_ifaddr, ipaddr6_print_ifaddr. rewrite !length_app. cbn [length]. split; (split; [lia|]); split.
  - destruct (ipaddr_parse_ok (ipaddr_print_addr a4) out4 Ho4) as (r & -> & Hr). f_equal. by apply Hr.
  - eapply (parse_printed denotes4); [|apply denotes4_no_slash|lia|done|done|done]. intros name. by apply ipaddr_parse_ok.
  - destruct (ipaddr6_parse_ok (ipaddr6_print_addr a6) out6 quad Ho6 Hq) as (r & -> & Hr). f_equal. by apply Hr.
  - eapply (parse_printed denotes); [|apply denotes_no_slash|lia|done|done|done]. intros name. by apply ipaddr6_parse_ok.
Qed.

Module IpAddrExample.

(** "2001:db8::ff00:10.0.0.1/64", then its address, 2001:db8::ff00:a00:1. *)
Definition example_name : list Z := [50; 48; 48; 49; 58; 100; 98; 56; 58; 58; 102; 102; 48; 48; 58; 49; 48; 46; 48; 46; 48; 46; 49].
Definition example_text : list Z := example_name ++ [47; 54; 52].
Definition example_addr : list Z := [32; 1; 13; 184; 0; 0; 0; 0; 0; 0; 255; 0; 10; 0; 0; 1].
(** What is there before. *)
Definition garbage : list Z := replicate 16 170.

Lemma ipaddr6_parse_exact_witness : denotes example_name example_addr /\ exists name t, example_text = name ++ 47 :: t /\ denotes name example_addr /\ prefix_text 128 t 64.
Proof.
  split.
  - destruct (ipaddr6_parse_exact example_name garbage [1; 2; 3; 4] eq_refl eq_refl) as [(r & E & Hr) _]. apply Hr. assert (Some r = Some (Some example_addr)) as [= ->] by (rewrite <- E; by vm_compute). done.
  - destruct (ipaddr6_parse_exact example_text garbage [1; 2; 3; 4] eq_refl eq_refl) as [_ (r & E & Hr)]. apply Hr. assert (Some r = Some (Some (example_addr, 64))) as [= ->] by (rewrite <- E; by vm_compute). done.
Defined.

Lemma ipaddr_text_roundtrip_witness : ipaddr6_print_addr example_addr = [50; 48; 48; 49; 58; 100; 98; 56; 58; 58; 102; 102; 48; 48; 58; 97; 48; 48; 58; 49] /\
  ipaddr6_parse_ipv6_ifaddr_bin (ipaddr6_print_ifaddr example_addr 128) garbage [1; 2; 3; 4] = Some (Some (example_addr, 128)).
Proof.
  split; [by vm_compute|]. apply (ipaddr_text_roundtrip [255; 255; 255; 255] example_addr 32 128 [0; 0; 0; 0] garbage [1; 2; 3; 4]); try done; try lia; repeat constructor; done.
Defined.

(** A double colon may stand for no block at all: 1:2:3:4:5:6:7::8. *)
Example double_colon_for_nothing : ipaddr6_parse_ipv6_addr_bin [49; 58; 50; 58; 51; 58; 52; 58; 53; 58; 54; 58; 55; 58; 58; 56] garbage [1; 2; 3; 4] = Some (Some [0; 1; 0; 2; 0; 3; 0; 4; 0; 5; 0; 6; 0; 7; 0; 8]).
Proof. by vm_compute. Qed.

(** Two double colons, a block of five digits, a leading zero in a byte, and 256 are refused. *)
Example refused_texts : Forall (fun name => ipaddr6_parse_ipv6_addr_bin name garbage [1; 2; 3; 4] = Some None)
  [[49; 58; 58; 50; 58; 58; 51]; [58; 58; 49; 48; 48; 48; 48]; [58; 58; 48; 49; 46; 48; 46; 48; 46; 49]; [58; 58; 50; 53; 54; 46; 48; 46; 48; 46; 49]; [58]; []; [49; 58]].
Proof. repeat constructor; by vm_compute. Qed.

End IpAddrExample.
