(* ===== verification/IpNetSpec.v ===== *)
(** * Masks and networks: theorems

    The masks of badvpn/misc/ipaddr.h and badvpn/misc/ipaddr6.h, their prefixes, and the test whether two addresses share a network, by the bits of the addresses. *)

From S2P Require Import Prelude Baddr ParseNumber IpAddr.

(** ** Ones in front *)

(** The bits of the loop that builds a mask: those of [t], and [n] ones below bit [bits - i]. *)
Lemma mask_loop_bits n bits : forall i t k, 0 <= k -> 0 <= i -> i + Z.of_nat n <= bits -> Z.testbit (mask_loop n bits i t) k = Z.testbit t k || ((bits - i - Z.of_nat n <=? k) && (k <? bits - i)).
Proof.
  induction n as [|n IH]; intros i t k Hk Hi Hn; cbn [mask_loop].
  - destruct (Z.leb_spec (bits - i - Z.of_nat 0) k), (Z.ltb_spec k (bits - i)); cbn [andb]; rewrite ?orb_false_r; try done; lia.
  - rewrite IH by lia. rewrite Z.lor_spec, Z.shiftl_1_l, Z.pow2_bits_eqb by lia. rewrite <- orb_assoc. f_equal. rewrite Nat2Z.inj_succ in *.
    destruct (Z.eqb_spec (bits - i - 1) k), (Z.leb_spec (bits - (i + 1) - Z.of_nat n) k), (Z.ltb_spec k (bits - (i + 1))), (Z.leb_spec (bits - i - Z.succ (Z.of_nat n)) k), (Z.ltb_spec k (bits - i)); cbn; try done; lia.
Qed.

Definition ones (bits : Z) (n : nat) : Z := mask_loop n bits 0 0.

Lemma ones_bits bits n k : 0 <= k -> Z.of_nat n <= bits -> Z.testbit (ones bits n) k = (bits - Z.of_nat n <=? k) && (k <? bits).
Proof. intros Hk Hn. unfold ones. rewrite mask_loop_bits by lia. by rewrite Z.bits_0, Z.sub_0_r. Qed.

Lemma ones_nonneg bits n : Z.of_nat n <= bits -> 0 <= ones bits n.
Proof.
  intros Hn. unfold ones. assert (H : forall m i t, 0 <= t -> 0 <= mask_loop m bits i t); [|by apply H]. induction m as [|m IH]; intros i t Ht; [done|]. cbn [mask_loop]. apply IH. apply Z.lor_nonneg. split; [done|]. rewrite Z.shiftl_1_l. apply Z.pow_nonneg. lia.
Qed.

Lemma ones_succ bits n : Z.of_nat n < bits -> ones bits (S n) = Z.lor (ones bits n) (Z.shiftl 1 (bits - Z.of_nat n - 1)).
Proof.
  intros Hn. apply Z.bits_inj'. intros k Hk. rewrite Z.lor_spec, !ones_bits, Z.shiftl_1_l, Z.pow2_bits_eqb by lia. rewrite Nat2Z.inj_succ.
  destruct (Z.leb_spec (bits - Z.succ (Z.of_nat n)) k), (Z.leb_spec (bits - Z.of_nat n) k), (Z.ltb_spec k bits), (Z.eqb_spec (bits - Z.of_nat n - 1) k); cbn; try done; lia.
Qed.

Lemma ones_inj bits n m : Z.of_nat n <= bits -> Z.of_nat m <= bits -> ones bits n = ones bits m -> n = m.
Proof.
  assert (H : forall n m, (n < m)%nat -> Z.of_nat m <= bits -> ones bits n <> ones bits m).
  { intros a b Hab Hb E. assert (Z.testbit (ones bits a) (bits - Z.of_nat b) = Z.testbit (ones bits b) (bits - Z.of_nat b)) as E' by by rewrite E. rewrite !ones_bits in E' by lia. rewrite (proj2 (Z.leb_gt _ _)), (proj2 (Z.leb_le _ _)), (proj2 (Z.ltb_lt _ _)) in E' by lia. done. }
  intros Hn Hm E. destruct (Nat.lt_total n m) as [Hlt|[->|Hlt]]; [by destruct (H n m Hlt Hm)|done|by destruct (H m n Hlt Hn)].
Qed.

(** The search for the number of ones. *)
Lemma prefix_loop_exact n bits v : forall i p, (Z.of_nat i + Z.of_nat n <= bits) -> prefix_loop n bits v (Z.of_nat i) (ones bits i) = Some p <-> exists j, p = Z.of_nat j /\ (i <= j <= i + n)%nat /\ v = ones bits j.
Proof.
  induction n as [|n IH]; intros i p Hb; cbn [prefix_loop]; destruct (Z.eqb_spec v (ones bits i)) as [->|Hv].
  1,3: split; [intros [= <-]; exists i; split_and!; [done|lia|lia|done]|intros (j & -> & Hj & E); apply ones_inj in E; [by subst j|lia|lia]].
  - split; [done|]. intros (j & _ & Hj & ->). by assert (i = j) as -> by lia.
  - rewrite <- ones_succ by lia. replace (Z.of_nat i + 1) with (Z.of_nat (S i)) by lia. rewrite IH by lia. split; intros (j & -> & Hj & ->); exists j; split_and!; try done; try lia. destruct (decide (i = j)) as [->|]; [done|lia].
Qed.

(** Numbers that agree under a mask. *)
Lemma land_ones bits n x y : Z.of_nat n <= bits -> Z.land x (ones bits n) = Z.land y (ones bits n) <-> forall k, bits - Z.of_nat n <= k < bits -> Z.testbit x k = Z.testbit y k.
Proof.
  intros Hn. split.
  - intros E k Hk. assert (E' : Z.testbit (Z.land x (ones bits n)) k = Z.testbit (Z.land y (ones bits n)) k) by by rewrite E. rewrite !Z.land_spec, ones_bits, (proj2 (Z.leb_le _ _)), (proj2 (Z.ltb_lt _ _)), !andb_true_r in E' by lia. done.
  - intros H. apply Z.bits_inj'. intros k Hk. rewrite !Z.land_spec, ones_bits by lia. destruct (Z.leb_spec (bits - Z.of_nat n) k), (Z.ltb_spec k bits); cbn; rewrite ?andb_false_r; try done. rewrite H by lia. done.
Qed.

(** ** The bits of an address *)

Definition addr_bit (addr : list Z) (i : nat) : bool := Z.testbit (nthb addr (i / 8)) (7 - Z.of_nat (i mod 8)).

Lemma u8_high x k : is_u8 x -> 8 <= k -> Z.testbit x k = false.
Proof. intros Hx Hk. unfold is_u8 in Hx. apply Z.bits_above_log2; [lia|]. destruct (decide (x = 0)) as [->|]; [cbn; lia|]. apply Z.log2_lt_pow2; [lia|]. assert (2 ^ 8 <= 2 ^ k) by (apply Z.pow_le_mono_r; lia). lia. Qed.

Lemma bytes_nth addr i : bytes_ok addr -> is_u8 (nthb addr i).
Proof. intros H. unfold nthb. destruct (addr !! i) as [b|] eqn:E; cbn; [by apply (Forall_lookup_1 _ _ _ _ H) in E|done]. Qed.

(** The bits of byte [j]. *)
Lemma addr_bit_byte addr j k : 0 <= k < 8 -> Z.testbit (nthb addr j) k = addr_bit addr (8 * j + Z.to_nat (7 - k)).
Proof.
  intros Hk. unfold addr_bit. rewrite (Nat.mul_comm 8), Nat.div_add_l by lia. rewrite (Nat.div_small (Z.to_nat (7 - k))) by lia. rewrite Nat.add_0_r, (Nat.add_comm (j * 8)), Nat.Div0.mod_add, Nat.mod_small by lia. f_equal. lia.
Qed.

Lemma same_bytes a b q : bytes_ok a -> bytes_ok b -> length a = length b -> (q <= length a)%nat -> take q a = take q b <-> forall i, (i < 8 * q)%nat -> addr_bit a i = addr_bit b i.
Proof.
  intros Ha Hb Hl Hq. split.
  - intros E i Hi. unfold addr_bit. assert (Hd : (i / 8 < q)%nat) by (apply Nat.Div0.div_lt_upper_bound; lia). f_equal. unfold nthb. rewrite <- (lookup_take_lt a q) by done. by rewrite E, lookup_take_lt.
  - intros H. apply list_eq. intros j. destruct (Nat.lt_ge_cases j q) as [Hj|Hj]; [|by rewrite !lookup_take_ge]. rewrite !lookup_take_lt by done. destruct (lookup_lt_is_Some_2 a j ltac:(lia)) as [x Ex]. destruct (lookup_lt_is_Some_2 b j ltac:(lia)) as [y Ey]. rewrite Ex, Ey. f_equal.
    assert (E : nthb a j = nthb b j); [|unfold nthb in E; by rewrite Ex, Ey in E]. apply Z.bits_inj'. intros k Hk. destruct (Z.lt_ge_cases k 8) as [Hk8|Hk8]; [|by rewrite !u8_high by (done || by apply bytes_nth)]. rewrite !addr_bit_byte by lia. apply H. lia.
Qed.

(** ** IPv4 *)

Lemma four_bytes (m : list Z) : length m = 4%nat -> exists a b c d, m = [a; b; c; d].
Proof. intros H. destruct m as [|a [|b [|c [|d [|]]]]]; try done. by exists a, b, c, d. Qed.

Lemma hton_ntoh32 m : bytes_ok m -> length m = 4%nat -> hton32 (ntoh32 m) = m.
Proof.
  intros Hb (a & b & c & d & ->)%four_bytes. repeat (apply Forall_cons in Hb as [? Hb]). rewrite ntoh32_val by done. unfold is_u8, hton32, u8 in *. rewrite !Z.shiftr_div_pow2 by lia. repeat f_equal; zdiv.
Qed.

(** The number has the bits of the bytes. *)
Lemma ntoh32_bits m k : bytes_ok m -> length m = 4%nat -> 0 <= k < 32 -> Z.testbit (ntoh32 m) k = addr_bit m (Z.to_nat (31 - k)).
Proof.
  intros Hb (a & b & c & d & ->)%four_bytes Hk. apply Forall_cons in Hb as [Ha Hb]. apply Forall_cons in Hb as [Hb Hc]. apply Forall_cons in Hc as [Hc Hd]. apply Forall_cons in Hd as [Hd _].
  assert (Hin : In k (Z.of_nat <$> seq 0 32)) by (apply list_elem_of_In, list_elem_of_fmap; exists (Z.to_nat k); split; [lia|apply elem_of_seq; lia]). unfold ntoh32. rewrite !Z.lor_spec, !Z.shiftl_spec by lia.
  cbn in Hin. repeat destruct Hin as [<-|Hin]; try done; unfold addr_bit, nthb; cbn [lookup list_lookup default id from_option]; cbn -[Z.testbit]; rewrite ?(u8_high b), ?(u8_high c), ?(u8_high d), ?Z.testbit_neg_r by (done || lia); by rewrite ?orb_false_r.
Qed.

(** All numbers up to [n], by evaluation. *)
Lemma check_below (P : nat -> bool) n i : forallb P (seq 0 n) = true -> (i < n)%nat -> P i = true.
Proof. intros H Hi. rewrite forallb_forall in H. apply H. apply in_seq. lia. Qed.

Lemma mask4_number p : (p <= 32)%nat -> ntoh32 (hton32 (ones 32 p)) = ones 32 p.
Proof. intros Hp. apply Z.eqb_eq, (check_below (fun p => ntoh32 (hton32 (ones 32 p)) =? ones 32 p) 33); [by vm_compute|lia]. Qed.

Lemma mask4_bits p i : (p <= 32)%nat -> (i < 32)%nat -> addr_bit (ipaddr_ipv4_mask_from_prefix (Z.of_nat p)) i = (i <? p)%nat.
Proof.
  intros Hp Hi. apply eqb_prop. apply (check_below (fun i => Bool.eqb (addr_bit (ipaddr_ipv4_mask_from_prefix (Z.of_nat p)) i) (i <? p)%nat) 32); [|done]. apply (check_below (fun p => forallb (fun i => Bool.eqb (addr_bit (ipaddr_ipv4_mask_from_prefix (Z.of_nat p)) i) (i <? p)%nat) (seq 0 32)) 33); [by vm_compute|lia].
Qed.

Lemma mask4_ones p : ipaddr_ipv4_mask_from_prefix (Z.of_nat p) = hton32 (ones 32 p).
Proof. unfold ipaddr_ipv4_mask_from_prefix. by rewrite Nat2Z.id. Qed.

Lemma prefix4_exact mask p : bytes_ok mask -> length mask = 4%nat -> ipaddr_ipv4_prefix_from_mask mask = Some p <-> exists n, p = Z.of_nat n /\ (n <= 32)%nat /\ mask = ipaddr_ipv4_mask_from_prefix p.
Proof.
  intros Hb Hl. unfold ipaddr_ipv4_prefix_from_mask. rewrite (prefix_loop_exact 32 32 _ 0 p) by lia. split.
  - intros (j & -> & Hj & E). exists j. split; [done|]. split; [lia|]. by rewrite mask4_ones, <- E, hton_ntoh32.
  - intros (j & -> & Hj & ->). exists j. split; [done|]. split; [lia|]. by rewrite mask4_ones, mask4_number.
Qed.

Lemma network4_exact a b p : bytes_ok a -> bytes_ok b -> length a = 4%nat -> length b = 4%nat -> (p <= 32)%nat -> ipaddr_ipv4_addrs_in_network a b (Z.of_nat p) = true <-> forall i, (i < p)%nat -> addr_bit a i = addr_bit b i.
Proof.
  intros Ha Hb Hla Hlb Hp. unfold ipaddr_ipv4_addrs_in_network. rewrite mask4_ones, mask4_number, Z.eqb_eq, land_ones by lia. split.
  - intros H i Hi. specialize (H (31 - Z.of_nat i) ltac:(lia)). rewrite !ntoh32_bits in H by (done || lia). by replace (Z.to_nat (31 - (31 - Z.of_nat i))) with i in H by lia.
  - intros H k Hk. rewrite !ntoh32_bits by (done || lia). apply H. lia.
Qed.

(** ** IPv6 *)

(** The mask byte by byte. *)
Fixpoint mask_bytes (len n : nat) : list Z :=
  match len with 0%nat => [] | S len => if (8 <=? n)%nat then 255 :: mask_bytes len (n - 8) else ones 8 n :: replicate len 0 end.

Lemma mask6_bytes n : (n <= 128)%nat -> ipaddr6_ipv6_mask_from_prefix (Z.of_nat n) = mask_bytes 16 n.
Proof.
  intros Hn. apply bytes_cmp_eq, Z.eqb_eq. apply (check_below (fun n => bytes_cmp (ipaddr6_ipv6_mask_from_prefix (Z.of_nat n)) (mask_bytes 16 n) =? 0) 129); [by vm_compute|lia].
Qed.

Lemma mask6_bits p i : (p <= 128)%nat -> (i < 128)%nat -> addr_bit (ipaddr6_ipv6_mask_from_prefix (Z.of_nat p)) i = (i <? p)%nat.
Proof.
  intros Hp Hi. apply eqb_prop. apply (check_below (fun i => Bool.eqb (addr_bit (ipaddr6_ipv6_mask_from_prefix (Z.of_nat p)) i) (i <? p)%nat) 128); [|done]. apply (check_below (fun p => forallb (fun i => Bool.eqb (addr_bit (ipaddr6_ipv6_mask_from_prefix (Z.of_nat p)) i) (i <? p)%nat) (seq 0 128)) 129); [by vm_compute|lia].
Qed.

Lemma all_zero l : forallb (fun b => b =? 0) l = true <-> l = replicate (length l) 0.
Proof. induction l as [|b l IH]; [done|]. cbn. rewrite andb_true_iff, IH, Z.eqb_eq. split; [intros [-> <-]; done|]. intros [= -> <-]. by split; [|f_equal]. Qed.

Lemma mask_prefix_exact mask : forall start p, mask_prefix mask start = Some p <-> exists n, p = start + Z.of_nat n /\ (n <= 8 * length mask)%nat /\ mask = mask_bytes (length mask) n.
Proof.
  induction mask as [|b mask IH]; intros start p; cbn [mask_prefix length mask_bytes].
  - split; [intros [= <-]; exists 0%nat; split_and!; [lia|lia|done]|]. intros (n & -> & Hn & _). f_equal. lia.
  - destruct (Z.eqb_spec b 255) as [->|Hb].
    + rewrite IH. split.
      * intros (n & -> & Hn & E). exists (n + 8)%nat. split; [lia|]. split; [lia|]. rewrite (proj2 (Nat.leb_le _ _)) by lia. f_equal. by replace (n + 8 - 8)%nat with n by lia.
      * intros (n & -> & Hn & E). destruct (Nat.leb_spec 8 n) as [H8|H8]; [exists (n - 8)%nat; split; [lia|]; split; [lia|]; by injection E|]. exfalso. injection E as E _. change 255 with (ones 8 8) in E. apply ones_inj in E; lia.
    + split.
      * destruct (prefix_loop 8 8 b 0 0) as [j|] eqn:Ej; [|done]. cbn [mbind option_bind]. apply (prefix_loop_exact 8 8 b 0 j) in Ej as (n & -> & Hn & ->); [|lia]. assert (n <> 8%nat) by (by intros ->). destruct (forallb (fun b => b =? 0) mask) eqn:Ez; [|done]. apply all_zero in Ez. intros [= <-]. exists n. split; [done|]. split; [lia|]. rewrite (proj2 (Nat.leb_gt _ _)) by lia. by f_equal.
      * intros (n & -> & Hn & E). destruct (Nat.leb_spec 8 n) as [H8|H8]; [by injection E|]. injection E as -> E. assert (prefix_loop 8 8 (ones 8 n) 0 0 = Some (Z.of_nat n)) as -> by (apply (prefix_loop_exact 8 8 _ 0); [lia|]; exists n; split_and!; [done|lia|lia|done]). cbn [mbind option_bind]. by rewrite (proj2 (all_zero mask) E).
Qed.

Lemma prefix6_exact mask p : length mask = 16%nat -> ipaddr6_ipv6_prefix_from_mask mask = Some p <-> exists n, p = Z.of_nat n /\ (n <= 128)%nat /\ mask = ipaddr6_ipv6_mask_from_prefix p.
Proof.
  intros Hl. unfold ipaddr6_ipv6_prefix_from_mask. rewrite mask_prefix_exact, Hl. split; intros (n & -> & Hn & E); exists n; (split; [lia|]); (split; [lia|]); rewrite ?Z.add_0_l, mask6_bytes in * by lia; done.
Qed.

Lemma network6_exact a b p : bytes_ok a -> bytes_ok b -> length a = 16%nat -> length b = 16%nat -> (p <= 128)%nat -> ipaddr6_ipv6_addrs_in_network a b (Z.of_nat p) = true <-> forall i, (i < p)%nat -> addr_bit a i = addr_bit b i.
Proof.
  intros Ha Hb Hla Hlb Hp. unfold ipaddr6_ipv6_addrs_in_network. change 8 with (Z.of_nat 8). rewrite <- Nat2Z.inj_div, <- Nat2Z.inj_mod, !Nat2Z.id. change (Z.of_nat 8) with 8. pose proof (Nat.div_mod p 8 ltac:(lia)) as Hdm. pose proof (Nat.mod_upper_bound p 8 ltac:(lia)) as Hm. set (q := (p / 8)%nat) in *. set (rem := (p mod 8)%nat) in *.
  pose proof (same_bytes a b q Ha Hb ltac:(lia) ltac:(lia)) as Hsame. rewrite <- bytes_cmp_eq in Hsame. destruct (Z.eqb_spec (bytes_cmp (take q a) (take q b)) 0) as [E|E]; cbn [negb].
  2:{ split; [done|]. intros H. destruct E. apply Hsame. intros i Hi. apply H. lia. }
  assert (Hq := proj1 Hsame E). clear E Hsame. fold (ones 8 rem). destruct (Nat.eqb_spec rem 0) as [Hr|Hr]; [split; [intros _ i Hi; apply Hq; lia|done]|]. rewrite Z.eqb_eq, land_ones by lia. split.
  - intros H i Hi. destruct (Nat.lt_ge_cases i (8 * q)) as [|Hge]; [by apply Hq|]. specialize (H (7 - (Z.of_nat i - 8 * Z.of_nat q)) ltac:(lia)). rewrite !addr_bit_byte in H by lia. by replace (8 * q + Z.to_nat (7 - (7 - (Z.of_nat i - 8 * Z.of_nat q))))%nat with i in H by lia.
  - intros H k Hk. rewrite !addr_bit_byte by lia. apply H. lia.
Qed.

(** Masks, prefixes and networks, of IPv4 and of IPv6, by the bits of the addresses: the mask of a prefix has that many ones and then zeros; a prefix is found exactly for the masks
    that are ones followed by zeros, and it is the number of the ones, so that every mask with a zero before a one is refused; and two addresses share a network exactly when they agree on the bits
    of its prefix, at every length from none to all of them. *)
Theorem ipaddr_networks_exact (a4 b4 a6 b6 : list Z) (n4 n6 : nat) (p : Z) :
  bytes_ok a4 -> bytes_ok b4 -> length a4 = 4%nat -> length b4 = 4%nat -> (n4 <= 32)%nat -> bytes_ok a6 -> bytes_ok b6 -> length a6 = 16%nat -> length b6 = 16%nat -> (n6 <= 128)%nat ->
  ((forall i, (i < 32)%nat -> addr_bit (ipaddr_ipv4_mask_from_prefix (Z.of_nat n4)) i = (i <? n4)%nat) /\
   (ipaddr_ipv4_prefix_from_mask a4 = Some p <-> exists n, p = Z.of_nat n /\ (n <= 32)%nat /\ a4 = ipaddr_ipv4_mask_from_prefix p) /\
   (ipaddr_ipv4_addrs_in_network a4 b4 (Z.of_nat n4) = true <-> forall i, (i < n4)%nat -> addr_bit a4 i = addr_bit b4 i)) /\
  ((forall i, (i < 128)%nat -> addr_bit (ipaddr6_ipv6_mask_from_prefix (Z.of_nat n6)) i = (i <? n6)%nat) /\
   (ipaddr6_ipv6_prefix_from_mask a6 = Some p <-> exists n, p = Z.of_nat n /\ (n <= 128)%nat /\ a6 = ipaddr6_ipv6_mask_from_prefix p) /\
   (ipaddr6_ipv6_addrs_in_network a6 b6 (Z.of_nat n6) = true <-> forall i, (i < n6)%nat -> addr_bit a6 i = addr_bit b6 i)).
Proof.
  intros Ha4 Hb4 La4 Lb4 Hn4 Ha6 Hb6 La6 Lb6 Hn6. split; (split; [intros i; by (apply mask4_bits || apply mask6_bits)|]); split; [by apply prefix4_exact|by apply network4_exact|by apply prefix6_exact|by apply network6_exact].
Qed.

(** 192.168.1.7 and 2001:db8:2000::1. *)
Definition net4 : list Z := [192; 168; 1; 7].
Definition net6 : list Z := [32; 1; 13; 184; 32; 0; 0; 0; 0; 0; 0; 0; 0; 0; 0; 1].

Lemma ipaddr_networks_exact_witness : ipaddr_ipv4_addrs_in_network net4 [192; 168; 1; 200] 24 = true /\ ipaddr_ipv4_addrs_in_network net4 [192; 168; 1; 200] 25 = false /\
  ipaddr6_ipv6_addrs_in_network net6 (take 15 net6 ++ [2]) 126 = true /\ (forall i, (i < 126)%nat -> addr_bit net6 i = addr_bit (take 15 net6 ++ [2]) i).
Proof.
  split; [by vm_compute|]. split; [by vm_compute|]. split; [by vm_compute|].
  apply (ipaddr_networks_exact net4 net4 net6 (take 15 net6 ++ [2]) 24 126 0); try done; try lia; repeat constructor; done.
Defined.
