(* ===== verification/BaddrText.v ===== *)
(** * Addresses with ports in text

    Models the rest of badvpn/system/BAddr.h: IP addresses without a port ([BIPAddr]), the accessors of addresses, and how both are printed, parsed and
    resolved.  The addresses of packet sockets, which the engine never makes, are left out.  A failed assertion and an access outside of an array are [None]; a parser
    that returns 0 gives [Some None].  [getaddrinfo] is a parameter: for a family, whether only numeric hosts are wanted, and a
    host, the bytes of the first address that it finds. *)

From S2P Require Import Prelude Baddr ParseNumber IpAddr.

(** ** Addresses without a port *)

Record BIPAddr := mkBIPAddr { ip_type : Z; ip_bytes : list Z }.

Definition BIPAddr_InitInvalid : BIPAddr := mkBIPAddr BADDR_TYPE_NONE [].
Definition BIPAddr_InitIPv4 (ip : list Z) : BIPAddr := mkBIPAddr BADDR_TYPE_IPV4 ip.
Definition BIPAddr_InitIPv6 (ip : list Z) : BIPAddr := mkBIPAddr BADDR_TYPE_IPV6 ip.

Definition known_type (t : Z) : bool := (t =? BADDR_TYPE_NONE) || (t =? BADDR_TYPE_IPV4) || (t =? BADDR_TYPE_IPV6).
Definition BIPAddr_Assert (addr : BIPAddr) : option unit := if known_type (ip_type addr) then Some tt else None.
Definition BAddr_Assert (addr : BAddr) : option unit := if known_type (addr_type addr) then Some tt else None.

Definition BIPAddr_IsInvalid (addr : BIPAddr) : option bool := _ ← BIPAddr_Assert addr; Some (ip_type addr =? BADDR_TYPE_NONE).
Definition BAddr_IsInvalid (addr : BAddr) : option bool := _ ← BAddr_Assert addr; Some (addr_type addr =? BADDR_TYPE_NONE).

Definition BIPAddr_Compare (addr1 addr2 : BIPAddr) : option bool :=
  _ ← BIPAddr_Assert addr1; _ ← BIPAddr_Assert addr2;
  if negb (ip_type addr1 =? ip_type addr2) then Some false else
  if ip_type addr1 =? BADDR_TYPE_NONE then Some false else Some (bytes_cmp (ip_bytes addr1) (ip_bytes addr2) =? 0).

(** ** Addresses with a port *)

Definition is_ip (t : Z) : bool := (t =? BADDR_TYPE_IPV4) || (t =? BADDR_TYPE_IPV6).

Definition BAddr_InitNone : BAddr := mkBAddr BADDR_TYPE_NONE [] [].

Definition BAddr_InitFromIpaddrAndPort (ipaddr : BIPAddr) (port : list Z) : option BAddr :=
  _ ← BIPAddr_Assert ipaddr;
  if ip_type ipaddr =? BADDR_TYPE_NONE then Some BAddr_InitNone
  else if ip_type ipaddr =? BADDR_TYPE_IPV4 then Some (BAddr_InitIPv4 (ip_bytes ipaddr) port)
  else Some (BAddr_InitIPv6 (ip_bytes ipaddr) port).

Definition BAddr_GetPort (addr : BAddr) : option (list Z) := _ ← BAddr_Assert addr; if is_ip (addr_type addr) then Some (addr_port addr) else None.

Definition BAddr_GetIPAddr (addr : BAddr) : option BIPAddr :=
  _ ← BAddr_Assert addr;
  if addr_type addr =? BADDR_TYPE_IPV4 then Some (BIPAddr_InitIPv4 (addr_ip addr))
  else if addr_type addr =? BADDR_TYPE_IPV6 then Some (BIPAddr_InitIPv6 (addr_ip addr))
  else Some BIPAddr_InitInvalid.

Definition BAddr_SetPort (addr : BAddr) (port : list Z) : option BAddr :=
  _ ← BAddr_Assert addr; if is_ip (addr_type addr) then Some (mkBAddr (addr_type addr) (addr_ip addr) port) else None.

Definition BAddr_Compare (addr1 addr2 : BAddr) : option bool :=
  _ ← BAddr_Assert addr1; _ ← BAddr_Assert addr2;
  if negb (addr_type addr1 =? addr_type addr2) then Some false else
  if is_ip (addr_type addr1) then Some ((bytes_cmp (addr_ip addr1) (addr_ip addr2) =? 0) && (bytes_cmp (addr_port addr1) (addr_port addr2) =? 0)) else Some false.

(** ** Printing *)

Definition BIPADDR_MAX_PRINT_LEN : nat := 40.
Definition BADDR_MAX_PRINT_LEN : nat := 120.

(** "(none)" *)
Definition none_text : list Z := [40; 110; 111; 110; 101; 41].

(** [badvpn_read_be16] at [2 * i] is [block_of]. *)
Definition BIPAddr_Print (addr : BIPAddr) : option (list Z) :=
  if ip_type addr =? BADDR_TYPE_NONE then Some none_text
  else if ip_type addr =? BADDR_TYPE_IPV4 then
    let b i := nthb (ip_bytes addr) i in
    Some (decimal_text (b 0%nat) ++ 46 :: decimal_text (b 1%nat) ++ 46 :: decimal_text (b 2%nat) ++ 46 :: decimal_text (b 3%nat))
  else if ip_type addr =? BADDR_TYPE_IPV6 then
    let x i := hex_text (block_of (ip_bytes addr) i) in
    Some (x 0%nat ++ 58 :: x 1%nat ++ 58 :: x 2%nat ++ 58 :: x 3%nat ++ 58 :: x 4%nat ++ 58 :: x 5%nat ++ 58 :: x 6%nat ++ 58 :: x 7%nat)
  else None.

Definition BAddr_Print (addr : BAddr) : option (list Z) :=
  _ ← BAddr_Assert addr;
  if addr_type addr =? BADDR_TYPE_NONE then Some none_text
  else if addr_type addr =? BADDR_TYPE_IPV4 then t ← BIPAddr_Print (BIPAddr_InitIPv4 (addr_ip addr)); Some (t ++ 58 :: decimal_text (ntoh16 (addr_port addr)))
  else if addr_type addr =? BADDR_TYPE_IPV6 then t ← BIPAddr_Print (BIPAddr_InitIPv6 (addr_ip addr)); Some (t ++ 58 :: decimal_text (ntoh16 (addr_port addr)))
  else None.

(** ** Parsing *)

Definition is_space (c : Z) : bool := (c =? 32) || ((9 <=? c) && (c <=? 13)).
Fixpoint skip_spaces (str : list Z) : list Z := match str with c :: rest => if is_space c then skip_spaces rest else str | [] => [] end.
Fixpoint digits (str : list Z) (n : Z) : Z * list Z :=
  match str with c :: rest => if 0 <=? decode_decimal_digit c then digits rest (10 * n + decode_decimal_digit c) else (n, str) | [] => (n, []) end.

Definition LONG_MAX : Z := 2 ^ 63 - 1.
Definition LONG_MIN : Z := - 2 ^ 63.

(** [strtol (str, &err, 10)]: the number, and what [err] points to. *)
Definition strtol (str : list Z) : Z * list Z :=
  let s := skip_spaces str in
  let '(negative, s) := match s with c :: rest => if c =? 45 then (true, rest) else if c =? 43 then (false, rest) else (false, s) | [] => (false, s) end in
  match s with
  | c :: _ =>
      if 0 <=? decode_decimal_digit c then let '(n, err) := digits s 0 in (Z.min LONG_MAX (Z.max LONG_MIN (if negative : bool then - n else n)), err) else (0, str)
  | [] => (0, str)
  end.

(** The characters before the first [c]. *)
Fixpoint until (c : Z) (str : list Z) : nat := match str with x :: str => if x =? c then 0%nat else S (until c str) | [] => 0%nat end.

(** Where the address and the port are. *)
Record parts := mkParts { p_type : Z; addr_start : nat; addr_len : nat; port_start : nat; port_len : nat }.

Definition split_parts (str : list Z) : option parts :=
  let len := length str in
  if nthb str 0 =? 91 then
    let i := (1 + until 93 (drop 1 str))%nat in
    if (len <=? i)%nat then None else
    if (len <=? i + 1)%nat || negb (nthb str (i + 1) =? 58) then None else
    Some (mkParts BADDR_TYPE_IPV6 1 (i - 1) (i + 2) (len - (i + 2)))
  else
    let i := until 58 str in
    if (len <=? i)%nat then None else Some (mkParts BADDR_TYPE_IPV4 0 i (i + 1) (len - (i + 1))).

(** [memcpy (buf, bs, length bs)] and a terminator. *)
Definition store_string (bs buf : list Z) : option (list Z) := buf ← copy 0 bs buf; put (Z.of_nat (length bs)) 0 buf.

Section resolver.
Context (getaddrinfo : Z -> bool -> list Z -> option (list Z)).

(** [addr_str], [port_str]: the uninitialised arrays; [name]: the buffer of the caller, if any, whose size is [name_len]. *)
Definition BAddr_Parse2 (str addr_str port_str : list Z) (name : option (list Z)) (noresolve : bool) : option (option (BAddr * option (list Z))) :=
  let len := s32 (Z.of_nat (length str)) in
  if (len <? 1) || (1000 <? len) then Some None else
  let str := take (Z.to_nat len) str in
  match split_parts str with
  | None => Some None
  | Some p =>
      if (length addr_str <=? addr_len p)%nat then Some None else
      addr_str ← store_string (slice (addr_start p) (addr_len p) str) addr_str;
      if (length port_str <=? port_len p)%nat then Some None else
      port_str ← store_string (slice (port_start p) (port_len p) str) port_str;
      let '(conv_res, err) := strtol (cstr port_str) in
      if (nthb port_str 0 =? 0) || negb (bool_decide (err = [])) then Some None else
      if (conv_res <? 0) || (65535 <? conv_res) then Some None else
      let port := hton16 (u16 conv_res) in
      match getaddrinfo (p_type p) noresolve (cstr addr_str) with
      | None => Some None
      | Some ip =>
          let addr := mkBAddr (p_type p) ip port in
          match name with
          | None => Some (Some (addr, None))
          | Some name => if (length name <=? length (cstr addr_str))%nat then Some None else name ← store_string (cstr addr_str) name; Some (Some (addr, Some name))
          end
      end
  end.

Definition BAddr_Parse (str addr_str port_str : list Z) (name : option (list Z)) : option (option (BAddr * option (list Z))) := BAddr_Parse2 str addr_str port_str name false.

Definition BADDR_MAX_ADDR_LEN : Z := 128.

(** A negative length is a huge one to [memcpy]. *)
Definition BIPAddr_Resolve (str addr_str : list Z) (noresolve : bool) : option (option BIPAddr) :=
  let len := s32 (Z.of_nat (length str)) in
  let '(type, start, addr_len) := if (1 <=? len) && (nthb str 0 =? 91) && (nthb str (Z.to_nat (len - 1)) =? 93) then (BADDR_TYPE_IPV6, 1%nat, len - 2) else (BADDR_TYPE_IPV4, 0%nat, len) in
  if BADDR_MAX_ADDR_LEN <? addr_len then Some None else
  if addr_len <? 0 then None else
  addr_str ← store_string (slice start (Z.to_nat addr_len) str) addr_str;
  match getaddrinfo type noresolve (cstr addr_str) with None => Some None | Some ip => Some (Some (mkBIPAddr type ip)) end.

End resolver.
