(* ===== verification/BaddrTextSpec.v ===== *)
(** * Addresses with ports in text: theorems *)

From S2P Require Import Prelude Baddr ParseNumber IpAddr IpAddrSpec BaddrText.

(** ** Ports *)

(** A number as [strtol] reads it: after spaces, with an optional sign. *)
Definition number_text (t : list Z) (n : Z) : Prop :=
  exists sp sign ds, t = sp ++ sign ++ ds /\ Forall (fun c => is_space c = true) sp /\ ds <> [] /\ decimal ds /\
    (((sign = [] \/ sign = [43]) /\ n = decimal_value ds) \/ (sign = [45] /\ n = - decimal_value ds)).

Lemma skip_spaces_split t : exists sp, t = sp ++ skip_spaces t /\ Forall (fun c => is_space c = true) sp.
Proof. induction t as [|c t (sp & E & Hsp)]; [exists []; by split; [|constructor]|]. cbn [skip_spaces]. destruct (is_space c) eqn:Ec; [|exists []; by split; [|constructor]]. exists (c :: sp). split; [cbn; by rewrite <- E|by constructor]. Qed.

Lemma skip_spaces_app sp c r : Forall (fun c => is_space c = true) sp -> is_space c = false -> skip_spaces (sp ++ c :: r) = c :: r.
Proof. intros Hsp Hc. induction Hsp as [|x sp Hx Hsp IH]; cbn; [by rewrite Hc|by rewrite Hx]. Qed.

Lemma digits_split s : forall n, exists ds r, s = ds ++ r /\ decimal ds /\ digits s n = (n * 10 ^ Z.of_nat (length ds) + decimal_value ds, r) /\ (r = [] \/ ds <> s).
Proof.
  induction s as [|c s IH]; intros n; [exists [], []; split_and!; [done|constructor|cbn; f_equal; lia|by left]|]. cbn [digits]. destruct (Z.leb_spec 0 (decode_decimal_digit c)) as [Hc|Hc]; [|exists [], (c :: s); split_and!; [done|constructor|cbn; f_equal; lia|by right]].
  destruct (IH (10 * n + decode_decimal_digit c)) as (ds & r & -> & Hd & -> & Hr). exists (c :: ds), r. split; [done|]. split; [by constructor|]. split; [|destruct Hr as [|Hr]; [by left|right; congruence]]. f_equal. unfold decimal_value. rewrite value_cons by lia. cbn [length]. rewrite Nat2Z.inj_succ, Z.pow_succ_r by lia. ring.
Qed.

Lemma digits_all ds : forall n, decimal ds -> digits ds n = (n * 10 ^ Z.of_nat (length ds) + decimal_value ds, []).
Proof.
  induction ds as [|c ds IH]; intros n Hd; [cbn; f_equal; lia|]. apply Forall_cons in Hd as [Hc Hd]. cbn [digits]. rewrite (proj2 (Z.leb_le _ _)) by done. rewrite IH by done. f_equal. unfold decimal_value. rewrite value_cons by lia. cbn [length]. rewrite Nat2Z.inj_succ, Z.pow_succ_r by lia. ring.
Qed.

Lemma short_value ds : decimal ds -> (length ds <= 5)%nat -> 0 <= decimal_value ds < 100000.
Proof. intros Hd Hl. pose proof (value_bound 10 _ ltac:(lia) decimal_digit_bound ds Hd) as Hv. assert (10 ^ Z.of_nat (length ds) <= 10 ^ 5) by (apply Z.pow_le_mono_r; lia). unfold decimal_value. lia. Qed.

Lemma clamp_id n : - 100000 < n < 100000 -> Z.min LONG_MAX (Z.max LONG_MIN n) = n.
Proof. unfold LONG_MAX, LONG_MIN. lia. Qed.

Lemma decimal_not_space c : 0 <= decode_decimal_digit c -> is_space c = false /\ c <> 43 /\ c <> 45.
Proof. rewrite decimal_digit_spec. intros H. unfold is_space. destruct (Z.eqb_spec c 32), (Z.leb_spec 9 c), (Z.leb_spec c 13); cbn; (split; [|split]); try done; lia. Qed.

(** Up to the width of a port, which keeps the number away from the limits of [long]. *)
Lemma strtol_exact t n : (length t <= 5)%nat -> t <> [] -> strtol t = (n, []) <-> number_text t n.
Proof.
  intros Hl Hne. split.
  - unfold strtol. destruct (skip_spaces_split t) as (sp & E & Hsp). set (s := skip_spaces t) in *. clearbody s. subst t. rewrite length_app in Hl.
    assert (Hgo : forall (negative : bool) u sign, s = sign ++ u -> (if negative then sign = [45] else sign = [] \/ sign = [43]) ->
      (match u with c :: _ => if 0 <=? decode_decimal_digit c then let '(n, err) := digits u 0 in (Z.min LONG_MAX (Z.max LONG_MIN (if negative then - n else n)), err) else (0, sp ++ s) | [] => (0, sp ++ s) end) = (n, []) -> number_text (sp ++ s) n).
    { intros negative u sign -> Hsign. destruct u as [|c u]; [by intros [= _ ?]|]. destruct (Z.leb_spec 0 (decode_decimal_digit c)) as [Hc|Hc]; [|by intros [= _ ?]]. destruct (digits_split (c :: u) 0) as (ds & r & E & Hd & -> & Hr). intros [= <- ->]. rewrite app_nil_r in E. subst ds. rewrite length_app in Hl. pose proof (short_value (c :: u) Hd ltac:(lia)) as Hv.
      rewrite Z.mul_0_l, Z.add_0_l. exists sp, sign, (c :: u). split_and!; try done. destruct negative; [right|left]; (split; [done|]); rewrite clamp_id; lia. }
    destruct s as [|c s]; [by apply (Hgo false [] []); [|left]|]. destruct (Z.eqb_spec c 45) as [->|H45]; [by apply (Hgo true s [45])|]. destruct (Z.eqb_spec c 43) as [->|H43]; [by apply (Hgo false s [43]); [|right]|]. by apply (Hgo false (c :: s) []); [|left].
  - intros (sp & sign & ds & -> & Hsp & Hds & Hd & Hn). destruct ds as [|c ds]; [done|]. pose proof Hd as [Hc _]%Forall_cons. destruct (decimal_not_space c Hc) as (Hc0 & Hc1 & Hc2). rewrite !length_app in Hl. pose proof (short_value (c :: ds) Hd ltac:(lia)) as Hv. pose proof (digits_all (c :: ds) 0 Hd) as Ed. rewrite Z.mul_0_l, Z.add_0_l in Ed. unfold strtol.
    destruct Hn as [[[-> | ->] ->]|[-> ->]]; cbn [app]; rewrite skip_spaces_app by done; cbn [Z.eqb Pos.eqb]; rewrite ?(proj2 (Z.eqb_neq c 45)), ?(proj2 (Z.eqb_neq c 43)), (proj2 (Z.leb_le 0 _)), Ed by done; rewrite clamp_id by lia; done.
Qed.

(** ** Parts *)

(** An IPv6 host is in brackets; otherwise the port is after the first colon. *)
Definition splits (str : list Z) (type : Z) (host port : list Z) : Prop :=
  (type = BADDR_TYPE_IPV6 /\ str = 91 :: host ++ 93 :: 58 :: port /\ Forall (fun c => c <> 93) host) \/
  (type = BADDR_TYPE_IPV4 /\ str = host ++ 58 :: port /\ Forall (fun c => c <> 58) host /\ nthb str 0 <> 91).

Lemma until_spec c str : (until c str <= length str)%nat /\ Forall (fun x => x <> c) (take (until c str) str) /\ ((until c str < length str)%nat -> str = take (until c str) str ++ c :: drop (S (until c str)) str).
Proof.
  induction str as [|x str (H1 & H2 & H3)]; [split_and!; [done|constructor|cbn; lia]|]. cbn [until]. destruct (Z.eqb_spec x c) as [->|Hx]; [split_and!; [lia|constructor|done]|]. cbn. split_and!; [lia|by constructor|]. intros Hlt. f_equal. apply H3. lia.
Qed.

Lemma until_app c a r : Forall (fun x => x <> c) a -> until c (a ++ c :: r) = length a.
Proof. induction 1 as [|x a Hx Ha IH]; cbn; [by rewrite Z.eqb_refl|]. by rewrite (proj2 (Z.eqb_neq x c)), IH. Qed.

Lemma nthb_app_l (a r : list Z) i : (i < length a)%nat -> nthb (a ++ r) i = nthb a i.
Proof. intros Hi. unfold nthb. by rewrite lookup_app_l. Qed.

Lemma split_parts_some str type host port : splits str type host port ->
  exists p, split_parts str = Some p /\ p_type p = type /\ slice (addr_start p) (addr_len p) str = host /\ addr_len p = length host /\ slice (port_start p) (port_len p) str = port /\ port_len p = length port.
Proof.
  unfold split_parts, slice. intros [(-> & -> & Hh)|(-> & -> & Hh & Hb)].
  - cbn [nthb lookup list_lookup default from_option]. change (nthb (91 :: host ++ 93 :: 58 :: port) 0 =? 91) with true. cbn [drop]. rewrite drop_0, until_app by done. cbn [length]. rewrite length_app. cbn [length].
    rewrite (proj2 (Nat.leb_gt _ _)) by lia. rewrite (proj2 (Nat.leb_gt _ _)) by lia. cbn [orb]. assert (nthb (91 :: host ++ 93 :: 58 :: port) (1 + length host + 1) = 58) as -> by (replace (1 + length host + 1)%nat with (S (length host + 1)) by lia; rewrite nthb_cons_S; by rewrite (nthb_app_r (length host) host _ 1)).
    change (negb (58 =? 58)) with false. cbv iota. eexists. split; [done|]. cbn [p_type addr_start addr_len port_start port_len]. split; [done|]. replace (1 + length host - 1)%nat with (length host) by lia. split; [cbn [drop]; rewrite drop_0; by rewrite take_app_length|]. split; [done|].
    replace (S (length host + S (S (length port))) - (1 + length host + 2))%nat with (length port) by lia. split; [|done]. replace (1 + length host + 2)%nat with (S (length host + 2)) by lia. cbn [drop]. rewrite drop_app_add. cbn [drop]. rewrite drop_0. by rewrite take_ge.
  - rewrite (proj2 (Z.eqb_neq _ _)) by done. rewrite until_app, length_app by done. cbn [length]. rewrite (proj2 (Nat.leb_gt _ _)) by lia. eexists. split; [done|]. cbn [p_type addr_start addr_len port_start port_len]. split; [done|]. split; [by rewrite drop_0, take_app_length|]. split; [done|].
    replace (length host + S (length port) - (length host + 1))%nat with (length port) by lia. split; [|done]. rewrite drop_app_add. cbn [drop]. rewrite drop_0. by rewrite take_ge.
Qed.

Lemma split_parts_inv str p : str <> [] -> split_parts str = Some p -> exists type host port, splits str type host port.
Proof.
  intros Hne. unfold split_parts. destruct (Z.eqb_spec (nthb str 0) 91) as [E|E].
  - destruct str as [|c str]; [done|]. cbn in E. change (nthb (c :: str) 0) with c in E. subst c. cbn [drop length]. rewrite drop_0. destruct (until_spec 93 str) as (H1 & H2 & H3). destruct (Nat.leb_spec (S (length str)) (1 + until 93 str)); [done|]. destruct (Nat.leb_spec (S (length str)) (1 + until 93 str + 1)) as [|Hlt]; [done|]. cbn [orb]. specialize (H3 ltac:(lia)).
    destruct (Z.eqb_spec (nthb (91 :: str) (1 + until 93 str + 1)) 58) as [Ec|]; [|done]. intros _. replace (1 + until 93 str + 1)%nat with (S (until 93 str + 1)) in Ec by lia. rewrite nthb_cons_S in Ec. exists BADDR_TYPE_IPV6, (take (until 93 str) str), (drop (S (S (until 93 str))) str). left. split; [done|]. split; [|done]. f_equal. rewrite H3 at 1. f_equal. f_equal.
    unfold nthb in Ec. replace (until 93 str + 1)%nat with (S (until 93 str)) in Ec by lia. destruct (str !! S (until 93 str)) as [d|] eqn:Ed; [|done]. cbn in Ec. subst d. by rewrite (drop_S _ _ _ Ed).
  - destruct (until_spec 58 str) as (H1 & H2 & H3). destruct (Nat.leb_spec (length str) (until 58 str)) as [|Hlt]; [done|]. intros _. exists BADDR_TYPE_IPV4, (take (until 58 str) str), (drop (S (until 58 str)) str). right. by split_and!; [|apply H3| |].
Qed.

(** ** Parsing *)

Lemma store_string_ok bs buf : (length bs < length buf)%nat -> store_string bs buf = Some (bs ++ 0 :: drop (S (length bs)) buf).
Proof.
  intros Hl. unfold store_string, copy. cbn [Z.leb Z.compare andb]. rewrite (proj2 (Z.leb_le _ _)) by lia. cbn [mbind option_bind]. change (splice (Z.to_nat 0) bs buf) with (bs ++ drop (length bs) buf). destruct (lookup_lt_is_Some_2 buf (length bs) Hl) as [x Hx]. rewrite (drop_S _ _ _ Hx). by rewrite put_middle.
Qed.

(** The name that is handed to the caller. *)
Definition name_copied (host : list Z) (name name' : option (list Z)) : Prop :=
  match name with None => name' = None | Some buf => (length host < length buf)%nat /\ name' = Some (host ++ 0 :: drop (S (length host)) buf) end.

Section parsing.
Context (getaddrinfo : Z -> bool -> list Z -> option (list Z)).

(** What [BAddr_Parse2] accepts, and what it gives. *)
Definition resolves (noresolve : bool) (str : list Z) (name : option (list Z)) (a : BAddr) (name' : option (list Z)) : Prop :=
  exists type host port p ip, splits str type host port /\ (length str <= 1000)%nat /\ (length host < 128)%nat /\ (length port < 6)%nat /\ number_text port p /\ 0 <= p < 65536 /\
    getaddrinfo type noresolve host = Some ip /\ a = mkBAddr type ip (hton16 p) /\ name_copied host name name'.

Lemma splits_nonempty str type host port : splits str type host port -> str <> [].
Proof. intros [(_ & -> & _)|(_ & -> & _)]; [done|]. by destruct host. Qed.

Lemma splits_unique str type host port type' host' port' : splits str type host port -> splits str type' host' port' -> type = type' /\ host = host' /\ port = port'.
Proof. intros (p & E & <- & <- & _ & <- & _)%split_parts_some (p' & E' & <- & <- & _ & <- & _)%split_parts_some. rewrite E in E'. by injection E' as <-. Qed.

Lemma splits_cstring str type host port : splits str type host port -> cstring str -> cstring host /\ cstring port.
Proof.
  intros [(_ & -> & _)|(_ & -> & _)] H.
  - apply Forall_cons in H as [_ H]. apply Forall_app in H as [Hh H]. by do 2 apply Forall_cons in H as [_ H].
  - apply Forall_app in H as [Hh H]. by apply Forall_cons in H as [_ H].
Qed.

Lemma number_nonempty t n : number_text t n -> t <> [].
Proof. intros (sp & sign & ds & -> & _ & Hds & _) E. apply app_eq_nil in E as [_ [_ E]%app_eq_nil]. done. Qed.

Lemma baddr_parse_ok str addr_str port_str name noresolve : cstring str -> Z.of_nat (length str) < 2 ^ 31 -> length addr_str = 128%nat -> length port_str = 6%nat ->
  exists r, BAddr_Parse2 getaddrinfo str addr_str port_str name noresolve = Some r /\ forall a name', r = Some (a, name') <-> resolves noresolve str name a name'.
Proof.
  intros Hc Hl Ha Hp. unfold BAddr_Parse2. assert (s32 (Z.of_nat (length str)) = Z.of_nat (length str)) as -> by (unfold s32; rewrite Z.mod_small; lia).
  assert (Hrej : (forall a name', ~ resolves noresolve str name a name') -> exists r, Some None = Some r /\ forall a name', r = Some (a, name') <-> resolves noresolve str name a name') by (intros H; exists None; split; [done|]; intros a name'; split; [done|]; intros Hr; by apply H in Hr).
  destruct (Z.ltb_spec (Z.of_nat (length str)) 1) as [H1|H1]; cbn [orb]; [apply Hrej; intros a name' (? & ? & ? & ? & ? & Hs & _); apply splits_nonempty in Hs; destruct str; [done|cbn in H1; lia]|].
  destruct (Z.ltb_spec 1000 (Z.of_nat (length str))) as [H2|H2]; [apply Hrej; intros a name' (? & ? & ? & ? & ? & _ & ? & _); lia|]. rewrite Nat2Z.id, firstn_all. destruct (split_parts str) as [p|] eqn:Es.
  2:{ apply Hrej. intros a name' (type & host & port & ? & ? & Hs & _). apply split_parts_some in Hs as (p & E & _). by rewrite E in Es. }
  destruct (split_parts_inv str p) as (type & host & port & Hs); [by destruct str|done|]. pose proof Hs as (p' & Es' & Et & Eh & Lh & Ep & Lp)%split_parts_some. rewrite Es in Es'. injection Es' as <-. destruct (splits_cstring _ _ _ _ Hs Hc) as [Hch Hcp]. rewrite Eh, Ep, Lh, Lp, Et, Ha, Hp.
  assert (Hrej' : (forall n ip name', (length host < 128)%nat -> (length port < 6)%nat -> number_text port n -> 0 <= n < 65536 -> getaddrinfo type noresolve host = Some ip -> name_copied host name name' -> False) -> exists r, Some None = Some r /\ forall a name', r = Some (a, name') <-> resolves noresolve str name a name').
  { intros H. apply Hrej. intros a name' (type' & host' & port' & n & ip & Hs' & _ & H3 & H4 & H5 & H6 & H7 & _ & H8). destruct (splits_unique _ _ _ _ _ _ _ Hs Hs') as (<- & <- & <-). by apply (H n ip name'). }
  destruct (Nat.leb_spec 128 (length host)) as [|Hlh]; [apply Hrej'; intros; lia|]. rewrite (store_string_ok host) by lia. cbn [mbind option_bind]. destruct (Nat.leb_spec 6 (length port)) as [|Hlp]; [apply Hrej'; intros; lia|]. rewrite store_string_ok by lia. cbn [mbind option_bind]. rewrite !cstr_of_cstring by done.
  destruct port as [|c port].
  { destruct (strtol []) as [n err]. apply Hrej'. intros n' ? ? _ _ Hn. by apply number_nonempty in Hn. }
  pose proof (strtol_exact (c :: port)) as Hstr. destruct (strtol (c :: port)) as [n err] eqn:En. change (nthb ((c :: port) ++ 0 :: drop (S (length (c :: port))) port_str) 0) with c. assert (c <> 0) by (apply Forall_cons in Hcp as [? _]; lia). rewrite (proj2 (Z.eqb_neq c 0)) by done. cbn [orb].
  case_bool_decide as Herr; cbn [negb]. 2:{ apply Hrej'. intros n' ? ? _ Hlen Hn. apply Hstr in Hn; [|lia|done]. injection Hn as _ Hn. done. }
  subst err. assert (Hn : number_text (c :: port) n) by (apply Hstr; [lia|done|done]). assert (Huniq : forall n', number_text (c :: port) n' -> n' = n) by (intros n' Hn'; apply Hstr in Hn'; [by injection Hn'|lia|done]).
  destruct (Z.ltb_spec n 0) as [H0|H0]; cbn [orb]; [apply Hrej'; intros n' ? ? _ _ Hn'%Huniq ? _ _; lia|]. destruct (Z.ltb_spec 65535 n) as [H3|H3]; [apply Hrej'; intros n' ? ? _ _ Hn'%Huniq ? _ _; lia|]. rewrite (u16_id n) by (unfold is_u16; lia).
  destruct (getaddrinfo type noresolve host) as [ip|] eqn:Eg; [|apply Hrej'; congruence].
  assert (Hacc : forall nm, name_copied host name nm -> (forall nm', name_copied host name nm' -> nm' = nm) -> exists r, Some (Some (mkBAddr type ip (hton16 n), nm)) = Some r /\ forall a name', r = Some (a, name') <-> resolves noresolve str name a name').
  { intros nm Hnm Hu. eexists. split; [done|]. intros a name'. split.
    - intros [= <- <-]. exists type, host, (c :: port), n, ip. split_and!; try done; lia.
    - intros (type' & host' & port' & n' & ip' & Hs' & _ & _ & _ & Hn' & _ & Hg & -> & Hnm'). destruct (splits_unique _ _ _ _ _ _ _ Hs Hs') as (<- & <- & <-). rewrite (Huniq _ Hn'), (Hu _ Hnm'). rewrite Hg in Eg. by injection Eg as ->. }
  destruct name as [buf|]; [|by apply Hacc]. destruct (Nat.leb_spec (length buf) (length host)) as [|Hlb]; [apply Hrej'; intros ? ? ? _ _ _ _ _ [? _]; lia|]. rewrite store_string_ok by done. cbn [mbind option_bind]. apply Hacc; [done|]. by intros ? [_ ->].
Qed.

(** The brackets of an IPv6 host. *)
Definition bracketed (str : list Z) (type : Z) (host : list Z) : Prop :=
  (type = BADDR_TYPE_IPV6 /\ str = 91 :: host ++ [93]) \/ (type = BADDR_TYPE_IPV4 /\ str = host /\ ~ exists h, str = 91 :: h ++ [93]).

Lemma resolve_ok str addr_str noresolve : cstring str -> Z.of_nat (length str) < 2 ^ 31 -> length addr_str = 129%nat ->
  exists r, BIPAddr_Resolve getaddrinfo str addr_str noresolve = Some r /\ forall a, r = Some a <-> exists type host ip, bracketed str type host /\ (length host <= 128)%nat /\ getaddrinfo type noresolve host = Some ip /\ a = mkBIPAddr type ip.
Proof.
  intros Hc Hl Ha. unfold BIPAddr_Resolve. assert (s32 (Z.of_nat (length str)) = Z.of_nat (length str)) as -> by (unfold s32; rewrite Z.mod_small; lia).
  assert (Hgo : forall type start host, bracketed str type host -> (forall type' host', bracketed str type' host' -> type' = type /\ host' = host) -> slice start (length host) str = host -> cstring host ->
    exists r, (if BADDR_MAX_ADDR_LEN <? Z.of_nat (length host) then Some None else if Z.of_nat (length host) <? 0 then None else addr_str ← store_string (slice start (Z.to_nat (Z.of_nat (length host))) str) addr_str; match getaddrinfo type noresolve (cstr addr_str) with None => Some None | Some ip => Some (Some (mkBIPAddr type ip)) end) = Some r /\
      forall a, r = Some a <-> exists type host ip, bracketed str type host /\ (length host <= 128)%nat /\ getaddrinfo type noresolve host = Some ip /\ a = mkBIPAddr type ip).
  { intros type start host Hb Hu Es Hch. unfold BADDR_MAX_ADDR_LEN. destruct (Z.ltb_spec 128 (Z.of_nat (length host))) as [Hgt|Hle]; [exists None; split; [done|]; intros a; split; [done|]; intros (t' & h' & ip & [-> ->]%Hu & Hlen & _); lia|].
    destruct (Z.ltb_spec (Z.of_nat (length host)) 0); [lia|]. rewrite Nat2Z.id, Es, store_string_ok by lia. cbn [mbind option_bind]. rewrite cstr_of_cstring by done. destruct (getaddrinfo type noresolve host) as [ip|] eqn:Eg; eexists; (split; [done|]); intros a; split.
    - intros [= <-]. exists type, host, ip. by split_and!; [|lia| |].
    - intros (t' & h' & ip' & [-> ->]%Hu & _ & E & ->). congruence.
    - done.
    - intros (t' & h' & ip' & [-> ->]%Hu & _ & E & ->). congruence. }
  destruct ((1 <=? Z.of_nat (length str)) && (nthb str 0 =? 91) && (nthb str (Z.to_nat (Z.of_nat (length str) - 1)) =? 93)) eqn:E.
  - apply andb_true_iff in E as [[E1 E2]%andb_true_iff E3]. apply Z.leb_le in E1. apply Z.eqb_eq in E2, E3. destruct str as [|c str]; [cbn in E1; lia|]. change (nthb (c :: str) 0) with c in E2. subst c. destruct str as [|c host _] using rev_ind; [done|]. replace (Z.to_nat (Z.of_nat (length (91 :: host ++ [c])) - 1)) with (S (length host + 0)) in E3 by (cbn [length]; rewrite length_app; cbn; lia). rewrite nthb_cons_S, (nthb_app_r (length host) host [c] 0) in E3 by done. change (nthb [c] 0) with c in E3. subst c.
    replace (Z.of_nat (length (91 :: host ++ [93])) - 2) with (Z.of_nat (length host)) by (cbn [length]; rewrite length_app; cbn; lia). apply Hgo.
    + by left.
    + intros t' h' [[-> E]|(_ & _ & Hn)]; [injection E as E; apply app_inj_tail in E as [-> _]; done|]. destruct Hn. by exists host.
    + unfold slice. cbn [drop]. by rewrite drop_0, take_app_length.
    + apply Forall_cons in Hc as [_ Hc]. by apply Forall_app in Hc as [Hc _].
  - assert (Hn : ~ exists h, str = 91 :: h ++ [93]).
    { intros (h & ->). apply andb_false_iff in E as [E|E]; [apply andb_false_iff in E as [E|E]; [apply Z.leb_gt in E; cbn [length] in E; lia|done]|]. replace (Z.to_nat (Z.of_nat (length (91 :: h ++ [93])) - 1)) with (S (length h + 0)) in E by (cbn [length]; rewrite length_app; cbn; lia). rewrite nthb_cons_S, (nthb_app_r (length h) h [93] 0) in E by done. done. }
    apply Hgo; [by right| |by unfold slice; rewrite drop_0, take_ge|done]. intros t' h' [[-> ->]|(-> & -> & _)]; [destruct Hn; by exists h'|done].
Qed.

End parsing.

(** C27. On every string of less than 2 GiB (the length is kept in an [int]), [BAddr_Parse2] and [BIPAddr_Resolve] stay inside of their arrays and of the buffer for the name, and they accept exactly these
    formats, of at most 1000 characters: an IPv6 host in brackets or another host up to the first colon, of at most 127 characters, and a port of at most five characters that [strtol] reads as a number
    of 16 bits, which may start with blanks and a sign ([BaddrTextExample.signed_port_accepted]); the result has the address that the resolver gives for that host and family, the port in network order,
    and the host as its name, if a name was asked for and fits.  [BIPAddr_Resolve] takes the same hosts without a port, of at most 128 characters. *)
Theorem baddr_parse_exact (getaddrinfo : Z -> bool -> list Z -> option (list Z)) (str addr_str port_str addr_str' : list Z) (name : option (list Z)) (noresolve : bool) :
  cstring str -> Z.of_nat (length str) < 2 ^ 31 -> length addr_str = 128%nat -> length port_str = 6%nat -> length addr_str' = 129%nat ->
  (exists r, BAddr_Parse2 getaddrinfo str addr_str port_str name noresolve = Some r /\ forall a name', r = Some (a, name') <-> resolves getaddrinfo noresolve str name a name') /\
  (exists r, BIPAddr_Resolve getaddrinfo str addr_str' noresolve = Some r /\
    forall a, r = Some a <-> exists type host ip, bracketed str type host /\ (length host <= 128)%nat /\ getaddrinfo type noresolve host = Some ip /\ a = mkBIPAddr type ip).
Proof. intros. split; [by apply baddr_parse_ok|by apply resolve_ok]. Qed.

(** ** Printing *)

Lemma hex_char c : 0 <= decode_hex_digit c -> 48 <= c <= 57 \/ 65 <= c <= 70 \/ 97 <= c <= 102.
Proof. unfold decode_hex_digit. repeat case_test; rewrite ?andb_true_iff, ?Z.leb_le in *; lia. Qed.

Lemma hexadecimal_cstring t : hexadecimal t -> cstring t.
Proof. intros H. eapply Forall_impl; [exact H|]. intros c Hc%hex_char. lia. Qed.

Lemma hexadecimal_avoid c t : decode_hex_digit c < 0 -> hexadecimal t -> Forall (fun x => x <> c) t.
Proof. intros Hc H. eapply Forall_impl; [exact H|]. intros x Hx ->. lia. Qed.

(** The characters of an IPv6 address, and of an IPv4 address. *)
Lemma join_chars (P : Z -> Prop) l : hexes l -> (forall c, 0 <= decode_hex_digit c -> P c) -> P 58 -> Forall P (join l).
Proof.
  intros Hl Hh Hc. induction Hl as [|x l (t & -> & _ & Ht & _) Hl IH]; [constructor|]. assert (Hp : Forall P t) by (eapply Forall_impl; [exact Ht|done]). destruct l as [|y l]; [done|]. change (join (Hex t :: y :: l)) with (t ++ 58 :: join (y :: l)). apply Forall_app. split; [done|]. by constructor.
Qed.

Lemma dots_chars (P : Z -> Prop) ts : Forall octet_text ts -> (forall c, 0 <= decode_decimal_digit c -> P c) -> P 46 -> Forall P (dots ts).
Proof.
  intros Hts Hh Hc. induction Hts as [|t ts (_ & Ht & _) Hts IH]; [constructor|]. rewrite quad_dots_cons. apply Forall_app. split; [eapply Forall_impl; [exact Ht|done]|]. destruct ts; [constructor|by constructor].
Qed.

Lemma print_type4 ip : BIPAddr_Print (BIPAddr_InitIPv4 ip) = Some (ipaddr_print_addr ip).
Proof. done. Qed.

Lemma print_type6 ip : BIPAddr_Print (BIPAddr_InitIPv6 ip) = Some (join (hex_item ip <$> seq 0 8)).
Proof. done. Qed.

Lemma join_length ip ks : bytes_ok ip -> (length (join (hex_item ip <$> ks)) <= 5 * length ks - 1)%nat.
Proof.
  intros Hb. induction ks as [|k ks IH]; [done|]. destruct (block_text ip k Hb) as (_ & Hl & _). destruct ks as [|k' ks]; [exact Hl|]. rewrite fmap_cons, join_item by done. rewrite length_app. cbn [length] in *. lia.
Qed.

Lemma full_denotes ip : bytes_ok ip -> length ip = 16%nat -> denotes (join (hex_item ip <$> seq 0 8)) ip.
Proof. intros Hb Hl. left. exists (hex_item ip <$> seq 0 8). destruct (hex_items_ok ip (seq 0 8) Hb) as [Hok E]. split; [by apply hexes_ok|]. by rewrite E, pairs_all. Qed.

Lemma decimal_number t : t <> [] -> decimal t -> number_text t (decimal_value t).
Proof. intros Hne Hd. exists [], [], t. split_and!; [done|constructor|done|done|]. left. by split; [left|]. Qed.

(** A port that is printed. *)
Lemma port_printed port : bytes_ok port -> length port = 2%nat -> let t := decimal_text (ntoh16 port) in number_text t (ntoh16 port) /\ (length t < 6)%nat /\ cstring t /\ 0 <= ntoh16 port < 65536 /\ hton16 (ntoh16 port) = port.
Proof.
  intros Hb Hl. destruct port as [|a [|b [|]]]; try done. apply Forall_cons in Hb as [Ha Hb]. apply Forall_cons in Hb as [Hb _]. cbn zeta. assert (Hr : 0 <= ntoh16 [a; b] < 65536) by (rewrite ntoh16_val by done; unfold is_u8 in *; lia). destruct (decimal_text_ok (ntoh16 [a; b]) ltac:(lia)) as (H1 & H2 & H3 & _).
  split; [rewrite <- H2 at 2; by apply decimal_number|]. split; [pose proof (decimal_text_length 5 (ntoh16 [a; b]) ltac:(lia) ltac:(lia)); lia|]. split; [by apply hexadecimal_cstring, decimal_hexadecimal|]. split; [done|by apply hton16_ntoh16].
Qed.

Section printed.
Context (getaddrinfo : Z -> bool -> list Z -> option (list Z)) (noresolve : bool) (addr_str port_str : list Z).
Context (Haddr : length addr_str = 128%nat) (Hport : length port_str = 6%nat).

(** A host and a printed port. *)
Lemma parse_host str type host ip port : splits str type host (decimal_text (ntoh16 port)) -> bytes_ok port -> length port = 2%nat -> cstring str -> (length str <= 1000)%nat -> (length host < 128)%nat ->
  getaddrinfo type noresolve host = Some ip -> BAddr_Parse2 getaddrinfo str addr_str port_str None noresolve = Some (Some (mkBAddr type ip port, None)).
Proof.
  intros Hs Hb Hl Hc Hls Hlh Hg. destruct (port_printed port Hb Hl) as (Hn & Hlp & _ & Hr & Ep). destruct (baddr_parse_ok getaddrinfo str addr_str port_str None noresolve Hc ltac:(lia) Haddr Hport) as (r & -> & Hres). f_equal. apply Hres. exists type, host, (decimal_text (ntoh16 port)), (ntoh16 port), ip. rewrite Ep. by split_and!; try lia.
Qed.

Lemma print4_parses ip port : bytes_ok ip -> length ip = 4%nat -> bytes_ok port -> length port = 2%nat -> getaddrinfo BADDR_TYPE_IPV4 noresolve (ipaddr_print_addr ip) = Some ip ->
  exists t, BAddr_Print (BAddr_InitIPv4 ip port) = Some t /\ (length t < BADDR_MAX_PRINT_LEN)%nat /\ BAddr_Parse2 getaddrinfo t addr_str port_str None noresolve = Some (Some (BAddr_InitIPv4 ip port, None)).
Proof.
  intros Hb Hl Hbp Hlp Hg. exists (ipaddr_print_addr ip ++ 58 :: decimal_text (ntoh16 port)). split; [done|]. destruct (port_printed port Hbp Hlp) as (_ & Hlt & Hcp & _). destruct (print4_denotes ip Hb Hl) as [(ts & Hlen & Hts & E & _) Hl4]. unfold BADDR_MAX_PRINT_LEN. rewrite length_app. cbn [length]. split; [lia|].
  assert (Hchars : forall P : Z -> Prop, (forall c, 0 <= decode_decimal_digit c -> P c) -> P 46 -> Forall P (ipaddr_print_addr ip)) by (intros P HP Hdot; rewrite E; by apply dots_chars). apply (parse_host _ _ (ipaddr_print_addr ip)); try done; [|apply Forall_app; split; [|by constructor]|rewrite length_app; cbn [length]; lia|lia].
  - right. split; [done|]. split; [done|]. split; [by apply Hchars; [intros c Hc ->|]|]. assert (Hh : Forall (fun c => c <> 91) (ipaddr_print_addr ip)) by (by apply Hchars; [intros c Hc ->|]). destruct (ipaddr_print_addr ip) as [|c u]; [done|]. by apply Forall_cons in Hh as [? _].
  - apply Hchars; [|lia]. intros c Hc%decimal_digit_spec. lia.
Qed.

Lemma print6_parses ip port u : bytes_ok ip -> length ip = 16%nat -> bytes_ok port -> length port = 2%nat -> u = join (hex_item ip <$> seq 0 8) -> getaddrinfo BADDR_TYPE_IPV6 noresolve u = Some ip ->
  BAddr_Parse2 getaddrinfo (91 :: u ++ 93 :: 58 :: decimal_text (ntoh16 port)) addr_str port_str None noresolve = Some (Some (BAddr_InitIPv6 ip port, None)).
Proof.
  intros Hb Hl Hbp Hlp -> Hg. destruct (port_printed port Hbp Hlp) as (_ & Hlt & Hcp & _). destruct (hex_items_ok ip (seq 0 8) Hb) as [Hok _]. pose proof (join_length ip (seq 0 8) Hb) as Hlen. rewrite length_seq in Hlen. apply (parse_host _ _ (join (hex_item ip <$> seq 0 8))); try done.
  - left. split; [done|]. split; [done|]. by apply join_chars; [|intros c Hc ->|].
  - constructor; [lia|]. apply Forall_app. split; [apply join_chars; [done| |lia]; intros c Hc%hex_char; lia|]. do 2 (constructor; [lia|]). done.
  - cbn [length]. rewrite length_app. cbn [length]. lia.
  - lia.
Qed.

(** The colons of a printed IPv6 address are taken for that of a port. *)
Lemma print6_refused ip port : bytes_ok ip -> length ip = 16%nat -> bytes_ok port -> length port = 2%nat ->
  BAddr_Parse2 getaddrinfo (join (hex_item ip <$> seq 0 8) ++ 58 :: decimal_text (ntoh16 port)) addr_str port_str None noresolve = Some None.
Proof.
  intros Hb Hl Hbp Hlp. destruct (port_printed port Hbp Hlp) as (_ & Hlt & Hcp & _). destruct (hex_items_ok ip (seq 0 8) Hb) as [Hok _]. pose proof (join_length ip (seq 0 8) Hb) as Hlen. rewrite length_seq in Hlen. set (str := join (hex_item ip <$> seq 0 8) ++ 58 :: decimal_text (ntoh16 port)).
  assert (Hc : cstring str) by (apply Forall_app; split; [apply join_chars; [done| |lia]; intros c Hc%hex_char; lia|constructor; [lia|done]]). destruct (baddr_parse_ok getaddrinfo str addr_str port_str None noresolve Hc) as (r & -> & Hr); [unfold str; rewrite length_app; cbn [length]; lia|done|done|]. f_equal. destruct r as [[a name']|]; [|done]. destruct (proj1 (Hr a name') eq_refl) as (type & host & port' & p & i & Hs & _ & _ & Hlp' & _).
  set (x := fun k => hex_text (block_of ip k)). assert (Hx : forall k, x k <> [] /\ hexadecimal (x k)) by (intros k; destruct (block_text ip k Hb) as ((? & ? & _) & _); done).
  assert (Hs' : splits str BADDR_TYPE_IPV4 (x 0%nat) (join (hex_item ip <$> seq 1 7) ++ 58 :: decimal_text (ntoh16 port))).
  { right. split; [done|]. split; [unfold str; change (seq 0 8) with (0%nat :: seq 1 7); rewrite fmap_cons, join_item by done; by rewrite <- app_assoc|]. split; [apply hexadecimal_avoid; [done|apply Hx]|]. destruct (Hx 0%nat) as [Hne Hh]. unfold str. change (seq 0 8) with (0%nat :: seq 1 7). rewrite fmap_cons, join_item by done. fold (x 0%nat). destruct (x 0%nat) as [|c t]; [done|]. apply Forall_cons in Hh as [Hc0 _]. change (nthb (((c :: t) ++ 58 :: join (hex_item ip <$> seq 1 7)) ++ 58 :: decimal_text (ntoh16 port)) 0) with c. by intros ->. }
  destruct (splits_unique _ _ _ _ _ _ _ Hs Hs') as (_ & _ & ->). exfalso. rewrite length_app in Hlp'. change (join (hex_item ip <$> seq 1 7)) with (x 1%nat ++ 58 :: x 2%nat ++ 58 :: x 3%nat ++ 58 :: x 4%nat ++ 58 :: x 5%nat ++ 58 :: x 6%nat ++ 58 :: x 7%nat) in Hlp'. repeat (rewrite length_app in Hlp'; cbn [length] in Hlp'). lia.
Qed.

End printed.

(** Printing fits into the buffers that the documentation asks for.  What [BAddr_Print] writes of an IPv4 address is read back by [BAddr_Parse2]; for IPv6 it writes no brackets, and [BAddr_Parse2]
    refuses every such text, but accepts the same host in brackets; and the text of [BIPAddr_Print] is read back by the parser of IPv6 addresses.  The resolver is assumed to
    read the numeric hosts that are printed. *)
Theorem baddr_text_roundtrip (getaddrinfo : Z -> bool -> list Z -> option (list Z)) (ip4 ip6 port addr_str port_str out quad : list Z) (noresolve : bool) :
  bytes_ok ip4 -> length ip4 = 4%nat -> bytes_ok ip6 -> length ip6 = 16%nat -> bytes_ok port -> length port = 2%nat ->
  length addr_str = 128%nat -> length port_str = 6%nat -> length out = 16%nat -> length quad = 4%nat ->
  (forall t, BIPAddr_Print (BIPAddr_InitIPv4 ip4) = Some t -> getaddrinfo BADDR_TYPE_IPV4 noresolve t = Some ip4) ->
  (forall t, BIPAddr_Print (BIPAddr_InitIPv6 ip6) = Some t -> getaddrinfo BADDR_TYPE_IPV6 noresolve t = Some ip6) ->
  (exists t, BAddr_Print (BAddr_InitIPv4 ip4 port) = Some t /\ (length t < BADDR_MAX_PRINT_LEN)%nat /\
     BAddr_Parse2 getaddrinfo t addr_str port_str None noresolve = Some (Some (BAddr_InitIPv4 ip4 port, None))) /\
  (exists u t, BIPAddr_Print (BIPAddr_InitIPv6 ip6) = Some u /\ (length u < BIPADDR_MAX_PRINT_LEN)%nat /\ ipaddr6_parse_ipv6_addr_bin u out quad = Some (Some ip6) /\
     BAddr_Print (BAddr_InitIPv6 ip6 port) = Some t /\ (length t < BADDR_MAX_PRINT_LEN)%nat /\ BAddr_Parse2 getaddrinfo t addr_str port_str None noresolve = Some None /\
     BAddr_Parse2 getaddrinfo (91 :: u ++ 93 :: 58 :: decimal_text (ntoh16 port)) addr_str port_str None noresolve = Some (Some (BAddr_InitIPv6 ip6 port, None))).
Proof.
  intros Hb4 Hl4 Hb6 Hl6 Hbp Hlp Ha Hp Ho Hq Hg4 Hg6. split; [apply print4_parses; try done; by apply Hg4|]. exists (join (hex_item ip6 <$> seq 0 8)), (join (hex_item ip6 <$> seq 0 8) ++ 58 :: decimal_text (ntoh16 port)).
  pose proof (join_length ip6 (seq 0 8) Hb6) as Hlen. rewrite length_seq in Hlen. destruct (port_printed port Hbp Hlp) as (_ & Hlt & _). unfold BIPADDR_MAX_PRINT_LEN, BADDR_MAX_PRINT_LEN. rewrite length_app. cbn [length]. split; [done|]. split; [lia|].
  split; [destruct (ipaddr6_parse_ok (join (hex_item ip6 <$> seq 0 8)) out quad Ho Hq) as (r & -> & Hr); f_equal; by apply Hr, full_denotes|]. split; [done|]. split; [lia|]. split; [by apply print6_refused|]. apply print6_parses; try done. by apply Hg6.
Qed.

Module BaddrTextExample.

(** A resolver that knows numeric hosts only. *)
Definition numeric (type : Z) (noresolve : bool) (host : list Z) : option (list Z) :=
  default None (if type =? BADDR_TYPE_IPV4 then ipaddr_parse_ipv4_addr_bin host [0; 0; 0; 0] else ipaddr6_parse_ipv6_addr_bin host (replicate 16 0) [0; 0; 0; 0]).

(** The port of "127.0.0.1: +80" is 80. *)
Example signed_port_accepted :
  BAddr_Parse2 numeric [49; 50; 55; 46; 48; 46; 48; 46; 49; 58; 32; 43; 56; 48] (replicate 128 0) (replicate 6 0) None true = Some (Some (BAddr_InitIPv4 [127; 0; 0; 1] [0; 80], None)).
Proof. by vm_compute. Qed.

(** "[::1]:1080" *)
Definition example_str : list Z := [91; 58; 58; 49; 93; 58; 49; 48; 56; 48].
Definition localhost6 : list Z := replicate 15 0 ++ [1].

Lemma baddr_parse_exact_witness : resolves numeric true example_str (Some (replicate 8 170)) (BAddr_InitIPv6 localhost6 [4; 56]) (Some [58; 58; 49; 0; 170; 170; 170; 170]).
Proof.
  destruct (baddr_parse_exact numeric example_str (replicate 128 0) (replicate 6 0) (replicate 129 0) (Some (replicate 8 170)) true) as [(r & E & Hr) _]; [repeat constructor; lia|cbn; lia|done|done|done|]. apply Hr.
  assert (Some r = Some (Some (BAddr_InitIPv6 localhost6 [4; 56], Some [58; 58; 49; 0; 170; 170; 170; 170]))) as [= ->] by (rewrite <- E; by vm_compute). done.
Defined.

Lemma baddr_text_roundtrip_witness : exists t, BAddr_Print (BAddr_InitIPv4 [127; 0; 0; 1] [4; 56]) = Some t /\ (length t < BADDR_MAX_PRINT_LEN)%nat /\
  BAddr_Parse2 numeric t (replicate 128 0) (replicate 6 0) None true = Some (Some (BAddr_InitIPv4 [127; 0; 0; 1] [4; 56], None)).
Proof.
  apply (baddr_text_roundtrip numeric [127; 0; 0; 1] localhost6 [4; 56] (replicate 128 0) (replicate 6 0) (replicate 16 0) [0; 0; 0; 0] true); try done; try (repeat constructor; done); intros t [= <-]; by vm_compute.
Defined.

(** A port may have a sign and leading spaces: "a: +80". *)
Example port_with_sign : BAddr_Parse2 (fun _ _ _ => Some [1; 2; 3; 4]) [97; 58; 32; 43; 56; 48] (replicate 128 0) (replicate 6 0) None false = Some (Some (BAddr_InitIPv4 [1; 2; 3; 4] [0; 80], None)).
Proof. by vm_compute. Qed.

End BaddrTextExample.
