(* ===== verification/SocksClient.v ===== *)
(** * The SOCKS client of badvpn

    Models badvpn/socksclient/BSocksClient.c with badvpn/flow/PacketStreamSender.c and the
    states of badvpn/flow/PacketPassInterface.c between them.  The client is driven by
    events: the connector is done, the connection took or delivered some bytes, a job of
    the packet interface runs, the connection fails.  A handler is a function from states
    to states that is [None] where the code would violate an assertion, use an object that
    is not initialised, access memory outside the buffer or not yet written, or move or
    free the buffer while an operation still refers to it. *)

From S2P Require Import Prelude Baddr.

(** ** State *)

(** [struct BSocksClient_auth_info]; a string is the list of its bytes. *)
Record auth := mkAuth { auth_type : Z; username : list Z; password : list Z }.

Definition SOCKS_VERSION : Z := 5.
Definition SOCKS_METHOD_NO_AUTHENTICATION_REQUIRED : Z := 0.
Definition SOCKS_METHOD_USERNAME_PASSWORD : Z := 2.
Definition SOCKS_CMD_CONNECT : Z := 1.
Definition SOCKS_ATYP_IPV4 : Z := 1.
Definition SOCKS_ATYP_IPV6 : Z := 4.
Definition SOCKS_REP_SUCCEEDED : Z := 0.

Definition STATE_CONNECTING : Z := 1.
Definition STATE_SENDING_HELLO : Z := 2.
Definition STATE_SENT_HELLO : Z := 3.
Definition STATE_SENDING_PASSWORD : Z := 10.
Definition STATE_SENT_PASSWORD : Z := 11.
Definition STATE_SENDING_REQUEST : Z := 4.
Definition STATE_SENT_REQUEST : Z := 5.
Definition STATE_RECEIVED_REPLY_HEADER : Z := 6.
Definition STATE_UP : Z := 7.

Definition BSOCKSCLIENT_EVENT_ERROR : Z := 1.
Definition BSOCKSCLIENT_EVENT_UP : Z := 2.
Definition BSOCKSCLIENT_EVENT_ERROR_CLOSED : Z := 3.
Definition BCONNECTION_EVENT_RECVCLOSED : Z := 2.

(** The connector; one direction of the connection, which is busy with a number of bytes
    at an offset of the buffer; the connection. *)
Inductive connector_state := NoConnector | Connecting | Connected | NotConnected.
Inductive async := NotInited | Ready | Busy (off len : Z).
Record BConnection := mkCon { con_send : async; con_recv : async }.

Inductive ppi_state := PPI_STATE_NONE | PPI_STATE_OPERATION_PENDING | PPI_STATE_BUSY | PPI_STATE_DONE_PENDING.

(** [PacketStreamSender] with its [input]; [job_operation_data] and [in] are offsets into
    the buffer. *)
Record PacketStreamSender := mkSender {
  ppi : ppi_state; job_operation_data : Z; job_operation_len : Z; in_len : Z; in_ptr : Z; in_used : Z
}.

Record control := mkControl { recv_dest : Z; recv_len : Z; recv_total : Z }.

(** What lies outside the client: the connector and the connection, the bytes that the
    connection has taken and delivered, and the events reported to the user. *)
Record world := mkWorld {
  connector : connector_state; con : option BConnection; sent : list Z; received : list Z; reports : list Z
}.

(** The buffer is a block whose bytes may not be written yet. *)
Record BSocksClient := mkClient {
  auth_info : list auth; dest_addr : BAddr; state : Z; buffer : option (list (option Z));
  send_sender : option PacketStreamSender; ctl : control; env : world
}.

Definition num_auth_info (o : BSocksClient) : Z := Z.of_nat (length (auth_info o)).

Definition set_state (v : Z) (o : BSocksClient) : BSocksClient :=
  mkClient (auth_info o) (dest_addr o) v (buffer o) (send_sender o) (ctl o) (env o).
Definition set_buffer (b : option (list (option Z))) (o : BSocksClient) : BSocksClient :=
  mkClient (auth_info o) (dest_addr o) (state o) b (send_sender o) (ctl o) (env o).
Definition set_sender (s : option PacketStreamSender) (o : BSocksClient) : BSocksClient :=
  mkClient (auth_info o) (dest_addr o) (state o) (buffer o) s (ctl o) (env o).
Definition set_ctl (c : control) (o : BSocksClient) : BSocksClient :=
  mkClient (auth_info o) (dest_addr o) (state o) (buffer o) (send_sender o) c (env o).
Definition set_env (e : world) (o : BSocksClient) : BSocksClient :=
  mkClient (auth_info o) (dest_addr o) (state o) (buffer o) (send_sender o) (ctl o) e.
Definition set_con (c : option BConnection) (o : BSocksClient) : BSocksClient :=
  let e := env o in set_env (mkWorld (connector e) c (sent e) (received e) (reports e)) o.
Definition set_connector (c : connector_state) (o : BSocksClient) : BSocksClient :=
  let e := env o in set_env (mkWorld c (con e) (sent e) (received e) (reports e)) o.

(** ** Memory *)

(** Whether an operation refers to the buffer. *)
Definition in_use (o : BSocksClient) : bool :=
  match con (env o) with Some (mkCon (Busy _ _) _) | Some (mkCon _ (Busy _ _)) => true | _ => false end
  || match send_sender o with Some s => match ppi s with PPI_STATE_NONE => false | _ => true end | None => false end.

(** Initialised bytes of the buffer. *)
Definition load (off len : Z) (o : BSocksClient) : option (list Z) :=
  b ← buffer o;
  if (0 <=? off) && (0 <=? len) && (off + len <=? Z.of_nat (length b))
  then mapM id (take (Z.to_nat len) (drop (Z.to_nat off) b)) else None.

Definition store (off : Z) (l : list Z) (o : BSocksClient) : option BSocksClient :=
  b ← buffer o;
  if (0 <=? off) && (off + Z.of_nat (length l) <=? Z.of_nat (length b))
  then Some (set_buffer (Some (take (Z.to_nat off) b ++ map Some l ++ drop (Z.to_nat off + length l) b)) o) else None.

Definition load8 (off : Z) (o : BSocksClient) : option Z := l ← load off 1 o; list.head l.

Definition BFree (o : BSocksClient) : option BSocksClient := if in_use o then None else Some (set_buffer None o).

(** [ok]: whether BRealloc succeeds. *)
Definition reserve_buffer (ok : bool) (size : bsize_t) (o : BSocksClient) : option (bool * BSocksClient) :=
  if is_overflow size then Some (false, o) else
  if negb ok then Some (false, o) else
  if in_use o then None else
  let old := default [] (buffer o) in
  Some (true, set_buffer (Some (take (Z.to_nat (value size)) old ++ replicate (Z.to_nat (value size) - length old) None)) o).

(** ** The connection and the sender

    Of the connection (badvpn/system/BConnection_unix.c), the states of its two directions
    and what its assertions demand of them; its descriptor and its jobs belong to the
    environment. *)

Definition BConnection_Init (ok : bool) (o : BSocksClient) : option (bool * BSocksClient) :=
  match connector (env o), con (env o) with
  | Connected, None => Some (if ok then (true, set_con (Some (mkCon NotInited NotInited)) o) else (false, o))
  | _, _ => None
  end.

Definition BConnection_Free (o : BSocksClient) : option BSocksClient :=
  match con (env o) with Some (mkCon NotInited NotInited) => Some (set_con None o) | _ => None end.

Definition BConnection_RecvAsync_Init (o : BSocksClient) : option BSocksClient :=
  match con (env o) with Some (mkCon s NotInited) => Some (set_con (Some (mkCon s Ready)) o) | _ => None end.
Definition BConnection_SendAsync_Init (o : BSocksClient) : option BSocksClient :=
  match con (env o) with Some (mkCon NotInited r) => Some (set_con (Some (mkCon Ready r)) o) | _ => None end.
Definition BConnection_RecvAsync_Free (o : BSocksClient) : option BSocksClient :=
  match con (env o) with
  | Some (mkCon _ NotInited) | None => None
  | Some (mkCon s _) => Some (set_con (Some (mkCon s NotInited)) o)
  end.
Definition BConnection_SendAsync_Free (o : BSocksClient) : option BSocksClient :=
  match con (env o) with
  | Some (mkCon NotInited _) | None => None
  | Some (mkCon _ r) => Some (set_con (Some (mkCon NotInited r)) o)
  end.

(** [StreamRecvInterface_Receiver_Recv] and [StreamPassInterface_Sender_Send]. *)
Definition Receiver_Recv (off len : Z) (o : BSocksClient) : option BSocksClient :=
  match con (env o) with
  | Some (mkCon s Ready) => if 0 <? len then Some (set_con (Some (mkCon s (Busy off len))) o) else None
  | _ => None
  end.
Definition Sender_Send (off len : Z) (o : BSocksClient) : option BSocksClient :=
  match con (env o) with
  | Some (mkCon Ready r) => if 0 <? len then Some (set_con (Some (mkCon (Busy off len) r)) o) else None
  | _ => None
  end.

Definition PacketStreamSender_Init (o : BSocksClient) : option BSocksClient :=
  match send_sender o, con (env o) with
  | None, Some (mkCon Ready _) => Some (set_sender (Some (mkSender PPI_STATE_NONE 0 0 (-1) 0 0)) o)
  | _, _ => None
  end.

Definition PacketStreamSender_Free (o : BSocksClient) : option BSocksClient :=
  match send_sender o with Some _ => Some (set_sender None o) | None => None end.

Definition PacketPassInterface_Sender_Send (data len : Z) (o : BSocksClient) : option BSocksClient :=
  s ← send_sender o;
  match ppi s with
  | PPI_STATE_NONE => if (0 <=? len) && (len <? 2 ^ 31) then
      Some (set_sender (Some (mkSender PPI_STATE_OPERATION_PENDING data len (in_len s) (in_ptr s) (in_used s))) o) else None
  | _ => None
  end.

Definition PacketPassInterface_Done (o : BSocksClient) : option BSocksClient :=
  s ← send_sender o;
  match ppi s with
  | PPI_STATE_BUSY =>
      Some (set_sender (Some (mkSender PPI_STATE_DONE_PENDING (job_operation_data s) (job_operation_len s) (in_len s) (in_ptr s) (in_used s))) o)
  | _ => None
  end.

Definition send_data (o : BSocksClient) : option BSocksClient :=
  s ← send_sender o;
  if negb (0 <=? in_len s) then None else
  if in_used s <? in_len s then Sender_Send (in_ptr s + in_used s) (in_len s - in_used s) o
  else PacketPassInterface_Done (set_sender (Some (mkSender (ppi s) (job_operation_data s) (job_operation_len s) (-1) (in_ptr s) (in_used s))) o).

Definition input_handler_send (data data_len : Z) (o : BSocksClient) : option BSocksClient :=
  s ← send_sender o;
  if negb ((in_len s =? -1) && (0 <=? data_len)) then None else
  send_data (set_sender (Some (mkSender (ppi s) (job_operation_data s) (job_operation_len s) data_len data 0)) o).

Definition output_handler_done (data_len : Z) (o : BSocksClient) : option BSocksClient :=
  s ← send_sender o;
  if negb ((0 <=? in_len s) && (0 <? data_len) && (data_len <=? in_len s - in_used s)) then None else
  send_data (set_sender (Some (mkSender (ppi s) (job_operation_data s) (job_operation_len s) (in_len s) (in_ptr s) (in_used s + data_len))) o).

Definition job_operation (o : BSocksClient) : option BSocksClient :=
  s ← send_sender o;
  match ppi s with
  | PPI_STATE_OPERATION_PENDING =>
      input_handler_send (job_operation_data s) (job_operation_len s)
        (set_sender (Some (mkSender PPI_STATE_BUSY (job_operation_data s) (job_operation_len s) (in_len s) (in_ptr s) (in_used s))) o)
  | _ => None
  end.

(** ** The client *)

Definition report_error (error : Z) (o : BSocksClient) : BSocksClient :=
  let e := env o in set_env (mkWorld (connector e) (con e) (sent e) (received e) (reports e ++ [error])) o.

Definition init_control_io (o : BSocksClient) : option BSocksClient :=
  o ← BConnection_RecvAsync_Init o;
  o ← BConnection_SendAsync_Init o;
  PacketStreamSender_Init o.

Definition free_control_io (o : BSocksClient) : option BSocksClient :=
  o ← PacketStreamSender_Free o;
  o ← BConnection_SendAsync_Free o;
  BConnection_RecvAsync_Free o.

Definition init_up_io (o : BSocksClient) : option BSocksClient :=
  o ← BConnection_RecvAsync_Init o;
  BConnection_SendAsync_Init o.

Definition free_up_io (o : BSocksClient) : option BSocksClient :=
  o ← BConnection_SendAsync_Free o;
  BConnection_RecvAsync_Free o.

Definition do_receive (o : BSocksClient) : option BSocksClient :=
  let c := ctl o in Receiver_Recv (recv_dest c + recv_len c) (recv_total c - recv_len c) o.

Definition start_receive (dest total : Z) (o : BSocksClient) : option BSocksClient :=
  do_receive (set_ctl (mkControl dest 0 total) o).

Definition sizeof_hello_header : Z := 2.
Definition sizeof_hello_method : Z := 1.
Definition sizeof_server_hello : Z := 2.
Definition sizeof_request_header : Z := 4.
Definition sizeof_reply_header : Z := 4.
Definition sizeof_addr_ipv4 : Z := 6.
Definition sizeof_addr_ipv6 : Z := 18.

(** The loop that writes the methods of the hello. *)
Fixpoint write_methods (i : Z) (l : list auth) (o : BSocksClient) : option BSocksClient :=
  match l with
  | [] => Some o
  | a :: l =>
      o ← store (sizeof_hello_header + i * sizeof_hello_method) [u8 (auth_type a)] o;
      write_methods (i + 1) l o
  end.

Definition connector_handler (is_error con_ok alloc_ok : bool) (o : BSocksClient) : option BSocksClient :=
  if negb (state o =? STATE_CONNECTING) then None else
  if is_error then Some (report_error BSOCKSCLIENT_EVENT_ERROR o) else
  '(r, o) ← BConnection_Init con_ok o;
  if negb r then Some (report_error BSOCKSCLIENT_EVENT_ERROR o) else
  o ← init_control_io o;
  let fail1 o :=
    o ← free_control_io o;
    o ← BConnection_Free o;
    Some (report_error BSOCKSCLIENT_EVENT_ERROR o) in
  if (num_auth_info o =? 0) || (255 <? num_auth_info o) then fail1 o else
  let size := bsize_add (bsize_fromsize sizeof_hello_header)
                (bsize_mul (bsize_fromsize (num_auth_info o)) (bsize_fromsize sizeof_hello_method)) in
  '(r, o) ← reserve_buffer alloc_ok size o;
  if negb r then fail1 o else
  o ← store 0 [SOCKS_VERSION; u8 (num_auth_info o)] o;
  o ← write_methods 0 (auth_info o) o;
  o ← PacketPassInterface_Sender_Send 0 (value size) o;
  Some (set_state STATE_SENDING_HELLO o).

Definition connection_handler (event : Z) (o : BSocksClient) : option BSocksClient :=
  if state o =? STATE_CONNECTING then None else
  if (state o =? STATE_UP) && (event =? BCONNECTION_EVENT_RECVCLOSED)
  then Some (report_error BSOCKSCLIENT_EVENT_ERROR_CLOSED o)
  else Some (report_error BSOCKSCLIENT_EVENT_ERROR o).

Definition auth_finished (alloc_ok : bool) (o : BSocksClient) : option BSocksClient :=
  let size := bsize_fromsize sizeof_request_header in
  let size := if addr_type (dest_addr o) =? BADDR_TYPE_IPV4 then bsize_add size (bsize_fromsize sizeof_addr_ipv4)
              else if addr_type (dest_addr o) =? BADDR_TYPE_IPV6 then bsize_add size (bsize_fromsize sizeof_addr_ipv6)
              else size in
  '(r, o) ← reserve_buffer alloc_ok size o;
  if negb r then Some (report_error BSOCKSCLIENT_EVENT_ERROR o) else
  '(atyp, o) ← (if addr_type (dest_addr o) =? BADDR_TYPE_IPV4 then
                  o ← store sizeof_request_header (addr_ip (dest_addr o) ++ addr_port (dest_addr o)) o;
                  Some (SOCKS_ATYP_IPV4, o)
                else if addr_type (dest_addr o) =? BADDR_TYPE_IPV6 then
                  o ← store sizeof_request_header (addr_ip (dest_addr o) ++ addr_port (dest_addr o)) o;
                  Some (SOCKS_ATYP_IPV6, o)
                else None);
  o ← store 0 [SOCKS_VERSION; SOCKS_CMD_CONNECT; 0; atyp] o;
  o ← PacketPassInterface_Sender_Send 0 (value size) o;
  Some (set_state STATE_SENDING_REQUEST o).

(** The search for the method that the server chose. *)
Fixpoint find_auth (method : Z) (l : list auth) : option auth :=
  match l with
  | [] => None
  | a :: l => if auth_type a =? method then Some a else find_auth method l
  end.

(** Writing the password packet, from [ptr] on. *)
Definition write_password (a : auth) (o : BSocksClient) : option BSocksClient :=
  let ulen := Z.of_nat (length (username a)) in
  let plen := Z.of_nat (length (password a)) in
  o ← store 0 [1] o;
  o ← store 1 [u8 ulen] o;
  o ← store 2 (username a) o;
  o ← store (2 + ulen) [u8 plen] o;
  store (3 + ulen) (password a) o.

(** The message that was received completely. *)
Definition received_hello (alloc_ok : bool) (o : BSocksClient) : option BSocksClient :=
  ver ← load8 0 o;
  method ← load8 1 o;
  if negb (ver =? SOCKS_VERSION) then Some (report_error BSOCKSCLIENT_EVENT_ERROR o) else
  match find_auth method (auth_info o) with
  | None => Some (report_error BSOCKSCLIENT_EVENT_ERROR o)
  | Some ai =>
      if auth_type ai =? SOCKS_METHOD_NO_AUTHENTICATION_REQUIRED then auth_finished alloc_ok o
      else if auth_type ai =? SOCKS_METHOD_USERNAME_PASSWORD then
        let ulen := Z.of_nat (length (username ai)) in
        let plen := Z.of_nat (length (password ai)) in
        if (ulen =? 0) || (255 <? ulen) || (plen =? 0) || (255 <? plen)
        then Some (report_error BSOCKSCLIENT_EVENT_ERROR o) else
        let size := bsize_fromsize (1 + 1 + ulen + 1 + plen) in
        '(r, o) ← reserve_buffer alloc_ok size o;
        if negb r then Some (report_error BSOCKSCLIENT_EVENT_ERROR o) else
        o ← write_password ai o;
        o ← PacketPassInterface_Sender_Send 0 (value size) o;
        Some (set_state STATE_SENDING_PASSWORD o)
      else None
  end.

Definition received_reply_header (o : BSocksClient) : option BSocksClient :=
  ver ← load8 0 o;
  rep ← load8 1 o;
  atyp ← load8 3 o;
  if negb (ver =? SOCKS_VERSION) then Some (report_error BSOCKSCLIENT_EVENT_ERROR o) else
  if negb (rep =? SOCKS_REP_SUCCEEDED) then Some (report_error BSOCKSCLIENT_EVENT_ERROR o) else
  let go addr_len :=
    o ← start_receive sizeof_reply_header addr_len o;
    Some (set_state STATE_RECEIVED_REPLY_HEADER o) in
  if atyp =? SOCKS_ATYP_IPV4 then go sizeof_addr_ipv4
  else if atyp =? SOCKS_ATYP_IPV6 then go sizeof_addr_ipv6
  else Some (report_error BSOCKSCLIENT_EVENT_ERROR o).

Definition received_password_reply (alloc_ok : bool) (o : BSocksClient) : option BSocksClient :=
  b0 ← load8 0 o;
  if negb (b0 =? 1) then Some (report_error BSOCKSCLIENT_EVENT_ERROR o) else
  b1 ← load8 1 o;
  if negb (b1 =? 0) then Some (report_error BSOCKSCLIENT_EVENT_ERROR o) else
  auth_finished alloc_ok o.

Definition received_reply_rest (o : BSocksClient) : option BSocksClient :=
  o ← BFree o;
  o ← free_control_io o;
  o ← init_up_io o;
  Some (report_error BSOCKSCLIENT_EVENT_UP (set_state STATE_UP o)).

Definition recv_handler_done (alloc_ok : bool) (data_len : Z) (o : BSocksClient) : option BSocksClient :=
  let c := ctl o in
  if negb ((0 <=? data_len) && (data_len <=? recv_total c - recv_len c)) then None else
  let o := set_ctl (mkControl (recv_dest c) (recv_len c + data_len) (recv_total c)) o in
  if recv_len (ctl o) <? recv_total (ctl o) then do_receive o else
  if state o =? STATE_SENT_HELLO then received_hello alloc_ok o
  else if state o =? STATE_SENT_REQUEST then received_reply_header o
  else if state o =? STATE_SENT_PASSWORD then received_password_reply alloc_ok o
  else if state o =? STATE_RECEIVED_REPLY_HEADER then received_reply_rest o
  else None.

Definition send_handler_done (alloc_ok : bool) (o : BSocksClient) : option BSocksClient :=
  if negb (bool_decide (is_Some (buffer o))) then None else
  let receive size total next :=
    '(r, o) ← reserve_buffer alloc_ok size o;
    if negb r then Some (report_error BSOCKSCLIENT_EVENT_ERROR o) else
    o ← start_receive 0 total o;
    Some (set_state next o) in
  if state o =? STATE_SENDING_HELLO then
    receive (bsize_fromsize sizeof_server_hello) sizeof_server_hello STATE_SENT_HELLO
  else if state o =? STATE_SENDING_REQUEST then
    receive (bsize_add (bsize_fromsize sizeof_reply_header)
               (bsize_max (bsize_fromsize sizeof_addr_ipv4) (bsize_fromsize sizeof_addr_ipv6)))
      sizeof_reply_header STATE_SENT_REQUEST
  else if state o =? STATE_SENDING_PASSWORD then receive (bsize_fromsize 2) 2 STATE_SENT_PASSWORD
  else None.

(** The strings of a client without authentication are never read. *)
Definition BSocksClient_auth_none : auth := mkAuth SOCKS_METHOD_NO_AUTHENTICATION_REQUIRED [] [].
Definition BSocksClient_auth_password (user pass : list Z) : auth := mkAuth SOCKS_METHOD_USERNAME_PASSWORD user pass.

(** [ok]: whether BConnector_Init succeeds. *)
Definition BSocksClient_Init (ok : bool) (ai : list auth) (dest : BAddr) : option BSocksClient :=
  if negb ok then None else
  Some (mkClient ai dest STATE_CONNECTING None None (mkControl 0 0 0) (mkWorld Connecting None [] [] [])).

Definition BConnector_Free (o : BSocksClient) : option BSocksClient :=
  match connector (env o) with NoConnector => None | _ => Some (set_connector NoConnector o) end.

Definition BSocksClient_Free (o : BSocksClient) : option BSocksClient :=
  o ← (if negb (state o =? STATE_CONNECTING) then
         o ← (if state o =? STATE_UP then free_up_io o else free_control_io o);
         BConnection_Free o
       else Some o);
  o ← BConnector_Free o;
  match buffer o with Some _ => BFree o | None => Some o end.

(** ** Events *)

(** What can happen: the connector is done (and creating the connection or memory may
    fail); the connection reports an error or its end; the job that starts sending runs;
    the connection has taken [n] bytes; the job that ends sending runs; the connection has
    delivered [data]. *)
Inductive event :=
  | EvConnector (is_error con_ok alloc_ok : bool)
  | EvConnection (e : Z)
  | EvOperation
  | EvSent (n : Z)
  | EvSendDone (alloc_ok : bool)
  | EvReceived (data : list Z) (alloc_ok : bool).

(** The user frees the client when an error is reported. *)
Definition failed (o : BSocksClient) : bool :=
  match last (reports (env o)) with Some e => negb (e =? BSOCKSCLIENT_EVENT_UP) | None => false end.

Definition ppi_is (p : ppi_state) (o : BSocksClient) : bool :=
  match send_sender o with
  | Some s => match ppi s, p with
              | PPI_STATE_OPERATION_PENDING, PPI_STATE_OPERATION_PENDING
              | PPI_STATE_DONE_PENDING, PPI_STATE_DONE_PENDING => true
              | _, _ => false
              end
  | None => false
  end.

(** Whether an event can happen. *)
Definition possible (ev : event) (o : BSocksClient) : bool :=
  negb (failed o) &&
  match ev with
  | EvConnector _ _ _ => match connector (env o) with Connecting => true | _ => false end
  | EvConnection _ => match con (env o) with Some _ => true | None => false end
  | EvOperation => ppi_is PPI_STATE_OPERATION_PENDING o
  | EvSendDone _ => ppi_is PPI_STATE_DONE_PENDING o
  | EvSent n => match con (env o) with Some (mkCon (Busy _ len) _) => (0 <? n) && (n <=? len) | _ => false end
  | EvReceived data _ =>
      match con (env o) with
      | Some (mkCon _ (Busy _ len)) => (0 <? Z.of_nat (length data)) && (Z.of_nat (length data) <=? len)
      | _ => false
      end
  end.

(** The connection takes bytes from the buffer, and stores bytes to it. *)
Definition take_bytes (n : Z) (o : BSocksClient) : option BSocksClient :=
  match con (env o) with
  | Some (mkCon (Busy off _) r) =>
      l ← load off n o;
      let e := env o in
      Some (set_env (mkWorld (connector e) (Some (mkCon Ready r)) (sent e ++ l) (received e) (reports e)) o)
  | _ => None
  end.

Definition deliver_bytes (data : list Z) (o : BSocksClient) : option BSocksClient :=
  match con (env o) with
  | Some (mkCon s (Busy off _)) =>
      o ← store off data o;
      let e := env o in
      Some (set_env (mkWorld (connector e) (Some (mkCon s Ready)) (sent e) (received e ++ data) (reports e)) o)
  | _ => None
  end.

Definition job_done (alloc_ok : bool) (o : BSocksClient) : option BSocksClient :=
  s ← send_sender o;
  match ppi s with
  | PPI_STATE_DONE_PENDING =>
      send_handler_done alloc_ok
        (set_sender (Some (mkSender PPI_STATE_NONE (job_operation_data s) (job_operation_len s) (in_len s) (in_ptr s) (in_used s))) o)
  | _ => None
  end.

Definition step (ev : event) (o : BSocksClient) : option BSocksClient :=
  match ev with
  | EvConnector is_error con_ok alloc_ok =>
      connector_handler is_error con_ok alloc_ok (set_connector (if is_error then NotConnected else Connected) o)
  | EvConnection e => connection_handler e o
  | EvOperation => job_operation o
  | EvSent n => o ← take_bytes n o; output_handler_done n o
  | EvSendDone alloc_ok => job_done alloc_ok o
  | EvReceived data alloc_ok => o ← deliver_bytes data o; recv_handler_done alloc_ok (Z.of_nat (length data)) o
  end.

Fixpoint run (evs : list event) (o : BSocksClient) : option BSocksClient :=
  match evs with [] => Some o | ev :: evs => o ← step ev o; run evs o end.

(** Every event of the list can happen when its turn comes. *)
Fixpoint possible_run (evs : list event) (o : BSocksClient) : bool :=
  match evs with
  | [] => true
  | ev :: evs => possible ev o && match step ev o with Some o => possible_run evs o | None => true end
  end.
