(* ===== verification/SocksClientSpec.v ===== *)
(** * The SOCKS client of badvpn: theorems

    The protocol as a function of the bytes that the server has sent, however they were
    cut into pieces; the invariant of the client; safety, refinement and termination. *)

From S2P Require Import Prelude Baddr SocksClient.

(** ** The dialogue *)

Definition hello_msg (ai : list auth) : list Z :=
  SOCKS_VERSION :: Z.of_nat (length ai) :: map auth_type ai.

Definition password_msg (a : auth) : list Z :=
  [1; Z.of_nat (length (username a))] ++ username a ++ [Z.of_nat (length (password a))] ++ password a.

Definition request_msg (d : BAddr) : list Z :=
  [SOCKS_VERSION; SOCKS_CMD_CONNECT; 0; if addr_type d =? BADDR_TYPE_IPV4 then SOCKS_ATYP_IPV4 else SOCKS_ATYP_IPV6]
  ++ addr_ip d ++ addr_port d.

(** Where the dialogue is, with the bytes that the client has to send until then;
    [Established] with the bytes that follow the dialogue. *)
Inductive progress := Waiting (out : list Z) | Refused (out : list Z) | Established (out rest : list Z).

Definition reply_dialogue (out bs : list Z) : progress :=
  match bs with
  | ver :: rep :: _ :: atyp :: rest =>
      if (ver =? 5) && (rep =? 0) && ((atyp =? 1) || (atyp =? 4)) then
        let n := if atyp =? 1 then 6%nat else 18%nat in
        if decide (n <= length rest)%nat then Established out (drop n rest) else Waiting out
      else Refused out
  | _ => Waiting out
  end.

Definition password_dialogue (d : BAddr) (out bs : list Z) : progress :=
  match bs with
  | b0 :: b1 :: bs => if (b0 =? 1) && (b1 =? 0) then reply_dialogue (out ++ request_msg d) bs else Refused out
  | _ => Waiting out
  end.

Definition good_password (a : auth) : bool :=
  (0 <? length (username a))%nat && (length (username a) <=? 255)%nat
  && (0 <? length (password a))%nat && (length (password a) <=? 255)%nat.

Definition hello_dialogue (ai : list auth) (d : BAddr) (out bs : list Z) : progress :=
  match bs with
  | ver :: method :: bs =>
      if negb (ver =? 5) then Refused out else
      match find_auth method ai with
      | None => Refused out
      | Some a =>
          if method =? 0 then reply_dialogue (out ++ request_msg d) bs
          else if good_password a then password_dialogue d (out ++ password_msg a) bs
          else Refused out
      end
  | _ => Waiting out
  end.

Definition dialogue (ai : list auth) (d : BAddr) (bs : list Z) : progress := hello_dialogue ai d (hello_msg ai) bs.

(** What BSocksClient_Init asks of its arguments. *)
Definition args_ok (ai : list auth) (d : BAddr) : Prop :=
  Forall (fun a => auth_type a = 0 \/ auth_type a = 2) ai
  /\ ((addr_type d = BADDR_TYPE_IPV4 /\ length (addr_ip d) = 4%nat /\ length (addr_port d) = 2%nat)
      \/ (addr_type d = BADDR_TYPE_IPV6 /\ length (addr_ip d) = 16%nat /\ length (addr_port d) = 2%nat)).

(** Nothing outside the protocol went wrong. *)
Definition clean (ev : event) : bool :=
  match ev with
  | EvConnector is_error con_ok alloc_ok => negb is_error && con_ok && alloc_ok
  | EvConnection _ => false
  | EvSendDone ok | EvReceived _ ok => ok
  | EvOperation | EvSent _ => true
  end.

(** ** Memory *)

Lemma store_ok off l b o : buffer o = Some b -> 0 <= off -> off + Z.of_nat (length l) <= Z.of_nat (length b) ->
  store off l o = Some (set_buffer (Some (take (Z.to_nat off) b ++ map Some l ++ drop (Z.to_nat off + length l) b)) o).
Proof.
  intros Hb H1 H2. unfold store. rewrite Hb. cbn [mbind option_bind].
  rewrite (proj2 (Z.leb_le _ _) H1), (proj2 (Z.leb_le _ _) H2). done.
Qed.

(** Storing next to what is stored. *)
Lemma store_next off a l r o : buffer o = Some (map Some a ++ r) -> off = Z.of_nat (length a) -> (length l <= length r)%nat ->
  store off l o = Some (set_buffer (Some (map Some (a ++ l) ++ drop (length l) r)) o).
Proof.
  intros Hb -> Hl. rewrite (store_ok _ _ _ _ Hb); [|lia|rewrite length_app, length_map; lia]. do 3 f_equal.
  rewrite Nat2Z.id, map_app, <- app_assoc. f_equal; [by rewrite take_app_length' by (by rewrite length_map)|].
  f_equal. rewrite drop_app_ge by (rewrite length_map; lia). f_equal. rewrite length_map. lia.
Qed.

Lemma mapM_id_map_Some {A} (l : list A) : mapM id (map Some l) = Some l.
Proof. induction l as [|a l IH]; [done|]. cbn [map mapM id mbind option_bind]. by rewrite IH. Qed.

Lemma load_ok off n a l r o : buffer o = Some (map Some (a ++ l) ++ r) -> off = Z.of_nat (length a) -> n = Z.of_nat (length l) ->
  load off n o = Some l.
Proof.
  intros Hb -> ->. unfold load. rewrite Hb. cbn [mbind option_bind]. rewrite !length_app, length_map, length_app.
  rewrite !(proj2 (Z.leb_le _ _)) by lia. cbn [andb]. rewrite !Nat2Z.id, map_app, <- app_assoc.
  rewrite drop_app_length' by (by rewrite length_map). rewrite take_app_length' by (by rewrite length_map).
  apply mapM_id_map_Some.
Qed.

Lemma load8_ok off a x l r o : buffer o = Some (map Some (a ++ x :: l) ++ r) -> off = Z.of_nat (length a) -> load8 off o = Some x.
Proof.
  intros Hb Ho. unfold load8. rewrite (load_ok off 1 a [x] (map Some l ++ r) o); [done| |done|done].
  rewrite Hb, !map_app, <- !app_assoc. done.
Qed.

Lemma reserve_ok ok size o : is_overflow size = false -> in_use o = false -> 0 <= value size ->
  exists b, reserve_buffer ok size o = Some (if ok then (true, set_buffer (Some b) o) else (false, o))
    /\ length b = Z.to_nat (value size).
Proof.
  intros Ho Hu Hs. unfold reserve_buffer. rewrite Ho, Hu.
  exists (take (Z.to_nat (value size)) (default [] (buffer o)) ++ replicate (Z.to_nat (value size) - length (default [] (buffer o))) None).
  split; [by destruct ok|].
  rewrite length_app, length_take, length_replicate. lia.
Qed.

(** Filling a buffer from the back: an address, then the header before it. *)
Lemma store_two h l b o : buffer o = Some b -> (length b = length h + length l)%nat ->
  (o ← store (Z.of_nat (length h)) l o; store 0 h o) = Some (set_buffer (Some (map Some (h ++ l))) o).
Proof.
  intros Hb Hlen. rewrite (store_ok _ _ _ _ Hb) by lia. cbn [mbind option_bind].
  assert (Hlt : length (take (length h) b) = length h) by (rewrite length_take; lia).
  erewrite store_ok; [|reflexivity|lia|].
  - unfold set_buffer. cbn. do 2 f_equal. rewrite Nat2Z.id, map_app. f_equal.
    change (Z.to_nat 0) with 0%nat. rewrite take_0. cbn [app Nat.add]. f_equal. rewrite drop_app_length' by done. rewrite (drop_ge b) by lia. by rewrite app_nil_r.
  - rewrite Nat2Z.id, !length_app, length_map, length_drop, Hlt. lia.
Qed.

(** ** The invariant *)

Section client.
Context (ai : list auth) (d : BAddr).

(** A state in which [msg] is being sent after [base] was sent. *)
Inductive sending_msg (msg base : list Z) : async -> PacketStreamSender -> list Z -> Prop :=
  | SendPending s : ppi s = PPI_STATE_OPERATION_PENDING -> job_operation_data s = 0 ->
      job_operation_len s = Z.of_nat (length msg) -> in_len s = -1 -> sending_msg msg base Ready s base
  | SendBusy s k : ppi s = PPI_STATE_BUSY -> in_len s = Z.of_nat (length msg) -> in_ptr s = 0 -> in_used s = Z.of_nat k ->
      (k < length msg)%nat ->
      sending_msg msg base (Busy (Z.of_nat k) (Z.of_nat (length msg) - Z.of_nat k)) s (base ++ take k msg)
  | SendDone s : ppi s = PPI_STATE_DONE_PENDING -> in_len s = -1 -> sending_msg msg base Ready s (base ++ msg).

Definition idle (s : PacketStreamSender) : Prop := ppi s = PPI_STATE_NONE /\ in_len s = -1.

(** The rest of the dialogue in a state that sends [out] or has sent it. *)
Definition rest_of (st : Z) (out bs : list Z) : progress :=
  if (st =? STATE_SENDING_HELLO) || (st =? STATE_SENT_HELLO) then hello_dialogue ai d out bs
  else if (st =? STATE_SENDING_PASSWORD) || (st =? STATE_SENT_PASSWORD) then password_dialogue d out bs
  else reply_dialogue out bs.

Definition sending_state (st : Z) : Prop :=
  st = STATE_SENDING_HELLO \/ st = STATE_SENDING_PASSWORD \/ st = STATE_SENDING_REQUEST.

(** The longest message of a state. *)
Definition max_len (st : Z) : Z :=
  if st =? STATE_SENDING_HELLO then 257 else if st =? STATE_SENDING_PASSWORD then 513 else 22.

(** The message that a state receives: where, how many bytes, and what the buffer holds
    before it. *)
Inductive awaits : Z -> Z -> Z -> list Z -> Prop :=
  | AwaitHello : awaits STATE_SENT_HELLO 0 2 []
  | AwaitPassword : awaits STATE_SENT_PASSWORD 0 2 []
  | AwaitHeader : awaits STATE_SENT_REQUEST 0 4 []
  | AwaitIPv4 x : awaits STATE_RECEIVED_REPLY_HEADER 4 6 [5; 0; x; 1]
  | AwaitIPv6 x : awaits STATE_RECEIVED_REPLY_HEADER 4 18 [5; 0; x; 4].

(** The size of the buffer from [dest] on: the one for the header has room for the rest. *)
Definition room (st total : Z) : Z := if st =? STATE_SENT_REQUEST then 22 else total.

(** A client that has reported no error. *)
Inductive alive : BSocksClient -> Prop :=
  | AliveConnecting c : alive (mkClient ai d STATE_CONNECTING None None c (mkWorld Connecting None [] [] []))
  | AliveSending st msg base cs s c snt rcv : sending_state st -> sending_msg msg base cs s snt -> Z.of_nat (length msg) <= max_len st ->
      (forall bs, dialogue ai d (rcv ++ bs) = rest_of st (base ++ msg) bs) ->
      alive (mkClient ai d st (Some (map Some msg)) (Some s) c (mkWorld Connected (Some (mkCon cs Ready)) snt rcv []))
  | AliveReceiving st dest total pre got free s snt rcv : awaits st dest total pre -> idle s ->
      dest = Z.of_nat (length pre) -> Z.of_nat (length got) < total -> room st total <= Z.of_nat (length got + length free) ->
      (forall bs, dialogue ai d (rcv ++ bs) = rest_of st snt (pre ++ bs)) ->
      alive (mkClient ai d st (Some (map Some (pre ++ got) ++ free)) (Some s) (mkControl dest (Z.of_nat (length got)) total)
        (mkWorld Connected (Some (mkCon Ready (Busy (dest + Z.of_nat (length got)) (total - Z.of_nat (length got))))) snt (rcv ++ got) []))
  | AliveUp c snt rcv : dialogue ai d rcv = Established snt [] ->
      alive (mkClient ai d STATE_UP None None c (mkWorld Connected (Some (mkCon Ready Ready)) snt rcv [BSOCKSCLIENT_EVENT_UP])).

(** A client that [BSocksClient_Free] can free. *)
Inductive releasable : BSocksClient -> Prop :=
  | RelConnecting b c w : connector w <> NoConnector -> con w = None ->
      releasable (mkClient ai d STATE_CONNECTING b None c w)
  | RelUp b c w cs cr : connector w <> NoConnector -> con w = Some (mkCon cs cr) -> cs <> NotInited -> cr <> NotInited ->
      releasable (mkClient ai d STATE_UP b None c w)
  | RelControl st b s c w cs cr : st <> STATE_CONNECTING -> st <> STATE_UP ->
      connector w <> NoConnector -> con w = Some (mkCon cs cr) -> cs <> NotInited -> cr <> NotInited ->
      releasable (mkClient ai d st b (Some s) c w).

(** A client that has reported an error, after [pre]. *)
Definition dead_after (pre : list Z) (o : BSocksClient) : Prop :=
  releasable o /\ exists e, reports (env o) = pre ++ [e]
    /\ (e = BSOCKSCLIENT_EVENT_ERROR \/ (e = BSOCKSCLIENT_EVENT_ERROR_CLOSED /\ pre = [BSOCKSCLIENT_EVENT_UP])).

Definition dead (o : BSocksClient) : Prop := dead_after [] o \/ dead_after [BSOCKSCLIENT_EVENT_UP] o.

(** A bound on the number of events to come until the client is up or has failed. *)
Definition send_budget (o : BSocksClient) : Z :=
  match send_sender o with
  | Some s => match ppi s with
              | PPI_STATE_OPERATION_PENDING => job_operation_len s + 2
              | PPI_STATE_BUSY => in_len s - in_used s + 1
              | PPI_STATE_DONE_PENDING => 1
              | PPI_STATE_NONE => 0
              end
  | None => 0
  end.

Definition recv_budget (o : BSocksClient) : Z := recv_total (ctl o) - recv_len (ctl o).

Definition budget (o : BSocksClient) : Z :=
  let st := state o in
  if st =? STATE_CONNECTING then 825
  else if st =? STATE_SENDING_HELLO then 565 + send_budget o
  else if st =? STATE_SENT_HELLO then 563 + recv_budget o
  else if st =? STATE_SENDING_PASSWORD then 48 + send_budget o
  else if st =? STATE_SENT_PASSWORD then 46 + recv_budget o
  else if st =? STATE_SENDING_REQUEST then 22 + send_budget o
  else if st =? STATE_SENT_REQUEST then 18 + recv_budget o
  else if st =? STATE_RECEIVED_REPLY_HEADER then recv_budget o
  else 0.

(** What an event leads to: [bound] limits what is left to do, [ok] tells whether nothing
    but the protocol can have gone wrong. *)
Definition outcome (ok : Prop) (bound : Z) (o : BSocksClient) : Prop :=
  (alive o /\ budget o < bound)
  \/ (dead o /\ (ok -> reports (env o) = [BSOCKSCLIENT_EVENT_ERROR] /\ dialogue ai d (received (env o)) = Refused (sent (env o)))).

(** The client between two messages: nothing in progress. *)
Definition quiet (st : Z) (b : option (list (option Z))) (s : PacketStreamSender) (c : control) (snt rcv : list Z) : BSocksClient :=
  mkClient ai d st b (Some s) c (mkWorld Connected (Some (mkCon Ready Ready)) snt rcv []).

Lemma quiet_not_in_use st b s c snt rcv : idle s -> in_use (quiet st b s c snt rcv) = false.
Proof. intros [Hs _]. unfold in_use, quiet. cbn [con env send_sender]. by rewrite Hs. Qed.

(** Reporting an error. *)
Lemma report_dead st b s c snt rcv (ok : Prop) bound : st <> STATE_CONNECTING -> st <> STATE_UP ->
  (ok -> dialogue ai d rcv = Refused snt) -> outcome ok bound (report_error BSOCKSCLIENT_EVENT_ERROR (quiet st b s c snt rcv)).
Proof.
  intros H1 H2 Hr. right. split; [|cbn; intros Hok; split; [done|by apply Hr]]. left. split.
  - unfold report_error, quiet, set_env. cbn. by econstructor.
  - exists BSOCKSCLIENT_EVENT_ERROR. split; [done|by left].
Qed.

(** Handing a message over to the sender. *)
Lemma start_sending st st0 msg s c snt rcv (ok : Prop) bound :
  sending_state st -> idle s -> Z.of_nat (length msg) <= max_len st -> budget (set_state st (quiet st0 None (mkSender PPI_STATE_OPERATION_PENDING 0 (Z.of_nat (length msg)) (-1) 0 0) c snt rcv)) < bound ->
  (forall bs, dialogue ai d (rcv ++ bs) = rest_of st (snt ++ msg) bs) ->
  exists o', PacketPassInterface_Sender_Send 0 (Z.of_nat (length msg)) (quiet st0 (Some (map Some msg)) s c snt rcv) = Some o'
    /\ outcome ok bound (set_state st o').
Proof.
  intros Hst [Hp Hi] Hlen Hb Hd. unfold PacketPassInterface_Sender_Send, quiet. cbn [send_sender mbind option_bind]. rewrite Hp.
  assert (max_len st <= 513) by (unfold max_len; repeat case_match; lia).
  rewrite (proj2 (Z.leb_le _ _)), (proj2 (Z.ltb_lt _ _)) by lia. cbn [andb]. eexists. split; [done|]. left. split; [|exact Hb].
  unfold set_sender, set_state. cbn. econstructor; [done| |done|done]. by constructor.
Qed.

Context (Hargs : args_ok ai d).

Lemma length_request : Z.of_nat (length (request_msg d))
  = value (if addr_type d =? BADDR_TYPE_IPV4 then bsize_add (bsize_fromsize sizeof_request_header) (bsize_fromsize sizeof_addr_ipv4)
           else bsize_add (bsize_fromsize sizeof_request_header) (bsize_fromsize sizeof_addr_ipv6))
  /\ Z.of_nat (length (request_msg d)) <= 22.
Proof.
  unfold request_msg. rewrite !length_app. destruct (proj2 Hargs) as [(-> & -> & ->)|(-> & -> & ->)]; cbn; split; reflexivity || lia.
Qed.

Lemma auth_finished_ok ok st0 b s c snt rcv bound :
  st0 <> STATE_CONNECTING -> st0 <> STATE_UP -> idle s -> 46 < bound ->
  (forall bs, dialogue ai d (rcv ++ bs) = reply_dialogue (snt ++ request_msg d) bs) ->
  exists o', auth_finished ok (quiet st0 b s c snt rcv) = Some o' /\ outcome (ok = true) bound o'.
Proof.
  intros H1 H2 Hs Hbd Hd. destruct length_request as [Hlen Hmax]. unfold auth_finished.
  set (size := if _ =? BADDR_TYPE_IPV4 then _ else _).
  assert (Hsize : size = bsize_fromsize (Z.of_nat (length (request_msg d)))).
  { subst size. rewrite Hlen. cbn [dest_addr quiet]. destruct (proj2 Hargs) as [(-> & _)|(-> & _)]; reflexivity. }
  clearbody size. subst size. cbn [value bsize_fromsize].
  destruct (reserve_ok ok (bsize_fromsize (Z.of_nat (length (request_msg d)))) (quiet st0 b s c snt rcv)) as (b' & E' & Hb');
    [done|by apply quiet_not_in_use|cbn; lia|].
  rewrite E'. destruct ok; cbn [mbind option_bind negb]; [|eexists; split; [done|]; by apply report_dead].
  cbn [dest_addr set_buffer quiet value bsize_fromsize] in *. rewrite Nat2Z.id in Hb'.
  set (o1 := set_buffer (Some b') (quiet st0 b s c snt rcv)).
  set (h := [SOCKS_VERSION; SOCKS_CMD_CONNECT; 0; if addr_type d =? BADDR_TYPE_IPV4 then SOCKS_ATYP_IPV4 else SOCKS_ATYP_IPV6]).
  assert (E2 : (o ← store sizeof_request_header (addr_ip d ++ addr_port d) o1; store 0 h o)
    = Some (quiet st0 (Some (map Some (request_msg d))) s c snt rcv)).
  { refine (eq_trans (store_two h (addr_ip d ++ addr_port d) b' o1 eq_refl _) eq_refl). rewrite Hb'. unfold request_msg. by rewrite length_app. }
  destruct (start_sending STATE_SENDING_REQUEST st0 (request_msg d) s c snt rcv (true = true) bound) as (o2 & E3 & Ho2);
    [by right; right|done|done|change (22 + (Z.of_nat (length (request_msg d)) + 2) < bound); lia|done|].
  exists (set_state STATE_SENDING_REQUEST o2). split; [|done].
  destruct (store sizeof_request_header (addr_ip d ++ addr_port d) o1) as [o3|]; [|done]. cbn [mbind option_bind] in E2 |- *.
  destruct (proj2 Hargs) as [(Ht & _)|(Ht & _)]; subst h; rewrite Ht in *; cbn [Z.eqb BADDR_TYPE_IPV4 BADDR_TYPE_IPV6 Pos.eqb] in E2 |- *; cbn [mbind option_bind];
    rewrite E2; cbn [mbind option_bind]; rewrite E3; done.
Qed.

Lemma u8_byte n : 0 <= n <= 255 -> u8 n = n.
Proof. intros Hn. unfold u8. apply Z.mod_small. lia. Qed.

Lemma find_auth_type m a l : find_auth m l = Some a -> auth_type a = m /\ a ∈ l.
Proof.
  induction l as [|x l IH]; cbn [find_auth]; [done|]. destruct (auth_type x =? m) eqn:E'.
  - intros [= ->]. apply Z.eqb_eq in E'. split; [done|by left].
  - intros H. destruct (IH H). split; [done|by right].
Qed.

Lemma length_password a : Z.of_nat (length (password_msg a)) = 1 + 1 + Z.of_nat (length (username a)) + 1 + Z.of_nat (length (password a)).
Proof. unfold password_msg. rewrite !length_app. cbn. lia. Qed.

Lemma store_quiet st0 a l r s c snt rcv off : off = Z.of_nat (length a) -> (length l <= length r)%nat ->
  store off l (quiet st0 (Some (map Some a ++ r)) s c snt rcv) = Some (quiet st0 (Some (map Some (a ++ l) ++ drop (length l) r)) s c snt rcv).
Proof. intros Ho Hl. by rewrite (store_next off a l r) by done. Qed.

Lemma write_password_ok a b st0 s c snt rcv : good_password a = true -> length b = length (password_msg a) ->
  write_password a (quiet st0 (Some b) s c snt rcv) = Some (quiet st0 (Some (map Some (password_msg a))) s c snt rcv).
Proof.
  unfold good_password. intros Hg Hb. pose proof (length_password a) as Hlp.
  rewrite !andb_true_iff, !Nat.ltb_lt, !Nat.leb_le in Hg. destruct Hg as [[[Hu1 Hu2] Hp1] Hp2].
  unfold write_password. rewrite !u8_byte by lia.
  change (Some b) with (Some (map Some [] ++ b)).
  do 4 (rewrite store_quiet by (rewrite ?length_app, ?length_drop; cbn [length app]; lia); cbn [mbind option_bind]).
  rewrite store_quiet by (rewrite ?length_app, ?length_drop; cbn [length app]; lia).
  do 3 f_equal.
  rewrite !drop_drop, (drop_ge b) by (cbn [length app]; lia). rewrite app_nil_r. unfold password_msg. by rewrite <- !app_assoc.
Qed.

Lemma received_hello_ok ok v m free s c snt rcv bound : idle s -> 563 < bound ->
  (forall bs, dialogue ai d (rcv ++ bs) = hello_dialogue ai d snt bs) ->
  exists o', received_hello ok (quiet STATE_SENT_HELLO (Some (map Some [v; m] ++ free)) s c snt (rcv ++ [v; m])) = Some o'
    /\ outcome (ok = true) bound o'.
Proof.
  intros Hs Hbd Hd. unfold received_hello. rewrite (load8_ok 0 [] v [m] free) by done. rewrite (load8_ok 1 [v] m [] free) by done.
  cbn [mbind option_bind]. change (auth_info (quiet STATE_SENT_HELLO (Some (map Some [v; m] ++ free)) s c snt (rcv ++ [v; m]))) with ai.
  assert (Hd' : forall bs, dialogue ai d ((rcv ++ [v; m]) ++ bs) = hello_dialogue ai d snt (v :: m :: bs)) by (intros bs; by rewrite <- app_assoc, Hd).
  pose proof (Hd' []) as Hd0. rewrite app_nil_r in Hd0. cbn [hello_dialogue] in Hd', Hd0. unfold SOCKS_VERSION.
  assert (Hrep : dialogue ai d (rcv ++ [v; m]) = Refused snt ->
    exists o', Some (report_error BSOCKSCLIENT_EVENT_ERROR (quiet STATE_SENT_HELLO (Some (map Some [v; m] ++ free)) s c snt (rcv ++ [v; m]))) = Some o'
      /\ outcome (ok = true) bound o') by (intros Hr; eexists; split; [done|]; by apply report_dead).
  destruct (negb (v =? 5)); [by apply Hrep|].
  destruct (find_auth m ai) as [a|] eqn:Ha; [|by apply Hrep]. apply find_auth_type in Ha as [Ha Hin].
  rewrite Ha. unfold SOCKS_METHOD_NO_AUTHENTICATION_REQUIRED, SOCKS_METHOD_USERNAME_PASSWORD. destruct (m =? 0) eqn:Hm0.
  { apply auth_finished_ok; [done|done|done|lia|done]. }
  assert (Hm : m = 2). { apply Z.eqb_neq in Hm0. pose proof (proj1 (Forall_forall _ _) (proj1 Hargs) a Hin) as [?|?]; lia. }
  rewrite Hm in *. cbn [Z.eqb Pos.eqb].
  assert (Hgp : (Z.of_nat (length (username a)) =? 0) || (255 <? Z.of_nat (length (username a))) || (Z.of_nat (length (password a)) =? 0)
    || (255 <? Z.of_nat (length (password a))) = negb (good_password a)).
  { unfold good_password. apply eq_true_iff_eq. rewrite !orb_true_iff, negb_true_iff, !andb_false_iff, !Z.eqb_eq, !Z.ltb_lt, !Nat.ltb_ge, !Nat.leb_gt. lia. }
  rewrite Hgp. destruct (good_password a) eqn:Hg; cbn [negb]; [|by apply Hrep]. rewrite <- length_password.
  assert (Hlp : Z.of_nat (length (password_msg a)) <= 513).
  { rewrite length_password. unfold good_password in Hg. rewrite !andb_true_iff, !Nat.ltb_lt, !Nat.leb_le in Hg. lia. }
  destruct (reserve_ok ok (bsize_fromsize (Z.of_nat (length (password_msg a))))
    (quiet STATE_SENT_HELLO (Some (map Some [v; 2] ++ free)) s c snt (rcv ++ [v; 2]))) as (b' & E' & Hb');
    [done|by apply quiet_not_in_use|cbn [value bsize_fromsize]; lia|].
  cbn [value bsize_fromsize] in *. rewrite Nat2Z.id in Hb'. rewrite E'.
  destruct ok; cbn [mbind option_bind negb]; [|eexists; split; [done|]; by apply report_dead].
  change (set_buffer (Some b') (quiet STATE_SENT_HELLO (Some (map Some [v; 2] ++ free)) s c snt (rcv ++ [v; 2])))
    with (quiet STATE_SENT_HELLO (Some b') s c snt (rcv ++ [v; 2])).
  rewrite write_password_ok by done. cbn [mbind option_bind].
  destruct (start_sending STATE_SENDING_PASSWORD STATE_SENT_HELLO (password_msg a) s c snt (rcv ++ [v; 2]) (true = true) bound) as (o2 & E3 & Ho2);
    [by right; left|done|done|change (48 + (Z.of_nat (length (password_msg a)) + 2) < bound); lia|done|].
  rewrite E3. cbn [mbind option_bind]. by eexists.
Qed.

Lemma received_password_ok ok v m free s c snt rcv bound : idle s -> 46 < bound ->
  (forall bs, dialogue ai d (rcv ++ bs) = password_dialogue d snt bs) ->
  exists o', received_password_reply ok (quiet STATE_SENT_PASSWORD (Some (map Some [v; m] ++ free)) s c snt (rcv ++ [v; m])) = Some o'
    /\ outcome (ok = true) bound o'.
Proof.
  intros Hs Hbd Hd. unfold received_password_reply. rewrite (load8_ok 0 [] v [m] free) by done. rewrite (load8_ok 1 [v] m [] free) by done.
  cbn [mbind option_bind].
  assert (Hd' : forall bs, dialogue ai d ((rcv ++ [v; m]) ++ bs) = password_dialogue d snt (v :: m :: bs)) by (intros bs; by rewrite <- app_assoc, Hd).
  pose proof (Hd' []) as Hd0. rewrite app_nil_r in Hd0. cbn [password_dialogue] in Hd', Hd0.
  destruct (v =? 1); cbn [negb andb] in *; [|eexists; split; [done|]; by apply report_dead].
  destruct (m =? 0); cbn [negb andb] in *; [|eexists; split; [done|]; by apply report_dead]. by apply auth_finished_ok.
Qed.

Lemma do_receive_quiet st b s c snt rcv : recv_len c < recv_total c -> do_receive (quiet st b s c snt rcv)
  = Some (mkClient ai d st b (Some s) c
      (mkWorld Connected (Some (mkCon Ready (Busy (recv_dest c + recv_len c) (recv_total c - recv_len c)))) snt rcv [])).
Proof. intros Hc. unfold do_receive, Receiver_Recv, quiet. cbn [ctl env con]. by rewrite (proj2 (Z.ltb_lt _ _)) by lia. Qed.

(** Starting to receive at the end of what the buffer holds. *)
Lemma start_receiving st st0 dest total pre free s c snt rcv (ok : Prop) bound :
  awaits st dest total pre -> idle s -> room st total <= Z.of_nat (length free) ->
  budget (set_state st (quiet st0 None s (mkControl dest 0 total) snt rcv)) < bound ->
  (forall bs, dialogue ai d (rcv ++ bs) = rest_of st snt (pre ++ bs)) ->
  exists o', start_receive dest total (quiet st0 (Some (map Some pre ++ free)) s c snt rcv) = Some o' /\ outcome ok bound (set_state st o').
Proof.
  intros Ha Hs Hf Hb Hd. unfold start_receive. assert (0 < total) by (inversion Ha; subst; lia).
  change (set_ctl ?c (quiet ?st ?b s _ snt ?r)) with (quiet st b s c snt r). rewrite do_receive_quiet by done. eexists. split; [done|]. left. split; [|exact Hb].
  pose proof (AliveReceiving st dest total pre [] free s snt rcv Ha Hs) as Hal. rewrite !app_nil_r in Hal. apply Hal; [|cbn; lia|cbn; lia|done].
  by inversion Ha.
Qed.

Lemma received_header_ok v r x t free s c snt rcv (ok : Prop) bound : idle s -> 18 < bound -> (18 <= length free)%nat ->
  (forall bs, dialogue ai d (rcv ++ bs) = reply_dialogue snt bs) ->
  exists o', received_reply_header (quiet STATE_SENT_REQUEST (Some (map Some [v; r; x; t] ++ free)) s c snt (rcv ++ [v; r; x; t])) = Some o'
    /\ outcome ok bound o'.
Proof.
  intros Hs Hbd Hf Hd. unfold received_reply_header. rewrite (load8_ok 0 [] v [r; x; t] free) by done.
  rewrite (load8_ok 1 [v] r [x; t] free) by done. rewrite (load8_ok 3 [v; r; x] t [] free) by done. cbn [mbind option_bind].
  assert (Hd' : forall bs, dialogue ai d ((rcv ++ [v; r; x; t]) ++ bs) = reply_dialogue snt ([v; r; x; t] ++ bs)) by (intros bs; by rewrite <- app_assoc, Hd).
  pose proof (Hd' []) as Hd0. rewrite app_nil_r in Hd0. cbn [reply_dialogue app] in Hd0.
  unfold SOCKS_VERSION, SOCKS_REP_SUCCEEDED, SOCKS_ATYP_IPV4, SOCKS_ATYP_IPV6, sizeof_addr_ipv4, sizeof_addr_ipv6, sizeof_reply_header.
  destruct (v =? 5) eqn:Hv; cbn [negb andb] in *; [|eexists; split; [done|]; by apply report_dead].
  destruct (r =? 0) eqn:Hr; cbn [negb andb] in *; [|eexists; split; [done|]; by apply report_dead].
  apply Z.eqb_eq in Hv, Hr. subst v r. destruct (t =? 1) eqn:Ht1; [|destruct (t =? 4) eqn:Ht4].
  - apply Z.eqb_eq in Ht1. subst t.
    destruct (start_receiving STATE_RECEIVED_REPLY_HEADER STATE_SENT_REQUEST 4 6 [5; 0; x; 1] free s c snt (rcv ++ [5; 0; x; 1]) ok bound)
      as (o' & E' & Ho'); [constructor|done|unfold room; cbn; lia|change (6 < bound); lia|done|]. rewrite E'. cbn [mbind option_bind]. by eexists.
  - apply Z.eqb_eq in Ht4. subst t.
    destruct (start_receiving STATE_RECEIVED_REPLY_HEADER STATE_SENT_REQUEST 4 18 [5; 0; x; 4] free s c snt (rcv ++ [5; 0; x; 4]) ok bound)
      as (o' & E' & Ho'); [constructor|done|unfold room; cbn; lia|change (18 < bound); lia|done|]. rewrite E'. cbn [mbind option_bind]. by eexists.
  - eexists; split; [done|]; by apply report_dead.
Qed.

Lemma received_rest_ok b s c snt rcv (ok : Prop) bound : idle s -> 0 < bound -> dialogue ai d rcv = Established snt [] ->
  exists o', received_reply_rest (quiet STATE_RECEIVED_REPLY_HEADER b s c snt rcv) = Some o' /\ outcome ok bound o'.
Proof.
  intros Hs Hbd Hd. unfold received_reply_rest, BFree. rewrite quiet_not_in_use by done. cbn [mbind option_bind].
  eexists. split; [reflexivity|]. left. split; [|done]. by apply (AliveUp c snt rcv).
Qed.

Lemma room_total st dest total pre : awaits st dest total pre -> total <= room st total.
Proof. inversion 1; subst; unfold room; cbn; lia. Qed.

(** A message that was received completely. *)
Lemma message_ok ok st dest total pre got free s c snt rcv bound :
  awaits st dest total pre -> idle s -> Z.of_nat (length got) = total -> room st total <= Z.of_nat (length got + length free) ->
  (forall bs, dialogue ai d (rcv ++ bs) = rest_of st snt (pre ++ bs)) ->
  recv_len c = recv_total c ->
  budget (quiet st None s (mkControl 0 0 1) snt rcv) <= bound ->
  exists o',
    (let o := quiet st (Some (map Some (pre ++ got) ++ free)) s c snt (rcv ++ got) in
     if state o =? STATE_SENT_HELLO then received_hello ok o
     else if state o =? STATE_SENT_REQUEST then received_reply_header o
     else if state o =? STATE_SENT_PASSWORD then received_password_reply ok o
     else if state o =? STATE_RECEIVED_REPLY_HEADER then received_reply_rest o else None) = Some o'
    /\ outcome (ok = true) bound o'.
Proof.
  intros Ha Hs Hlen Hroom Hd Hc Hb. cbn zeta. change (state (quiet st _ s c snt _)) with st.
  destruct Ha; cbn [Z.eqb Pos.eqb STATE_SENT_HELLO STATE_SENT_REQUEST STATE_SENT_PASSWORD STATE_RECEIVED_REPLY_HEADER app] in *.
  - destruct got as [|v [|m [|]]]; cbn [length] in Hlen; try lia. apply received_hello_ok; [done|change (564 <= bound) in Hb; lia|done].
  - destruct got as [|v [|m [|]]]; cbn [length] in Hlen; try lia. apply received_password_ok; [done|change (47 <= bound) in Hb; lia|done].
  - destruct got as [|v [|r [|x [|t [|]]]]]; cbn [length] in Hlen; try lia.
    apply received_header_ok; [done|change (19 <= bound) in Hb; lia|unfold room in Hroom; cbn in Hroom; lia|done].
  - apply received_rest_ok; [done|change (1 <= bound) in Hb; lia|]. rewrite Hd. cbn. rewrite decide_True by lia. by rewrite drop_ge by lia.
  - apply received_rest_ok; [done|change (1 <= bound) in Hb; lia|]. rewrite Hd. cbn. rewrite decide_True by lia. by rewrite drop_ge by lia.
Qed.

Lemma received_step st dest total pre got free s snt rcv data ok :
  awaits st dest total pre -> idle s -> dest = Z.of_nat (length pre) -> Z.of_nat (length got) < total ->
  room st total <= Z.of_nat (length got + length free) ->
  (forall bs, dialogue ai d (rcv ++ bs) = rest_of st snt (pre ++ bs)) ->
  0 < Z.of_nat (length data) <= total - Z.of_nat (length got) ->
  let o := mkClient ai d st (Some (map Some (pre ++ got) ++ free)) (Some s) (mkControl dest (Z.of_nat (length got)) total)
        (mkWorld Connected (Some (mkCon Ready (Busy (dest + Z.of_nat (length got)) (total - Z.of_nat (length got))))) snt (rcv ++ got) []) in
  exists o', step (EvReceived data ok) o = Some o' /\ outcome (ok = true) (budget o) o'.
Proof.
  intros Ha Hs Hdest Hgot Hroom Hd Hdata o. pose proof (room_total _ _ _ _ Ha) as Hrt.
  cbn [step]. unfold deliver_bytes. cbn [env con o].
  erewrite store_next; [|reflexivity|rewrite length_app; lia|lia]. cbn [mbind option_bind].
  change (set_env _ _) with (quiet st (Some (map Some ((pre ++ got) ++ data) ++ drop (length data) free)) s
    (mkControl dest (Z.of_nat (length got)) total) snt ((rcv ++ got) ++ data)). rewrite <- !app_assoc.
  unfold recv_handler_done. change (ctl (quiet _ _ _ ?c _ _)) with c. cbn [recv_dest recv_len recv_total].
  rewrite (proj2 (Z.leb_le 0 _)), (proj2 (Z.leb_le (Z.of_nat (length data)) _)) by lia. cbn [andb negb].
  change (set_ctl ?c (quiet st ?b s _ snt ?r)) with (quiet st b s c snt r). change (ctl (quiet _ _ _ ?c _ _)) with c. cbn [recv_len recv_total].
  set (got' := got ++ data) in *. assert (Hg' : Z.of_nat (length got') = Z.of_nat (length got) + Z.of_nat (length data)) by (subst got'; rewrite length_app; lia).
  assert (Hroom' : room st total <= Z.of_nat (length got' + length (drop (length data) free))) by (rewrite length_drop; lia).
  rewrite <- Hg'. destruct (Z.of_nat (length got') <? total) eqn:Hlt.
  - apply Z.ltb_lt in Hlt. rewrite do_receive_quiet by (cbn; lia). eexists. split; [done|]. left. split.
    + by apply (AliveReceiving st dest total pre got' _ s snt rcv).
    + inversion Ha; subst; unfold budget, recv_budget; cbn; lia.
  - apply Z.ltb_ge in Hlt. apply message_ok with (dest := dest) (total := total); [done|done|lia|done|done|cbn; lia|].
    inversion Ha; subst; unfold budget, recv_budget; cbn; lia.
Qed.

(** The buffer for the next answer, and the start of its reception. *)
Lemma receive_next ok size total st st0 b s c snt rcv bound :
  st0 <> STATE_CONNECTING -> st0 <> STATE_UP -> awaits st 0 total [] -> idle s -> is_overflow size = false -> value size = room st total ->
  budget (set_state st (quiet st0 None s (mkControl 0 0 total) snt rcv)) < bound ->
  (forall bs, dialogue ai d (rcv ++ bs) = rest_of st snt bs) ->
  exists o', ('(r, o) ← reserve_buffer ok size (quiet st0 b s c snt rcv);
    if negb r then Some (report_error BSOCKSCLIENT_EVENT_ERROR o) else
    o ← start_receive 0 total o; Some (set_state st o)) = Some o' /\ outcome (ok = true) bound o'.
Proof.
  intros H1 H2 Ha Hs Ho Hv Hb Hd. pose proof (room_total _ _ _ _ Ha).
  destruct (reserve_ok ok size (quiet st0 b s c snt rcv)) as (b' & E' & Hb'); [done|by apply quiet_not_in_use|inversion Ha; lia|].
  rewrite E'. destruct ok; cbn [mbind option_bind negb]; [|eexists; split; [done|]; by apply report_dead].
  destruct (start_receiving st st0 0 total [] b' s c snt rcv (true = true) bound) as (o2 & E2 & Ho2); [done|done|rewrite Hb', <- Hv; lia|done|done|].
  change (set_buffer (Some b') (quiet st0 b s c snt rcv)) with (quiet st0 (Some (map Some [] ++ b')) s c snt rcv).
  rewrite E2. cbn [mbind option_bind]. by eexists.
Qed.

Lemma send_done_ok ok st b s c snt rcv : sending_state st -> idle s ->
  (forall bs, dialogue ai d (rcv ++ bs) = rest_of st snt bs) ->
  exists o', send_handler_done ok (quiet st (Some b) s c snt rcv) = Some o'
    /\ outcome (ok = true) (budget (quiet st (Some b) (mkSender PPI_STATE_DONE_PENDING 0 0 0 0 0) c snt rcv)) o'.
Proof.
  intros Hst Hs Hd. unfold send_handler_done.
  change (bool_decide (is_Some (buffer (quiet st (Some b) s c snt rcv)))) with true. cbn [negb]. change (state (quiet st (Some b) s c snt rcv)) with st.
  destruct Hst as [->|[->| ->]]; cbn [Z.eqb Pos.eqb STATE_SENDING_HELLO STATE_SENDING_REQUEST STATE_SENDING_PASSWORD];
    (apply receive_next; [done|done|constructor|done|done|done|reflexivity|done]).
Qed.

(** Sending from the [k]-th byte on. *)
Lemma send_data_ok st msg base s c rcv k (ok : Prop) bound :
  sending_state st -> Z.of_nat (length msg) <= max_len st -> (forall bs, dialogue ai d (rcv ++ bs) = rest_of st (base ++ msg) bs) ->
  ppi s = PPI_STATE_BUSY -> in_len s = Z.of_nat (length msg) -> in_ptr s = 0 -> in_used s = Z.of_nat k -> (k <= length msg)%nat ->
  budget (quiet st None s c [] []) < bound ->
  exists o', send_data (quiet st (Some (map Some msg)) s c (base ++ take k msg) rcv) = Some o' /\ outcome ok bound o'.
Proof.
  intros Hst Hlen Hd Hp Hl H0 Hu Hk Hb. unfold send_data, quiet. cbn [send_sender mbind option_bind]. rewrite Hl, Hu, H0.
  rewrite (proj2 (Z.leb_le 0 _)) by lia. cbn [negb].
  destruct (Z.of_nat k <? Z.of_nat (length msg)) eqn:E'.
  - apply Z.ltb_lt in E'. unfold Sender_Send. cbn [env con]. rewrite (proj2 (Z.ltb_lt _ _)) by lia. eexists. split; [done|].
    left. split; [|exact Hb]. rewrite Z.add_0_l. apply (AliveSending st msg base); [done| |done|done]. apply SendBusy; [done|done|done|done|lia].
  - apply Z.ltb_ge in E'. unfold PacketPassInterface_Done. cbn [send_sender set_sender mbind option_bind ppi]. rewrite Hp.
    eexists. split; [done|]. left. split.
    + apply (AliveSending st msg base); [done| |done|done]. rewrite take_ge by lia. by apply SendDone.
    + enough (budget (quiet st None s c [] []) = budget (quiet st None (mkSender PPI_STATE_DONE_PENDING 0 0 0 0 0) c [] [])) as Heq.
      { rewrite Heq in Hb. exact Hb. }
      assert (Hsb : send_budget (quiet st None s c [] []) = 1) by (unfold send_budget, quiet; cbn [send_sender]; rewrite Hp, Hl, Hu; lia).
      unfold budget. rewrite Hsb. reflexivity.
Qed.

Lemma operation_step st msg base s c rcv :
  sending_state st -> Z.of_nat (length msg) <= max_len st -> (forall bs, dialogue ai d (rcv ++ bs) = rest_of st (base ++ msg) bs) ->
  ppi s = PPI_STATE_OPERATION_PENDING -> job_operation_data s = 0 -> job_operation_len s = Z.of_nat (length msg) -> in_len s = -1 ->
  let o := quiet st (Some (map Some msg)) s c base rcv in
  exists o', step EvOperation o = Some o' /\ outcome True (budget o) o'.
Proof.
  intros Hst Hlen Hd Hp H0 Hl Hi o. cbn [step]. unfold job_operation, o, quiet. cbn [send_sender mbind option_bind]. rewrite Hp.
  unfold input_handler_send. cbn [send_sender set_sender mbind option_bind in_len]. rewrite Hi, (proj2 (Z.leb_le 0 (job_operation_len s))) by lia. cbn [Z.eqb Pos.eqb negb andb].
  pose proof (send_data_ok st msg base (mkSender PPI_STATE_BUSY (job_operation_data s) (job_operation_len s) (job_operation_len s) (job_operation_data s) 0)
    c rcv 0 True (budget o)) as H. rewrite take_0, app_nil_r in H. apply H; [done|done|done|done|done|done|done|lia|].
  unfold budget, send_budget, o, quiet. cbn [send_sender state ppi in_len in_used]. rewrite Hp, Hl.
  destruct Hst as [->|[->| ->]]; cbn; lia.
Qed.

Lemma sent_step st msg base s c rcv k n :
  sending_state st -> Z.of_nat (length msg) <= max_len st -> (forall bs, dialogue ai d (rcv ++ bs) = rest_of st (base ++ msg) bs) ->
  ppi s = PPI_STATE_BUSY -> in_len s = Z.of_nat (length msg) -> in_ptr s = 0 -> in_used s = Z.of_nat k ->
  0 < n <= Z.of_nat (length msg) - Z.of_nat k ->
  let o := mkClient ai d st (Some (map Some msg)) (Some s) c
    (mkWorld Connected (Some (mkCon (Busy (Z.of_nat k) (Z.of_nat (length msg) - Z.of_nat k)) Ready)) (base ++ take k msg) rcv []) in
  exists o', step (EvSent n) o = Some o' /\ outcome True (budget o) o'.
Proof.
  intros Hst Hlen Hd Hp Hl H0 Hu Hn o. cbn [step]. unfold take_bytes. cbn [env con o].
  assert (Hmsg : map Some msg = map Some (take k msg ++ take (Z.to_nat n) (drop k msg)) ++ map Some (drop (Z.to_nat n) (drop k msg))).
  { by rewrite <- map_app, <- app_assoc, !take_drop. }
  rewrite (load_ok (Z.of_nat k) n (take k msg) (take (Z.to_nat n) (drop k msg)) (map Some (drop (Z.to_nat n) (drop k msg))));
    [|cbn [buffer o]; by rewrite <- Hmsg|rewrite length_take; lia|rewrite length_take, length_drop; lia].
  cbn [mbind option_bind]. unfold output_handler_done, o. cbn [send_sender set_env mbind option_bind env connector sent received reports].
  rewrite Hl, Hu, (proj2 (Z.leb_le 0 _)), (proj2 (Z.ltb_lt 0 _)), (proj2 (Z.leb_le n _)) by lia. cbn [andb negb].
  rewrite <- app_assoc. replace (take k msg ++ take (Z.to_nat n) (drop k msg)) with (take (k + Z.to_nat n) msg) by (by rewrite take_take_drop).
  apply send_data_ok; [done|done|done|done|done|done|cbn; lia|lia|].
  unfold budget, send_budget, o, quiet. cbn [send_sender state ppi in_len in_used]. rewrite Hp, Hl, Hu. destruct Hst as [->|[->| ->]]; cbn; lia.
Qed.

(** The events while a message is sent. *)
Lemma sending_steps st msg base cs s c snt rcv ev :
  sending_state st -> sending_msg msg base cs s snt -> Z.of_nat (length msg) <= max_len st ->
  (forall bs, dialogue ai d (rcv ++ bs) = rest_of st (base ++ msg) bs) ->
  let o := mkClient ai d st (Some (map Some msg)) (Some s) c (mkWorld Connected (Some (mkCon cs Ready)) snt rcv []) in
  possible ev o = true -> (forall e, ev <> EvConnection e) ->
  exists o', step ev o = Some o' /\ outcome (clean ev = true) (budget o) o'.
Proof.
  intros Hst Hm Hlen Hd o Hp Hne. unfold possible, ppi_is, o in Hp. cbn [failed reports env last negb andb send_sender con connector] in Hp.
  assert (Hc : forall (o' : BSocksClient) (P : Prop) b, outcome True b o' -> outcome P b o') by (unfold outcome; tauto).
  destruct Hm as [s Hs1 Hs2 Hs3 Hs4|s k Hs1 Hs2 Hs3 Hs4 Hk|s Hs1 Hs2]; destruct ev as [| |  |n|ok|]; rewrite ?Hs1 in Hp; try done; try (by destruct (Hne e)).
  - destruct (operation_step st msg base s c rcv) as (o' & E' & Ho'); try done. exists o'. split; [done|]. by apply Hc.
  - apply andb_true_iff in Hp as [H1%Z.ltb_lt H2%Z.leb_le].
    destruct (sent_step st msg base s c rcv k n) as (o' & E' & Ho'); try done. exists o'. split; [done|]. by apply Hc.
  - assert (Hbud : budget o = budget (quiet st (Some (map Some msg)) (mkSender PPI_STATE_DONE_PENDING 0 0 0 0 0) c (base ++ msg) rcv))
      by (unfold budget, send_budget, o, quiet; cbn [send_sender state ppi]; by rewrite Hs1).
    rewrite Hbud. cbn [step clean]. unfold job_done, o. cbn [send_sender mbind option_bind]. rewrite Hs1.
    by apply send_done_ok.
Qed.

Lemma write_methods_ok l st0 s c snt rcv : Forall (fun a => auth_type a = 0 \/ auth_type a = 2) l -> forall i a r,
  2 + i = Z.of_nat (length a) -> (length l <= length r)%nat ->
  write_methods i l (quiet st0 (Some (map Some a ++ r)) s c snt rcv)
    = Some (quiet st0 (Some (map Some (a ++ map auth_type l) ++ drop (length l) r)) s c snt rcv).
Proof.
  induction 1 as [|x l Hx _ IH]; intros i a r Hi Hr; cbn [write_methods map length] in *; [by rewrite app_nil_r, drop_0|].
  rewrite store_quiet by (unfold sizeof_hello_header, sizeof_hello_method; cbn [length]; lia). cbn [mbind option_bind].
  rewrite IH by (rewrite ?length_app, ?length_drop; cbn [length]; lia). rewrite u8_byte by lia. do 4 f_equal.
  - by rewrite <- app_assoc.
  - by rewrite drop_drop.
Qed.

(** The number of methods that the protocol allows. *)
Definition methods_ok : Prop := (1 <= length ai <= 255)%nat.

Definition initial (c : control) : BSocksClient := mkClient ai d STATE_CONNECTING None None c (mkWorld Connecting None [] [] []).

(** Failing while the state is still STATE_CONNECTING. *)
Lemma connecting_dead b c w (ok : Prop) bound : connector w <> NoConnector -> con w = None -> reports w = [] -> ~ ok ->
  outcome ok bound (report_error BSOCKSCLIENT_EVENT_ERROR (mkClient ai d STATE_CONNECTING b None c w)).
Proof.
  intros H1 H2 H3 Hok. right. split; [|done]. left. split; [by constructor|].
  exists BSOCKSCLIENT_EVENT_ERROR. split; [cbn; by rewrite H3|by left].
Qed.

Lemma hello_size : 0 < Z.of_nat (length ai) <= 255 ->
  bsize_add (bsize_fromsize sizeof_hello_header) (bsize_mul (bsize_fromsize (Z.of_nat (length ai))) (bsize_fromsize sizeof_hello_method))
  = bsize_fromsize (Z.of_nat (length (hello_msg ai))).
Proof.
  intros Hn. unfold hello_msg, bsize_mul, bsize_add, bsize_fromsize, sizeof_hello_method, sizeof_hello_header, SIZE_MAX.
  cbn [is_overflow value orb length]. rewrite length_map.
  rewrite (proj2 (Z.eqb_neq (Z.of_nat (length ai)) 0)) by lia. cbn [negb andb].
  assert (1 <= (2 ^ 64 - 1) / Z.of_nat (length ai)) by (apply Z.div_le_lower_bound; lia).
  rewrite (proj2 (Z.ltb_ge _ 1)) by lia. rewrite Z.mul_1_r, (Z.mod_small (Z.of_nat (length ai))) by lia.
  rewrite (proj2 (Z.ltb_ge _ _)) by lia. rewrite Z.mod_small by lia. f_equal. lia.
Qed.

Lemma connector_step c is_error con_ok alloc_ok :
  exists o', step (EvConnector is_error con_ok alloc_ok) (initial c) = Some o'
    /\ outcome (clean (EvConnector is_error con_ok alloc_ok) = true /\ methods_ok) 825 o'.
Proof.
  cbn [step clean]. unfold connector_handler.
  change (negb (state (set_connector _ (initial c)) =? STATE_CONNECTING)) with false. cbn match.
  destruct is_error; cbn [negb andb]; [eexists; split; [done|]; by apply connecting_dead; try done; intros []|].
  change (BConnection_Init con_ok (set_connector Connected (initial c))) with
    (Some (if con_ok then (true, set_con (Some (mkCon NotInited NotInited)) (set_connector Connected (initial c))) else (false, set_connector Connected (initial c)))).
  destruct con_ok; cbn [mbind option_bind negb andb]; [|eexists; split; [done|]; by apply connecting_dead; try done; intros []].
  set (s0 := mkSender PPI_STATE_NONE 0 0 (-1) 0 0).
  change (init_control_io _) with (Some (quiet STATE_CONNECTING None s0 c [] [])). cbn [mbind option_bind].
  change (num_auth_info (quiet STATE_CONNECTING None s0 c [] [])) with (Z.of_nat (length ai)).
  destruct ((Z.of_nat (length ai) =? 0) || (255 <? Z.of_nat (length ai))) eqn:Hn.
  { eexists. split; [reflexivity|]. apply connecting_dead; try done. intros [_ []]. apply orb_true_iff in Hn as [?%Z.eqb_eq|?%Z.ltb_lt]; lia. }
  apply orb_false_iff in Hn as [Hn1%Z.eqb_neq Hn2%Z.ltb_ge].
  rewrite hello_size by lia.
  destruct (reserve_ok alloc_ok (bsize_fromsize (Z.of_nat (length (hello_msg ai)))) (quiet STATE_CONNECTING None s0 c [] [])) as (b & E' & Hb);
    [done|by apply quiet_not_in_use|cbn [value bsize_fromsize]; lia|].
  rewrite E'. cbn [value bsize_fromsize] in Hb |- *. rewrite Nat2Z.id in Hb.
  destruct alloc_ok; cbn [mbind option_bind negb]; [|eexists; split; [reflexivity|]; apply connecting_dead; try done; by intros []].
  change (set_buffer (Some b) (quiet STATE_CONNECTING None s0 c [] [])) with (quiet STATE_CONNECTING (Some (map Some [] ++ b)) s0 c [] []).
  assert (Hlh : length (hello_msg ai) = S (S (length ai))) by (unfold hello_msg; cbn [length]; by rewrite length_map).
  change (num_auth_info _) with (Z.of_nat (length ai)). rewrite u8_byte by lia.
  rewrite store_quiet by (cbn [length]; lia). cbn [mbind option_bind app].
  change (auth_info (quiet _ _ _ _ _ _)) with ai.
  rewrite write_methods_ok by (try apply Hargs; rewrite ?length_drop; cbn [length]; lia). cbn [mbind option_bind].
  rewrite drop_drop, (drop_ge b), app_nil_r by (cbn [length]; lia). change ([SOCKS_VERSION; Z.of_nat (length ai)] ++ map auth_type ai) with (hello_msg ai).
  destruct (start_sending STATE_SENDING_HELLO STATE_CONNECTING (hello_msg ai) s0 c [] [] ((true = true) /\ methods_ok) 825) as (o2 & E2 & Ho2);
    [by left|done|unfold max_len; cbn [Z.eqb Pos.eqb STATE_SENDING_HELLO]; lia
    |change (565 + (Z.of_nat (length (hello_msg ai)) + 2) < 825); lia|done|].
  rewrite E2. cbn [mbind option_bind]. by eexists.
Qed.

(** ** Runs *)

(** The connection fails or ends. *)
Lemma connection_step o e : alive o -> (exists x, con (env o) = Some x) ->
  exists o', step (EvConnection e) o = Some o' /\ outcome False (budget o) o'.
Proof.
  intros Ha [x Hx]. cbn [step]. unfold connection_handler.
  destruct Ha as [c|st msg base cs s c snt rcv Hst Hm _ _|st dest total pre got free s snt rcv Haw _ _ _ _ _|c snt rcv _]; [done|..]; cbn [state].
  - assert (st <> STATE_CONNECTING /\ st <> STATE_UP) as [H1 H2] by (by destruct Hst as [->|[->| ->]]).
    rewrite (proj2 (Z.eqb_neq _ _) H1), (proj2 (Z.eqb_neq _ _) H2). cbn [andb]. eexists. split; [done|]. right. split; [|done]. left.
    split; [by eapply RelControl; try done; destruct Hm|by exists BSOCKSCLIENT_EVENT_ERROR; split; [|left]].
  - assert (st <> STATE_CONNECTING /\ st <> STATE_UP) as [H1 H2] by (by destruct Haw).
    rewrite (proj2 (Z.eqb_neq _ _) H1), (proj2 (Z.eqb_neq _ _) H2). cbn [andb]. eexists. split; [done|]. right. split; [|done]. left.
    split; [by eapply RelControl|by exists BSOCKSCLIENT_EVENT_ERROR; split; [|left]].
  - cbn [Z.eqb Pos.eqb STATE_UP STATE_CONNECTING andb]. destruct (e =? BCONNECTION_EVENT_RECVCLOSED); eexists; (split; [done|]); right; (split; [|done]); right;
      (split; [by eapply RelUp|]); [exists BSOCKSCLIENT_EVENT_ERROR_CLOSED; split; [done|by right]|exists BSOCKSCLIENT_EVENT_ERROR; split; [done|by left]].
Qed.

Lemma outcome_weaken (P Q : Prop) b o : (Q -> P) -> outcome P b o -> outcome Q b o.
Proof. unfold outcome. tauto. Qed.

Lemma alive_step o ev : alive o -> possible ev o = true ->
  exists o', step ev o = Some o' /\ outcome (clean ev = true /\ methods_ok) (budget o) o'.
Proof.
  intros Ha Hp. destruct (match ev with EvConnection _ => true | _ => false end) eqn:Hev.
  { destruct ev; try done. destruct (connection_step o e Ha) as (o' & E' & Ho').
    - unfold possible in Hp. apply andb_true_iff in Hp as [_ Hp]. destruct (con (env o)); [by eexists|done].
    - exists o'. split; [done|]. apply (outcome_weaken False); [by intros []|done]. }
  destruct Ha as [c|st msg base cs s c snt rcv Hst Hm Hl Hd|st dest total pre got free s snt rcv Haw Hs Hde Hg Hr Hd|c snt rcv _].
  - destruct ev; try done. apply connector_step.
  - destruct (sending_steps st msg base cs s c snt rcv ev Hst Hm Hl Hd Hp) as (o' & E' & Ho'); [by intros e ->|].
    exists o'. split; [done|]. by apply (outcome_weaken (clean ev = true)); [intros []|].
  - unfold possible, ppi_is in Hp. cbn [failed reports env last negb andb send_sender con connector] in Hp.
    destruct Hs as [Hs1 Hs2]. destruct ev as [| | | | |data ok]; rewrite ?Hs1 in Hp; try done.
    apply andb_true_iff in Hp as [H1%Z.ltb_lt H2%Z.leb_le].
    destruct (received_step st dest total pre got free s snt rcv data ok) as (o' & E' & Ho'); try done.
    exists o'. split; [done|]. by apply (outcome_weaken (ok = true)); [intros []|].
  - by destruct ev.
Qed.

Lemma dead_impossible o ev : dead o -> possible ev o = false.
Proof.
  intros Hd. assert (Hf : failed o = true).
  { unfold failed. destruct Hd as [(_ & e & -> & He)|(_ & e & -> & He)]; rewrite last_snoc; by destruct He as [->|[-> _]]. }
  unfold possible. by rewrite Hf.
Qed.

Lemma alive_budget o : alive o -> 0 <= budget o.
Proof.
  destruct 1 as [c|st msg base cs s c snt rcv Hst Hm _ _|st dest total pre got free s snt rcv Haw _ _ Hg _ _|c snt rcv _];
    unfold budget, send_budget, recv_budget; cbn [state send_sender ctl recv_total recv_len]; [done| |destruct Haw; cbn; lia|done].
  destruct Hm as [s Hs1 _ -> _|s k Hs1 -> _ -> Hk|s Hs1 _]; rewrite Hs1; destruct Hst as [->|[->| ->]]; cbn; lia.
Qed.

(** Every run ends alive, or dead after its last event. *)
Lemma run_ok evs : forall o, alive o -> possible_run evs o = true ->
  exists o', run evs o = Some o'
    /\ ((alive o' /\ Z.of_nat (length evs) + budget o' <= budget o)
        \/ (dead o' /\ Z.of_nat (length evs) <= budget o + 1
            /\ (forallb clean evs = true -> methods_ok -> reports (env o') = [BSOCKSCLIENT_EVENT_ERROR] /\ dialogue ai d (received (env o')) = Refused (sent (env o'))))).
Proof.
  induction evs as [|ev evs IH]; intros o Ha Hp; cbn [run possible_run forallb length] in *.
  { exists o. split; [done|]. left. split; [done|]. lia. }
  apply andb_true_iff in Hp as [Hp Hps]. destruct (alive_step o ev Ha Hp) as (o1 & E1 & [[Ha1 Hb1]|[Hd1 Hr1]]); rewrite E1 in *; cbn [mbind option_bind].
  - destruct (IH o1 Ha1 Hps) as (o2 & E2 & [[Ha2 Hb2]|(Hd2 & Hb2 & Hr2)]); exists o2; (split; [done|]); [left; split; [done|lia]|].
    right. split; [done|]. split; [lia|]. intros [_ Hc]%andb_true_iff. by apply Hr2.
  - destruct evs as [|ev2 evs]; cbn [run possible_run length] in *; [|rewrite (dead_impossible o1 ev2 Hd1) in Hps; done].
    exists o1. split; [done|]. right. split; [done|]. split; [|intros [Hc _]%andb_true_iff Hm; by apply Hr1].
    pose proof (alive_budget o Ha). lia.
Qed.

Lemma alive_releasable o : alive o -> releasable o.
Proof.
  destruct 1 as [c|st msg base cs s c snt rcv Hst Hm _ _|st dest total pre got free s snt rcv Haw _ _ _ _ _|c snt rcv _].
  - by constructor.
  - eapply RelControl; [by destruct Hst as [->|[->| ->]]|by destruct Hst as [->|[->| ->]]|done|done|by destruct Hm|done].
  - eapply RelControl; [by destruct Haw|by destruct Haw|done|done|done|done].
  - by eapply RelUp.
Qed.

(** Nothing is left of the client. *)
Definition released (o : BSocksClient) : Prop :=
  connector (env o) = NoConnector /\ con (env o) = None /\ send_sender o = None /\ buffer o = None.

Lemma free_ok o : releasable o -> exists o', BSocksClient_Free o = Some o' /\ released o'.
Proof.
  intros Hr. unfold BSocksClient_Free.
  destruct Hr as [b c [k cn x y z] Hk Hcn|b c [k cn x y z] cs cr Hk Hcn Hs Hr|st b s c [k cn x y z] cs cr H1 H2 Hk Hcn Hs Hr];
    cbn [connector con state] in *; subst cn.
  - destruct k, b; try done; eexists; (split; [reflexivity|done]).
  - destruct k, b, cs, cr; try done; eexists; (split; [reflexivity|done]).
  - rewrite (proj2 (Z.eqb_neq _ _) H1), (proj2 (Z.eqb_neq _ _) H2). destruct k, b, cs, cr; try done; eexists; (split; [reflexivity|done]).
Qed.

Lemma alive_reports o : alive o -> reports (env o) = [] \/ reports (env o) = [BSOCKSCLIENT_EVENT_UP].
Proof. destruct 1; [by left..|by right]. Qed.

(** What the dialogue says of a live client. *)
Lemma alive_dialogue o : alive o ->
  match dialogue ai d (received (env o)) with
  | Waiting out => reports (env o) = [] /\ sent (env o) `prefix_of` out
  | Refused _ => False
  | Established out rest => reports (env o) = [BSOCKSCLIENT_EVENT_UP] /\ sent (env o) = out /\ rest = []
  end.
Proof.
  destruct 1 as [c|st msg base cs s c snt rcv Hst Hm _ Hd|st dest total pre got free s snt rcv Haw _ _ Hg _ Hd|c snt rcv Hd]; cbn [env received sent reports].
  - split; [done|]. apply prefix_nil.
  - specialize (Hd []). rewrite app_nil_r in Hd. rewrite Hd. assert (Hw : rest_of st (base ++ msg) [] = Waiting (base ++ msg)) by (by destruct Hst as [->|[->| ->]]).
    rewrite Hw. split; [done|]. destruct Hm as [s|s k|s]; [by exists msg| |done].
    exists (drop k msg). by rewrite <- app_assoc, take_drop.
  - rewrite Hd. assert (Hw : rest_of st snt (pre ++ got) = Waiting snt); [|by rewrite Hw].
    destruct Haw; unfold rest_of; cbn [Z.eqb Pos.eqb STATE_SENDING_HELLO STATE_SENT_HELLO STATE_SENDING_PASSWORD STATE_SENT_PASSWORD STATE_SENT_REQUEST STATE_RECEIVED_REPLY_HEADER orb app].
    + destruct got as [|? [|]]; try done; cbn [length] in Hg; lia.
    + destruct got as [|? [|]]; try done; cbn [length] in Hg; lia.
    + destruct got as [|? [|? [|? [|]]]]; try done; cbn [length] in Hg; lia.
    + cbn. by rewrite decide_False by lia.
    + cbn. by rewrite decide_False by lia.
  - by rewrite Hd.
Qed.

(** A client that has reported nothing waits for something that can happen. *)
Lemma alive_progress o : alive o -> reports (env o) = [] -> exists ev, clean ev = true /\ possible ev o = true.
Proof.
  destruct 1 as [c|st msg base cs s c snt rcv Hst Hm _ Hd|st dest total pre got free s snt rcv Haw _ _ Hg _ Hd|c snt rcv Hd]; cbn [env reports]; intros Hr; [| | |done].
  - by exists (EvConnector false true true).
  - destruct Hm as [s Hs _ _ _|s k Hs _ _ _ Hk|s Hs _].
    + exists EvOperation. unfold possible, ppi_is. cbn. by rewrite Hs.
    + exists (EvSent 1). split; [done|]. unfold possible. cbn [failed reports env last negb andb con]. apply andb_true_iff. split; [done|]. apply Z.leb_le. lia.
    + exists (EvSendDone true). unfold possible, ppi_is. cbn. by rewrite Hs.
  - exists (EvReceived [0] true). split; [done|]. unfold possible. cbn [failed reports env last negb andb con]. apply andb_true_iff. split; [done|]. apply Z.leb_le. cbn [length]. lia.
Qed.

End client.

(** C32. Safety of the SOCKS client of badvpn: whatever the connector, the connection and the
    allocator do, in any order, no handler violates an assertion, uses an object that is
    not initialised, reads memory that was not written, accesses memory outside the buffer,
    or moves or frees the buffer during an operation that refers to it; the user is told
    that the client is up at most once and of at most one error, after which nothing
    happens; and freeing the client at any moment releases the connector, the connection,
    both its directions, the sender and the buffer. *)
Theorem socks_client_safe ai d evs o0 :
  args_ok ai d -> BSocksClient_Init true ai d = Some o0 -> possible_run evs o0 = true ->
  exists o o', run evs o0 = Some o
    /\ reports (env o) ∈ [[]; [BSOCKSCLIENT_EVENT_UP]; [BSOCKSCLIENT_EVENT_ERROR]; [BSOCKSCLIENT_EVENT_UP; BSOCKSCLIENT_EVENT_ERROR];
                          [BSOCKSCLIENT_EVENT_UP; BSOCKSCLIENT_EVENT_ERROR_CLOSED]]
    /\ BSocksClient_Free o = Some o' /\ released o'.
Proof.
  intros Hargs [= <-] Hp. destruct (run_ok ai d Hargs evs _ (AliveConnecting ai d (mkControl 0 0 0)) Hp) as (o & E' & Ho).
  assert (Hrel : releasable ai d o) by (destruct Ho as [[Ha _]|[[[]|[]] _]]; [by apply alive_releasable|done|done]).
  destruct (free_ok ai d o Hrel) as (o' & Ef & Hf). exists o, o'. split; [done|]. split; [|done].
  destruct Ho as [[Ha _]|[Hd _]].
  - destruct (alive_reports ai d o Ha) as [->| ->]; set_solver.
  - destruct Hd as [(_ & e & -> & [->|[_ ?]])|(_ & e & -> & [->|[-> _]])]; set_solver.
Qed.

(** C31. The SOCKS client of badvpn implements the protocol: as long as nothing outside the
    protocol fails, its state is a function of the bytes that the server has sent, however
    they were cut.  If they are a complete and positive dialogue, the client is up, has
    sent exactly the hello, the password if the server asked for it and the request, and
    has taken no byte that follows the dialogue; if they refuse, it has reported an error,
    having sent exactly what was due; otherwise it has reported nothing and sent a
    beginning of what is due. *)
Theorem socks_client_dialogue ai d evs o0 :
  args_ok ai d -> methods_ok ai -> BSocksClient_Init true ai d = Some o0 -> possible_run evs o0 = true -> forallb clean evs = true ->
  exists o, run evs o0 = Some o /\
    match dialogue ai d (received (env o)) with
    | Waiting out => reports (env o) = [] /\ sent (env o) `prefix_of` out
    | Refused out => reports (env o) = [BSOCKSCLIENT_EVENT_ERROR] /\ sent (env o) = out
    | Established out rest => reports (env o) = [BSOCKSCLIENT_EVENT_UP] /\ sent (env o) = out /\ rest = []
    end.
Proof.
  intros Hargs Hm [= <-] Hp Hc. destruct (run_ok ai d Hargs evs _ (AliveConnecting ai d (mkControl 0 0 0)) Hp) as (o & E' & Ho).
  exists o. split; [done|]. destruct Ho as [[Ha _]|(_ & _ & Hr)].
  - pose proof (alive_dialogue ai d o Ha). by destruct (dialogue ai d (received (env o))).
  - destruct (Hr Hc Hm) as [H1 H2]. by rewrite H2.
Qed.

(** C33. The handshake of the SOCKS client of badvpn ends: at most 826 events happen in the
    life of a client (each event makes progress, however little the connection takes or
    delivers at a time; once the client is up, only the end of the connection is left to
    happen), and as long as it has reported nothing it is never stuck: it waits for an
    event that can happen. *)
Theorem socks_client_terminates ai d evs o0 :
  args_ok ai d -> BSocksClient_Init true ai d = Some o0 -> possible_run evs o0 = true ->
  Z.of_nat (length evs) <= 826
  /\ exists o, run evs o0 = Some o /\ (reports (env o) = [] -> exists ev, clean ev = true /\ possible ev o = true).
Proof.
  intros Hargs [= <-] Hp. destruct (run_ok ai d Hargs evs _ (AliveConnecting ai d (mkControl 0 0 0)) Hp) as (o & E' & Ho).
  change (budget (mkClient _ _ STATE_CONNECTING _ _ _ _)) with 825 in Ho. split.
  - destruct Ho as [[Ha Hb]|(_ & Hb & _)]; [|lia]. pose proof (alive_budget ai d o Ha). lia.
  - exists o. split; [done|]. destruct Ho as [[Ha _]|[[(_ & e & -> & _)|(_ & e & -> & _)] _]]; [by apply (alive_progress ai d)|done|done].
Qed.

(** A client with both methods; the server asks for the password, and the bytes come in
    pieces. *)
Module SocksClientWitness.

Definition auths : list auth := [BSocksClient_auth_none; BSocksClient_auth_password [97; 98] [99]].
Definition dest : BAddr := mkBAddr BADDR_TYPE_IPV4 [10; 0; 0; 1] [1; 187].
Definition client0 : BSocksClient :=
  mkClient auths dest STATE_CONNECTING None None (mkControl 0 0 0) (mkWorld Connecting None [] [] []).
Definition events : list event :=
  [EvConnector false true true; EvOperation; EvSent 3; EvSent 1; EvSendDone true; EvReceived [5] true; EvReceived [2] true;
   EvOperation; EvSent 6; EvSendDone true; EvReceived [1; 0] true; EvOperation; EvSent 10; EvSendDone true;
   EvReceived [5; 0; 0] true; EvReceived [1] true; EvReceived [0; 0; 0; 0; 0] true; EvReceived [0] true].

Lemma auths_ok : args_ok auths dest.
Proof. split; [repeat constructor; cbn; lia|]. left. done. Qed.

Lemma socks_client_safe_witness :
  exists o o', run (events ++ [EvConnection 2]) client0 = Some o
    /\ reports (env o) ∈ [[]; [BSOCKSCLIENT_EVENT_UP]; [BSOCKSCLIENT_EVENT_ERROR]; [BSOCKSCLIENT_EVENT_UP; BSOCKSCLIENT_EVENT_ERROR];
                          [BSOCKSCLIENT_EVENT_UP; BSOCKSCLIENT_EVENT_ERROR_CLOSED]]
    /\ BSocksClient_Free o = Some o' /\ released o'.
Proof. exact (socks_client_safe auths dest (events ++ [EvConnection 2]) client0 auths_ok eq_refl ltac:(vm_compute; reflexivity)). Defined.

Lemma socks_client_dialogue_witness :
  dialogue auths dest [5; 2; 1; 0; 5; 0; 0; 1; 0; 0; 0; 0; 0; 0]
    = Established ([5; 2; 0; 2] ++ [1; 2; 97; 98; 1; 99] ++ [5; 1; 0; 1; 10; 0; 0; 1; 1; 187]) []
  /\ exists o, run events client0 = Some o /\
    match dialogue auths dest (received (env o)) with
    | Waiting out => reports (env o) = [] /\ sent (env o) `prefix_of` out
    | Refused out => reports (env o) = [BSOCKSCLIENT_EVENT_ERROR] /\ sent (env o) = out
    | Established out rest => reports (env o) = [BSOCKSCLIENT_EVENT_UP] /\ sent (env o) = out /\ rest = []
    end.
Proof.
  split; [vm_compute; reflexivity|].
  exact (socks_client_dialogue auths dest events client0 auths_ok ltac:(unfold methods_ok; cbn; lia) eq_refl ltac:(vm_compute; reflexivity) eq_refl).
Defined.

Lemma socks_client_terminates_witness :
  Z.of_nat (length (take 7 events)) <= 826
  /\ exists o, run (take 7 events) client0 = Some o /\ (reports (env o) = [] -> exists ev, clean ev = true /\ possible ev o = true).
Proof. exact (socks_client_terminates auths dest (take 7 events) client0 auths_ok eq_refl ltac:(vm_compute; reflexivity)). Defined.

End SocksClientWitness.
