(* ===== verification/Tun2socks.v ===== *)
(** * The TCP clients of tun2socks

    Models the TCP clients of badvpn/tun2socks/tun2socks.c: the bridge between a
    connection of an application (a [tcp_pcb] of lwIP) and a connection to the SOCKS
    server.  Both sides are driven by callbacks, either side can end first, and the
    structure is freed when both have ended.

    A function is [None] where the code would violate an assertion, use a freed client,
    a closed pcb or a freed SOCKS client.  lwIP, the SOCKS client and the reactor are the
    environment: they choose which callback comes next and what the calls return. *)

From S2P Require Import Prelude.

Definition CLIENT_SOCKS_RECV_BUF_SIZE : Z := 8192.

(** [TCP_WND] of lwIP, the size of [buf]. *)
Definition TCP_WND : Z := 4 * 1460.

(** ** State *)

(** [struct tcp_client]: [buf] holds the [buf_used] bytes that wait for the SOCKS
    connection; [socks_recv_buf] the bytes that were received from it. *)
Record tcp_client := mkClient {
  client_closed : bool;
  buf : list Z;
  socks_up : bool;
  socks_closed : bool;
  socks_recv_buf : list Z;
  socks_recv_buf_used : Z;
  socks_recv_buf_sent : Z;
  socks_recv_waiting : bool;
  socks_recv_tcp_pending : Z
}.

Definition buf_used (c : tcp_client) : Z := Z.of_nat (length (buf c)).

(** The pcb: how it ended, whether the application has ended, the callbacks that are set, the bytes that lwIP has delivered
    and those it was given, what was confirmed in each direction. *)
Inductive close_kind := Closed | Aborted | Errored.
Record pcb_side := mkPcb {
  ended : option close_kind;
  fin : bool;
  on_err : bool; on_recv : bool; on_sent : bool;
  app_in : list Z; recved : Z; app_out : list Z; acked : Z
}.

(** The SOCKS client: [SocksUp] with the number of bytes that are being sent and whether
    a receive is pending; whether its connection has ended; the bytes that were sent and
    received. *)
Inductive socks_state := SocksFreed | SocksDown | SocksUp (sending : option Z) (receiving : bool).
Record socks_side := mkSocks { socks : socks_state; failed : bool; socks_out : list Z; socks_in : list Z }.

(** A callback of lwIP that has committed its jobs: the state of its dead variable, and
    whether it still holds a pbuf. *)
Record frame := mkFrame { killed : bool; holds_pbuf : bool }.

Inductive err_t := ERR_OK | ERR_MEM | ERR_ABRT.

(** [alloc]: the client is allocated and in the list; [pbufs]: the number of pbufs that
    the client has taken over and not freed; [ret]: what the last callback returned. *)
Record State := mkState {
  alloc : bool; cl : tcp_client; pc : pcb_side; so : socks_side;
  call : option frame; pbufs : Z; ret : err_t
}.

Definition with_cl (c : tcp_client) (s : State) : State := mkState (alloc s) c (pc s) (so s) (call s) (pbufs s) (ret s).
Definition with_pc (p : pcb_side) (s : State) : State := mkState (alloc s) (cl s) p (so s) (call s) (pbufs s) (ret s).
Definition with_so (k : socks_side) (s : State) : State := mkState (alloc s) (cl s) (pc s) k (call s) (pbufs s) (ret s).
Definition with_call (f : option frame) (s : State) : State := mkState (alloc s) (cl s) (pc s) (so s) f (pbufs s) (ret s).
Definition returns (e : err_t) (s : State) : State := mkState (alloc s) (cl s) (pc s) (so s) None (pbufs s) e.
Definition add_pbufs (n : Z) (s : State) : State := mkState (alloc s) (cl s) (pc s) (so s) (call s) (pbufs s + n) (ret s).

Definition set_buf (b : list Z) (c : tcp_client) : tcp_client :=
  mkClient (client_closed c) b (socks_up c) (socks_closed c) (socks_recv_buf c) (socks_recv_buf_used c) (socks_recv_buf_sent c)
    (socks_recv_waiting c) (socks_recv_tcp_pending c).
Definition set_client_closed (c : tcp_client) : tcp_client :=
  mkClient true (buf c) (socks_up c) (socks_closed c) (socks_recv_buf c) (socks_recv_buf_used c) (socks_recv_buf_sent c)
    (socks_recv_waiting c) (socks_recv_tcp_pending c).
Definition set_socks_closed (c : tcp_client) : tcp_client :=
  mkClient (client_closed c) (buf c) (socks_up c) true (socks_recv_buf c) (socks_recv_buf_used c) (socks_recv_buf_sent c)
    (socks_recv_waiting c) (socks_recv_tcp_pending c).
Definition set_socks_up (c : tcp_client) : tcp_client :=
  mkClient (client_closed c) (buf c) true (socks_closed c) (socks_recv_buf c) (-1) (socks_recv_buf_sent c)
    (socks_recv_waiting c) 0.
Definition set_recv (b : list Z) (used sent : Z) (waiting : bool) (pending : Z) (c : tcp_client) : tcp_client :=
  mkClient (client_closed c) (buf c) (socks_up c) (socks_closed c) b used sent waiting pending.

(** What the calls to lwIP return during one event. *)
Inductive write_result := WriteOk | WriteMem | WriteErr.
Record results := mkResults { close_ok : bool; writes : list (Z * write_result); output_ok : bool }.

(** ** Calls *)

Definition assert (b : bool) (s : State) : option State := if b then Some s else None.

Definition pcb_open (s : State) : bool := match ended (pc s) with None => true | _ => false end.

Definition set_callbacks (err recv snt : bool) (s : State) : option State :=
  s ← assert (pcb_open s) s;
  let p := pc s in Some (with_pc (mkPcb (ended p) (fin p) err recv snt (app_in p) (recved p) (app_out p) (acked p)) s).

Definition end_pcb (k : close_kind) (s : State) : option State :=
  s ← assert (pcb_open s) s;
  let p := pc s in Some (with_pc (mkPcb (Some k) (fin p) (on_err p) (on_recv p) (on_sent p) (app_in p) (recved p) (app_out p) (acked p)) s).

Definition tcp_recved (n : Z) (s : State) : option State :=
  s ← assert (pcb_open s) s;
  let p := pc s in Some (with_pc (mkPcb (ended p) (fin p) (on_err p) (on_recv p) (on_sent p) (app_in p) (recved p + n) (app_out p) (acked p)) s).

Definition tcp_write (l : list Z) (s : State) : option State :=
  s ← assert (pcb_open s) s;
  let p := pc s in Some (with_pc (mkPcb (ended p) (fin p) (on_err p) (on_recv p) (on_sent p) (app_in p) (recved p) (app_out p ++ l) (acked p)) s).

Definition BSocksClient_Free (s : State) : option State :=
  match socks (so s) with
  | SocksFreed => None
  | _ => Some (with_so (mkSocks SocksFreed (failed (so s)) (socks_out (so s)) (socks_in (so s))) s)
  end.

(** [StreamPassInterface_Sender_Send] and [StreamRecvInterface_Receiver_Recv]. *)
Definition Sender_Send (n : Z) (s : State) : option State :=
  match socks (so s) with
  | SocksUp None r => if 0 <? n then Some (with_so (mkSocks (SocksUp (Some n) r) (failed (so s)) (socks_out (so s)) (socks_in (so s))) s) else None
  | _ => None
  end.
Definition Receiver_Recv (s : State) : option State :=
  match socks (so s) with
  | SocksUp t false => Some (with_so (mkSocks (SocksUp t true) (failed (so s)) (socks_out (so s)) (socks_in (so s))) s)
  | _ => None
  end.

(** ** The client *)

Definition client_dealloc (s : State) : option State :=
  s ← assert (alloc s && client_closed (cl s) && socks_closed (cl s)) s;
  Some (mkState false (cl s) (pc s) (so s) (call s) (pbufs s) (ret s)).

(** [DEAD_KILL] of [dead_client]. *)
Definition dead_kill (s : State) : State :=
  match call s with Some f => with_call (Some (mkFrame true (holds_pbuf f))) s | None => s end.

(** These functions call each other; the fuel is the depth of the calls. *)
Fixpoint client_handle_freed_client (fuel : nat) (r : results) (s : State) : option State :=
  match fuel with
  | O => None
  | S n =>
      s ← assert (alloc s && negb (client_closed (cl s))) s;
      let s := dead_kill s in
      let s := with_cl (set_client_closed (cl s)) s in
      if (0 <? buf_used (cl s)) && negb (socks_closed (cl s)) then Some s
      else if negb (socks_closed (cl s)) then client_free_socks n r s else client_dealloc s
  end
with client_free_client (fuel : nat) (r : results) (s : State) : option State :=
  match fuel with
  | O => None
  | S n =>
      s ← assert (alloc s && negb (client_closed (cl s))) s;
      s ← set_callbacks false false false s;
      s ← (if close_ok r then end_pcb Closed s else end_pcb Aborted s);
      client_handle_freed_client n r s
  end
with client_free_socks (fuel : nat) (r : results) (s : State) : option State :=
  match fuel with
  | O => None
  | S n =>
      s ← assert (alloc s && negb (socks_closed (cl s))) s;
      s ← (if socks_up (cl s) && negb (client_closed (cl s))
           then set_callbacks (on_err (pc s)) false (on_sent (pc s)) s else Some s);
      s ← BSocksClient_Free s;
      let s := with_cl (set_socks_closed (cl s)) s in
      let c := cl s in
      if socks_up c && ((0 <=? socks_recv_buf_used c) || (0 <? socks_recv_tcp_pending c)) && negb (client_closed c) then Some s
      else if negb (client_closed c) then client_free_client n r s else client_dealloc s
  end.

(** The calls are at most this deep. *)
Definition depth : nat := 4.

Definition client_abort_client (r : results) (s : State) : option State :=
  s ← assert (alloc s && negb (client_closed (cl s))) s;
  s ← set_callbacks false false false s;
  s ← end_pcb Aborted s;
  client_handle_freed_client depth r s.

Definition client_murder (s : State) : option State :=
  s ← assert (alloc s) s;
  s ← (if negb (client_closed (cl s)) then
         s ← set_callbacks false false false s;
         s ← end_pcb Aborted s;
         let s := dead_kill s in
         Some (with_cl (set_client_closed (cl s)) s)
       else Some s);
  s ← (if negb (socks_closed (cl s)) then
         s ← BSocksClient_Free s;
         Some (with_cl (set_socks_closed (cl s)) s)
       else Some s);
  client_dealloc s.

Definition client_err_func (r : results) (s : State) : option State :=
  s ← assert (alloc s && negb (client_closed (cl s))) s;
  client_handle_freed_client depth r s.

Definition client_send_to_socks (s : State) : option State :=
  s ← assert (negb (socks_closed (cl s)) && socks_up (cl s) && (0 <? buf_used (cl s))) s;
  Sender_Send (buf_used (cl s)) s.

(** [None] for [p]: the application has closed its end.  After [client_send_to_socks] the
    callback commits the jobs and goes on in [client_recv_return]. *)
Definition client_recv_func (r : results) (p : option (list Z)) (s : State) : option State :=
  s ← assert (alloc s && negb (client_closed (cl s))) s;
  match p with
  | None =>
      s ← client_free_client depth r s;
      Some (returns ERR_ABRT s)
  | Some data =>
      if TCP_WND - buf_used (cl s) <? Z.of_nat (length data) then Some (returns ERR_MEM s) else
      let s := add_pbufs 1 (with_cl (set_buf (buf (cl s) ++ data) (cl s)) s) in
      if (buf_used (cl s) =? Z.of_nat (length data)) && socks_up (cl s) then
        s ← assert (negb (socks_closed (cl s))) s;
        s ← client_send_to_socks s;
        Some (with_call (Some (mkFrame false true)) s)
      else Some (returns ERR_OK (add_pbufs (-1) s))
  end.

(** The end of a callback that has committed its jobs. *)
Definition callback_return (s : State) : option State :=
  f ← call s;
  if killed f then Some (returns ERR_ABRT s)
  else Some (returns ERR_OK (if holds_pbuf f then add_pbufs (-1) s else s)).

Definition client_socks_recv_initiate (s : State) : option State :=
  let c := cl s in
  s ← assert (negb (client_closed c) && negb (socks_closed c) && socks_up c && (socks_recv_buf_used c =? -1)) s;
  Receiver_Recv s.

(** The loop of [client_socks_recv_send_out]: [true] if a write failed.  The list has what
    [tcp_sndbuf] and [tcp_write] return in each round; after it the send buffer is full. *)
Fixpoint write_loop (ws : list (Z * write_result)) (s : State) : option (bool * State) :=
  match ws with
  | [] => Some (false, s)
  | (sndbuf, w) :: ws =>
      let c := cl s in
      let to_write := Z.min (socks_recv_buf_used c - socks_recv_buf_sent c) (u16 sndbuf) in
      if to_write =? 0 then Some (false, s) else
      match w with
      | WriteMem => Some (false, s)
      | WriteErr => Some (true, s)
      | WriteOk =>
          s ← tcp_write (take (Z.to_nat to_write) (drop (Z.to_nat (socks_recv_buf_sent c)) (socks_recv_buf c))) s;
          let s := with_cl (set_recv (socks_recv_buf c) (socks_recv_buf_used c) (socks_recv_buf_sent c + to_write)
                      (socks_recv_waiting c) (socks_recv_tcp_pending c + to_write) (cl s)) s in
          if socks_recv_buf_sent (cl s) <? socks_recv_buf_used (cl s) then write_loop ws s else Some (false, s)
      end
  end.

(** [true]: the pcb was aborted. *)
Definition client_socks_recv_send_out (r : results) (s : State) : option (bool * State) :=
  let c := cl s in
  s ← assert (alloc s && negb (client_closed c) && socks_up c && (0 <? socks_recv_buf_used c)
              && (socks_recv_buf_sent c <? socks_recv_buf_used c) && negb (socks_recv_waiting c)) s;
  let abort s := s ← client_abort_client r s; Some (true, s) in
  '(fails, s) ← write_loop (writes r) s;
  if fails : bool then abort s else
  s ← assert (pcb_open s) s;
  if negb (output_ok r) then abort s else
  let c := cl s in
  if socks_recv_buf_sent c <? socks_recv_buf_used c then
    if socks_recv_tcp_pending c =? 0 then abort s
    else Some (false, with_cl (set_recv (socks_recv_buf c) (socks_recv_buf_used c) (socks_recv_buf_sent c) true (socks_recv_tcp_pending c) c) s)
  else Some (false, with_cl (set_recv (socks_recv_buf c) (-1) (socks_recv_buf_sent c) (socks_recv_waiting c) (socks_recv_tcp_pending c) c) s).

Definition client_socks_recv_handler_done (r : results) (data : list Z) (s : State) : option State :=
  let c := cl s in
  s ← assert (alloc s && (0 <? Z.of_nat (length data)) && (Z.of_nat (length data) <=? CLIENT_SOCKS_RECV_BUF_SIZE)
              && negb (socks_closed c) && socks_up c && (socks_recv_buf_used c =? -1)) s;
  if client_closed c then Some s else
  let s := with_cl (set_recv data (Z.of_nat (length data)) 0 false (socks_recv_tcp_pending c) c) s in
  '(aborted, s) ← client_socks_recv_send_out r s;
  if aborted : bool then Some s else
  if socks_recv_buf_used (cl s) =? -1 then client_socks_recv_initiate s else Some s.

Definition client_socks_send_handler_done (r : results) (data_len : Z) (s : State) : option State :=
  let c := cl s in
  s ← assert (alloc s && negb (socks_closed c) && socks_up c && (0 <? buf_used c) && (0 <? data_len) && (data_len <=? buf_used c)) s;
  let s := with_cl (set_buf (drop (Z.to_nat data_len) (buf c)) c) s in
  s ← (if negb (client_closed (cl s)) then tcp_recved data_len s else Some s);
  if 0 <? buf_used (cl s) then Sender_Send (buf_used (cl s)) s
  else if client_closed (cl s) then client_free_socks depth r s
  else Some s.

(** After [client_socks_recv_initiate] the callback commits the jobs. *)
Definition client_sent_func (r : results) (len : Z) (s : State) : option State :=
  let c := cl s in
  s ← assert (alloc s && negb (client_closed c) && socks_up c && (0 <? len) && (len <=? socks_recv_tcp_pending c)) s;
  let s := with_cl (set_recv (socks_recv_buf c) (socks_recv_buf_used c) (socks_recv_buf_sent c) (socks_recv_waiting c)
              (socks_recv_tcp_pending c - len) c) s in
  if 0 <? socks_recv_buf_used (cl s) then
    let c := cl s in
    s ← assert (socks_recv_waiting c && (socks_recv_buf_sent c <? socks_recv_buf_used c)) s;
    let s := with_cl (set_recv (socks_recv_buf c) (socks_recv_buf_used c) (socks_recv_buf_sent c) false (socks_recv_tcp_pending c) c) s in
    '(aborted, s) ← client_socks_recv_send_out r s;
    if aborted : bool then Some (returns ERR_ABRT s) else
    s ← assert (0 <? socks_recv_tcp_pending (cl s)) s;
    if (socks_recv_buf_used (cl s) =? -1) && negb (socks_closed (cl s)) then
      s ← client_socks_recv_initiate s;
      Some (with_call (Some (mkFrame false false)) s)
    else Some (returns ERR_OK s)
  else if socks_closed (cl s) && (socks_recv_tcp_pending (cl s) =? 0) then
    s ← client_free_client depth r s;
    Some (returns ERR_ABRT s)
  else Some (returns ERR_OK s).

Inductive socks_event := SEventError | SEventUp | SEventClosed.

Definition client_socks_handler (r : results) (ev : socks_event) (s : State) : option State :=
  s ← assert (alloc s && negb (socks_closed (cl s))) s;
  match ev with
  | SEventError => client_free_socks depth r s
  | SEventClosed => s ← assert (socks_up (cl s)) s; client_free_socks depth r s
  | SEventUp =>
      s ← assert (negb (socks_up (cl s))) s;
      s ← (if negb (client_closed (cl s)) then set_callbacks (on_err (pc s)) (on_recv (pc s)) true s else Some s);
      let s := with_cl (set_socks_up (cl s)) s in
      s ← (if 0 <? buf_used (cl s) then client_send_to_socks s else Some s);
      if negb (client_closed (cl s)) then client_socks_recv_initiate s else Some s
  end.

(** Whether the client could be allocated, the user name built and the SOCKS client
    initialised; the pcb stays with lwIP if not. *)
Definition listener_accept_func (malloc_ok username_ok socks_ok : bool) : option State * err_t :=
  if negb malloc_ok then (None, ERR_MEM) else
  if negb username_ok then (None, ERR_MEM) else
  if negb socks_ok then (None, ERR_MEM) else
  (Some (mkState true (mkClient false [] false false [] 0 0 false 0) (mkPcb None false true true false [] 0 [] 0)
     (mkSocks SocksDown false [] []) (Some (mkFrame false false)) 0 ERR_OK), ERR_OK).

(** ** Events *)

Inductive event :=
  | EvRecv (r : results) (p : option (list Z))   (** lwIP delivers data, or the end *)
  | EvErr (r : results)                          (** lwIP has freed the pcb *)
  | EvSent (r : results) (len : Z)               (** lwIP reports an acknowledgement *)
  | EvReturn                                     (** a callback has run its jobs *)
  | EvSocks (r : results) (ev : socks_event)
  | EvSocksSent (r : results) (n : Z)            (** the connection took [n] bytes *)
  | EvSocksRecv (r : results) (data : list Z)
  | EvMurder.                                    (** the engine ends *)

Definition idle (s : State) : bool := match call s with None => true | _ => false end.

(** What is relied on.  lwIP: one callback at a time, only those that are set, data within
    the window, acknowledgements of what it was given.  The SOCKS client: its contract, and
    no event after it was freed. *)
Definition possible (ev : event) (s : State) : bool :=
  match ev with
  | EvRecv _ p =>
      idle s && pcb_open s && on_recv (pc s)
      && match p with
         | None => true
         | Some data => (0 <? Z.of_nat (length data))
             && (Z.of_nat (length (app_in (pc s)) + length data) - recved (pc s) <=? TCP_WND)
         end
  | EvErr _ => idle s && pcb_open s && on_err (pc s)
  | EvSent _ len =>
      idle s && pcb_open s && on_sent (pc s) && (0 <? len) && (len <=? Z.of_nat (length (app_out (pc s))) - acked (pc s))
  | EvReturn => negb (idle s)
  | EvSocks _ SEventUp => match socks (so s) with SocksDown => true | _ => false end
  | EvSocks _ SEventError => match socks (so s) with SocksFreed => false | _ => true end
  | EvSocks _ SEventClosed => match socks (so s) with SocksUp _ _ => true | _ => false end
  | EvSocksSent _ n => match socks (so s) with SocksUp (Some len) _ => (0 <? n) && (n <=? len) | _ => false end
  | EvSocksRecv _ data =>
      match socks (so s) with
      | SocksUp _ true => (0 <? Z.of_nat (length data)) && (Z.of_nat (length data) <=? CLIENT_SOCKS_RECV_BUF_SIZE)
      | _ => false
      end
  | EvMurder => idle s && alloc s
  end.

(** What lwIP and the SOCKS client do themselves before they call. *)
Definition app_delivers (data : list Z) (s : State) : State :=
  let p := pc s in with_pc (mkPcb (ended p) (fin p) (on_err p) (on_recv p) (on_sent p) (app_in p ++ data) (recved p) (app_out p) (acked p)) s.
Definition app_acks (n : Z) (s : State) : State :=
  let p := pc s in with_pc (mkPcb (ended p) (fin p) (on_err p) (on_recv p) (on_sent p) (app_in p) (recved p) (app_out p) (acked p + n)) s.
Definition socks_takes (n : Z) (s : State) : State :=
  let k := so s in
  with_so (mkSocks (match socks k with SocksUp _ r => SocksUp None r | x => x end) (failed k)
             (socks_out k ++ take (Z.to_nat n) (buf (cl s))) (socks_in k)) s.
Definition socks_delivers (data : list Z) (s : State) : State :=
  let k := so s in
  with_so (mkSocks (match socks k with SocksUp t _ => SocksUp t false | x => x end) (failed k) (socks_out k) (socks_in k ++ data)) s.

Definition app_ends (s : State) : State :=
  let p := pc s in with_pc (mkPcb (ended p) true (on_err p) (on_recv p) (on_sent p) (app_in p) (recved p) (app_out p) (acked p)) s.
Definition socks_ends (s : State) : State := let k := so s in with_so (mkSocks (socks k) true (socks_out k) (socks_in k)) s.

Definition socks_connects (s : State) : State :=
  let k := so s in with_so (mkSocks (SocksUp None false) (failed k) (socks_out k) (socks_in k)) s.

Definition step (ev : event) (s : State) : option State :=
  match ev with
  | EvRecv r None => client_recv_func r None (app_ends s)
  | EvRecv r (Some data) => client_recv_func r (Some data) (app_delivers data s)
  | EvErr r => s ← end_pcb Errored s; client_err_func r s
  | EvSent r len => client_sent_func r len (app_acks len s)
  | EvReturn => callback_return s
  | EvSocks r SEventUp => client_socks_handler r SEventUp (socks_connects s)
  | EvSocks r ev => client_socks_handler r ev (socks_ends s)
  | EvSocksSent r n => client_socks_send_handler_done r n (socks_takes n s)
  | EvSocksRecv r data => client_socks_recv_handler_done r data (socks_delivers data s)
  | EvMurder => client_murder (socks_ends s)
  end.

Fixpoint run (evs : list event) (s : State) : option State :=
  match evs with [] => Some s | ev :: evs => s ← step ev s; run evs s end.

Fixpoint possible_run (evs : list event) (s : State) : bool :=
  match evs with
  | [] => true
  | ev :: evs => possible ev s && match step ev s with Some s => possible_run evs s | None => true end
  end.
