(* ===== verification/Tun2socksSpec.v ===== *)
(** * The TCP clients of tun2socks: theorems

    The invariant, a shape of the state for each phase in the life of a client, and what
    follows from it for every sequence of callbacks. *)

From S2P Require Import Prelude Tun2socks.

(** ** The invariant *)

(** A callback that runs its jobs knows whether the pcb has ended; only then is a pbuf
    not freed. *)
Definition frame_ok (open : bool) (f : option frame) (pb : Z) : Prop :=
  match f with
  | None => pb = 0 \/ (open = false /\ pb = 1)
  | Some f => killed f = negb open /\ pb = (if holds_pbuf f then 1 else 0)
  end.

(** What is being sent to SOCKS is a beginning of the buffer, all of it is in progress. *)
Definition sending_ok (b : list Z) (t : option Z) : Prop :=
  match t with None => b = [] | Some n => 0 < n <= Z.of_nat (length b) end.

(** What was received from SOCKS was given to lwIP, or is in the buffer and waits for an
    acknowledgement. *)
Definition recv_ok (rb : list Z) (u n : Z) (w : bool) (pend : Z) (inn aout : list Z) (ack : Z) : Prop :=
  0 <= ack <= Z.of_nat (length aout) /\ pend = Z.of_nat (length aout) - ack
  /\ ((u = -1 /\ inn = aout)
      \/ (u = Z.of_nat (length rb) /\ 0 <= n < u /\ w = true /\ 0 < pend /\ inn = aout ++ drop (Z.to_nat n) rb)).

(** A client whose SOCKS connection has been up; [cc]: it is closed. *)
Definition open_state (cc : bool) (k : socks_state) (b rb : list Z) (u n : Z) (w : bool) (pend : Z)
    (out inn aout : list Z) (ack : Z) (f : option frame) (pb : Z) (rt : err_t) : State :=
  mkState true (mkClient false b true cc rb u n w pend)
    (mkPcb None false true (negb cc) true (out ++ b) (Z.of_nat (length out)) aout ack) (mkSocks k cc out inn) f pb rt.

Inductive inv : State -> Prop :=
  (** the SOCKS connection is not up yet; the application may have ended *)
  | IDown b rb u n w pend f pb rt : Z.of_nat (length b) <= TCP_WND -> frame_ok true f pb ->
      inv (mkState true (mkClient false b false false rb u n w pend) (mkPcb None false true true false b 0 [] 0)
             (mkSocks SocksDown false [] []) f pb rt)
  | IDownClosed b rb u n w pend k fi e r x f pb rt : b <> [] -> (k = Closed -> fi = true) -> frame_ok false f pb ->
      inv (mkState true (mkClient true b false false rb u n w pend) (mkPcb (Some k) fi e r x b 0 [] 0)
             (mkSocks SocksDown false [] []) f pb rt)
  (** both sides are open *)
  | IUp b t rb u n w pend out inn aout ack f pb rt : Z.of_nat (length b) <= TCP_WND -> sending_ok b t ->
      recv_ok rb u n w pend inn aout ack -> frame_ok true f pb ->
      inv (open_state false (SocksUp t (u =? -1)) b rb u n w pend out inn aout ack f pb rt)
  (** the application has ended, its bytes are still sent *)
  | IUpClosed b m rv rb u n w pend k fi e r x rcvd out inn aout ack f pb rt : 0 < m <= Z.of_nat (length b) -> (rv = true -> u = -1) ->
      (k = Closed -> fi = true) ->
      aout `prefix_of` inn -> 0 <= ack <= Z.of_nat (length aout) -> frame_ok false f pb ->
      inv (mkState true (mkClient true b true false rb u n w pend) (mkPcb (Some k) fi e r x (out ++ b) rcvd aout ack)
             (mkSocks (SocksUp (Some m) rv) false out inn) f pb rt)
  (** SOCKS has ended, its bytes are still delivered *)
  | IDrain b rb u n w pend out inn aout ack f pb rt : recv_ok rb u n w pend inn aout ack -> 0 < pend -> frame_ok true f pb ->
      inv (open_state true SocksFreed b rb u n w pend out inn aout ack f pb rt)
  (** the client is freed *)
  | IGone c p k f pb rt : ended p <> None -> socks k = SocksFreed ->
      socks_out k `prefix_of` app_in p -> app_out p `prefix_of` socks_in k -> 0 <= acked p <= Z.of_nat (length (app_out p)) ->
      (failed k = false -> socks_out k = app_in p) ->
      (ended p = Some Closed -> fin p = true \/ (app_out p = socks_in k /\ acked p = Z.of_nat (length (app_out p)))) ->
      frame_ok false f pb ->
      inv (mkState false c p k f pb rt).

(** ** Ending *)

Lemma frame_ok_kill f pb : frame_ok true f pb ->
  frame_ok false (match f with Some f => Some (mkFrame true (holds_pbuf f)) | None => None end) pb.
Proof. destruct f as [f|]; cbn; [intros [_ ?]; by split|]. intros [?|[? _]]; [by left|done]. Qed.

Lemma dead_kill_eq s : dead_kill s = with_call (match call s with Some f => Some (mkFrame true (holds_pbuf f)) | None => None end) s.
Proof. unfold dead_kill. destruct s as [a c p k [f|] pb rt]; done. Qed.

(** Computes with the records, not with the numbers. *)
Ltac sred := cbn -[Z.ltb Z.leb Z.eqb Z.of_nat Z.sub Z.add take drop app length Z.to_nat Z.min u16 TCP_WND].

Lemma buf_pos (b : list Z) : (0 <? Z.of_nat (length b)) = bool_decide (b <> []).
Proof. destruct b as [|y b]; [done|]. rewrite bool_decide_true by done. apply Z.ltb_lt. cbn [length]. lia. Qed.

(** The client part ends, whatever its state. *)
Definition ends (s : State) : Prop := inv s /\ pcb_open s = false.

Lemma handle_freed_down j r b rb u n w pend k fi e rr x f pb rt : (k = Closed -> fi = true) -> frame_ok true f pb ->
  exists s', client_handle_freed_client (S (S j)) r (mkState true (mkClient false b false false rb u n w pend)
    (mkPcb (Some k) fi e rr x b 0 [] 0) (mkSocks SocksDown false [] []) f pb rt) = Some s' /\ ends s'.
Proof.
  intros Hk Hf. sred. rewrite dead_kill_eq. sred. unfold buf_used. sred. rewrite buf_pos.
  case_bool_decide as Hb; sred; (eexists; split; [done|]); (split; [|done]).
  - apply IDownClosed; [done|done|by apply frame_ok_kill].
  - subst b. apply IGone; cbn; try done; [intros [= ->]; left; by apply Hk|by apply frame_ok_kill].
Qed.

Lemma handle_freed_up j r b t rv rb u n w pend k fi e rr x rcvd out inn aout ack f pb rt : (k = Closed -> fi = true) ->
  sending_ok b t -> (rv = true -> u = -1) -> aout `prefix_of` inn -> 0 <= ack <= Z.of_nat (length aout) -> frame_ok true f pb ->
  exists s', client_handle_freed_client (S (S j)) r (mkState true (mkClient false b true false rb u n w pend)
    (mkPcb (Some k) fi e rr x (out ++ b) rcvd aout ack) (mkSocks (SocksUp t rv) false out inn) f pb rt) = Some s' /\ ends s'.
Proof.
  intros Hk Ht Hrv Hp Ha Hf. sred. rewrite dead_kill_eq. sred. unfold buf_used. sred. rewrite buf_pos.
  case_bool_decide as Hb; sred.
  - destruct t as [m|]; [|done]. eexists. split; [done|]. split; [|done]. by apply IUpClosed; [| | | | |apply frame_ok_kill].
  - subst b. rewrite andb_false_r. eexists. split; [done|]. split; [|done].
    apply IGone; cbn; rewrite ?app_nil_r; try done; [intros [= ->]; left; by apply Hk|by apply frame_ok_kill].
Qed.

Lemma handle_freed_drain j r up b rb u n w pend k fi e rr x rcvd out inn aout ack f pb rt :
  (k = Closed -> fi = true \/ (aout = inn /\ ack = Z.of_nat (length aout))) ->
  aout `prefix_of` inn -> 0 <= ack <= Z.of_nat (length aout) -> frame_ok true f pb ->
  exists s', client_handle_freed_client (S (S j)) r (mkState true (mkClient false b up true rb u n w pend)
    (mkPcb (Some k) fi e rr x (out ++ b) rcvd aout ack) (mkSocks SocksFreed true out inn) f pb rt) = Some s' /\ ends s'.
Proof.
  intros Hk Hp Ha Hf. sred. rewrite dead_kill_eq. sred. rewrite andb_false_r.
  eexists. split; [done|]. split; [|done]. apply IGone; cbn; try done; [by exists b|intros [= ->]; by apply Hk|by apply frame_ok_kill].
Qed.

Lemma recv_ok_prefix rb u n w pend inn aout ack : recv_ok rb u n w pend inn aout ack ->
  aout `prefix_of` inn /\ 0 <= ack <= Z.of_nat (length aout).
Proof. intros (Ha & _ & [[_ ->]|(_ & _ & _ & _ & ->)]); (split; [|done]); [done|by eexists]. Qed.

(** The socket whose [tcp_abort] or failed [tcp_close] follows. *)
Definition up_or_drain (cc : bool) (k : socks_state) (b : list Z) (u : Z) : Prop :=
  if cc then k = SocksFreed else exists t rv, k = SocksUp t rv /\ sending_ok b t /\ (rv = true -> u = -1).

Lemma abort_ok r cc k b rb u n w pend out inn aout ack f pb rt : up_or_drain cc k b u ->
  aout `prefix_of` inn -> 0 <= ack <= Z.of_nat (length aout) -> frame_ok true f pb ->
  exists s', client_abort_client r (open_state cc k b rb u n w pend out inn aout ack f pb rt) = Some s' /\ ends s'.
Proof.
  intros Hk Hp Ha Hf. unfold client_abort_client, open_state. cbn [alloc cl client_closed andb negb assert mbind option_bind].
  unfold set_callbacks, end_pcb. cbn [pcb_open ended pc assert mbind option_bind with_pc app_in recved app_out acked alloc cl so call pbufs ret fin on_err on_recv on_sent].
  destruct cc; cbn [up_or_drain] in Hk.
  - subst k. by apply handle_freed_drain.
  - destruct Hk as (t & rv & -> & Ht & Hrv). by apply handle_freed_up.
Qed.

(** ** Writing to lwIP *)

(** The state while [client_socks_recv_send_out] runs: [n] bytes of the buffer were
    given to lwIP. *)
Lemma write_loop_ok ws : forall cc k b rb n pend out inn aout ack f pb rt,
  0 <= n < Z.of_nat (length rb) -> inn = aout ++ drop (Z.to_nat n) rb -> 0 <= ack <= Z.of_nat (length aout) ->
  pend = Z.of_nat (length aout) - ack ->
  exists fl n' aout', write_loop ws (open_state cc k b rb (Z.of_nat (length rb)) n false pend out inn aout ack f pb rt)
      = Some (fl, open_state cc k b rb (Z.of_nat (length rb)) n' false (Z.of_nat (length aout') - ack) out inn aout' ack f pb rt)
    /\ n <= n' <= Z.of_nat (length rb) /\ inn = aout' ++ drop (Z.to_nat n') rb /\ 0 <= ack <= Z.of_nat (length aout')
    /\ (n' = Z.of_nat (length rb) -> 0 < Z.of_nat (length aout') - ack).
Proof.
  induction ws as [|[sndbuf wr] ws IH]; intros cc k b rb n pend out inn aout ack f pb rt Hn Hi Ha Hp; cbn [write_loop].
  { exists false, n, aout. subst pend. split; [done|]. split; [lia|]. split; [done|]. split; [done|]. lia. }
  set (s0 := open_state cc k b rb (Z.of_nat (length rb)) n false pend out inn aout ack f pb rt).
  change (socks_recv_buf_used (cl s0)) with (Z.of_nat (length rb)). change (socks_recv_buf_sent (cl s0)) with n.
  change (socks_recv_buf (cl s0)) with rb. change (socks_recv_waiting (cl s0)) with false. change (socks_recv_tcp_pending (cl s0)) with pend.
  set (tw := Z.min (Z.of_nat (length rb) - n) (u16 sndbuf)).
  assert (Hsb : 0 <= u16 sndbuf) by (apply Z.mod_pos_bound; lia).
  assert (Hno : forall fl : bool, exists (fl' : bool) (n' : Z) (aout' : list Z), Some (fl, s0)
      = Some (fl', open_state cc k b rb (Z.of_nat (length rb)) n' false (Z.of_nat (length aout') - ack) out inn aout' ack f pb rt)
    /\ n <= n' <= Z.of_nat (length rb) /\ inn = aout' ++ drop (Z.to_nat n') rb /\ 0 <= ack <= Z.of_nat (length aout')
    /\ (n' = Z.of_nat (length rb) -> 0 < Z.of_nat (length aout') - ack)).
  { intros fl. exists fl, n, aout. unfold s0. subst pend. split; [done|]. split; [lia|]. split; [done|]. split; [done|]. lia. }
  destruct (tw =? 0) eqn:Htw; [by apply Hno|]. apply Z.eqb_neq in Htw. destruct wr; [|by apply Hno|by apply Hno].
  assert (Htw' : 0 < tw <= Z.of_nat (length rb) - n) by (unfold tw in *; lia). clearbody tw.
  set (l := take (Z.to_nat tw) (drop (Z.to_nat n) rb)).
  assert (Hl : Z.of_nat (length l) = tw) by (unfold l; rewrite length_take, length_drop; lia).
  assert (Hi' : inn = (aout ++ l) ++ drop (Z.to_nat (n + tw)) rb).
  { rewrite Hi, <- app_assoc. f_equal. unfold l. rewrite <- (take_drop (Z.to_nat tw) (drop (Z.to_nat n) rb)) at 1. f_equal.
    rewrite drop_drop. f_equal. lia. }
  unfold tcp_write, s0. cbn [pcb_open ended pc open_state assert mbind option_bind with_pc with_cl cl set_recv alloc so call pbufs ret
    client_closed buf socks_up socks_closed socks_recv_waiting socks_recv_tcp_pending socks_recv_buf_sent socks_recv_buf_used
    fin on_err on_recv on_sent app_in recved app_out acked].
  change (mkState _ _ _ _ _ _ _) with (open_state cc k b rb (Z.of_nat (length rb)) (n + tw) false (pend + tw) out inn (aout ++ l) ack f pb rt).
  assert (Hp' : pend + tw = Z.of_nat (length (aout ++ l)) - ack) by (rewrite length_app; lia).
  assert (Ha' : 0 <= ack <= Z.of_nat (length (aout ++ l))) by (rewrite length_app; lia).
  destruct (n + tw <? Z.of_nat (length rb)) eqn:Hlt.
  - apply Z.ltb_lt in Hlt. destruct (IH cc k b rb (n + tw) (pend + tw) out inn (aout ++ l) ack f pb rt) as (fl & n' & aout' & E' & Hn' & H1 & H2 & H3); [lia|done|done|done|].
    exists fl, n', aout'. split; [exact E'|]. split; [lia|]. split; [done|]. by split.
  - apply Z.ltb_ge in Hlt. exists false, (n + tw), (aout ++ l). rewrite <- Hp'. split; [done|]. split; [lia|]. split_and!; [done|lia|lia|]. lia.
Qed.

Lemma send_out_ok r cc k b rb n pend out inn aout ack f pb rt :
  (forall u, up_or_drain cc k b u) -> 0 <= n < Z.of_nat (length rb) -> inn = aout ++ drop (Z.to_nat n) rb ->
  0 <= ack <= Z.of_nat (length aout) -> pend = Z.of_nat (length aout) - ack -> frame_ok true f pb ->
  exists a s', client_socks_recv_send_out r (open_state cc k b rb (Z.of_nat (length rb)) n false pend out inn aout ack f pb rt) = Some (a, s')
    /\ ((a = true /\ ends s')
        \/ (a = false /\ exists u' n' w' aout',
              s' = open_state cc k b rb u' n' w' (Z.of_nat (length aout') - ack) out inn aout' ack f pb rt
              /\ recv_ok rb u' n' w' (Z.of_nat (length aout') - ack) inn aout' ack /\ 0 < Z.of_nat (length aout') - ack)).
Proof.
  intros Hk Hn Hi Ha Hp Hf. unfold client_socks_recv_send_out. set (s0 := open_state _ _ _ _ _ _ _ _ _ _ _ _ _ _ _).
  assert (Hab : forall u' n' w' aout', aout' `prefix_of` inn -> 0 <= ack <= Z.of_nat (length aout') ->
    exists a s', (s ← client_abort_client r (open_state cc k b rb u' n' w' (Z.of_nat (length aout') - ack) out inn aout' ack f pb rt); Some (true, s)) = Some (a, s')
    /\ ((a = true /\ ends s')
        \/ (a = false /\ exists u' n' w' aout',
              s' = open_state cc k b rb u' n' w' (Z.of_nat (length aout') - ack) out inn aout' ack f pb rt
              /\ recv_ok rb u' n' w' (Z.of_nat (length aout') - ack) inn aout' ack /\ 0 < Z.of_nat (length aout') - ack))).
  { intros u' n' w' aout' H1 H2. destruct (abort_ok r cc k b rb u' n' w' (Z.of_nat (length aout') - ack) out inn aout' ack f pb rt) as (s' & E' & Hs'); try done.
    rewrite E'. exists true, s'. split; [done|]. by left. }
  change (alloc s0 && _ && _ && _ && _ && _) with ((0 <? Z.of_nat (length rb)) && (n <? Z.of_nat (length rb)) && true).
  rewrite !(proj2 (Z.ltb_lt _ _)) by lia. cbn [andb assert mbind option_bind].
  destruct (write_loop_ok (writes r) cc k b rb n pend out inn aout ack f pb rt Hn Hi Ha Hp) as (fl & n' & aout' & E' & Hn' & Hi' & Ha' & Hd).
  fold s0 in E'. rewrite E'. cbn [mbind option_bind]. assert (Hpre : aout' `prefix_of` inn) by (by eexists).
  destruct fl; [by apply Hab|]. cbn [pcb_open ended pc open_state assert mbind option_bind].
  destruct (output_ok r); cbn [negb]; [|by apply Hab].
  set (s1 := open_state _ _ _ _ _ n' _ _ _ _ _ _ _ _ _). change (socks_recv_buf_sent (cl s1)) with n'.
  change (socks_recv_buf_used (cl s1)) with (Z.of_nat (length rb)). change (socks_recv_tcp_pending (cl s1)) with (Z.of_nat (length aout') - ack).
  destruct (n' <? Z.of_nat (length rb)) eqn:Hlt.
  - apply Z.ltb_lt in Hlt. destruct (Z.of_nat (length aout') - ack =? 0) eqn:Hz; [by apply Hab|]. apply Z.eqb_neq in Hz.
    eexists _, _. split; [done|]. right. split; [done|]. exists (Z.of_nat (length rb)), n', true, aout'. split; [done|]. split; [|lia].
    split; [done|]. split; [done|]. right. split_and!; [done|lia|done|done|lia|done].
  - apply Z.ltb_ge in Hlt. eexists _, _. split; [done|]. right. split; [done|]. exists (-1), n', false, aout'. split; [done|].
    split; [|apply Hd; lia]. split; [done|]. split; [done|]. left. split; [done|]. rewrite Hi', drop_ge by lia. by rewrite app_nil_r.
Qed.

(** ** Events *)

(** What a callback returns tells lwIP whether the pcb still exists. *)
Definition contract (ev : event) (s : State) : Prop :=
  match ev with
  | EvRecv _ _ | EvSent _ _ | EvReturn =>
      idle s = true -> (ret s = ERR_OK /\ pcb_open s = true) \/ (ret s = ERR_ABRT /\ pcb_open s = false)
  | _ => True
  end.

Definition post (ev : event) (o : option State) : Prop := exists s, o = Some s /\ inv s /\ contract ev s.

Lemma frame_ok_returns f pb : frame_ok false f pb -> frame_ok false None pb.
Proof. destruct f as [f|]; [|done]. intros [_ ->]. cbn. destruct (holds_pbuf f); auto. Qed.

Lemma returns_closed e s : inv s -> pcb_open s = false -> inv (returns e s).
Proof.
  destruct 1; cbn; intros Hc; try done; econstructor; eauto using frame_ok_returns.
Qed.

Lemma post_abrt ev s : ends s -> post ev (Some (returns ERR_ABRT s)).
Proof.
  intros [Hi Hc]. eexists. split; [done|]. split; [by apply returns_closed|]. destruct ev; cbn; auto.
Qed.

(** [possible], as propositions. *)
Definition can_happen (ev : event) (s : State) : Prop :=
  match ev with
  | EvRecv _ p => call s = None /\ ended (pc s) = None /\ on_recv (pc s) = true
      /\ match p with None => True | Some data => 0 < Z.of_nat (length data)
           /\ Z.of_nat (length (app_in (pc s)) + length data) - recved (pc s) <= TCP_WND end
  | EvErr _ => call s = None /\ ended (pc s) = None /\ on_err (pc s) = true
  | EvSent _ len => call s = None /\ ended (pc s) = None /\ on_sent (pc s) = true /\ 0 < len <= Z.of_nat (length (app_out (pc s))) - acked (pc s)
  | EvReturn => call s <> None
  | EvSocks _ SEventUp => socks (so s) = SocksDown
  | EvSocks _ SEventError => socks (so s) <> SocksFreed
  | EvSocks _ SEventClosed => exists t r, socks (so s) = SocksUp t r
  | EvSocksSent _ n => exists m r, socks (so s) = SocksUp (Some m) r /\ 0 < n <= m
  | EvSocksRecv _ data => exists t, socks (so s) = SocksUp t true /\ 0 < Z.of_nat (length data) <= CLIENT_SOCKS_RECV_BUF_SIZE
  | EvMurder => call s = None /\ alloc s = true
  end.

Lemma possible_can_happen ev s : possible ev s = true -> can_happen ev s.
Proof.
  unfold possible, can_happen, idle, pcb_open. destruct ev as [r p|r|r len| |r [| |]|r m|r data|]; rewrite ?andb_true_iff, ?Z.ltb_lt, ?Z.leb_le.
  - intros [[[H1 H2] H3] H4]. destruct (call s), (ended (pc s)); try done. split_and!; try done.
    destruct p as [data|]; [|done]. apply andb_true_iff in H4 as [H4%Z.ltb_lt H5%Z.leb_le]. done.
  - intros [[H1 H2] H3]. by destruct (call s), (ended (pc s)).
  - intros [[[[H1 H2] H3] H4] H5]. destruct (call s), (ended (pc s)); done.
  - by destruct (call s).
  - by destruct (socks (so s)).
  - by destruct (socks (so s)).
  - destruct (socks (so s)) as [| |t r']; try done. by exists t, r'.
  - destruct (socks (so s)) as [| |[t|] r']; try done. intros [H1%Z.ltb_lt H2%Z.leb_le]%andb_true_iff. by exists t, r'.
  - destruct (socks (so s)) as [| |t [|]]; try done. intros [H1%Z.ltb_lt H2%Z.leb_le]%andb_true_iff. by exists t.
  - intros [H1 H2]. by destruct (call s).
Qed.

(** The end of a callback. *)
Lemma returns_open e s : inv s -> pcb_open s = true -> inv (mkState (alloc s) (cl s) (pc s) (so s) None 0 e).
Proof.
  destruct 1 as [| | | | |c p k f pb rt Hend]; cbn; intros Hc; try done; [| | |by unfold pcb_open in Hc; cbn in Hc; destruct (ended p)];
    econstructor; eauto; by left.
Qed.

Lemma inv_frame s f : inv s -> call s = Some f -> killed f = negb (pcb_open s) /\ pbufs s = (if holds_pbuf f then 1 else 0).
Proof.
  destruct 1 as [| | | | |c p k f' pb rt Hend]; cbn; intros ->; try done. unfold pcb_open. cbn. by destruct (ended p).
Qed.

Lemma return_step s : inv s -> call s <> None -> post EvReturn (step EvReturn s).
Proof.
  intros Hi Hc. cbn [step]. unfold callback_return. destruct (call s) as [f|] eqn:Ef; [|done]. cbn [mbind option_bind].
  destruct (inv_frame s f Hi Ef) as [Hk Hpb]. rewrite Hk. destruct (pcb_open s) eqn:Ho; cbn [negb].
  - eexists. split; [done|]. split.
    + pose proof (returns_open ERR_OK s Hi Ho) as H. destruct (holds_pbuf f); unfold returns, add_pbufs; cbn; rewrite Hpb; exact H.
    + intros _. left. split; [done|]. by destruct (holds_pbuf f).
  - by apply post_abrt.
Qed.

(** [client_free_client] on a client whose SOCKS connection is not up. *)
Lemma free_client_down j r b rb u n w pend fi e rr x f pb rt : fi = true -> frame_ok true f pb ->
  exists s', client_free_client (S (S (S j))) r (mkState true (mkClient false b false false rb u n w pend)
    (mkPcb None fi e rr x b 0 [] 0) (mkSocks SocksDown false [] []) f pb rt) = Some s' /\ ends s'.
Proof.
  intros Hfi Hf.
  pose proof (handle_freed_down j r b rb u n w pend (if close_ok r then Closed else Aborted) fi false false false f pb rt (fun _ => Hfi) Hf) as H.
  destruct r as [[|] ws oo]; exact H.
Qed.

(** [client_free_client] after SOCKS has ended. *)
Lemma free_client_drain j r up b rb u n w pend fi e rr x rcvd out inn aout ack f pb rt :
  fi = true \/ (aout = inn /\ ack = Z.of_nat (length aout)) ->
  aout `prefix_of` inn -> 0 <= ack <= Z.of_nat (length aout) -> frame_ok true f pb ->
  exists s', client_free_client (S (S (S j))) r (mkState true (mkClient false b up true rb u n w pend)
    (mkPcb None fi e rr x (out ++ b) rcvd aout ack) (mkSocks SocksFreed true out inn) f pb rt) = Some s' /\ ends s'.
Proof.
  intros Hfi Hp Ha Hf.
  pose proof (handle_freed_drain j r up b rb u n w pend (if close_ok r then Closed else Aborted) fi false false false rcvd out inn aout ack f pb rt
    (fun _ => Hfi) Hp Ha Hf) as H.
  destruct r as [[|] ws oo]; exact H.
Qed.

Lemma send_to_socks_ok a cc b rb u n w pend p rv fl out inn f pb rt : b <> [] ->
  client_send_to_socks (mkState a (mkClient cc b true false rb u n w pend) p (mkSocks (SocksUp None rv) fl out inn) f pb rt)
  = Some (mkState a (mkClient cc b true false rb u n w pend) p (mkSocks (SocksUp (Some (Z.of_nat (length b))) rv) fl out inn) f pb rt).
Proof.
  intros Hb. unfold client_send_to_socks, Sender_Send, buf_used. cbn [cl buf socks_closed socks_up negb andb]. rewrite buf_pos, bool_decide_true by done. cbn [assert mbind option_bind so socks cl buf].
  by rewrite buf_pos, bool_decide_true by done.
Qed.

Lemma sending_all b : b <> [] -> sending_ok b (Some (Z.of_nat (length b))).
Proof. destruct b; [done|]. cbn. lia. Qed.

(** Events while the SOCKS connection is not up. *)
Lemma down_step b rb u n w pend f pb rt ev : Z.of_nat (length b) <= TCP_WND -> frame_ok true f pb ->
  let s := mkState true (mkClient false b false false rb u n w pend) (mkPcb None false true true false b 0 [] 0)
             (mkSocks SocksDown false [] []) f pb rt in
  can_happen ev s -> post ev (step ev s).
Proof.
  intros Hb Hf s Hp. destruct ev as [r [data|]|r|r len| |r [| |]|r m|r data|]; cbn -[TCP_WND length Z.of_nat] in Hp; try (naive_solver; fail).
  - destruct Hp as (-> & _ & _ & H1 & H2). 
    unfold s. cbn [step app_delivers with_pc pc]. unfold client_recv_func. sred. unfold buf_used. sred.
    rewrite (proj2 (Z.ltb_ge _ _)) by lia. unfold add_pbufs. sred. rewrite andb_false_r. eexists. split; [done|]. split; [|cbn; intros _; by left].
    apply IDown; [rewrite length_app; lia|]. cbn in Hf |- *. destruct Hf as [->|[? _]]; [by left|done].
  - destruct (free_client_down 1 r b rb u n w pend true true true false f pb rt eq_refl Hf) as (s' & E' & Hs').
    change (step _ s) with (s' ← client_free_client depth r (mkState true (mkClient false b false false rb u n w pend)
      (mkPcb None true true true false b 0 [] 0) (mkSocks SocksDown false [] []) f pb rt); Some (returns ERR_ABRT s')).
    unfold depth. rewrite E'. by apply post_abrt.
  - destruct (handle_freed_down 2 r b rb u n w pend Errored false true true false f pb rt ltac:(done) Hf) as (s' & E' & Hs').
    exists s'. split; [exact E'|]. by destruct Hs'.
  - apply return_step; [by constructor|done].
  - destruct (free_client_drain 0 r false b rb u n w pend false true true false 0 [] [] [] 0 f pb rt) as (s' & E' & Hs'); [by right|done|done|done|].
    exists s'. split; [exact E'|]. by destruct Hs'.
  - assert (Hi : forall t, sending_ok b t -> inv (open_state false (SocksUp t true) b rb (-1) n w 0 [] [] [] 0 f pb rt)).
    { intros t Ht. apply (IUp b t rb (-1)); [done|done| |done]. split; [done|]. split; [done|]. by left. }
    change (step _ s) with (s' ← (if 0 <? Z.of_nat (length b) then client_send_to_socks (open_state false (SocksUp None false) b rb (-1) n w 0 [] [] [] 0 f pb rt)
      else Some (open_state false (SocksUp None false) b rb (-1) n w 0 [] [] [] 0 f pb rt));
      if negb (client_closed (cl s')) then client_socks_recv_initiate s' else Some s').
    rewrite buf_pos. case_bool_decide as Hbn.
    + unfold open_state. rewrite send_to_socks_ok by done. eexists. split; [reflexivity|]. split; [|done]. by apply Hi, sending_all.
    + eexists. split; [reflexivity|]. split; [|done]. by apply Hi.
  - destruct Hp as (-> & _). eexists. split; [reflexivity|]. split; [|done]. apply IGone; cbn; try done; [apply prefix_nil|].
    cbn in Hf. destruct Hf as [->|[? _]]; [by left|done].
Qed.

(** [client_free_client] on a client that is up. *)
Lemma free_client_up j r b t rv rb u n w pend fi e rr x rcvd out inn aout ack f pb rt : fi = true ->
  sending_ok b t -> (rv = true -> u = -1) -> aout `prefix_of` inn -> 0 <= ack <= Z.of_nat (length aout) -> frame_ok true f pb ->
  exists s', client_free_client (S (S (S j))) r (mkState true (mkClient false b true false rb u n w pend)
    (mkPcb None fi e rr x (out ++ b) rcvd aout ack) (mkSocks (SocksUp t rv) false out inn) f pb rt) = Some s' /\ ends s'.
Proof.
  intros Hfi Ht Hrv Hp Ha Hf.
  pose proof (handle_freed_up j r b t rv rb u n w pend (if close_ok r then Closed else Aborted) fi false false false rcvd out inn aout ack f pb rt
    (fun _ => Hfi) Ht Hrv Hp Ha Hf) as H.
  destruct r as [[|] ws oo]; exact H.
Qed.

Lemma recv_ok_used rb u n w pend inn aout ack : recv_ok rb u n w pend inn aout ack -> (u = -1 /\ inn = aout) \/
  (0 < u /\ u = Z.of_nat (length rb) /\ 0 <= n < u /\ w = true /\ 0 < pend /\ inn = aout ++ drop (Z.to_nat n) rb).
Proof. intros (_ & _ & [?|(H1 & H2 & H3 & H4 & H5)]); [by left|right]. split; [lia|]. done. Qed.

(** SOCKS ends while both sides are open. *)
Lemma up_socks_ends r ev b t rb u n w pend out inn aout ack f pb rt :
  sending_ok b t -> recv_ok rb u n w pend inn aout ack -> frame_ok true f pb -> ev = SEventError \/ ev = SEventClosed ->
  post (EvSocks r ev) (step (EvSocks r ev) (open_state false (SocksUp t (u =? -1)) b rb u n w pend out inn aout ack f pb rt)).
Proof.
  intros Ht Hr Hf Hev.
  assert (Hstep : step (EvSocks r ev) (open_state false (SocksUp t (u =? -1)) b rb u n w pend out inn aout ack f pb rt)
    = if ((0 <=? u) || (0 <? pend)) && true then Some (open_state true SocksFreed b rb u n w pend out inn aout ack f pb rt)
      else client_free_client 3 r (open_state true SocksFreed b rb u n w pend out inn aout ack f pb rt))
    by (by destruct Hev as [->| ->]).
  rewrite Hstep, andb_true_r. destruct (recv_ok_prefix _ _ _ _ _ _ _ _ Hr) as [Hp Ha]. pose proof (recv_ok_used _ _ _ _ _ _ _ _ Hr) as Hu.
  destruct ((0 <=? u) || (0 <? pend)) eqn:E'.
  - eexists. split; [done|]. split; [|done]. apply IDrain; [done| |done].
    apply orb_true_iff in E' as [H%Z.leb_le|H%Z.ltb_lt]; [|done]. destruct Hu as [[Hu _]|(_ & _ & _ & _ & ? & _)]; [lia|done].
  - apply orb_false_iff in E' as [H1%Z.leb_gt H2%Z.ltb_ge].
    destruct Hu as [[-> ->]|(? & _)]; [|lia]. destruct Hr as (Hack & Hpend & _).
    destruct (free_client_drain 0 r true b rb (-1) n w pend false true false true (Z.of_nat (length out)) out aout aout ack f pb rt) as (s' & E2 & Hs'); [right; split; [done|lia]|done|done|done|].
    exists s'. split; [exact E2|]. by destruct Hs'.
Qed.

(** The connection took bytes. *)
Lemma up_socks_sent r b m rv rb u n w pend out inn aout ack f pb rt q :
  Z.of_nat (length b) <= TCP_WND -> 0 < m <= Z.of_nat (length b) -> rv = (u =? -1) -> recv_ok rb u n w pend inn aout ack -> frame_ok true f pb -> 0 < q <= m ->
  post (EvSocksSent r q) (step (EvSocksSent r q) (open_state false (SocksUp (Some m) rv) b rb u n w pend out inn aout ack f pb rt)).
Proof.
  intros Hb Hm -> Hr Hf Hq. cbn [step]. unfold client_socks_send_handler_done.
  set (s0 := socks_takes q _). change (cl s0) with (mkClient false b true false rb u n w pend).
  change (alloc s0 && _ && _ && _ && _ && _) with ((0 <? Z.of_nat (length b)) && (0 <? q) && (q <=? Z.of_nat (length b))).
  rewrite !(proj2 (Z.ltb_lt _ _)), (proj2 (Z.leb_le _ _)) by lia. cbn [andb assert mbind option_bind buf].
  set (b' := drop (Z.to_nat q) b). set (out' := out ++ take (Z.to_nat q) b).
  assert (Hlen : Z.of_nat (length out') = Z.of_nat (length out) + q) by (unfold out'; rewrite length_app, length_take; lia).
  assert (Hs1 : (if negb (client_closed (cl (with_cl (set_buf b' (mkClient false b true false rb u n w pend)) s0)))
      then tcp_recved q (with_cl (set_buf b' (mkClient false b true false rb u n w pend)) s0)
      else Some (with_cl (set_buf b' (mkClient false b true false rb u n w pend)) s0))
    = Some (open_state false (SocksUp None (u =? -1)) b' rb u n w pend out' inn aout ack f pb rt)).
  { unfold s0, open_state, tcp_recved. cbn. rewrite <- Hlen. unfold out', b'. by rewrite <- app_assoc, take_drop. }
  rewrite Hs1. cbn [mbind option_bind]. change (buf_used (cl (open_state _ _ _ _ _ _ _ _ _ _ _ _ _ _ _))) with (Z.of_nat (length b')).
  assert (Hb' : Z.of_nat (length b') <= TCP_WND) by (unfold b'; rewrite length_drop; lia).
  rewrite buf_pos. case_bool_decide as Hne.
  - unfold Sender_Send. cbn [so socks open_state]. rewrite buf_pos, bool_decide_true by done. eexists. split; [done|]. split; [|done].
    by apply (IUp b' (Some (Z.of_nat (length b')))); [|apply sending_all| |].
  - eexists. split; [done|]. split; [|done]. by apply (IUp b' None).
Qed.

(** The connection delivered bytes. *)
Lemma up_socks_received r b t rb u n w pend out inn aout ack f pb rt data :
  Z.of_nat (length b) <= TCP_WND -> sending_ok b t -> u = -1 -> recv_ok rb u n w pend inn aout ack -> frame_ok true f pb ->
  0 < Z.of_nat (length data) <= CLIENT_SOCKS_RECV_BUF_SIZE ->
  post (EvSocksRecv r data) (step (EvSocksRecv r data) (open_state false (SocksUp t true) b rb u n w pend out inn aout ack f pb rt)).
Proof.
  intros Hb Ht -> (Ha & Hp & [[_ ->]|(Hx & _)]) Hf Hdata; [|lia]. cbn [step]. unfold client_socks_recv_handler_done.
  set (s0 := socks_delivers data _). change (cl s0) with (mkClient false b true false rb (-1) n w pend).
  change (alloc s0 && _ && _ && _ && _ && _) with ((0 <? Z.of_nat (length data)) && (Z.of_nat (length data) <=? CLIENT_SOCKS_RECV_BUF_SIZE) && true && true && true).
  rewrite (proj2 (Z.ltb_lt _ _)), (proj2 (Z.leb_le _ _)) by lia. cbn [andb assert mbind option_bind client_closed].
  change (with_cl _ s0) with (open_state false (SocksUp t false) b data (Z.of_nat (length data)) 0 false pend out (aout ++ data) aout ack f pb rt).
  destruct (send_out_ok r false (SocksUp t false) b data 0 pend out (aout ++ data) aout ack f pb rt) as (a & s' & E' & [[-> He]|(-> & u' & n' & w' & aout' & -> & Hr & Hpos)]);
    [intros u; by exists t, false|lia|done|done|done|done| |]; rewrite E'; cbn [mbind option_bind].
  { eexists. split; [done|]. by destruct He. }
  change (socks_recv_buf_used (cl _)) with u'. destruct (u' =? -1) eqn:Hu.
  - unfold client_socks_recv_initiate. change (socks_recv_buf_used (cl _)) with u'. rewrite Hu. eexists. split; [reflexivity|]. split; [|done].
    pose proof (IUp b t data u' n' w' (Z.of_nat (length aout') - ack) out (aout ++ data) aout' ack f pb rt Hb Ht Hr Hf) as Hi. by rewrite Hu in Hi.
  - eexists. split; [done|]. split; [|done].
    pose proof (IUp b t data u' n' w' (Z.of_nat (length aout') - ack) out (aout ++ data) aout' ack f pb rt Hb Ht Hr Hf) as Hi. by rewrite Hu in Hi.
Qed.

(** The SOCKS side of a client whose pcb is open. *)
Definition side_ok (cc : bool) (k : socks_state) (b : list Z) (u pend : Z) : Prop :=
  if cc then k = SocksFreed /\ 0 < pend
  else exists t, k = SocksUp t (u =? -1) /\ sending_ok b t /\ Z.of_nat (length b) <= TCP_WND.

Lemma open_inv cc k b rb u n w pend out inn aout ack f pb rt :
  side_ok cc k b u pend -> recv_ok rb u n w pend inn aout ack -> frame_ok true f pb ->
  inv (open_state cc k b rb u n w pend out inn aout ack f pb rt).
Proof.
  intros Hs Hr Hf. destruct cc; [destruct Hs as [-> Hp]; by apply IDrain|]. destruct Hs as (t & -> & Ht & Hb). by apply IUp.
Qed.

Lemma post_ok ev s : inv s -> call s = None -> pcb_open s = true -> pbufs s = 0 -> post ev (Some (returns ERR_OK s)).
Proof.
  intros Hi Hc Ho Hp. eexists. split; [done|]. split; [|destruct ev; cbn; auto].
  pose proof (returns_open ERR_OK s Hi Ho) as H. unfold returns. by rewrite Hp.
Qed.

Lemma frame_open_none pb : frame_ok true None pb -> pb = 0.
Proof. by intros [?|[? _]]. Qed.

Lemma client_sent_step r len cc k b rb u n w pend out inn aout ack pb rt :
  side_ok cc k b u pend -> recv_ok rb u n w pend inn aout ack -> frame_ok true None pb ->
  0 < len <= Z.of_nat (length aout) - ack ->
  post (EvSent r len) (step (EvSent r len) (open_state cc k b rb u n w pend out inn aout ack None pb rt)).
Proof.
  intros Hside Hr Hf Hlen. pose proof (frame_open_none _ Hf) as Hpb. pose proof Hr as (Ha & Hp & _). pose proof (recv_ok_used _ _ _ _ _ _ _ _ Hr) as Hu.
  cbn [step]. unfold client_sent_func.
  change (app_acks len _) with (open_state cc k b rb u n w pend out inn aout (ack + len) None pb rt).
  set (s0 := open_state _ _ _ _ _ _ _ _ _ _ _ _ _ _ _).
  change (cl s0) with (mkClient false b true cc rb u n w pend). cbn [client_closed socks_up socks_recv_tcp_pending socks_recv_buf socks_recv_buf_used socks_recv_buf_sent socks_recv_waiting].
  change (alloc s0) with true. rewrite (proj2 (Z.ltb_lt 0 len)), (proj2 (Z.leb_le len pend)) by lia. cbn [andb negb assert mbind option_bind].
  change (with_cl (set_recv rb u n w (pend - len) (mkClient false b true cc rb u n w pend)) s0)
    with (open_state cc k b rb u n w (pend - len) out inn aout (ack + len) None pb rt).
  clear s0. cbn [cl open_state socks_recv_buf_used socks_closed socks_recv_tcp_pending socks_recv_waiting socks_recv_buf_sent socks_recv_buf].
  destruct Hu as [[-> ->]|(Hu0 & -> & Hn & -> & Hpos & Hi)].
  - change (0 <? -1) with false. cbn match. destruct (cc && (pend - len =? 0)) eqn:E'.
    + apply andb_true_iff in E' as [-> E'%Z.eqb_eq]. destruct Hside as [-> _].
      destruct (free_client_drain 1 r true b rb (-1) n w (pend - len) false true false true (Z.of_nat (length out)) out aout aout (ack + len) None pb rt)
        as (s' & E2 & Hs'); [right; split; [done|lia]|done|lia|done|]. unfold depth, open_state. cbn [negb]. rewrite E2. cbn [mbind option_bind]. by apply post_abrt.
    + apply post_ok; [|done|done|done]. apply open_inv; [|split; [lia|]; split; [lia|]; by left|done].
      destruct cc; [|done]. destruct Hside as [-> _]. split; [done|]. cbn [andb] in E'. apply Z.eqb_neq in E'. lia.
  - rewrite (proj2 (Z.ltb_lt 0 _)) by lia. rewrite (proj2 (Z.ltb_lt n _)) by lia. cbn [andb assert mbind option_bind].
    change (with_cl _ _) with (open_state cc k b rb (Z.of_nat (length rb)) n false (pend - len) out inn aout (ack + len) None pb rt).
    assert (Hk : forall u, up_or_drain cc k b u).
    { intros u. destruct cc; [by destruct Hside|]. destruct Hside as (t & -> & Ht & _). exists t, (Z.of_nat (length rb) =? -1). split_and!; [done|done|].
      intros H%Z.eqb_eq. lia. }
    destruct (send_out_ok r cc k b rb n (pend - len) out inn aout (ack + len) None pb rt Hk ltac:(lia) Hi ltac:(lia) ltac:(lia) Hf)
      as (a & s' & E' & [[-> He]|(-> & u' & n' & w' & aout' & -> & Hr' & Hpos')]); rewrite E'; cbn [mbind option_bind]; [by apply post_abrt|].
    change (socks_recv_tcp_pending (cl _)) with (Z.of_nat (length aout') - (ack + len)). rewrite (proj2 (Z.ltb_lt 0 _)) by lia. cbn [assert mbind option_bind].
    cbn [cl open_state socks_recv_buf_used socks_closed]. destruct ((u' =? -1) && negb cc) eqn:E2.
    + apply andb_true_iff in E2 as [E2 ->%negb_true_iff]. destruct Hside as (t & -> & Ht & Hb).
      rewrite (proj2 (Z.eqb_neq _ (-1))) by lia. apply Z.eqb_eq in E2. subst u'.
      eexists. split; [reflexivity|]. split; [|done].
      apply (open_inv false (SocksUp t true) b rb (-1) n' w' _ out inn aout' (ack + len) (Some (mkFrame false false)) pb rt); [by exists t|done|by split].
    + apply post_ok; [|done|done|done]. apply open_inv; [|done|done]. destruct cc; [by destruct Hside|].
      rewrite andb_true_r in E2. destruct Hside as (t & -> & Ht & Hb). exists t. split_and!; [|done|done].
      by rewrite E2, (proj2 (Z.eqb_neq _ (-1))) by lia.
Qed.

(** lwIP delivers data. *)
Lemma up_recv_data r data b t rb u n w pend out inn aout ack pb rt :
  Z.of_nat (length b + length data) <= TCP_WND -> 0 < Z.of_nat (length data) -> sending_ok b t ->
  recv_ok rb u n w pend inn aout ack -> frame_ok true None pb ->
  post (EvRecv r (Some data)) (step (EvRecv r (Some data)) (open_state false (SocksUp t (u =? -1)) b rb u n w pend out inn aout ack None pb rt)).
Proof.
  intros Hb Hdata Ht Hr Hf. pose proof (frame_open_none _ Hf) as ->. cbn [step]. unfold client_recv_func.
  set (s0 := app_delivers data _). change (alloc s0 && negb (client_closed (cl s0))) with true. cbn [assert mbind option_bind].
  change (buf_used (cl s0)) with (Z.of_nat (length b)). change (buf (cl s0)) with b. rewrite (proj2 (Z.ltb_ge _ _)) by lia.
  assert (Hs1 : add_pbufs 1 (with_cl (set_buf (b ++ data) (cl s0)) s0)
    = open_state false (SocksUp t (u =? -1)) (b ++ data) rb u n w pend out inn aout ack None 1 rt).
  { unfold s0, open_state, add_pbufs. cbn. by rewrite app_assoc. }
  rewrite Hs1. set (s1 := open_state _ _ _ _ _ _ _ _ _ _ _ _ _ _ _). change (buf_used (cl s1)) with (Z.of_nat (length (b ++ data))).
  change (socks_up (cl s1)) with true. rewrite andb_true_r, length_app.
  destruct t as [m|].
  - cbn in Ht. rewrite (proj2 (Z.eqb_neq _ _)) by lia. apply (post_ok _ (add_pbufs (-1) s1)); [|done|done|done].
    apply (IUp (b ++ data) (Some m)); [rewrite length_app; lia|cbn; rewrite length_app; lia|done|by left].
  - cbn in Ht. subst b. cbn [app length Nat.add]. rewrite Z.eqb_refl. change (negb (socks_closed (cl s1))) with true. cbn [assert mbind option_bind].
    unfold s1, open_state. cbn [app]. assert (data <> []) by (by destruct data). rewrite send_to_socks_ok by done. cbn [mbind option_bind].
    eexists. split; [done|]. split; [|done].
    apply (IUp data (Some (Z.of_nat (length data))) rb u n w pend out inn aout ack (Some (mkFrame false true)) 1 rt); [done|by apply sending_all|done|by split].
Qed.

Lemma up_step b t rb u n w pend out inn aout ack f pb rt ev : Z.of_nat (length b) <= TCP_WND -> sending_ok b t ->
  recv_ok rb u n w pend inn aout ack -> frame_ok true f pb ->
  let s := open_state false (SocksUp t (u =? -1)) b rb u n w pend out inn aout ack f pb rt in
  can_happen ev s -> post ev (step ev s).
Proof.
  intros Hb Ht Hr Hf s Hp. destruct (recv_ok_prefix _ _ _ _ _ _ _ _ Hr) as [Hpre Ha].
  assert (Hrv : (u =? -1) = true -> u = -1) by apply Z.eqb_eq.
  destruct ev as [r [data|]|r|r len| |r [| |]|r m|r data|]; cbn -[TCP_WND CLIENT_SOCKS_RECV_BUF_SIZE length Z.of_nat app] in Hp.
  - destruct Hp as (Hc & _ & _ & H1 & H2). subst f. apply up_recv_data; try done. rewrite length_app in H2. lia.
  - destruct Hp as (Hc & _). subst f.
    destruct (free_client_up 1 r b t (u =? -1) rb u n w pend true true true true (Z.of_nat (length out)) out inn aout ack None pb rt) as (s' & E' & Hs'); try done.
    change (step _ s) with (s' ← client_free_client 4 r (mkState true (mkClient false b true false rb u n w pend)
      (mkPcb None true true true true (out ++ b) (Z.of_nat (length out)) aout ack) (mkSocks (SocksUp t (u =? -1)) false out inn) None pb rt); Some (returns ERR_ABRT s')).
    rewrite E'. by apply post_abrt.
  - destruct (handle_freed_up 2 r b t (u =? -1) rb u n w pend Errored false true true true (Z.of_nat (length out)) out inn aout ack f pb rt) as (s' & E' & Hs'); try done.
    exists s'. split; [exact E'|]. by destruct Hs'.
  - destruct Hp as (Hc & _ & _ & Hlen). subst f. apply client_sent_step; [by exists t|done|done|done].
  - apply return_step; [by apply IUp|done].
  - apply up_socks_ends; auto.
  - done.
  - apply up_socks_ends; auto.
  - destruct Hp as (m' & rv & [= -> Hv] & Hm). unfold s. cbn in Ht. apply up_socks_sent; try done; lia.
  - destruct Hp as (t' & [= <- Hu] & Hdata). unfold s. rewrite Hu. apply up_socks_received; try done. by apply Hrv.
  - destruct Hp as (Hc & _). subst f. eexists. split; [reflexivity|]. split; [|done].
    apply IGone; cbn; try done; [by exists b|]. by rewrite (frame_open_none _ Hf); left.
Qed.

(** Events after the application has ended. *)
Lemma down_closed_step b rb u n w pend k fi e r x f pb rt ev : b <> [] -> (k = Closed -> fi = true) -> frame_ok false f pb ->
  let s := mkState true (mkClient true b false false rb u n w pend) (mkPcb (Some k) fi e r x b 0 [] 0) (mkSocks SocksDown false [] []) f pb rt in
  can_happen ev s -> post ev (step ev s).
Proof.
  intros Hb Hk Hf s Hp. destruct ev as [r' [data|]|r'|r' len| |r' [| |]|r' m|r' data|]; cbn -[TCP_WND length Z.of_nat] in Hp; try (naive_solver; fail).
  - apply return_step; [by apply IDownClosed|done].
  - eexists. split; [reflexivity|]. split; [|done]. apply IGone; cbn; try done; [apply prefix_nil|]. intros [= ->]. left. by apply Hk.
  - change (step _ s) with (s' ← (if 0 <? Z.of_nat (length b) then client_send_to_socks (mkState true (mkClient true b true false rb (-1) n w 0)
      (mkPcb (Some k) fi e r x b 0 [] 0) (mkSocks (SocksUp None false) false [] []) f pb rt)
      else Some (mkState true (mkClient true b true false rb (-1) n w 0) (mkPcb (Some k) fi e r x b 0 [] 0) (mkSocks (SocksUp None false) false [] []) f pb rt));
      if negb (client_closed (cl s')) then client_socks_recv_initiate s' else Some s').
    rewrite buf_pos, bool_decide_true, send_to_socks_ok by done. eexists. split; [reflexivity|]. split; [|done].
    apply (IUpClosed b (Z.of_nat (length b)) false rb (-1) n w 0 k fi e r x 0 [] []); try done. by apply sending_all in Hb.
  - destruct Hp as (Hc & _). subst f. eexists. split; [reflexivity|]. split; [|done]. apply IGone; cbn; try done; [apply prefix_nil|].
    intros [= ->]. left. by apply Hk.
Qed.

(** [client_free_socks] after the application has ended. *)
Lemma free_socks_closed j r b t rv rb u n w pend p k fl out inn f pb rt : ended p = Some k -> (k = Closed -> fin p = true) ->
  out `prefix_of` app_in p -> (fl = false -> out = app_in p) -> app_out p `prefix_of` inn -> 0 <= acked p <= Z.of_nat (length (app_out p)) ->
  frame_ok false f pb ->
  exists s', client_free_socks (S j) r (mkState true (mkClient true b true false rb u n w pend) p (mkSocks (SocksUp t rv) fl out inn) f pb rt) = Some s'
    /\ inv s'.
Proof.
  intros He Hk H1 H2 H3 H4 Hf. sred. rewrite andb_false_r. eexists. split; [done|].
  apply IGone; cbn; rewrite ?He; try done. intros [= ->]. left. by apply Hk.
Qed.

Lemma up_closed_step b m rv rb u n w pend k fi e r x rcvd out inn aout ack f pb rt ev : 0 < m <= Z.of_nat (length b) -> (rv = true -> u = -1) ->
  (k = Closed -> fi = true) -> aout `prefix_of` inn -> 0 <= ack <= Z.of_nat (length aout) -> frame_ok false f pb ->
  let s := mkState true (mkClient true b true false rb u n w pend) (mkPcb (Some k) fi e r x (out ++ b) rcvd aout ack)
             (mkSocks (SocksUp (Some m) rv) false out inn) f pb rt in
  can_happen ev s -> post ev (step ev s).
Proof.
  intros Hm Hrv Hk Hpre Ha Hf s Hp.
  destruct ev as [r' [data|]|r'|r' len| |r' [| |]|r' m'|r' data|]; cbn -[TCP_WND CLIENT_SOCKS_RECV_BUF_SIZE length Z.of_nat app] in Hp; try (naive_solver; fail).
  - apply return_step; [by apply IUpClosed|done].
  - destruct (free_socks_closed 3 r' b (Some m) rv rb u n w pend (mkPcb (Some k) fi e r x (out ++ b) rcvd aout ack) k true out inn f pb rt) as (s' & E' & Hs'); try done; [by exists b|].
    exists s'. split; [exact E'|]. by split.
  - destruct (free_socks_closed 3 r' b (Some m) rv rb u n w pend (mkPcb (Some k) fi e r x (out ++ b) rcvd aout ack) k true out inn f pb rt) as (s' & E' & Hs'); try done; [by exists b|].
    exists s'. split; [exact E'|]. by split.
  - destruct Hp as (m2 & rv2 & [= <- <-] & Hq). unfold s. cbn [step]. unfold client_socks_send_handler_done.
    set (s0 := socks_takes m' _). change (cl s0) with (mkClient true b true false rb u n w pend).
    change (alloc s0 && _ && _ && _ && _ && _) with ((0 <? Z.of_nat (length b)) && (0 <? m') && (m' <=? Z.of_nat (length b))).
    rewrite !(proj2 (Z.ltb_lt _ _)), (proj2 (Z.leb_le _ _)) by lia. cbn [andb assert mbind option_bind buf].
    set (b' := drop (Z.to_nat m') b). set (out' := out ++ take (Z.to_nat m') b).
    assert (Hs1 : with_cl (set_buf b' (mkClient true b true false rb u n w pend)) s0
      = mkState true (mkClient true b' true false rb u n w pend) (mkPcb (Some k) fi e r x (out' ++ b') rcvd aout ack)
          (mkSocks (SocksUp None rv) false out' inn) f pb rt).
    { unfold s0, out', b'. cbn. by rewrite <- app_assoc, take_drop. }
    rewrite Hs1. cbn [cl client_closed negb mbind option_bind]. unfold buf_used. cbn [buf]. rewrite buf_pos. case_bool_decide as Hne.
    + unfold Sender_Send. cbn [so socks]. rewrite buf_pos, bool_decide_true by done. eexists. split; [done|]. split; [|done].
      apply IUpClosed; try done. by apply sending_all in Hne.
    + destruct (free_socks_closed 3 r' b' None rv rb u n w pend (mkPcb (Some k) fi e r x (out' ++ b') rcvd aout ack) k false out' inn f pb rt) as (s' & E' & Hs'); try done.
      { by exists b'. } { intros _. cbn. by rewrite Hne, app_nil_r. }
      exists s'. split; [exact E'|]. by split.
  - destruct Hp as (t' & [= <- ->] & Hdata). unfold s. cbn [step]. unfold client_socks_recv_handler_done. rewrite (Hrv eq_refl).
    set (s0 := socks_delivers data _). change (cl s0) with (mkClient true b true false rb (-1) n w pend).
    change (alloc s0 && _ && _ && _ && _ && _) with ((0 <? Z.of_nat (length data)) && (Z.of_nat (length data) <=? CLIENT_SOCKS_RECV_BUF_SIZE) && true && true && true).
    rewrite (proj2 (Z.ltb_lt _ _)), (proj2 (Z.leb_le _ _)) by lia. cbn [andb assert mbind option_bind client_closed].
    eexists. split; [done|]. split; [|done]. apply IUpClosed; try done. by apply prefix_app_r.
  - destruct Hp as (Hc & _). subst f. eexists. split; [reflexivity|]. split; [|done]. apply IGone; cbn; try done; [by exists b|]. intros [= ->]. left. by apply Hk.
Qed.

(** Events after SOCKS has ended, and after the client was freed. *)
Lemma drain_step b rb u n w pend out inn aout ack f pb rt ev : recv_ok rb u n w pend inn aout ack -> 0 < pend -> frame_ok true f pb ->
  let s := open_state true SocksFreed b rb u n w pend out inn aout ack f pb rt in
  can_happen ev s -> post ev (step ev s).
Proof.
  intros Hr Hpos Hf s Hp. destruct (recv_ok_prefix _ _ _ _ _ _ _ _ Hr) as [Hpre Ha].
  destruct ev as [r [data|]|r|r len| |r [| |]|r m|r data|]; cbn -[TCP_WND length Z.of_nat app] in Hp; try (naive_solver; fail).
  - destruct (handle_freed_drain 2 r true b rb u n w pend Errored false true false true (Z.of_nat (length out)) out inn aout ack f pb rt) as (s' & E' & Hs'); try done.
    exists s'. split; [exact E'|]. by destruct Hs'.
  - destruct Hp as (Hc & _ & _ & Hlen). subst f. by apply client_sent_step.
  - apply return_step; [by apply IDrain|done].
  - destruct Hp as (Hc & _). subst f. eexists. split; [reflexivity|]. split; [|done]. apply IGone; cbn; try done; [by exists b|].
    by rewrite (frame_open_none _ Hf); left.
Qed.

Lemma gone_step c p k f pb rt ev : inv (mkState false c p k f pb rt) -> ended p <> None -> socks k = SocksFreed ->
  can_happen ev (mkState false c p k f pb rt) -> post ev (step ev (mkState false c p k f pb rt)).
Proof.
  intros Hi He Hk Hp. destruct ev as [r [data|]|r|r len| |r [| |]|r m|r data|]; cbn -[TCP_WND length Z.of_nat app] in Hp; rewrite ?Hk in Hp; try (naive_solver; fail).
  by apply return_step.
Qed.

Lemma inv_step s ev : inv s -> possible ev s = true -> post ev (step ev s).
Proof.
  intros Hi Hp%possible_can_happen. destruct Hi.
  - by apply down_step.
  - by apply down_closed_step.
  - by apply up_step.
  - by apply up_closed_step.
  - by apply drain_step.
  - apply gone_step; try done. by apply IGone.
Qed.

(** ** Runs *)

Lemma accept_inv s0 e : listener_accept_func true true true = (Some s0, e) -> inv s0.
Proof. intros [= <- _]. apply IDown; [done|]. by split. Qed.

Lemma run_inv evs : forall s, inv s -> possible_run evs s = true -> exists s', run evs s = Some s' /\ inv s'.
Proof.
  induction evs as [|ev evs IH]; intros s Hi Hp; cbn in *; [eauto|].
  apply andb_true_iff in Hp as [Hp1 Hp2]. destruct (inv_step s ev Hi Hp1) as (s' & E' & Hi' & _). rewrite E' in Hp2 |- *. by apply IH.
Qed.

Lemma run_app evs1 evs2 s : run (evs1 ++ evs2) s = s ← run evs1 s; run evs2 s.
Proof. revert s. induction evs1 as [|ev evs1 IH]; intros s; cbn; [done|]. destruct (step ev s); cbn; [apply IH|done]. Qed.

Lemma inv_streams s : inv s -> socks_out (so s) `prefix_of` app_in (pc s) /\ app_out (pc s) `prefix_of` socks_in (so s)
  /\ 0 <= acked (pc s) <= Z.of_nat (length (app_out (pc s))).
Proof.
  destruct 1 as [| |b t rb u n w pend out inn aout ack f pb rt Hb Ht Hr|b m rv|b rb u n w pend out inn aout ack f pb rt Hr|]; cbn.
  - split_and!; [apply prefix_nil|done|lia|lia].
  - split_and!; [apply prefix_nil|done|lia|lia].
  - split; [by eexists|]. by eapply recv_ok_prefix.
  - split; [by eexists|]. by split.
  - split; [by eexists|]. by eapply recv_ok_prefix.
  - done.
Qed.

Lemma inv_alloc s : inv s -> alloc s = true ->
  app_in (pc s) = socks_out (so s) ++ buf (cl s) /\ pcb_open s = negb (client_closed (cl s))
  /\ (socks (so s) = SocksFreed <-> socks_closed (cl s) = true) /\ (pcb_open s = true \/ socks (so s) <> SocksFreed).
Proof. destruct 1; cbn; intros Ha; try done; (split; [done|]); (split; [done|]); (split; [by split|]); auto. Qed.

Lemma inv_window s : inv s -> pcb_open s = true -> recved (pc s) = Z.of_nat (length (socks_out (so s)))
  /\ (socks (so s) <> SocksFreed -> buf_used (cl s) <= TCP_WND).
Proof. destruct 1 as [| | | | |c p k f pb rt He]; cbn; intros Ho; try done. unfold pcb_open in Ho. cbn in Ho. by destruct (ended p). Qed.

Lemma inv_gone s : inv s -> alloc s = false -> pcb_open s = false /\ socks (so s) = SocksFreed.
Proof. destruct 1 as [| | | | |c p k f pb rt He]; cbn; intros Ha; try done. split; [|done]. unfold pcb_open. cbn. by destruct (ended p). Qed.

(** C18. Safety of a TCP client of tun2socks, for every sequence of callbacks of lwIP, of
    the SOCKS client and of the engine that these can make, and whatever the calls to lwIP
    return: no assertion fails, nothing is used after it was freed (the run has a result);
    the bytes given to SOCKS are a beginning of those the application sent, in order, and
    the rest is exactly the buffer while the client exists; what lwIP was given is a
    beginning of what SOCKS sent; the window that was given back is what SOCKS took, so the
    buffer never overflows; the client is freed exactly when both of its sides have
    ended. *)
Theorem tun2socks_client_safe s0 e evs : listener_accept_func true true true = (Some s0, e) -> possible_run evs s0 = true ->
  exists s, run evs s0 = Some s
    /\ socks_out (so s) `prefix_of` app_in (pc s) /\ app_out (pc s) `prefix_of` socks_in (so s)
    /\ (alloc s = true -> app_in (pc s) = socks_out (so s) ++ buf (cl s) /\ pcb_open s = negb (client_closed (cl s)))
    /\ (pcb_open s = true -> recved (pc s) = Z.of_nat (length (socks_out (so s)))
          /\ (socks (so s) <> SocksFreed -> buf_used (cl s) <= TCP_WND))
    /\ (alloc s = false <-> pcb_open s = false /\ socks (so s) = SocksFreed).
Proof.
  intros Ha Hp. destruct (run_inv evs s0 (accept_inv _ _ Ha) Hp) as (s & E' & Hi). exists s. split; [done|].
  destruct (inv_streams s Hi) as (H1 & H2 & _). split; [done|]. split; [done|]. split.
  { intros Hal. by destruct (inv_alloc s Hi Hal) as (? & ? & _). }
  split; [by apply inv_window|]. split; [by apply inv_gone|]. intros [Ho Hs].
  destruct (alloc s) eqn:Hal; [|done]. destruct (inv_alloc s Hi Hal) as (_ & _ & _ & [?|?]); congruence.
Qed.

(** C19. Delivery: when a client has been freed, everything the application had sent was
    given to SOCKS unless the SOCKS connection ended first, and a pcb that was closed in
    order (not aborted, not failed) without the application closing first had been given
    everything that SOCKS sent, and the application has acknowledged it. *)
Theorem tun2socks_delivery s0 e evs s : listener_accept_func true true true = (Some s0, e) -> possible_run evs s0 = true ->
  run evs s0 = Some s -> alloc s = false ->
  (failed (so s) = false -> socks_out (so s) = app_in (pc s))
  /\ (ended (pc s) = Some Closed -> fin (pc s) = false ->
        app_out (pc s) = socks_in (so s) /\ acked (pc s) = Z.of_nat (length (app_out (pc s)))).
Proof.
  intros Ha Hp Hr Hal. destruct (run_inv evs s0 (accept_inv _ _ Ha) Hp) as (s' & E' & Hi). rewrite Hr in E'. injection E' as <-.
  destruct Hi as [| | | | |c p k f pb rt He Hs H1 H2 H3 H4 H5]; try done. cbn. split; [done|]. intros Hc Hf.
  destruct (H5 Hc) as [?|?]; [congruence|done].
Qed.

(** What the callbacks return to lwIP: [ERR_OK] with the pcb still open, or [ERR_ABRT]
    after the pcb was closed or aborted inside of the callback, as lwIP requires; never
    [ERR_MEM], since data within the window always fits. *)
Theorem tun2socks_callback_contract s0 e evs ev s : listener_accept_func true true true = (Some s0, e) ->
  possible_run (evs ++ [ev]) s0 = true -> run (evs ++ [ev]) s0 = Some s ->
  match ev with EvRecv _ _ | EvSent _ _ | EvReturn => True | _ => False end -> call s = None ->
  (ret s = ERR_OK /\ pcb_open s = true) \/ (ret s = ERR_ABRT /\ pcb_open s = false).
Proof.
  intros Ha Hp Hr Hev Hc.
  assert (Hsplit : forall s0, inv s0 -> possible_run (evs ++ [ev]) s0 = true -> exists s1, run evs s0 = Some s1 /\ inv s1 /\ possible ev s1 = true).
  { clear. induction evs as [|e1 evs IH]; intros s Hi Hp; cbn in *.
    - apply andb_true_iff in Hp as [Hp _]. eauto.
    - apply andb_true_iff in Hp as [Hp1 Hp2]. destruct (inv_step s e1 Hi Hp1) as (s' & E' & Hi' & _). rewrite E' in Hp2 |- *. by apply IH. }
  destruct (Hsplit s0 (accept_inv _ _ Ha) Hp) as (s1 & E1 & Hi1 & Hp1). rewrite run_app, E1 in Hr. cbn in Hr.
  destruct (inv_step s1 ev Hi1 Hp1) as (s2 & E2 & _ & Hct). rewrite E2 in Hr. injection Hr as ->.
  unfold contract, idle in Hct. rewrite Hc in Hct. destruct ev; try done; by apply Hct.
Qed.

(** A run in which the SOCKS connection comes up, the application sends and closes, and the
    bytes are delivered. *)
Module Tun2socksExample.

Definition fine : results := mkResults true [(4096, WriteOk)] true.
Definition s0 : State := mkState true (mkClient false [] false false [] 0 0 false 0) (mkPcb None false true true false [] 0 [] 0)
     (mkSocks SocksDown false [] []) (Some (mkFrame false false)) 0 ERR_OK.
Definition evs : list event :=
  [EvReturn; EvRecv fine (Some [71; 69; 84]); EvSocks fine SEventUp; EvSocksSent fine 2; EvSocksRecv fine [72; 73];
   EvSocksSent fine 1; EvRecv fine (Some [1]); EvReturn; EvSent fine 2; EvRecv fine None; EvSocksSent fine 1].
(** SOCKS ends first, and a write does not fit. *)
Definition short : results := mkResults true [(1, WriteOk); (0, WriteOk)] true.
Definition evs2 : list event :=
  [EvReturn; EvSocks fine SEventUp; EvSocksRecv short [1; 2; 3]; EvSocks fine SEventClosed; EvSent fine 1; EvSent fine 2].
(** The SOCKS connection ends while [client_recv_func] commits its jobs. *)
Definition evs3 : list event :=
  [EvReturn; EvSocks fine SEventUp; EvRecv fine (Some [1; 2; 3]); EvSocks fine SEventError; EvReturn].

Lemma tun2socks_client_safe_witness : possible_run evs s0 = true /\ exists s, run evs s0 = Some s
    /\ socks_out (so s) `prefix_of` app_in (pc s) /\ app_out (pc s) `prefix_of` socks_in (so s)
    /\ (alloc s = true -> app_in (pc s) = socks_out (so s) ++ buf (cl s) /\ pcb_open s = negb (client_closed (cl s)))
    /\ (pcb_open s = true -> recved (pc s) = Z.of_nat (length (socks_out (so s)))
          /\ (socks (so s) <> SocksFreed -> buf_used (cl s) <= TCP_WND))
    /\ (alloc s = false <-> pcb_open s = false /\ socks (so s) = SocksFreed).
Proof. split; [vm_compute; reflexivity|]. apply (tun2socks_client_safe s0 ERR_OK evs); vm_compute; reflexivity. Defined.

Lemma tun2socks_delivery_witness : exists s, run evs2 s0 = Some s /\ alloc s = false /\
  (failed (so s) = false -> socks_out (so s) = app_in (pc s))
  /\ (ended (pc s) = Some Closed -> fin (pc s) = false ->
        app_out (pc s) = socks_in (so s) /\ acked (pc s) = Z.of_nat (length (app_out (pc s)))).
Proof.
  eexists. split; [vm_compute; reflexivity|]. split; [reflexivity|].
  apply (tun2socks_delivery s0 ERR_OK evs2); vm_compute; reflexivity.
Defined.

Lemma tun2socks_callback_contract_witness : exists s, run ([EvReturn; EvSocks fine SEventUp] ++ [EvRecv fine None]) s0 = Some s /\
  ((ret s = ERR_OK /\ pcb_open s = true) \/ (ret s = ERR_ABRT /\ pcb_open s = false)).
Proof.
  eexists. split; [vm_compute; reflexivity|].
  apply (tun2socks_callback_contract s0 ERR_OK [EvReturn; EvSocks fine SEventUp] (EvRecv fine None)); vm_compute; try reflexivity; exact I.
Defined.

End Tun2socksExample.

(** A pbuf is lost: the SOCKS connection can end while [client_recv_func] commits the
    jobs of the send it has just started; the client dies, the callback returns [ERR_ABRT],
    and the pbuf it had taken over is freed by nobody. *)
Theorem tun2socks_pbuf_leak : exists evs s, possible_run evs Tun2socksExample.s0 = true /\ run evs Tun2socksExample.s0 = Some s
  /\ alloc s = false /\ call s = None /\ ret s = ERR_ABRT /\ pbufs s = 1.
Proof. exists Tun2socksExample.evs3. eexists. split; [vm_compute; reflexivity|]. split; [vm_compute; reflexivity|]. done. Qed.
