(* ===== verification/DeviceUdp.v ===== *)
(** * Packets of the device

    Models what badvpn/tun2socks/tun2socks.c does with the packets of the TUN device: the
    datagrams it takes out and gives to the UDP gateway, the datagrams of the gateway it
    writes, and the packets that pass to and from lwIP; with the headers and checksums of
    badvpn/misc/ipv4_proto.h, ipv6_proto.h and udp_proto.h.

    A pointer is an offset into a buffer.  A function is [None] where the code would read
    or write outside of a buffer, violate an assertion, or not leave a loop. *)

From S2P Require Import Prelude Baddr.

(** ** Memory *)

Definition read (mem : list Z) (p n : Z) : option (list Z) :=
  if (0 <=? p) && (0 <=? n) && (p + n <=? Z.of_nat (length mem)) then Some (slice (Z.to_nat p) (Z.to_nat n) mem) else None.

Definition write (mem : list Z) (p : Z) (bs : list Z) : option (list Z) :=
  if (0 <=? p) && (p + Z.of_nat (length bs) <=? Z.of_nat (length mem)) then Some (splice (Z.to_nat p) bs mem) else None.

Definition assert (b : bool) : option unit := if b then Some tt else None.

(** ** Headers; a field of several bytes is in network order *)

Definition IPV4_PROTOCOL_UDP : Z := 17.
Definition IPV6_NEXT_UDP : Z := 17.
Definition sizeof_ipv4_header : Z := 20.
Definition sizeof_ipv6_header : Z := 40.
Definition sizeof_udp_header : Z := 8.

Record ipv4_header := mkIpv4 {
  version4_ihl4 : Z; ds : Z; total_length : list Z; identification : list Z; flags3_fragmentoffset13 : list Z;
  ttl : Z; protocol : Z; ip_checksum : list Z; source_address : list Z; destination_address : list Z
}.

Record ipv6_header := mkIpv6 {
  version4_tc4 : Z; tc4_fl4 : Z; fl : list Z; payload_length : list Z; next_header : Z; hop_limit : Z;
  source_address6 : list Z; destination_address6 : list Z
}.

Record udp_header := mkUdp { source_port : list Z; dest_port : list Z; udp_length : list Z; checksum : list Z }.

(** The bytes of the structures, which are packed, and back. *)
Definition ipv4_bytes (h : ipv4_header) : list Z :=
  version4_ihl4 h :: ds h :: total_length h ++ identification h ++ flags3_fragmentoffset13 h
  ++ ttl h :: protocol h :: ip_checksum h ++ source_address h ++ destination_address h.
Definition ipv4_load (m : list Z) : ipv4_header :=
  mkIpv4 (nthb m 0) (nthb m 1) (slice 2 2 m) (slice 4 2 m) (slice 6 2 m) (nthb m 8) (nthb m 9) (slice 10 2 m) (slice 12 4 m) (slice 16 4 m).
Definition ipv6_bytes (h : ipv6_header) : list Z :=
  version4_tc4 h :: tc4_fl4 h :: fl h ++ payload_length h ++ next_header h :: hop_limit h :: source_address6 h ++ destination_address6 h.
Definition ipv6_load (m : list Z) : ipv6_header :=
  mkIpv6 (nthb m 0) (nthb m 1) (slice 2 2 m) (slice 4 2 m) (nthb m 6) (nthb m 7) (slice 8 16 m) (slice 24 16 m).
Definition udp_bytes (h : udp_header) : list Z := source_port h ++ dest_port h ++ udp_length h ++ checksum h.
Definition udp_load (m : list Z) : udp_header := mkUdp (slice 0 2 m) (slice 2 2 m) (slice 4 2 m) (slice 6 2 m).

Definition IPV4_GET_VERSION (h : ipv4_header) : Z := Z.shiftr (Z.land (version4_ihl4 h) 240) 4.
Definition IPV4_GET_IHL (h : ipv4_header) : Z := Z.land (version4_ihl4 h) 15.
Definition IPV4_MAKE_VERSION_IHL (size : Z) : Z := size / 4 + Z.shiftl 4 4.

Definition set_ip_checksum (c : list Z) (h : ipv4_header) : ipv4_header :=
  mkIpv4 (version4_ihl4 h) (ds h) (total_length h) (identification h) (flags3_fragmentoffset13 h) (ttl h) (protocol h) c
    (source_address h) (destination_address h).
Definition set_checksum (c : list Z) (h : udp_header) : udp_header := mkUdp (source_port h) (dest_port h) (udp_length h) c.

(** ** Checksums *)

(** The loops that add the 16-bit words of a buffer to a [uint32_t]. *)
Fixpoint sum_words (l : list Z) (t : Z) : Z :=
  match l with
  | a :: b :: l => sum_words l (u32 (t + ntoh16 [a; b]))
  | _ => t
  end.

(** The loop that adds the carries; three rounds are enough. *)
Fixpoint fold_carry (fuel : nat) (t : Z) : option Z :=
  match fuel with
  | O => None
  | S n => if Z.shiftr t 16 =? 0 then Some t else fold_carry n (u32 (Z.land t 65535 + Z.shiftr t 16))
  end.
Definition rounds : nat := 3.

Definition ipv4_checksum (header : ipv4_header) (mem : list Z) (extra extra_len : Z) : option (list Z) :=
  assert (extra_len mod 2 =? 0);;
  extra ← read mem extra extra_len;
  t ← fold_carry rounds (sum_words extra (sum_words (ipv4_bytes header) 0));
  Some (hton16 (u16 (Z.lnot t))).

Definition udp_checksum_summer (data : list Z) : option Z :=
  assert (Z.of_nat (length data) mod 2 =? 0);; Some (sum_words data 0).

(** The sum of the payload, padded to an even length. *)
Definition sum_payload (mem : list Z) (payload payload_len : Z) (t : Z) : option Z :=
  if payload_len mod 2 =? 0 then
    d ← read mem payload payload_len; x ← udp_checksum_summer d; Some (u32 (t + x))
  else
    d ← read mem payload (payload_len - 1); x ← udp_checksum_summer d; let t := u32 (t + x) in
    b ← read mem (payload + payload_len - 1) 1;
    x ← udp_checksum_summer (hton16 (u16 (Z.shiftl (nthb b 0) 8))); Some (u32 (t + x)).

Definition udp_checksum (header : udp_header) (mem : list Z) (payload payload_len : Z) (source_addr dest_addr : list Z) : option (list Z) :=
  let payload_len := u16 payload_len in
  a ← udp_checksum_summer source_addr; let t := u32 (0 + a) in
  a ← udp_checksum_summer dest_addr; let t := u32 (t + a) in
  a ← udp_checksum_summer (hton16 IPV4_PROTOCOL_UDP); let t := u32 (t + a) in
  a ← udp_checksum_summer (hton16 (u16 (sizeof_udp_header + payload_len))); let t := u32 (t + a) in
  a ← udp_checksum_summer (udp_bytes header); let t := u32 (t + a) in
  t ← sum_payload mem payload payload_len t;
  t ← fold_carry rounds t;
  let t := if t =? 0 then 65535 else t in
  Some (hton16 (u16 (Z.lnot t))).

Definition udp_ip6_checksum (header : udp_header) (mem : list Z) (payload payload_len : Z) (source_addr dest_addr : list Z) : option (list Z) :=
  let payload_len := u16 payload_len in
  a ← udp_checksum_summer source_addr; let t := u32 (0 + a) in
  a ← udp_checksum_summer dest_addr; let t := u32 (t + a) in
  a ← udp_checksum_summer (hton32 (sizeof_udp_header + payload_len)); let t := u32 (t + a) in
  a ← udp_checksum_summer (hton32 IPV6_NEXT_UDP); let t := u32 (t + a) in
  a ← udp_checksum_summer (udp_bytes header); let t := u32 (t + a) in
  t ← sum_payload mem payload payload_len t;
  t ← fold_carry rounds t;
  let t := if t =? 0 then 65535 else t in
  Some (hton16 (u16 (Z.lnot t))).

(** ** Parsing: the header, and where the payload is, or [None] inside for a packet that is refused *)

Definition ipv4_check (mem : list Z) (data data_len : Z) : option (option (ipv4_header * Z * Z)) :=
  if data_len <? sizeof_ipv4_header then Some None else
  h ← read mem data sizeof_ipv4_header;
  let h := ipv4_load h in
  if negb (IPV4_GET_VERSION h =? 4) then Some None else
  let header_len := u16 (IPV4_GET_IHL h * 4) in
  if header_len <? sizeof_ipv4_header then Some None else
  if data_len <? header_len then Some None else
  let total := ntoh16 (total_length h) in
  if total <? header_len then Some None else
  if data_len <? total then Some None else
  c ← ipv4_checksum (set_ip_checksum (hton16 0) h) mem (data + sizeof_ipv4_header) (u16 (header_len - sizeof_ipv4_header));
  if negb (bool_decide (ip_checksum h = c)) then Some None else
  Some (Some (h, data + header_len, total - header_len)).

Definition ipv6_check (mem : list Z) (data data_len : Z) : option (option (ipv6_header * Z * Z)) :=
  if data_len <? sizeof_ipv6_header then Some None else
  h ← read mem data sizeof_ipv6_header;
  let h := ipv6_load h in
  if negb (Z.shiftr (version4_tc4 h) 4 =? 6) then Some None else
  if data_len - sizeof_ipv6_header <? ntoh16 (payload_length h) then Some None else
  Some (Some (h, data + sizeof_ipv6_header, ntoh16 (payload_length h))).

Definition udp_check (mem : list Z) (data data_len : Z) : option (option (udp_header * Z * Z)) :=
  if data_len <? sizeof_udp_header then Some None else
  h ← read mem data sizeof_udp_header;
  let h := udp_load h in
  let data := data + sizeof_udp_header in let data_len := data_len - sizeof_udp_header in
  let udp_length := ntoh16 (udp_length h) in
  if udp_length <? sizeof_udp_header then Some None else
  if sizeof_udp_header + data_len <? udp_length then Some None else
  Some (Some (h, data, udp_length - sizeof_udp_header)).

(** ** The device *)

(** What of the options, the interface and the device the code uses. *)
Record Options := mkOptions {
  udpgw_remote_server_addr : bool;
  udpgw_transparent_dns : bool;
  udpgw_dns_only : bool;
  netif_ip6addr : bool;
  netif_ipaddr : list Z;
  udp_mtu : Z;
  BTap_GetMTU : Z
}.

(** Not a datagram for the gateway, dropped, or submitted to the gateway. *)
Inductive verdict := NotTaken | Dropped | Submitted (local remote : BAddr) (is_dns : bool) (data : list Z).

Definition finish (o : Options) (mem : list Z) (data data_len : Z) (local remote : BAddr) (dest_port_net : list Z) (is_dns : bool) : option verdict :=
  if udpgw_dns_only o && negb (bool_decide (dest_port_net = hton16 53)) then Some Dropped else
  if udp_mtu o <? data_len then Some NotTaken else
  d ← read mem data data_len; Some (Submitted local remote is_dns d).

Definition process_device_udp_packet (o : Options) (mem : list Z) : option verdict :=
  let data_len := Z.of_nat (length mem) in
  if negb (udpgw_remote_server_addr o) then Some NotTaken else
  ip_version ← (if 0 <? data_len then b ← read mem 0 1; Some (Z.shiftr (nthb b 0) 4) else Some 0);
  if ip_version =? 4 then
    not_udp ← (if data_len <? sizeof_ipv4_header then Some true else b ← read mem 9 1; Some (negb (nthb b 0 =? IPV4_PROTOCOL_UDP)));
    if not_udp : bool then Some NotTaken else
    r ← ipv4_check mem 0 data_len;
    match r with None => Some NotTaken | Some (ih, data, data_len) =>
      r ← udp_check mem data data_len;
      match r with None => Some NotTaken | Some (uh, data, data_len) =>
        c ← udp_checksum (set_checksum [0; 0] uh) mem data data_len (source_address ih) (destination_address ih);
        if negb (bool_decide (checksum uh = c)) then Some NotTaken else
        finish o mem data data_len (BAddr_InitIPv4 (source_address ih) (source_port uh))
          (BAddr_InitIPv4 (destination_address ih) (dest_port uh)) (dest_port uh)
          (udpgw_transparent_dns o && bool_decide (destination_address ih = netif_ipaddr o) && bool_decide (dest_port uh = hton16 53))
      end
    end
  else if ip_version =? 6 then
    if negb (netif_ip6addr o) then Some NotTaken else
    not_udp ← (if data_len <? sizeof_ipv6_header then Some true else b ← read mem 6 1; Some (negb (nthb b 0 =? IPV6_NEXT_UDP)));
    if not_udp : bool then Some NotTaken else
    r ← ipv6_check mem 0 data_len;
    match r with None => Some NotTaken | Some (ih, data, data_len) =>
      r ← udp_check mem data data_len;
      match r with None => Some NotTaken | Some (uh, data, data_len) =>
        c ← udp_ip6_checksum (set_checksum [0; 0] uh) mem data data_len (source_address6 ih) (destination_address6 ih);
        if negb (bool_decide (checksum uh = c)) then Some NotTaken else
        finish o mem data data_len (BAddr_InitIPv6 (source_address6 ih) (source_port uh))
          (BAddr_InitIPv6 (destination_address6 ih) (dest_port uh)) (dest_port uh) false
      end
    end
  else Some NotTaken.

(** What becomes of a packet that was read: taken by the gateway's part above, lost
    because it is too large or there is no pbuf, or given to lwIP. *)
Inductive device_result := ToGateway (v : verdict) | Lost | ToStack (packet : list Z).

Definition device_read_handler_send (o : Options) (pbuf_ok : bool) (mem : list Z) : option device_result :=
  v ← process_device_udp_packet o mem;
  match v with
  | NotTaken =>
      if 65535 <? Z.of_nat (length mem) then Some Lost else
      if negb pbuf_ok then Some Lost else Some (ToStack mem)
  | v => Some (ToGateway v)
  end.

(** [netif_input_func]: which input function of lwIP gets the packet, if any. *)
Inductive input_result := IpInput | Ip6Input | Freed.
Definition netif_input_func (o : Options) (payload : list Z) : input_result :=
  let ip_version := match payload with [] => 0 | b :: _ => Z.shiftr b 4 end in
  if ip_version =? 4 then IpInput
  else if (ip_version =? 6) && netif_ip6addr o then Ip6Input else Freed.

(** [common_netif_output]: a packet is a chain of chunks; the result is the buffer and what
    is sent. *)
Fixpoint copy_chunks (o : Options) (chunks : list (list Z)) (buf : list Z) (len : Z) : option (list Z * option Z) :=
  match chunks with
  | [] => Some (buf, Some len)
  | c :: chunks =>
      if BTap_GetMTU o - len <? Z.of_nat (length c) then Some (buf, None) else
      buf ← write buf len c; copy_chunks o chunks buf (len + Z.of_nat (length c))
  end.

Definition common_netif_output (o : Options) (quitting : bool) (chunks : list (list Z)) (device_write_buf : list Z) : option (list Z * option (list Z)) :=
  if quitting then Some (device_write_buf, None) else
  match chunks with
  | [c] => Some (device_write_buf, if BTap_GetMTU o <? Z.of_nat (length c) then None else Some c)
  | _ =>
      '(buf, r) ← copy_chunks o chunks device_write_buf 0;
      match r with None => Some (buf, None) | Some len => p ← read buf 0 len; Some (buf, Some p) end
  end.

(** A datagram from the gateway; [data] is its payload.  The result is the buffer and what
    is sent to the device. *)
Definition udpgw_client_handler_received (o : Options) (device_write_buf : list Z) (local_addr remote_addr : BAddr) (data : list Z)
    : option (list Z * option (list Z)) :=
  let data_len := Z.of_nat (length data) in
  assert (udpgw_remote_server_addr o && ((addr_type local_addr =? BADDR_TYPE_IPV4) || (addr_type local_addr =? BADDR_TYPE_IPV6))
          && (addr_type local_addr =? addr_type remote_addr));;
  if addr_type local_addr =? BADDR_TYPE_IPV4 then
    let hdrs := sizeof_ipv4_header + sizeof_udp_header in
    if (65535 - hdrs <? data_len) || (BTap_GetMTU o - hdrs <? data_len) then Some (device_write_buf, None) else
    let iph := mkIpv4 (u8 (IPV4_MAKE_VERSION_IHL sizeof_ipv4_header)) 0 (hton16 (u16 (hdrs + data_len))) (hton16 0) (hton16 0)
                 64 IPV4_PROTOCOL_UDP (hton16 0) (addr_ip remote_addr) (addr_ip local_addr) in
    c ← ipv4_checksum iph [] 0 0;
    let iph := set_ip_checksum c iph in
    let udph := mkUdp (addr_port remote_addr) (addr_port local_addr) (hton16 (u16 (sizeof_udp_header + data_len))) (hton16 0) in
    c ← udp_checksum udph data 0 data_len (source_address iph) (destination_address iph);
    let udph := set_checksum c udph in
    buf ← write device_write_buf 0 (ipv4_bytes iph);
    buf ← write buf sizeof_ipv4_header (udp_bytes udph);
    buf ← write buf hdrs data;
    p ← read buf 0 (hdrs + data_len);
    Some (buf, Some p)
  else
    if negb (netif_ip6addr o) then Some (device_write_buf, None) else
    let hdrs := sizeof_ipv6_header + sizeof_udp_header in
    if (65535 - sizeof_udp_header <? data_len) || (BTap_GetMTU o - hdrs <? data_len) then Some (device_write_buf, None) else
    let iph := mkIpv6 (u8 (Z.shiftl 6 4)) 0 (hton16 0) (hton16 (u16 (sizeof_udp_header + data_len))) IPV6_NEXT_UDP 64
                 (addr_ip remote_addr) (addr_ip local_addr) in
    let udph := mkUdp (addr_port remote_addr) (addr_port local_addr) (hton16 (u16 (sizeof_udp_header + data_len))) (hton16 0) in
    c ← udp_ip6_checksum udph data 0 data_len (source_address6 iph) (destination_address6 iph);
    let udph := set_checksum c udph in
    buf ← write device_write_buf 0 (ipv6_bytes iph);
    buf ← write buf sizeof_ipv6_header (udp_bytes udph);
    buf ← write buf hdrs data;
    p ← read buf 0 (hdrs + data_len);
    Some (buf, Some p).
