(* ===== verification/DeviceUdpSpec.v ===== *)
(** * Packets of the device: theorems

    Checksums against the ones' complement sum of RFC 1071, the parser against the set of
    packets it accepts, and the round trip between writing and parsing. *)

From S2P Require Import Prelude Baddr DeviceUdp.

(** ** The reference: ones' complement sums *)

Definition oc_add (a b : Z) : Z := if a + b <? 65536 then a + b else a + b - 65535.

(** The sum of the 16-bit words of a buffer, which is padded with a zero byte. *)
Fixpoint oc_sum (l : list Z) : Z :=
  match l with
  | a :: b :: l => oc_add (a * 256 + b) (oc_sum l)
  | [a] => a * 256
  | [] => 0
  end.

(** The sum without the end-around carry. *)
Fixpoint word_sum (l : list Z) : Z :=
  match l with
  | a :: b :: l => a * 256 + b + word_sum l
  | [a] => a * 256
  | [] => 0
  end.

(** Induction two bytes at a time. *)
Lemma pairs_ind (P : list Z -> Prop) : P [] -> (forall a, P [a]) -> (forall a b l, P l -> P (a :: b :: l)) -> forall l, P l.
Proof.
  intros H0 H1 H2. fix IH 1. intros [|a [|b l]]; [exact H0|apply H1|]. apply H2, IH.
Qed.

Lemma word_sum_range l : bytes_ok l -> 0 <= word_sum l <= 65535 * ((Z.of_nat (length l) + 1) / 2).
Proof.
  unfold bytes_ok. induction l as [|a|a b l IH] using pairs_ind; rewrite ?Forall_cons; unfold is_u8; cbn [word_sum length].
  - intros _. done.
  - intros [Ha _]. change ((Z.of_nat 1 + 1) / 2) with 1. lia.
  - intros (Ha & Hb & Hl). specialize (IH Hl). rewrite !Nat2Z.inj_succ. zdiv.
Qed.

Lemma oc_add_spec a b : 0 <= a < 65536 -> 0 <= b < 65536 ->
  0 <= oc_add a b < 65536 /\ oc_add a b mod 65535 = (a + b) mod 65535 /\ (oc_add a b = 0 <-> a = 0 /\ b = 0).
Proof. intros Ha Hb. unfold oc_add. destruct (Z.ltb_spec (a + b) 65536); (split; [lia|]); (split; [zdiv|lia]). Qed.

Lemma oc_sum_spec l : bytes_ok l -> 0 <= oc_sum l < 65536 /\ oc_sum l mod 65535 = word_sum l mod 65535 /\ (oc_sum l = 0 <-> word_sum l = 0).
Proof.
  unfold bytes_ok. induction l as [|a|a b l IH] using pairs_ind; rewrite ?Forall_cons; unfold is_u8; cbn [word_sum oc_sum].
  - lia.
  - intros [Ha _]. lia.
  - intros (Ha & Hb & Hl). pose proof (word_sum_range l Hl) as Hr. destruct (IH Hl) as (H1 & H2 & H3).
    destruct (oc_add_spec (a * 256 + b) (oc_sum l)) as (H4 & H5 & H6); [lia|lia|]. split; [done|]. split; [|lia].
    rewrite H5, Zplus_mod, H2, <- Zplus_mod. done.
Qed.

Lemma word_sum_app a b : Nat.Even (length a) -> word_sum (a ++ b) = word_sum a + word_sum b.
Proof.
  induction a as [|x|x y a IH] using pairs_ind; cbn [length app word_sum].
  - lia.
  - intros [k Hk]. lia.
  - intros [k Hk]. rewrite IH; [lia|]. exists (k - 1)%nat. lia.
Qed.

(** ** The sums of the code *)

Lemma sum_words_spec l : forall t, bytes_ok l -> Nat.Even (length l) -> 0 <= t -> t + word_sum l < 2 ^ 32 -> sum_words l t = t + word_sum l.
Proof.
  unfold bytes_ok. induction l as [|a|a b l IH] using pairs_ind; intros t; rewrite ?Forall_cons; cbn [sum_words word_sum length].
  - lia.
  - intros _ [k Hk]. lia.
  - intros (Ha & Hb & Hl) [k Hk] Ht Hs. pose proof (word_sum_range l Hl) as Hr. unfold is_u8 in *.
    rewrite ntoh16_val by done. unfold u32. rewrite Z.mod_small by lia. rewrite IH; [lia|done| |lia|lia]. exists (k - 1)%nat. lia.
Qed.

Lemma fold_carry_spec t : 0 <= t < 2 ^ 32 ->
  exists r, fold_carry rounds t = Some r /\ 0 <= r < 65536 /\ r mod 65535 = t mod 65535 /\ (r = 0 <-> t = 0).
Proof.
  intros Ht. unfold rounds.
  assert (Hstep : forall n t, 0 <= t < 2 ^ 32 -> fold_carry (S n) t = if t <? 65536 then Some t else fold_carry n (t mod 65536 + t / 65536)).
  { intros n t' Ht'. cbn [fold_carry]. rewrite Z.shiftr_div_pow2 by lia. change 65535 with (Z.ones 16). rewrite Z.land_ones by lia.
    change (2 ^ 16) with 65536. unfold u32. rewrite (Z.mod_small (_ + _)) by zdiv.
    destruct (Z.eqb_spec (t' / 65536) 0), (Z.ltb_spec t' 65536); try done; zdiv. }
  rewrite Hstep by done. destruct (Z.ltb_spec t 65536); [exists t; split; [done|]; split; [lia|done]|].
  set (t1 := t mod 65536 + t / 65536). assert (H1 : 0 < t1 <= 131070 /\ t1 mod 65535 = t mod 65535) by (unfold t1; split; zdiv).
  rewrite Hstep by lia. destruct (Z.ltb_spec t1 65536); [exists t1; split; [done|]; split; [lia|]; split; [lia|lia]|].
  set (t2 := t1 mod 65536 + t1 / 65536). assert (H2 : 0 < t2 < 65536 /\ t2 mod 65535 = t1 mod 65535) by (unfold t2; split; zdiv).
  rewrite Hstep by lia. rewrite (proj2 (Z.ltb_lt t2 _)) by lia. exists t2. split; [done|]. split; [lia|]. split; lia.
Qed.

Lemma lnot16 r : 0 <= r < 65536 -> u16 (Z.lnot r) = 65535 - r.
Proof. intros Hr. unfold u16, Z.lnot. zdiv. Qed.

(** A field [f] matches the checksum of a sum [r] iff it completes the sum to all ones and
    is not itself all ones. *)
Lemma checksum_matches r S f : 0 < r < 65536 -> r mod 65535 = S mod 65535 -> length f = 2%nat -> bytes_ok f ->
  f = hton16 (u16 (Z.lnot r)) <-> (S + ntoh16 f) mod 65535 = 0 /\ f <> [255; 255].
Proof.
  intros Hr HS Hl Hf. explode f. unfold bytes_ok in Hf. rewrite !Forall_cons in Hf. destruct Hf as (Hx & Hx0 & _).
  pose proof (hton16_ntoh16 x x0 Hx Hx0) as Hinv. pose proof (ntoh16_val x x0 Hx0) as Hv. rewrite lnot16 by lia.
  set (v := ntoh16 [x; x0]) in *. assert (Hv' : 0 <= v < 65536) by (unfold is_u8 in *; lia).
  assert (Hff : [x; x0] = [255; 255] <-> v = 65535) by (unfold is_u8 in *; split; [intros [= -> ->]; lia|intros; repeat f_equal; lia]).
  rewrite Hff. rewrite <- (Zplus_mod_idemp_l S), <- HS, Zplus_mod_idemp_l. split.
  - intros E. assert (v = 65535 - r).
    { unfold v. rewrite E. apply ntoh16_hton16. unfold is_u16. lia. }
    split; [zdiv|lia].
  - intros [E1 E2]. assert (v = 65535 - r) as <- by zdiv. by rewrite Hinv.
Qed.

(** The field in a sum that is valid by RFC 1071. *)
Lemma all_ones S l : 0 < S -> bytes_ok l -> word_sum l = S -> oc_sum l = 65535 <-> S mod 65535 = 0.
Proof. intros HS Hl <-. destruct (oc_sum_spec l Hl) as (H1 & H2 & H3). zdiv. Qed.

(** ** The checksum functions *)

Lemma read_bounds mem p n d : read mem p n = Some d -> 0 <= p /\ 0 <= n /\ p + n <= Z.of_nat (length mem) /\ d = slice (Z.to_nat p) (Z.to_nat n) mem /\ Z.of_nat (length d) = n.
Proof.
  unfold read. case_test; [|done]. intros [= <-]. rewrite length_slice. split_and!; try done; lia.
Qed.

Lemma read_ok mem p n : 0 <= p -> 0 <= n -> p + n <= Z.of_nat (length mem) -> read mem p n = Some (slice (Z.to_nat p) (Z.to_nat n) mem).
Proof. intros H1 H2 H3. unfold read. rewrite !(proj2 (Z.leb_le _ _)) by lia. done. Qed.

(** Reading a known part of a buffer. *)
Lemma read_part a d r p n : p = Z.of_nat (length a) -> n = Z.of_nat (length d) -> read (a ++ d ++ r) p n = Some d.
Proof. intros -> ->. rewrite read_ok by (try lia; len). f_equal. by apply slice_at; lia. Qed.

Lemma slice_bytes a n m : bytes_ok m -> bytes_ok (slice a n m).
Proof. intros H. apply Forall_take, Forall_drop, H. Qed.

Lemma even_nat n : Z.of_nat n mod 2 = 0 -> Nat.Even n.
Proof. intros H. exists (Z.to_nat (Z.of_nat n / 2)). zdiv. Qed.

Lemma summer_ok d : bytes_ok d -> Nat.Even (length d) -> Z.of_nat (length d) <= 65536 -> udp_checksum_summer d = Some (word_sum d).
Proof.
  intros Hd He Hl. unfold udp_checksum_summer. assert (Hm : Z.of_nat (length d) mod 2 = 0) by (destruct He as [k ->]; zdiv).
  rewrite Hm. cbn [Z.eqb assert mbind option_bind]. pose proof (word_sum_range d Hd) as Hr. f_equal.
  rewrite sum_words_spec; [done|done|done|lia|]. zdiv.
Qed.

Lemma word_sum_snoc d b : Nat.Even (length d) -> word_sum (d ++ [b]) = word_sum d + b * 256.
Proof. intros He. by rewrite word_sum_app. Qed.

Lemma sum_payload_ok mem p n d t : bytes_ok mem -> read mem p n = Some d -> n <= 65535 -> 0 <= t -> t + word_sum d < 2 ^ 32 ->
  sum_payload mem p n t = Some (t + word_sum d).
Proof.
  intros Hm Hr Hn Ht Hs. destruct (read_bounds _ _ _ _ Hr) as (Hp0 & Hn0 & Hb & Hd & Hl). unfold sum_payload.
  assert (Hbd : bytes_ok d) by (rewrite Hd; by apply slice_bytes). pose proof (word_sum_range d Hbd) as Hrange.
  destruct (Z.eqb_spec (n mod 2) 0) as [He|Ho].
  - rewrite Hr. cbn [mbind option_bind]. rewrite summer_ok; [|done|apply even_nat; by rewrite Hl|lia]. cbn [mbind option_bind]. unfold u32. by rewrite Z.mod_small by lia.
  - destruct d as [|b0 d0 _] using rev_ind; [cbn in Hl; subst n; done|]. rewrite length_app in Hl. cbn [length] in Hl.
    assert (Hl0 : Z.of_nat (length d0) = n - 1) by lia. assert (He0 : Nat.Even (length d0)) by (apply even_nat; zdiv).
    unfold bytes_ok in Hbd. rewrite Forall_app, Forall_singleton in Hbd. destruct Hbd as [Hb0 Hb1].
    rewrite word_sum_snoc in Hs, Hrange |- * by done. unfold is_u8 in Hb1.
    assert (Hm' : mem = take (Z.to_nat p) mem ++ d0 ++ [b0] ++ drop (Z.to_nat n) (drop (Z.to_nat p) mem)).
    { rewrite (app_assoc d0), Hd. unfold slice. by rewrite take_drop, take_drop. }
    assert (Hlp : Z.of_nat (length (take (Z.to_nat p) mem)) = p) by (rewrite length_take; lia).
    assert (R1 : read mem p (n - 1) = Some d0) by (rewrite Hm'; apply read_part; lia).
    assert (R2 : read mem (p + n - 1) 1 = Some [b0]) by (rewrite Hm', app_assoc; apply read_part; [rewrite length_app|cbn [length]]; lia).
    rewrite R1, R2. cbn [mbind option_bind]. rewrite (summer_ok d0) by (done || lia). cbn [mbind option_bind].
    pose proof (word_sum_range d0 Hb0) as Hr0. unfold u32 at 2. rewrite Z.mod_small by lia.
    change (nthb [b0] 0) with b0.
    assert (Hx : hton16 (u16 (Z.shiftl b0 8)) = [b0; 0]).
    { rewrite Z.shiftl_mul_pow2 by lia. unfold u16. rewrite hton16_val. f_equal; [zdiv|]. f_equal. zdiv. }
    rewrite Hx, summer_ok; [|repeat constructor; unfold is_u8; lia|by exists 1%nat|cbn; lia]. cbn [mbind option_bind word_sum].
    unfold u32. rewrite Z.mod_small by lia. f_equal. lia.
Qed.

(** Headers whose fields have their sizes. *)
Definition ipv4_wf (h : ipv4_header) : Prop :=
  bytes_ok (ipv4_bytes h) /\ length (total_length h) = 2%nat /\ length (identification h) = 2%nat /\ length (flags3_fragmentoffset13 h) = 2%nat
  /\ length (ip_checksum h) = 2%nat /\ length (source_address h) = 4%nat /\ length (destination_address h) = 4%nat.
Definition ipv6_wf (h : ipv6_header) : Prop :=
  bytes_ok (ipv6_bytes h) /\ length (fl h) = 2%nat /\ length (payload_length h) = 2%nat
  /\ length (source_address6 h) = 16%nat /\ length (destination_address6 h) = 16%nat.
Definition udp_wf (h : udp_header) : Prop :=
  bytes_ok (udp_bytes h) /\ length (source_port h) = 2%nat /\ length (dest_port h) = 2%nat /\ length (udp_length h) = 2%nat /\ length (checksum h) = 2%nat.

(** Name the bytes of a header. *)
Ltac explode_all := repeat match goal with H : length ?l = _ |- _ => explode l end.
Ltac bytes_hyps := unfold bytes_ok in *; cbn [app] in *; rewrite ?Forall_cons in *; unfold is_u8 in *.

Lemma ipv4_word_sum h : ipv4_wf h -> word_sum (ipv4_bytes h) = word_sum (ipv4_bytes (set_ip_checksum (hton16 0) h)) + ntoh16 (ip_checksum h).
Proof.
  intros (Hb & H1 & H2 & H3 & H4 & H5 & H6). destruct h as [v d tl idf fr tt pr ck sa da]; cbn in *. explode_all. unfold ipv4_bytes in *. cbn in Hb. bytes_hyps.
  cbn [ipv4_bytes version4_ihl4 ds total_length identification flags3_fragmentoffset13 ttl protocol ip_checksum source_address destination_address set_ip_checksum hton16 app word_sum] in *.
  rewrite ntoh16_val by (unfold is_u8; tauto). change (u8 (Z.shiftr 0 8)) with 0. change (u8 0) with 0. lia.
Qed.

Lemma udp_word_sum h : udp_wf h -> word_sum (udp_bytes h) = word_sum (udp_bytes (set_checksum [0; 0] h)) + ntoh16 (checksum h).
Proof.
  intros (Hb & H1 & H2 & H3 & H4). destruct h as [s d l c]; cbn in *. explode_all. unfold udp_bytes in *. cbn in Hb. bytes_hyps. cbn [word_sum app set_checksum source_port dest_port udp_length checksum].
  rewrite ntoh16_val by (unfold is_u8; tauto). lia.
Qed.

(** The end of the checksum functions. *)
Lemma checksum_end S l f : bytes_ok l -> length f = 2%nat -> bytes_ok f -> 0 < S < 2 ^ 32 -> word_sum l = S + ntoh16 f ->
  exists r, fold_carry rounds S = Some r /\ 0 < r < 65536
    /\ (f = hton16 (u16 (Z.lnot r)) <-> oc_sum l = 65535 /\ f <> [255; 255]).
Proof.
  intros Hl Hf1 Hf2 HS Hsum. destruct (fold_carry_spec S) as (r & E & H1 & H2 & H3); [lia|]. exists r. split; [done|]. split; [lia|].
  rewrite (checksum_matches r S f) by (done || lia).
  assert (Hv : 0 <= ntoh16 f).
  { explode f. bytes_hyps. rewrite ntoh16_val by (unfold is_u8; tauto). lia. }
  rewrite (all_ones (S + ntoh16 f) l) by (done || lia). done.
Qed.

Lemma bytes_app a b : bytes_ok (a ++ b) <-> bytes_ok a /\ bytes_ok b.
Proof. apply Forall_app. Qed.

Lemma even_app (a b : list Z) : Nat.Even (length a) -> Nat.Even (length b) -> Nat.Even (length (a ++ b)).
Proof. intros [k Hk] [j Hj]. exists (k + j)%nat. rewrite length_app. lia. Qed.

Lemma length_ipv4 h : ipv4_wf h -> length (ipv4_bytes h) = 20%nat.
Proof. intros (_ & H1 & H2 & H3 & H4 & H5 & H6). unfold ipv4_bytes. rewrite !length_cons, !length_app, !length_cons, !length_app. lia. Qed.
Lemma length_ipv6 h : ipv6_wf h -> length (ipv6_bytes h) = 40%nat.
Proof. intros (_ & H1 & H2 & H3 & H4). unfold ipv6_bytes. rewrite !length_cons, !length_app, !length_cons, !length_app. lia. Qed.
Lemma length_udp h : udp_wf h -> length (udp_bytes h) = 8%nat.
Proof. intros (_ & H1 & H2 & H3 & H4). unfold udp_bytes. rewrite !length_app. lia. Qed.

Lemma ipv4_wf_set c h : ipv4_wf h -> bytes_ok c -> length c = 2%nat -> ipv4_wf (set_ip_checksum c h).
Proof.
  intros (Hb & H1 & H2 & H3 & H4 & H5 & H6) Hc Hl. repeat split; try done. destruct h as [v d tl idf fr tt pr ck sa da].
  unfold ipv4_bytes, bytes_ok in *. cbn -[app] in *. rewrite !Forall_cons, !Forall_app, !Forall_cons, !Forall_app in *. tauto.
Qed.

Lemma udp_wf_set c h : udp_wf h -> bytes_ok c -> length c = 2%nat -> udp_wf (set_checksum c h).
Proof.
  intros (Hb & H1 & H2 & H3 & H4) Hc Hl. repeat split; try done. unfold udp_bytes, bytes_ok in *.
  cbn [set_checksum source_port dest_port udp_length checksum]. rewrite !Forall_app in *. tauto.
Qed.

Lemma zero_ok : bytes_ok [0; 0].
Proof. repeat constructor; done. Qed.

Lemma ipv4_checksum_ok h mem p n ex : ipv4_wf h -> version4_ihl4 h <> 0 -> bytes_ok mem -> read mem p n = Some ex -> n mod 2 = 0 -> n <= 40 ->
  exists c, ipv4_checksum (set_ip_checksum (hton16 0) h) mem p n = Some c
    /\ (ip_checksum h = c <-> oc_sum (ipv4_bytes h ++ ex) = 65535 /\ ip_checksum h <> [255; 255]) /\ bytes_ok c /\ length c = 2%nat.
Proof.
  intros Hh Hv Hm Hr He Hn. destruct (read_bounds _ _ _ _ Hr) as (Hp0 & Hn0 & Hb & Hd & Hl).
  assert (Hex : bytes_ok ex) by (rewrite Hd; by apply slice_bytes).
  set (h0 := set_ip_checksum (hton16 0) h).
  assert (Hh0 : ipv4_wf h0).
  { apply ipv4_wf_set; [done|apply hton16_ok|done]. }
  pose proof (ipv4_word_sum h Hh) as Hw. fold h0 in Hw. pose proof (proj1 Hh0) as Hb0. pose proof (word_sum_range _ Hb0) as Hr0. pose proof (word_sum_range _ Hex) as Hre.
  assert (Hpos : 0 < word_sum (ipv4_bytes h0)).
  { unfold ipv4_bytes, h0, bytes_ok in *. cbn -[hton16 app word_sum] in *. cbn [word_sum]. rewrite !Forall_cons in Hb0. unfold is_u8 in Hb0.
    assert (0 <= word_sum (total_length h ++ identification h ++ flags3_fragmentoffset13 h ++ ttl h :: protocol h :: hton16 0 ++ source_address h ++ destination_address h)).
    { apply word_sum_range. tauto. }
    lia. }
  rewrite (length_ipv4 h0 Hh0) in Hr0. change ((Z.of_nat 20 + 1) / 2) with 10 in Hr0. rewrite Hl in Hre.
  assert (Hre' : word_sum ex <= 65535 * 20) by zdiv.
  destruct (checksum_end (word_sum (ipv4_bytes h0) + word_sum ex) (ipv4_bytes h ++ ex) (ip_checksum h)) as (r & E & H1 & H2).
  - by apply bytes_app; split; [apply Hh|].
  - by destruct Hh as (_ & _ & _ & _ & ? & _).
  - destruct Hh as (Hbb & _). unfold ipv4_bytes, bytes_ok in *. rewrite !Forall_cons, !Forall_app, !Forall_cons, !Forall_app in Hbb. tauto.
  - lia.
  - rewrite word_sum_app by (rewrite (length_ipv4 h Hh); by exists 10%nat). lia.
  - unfold ipv4_checksum. rewrite He. cbn [Z.eqb assert mbind option_bind]. rewrite Hr. cbn [mbind option_bind]. fold h0.
    rewrite (sum_words_spec (ipv4_bytes h0)) by (done || lia || (rewrite (length_ipv4 h0 Hh0); by exists 10%nat)).
    rewrite sum_words_spec; [|done|apply even_nat; by rewrite Hl|lia|lia].
    rewrite Z.add_0_l, E. cbn [mbind option_bind]. eexists. split; [done|]. split; [exact H2|]. split; [apply hton16_ok|done].
Qed.

(** The words that the UDP checksum covers, RFC 768 and RFC 8200. *)
Definition pseudo4 (src dst : list Z) (len : Z) : list Z := src ++ dst ++ [0; 17] ++ hton16 len.
Definition pseudo6 (src dst : list Z) (len : Z) : list Z := src ++ dst ++ hton32 len ++ [0; 0; 0; 17].

Lemma udp_checksum_parts uh mem p n d pseudo : udp_wf uh -> bytes_ok mem -> read mem p n = Some d -> n <= 65527 -> bytes_ok pseudo ->
  Nat.Even (length pseudo) -> 0 < word_sum pseudo < 2 ^ 30 ->
  exists r, fold_carry rounds (word_sum pseudo + word_sum (udp_bytes (set_checksum [0; 0] uh)) + word_sum d) = Some r
    /\ r <> 0
    /\ sum_payload mem p n (word_sum pseudo + word_sum (udp_bytes (set_checksum [0; 0] uh)))
       = Some (word_sum pseudo + word_sum (udp_bytes (set_checksum [0; 0] uh)) + word_sum d)
    /\ 0 <= word_sum (udp_bytes (set_checksum [0; 0] uh)) < 2 ^ 20
    /\ (checksum uh = hton16 (u16 (Z.lnot r)) <-> oc_sum (pseudo ++ udp_bytes uh ++ d) = 65535 /\ checksum uh <> [255; 255]).
Proof.
  intros Hu Hm Hr Hn Hps Hpe Hpos. destruct (read_bounds _ _ _ _ Hr) as (Hp0 & Hn0 & Hb & Hd & Hl).
  assert (Hdd : bytes_ok d) by (rewrite Hd; by apply slice_bytes). pose proof (word_sum_range d Hdd) as Hrd.
  pose proof (udp_word_sum uh Hu) as Hw. set (u0 := set_checksum [0; 0] uh) in *. pose proof (length_udp uh Hu) as Hlu. pose proof (proj1 Hu) as Hub.
  pose proof (word_sum_range _ Hub) as Hru. rewrite Hlu in Hru. change ((Z.of_nat 8 + 1) / 2) with 4 in Hru.
  assert (Hck : bytes_ok (checksum uh) /\ length (checksum uh) = 2%nat).
  { destruct Hu as (Hbb & _ & _ & _ & ?). unfold udp_bytes, bytes_ok in *. rewrite !Forall_app in Hbb. tauto. }
  destruct Hck as [Hck Hck2].
  assert (H0 : 0 <= word_sum (udp_bytes u0) <= 65535 * 4).
  { assert (Hu0 : udp_wf u0) by (apply udp_wf_set; [done|apply zero_ok|done]).
    pose proof (word_sum_range _ (proj1 Hu0)) as H. rewrite (length_udp _ Hu0) in H. change ((Z.of_nat 8 + 1) / 2) with 4 in H. lia. }
  assert (Hd2 : word_sum d <= 65535 * 32764) by zdiv.
  destruct (checksum_end (word_sum pseudo + word_sum (udp_bytes u0) + word_sum d) (pseudo ++ udp_bytes uh ++ d) (checksum uh)) as (r & E & H1 & H2); try done.
  - rewrite !bytes_app. done.
  - lia.
  - rewrite word_sum_app, word_sum_app; [lia|rewrite Hlu; by exists 4%nat|done].
  - exists r. split_and!; try done; try lia. apply (sum_payload_ok mem p n d); try done; lia.
Qed.

Lemma udp_checksum_ok uh mem p n d src dst : udp_wf uh -> bytes_ok mem -> read mem p n = Some d -> n <= 65527 ->
  bytes_ok src -> bytes_ok dst -> length src = 4%nat -> length dst = 4%nat ->
  exists c, udp_checksum (set_checksum [0; 0] uh) mem p n src dst = Some c
    /\ (checksum uh = c <-> oc_sum (pseudo4 src dst (8 + n) ++ udp_bytes uh ++ d) = 65535 /\ checksum uh <> [255; 255]) /\ bytes_ok c /\ length c = 2%nat.
Proof.
  intros Hu Hm Hr Hn Hs Hd Hls Hld. destruct (read_bounds _ _ _ _ Hr) as (Hp0 & Hn0 & _).
  pose proof (word_sum_range _ Hs) as Rs. pose proof (word_sum_range _ Hd) as Rd. rewrite Hls in Rs. rewrite Hld in Rd. change ((Z.of_nat 4 + 1) / 2) with 2 in *.
  pose proof (word_sum_range _ (hton16_ok (8 + n))) as Rn. change ((Z.of_nat (length (hton16 (8 + n))) + 1) / 2) with 1 in Rn.
  assert (Hw : word_sum (pseudo4 src dst (8 + n)) = word_sum src + word_sum dst + 17 + word_sum (hton16 (8 + n))).
  { unfold pseudo4. rewrite !word_sum_app; [cbn [word_sum]; lia|by exists 1%nat|rewrite Hld; by exists 2%nat|rewrite Hls; by exists 2%nat]. }
  destruct (udp_checksum_parts uh mem p n d (pseudo4 src dst (8 + n))) as (r & E & H1 & H2 & H3 & H4); try done.
  { unfold pseudo4. rewrite !bytes_app. split_and!; [done|done|repeat constructor; done|apply hton16_ok]. }
  { unfold pseudo4. exists 6%nat. rewrite !length_app, Hls, Hld. done. }
  { lia. }
  assert (Hu0 : udp_wf (set_checksum [0; 0] uh)) by (apply udp_wf_set; [done|apply zero_ok|done]).
  pose proof (length_udp _ Hu0) as Hlu. pose proof (proj1 Hu0) as Hub.
  unfold udp_checksum, sizeof_udp_header. rewrite !(u16_id n), !(u16_id (8 + n)) by (unfold is_u16; lia).
  rewrite (summer_ok src), (summer_ok dst), (summer_ok (hton16 IPV4_PROTOCOL_UDP)), (summer_ok (hton16 (8 + n))), (summer_ok (udp_bytes _));
    try done; try apply hton16_ok; try (rewrite ?Hlu, ?Hls, ?Hld; by exists 2%nat); try (rewrite ?Hlu, ?Hls, ?Hld; cbn [length hton16]; lia);
    try (rewrite Hlu; by exists 4%nat); try by exists 1%nat.
  cbn [mbind option_bind]. change (word_sum (hton16 IPV4_PROTOCOL_UDP)) with 17. unfold u32.
  rewrite (Z.mod_small (0 + _)) by lia. rewrite (Z.mod_small (0 + _ + _)) by lia. rewrite (Z.mod_small (0 + _ + _ + _)) by lia.
  rewrite (Z.mod_small (0 + _ + _ + _ + _)) by lia. rewrite (Z.mod_small (0 + _ + _ + _ + _ + _)) by lia.
  rewrite Z.add_0_l, <- Hw, H2. cbn [mbind option_bind]. rewrite E. cbn [mbind option_bind]. rewrite (proj2 (Z.eqb_neq r 0)) by lia.
  eexists. split; [done|]. split; [exact H4|]. split; [apply hton16_ok|done].
Qed.

Lemma hton32_ok v : bytes_ok (hton32 v).
Proof. repeat constructor; apply u8_range. Qed.

Lemma udp_ip6_checksum_ok uh mem p n d src dst : udp_wf uh -> bytes_ok mem -> read mem p n = Some d -> n <= 65527 ->
  bytes_ok src -> bytes_ok dst -> length src = 16%nat -> length dst = 16%nat ->
  exists c, udp_ip6_checksum (set_checksum [0; 0] uh) mem p n src dst = Some c
    /\ (checksum uh = c <-> oc_sum (pseudo6 src dst (8 + n) ++ udp_bytes uh ++ d) = 65535 /\ checksum uh <> [255; 255]) /\ bytes_ok c /\ length c = 2%nat.
Proof.
  intros Hu Hm Hr Hn Hs Hd Hls Hld. destruct (read_bounds _ _ _ _ Hr) as (Hp0 & Hn0 & _).
  pose proof (word_sum_range _ Hs) as Rs. pose proof (word_sum_range _ Hd) as Rd. rewrite Hls in Rs. rewrite Hld in Rd. change ((Z.of_nat 16 + 1) / 2) with 8 in *.
  pose proof (word_sum_range _ (hton32_ok (8 + n))) as Rn. change ((Z.of_nat (length (hton32 (8 + n))) + 1) / 2) with 2 in Rn.
  assert (Hw : word_sum (pseudo6 src dst (8 + n)) = word_sum src + word_sum dst + word_sum (hton32 (8 + n)) + 17).
  { unfold pseudo6. rewrite !word_sum_app; [cbn [word_sum]; lia|by exists 2%nat|rewrite Hld; by exists 8%nat|rewrite Hls; by exists 8%nat]. }
  destruct (udp_checksum_parts uh mem p n d (pseudo6 src dst (8 + n))) as (r & E & H1 & H2 & H3 & H4); try done.
  { unfold pseudo6. rewrite !bytes_app. split_and!; [done|done|apply hton32_ok|repeat constructor; done]. }
  { unfold pseudo6. exists 20%nat. rewrite !length_app, Hls, Hld. done. }
  { lia. }
  assert (Hu0 : udp_wf (set_checksum [0; 0] uh)) by (apply udp_wf_set; [done|apply zero_ok|done]).
  pose proof (length_udp _ Hu0) as Hlu. pose proof (proj1 Hu0) as Hub.
  unfold udp_ip6_checksum, sizeof_udp_header. rewrite !(u16_id n) by (unfold is_u16; lia).
  rewrite (summer_ok src), (summer_ok dst), (summer_ok (hton32 (8 + n))), (summer_ok (hton32 IPV6_NEXT_UDP)), (summer_ok (udp_bytes _));
    try done; try apply hton32_ok; try (rewrite ?Hlu, ?Hls, ?Hld; by exists 8%nat); try (rewrite ?Hlu, ?Hls, ?Hld; cbn [length hton32]; lia);
    try (rewrite Hlu; by exists 4%nat); try by exists 2%nat.
  cbn [mbind option_bind]. change (word_sum (hton32 IPV6_NEXT_UDP)) with 17. unfold u32.
  rewrite (Z.mod_small (0 + _)) by lia. rewrite (Z.mod_small (0 + _ + _)) by lia. rewrite (Z.mod_small (0 + _ + _ + _)) by lia.
  rewrite (Z.mod_small (0 + _ + _ + _ + _)) by lia. rewrite (Z.mod_small (0 + _ + _ + _ + _ + _)) by lia.
  rewrite Z.add_0_l, <- Hw, H2. cbn [mbind option_bind]. rewrite E. cbn [mbind option_bind]. rewrite (proj2 (Z.eqb_neq r 0)) by lia.
  eexists. split; [done|]. split; [exact H4|]. split; [apply hton16_ok|done].
Qed.

(** ** The headers in memory *)

Lemma ipv4_load_bytes m r : length m = 20%nat -> bytes_ok m -> ipv4_bytes (ipv4_load (m ++ r)) = m /\ ipv4_wf (ipv4_load (m ++ r)).
Proof. intros Hl Hb. explode m. unfold ipv4_wf. split; [done|]. by split_and!. Qed.
Lemma ipv6_load_bytes m r : length m = 40%nat -> bytes_ok m -> ipv6_bytes (ipv6_load (m ++ r)) = m /\ ipv6_wf (ipv6_load (m ++ r)).
Proof. intros Hl Hb. explode m. unfold ipv6_wf. split; [done|]. by split_and!. Qed.
Lemma udp_load_bytes m : length m = 8%nat -> bytes_ok m -> udp_bytes (udp_load m) = m /\ udp_wf (udp_load m).
Proof. intros Hl Hb. explode m. unfold udp_wf. split; [done|]. by split_and!. Qed.

Lemma ipv4_bytes_load h : ipv4_wf h -> ipv4_load (ipv4_bytes h) = h.
Proof. intros (Hb & H1 & H2 & H3 & H4 & H5 & H6). destruct h as [v d tl idf fr tt pr ck sa da]; cbn in *. explode_all. done. Qed.
Lemma ipv6_bytes_load h : ipv6_wf h -> ipv6_load (ipv6_bytes h) = h.
Proof. intros (Hb & H1 & H2 & H3 & H4). destruct h as [v d f pl nh hl sa da]; cbn in *. explode_all. done. Qed.
Lemma udp_bytes_load h : udp_wf h -> udp_load (udp_bytes h) = h.
Proof. intros (Hb & H1 & H2 & H3 & H4). destruct h as [s d l c]; cbn in *. explode_all. done. Qed.

Lemma read_head a r n : n = Z.of_nat (length a) -> read (a ++ r) 0 n = Some a.
Proof. intros ->. by apply (read_part [] a r). Qed.

Lemma ntoh16_range l : bytes_ok l -> length l = 2%nat -> 0 <= ntoh16 l < 65536.
Proof. intros Hb Hl. explode l. bytes_hyps. rewrite ntoh16_val by (unfold is_u8; tauto). lia. Qed.

Lemma version_val v : is_u8 v -> Z.shiftr (Z.land v 240) 4 = v / 16 /\ Z.land v 15 = v mod 16.
Proof.
  unfold is_u8. intros Hv. rewrite Z.shiftr_land. change (Z.shiftr 240 4) with (Z.ones 4). change 15 with (Z.ones 4).
  rewrite !Z.land_ones, Z.shiftr_div_pow2 by lia. change (2 ^ 4) with 16. split; [zdiv|done].
Qed.

(** ** The parsers *)

Definition header_len (h : ipv4_header) : Z := 4 * (version4_ihl4 h mod 16).

(** The condition on an IPv4 packet. *)
Definition ipv4_cond (h : ipv4_header) (rest : list Z) : Prop :=
  version4_ihl4 h / 16 = 4 /\ 20 <= header_len h /\ header_len h <= ntoh16 (total_length h) <= 20 + Z.of_nat (length rest)
  /\ oc_sum (ipv4_bytes h ++ take (Z.to_nat (header_len h - 20)) rest) = 65535 /\ ip_checksum h <> [255; 255].

#[global] Instance ipv4_cond_dec h rest : Decision (ipv4_cond h rest).
Proof. unfold ipv4_cond. apply _. Defined.

Lemma ipv4_check_eq h rest : ipv4_wf h -> bytes_ok rest ->
  ipv4_check (ipv4_bytes h ++ rest) 0 (20 + Z.of_nat (length rest))
  = Some (if decide (ipv4_cond h rest) then Some (h, header_len h, ntoh16 (total_length h) - header_len h) else None).
Proof.
  intros Hh Hrest. pose proof (length_ipv4 h Hh) as Hl. unfold ipv4_check, sizeof_ipv4_header. rewrite (proj2 (Z.ltb_ge _ _)) by lia.
  rewrite read_head by lia. cbn [mbind option_bind]. rewrite ipv4_bytes_load by done.
  assert (Hv : is_u8 (version4_ihl4 h)) by (destruct Hh as [Hb _]; by apply Forall_cons in Hb as [? _]).
  assert (Htl : 0 <= ntoh16 (total_length h) < 65536).
  { destruct Hh as (Hb & ? & _). apply ntoh16_range; [|done]. unfold ipv4_bytes, bytes_ok in *. rewrite !Forall_cons, !Forall_app in Hb. tauto. }
  unfold IPV4_GET_VERSION, IPV4_GET_IHL. destruct (version_val _ Hv) as [-> ->]. rewrite (Z.mul_comm _ 4). fold (header_len h).
  assert (Hhl : 0 <= header_len h <= 60) by (unfold header_len; zdiv). rewrite u16_id by (unfold is_u16; lia).
  assert (Hno : forall o, ~ ipv4_cond h rest -> Some None = Some (if decide (ipv4_cond h rest) then Some o else None) :> option (option (ipv4_header * Z * Z))).
  { intros o Hn. by rewrite decide_False by done. }
  repeat (case_test; [apply Hno; unfold ipv4_cond; lia|]). rewrite (Z.add_0_l 20).
  assert (Hmod : (header_len h - 20) mod 2 = 0) by (unfold header_len; zdiv).
  assert (Hr : read (ipv4_bytes h ++ rest) 20 (header_len h - 20) = Some (take (Z.to_nat (header_len h - 20)) rest)).
  { rewrite <- (take_drop (Z.to_nat (header_len h - 20)) rest) at 1. apply read_part; [by rewrite Hl|]. rewrite length_take. lia. }
  rewrite u16_id by (unfold is_u16; lia).
  destruct (ipv4_checksum_ok h (ipv4_bytes h ++ rest) 20 (header_len h - 20) _ Hh ltac:(intros Hz; rewrite Hz in *; done) ltac:(apply bytes_app; split; [apply Hh|done]) Hr Hmod ltac:(lia)) as (c & -> & Hc & _).
  cbn [mbind option_bind]. case_bool_decide as Hck; cbn [negb].
  - rewrite decide_True; [done|]. apply Hc in Hck as [? ?]. unfold ipv4_cond. split_and!; try done; lia.
  - rewrite decide_False; [done|]. intros (_ & _ & _ & H1 & H2). apply Hck, Hc. done.
Qed.

Definition ipv6_cond (h : ipv6_header) (rest : list Z) : Prop :=
  version4_tc4 h / 16 = 6 /\ ntoh16 (payload_length h) <= Z.of_nat (length rest).

#[global] Instance ipv6_cond_dec h rest : Decision (ipv6_cond h rest).
Proof. unfold ipv6_cond. apply _. Defined.

Lemma ipv6_check_eq h rest : ipv6_wf h -> bytes_ok rest ->
  ipv6_check (ipv6_bytes h ++ rest) 0 (40 + Z.of_nat (length rest))
  = Some (if decide (ipv6_cond h rest) then Some (h, 40, ntoh16 (payload_length h)) else None).
Proof.
  intros Hh Hrest. pose proof (length_ipv6 h Hh) as Hl. unfold ipv6_check, sizeof_ipv6_header. rewrite (proj2 (Z.ltb_ge _ _)) by lia.
  rewrite read_head by lia. cbn [mbind option_bind]. rewrite ipv6_bytes_load by done.
  rewrite Z.shiftr_div_pow2 by lia. change (2 ^ 4) with 16.
  repeat (case_test; [rewrite decide_False; [done|]; unfold ipv6_cond; lia|]). rewrite decide_True; [done|]. unfold ipv6_cond. lia.
Qed.

Definition udp_cond (h : udp_header) (n : Z) : Prop := 8 <= ntoh16 (udp_length h) <= n.

#[global] Instance udp_cond_dec h n : Decision (udp_cond h n).
Proof. unfold udp_cond. apply _. Defined.

(** A datagram at an offset, of [n] bytes with its header. *)
Lemma udp_check_eq pre h rest p n : udp_wf h -> p = Z.of_nat (length pre) -> 8 <= n <= 8 + Z.of_nat (length rest) ->
  udp_check (pre ++ udp_bytes h ++ rest) p n
  = Some (if decide (udp_cond h n) then Some (h, p + 8, ntoh16 (udp_length h) - 8) else None).
Proof.
  intros Hh Hp Hn. pose proof (length_udp h Hh) as Hl. unfold udp_check, sizeof_udp_header. rewrite (proj2 (Z.ltb_ge _ _)) by lia.
  rewrite (read_part pre (udp_bytes h) rest) by lia. cbn [mbind option_bind]. rewrite udp_bytes_load by done.
  repeat (case_test; [rewrite decide_False; [done|]; unfold udp_cond; lia|]). rewrite decide_True; [done|]. unfold udp_cond. lia.
Qed.

(** ** The datagrams that are accepted *)

(** An IPv4 or IPv6 packet with a UDP datagram whose checksums are valid and not all ones.
    Bytes of the IP packet behind the datagram ([s1]) and behind the packet ([s2]) are
    ignored. *)
Inductive datagram : list Z -> BAddr -> BAddr -> list Z -> Prop :=
  | Datagram4 ih opts uh data s1 s2 k : ipv4_wf ih -> udp_wf uh -> bytes_ok (opts ++ data ++ s1 ++ s2) ->
      Z.of_nat (length opts) = 4 * k -> version4_ihl4 ih = 4 * 16 + (5 + k) -> 5 + k < 16 -> protocol ih = 17 ->
      ntoh16 (total_length ih) = 28 + Z.of_nat (length opts) + Z.of_nat (length data) + Z.of_nat (length s1) ->
      ntoh16 (udp_length uh) = 8 + Z.of_nat (length data) ->
      oc_sum (ipv4_bytes ih ++ opts) = 65535 -> ip_checksum ih <> [255; 255] ->
      oc_sum (pseudo4 (source_address ih) (destination_address ih) (8 + Z.of_nat (length data)) ++ udp_bytes uh ++ data) = 65535 ->
      checksum uh <> [255; 255] ->
      datagram (ipv4_bytes ih ++ opts ++ udp_bytes uh ++ data ++ s1 ++ s2)
        (BAddr_InitIPv4 (source_address ih) (source_port uh)) (BAddr_InitIPv4 (destination_address ih) (dest_port uh)) data
  | Datagram6 ih uh data s1 s2 : ipv6_wf ih -> udp_wf uh -> bytes_ok (data ++ s1 ++ s2) ->
      version4_tc4 ih / 16 = 6 -> next_header ih = 17 ->
      ntoh16 (payload_length ih) = 8 + Z.of_nat (length data) + Z.of_nat (length s1) ->
      ntoh16 (udp_length uh) = 8 + Z.of_nat (length data) ->
      oc_sum (pseudo6 (source_address6 ih) (destination_address6 ih) (8 + Z.of_nat (length data)) ++ udp_bytes uh ++ data) = 65535 ->
      checksum uh <> [255; 255] ->
      datagram (ipv6_bytes ih ++ udp_bytes uh ++ data ++ s1 ++ s2)
        (BAddr_InitIPv6 (source_address6 ih) (source_port uh)) (BAddr_InitIPv6 (destination_address6 ih) (dest_port uh)) data.

(** What is done with a datagram. *)
Definition is_dns_packet (o : Options) (r : BAddr) : bool :=
  udpgw_transparent_dns o && bool_decide (addr_type r = BADDR_TYPE_IPV4) && bool_decide (addr_ip r = netif_ipaddr o) && bool_decide (addr_port r = hton16 53).
Definition route (o : Options) (l r : BAddr) (data : list Z) : verdict :=
  if udpgw_dns_only o && negb (bool_decide (addr_port r = hton16 53)) then Dropped
  else if udp_mtu o <? Z.of_nat (length data) then NotTaken else Submitted l r (is_dns_packet o r) data.

(** Whether the options let a datagram in. *)
Definition enabled (o : Options) (l : BAddr) : Prop :=
  udpgw_remote_server_addr o = true /\ (addr_type l = BADDR_TYPE_IPV6 -> netif_ip6addr o = true).

Lemma read_version4 h r : read (ipv4_bytes h ++ r) 0 1 = Some [version4_ihl4 h].
Proof. by apply (read_part [] [version4_ihl4 h]). Qed.
Lemma read_version6 h r : read (ipv6_bytes h ++ r) 0 1 = Some [version4_tc4 h].
Proof. by apply (read_part [] [version4_tc4 h]). Qed.
Lemma read_protocol h r : ipv4_wf h -> read (ipv4_bytes h ++ r) 9 1 = Some [protocol h].
Proof.
  intros (Hb & H1 & H2 & H3 & H4 & H5 & H6). destruct h as [v d tl idf fr tt pr ck sa da]; cbn in *. explode_all.
  by apply (read_part [v; d; _; _; _; _; _; _; _] [pr]).
Qed.
Lemma read_next_header h r : ipv6_wf h -> read (ipv6_bytes h ++ r) 6 1 = Some [next_header h].
Proof.
  intros (Hb & H1 & H2 & H3 & H4). destruct h as [v d f pl nh hl sa da]; cbn in *. explode_all.
  by apply (read_part [v; d; _; _; _; _] [nh]).
Qed.

Lemma ipv4_wf_addrs h : ipv4_wf h -> bytes_ok (source_address h) /\ bytes_ok (destination_address h).
Proof. intros [Hb _]. unfold ipv4_bytes, bytes_ok in *. rewrite !Forall_cons, !Forall_app, !Forall_cons, !Forall_app in Hb. tauto. Qed.
Lemma ipv6_wf_addrs h : ipv6_wf h -> bytes_ok (source_address6 h) /\ bytes_ok (destination_address6 h).
Proof. intros [Hb _]. unfold ipv6_bytes, bytes_ok in *. rewrite !Forall_cons, !Forall_app, !Forall_cons, !Forall_app in Hb. tauto. Qed.
Lemma udp_wf_length h : udp_wf h -> 0 <= ntoh16 (udp_length h) < 65536.
Proof. intros (Hb & _ & _ & H & _). apply ntoh16_range; [|done]. unfold udp_bytes, bytes_ok in *. rewrite !Forall_app in Hb. tauto. Qed.

Lemma finish_eq o mem p n l r dns data : read mem p n = Some data -> dns = is_dns_packet o r ->
  finish o mem p n l r (addr_port r) dns = Some (route o l r data).
Proof.
  intros Hr ->. destruct (read_bounds _ _ _ _ Hr) as (_ & _ & _ & _ & Hl). unfold finish, route. rewrite <- Hl.
  destruct (_ && _); [done|]. destruct (_ <? _); [done|]. rewrite Hl, Hr. done.
Qed.

(** A datagram is routed. *)
Lemma process_datagram4 o ih opts uh data s1 s2 k : udpgw_remote_server_addr o = true -> ipv4_wf ih -> udp_wf uh -> bytes_ok (opts ++ data ++ s1 ++ s2) ->
  Z.of_nat (length opts) = 4 * k -> version4_ihl4 ih = 4 * 16 + (5 + k) -> 5 + k < 16 -> protocol ih = 17 ->
  ntoh16 (total_length ih) = 28 + Z.of_nat (length opts) + Z.of_nat (length data) + Z.of_nat (length s1) ->
  ntoh16 (udp_length uh) = 8 + Z.of_nat (length data) ->
  oc_sum (ipv4_bytes ih ++ opts) = 65535 -> ip_checksum ih <> [255; 255] ->
  oc_sum (pseudo4 (source_address ih) (destination_address ih) (8 + Z.of_nat (length data)) ++ udp_bytes uh ++ data) = 65535 ->
  checksum uh <> [255; 255] ->
  process_device_udp_packet o (ipv4_bytes ih ++ opts ++ udp_bytes uh ++ data ++ s1 ++ s2)
  = Some (route o (BAddr_InitIPv4 (source_address ih) (source_port uh)) (BAddr_InitIPv4 (destination_address ih) (dest_port uh)) data).
Proof.
  intros Hon Hih Huh Hb Hopts Hv Hk Hpr Htl Hul Hipc Hipf Hc Hf.
  unfold process_device_udp_packet; rewrite Hon; cbn [negb]; unfold bytes_ok in Hb; rewrite !Forall_app in Hb.
  destruct Hb as (Hb1 & Hb2 & Hb3 & Hb4). destruct (ipv4_wf_addrs _ Hih) as [Hsa Hda]. pose proof Hih as (Hbi & _ & _ & _ & _ & Hls & Hld).
  set (rest := opts ++ udp_bytes uh ++ data ++ s1 ++ s2). set (mem := ipv4_bytes ih ++ rest).
  pose proof (length_ipv4 ih Hih) as Hl4. pose proof (length_udp uh Huh) as Hlu.
  assert (Hlr : Z.of_nat (length rest) = Z.of_nat (length opts) + 8 + Z.of_nat (length data) + Z.of_nat (length s1) + Z.of_nat (length s2)) by (unfold rest; rewrite !length_app, Hlu; lia).
  assert (Hlm : Z.of_nat (length mem) = 20 + Z.of_nat (length rest)) by (unfold mem; rewrite length_app, Hl4; lia).
  assert (Hbm : bytes_ok mem) by (unfold mem, rest; rewrite !bytes_app; split_and!; try done; apply Huh).
  assert (Hbr : bytes_ok rest) by (unfold mem in Hbm; by apply bytes_app in Hbm as [_ ?]).
  pose proof (udp_wf_length _ Huh) as Hulr.
  assert (R0 : read mem 0 1 = Some [version4_ihl4 ih]) by apply read_version4. assert (R9 : read mem 9 1 = Some [protocol ih]) by (by apply read_protocol).
  assert (Rc := ipv4_check_eq ih rest Hih Hbr). fold mem in Rc.
  rewrite Hlm, (proj2 (Z.ltb_lt 0 _)) by lia. rewrite R0. cbn [mbind option_bind]. change (nthb [?x] 0) with x.
  rewrite Hv, Z.shiftr_div_pow2 by lia. replace ((4 * 16 + (5 + k)) / 2 ^ 4) with 4 by zdiv. cbn [Z.eqb Pos.eqb].
  unfold sizeof_ipv4_header. rewrite (proj2 (Z.ltb_ge _ 20)) by lia. rewrite R9. cbn [mbind option_bind]. change (nthb [?x] 0) with x.
  rewrite Hpr. cbn [Z.eqb Pos.eqb negb IPV4_PROTOCOL_UDP]. rewrite Rc. cbn [mbind option_bind].
  assert (Hhl : header_len ih = 20 + Z.of_nat (length opts)) by (unfold header_len; rewrite Hv; zdiv).
  rewrite decide_True.
  2: { unfold ipv4_cond. rewrite Hhl, Hv. split_and!; try done; try zdiv. unfold rest. rewrite take_length_app by lia. done. }
  assert (Hm2 : mem = (ipv4_bytes ih ++ opts) ++ udp_bytes uh ++ data ++ s1 ++ s2) by (unfold mem, rest; by rewrite app_assoc).
  assert (Ru : udp_check mem (header_len ih) (ntoh16 (total_length ih) - header_len ih)
    = Some (if decide (udp_cond uh (ntoh16 (total_length ih) - header_len ih)) then Some (uh, header_len ih + 8, ntoh16 (udp_length uh) - 8) else None)).
  { rewrite Hm2. apply udp_check_eq; [done|rewrite length_app; lia|rewrite !length_app; lia]. }
  rewrite Ru. cbn [mbind option_bind]. rewrite decide_True by (unfold udp_cond; lia).
  assert (Hrd : read mem (header_len ih + 8) (ntoh16 (udp_length uh) - 8) = Some data).
  { rewrite Hm2, app_assoc. apply read_part; [rewrite !length_app; lia|lia]. }
  destruct (udp_checksum_ok uh mem _ _ _ (source_address ih) (destination_address ih) Huh Hbm Hrd ltac:(lia) Hsa Hda Hls Hld) as (c & -> & Hcc & _).
  cbn [mbind option_bind]. rewrite bool_decide_true; [|apply Hcc; split; [|done]; rewrite <- Hc; do 4 f_equal; lia]. cbn [negb].
  apply (finish_eq o mem _ _ _ (BAddr_InitIPv4 (destination_address ih) (dest_port uh))); [done|]. unfold is_dns_packet. cbn. by rewrite andb_true_r.
Qed.

Lemma process_datagram6 o ih uh data s1 s2 : udpgw_remote_server_addr o = true -> netif_ip6addr o = true ->
  ipv6_wf ih -> udp_wf uh -> bytes_ok (data ++ s1 ++ s2) ->
  version4_tc4 ih / 16 = 6 -> next_header ih = 17 ->
  ntoh16 (payload_length ih) = 8 + Z.of_nat (length data) + Z.of_nat (length s1) ->
  ntoh16 (udp_length uh) = 8 + Z.of_nat (length data) ->
  oc_sum (pseudo6 (source_address6 ih) (destination_address6 ih) (8 + Z.of_nat (length data)) ++ udp_bytes uh ++ data) = 65535 ->
  checksum uh <> [255; 255] ->
  process_device_udp_packet o (ipv6_bytes ih ++ udp_bytes uh ++ data ++ s1 ++ s2)
  = Some (route o (BAddr_InitIPv6 (source_address6 ih) (source_port uh)) (BAddr_InitIPv6 (destination_address6 ih) (dest_port uh)) data).
Proof.
  intros Hon H6 Hih Huh Hb Hv Hnh Hpl Hul Hc Hf.
  unfold process_device_udp_packet; rewrite Hon; cbn [negb]; unfold bytes_ok in Hb; rewrite !Forall_app in Hb.
  destruct Hb as (Hb2 & Hb3 & Hb4). destruct (ipv6_wf_addrs _ Hih) as [Hsa Hda]. pose proof Hih as (Hbi & _ & _ & Hls & Hld).
  set (rest := udp_bytes uh ++ data ++ s1 ++ s2). set (mem := ipv6_bytes ih ++ rest).
  pose proof (length_ipv6 ih Hih) as Hl6. pose proof (length_udp uh Huh) as Hlu.
  assert (Hlr : Z.of_nat (length rest) = 8 + Z.of_nat (length data) + Z.of_nat (length s1) + Z.of_nat (length s2)) by (unfold rest; rewrite !length_app, Hlu; lia).
  assert (Hlm : Z.of_nat (length mem) = 40 + Z.of_nat (length rest)) by (unfold mem; rewrite length_app, Hl6; lia).
  assert (Hbm : bytes_ok mem) by (unfold mem, rest; rewrite !bytes_app; split_and!; try done; apply Huh).
  assert (Hbr : bytes_ok rest) by (unfold mem in Hbm; by apply bytes_app in Hbm as [_ ?]).
  pose proof (udp_wf_length _ Huh) as Hulr.
  assert (R0 : read mem 0 1 = Some [version4_tc4 ih]) by apply read_version6. assert (R9 : read mem 6 1 = Some [next_header ih]) by (by apply read_next_header).
  assert (Rc := ipv6_check_eq ih rest Hih Hbr). fold mem in Rc.
  rewrite Hlm, (proj2 (Z.ltb_lt 0 _)) by lia. rewrite R0. cbn [mbind option_bind]. change (nthb [?x] 0) with x.
  rewrite Z.shiftr_div_pow2 by lia. change (2 ^ 4) with 16. rewrite Hv. cbn [Z.eqb Pos.eqb]. rewrite H6. cbn [negb].
  unfold sizeof_ipv6_header. rewrite (proj2 (Z.ltb_ge _ 40)) by lia. rewrite R9. cbn [mbind option_bind]. change (nthb [?x] 0) with x.
  rewrite Hnh. cbn [Z.eqb Pos.eqb negb IPV6_NEXT_UDP]. rewrite Rc. cbn [mbind option_bind].
  rewrite decide_True by (unfold ipv6_cond; lia).
  assert (Ru : udp_check mem 40 (ntoh16 (payload_length ih))
    = Some (if decide (udp_cond uh (ntoh16 (payload_length ih))) then Some (uh, 40 + 8, ntoh16 (udp_length uh) - 8) else None)).
  { apply udp_check_eq; [done|lia|rewrite !length_app; lia]. }
  rewrite Ru. cbn [mbind option_bind]. rewrite decide_True by (unfold udp_cond; lia).
  assert (Hrd : read mem (40 + 8) (ntoh16 (udp_length uh) - 8) = Some data).
  { unfold mem, rest. rewrite app_assoc. apply read_part; [rewrite !length_app; lia|lia]. }
  destruct (udp_ip6_checksum_ok uh mem _ _ _ (source_address6 ih) (destination_address6 ih) Huh Hbm Hrd ltac:(lia) Hsa Hda Hls Hld) as (c & -> & Hcc & _).
  cbn [mbind option_bind]. rewrite bool_decide_true; [|apply Hcc; split; [|done]; rewrite <- Hc; do 4 f_equal; lia]. cbn [negb].
  apply (finish_eq o mem _ _ _ (BAddr_InitIPv6 (destination_address6 ih) (dest_port uh))); [done|]. unfold is_dns_packet. cbn. by rewrite andb_false_r.
Qed.

Lemma process_datagram o mem l r data : datagram mem l r data -> enabled o l -> process_device_udp_packet o mem = Some (route o l r data).
Proof. intros Hd [Hon H6]. destruct Hd; [by eapply process_datagram4|apply process_datagram6; auto]. Qed.

(** A packet that is no such datagram is left to the stack. *)
Lemma process_other4 o h rest : ipv4_wf h -> bytes_ok rest -> udpgw_remote_server_addr o = true -> version4_ihl4 h / 16 = 4 ->
  process_device_udp_packet o (ipv4_bytes h ++ rest) = Some NotTaken \/ exists l r data, datagram (ipv4_bytes h ++ rest) l r data /\ enabled o l.
Proof.
  intros Hh Hrest Hon Hv. pose proof (length_ipv4 h Hh) as Hl. set (mem := ipv4_bytes h ++ rest).
  assert (Hlm : Z.of_nat (length mem) = 20 + Z.of_nat (length rest)) by (unfold mem; rewrite length_app, Hl; lia).
  assert (Hbm : bytes_ok mem) by (apply bytes_app; split; [apply Hh|done]).
  assert (R0 : read mem 0 1 = Some [version4_ihl4 h]) by apply read_version4. assert (R9 : read mem 9 1 = Some [protocol h]) by (by apply read_protocol).
  assert (Rc := ipv4_check_eq h rest Hh Hrest). fold mem in Rc.
  unfold process_device_udp_packet. rewrite Hon, Hlm, (proj2 (Z.ltb_lt 0 _)) by lia. cbn [negb]. rewrite R0. cbn [mbind option_bind]. change (nthb [?x] 0) with x.
  rewrite Z.shiftr_div_pow2 by lia. change (2 ^ 4) with 16. rewrite Hv. cbn [Z.eqb Pos.eqb]. unfold sizeof_ipv4_header. rewrite (proj2 (Z.ltb_ge _ 20)) by lia.
  rewrite R9. cbn [mbind option_bind]. change (nthb [?x] 0) with x. destruct (Z.eqb_spec (protocol h) IPV4_PROTOCOL_UDP) as [Hpr|]; cbn [negb]; [|by left].
  rewrite Rc. cbn [mbind option_bind]. destruct (decide (ipv4_cond h rest)) as [(_ & Hhl & Htl & Hsum & Hipf)|]; [|by left].
  assert (Hv8 : is_u8 (version4_ihl4 h)) by (destruct Hh as [Hb _]; by apply Forall_cons in Hb as [? _]). unfold is_u8 in Hv8. assert (Hv16 : 64 <= version4_ihl4 h < 80) by zdiv.
  set (hl := header_len h) in *. set (tl := ntoh16 (total_length h)) in *. assert (Hhl4 : hl = 4 * (version4_ihl4 h - 64)) by (unfold hl, header_len; zdiv).
  destruct (Z.ltb_spec (tl - hl) 8) as [Hsh|Hlg].
  { unfold udp_check, sizeof_udp_header. rewrite (proj2 (Z.ltb_lt _ _)) by lia. by left. }
  set (opts := take (Z.to_nat (hl - 20)) rest). set (ub := take 8 (drop (Z.to_nat (hl - 20)) rest)). set (rest2 := drop 8 (drop (Z.to_nat (hl - 20)) rest)).
  assert (Hrest2 : rest = opts ++ ub ++ rest2) by (unfold opts, ub, rest2; by rewrite !take_drop).
  assert (Hlo : Z.of_nat (length opts) = hl - 20) by (unfold opts; rewrite length_take; lia).
  assert (Hlu : length ub = 8%nat) by (unfold ub; rewrite length_take, length_drop; lia).
  clearbody opts ub rest2. subst rest. unfold bytes_ok in Hrest. rewrite !Forall_app in Hrest. destruct Hrest as (Hbo & Hbu & Hb2).
  rewrite !length_app, Hlu in *. destruct (udp_load_bytes ub Hlu Hbu) as [Hub Huh]. set (uh := udp_load ub) in *. clearbody uh. subst ub.
  assert (Hm2 : mem = (ipv4_bytes h ++ opts) ++ udp_bytes uh ++ rest2) by (unfold mem; by rewrite app_assoc).
  assert (Ru : udp_check mem hl (tl - hl) = Some (if decide (udp_cond uh (tl - hl)) then Some (uh, hl + 8, ntoh16 (udp_length uh) - 8) else None)).
  { rewrite Hm2. apply udp_check_eq; [done|rewrite length_app; lia|lia]. }
  rewrite Ru. cbn [mbind option_bind]. destruct (decide (udp_cond uh (tl - hl))) as [Hul|]; [|by left]. unfold udp_cond in Hul.
  set (dl := ntoh16 (udp_length uh) - 8) in *. pose proof (udp_wf_length _ Huh) as Hulr.
  set (data := take (Z.to_nat dl) rest2). set (s1 := take (Z.to_nat (tl - hl - 8 - dl)) (drop (Z.to_nat dl) rest2)). set (s2 := drop (Z.to_nat (tl - hl - 8 - dl)) (drop (Z.to_nat dl) rest2)).
  assert (Hr2 : rest2 = data ++ s1 ++ s2) by (unfold data, s1, s2; by rewrite !take_drop).
  assert (Hld : Z.of_nat (length data) = dl) by (unfold data; rewrite length_take; lia).
  assert (Hls : Z.of_nat (length s1) = tl - hl - 8 - dl) by (unfold s1; rewrite length_take, length_drop; lia).
  clearbody data s1 s2. subst rest2. destruct (ipv4_wf_addrs _ Hh) as [Hsa Hda]. pose proof Hh as (_ & _ & _ & _ & _ & Hlsa & Hlda).
  assert (Hrd : read mem (hl + 8) dl = Some data) by (rewrite Hm2, app_assoc; apply read_part; [rewrite !length_app|]; lia).
  destruct (udp_checksum_ok uh mem _ _ _ (source_address h) (destination_address h) Huh Hbm Hrd ltac:(lia) Hsa Hda Hlsa Hlda) as (c & -> & Hcc & _).
  cbn [mbind option_bind]. case_bool_decide as Hck; cbn [negb]; [|by left]. apply Hcc in Hck as [Hc Hf]. right. do 3 eexists. split.
  - unfold mem. apply (Datagram4 h opts uh data s1 s2 (version4_ihl4 h - 64 - 5)); try done; try lia; [by apply bytes_app| |by rewrite Hld].
    rewrite take_length_app in Hsum by lia. done.
  - split; [done|]. done.
Qed.

Lemma process_other6 o h rest : ipv6_wf h -> bytes_ok rest -> udpgw_remote_server_addr o = true -> version4_tc4 h / 16 = 6 ->
  process_device_udp_packet o (ipv6_bytes h ++ rest) = Some NotTaken \/ exists l r data, datagram (ipv6_bytes h ++ rest) l r data /\ enabled o l.
Proof.
  intros Hh Hrest Hon Hv. pose proof (length_ipv6 h Hh) as Hl. set (mem := ipv6_bytes h ++ rest).
  assert (Hlm : Z.of_nat (length mem) = 40 + Z.of_nat (length rest)) by (unfold mem; rewrite length_app, Hl; lia).
  assert (Hbm : bytes_ok mem) by (apply bytes_app; split; [apply Hh|done]).
  assert (R0 : read mem 0 1 = Some [version4_tc4 h]) by apply read_version6. assert (R9 : read mem 6 1 = Some [next_header h]) by (by apply read_next_header).
  assert (Rc := ipv6_check_eq h rest Hh Hrest). fold mem in Rc.
  unfold process_device_udp_packet. rewrite Hon, Hlm, (proj2 (Z.ltb_lt 0 _)) by lia. cbn [negb]. rewrite R0. cbn [mbind option_bind]. change (nthb [?x] 0) with x.
  rewrite Z.shiftr_div_pow2 by lia. change (2 ^ 4) with 16. rewrite Hv. cbn [Z.eqb Pos.eqb]. destruct (netif_ip6addr o) eqn:H6; cbn [negb]; [|by left].
  unfold sizeof_ipv6_header. rewrite (proj2 (Z.ltb_ge _ 40)) by lia.
  rewrite R9. cbn [mbind option_bind]. change (nthb [?x] 0) with x. destruct (Z.eqb_spec (next_header h) IPV6_NEXT_UDP) as [Hpr|]; cbn [negb]; [|by left].
  rewrite Rc. cbn [mbind option_bind]. destruct (decide (ipv6_cond h rest)) as [[_ Hpl]|]; [|by left].
  set (pl := ntoh16 (payload_length h)) in *. destruct (Z.ltb_spec pl 8) as [Hsh|Hlg].
  { unfold udp_check, sizeof_udp_header. rewrite (proj2 (Z.ltb_lt _ _)) by lia. by left. }
  set (ub := take 8 rest). set (rest2 := drop 8 rest). assert (Hrest2 : rest = ub ++ rest2) by (unfold ub, rest2; by rewrite take_drop).
  assert (Hlu : length ub = 8%nat) by (unfold ub; rewrite length_take; lia).
  clearbody ub rest2. subst rest. unfold bytes_ok in Hrest. rewrite !Forall_app in Hrest. destruct Hrest as (Hbu & Hb2).
  rewrite !length_app, Hlu in *. destruct (udp_load_bytes ub Hlu Hbu) as [Hub Huh]. set (uh := udp_load ub) in *. clearbody uh. subst ub.
  assert (Ru : udp_check mem 40 pl = Some (if decide (udp_cond uh pl) then Some (uh, 40 + 8, ntoh16 (udp_length uh) - 8) else None)).
  { apply udp_check_eq; [done|lia|lia]. }
  rewrite Ru. cbn [mbind option_bind]. destruct (decide (udp_cond uh pl)) as [Hul|]; [|by left]. unfold udp_cond in Hul.
  set (dl := ntoh16 (udp_length uh) - 8) in *. pose proof (udp_wf_length _ Huh) as Hulr.
  set (data := take (Z.to_nat dl) rest2). set (s1 := take (Z.to_nat (pl - 8 - dl)) (drop (Z.to_nat dl) rest2)). set (s2 := drop (Z.to_nat (pl - 8 - dl)) (drop (Z.to_nat dl) rest2)).
  assert (Hr2 : rest2 = data ++ s1 ++ s2) by (unfold data, s1, s2; by rewrite !take_drop).
  assert (Hld : Z.of_nat (length data) = dl) by (unfold data; rewrite length_take; lia).
  assert (Hls : Z.of_nat (length s1) = pl - 8 - dl) by (unfold s1; rewrite length_take, length_drop; lia).
  clearbody data s1 s2. subst rest2. destruct (ipv6_wf_addrs _ Hh) as [Hsa Hda]. pose proof Hh as (_ & _ & _ & Hlsa & Hlda).
  assert (Hrd : read mem (40 + 8) dl = Some data) by (unfold mem; rewrite app_assoc; apply read_part; [rewrite !length_app|]; lia).
  destruct (udp_ip6_checksum_ok uh mem _ _ _ (source_address6 h) (destination_address6 h) Huh Hbm Hrd ltac:(lia) Hsa Hda Hlsa Hlda) as (c & -> & Hcc & _).
  cbn [mbind option_bind]. case_bool_decide as Hck; cbn [negb]; [|by left]. apply Hcc in Hck as [Hc Hf]. right. do 3 eexists. split.
  - unfold mem. apply (Datagram6 h uh data s1 s2); try done; try lia. by rewrite Hld.
  - by split.
Qed.

(** Neither protocol, or too short. *)
Lemma process_short o mem : udpgw_remote_server_addr o = true ->
  (Z.shiftr (nthb mem 0) 4 = 4 -> Z.of_nat (length mem) < 20) ->
  (Z.shiftr (nthb mem 0) 4 = 6 -> netif_ip6addr o = false \/ Z.of_nat (length mem) < 40) ->
  process_device_udp_packet o mem = Some NotTaken.
Proof.
  intros Hon H4 H6. unfold process_device_udp_packet. rewrite Hon. cbn [negb]. destruct mem as [|b mem]; [done|].
  rewrite (proj2 (Z.ltb_lt 0 _)) by (cbn [length]; lia). assert (R0 : read (b :: mem) 0 1 = Some [b]) by (by apply (read_part [] [b])).
  rewrite R0. cbn [mbind option_bind]. change (nthb [b] 0) with (nthb (b :: mem) 0).
  destruct (Z.eqb_spec (Z.shiftr (nthb (b :: mem) 0) 4) 4) as [E|]; [unfold sizeof_ipv4_header; by rewrite (proj2 (Z.ltb_lt _ 20)) by (by apply H4)|].
  destruct (Z.eqb_spec (Z.shiftr (nthb (b :: mem) 0) 4) 6) as [E|]; [|done]. destruct (netif_ip6addr o); cbn [negb]; [|done].
  destruct (H6 E) as [?|?]; [done|]. unfold sizeof_ipv6_header. by rewrite (proj2 (Z.ltb_lt _ 40)) by done.
Qed.

Lemma process_cases o mem : bytes_ok mem ->
  process_device_udp_packet o mem = Some NotTaken \/ exists l r data, datagram mem l r data /\ enabled o l.
Proof.
  intros Hb. destruct (udpgw_remote_server_addr o) eqn:Hon; [|left; unfold process_device_udp_packet; by rewrite Hon].
  destruct (decide (Z.shiftr (nthb mem 0) 4 = 4 /\ 20 <= Z.of_nat (length mem))) as [[H4 Hl]|H4].
  { rewrite <- (take_drop 20 mem) in Hb, H4 |- *. apply bytes_app in Hb as [Hb1 Hb2].
    destruct (ipv4_load_bytes (take 20 mem) [] ltac:(rewrite length_take; lia) Hb1) as [E Hw]. rewrite app_nil_r in E, Hw.
    set (h := ipv4_load (take 20 mem)) in E, Hw. clearbody h. rewrite <- E in H4 |- *.
    rewrite Z.shiftr_div_pow2 in H4 by lia. by apply process_other4. }
  destruct (decide (Z.shiftr (nthb mem 0) 4 = 6 /\ 40 <= Z.of_nat (length mem))) as [[H6 Hl]|H6].
  { rewrite <- (take_drop 40 mem) in Hb, H6 |- *. apply bytes_app in Hb as [Hb1 Hb2].
    destruct (ipv6_load_bytes (take 40 mem) [] ltac:(rewrite length_take; lia) Hb1) as [E Hw]. rewrite app_nil_r in E, Hw.
    set (h := ipv6_load (take 40 mem)) in E, Hw. clearbody h. rewrite <- E in H6 |- *.
    rewrite Z.shiftr_div_pow2 in H6 by lia. by apply process_other6. }
  left. apply process_short; [done|lia|]. intros ?. right. lia.
Qed.

(** ** Theorems *)

(** C20. The datagrams that tun2socks takes out of the device: for every packet the parser
    ends without reading outside of it, and it submits (local, remote, data) to the UDP
    gateway exactly for the packets that are an IPv4 packet (with a valid header checksum,
    with or without options) or an IPv6 packet (if IPv6 is enabled) with a UDP datagram
    from local to remote with that data, whose checksum over the pseudo header is valid by
    RFC 768 and not all ones, that fits in the MTU and is not held back by the DNS-only
    option. *)
Theorem device_udp_accepts o mem : bytes_ok mem ->
  (exists v, process_device_udp_packet o mem = Some v)
  /\ forall l r dns data, process_device_udp_packet o mem = Some (Submitted l r dns data)
       <-> datagram mem l r data /\ enabled o l /\ (udpgw_dns_only o = true -> addr_port r = hton16 53)
           /\ Z.of_nat (length data) <= udp_mtu o /\ dns = is_dns_packet o r.
Proof.
  intros Hb. split.
  { destruct (process_cases o mem Hb) as [->|(l & r & data & Hd & He)]; [eauto|]. rewrite (process_datagram _ _ _ _ _ Hd He). eauto. }
  intros l r dns data. split.
  - destruct (process_cases o mem Hb) as [->|(l' & r' & data' & Hd & He)]; [done|]. rewrite (process_datagram _ _ _ _ _ Hd He). unfold route.
    case_test; [done|]. case_test; [done|]. intros [= <- <- <- <-]. split_and!; try done.
    intros Hdns. rewrite Hdns in *. cbn [andb] in *. bool_to_prop. by case_bool_decide.
  - intros (Hd & He & Hdns & Hl & ->). rewrite (process_datagram _ _ _ _ _ Hd He). unfold route. rewrite (proj2 (Z.ltb_ge _ _)) by done.
    destruct (udpgw_dns_only o); [|done]. by rewrite Hdns, bool_decide_true by done.
Qed.

(** ** Writing *)

Lemma write_ok mem p bs : 0 <= p -> p + Z.of_nat (length bs) <= Z.of_nat (length mem) -> write mem p bs = Some (splice (Z.to_nat p) bs mem).
Proof. intros H1 H2. unfold write. rewrite !(proj2 (Z.leb_le _ _)) by lia. done. Qed.

(** Writing right behind what was written. *)
Lemma write_behind a bs r p : p = Z.of_nat (length a) -> Z.of_nat (length bs) <= Z.of_nat (length r) -> write (a ++ r) p bs = Some ((a ++ bs) ++ drop (length bs) r).
Proof. intros -> H. rewrite write_ok by (rewrite ?length_app; lia). f_equal. rewrite splice_behind by lia. by rewrite app_assoc. Qed.

(** Three parts written to the buffer, and read back. *)
Lemma write_parts buf a b c : Z.of_nat (length a + length b + length c) <= Z.of_nat (length buf) ->
  (buf ← write buf 0 a; buf ← write buf (Z.of_nat (length a)) b; buf ← write buf (Z.of_nat (length a) + Z.of_nat (length b)) c;
   p ← read buf 0 (Z.of_nat (length a) + Z.of_nat (length b) + Z.of_nat (length c)); Some (buf, Some p))
  = Some ((a ++ b ++ c) ++ drop (length a + length b + length c) buf, Some (a ++ b ++ c)).
Proof.
  intros H. assert (W0 : write buf 0 a = Some (a ++ drop (length a) buf)) by (apply (write_behind [] a buf); [done|lia]).
  rewrite W0. cbn [mbind option_bind]. rewrite write_behind by (try done; rewrite length_drop; lia). cbn [mbind option_bind].
  rewrite write_behind by (rewrite ?length_app, ?length_drop; lia). cbn [mbind option_bind]. rewrite !drop_drop, <- !app_assoc.
  rewrite (app_assoc b), (app_assoc a). rewrite read_head by (rewrite !length_app; lia). cbn [mbind option_bind].
  rewrite <- !app_assoc. by replace (length a + (length b + length c))%nat with (length a + length b + length c)%nat by lia.
Qed.

(** What a datagram from the gateway is turned into. *)
Definition fits (o : Options) (local : BAddr) (data : list Z) : Prop :=
  if addr_type local =? BADDR_TYPE_IPV4 then Z.of_nat (length data) + 28 <= Z.min 65535 (BTap_GetMTU o)
  else netif_ip6addr o = true /\ Z.of_nat (length data) + 8 <= 65535 /\ Z.of_nat (length data) + 48 <= BTap_GetMTU o.

#[global] Instance fits_dec o local data : Decision (fits o local data).
Proof. unfold fits. destruct (_ =? _); apply _. Defined.

Lemma received4 o buf local remote data : addr_ok local -> addr_ok remote -> addr_type local = BADDR_TYPE_IPV4 -> addr_type remote = BADDR_TYPE_IPV4 ->
  bytes_ok data -> udpgw_remote_server_addr o = true -> Z.of_nat (length buf) = BTap_GetMTU o -> fits o local data ->
  exists buf' p, udpgw_client_handler_received o buf local remote data = Some (buf', Some p)
    /\ length buf' = length buf /\ Z.of_nat (length p) <= BTap_GetMTU o /\ datagram p remote local data.
Proof.
  intros Hlo Hre Hl4 Hr4 Hd Hon Hbuf Hfit. pose proof (addr_ok_len _ Hlo) as Hli4. pose proof (addr_ok_len _ Hre) as Hri4. rewrite Hl4 in Hli4. rewrite Hr4 in Hri4.
  cbn in Hli4, Hri4. destruct Hlo as (Hli & Hlp & Hlp2 & _), Hre as (Hri & Hrp & Hrp2 & _).
  unfold fits in Hfit. rewrite Hl4 in Hfit. cbn [Z.eqb BADDR_TYPE_IPV4 Pos.eqb] in Hfit.
  unfold udpgw_client_handler_received. rewrite Hon, Hl4, Hr4. cbn [Z.eqb BADDR_TYPE_IPV4 Pos.eqb andb orb assert mbind option_bind].
  unfold sizeof_ipv4_header, sizeof_udp_header. change (20 + 8) with 28. rewrite !(proj2 (Z.ltb_ge _ _)) by lia. cbn [orb].
  set (n := Z.of_nat (length data)). rewrite !u16_id by (unfold is_u16; lia).
  set (ih0 := mkIpv4 _ _ _ _ _ _ _ _ _ _). set (uh0 := mkUdp _ _ _ _).
  assert (Hih0 : ipv4_wf ih0).
  { unfold ipv4_wf, ih0, ipv4_bytes. cbn -[hton16 app]. split_and!; try done. unfold bytes_ok in *. rewrite !Forall_cons, !Forall_app, !Forall_cons, !Forall_app.
    pose proof hton16_ok. unfold bytes_ok in *. split_and!; try done; apply Forall_nil; done. }
  assert (Huh0 : udp_wf uh0).
  { unfold udp_wf, uh0, udp_bytes. cbn -[hton16]. split_and!; try done. pose proof hton16_ok. unfold bytes_ok in *. rewrite !Forall_app. split_and!; done. }
  destruct (ipv4_checksum_ok ih0 [] 0 0 [] Hih0) as (c & Ec & _ & Hcb & Hcl); [done|constructor|done|done|done|].
  change (set_ip_checksum (hton16 0) ih0) with ih0 in Ec. rewrite Ec. cbn [mbind option_bind]. set (ih := set_ip_checksum c ih0).
  assert (Hih : ipv4_wf ih) by (by apply ipv4_wf_set).
  destruct (ipv4_checksum_ok ih [] 0 0 [] Hih) as (c' & Ec' & Hcc & _); [done|constructor|done|done|done|].
  change (set_ip_checksum (hton16 0) ih) with ih0 in Ec'. rewrite Ec in Ec'. injection Ec' as <-. destruct (proj1 Hcc eq_refl) as [Hc1 Hc2].
  assert (Hrd : read data 0 n = Some data) by (rewrite <- (app_nil_r data) at 1; by apply read_head).
  destruct (udp_checksum_ok uh0 data 0 n data (source_address ih) (destination_address ih) Huh0 Hd Hrd ltac:(lia) Hri Hli Hri4 Hli4) as (e & Ee & _ & Heb & Hel).
  change (set_checksum [0; 0] uh0) with uh0 in Ee. rewrite Ee. cbn [mbind option_bind]. set (uh := set_checksum e uh0).
  assert (Huh : udp_wf uh) by (by apply udp_wf_set).
  destruct (udp_checksum_ok uh data 0 n data (source_address ih) (destination_address ih) Huh Hd Hrd ltac:(lia) Hri Hli Hri4 Hli4) as (e' & Ee' & Hee & _).
  change (set_checksum [0; 0] uh) with uh0 in Ee'. rewrite Ee in Ee'. injection Ee' as <-. destruct (proj1 Hee eq_refl) as [He1 He2].
  pose proof (write_parts buf (ipv4_bytes ih) (udp_bytes uh) data) as W. rewrite (length_ipv4 _ Hih), (length_udp _ Huh) in W.
  change (Z.of_nat 20) with 20 in W. change (Z.of_nat 8) with 8 in W. change (20 + 8) with 28 in W. fold n in W. rewrite W by lia.
  eexists _, _. split; [reflexivity|]. split; [rewrite !length_app, length_drop, (length_ipv4 _ Hih), (length_udp _ Huh); lia|].
  split; [rewrite !length_app, (length_ipv4 _ Hih), (length_udp _ Huh); lia|].
  pose proof (Datagram4 ih [] uh data [] [] 0 Hih Huh) as D. rewrite !app_nil_r in D. cbn [app] in D.
  destruct local as [lt lip lport], remote as [rt rip rport]. cbn in Hl4, Hr4. subst lt rt. apply D; try done.
  - unfold ih, ih0. cbn -[hton16 Z.add]. rewrite ntoh16_hton16 by (unfold is_u16; lia). fold n. lia.
  - unfold uh, uh0. cbn -[hton16 Z.add]. rewrite ntoh16_hton16 by (unfold is_u16; lia). done.
  - by rewrite app_nil_r in Hc1.
Qed.

Lemma received6 o buf local remote data : addr_ok local -> addr_ok remote -> addr_type local = BADDR_TYPE_IPV6 -> addr_type remote = BADDR_TYPE_IPV6 ->
  bytes_ok data -> udpgw_remote_server_addr o = true -> Z.of_nat (length buf) = BTap_GetMTU o -> fits o local data ->
  exists buf' p, udpgw_client_handler_received o buf local remote data = Some (buf', Some p)
    /\ length buf' = length buf /\ Z.of_nat (length p) <= BTap_GetMTU o /\ datagram p remote local data.
Proof.
  intros Hlo Hre Hl6 Hr6 Hd Hon Hbuf Hfit. pose proof (addr_ok_len _ Hlo) as Hli6. pose proof (addr_ok_len _ Hre) as Hri6. rewrite Hl6 in Hli6. rewrite Hr6 in Hri6.
  cbn in Hli6, Hri6. destruct Hlo as (Hli & Hlp & Hlp2 & _), Hre as (Hri & Hrp & Hrp2 & _).
  unfold fits in Hfit. rewrite Hl6 in Hfit. cbn [Z.eqb BADDR_TYPE_IPV4 BADDR_TYPE_IPV6 Pos.eqb] in Hfit. destruct Hfit as (H6 & Hf1 & Hf2).
  unfold udpgw_client_handler_received. rewrite Hon, Hl6, Hr6. cbn [Z.eqb BADDR_TYPE_IPV4 BADDR_TYPE_IPV6 Pos.eqb andb orb assert mbind option_bind].
  rewrite H6. cbn [negb]. unfold sizeof_ipv6_header, sizeof_udp_header. change (40 + 8) with 48. rewrite !(proj2 (Z.ltb_ge _ _)) by lia. cbn [orb].
  set (n := Z.of_nat (length data)). rewrite !u16_id by (unfold is_u16; lia).
  set (ih := mkIpv6 _ _ _ _ _ _ _ _). set (uh0 := mkUdp _ _ _ _).
  assert (Hih : ipv6_wf ih).
  { unfold ipv6_wf, ih, ipv6_bytes. cbn -[hton16 app]. split_and!; try done. unfold bytes_ok in *. rewrite !Forall_cons, !Forall_app, !Forall_cons, !Forall_app.
    pose proof hton16_ok. unfold bytes_ok in *. split_and!; done. }
  assert (Huh0 : udp_wf uh0).
  { unfold udp_wf, uh0, udp_bytes. cbn -[hton16]. split_and!; try done. pose proof hton16_ok. unfold bytes_ok in *. rewrite !Forall_app. split_and!; done. }
  assert (Hrd : read data 0 n = Some data) by (rewrite <- (app_nil_r data) at 1; by apply read_head).
  destruct (udp_ip6_checksum_ok uh0 data 0 n data (source_address6 ih) (destination_address6 ih) Huh0 Hd Hrd ltac:(lia) Hri Hli Hri6 Hli6) as (e & Ee & _ & Heb & Hel).
  change (set_checksum [0; 0] uh0) with uh0 in Ee. rewrite Ee. cbn [mbind option_bind]. set (uh := set_checksum e uh0).
  assert (Huh : udp_wf uh) by (by apply udp_wf_set).
  destruct (udp_ip6_checksum_ok uh data 0 n data (source_address6 ih) (destination_address6 ih) Huh Hd Hrd ltac:(lia) Hri Hli Hri6 Hli6) as (e' & Ee' & Hee & _).
  change (set_checksum [0; 0] uh) with uh0 in Ee'. rewrite Ee in Ee'. injection Ee' as <-. destruct (proj1 Hee eq_refl) as [He1 He2].
  pose proof (write_parts buf (ipv6_bytes ih) (udp_bytes uh) data) as W. rewrite (length_ipv6 _ Hih), (length_udp _ Huh) in W.
  change (Z.of_nat 40) with 40 in W. change (Z.of_nat 8) with 8 in W. change (40 + 8) with 48 in W. fold n in W. rewrite W by lia.
  eexists _, _. split; [reflexivity|]. split; [rewrite !length_app, length_drop, (length_ipv6 _ Hih), (length_udp _ Huh); lia|].
  split; [rewrite !length_app, (length_ipv6 _ Hih), (length_udp _ Huh); lia|].
  pose proof (Datagram6 ih uh data [] [] Hih Huh) as D. rewrite !app_nil_r in D.
  destruct local as [lt lip lport], remote as [rt rip rport]. cbn in Hl6, Hr6. subst lt rt. apply D; try done.
  - unfold ih. cbn -[hton16 Z.add]. rewrite ntoh16_hton16 by (unfold is_u16; lia). fold n. lia.
  - unfold uh, uh0. cbn -[hton16 Z.add]. rewrite ntoh16_hton16 by (unfold is_u16; lia). done.
Qed.

(** C21. The datagrams that tun2socks writes to the device: a datagram from the gateway is
    written as an IP packet from the remote to the local address that carries exactly its
    data, with checksum fields that complete their sums to all ones, within the MTU and the
    buffer, and parses back to the same addresses and data; nothing is sent if and only if it
    does not fit, or IPv6 is off.  The fields are never all ones: where the checksum computes
    to zero the UDP field is written as zero and not as the all ones of RFC 768
    ([device_udp_all_ones]); otherwise it is the checksum of the RFC. *)
Theorem device_udp_roundtrip o buf local remote data : addr_ok local -> addr_ok remote -> addr_type local = addr_type remote -> bytes_ok data ->
  udpgw_remote_server_addr o = true -> Z.of_nat (length buf) = BTap_GetMTU o ->
  exists buf' out, udpgw_client_handler_received o buf local remote data = Some (buf', out) /\ length buf' = length buf
    /\ match out with
       | Some p => fits o local data /\ Z.of_nat (length p) <= BTap_GetMTU o /\ datagram p remote local data
           /\ process_device_udp_packet o p = Some (route o remote local data)
       | None => ~ fits o local data
       end.
Proof.
  intros Hl Hr Ht Hd Hon Hbuf. pose proof Hl as (_ & _ & _ & [[Hl4 _]|[Hl6 _]]).
  - destruct (Z.ltb_spec (Z.min 65535 (BTap_GetMTU o)) (Z.of_nat (length data) + 28)) as [Hbig|Hfit].
    + exists buf, None. split; [|split; [done|unfold fits; rewrite Hl4; cbn; lia]].
      unfold udpgw_client_handler_received. rewrite Hon, <- Ht, Hl4. cbn [Z.eqb BADDR_TYPE_IPV4 Pos.eqb andb orb assert mbind option_bind].
      unfold sizeof_ipv4_header, sizeof_udp_header. change (20 + 8) with 28. case_test; [done|]. lia.
    + assert (Hf : fits o local data) by (unfold fits; rewrite Hl4; cbn; lia).
      destruct (received4 o buf local remote data) as (buf' & p & E & H1 & H2 & H3); try done; [congruence|].
      exists buf', (Some p). split_and!; try done. apply process_datagram; [done|]. split; [done|]. rewrite <- Ht, Hl4. done.
  - destruct (decide (fits o local data)) as [Hf|Hf].
    + destruct (received6 o buf local remote data) as (buf' & p & E & H1 & H2 & H3); try done; [congruence|].
      exists buf', (Some p). split_and!; try done. apply process_datagram; [done|]. split; [done|]. intros _. unfold fits in Hf. rewrite Hl6 in Hf. by destruct Hf.
    + exists buf, None. split; [|by split]. unfold fits in Hf. rewrite Hl6 in Hf. cbn -[Z.add] in Hf.
      unfold udpgw_client_handler_received. rewrite Hon, <- Ht, Hl6. cbn [Z.eqb BADDR_TYPE_IPV4 BADDR_TYPE_IPV6 Pos.eqb andb orb assert mbind option_bind].
      unfold sizeof_ipv6_header, sizeof_udp_header. destruct (netif_ip6addr o); [|done]. cbn [negb]. case_test; [done|]. exfalso. apply Hf. split; [done|]. lia.
Qed.

(** A packet of lwIP, in chunks, reaches the device whole, or not at all if it is larger than the MTU. *)
Lemma copy_chunks_ok o chunks : forall buf len pre post, buf = pre ++ post -> len = Z.of_nat (length pre) -> Z.of_nat (length buf) = BTap_GetMTU o ->
  exists buf' r, copy_chunks o chunks buf len = Some (buf', r) /\ length buf' = length buf
    /\ (if Z.of_nat (length (pre ++ concat chunks)) <=? BTap_GetMTU o
        then r = Some (Z.of_nat (length (pre ++ concat chunks))) /\ exists post', buf' = (pre ++ concat chunks) ++ post' else r = None).
Proof.
  induction chunks as [|c chunks IH]; intros buf len pre post -> -> Hmtu; cbn [copy_chunks concat].
  - do 2 eexists. split; [done|]. split; [done|]. rewrite app_nil_r. rewrite length_app in Hmtu. rewrite (proj2 (Z.leb_le _ _)) by lia. eauto.
  - case_test.
    + do 2 eexists. split; [done|]. split; [done|]. rewrite !length_app in *. by rewrite (proj2 (Z.leb_gt _ _)) by lia.
    + rewrite length_app in Hmtu. rewrite write_behind by (done || lia). cbn [mbind option_bind].
      destruct (IH ((pre ++ c) ++ drop (length c) post) (Z.of_nat (length pre) + Z.of_nat (length c)) (pre ++ c) (drop (length c) post)) as (buf' & r & E' & Hl & H);
        [done|rewrite length_app; lia|rewrite !length_app, length_drop; lia|].
      exists buf', r. split; [done|]. split; [rewrite Hl, !length_app, length_drop; lia|]. by rewrite <- app_assoc in H.
Qed.

Theorem netif_output_whole o chunks buf : chunks <> [] -> Z.of_nat (length buf) = BTap_GetMTU o ->
  exists buf', length buf' = length buf /\ common_netif_output o false chunks buf
    = Some (buf', if Z.of_nat (length (concat chunks)) <=? BTap_GetMTU o then Some (concat chunks) else None).
Proof.
  intros Hne Hmtu. unfold common_netif_output.
  destruct chunks as [|c [|c2 chunks]]; [done| |].
  - exists buf. split; [done|]. cbn [concat]. rewrite app_nil_r. destruct (Z.ltb_spec (BTap_GetMTU o) (Z.of_nat (length c))); [rewrite (proj2 (Z.leb_gt _ _)) by lia|rewrite (proj2 (Z.leb_le _ _)) by lia]; done.
  - destruct (copy_chunks_ok o (c :: c2 :: chunks) buf 0 [] buf) as (buf' & r & -> & Hl & H); [done|done|done|]. cbn [mbind option_bind].
    cbn [app] in H. exists buf'. split; [done|]. destruct (_ <=? _); [|by subst r]. destruct H as [-> [post ->]]. by rewrite read_head.
Qed.

(** ** Examples *)

Module DeviceExample.

Definition opts : Options := mkOptions true true false true [10; 0; 0; 1] 1472 1500.
Definition app : BAddr := mkBAddr 1 [10; 0; 0; 2] [4; 210].
Definition server : BAddr := mkBAddr 1 [8; 8; 4; 4] [0; 53].
Definition app6 : BAddr := mkBAddr 2 [253; 0; 0; 0; 0; 0; 0; 0; 0; 0; 0; 0; 0; 0; 0; 2] [4; 210].
Definition server6 : BAddr := mkBAddr 2 [32; 1; 0; 0; 0; 0; 0; 0; 0; 0; 0; 0; 0; 0; 0; 8] [0; 53].
Definition write_buf : list Z := replicate 1500 0.
Definition packet : list Z := default [] (match udpgw_client_handler_received opts write_buf app server [1; 2; 3] with Some (_, Some p) => Some p | _ => None end).

Lemma app_ok : addr_ok app.
Proof. repeat split; try (repeat constructor; done); by left. Qed.
Lemma server_ok : addr_ok server.
Proof. repeat split; try (repeat constructor; done); by left. Qed.

Lemma bytes_bool l : forallb (fun b => (0 <=? b) && (b <? 256)) l = true -> bytes_ok l.
Proof. induction l as [|b l IH]; cbn; [constructor|]. intros H. bool_to_prop. constructor; [unfold is_u8; lia|by apply IH]. Qed.

Lemma device_udp_accepts_witness : process_device_udp_packet opts packet = Some (Submitted server app false [1; 2; 3])
  /\ datagram packet server app [1; 2; 3].
Proof.
  assert (E : process_device_udp_packet opts packet = Some (Submitted server app false [1; 2; 3])) by (vm_compute; reflexivity).
  split; [exact E|]. assert (Hb : bytes_ok packet) by (apply bytes_bool; vm_compute; reflexivity).
  exact (proj1 (proj1 (proj2 (device_udp_accepts opts packet Hb) server app false [1; 2; 3]) E)).
Defined.

Lemma device_udp_roundtrip_witness : exists buf' out, udpgw_client_handler_received opts write_buf app server [1; 2; 3] = Some (buf', out) /\ length buf' = length write_buf
    /\ match out with
       | Some p => fits opts app [1; 2; 3] /\ Z.of_nat (length p) <= 1500 /\ datagram p server app [1; 2; 3]
           /\ process_device_udp_packet opts p = Some (route opts server app [1; 2; 3])
       | None => ~ fits opts app [1; 2; 3]
       end.
Proof.
  apply (device_udp_roundtrip opts write_buf app server [1; 2; 3]); [apply app_ok|apply server_ok|reflexivity|repeat constructor; done|reflexivity|reflexivity].
Defined.

End DeviceExample.

(** The checksum of all ones: RFC 768 transmits a computed checksum of zero as all
    ones, zero meaning that there is none.  [udp_checksum] replaces a zero sum instead of a
    zero result, so a datagram with this checksum is written with the field zero, and the
    datagram with the field that RFC 768 prescribes, whose sum is valid, is not accepted. *)
Theorem device_udp_all_ones : exists p q,
  udpgw_client_handler_received DeviceExample.opts DeviceExample.write_buf DeviceExample.app DeviceExample.server [228; 197] = Some (q, Some p)
  /\ slice 26 2 p = [0; 0]
  /\ oc_sum (pseudo4 (addr_ip DeviceExample.server) (addr_ip DeviceExample.app) 10 ++ drop 20 (splice 26 [255; 255] p)) = 65535
  /\ process_device_udp_packet DeviceExample.opts (splice 26 [255; 255] p) = Some NotTaken.
Proof. do 2 eexists. split; [vm_compute; reflexivity|]. repeat split; vm_compute; reflexivity. Qed.
