(* ===== verification/PacketProto.v ===== *)
(** * PacketProto: packets over a stream

    Models badvpn/flow/PacketProtoEncoder.c and badvpn/flow/PacketProtoDecoder.c with
    badvpn/protocol/packetproto.h: each packet is preceded by its length, a 16-bit
    little-endian integer.  The decoder receives the stream in chunks of any size into a
    buffer and hands out one packet at a time, in place.

    A function is [None] where the code would violate an assertion or the contract of an
    interface, or access memory outside of a buffer. *)

From S2P Require Import Prelude.

Definition PACKETPROTO_MAXPAYLOAD : Z := 65535.
Definition sizeof_packetproto_header : Z := 2.
Definition PACKETPROTO_ENCLEN (len : Z) : Z := sizeof_packetproto_header + len.

Definition htol16 (v : Z) : list Z := mem16 v.
Definition ltoh16 (l : list Z) : Z := load16 l 0.

(** ** The encoder *)

(** [output_packet]: the buffer of the packet that is being built. *)
Record PacketProtoEncoder := mkEncoder { output_packet : option (list Z) }.

Definition PacketProtoEncoder_Init (input_mtu : Z) : option PacketProtoEncoder :=
  if input_mtu <=? PACKETPROTO_MAXPAYLOAD then Some (mkEncoder None) else None.

(** The output asks for a packet in [data]; the input is asked for its payload, behind the
    header. *)
Definition output_handler_recv (enc : PacketProtoEncoder) (data : list Z) : option PacketProtoEncoder :=
  match output_packet enc with Some _ => None | None => Some (mkEncoder (Some data)) end.

(** The input has written the payload behind the header; the result is the packet that is
    handed out. *)
Definition encoder_input_handler_done (enc : PacketProtoEncoder) (payload : list Z) : option (PacketProtoEncoder * list Z) :=
  data ← output_packet enc;
  let in_len := Z.of_nat (length payload) in
  if PACKETPROTO_ENCLEN in_len <=? Z.of_nat (length data) then
    let data := splice 2 payload data in
    let data := splice 0 (htol16 (u16 in_len)) data in
    Some (mkEncoder None, take (Z.to_nat (PACKETPROTO_ENCLEN in_len)) data)
  else None.

(** ** The decoder *)

(** What the decoder waits for: bytes, at most so many, or its output to be done with the
    packet at an offset of the buffer. *)
Inductive pending := Receiving (avail : Z) | Sending (off len : Z).

Record PacketProtoDecoder := mkDecoder {
  output_mtu : Z; buf_size : Z; buf_start : Z; buf_used : Z; buf : list Z; waits : pending
}.

(** [StreamRecvInterface_Receiver_Recv]: at least one byte, inside the buffer. *)
Definition Receiver_Recv (mtu size start used : Z) (b : list Z) : option PacketProtoDecoder :=
  let avail := size - (start + used) in
  if (0 <? avail) && (0 <=? start + used) then Some (mkDecoder mtu size start used b (Receiving avail)) else None.

(** [process_data]; [true]: the error handler is called. *)
Definition process_data (enc : PacketProtoDecoder) : option (PacketProtoDecoder * bool) :=
  let wait_for_more :=
    if buf_start enc + buf_used enc =? buf_size enc then
      d ← Receiver_Recv (output_mtu enc) (buf_size enc) 0 (buf_used enc)
            (splice 0 (slice (Z.to_nat (buf_start enc)) (Z.to_nat (buf_used enc)) (buf enc)) (buf enc));
      Some (d, false)
    else
      d ← Receiver_Recv (output_mtu enc) (buf_size enc) (buf_start enc) (buf_used enc) (buf enc);
      Some (d, false) in
  let left := buf_used enc in
  if left <? sizeof_packetproto_header then wait_for_more else
  let data_len := ltoh16 (slice (Z.to_nat (buf_start enc)) 2 (buf enc)) in
  let data := buf_start enc + sizeof_packetproto_header in let left := left - sizeof_packetproto_header in
  if output_mtu enc <? data_len then
    d ← Receiver_Recv (output_mtu enc) (buf_size enc) 0 0 (buf enc); Some (d, true)
  else if left <? data_len then wait_for_more
  else
    Some (mkDecoder (output_mtu enc) (buf_size enc) (buf_start enc + (sizeof_packetproto_header + data_len))
            (buf_used enc - (sizeof_packetproto_header + data_len)) (buf enc) (Sending data data_len), false).

(** The input has written [data] behind the bytes in the buffer. *)
Definition input_handler_done (enc : PacketProtoDecoder) (data : list Z) : option (PacketProtoDecoder * bool) :=
  let data_len := Z.of_nat (length data) in
  if (0 <? data_len) && (data_len <=? buf_size enc - (buf_start enc + buf_used enc)) then
    process_data (mkDecoder (output_mtu enc) (buf_size enc) (buf_start enc) (buf_used enc + data_len)
      (splice (Z.to_nat (buf_start enc + buf_used enc)) data (buf enc)) (waits enc))
  else None.

Definition output_handler_done (enc : PacketProtoDecoder) : option (PacketProtoDecoder * bool) := process_data enc.

Definition PacketProtoDecoder_Init (mtu : Z) (malloc : Z -> option (list Z)) : option (option PacketProtoDecoder) :=
  let output_mtu := Z.min mtu PACKETPROTO_MAXPAYLOAD in
  let buf_size := PACKETPROTO_ENCLEN output_mtu in
  match malloc buf_size with
  | None => Some None
  | Some b => d ← Receiver_Recv output_mtu buf_size 0 0 b; Some (Some d)
  end.

Definition PacketProtoDecoder_Reset (enc : PacketProtoDecoder) : PacketProtoDecoder :=
  mkDecoder (output_mtu enc) (buf_size enc) (buf_start enc + buf_used enc) 0 (buf enc) (waits enc).

(** ** Runs *)

(** The decoder with what has passed: the bytes that were received and not discarded, the
    packets that the output has taken, and what was discarded with each error. *)
Record Stream := mkStream { dec : PacketProtoDecoder; rx : list Z; outs : list (list Z); errors : list (list Z) }.

Inductive event := EvInput (data : list Z) | EvOutputDone | EvReset.

Definition possible (ev : event) (s : Stream) : bool :=
  match ev, waits (dec s) with
  | EvInput data, Receiving avail => (0 <? Z.of_nat (length data)) && (Z.of_nat (length data) <=? avail)
  | EvOutputDone, Sending _ _ => true
  | EvReset, _ => true
  | _, _ => false
  end.

Definition buffered (d : PacketProtoDecoder) : list Z := slice (Z.to_nat (buf_start d)) (Z.to_nat (buf_used d)) (buf d).
(** The packet as the output finds it. *)
Definition sent (d : PacketProtoDecoder) : list (list Z) :=
  match waits d with Sending off len => [slice (Z.to_nat off) (Z.to_nat len) (buf d)] | Receiving _ => [] end.

Definition encode (p : list Z) : list Z := htol16 (Z.of_nat (length p)) ++ p.
Definition encode_all (ps : list (list Z)) : list Z := concat (map encode ps).

(** An error discards what is in the buffer, and the decoder starts anew. *)
Definition after (r : option (PacketProtoDecoder * bool)) (rx : list Z) (outs errors : list (list Z)) : option Stream :=
  '(d, err) ← r;
  Some (if err : bool then mkStream d [] [] (errors ++ [drop (length (encode_all outs)) rx]) else mkStream d rx outs errors).

Definition step (ev : event) (s : Stream) : option Stream :=
  match ev with
  | EvInput data => after (input_handler_done (dec s) data) (rx s ++ data) (outs s) (errors s)
  | EvOutputDone => after (output_handler_done (dec s)) (rx s) (outs s ++ sent (dec s)) (errors s)
  | EvReset => Some (mkStream (PacketProtoDecoder_Reset (dec s)) (encode_all (outs s ++ sent (dec s))) (outs s) (errors s))
  end.

Fixpoint run (evs : list event) (s : Stream) : option Stream :=
  match evs with [] => Some s | ev :: evs => s ← step ev s; run evs s end.

Fixpoint possible_run (evs : list event) (s : Stream) : bool :=
  match evs with
  | [] => true
  | ev :: evs => possible ev s && match step ev s with Some s => possible_run evs s | None => true end
  end.

(** ** The code of packets is a prefix code *)

Lemma mem16_load v : 0 <= v < 65536 -> load16 (mem16 v) 0 = v.
Proof. intros Hv. unfold load16, mem16, nthb. cbn [lookup list_lookup default id]. zdiv. Qed.

Lemma load16_mem l : length l = 2%nat -> bytes_ok l -> mem16 (load16 l 0) = l /\ 0 <= load16 l 0 < 65536.
Proof.
  intros Hl Hb. explode l. unfold bytes_ok in Hb. rewrite !Forall_cons in Hb. unfold is_u8 in Hb. unfold mem16, load16, nthb. cbn [lookup list_lookup default id].
  split; [|lia]. f_equal; [zdiv|]. f_equal. zdiv.
Qed.

Lemma encode_all_app ps qs : encode_all (ps ++ qs) = encode_all ps ++ encode_all qs.
Proof. unfold encode_all. by rewrite map_app, concat_app. Qed.

Lemma encode_all_one p : encode_all [p] = encode p.
Proof. unfold encode_all. cbn. by rewrite app_nil_r. Qed.

(** What the decoder can take: packets up to the limit. *)
Definition small (mtu : Z) (p : list Z) : Prop := Z.of_nat (length p) <= mtu.

Lemma encode_prefix q p b tl : small 65535 q -> small 65535 p -> encode q ++ b `prefix_of` encode p ++ tl -> q = p /\ b `prefix_of` tl.
Proof.
  unfold small, encode, htol16. intros Hq Hp [z Hz]. rewrite <- !app_assoc in Hz.
  assert (Hh : mem16 (Z.of_nat (length q)) = mem16 (Z.of_nat (length p))) by (unfold mem16; injection Hz as H1 H2 _; by rewrite H1, H2).
  assert (Hl : length q = length p) by (apply Nat2Z.inj; rewrite <- (mem16_load (Z.of_nat (length q))), Hh, mem16_load by lia; done).
  rewrite Hh in Hz. apply app_inv_head in Hz. apply app_inj_1 in Hz as [E1 E2]; [|done]. split; [done|]. rewrite E2. by eexists.
Qed.

Lemma prefix_decode qs : forall ps b, Forall (small 65535) qs -> Forall (small 65535) ps -> encode_all qs ++ b `prefix_of` encode_all ps ->
  exists rs, ps = qs ++ rs /\ b `prefix_of` encode_all rs.
Proof.
  induction qs as [|q qs IH]; intros ps b Hqs Hps Hpre; [by exists ps|]. destruct ps as [|p ps].
  { destruct Hpre as [z Hz]. by cbn in Hz. }
  apply Forall_cons in Hqs as [Hq Hqs], Hps as [Hp Hps]. unfold encode_all in Hpre. cbn [map concat] in Hpre. rewrite <- app_assoc in Hpre.
  apply encode_prefix in Hpre as [-> Hpre]; [|done|done]. destruct (IH ps b Hqs Hps Hpre) as (rs & -> & H). by exists rs.
Qed.

(** ** The invariant *)

(** The buffer of the decoder. *)
Definition buf_ok (mtu : Z) (d : PacketProtoDecoder) : Prop :=
  output_mtu d = mtu /\ buf_size d = 2 + mtu /\ Z.of_nat (length (buf d)) = 2 + mtu /\ bytes_ok (buf d)
  /\ 0 <= buf_start d /\ 0 <= buf_used d /\ buf_start d + buf_used d <= 2 + mtu.

(** Not a whole packet yet, and not one that is too large. *)
Definition incomplete (mtu : Z) (b : list Z) : Prop :=
  (length b < 2)%nat \/ (ltoh16 (take 2 b) <= mtu /\ Z.of_nat (length b) < 2 + ltoh16 (take 2 b)).
Definition too_large (mtu : Z) (b : list Z) : Prop := (2 <= length b)%nat /\ mtu < ltoh16 (take 2 b).

Definition waits_ok (mtu : Z) (d : PacketProtoDecoder) : Prop :=
  match waits d with
  | Receiving avail => avail = buf_size d - (buf_start d + buf_used d) /\ 0 < avail /\ incomplete mtu (buffered d)
  | Sending off len => 0 <= off /\ 0 <= len <= mtu /\ off + len <= buf_start d
  end.

Definition stream_ok (mtu : Z) (s : Stream) : Prop :=
  buf_ok mtu (dec s) /\ waits_ok mtu (dec s) /\ rx s = encode_all (outs s ++ sent (dec s)) ++ buffered (dec s)
  /\ Forall (small mtu) (outs s ++ sent (dec s)) /\ Forall (too_large mtu) (errors s).

Lemma length_buffered mtu d : buf_ok mtu d -> Z.of_nat (length (buffered d)) = buf_used d.
Proof. intros (_ & _ & H1 & _ & H2 & H3 & H4). unfold buffered. rewrite length_slice. lia. Qed.

Lemma buffered_bytes mtu d : buf_ok mtu d -> bytes_ok (buffered d).
Proof. intros (_ & _ & _ & H & _). unfold buffered, slice. by apply Forall_take, Forall_drop. Qed.

Lemma take_buffered mtu d n : buf_ok mtu d -> (n <= Z.to_nat (buf_used d))%nat -> slice (Z.to_nat (buf_start d)) n (buf d) = take n (buffered d).
Proof. intros _ Hn. unfold buffered, slice. rewrite take_take. by replace (n `min` Z.to_nat (buf_used d))%nat with n by lia. Qed.

(** Waiting for more bytes, if the packet in the buffer is incomplete. *)
Lemma wait_ok mtu d : 0 <= mtu -> buf_ok mtu d -> incomplete mtu (buffered d) ->
  exists d', (if buf_start d + buf_used d =? buf_size d then
      d ← Receiver_Recv (output_mtu d) (buf_size d) 0 (buf_used d) (splice 0 (slice (Z.to_nat (buf_start d)) (Z.to_nat (buf_used d)) (buf d)) (buf d)); Some (d, false)
    else d ← Receiver_Recv (output_mtu d) (buf_size d) (buf_start d) (buf_used d) (buf d); Some (d, false)) = Some (d', false)
    /\ buf_ok mtu d' /\ waits_ok mtu d' /\ sent d' = [] /\ buffered d' = buffered d.
Proof.
  intros Hm Hok Hinc. pose proof (length_buffered _ _ Hok) as Hlb. pose proof (buffered_bytes _ _ Hok) as Hbb. destruct Hok as (H1 & H2 & H3 & H4 & H5 & H6 & H7).
  assert (Hlt : buf_used d < 2 + mtu).
  { rewrite <- Hlb. destruct Hinc as [?|[? ?]]; lia. }
  destruct (Z.eqb_spec (buf_start d + buf_used d) (buf_size d)) as [E|E]; unfold Receiver_Recv.
  - fold (buffered d). rewrite (proj2 (Z.ltb_lt 0 _)), (proj2 (Z.leb_le 0 _)) by lia. cbn [andb mbind option_bind]. eexists. split; [done|].
    assert (Hbd : buffered (mkDecoder (output_mtu d) (buf_size d) 0 (buf_used d) (splice 0 (buffered d) (buf d)) (Receiving (buf_size d - (0 + buf_used d)))) = buffered d).
    { change (take (Z.to_nat (buf_used d)) (splice 0 (buffered d) (buf d)) = buffered d). rewrite splice_front. apply take_length_app. lia. }
    split; [|split; [unfold waits_ok; cbn [waits buf_size buf_start buf_used]; rewrite Hbd; split; [done|]; split; [lia|done]|by rewrite Hbd]].
    unfold buf_ok. cbn. rewrite length_splice by lia. split_and!; try done; try lia. rewrite splice_front. apply Forall_app. split; [done|by apply Forall_drop].
  - rewrite (proj2 (Z.ltb_lt 0 _)), (proj2 (Z.leb_le 0 _)) by lia. cbn [andb mbind option_bind]. eexists. split; [done|].
    split; [unfold buf_ok; cbn; split_and!; done|]. split; [|done]. unfold waits_ok. cbn [waits buf_size buf_start buf_used]. split; [done|]. split; [lia|done].
Qed.

(** [process_data] hands out the next packet, reports one that is too large, or waits. *)
Lemma process_ok mtu d : 0 <= mtu <= 65535 -> buf_ok mtu d ->
  exists d' err, process_data d = Some (d', err) /\ buf_ok mtu d' /\ waits_ok mtu d'
    /\ (if err then too_large mtu (buffered d) /\ buffered d' = [] /\ sent d' = []
        else Forall (small mtu) (sent d') /\ buffered d = encode_all (sent d') ++ buffered d').
Proof.
  intros Hm Hok. pose proof (length_buffered _ _ Hok) as Hlb. pose proof (buffered_bytes _ _ Hok) as Hbb.
  unfold process_data, sizeof_packetproto_header. pose proof (wait_ok mtu d (proj1 Hm) Hok) as Hwait.
  set (w := if _ =? _ then _ else _) in *.
  assert (Hw : incomplete mtu (buffered d) -> exists d' err, w = Some (d', err) /\ buf_ok mtu d' /\ waits_ok mtu d'
    /\ (if err : bool then too_large mtu (buffered d) /\ buffered d' = [] /\ sent d' = [] else Forall (small mtu) (sent d') /\ buffered d = encode_all (sent d') ++ buffered d')).
  { intros Hi. destruct (Hwait Hi) as (d' & E & H1 & H2 & H3 & H4). exists d', false. rewrite H3, H4. by split_and!. }
  clearbody w. clear Hwait. pose proof Hok as (H1 & H2 & H3 & H4 & H5 & H6 & H7).
  destruct (Z.ltb_spec (buf_used d) 2) as [Hs|Hl]; [apply Hw; left; lia|].
  rewrite (take_buffered mtu) by (done || lia). set (hdr := take 2 (buffered d)) in *.
  assert (Hhl : length hdr = 2%nat) by (unfold hdr; rewrite length_take; lia).
  destruct (load16_mem hdr Hhl ltac:(by apply Forall_take)) as [Hhdr Hlen]. change (load16 hdr 0) with (ltoh16 hdr) in *. set (n := ltoh16 hdr) in *.
  destruct (Z.ltb_spec (output_mtu d) n) as [Hbig|Hn].
  { unfold Receiver_Recv. rewrite H2, (proj2 (Z.ltb_lt 0 _)) by lia. cbn [Z.leb Z.add Z.compare andb mbind option_bind]. eexists _, true. split; [done|]. split; [unfold buf_ok; cbn; split_and!; done || lia|].
    split.
    { unfold waits_ok. cbn [waits buf_size buf_start buf_used]. split; [done|]. split; [lia|]. left. apply Nat.lt_0_2. }
    split; [|done]. split; [lia|]. fold hdr. fold n. lia. }
  destruct (Z.ltb_spec (buf_used d - 2) n) as [Hpart|Hfull]; [apply Hw; right; fold hdr n; lia|].
  eexists _, false. split; [done|]. split; [unfold buf_ok; cbn; split_and!; done || lia|]. split; [unfold waits_ok; cbn; split_and!; lia|].
  assert (Hp : slice (Z.to_nat (buf_start d + 2)) (Z.to_nat n) (buf d) = take (Z.to_nat n) (drop 2 (buffered d))).
  { unfold buffered, slice. rewrite skipn_firstn_comm, take_take, drop_drop. f_equal; [lia|]. f_equal. lia. }
  assert (Hb' : slice (Z.to_nat (buf_start d + (2 + n))) (Z.to_nat (buf_used d - (2 + n))) (buf d) = drop (Z.to_nat n) (drop 2 (buffered d))).
  { unfold buffered, slice. rewrite !skipn_firstn_comm, !drop_drop. f_equal; [lia|]. f_equal. lia. }
  unfold sent, buffered at 2. cbn [waits buf buf_start buf_used]. rewrite Hp, Hb'. split; [apply Forall_singleton; unfold small; rewrite length_take; lia|].
  rewrite encode_all_one. unfold encode. rewrite length_take, length_drop. replace (Z.of_nat _) with n by lia. unfold htol16. rewrite Hhdr.
  rewrite <- app_assoc, take_drop. unfold hdr. by rewrite take_drop.
Qed.

(** ** Runs *)

Definition inputs_ok (ev : event) : Prop := match ev with EvInput data => bytes_ok data | _ => True end.

(** The end of a handler. *)
Lemma after_ok mtu d rx0 outs0 errs : 0 <= mtu <= 65535 -> buf_ok mtu d -> rx0 = encode_all outs0 ++ buffered d -> Forall (small mtu) outs0 ->
  Forall (too_large mtu) errs ->
  exists s, after (process_data d) rx0 outs0 errs = Some s /\ stream_ok mtu s
    /\ ((errors s = errs /\ rx s = rx0 /\ outs s = outs0) \/ (too_large mtu (buffered d) /\ errors s = errs ++ [buffered d])).
Proof.
  intros Hm Hok Hrx Houts Herrs. destruct (process_ok mtu d Hm Hok) as (d' & err & E & H1 & H2 & H3). unfold after. rewrite E. cbn [mbind option_bind].
  destruct err.
  - destruct H3 as (Hbig & Hb' & Hs'). rewrite Hrx, drop_app_length. eexists. split; [done|]. split; [|by right].
    split; [done|]. split; [done|]. cbn [dec rx outs errors]. rewrite Hb', Hs'. split_and!; try done. apply Forall_app. split; [done|by apply Forall_singleton].
  - destruct H3 as [Hsm Hb]. eexists. split; [done|]. split; [|by left]. split; [done|]. split; [done|]. cbn [dec rx outs errors].
    split; [rewrite encode_all_app, <- app_assoc, <- Hb; done|]. split; [by apply Forall_app|done].
Qed.

Lemma step_ok mtu s ev : 0 <= mtu <= 65535 -> stream_ok mtu s -> inputs_ok ev -> possible ev s = true ->
  exists s', step ev s = Some s' /\ stream_ok mtu s'
    /\ match ev with
       | EvInput data => (errors s' = errors s /\ rx s' = rx s ++ data /\ outs s' = outs s) \/ exists b, too_large mtu b /\ encode_all (outs s) ++ b = rx s ++ data
       | EvOutputDone => (errors s' = errors s /\ rx s' = rx s /\ outs s' = outs s ++ sent (dec s)) \/ exists b, too_large mtu b /\ encode_all (outs s ++ sent (dec s)) ++ b = rx s
       | EvReset => True
       end.
Proof.
  intros Hm (Hok & Hw & Hrx & Hsm & Herr) Hin Hp. destruct s as [d rx0 outs0 errs]. cbn [dec rx outs errors] in *. destruct ev as [data| |]; cbn [step possible inputs_ok dec rx outs errors] in *.
  - destruct (waits d) as [avail|] eqn:Ew; [|done]. unfold waits_ok in Hw. rewrite Ew in Hw. destruct Hw as (-> & Hav & _). bool_to_prop.
    unfold input_handler_done. rewrite (proj2 (Z.ltb_lt _ _)), (proj2 (Z.leb_le _ _)) by lia. cbn [andb].
    set (d1 := mkDecoder _ _ _ _ _ _). pose proof (length_buffered _ _ Hok) as Hlb. pose proof Hok as (H1 & H2 & H3 & H4 & H5 & H6 & H7).
    assert (Hs0 : sent d = []) by (unfold sent; by rewrite Ew). rewrite Hs0, app_nil_r in *.
    assert (Hb1 : buffered d1 = buffered d ++ data).
    { unfold d1, buffered, slice, splice. cbn [buf_start buf_used buf]. rewrite drop_app_le by (rewrite length_take; lia).
      rewrite skipn_firstn_comm. replace (Z.to_nat (buf_start d + buf_used d) - Z.to_nat (buf_start d))%nat with (Z.to_nat (buf_used d)) by lia.
      rewrite app_assoc, take_app_le by (rewrite length_app, length_take, length_drop; lia).
      apply take_ge. rewrite length_app, length_take, length_drop. lia. }
    assert (Hok1 : buf_ok mtu d1).
    { unfold buf_ok, d1. cbn. rewrite length_splice by lia. split_and!; try done; try lia. unfold bytes_ok, splice. rewrite !Forall_app. split_and!; [by apply Forall_take|done|by apply Forall_drop]. }
    destruct (after_ok mtu d1 (rx0 ++ data) outs0 errs Hm Hok1) as (s' & E & Hs' & Hc); [by rewrite Hb1, Hrx, app_assoc|done|done|].
    exists s'. split; [done|]. split; [done|]. destruct Hc as [?|[Hbig _]]; [by left|right]. exists (buffered d1). split; [done|]. by rewrite Hb1, Hrx, app_assoc.
  - destruct (waits d) as [|off len] eqn:Ew; [done|]. unfold output_handler_done.
    destruct (after_ok mtu d rx0 (outs0 ++ sent d) errs Hm Hok Hrx Hsm Herr) as (s' & E & H & Hc). exists s'. split; [done|]. split; [done|].
    destruct Hc as [?|[Hbig _]]; [by left|right]. by exists (buffered d).
  - eexists. split; [done|]. split; [|done]. destruct Hok as (H1 & H2 & H3 & H4 & H5 & H6 & H7).
    assert (Hs : sent (PacketProtoDecoder_Reset d) = sent d) by done.
    assert (Hb : buffered (PacketProtoDecoder_Reset d) = []) by done.
    split; [unfold buf_ok; cbn; split_and!; done || lia|]. cbn [dec rx outs errors]. rewrite Hs, Hb, app_nil_r. split_and!; try done.
    unfold waits_ok in *. cbn [PacketProtoDecoder_Reset waits buf_size buf_start buf_used]. destruct (waits d) as [avail|off len].
    + destruct Hw as (-> & ? & _). split; [lia|]. split; [lia|]. rewrite Hb. left. apply Nat.lt_0_2.
    + lia.
Qed.

Lemma runs_ok mtu evs : 0 <= mtu <= 65535 -> forall s, stream_ok mtu s -> Forall inputs_ok evs -> possible_run evs s = true ->
  exists s', run evs s = Some s' /\ stream_ok mtu s'.
Proof.
  intros Hm. induction evs as [|ev evs IH]; intros s Hs Hin Hp; cbn in *; [eauto|]. apply Forall_cons in Hin as [Hi Hin].
  apply andb_true_iff in Hp as [Hp1 Hp2]. destruct (step_ok mtu s ev Hm Hs Hi Hp1) as (s' & E & Hs' & _). rewrite E in Hp2 |- *. by apply IH.
Qed.

Lemma init_ok mtu malloc d : 0 <= mtu -> (forall n b, malloc n = Some b -> Z.of_nat (length b) = n /\ bytes_ok b) ->
  PacketProtoDecoder_Init mtu malloc = Some (Some d) -> stream_ok (Z.min mtu 65535) (mkStream d [] [] []).
Proof.
  intros Hm Hmal. unfold PacketProtoDecoder_Init, PACKETPROTO_ENCLEN, sizeof_packetproto_header, PACKETPROTO_MAXPAYLOAD. set (m := Z.min mtu 65535).
  destruct (malloc (2 + m)) as [b|] eqn:Eb; [|done]. destruct (Hmal _ _ Eb) as [Hl Hb]. unfold Receiver_Recv.
  rewrite (proj2 (Z.ltb_lt 0 _)) by lia. cbn [Z.add Z.leb Z.compare andb mbind option_bind]. intros [= <-].
  split; [unfold buf_ok; cbn; split_and!; done || lia|]. split; [|by split_and!]. unfold waits_ok. cbn [dec waits buf_size buf_start buf_used]. split; [lia|]. split; [lia|]. left. apply Nat.lt_0_2.
Qed.

(** The decoder, for every way the stream is cut into chunks and every interleaving with
    the output: it never leaves its buffer, always asks for at least one byte when it waits,
    and what was received is exactly the code of the packets that were handed out, of the
    one that is being handed out (as the output finds it in the buffer), and of what is in
    the buffer, which is an incomplete packet when the decoder waits for more; an error is
    reported only for a packet that announces more than the output takes. *)
Theorem packet_proto_decodes mtu malloc d evs : 0 <= mtu -> (forall n b, malloc n = Some b -> Z.of_nat (length b) = n /\ bytes_ok b) ->
  PacketProtoDecoder_Init mtu malloc = Some (Some d) -> Forall inputs_ok evs -> possible_run evs (mkStream d [] [] []) = true ->
  exists s, run evs (mkStream d [] [] []) = Some s
    /\ rx s = encode_all (outs s ++ sent (dec s)) ++ buffered (dec s)
    /\ Forall (small (Z.min mtu 65535)) (outs s ++ sent (dec s)) /\ Forall (too_large (Z.min mtu 65535)) (errors s)
    /\ (forall avail, waits (dec s) = Receiving avail -> 0 < avail /\ incomplete (Z.min mtu 65535) (buffered (dec s))).
Proof.
  intros Hm Hmal Hi Hin Hp. destruct (runs_ok (Z.min mtu 65535) evs ltac:(lia) _ (init_ok mtu malloc d Hm Hmal Hi) Hin Hp) as (s & E & Hok & Hw & Hrx & Hsm & Herr).
  exists s. split_and!; try done. intros avail Ew. unfold waits_ok in Hw. rewrite Ew in Hw. by destruct Hw as (_ & ? & ?).
Qed.

(** ** The round trip *)

Lemma encoder_ok data p : (2 + length p <= length data)%nat -> small 65535 p ->
  encoder_input_handler_done (mkEncoder (Some data)) p = Some (mkEncoder None, encode p).
Proof.
  unfold small. intros Hl Hp. unfold encoder_input_handler_done, PACKETPROTO_ENCLEN, sizeof_packetproto_header. cbn [output_packet mbind option_bind].
  rewrite (proj2 (Z.leb_le _ _)) by lia. rewrite u16_id by (unfold is_u16; lia). do 2 f_equal. unfold encode, htol16.
  rewrite splice_front. change (length (mem16 _)) with 2%nat. unfold splice.
  rewrite (drop_app_le _ (p ++ _)) by (rewrite length_take; lia). rewrite (drop_ge (take 2 data)) by (rewrite length_take; lia). cbn [app].
  rewrite app_assoc. apply take_length_app. rewrite length_app. cbn [length mem16]. lia.
Qed.

(** What was fed to the decoder. *)
Definition fed (evs : list event) : list Z := concat (map (fun ev => match ev with EvInput data => data | _ => [] end) evs).

Lemma no_too_large mtu ps qs b : mtu <= 65535 -> Forall (small mtu) ps -> Forall (small 65535) qs -> encode_all qs ++ b `prefix_of` encode_all ps -> ~ too_large mtu b.
Proof.
  intros Hm Hps Hqs Hpre [Hl Hbig]. destruct (prefix_decode qs ps b) as (rs & -> & [z Hz]); [done|eapply Forall_impl; [exact Hps|]; unfold small; lia|done|].
  destruct rs as [|p rs]; [destruct b; [cbn in Hl; lia|done]|]. destruct b as [|b0 [|b1 b]]; cbn in Hl; try lia.
  unfold encode_all, encode, htol16, mem16 in Hz. cbn [map concat app] in Hz. injection Hz as H0 H1 _. apply Forall_app in Hps as [_ [Hp _]%Forall_cons]. unfold small in Hp.
  change (take 2 (b0 :: b1 :: b)) with [b0; b1] in Hbig. rewrite <- H0, <- H1 in Hbig. unfold ltoh16, load16, nthb in Hbig. cbn [lookup list_lookup default id] in Hbig. zdiv.
Qed.

Lemma run_feeds mtu ps evs : 0 <= mtu <= 65535 -> Forall (small mtu) ps -> forall s, stream_ok mtu s -> errors s = [] -> Forall inputs_ok evs ->
  Forall (fun ev => ev <> EvReset) evs -> possible_run evs s = true -> rx s ++ fed evs `prefix_of` encode_all ps ->
  exists s', run evs s = Some s' /\ stream_ok mtu s' /\ errors s' = [] /\ rx s' = rx s ++ fed evs.
Proof.
  intros Hm Hps. induction evs as [|ev evs IH]; intros s Hs He Hin Hnr Hp Hpre.
  { exists s. unfold fed. cbn. by rewrite app_nil_r. }
  cbn [possible_run run] in *. apply Forall_cons in Hin as [Hi Hin], Hnr as [Hr Hnr]. apply andb_true_iff in Hp as [Hp1 Hp2].
  destruct (step_ok mtu s ev Hm Hs Hi Hp1) as (s' & E & Hs' & Hc). rewrite E in Hp2 |- *. cbn [mbind option_bind].
  pose proof Hs as (_ & _ & _ & Hsm & _). assert (Hsm' : Forall (small 65535) (outs s ++ sent (dec s))) by (eapply Forall_impl; [exact Hsm|]; unfold small; lia).
  destruct ev as [data| |]; [| |done].
  - unfold fed in Hpre. cbn [map concat] in Hpre. fold (fed evs) in Hpre. rewrite app_assoc in Hpre. destruct Hc as [(H1 & H2 & _)|(b & Hbig & Hb)].
    + destruct (IH s') as (s2 & E2 & H3 & H4 & H5); try done; [congruence|by rewrite H2|]. exists s2. split_and!; try done.
      rewrite H5, H2. unfold fed. cbn [map concat]. by rewrite app_assoc.
    + exfalso. apply (no_too_large mtu ps (outs s) b); try done; [lia|by apply Forall_app in Hsm' as [? _]|]. rewrite Hb. etrans; [|exact Hpre]. by apply prefix_app_r.
  - destruct Hc as [(H1 & H2 & _)|(b & Hbig & Hb)].
    + destruct (IH s') as (s2 & E2 & H3 & H4 & H5); try done; [congruence|by rewrite H2|]. exists s2. split_and!; try done. by rewrite H5, H2.
    + exfalso. apply (no_too_large mtu ps (outs s ++ sent (dec s)) b); try done; [lia|]. rewrite Hb. etrans; [|exact Hpre]. by apply prefix_app_r.
Qed.

(** C30. Round trip of PacketProto: packets that the encoder has encoded, sent over a stream
    that is cut into chunks in any way, come out of the decoder unchanged and in order,
    without an error: at every moment the packets that were handed out are the first of
    those that were encoded, and all of them once the whole stream has been received and the
    decoder waits for more. *)
Theorem packet_proto_roundtrip mtu malloc d ps es evs : 0 <= mtu <= 65535 -> (forall n b, malloc n = Some b -> Z.of_nat (length b) = n /\ bytes_ok b) ->
  PacketProtoDecoder_Init mtu malloc = Some (Some d) -> Forall (small mtu) ps ->
  Forall2 (fun p e => exists enc data, (2 + length p <= length data)%nat /\ output_handler_recv (mkEncoder None) data = Some enc
             /\ encoder_input_handler_done enc p = Some (mkEncoder None, e)) ps es ->
  Forall inputs_ok evs -> Forall (fun ev => ev <> EvReset) evs -> possible_run evs (mkStream d [] [] []) = true ->
  fed evs `prefix_of` concat es ->
  exists s, run evs (mkStream d [] [] []) = Some s /\ errors s = [] /\ outs s ++ sent (dec s) `prefix_of` ps
    /\ (fed evs = concat es -> (exists avail, waits (dec s) = Receiving avail) -> outs s = ps).
Proof.
  intros Hm Hmal Hi Hps Hes Hin Hnr Hp Hfed.
  assert (Hall : concat es = encode_all ps).
  { unfold encode_all. clear - Hm Hps Hes. induction Hes as [|p e ps es (enc & data & Hl & E1 & E2) Hes IH]; [done|]. apply Forall_cons in Hps as [Hsm Hps]. cbn. rewrite IH by done. f_equal.
    injection E1 as <-. rewrite encoder_ok in E2 by (done || unfold small in *; lia). by injection E2 as <-. }
  rewrite Hall in *. pose proof (init_ok mtu malloc d ltac:(lia) Hmal Hi) as H0. rewrite Z.min_l in H0 by lia.
  destruct (run_feeds mtu ps evs Hm Hps _ H0 eq_refl Hin Hnr Hp Hfed) as (s & E & (Hok & Hw & Hrx & Hsm & _) & He & Hrx2). cbn [rx app] in Hrx2.
  assert (H65 : forall l, Forall (small mtu) l -> Forall (small 65535) l) by (intros l Hl; eapply Forall_impl; [exact Hl|]; unfold small; lia).
  exists s. split; [done|]. split; [done|]. rewrite <- Hrx2 in Hfed |- *. rewrite Hrx in Hfed.
  destruct (prefix_decode (outs s ++ sent (dec s)) ps (buffered (dec s))) as (rs & Hrs & Hb); [by apply H65|by apply H65|done|]. split; [by exists rs|].
  intros Heq [avail Ew]. unfold waits_ok in Hw. rewrite Ew in Hw. destruct Hw as (_ & _ & Hinc).
  assert (Hs0 : sent (dec s) = []) by (unfold sent; by rewrite Ew). rewrite Hs0, app_nil_r in *.
  destruct rs as [|p rs]; [by rewrite app_nil_r in Hrs|]. exfalso. rewrite Hrx, Hrs, encode_all_app in Heq. apply app_inv_head in Heq. rewrite Heq in Hinc.
  rewrite Hrs in Hps. apply Forall_app in Hps as [_ [Hp1 _]%Forall_cons]. unfold small in Hp1.
  unfold incomplete, encode_all, encode, htol16 in Hinc. cbn [map concat] in Hinc. rewrite <- app_assoc in Hinc.
  change (take 2 (mem16 ?x ++ _)) with (mem16 x) in Hinc. unfold ltoh16 in Hinc. rewrite mem16_load in Hinc by lia. rewrite !length_app in Hinc. change (length (mem16 _)) with 2%nat in Hinc. lia.
Qed.

(** Three packets, the second empty, in chunks that cut the headers. *)
Module ProtoExample.

Definition malloc (n : Z) : option (list Z) := Some (replicate (Z.to_nat n) 0).
Definition ps : list (list Z) := [[1; 2; 3]; []; [4]].
Definition es : list (list Z) := map encode ps.
Definition d0 : PacketProtoDecoder := mkDecoder 3 5 0 0 [0; 0; 0; 0; 0] (Receiving 5).
Definition evs : list event := [EvInput [3]; EvInput [0; 1; 2; 3]; EvOutputDone; EvInput [0; 0; 1]; EvOutputDone; EvInput [0]; EvInput [4]; EvOutputDone].

Lemma malloc_ok n b : malloc n = Some b -> 0 <= n -> Z.of_nat (length b) = n /\ bytes_ok b.
Proof. intros [= <-] Hn. rewrite length_replicate. split; [lia|]. by apply Forall_replicate. Qed.

(** [malloc] of a negative size fails. *)
Definition malloc0 (n : Z) : option (list Z) := if 0 <=? n then malloc n else None.

Lemma malloc0_ok n b : malloc0 n = Some b -> Z.of_nat (length b) = n /\ bytes_ok b.
Proof. unfold malloc0. destruct (Z.leb_spec 0 n); [|done]. intros H1. by apply (malloc_ok n). Qed.

Lemma inputs : Forall inputs_ok evs.
Proof. repeat constructor; done. Qed.

Lemma packet_proto_decodes_witness : exists s, run evs (mkStream d0 [] [] []) = Some s /\ rx s = encode_all (outs s ++ sent (dec s)) ++ buffered (dec s)
    /\ Forall (small 3) (outs s ++ sent (dec s)) /\ Forall (too_large 3) (errors s)
    /\ (forall avail, waits (dec s) = Receiving avail -> 0 < avail /\ incomplete 3 (buffered (dec s))).
Proof. apply (packet_proto_decodes 3 malloc0 d0 evs); [done|exact malloc0_ok|reflexivity|exact inputs|vm_compute; reflexivity]. Defined.

Lemma packet_proto_roundtrip_witness : exists s, run evs (mkStream d0 [] [] []) = Some s /\ errors s = [] /\ outs s ++ sent (dec s) `prefix_of` ps
    /\ (fed evs = concat es -> (exists avail, waits (dec s) = Receiving avail) -> outs s = ps).
Proof.
  apply (packet_proto_roundtrip 3 malloc0 d0 ps es evs).
  - lia.
  - exact malloc0_ok.
  - reflexivity.
  - unfold ps, small. rewrite !Forall_cons. cbn [length]. repeat split; try lia. constructor.
  - repeat constructor; exists (mkEncoder (Some (replicate 8 0))), (replicate 8 0); (split; [cbn; lia|]); by split.
  - exact inputs.
  - by repeat constructor.
  - vm_compute. reflexivity.
  - exists []. reflexivity.
Defined.

End ProtoExample.
