(* ===== verification/ChunkBuffer.v ===== *)
(** * Packet buffers

    Models badvpn/structure/ChunkBuffer2.h, a circular buffer of packets in blocks of one
    [int], and badvpn/flow/PacketBuffer.c, which receives packets into it and sends them
    from it, in place, both at once.

    Memory is the list of its bytes, a pointer into the buffer is an offset.  A function is
    [None] where the code would violate an assertion (those of the debug build included) or
    the contract of an interface, or access memory outside of the buffer. *)

From S2P Require Import Prelude.

(** [sizeof (struct ChunkBuffer2_block)] *)
Definition block : Z := 4.

(** misc/balign.h *)
Definition bdivide_up (a b : Z) : Z := let r := a mod b in if 0 <? r then a / b + 1 else a / b.

(** The [len] of a block. *)
Definition load_len (m : list Z) (i : Z) : Z :=
  let o := Z.to_nat (block * i) in
  s32 (nthb m o + 256 * nthb m (o + 1) + 2 ^ 16 * nthb m (o + 2) + 2 ^ 24 * nthb m (o + 3)).
Definition store_len (m : list Z) (i v : Z) : list Z := splice (Z.to_nat (block * i)) (mem32 (u32 v)) m.

(** ** ChunkBuffer2 *)

Record ChunkBuffer2 := mkCB {
  buffer : list Z; size : Z; wrap : Z; start : Z; used : Z; mtu : Z;
  input_dest : option Z; input_avail : Z; output_dest : option Z; output_avail : Z
}.

Definition ChunkBuffer2_end (b : ChunkBuffer2) : Z :=
  if wrap b - start b <=? used b then used b - (wrap b - start b) else start b + used b.

Definition assert_buffer (b : ChunkBuffer2) : bool :=
  (0 <? size b) && (0 <? wrap b) && (wrap b <=? size b) && (0 <=? start b) && (start b <? wrap b) && (0 <=? used b) && (used b <=? wrap b)
  && ((wrap b =? size b) || (wrap b - start b <=? used b)) && (0 <=? mtu b).

Definition opt_eqb (a b : option Z) : bool :=
  match a, b with Some x, Some y => x =? y | None, None => true | _, _ => false end.

(** The number of free blocks behind the data. *)
Definition free_blocks (b : ChunkBuffer2) : Z :=
  if wrap b - start b <=? used b then start b - ChunkBuffer2_end b else size b - ChunkBuffer2_end b.

Definition assert_io (b : ChunkBuffer2) : bool :=
  let e := ChunkBuffer2_end b in
  let inp :=
    if size b - e - 1 <? mtu b then opt_eqb (input_dest b) None && (input_avail b =? -1)
    else if 0 <? free_blocks b then opt_eqb (input_dest b) (Some (block * (e + 1))) && (input_avail b =? (free_blocks b - 1) * block)
    else opt_eqb (input_dest b) None && (input_avail b =? -1) in
  let out :=
    if 0 <? used b then
      let datalen := load_len (buffer b) (start b) in
      (0 <=? datalen) && (bdivide_up datalen block <=? used b - 1) && (bdivide_up datalen block <=? wrap b - start b - 1)
      && opt_eqb (output_dest b) (Some (block * (start b + 1))) && (output_avail b =? datalen)
    else opt_eqb (output_dest b) None && (output_avail b =? -1) in
  inp && out.

Definition update_input (b : ChunkBuffer2) : ChunkBuffer2 :=
  let e := ChunkBuffer2_end b in
  let set d a := mkCB (buffer b) (size b) (wrap b) (start b) (used b) (mtu b) d a (output_dest b) (output_avail b) in
  if size b - e - 1 <? mtu b then set None (-1)
  else if 0 <? free_blocks b then set (Some (block * (e + 1))) (s32 ((free_blocks b - 1) * block))
  else set None (-1).

Definition assert (c : bool) : option unit := if c then Some tt else None.

Definition update_output (b : ChunkBuffer2) : option ChunkBuffer2 :=
  let set d a := mkCB (buffer b) (size b) (wrap b) (start b) (used b) (mtu b) (input_dest b) (input_avail b) d a in
  if 0 <? used b then
    assert ((0 <=? start b) && (start b <? size b));;
    let datalen := load_len (buffer b) (start b) in
    assert ((0 <=? datalen) && (bdivide_up datalen block <=? used b - 1) && (bdivide_up datalen block <=? wrap b - start b - 1));;
    Some (set (Some (block * (start b + 1))) datalen)
  else Some (set None (-1)).

Definition ChunkBuffer2_calc_blocks (chunk_len num : Z) : Z :=
  let chunk_data_blocks := bdivide_up chunk_len block in
  if INT_MAX - 1 <? chunk_data_blocks then -1 else
  let chunk_blocks := 1 + chunk_data_blocks in
  if INT_MAX - 1 <? num then -1 else
  let num_chunks := num + 1 in
  if INT_MAX / num_chunks <? chunk_blocks then -1 else chunk_blocks * num_chunks.

Definition ChunkBuffer2_Init (mem : list Z) (blocks mtu : Z) : option ChunkBuffer2 :=
  assert ((0 <? blocks) && (0 <=? mtu));;
  let b := mkCB mem blocks blocks 0 0 (bdivide_up mtu block) None 0 None 0 in
  assert (assert_buffer b);;
  b ← update_output (update_input b);
  assert (assert_io b);; Some b.

Definition ChunkBuffer2_SubmitPacket (b : ChunkBuffer2) (len : Z) : option ChunkBuffer2 :=
  assert (negb (opt_eqb (input_dest b) None) && (0 <=? len) && (len <=? input_avail b));;
  assert (assert_buffer b && assert_io b);;
  let e := ChunkBuffer2_end b in
  let blocklen := bdivide_up len block in
  assert ((blocklen <=? size b - e - 1) && ((used b <? wrap b - start b) || (blocklen <=? start b - e - 1)));;
  assert ((0 <=? e) && (e <? size b));;
  let m := store_len (buffer b) e len in
  let u := used b + (1 + blocklen) in
  let w := if (u <=? wrap b - start b) && (size b - (e + 1 + blocklen) - 1 <? mtu b) then e + 1 + blocklen else wrap b in
  let b := mkCB m (size b) w (start b) u (mtu b) (input_dest b) (input_avail b) (output_dest b) (output_avail b) in
  assert (assert_buffer b);;
  let b := update_input b in
  b ← (if used b =? 1 + blocklen then update_output b else Some b);
  assert (assert_io b);; Some b.

Definition ChunkBuffer2_ConsumePacket (b : ChunkBuffer2) : option ChunkBuffer2 :=
  assert (negb (opt_eqb (output_dest b) None));;
  assert (assert_buffer b && assert_io b);;
  assert ((1 <=? wrap b - start b) && (1 <=? used b));;
  let blocklen := bdivide_up (load_len (buffer b) (start b)) block in
  assert ((blocklen <=? wrap b - start b - 1) && (blocklen <=? used b - 1));;
  let data_wrapped := wrap b - start b <=? used b in
  let s := start b + (1 + blocklen) in
  let u := used b - (1 + blocklen) in
  let b := mkCB (buffer b) (size b) (if s =? wrap b then size b else wrap b) (if s =? wrap b then 0 else s) u (mtu b)
             (input_dest b) (input_avail b) (output_dest b) (output_avail b) in
  assert (assert_buffer b);;
  let b := if data_wrapped then update_input b else b in
  b ← update_output b;
  assert (assert_io b);; Some b.

(** ** PacketBuffer *)

(** [receiving]: where the input was asked to write; [sending]: what the output was given. *)
Record PacketBuffer := mkPB {
  cb : ChunkBuffer2; input_mtu : Z; receiving : option Z; sending : option (Z * Z)
}.

(** [PacketRecvInterface_Receiver_Recv] and [PacketPassInterface_Sender_Send]: only when
    nothing is pending. *)
Definition Receiver_Recv (p : PacketBuffer) : option PacketBuffer :=
  match receiving p, input_dest (cb p) with None, Some d => Some (mkPB (cb p) (input_mtu p) (Some d) (sending p)) | _, _ => None end.
Definition Sender_Send (p : PacketBuffer) : option PacketBuffer :=
  match sending p, output_dest (cb p) with
  | None, Some d => Some (mkPB (cb p) (input_mtu p) (receiving p) (Some (d, output_avail (cb p))))
  | _, _ => None
  end.

Definition input_handler_done (p : PacketBuffer) (in_len : Z) : option PacketBuffer :=
  assert ((0 <=? in_len) && (in_len <=? input_mtu p));;
  let was_empty := output_avail (cb p) <? 0 in
  b ← ChunkBuffer2_SubmitPacket (cb p) in_len;
  let p := mkPB b (input_mtu p) (receiving p) (sending p) in
  p ← (if input_mtu p <=? input_avail b then Receiver_Recv p else Some p);
  if was_empty then Sender_Send p else Some p.

Definition output_handler_done (p : PacketBuffer) : option PacketBuffer :=
  let was_full := input_avail (cb p) <? input_mtu p in
  b ← ChunkBuffer2_ConsumePacket (cb p);
  let p := mkPB b (input_mtu p) (receiving p) (sending p) in
  p ← (if was_full && (input_mtu p <=? input_avail b) then Receiver_Recv p else Some p);
  if 0 <=? output_avail b then Sender_Send p else Some p.

(** [Some None]: no memory. *)
Definition PacketBuffer_Init (in_mtu num_packets : Z) (malloc : Z -> option (list Z)) : option (option PacketBuffer) :=
  assert (0 <? num_packets);;
  let num_blocks := ChunkBuffer2_calc_blocks in_mtu num_packets in
  if num_blocks <? 0 then Some None else
  match malloc (block * num_blocks) with
  | None => Some None
  | Some m =>
      b ← ChunkBuffer2_Init m num_blocks in_mtu;
      p ← Receiver_Recv (mkPB b in_mtu None None);
      Some (Some p)
  end.

(** ** Runs *)

(** The input writes at the place it was given, before ([EvTouch]) and when ([EvInput]) it is
    done; the output reads the packet when it is done. *)
Inductive event := EvTouch (bs : list Z) | EvInput (packet : list Z) | EvOutputDone.

Definition possible (ev : event) (p : PacketBuffer) : bool :=
  match ev with
  | EvTouch bs | EvInput bs => match receiving p with Some _ => Z.of_nat (length bs) <=? input_mtu p | None => false end
  | EvOutputDone => match sending p with Some _ => true | None => false end
  end.

Definition write_at (bs : list Z) (p : PacketBuffer) : option PacketBuffer :=
  d ← receiving p;
  let b := cb p in
  assert ((0 <=? d) && (d + Z.of_nat (length bs) <=? block * size b));;
  Some (mkPB (mkCB (splice (Z.to_nat d) bs (buffer b)) (size b) (wrap b) (start b) (used b) (mtu b)
          (input_dest b) (input_avail b) (output_dest b) (output_avail b)) (input_mtu p) (receiving p) (sending p)).

(** The result: the state, and the packet that the output has sent. *)
Definition step (ev : event) (p : PacketBuffer) : option (PacketBuffer * list (list Z)) :=
  match ev with
  | EvTouch bs => p ← write_at bs p; Some (p, [])
  | EvInput bs =>
      p ← write_at bs p;
      p ← input_handler_done (mkPB (cb p) (input_mtu p) None (sending p)) (Z.of_nat (length bs));
      Some (p, [])
  | EvOutputDone =>
      '(d, n) ← sending p;
      let out := slice (Z.to_nat d) (Z.to_nat n) (buffer (cb p)) in
      p ← output_handler_done (mkPB (cb p) (input_mtu p) (receiving p) None);
      Some (p, [out])
  end.

Fixpoint run (evs : list event) (p : PacketBuffer) : option (PacketBuffer * list (list Z)) :=
  match evs with
  | [] => Some (p, [])
  | ev :: evs => '(p, o1) ← step ev p; '(p, o2) ← run evs p; Some (p, o1 ++ o2)
  end.

Fixpoint possible_run (evs : list event) (p : PacketBuffer) : bool :=
  match evs with
  | [] => true
  | ev :: evs => possible ev p && match step ev p with Some (p, _) => possible_run evs p | None => true end
  end.
