(* ===== verification/ChunkBufferSpec.v ===== *)
(** * Packet buffers: theorems

    The circular buffer holds a queue of packets, in one piece or wrapped around the end. *)

From S2P Require Import Prelude ChunkBuffer.

(** ** Memory *)

Lemma slice_splice_disjoint a n o bs (m : list Z) : (o + length bs <= length m)%nat -> (a + n <= o)%nat \/ (o + length bs <= a)%nat ->
  slice a n (splice o bs m) = slice a n m.
Proof.
  intros Hl Hd. unfold slice. apply list_eq. intros i. destruct (decide (i < n)%nat); [|by rewrite !lookup_take_ge by lia].
  rewrite !lookup_take_lt, !lookup_drop by lia. unfold splice. destruct Hd.
  - rewrite lookup_app_l by (rewrite length_take; lia). by rewrite lookup_take_lt by lia.
  - rewrite lookup_app_r by (rewrite length_take; lia). rewrite lookup_app_r by (rewrite length_take; lia). rewrite length_take, lookup_drop. f_equal. lia.
Qed.

Lemma slice_splice_in k n o bs (m : list Z) : (o + length bs <= length m)%nat -> (k + n <= length bs)%nat ->
  slice (o + k) n (splice o bs m) = slice k n bs.
Proof.
  intros Hl Hk. unfold slice, splice. rewrite drop_app_ge by (rewrite length_take; lia). rewrite length_take. replace (o + k - _)%nat with k by lia.
  rewrite drop_app_le by lia. apply take_app_le. rewrite length_drop. lia.
Qed.

Lemma slice_splice_same o bs (m : list Z) : (o + length bs <= length m)%nat -> slice o (length bs) (splice o bs m) = bs.
Proof.
  intros Hl. pose proof (slice_splice_in 0 (length bs) o bs m Hl ltac:(lia)) as H. rewrite Nat.add_0_r in H. rewrite H. unfold slice. cbn. by rewrite take_ge.
Qed.

Definition len_of (l : list Z) : Z := s32 (nthb l 0 + 256 * nthb l 1 + 2 ^ 16 * nthb l 2 + 2 ^ 24 * nthb l 3).

Lemma load_len_slice m i : load_len m i = len_of (slice (Z.to_nat (block * i)) 4 m).
Proof.
  unfold load_len, len_of. set (o := Z.to_nat (block * i)).
  assert (H : forall k, (k < 4)%nat -> nthb (slice o 4 m) k = nthb m (o + k)).
  { intros k Hk. unfold nthb, slice. by rewrite lookup_take_lt, lookup_drop by done. }
  rewrite !H by lia. by rewrite Nat.add_0_r.
Qed.

Lemma load_store m i v : 0 <= i -> block * (i + 1) <= Z.of_nat (length m) -> 0 <= v < 2 ^ 31 -> load_len (store_len m i v) i = v.
Proof.
  intros Hi Hl Hv. rewrite load_len_slice. unfold store_len. change 4%nat with (length (mem32 (u32 v))).
  rewrite slice_splice_same by (unfold block in *; cbn [length mem32]; lia). unfold len_of, mem32, nthb, u32, s32. cbn [lookup list_lookup default id]. zdiv.
Qed.

(** The blocks of [n] bytes. *)
Definition blk (n : Z) : Z := bdivide_up n block.

Lemma blk_spec n : 0 <= n -> 0 <= blk n /\ 4 * (blk n - 1) < n <= 4 * blk n.
Proof. intros Hn. unfold blk, bdivide_up, block. case_test; zdiv. Qed.

Lemma blk_le n k : 0 <= n -> n <= 4 * k -> blk n <= k.
Proof. intros Hn Hk. pose proof (blk_spec n Hn). lia. Qed.

(** ** Packets in a row *)

Definition plen (p : list Z) : Z := Z.of_nat (length p).

(** From block [i] to block [j]; every packet starts at or before [lim], so that one of the
    full size would have fit. *)
Fixpoint laid (m : list Z) (lim i : Z) (ps : list (list Z)) (j : Z) : Prop :=
  match ps with
  | [] => i = j
  | p :: ps => 0 <= i <= lim /\ load_len m i = plen p /\ slice (Z.to_nat (4 * (i + 1))) (length p) m = p /\ laid m lim (i + (1 + blk (plen p))) ps j
  end.

Lemma plen_blk p : 0 <= blk (plen p) /\ plen p <= 4 * blk (plen p).
Proof. unfold plen. pose proof (blk_spec (Z.of_nat (length p))). lia. Qed.

Lemma laid_le m lim i ps j : laid m lim i ps j -> i <= j.
Proof. revert i. induction ps as [|p ps IH]; cbn; intros i; [lia|]. intros (_ & _ & _ & H). apply IH in H. pose proof (plen_blk p). lia. Qed.

Lemma laid_length m lim i ps j mt : Forall (fun p => plen p <= 4 * mt) ps -> laid m lim i ps j -> j - i <= (1 + mt) * Z.of_nat (length ps).
Proof.
  revert i. induction ps as [|p ps IH]; cbn [laid length]; intros i Hps; [lia|]. apply Forall_cons in Hps as [Hp Hps]. intros (_ & _ & _ & H). apply IH in H; [|done].
  pose proof (blk_le (plen p) mt ltac:(unfold plen; lia) Hp). lia.
Qed.

Lemma laid_app m lim i ps k qs j : laid m lim i ps k -> laid m lim k qs j -> laid m lim i (ps ++ qs) j.
Proof. revert i. induction ps as [|p ps IH]; cbn; intros i; [by intros ->|]. intros (? & ? & ? & H) Hq. do 3 (split; [done|]). by apply IH. Qed.

(** Only the bytes from [i] to [j] matter. *)
Lemma laid_ext m m' lim i ps j : 0 <= i -> laid m lim i ps j ->
  (forall a n, 4 * i <= Z.of_nat a -> Z.of_nat (a + n) <= 4 * j -> slice a n m' = slice a n m) -> laid m' lim i ps j.
Proof.
  revert i. induction ps as [|p ps IH]; cbn [laid]; intros i Hi; [done|]. intros (H1 & H2 & H3 & H4) Hext. pose proof (laid_le _ _ _ _ _ H4) as Hle. pose proof (plen_blk p) as Hb. unfold plen in *.
  split; [done|]. split; [|split].
  - rewrite load_len_slice in H2 |- *. rewrite Hext; [done| |]; unfold block; lia.
  - rewrite Hext; [done| |]; lia.
  - apply IH; [lia|done|]. intros a n Ha Hn. apply Hext; lia.
Qed.

(** ** The shape of the buffer *)

(** In one piece, or wrapped around; with the block behind the data and the number of free
    blocks there. *)
Inductive shape (m : list Z) (sz mt : Z) : Z -> Z -> Z -> list (list Z) -> Z -> Z -> Prop :=
  | Linear s u ps : 0 <= s -> s + u <= sz - 1 - mt -> laid m (sz - 1 - mt) s ps (s + u) -> shape m sz mt sz s u ps (s + u) (sz - (s + u))
  | Wrapped w s e p ps1 ps2 : sz - mt <= w <= sz -> laid m (sz - 1 - mt) s (p :: ps1) w -> laid m (sz - 1 - mt) 0 ps2 e -> 0 <= e <= s ->
      shape m sz mt w s (w - s + e) ((p :: ps1) ++ ps2) e (s - e).

Definition base (b : ChunkBuffer2) : Prop :=
  0 <= mtu b /\ mtu b + 1 <= size b /\ Z.of_nat (length (buffer b)) = 4 * size b /\ 4 * size b <= 2 ^ 31.

Definition in_dest (e f : Z) : option Z := if 0 <? f then Some (block * (e + 1)) else None.
Definition in_avail (f : Z) : Z := if 0 <? f then (f - 1) * block else -1.
Definition out_dest (s : Z) (ps : list (list Z)) : option Z := match ps with [] => None | _ => Some (block * (s + 1)) end.
Definition out_avail (ps : list (list Z)) : Z := match ps with [] => -1 | p :: _ => plen p end.

(** The buffer holds the queue [ps]. *)
Definition holds (b : ChunkBuffer2) (ps : list (list Z)) (e f : Z) : Prop :=
  base b /\ shape (buffer b) (size b) (mtu b) (wrap b) (start b) (used b) ps e f /\ Forall (fun p => plen p <= 4 * mtu b) ps
  /\ input_dest b = in_dest e f /\ input_avail b = in_avail f /\ output_dest b = out_dest (start b) ps /\ output_avail b = out_avail ps.

Section Facts.
Context (b : ChunkBuffer2) (ps : list (list Z)) (e f : Z).
Hypothesis Hbase : base b.
Hypothesis Hshape : shape (buffer b) (size b) (mtu b) (wrap b) (start b) (used b) ps e f.

Lemma shape_end : ChunkBuffer2_end b = e /\ free_blocks b = f.
Proof.
  destruct Hbase as (H1 & H2 & _). unfold free_blocks, ChunkBuffer2_end. destruct Hshape as [s u ps' Hs Hu Hl|w s e' p ps1 ps2 Hw Hl1 Hl2 He].
  - rewrite (proj2 (Z.leb_gt _ _)) by lia. done.
  - rewrite (proj2 (Z.leb_le _ _)) by lia. lia.
Qed.

Lemma shape_lim : 0 <= e <= size b - 1 - mtu b /\ 0 <= f /\ e + f <= size b.
Proof.
  destruct Hbase as (H1 & H2 & _). destruct Hshape as [s u ps' Hs Hu Hl|w s e' p ps1 ps2 Hw Hl1 Hl2 He]; [apply laid_le in Hl; lia|].
  destruct Hl1 as (? & _). lia.
Qed.

Lemma shape_assert : assert_buffer b = true.
Proof.
  destruct Hbase as (H1 & H2 & _). unfold assert_buffer. destruct Hshape as [s u ps' Hs Hu Hl|w s e' p ps1 ps2 Hw Hl1 Hl2 He].
  - apply laid_le in Hl. rewrite !andb_true_iff, orb_true_iff, !Z.ltb_lt, !Z.leb_le, Z.eqb_eq. lia.
  - destruct Hl1 as (? & _). rewrite !andb_true_iff, orb_true_iff, !Z.ltb_lt, !Z.leb_le, Z.eqb_eq. lia.
Qed.

(** The first packet. *)
Lemma shape_head : match ps with
  | [] => used b = 0
  | p :: _ => 0 <= start b <= size b - 1 - mtu b /\ load_len (buffer b) (start b) = plen p /\ slice (Z.to_nat (4 * (start b + 1))) (length p) (buffer b) = p
      /\ 1 + blk (plen p) <= used b /\ 1 + blk (plen p) <= wrap b - start b
  end.
Proof.
  destruct Hbase as (H1 & H2 & _). destruct Hshape as [s u ps' Hs Hu Hl|w s e' p ps1 ps2 Hw Hl1 Hl2 He].
  - destruct ps' as [|p ps']; cbn [laid] in Hl; [lia|]. destruct Hl as (H3 & H4 & H5 & H6%laid_le). split_and!; try done; lia.
  - cbn [app laid] in *. destruct Hl1 as (H3 & H4 & H5 & H6%laid_le). split_and!; try done; lia.
Qed.

Lemma shape_input : update_input b = mkCB (buffer b) (size b) (wrap b) (start b) (used b) (mtu b) (in_dest e f) (in_avail f) (output_dest b) (output_avail b).
Proof.
  destruct Hbase as (H1 & H2 & H3 & H4). pose proof shape_end as [He Hf]. pose proof shape_lim. unfold update_input. rewrite He, Hf, (proj2 (Z.ltb_ge _ _)) by lia.
  unfold in_dest, in_avail. case_test; [|done]. f_equal. apply s32_id. unfold is_s32, block. lia.
Qed.

Lemma shape_output : update_output b = Some (mkCB (buffer b) (size b) (wrap b) (start b) (used b) (mtu b) (input_dest b) (input_avail b) (out_dest (start b) ps) (out_avail ps)).
Proof.
  destruct Hbase as (H1 & H2 & _). pose proof shape_head as Hh. unfold update_output. destruct ps as [|p ps'].
  - rewrite Hh. done.
  - destruct Hh as (H3 & H4 & H5 & H6 & H7). pose proof (plen_blk p). rewrite (proj2 (Z.ltb_lt 0 (used b))) by lia. rewrite H4. fold (blk (plen p)).
    rewrite !(proj2 (Z.ltb_lt _ _)), !(proj2 (Z.leb_le _ _)) by (unfold plen in *; lia). done.
Qed.

Lemma shape_assert_io : input_dest b = in_dest e f -> input_avail b = in_avail f -> output_dest b = out_dest (start b) ps -> output_avail b = out_avail ps -> assert_io b = true.
Proof.
  intros E1 E2 E3 E4. destruct Hbase as (H1 & H2 & _). pose proof shape_end as [He Hf]. pose proof shape_lim. pose proof shape_head as Hh. unfold assert_io.
  rewrite He, Hf, E1, E2, E3, E4, (proj2 (Z.ltb_ge _ _)) by lia. apply andb_true_iff. split.
  - unfold in_dest, in_avail. destruct (0 <? f); cbn; by rewrite ?Z.eqb_refl.
  - destruct ps as [|p ps']; [by rewrite Hh|]. destruct Hh as (H3 & H4 & H5 & H6 & H7). pose proof (plen_blk p). rewrite (proj2 (Z.ltb_lt 0 (used b))) by lia.
    rewrite H4. fold (blk (plen p)). cbn [out_dest out_avail opt_eqb]. rewrite !(proj2 (Z.leb_le _ _)) by (unfold plen in *; lia). by rewrite !Z.eqb_refl.
Qed.

End Facts.

(** ** Operations *)

(** A packet is laid behind the data. *)
Lemma laid_snoc m m' sz lim i ps e p : Z.of_nat (length m) = 4 * sz -> m' = store_len m e (plen p) -> plen p < 2 ^ 31 -> 0 <= e <= lim -> e + (1 + blk (plen p)) <= sz ->
  0 <= i -> laid m lim i ps e -> slice (Z.to_nat (4 * (e + 1))) (length p) m = p -> laid m' lim i (ps ++ [p]) (e + (1 + blk (plen p))).
Proof.
  intros Hm -> Hp He Hsz Hi Hl Hsl. pose proof (plen_blk p) as Hb. unfold plen in *. unfold store_len, block. apply (laid_app _ _ _ _ e).
  - eapply laid_ext; [done|exact Hl|]. intros a n Ha Hn. apply slice_splice_disjoint; cbn [length mem32]; [lia|left; lia].
  - cbn [laid]. split; [done|]. split; [|split; [|done]].
    + unfold plen. apply (load_store m e); unfold block; lia.
    + rewrite slice_splice_disjoint; [done|cbn [length mem32]; lia|right; cbn [length mem32]; lia].
Qed.

(** Writing a length outside of a row of packets. *)
Lemma laid_other m sz lim i ps j e v : Z.of_nat (length m) = 4 * sz -> 0 <= e < sz -> 0 <= i -> laid m lim i ps j -> e < i \/ j <= e -> laid (store_len m e v) lim i ps j.
Proof.
  intros Hm He Hi Hl Hd. pose proof (laid_le _ _ _ _ _ Hl). eapply laid_ext; [done|exact Hl|]. intros a n Ha Hn. unfold store_len, block.
  apply slice_splice_disjoint; cbn [length mem32]; lia.
Qed.

Lemma submit_shape m sz mt w s u ps e f p : Z.of_nat (length m) = 4 * sz -> 4 * sz <= 2 ^ 31 -> 0 <= mt -> mt + 1 <= sz ->
  shape m sz mt w s u ps e f -> 0 < f -> plen p <= (f - 1) * block -> plen p <= 4 * mt -> slice (Z.to_nat (4 * (e + 1))) (length p) m = p ->
  let u' := u + (1 + blk (plen p)) in let x := e + 1 + blk (plen p) in
  exists e' f', shape (store_len m e (plen p)) sz mt (if (u' <=? w - s) && (sz - x - 1 <? mt) then x else w) s u' (ps ++ [p]) e' f'.
Proof.
  intros Hm Hsz Hmt Hmt1 Hs Hf Hav Hpm Hsl u' x. pose proof (plen_blk p) as Hb. pose proof (blk_le (plen p) mt ltac:(unfold plen; lia) Hpm) as Hbm.
  pose proof (blk_le (plen p) (f - 1) ltac:(unfold plen; lia) ltac:(unfold block in Hav; lia)) as Hbf.
  assert (Hp31 : plen p < 2 ^ 31) by lia.
  destruct Hs as [s u ps Hs0 Hu Hl|w s e p1 ps1 ps2 Hw Hl1 Hl2 He].
  - pose proof (laid_le _ _ _ _ _ Hl). rewrite (proj2 (Z.leb_le u' _)) by lia. cbn [andb].
    assert (Hl' : laid (store_len m (s + u) (plen p)) (sz - 1 - mt) s (ps ++ [p]) x).
    { replace x with (s + u + (1 + blk (plen p))) by lia. apply (laid_snoc m _ sz); try done; lia. }
    case_test.
    + do 2 eexists. replace u' with (x - s + 0) by lia. destruct (ps ++ [p]) as [|q qs] eqn:Eq; [by destruct ps|]. rewrite <- (app_nil_r (q :: qs)).
      apply Wrapped; [lia|done|done|lia].
    + replace x with (s + u') in * by lia. do 2 eexists. apply Linear; [lia|lia|done].
  - pose proof (laid_le _ _ _ _ _ Hl1) as Hle1. destruct (proj1 Hl1) as [Hs0 Hsl2]. rewrite (proj2 (Z.leb_gt u' _)) by lia. cbn [andb]. do 2 eexists. replace u' with (w - s + x) by lia. rewrite <- app_assoc.
    apply Wrapped; [done| | |lia].
    + apply (laid_other m sz); try done; lia.
    + replace x with (e + (1 + blk (plen p))) by lia. apply (laid_snoc m _ sz); try done; lia.
Qed.

Lemma submit_ok b ps e f p : holds b ps e f -> 0 < f -> plen p <= in_avail f -> plen p <= 4 * mtu b -> slice (Z.to_nat (4 * (e + 1))) (length p) (buffer b) = p ->
  exists b' e' f', ChunkBuffer2_SubmitPacket b (plen p) = Some b' /\ holds b' (ps ++ [p]) e' f' /\ size b' = size b /\ mtu b' = mtu b /\ start b' = start b.
Proof.
  intros (Hbase & Hshape & Hps & E1 & E2 & E3 & E4) Hf Hav Hpm Hsl. pose proof Hbase as (H1 & H2 & H3 & H4).
  pose proof (shape_lim b ps e f Hbase Hshape) as Hlim. destruct (shape_end b ps e f Hbase Hshape) as [Hend _].
  assert (Hav' : plen p <= (f - 1) * block) by (unfold in_avail in Hav; by rewrite (proj2 (Z.ltb_lt 0 f)) in Hav by done).
  pose proof (plen_blk p) as Hb. pose proof (blk_le (plen p) (mtu b) ltac:(unfold plen; lia) Hpm) as Hbm. pose proof (blk_le (plen p) (f - 1) ltac:(unfold plen; lia) ltac:(unfold block in Hav'; lia)) as Hbf.
  destruct (submit_shape (buffer b) (size b) (mtu b) (wrap b) (start b) (used b) ps e f p H3 H4 H1 H2 Hshape Hf Hav' Hpm Hsl) as (e' & f' & Hsh').
  assert (Hin : negb (opt_eqb (input_dest b) None) && (0 <=? plen p) && (plen p <=? input_avail b) = true).
  { rewrite E1, E2. unfold in_dest. rewrite (proj2 (Z.ltb_lt 0 f)) by done. rewrite (proj2 (Z.leb_le 0 (plen p))), (proj2 (Z.leb_le (plen p) _)) by (done || unfold plen; lia). done. }
  unfold ChunkBuffer2_SubmitPacket. rewrite Hin, (shape_assert b ps e f Hbase Hshape), (shape_assert_io b ps e f Hbase Hshape E1 E2 E3 E4), Hend. fold (blk (plen p)).
  cbn [assert mbind option_bind andb]. rewrite (proj2 (Z.leb_le (blk (plen p)) (size b - e - 1))) by lia.
  assert (Hor : (used b <? wrap b - start b) || (blk (plen p) <=? start b - e - 1) = true).
  { destruct Hshape; [rewrite (proj2 (Z.ltb_lt _ _)) by lia; done|rewrite (proj2 (Z.leb_le (blk (plen p)) _)) by lia; by rewrite orb_true_r]. }
  rewrite Hor, (proj2 (Z.leb_le 0 e)), (proj2 (Z.ltb_lt e _)) by lia. cbn [assert mbind option_bind andb].
  set (w' := if _ && _ then _ else _) in *. set (u' := used b + (1 + blk (plen p))) in *.
  set (b1 := mkCB (store_len (buffer b) e (plen p)) (size b) w' (start b) u' (mtu b) (input_dest b) (input_avail b) (output_dest b) (output_avail b)).
  assert (Hl1 : Z.of_nat (length (store_len (buffer b) e (plen p))) = 4 * size b) by (unfold store_len, block; rewrite length_splice; [done|cbn [length mem32]; lia]).
  assert (Hb1 : base b1) by (unfold base, b1; cbn; done).
  change (shape (buffer b1) (size b1) (mtu b1) (wrap b1) (start b1) (used b1) (ps ++ [p]) e' f') in Hsh'.
  rewrite (shape_assert b1 _ _ _ Hb1 Hsh'). cbn [assert mbind option_bind]. rewrite (shape_input b1 _ _ _ Hb1 Hsh').
  set (b2 := mkCB (buffer b1) _ _ _ _ _ _ _ _ _). assert (Hb2 : base b2) by done.
  assert (Hsh2 : shape (buffer b2) (size b2) (mtu b2) (wrap b2) (start b2) (used b2) (ps ++ [p]) e' f') by exact Hsh'.
  set (b3 := mkCB (buffer b2) (size b2) (wrap b2) (start b2) (used b2) (mtu b2) (input_dest b2) (input_avail b2) (out_dest (start b2) (ps ++ [p])) (out_avail (ps ++ [p]))).
  assert (Hout : (if used b2 =? 1 + blk (plen p) then update_output b2 else Some b2) = Some b3).
  { rewrite (shape_output b2 _ _ _ Hb2 Hsh2). fold b3. destruct (Z.eqb_spec (used b2) (1 + blk (plen p))) as [|Hu]; [done|]. f_equal.
    destruct ps as [|q qs]; [exfalso; apply Hu; pose proof (shape_head b [] e f Hbase Hshape) as Hh; change (used b2) with u'; unfold u'; rewrite Hh; lia|].
    unfold b3, b2, b1. cbn [buffer size wrap start used mtu input_dest input_avail output_dest output_avail app out_dest out_avail]. rewrite E3, E4. done. }
  rewrite Hout. cbn [mbind option_bind]. assert (Hsh3 : shape (buffer b3) (size b3) (mtu b3) (wrap b3) (start b3) (used b3) (ps ++ [p]) e' f') by exact Hsh'.
  rewrite (shape_assert_io b3 _ e' f' Hb2 Hsh3 eq_refl eq_refl eq_refl eq_refl). cbn [assert mbind option_bind].
  exists b3, e', f'. split; [done|]. split; [|done]. split; [done|]. split; [done|]. split; [|done]. apply Forall_app. split; [done|by apply Forall_singleton].
Qed.

Lemma consume_shape m sz mt w s u p ps e f : mt + 1 <= sz -> 0 <= mt -> shape m sz mt w s u (p :: ps) e f ->
  let s' := s + (1 + blk (plen p)) in
  exists f', shape m sz mt (if s' =? w then sz else w) (if s' =? w then 0 else s') (u - (1 + blk (plen p))) ps e f' /\ f <= f'
    /\ (w - s <=? u = false -> f' = f).
Proof.
  intros Hmt Hmt0 Hs s'. pose proof (plen_blk p) as Hb. remember (p :: ps) as qs eqn:Eq. destruct Hs as [s u qs Hs0 Hu Hl|w s e q ps1 ps2 Hw Hl1 Hl2 He].
  - subst qs. cbn [laid] in Hl. destruct Hl as (H1 & H2 & H3 & H4). pose proof (laid_le _ _ _ _ _ H4). rewrite (proj2 (Z.eqb_neq s' sz)) by lia.
    exists (sz - (s + u)). replace (s + u) with (s' + (u - (1 + blk (plen p)))) in * by lia. split; [|split; [lia|done]]. apply Linear; [lia|lia|done].
  - cbn [app] in Eq. injection Eq as Eq1 Eq2. subst q ps. cbn [laid] in Hl1. destruct Hl1 as (H1 & H2 & H3 & H4). fold s' in H4. destruct ps1 as [|q ps1].
    + cbn [laid] in H4. subst w. rewrite Z.eqb_refl. cbn [app]. exists (sz - (0 + e)). split; [|split; [lia|intros ?%Z.leb_gt; lia]].
      replace (s' - s + e - (1 + blk (plen p))) with e by lia. pose proof (Linear m sz mt 0 e ps2 ltac:(lia) ltac:(lia) Hl2) as H. by rewrite Z.add_0_l in H.
    + pose proof H4 as [? _]. rewrite (proj2 (Z.eqb_neq s' w)) by (cbn [laid] in H4; destruct H4 as (_ & _ & _ & H5%laid_le); pose proof (plen_blk q); lia).
      exists (s' - e). split; [|split; [lia|intros ?%Z.leb_gt; lia]]. replace (w - s + e - (1 + blk (plen p))) with (w - s' + e) by lia. apply Wrapped; [done|done|done|lia].
Qed.

Lemma consume_ok b p ps e f : holds b (p :: ps) e f ->
  exists b' f', ChunkBuffer2_ConsumePacket b = Some b' /\ holds b' ps e f' /\ f <= f' /\ size b' = size b /\ mtu b' = mtu b /\ buffer b' = buffer b.
Proof.
  intros (Hbase & Hshape & Hps & E1 & E2 & E3 & E4). pose proof Hbase as (H1 & H2 & H3 & H4).
  destruct (shape_head b _ e f Hbase Hshape) as (Hs & Hlen & _ & Hu & Hw). pose proof (plen_blk p) as Hb.
  destruct (consume_shape _ _ _ _ _ _ _ _ _ _ H2 H1 Hshape) as (f' & Hsh' & Hf & Hff).
  assert (Hout : negb (opt_eqb (output_dest b) None) = true) by (by rewrite E3).
  unfold ChunkBuffer2_ConsumePacket. rewrite Hout, (shape_assert b _ e f Hbase Hshape), (shape_assert_io b _ e f Hbase Hshape E1 E2 E3 E4), Hlen. fold (blk (plen p)).
  cbn [andb assert mbind option_bind]. rewrite (proj2 (Z.leb_le 1 (wrap b - start b))), (proj2 (Z.leb_le 1 (used b))), (proj2 (Z.leb_le (blk (plen p)) (wrap b - start b - 1))), (proj2 (Z.leb_le (blk (plen p)) (used b - 1))) by lia.
  cbn [andb assert mbind option_bind].
  set (s' := start b + (1 + blk (plen p))) in *. set (u' := used b - (1 + blk (plen p))) in *.
  set (b1 := mkCB (buffer b) (size b) (if s' =? wrap b then size b else wrap b) (if s' =? wrap b then 0 else s') u' (mtu b) (input_dest b) (input_avail b) (output_dest b) (output_avail b)).
  assert (Hb1 : base b1) by done.
  change (shape (buffer b1) (size b1) (mtu b1) (wrap b1) (start b1) (used b1) ps e f') in Hsh'. rewrite (shape_assert b1 _ _ _ Hb1 Hsh'). cbn [assert mbind option_bind].
  set (b2 := mkCB (buffer b1) (size b1) (wrap b1) (start b1) (used b1) (mtu b1) (in_dest e f') (in_avail f') (output_dest b1) (output_avail b1)).
  assert (Hin : (if wrap b - start b <=? used b then update_input b1 else b1) = b2).
  { rewrite (shape_input b1 _ _ _ Hb1 Hsh'). fold b2. destruct (wrap b - start b <=? used b) eqn:Ew; [done|]. specialize (Hff eq_refl). unfold b2, b1. rewrite Hff. cbn [buffer size wrap start used mtu input_dest input_avail output_dest output_avail]. by rewrite E1, E2. }
  rewrite Hin. assert (Hsh2 : shape (buffer b2) (size b2) (mtu b2) (wrap b2) (start b2) (used b2) ps e f') by exact Hsh'.
  rewrite (shape_output b2 _ _ _ Hb1 Hsh2). cbn [mbind option_bind]. set (b3 := mkCB (buffer b2) _ _ _ _ _ _ _ _ _).
  assert (Hsh3 : shape (buffer b3) (size b3) (mtu b3) (wrap b3) (start b3) (used b3) ps e f') by exact Hsh'.
  rewrite (shape_assert_io b3 _ e f' Hb1 Hsh3 eq_refl eq_refl eq_refl eq_refl). cbn [assert mbind option_bind].
  exists b3, f'. split; [done|]. split; [|done]. split; [done|]. split; [done|]. split; [|done]. by apply Forall_cons in Hps as [_ ?].
Qed.

(** ** Initialisation and capacity *)

Lemma init_holds m blocks mt : Z.of_nat (length m) = 4 * blocks -> 4 * blocks <= 2 ^ 31 -> 0 <= mt -> blk mt + 1 <= blocks ->
  exists b, ChunkBuffer2_Init m blocks mt = Some b /\ holds b [] 0 blocks /\ size b = blocks /\ mtu b = blk mt.
Proof.
  intros Hm Hb Hmt Hblk. pose proof (blk_spec mt Hmt). unfold ChunkBuffer2_Init. rewrite (proj2 (Z.ltb_lt 0 _)), (proj2 (Z.leb_le 0 _)) by lia. cbn [andb assert mbind option_bind]. fold (blk mt).
  set (b0 := mkCB _ _ _ _ _ _ _ _ _ _). assert (Hb0 : base b0) by (unfold base, b0; cbn; lia).
  assert (Hsh : shape (buffer b0) (size b0) (mtu b0) (wrap b0) (start b0) (used b0) [] 0 blocks).
  { pose proof (Linear m blocks (blk mt) 0 0 [] ltac:(lia) ltac:(lia) ltac:(done)) as H0. by rewrite Z.add_0_l, Z.sub_0_r in H0. }
  rewrite (shape_assert b0 _ _ _ Hb0 Hsh). cbn [assert mbind option_bind]. rewrite (shape_input b0 _ _ _ Hb0 Hsh). set (b1 := mkCB (buffer b0) _ _ _ _ _ _ _ _ _).
  assert (Hsh1 : shape (buffer b1) (size b1) (mtu b1) (wrap b1) (start b1) (used b1) [] 0 blocks) by exact Hsh.
  rewrite (shape_output b1 _ _ _ Hb0 Hsh1). cbn [mbind option_bind]. set (b2 := mkCB (buffer b1) _ _ _ _ _ _ _ _ _).
  assert (Hsh2 : shape (buffer b2) (size b2) (mtu b2) (wrap b2) (start b2) (used b2) [] 0 blocks) by exact Hsh.
  rewrite (shape_assert_io b2 _ _ _ Hb0 Hsh2 eq_refl eq_refl eq_refl eq_refl). cbn [assert mbind option_bind].
  exists b2. split; [done|]. split; [|done]. split; [done|]. split; [done|]. split; [constructor|done].
Qed.

(** Fewer than [n] packets leave room for another one of the full size. *)
Lemma capacity b ps e f n : holds b ps e f -> size b = (1 + mtu b) * (n + 1) -> Z.of_nat (length ps) < n -> mtu b + 1 <= f.
Proof.
  intros (Hbase & Hshape & Hps & _) Hsz Hn. destruct Hbase as (H1 & H2 & _). remember (mtu b) as mt. remember (size b) as sz. clear Heqmt Heqsz. destruct Hshape as [s u ps Hs0 Hu Hl|w s e p ps1 ps2 Hw Hl1 Hl2 He].
  - lia.
  - apply Forall_app in Hps as [Hp1 Hp2]. apply (laid_length _ _ _ _ _ mt) in Hl1, Hl2; [|done|done]. rewrite length_app in Hn. nia.
Qed.

(** The number of free bytes is an [int]: a larger buffer does not pass the assertions of its initialisation. *)
Lemma init_too_large m blocks mt : 0 <= mt -> blk mt + 1 <= blocks -> 2 ^ 31 < 4 * blocks -> ChunkBuffer2_Init m blocks mt = None.
Proof.
  intros Hmt Hb Hl. pose proof (blk_spec mt Hmt). unfold ChunkBuffer2_Init. destruct ((0 <? blocks) && (0 <=? mt)); [|done]. cbn [assert mbind option_bind].
  destruct (assert_buffer _); [|done]. cbn [assert mbind option_bind].
  unfold update_input, free_blocks, ChunkBuffer2_end. cbn -[s32 Z.pow]. fold (blk mt).
  rewrite (proj2 (Z.leb_gt (blocks - 0) 0)), (proj2 (Z.ltb_ge (blocks - (0 + 0) - 1) _)), (proj2 (Z.ltb_lt 0 (blocks - (0 + 0)))) by lia.
  unfold update_output. cbn -[s32 Z.pow assert_io]. unfold assert_io, free_blocks, ChunkBuffer2_end. cbn -[s32 Z.pow]. fold (blk mt).
  rewrite (proj2 (Z.leb_gt (blocks - 0) 0)), (proj2 (Z.ltb_ge (blocks - (0 + 0) - 1) _)), (proj2 (Z.ltb_lt 0 (blocks - (0 + 0)))) by lia.
  rewrite (proj2 (Z.eqb_neq (s32 _) _)); [by rewrite andb_false_r|]. unfold block, s32. pose proof (Z.mod_pos_bound ((blocks - (0 + 0) - 1) * 4 + 2 ^ 31) (2 ^ 32)). lia.
Qed.

Lemma calc_blocks_ok len num : 0 <= len -> 0 < num -> 0 <= ChunkBuffer2_calc_blocks len num -> ChunkBuffer2_calc_blocks len num = (1 + blk len) * (num + 1).
Proof. intros Hl Hn. unfold ChunkBuffer2_calc_blocks. fold (blk len). repeat (case_test; [lia|]). done. Qed.

(** ** PacketBuffer *)

(** What the input writes at the place it was given does not touch the packets. *)
Lemma shape_write m sz mt w s u ps e f bs : Z.of_nat (length m) = 4 * sz -> 0 <= mt -> mt + 1 <= sz -> shape m sz mt w s u ps e f -> 0 < f -> Z.of_nat (length bs) <= 4 * (f - 1) ->
  shape (splice (Z.to_nat (4 * (e + 1))) bs m) sz mt w s u ps e f.
Proof.
  intros Hm Hmt Hsz Hs Hf Hbs. destruct Hs as [s u ps Hs0 Hu Hl|w s e p ps1 ps2 Hw Hl1 Hl2 He].
  - pose proof (laid_le _ _ _ _ _ Hl). apply Linear; [done|done|]. eapply laid_ext; [done|exact Hl|]. intros a n Ha Hn. apply slice_splice_disjoint; [lia|left; lia].
  - pose proof (laid_le _ _ _ _ _ Hl1). pose proof (laid_le _ _ _ _ _ Hl2). destruct (proj1 Hl1). apply Wrapped; [done| | |done].
    + eapply laid_ext; [|exact Hl1|]; [lia|]. intros a n Ha Hn. apply slice_splice_disjoint; [lia|right; lia].
    + eapply laid_ext; [|exact Hl2|]; [lia|]. intros a n Ha Hn. apply slice_splice_disjoint; [lia|left; lia].
Qed.

Definition head_at (b : ChunkBuffer2) (ps : list (list Z)) : option (Z * Z) :=
  match ps with [] => None | q :: _ => Some (block * (start b + 1), plen q) end.

(** The buffer holds [ps]; a receive is pending while a packet of the full size fits, and the
    first packet is being sent. *)
Definition pb_ok (num : Z) (p : PacketBuffer) (ps : list (list Z)) : Prop :=
  exists e f, holds (cb p) ps e f /\ 0 <= input_mtu p /\ mtu (cb p) = blk (input_mtu p) /\ size (cb p) = (1 + mtu (cb p)) * (num + 1)
    /\ receiving p = (if input_mtu p <=? in_avail f then in_dest e f else None) /\ sending p = head_at (cb p) ps.

Lemma receiving_room p e f d : 0 <= input_mtu p -> receiving p = (if input_mtu p <=? in_avail f then in_dest e f else None) -> receiving p = Some d ->
  d = 4 * (e + 1) /\ 0 < f /\ input_mtu p <= 4 * (f - 1).
Proof.
  intros H0 -> H. unfold in_dest, in_avail, block in *. destruct (Z.leb_spec (input_mtu p) (if 0 <? f then (f - 1) * 4 else -1)) as [Hle|]; [|done].
  destruct (Z.ltb_spec 0 f) as [Hf|]; [|done]. injection H as <-. split; [done|]. lia.
Qed.

Lemma write_at_ok num p ps bs d : pb_ok num p ps -> receiving p = Some d -> Z.of_nat (length bs) <= input_mtu p ->
  exists p', write_at bs p = Some p' /\ pb_ok num p' ps /\ input_mtu p' = input_mtu p /\ receiving p' = Some d /\ slice (Z.to_nat d) (length bs) (buffer (cb p')) = bs.
Proof.
  intros (e & f & Hh & H0 & Hmt & Hsz & Hr & Hs) Hd Hbs. destruct (receiving_room p e f d H0 Hr Hd) as (-> & Hf & Hroom).
  destruct Hh as (Hbase & Hshape & Hps & E1 & E2 & E3 & E4). pose proof Hbase as (H1 & H2 & H3 & H4). pose proof (shape_lim _ _ _ _ Hbase Hshape) as Hlim.
  unfold write_at. rewrite Hd. cbn [mbind option_bind]. unfold block. rewrite !(proj2 (Z.leb_le _ _)) by lia. cbn [andb assert mbind option_bind].
  eexists. split; [done|]. cbn [cb input_mtu receiving sending buffer]. split; [|split; [done|]; split; [done|]; apply slice_splice_same; lia].
  exists e, f. cbn [cb input_mtu receiving sending]. split_and!; try done; [|by rewrite <- Hr].
  split; [unfold base; cbn; rewrite length_splice by lia; done|]. cbn [buffer size mtu wrap start used input_dest input_avail output_dest output_avail].
  split; [|done]. apply shape_write; try done; lia.
Qed.

Lemma pb_input_ok num p ps bs d : pb_ok num p ps -> receiving p = Some d -> Z.of_nat (length bs) <= input_mtu p -> slice (Z.to_nat d) (length bs) (buffer (cb p)) = bs ->
  exists p', input_handler_done (mkPB (cb p) (input_mtu p) None (sending p)) (Z.of_nat (length bs)) = Some p' /\ pb_ok num p' (ps ++ [bs]) /\ input_mtu p' = input_mtu p.
Proof.
  intros (e & f & Hh & H0 & Hmt & Hsz & Hr & Hs) Hd Hbs Hsl. destruct (receiving_room p e f d H0 Hr Hd) as (-> & Hf & Hroom).
  pose proof (blk_spec (input_mtu p) H0) as Hb. unfold input_handler_done. cbn [cb input_mtu receiving sending]. rewrite !(proj2 (Z.leb_le _ _)) by lia. cbn [andb assert mbind option_bind].
  destruct (submit_ok (cb p) ps e f bs Hh Hf) as (b' & e' & f' & E & Hh' & Hsz' & Hmt' & Hst');
    [unfold plen, in_avail, block; rewrite (proj2 (Z.ltb_lt 0 f)) by done; lia|unfold plen; lia|done|].
  change (Z.of_nat (length bs)) with (plen bs). rewrite E. cbn [mbind option_bind]. pose proof Hh as (_ & _ & _ & _ & _ & _ & Eo). pose proof Hh' as (_ & _ & _ & Ei' & Ea' & Ed' & Eo').
  set (r' := if input_mtu p <=? in_avail f' then in_dest e' f' else None).
  assert (Hrecv : (if input_mtu p <=? input_avail b' then Receiver_Recv (mkPB b' (input_mtu p) None (sending p)) else Some (mkPB b' (input_mtu p) None (sending p)))
    = Some (mkPB b' (input_mtu p) r' (sending p))).
  { unfold r'. rewrite Ea'. destruct (Z.leb_spec (input_mtu p) (in_avail f')) as [Hle|]; [|done]. unfold Receiver_Recv. cbn [receiving cb]. rewrite Ei'.
    unfold in_dest, in_avail in *. destruct (0 <? f'); [done|lia]. }
  rewrite Hrecv. cbn [mbind option_bind]. rewrite Eo.
  assert (Hend : forall s, s = head_at b' (ps ++ [bs]) -> pb_ok num (mkPB b' (input_mtu p) r' s) (ps ++ [bs])).
  { intros s ->. exists e', f'. cbn [cb input_mtu receiving sending]. split_and!; try done; congruence. }
  destruct ps as [|q qs]; cbn [out_avail].
  - rewrite (proj2 (Z.ltb_lt (-1) 0)) by lia. unfold Sender_Send. cbn [sending cb input_mtu receiving]. rewrite Hs. cbn [head_at]. rewrite Ed'. cbn [app out_dest].
    eexists. split; [done|]. split; [|done]. apply Hend. rewrite Eo'. done.
  - rewrite (proj2 (Z.ltb_ge _ 0)) by (unfold plen; lia). eexists. split; [done|]. split; [|done]. apply Hend. rewrite Hs. cbn [app head_at].
    by rewrite Hst'.
Qed.

Lemma pb_output_ok num p q ps : pb_ok num p (q :: ps) ->
  exists p' d, sending p = Some (d, plen q) /\ slice (Z.to_nat d) (length q) (buffer (cb p)) = q
    /\ output_handler_done (mkPB (cb p) (input_mtu p) (receiving p) None) = Some p' /\ pb_ok num p' ps /\ input_mtu p' = input_mtu p.
Proof.
  intros (e & f & Hh & H0 & Hmt & Hsz & Hr & Hs). pose proof Hh as (Hbase & Hshape & _ & E1 & E2 & E3 & E4).
  destruct (shape_head _ _ _ _ Hbase Hshape) as (_ & _ & Hsl & _ & _). destruct (consume_ok (cb p) q ps e f Hh) as (b' & f' & E & Hh' & Hff & Hsz' & Hmt' & _).
  pose proof Hh' as (_ & _ & _ & Ei' & Ea' & Ed' & Eo'). unfold output_handler_done. cbn [cb input_mtu receiving sending]. rewrite E. cbn [mbind option_bind].
  set (r' := if input_mtu p <=? in_avail f' then in_dest e f' else None).
  assert (Hrecv : (if (input_avail (cb p) <? input_mtu p) && (input_mtu p <=? input_avail b') then Receiver_Recv (mkPB b' (input_mtu p) (receiving p) None)
      else Some (mkPB b' (input_mtu p) (receiving p) None)) = Some (mkPB b' (input_mtu p) r' None)).
  { rewrite E2, Ea', Hr. unfold r'. assert (Hmono : in_avail f <= in_avail f') by (unfold in_avail, block; destruct (Z.ltb_spec 0 f), (Z.ltb_spec 0 f'); lia).
    destruct (Z.ltb_spec (in_avail f) (input_mtu p)) as [Hfull|Hroom]; cbn [andb].
    - rewrite (proj2 (Z.leb_gt (input_mtu p) (in_avail f))) by done. destruct (Z.leb_spec (input_mtu p) (in_avail f')) as [Hle|]; [|done]. unfold Receiver_Recv. cbn [receiving cb]. rewrite Ei'.
      unfold in_dest, in_avail in *. destruct (0 <? f'); [done|lia].
    - rewrite !(proj2 (Z.leb_le _ _)) by lia. do 2 f_equal. unfold in_dest, in_avail in *. destruct (Z.ltb_spec 0 f), (Z.ltb_spec 0 f'); done || lia. }
  exists (mkPB b' (input_mtu p) r' (head_at b' ps)), (block * (start (cb p) + 1)). split; [exact Hs|]. split; [exact Hsl|]. split.
  - rewrite Hrecv. cbn [mbind option_bind]. rewrite Eo'. destruct ps as [|q2 qs]; cbn [out_avail]; [done|]. rewrite (proj2 (Z.leb_le 0 _)) by (unfold plen; lia).
    unfold Sender_Send. cbn [sending cb input_mtu receiving]. rewrite Ed', Eo'. done.
  - split; [|done]. exists e, f'. cbn [cb input_mtu receiving sending]. split_and!; try done; congruence.
Qed.

(** The packets that the input has delivered. *)
Definition delivered (evs : list event) : list (list Z) := concat (map (fun ev => match ev with EvInput p => [p] | _ => [] end) evs).

Lemma pb_run_ok num evs : forall p ps, pb_ok num p ps -> possible_run evs p = true ->
  exists p' outs ps', run evs p = Some (p', outs) /\ pb_ok num p' ps' /\ ps ++ delivered evs = outs ++ ps'.
Proof.
  induction evs as [|ev evs IH]; intros p ps Hok Hp.
  { exists p, [], ps. split; [done|]. split; [done|]. unfold delivered. cbn. by rewrite app_nil_r. }
  cbn [run possible_run] in *. apply andb_true_iff in Hp as [Hp1 Hp2]. unfold delivered. cbn [map concat]. fold (delivered evs).
  assert (Hstep : exists p1 o1 ps1, step ev p = Some (p1, o1) /\ pb_ok num p1 ps1 /\ ps ++ match ev with EvInput q => [q] | _ => [] end = o1 ++ ps1).
  { destruct ev as [bs|bs|]; cbn [possible step] in *.
    - destruct (receiving p) as [d|] eqn:Hd; [|done]. apply Z.leb_le in Hp1. destruct (write_at_ok num p ps bs d Hok Hd Hp1) as (p1 & E & H1 & _).
      rewrite E. exists p1, [], ps. by rewrite app_nil_r.
    - destruct (receiving p) as [d|] eqn:Hd; [|done]. apply Z.leb_le in Hp1. destruct (write_at_ok num p ps bs d Hok Hd Hp1) as (p1 & E & H1 & Hm & Hd' & Hsl).
      destruct (pb_input_ok num p1 ps bs d H1 Hd' ltac:(lia) Hsl) as (p2 & E2 & H2 & _). rewrite E. cbn [mbind option_bind]. rewrite E2. by exists p2, [], (ps ++ [bs]).
    - destruct ps as [|q ps]; [destruct Hok as (e & f & _ & _ & _ & _ & _ & Hs); cbn in Hs; by rewrite Hs in Hp1|].
      destruct (pb_output_ok num p q ps Hok) as (p1 & d & Hs & Hsl & E & H1 & _). rewrite Hs. cbn [mbind option_bind]. rewrite E. cbn [mbind option_bind].
      exists p1, [q], ps. split; [|by rewrite app_nil_r]. do 3 f_equal. unfold plen. rewrite Nat2Z.id. by rewrite Hsl. }
  destruct Hstep as (p1 & o1 & ps1 & E & H1 & Heq). rewrite E in Hp2 |- *. cbn [mbind option_bind].
  destruct (IH p1 ps1 H1 Hp2) as (p' & outs & ps' & E' & H2 & Heq'). rewrite E'. cbn [mbind option_bind]. exists p', (o1 ++ outs), ps'. split; [done|]. split; [done|].
  rewrite app_assoc, Heq, <- app_assoc, Heq'. by rewrite app_assoc.
Qed.

Lemma pb_init_ok in_mtu num malloc p : 0 <= in_mtu -> (forall n m, malloc n = Some m -> Z.of_nat (length m) = n) ->
  PacketBuffer_Init in_mtu num malloc = Some (Some p) -> pb_ok num p [].
Proof.
  intros Hm Hmal. unfold PacketBuffer_Init. destruct (Z.ltb_spec 0 num) as [Hnum|]; [|done]. cbn [assert mbind option_bind]. case_test; [done|].
  pose proof (calc_blocks_ok in_mtu num Hm Hnum ltac:(lia)) as Hcb. rewrite Hcb in *. clear Hcb. set (n := (1 + blk in_mtu) * (num + 1)) in *. destruct (malloc (block * n)) as [m|] eqn:Em; [|done]. apply Hmal in Em.
  pose proof (blk_spec in_mtu Hm) as Hb. destruct (Z.le_gt_cases (4 * n) (2 ^ 31)) as [Hsz|Hsz]; [|by rewrite init_too_large by nia].
  destruct (init_holds m n in_mtu Em Hsz Hm ltac:(nia)) as (b & Eb & Hh & Hs & Hmt). rewrite Eb. cbn [mbind option_bind].
  pose proof Hh as (_ & _ & _ & Ei & Ea & _ & _). unfold Receiver_Recv. cbn [receiving cb]. rewrite Ei. unfold in_dest. rewrite (proj2 (Z.ltb_lt 0 n)) by nia. cbn [mbind option_bind].
  intros [= <-]. exists 0, n. cbn [cb input_mtu receiving sending]. split_and!; try done; try (by rewrite Hs, Hmt).
  unfold in_avail, in_dest, block. rewrite (proj2 (Z.ltb_lt 0 n)) by nia. by rewrite (proj2 (Z.leb_le _ _)) by nia.
Qed.

(** C22. A packet buffer is a queue: once it has been initialised, for every sequence of packets
    that arrive and are sent, in any interleaving, with the input writing into the buffer while
    the output reads from it, no assertion fails and nothing outside of the buffer is accessed;
    the packets come out unchanged and in order; while one is stored the first is being sent;
    and while fewer than the requested number are stored the next packet can be received, so
    the buffer never stalls.  (A buffer of more than 2 GiB, which [ChunkBuffer2_calc_blocks]
    lets pass, fails an assertion when it is initialised: [packet_buffer_too_large].) *)
Theorem packet_buffer_fifo in_mtu num malloc p0 evs : 0 <= in_mtu ->
  (forall n m, malloc n = Some m -> Z.of_nat (length m) = n) -> PacketBuffer_Init in_mtu num malloc = Some (Some p0) -> possible_run evs p0 = true ->
  exists p outs stored, run evs p0 = Some (p, outs) /\ delivered evs = outs ++ stored
    /\ (Z.of_nat (length stored) < num -> exists d, receiving p = Some d)
    /\ match stored with
       | [] => sending p = None
       | q :: _ => exists d, sending p = Some (d, Z.of_nat (length q)) /\ slice (Z.to_nat d) (length q) (buffer (cb p)) = q
       end.
Proof.
  intros Hm Hmal Hi Hp. destruct (pb_run_ok num evs p0 [] (pb_init_ok _ _ _ _ Hm Hmal Hi) Hp) as (p & outs & ps & E & Hok & Heq).
  exists p, outs, ps. split; [done|]. split; [done|]. split.
  - intros Hn. destruct Hok as (e & f & Hh & H0 & Hmt & Hsize & Hr & _). pose proof (capacity _ _ _ _ num Hh Hsize Hn) as Hcap. pose proof (blk_spec (input_mtu p) H0) as Hb.
    destruct Hh as ((? & _) & _). rewrite Hr. unfold in_avail, in_dest, block. rewrite (proj2 (Z.ltb_lt 0 f)) by lia. rewrite (proj2 (Z.leb_le _ _)) by lia. eauto.
  - destruct ps as [|q ps]; [by destruct Hok as (e & f & _ & _ & _ & _ & _ & Hs)|]. destruct (pb_output_ok num p q ps Hok) as (p1 & d & Hs & Hsl & _). by exists d.
Qed.

(** A buffer of more than 2 GiB passes the tests of the number of its blocks; if there is memory for it, its
    initialisation fails the assertion that [input_avail], an [int], is the number of free bytes. *)
Theorem packet_buffer_too_large in_mtu num m malloc : 0 <= in_mtu -> 0 < num -> malloc (block * ChunkBuffer2_calc_blocks in_mtu num) = Some m ->
  2 ^ 31 < 4 * ChunkBuffer2_calc_blocks in_mtu num -> PacketBuffer_Init in_mtu num malloc = None.
Proof.
  intros Hm Hn Em Hl. pose proof (blk_spec in_mtu Hm). pose proof (calc_blocks_ok in_mtu num Hm Hn ltac:(lia)) as Hc. unfold PacketBuffer_Init.
  rewrite (proj2 (Z.ltb_lt 0 num)) by done. cbn [assert mbind option_bind]. rewrite (proj2 (Z.ltb_ge _ 0)) by lia. rewrite Em, init_too_large; [done|done|nia|done].
Qed.

(** A buffer for two packets of up to five bytes; the third wraps around. *)
Module PacketBufferExample.

Definition malloc (n : Z) : option (list Z) := if 0 <=? n then Some (replicate (Z.to_nat n) 0) else None.
Definition p0 : PacketBuffer := match PacketBuffer_Init 5 2 malloc with Some (Some p) => p | _ => mkPB (mkCB [] 0 0 0 0 0 None 0 None 0) 0 None None end.
Definition evs : list event :=
  [EvInput [1; 2; 3]; EvTouch [9; 9; 9; 9; 9]; EvInput [4; 5; 6; 7; 8]; EvOutputDone; EvInput [9]; EvOutputDone; EvInput []; EvOutputDone; EvOutputDone].

Lemma malloc_length n m : malloc n = Some m -> Z.of_nat (length m) = n.
Proof. unfold malloc. case_test; [|done]. intros [= <-]. rewrite length_replicate. lia. Qed.

Lemma packet_buffer_fifo_witness : exists p outs stored, run evs p0 = Some (p, outs) /\ delivered evs = outs ++ stored
    /\ (Z.of_nat (length stored) < 2 -> exists d, receiving p = Some d)
    /\ match stored with
       | [] => sending p = None
       | q :: _ => exists d, sending p = Some (d, Z.of_nat (length q)) /\ slice (Z.to_nat d) (length q) (buffer (cb p)) = q
       end.
Proof.
  apply (packet_buffer_fifo 5 2 malloc p0 evs); [lia|exact malloc_length|vm_compute; reflexivity|vm_compute; reflexivity].
Defined.

End PacketBufferExample.
