(* ===== verification/Avl.v ===== *)
(** * Balanced trees of badvpn: the interface

    badvpn has two variants of one balanced tree (structure/SAvl_impl.h over CAvl_impl.h, and
    structure/BAVL.h).  What their clients rely on is a type class: a tree is known by its
    elements in order.  The keys live in the elements, that is in the memory of the client, so
    the comparisons are arguments; they are to return -1, 0 or 1.  Only what is in the tree may be
    removed.  A list in order is an instance; the trees in memory are another ([BavlRefine]). *)

From S2P Require Import Prelude.

Class Avl (T : Type) := {
  tree_Init : T;
  tree_elements : T -> list nat;
  tree_Insert : (nat -> nat -> Z) -> nat -> T -> option T;
  tree_Remove : nat -> T -> option T;
  tree_GetFirst : T -> option nat;
  tree_LookupExact : (nat -> Z) -> T -> option nat
}.

(** In the order of the comparison. *)
Definition ordered (cmp : nat -> nat -> Z) (l : list nat) : Prop := forall i j x y, l !! i = Some x -> l !! j = Some y -> (i < j)%nat -> cmp x y < 0.

(** A total order of some addresses. *)
Record order_on (cmp : nat -> nat -> Z) (P : nat -> Prop) : Prop := mkOrder {
  o_eq x y : P x -> P y -> cmp x y = 0 <-> x = y;
  o_anti x y : P x -> P y -> cmp x y < 0 <-> 0 < cmp y x;
  o_trans x y z : P x -> P y -> P z -> cmp x y < 0 -> cmp y z < 0 -> cmp x z < 0
}.

(** The comparison of a key with the elements: first those below it, then those above. *)
Definition seeks (f : nat -> Z) (l : list nat) : Prop := forall i j x y, l !! i = Some x -> l !! j = Some y -> (i < j)%nat -> f x <= 0 -> f y < 0.

(** What a comparator returns. *)
Definition in_range (c : Z) : Prop := c = -1 \/ c = 0 \/ c = 1.

Class AvlLaws (T : Type) `{Avl T} := {
  tree_ok : T -> Prop;
  ok_Init : tree_ok tree_Init /\ tree_elements tree_Init = [];
  elements_GetFirst t : tree_ok t -> tree_GetFirst t = head (tree_elements t);
  elements_LookupExact f t : tree_ok t -> (forall x, in_range (f x)) -> seeks f (tree_elements t) ->
    match tree_LookupExact f t with Some x => x ∈ tree_elements t /\ f x = 0 | None => forall x, x ∈ tree_elements t -> f x <> 0 end;
  elements_Remove t x : tree_ok t -> NoDup (tree_elements t) -> x ∈ tree_elements t ->
    exists t', tree_Remove x t = Some t' /\ tree_ok t' /\ tree_elements t' = filter (fun y => y <> x) (tree_elements t);
  elements_Insert cmp t x : tree_ok t -> (forall a b, in_range (cmp a b)) -> order_on cmp (fun y => y = x \/ y ∈ tree_elements t) -> ordered cmp (tree_elements t) -> x ∉ tree_elements t ->
    exists t', tree_Insert cmp x t = Some t' /\ tree_ok t' /\ Permutation (tree_elements t') (x :: tree_elements t) /\ ordered cmp (tree_elements t')
}.

(** ** Orders *)

Lemma order_on_sub cmp (P P' : nat -> Prop) : order_on cmp P -> (forall x, P' x -> P x) -> order_on cmp P'.
Proof. intros [O1 O2 O3] Hp. split; [intros; apply O1|intros; apply O2|intros x y z ? ? ? ? ?; apply (O3 x y z)]; auto. Qed.

Lemma ordered_nil cmp : ordered cmp [].
Proof. by intros i j x y H. Qed.

Lemma ordered_ext cmp cmp' l : ordered cmp l -> (forall x y, x ∈ l -> y ∈ l -> cmp x y < 0 -> cmp' x y < 0) -> ordered cmp' l.
Proof. intros Ho He i j x y Hx Hy Hij. apply He; [by eapply list_elem_of_lookup_2|by eapply list_elem_of_lookup_2|by eapply Ho]. Qed.

Lemma ordered_nodup cmp l : order_on cmp (fun x => x ∈ l) -> ordered cmp l -> NoDup l.
Proof.
  intros [H0 _ _] Ho. apply NoDup_alt. intros i j x Hi Hj. destruct (decide (i = j)) as [|Hne]; [done|]. exfalso.
  assert (Hx : cmp x x = 0) by (by apply H0; [eapply list_elem_of_lookup_2|eapply list_elem_of_lookup_2|]). destruct (decide (i < j)%nat).
  - specialize (Ho i j x x Hi Hj ltac:(lia)). lia.
  - specialize (Ho j i x x Hj Hi ltac:(lia)). lia.
Qed.

Lemma ordered_tail cmp x l : ordered cmp (x :: l) -> ordered cmp l.
Proof. intros Ho i j a b Ha Hb Hij. by apply (Ho (S i) (S j)); [| |lia]. Qed.

Lemma ordered_head cmp x l y : ordered cmp (x :: l) -> y ∈ l -> cmp x y < 0.
Proof. intros Ho [j Hj]%list_elem_of_lookup. by apply (Ho 0%nat (S j)); [| |lia]. Qed.

Lemma ordered_cons cmp x l : ordered cmp l -> (forall y, y ∈ l -> cmp x y < 0) -> ordered cmp (x :: l).
Proof.
  intros Ho Hx [|i] [|j] a b Ha Hb Hij; try lia; cbn in Ha, Hb.
  - injection Ha as <-. apply Hx. by eapply list_elem_of_lookup_2.
  - by apply (Ho i j); [| |lia].
Qed.

Lemma ordered_app cmp l1 l2 : ordered cmp (l1 ++ l2) <-> ordered cmp l1 /\ ordered cmp l2 /\ forall x y, x ∈ l1 -> y ∈ l2 -> cmp x y < 0.
Proof.
  induction l1 as [|a l1 IH]; [split; [intros Ho; split; [apply ordered_nil|split; [done|set_solver]]|by intros (_ & ? & _)]|]. cbn [app]. split.
  - intros Ho. destruct (proj1 IH (ordered_tail _ _ _ Ho)) as (H1 & H2 & H12). split; [|split; [done|]].
    + apply ordered_cons; [done|]. intros y Hy. eapply ordered_head; [exact Ho|set_solver].
    + intros x y [->|Hx]%elem_of_cons Hy; [|by apply H12]. eapply ordered_head; [exact Ho|set_solver].
  - intros (H1 & H2 & H12). apply ordered_cons; [apply IH; split; [by eapply ordered_tail|split; [done|set_solver]]|]. intros y [Hy|Hy]%elem_of_app; [by eapply ordered_head|apply H12; set_solver].
Qed.

(** Where a new element goes. *)
Lemma ordered_middle cmp l1 x l2 : ordered cmp (l1 ++ l2) -> (forall y, y ∈ l1 -> cmp y x < 0) -> (forall y, y ∈ l2 -> cmp x y < 0) -> ordered cmp (l1 ++ x :: l2).
Proof. rewrite !ordered_app. intros (H1 & H2 & H12) Hl Hr. split; [done|]. split; [by apply ordered_cons|]. intros y z Hy [->|Hz]%elem_of_cons; auto. Qed.

(** The search for a new element among ordered ones. *)
Lemma order_seeks cmp x l : order_on cmp (fun y => y = x \/ y ∈ l) -> ordered cmp l -> x ∉ l -> seeks (cmp x) l.
Proof.
  intros [O1 O2 O3] Ho Hx i j a b Ha Hb Hij Hle. pose proof (list_elem_of_lookup_2 _ _ _ Ha). pose proof (list_elem_of_lookup_2 _ _ _ Hb). apply (O3 x a b); [auto..| |by apply (Ho i j)].
  assert (cmp x a <> 0) by (rewrite O1 by auto; congruence). lia.
Qed.

Lemma ordered_filter cmp (P : nat -> Prop) `{!forall x, Decision (P x)} l : ordered cmp l -> ordered cmp (filter P l).
Proof.
  induction l as [|x l IH]; intros Ho; [done|]. pose proof (IH (ordered_tail _ _ _ Ho)) as Hl. rewrite filter_cons. case_decide; [|done].
  apply ordered_cons; [done|]. intros y [_ Hy]%list_elem_of_filter. by eapply ordered_head.
Qed.

Lemma filter_all (P : nat -> Prop) `{!forall x, Decision (P x)} (l : list nat) : (forall x, x ∈ l -> P x) -> filter P l = l.
Proof. induction l as [|x l IH]; intros Hl; [done|]. rewrite filter_cons_True, IH; [done| |]; intros; apply Hl; set_solver. Qed.

(** ** A list in order as the tree *)

Fixpoint sorted_insert (cmp : nat -> nat -> Z) (x : nat) (l : list nat) : option (list nat) :=
  match l with
  | [] => Some [x]
  | y :: l' => if cmp x y =? 0 then None else if cmp x y <? 0 then Some (x :: l) else cons y <$> sorted_insert cmp x l'
  end.

Fixpoint sorted_lookup (f : nat -> Z) (l : list nat) : option nat :=
  match l with [] => None | x :: l => if f x =? 0 then Some x else sorted_lookup f l end.

#[export] Instance list_Avl : Avl (list nat) :=
  {| tree_Init := []; tree_elements l := l; tree_Insert := sorted_insert; tree_Remove x l := if decide (x ∈ l) then Some (filter (fun y => y <> x) l) else None; tree_GetFirst := head; tree_LookupExact := sorted_lookup |}.

Lemma sorted_insert_ok cmp x l : order_on cmp (fun y => y = x \/ y ∈ l) -> ordered cmp l -> x ∉ l -> exists l', sorted_insert cmp x l = Some l' /\ Permutation l' (x :: l) /\ ordered cmp l'.
Proof.
  induction l as [|y l IH]; intros [H0 H1 H2] Ho Hx.
  { exists [x]. split; [done|]. split; [done|]. apply ordered_cons; [done|set_solver]. }
  cbn [sorted_insert]. destruct (Z.eqb_spec (cmp x y) 0) as [E|E]; [apply H0 in E; set_solver|]. destruct (Z.ltb_spec (cmp x y) 0) as [Hlt|Hge].
  - exists (x :: y :: l). split; [done|]. split; [done|]. apply ordered_cons; [done|]. intros z [->|Hz]%elem_of_cons; [done|]. eapply (H2 x y z); [set_solver..|exact Hlt|]. by eapply ordered_head.
  - destruct IH as (l' & E' & Hp & Ho'); [apply (order_on_sub cmp (fun z => z = x \/ z ∈ y :: l)); [by constructor|set_solver]|by eapply ordered_tail|set_solver|]. exists (y :: l'). rewrite E'. split; [done|]. split; [rewrite Hp; apply perm_swap|]. apply ordered_cons; [done|].
    intros z. rewrite Hp. intros [->|Hz]%elem_of_cons; [apply H1; [set_solver..|lia]|by eapply ordered_head].
Qed.

Lemma sorted_lookup_ok f l : match sorted_lookup f l with Some x => x ∈ l /\ f x = 0 | None => forall x, x ∈ l -> f x <> 0 end.
Proof.
  induction l as [|y l IH]; cbn; [set_solver|]. destruct (Z.eqb_spec (f y) 0); [set_solver|]. destruct (sorted_lookup f l); [set_solver|]. intros x [->|Hx]%elem_of_cons; [done|by apply IH].
Qed.

#[export] Instance list_AvlLaws : AvlLaws (list nat).
Proof.
  refine {| tree_ok := fun _ => True |}; try done.
  - intros f t _ _ _. apply sorted_lookup_ok.
  - intros t x _ _ Hx. cbn. rewrite decide_True by done. eauto.
  - intros cmp t x _ _ Hc Ho Hx. destruct (sorted_insert_ok cmp x t Hc Ho Hx) as (t' & E & H'). by exists t'.
Qed.
