(* ===== verification/Bavl.v ===== *)
(** * Balanced trees of badvpn

    Models badvpn/structure/BAVL.h on a heap of nodes, pointer by pointer: each node has its
    parent, two links and a balance factor.  (structure/CAvl_impl.h is the same algorithm as
    a template.)  A read or a write through a pointer that is not a node of the heap, and a
    violated assertion, fail ([None]).  The loops and the recursion take fuel.

    The keys are in the objects that contain the nodes, so the comparisons are arguments. *)

From S2P Require Import Prelude.

(** ** Memory *)

Record BAVLNode := mkNode { parent : option nat; link0 : option nat; link1 : option nat; balance : Z }.

(** The nodes, and the root. *)
Record BAVL := mkTree { heap : gmap nat BAVLNode; root : option nat }.

Definition M (A : Type) : Type := BAVL -> option (A * BAVL).
#[global] Instance M_ret : MRet M := fun A a st => Some (a, st).
#[global] Instance M_bind : MBind M := fun A B f m st => match m st with Some (a, st') => f a st' | None => None end.

Definition crash {A} : M A := fun _ => None.
Definition ASSERT (c : bool) : M unit := if c then mret tt else crash.
Definition load {A} (f : BAVLNode -> A) (p : nat) : M A := fun st => match heap st !! p with Some n => Some (f n, st) | None => None end.
Definition store (f : BAVLNode -> BAVLNode) (p : nat) : M unit := fun st =>
  match heap st !! p with Some n => Some (tt, mkTree (<[p := f n]> (heap st)) (root st)) | None => None end.

Definition get_root : M (option nat) := fun st => Some (root st, st).
Definition set_root (v : option nat) : M unit := fun st => Some (tt, mkTree (heap st) v).
Definition get_parent : nat -> M (option nat) := load parent.
Definition set_parent (p : nat) (v : option nat) : M unit := store (fun n => mkNode v (link0 n) (link1 n) (balance n)) p.
Definition link (side : bool) (n : BAVLNode) : option nat := if side then link1 n else link0 n.
Definition get_link (side : bool) : nat -> M (option nat) := load (link side).
Definition set_link (side : bool) (p : nat) (v : option nat) : M unit :=
  store (fun n => if side then mkNode (parent n) (link0 n) v (balance n) else mkNode (parent n) v (link1 n) (balance n)) p.
Definition get_balance : nat -> M Z := load balance.
Definition set_balance (p : nat) (v : Z) : M unit := store (fun n => mkNode (parent n) (link0 n) (link1 n) v) p.

(** A pointer that is followed. *)
Definition deref (p : option nat) : M nat := match p with Some x => mret x | None => crash end.
(** [if (p) p->parent = v]. *)
Definition reparent (p : option nat) (v : option nat) : M unit := match p with Some x => set_parent x v | None => mret tt end.
(** [n == p->link[1]]. *)
Definition is_right (n p : nat) : M bool := r ← get_link true p; mret (bool_decide (r = Some n)).
(** [p->link[n == p->link[1]] = v], or the root when there is no [p]. *)
Definition set_child (p : option nat) (n : nat) (v : option nat) : M unit :=
  match p with Some p => side ← is_right n p; set_link side p v | None => set_root v end.

Definition BAVL_MAX (a b : Z) : Z := if b <? a then a else b.
Definition BAVL_OPTNEG (a : Z) (neg : bool) : Z := if neg then - a else a.

(** [c]: the result of the comparator. *)
Definition _BAVL_compare_values (c : Z) : M Z := ASSERT ((c =? -1) || (c =? 0) || (c =? 1));; mret c.

(** ** Rearranging *)

Definition _BAVL_rotate (r : nat) (dir : bool) : M unit :=
  nr ← get_link (negb dir) r; nr ← deref nr;
  m ← get_link dir nr;
  set_link (negb dir) r m;;
  reparent m (Some r);;
  set_link dir nr (Some r);;
  p ← get_parent r;
  set_parent nr p;;
  set_child p r (Some nr);;
  set_parent r (Some nr).

Fixpoint _BAVL_subtree_max (fuel : nat) (n : nat) : M nat :=
  match fuel with
  | O => crash
  | S fuel => r ← get_link true n; match r with Some r => _BAVL_subtree_max fuel r | None => mret n end
  end.

Definition _BAVL_replace_subtree (dest : nat) (n : option nat) : M unit :=
  p ← get_parent dest;
  set_child p dest n;;
  p ← get_parent dest;
  reparent n p.

(** [n1] above [n2], which is its child. *)
Definition swap_adjacent (n1 n2 : nat) : M unit :=
  side ← is_right n2 n1;
  c ← get_link (negb side) n1;
  l ← get_link false n2; set_link false n1 l;; reparent l (Some n1);;
  r ← get_link true n2; set_link true n1 r;; reparent r (Some n1);;
  p ← get_parent n1; set_parent n2 p;; set_child p n1 (Some n2);;
  set_link side n2 (Some n1);;
  set_parent n1 (Some n2);;
  set_link (negb side) n2 c;; reparent c (Some n2).

Definition swap_apart (n1 n2 : nat) : M unit :=
  temp ← get_parent n1;
  p2 ← get_parent n2; set_parent n1 p2;; set_child p2 n2 (Some n1);;
  set_parent n2 temp;; set_child temp n1 (Some n2);;
  temp ← get_link false n1;
  l ← get_link false n2; set_link false n1 l;; reparent l (Some n1);;
  set_link false n2 temp;; reparent temp (Some n2);;
  temp ← get_link true n1;
  r ← get_link true n2; set_link true n1 r;; reparent r (Some n1);;
  set_link true n2 temp;; reparent temp (Some n2).

Definition _BAVL_swap_nodes (n1 n2 : nat) : M unit :=
  p1 ← get_parent n1; p2 ← get_parent n2;
  '(n1, n2) ← (if bool_decide (p2 = Some n1) || bool_decide (p1 = Some n2) then
      let ns := if bool_decide (p1 = Some n2) then (n2, n1) else (n1, n2) in
      swap_adjacent ns.1 ns.2;; mret ns
    else swap_apart n1 n2;; mret (n1, n2));
  b1 ← get_balance n1; b2 ← get_balance n2;
  set_balance n1 b2;; set_balance n2 b1.

(** The transformations at a node whose balance is 2 or -2; the result: the new root of the
    subtree, and the change of its height. *)
Definition transform (node : nat) (bside : bool) (delta : Z) : M (nat * Z) :=
  let bsidef := if bside then 1 else -1 in
  child ← get_link bside node; child ← deref child;
  cb ← get_balance child;
  if cb * bsidef =? 1 then
    _BAVL_rotate node (negb bside);;
    set_balance node 0;; set_balance child 0;;
    mret (child, delta - 1)
  else if cb * bsidef =? 0 then
    _BAVL_rotate node (negb bside);;
    set_balance node (1 * bsidef);; set_balance child (-1 * bsidef);;
    mret (child, delta)
  else if cb * bsidef =? -1 then
    gchild ← get_link (negb bside) child; gchild ← deref gchild;
    _BAVL_rotate child bside;;
    _BAVL_rotate node (negb bside);;
    gb ← get_balance gchild;
    set_balance node (- BAVL_MAX 0 (gb * bsidef) * bsidef);;
    set_balance child (BAVL_MAX 0 (- gb * bsidef) * bsidef);;
    set_balance gchild 0;;
    mret (gchild, delta - 1)
  else crash.

Fixpoint _BAVL_rebalance (fuel : nat) (node : nat) (side : bool) (deltac : Z) : M unit :=
  match fuel with
  | O => crash
  | S fuel =>
      b ← get_balance node;
      ASSERT ((-1 <=? deltac) && (deltac <=? 1));; ASSERT ((-1 <=? b) && (b <=? 1));;
      if deltac =? 0 then mret tt else
      let delta := BAVL_MAX deltac (BAVL_OPTNEG b side) - BAVL_MAX 0 (BAVL_OPTNEG b side) in
      ASSERT ((-1 <=? delta) && (delta <=? 1));;
      let b := b - BAVL_OPTNEG deltac side in
      set_balance node b;;
      '(node, delta) ← (if (b =? 2) || (b =? -2) then transform node (b =? 2) delta else mret (node, delta));
      ASSERT ((-1 <=? delta) && (delta <=? 1));;
      p ← get_parent node;
      match p with
      | Some p => side ← is_right node p; _BAVL_rebalance fuel p side delta
      | None => mret tt
      end
  end.

(** ** Operations *)

Definition BAVL_Init : BAVL := mkTree ∅ None.

(** The node at which to insert and the side, or the node that compares equal. *)
Fixpoint insert_position (fuel : nat) (cmp : nat -> Z) (c : nat) : M (nat * option bool) :=
  match fuel with
  | O => crash
  | S fuel =>
      comp ← _BAVL_compare_values (cmp c);
      if comp =? 0 then mret (c, None) else
      let side := comp =? 1 in
      l ← get_link side c;
      match l with Some c => insert_position fuel cmp c | None => mret (c, Some side) end
  end.

(** Memory that holds a new node. *)
Definition init_node (node : nat) (n : BAVLNode) : M unit := fun st => Some (tt, mkTree (<[node := n]> (heap st)) (root st)).

(** The result: 1, or 0 with the node that compares equal. *)
Definition BAVL_Insert (fuel : nat) (cmp : nat -> nat -> Z) (node : nat) : M (Z * option nat) :=
  r ← get_root;
  match r with
  | None => set_root (Some node);; init_node node (mkNode None None None 0);; mret (1, None)
  | Some c =>
      '(c, side) ← insert_position fuel (cmp node) c;
      match side with
      | None => mret (0, Some c)
      | Some side =>
          set_link side c (Some node);;
          init_node node (mkNode (Some c) None None 0);;
          _BAVL_rebalance fuel c side 1;;
          mret (1, Some c)
      end
  end.

(** [BAVL_Remove], once the node has a child at most. *)
Definition unlink (fuel : nat) (node : nat) : M unit :=
  l ← get_link false node; r ← get_link true node;
  ASSERT (bool_decide (l = None) || bool_decide (r = None));;
  p ← get_parent node;
  let child := match l with Some l => Some l | None => r end in
  match p with
  | Some p => side ← is_right node p; _BAVL_replace_subtree node child;; _BAVL_rebalance fuel p side (-1)
  | None => _BAVL_replace_subtree node child
  end.

Definition BAVL_Remove (fuel : nat) (node : nat) : M unit :=
  l ← get_link false node; r ← get_link true node;
  (match l, r with
   | Some l, Some _ => max ← _BAVL_subtree_max fuel l; _BAVL_swap_nodes node max
   | _, _ => mret tt
   end);;
  unlink fuel node.

Definition BAVL_IsEmpty (o : BAVL) : bool := bool_decide (root o = None).

(** The loop of both lookups; [exact]: of [BAVL_LookupExact]. *)
Fixpoint lookup_loop (fuel : nat) (exact : bool) (cmp : nat -> Z) (c : nat) : M (option nat) :=
  match fuel with
  | O => crash
  | S fuel =>
      comp ← _BAVL_compare_values (cmp c);
      if comp =? 0 then mret (Some c) else
      let side := comp =? 1 in
      l ← get_link side c;
      match l with Some c => lookup_loop fuel exact cmp c | None => mret (if exact then None else Some c) end
  end.

Definition BAVL_Lookup (fuel : nat) (cmp : nat -> Z) : M (option nat) :=
  r ← get_root; match r with None => mret None | Some c => lookup_loop fuel false cmp c end.
Definition BAVL_LookupExact (fuel : nat) (cmp : nat -> Z) : M (option nat) :=
  r ← get_root; match r with None => mret None | Some c => lookup_loop fuel true cmp c end.

(** The last node in one direction. *)
Fixpoint descend (fuel : nat) (side : bool) (n : nat) : M nat :=
  match fuel with
  | O => crash
  | S fuel => l ← get_link side n; match l with Some l => descend fuel side l | None => mret n end
  end.

Definition BAVL_GetFirst (fuel : nat) : M (option nat) :=
  r ← get_root; match r with None => mret None | Some n => n ← descend fuel false n; mret (Some n) end.
Definition BAVL_GetLast (fuel : nat) : M (option nat) :=
  r ← get_root; match r with None => mret None | Some n => n ← descend fuel true n; mret (Some n) end.

(** Up while the node is the child on [side], and once more. *)
Fixpoint ascend (fuel : nat) (side : bool) (n : nat) : M (option nat) :=
  match fuel with
  | O => crash
  | S fuel =>
      p ← get_parent n;
      match p with
      | None => mret None
      | Some p => l ← get_link side p; if bool_decide (l = Some n) then ascend fuel side p else mret (Some p)
      end
  end.

Definition BAVL_GetNext (fuel : nat) (n : nat) : M (option nat) :=
  r ← get_link true n;
  match r with Some r => n ← descend fuel false r; mret (Some n) | None => ascend fuel true n end.
Definition BAVL_GetPrev (fuel : nat) (n : nat) : M (option nat) :=
  l ← get_link false n;
  match l with Some l => n ← descend fuel true l; mret (Some n) | None => ascend fuel false n end.

(** [BAVL_Verify]; the result is the height. *)
Fixpoint _BAVL_assert_recurser (fuel : nat) (cmp : nat -> nat -> Z) (n : nat) : M Z :=
  match fuel with
  | O => crash
  | S fuel =>
      b ← get_balance n; ASSERT (-1 <=? b);; ASSERT (b <=? 1);;
      l ← get_link false n;
      hl ← (match l with
            | Some l => p ← get_parent l; ASSERT (bool_decide (p = Some n));; c ← _BAVL_compare_values (cmp l n); ASSERT (c =? -1);; _BAVL_assert_recurser fuel cmp l
            | None => mret 0
            end);
      r ← get_link true n;
      hr ← (match r with
            | Some r => p ← get_parent r; ASSERT (bool_decide (p = Some n));; c ← _BAVL_compare_values (cmp r n); ASSERT (c =? 1);; _BAVL_assert_recurser fuel cmp r
            | None => mret 0
            end);
      ASSERT (b =? hr - hl);;
      mret (BAVL_MAX hl hr + 1)
  end.

Definition BAVL_Verify (fuel : nat) (cmp : nat -> nat -> Z) : M unit :=
  r ← get_root;
  match r with
  | Some r => p ← get_parent r; ASSERT (bool_decide (p = None));; _BAVL_assert_recurser fuel cmp r;; mret tt
  | None => mret tt
  end.
