(* ===== verification/BavlSpec.v ===== *)
(** * Balanced trees of badvpn: correctness

    The pointer code of [Bavl] implements balanced trees: [wf st t] relates the memory to a tree
    of addresses.  This file has the logic of the memory, the rotations, the rebalancing, the
    search and the insertion. *)

From S2P Require Import Prelude Avl Bavl.

(** ** Execution *)

Definition spec {A} (m : M A) (st : BAVL) (P : A -> BAVL -> Prop) : Prop := match m st with Some (a, st') => P a st' | None => False end.

Lemma bavl_spec_ret {A} (a : A) st (P : A -> BAVL -> Prop) : P a st -> spec (mret a) st P.
Proof. done. Qed.
Lemma bavl_spec_bind {A B} (m : M A) (f : A -> M B) st P : spec m st (fun a st' => spec (f a) st' P) -> spec (m ≫= f) st P.
Proof. unfold spec, mbind, M_bind. destruct (m st) as [[a st']|]; done. Qed.
Lemma spec_bind_inv {A B} (m : M A) (f : A -> M B) st P : spec (m ≫= f) st P -> spec m st (fun a st' => spec (f a) st' P).
Proof. unfold spec, mbind, M_bind. destruct (m st) as [[a st']|]; done. Qed.
Lemma bavl_spec_mono {A} (m : M A) st (P P' : A -> BAVL -> Prop) : spec m st P -> (forall a st', P a st' -> P' a st') -> spec m st P'.
Proof. unfold spec. destruct (m st) as [[a st']|]; auto. Qed.
Lemma spec_load {A} (f : BAVLNode -> A) p st n (P : A -> BAVL -> Prop) : heap st !! p = Some n -> P (f n) st -> spec (load f p) st P.
Proof. intros Hn HP. unfold spec, load. by rewrite Hn. Qed.
Lemma spec_store f p st n (P : unit -> BAVL -> Prop) : heap st !! p = Some n -> P tt (mkTree (<[p := f n]> (heap st)) (root st)) -> spec (store f p) st P.
Proof. intros Hn HP. unfold spec, store. by rewrite Hn. Qed.
Lemma spec_set_root v st (P : unit -> BAVL -> Prop) : P tt (mkTree (heap st) v) -> spec (set_root v) st P.
Proof. done. Qed.
Lemma spec_get_root st (P : option nat -> BAVL -> Prop) : P (root st) st -> spec get_root st P.
Proof. done. Qed.
Lemma spec_assert b st (P : unit -> BAVL -> Prop) : b = true -> P tt st -> spec (ASSERT b) st P.
Proof. by intros ->. Qed.

(** ** Trees of addresses *)

Inductive tree := E | T (b : Z) (l : tree) (a : nat) (r : tree).

Definition root_of (t : tree) : option nat := match t with E => None | T _ _ a _ => Some a end.
Fixpoint height (t : tree) : nat := match t with E => 0%nat | T _ l _ r => S (Nat.max (height l) (height r)) end.
Fixpoint inorder (t : tree) : list nat := match t with E => [] | T _ l a r => inorder l ++ a :: inorder r end.

(** [t] is in memory, and the parent of its root is [p]. *)
Fixpoint rep (h : gmap nat BAVLNode) (t : tree) (p : option nat) : Prop :=
  match t with
  | E => True
  | T b l a r => h !! a = Some (mkNode p (root_of l) (root_of r) b) /\ rep h l (Some a) /\ rep h r (Some a)
  end.

(** A tree with a hole: the path from the hole to the root, [true] for the right side. *)
Record frame := mkFrame { f_side : bool; f_b : Z; f_a : nat; f_t : tree }.
Definition ctx := list frame.

Definition fill (f : frame) (t : tree) : tree := if f_side f then T (f_b f) (f_t f) (f_a f) t else T (f_b f) t (f_a f) (f_t f).
Fixpoint plug (k : ctx) (t : tree) : tree := match k with [] => t | f :: k => plug k (fill f t) end.

(** The parent of the hole, when that of the whole is [pt]. *)
Definition top (pt : option nat) (k : ctx) : option nat := match k with [] => pt | f :: _ => Some (f_a f) end.

Fixpoint pre (k : ctx) : list nat := match k with [] => [] | f :: k => if f_side f then pre k ++ inorder (f_t f) ++ [f_a f] else pre k end.
Fixpoint post (k : ctx) : list nat := match k with [] => [] | f :: k => if f_side f then post k else f_a f :: inorder (f_t f) ++ post k end.

Definition frame_node (p hole : option nat) (f : frame) : BAVLNode :=
  if f_side f then mkNode p (root_of (f_t f)) hole (f_b f) else mkNode p hole (root_of (f_t f)) (f_b f).

(** The context is in memory: [rp] points to the whole, [hole] is in the hole. *)
Fixpoint repk (h : gmap nat BAVLNode) (pt rp : option nat) (k : ctx) (hole : option nat) : Prop :=
  match k with
  | [] => rp = hole
  | f :: k => h !! f_a f = Some (frame_node (top pt k) hole f) /\ rep h (f_t f) (Some (f_a f)) /\ repk h pt rp k (Some (f_a f))
  end.

Definition wf (st : BAVL) (t : tree) : Prop := rep (heap st) t None /\ root st = root_of t.

Lemma bavl_inorder_plug k t : inorder (plug k t) = pre k ++ inorder t ++ post k.
Proof.
  revert t. induction k as [|[[] b a u] k IH]; intros t; cbn; [by rewrite app_nil_r| |]; rewrite IH; cbn; rewrite <- ?app_assoc; done.
Qed.

Lemma bavl_rep_plug h k t pt rp : rep h (plug k t) pt /\ rp = root_of (plug k t) <-> rep h t (top pt k) /\ repk h pt rp k (root_of t).
Proof.
  revert t. induction k as [|[[] b a u] k IH]; intros t; cbn [plug top repk]; [done| |]; rewrite IH; cbn; tauto.
Qed.

Lemma bavl_wf_plug st k t : wf st (plug k t) <-> rep (heap st) t (top None k) /\ repk (heap st) None (root st) k (root_of t).
Proof. apply bavl_rep_plug. Qed.

Lemma bavl_plug_app k1 k2 t : plug (k1 ++ k2) t = plug k2 (plug k1 t).
Proof. revert t. induction k1 as [|f k1 IH]; intros t; cbn; [done|apply IH]. Qed.

Lemma bavl_pre_app k1 k2 : pre (k1 ++ k2) = pre k2 ++ pre k1.
Proof. induction k1 as [|[[] b a u] k1 IH]; cbn; rewrite ?IH, ?app_nil_r, ?app_assoc; done. Qed.
Lemma bavl_post_app k1 k2 : post (k1 ++ k2) = post k1 ++ post k2.
Proof. induction k1 as [|[[] b a u] k1 IH]; cbn; rewrite ?IH, <- ?app_assoc; done. Qed.

(** ** Memory that agrees *)

Lemma bavl_rep_agree h h' t p : (forall q, q ∈ inorder t -> h' !! q = h !! q) -> rep h t p -> rep h' t p.
Proof.
  revert p. induction t as [|b l IHl a r IHr]; intros p Hq; cbn [rep inorder] in *; [done|]. intros (Ha & Hl & Hr). split_and!.
  - rewrite Hq; [done|]. set_solver.
  - apply IHl; [|done]. set_solver.
  - apply IHr; [|done]. set_solver.
Qed.

Lemma bavl_repk_agree h h' pt rp k hole : (forall q, q ∈ pre k ++ post k -> h' !! q = h !! q) -> repk h pt rp k hole -> repk h' pt rp k hole.
Proof.
  revert hole. induction k as [|[[] b a u] k IH]; intros hole Hq; cbn [repk pre post f_side f_a f_t f_b] in *; [done| |]; intros (Ha & Hu & Hk);
    (split_and!; [rewrite Hq; [done|set_solver]|eapply bavl_rep_agree; [|done]; set_solver|apply IH; [set_solver|done]]).
Qed.

Lemma bavl_rep_insert h t p a n : a ∉ inorder t -> rep h t p -> rep (<[a := n]> h) t p.
Proof. intros Ha. apply bavl_rep_agree. intros q Hq. rewrite lookup_insert_ne; [done|]. by intros ->. Qed.
Lemma bavl_repk_insert h pt rp k hole a n : a ∉ pre k -> a ∉ post k -> repk h pt rp k hole -> repk (<[a := n]> h) pt rp k hole.
Proof. intros H1 H2. apply bavl_repk_agree. intros q Hq. rewrite lookup_insert_ne; [done|]. intros ->. apply elem_of_app in Hq. tauto. Qed.

(** Split what is known of distinct addresses into atoms. *)
Ltac nodup := cbn [inorder pre post f_side f_a f_t f_b] in *; nodup_atoms.

(** Symbolic execution in a memory given by updates. *)
Ltac look := cbn [heap root]; first [eassumption | rewrite lookup_insert_eq; reflexivity | rewrite lookup_insert_ne by congruence; look].
Ltac unfold_ops :=
  match goal with
  | |- spec (get_parent _) _ _ => unfold get_parent
  | |- spec (set_parent _ _) _ _ => unfold set_parent
  | |- spec (get_link _ _) _ _ => unfold get_link
  | |- spec (set_link _ _ _) _ _ => unfold set_link
  | |- spec (get_balance _) _ _ => unfold get_balance
  | |- spec (set_balance _ _) _ _ => unfold set_balance
  | |- spec (is_right _ _) _ _ => unfold is_right
  | |- spec (reparent (Some _) _) _ _ => unfold reparent
  | |- spec (reparent None _) _ _ => unfold reparent
  | |- spec (deref (Some _)) _ _ => unfold deref
  | |- spec (set_child (Some _) _ _) _ _ => unfold set_child
  | |- spec (set_child None _ _) _ _ => unfold set_child
  end.
Ltac ex1 :=
  match goal with
  | |- spec (_ ≫= _) _ _ => apply bavl_spec_bind
  | |- spec (mret _) _ _ => apply bavl_spec_ret
  | |- spec (load _ _) _ _ => eapply spec_load; [look|]
  | |- spec (store _ _) _ _ => eapply spec_store; [look|]
  | |- spec (set_root _) _ _ => apply spec_set_root
  | |- spec get_root _ _ => apply spec_get_root
  | _ => unfold_ops
  end; cbn [parent link0 link1 balance link heap root fst snd negb root_of frame_node f_side f_a f_t f_b top].
Ltac decided :=
  match goal with
  | |- context [bool_decide (Some ?a = Some ?a)] => rewrite (bool_decide_true (Some a = Some a)) by reflexivity
  | |- context [bool_decide (?a = ?b)] => rewrite (bool_decide_false (a = b)) by congruence
  end; cbn [orb negb parent link0 link1 balance link].
Ltac ex := repeat first [ex1 | decided; cbn beta iota].

(** Establish [rep] in an updated memory. *)
Ltac reps :=
  cbn [rep repk heap root root_of top frame_node f_side f_a f_t f_b];
  repeat match goal with
  | |- _ /\ _ => split
  | |- True => exact I
  | |- _ !! _ = Some _ => look
  | |- rep (<[_ := _]> _) _ _ => apply bavl_rep_insert; [assumption|]
  | |- repk (<[_ := _]> _) _ _ _ _ => apply bavl_repk_insert; [assumption|assumption|]
  | |- rep _ _ _ => eassumption
  | |- repk _ _ _ _ _ => eassumption
  | |- ?a = ?a => reflexivity
  end.

(** ** One node *)

(** A node with [t] on side [s] and [u] on the other. *)
Definition N (s : bool) (b : Z) (t : tree) (a : nat) (u : tree) : tree := if s then T b u a t else T b t a u.

Lemma plug_cons s b a t u k : plug (mkFrame s b a u :: k) t = plug k (N s b t a u).
Proof. by destruct s. Qed.

Lemma root_of_N s b t a u : root_of (N s b t a u) = Some a.
Proof. by destruct s. Qed.

Lemma N_negb s b t a u : N (negb s) b t a u = N s b u a t.
Proof. by destruct s. Qed.

(** Reading the fields of a node. *)
Lemma read_node st k s b t a u : wf st (plug k (N s b t a u)) ->
  heap st !! a = Some (if s then mkNode (top None k) (root_of u) (root_of t) b else mkNode (top None k) (root_of t) (root_of u) b).
Proof. rewrite bavl_wf_plug. destruct s; cbn; tauto. Qed.

Lemma get_balance_ok st k s b t a u : wf st (plug k (N s b t a u)) -> spec (get_balance a) st (fun v st' => v = b /\ st' = st).
Proof. intros Hw%read_node. unfold get_balance. eapply spec_load; [exact Hw|]. by destruct s. Qed.
Lemma get_parent_ok st k s b t a u : wf st (plug k (N s b t a u)) -> spec (get_parent a) st (fun v st' => v = top None k /\ st' = st).
Proof. intros Hw%read_node. unfold get_parent. eapply spec_load; [exact Hw|]. by destruct s. Qed.
Lemma get_link_ok st k s b t a u : wf st (plug k (N s b t a u)) -> spec (get_link s a) st (fun v st' => v = root_of t /\ st' = st).
Proof. intros Hw%read_node. unfold get_link. eapply spec_load; [exact Hw|]. by destruct s. Qed.

Lemma set_balance_ok st k s b b' t a u : wf st (plug k (N s b t a u)) -> NoDup (inorder (plug k (N s b t a u))) ->
  spec (set_balance a b') st (fun _ st' => wf st' (plug k (N s b' t a u))).
Proof.
  rewrite bavl_inorder_plug, bavl_wf_plug. intros [Ht Hk] Hnd. destruct s; cbn [N rep root_of] in *; destruct Ht as (Ha & Hl & Hr); nodup; ex; apply bavl_wf_plug; reps.
Qed.

(** Which side a node is on. *)
Lemma is_right_ok st f k t : wf st (plug (f :: k) t) -> NoDup (inorder (plug (f :: k) t)) -> t <> E ->
  forall x, root_of t = Some x -> spec (is_right x (f_a f)) st (fun v st' => v = f_side f /\ st' = st).
Proof.
  rewrite bavl_inorder_plug, bavl_wf_plug. intros [Ht Hk] Hnd Hne x Hx. cbn [repk] in Hk. destruct Hk as (Ha & Hu & Hk). unfold is_right. apply bavl_spec_bind. unfold get_link. eapply spec_load; [exact Ha|]. apply bavl_spec_ret. split; [|done].
  destruct f as [[] b a u]; cbn [frame_node link link1 f_side f_t]; [by rewrite bool_decide_true|]. apply bool_decide_eq_false. intros E1. destruct t as [|bt l y r]; [done|]. cbn in Hx. injection Hx as ->. destruct u as [|bu ul z ur]; [done|]. cbn in E1. injection E1 as ->. nodup. done.
Qed.

(** Replacing what is in the hole. *)
Lemma set_child_ok st k x v : repk (heap st) None (root st) k (Some x) -> x ∉ pre k -> x ∉ post k -> NoDup (pre k ++ post k) ->
  spec (set_child (top None k) x v) st (fun _ st' => repk (heap st') None (root st') k v /\ forall q, top None k <> Some q -> heap st' !! q = heap st !! q).
Proof.
  intros Hk H1 H2 Hnd. destruct k as [|[[] b a u] k]; cbn [top] in *.
  - cbn in *. split; done.
  - cbn [repk f_a f_t] in Hk. destruct Hk as (Ha & Hu & Hk). nodup. ex. split; [reps|]. intros q Hq. cbn. rewrite lookup_insert_ne by congruence. done.
  - cbn [repk f_a f_t] in Hk. destruct Hk as (Ha & Hu & Hk). nodup. assert (Hne : root_of u <> Some x) by (destruct u; cbn in *; nodup; congruence). ex. split; [reps|]. intros q Hq. cbn. rewrite lookup_insert_ne by congruence. done.
Qed.

(** A subtree gets another parent. *)
Lemma reparent_ok st t p p' : rep (heap st) t p -> NoDup (inorder t) ->
  spec (reparent (root_of t) p') st (fun _ st' => rep (heap st') t p' /\ root st' = root st /\ forall q, root_of t <> Some q -> heap st' !! q = heap st !! q).
Proof.
  intros Ht Hnd. destruct t as [|b l a r]; cbn [root_of rep] in *; [done|]. destruct Ht as (Ha & Hl & Hr). nodup. ex. split; [reps|]. split; [done|]. intros q Hq. cbn. rewrite lookup_insert_ne by congruence. done.
Qed.

(** ** Rotation *)

Lemma rotate_ok st k s b b' t c m r u : wf st (plug k (N s b (N s b' t c m) r u)) -> NoDup (inorder (plug k (N s b (N s b' t c m) r u))) ->
  spec (_BAVL_rotate r (negb s)) st (fun _ st' => wf st' (plug k (N s b' t c (N s b m r u)))).
Proof.
  rewrite bavl_inorder_plug, bavl_wf_plug. intros [Ht Hk] Hnd. unfold _BAVL_rotate.
  destruct s; cbn [N rep root_of negb] in *; destruct Ht as (Hr & H1 & H2); [destruct H2 as (Hc & Hm & Htt)|destruct H1 as (Hc & Htt & Hm)];
    (destruct m as [|bm ml x mr]; cbn [rep root_of] in *; [|destruct Hm as (Hx & Hml & Hmr)]);
    (destruct k as [|[[] fb fa fu] k]; cbn [repk f_a f_t top] in Hk, Hr; [|destruct Hk as (Hfa & Hfu & Hk)..]); nodup;
    try (assert (Hne : root_of fu <> Some r) by (destruct fu; cbn in *; nodup; congruence)); ex; apply bavl_wf_plug; reps.
Qed.

(** In memory, with distinct addresses. *)
Definition good (st : BAVL) (t : tree) : Prop := wf st t /\ NoDup (inorder t).

Lemma inorder_N s b t a u : inorder (N s b t a u) = if s then inorder u ++ a :: inorder t else inorder t ++ a :: inorder u.
Proof. by destruct s. Qed.

Lemma good_ext st k t t' : wf st (plug k t') -> inorder t' = inorder t -> NoDup (inorder (plug k t)) -> good st (plug k t').
Proof. intros Hw E Hnd. split; [done|]. by rewrite bavl_inorder_plug, E, <- bavl_inorder_plug. Qed.

Lemma rotate_good st k s b b' t c m r u : good st (plug k (N s b (N s b' t c m) r u)) -> spec (_BAVL_rotate r (negb s)) st (fun _ st' => good st' (plug k (N s b' t c (N s b m r u)))).
Proof.
  intros [Hw Hnd]. eapply bavl_spec_mono; [by apply rotate_ok|]. cbn. intros _ st' Hw'. eapply good_ext; [done| |exact Hnd]. rewrite !inorder_N. destruct s; cbn [N inorder]; rewrite <- ?app_assoc; done.
Qed.

Lemma set_balance_good st k s b b' t a u : good st (plug k (N s b t a u)) -> spec (set_balance a b') st (fun _ st' => good st' (plug k (N s b' t a u))).
Proof. intros [Hw Hnd]. eapply bavl_spec_mono; [by eapply set_balance_ok|]. cbn. intros _ st' Hw'. eapply good_ext; [done| |exact Hnd]. by destruct s. Qed.

(** One step of a program by its specification. *)
Ltac step L := apply bavl_spec_bind; eapply bavl_spec_mono; [eapply L; eassumption|]; cbn beta.

(** ** Balance *)

Inductive avl : Z -> tree -> Prop :=
  | avl_E : avl 0 E
  | avl_T hl hr b l a r : avl hl l -> avl hr r -> b = hr - hl -> -1 <= b <= 1 -> avl (1 + Z.max hl hr) (T b l a r).

Lemma avl_nonneg h t : avl h t -> 0 <= h.
Proof. induction 1; lia. Qed.

Lemma avl_N h1 h2 (s : bool) b t a u : avl h1 t -> avl h2 u -> b = (if s then h1 - h2 else h2 - h1) -> -1 <= b <= 1 -> avl (1 + Z.max h1 h2) (N s b t a u).
Proof. intros H1 H2 Hb Hr. destruct s; cbn; [rewrite Z.max_comm|]; by constructor. Qed.

Lemma avl_N_inv h (s : bool) b t a u : avl h (N s b t a u) -> exists h1 h2, h = 1 + Z.max h1 h2 /\ avl h1 t /\ avl h2 u /\ b = (if s then h1 - h2 else h2 - h1) /\ -1 <= b <= 1.
Proof. destruct s; cbn; intros H; inversion H; subst; [exists hr, hl|exists hl, hr]; (split; [lia|]; done). Qed.

Lemma avl_pos h t s : avl h t -> 0 < h -> exists b t1 a t2, t = N s b t1 a t2.
Proof. intros [|hl hr b l a r]; [lia|]. intros. destruct s; [exists b, r, a, l|exists b, l, a, r]; done. Qed.

(** What [transform] does to an unbalanced node: the balance is restored, and the second result
    is the change of the height. *)
Lemma transform_ok st k (s : bool) t a u h delta : good st (plug k (N s (if s then 2 else -2) t a u)) -> avl h t -> avl (h - 2) u ->
  spec (transform a s delta) st (fun res st' => exists t' H, good st' (plug k t') /\ inorder t' = inorder (N s (if s then 2 else -2) t a u) /\ root_of t' = Some res.1 /\ avl H t' /\ res.2 = delta + H - (1 + h) /\ h <= H <= 1 + h).
Proof.
  intros Hg Ht Hu. set (b := if s then 2 else -2) in *. pose proof (avl_nonneg _ _ Hu) as Hn. destruct (avl_pos h t s Ht ltac:(lia)) as (cb & t1 & c & t2 & ->).
  destruct (avl_N_inv _ _ _ _ _ _ Ht) as (h1 & h2 & -> & H1 & H2 & Hcb & Hr). unfold transform. pose proof (proj1 Hg) as Hw.
  step get_link_ok. intros v st1 [-> ->]. rewrite root_of_N. apply bavl_spec_bind, bavl_spec_ret. pose proof Hw as Hwc. rewrite <- plug_cons in Hwc. step get_balance_ok. intros v st1 [-> ->].
  destruct (Z.eqb_spec (cb * (if s then 1 else -1)) 1) as [E1|E1]; [|destruct (Z.eqb_spec (cb * (if s then 1 else -1)) 0) as [E0|E0]].
  - assert (Hh : h1 = h2 + 1) by (destruct s; lia). step rotate_good. intros _ st1 Hg1. rewrite <- N_negb, <- plug_cons in Hg1. step set_balance_good. intros _ st2 Hg2. rewrite plug_cons, N_negb in Hg2. step set_balance_good. intros _ st3 Hg3. apply bavl_spec_ret.
    exists (N s 0 t1 c (N s 0 t2 a u)), (1 + Z.max h1 (1 + Z.max h2 (1 + Z.max h1 h2 - 2))). split; [done|]. split; [by destruct s; cbn; rewrite <- ?app_assoc|]. split; [apply root_of_N|]. split; [|cbn; lia].
    apply avl_N; [done|apply avl_N; [done|done| |]|..]; destruct s; lia.
  - assert (Hh : h1 = h2) by (destruct s; lia). step rotate_good. intros _ st1 Hg1. rewrite <- N_negb, <- plug_cons in Hg1. step set_balance_good. intros _ st2 Hg2. rewrite plug_cons, N_negb in Hg2. step set_balance_good. intros _ st3 Hg3. apply bavl_spec_ret.
    exists (N s (-1 * (if s then 1 else -1)) t1 c (N s (1 * (if s then 1 else -1)) t2 a u)), (1 + Z.max h1 (1 + Z.max h2 (1 + Z.max h1 h2 - 2))). split; [done|]. split; [by destruct s; cbn; rewrite <- ?app_assoc|]. split; [apply root_of_N|]. split; [|cbn; lia].
    apply avl_N; [done|apply avl_N; [done|done| |]|..]; destruct s; lia.
  - assert (Hh : h2 = h1 + 1) by (destruct s; lia). destruct (Z.eqb_spec (cb * (if s then 1 else -1)) (-1)) as [_|E2]; [|destruct s; lia]. pose proof (avl_nonneg _ _ H1). destruct (avl_pos h2 t2 (negb s) H2 ltac:(lia)) as (gb & g2 & g & g1 & ->). rewrite <- N_negb in Hwc. step get_link_ok.
    intros v st1 [-> ->]. rewrite root_of_N. apply bavl_spec_bind, bavl_spec_ret. pose proof Hg as Hgc. rewrite <- plug_cons, <- N_negb in Hgc.
    apply bavl_spec_bind. eapply bavl_spec_mono; [pose proof (rotate_good _ _ _ _ _ _ _ _ _ _ Hgc) as Hrot; rewrite negb_involutive in Hrot; exact Hrot|]. cbn beta. intros _ st1 Hg1. rewrite plug_cons, N_negb, N_negb in Hg1. step rotate_good. intros _ st2 Hg2. pose proof (proj1 Hg2) as Hw2. step get_balance_ok. intros v st3 [-> ->].
    rewrite <- N_negb, <- plug_cons in Hg2. step set_balance_good. intros _ st3 Hg3. rewrite plug_cons, N_negb, <- plug_cons in Hg3. step set_balance_good. intros _ st4 Hg4. rewrite plug_cons in Hg4. step set_balance_good. intros _ st5 Hg5. apply bavl_spec_ret.
    destruct (avl_N_inv _ _ _ _ _ _ H2) as (hg2 & hg1 & Eh2 & Hg2' & Hg1' & Hgb & Hgr).
    eexists _, (1 + Z.max (1 + Z.max h1 hg1) (1 + Z.max hg2 (1 + Z.max h1 h2 - 2))). split; [exact Hg5|]. split; [destruct s; cbn; rewrite <- ?app_assoc; cbn; rewrite <- ?app_assoc; done|]. split; [apply root_of_N|]. split; [|cbn; lia].
    unfold BAVL_MAX. apply avl_N; [apply avl_N; [done|done|..]|apply avl_N; [done|done|..]|..]; destruct s; cbn in *; repeat case_match; lia.
Qed.

(** A context that a tree of height [n] fits in. *)
Inductive avlk : ctx -> Z -> Prop :=
  | avlk_nil n : avlk [] n
  | avlk_cons (s : bool) b a u k n hu : avl hu u -> b = (if s then n - hu else hu - n) -> -1 <= b <= 1 -> avlk k (1 + Z.max n hu) -> avlk (mkFrame s b a u :: k) n.

Lemma avl_plug k n t : avlk k n -> avl n t -> exists H, avl H (plug k t).
Proof. intros Hk. revert t. induction Hk as [n|s b a u k n hu Hu Hb Hr Hk IH]; intros t Ht; [eauto|]. rewrite plug_cons. apply IH. by apply avl_N. Qed.

Lemma avl_unplug k t H : avl H (plug k t) -> exists n, avl n t /\ avlk k n.
Proof.
  revert t. induction k as [|[s b a u] k IH]; intros t Ht; [exists H; split; [done|constructor]|]. rewrite plug_cons in Ht. destruct (IH _ Ht) as (n & Hn & Hk). destruct (avl_N_inv _ _ _ _ _ _ Hn) as (h1 & h2 & -> & H1 & H2 & Hb & Hr).
  exists h1. split; [done|]. by econstructor.
Qed.

(** A subtree is replaced by one of the same height. *)
Lemma avl_replug k t t' H : (forall n, avl n t -> avl n t') -> avl H (plug k t) -> avl H (plug k t').
Proof.
  revert t t'. induction k as [|[s b a u] k IH]; intros t t' Ht; [apply Ht|]. rewrite !plug_cons. apply IH. intros n Hn. destruct (avl_N_inv _ _ _ _ _ _ Hn) as (h1 & h2 & -> & H1 & H2 & Hb & Hr). apply avl_N; auto.
Qed.

(** Balanced, and the same sequence. *)
Definition rebalanced (l : list nat) (st : BAVL) : Prop := exists t, good st t /\ inorder t = l /\ exists H, avl H t.

Lemma root_N t x : root_of t = Some x -> exists b l r, t = N false b l x r.
Proof. destruct t as [|b l a r]; [done|]. intros [= ->]. by exists b, l, r. Qed.

(** The work at one node, after the height of the subtree on side [s] has changed by [deltac]. *)
Lemma rebalance_node st k (s : bool) b t a u n0 hu deltac : good st (plug k (N s b t a u)) -> avl (n0 + deltac) t -> avl hu u -> b = (if s then n0 - hu else hu - n0) -> -1 <= b <= 1 -> deltac = 1 \/ deltac = -1 ->
  let delta := BAVL_MAX deltac (BAVL_OPTNEG b s) - BAVL_MAX 0 (BAVL_OPTNEG b s) in
  let b' := b - BAVL_OPTNEG deltac s in
  -1 <= delta <= 1 /\ spec (set_balance a b';; (if (b' =? 2) || (b' =? -2) then transform a (b' =? 2) delta else mret (a, delta))) st
    (fun res st' => exists t' H, good st' (plug k t') /\ inorder t' = inorder (N s b t a u) /\ root_of t' = Some res.1 /\ avl H t' /\ res.2 = H - (1 + Z.max n0 hu) /\ -1 <= res.2 <= 1).
Proof.
  intros Hg Ht Hu Hb Hbr Hd delta b'. set (n := n0 + deltac) in *. pose proof (avl_nonneg _ _ Ht) as Hn. pose proof (avl_nonneg _ _ Hu) as Hhu.
  assert (Hdelta : delta = Z.max n hu - Z.max n0 hu) by (unfold delta, BAVL_MAX, BAVL_OPTNEG, n; destruct s; repeat case_match; lia).
  assert (Hb' : b' = if s then n - hu else hu - n) by (unfold b', BAVL_OPTNEG, n; destruct s; lia).
  assert (Hdn : -1 <= delta <= 1) by (destruct s, Hd; lia). split; [done|]. step set_balance_good. intros _ st1 Hg1.
  assert (Hin : inorder (N s b' t a u) = inorder (N s b t a u)) by (by destruct s).
  assert (Hcase : (b' = (if s then 2 else -2) /\ n = hu + 2) \/ (b' = (if s then -2 else 2) /\ hu = n + 2) \/ -1 <= b' <= 1) by (destruct s, Hd; lia).
  destruct Hcase as [[E En]|[[E En]|Hok]].
  - assert (Et : (if (b' =? 2) || (b' =? -2) then transform a (b' =? 2) delta else mret (a, delta)) = transform a s delta) by (rewrite E; by destruct s). rewrite Et. rewrite E in Hg1. replace hu with (n - 2) in Hu by lia.
    eapply bavl_spec_mono; [by apply (transform_ok st1 k s t a u n delta)|]. cbn beta. intros res st2 (t' & H & Hg2 & Hi & Hr & Ha & E2 & HH). exists t', H. split; [done|]. split; [rewrite Hi, <- Hin, E; done|]. split; [done|]. split; [done|]. destruct s, Hd; lia.
  - assert (Et : (if (b' =? 2) || (b' =? -2) then transform a (b' =? 2) delta else mret (a, delta)) = transform a (negb s) delta) by (rewrite E; by destruct s). rewrite Et. rewrite E, <- N_negb in Hg1. replace (if s then -2 else 2) with (if negb s then 2 else -2) in Hg1 by (by destruct s). replace n with (hu - 2) in Ht by lia.
    eapply bavl_spec_mono; [by apply (transform_ok st1 k (negb s) u a t hu delta)|]. cbn beta. intros res st2 (t' & H & Hg2 & Hi & Hr & Ha & E2 & HH). exists t', H. split; [done|]. split; [rewrite Hi; by destruct s|]. split; [done|]. split; [done|]. destruct s, Hd; lia.
  - assert (Et : (b' =? 2) || (b' =? -2) = false) by (apply orb_false_iff; split; apply Z.eqb_neq; lia). rewrite Et. apply bavl_spec_ret. exists (N s b' t a u), (1 + Z.max n hu). split; [done|]. split; [done|]. split; [apply root_of_N|]. split; [by apply avl_N|]. cbn. lia.
Qed.

Lemma rebalance_ok k : forall fuel st (s : bool) b t a u n0 hu deltac, good st (plug k (N s b t a u)) -> avl (n0 + deltac) t -> avl hu u -> b = (if s then n0 - hu else hu - n0) -> -1 <= b <= 1 ->
  avlk k (1 + Z.max n0 hu) -> -1 <= deltac <= 1 -> (length k < fuel)%nat -> spec (_BAVL_rebalance fuel a s deltac) st (fun _ st' => rebalanced (inorder (plug k (N s b t a u))) st').
Proof.
  induction k as [|f k IH]; intros fuel st s b t a u n0 hu deltac Hg Ht Hu Hb Hbr Hk Hd Hfuel; (destruct fuel as [|fuel]; [cbn in Hfuel; lia|]); cbn [_BAVL_rebalance]; pose proof (proj1 Hg) as Hw;
    (step get_balance_ok; intros v st1 [-> ->]); (apply bavl_spec_bind, spec_assert; [apply andb_true_iff; lia|]); (apply bavl_spec_bind, spec_assert; [apply andb_true_iff; lia|]);
    (destruct (Z.eqb_spec deltac 0) as [E0|E0]; [apply bavl_spec_ret; subst deltac; rewrite Z.add_0_r in Ht; eexists; split; [exact Hg|]; split; [done|]; eapply avl_plug; [exact Hk|by apply avl_N]|]);
    (destruct (rebalance_node st _ s b t a u n0 hu deltac Hg Ht Hu Hb Hbr ltac:(lia)) as [Hdelta Hnode]; apply bavl_spec_bind, spec_assert; [apply andb_true_iff; lia|]).
  all: apply bavl_spec_bind; eapply bavl_spec_mono; [exact (spec_bind_inv _ _ _ _ Hnode)|]; cbn beta; intros _ st1 Hst1; apply bavl_spec_bind; eapply bavl_spec_mono; [exact Hst1|]; cbn beta; intros [node delta] st2 (t' & H & Hg2 & Hi & Hr & Ha & E2 & Hres); cbn [fst snd] in *;
    (apply bavl_spec_bind, spec_assert; [apply andb_true_iff; lia|]); destruct (root_N t' node Hr) as (tb & tl & tr & Et); pose proof (proj1 Hg2) as Hw2; rewrite Et in Hw2; (step get_parent_ok; intros v st3 [-> ->]); rewrite <- Et in Hw2; cbn [top].
  - apply bavl_spec_ret. exists t'. split; [done|]. split; [exact Hi|]. eauto.
  - apply bavl_spec_bind. eapply bavl_spec_mono; [eapply (is_right_ok st2 f k t'); [exact Hw2|exact (proj2 Hg2)|by intros ->|exact Hr]|]. cbn beta. intros v st3 [-> ->].
    inversion Hk as [|fs fb fa fu k' n hfu Hfu Hfb Hfr Hk' Ef En]; subst f k' n. cbn [f_side f_a] in *. pose proof Hg2 as Hg3. rewrite plug_cons in Hg3.
    eapply bavl_spec_mono; [apply (IH fuel st2 fs fb t' fa fu (1 + Z.max n0 hu) hfu delta)|]; try done; [|cbn in Hfuel; lia|].
    + replace (1 + Z.max n0 hu + delta) with H by lia. done.
    + cbn beta. intros _ st3 (t3 & Hg4 & Hi4 & Ha4). exists t3. split; [done|]. split; [|done]. rewrite Hi4, <- plug_cons. rewrite !bavl_inorder_plug. cbn [pre post f_side f_t f_a]. rewrite Hi. destruct fs; done.
Qed.

(** ** Searching *)

(** The elements before one above the key are above it, those after one below it below. *)
Lemma seeks_split f l1 a l2 : seeks f (l1 ++ a :: l2) -> (0 < f a -> forall y, y ∈ l1 -> 0 < f y) /\ (f a < 0 -> forall y, y ∈ l2 -> f y < 0).
Proof.
  intros Hs. split; intros Ha y Hy; apply list_elem_of_lookup in Hy as [i Hi].
  - destruct (decide (0 < f y)) as [|Hn]; [done|]. enough (f a < 0) by lia. apply (Hs i (length l1) y a); [|by rewrite list_lookup_middle| |lia].
    + apply lookup_app_l_Some. done.
    + by apply lookup_lt_Some in Hi.
  - apply (Hs (length l1) (S (length l1 + i)) a y); [by rewrite list_lookup_middle| |lia|lia]. rewrite lookup_app_r by lia. replace (S (length l1 + i) - length l1)%nat with (S i) by lia. done.
Qed.

(** Where the search is: all before the subtree is above, all after it below. *)
Definition between (f : nat -> Z) (k : ctx) : Prop := (forall y, y ∈ pre k -> 0 < f y) /\ (forall y, y ∈ post k -> f y < 0).

Lemma between_cons f (s : bool) b a u k t : seeks f (inorder (plug k (N s b t a u))) -> between f k -> (if s then 0 < f a else f a < 0) -> between f (mkFrame s b a u :: k).
Proof.
  rewrite bavl_inorder_plug. intros Hs [H1 H2] Ha. destruct s; cbn [N inorder] in Hs.
  - rewrite <- app_assoc in Hs. cbn [app] in Hs. rewrite app_assoc in Hs. destruct (seeks_split _ _ _ _ Hs) as [Hp _]. split; cbn [pre post f_side f_t f_a]; [|done]. intros y. rewrite !elem_of_app, list_elem_of_singleton. intros [Hy|[Hy| ->]]; [by apply H1|apply (Hp Ha); set_solver|done].
  - rewrite <- app_assoc in Hs. cbn [app] in Hs. rewrite app_assoc in Hs. destruct (seeks_split _ _ _ _ Hs) as [_ Hp]. split; cbn [pre post f_side f_t f_a]; [done|]. intros y. rewrite elem_of_cons, elem_of_app. intros [->|[Hy|Hy]]; [done|apply (Hp Ha); set_solver|by apply H2].
Qed.

Lemma compare_ok c st (P : Z -> BAVL -> Prop) : in_range c -> P c st -> spec (_BAVL_compare_values c) st P.
Proof. intros Hc HP. unfold _BAVL_compare_values. apply bavl_spec_bind, spec_assert; [|by apply bavl_spec_ret]. destruct Hc as [->|[->| ->]]; done. Qed.

Lemma insert_position_ok f t : forall k fuel st c, (forall y, in_range (f y)) -> wf st (plug k t) -> root_of t = Some c -> (height t <= fuel)%nat -> seeks f (inorder (plug k t)) -> between f k ->
  spec (insert_position fuel f c) st (fun res st' => st' = st /\ match res.2 with
    | None => f res.1 = 0 /\ res.1 ∈ inorder (plug k t)
    | Some s => exists b u k', plug k t = plug k' (N s b E res.1 u) /\ between f (mkFrame s b res.1 u :: k')
    end).
Proof.
  induction t as [|b l IHl a r IHr]; intros k fuel st c Hr Hw Hc Hfuel Hs Hb; [done|]. cbn in Hc. injection Hc as <-. cbn [height] in Hfuel. destruct fuel as [|fuel]; [lia|]. cbn [insert_position].
  apply bavl_spec_bind, compare_ok; [done|]. destruct (Z.eqb_spec (f a) 0) as [E0|E0].
  { apply bavl_spec_ret. cbn. split; [done|]. split; [done|]. rewrite bavl_inorder_plug. cbn. set_solver. }
  assert (Hside : exists s, (f a =? 1) = s /\ if s then 0 < f a else f a < 0) by (destruct (Hr a) as [E|[E|E]]; [exists false|done|exists true]; rewrite E; (split; [done|lia])). destruct Hside as (s & -> & Hfa).
  destruct s.
  - step (get_link_ok st k true b r a l). intros v st1 [-> ->]. assert (Hb' : between f (mkFrame true b a l :: k)) by (eapply (between_cons f true b a l k r); done). destruct r as [|rb rl ra rr] eqn:Er; cbn [root_of].
    + apply bavl_spec_ret. cbn. split; [done|]. exists b, l, k. done.
    + rewrite <- Er in *. eapply bavl_spec_mono; [apply (IHr (mkFrame true b a l :: k) fuel st ra); try done; [by rewrite Er|lia]|]. done.
  - step (get_link_ok st k false b l a r). intros v st1 [-> ->]. assert (Hb' : between f (mkFrame false b a r :: k)) by (eapply (between_cons f false b a r k l); done). destruct l as [|lb ll la lr] eqn:El; cbn [root_of].
    + apply bavl_spec_ret. cbn. split; [done|]. exists b, r, k. done.
    + rewrite <- El in *. eapply bavl_spec_mono; [apply (IHl (mkFrame false b a r :: k) fuel st la); try done; [by rewrite El|lia]|]. done.
Qed.

Lemma lookup_loop_ok exact f t : forall k fuel st c, (forall y, in_range (f y)) -> wf st (plug k t) -> root_of t = Some c -> (height t <= fuel)%nat -> seeks f (inorder (plug k t)) -> between f k ->
  spec (lookup_loop fuel exact f c) st (fun res st' => st' = st /\ ((exists y, res = Some y /\ f y = 0 /\ y ∈ inorder (plug k t)) \/ ((forall y, y ∈ inorder (plug k t) -> f y <> 0) /\ if exact then res = None else exists y, res = Some y /\ y ∈ inorder (plug k t)))).
Proof.
  induction t as [|b l IHl a r IHr]; intros k fuel st c Hr Hw Hc Hfuel Hs Hb; [done|]. cbn in Hc. injection Hc as <-. cbn [height] in Hfuel. destruct fuel as [|fuel]; [lia|]. cbn [lookup_loop].
  apply bavl_spec_bind, compare_ok; [done|].
  assert (Hin : a ∈ inorder (plug k (T b l a r))) by (rewrite bavl_inorder_plug; cbn; set_solver). destruct (Z.eqb_spec (f a) 0) as [E0|E0].
  { apply bavl_spec_ret. split; [done|]. left. by exists a. }
  assert (Hleaf : forall s b' u, plug k (T b l a r) = plug (mkFrame s b' a u :: k) E -> between f (mkFrame s b' a u :: k) -> forall y, y ∈ inorder (plug k (T b l a r)) -> f y <> 0).
  { intros s b' u E1 [H1 H2] y. rewrite E1, bavl_inorder_plug. cbn [inorder app]. rewrite elem_of_app. intros [Hy|Hy]; [specialize (H1 y Hy)|specialize (H2 y Hy)]; lia. }
  assert (Hside : exists s, (f a =? 1) = s /\ if s then 0 < f a else f a < 0) by (destruct (Hr a) as [E|[E|E]]; [exists false|done|exists true]; rewrite E; (split; [done|lia])). destruct Hside as (s & -> & Hfa).
  destruct s.
  - step (get_link_ok st k true b r a l). intros v st1 [-> ->]. assert (Hb' : between f (mkFrame true b a l :: k)) by (eapply (between_cons f true b a l k r); done). destruct r as [|rb rl ra rr] eqn:Er; cbn [root_of].
    + apply bavl_spec_ret. split; [done|]. right. split; [by apply (Hleaf true b l)|]. destruct exact; [done|by exists a].
    + rewrite <- Er in *. apply (IHr (mkFrame true b a l :: k) fuel st ra); try done; [by rewrite Er|lia].
  - step (get_link_ok st k false b l a r). intros v st1 [-> ->]. assert (Hb' : between f (mkFrame false b a r :: k)) by (eapply (between_cons f false b a r k l); done). destruct l as [|lb ll la lr] eqn:El; cbn [root_of].
    + apply bavl_spec_ret. split; [done|]. right. split; [by apply (Hleaf false b r)|]. destruct exact; [done|by exists a].
    + rewrite <- El in *. apply (IHl (mkFrame false b a r :: k) fuel st la); try done; [by rewrite El|lia].
Qed.

(** ** Insertion *)

(** A new leaf at an empty link. *)
Lemma attach_ok st k s b a u x : good st (plug k (N s b E a u)) -> x ∉ inorder (plug k (N s b E a u)) ->
  spec (set_link s a (Some x);; init_node x (mkNode (Some a) None None 0)) st (fun _ st' => good st' (plug k (N s b (T 0 E x E) a u))).
Proof.
  intros [Hw Hnd] Hx. rewrite bavl_inorder_plug in Hnd, Hx. rewrite bavl_wf_plug in Hw. destruct Hw as [Ht Hk].
  assert (Hnd' : NoDup (inorder (plug k (N s b (T 0 E x E) a u)))).
  { assert (Hp : Permutation (inorder (plug k (N s b (T 0 E x E) a u))) (x :: pre k ++ inorder (N s b E a u) ++ post k)).
    { rewrite bavl_inorder_plug. destruct s; cbn [N inorder app]; [|rewrite (Permutation_middle (pre k)); done].
      replace (pre k ++ (inorder u ++ [a; x]) ++ post k) with ((pre k ++ inorder u ++ [a]) ++ x :: post k) by (by rewrite <- !app_assoc). rewrite <- Permutation_middle. by rewrite <- !app_assoc. }
    rewrite Hp. by constructor. }
  destruct s; cbn [N rep root_of] in *; destruct Ht as (Ha & H1 & H2); nodup; ex; unfold spec, init_node; (split; [|done]); apply bavl_wf_plug; cbn [N]; reps.
Qed.

(** Memory is large enough for the fuel. *)
Definition enough (st : BAVL) : nat := S (size (heap st)).

Lemma bavl_rep_dom h t p y : rep h t p -> y ∈ inorder t -> is_Some (h !! y).
Proof. revert p. induction t as [|b l IHl a r IHr]; intros p; cbn; [set_solver|]. intros (Ha & Hl & Hr) [Hy|[->|Hy]%elem_of_cons]%elem_of_app; eauto. Qed.

Lemma good_size st t : good st t -> (length (inorder t) <= size (heap st))%nat.
Proof.
  intros [[Hr _] Hnd]. rewrite <- size_dom, <- (size_list_to_set (C := gset nat)) by done. apply subseteq_size. intros y. rewrite elem_of_list_to_set, elem_of_dom. by apply (bavl_rep_dom _ _ None).
Qed.

Lemma height_length t : (height t <= length (inorder t))%nat.
Proof. induction t as [|b l IHl a r IHr]; cbn; [lia|]. rewrite length_app. cbn. lia. Qed.

Lemma enough_height st t : good st t -> (height t <= enough st)%nat.
Proof. intros Hg%good_size. pose proof (height_length t). unfold enough. lia. Qed.

Lemma ctx_length k : (length k <= length (pre k ++ post k))%nat.
Proof. induction k as [|[[] b a u] k IH]; cbn [pre post f_side f_t f_a]; rewrite ?length_app in *; cbn in *; rewrite ?length_app; cbn; lia. Qed.

Lemma bavl_insert_ok st t cmp x H : good st t -> avl H t -> (forall a b, in_range (cmp a b)) -> seeks (cmp x) (inorder t) -> x ∉ inorder t ->
  spec (BAVL_Insert (enough st) cmp x) st (fun res st' => (exists y, res = (0, Some y) /\ y ∈ inorder t /\ cmp x y = 0 /\ st' = st)
    \/ (res.1 = 1 /\ exists l1 l2, inorder t = l1 ++ l2 /\ (forall y, y ∈ l1 -> 0 < cmp x y) /\ (forall y, y ∈ l2 -> cmp x y < 0) /\ rebalanced (l1 ++ x :: l2) st')).
Proof.
  intros Hg Ha Hrg Hs Hx. pose proof (good_size st t Hg) as Hsz. pose proof Hg as [[Hr Hroot] Hnd]. unfold BAVL_Insert. apply bavl_spec_bind, spec_get_root. rewrite Hroot. destruct t as [|b l a r] eqn:Et; cbn [root_of].
  - apply bavl_spec_bind, spec_set_root. unfold spec. cbn. right. split; [done|]. exists [], []. split; [done|]. split; [set_solver|]. split; [set_solver|]. exists (T 0 E x E). split; [split; [split; [cbn; rewrite lookup_insert_eq; done|done]|apply NoDup_singleton]|]. split; [done|]. exists (1 + Z.max 0 0). constructor; [constructor|constructor|lia|lia].
  - rewrite <- Et in *. apply bavl_spec_bind. eapply bavl_spec_mono; [apply (insert_position_ok (cmp x) t [] (enough st) st a); [done|exact (proj1 Hg)|by rewrite Et|by apply enough_height|done|split; cbn; set_solver]|]. cbn [plug]. cbn beta. intros [c [s|]] st1 [-> Hpos]; cbn [fst snd] in Hpos.
    2: { apply bavl_spec_ret. left. exists c. destruct Hpos. done. }
    destruct Hpos as (cb & u & k & Ek & Hbt). rewrite Ek in *. destruct (avl_unplug _ _ _ Ha) as (n & Hn & Hk). destruct (avl_N_inv _ _ _ _ _ _ Hn) as (h1 & h2 & -> & H1 & H2 & Hb & Hbr). inversion H1; subst h1.
    pose proof (attach_ok st k s cb c u x Hg Hx) as Hat. apply bavl_spec_bind. eapply bavl_spec_mono; [exact (spec_bind_inv _ _ _ _ Hat)|]. cbn beta. intros _ st1 Hst1. apply bavl_spec_bind. eapply bavl_spec_mono; [exact Hst1|]. cbn beta. intros _ st2 Hg2.
    apply bavl_spec_bind. eapply bavl_spec_mono; [apply (rebalance_ok k (enough st) st2 s cb (T 0 E x E) c u 0 h2 1 Hg2)|]; try done.
    + exact (avl_T 0 0 0 E x E avl_E avl_E eq_refl ltac:(lia)).
    + pose proof (ctx_length k). unfold enough. rewrite bavl_inorder_plug in Hsz. rewrite !length_app in *. lia.
    + cbn beta. intros _ st3 Hreb. apply bavl_spec_ret. cbn [fst]. right. split; [done|].
      assert (Esplit : inorder (plug k (N s cb E c u)) = pre (mkFrame s cb c u :: k) ++ post (mkFrame s cb c u :: k)) by (rewrite <- plug_cons, bavl_inorder_plug; done).
      assert (Enew : inorder (plug k (N s cb (T 0 E x E) c u)) = pre (mkFrame s cb c u :: k) ++ x :: post (mkFrame s cb c u :: k)) by (rewrite <- plug_cons, bavl_inorder_plug; done).
      rewrite Enew in Hreb. eexists _, _. split; [exact Esplit|]. destruct Hbt as [Hb1 Hb2]. done.
Qed.
