(* ===== verification/BavlRefine.v ===== *)
(** * Balanced trees of badvpn: removal, walks and the interface

    Goes on from [BavlSpec]: removal, first, last, next and previous, the check of
    [BAVL_Verify] and the bound of the height.  Then the tree in memory is an instance of the interface
    [Avl], and refines a sorted list. *)

From S2P Require Import Prelude Avl Bavl BavlSpec.

(** ** Swapping two nodes *)

Definition swap_balances (n1 n2 : nat) : M unit := b1 ← get_balance n1; b2 ← get_balance n2; set_balance n1 b2;; set_balance n2 b1.

Lemma swap_nodes_child st n1 n2 c1 c2 P : heap st !! n1 = Some c1 -> heap st !! n2 = Some c2 -> parent c2 = Some n1 -> parent c1 <> Some n2 ->
  spec (swap_adjacent n1 n2;; swap_balances n1 n2) st P -> spec (_BAVL_swap_nodes n1 n2) st P.
Proof.
  intros H1 H2 E2 E1 HP. unfold _BAVL_swap_nodes. apply bavl_spec_bind. eapply spec_load; [done|]. apply bavl_spec_bind. eapply spec_load; [done|].
  rewrite (bool_decide_true (parent c2 = _)), (bool_decide_false (parent c1 = _)) by done. cbn [orb fst snd]. apply bavl_spec_bind, bavl_spec_bind. eapply bavl_spec_mono; [exact (spec_bind_inv _ _ _ _ HP)|]. done.
Qed.

Lemma swap_nodes_apart st n1 n2 c1 c2 P : heap st !! n1 = Some c1 -> heap st !! n2 = Some c2 -> parent c2 <> Some n1 -> parent c1 <> Some n2 ->
  spec (swap_apart n1 n2;; swap_balances n1 n2) st P -> spec (_BAVL_swap_nodes n1 n2) st P.
Proof.
  intros H1 H2 E2 E1 HP. unfold _BAVL_swap_nodes. apply bavl_spec_bind. eapply spec_load; [done|]. apply bavl_spec_bind. eapply spec_load; [done|].
  rewrite (bool_decide_false (parent c2 = _)), (bool_decide_false (parent c1 = _)) by done. cbn [orb]. apply bavl_spec_bind, bavl_spec_bind. eapply bavl_spec_mono; [exact (spec_bind_inv _ _ _ _ HP)|]. done.
Qed.

Lemma swap_adjacent_ok st k b bm lm m a rb rl c rr : good st (plug k (T b (T bm lm m E) a (T rb rl c rr))) ->
  spec (_BAVL_swap_nodes a m) st (fun _ st' => wf st' (plug k (T b (T bm lm a E) m (T rb rl c rr)))).
Proof.
  intros [Hw Hnd]. rewrite bavl_inorder_plug in Hnd. rewrite bavl_wf_plug in Hw. destruct Hw as [Ht Hk]. cbn [rep root_of] in *. destruct Ht as (Ha & (Hm & Hlm & _) & Hc & Hrl & Hrr).
  assert (Hpm : top None k <> Some m) by (destruct k as [|[[] fb fa fu] k]; cbn; nodup; congruence). apply (swap_nodes_child _ _ _ _ _ _ Ha Hm eq_refl Hpm). unfold swap_adjacent, swap_balances.
  destruct lm as [|lb ll x lr]; cbn [rep root_of] in *; [|destruct Hlm as (Hx & Hll & Hlr)]; (destruct k as [|[[] fb fa fu] k]; cbn [repk f_a f_t top root_of] in Hk, Ha; [|destruct Hk as (Hfa & Hfu & Hk)..]); nodup;
    try (assert (Hne : root_of fu <> Some a) by (destruct fu; cbn in *; nodup; congruence)).
  all: ex; apply bavl_wf_plug; reps.
Qed.

Lemma root_plug k t t' : root_of t = root_of t' -> root_of (plug k t) = root_of (plug k t').
Proof. revert t t'. induction k as [|[[] b a u] k IH]; intros t t' Et; cbn [plug]; [done|by apply IH..]. Qed.

(** The greatest is the child of the left child. *)
Lemma swap_near_ok st k b gb gu g bm lm m a rb rl c rr : good st (plug k (T b (T gb gu g (T bm lm m E)) a (T rb rl c rr))) ->
  spec (_BAVL_swap_nodes a m) st (fun _ st' => wf st' (plug k (T b (T gb gu g (T bm lm a E)) m (T rb rl c rr)))).
Proof.
  intros [Hw Hnd]. rewrite bavl_inorder_plug in Hnd. rewrite bavl_wf_plug in Hw. destruct Hw as [Ht Hk]. cbn [rep root_of] in *. destruct Ht as (Ha & (Hg & Hgu & Hm & Hlm & _) & Hc & Hrl & Hrr).
  assert (Hpm : top None k <> Some m) by (destruct k as [|[[] fb fa fu] k]; cbn; nodup; congruence). apply (swap_nodes_apart _ _ _ _ _ _ Ha Hm); [cbn; nodup; congruence|done|]. unfold swap_apart, swap_balances.
  destruct lm as [|lb ll x lr]; cbn [rep root_of] in *; [|destruct Hlm as (Hx & Hll & Hlr)]; (destruct k as [|[[] fb fa fu] k]; cbn [repk f_a f_t top root_of] in Hk, Ha; [|destruct Hk as (Hfa & Hfu & Hk)..]); nodup;
    try (assert (Hne : root_of fu <> Some a) by (destruct fu; cbn in *; nodup; congruence)).
  all: ex; apply bavl_wf_plug; reps.
Qed.

Lemma swap_far_ok st k b gb gu g kk eb eu e bm lm m a rb rl c rr : good st (plug k (T b (T gb gu g (plug kk (T eb eu e (T bm lm m E)))) a (T rb rl c rr))) ->
  spec (_BAVL_swap_nodes a m) st (fun _ st' => wf st' (plug k (T b (T gb gu g (plug kk (T eb eu e (T bm lm a E)))) m (T rb rl c rr)))).
Proof.
  intros [Hw Hnd]. rewrite bavl_inorder_plug in Hnd. rewrite bavl_wf_plug in Hw. destruct Hw as [Ht Hk]. cbn [rep root_of inorder] in *. rewrite bavl_inorder_plug in Hnd. destruct Ht as (Ha & (Hg & Hgu & Hpl) & Hc & Hrl & Hrr).
  rewrite (root_plug kk _ (T eb eu e (T bm lm a E))) in Hg by done. set (rp := root_of (plug kk (T eb eu e (T bm lm a E)))) in *.
  assert (Hpl' := proj1 (bavl_rep_plug (heap st) kk _ (Some g) rp) (conj Hpl (root_plug kk (T eb eu e (T bm lm a E)) (T eb eu e (T bm lm m E)) eq_refl))). clear Hpl. cbn [rep root_of] in Hpl'. destruct Hpl' as ((He & Heu & Hm & Hlm & _) & Hkk).
  assert (Hpm : top None k <> Some m) by (destruct k as [|[[] fb fa fu] k]; cbn; nodup; congruence). apply (swap_nodes_apart _ _ _ _ _ _ Ha Hm); [cbn; nodup; congruence|done|]. unfold swap_apart, swap_balances.
  assert (Hpl : forall h, rep h (T eb eu e (T bm lm a E)) (top (Some g) kk) -> repk h (Some g) rp kk (Some e) -> rep h (plug kk (T eb eu e (T bm lm a E))) (Some g)).
  { intros h H1 H2. exact (proj1 (proj2 (bavl_rep_plug h kk (T eb eu e (T bm lm a E)) (Some g) rp) (conj H1 H2))). }
  destruct lm as [|lb ll x lr]; cbn [rep root_of] in *; [|destruct Hlm as (Hx & Hll & Hlr)]; (destruct k as [|[[] fb fa fu] k]; cbn [repk f_a f_t top root_of] in Hk, Ha; [|destruct Hk as (Hfa & Hfu & Hk)..]); nodup;
    try (assert (Hne : root_of fu <> Some a) by (destruct fu; cbn in *; nodup; congruence)).
  all: ex; apply bavl_wf_plug; cbn [rep root_of repk heap root top frame_node f_side f_a f_t f_b]; fold rp; split; [split; [look|]; split; [split; [look|]; split; [reps|apply Hpl; reps]|reps]|reps].
Qed.

(** A path that goes to one side only. *)
Definition sided (s : bool) (k : ctx) : Prop := Forall (fun f => f_side f = s) k.

Lemma sided_post k : sided true k -> post k = [].
Proof. induction 1 as [|[[] b a u] k Hf Hk IH]; cbn in *; done. Qed.
Lemma sided_pre k : sided false k -> pre k = [].
Proof. induction 1 as [|[[] b a u] k Hf Hk IH]; cbn in *; done. Qed.

Lemma swap_ok st k b kk bm lm m a r : good st (plug k (T b (plug kk (T bm lm m E)) a r)) -> sided true kk -> r <> E ->
  spec (_BAVL_swap_nodes a m) st (fun _ st' => good st' (plug k (T b (plug kk (T bm lm a E)) m r))).
Proof.
  intros Hg Hkk Hr. destruct r as [|rb rl c rr] eqn:Er; [done|]. rewrite <- Er in *.
  assert (Hnd : NoDup (inorder (plug k (T b (plug kk (T bm lm a E)) m r)))).
  { assert (Hp : Permutation (inorder (plug k (T b (plug kk (T bm lm a E)) m r))) (inorder (plug k (T b (plug kk (T bm lm m E)) a r)))).
    { rewrite !bavl_inorder_plug. cbn [inorder]. rewrite !bavl_inorder_plug. cbn [inorder]. rewrite !sided_post, !app_nil_r, <- !app_assoc by done. cbn [app]. by do 3 f_equiv; apply perm_swap. }
    rewrite Hp. exact (proj2 Hg). }
  rewrite Er in *. enough (spec (_BAVL_swap_nodes a m) st (fun _ st' => wf st' (plug k (T b (plug kk (T bm lm a E)) m (T rb rl c rr))))) as Hw by (eapply bavl_spec_mono; [exact Hw|done]).
  destruct kk as [|[s1 eb e eu] kk]; [by apply swap_adjacent_ok|]. apply Forall_cons in Hkk as [E1 Hkk]. cbn in E1. subst s1.
  induction kk as [|[sn gb g gu] kk _] using rev_ind; [by apply swap_near_ok|]. apply Forall_app in Hkk as [_ [En _]%Forall_cons]. cbn in En. subst sn.
  cbn [plug] in *. rewrite bavl_plug_app in *. cbn [plug fill f_side f_b f_t f_a] in *. by apply swap_far_ok.
Qed.

(** ** Removal *)

(** Going down on one side. *)
Lemma descend_ok s t : forall k fuel st n, wf st (plug k t) -> root_of t = Some n -> (height t <= fuel)%nat ->
  spec (descend fuel s n) st (fun m st' => st' = st /\ exists kk b u, t = plug kk (N s b E m u) /\ sided s kk).
Proof.
  assert (Hstep : forall b t1 a u, (forall k fuel st n, wf st (plug k t1) -> root_of t1 = Some n -> (height t1 <= fuel)%nat -> spec (descend fuel s n) st (fun m st' => st' = st /\ exists kk b u, t1 = plug kk (N s b E m u) /\ sided s kk)) ->
    forall k fuel st, wf st (plug k (N s b t1 a u)) -> (S (height t1) <= fuel)%nat -> spec (descend fuel s a) st (fun m st' => st' = st /\ exists kk b' u', N s b t1 a u = plug kk (N s b' E m u') /\ sided s kk)).
  { intros b t1 a u IH k fuel st Hw Hfuel. destruct fuel as [|fuel]; [lia|]. cbn [descend]. step get_link_ok. intros v st1 [-> ->]. destruct t1 as [|rb rl ra rr] eqn:Er; cbn [root_of].
    - apply bavl_spec_ret. split; [done|]. exists [], b, u. split; [done|constructor].
    - rewrite <- Er in *. eapply bavl_spec_mono; [apply (IH (mkFrame s b a u :: k) fuel st ra); [by rewrite plug_cons|by rewrite Er|lia]|]. cbn beta. intros m st1 [-> (kk & bm & lm & Et & Hkk)]. split; [done|].
      exists (kk ++ [mkFrame s b a u]), bm, lm. split; [by rewrite bavl_plug_app, <- Et, plug_cons|]. apply Forall_app. split; [done|]. by repeat constructor. }
  induction t as [|b l IHl a r IHr]; intros k fuel st n Hw Hn Hfuel; [done|]. cbn in Hn. injection Hn as <-. cbn [height] in Hfuel.
  destruct s; [apply (Hstep b r a l IHr k)|apply (Hstep b l a r IHl k)]; try done; lia.
Qed.

Lemma subtree_max_descend fuel : forall n st, _BAVL_subtree_max fuel n st = descend fuel true n st.
Proof. induction fuel as [|fuel IH]; intros n st; [done|]. cbn. unfold mbind, M_bind. destruct (get_link true n st) as [[[r|] st']|]; [apply IH|done..]. Qed.

Lemma replace_subtree_ok st k b l a r c : good st (plug k (T b l a r)) -> (c = l \/ c = r) -> spec (_BAVL_replace_subtree a (root_of c)) st (fun _ st' => good st' (plug k c)).
Proof.
  intros [Hw Hnd] Hc. rewrite bavl_inorder_plug in Hnd. rewrite bavl_wf_plug in Hw. destruct Hw as [Ht Hk]. cbn [rep root_of] in *. destruct Ht as (Ha & Hl & Hr). unfold _BAVL_replace_subtree. apply bavl_spec_bind. eapply spec_load; [exact Ha|]. cbn [parent].
  assert (Hrc : rep (heap st) c (Some a)) by (by destruct Hc; subst).
  assert (Hndc : NoDup (inorder c) /\ NoDup (pre k ++ post k) /\ disj (inorder c) (pre k) /\ disj (inorder c) (post k)).
  { nodup. split_and!; [by destruct Hc; subst|by apply nodup_app|..]; destruct Hc; subst; unfold disj in *; set_solver. }
  destruct Hndc as (Hnc & Hnk & Hd1 & Hd2). assert (Hak : a ∉ pre k /\ a ∉ post k) by (nodup; unfold disj in *; set_solver). destruct Hak as [Hak1 Hak2].
  assert (Htop : forall q, top None k = Some q -> q ∈ pre k ++ post k) by (intros q; destruct k as [|[[] fb fa fu] k']; cbn; [done|intros [= <-]; set_solver..]).
  apply bavl_spec_bind. eapply bavl_spec_mono; [by apply (set_child_ok st k a (root_of c))|]. cbn beta. intros _ st1 [Hk1 Hag]. apply bavl_spec_bind. eapply spec_load; [rewrite Hag; [exact Ha|intros E1; apply Htop in E1; set_solver]|]. cbn [parent].
  assert (Hrc1 : rep (heap st1) c (Some a)). { eapply bavl_rep_agree; [|exact Hrc]. intros q Hq. apply Hag. intros E1. apply Htop in E1. unfold disj in *. set_solver. }
  eapply bavl_spec_mono; [by apply (reparent_ok st1 c (Some a) (top None k))|]. cbn beta. intros _ st2 (Hrc2 & Eroot & Hag2). split.
  - apply bavl_wf_plug. split; [done|]. rewrite Eroot. eapply bavl_repk_agree; [|exact Hk1]. intros q Hq. apply Hag2. intros E1. destruct c as [|cb cl cc cr]; [done|]. cbn in E1. injection E1 as ->. unfold disj in *. cbn [inorder] in *. set_solver.
  - rewrite bavl_inorder_plug. nodup. apply nodup_app. split_and!; [done| |by apply nodup_app]. apply disj_app_r. split; [|done]. unfold disj in *. set_solver.
Qed.

Lemma find_node t x : x ∈ inorder t -> exists k b l r, t = plug k (T b l x r).
Proof.
  induction t as [|b l IHl a r IHr]; cbn; [set_solver|]. intros [Hx|[->|Hx]%elem_of_cons]%elem_of_app.
  - destruct (IHl Hx) as (k & b' & l' & r' & ->). exists (k ++ [mkFrame false b a r]), b', l', r'. by rewrite bavl_plug_app.
  - by exists [], b, l, r.
  - destruct (IHr Hx) as (k & b' & l' & r' & ->). exists (k ++ [mkFrame true b a l]), b', l', r'. by rewrite bavl_plug_app.
Qed.

(** A node with a child at most is replaced by it. *)
Lemma bavl_unlink_ok st k b l a r H fuel : good st (plug k (T b l a r)) -> avl H (plug k (T b l a r)) -> l = E \/ r = E -> (length k < fuel)%nat ->
  spec (unlink fuel a) st (fun _ st' => rebalanced (pre k ++ inorder l ++ inorder r ++ post k) st').
Proof.
  intros Hg Ha Hlr Hfuel. pose proof (proj1 Hg) as Hw. unfold unlink. step (get_link_ok st k false b l a r). intros v st1 [-> ->]. step (get_link_ok st k true b r a l). intros v st1 [-> ->].
  apply bavl_spec_bind, spec_assert; [destruct Hlr as [-> | ->]; cbn; rewrite ?orb_true_r; done|]. step (get_parent_ok st k false b l a r). intros v st1 [-> ->]. cbv zeta.
  destruct (avl_unplug _ _ _ Ha) as (n & Hn & Hk). inversion Hn as [|hl hr b' l' a' r' Hl Hr Hb Hbr]; subst.
  assert (Hc : exists c, match root_of l with Some l => Some l | None => root_of r end = root_of c /\ (c = l \/ c = r) /\ avl (Z.max hl hr) c /\ inorder c = inorder l ++ inorder r).
  { pose proof (avl_nonneg _ _ Hl). pose proof (avl_nonneg _ _ Hr). destruct Hlr as [-> | ->].
    - inversion Hl; subst. exists r. rewrite Z.max_r by done. by auto.
    - inversion Hr; subst. exists l. rewrite Z.max_l by done. cbn. rewrite app_nil_r. split; [by destruct l|by auto]. }
  destruct Hc as (c & -> & Hcc & Hca & Hci). rewrite (app_assoc (inorder l)), <- Hci, <- bavl_inorder_plug. destruct k as [|[s fb fa fu] k]; cbn [top f_a].
  - eapply bavl_spec_mono; [by apply (replace_subtree_ok st [] _ _ _ _ c Hg)|]. cbn beta. intros _ st1 Hg1. exists c. cbn [plug] in *. eauto.
  - apply bavl_spec_bind. eapply bavl_spec_mono; [apply (is_right_ok st (mkFrame s fb fa fu) k (T (hr - hl) l a r) Hw (proj2 Hg)); [done|reflexivity]|]. cbn beta. intros v st1 [-> ->]. cbn [f_side].
    apply bavl_spec_bind. eapply bavl_spec_mono; [by apply (replace_subtree_ok st _ _ _ _ _ c Hg)|]. cbn beta. intros _ st1 Hg1. rewrite plug_cons in *.
    inversion Hk as [|fs fb' fa' fu' k' n' hfu Hfu Hfb Hfr Hk']; subst. eapply (rebalance_ok k fuel st1 s _ c fa fu (1 + Z.max hl hr) hfu (-1)); try done; [|cbn in Hfuel; lia]. by replace (1 + Z.max hl hr + -1) with (Z.max hl hr) by lia.
Qed.

Lemma filter_split (l1 l2 : list nat) x : NoDup (l1 ++ x :: l2) -> filter (fun y => y <> x) (l1 ++ x :: l2) = l1 ++ l2.
Proof. intros Hnd. nodup. rewrite filter_app, filter_cons_False by (intros Hx; done). rewrite !filter_all; [done| |]; intros y Hy ->; done. Qed.

Lemma bavl_remove_ok st t x H : good st t -> avl H t -> x ∈ inorder t -> spec (BAVL_Remove (enough st) x) st (fun _ st' => rebalanced (filter (fun y => y <> x) (inorder t)) st').
Proof.
  intros Hg Ha Hx. pose proof (good_size st t Hg) as Hsz. destruct (find_node t x Hx) as (k & b & l & r & ->). assert (Hlen : (length k + length (inorder (T b l x r)) <= size (heap st))%nat).
  { rewrite bavl_inorder_plug, !length_app in Hsz. pose proof (ctx_length k) as Hk. rewrite length_app in Hk. lia. }
  assert (Efilter : filter (fun y => y <> x) (inorder (plug k (T b l x r))) = pre k ++ inorder l ++ inorder r ++ post k).
  { pose proof (proj2 Hg) as Hnd. rewrite bavl_inorder_plug in *. cbn [inorder] in *. rewrite <- (app_assoc (inorder l)) in *. cbn [app] in *. rewrite app_assoc in *. rewrite filter_split by done. by rewrite <- !app_assoc. }
  rewrite Efilter. pose proof (proj1 Hg) as Hw. unfold BAVL_Remove. step (get_link_ok st k false b l x r). intros v st1 [-> ->]. step (get_link_ok st k true b r x l). intros v st1 [-> ->].
  destruct l as [|lb ll la lr] eqn:El; [|rewrite <- El in *; destruct r as [|rb rl ra rr] eqn:Er; [|rewrite <- Er in *]].
  - apply bavl_spec_bind, bavl_spec_ret. cbn [inorder app] in *. eapply bavl_spec_mono; [eapply (bavl_unlink_ok st k b E x r H); [done|done|by left|unfold enough; lia]|]. done.
  - rewrite El. cbn [root_of]. rewrite <- El. apply bavl_spec_bind, bavl_spec_ret. eapply (bavl_unlink_ok st k b l x E H); [done|done|by right|unfold enough; lia].
  - assert (Hlr : root_of l = Some la /\ root_of r = Some ra) by (by subst). destruct Hlr as [-> ->]. apply bavl_spec_bind. pose proof Hw as Hwl. change (plug k (T b l x r)) with (plug (mkFrame false b x r :: k) l) in Hwl. cbn [inorder] in Hlen. rewrite length_app in Hlen. cbn [length] in Hlen.
    apply bavl_spec_bind. eapply bavl_spec_mono; [unfold spec; rewrite subtree_max_descend; apply (descend_ok true l _ (enough st) st la Hwl); [by subst|pose proof (height_length l); unfold enough; lia]|]. cbn beta. intros m st1 [-> (kk & bm & lm & Elp & Hkk)]. cbn [N] in Elp.
    assert (Hpk : post kk = []) by (by apply sided_post). rewrite Elp in Hg, Ha, Hlen |- *. eapply bavl_spec_mono; [apply (swap_ok st k b kk bm lm m x r Hg Hkk); by subst|]. cbn beta. intros _ st1 Hg1.
    set (f := mkFrame false b m r). assert (Ep : plug k (T b (plug kk (T bm lm x E)) m r) = plug (kk ++ f :: k) (T bm lm x E)) by (by rewrite bavl_plug_app). rewrite Ep in Hg1.
    assert (Ha1 : exists H', avl H' (plug (kk ++ f :: k) (T bm lm x E))).
    { exists H. rewrite <- Ep. eapply avl_replug; [|exact Ha]. intros n Hn. inversion Hn; subst. constructor; try done. eapply avl_replug; [|done]. intros n Hn'. inversion Hn'; subst. by constructor. }
    destruct Ha1 as [H' Ha1].
    eapply bavl_spec_mono; [eapply (bavl_unlink_ok st1 (kk ++ f :: k) bm lm x E H'); [done|done|by right|rewrite length_app; cbn; rewrite bavl_inorder_plug, !length_app in Hlen; pose proof (ctx_length kk) as Hck; rewrite length_app in Hck; cbn in Hlen; unfold enough; lia]|].
    cbn beta. intros _ st2 Hreb. rewrite bavl_inorder_plug. cbn [inorder]. rewrite Hpk. rewrite bavl_pre_app, bavl_post_app, Hpk in Hreb. cbn [pre post f f_side f_a f_t inorder app] in Hreb. rewrite ?app_nil_r, <- ?app_assoc in *. cbn [app] in *. exact Hreb.
Qed.

(** ** Walks *)

Lemma descend_end s t k fuel st n : wf st (plug k t) -> root_of t = Some n -> (height t <= fuel)%nat ->
  spec (descend fuel s n) st (fun m st' => st' = st /\ (if s then last (inorder t) else head (inorder t)) = Some m).
Proof.
  intros Hw Hn Hf. eapply bavl_spec_mono; [by eapply descend_ok|]. cbn beta. intros m st' [-> (kk & b & u & -> & Hkk)]. split; [done|]. rewrite bavl_inorder_plug. destruct s; cbn [N inorder app].
  - rewrite sided_post, app_nil_r by done. by rewrite app_assoc, last_snoc.
  - by rewrite sided_pre.
Qed.

Lemma BAVL_GetFirst_ok st t : good st t -> spec (BAVL_GetFirst (enough st)) st (fun r st' => st' = st /\ r = head (inorder t)).
Proof.
  intros Hg. pose proof Hg as [[Hr Hroot] _]. unfold BAVL_GetFirst. apply bavl_spec_bind, spec_get_root. rewrite Hroot. destruct (root_of t) as [n|] eqn:Hn; [|destruct t; [by apply bavl_spec_ret|done]].
  apply bavl_spec_bind. eapply bavl_spec_mono; [apply (descend_end false t [] (enough st)); [apply Hg|done|by apply enough_height]|]. cbn beta. intros m st' [-> E]. by apply bavl_spec_ret.
Qed.

Lemma BAVL_GetLast_ok st t : good st t -> spec (BAVL_GetLast (enough st)) st (fun r st' => st' = st /\ r = last (inorder t)).
Proof.
  intros Hg. pose proof Hg as [[Hr Hroot] _]. unfold BAVL_GetLast. apply bavl_spec_bind, spec_get_root. rewrite Hroot. destruct (root_of t) as [n|] eqn:Hn; [|destruct t; [by apply bavl_spec_ret|done]].
  apply bavl_spec_bind. eapply bavl_spec_mono; [apply (descend_end true t [] (enough st)); [apply Hg|done|by apply enough_height]|]. cbn beta. intros m st' [-> E]. by apply bavl_spec_ret.
Qed.

Lemma ascend_ok s k : forall fuel st t n, good st (plug k t) -> root_of t = Some n -> (length k < fuel)%nat ->
  spec (ascend fuel s n) st (fun r st' => st' = st /\ r = if s then head (post k) else last (pre k)).
Proof.
  induction k as [|[fs b a u] k IH]; intros fuel st t n Hg Hn Hfuel; (destruct fuel as [|fuel]; [lia|]); cbn [ascend]; destruct (root_N t n Hn) as (tb & tl & tr & Et); pose proof (proj1 Hg) as Hw; rewrite Et in Hw; (step get_parent_ok; intros v st1 [-> ->]); rewrite <- Et in Hw; cbn [top f_a].
  { apply bavl_spec_ret. by destruct s. }
  pose proof Hw as Hwp. rewrite plug_cons in Hwp. pose proof (proj2 Hg) as Hnd. rewrite bavl_inorder_plug in Hnd. apply read_node in Hwp. apply bavl_spec_bind. unfold get_link. eapply spec_load; [exact Hwp|].
  assert (Hne : root_of u <> Some n) by (destruct u as [|ub ul ua ur]; [done|]; cbn; intros [= ->]; subst t; cbn [N] in *; destruct fs; nodup; done).
  destruct (Bool.eqb_spec s fs) as [<-|Hs].
  - rewrite bool_decide_true by (by destruct s). eapply bavl_spec_mono; [apply (IH fuel st (N s b t a u) a); [by rewrite <- plug_cons|apply root_of_N|cbn in Hfuel; lia]|]. cbn beta. intros r st' [-> ->]. split; [done|]. by destruct s.
  - destruct s, fs; try done; cbn [link]; rewrite bool_decide_false by done; apply bavl_spec_ret; (split; [done|]); cbn [pre post f_side f_t f_a head]; [done|]. by rewrite app_assoc, last_snoc.
Qed.

(** The parts of the sequence around a node. *)
Lemma around st t l1 a l2 : good st t -> inorder t = l1 ++ a :: l2 -> exists k b l r, t = plug k (T b l a r) /\ l1 = pre k ++ inorder l /\ l2 = inorder r ++ post k.
Proof.
  intros [_ Hnd] E. destruct (find_node t a ltac:(rewrite E; set_solver)) as (k & b & l & r & ->). exists k, b, l, r. split; [done|]. rewrite bavl_inorder_plug in *. cbn [inorder] in *. rewrite <- app_assoc, app_assoc in E, Hnd. cbn [app] in E, Hnd.
  rewrite E in Hnd. revert E Hnd. generalize (pre k ++ inorder l) (inorder r ++ post k). clear. intros p q. revert l1. induction p as [|y p IH]; intros [|z l1] E Hnd; cbn [app] in *; simplify_eq; try done.
  - nodup. set_solver.
  - apply NoDup_cons in Hnd as [Hz _]. set_solver.
  - apply NoDup_cons in Hnd as [_ Hnd]. destruct (IH l1 ltac:(done) Hnd) as [-> ->]. done.
Qed.

Lemma BAVL_GetNext_ok st t l1 a l2 : good st t -> inorder t = l1 ++ a :: l2 -> spec (BAVL_GetNext (enough st) a) st (fun r st' => st' = st /\ r = head l2).
Proof.
  intros Hg El. pose proof (good_size st t Hg) as Hsz. destruct (around st t l1 a l2 Hg El) as (k & b & l & r & -> & -> & ->). pose proof (proj1 Hg) as Hw. unfold BAVL_GetNext. step (get_link_ok st k true b r a l). intros v st1 [-> ->].
  rewrite bavl_inorder_plug, !length_app in Hsz. cbn [inorder] in Hsz. rewrite length_app in Hsz. cbn [length] in Hsz. destruct (root_of r) as [n|] eqn:Hn.
  - apply bavl_spec_bind. eapply bavl_spec_mono; [apply (descend_end false r (mkFrame true b a l :: k) (enough st) st n); [done|done|pose proof (height_length r); unfold enough; lia]|]. cbn beta. intros m st' [-> Em]. apply bavl_spec_ret. split; [done|]. destruct (inorder r); [done|]. by cbn in *.
  - destruct r; [|done]. eapply bavl_spec_mono; [apply (ascend_ok true k (enough st) st (T b l a E) a Hg eq_refl); pose proof (ctx_length k) as Hk; rewrite length_app in Hk; unfold enough; lia|]. done.
Qed.

Lemma BAVL_GetPrev_ok st t l1 a l2 : good st t -> inorder t = l1 ++ a :: l2 -> spec (BAVL_GetPrev (enough st) a) st (fun r st' => st' = st /\ r = last l1).
Proof.
  intros Hg El. pose proof (good_size st t Hg) as Hsz. destruct (around st t l1 a l2 Hg El) as (k & b & l & r & -> & -> & ->). pose proof (proj1 Hg) as Hw. unfold BAVL_GetPrev. step (get_link_ok st k false b l a r). intros v st1 [-> ->].
  rewrite bavl_inorder_plug, !length_app in Hsz. cbn [inorder] in Hsz. rewrite length_app in Hsz. cbn [length] in Hsz. destruct (root_of l) as [n|] eqn:Hn.
  - apply bavl_spec_bind. eapply bavl_spec_mono; [apply (descend_end true l (mkFrame false b a r :: k) (enough st) st n); [done|done|pose proof (height_length l); unfold enough; lia]|]. cbn beta. intros m st' [-> Em]. apply bavl_spec_ret. split; [done|]. by rewrite last_app, Em.
  - destruct l; [|done]. cbn [inorder]. rewrite app_nil_r. eapply bavl_spec_mono; [apply (ascend_ok false k (enough st) st (T b E a r) a Hg eq_refl); pose proof (ctx_length k) as Hk; rewrite length_app in Hk; unfold enough; lia|]. done.
Qed.

(** ** The check *)

(** A total preorder: the order of the keys in memory. *)
Record weak_order (cmp : nat -> nat -> Z) : Prop := mkWeak {
  w_range x y : in_range (cmp x y);
  w_anti x y : cmp x y < 0 <-> 0 < cmp y x;
  w_trans x y z : cmp x y <= 0 -> cmp y z < 0 -> cmp x z < 0
}.

Lemma root_in t n : root_of t = Some n -> n ∈ inorder t.
Proof. destruct t; [done|]. cbn. intros [= ->]. set_solver. Qed.

Lemma assert_recurser_ok cmp t : weak_order cmp -> forall k fuel st n h, wf st (plug k t) -> root_of t = Some n -> (height t <= fuel)%nat -> avl h t -> ordered cmp (inorder t) ->
  spec (_BAVL_assert_recurser fuel cmp n) st (fun v st' => st' = st /\ v = h).
Proof.
  intros Hc. induction t as [|b l IHl a r IHr]; intros k fuel st n h Hw Hn Hfuel Ha Ho; [done|]. cbn in Hn. injection Hn as <-. cbn [height] in Hfuel. destruct fuel as [|fuel]; [lia|]. inversion Ha as [|hl hr b' l' a' r' Hl Hr Hb Hbr]; subst b' l' a' r' h.
  cbn [inorder] in Ho. apply ordered_app in Ho as (Ho1 & Ho2 & Hlt). assert (Hgt : forall y, y ∈ inorder r -> cmp a y < 0) by (intros y Hy; by eapply ordered_head). apply ordered_tail in Ho2.
  cbn [_BAVL_assert_recurser]. step (get_balance_ok st k false b l a r). intros v st1 [-> ->]. do 2 (apply bavl_spec_bind, spec_assert; [apply Z.leb_le; lia|]). step (get_link_ok st k false b l a r). intros v st1 [-> ->].
  assert (Hwl : wf st (plug (mkFrame false b a r :: k) l)) by done. assert (Hwr : wf st (plug (mkFrame true b a l :: k) r)) by done.
  apply bavl_spec_bind. apply (bavl_spec_mono _ _ (fun v st' => st' = st /\ v = hl)).
  { destruct (root_of l) as [n|] eqn:El; [|destruct l; [inversion Hl; subst; by apply bavl_spec_ret|done]]. destruct (root_N l n El) as (lb & ll & lr & Et). rewrite Et in Hwl. step get_parent_ok. intros v st1 [-> ->]. rewrite <- Et in Hwl. cbn [top f_a].
    apply bavl_spec_bind, spec_assert; [by rewrite bool_decide_true|]. apply bavl_spec_bind, compare_ok; [apply Hc|]. apply bavl_spec_bind, spec_assert; [|apply (IHl _ fuel st n hl Hwl); try done; lia].
    pose proof (Hlt n a (root_in _ _ El) ltac:(set_solver)). destruct (w_range _ Hc n a) as [E|[E|E]]; rewrite E in *; done. }
  cbn beta. intros v st1 [-> ->]. step (get_link_ok st k true b r a l). intros v st1 [-> ->]. apply bavl_spec_bind. apply (bavl_spec_mono _ _ (fun v st' => st' = st /\ v = hr)).
  { destruct (root_of r) as [n|] eqn:Er; [|destruct r; [inversion Hr; subst; by apply bavl_spec_ret|done]]. destruct (root_N r n Er) as (rb & rl & rr & Et). rewrite Et in Hwr. step get_parent_ok. intros v st1 [-> ->]. rewrite <- Et in Hwr. cbn [top f_a].
    apply bavl_spec_bind, spec_assert; [by rewrite bool_decide_true|]. apply bavl_spec_bind, compare_ok; [apply Hc|]. apply bavl_spec_bind, spec_assert; [|apply (IHr _ fuel st n hr Hwr); try done; lia].
    pose proof (proj1 (w_anti _ Hc a n) (Hgt n (root_in _ _ Er))). destruct (w_range _ Hc n a) as [E|[E|E]]; rewrite E in *; done. }
  cbn beta. intros v st1 [-> ->]. apply bavl_spec_bind, spec_assert; [apply Z.eqb_eq; lia|]. apply bavl_spec_ret. split; [done|]. unfold BAVL_MAX. case_match; lia.
Qed.

Lemma BAVL_Verify_ok cmp st t H : weak_order cmp -> good st t -> avl H t -> ordered cmp (inorder t) -> spec (BAVL_Verify (enough st) cmp) st (fun _ st' => st' = st).
Proof.
  intros Hc Hg Ha Ho. pose proof Hg as [Hw _]. pose proof Hw as [Hr Hroot]. unfold BAVL_Verify. apply bavl_spec_bind, spec_get_root. rewrite Hroot. destruct (root_of t) as [n|] eqn:Hn; [|by apply bavl_spec_ret]. destruct (root_N t n Hn) as (b & l & r & Et).
  rewrite Et in Hw. step (get_parent_ok st []). intros v st1 [-> ->]. rewrite <- Et in Hw. apply bavl_spec_bind, spec_assert; [done|]. apply bavl_spec_bind. eapply bavl_spec_mono; [apply (assert_recurser_ok cmp t Hc [] (enough st) st n H); try done; by apply enough_height|]. cbn beta. intros v st1 [-> _]. by apply bavl_spec_ret.
Qed.

(** ** The height *)

Lemma avl_height h t : avl h t -> h = Z.of_nat (height t).
Proof. induction 1; cbn; lia. Qed.

Lemma avl_size h t : avl h t -> 2 ^ h <= (Z.of_nat (length (inorder t)) + 1) ^ 2.
Proof.
  induction 1 as [|hl hr b l a r Hl IHl Hr IHr Hb Hbr]; [done|]. pose proof (avl_nonneg _ _ Hl). pose proof (avl_nonneg _ _ Hr). cbn [inorder]. rewrite length_app. cbn [length].
  set (x := Z.of_nat (length (inorder l))) in *. set (y := Z.of_nat (length (inorder r))) in *. replace (Z.of_nat (length (inorder l) + S (length (inorder r))) + 1) with ((x + 1) + (y + 1)) by lia. set (p := x + 1) in *. set (q := y + 1) in *.
  assert (0 < p) by lia. assert (0 < q) by lia. clearbody p q. rewrite !Z.pow_2_r in *. assert (Hc : hl = hr \/ hl = hr + 1 \/ hr = hl + 1) by lia. destruct Hc as [->|[->| ->]].
  - rewrite Z.max_id, Z.pow_add_r by lia. nia.
  - rewrite Z.max_l in * by lia. rewrite !Z.pow_add_r in * by lia. assert (2 ^ hr <= p * q) by (destruct (decide (p <= q)); nia). nia.
  - rewrite Z.max_r in * by lia. rewrite !Z.pow_add_r in * by lia. assert (2 ^ hl <= p * q) by (destruct (decide (p <= q)); nia). nia.
Qed.

(** ** The tree in memory as an instance of the interface *)

(** The nodes in order. *)
Fixpoint walk (fuel : nat) (h : gmap nat BAVLNode) (p : option nat) : list nat :=
  match fuel, p with
  | S fuel, Some a => match h !! a with Some n => walk fuel h (link0 n) ++ a :: walk fuel h (link1 n) | None => [] end
  | _, _ => []
  end.

Lemma walk_rep h t : forall fuel p, rep h t p -> (height t <= fuel)%nat -> walk fuel h (root_of t) = inorder t.
Proof.
  induction t as [|b l IHl a r IHr]; intros fuel p Hr Hf; [by destruct fuel|]. cbn [height] in Hf. destruct fuel as [|fuel]; [lia|]. destruct Hr as (Ha & Hl & Hr). cbn [walk root_of]. rewrite Ha. cbn [link0 link1 inorder].
  rewrite (IHl fuel (Some a)), (IHr fuel (Some a)) by (try done; lia). done.
Qed.

Definition elements (st : BAVL) : list nat := walk (enough st) (heap st) (root st).
Definition balanced (st : BAVL) : Prop := exists t, good st t /\ exists H, avl H t.

Lemma elements_good st t : good st t -> elements st = inorder t.
Proof. intros Hg. pose proof Hg as [[Hr Hroot] _]. unfold elements. rewrite Hroot. eapply walk_rep; [exact Hr|by apply enough_height]. Qed.

Lemma rebalanced_elements l st : rebalanced l st -> balanced st /\ elements st = l.
Proof. intros (t & Hg & <- & Ha). split; [by exists t|by apply elements_good]. Qed.

Lemma balanced_Init : balanced BAVL_Init.
Proof. exists E. split; [split; [done|constructor]|]. exists 0. constructor. Qed.

Lemma balanced_nodup st : balanced st -> NoDup (elements st).
Proof. intros (t & Hg & _). rewrite (elements_good _ _ Hg). apply Hg. Qed.

(** A total run. *)
Lemma bavl_spec_run {A} (m : M A) st P : spec m st P -> exists a st', m st = Some (a, st') /\ P a st'.
Proof. unfold spec. destruct (m st) as [[a st']|]; [eauto|done]. Qed.

Lemma lookup_exact_run st f : balanced st -> (forall y, in_range (f y)) -> seeks f (elements st) ->
  exists r, BAVL_LookupExact (enough st) f st = Some (r, st) /\ match r with Some x => x ∈ elements st /\ f x = 0 | None => forall x, x ∈ elements st -> f x <> 0 end.
Proof.
  intros (t & Hg & _) Hr Hs. rewrite (elements_good _ _ Hg) in *. pose proof Hg as [[_ Hroot] _]. unfold BAVL_LookupExact, mbind, M_bind, get_root. rewrite Hroot. destruct (root_of t) as [n|] eqn:Hn; [|destruct t; [exists None; split; [done|set_solver]|done]].
  destruct (bavl_spec_run _ _ _ (lookup_loop_ok true f t [] (enough st) st n Hr (proj1 Hg) Hn (enough_height _ _ Hg) Hs ltac:(split; set_solver))) as (r & st' & E & -> & Hres). exists r. rewrite E. split; [done|]. destruct Hres as [(y & -> & H0 & Hy)|[Hno ->]]; done.
Qed.

Lemma insert_run st cmp x : balanced st -> (forall a b, in_range (cmp a b)) -> seeks (cmp x) (elements st) -> x ∉ elements st ->
  exists res st', BAVL_Insert (enough st) cmp x st = Some (res, st') /\ balanced st' /\
    ((exists y, res = (0, Some y) /\ y ∈ elements st /\ cmp x y = 0 /\ st' = st)
     \/ (res.1 = 1 /\ exists l1 l2, elements st = l1 ++ l2 /\ (forall y, y ∈ l1 -> 0 < cmp x y) /\ (forall y, y ∈ l2 -> cmp x y < 0) /\ elements st' = l1 ++ x :: l2)).
Proof.
  intros Hb Hr Hs Hx. pose proof Hb as (t & Hg & H & Ha). rewrite (elements_good _ _ Hg) in *. destruct (bavl_spec_run _ _ _ (bavl_insert_ok st t cmp x H Hg Ha Hr Hs Hx)) as (res & st' & E & Hres). exists res, st'. split; [done|].
  destruct Hres as [(y & -> & Hy & H0 & ->)|(E1 & l1 & l2 & El & H1 & H2 & [Hb' El']%rebalanced_elements)]; (split; [done|]); [left|right]; eauto 10.
Qed.

Lemma remove_run st x : balanced st -> x ∈ elements st -> exists st', BAVL_Remove (enough st) x st = Some (tt, st') /\ balanced st' /\ elements st' = filter (fun y => y <> x) (elements st).
Proof.
  intros (t & Hg & H & Ha) Hx. rewrite (elements_good _ _ Hg) in *. destruct (bavl_spec_run _ _ _ (bavl_remove_ok st t x H Hg Ha Hx)) as ([] & st' & E & [Hb El]%rebalanced_elements). eauto.
Qed.

#[export] Instance bavl_Avl : Avl BAVL :=
  {| tree_Init := BAVL_Init; tree_elements := elements;
     tree_Insert cmp x st := match BAVL_Insert (enough st) cmp x st with Some ((r, _), st') => if r =? 1 then Some st' else None | None => None end;
     tree_Remove x st := snd <$> BAVL_Remove (enough st) x st;
     tree_GetFirst st := match BAVL_GetFirst (enough st) st with Some (r, _) => r | None => None end;
     tree_LookupExact f st := match BAVL_LookupExact (enough st) f st with Some (r, _) => r | None => None end |}.

#[export] Instance bavl_AvlLaws : AvlLaws BAVL.
Proof.
  refine {| tree_ok := balanced |}; cbn [tree_Init tree_elements tree_Insert tree_Remove tree_GetFirst tree_LookupExact bavl_Avl].
  - split; [apply balanced_Init|done].
  - intros st (t & Hg & _). rewrite (elements_good _ _ Hg). destruct (bavl_spec_run _ _ _ (BAVL_GetFirst_ok st t Hg)) as (r & st' & E & _ & ->). by rewrite E.
  - intros f st Hb Hr Hs. destruct (lookup_exact_run st f Hb Hr Hs) as (r & E & Hres). by rewrite E.
  - intros st x Hb _ Hx. destruct (remove_run st x Hb Hx) as (st' & E & Hb' & El). exists st'. by rewrite E.
  - intros cmp st x Hb Hr Ho Hord Hx. destruct (insert_run st cmp x Hb Hr (order_seeks _ _ _ Ho Hord Hx) Hx) as (res & st' & E & Hb' & Hres). rewrite E. destruct res as [r ref].
    destruct Hres as [(y & _ & Hy & H0 & _)|(E1 & l1 & l2 & El & H1 & H2 & El')]; [apply (o_eq _ _ Ho) in H0; [by subst|by left|by right]|].
    cbn in E1. subst r. exists st'. split; [done|]. split; [done|]. rewrite El', El. split; [by rewrite Permutation_middle|]. rewrite El in Hord. apply ordered_middle; [done| |done].
    intros y Hy. apply (o_anti _ _ Ho); [right; rewrite El; set_solver|by left|by apply H1].
Qed.

(** ** Refinement of a sorted list *)

Inductive op := OInsert (x : nat) | ORemove (x : nat) | OLookup (x : nat) | OFirst | OLast | ONext (x : nat) | OPrev (x : nat) | OEmpty | OVerify.

(** What an operation returns.  The reference that [BAVL_Insert] returns with a new node depends on the shape of
    the tree and is left out. *)
Inductive answer := Inserted (r : Z) (ref : option nat) | Node (n : option nat) | Flag (b : bool) | Done.

Definition run_op (cmp : nat -> nat -> Z) (o : op) (st : BAVL) : option (answer * BAVL) :=
  let fuel := enough st in
  match o with
  | OInsert x => '((r, ref), st) ← BAVL_Insert fuel cmp x st; Some (Inserted r (if r =? 0 then ref else None), st)
  | ORemove x => '(_, st) ← BAVL_Remove fuel x st; Some (Done, st)
  | OLookup x => '(n, st) ← BAVL_LookupExact fuel (cmp x) st; Some (Node n, st)
  | OFirst => '(n, st) ← BAVL_GetFirst fuel st; Some (Node n, st)
  | OLast => '(n, st) ← BAVL_GetLast fuel st; Some (Node n, st)
  | ONext x => '(n, st) ← BAVL_GetNext fuel x st; Some (Node n, st)
  | OPrev x => '(n, st) ← BAVL_GetPrev fuel x st; Some (Node n, st)
  | OEmpty => Some (Flag (BAVL_IsEmpty st), st)
  | OVerify => '(_, st) ← BAVL_Verify fuel cmp st; Some (Done, st)
  end.

(** What is before an element, and what is after it. *)
Fixpoint split_at (x : nat) (l : list nat) : option (list nat * list nat) :=
  match l with
  | [] => None
  | y :: l => if decide (y = x) then Some ([], l) else '(l1, l2) ← split_at x l; Some (y :: l1, l2)
  end.

(** The operations on a sorted list; [None]: outside the contract. *)
Definition spec_op (cmp : nat -> nat -> Z) (o : op) (l : list nat) : option (answer * list nat) :=
  match o with
  | OInsert x => if decide (x ∈ l) then None else
      match sorted_insert cmp x l with Some l' => Some (Inserted 1 None, l') | None => Some (Inserted 0 (sorted_lookup (cmp x) l), l) end
  | ORemove x => if decide (x ∈ l) then Some (Done, filter (fun y => y <> x) l) else None
  | OLookup x => Some (Node (sorted_lookup (cmp x) l), l)
  | OFirst => Some (Node (head l), l)
  | OLast => Some (Node (last l), l)
  | ONext x => '(_, l2) ← split_at x l; Some (Node (head l2), l)
  | OPrev x => '(l1, _) ← split_at x l; Some (Node (last l1), l)
  | OEmpty => Some (Flag (bool_decide (l = [])), l)
  | OVerify => Some (Done, l)
  end.

Fixpoint run_ops {S} (step : op -> S -> option (answer * S)) (os : list op) (s : S) : option (list answer * S) :=
  match os with
  | [] => Some ([], s)
  | o :: os => '(a, s) ← step o s; '(rs, s) ← run_ops step os s; Some (a :: rs, s)
  end.

Definition simulates (cmp : nat -> nat -> Z) (st : BAVL) (l : list nat) : Prop := balanced st /\ elements st = l /\ ordered cmp l.

Lemma weak_seeks cmp x l : weak_order cmp -> ordered cmp l -> seeks (cmp x) l.
Proof. intros Hc Ho i j a b Ha Hb Hij Hle. eapply (w_trans _ Hc); [exact Hle|by apply (Ho i j)]. Qed.

(** At most one element of a sorted list compares equal. *)
Lemma seeks_lookup f l x : seeks f l -> x ∈ l -> f x = 0 -> sorted_lookup f l = Some x.
Proof.
  induction l as [|y l IH]; intros Hs Hx H0; [set_solver|]. cbn. destruct (Z.eqb_spec (f y) 0) as [Ey|Ey].
  - apply elem_of_cons in Hx as [->|[j Hj]%list_elem_of_lookup]; [done|]. pose proof (Hs 0%nat (S j) y x eq_refl Hj ltac:(lia) ltac:(lia)). lia.
  - apply elem_of_cons in Hx as [->|Hx]; [done|]. apply IH; [|done|done]. intros i j a b Ha Hb Hij. by apply (Hs (S i) (S j)); [..|lia].
Qed.

Lemma sorted_insert_dup cmp x l y : seeks (cmp x) l -> y ∈ l -> cmp x y = 0 -> sorted_insert cmp x l = None.
Proof.
  induction l as [|z l IH]; intros Hs Hy H0; [set_solver|]. cbn. destruct (Z.eqb_spec (cmp x z) 0) as [Ez|Ez]; [done|]. apply elem_of_cons in Hy as [->|Hy]; [done|].
  destruct (Z.ltb_spec (cmp x z) 0) as [Hz|Hz].
  - apply list_elem_of_lookup in Hy as [j Hj]. pose proof (Hs 0%nat (S j) z y eq_refl Hj ltac:(lia) ltac:(lia)). lia.
  - rewrite IH; [done| |done|done]. intros i j a b Ha Hb Hij. by apply (Hs (S i) (S j)); [..|lia].
Qed.

Lemma sorted_insert_split cmp x l1 l2 : (forall y, y ∈ l1 -> 0 < cmp x y) -> (forall y, y ∈ l2 -> cmp x y < 0) -> sorted_insert cmp x (l1 ++ l2) = Some (l1 ++ x :: l2).
Proof.
  intros H1 H2. induction l1 as [|y l1 IH]; cbn.
  - destruct l2 as [|z l2]; [done|]. cbn. pose proof (H2 z ltac:(set_solver)). destruct (Z.eqb_spec (cmp x z) 0); [lia|]. destruct (Z.ltb_spec (cmp x z) 0); [done|lia].
  - pose proof (H1 y ltac:(set_solver)). destruct (Z.eqb_spec (cmp x y) 0); [lia|]. destruct (Z.ltb_spec (cmp x y) 0); [lia|]. rewrite IH by set_solver. done.
Qed.

Lemma split_at_spec x l l1 l2 : split_at x l = Some (l1, l2) -> l = l1 ++ x :: l2.
Proof.
  revert l1. induction l as [|y l IH]; intros l1; cbn; [done|]. case_decide as Ey; [intros [= <- <-]; by subst|]. destruct (split_at x l) as [[a b]|]; cbn; [|done]. intros [= <- <-]. cbn. by rewrite (IH a eq_refl).
Qed.

Lemma lookup_none f l : (forall x, x ∈ l -> f x <> 0) -> sorted_lookup f l = None.
Proof. induction l as [|y l IH]; intros Hl; [done|]. cbn. destruct (Z.eqb_spec (f y) 0) as [E|_]; [by apply Hl in E; [|set_solver]|apply IH; set_solver]. Qed.

Lemma sim_insert cmp st l x : weak_order cmp -> simulates cmp st l -> x ∉ l ->
  exists r l' st', spec_op cmp (OInsert x) l = Some (r, l') /\ run_op cmp (OInsert x) st = Some (r, st') /\ simulates cmp st' l'.
Proof.
  intros Hc (Hb & El & Ho) Hx. subst l. pose proof (weak_seeks cmp x _ Hc Ho) as Hs. destruct (insert_run st cmp x Hb (w_range _ Hc) Hs Hx) as (res & st' & E & Hb' & Hres). unfold spec_op, run_op. rewrite decide_False, E by done. destruct res as [r ref].
  destruct Hres as [(y & [= -> ->] & Hy & H0 & ->)|(E1 & l1 & l2 & El & H1 & H2 & El')].
  - rewrite (sorted_insert_dup cmp x _ y Hs Hy H0), (seeks_lookup _ _ y Hs Hy H0). by eexists _, _, _.
  - cbn in E1. subst r. rewrite El, sorted_insert_split by done. eexists _, _, _. split; [done|]. split; [done|]. split; [done|]. split; [done|]. rewrite El in Ho. apply ordered_middle; [done| |done]. intros y Hy. apply (w_anti _ Hc). by apply H1.
Qed.

Lemma sim_step cmp st l o r l' : weak_order cmp -> simulates cmp st l -> spec_op cmp o l = Some (r, l') -> exists st', run_op cmp o st = Some (r, st') /\ simulates cmp st' l'.
Proof.
  intros Hc Hsim Es. pose proof Hsim as (Hb & El & Ho). pose proof Hb as (t & Hg & H & Ha). pose proof (elements_good _ _ Hg) as Et. destruct o as [x|x|x| | |x|x| |].
  - cbn in Es. case_decide as Hx; [done|]. destruct (sim_insert cmp st l x Hc Hsim Hx) as (r' & l1 & st' & Es' & Er & Hsim'). cbn in Es'. rewrite decide_False in Es' by done. rewrite Es in Es'. injection Es' as <- <-. eauto.
  - cbn in Es. case_decide as Hx; [|done]. injection Es as <- <-. subst l. destruct (remove_run st x Hb Hx) as (st' & E & Hb' & El'). unfold run_op. rewrite E. eexists. split; [done|]. split; [done|]. split; [done|]. by apply ordered_filter.
  - cbn in Es. injection Es as <- <-. subst l. destruct (lookup_exact_run st (cmp x) Hb (w_range _ Hc x) (weak_seeks _ _ _ Hc Ho)) as (r & E & Hres). unfold run_op. rewrite E. exists st. split; [|done]. cbn. do 2 f_equal. f_equal. destruct r as [y|].
    + destruct Hres as [Hy H0]. symmetry. apply seeks_lookup; [by apply weak_seeks|done|done].
    + symmetry. by apply lookup_none.
  - cbn in Es. injection Es as <- <-. destruct (bavl_spec_run _ _ _ (BAVL_GetFirst_ok st t Hg)) as (n & st' & E & -> & ->). unfold run_op. rewrite E. exists st. split; [|done]. cbn. by rewrite <- El, Et.
  - cbn in Es. injection Es as <- <-. destruct (bavl_spec_run _ _ _ (BAVL_GetLast_ok st t Hg)) as (n & st' & E & -> & ->). unfold run_op. rewrite E. exists st. split; [|done]. cbn. by rewrite <- El, Et.
  - cbn in Es. destruct (split_at x l) as [[l1 l2]|] eqn:Esp; [|done]. injection Es as <- <-. apply split_at_spec in Esp. destruct (bavl_spec_run _ _ _ (BAVL_GetNext_ok st t l1 x l2 Hg ltac:(congruence))) as (n & st' & E & -> & ->). unfold run_op. rewrite E. by exists st.
  - cbn in Es. destruct (split_at x l) as [[l1 l2]|] eqn:Esp; [|done]. injection Es as <- <-. apply split_at_spec in Esp. destruct (bavl_spec_run _ _ _ (BAVL_GetPrev_ok st t l1 x l2 Hg ltac:(congruence))) as (n & st' & E & -> & ->). unfold run_op. rewrite E. by exists st.
  - cbn in Es. injection Es as <- <-. exists st. split; [|done]. cbn. do 3 f_equal. unfold BAVL_IsEmpty. destruct Hg as [[_ ->] _]. apply bool_decide_ext. rewrite <- El, Et. destruct t as [|b tl a tr]; cbn; [done|]. split; [done|]. destruct (inorder tl); done.
  - cbn in Es. injection Es as <- <-. destruct (bavl_spec_run _ _ _ (BAVL_Verify_ok cmp st t H Hc Hg Ha ltac:(by rewrite <- Et, El))) as (n & st' & E & ->). unfold run_op. rewrite E. by exists st.
Qed.

Lemma sim_runs cmp os : forall st l rs l', weak_order cmp -> simulates cmp st l -> run_ops (spec_op cmp) os l = Some (rs, l') -> exists st', run_ops (run_op cmp) os st = Some (rs, st') /\ simulates cmp st' l'.
Proof.
  induction os as [|o os IH]; intros st l rs l' Hc Hsim Er; cbn in *; [injection Er as <- <-; eauto|]. destruct (spec_op cmp o l) as [[r l1]|] eqn:Eo; [|done]. cbn in Er. destruct (run_ops _ os l1) as [[rs' l2]|] eqn:Eos; [|done]. cbn in Er. injection Er as <- <-.
  destruct (sim_step cmp st l o r l1 Hc Hsim Eo) as (st1 & -> & Hsim1). cbn. destruct (IH st1 l1 rs' l2 Hc Hsim1 Eos) as (st2 & -> & Hsim2). cbn. eauto.
Qed.

(** C23. A tree made by any sequence of operations, from the empty tree on, behaves as a sorted list, when the
    keys are compared by a total preorder and the operations keep their contract (a node that is
    inserted is not in the tree, a node that is removed or walked from is): every insertion, look-up,
    removal and walk returns what it returns on the list, no pointer outside the tree is followed, no
    assertion fails, and the check of [BAVL_Verify] passes whenever it is made. *)
Theorem bavl_refines_sorted_list cmp os rs l : weak_order cmp -> run_ops (spec_op cmp) os [] = Some (rs, l) ->
  exists st, run_ops (run_op cmp) os BAVL_Init = Some (rs, st) /\ balanced st /\ elements st = l /\ ordered cmp l.
Proof. intros Hc. apply sim_runs; [done|]. split; [apply balanced_Init|]. split; [done|apply ordered_nil]. Qed.

(** C24. A look-up in a tree of [n] nodes, made by any sequence of operations, ends after at most
    [2 * log2 (n + 1)] comparisons: the loop succeeds with a fuel [h] where [2 ^ h] is at most
    [(n + 1) ^ 2]. *)
Theorem bavl_lookup_steps cmp os rs l x : weak_order cmp -> run_ops (spec_op cmp) os [] = Some (rs, l) ->
  exists st h, run_ops (run_op cmp) os BAVL_Init = Some (rs, st) /\ 2 ^ Z.of_nat h <= (Z.of_nat (length l) + 1) ^ 2
    /\ BAVL_LookupExact h (cmp x) st = Some (sorted_lookup (cmp x) l, st).
Proof.
  intros Hc Er. destruct (sim_runs cmp os BAVL_Init [] rs l Hc) as (st & E & Hb & El & Ho); [split; [apply balanced_Init|]; split; [done|apply ordered_nil]|done|]. destruct Hb as (t & Hg & H & Ha). rewrite (elements_good _ _ Hg) in El. subst l.
  exists st, (height t). split; [done|]. split; [rewrite <- (avl_height _ _ Ha); by apply avl_size|]. pose proof Hg as [[_ Hroot] _]. unfold BAVL_LookupExact, mbind, M_bind, get_root. rewrite Hroot. pose proof (weak_seeks cmp x _ Hc Ho) as Hs. destruct (root_of t) as [n|] eqn:Hn; [|by destruct t].
  destruct (bavl_spec_run _ _ _ (lookup_loop_ok true (cmp x) t [] (height t) st n (w_range _ Hc x) (proj1 Hg) Hn ltac:(done) Hs ltac:(split; set_solver))) as (r & st' & -> & -> & Hres). do 2 f_equal.
  destruct Hres as [(y & -> & H0 & Hy)|[Hno ->]]; [symmetry; by apply seeks_lookup|symmetry; by apply lookup_none].
Qed.

(** ** Examples *)

Module BavlExample.

Definition by_key (x y : nat) : Z := Z.sgn (Z.of_nat (x mod 100) - Z.of_nat (y mod 100)).

Lemma by_key_order : weak_order by_key.
Proof.
  split; unfold by_key, in_range; intros; lia.
Qed.

Definition ops : list op := [OInsert 4; OInsert 2; OInsert 1; OInsert 3; OInsert 6; OInsert 5; OInsert 7; OInsert 104; OVerify; ORemove 4; OVerify; ORemove 7; ORemove 6; OLookup 103; OFirst; OLast; ONext 3; OPrev 3; ORemove 5; OVerify; OEmpty].
Definition answers : list answer :=
  [Inserted 1 None; Inserted 1 None; Inserted 1 None; Inserted 1 None; Inserted 1 None; Inserted 1 None; Inserted 1 None; Inserted 0 (Some 4%nat); Done; Done; Done; Done; Done; Node (Some 3%nat); Node (Some 1%nat); Node (Some 5%nat); Node (Some 5%nat); Node (Some 2%nat); Done; Done; Flag false].

Lemma bavl_refines_sorted_list_witness : run_ops (spec_op by_key) ops [] = Some (answers, [1; 2; 3]%nat)
  /\ exists st, run_ops (run_op by_key) ops BAVL_Init = Some (answers, st) /\ balanced st /\ elements st = [1; 2; 3]%nat /\ ordered by_key [1; 2; 3]%nat.
Proof. split; [vm_compute; reflexivity|]. apply (bavl_refines_sorted_list by_key ops answers); [apply by_key_order|vm_compute; reflexivity]. Defined.

Lemma bavl_lookup_steps_witness : exists st h, run_ops (run_op by_key) ops BAVL_Init = Some (answers, st) /\ 2 ^ Z.of_nat h <= 16 /\ BAVL_LookupExact h (by_key 103) st = Some (Some 3%nat, st).
Proof. apply (bavl_lookup_steps by_key ops answers [1; 2; 3]%nat 103); [apply by_key_order|vm_compute; reflexivity]. Defined.

End BavlExample.
