(* ===== verification/FairQueue.v ===== *)
(** * The fair queue

    Models badvpn/flow/PacketPassFairQueue.c: many flows share one output; the flow that has
    sent least, in bytes and a weight per packet, goes first.  The queued flows are in a
    balanced tree ordered by their time; the times live in the flows, not in the tree, and
    are all lowered together when one of them would overflow 64 bits.

    The tree is any instance of [Avl].  A flow is named by its address.  A function is [None] where the code
    would violate an assertion or the contract of an interface, or use a freed flow. *)

From S2P Require Import Prelude Baddr Avl.

Definition FAIRQUEUE_MAX_TIME : Z := 2 ^ 64 - 1.

(** ** State *)

Record Flow := mkFlow { time : Z; is_queued : bool; queued_data : list Z; handler_busy : bool }.

Record PacketPassFairQueue (T : Type) := mkQueue {
  flows : gmap nat Flow; flows_list : list nat; queued_tree : T;
  sending_flow : option nat; sending_data : list Z; sending_len : Z; previous_flow : option nat;
  freeing : bool; schedule_job : bool; packet_weight : Z; output_mtu : Z; use_cancel : bool
}.
#[global] Arguments mkQueue {T}.
#[global] Arguments flows {T}. #[global] Arguments flows_list {T}. #[global] Arguments queued_tree {T}.
#[global] Arguments sending_flow {T}. #[global] Arguments sending_data {T}. #[global] Arguments sending_len {T}. #[global] Arguments previous_flow {T}.
#[global] Arguments freeing {T}. #[global] Arguments schedule_job {T}. #[global] Arguments packet_weight {T}. #[global] Arguments output_mtu {T}. #[global] Arguments use_cancel {T}.

Definition assert (c : bool) : option unit := if c then Some tt else None.
Definition is_flow (x : nat) (o : option nat) : bool := match o with Some y => Nat.eqb x y | None => false end.
Definition none {A} (o : option A) : bool := match o with None => true | _ => false end.

Section Queue.
Context {T : Type} `{Avl T}.
#[local] Notation Q := (PacketPassFairQueue T).

Definition set_flows (h : gmap nat Flow) (t : T) (m : Q) : Q :=
  mkQueue h (flows_list m) t (sending_flow m) (sending_data m) (sending_len m) (previous_flow m) (freeing m) (schedule_job m) (packet_weight m) (output_mtu m) (use_cancel m).
Definition set_sending (f : option nat) (data : list Z) (len : Z) (m : Q) : Q :=
  mkQueue (flows m) (flows_list m) (queued_tree m) f data len (previous_flow m) (freeing m) (schedule_job m) (packet_weight m) (output_mtu m) (use_cancel m).
Definition set_previous (f : option nat) (m : Q) : Q :=
  mkQueue (flows m) (flows_list m) (queued_tree m) (sending_flow m) (sending_data m) (sending_len m) f (freeing m) (schedule_job m) (packet_weight m) (output_mtu m) (use_cancel m).
Definition set_job (b : bool) (m : Q) : Q :=
  mkQueue (flows m) (flows_list m) (queued_tree m) (sending_flow m) (sending_data m) (sending_len m) (previous_flow m) (freeing m) b (packet_weight m) (output_mtu m) (use_cancel m).

Definition with_time (t : Z) (f : Flow) : Flow := mkFlow t (is_queued f) (queued_data f) (handler_busy f).
Definition with_queued (b : bool) (d : list Z) (f : Flow) : Flow := mkFlow (time f) b d (handler_busy f).
Definition with_busy (b : bool) (f : Flow) : Flow := mkFlow (time f) (is_queued f) (queued_data f) b.

(** [compare_flows], in the memory [h]. *)
Definition time_of (h : gmap nat Flow) (x : nat) : Z := match h !! x with Some f => time f | None => 0 end.
Definition compare_flows (h : gmap nat Flow) (f1 f2 : nat) : Z :=
  let cmp := B_COMPARE (time_of h f1) (time_of h f2) in
  if negb (cmp =? 0) then cmp else B_COMPARE (Z.of_nat f1) (Z.of_nat f2).

Definition get_current_time (m : Q) : option Z :=
  match sending_flow m with
  | Some s => f ← flows m !! s; Some (time f)
  | None =>
      first ← (match tree_GetFirst (queued_tree m) with
               | Some x => f ← flows m !! x; assert (is_queued f);; Some (Some (time f))
               | None => Some None
               end);
      match previous_flow m with
      | Some p =>
          f ← flows m !! p;
          Some (match first with Some t => if time f <? t then time f else t | None => time f end)
      | None => Some (default 0 first)
      end
  end.

(** One round of the loop that lowers the times. *)
Definition subtract_one (flow : nat) (subtract : Z) (someflow : nat) (h : gmap nat Flow) : option (gmap nat Flow) :=
  f ← h !! someflow;
  if (time f <? subtract) && negb (Nat.eqb someflow flow) then
    assert (negb (is_queued f));; Some (<[someflow := with_time 0 f]> h)
  else Some (<[someflow := with_time (u64 (time f - subtract)) f]> h).

Fixpoint subtract_all (flow : nat) (subtract : Z) (l : list nat) (h : gmap nat Flow) : option (gmap nat Flow) :=
  match l with
  | [] => Some h
  | x :: l => h ← subtract_one flow subtract x h; subtract_all flow subtract l h
  end.

Definition increment_sent_flow (flow : nat) (amount : Z) (m : Q) : option Q :=
  f ← flows m !! flow;
  assert ((amount <=? FAIRQUEUE_MAX_TIME) && negb (is_queued f) && none (sending_flow m));;
  h ← (if FAIRQUEUE_MAX_TIME - time f <? amount then
         subtract ← (match tree_GetFirst (queued_tree m) with
                     | None => Some (time f)
                     | Some x => g ← flows m !! x; assert (is_queued g);; Some (time g)
                     end);
         subtract_all flow subtract (flows_list m) (flows m)
       else Some (flows m));
  f ← h !! flow;
  Some (set_flows (<[flow := with_time (u64 (time f + amount)) f]> h) (queued_tree m) m).

(** [PacketPassInterface_Sender_Send] of the output: only when it is not sending. *)
Definition schedule (m : Q) : option Q :=
  assert (none (sending_flow m) && none (previous_flow m) && negb (freeing m));;
  q ← tree_GetFirst (queued_tree m);
  f ← flows m !! q;
  assert (is_queued f);;
  t ← tree_Remove q (queued_tree m);
  let m := set_flows (<[q := with_queued false (queued_data f) f]> (flows m)) t m in
  Some (set_sending (Some q) (queued_data f) (Z.of_nat (length (queued_data f))) m).

Definition schedule_job_handler (m : Q) : option Q :=
  let m := set_job false m in
  assert (none (sending_flow m) && negb (freeing m));;
  let m := set_previous None m in
  if negb (none (tree_GetFirst (queued_tree m))) then schedule m else Some m.

Definition input_handler_send (flow : nat) (data : list Z) (m : Q) : option Q :=
  f ← flows m !! flow;
  assert (negb (is_flow flow (sending_flow m)) && negb (is_queued f) && negb (freeing m));;
  '(f, m) ← (if is_flow flow (previous_flow m) then Some (f, set_previous None m)
             else t ← get_current_time m; Some (with_time (Z.max (time f) t) f, m));
  let f := with_queued (is_queued f) data f in
  let h := <[flow := f]> (flows m) in
  t ← tree_Insert (compare_flows h) flow (queued_tree m);
  let m := set_flows (<[flow := with_queued true data f]> h) t m in
  if none (sending_flow m) && negb (schedule_job m) then schedule m else Some m.

(** The result: the state, and the flow whose busy handler is called. *)
Definition output_handler_done (m : Q) : option (Q * option nat) :=
  flow ← sending_flow m;
  f ← flows m !! flow;
  assert (none (previous_flow m) && negb (schedule_job m) && negb (freeing m) && negb (is_queued f));;
  let m := set_sending None (sending_data m) (sending_len m) m in
  let m := set_previous (Some flow) m in
  m ← increment_sent_flow flow (u64 (packet_weight m + sending_len m)) m;
  let m := set_job true m in
  f ← flows m !! flow;
  if handler_busy f then Some (set_flows (<[flow := with_busy false f]> (flows m)) (queued_tree m) m, Some flow)
  else Some (m, None).

(** [Some None]: the MTU of the output is too large. *)
Definition PacketPassFairQueue_Init (mtu : Z) (cancel has_cancel : bool) (weight : Z) : option (option Q) :=
  assert ((0 <? weight) && (negb cancel || has_cancel));;
  if negb ((mtu <=? FAIRQUEUE_MAX_TIME) && (weight <=? FAIRQUEUE_MAX_TIME - mtu)) then Some None else
  Some (Some (mkQueue ∅ [] tree_Init None [] 0 None false false weight mtu cancel)).

Definition PacketPassFairQueue_PrepareFree (m : Q) : Q :=
  mkQueue (flows m) (flows_list m) (queued_tree m) (sending_flow m) (sending_data m) (sending_len m) (previous_flow m) true (schedule_job m) (packet_weight m) (output_mtu m) (use_cancel m).

(** At an address that is not in use. *)
Definition PacketPassFairQueueFlow_Init (flow : nat) (m : Q) : option Q :=
  assert (negb (freeing m) && none (flows m !! flow));;
  Some (mkQueue (<[flow := mkFlow 0 false [] false]> (flows m)) (flows_list m ++ [flow]) (queued_tree m) (sending_flow m) (sending_data m) (sending_len m) (previous_flow m)
          (freeing m) (schedule_job m) (packet_weight m) (output_mtu m) (use_cancel m)).

Definition PacketPassFairQueueFlow_Free (flow : nat) (m : Q) : option Q :=
  f ← flows m !! flow;
  assert (freeing m || negb (is_flow flow (sending_flow m)));;
  let m := if is_flow flow (sending_flow m) then set_sending None (sending_data m) (sending_len m) m else m in
  let m := if is_flow flow (previous_flow m) then set_previous None m else m in
  t ← (if is_queued f then tree_Remove flow (queued_tree m) else Some (queued_tree m));
  Some (mkQueue (delete flow (flows m)) (filter (fun y => y <> flow) (flows_list m)) t (sending_flow m) (sending_data m) (sending_len m) (previous_flow m)
          (freeing m) (schedule_job m) (packet_weight m) (output_mtu m) (use_cancel m)).

Definition PacketPassFairQueueFlow_IsBusy (flow : nat) (m : Q) : option bool :=
  _ ← flows m !! flow; assert (negb (freeing m));; Some (is_flow flow (sending_flow m)).

Definition PacketPassFairQueueFlow_SetBusyHandler (flow : nat) (b : bool) (m : Q) : option Q :=
  f ← flows m !! flow;
  assert (is_flow flow (sending_flow m) && negb (freeing m));;
  Some (set_flows (<[flow := with_busy b f]> (flows m)) (queued_tree m) m).

(** Whether the queue may be freed. *)
Definition PacketPassFairQueue_Free (m : Q) : option unit :=
  assert (match flows_list m with [] => true | _ => false end && none (tree_GetFirst (queued_tree m)) && none (previous_flow m) && none (sending_flow m)).

(** ** Runs *)

(** What happens around the queue: the source of a flow sends a packet, the output is done,
    the job runs, flows come and go. *)
Inductive event :=
  | EvSend (flow : nat) (data : list Z) | EvOutputDone | EvJob
  | EvFlowInit (flow : nat) | EvFlowFree (flow : nat) | EvBusyHandler (flow : nat) (b : bool) | EvPrepareFree.

(** The contract of the interfaces: a source sends when its last packet is done, packets have
    at most the size of the MTU; a flow is freed when it is not busy, or after
    [PrepareFree], when no I/O is done any more. *)
Definition possible (ev : event) (m : Q) : bool :=
  match ev with
  | EvSend x data =>
      negb (freeing m) && negb (is_flow x (sending_flow m)) && (Z.of_nat (length data) <=? output_mtu m)
      && match flows m !! x with Some f => negb (is_queued f) | None => false end
  | EvOutputDone => negb (freeing m) && negb (none (sending_flow m))
  | EvJob => negb (freeing m) && schedule_job m
  | EvFlowInit x => negb (freeing m) && none (flows m !! x)
  | EvFlowFree x => negb (none (flows m !! x)) && (freeing m || negb (is_flow x (sending_flow m)))
  | EvBusyHandler x _ => negb (freeing m) && is_flow x (sending_flow m)
  | EvPrepareFree => true
  end.

(** The result: the state, and the packet that was sent, with its flow. *)
Definition step (ev : event) (m : Q) : option (Q * list (nat * list Z)) :=
  match ev with
  | EvSend x data => m ← input_handler_send x data m; Some (m, [])
  | EvOutputDone => s ← sending_flow m; '(m', _) ← output_handler_done m; Some (m', [(s, sending_data m)])
  | EvJob => m ← schedule_job_handler m; Some (m, [])
  | EvFlowInit x => m ← PacketPassFairQueueFlow_Init x m; Some (m, [])
  | EvFlowFree x => m ← PacketPassFairQueueFlow_Free x m; Some (m, [])
  | EvBusyHandler x b => m ← PacketPassFairQueueFlow_SetBusyHandler x b m; Some (m, [])
  | EvPrepareFree => Some (PacketPassFairQueue_PrepareFree m, [])
  end.

Fixpoint run (evs : list event) (m : Q) : option (Q * list (nat * list Z)) :=
  match evs with
  | [] => Some (m, [])
  | ev :: evs => '(m, o1) ← step ev m; '(m, o2) ← run evs m; Some (m, o1 ++ o2)
  end.

Fixpoint possible_run (evs : list event) (m : Q) : bool :=
  match evs with
  | [] => true
  | ev :: evs => possible ev m && match step ev m with Some (m, _) => possible_run evs m | None => true end
  end.

End Queue.
