(* ===== verification/FairQueueSpec.v ===== *)
(** * The fair queue: theorems

    The invariant of the queue, for any tree that keeps its elements in order; that no packet is
    lost and none waits for ever. *)

From S2P Require Import Prelude Baddr Avl Bavl BavlRefine FairQueue.

(** ** Orders *)

(** [compare_flows] is the order by time, then by address. *)
Lemma compare_lt h x y : compare_flows h x y < 0 <-> time_of h x < time_of h y \/ (time_of h x = time_of h y /\ (x < y)%nat).
Proof.
  unfold compare_flows. destruct (Z.eqb_spec (B_COMPARE (time_of h x) (time_of h y)) 0) as [E|E]; cbn [negb]; rewrite B_COMPARE_lt; rewrite B_COMPARE_0 in E; lia.
Qed.
Lemma compare_gt h x y : 0 < compare_flows h x y <-> time_of h y < time_of h x \/ (time_of h x = time_of h y /\ (y < x)%nat).
Proof.
  unfold compare_flows. destruct (Z.eqb_spec (B_COMPARE (time_of h x) (time_of h y)) 0) as [E|E]; cbn [negb]; rewrite B_COMPARE_gt; rewrite B_COMPARE_0 in E; lia.
Qed.

Lemma compare_order h P : order_on (compare_flows h) P.
Proof.
  split.
  - intros x y _ _. pose proof (compare_lt h x y). pose proof (compare_gt h x y). split; [intros E; rewrite E in *|intros ->]; lia.
  - intros x y _ _. rewrite compare_lt, compare_gt. lia.
  - intros x y z _ _ _. rewrite !compare_lt. lia.
Qed.

Lemma B_COMPARE_range a b : in_range (B_COMPARE a b).
Proof. unfold in_range, B_COMPARE. destruct (Z.ltb_spec b a), (Z.ltb_spec a b); cbn; lia. Qed.
Lemma compare_in_range h x y : in_range (compare_flows h x y).
Proof. unfold compare_flows. case_match; apply B_COMPARE_range. Qed.

(** ** The invariant *)

Section Inv.
Context {T : Type} `{HT : Avl T} `{HL : !AvlLaws T}.
#[local] Notation Q := (PacketPassFairQueue T).

Definition queued (m : Q) (x : nat) (f : Flow) : Prop := flows m !! x = Some f /\ is_queued f = true.

(** Without that the output is kept busy. *)
Record inv (m : Q) : Prop := mkInv {
  i_list : NoDup (flows_list m) /\ (forall x, x ∈ flows_list m <-> is_Some (flows m !! x));
  i_order : ordered (compare_flows (flows m)) (tree_elements (queued_tree m));
  i_tree x : x ∈ tree_elements (queued_tree m) <-> exists f, queued m x f;
  i_time x f : flows m !! x = Some f -> 0 <= time f <= FAIRQUEUE_MAX_TIME;
  i_len x f : queued m x f -> Z.of_nat (length (queued_data f)) <= output_mtu m;
  i_sending s : sending_flow m = Some s -> exists f, flows m !! s = Some f /\ is_queued f = false
    /\ sending_len m = Z.of_nat (length (sending_data m)) /\ sending_len m <= output_mtu m
    /\ previous_flow m = None /\ schedule_job m = false /\ (forall x g, queued m x g -> time f <= time g);
  i_previous p : previous_flow m = Some p -> exists f, flows m !! p = Some f /\ is_queued f = false /\ schedule_job m = true;
  i_job : schedule_job m = true -> sending_flow m = None;
  i_weight : 0 < packet_weight m /\ 0 <= output_mtu m /\ packet_weight m + output_mtu m <= FAIRQUEUE_MAX_TIME;
  i_ok : tree_ok (queued_tree m)
}.

(** The queue does not idle while a flow is queued. *)
Definition works (m : Q) : Prop :=
  freeing m = false -> tree_elements (queued_tree m) <> [] -> sending_flow m <> None \/ schedule_job m = true.

Lemma tree_nodup m : inv m -> NoDup (tree_elements (queued_tree m)).
Proof. intros Hi. eapply ordered_nodup; [apply compare_order|apply (i_order m Hi)]. Qed.

(** The first flow in the tree is queued and has the least time. *)
Lemma fq_first_ok m : inv m ->
  match tree_GetFirst (queued_tree m) with
  | None => tree_elements (queued_tree m) = []
  | Some x => exists f, queued m x f /\ forall y g, queued m y g -> time f <= time g
  end.
Proof.
  intros Hi. rewrite elements_GetFirst by apply (i_ok m Hi). pose proof (i_order m Hi) as Ho. destruct (tree_elements (queued_tree m)) as [|x l] eqn:El; [done|]. cbn [head].
  destruct (proj1 (i_tree m Hi x)) as [f Hf]; [rewrite El; set_solver|]. exists f. split; [done|]. intros y g Hg.
  assert (Hy : y ∈ x :: l) by (rewrite <- El; apply (i_tree m Hi); eauto). apply elem_of_cons in Hy as [->|Hy].
  - destruct Hf as [Hf _], Hg as [Hg _]. rewrite Hf in Hg. injection Hg as <-. lia.
  - pose proof (ordered_head _ _ _ _ Ho Hy) as Hlt. rewrite compare_lt in Hlt. unfold time_of in Hlt. destruct Hf as [Hf _], Hg as [Hg _]. rewrite Hf, Hg in Hlt. lia.
Qed.

Lemma no_queued m : inv m -> tree_elements (queued_tree m) = [] -> forall x f, ~ queued m x f.
Proof. intros Hi El x f Hf. assert (Hx : x ∈ tree_elements (queued_tree m)) by (apply (i_tree m Hi); eauto). rewrite El in Hx. set_solver. Qed.

(** ** Lowering the times *)

Definition lowered (flow : nat) (sub : Z) (x : nat) (f : Flow) : Flow :=
  with_time (if (time f <? sub) && negb (Nat.eqb x flow) then 0 else u64 (time f - sub)) f.

Lemma subtract_all_ok flow sub l : forall h, NoDup l -> (forall x, x ∈ l -> exists f, h !! x = Some f /\ (is_queued f = true -> x <> flow -> sub <= time f)) ->
  exists h', subtract_all flow sub l h = Some h' /\ forall x, h' !! x = if decide (x ∈ l) then lowered flow sub x <$> h !! x else h !! x.
Proof.
  induction l as [|y l IH]; intros h Hnd Hl.
  { exists h. split; [done|]. intros x. by rewrite decide_False by set_solver. }
  apply NoDup_cons in Hnd as [Hy Hnd]. destruct (Hl y ltac:(set_solver)) as (f & Hf & Hq). cbn [subtract_all]. unfold subtract_one. rewrite Hf. cbn [mbind option_bind].
  assert (E1 : (if (time f <? sub) && negb (Nat.eqb y flow) then assert (negb (is_queued f));; Some (<[y:=with_time 0 f]> h)
      else Some (<[y:=with_time (u64 (time f - sub)) f]> h)) = Some (<[y := lowered flow sub y f]> h)).
  { unfold lowered. destruct (Z.ltb_spec (time f) sub); cbn [andb]; [|done]. destruct (Nat.eqb_spec y flow); cbn [negb]; [done|].
    destruct (is_queued f); [exfalso; specialize (Hq eq_refl n); lia|done]. }
  rewrite E1. cbn [mbind option_bind]. destruct (IH (<[y := lowered flow sub y f]> h) Hnd) as (h' & E & Hh').
  { intros x Hx. destruct (Hl x ltac:(set_solver)) as (g & Hg & Hgq). exists g. by rewrite lookup_insert_ne by (intros ->; done). }
  exists h'. split; [done|]. intros x. rewrite Hh'. destruct (decide (x = y)) as [->|Hne].
  - rewrite decide_False by done. rewrite decide_True by set_solver. by rewrite lookup_insert_eq, Hf.
  - rewrite lookup_insert_ne by done. destruct (decide (x ∈ l)); [by rewrite decide_True by set_solver|by rewrite decide_False by set_solver].
Qed.

(** [increment_sent_flow] lowers all times by the same amount, as far as they go, and the flow
    gets its new time, without overflow. *)
Lemma increment_ok m flow f amount : NoDup (flows_list m) -> (forall x, x ∈ flows_list m <-> is_Some (flows m !! x)) ->
  flows m !! flow = Some f -> is_queued f = false -> sending_flow m = None ->
  (forall x g, flows m !! x = Some g -> 0 <= time g <= FAIRQUEUE_MAX_TIME) -> 0 <= amount <= FAIRQUEUE_MAX_TIME ->
  match tree_GetFirst (queued_tree m) with
  | None => forall x g, ~ queued m x g
  | Some x => exists g, queued m x g /\ (forall y g', queued m y g' -> time g <= time g') /\ time f <= time g
  end ->
  exists h sub, increment_sent_flow flow amount m = Some (set_flows h (queued_tree m) m) /\ 0 <= sub
    /\ 0 <= time f + amount - sub <= FAIRQUEUE_MAX_TIME /\ h !! flow = Some (with_time (time f + amount - sub) f)
    /\ (forall x, x <> flow -> h !! x = (fun g => with_time (Z.max 0 (time g - sub)) g) <$> flows m !! x)
    /\ (forall x g, queued m x g -> sub <= time g).
Proof.
  intros Hnd Hin Hf Hq Hs Ht Ha Hfirst. unfold increment_sent_flow. rewrite Hf. cbn [mbind option_bind]. rewrite (proj2 (Z.leb_le amount _)), Hq, Hs by lia. cbn [negb none andb assert mbind option_bind].
  pose proof (Ht flow f Hf) as Htf. destruct (Z.ltb_spec (FAIRQUEUE_MAX_TIME - time f) amount) as [Hov|Hov]; cbn match.
  - assert (Hsub : exists sub, match tree_GetFirst (queued_tree m) with None => Some (time f) | Some x => g ← flows m !! x; assert (is_queued g);; Some (time g) end = Some sub
        /\ time f <= sub <= FAIRQUEUE_MAX_TIME /\ forall x g, queued m x g -> sub <= time g).
    { destruct (tree_GetFirst (queued_tree m)) as [x|].
      - destruct Hfirst as (g & [Hg Hgq] & Hmin & Hle). exists (time g). rewrite Hg. cbn [mbind option_bind]. rewrite Hgq. pose proof (Ht x g Hg). split; [done|]. split; [lia|done].
      - exists (time f). split; [done|]. split; [lia|]. intros x g Hg. exfalso. by apply (Hfirst x g). }
    destruct Hsub as (sub & Esub & Hsub & Hqs). rewrite Esub. cbn [mbind option_bind].
    destruct (subtract_all_ok flow sub (flows_list m) (flows m) Hnd) as (h & Eh & Hh).
    { intros x Hx%Hin. destruct Hx as [g Hg]. exists g. split; [done|]. intros Hgq _. by apply (Hqs x). }
    rewrite Eh. cbn [mbind option_bind]. rewrite Hh, decide_True, Hf by (apply Hin; eauto). cbn [fmap option_fmap option_map mbind option_bind].
    assert (Hlf : lowered flow sub flow f = with_time (u64 (time f - sub)) f) by (unfold lowered; by rewrite Nat.eqb_refl, andb_false_r).
    rewrite Hlf. unfold with_time at 1 2. cbn [time is_queued queued_data handler_busy].
    assert (Hnew : u64 (u64 (time f - sub) + amount) = time f + amount - sub).
    { unfold u64. rewrite Zplus_mod_idemp_l. rewrite Z.mod_small; [lia|]. unfold FAIRQUEUE_MAX_TIME in *. lia. }
    rewrite Hnew. exists (<[flow := with_time (time f + amount - sub) f]> h), sub. split; [done|]. split; [lia|]. split; [lia|]. split; [by rewrite lookup_insert_eq|]. split; [|done].
    intros x Hx. rewrite lookup_insert_ne, Hh by done. destruct (flows m !! x) as [g|] eqn:Hg; [|by case_decide]. rewrite decide_True by (apply Hin; eauto).
    cbn. unfold lowered. rewrite (proj2 (Nat.eqb_neq x flow)) by done. cbn [negb]. rewrite andb_true_r. pose proof (Ht x g Hg). do 2 f_equal.
    destruct (Z.ltb_spec (time g) sub); [lia|]. unfold u64. rewrite Z.mod_small; [lia|]. unfold FAIRQUEUE_MAX_TIME in *. lia.
  - cbn [mbind option_bind]. rewrite Hf. cbn [mbind option_bind]. assert (Hnew : u64 (time f + amount) = time f + amount - 0) by (unfold u64; rewrite Z.mod_small; unfold FAIRQUEUE_MAX_TIME in *; lia).
    rewrite Hnew. exists (<[flow := with_time (time f + amount - 0) f]> (flows m)), 0. split; [done|]. split; [lia|]. split; [lia|]. split; [by rewrite lookup_insert_eq|]. split.
    + intros x Hx. rewrite lookup_insert_ne by done. destruct (flows m !! x) as [g|] eqn:Hg; [|done]. cbn. pose proof (Ht x g Hg). rewrite Z.sub_0_r, Z.max_r by lia. by destruct g.
    + intros x g [Hg _]. by apply (Ht x g).
Qed.

(** ** Steps *)

(** The packets of a flow that were accepted and not yet sent. *)
Definition outstanding (m : Q) (x : nat) : list (list Z) :=
  (if is_flow x (sending_flow m) then [sending_data m] else [])
  ++ match flows m !! x with Some f => if is_queued f then [queued_data f] else [] | None => [] end.

(** The time a flow is charged for the packets it sent. *)
Definition cost (w : Z) (outs : list (nat * list Z)) (x : nat) : Z :=
  foldr (fun o c => (if Nat.eqb o.1 x then w + Z.of_nat (length o.2) else 0) + c) 0 outs.

Lemma is_flow_spec x o : is_flow x o = bool_decide (o = Some x).
Proof. destruct o as [y|]; cbn; [|done]. destruct (Nat.eqb_spec x y) as [->|Hne]; [by rewrite bool_decide_true|by rewrite bool_decide_false by congruence]. Qed.

Definition waits (m : Q) (g : nat) : Prop := outstanding m g <> [].

Lemma waits_flow m g : inv m -> waits m g -> exists f, flows m !! g = Some f /\ (sending_flow m = Some g \/ (is_queued f = true /\ sending_flow m <> Some g)).
Proof.
  unfold waits, outstanding. intros Hi Hw. rewrite is_flow_spec in Hw. case_bool_decide as Es.
  - destruct (i_sending m Hi g Es) as (f & Hf & _). exists f. auto.
  - destruct (flows m !! g) as [f|]; [|done]. exists f. split; [done|]. right. by destruct (is_queued f).
Qed.

(** The flows that have a packet, or have just sent one; no time of theirs is before [c]. *)
Definition active (m : Q) (x : nat) (f : Flow) : Prop := flows m !! x = Some f /\ (is_queued f = true \/ sending_flow m = Some x \/ previous_flow m = Some x).
Definition low (m : Q) (c : Z) : Prop := forall x f, active m x f -> c <= time f.

(** What a step does to the times and the packets: all times are lowered by the same amount, or
    rise, those of the queued flows do not rise; the flow that has sent is charged for it; and
    while a packet waits no flow comes in before the others. *)
Record moves (m m' : Q) (outs : list (nat * list Z)) (sends : nat -> list (list Z)) (new : list nat) : Prop := mkMoves {
  v_list : flows_list m' = flows_list m ++ new;
  v_time : exists sub, 0 <= sub
    /\ (forall x f, flows m !! x = Some f -> exists f', flows m' !! x = Some f'
          /\ time f - sub + cost (packet_weight m) outs x <= time f' /\ (is_queued f = true -> time f' = time f - sub))
    /\ ((exists g, waits m g) -> forall c, low m c -> low m' (c - sub));
  v_out x : (filter (fun o => o.1 = x) outs).*2 ++ outstanding m' x = outstanding m x ++ sends x;
  v_outs : outs = [] \/ exists s, sending_flow m = Some s /\ outs = [(s, sending_data m)];
  v_sending s : outs = [] -> sending_flow m = Some s -> sending_flow m' = Some s;
  v_conf : packet_weight m' = packet_weight m /\ output_mtu m' = output_mtu m
}.

(** What [schedule] does. *)
Record scheduled (m m' : Q) : Prop := mkScheduled {
  s_list : flows_list m' = flows_list m;
  s_time x f : flows m !! x = Some f -> exists f', flows m' !! x = Some f' /\ time f' = time f;
  s_out x : outstanding m' x = outstanding m x;
  s_low c : low m c -> low m' c;
  s_sending : sending_flow m = None;
  s_conf : packet_weight m' = packet_weight m /\ output_mtu m' = output_mtu m
}.

Lemma moves_scheduled m m1 m2 outs sends new : moves m m1 outs sends new -> scheduled m1 m2 -> moves m m2 outs sends new.
Proof.
  intros [V1 (sub & Hsub & V2 & VL) V3 V4 V5 V6] [S1 S2 S3 SL S4 S5]. split.
  - by rewrite S1.
  - exists sub. split; [done|]. split; [|intros Hb c Hc; by apply SL, VL]. intros x f Hf. destruct (V2 x f Hf) as (f1 & Hf1 & Ht & Hq). destruct (S2 x f1 Hf1) as (f2 & Hf2 & Ht2). exists f2. rewrite Ht2. done.
  - intros x. by rewrite S3.
  - done.
  - intros s Ho Hs. rewrite (V5 s Ho Hs) in S4. done.
  - intuition congruence.
Qed.

Definition no_sends : nat -> list (list Z) := fun _ => [].

(** Changing the packet or the handler of a flow does not change the order. *)
Lemma ordered_times h h' l : ordered (compare_flows h) l -> (forall x, x ∈ l -> time_of h' x = time_of h x) -> ordered (compare_flows h') l.
Proof. intros Ho Ht. eapply ordered_ext; [exact Ho|]. intros x y Hx Hy. rewrite !compare_lt, !Ht by done. done. Qed.

(** [schedule], when a flow is queued and the output is free. *)
Lemma schedule_ok m : inv m -> sending_flow m = None -> previous_flow m = None -> schedule_job m = false -> freeing m = false -> tree_elements (queued_tree m) <> [] ->
  exists m', schedule m = Some m' /\ inv m' /\ works m' /\ scheduled m m'.
Proof.
  intros Hi Hs Hp Hj Hfr Hne. pose proof (fq_first_ok m Hi) as Hfirst. unfold schedule. rewrite Hs, Hp, Hfr. cbn [none negb andb assert mbind option_bind].
  destruct (tree_GetFirst (queued_tree m)) as [q|] eqn:Eq; [|done]. destruct Hfirst as (f & [Hf Hq] & Hmin). cbn [mbind option_bind]. rewrite Hf. cbn [mbind option_bind]. rewrite Hq. cbn [assert mbind option_bind].
  set (f' := with_queued false (queued_data f) f). set (h := <[q := f']> (flows m)). pose proof (tree_nodup m Hi) as Hnd.
  destruct (elements_Remove (queued_tree m) q (i_ok m Hi) Hnd) as (tr & Etr & Hok & Hel); [apply (i_tree m Hi); by exists f|]. rewrite Etr. cbn [mbind option_bind]. eexists. split; [done|].
  assert (Hqd : forall x g, h !! x = Some g /\ is_queued g = true <-> queued m x g /\ x <> q).
  { intros x g. unfold h, queued. destruct (decide (x = q)) as [->|Hx]; [rewrite lookup_insert_eq|rewrite lookup_insert_ne by done].
    - split; [intros [[= <-] ?]; done|by intros [_ ?]].
    - tauto. }
  assert (Htm : forall x, time_of h x = time_of (flows m) x).
  { intros x. unfold time_of, h. destruct (decide (x = q)) as [->|Hx]; [by rewrite lookup_insert_eq, Hf|by rewrite lookup_insert_ne by done]. }
  split; [|split; [|split]].
  - split; cbn.
    + destruct (i_list m Hi) as [H1 H2]. split; [done|]. intros x. rewrite H2. unfold h. destruct (decide (x = q)) as [->|Hx]; [rewrite lookup_insert_eq, Hf; split; eauto|by rewrite lookup_insert_ne by done].
    + rewrite Hel. apply (ordered_times (flows m)); [apply ordered_filter, (i_order m Hi)|done].
    + intros x. rewrite Hel, list_elem_of_filter, (i_tree m Hi). unfold queued. cbn. split; [intros [Hx [g Hg]]; exists g; by apply Hqd|intros [g Hg]; apply Hqd in Hg as [? ?]; eauto].
    + intros x g Hg. unfold h in Hg. destruct (decide (x = q)) as [->|Hx]; [rewrite lookup_insert_eq in Hg; injection Hg as <-; by apply (i_time m Hi q f)|rewrite lookup_insert_ne in Hg by done; by apply (i_time m Hi x g)].
    + intros x g Hg. apply Hqd in Hg as [Hg _]. by apply (i_len m Hi x g).
    + intros s [= <-]. exists f'. split; [unfold h; by rewrite lookup_insert_eq|]. split; [done|]. split; [done|]. split; [by apply (i_len m Hi q f)|]. split; [done|]. split; [done|].
      intros x g Hg. apply Hqd in Hg as [Hg _]. by apply (Hmin x g).
    + by rewrite Hp.
    + by rewrite Hj.
    + apply (i_weight m Hi).
    + first [exact Hok|apply (i_ok m Hi)].
  - intros _ _. by left.
  - done.
  - intros x g Hg. cbn. unfold h. destruct (decide (x = q)) as [->|Hx].
    + rewrite lookup_insert_eq. rewrite Hf in Hg. injection Hg as <-. by exists f'.
    + rewrite lookup_insert_ne by done. by exists g.
  - intros x. unfold outstanding. cbn. rewrite Hs. unfold h. destruct (Nat.eqb_spec x q) as [->|Hx].
    + rewrite lookup_insert_eq, Hf. cbn. by rewrite Hq.
    + by rewrite lookup_insert_ne by done.
  - intros c Hc x g [Hg Ha]. cbn in Hg, Ha. destruct (decide (x = q)) as [->|Hx].
    + unfold h in Hg. rewrite lookup_insert_eq in Hg. injection Hg as <-. apply (Hc q f). split; [done|by left].
    + unfold h in Hg. rewrite lookup_insert_ne in Hg by done. apply (Hc x g). split; [done|]. rewrite Hs, Hp in *. naive_solver.
  - done.
  - done.
Qed.

Lemma moves_refl m : moves m m [] no_sends [].
Proof.
  split; try done.
  - by rewrite app_nil_r.
  - exists 0. split; [lia|]. split; [|intros _ c; by rewrite Z.sub_0_r]. intros x f Hf. exists f. split; [done|]. cbn. lia.
  - intros x. cbn. by rewrite app_nil_r.
  - by left.
Qed.

(** The queue, when the job has run. *)
Lemma inv_job m : inv m -> sending_flow m = None -> inv (set_previous None (set_job false m)) /\ moves m (set_previous None (set_job false m)) [] no_sends [].
Proof.
  intros Hi Hs. split.
  2:{ destruct (moves_refl m) as [V1 _ V3 V4 V5 V6]. split; try done. exists 0. split; [lia|]. split; [intros x f Hf; exists f; split; [done|cbn; lia]|].
      intros _ c Hc x f [Hf Ha]. cbn in Hf, Ha. rewrite Z.sub_0_r. apply (Hc x f). split; [done|]. naive_solver. }
  destruct Hi. split; try done. cbn. intros s Es. congruence. Qed.

Lemma schedule_job_ok m : inv m -> freeing m = false -> schedule_job m = true ->
  exists m', schedule_job_handler m = Some m' /\ inv m' /\ works m' /\ moves m m' [] no_sends [].
Proof.
  intros Hi Hfr Hj. pose proof (i_job m Hi Hj) as Hs. destruct (inv_job m Hi Hs) as [Hi1 Hm1]. unfold schedule_job_handler. cbn [sending_flow freeing set_job]. rewrite Hs, Hfr. cbn [none negb andb assert mbind option_bind].
  set (m1 := set_previous None (set_job false m)) in *. pose proof (fq_first_ok m1 Hi1) as Hfirst. destruct (tree_GetFirst (queued_tree m1)) as [q|] eqn:Eq; cbn [none negb].
  - destruct (schedule_ok m1) as (m' & E & Hi' & Hw & Hsc); try done.
    { intros E. rewrite elements_GetFirst, E in Eq by apply (i_ok m1 Hi1). done. }
    exists m'. split; [done|]. split; [done|]. split; [done|]. by eapply moves_scheduled.
  - exists m1. split; [done|]. split; [done|]. split; [by intros _ ?|done].
Qed.

(** The time at which a flow is queued: not before that of the sending flow. *)
Lemma get_current_time_ok m : inv m -> exists t, get_current_time m = Some t /\ 0 <= t <= FAIRQUEUE_MAX_TIME
  /\ (forall s f, sending_flow m = Some s -> flows m !! s = Some f -> time f <= t)
  /\ low m t /\ ((exists g, waits m g) -> forall c, low m c -> c <= t).
Proof.
  intros Hi. unfold get_current_time. destruct (sending_flow m) as [s|] eqn:Hs.
  { destruct (i_sending m Hi s Hs) as (f & Hf & _ & _ & _ & Hpn & _ & Hmin). rewrite Hf. exists (time f). split; [done|]. split; [by apply (i_time m Hi s)|]. split; [intros s' f' [= <-] Hf'; rewrite Hf in Hf'; injection Hf' as <-; lia|].
    split; [|intros _ c Hc; apply (Hc s f); split; [done|auto]]. intros x g [Hg [Hq|[Ex|Ex]]]; [by apply (Hmin x g)| |congruence]. assert (x = s) as -> by congruence. rewrite Hf in Hg. injection Hg as <-. lia. }
  pose proof (fq_first_ok m Hi) as Hfirst.
  assert (E : exists first, match tree_GetFirst (queued_tree m) with Some x => f ← flows m !! x; assert (is_queued f);; Some (Some (time f)) | None => Some None end = Some first
      /\ (forall t, first = Some t -> 0 <= t <= FAIRQUEUE_MAX_TIME) /\ (forall x g, queued m x g -> exists t, first = Some t /\ t <= time g)
      /\ (forall t, first = Some t -> exists x f, queued m x f /\ time f = t)).
  { destruct (tree_GetFirst (queued_tree m)) as [x|]; [|exists None; split; [done|]; split; [done|]; split; [intros x g Hg; by destruct (no_queued m Hi Hfirst x g)|done]].
    destruct Hfirst as (f & [Hf Hq] & Hmin). exists (Some (time f)). rewrite Hf. cbn. rewrite Hq.
    split; [done|]. split; [intros t [= <-]; by apply (i_time m Hi x)|]. split; [intros y g Hg; exists (time f); split; [done|by apply (Hmin y g)]|]. intros t [= <-]. exists x, f. done. }
  destruct E as (first & E & Hfi & Hfq & Hfr). assert (Hw : (exists g, waits m g) -> exists t, first = Some t).
  { intros [g Hg]. destruct (waits_flow m g Hi Hg) as (f & Hf & [?|[Hq _]]); [congruence|]. destruct (Hfq g f (conj Hf Hq)) as (t & -> & _). eauto. } rewrite E. cbn [mbind option_bind]. destruct (previous_flow m) as [p|] eqn:Hp.
  - destruct (i_previous m Hi p Hp) as (f & Hf & _). rewrite Hf. cbn [mbind option_bind]. eexists. split; [done|]. pose proof (i_time m Hi p f Hf). split; [|split; [done|split]].
    + destruct first as [t|]; [|done]. specialize (Hfi t eq_refl). destruct (time f <? t); lia.
    + intros x g [Hg [Hq|[?|Ex]]]; [destruct (Hfq x g (conj Hg Hq)) as (t & -> & Ht); destruct (Z.ltb_spec (time f) t); lia|congruence|]. assert (x = p) as -> by congruence. rewrite Hf in Hg. injection Hg as <-.
      destruct first as [t|]; [|lia]. destruct (Z.ltb_spec (time f) t); lia.
    + intros Hb c Hc. destruct (Hw Hb) as (t & ->). destruct (Hfr t eq_refl) as (x & g & [Hg Hq] & <-). pose proof (Hc x g (conj Hg (or_introl Hq))). pose proof (Hc p f (conj Hf (or_intror (or_intror Hp)))). destruct (Z.ltb_spec (time f) (time g)); lia.
  - eexists. split; [done|]. split; [|split; [done|split]].
    + destruct first as [t|]; cbn; [by apply Hfi|unfold FAIRQUEUE_MAX_TIME; lia].
    + intros x g [Hg [Hq|[?|?]]]; [|congruence|congruence]. by destruct (Hfq x g (conj Hg Hq)) as (t & -> & Ht).
    + intros Hb c Hc. destruct (Hw Hb) as (t & ->). destruct (Hfr t eq_refl) as (x & g & [Hg Hq] & <-). apply (Hc x g). split; [done|by left].
Qed.

(** A flow is put into the tree. *)
Lemma enqueue_ok m x f t data p : inv m -> flows m !! x = Some f -> is_queued f = false -> sending_flow m <> Some x -> Z.of_nat (length data) <= output_mtu m ->
  time f <= t <= FAIRQUEUE_MAX_TIME -> (forall s g, sending_flow m = Some s -> flows m !! s = Some g -> time g <= t) ->
  (p = None \/ (p = previous_flow m /\ p <> Some x)) -> ((exists y, waits m y) -> forall c, low m c -> c <= t) ->
  let g := mkFlow t false data (handler_busy f) in
  exists tr, tree_Insert (compare_flows (<[x := g]> (flows m))) x (queued_tree m) = Some tr
    /\ let m' := set_flows (<[x := with_queued true data g]> (<[x := g]> (flows m))) tr (set_previous p m) in
       inv m' /\ moves m m' [] (fun y => if Nat.eqb y x then [data] else []) [].
Proof.
  intros Hi Hf Hq Hs Hlen Ht Hst Hp Hlow g. pose proof (i_time m Hi x f Hf) as Htf. rewrite insert_insert_eq.
  assert (Hx : x ∉ tree_elements (queued_tree m)) by (rewrite (i_tree m Hi); intros (f' & Hf' & Hq'); congruence).
  assert (Ho : ordered (compare_flows (<[x := g]> (flows m))) (tree_elements (queued_tree m))).
  { eapply ordered_times; [apply (i_order m Hi)|]. intros y Hy. unfold time_of. by rewrite lookup_insert_ne by (intros ->; done). }
  destruct (elements_Insert _ (queued_tree m) x (i_ok m Hi) (compare_in_range _) (compare_order _ _) Ho Hx) as (tr & E & Hok & Hperm & Ho'). exists tr. split; [done|]. set (g' := with_queued true data g).
  assert (Hl : forall y, <[x := g']> (flows m) !! y = if decide (y = x) then Some g' else flows m !! y) by (intros y; destruct (decide (y = x)) as [->|Hy]; [by rewrite lookup_insert_eq|by rewrite lookup_insert_ne by done]).
  split; split; cbn [flows flows_list queued_tree sending_flow sending_data sending_len previous_flow freeing schedule_job packet_weight output_mtu set_flows set_previous].
  - destruct (i_list m Hi) as [H1 H2]. split; [done|]. intros y. rewrite H2, Hl. case_decide as Ey; [|done]. subst y. rewrite Hf. by split.
  - eapply ordered_times; [exact Ho'|]. intros y _. unfold time_of. rewrite Hl. case_decide as Ey; [subst y; by rewrite lookup_insert_eq|by rewrite lookup_insert_ne by done].
  - intros y. rewrite Hperm, elem_of_cons, (i_tree m Hi). unfold queued. cbn [flows set_flows set_previous]. rewrite Hl. case_decide as Ey; split.
    + intros _. by exists g'.
    + by left.
    + by intros [?|?].
    + by right.
  - intros y f'. rewrite Hl. case_decide; [intros [= <-]; cbn; lia|apply (i_time m Hi)].
  - intros y f' [Hf' Hq']. cbn [flows set_flows set_previous] in Hf'. rewrite Hl in Hf'. case_decide; [injection Hf' as <-; done|by apply (i_len m Hi y f')].
  - intros s Es. destruct (i_sending m Hi s Es) as (f' & Hf' & Hq' & Hl1 & Hl2 & Hp' & Hj & Hmin). exists f'. rewrite Hl, decide_False by congruence. do 4 (split; [done|]). split; [destruct Hp as [->|[-> _]]; done|]. split; [done|].
    intros y f2 [Hf2 Hq2]. cbn [flows set_flows set_previous] in Hf2. rewrite Hl in Hf2. case_decide; [injection Hf2 as <-; cbn; by eapply Hst|by apply (Hmin y f2)].
  - intros q Eq. destruct Hp as [->|[-> Hpx]]; [done|]. destruct (i_previous m Hi q Eq) as (f' & Hf' & Hq' & Hj). exists f'. by rewrite Hl, decide_False by congruence.
  - apply (i_job m Hi).
  - apply (i_weight m Hi).
  - first [exact Hok|apply (i_ok m Hi)].
  - by rewrite app_nil_r.
  - exists 0. split; [lia|]. split; [intros y f' Hf'; cbn [flows set_flows set_previous]; rewrite Hl; case_decide; [subst y|]|].
    + rewrite Hf in Hf'. injection Hf' as <-. exists g'. split; [done|]. rewrite Hq. cbn. split; [lia|done].
    + exists f'. split; [done|]. cbn. lia.
    + intros Hb c Hc y f' [Hf' Ha]. cbn [flows sending_flow previous_flow set_flows set_previous] in Hf', Ha. rewrite Hl in Hf'. rewrite Z.sub_0_r. case_decide; [injection Hf' as <-; by apply (Hlow Hb)|].
      apply (Hc y f'). split; [done|]. destruct Hp as [->|[-> _]]; naive_solver.
  - intros y. unfold outstanding. cbn [flows sending_flow sending_data set_flows set_previous]. rewrite Hl. case_decide as Ey; [subst y|].
    + rewrite Hf, Hq, Nat.eqb_refl. cbn. by rewrite is_flow_spec, bool_decide_false.
    + rewrite (proj2 (Nat.eqb_neq y x)) by done. by rewrite !app_nil_r.
  - by left.
  - done.
  - done.
Qed.

Lemma input_handler_send_ok m x f data : inv m -> works m -> flows m !! x = Some f -> is_queued f = false -> freeing m = false -> sending_flow m <> Some x -> Z.of_nat (length data) <= output_mtu m ->
  exists m', input_handler_send x data m = Some m' /\ inv m' /\ works m' /\ moves m m' [] (fun y => if Nat.eqb y x then [data] else []) [].
Proof.
  intros Hi Hw Hf Hq Hfr Hs Hlen. unfold input_handler_send. rewrite Hf. cbn [mbind option_bind]. rewrite !is_flow_spec, (bool_decide_false (sending_flow m = Some x)), Hq, Hfr by done. cbn [negb andb assert mbind option_bind].
  pose proof (i_time m Hi x f Hf) as Htf. set (b := bool_decide (previous_flow m = Some x)). set (p := if b then None else previous_flow m).
  assert (E : exists t, (if b then Some (f, set_previous None m) else t ← get_current_time m; Some (with_time (Z.max (time f) t) f, m)) = Some (with_time t f, set_previous p m)
      /\ time f <= t <= FAIRQUEUE_MAX_TIME /\ (forall s g, sending_flow m = Some s -> flows m !! s = Some g -> time g <= t) /\ ((exists y, waits m y) -> forall c, low m c -> c <= t)).
  { unfold p, b. case_bool_decide as Hp.
    - exists (time f). split; [by destruct f|]. split; [lia|]. split; [intros s g Es; destruct (i_sending m Hi s Es) as (? & _ & _ & _ & _ & ? & _); congruence|]. intros _ c Hc. apply (Hc x f). split; [done|auto].
    - destruct (get_current_time_ok m Hi) as (t & Et & Ht & Hst & _ & Hlow). rewrite Et. exists (Z.max (time f) t). split; [by destruct m|]. split; [lia|]. split; [intros s g Es Hg; specialize (Hst s g Es Hg); lia|]. intros Hb c Hc. specialize (Hlow Hb c Hc). lia. }
  destruct E as (t & Et & Ht & Hst & Hlow). rewrite Et. cbn [mbind option_bind]. cbn [flows queued_tree set_previous with_time with_queued is_queued queued_data handler_busy time]. rewrite Hq.
  destruct (enqueue_ok m x f t data p) as (tr & Etr & Hi' & Hm'); try done.
  { unfold p, b. case_bool_decide; [by left|right; done]. }
  change (with_queued false data (with_time t f)) with (mkFlow t false data (handler_busy f)). rewrite Etr. cbn [mbind option_bind]. set (m1 := set_flows _ _ _) in *.
  destruct (sending_flow m1) as [s|] eqn:Es; cbn [none andb].
  { exists m1. split; [done|]. split; [done|]. split; [|done]. left. congruence. }
  destruct (schedule_job m1) eqn:Ej; cbn [negb andb].
  { exists m1. split; [done|]. split; [done|]. split; [|done]. by right. }
  destruct (schedule_ok m1) as (m2 & E2 & Hi2 & Hw2 & Hsc); try done.
  { destruct (previous_flow m1) as [q|] eqn:Eq; [|done]. destruct (i_previous m1 Hi' q Eq) as (? & _ & _ & ?). congruence. }
  { intros En. apply (no_queued m1 Hi' En x (mkFlow t true data (handler_busy f))). split; [|done]. unfold m1. cbn. by rewrite lookup_insert_eq. }
  exists m2. split; [done|]. split; [done|]. split; [done|]. by eapply moves_scheduled.
Qed.

(** Setting the busy handler of a flow. *)
Lemma busy_ok m x f b : inv m -> works m -> flows m !! x = Some f ->
  let m' := set_flows (<[x := with_busy b f]> (flows m)) (queued_tree m) m in
  inv m' /\ works m' /\ (forall n outs sends new, moves n m outs sends new -> moves n m' outs sends new).
Proof.
  intros Hi Hw Hf m'.
  assert (Hl : forall y g, flows m !! y = Some g -> exists g', flows m' !! y = Some g' /\ time g' = time g /\ is_queued g' = is_queued g /\ queued_data g' = queued_data g).
  { intros y g Hg. unfold m'. cbn. destruct (decide (y = x)) as [->|Hy]; [rewrite lookup_insert_eq; rewrite Hf in Hg; injection Hg as <-; by eexists|rewrite lookup_insert_ne by done; by exists g]. }
  assert (Hr : forall y g', flows m' !! y = Some g' -> exists g, flows m !! y = Some g /\ time g' = time g /\ is_queued g' = is_queued g /\ queued_data g' = queued_data g).
  { intros y g' Hg. unfold m' in Hg. cbn in Hg. destruct (decide (y = x)) as [->|Hy]; [rewrite lookup_insert_eq in Hg; injection Hg as <-; by exists f|rewrite lookup_insert_ne in Hg by done; by exists g']. }
  split; [|split; [done|]].
  - split.
    + destruct (i_list m Hi) as [H1 H2]. split; [done|]. intros y. change (flows_list m') with (flows_list m). rewrite H2. split; intros [g Hg]; [destruct (Hl y g Hg) as (g' & ? & _)|destruct (Hr y g Hg) as (g' & ? & _)]; eauto.
    + eapply ordered_times; [apply (i_order m Hi)|]. intros y _. unfold time_of. destruct (flows m !! y) as [g|] eqn:Hg.
      * by destruct (Hl y g Hg) as (g' & -> & -> & _).
      * destruct (flows m' !! y) as [g'|] eqn:Hg'; [|done]. destruct (Hr y g' Hg') as (? & ? & _). congruence.
    + intros y. change (queued_tree m') with (queued_tree m). rewrite (i_tree m Hi). unfold queued. split; intros (g & Hg & Hq); [destruct (Hl y g Hg) as (g' & ? & _ & ? & _)|destruct (Hr y g Hg) as (g' & ? & _ & ? & _)]; exists g'; split; congruence.
    + intros y g' Hg'. destruct (Hr y g' Hg') as (g & Hg & -> & _). by apply (i_time m Hi y).
    + intros y g' [Hg' Hq']. destruct (Hr y g' Hg') as (g & Hg & _ & Hq & ->). apply (i_len m Hi y g). split; congruence.
    + intros s Es. destruct (i_sending m Hi s Es) as (g & Hg & Hq & H1 & H2 & H3 & H4 & Hmin). destruct (Hl s g Hg) as (g' & Hg' & Ht & Hq2 & _). exists g'. split; [done|]. split; [congruence|]. do 4 (split; [done|]).
      intros y f' [Hf' Hqf]. destruct (Hr y f' Hf') as (f2 & Hf2 & -> & Hq3 & _). rewrite Ht. apply (Hmin y f2). split; congruence.
    + intros p Ep. destruct (i_previous m Hi p Ep) as (g & Hg & Hq & Hj). destruct (Hl p g Hg) as (g' & Hg' & _ & Hq2 & _). exists g'. repeat split; try done; congruence.
    + apply (i_job m Hi).
    + apply (i_weight m Hi).
    + first [exact Hok|apply (i_ok m Hi)].
  - intros n outs sends new [V1 (sub & Hsub & V2 & VL) V3 V4 V5 V6]. split; try done.
    + exists sub. split; [done|]. split; [|intros Hb c Hc y g' [Hg' Ha]; destruct (Hr y g' Hg') as (g & Hg & -> & Eq & _); apply (VL Hb c Hc y g); split; [done|]; by rewrite <- Eq]. intros y g Hg. destruct (V2 y g Hg) as (g1 & Hg1 & Ht & Hq). destruct (Hl y g1 Hg1) as (g2 & Hg2 & Ht2 & _). exists g2. by rewrite Ht2.
    + intros y. rewrite <- V3. f_equal. unfold outstanding. change (sending_flow m') with (sending_flow m). change (sending_data m') with (sending_data m). f_equal. destruct (flows m !! y) as [g|] eqn:Hg.
      * by destruct (Hl y g Hg) as (g' & -> & _ & -> & ->).
      * destruct (flows m' !! y) as [g'|] eqn:Hg'; [|done]. destruct (Hr y g' Hg') as (? & ? & _). congruence.
Qed.

(** The state after a packet is sent and its flow charged. *)
Lemma charged_ok m s f h sub c : inv m -> sending_flow m = Some s -> flows m !! s = Some f -> c = packet_weight m + sending_len m -> 0 <= sub ->
  0 <= time f + c - sub <= FAIRQUEUE_MAX_TIME -> h !! s = Some (with_time (time f + c - sub) f) ->
  (forall x, x <> s -> h !! x = (fun g => with_time (Z.max 0 (time g - sub)) g) <$> flows m !! x) -> (forall x g, queued m x g -> sub <= time g) ->
  let m' := set_job true (set_flows h (queued_tree m) (set_previous (Some s) (set_sending None (sending_data m) (sending_len m) m))) in
  inv m' /\ works m' /\ moves m m' [(s, sending_data m)] no_sends [].
Proof.
  intros Hi Hs Hf Hc Hsub Ht Hhs Hh Hqs m'. destruct (i_sending m Hi s Hs) as (f0 & Hf0 & Hq & Hlen & _ & _ & _ & Hmin). rewrite Hf in Hf0. injection Hf0 as <-.
  assert (Hl : forall y, flows m' !! y = (fun g => with_time (if decide (y = s) then time f + c - sub else Z.max 0 (time g - sub)) g) <$> flows m !! y).
  { intros y. change (flows m') with h. case_decide; [subst y; by rewrite Hhs, Hf|by apply Hh]. }
  assert (Hqd : forall y g, queued m y g -> flows m' !! y = Some (with_time (time g - sub) g)).
  { intros y g Hg. pose proof (Hqs y g Hg). destruct Hg as [Hg Hgq]. rewrite Hl, Hg. cbn. rewrite decide_False by congruence. by rewrite Z.max_r by lia. }
  assert (Hqr : forall y g', flows m' !! y = Some g' -> is_queued g' = true -> exists g, queued m y g /\ g' = with_time (time g - sub) g).
  { intros y g' Hg' Hgq. pose proof Hg' as Hg2. rewrite Hl in Hg'. destruct (flows m !! y) as [g|] eqn:Hg; [|done]. cbn in Hg'.
    assert (Hqg : queued m y g) by (split; [done|]; destruct (decide (y = s)); injection Hg' as <-; done). exists g. split; [done|]. pose proof (Hqd y g Hqg). congruence. }
  split; [|split; [by right|]]; split.
  - destruct (i_list m Hi) as [H1 H2]. split; [done|]. intros y. change (flows_list m') with (flows_list m). rewrite H2, Hl. destruct (flows m !! y); split; intros [? ?]; done || by eexists.
  - eapply ordered_ext; [apply (i_order m Hi)|]. intros x y Hx%(i_tree m Hi) Hy%(i_tree m Hi). destruct Hx as [fx Hx], Hy as [fy Hy]. rewrite !compare_lt. unfold time_of. rewrite (Hqd x fx Hx), (Hqd y fy Hy). destruct Hx as [Hx _], Hy as [Hy _]. rewrite Hx, Hy. cbn. lia.
  - intros y. change (queued_tree m') with (queued_tree m). rewrite (i_tree m Hi). split; intros [g Hg].
    + exists (with_time (time g - sub) g). split; [by apply Hqd|apply Hg].
    + destruct Hg as [Hg Hgq]. destruct (Hqr y g Hg Hgq) as (g0 & Hg0 & _). eauto.
  - intros y g Hg. rewrite Hl in Hg. destruct (flows m !! y) as [g0|] eqn:Hg0; [|done]. cbn in Hg. injection Hg as <-. cbn. pose proof (i_time m Hi y g0 Hg0). case_decide; lia.
  - intros y g [Hg Hgq]. destruct (Hqr y g Hg Hgq) as (g0 & Hg0 & ->). by apply (i_len m Hi y g0).
  - done.
  - intros p [= <-]. exists (with_time (time f + c - sub) f). done.
  - done.
  - apply (i_weight m Hi).
  - first [exact Hok|apply (i_ok m Hi)].
  - by rewrite app_nil_r.
  - exists sub. split; [done|]. split; [intros y g Hg; rewrite Hl, Hg; cbn [fmap option_fmap option_map cost foldr fst snd]; eexists; split; [done|]; cbn [time with_time]; case_decide as Ey|].
    + subst y. rewrite Hf in Hg. injection Hg as <-. rewrite Nat.eqb_refl. split; [lia|congruence].
    + rewrite (proj2 (Nat.eqb_neq s y)) by congruence. split; [lia|]. intros Hgq. pose proof (Hqs y g (conj Hg Hgq)). lia.
    + intros _ a Ha. assert (Hfs : a <= time f) by (apply (Ha s f); split; [done|auto]). destruct (i_weight m Hi) as (? & _ & _). intros y g' [Hg' [Hgq|[?|[= <-]]]]; [|done|change (flows m') with h in Hg'; rewrite Hhs in Hg'; injection Hg' as <-; cbn; lia].
      destruct (Hqr y g' Hg' Hgq) as (g & [Hg Hq2] & ->). cbn. pose proof (Ha y g (conj Hg (or_introl Hq2))). lia.
  - intros y. unfold outstanding, no_sends. cbn [sending_flow m' set_job set_flows set_previous set_sending]. rewrite Hl, Hs, app_nil_r. cbn [is_flow].
    assert (Eq : match (fun g => with_time (if decide (y = s) then time f + c - sub else Z.max 0 (time g - sub)) g) <$> flows m !! y with Some f => if is_queued f then [queued_data f] else [] | None => [] end
        = match flows m !! y with Some f => if is_queued f then [queued_data f] else [] | None => [] end) by (destruct (flows m !! y); done).
    rewrite Eq. destruct (Nat.eqb_spec y s) as [->|Hy]; [rewrite filter_cons_True by done|rewrite filter_cons_False by (cbn; congruence)]; done.
  - right. by exists s.
  - done.
  - done.
Qed.

Lemma output_done_ok m s : inv m -> freeing m = false -> sending_flow m = Some s ->
  exists m' o, output_handler_done m = Some (m', o) /\ inv m' /\ works m' /\ moves m m' [(s, sending_data m)] no_sends [].
Proof.
  intros Hi Hfr Hs. destruct (i_sending m Hi s Hs) as (f & Hf & Hq & Hlen & Hmtu & Hp & Hj & Hmin). unfold output_handler_done. rewrite Hs. cbn [mbind option_bind]. rewrite Hf. cbn [mbind option_bind]. rewrite Hp, Hj, Hfr, Hq. cbn [none negb andb assert mbind option_bind].
  cbn [packet_weight sending_len set_sending set_previous]. destruct (i_weight m Hi) as (Hw1 & Hw2 & Hw3).
  assert (Ea : u64 (packet_weight m + sending_len m) = packet_weight m + sending_len m) by (unfold u64; rewrite Z.mod_small; unfold FAIRQUEUE_MAX_TIME in *; lia). rewrite Ea.
  set (m1 := set_previous (Some s) (set_sending None (sending_data m) (sending_len m) m)).
  destruct (increment_ok m1 s f (packet_weight m + sending_len m)) as (h & sub & Einc & Hsub & Ht & Hhs & Hh & Hqs); try done.
  { apply (i_list m Hi). }
  { apply (i_list m Hi). }
  { apply (i_time m Hi). }
  { lia. }
  { pose proof (fq_first_ok m Hi) as Hfirst. change (queued_tree m1) with (queued_tree m). destruct (tree_GetFirst (queued_tree m)) as [x|]; [|exact (no_queued m Hi Hfirst)].
    destruct Hfirst as (g & Hg & Hgm). exists g. split; [done|]. split; [done|]. by apply (Hmin x g). }
  rewrite Einc. cbn [mbind option_bind]. destruct (charged_ok m s f h sub _ Hi Hs Hf eq_refl Hsub Ht Hhs Hh Hqs) as (Hi2 & Hw & Hm2).
  change (queued_tree m1) with (queued_tree m). unfold m1 in *. set (m2 := set_job true _) in *. change (flows m2) with h. rewrite Hhs. cbn [mbind option_bind].
  destruct (handler_busy _); [|by exists m2, None]. destruct (busy_ok m2 s (with_time (time f + (packet_weight m + sending_len m) - sub) f) false Hi2 Hw Hhs) as (Hi3 & Hw3' & Hm3).
  eexists _, _. split; [done|]. split; [exact Hi3|]. split; [exact Hw3'|]. by apply Hm3.
Qed.

Lemma flow_init_ok m x : inv m -> works m -> freeing m = false -> flows m !! x = None ->
  exists m', PacketPassFairQueueFlow_Init x m = Some m' /\ inv m' /\ works m' /\ moves m m' [] no_sends [x].
Proof.
  intros Hi Hw Hfr Hx. unfold PacketPassFairQueueFlow_Init. rewrite Hfr, Hx. cbn [none negb andb assert mbind option_bind]. eexists. split; [done|].
  assert (Hl : forall y f, flows m !! y = Some f -> y <> x) by (intros y f Hy ->; congruence).
  split; [|split; [intros _; by apply Hw|]]; split; cbn [flows flows_list queued_tree sending_flow sending_data sending_len previous_flow freeing schedule_job packet_weight output_mtu]; try done.
  - destruct (i_list m Hi) as [H1 H2]. split.
    + apply NoDup_app. split; [done|]. split; [|apply NoDup_singleton]. intros y Hy%H2 ->%list_elem_of_singleton. destruct Hy; congruence.
    + intros y. rewrite elem_of_app, H2, list_elem_of_singleton. destruct (decide (y = x)) as [->|Hy]; [rewrite lookup_insert_eq; split; eauto|rewrite lookup_insert_ne by done; tauto].
  - eapply ordered_times; [apply (i_order m Hi)|]. intros y [f [Hf _]]%(i_tree m Hi). unfold time_of. by rewrite lookup_insert_ne by (symmetry; by eapply Hl).
  - intros y. rewrite (i_tree m Hi). unfold queued. cbn. destruct (decide (y = x)) as [->|Hy]; [rewrite lookup_insert_eq|by rewrite lookup_insert_ne by done]. rewrite Hx. split; intros (f & E & Hq); [done|]. by injection E as <-.
  - intros y f. destruct (decide (y = x)) as [->|Hy]; [rewrite lookup_insert_eq; intros [= <-]; cbn; unfold FAIRQUEUE_MAX_TIME; lia|rewrite lookup_insert_ne by done; apply (i_time m Hi)].
  - intros y f [Hf Hq]. cbn in Hf. destruct (decide (y = x)) as [->|Hy]; [rewrite lookup_insert_eq in Hf; by injection Hf as <-|rewrite lookup_insert_ne in Hf by done; by apply (i_len m Hi y f)].
  - intros s Es. destruct (i_sending m Hi s Es) as (f & Hf & Hq & H1 & H2 & H3 & H4 & Hmin). exists f. rewrite lookup_insert_ne by (symmetry; by eapply Hl). do 6 (split; [done|]).
    intros y g [Hg Hgq]. cbn in Hg. destruct (decide (y = x)) as [->|Hy]; [rewrite lookup_insert_eq in Hg; by injection Hg as <-|rewrite lookup_insert_ne in Hg by done; by apply (Hmin y g)].
  - intros p Ep. destruct (i_previous m Hi p Ep) as (f & Hf & Hq & Hj). exists f. by rewrite lookup_insert_ne by (symmetry; by eapply Hl).
  - apply (i_job m Hi).
  - apply (i_weight m Hi).
  - first [exact Hok|apply (i_ok m Hi)].
  - exists 0. split; [lia|]. split; [intros y f Hf; exists f; cbn; rewrite lookup_insert_ne by (symmetry; by eapply Hl); split; [done|lia]|].
    intros _ c Hc y f [Hf Ha]. cbn in Hf, Ha. rewrite Z.sub_0_r. destruct (decide (y = x)) as [->|Hy]; [|rewrite lookup_insert_ne in Hf by done; by apply (Hc y f)].
    rewrite lookup_insert_eq in Hf. injection Hf as <-. destruct Ha as [?|[Es|Ep]]; [done|destruct (i_sending m Hi x Es) as (? & ? & _)|destruct (i_previous m Hi x Ep) as (? & ? & _)]; congruence.
  - intros y. unfold outstanding, no_sends. cbn. rewrite app_nil_r. f_equal. destruct (decide (y = x)) as [->|Hy]; [by rewrite lookup_insert_eq, Hx|by rewrite lookup_insert_ne by done].
  - by left.
Qed.

Lemma flow_free_ok m x : inv m -> works m -> is_Some (flows m !! x) -> (freeing m = true \/ sending_flow m <> Some x) ->
  exists m', PacketPassFairQueueFlow_Free x m = Some m' /\ inv m' /\ works m'.
Proof.
  intros Hi Hw [f Hf] Hfree. unfold PacketPassFairQueueFlow_Free. rewrite Hf. cbn [mbind option_bind].
  assert (Ea : freeing m || negb (is_flow x (sending_flow m)) = true).
  { destruct Hfree as [->|Hs]; [done|]. by rewrite is_flow_spec, bool_decide_false, orb_true_r. }
  rewrite Ea. cbn [assert mbind option_bind]. set (m1 := if is_flow x (sending_flow m) then _ else m).
  assert (E1 : flows m1 = flows m /\ flows_list m1 = flows_list m /\ queued_tree m1 = queued_tree m /\ freeing m1 = freeing m /\ schedule_job m1 = schedule_job m
      /\ packet_weight m1 = packet_weight m /\ output_mtu m1 = output_mtu m /\ sending_data m1 = sending_data m /\ sending_len m1 = sending_len m
      /\ previous_flow m1 = previous_flow m /\ sending_flow m1 = if decide (sending_flow m = Some x) then None else sending_flow m).
  { unfold m1. rewrite is_flow_spec. case_bool_decide; [rewrite decide_True by done|rewrite decide_False by done]; repeat split. }
  set (m2 := if is_flow x (previous_flow m1) then set_previous None m1 else m1).
  assert (E2 : flows m2 = flows m /\ flows_list m2 = flows_list m /\ queued_tree m2 = queued_tree m /\ freeing m2 = freeing m /\ schedule_job m2 = schedule_job m
      /\ packet_weight m2 = packet_weight m /\ output_mtu m2 = output_mtu m /\ sending_data m2 = sending_data m /\ sending_len m2 = sending_len m
      /\ previous_flow m2 = (if decide (previous_flow m = Some x) then None else previous_flow m) /\ sending_flow m2 = if decide (sending_flow m = Some x) then None else sending_flow m).
  { unfold m2. rewrite is_flow_spec. destruct E1 as (H1 & H2 & H3 & H4 & H5 & H6 & H7 & H8 & H9 & H10 & H11). rewrite !H10. case_bool_decide; [rewrite (decide_True (P := previous_flow m = Some x)) by done|rewrite (decide_False (P := previous_flow m = Some x)) by done]; repeat split; done. }
  clearbody m2. clear E1 m1 Ea. destruct E2 as (-> & -> & -> & Ef & -> & -> & -> & -> & -> & -> & ->). rewrite Ef.
  assert (Ht : exists t, (if is_queued f then tree_Remove x (queued_tree m) else Some (queued_tree m)) = Some t /\ tree_ok t /\ tree_elements t = filter (fun y => y <> x) (tree_elements (queued_tree m))).
  { destruct (is_queued f) eqn:Hq; [apply elements_Remove; [apply (i_ok m Hi)|by apply tree_nodup|apply (i_tree m Hi); by exists f]|]. eexists. split; [done|]. split; [apply (i_ok m Hi)|]. symmetry. apply filter_all. intros y Hy ->. apply (i_tree m Hi) in Hy as (g & Hg & Hgq). congruence. }
  destruct Ht as (t & Et & Hok & Ht). rewrite Et. cbn [mbind option_bind]. eexists. split; [done|].
  assert (Hl : forall y g, delete x (flows m) !! y = Some g <-> flows m !! y = Some g /\ y <> x) by (intros y g; rewrite lookup_delete_Some; intuition congruence).
  split.
  - split; cbn [flows flows_list queued_tree sending_flow sending_data sending_len previous_flow freeing schedule_job packet_weight output_mtu].
    + destruct (i_list m Hi) as [H1 H2]. split; [by apply NoDup_filter|]. intros y. rewrite list_elem_of_filter, H2. split; [intros [Hy [g Hg]]; exists g; by apply Hl|intros [g Hg]; apply Hl in Hg as [? ?]; eauto].
    + rewrite Ht. eapply ordered_times; [apply ordered_filter, (i_order m Hi)|]. intros y [Hy _]%list_elem_of_filter. unfold time_of. by rewrite lookup_delete_ne by done.
    + intros y. rewrite Ht, list_elem_of_filter, (i_tree m Hi). unfold queued. cbn. split; [intros [Hy (g & Hg & Hq)]; exists g; by rewrite Hl|intros (g & Hg & Hq); apply Hl in Hg as [? ?]; eauto].
    + intros y g [Hg _]%Hl. by apply (i_time m Hi y).
    + intros y g [[Hg _]%Hl Hq]. by apply (i_len m Hi y g).
    + intros s. case_decide as Es; [done|]. intros Hs. destruct (i_sending m Hi s Hs) as (g & Hg & Hq & H1 & H2 & H3 & H4 & Hmin). exists g. rewrite Hl. split; [split; [done|congruence]|]. do 3 (split; [done|]). split; [rewrite H3; by case_decide|]. split; [done|].
      intros y g' [[Hg' _]%Hl Hq']. by apply (Hmin y g').
    + intros p. case_decide as Ep; [done|]. intros Hp. destruct (i_previous m Hi p Hp) as (g & Hg & Hq & Hj). exists g. rewrite Hl. split; [split; [done|congruence]|done].
    + intros Hj. rewrite (i_job m Hi Hj). by case_decide.
    + apply (i_weight m Hi).
    + first [exact Hok|apply (i_ok m Hi)].
  - intros Hfr Hne. cbn in *. destruct Hfree as [Hfree|Hs]; [congruence|]. rewrite decide_False by done. apply Hw; [done|]. intros E. rewrite Ht, E in Hne. done.
Qed.

(** Which flows there are. *)
Lemma flow_init_flows (m m' : Q) x : PacketPassFairQueueFlow_Init x m = Some m' -> flows m' = <[x := mkFlow 0 false [] false]> (flows m) /\ freeing m' = freeing m /\ sending_flow m' = sending_flow m.
Proof. unfold PacketPassFairQueueFlow_Init. destruct (_ && _); [|done]. by intros [= <-]. Qed.

Lemma flow_free_flows (m m' : Q) x : PacketPassFairQueueFlow_Free x m = Some m' -> flows m' = delete x (flows m) /\ freeing m' = freeing m.
Proof.
  unfold PacketPassFairQueueFlow_Free. destruct (flows m !! x) as [f|]; [|done]. cbn [mbind option_bind]. destruct (_ || _); [|done]. cbn [assert mbind option_bind]. destruct (if is_queued f then _ else _) as [t|]; [|done]. cbn [mbind option_bind]. intros [= <-]. cbn [flows freeing].
  destruct (is_flow x (sending_flow m)); (destruct (is_flow x (previous_flow _)); done).
Qed.

(** Only [PrepareFree] starts the freeing of the queue. *)
Ltac binds E :=
  repeat match type of E with
  | (assert ?c;; _) = Some _ => destruct c; cbn [assert mbind option_bind] in E; [|discriminate E]
  | (?o ≫= _) = Some _ => let H := fresh "Eb" in destruct o eqn:H; cbn [mbind option_bind] in E; [|discriminate E]
  end.

Lemma schedule_freeing (m m' : Q) : schedule m = Some m' -> freeing m' = freeing m.
Proof. unfold schedule. intros E. binds E. by injection E as <-. Qed.

Lemma step_freeing ev (m m' : Q) outs : step ev m = Some (m', outs) -> ev <> EvPrepareFree -> freeing m' = freeing m.
Proof.
  destruct ev as [x data| | |x|x|x b|]; cbn [step]; intros E Hne; [..|done].
  - destruct (input_handler_send x data m) as [m1|] eqn:E1; [|done]. injection E as <- _. unfold input_handler_send in E1. destruct (flows m !! x) as [f|]; [|done]. cbn [mbind option_bind] in E1. binds E1.
    destruct p as [f' m2]. assert (Hm2 : freeing m2 = freeing m) by (destruct (is_flow x (previous_flow m)); [by injection Eb as _ <-|]; binds Eb; by injection Eb as _ <-).
    binds E1. destruct (_ && _); [apply schedule_freeing in E1; cbn in E1; congruence|by injection E1 as <-].
  - destruct (sending_flow m) as [s|] eqn:Es; [|done]. cbn [mbind option_bind] in E. destruct (output_handler_done m) as [[m1 o]|] eqn:E1; [|done]. injection E as <- _. unfold output_handler_done in E1. rewrite Es in E1. cbn [mbind option_bind] in E1. destruct (flows m !! s); [|done]. cbn [mbind option_bind] in E1. binds E1.
    assert (Hm2 : freeing p = freeing m) by (unfold increment_sent_flow in Eb; binds Eb; by injection Eb as <-). destruct (handler_busy _); by injection E1 as <- _.
  - destruct (schedule_job_handler m) as [m1|] eqn:E1; [|done]. injection E as <- _. unfold schedule_job_handler in E1. binds E1. destruct (negb _); [by apply schedule_freeing in E1|by injection E1 as <-].
  - destruct (PacketPassFairQueueFlow_Init x m) as [m1|] eqn:E1; [|done]. injection E as <- _. by apply flow_init_flows in E1 as (_ & ? & _).
  - destruct (PacketPassFairQueueFlow_Free x m) as [m1|] eqn:E1; [|done]. injection E as <- _. by apply flow_free_flows in E1 as (_ & ?).
  - destruct (PacketPassFairQueueFlow_SetBusyHandler x b m) as [m1|] eqn:E1; [|done]. injection E as <- _. unfold PacketPassFairQueueFlow_SetBusyHandler in E1. binds E1. by injection E1 as <-.
Qed.

(** ** Steps and runs *)

Definition frees (ev : event) : bool := match ev with EvFlowFree _ => true | _ => false end.
Definition sends_of (ev : event) (y : nat) : list (list Z) := match ev with EvSend x data => if Nat.eqb y x then [data] else [] | _ => [] end.
Definition new_of (ev : event) : list nat := match ev with EvFlowInit x => [x] | _ => [] end.

Lemma fq_step_ok ev m : inv m -> works m -> possible ev m = true ->
  exists m' outs, step ev m = Some (m', outs) /\ inv m' /\ works m' /\ (outs = [] <-> ev <> EvOutputDone) /\ (frees ev = false -> moves m m' outs (sends_of ev) (new_of ev)).
Proof.
  intros Hi Hw. destruct ev as [x data| | |x|x|x b|]; cbn [possible step].
  - rewrite !andb_true_iff, !negb_true_iff. intros (((Hfr & Hs) & Hlen) & Hf). destruct (flows m !! x) as [f|] eqn:Ef; [|done]. apply negb_true_iff in Hf.
    destruct (input_handler_send_ok m x f data) as (m' & E & Hi' & Hw' & Hm); try done.
    { intros Es. rewrite Es in Hs. cbn in Hs. by rewrite Nat.eqb_refl in Hs. } { lia. }
    rewrite E. exists m', []. done.
  - rewrite andb_true_iff, !negb_true_iff. intros [Hfr Hs]. destruct (sending_flow m) as [s|] eqn:Es; [|done]. destruct (output_done_ok m s Hi Hfr Es) as (m' & o & E & Hi' & Hw' & Hm).
    cbn [mbind option_bind]. rewrite E. exists m', [(s, sending_data m)]. split; [done|]. split; [done|]. split; [done|]. split; [by split|done].
  - rewrite andb_true_iff, negb_true_iff. intros [Hfr Hj]. destruct (schedule_job_ok m Hi Hfr Hj) as (m' & E & Hi' & Hw' & Hm). rewrite E. exists m', []. done.
  - rewrite andb_true_iff, negb_true_iff. intros [Hfr Hx]. destruct (flow_init_ok m x) as (m' & E & Hi' & Hw' & Hm); try done. { by destruct (flows m !! x). } rewrite E. exists m', []. done.
  - rewrite andb_true_iff, orb_true_iff, !negb_true_iff. intros [Hx Hs]. destruct (flow_free_ok m x) as (m' & E & Hi' & Hw'); try done.
    { destruct (flows m !! x); [eauto|done]. } { destruct Hs as [->|Hs]; [by left|right]. rewrite is_flow_spec in Hs. by apply bool_decide_eq_false in Hs. }
    rewrite E. exists m', []. done.
  - rewrite andb_true_iff, negb_true_iff, is_flow_spec, bool_decide_eq_true. intros [Hfr Hs]. destruct (i_sending m Hi x Hs) as (f & Hf & _). unfold PacketPassFairQueueFlow_SetBusyHandler. rewrite Hf. cbn [mbind option_bind].
    rewrite is_flow_spec, bool_decide_true, Hfr by done. cbn [negb andb assert mbind option_bind]. destruct (busy_ok m x f b Hi Hw Hf) as (Hi' & Hw' & Hm). eexists _, []. split; [done|]. split; [done|]. split; [done|]. split; [done|]. intros _. apply Hm, moves_refl.
  - intros _. exists (PacketPassFairQueue_PrepareFree m), []. split; [done|]. split; [by destruct Hi|]. split; [done|]. split; [done|]. intros _. by destruct (moves_refl m).
Qed.

Lemma fq_run_ok evs : forall m, inv m -> works m -> possible_run evs m = true ->
  exists m' outs, run evs m = Some (m', outs) /\ inv m' /\ works m'
    /\ (forallb (fun ev => negb (frees ev)) evs = true -> forall x, (filter (fun o => o.1 = x) outs).*2 ++ outstanding m' x = outstanding m x ++ mjoin ((fun ev => sends_of ev x) <$> evs)).
Proof.
  induction evs as [|ev evs IH]; intros m Hi Hw Hp.
  { exists m, []. split; [done|]. split; [done|]. split; [done|]. intros _ x. cbn. by rewrite app_nil_r. }
  cbn [possible_run] in Hp. apply andb_true_iff in Hp as [Hp1 Hp2]. destruct (fq_step_ok ev m Hi Hw Hp1) as (m1 & o1 & E1 & Hi1 & Hw1 & _ & Hm). rewrite E1 in Hp2.
  destruct (IH m1 Hi1 Hw1 Hp2) as (m2 & o2 & E2 & Hi2 & Hw2 & Hx). exists m2, (o1 ++ o2). cbn [run]. rewrite E1. cbn [mbind option_bind]. rewrite E2. split; [done|]. split; [done|]. split; [done|].
  cbn [forallb]. intros [Hf Hfs]%andb_true_iff x. apply negb_true_iff in Hf. rewrite filter_app, fmap_app, <- app_assoc, (Hx Hfs x), app_assoc, (v_out _ _ _ _ _ (Hm Hf) x), <- app_assoc. done.
Qed.

(** ** Waiting *)

(** How much a flow may be charged while [g] waits: it is behind [g] by the difference of the times, or less
    if its time is before [c], and may go beyond it by a packet; [entry]: a flow that comes in. *)
Definition allowance (m : Q) (c : Z) (g y : nat) : Z := Z.max 0 (time_of (flows m) g - Z.max (time_of (flows m) y) c + packet_weight m + output_mtu m).
Definition entry (m : Q) (c : Z) (g : nat) : Z := time_of (flows m) g - c + packet_weight m + output_mtu m.
Definition charge (m : Q) (c : Z) (g y : nat) : Z := if decide (is_Some (flows m !! y)) then allowance m c g y else 0.

(** The flow [g] stays. *)
Definition keeps (g : nat) (ev : event) : bool := match ev with EvFlowFree x => negb (Nat.eqb x g) | _ => true end.
Definition is_done (ev : event) : bool := match ev with EvOutputDone => true | _ => false end.
Definition is_init (ev : event) : bool := match ev with EvFlowInit _ => true | _ => false end.
Definition inits (y : nat) (ev : event) : bool := match ev with EvFlowInit x => Nat.eqb x y | _ => false end.
Definition number (p : event -> bool) (evs : list event) : Z := Z.of_nat (length (List.filter p evs)).

Lemma number_cons p ev evs : number p (ev :: evs) = Z.b2z (p ev) + number p evs.
Proof. unfold number. cbn [List.filter]. destruct (p ev); cbn [Z.b2z length]; lia. Qed.

Lemma low_waits m c g : inv m -> low m c -> waits m g -> c <= time_of (flows m) g.
Proof. intros Hi Hl Hw. destruct (waits_flow m g Hi Hw) as (f & Hf & Hc). unfold time_of. rewrite Hf. apply (Hl g f). split; [done|]. tauto. Qed.

Lemma entry_pos m c g : inv m -> low m c -> waits m g -> 0 <= entry m c g.
Proof. intros Hi Hl Hw. pose proof (low_waits m c g Hi Hl Hw). destruct (i_weight m Hi). unfold entry. lia. Qed.

Lemma charge_nonneg m c g y : 0 <= charge m c g y.
Proof. unfold charge, allowance. case_decide; lia. Qed.

(** A step, while [g] waits: the flow that has sent pays from its own allowance. *)
Lemma step_waits m m' c outs sends new g : inv m -> low m c -> moves m m' outs sends new -> waits m g -> g ∉ outs.*1 ->
  waits m' g /\ packet_weight m' = packet_weight m /\ (sending_flow m = Some g -> outs = [] /\ sending_flow m' = Some g)
  /\ exists c', low m' c' /\ (sending_flow m <> Some g -> entry m' c' g = entry m c g
       /\ forall y, y <> g -> is_Some (flows m !! y) -> cost (packet_weight m) outs y + charge m' c' g y <= charge m c g y).
Proof.
  intros Hi Hlow [V1 (sub & Hsub & V2 & VL) V3 V4 V5 [V6 V7]] Hw Hg. destruct (waits_flow m g Hi Hw) as (f & Hf & Hc).
  split. { unfold waits in *. specialize (V3 g). assert (E : filter (fun o => o.1 = g) outs = []) by (destruct V4 as [->|(s & _ & ->)]; [done|rewrite filter_cons_False; [done|cbn; set_solver]]). rewrite E in V3. cbn in V3. rewrite V3. by destruct (outstanding m g). }
  split; [done|]. split. { intros Es. assert (outs = []) as -> by (destruct V4 as [->|(s & Es' & ->)]; [done|]; rewrite Es in Es'; injection Es' as <-; set_solver). auto. }
  exists (c - sub). split; [apply VL; eauto|]. intros Hns. destruct Hc as [?|[Hq _]]; [done|]. destruct (V2 g f Hf) as (f' & Hf' & _ & Ht). specialize (Ht Hq).
  split; [unfold entry, time_of; rewrite Hf, Hf', V6, V7, Ht; lia|]. intros y Hy Hsy. pose proof Hsy as [fy Hfy]. destruct (V2 y fy Hfy) as (fy' & Hfy' & Hty & _).
  unfold charge. rewrite !decide_True by eauto. unfold allowance, time_of. rewrite Hf, Hf', Hfy, Hfy', V6, V7, Ht.
  destruct (i_weight m Hi) as (Hw1 & Hw2 & Hw3). destruct V4 as [->|(s & Es & ->)]; cbn [cost foldr fst snd] in *; [lia|]. destruct (i_sending m Hi s Es) as (fs & Hfs & _ & Hl1 & Hl2 & _ & _ & Hmin).
  pose proof (Hmin g f (conj Hf Hq)) as Hle. destruct (Nat.eqb_spec s y) as [->|Hsy']; [|lia]. rewrite Hfs in Hfy. injection Hfy as <-. assert (c <= time fs) by (apply (Hlow y fs); split; [done|auto]). lia.
Qed.

Lemma cost_absent m m' outs sends new y : inv m -> moves m m' outs sends new -> flows m !! y = None -> cost (packet_weight m) outs y = 0.
Proof.
  intros Hi Hm Hy. destruct (v_outs _ _ _ _ _ Hm) as [->|(s & Es & ->)]; [done|]. destruct (i_sending m Hi s Es) as (fs & Hfs & _). cbn. rewrite (proj2 (Nat.eqb_neq s y)) by congruence. done.
Qed.

(** A flow other than [g] is freed. *)
Lemma free_waits m m' c x g : inv m -> low m c -> PacketPassFairQueueFlow_Free x m = Some m' -> x <> g -> waits m g ->
  flows m' = delete x (flows m) /\ flows_list m' = filter (fun y => y <> x) (flows_list m) /\ waits m' g /\ low m' c /\ packet_weight m' = packet_weight m /\ output_mtu m' = output_mtu m /\ (sending_flow m = Some g -> sending_flow m' = Some g).
Proof.
  intros Hi Hlow E Hx Hw. unfold PacketPassFairQueueFlow_Free in E. destruct (flows m !! x) as [f|] eqn:Hf; [|done]. cbn [mbind option_bind] in E. binds E. injection E as <-.
  set (m1 := if is_flow x (sending_flow m) then set_sending None (sending_data m) (sending_len m) m else m) in *. set (m2 := if is_flow x (previous_flow m1) then set_previous None m1 else m1) in *.
  assert (E1 : sending_flow m2 = (if is_flow x (sending_flow m) then None else sending_flow m) /\ sending_data m2 = sending_data m /\ flows m2 = flows m /\ flows_list m2 = flows_list m /\ packet_weight m2 = packet_weight m /\ output_mtu m2 = output_mtu m
      /\ forall p, previous_flow m2 = Some p -> previous_flow m = Some p) by (unfold m2, m1; destruct (is_flow x (sending_flow m)); cbn; destruct (is_flow x (previous_flow m)); done).
  destruct E1 as (E1 & E2 & E3 & El & E4 & E5 & E6). cbn [flows flows_list packet_weight output_mtu sending_flow]. rewrite E1, E3, El, E4, E5. rewrite is_flow_spec in *. split; [done|]. split; [done|]. split; [|split; [|split; [done|split; [done|]]]].
  - unfold waits, outstanding in *. cbn [flows sending_flow sending_data]. rewrite lookup_delete_ne, E2 by done. rewrite is_flow_spec in *. case_bool_decide as Es; [|done]. cbn [is_flow]. by rewrite bool_decide_false in Hw by congruence.
  - intros y h [Hh Ha]. cbn [flows sending_flow previous_flow] in Hh, Ha. apply lookup_delete_Some in Hh as [_ Hh]. apply (Hlow y h). split; [done|]. case_bool_decide; naive_solver.
  - intros Es. by rewrite bool_decide_false by congruence.
Qed.

(** One event, while [g] waits. *)
Lemma event_waits ev m m' outs c g : inv m -> works m -> low m c -> possible ev m = true -> step ev m = Some (m', outs) -> keeps g ev = true -> waits m g -> g ∉ outs.*1 ->
  waits m' g /\ packet_weight m' = packet_weight m /\ (sending_flow m = Some g -> outs = [] /\ sending_flow m' = Some g)
  /\ exists c', low m' c' /\ (sending_flow m <> Some g -> entry m' c' g = entry m c g
       /\ forall y, y <> g -> cost (packet_weight m) outs y + charge m' c' g y <= charge m c g y + Z.b2z (inits y ev) * entry m c g).
Proof.
  intros Hi Hw Hlow Hp E Hk Hg Hno. destruct (fq_step_ok ev m Hi Hw Hp) as (m1 & o1 & E1 & Hi1 & Hw1 & _ & Hm). rewrite E in E1. injection E1 as <- <-. pose proof (entry_pos m c g Hi Hlow Hg) as Hent. destruct (frees ev) eqn:Ef.
  - destruct ev as [| | | |x| |]; try done. cbn [keeps] in Hk. apply negb_true_iff, Nat.eqb_neq in Hk. cbn [step] in E. destruct (PacketPassFairQueueFlow_Free x m) as [m2|] eqn:E2; [|done]. injection E as <- <-.
    destruct (free_waits m m2 c x g Hi Hlow E2 Hk Hg) as (Efl & _ & Hg' & Hlow' & Ew & Em & Es). split; [done|]. split; [done|]. split; [auto|]. exists c. split; [done|]. intros _. unfold entry, charge, allowance, time_of. rewrite Efl, Ew, Em, lookup_delete_ne by done. split; [done|].
    intros y Hy. cbn [cost foldr inits Z.b2z]. destruct (decide (y = x)) as [->|Hyx]; [rewrite lookup_delete_eq|rewrite lookup_delete_ne by done; lia]. rewrite (decide_False (P := is_Some None)) by (by intros [? ?]). case_decide; lia.
  - destruct (step_waits m m' c outs (sends_of ev) (new_of ev) g Hi Hlow (Hm eq_refl) Hg Hno) as (Hg' & Hpw & Hs & c' & Hlow' & Hrest). split; [done|]. split; [done|]. split; [done|]. exists c'. split; [done|]. intros Hns. destruct (Hrest Hns) as [Hen Hch]. split; [done|].
    intros y Hy. assert (0 <= Z.b2z (inits y ev) * entry m c g) by (destruct (inits y ev); cbn; lia). destruct (flows m !! y) as [fy|] eqn:Hfy; [pose proof (Hch y Hy ltac:(eauto)); lia|].
    rewrite (cost_absent m m' outs _ _ y Hi (Hm eq_refl) Hfy). unfold charge at 2. rewrite Hfy, (decide_False (P := is_Some None)) by (by intros [? ?]). destruct (flows m' !! y) as [fy'|] eqn:Hfy'.
    + assert (Hin : y ∈ new_of ev). { assert (Hl : y ∈ flows_list m') by (apply (i_list m' Hi1); eauto). rewrite (v_list _ _ _ _ _ (Hm eq_refl)), elem_of_app in Hl. destruct Hl as [Hl|?]; [|done]. apply (i_list m Hi) in Hl as [? ?]. congruence. }
      destruct ev; try (by apply elem_of_nil in Hin). apply list_elem_of_singleton in Hin as ->. cbn [inits Z.b2z]. rewrite Nat.eqb_refl, <- Hen. cbn [Z.b2z]. pose proof (entry_pos m' c' g Hi1 Hlow' Hg'). unfold charge. case_decide; [|lia]. unfold allowance, entry in *. lia.
    + unfold charge. rewrite Hfy', (decide_False (P := is_Some None)) by (by intros [? ?]). lia.
Qed.

(** Sums over the flows. *)
Definition total (f : nat -> Z) (l : list nat) : Z := foldr (fun x s => f x + s) 0 l.

Lemma total_cons f x l : total f (x :: l) = f x + total f l.
Proof. done. Qed.
Lemma cost_cons w o outs x : cost w (o :: outs) x = (if Nat.eqb o.1 x then w + Z.of_nat (length o.2) else 0) + cost w outs x.
Proof. done. Qed.

Lemma total_le f g l : (forall x, x ∈ l -> f x <= g x) -> total f l <= total g l.
Proof. unfold total. induction l as [|x l IH]; intros Hl; cbn; [lia|]. pose proof (Hl x ltac:(set_solver)). pose proof (IH ltac:(intros; apply Hl; set_solver)). lia. Qed.

(** Every packet is charged to some flow, with at least its weight. *)
Lemma total_cost w outs l : 0 <= w -> NoDup l -> (forall o, o ∈ outs -> o.1 ∈ l) -> w * Z.of_nat (length outs) <= total (cost w outs) l.
Proof.
  intros Hw Hnd. induction outs as [|o outs IH]; intros Hl.
  { cbn [length]. rewrite Z.mul_0_r. assert (E : total (cost w []) l = 0) by (clear; unfold total, cost; induction l as [|x l IHl]; [done|]; cbn [foldr] in *; lia). lia. }
  specialize (IH ltac:(intros; apply Hl; set_solver)). pose proof (Hl o ltac:(set_solver)) as Ho. clear Hl.
  assert (Ht : w + total (cost w outs) l <= total (cost w (o :: outs)) l).
  { clear IH. induction l as [|x l IHl]; [set_solver|]. apply NoDup_cons in Hnd as [Hx Hnd]. rewrite !total_cons, cost_cons. destruct (Nat.eqb_spec o.1 x) as [E|E].
    - pose proof (total_le (cost w outs) (cost w (o :: outs)) l ltac:(intros y _; rewrite cost_cons; destruct (Nat.eqb o.1 y); lia)). lia.
    - assert (Ho' : o.1 ∈ l) by set_solver. specialize (IHl Hnd Ho'). lia. }
  cbn [length]. lia.
Qed.

Lemma total_app f l k : total f (l ++ k) = total f l + total f k.
Proof. unfold total. induction l as [|x l IH]; cbn; lia. Qed.

Lemma total_add f g l : total (fun x => f x + g x) l = total f l + total g l.
Proof. unfold total. induction l as [|x l IH]; cbn; lia. Qed.

(** Every packet that is sent is announced by the output. *)
Lemma run_dones evs : forall m m' outs, inv m -> works m -> possible_run evs m = true -> run evs m = Some (m', outs) -> Z.of_nat (length outs) = number is_done evs.
Proof.
  induction evs as [|ev evs IH]; intros m m' outs Hi Hw Hp E.
  { by injection E as _ <-. }
  cbn [possible_run] in Hp. apply andb_true_iff in Hp as [Hp1 Hp2]. destruct (fq_step_ok ev m Hi Hw Hp1) as (m1 & o1 & E1 & Hi1 & Hw1 & Ho1 & _). cbn [run] in E. rewrite E1 in E, Hp2. cbn [mbind option_bind] in E. destruct (run evs m1) as [[m2 o2]|] eqn:E2; [|done]. injection E as <- <-.
  rewrite number_cons, length_app, Nat2Z.inj_add, (IH m1 m2 o2 Hi1 Hw1 Hp2 E2). f_equal. destruct (is_done ev) eqn:Ed; [|rewrite (proj2 Ho1) by (by intros ->); done]. destruct ev; try done.
  cbn [step] in E1. destruct (sending_flow m); [|done]. cbn [mbind option_bind] in E1. destruct (output_handler_done m) as [[? ?]|]; [|done]. by injection E1 as _ <-.
Qed.

(** A run, while [g] waits. *)
Lemma run_waits g evs : forall m c m' outs, inv m -> works m -> low m c -> possible_run evs m = true -> forallb (keeps g) evs = true -> waits m g ->
  run evs m = Some (m', outs) -> g ∉ outs.*1 -> (sending_flow m = Some g -> outs = [])
  /\ forall y, y <> g -> cost (packet_weight m) outs y <= charge m c g y + number (inits y) evs * entry m c g.
Proof.
  induction evs as [|ev evs IH]; intros m c m' outs Hi Hw Hlow Hp Hk Hg E Hno.
  { injection E as _ <-. split; [done|]. intros y _. pose proof (charge_nonneg m c g y). change (number (inits y) []) with 0. cbn. lia. }
  cbn [possible_run] in Hp. apply andb_true_iff in Hp as [Hp1 Hp2]. cbn [forallb] in Hk. apply andb_true_iff in Hk as [Hk1 Hk2].
  destruct (fq_step_ok ev m Hi Hw Hp1) as (m1 & o1 & E1 & Hi1 & Hw1 & _ & _). cbn [run] in E. rewrite E1 in E, Hp2. cbn [mbind option_bind] in E. destruct (run evs m1) as [[m2 o2]|] eqn:E2; [|done]. injection E as <- <-.
  rewrite fmap_app, not_elem_of_app in Hno. destruct Hno as [Hno1 Hno2]. destruct (event_waits ev m m1 o1 c g Hi Hw Hlow Hp1 E1 Hk1 Hg Hno1) as (Hg1 & Hpw & Hs & c' & Hlow' & Hrest).
  destruct (IH m1 c' m2 o2 Hi1 Hw1 Hlow' Hp2 Hk2 Hg1 E2 Hno2) as [Hnil Hch]. rewrite Hpw in Hch. pose proof (entry_pos m c g Hi Hlow Hg) as Hent.
  destruct (decide (sending_flow m = Some g)) as [Esg|Esg].
  - destruct (Hs Esg) as [-> Es1]. rewrite (Hnil Es1). split; [done|]. intros y _. pose proof (charge_nonneg m c g y). assert (0 <= number (inits y) (ev :: evs)) by (unfold number; lia). cbn [app cost foldr]. nia.
  - split; [done|]. intros y Hy. destruct (Hrest Esg) as [Hen Hst]. specialize (Hst y Hy). specialize (Hch y Hy). rewrite Hen in Hch. rewrite number_cons.
    assert (Hcost : cost (packet_weight m) (o1 ++ o2) y = cost (packet_weight m) o1 y + cost (packet_weight m) o2 y) by (unfold cost; clear; induction o1; cbn in *; lia). lia.
Qed.

Definition others (m : Q) (g : nat) : list nat := filter (fun y => y <> g) (flows_list m).

Lemma others_flow m g y : inv m -> y ∈ others m g <-> y <> g /\ is_Some (flows m !! y).
Proof. intros Hi. unfold others. rewrite list_elem_of_filter, (proj2 (i_list m Hi)). done. Qed.

Lemma total_filter_le f (P : nat -> Prop) `{!forall x, Decision (P x)} l : (forall x, 0 <= f x) -> total f (filter P l) <= total f l.
Proof. intros Hf. induction l as [|x l IH]; [done|]. rewrite filter_cons. pose proof (Hf x). case_decide; rewrite ?total_cons; lia. Qed.

(** The charges of all flows: a flow that comes in adds [entry] at most. *)
Lemma event_total ev m m' outs c c' g : inv m -> works m -> possible ev m = true -> step ev m = Some (m', outs) -> keeps g ev = true -> waits m g -> g ∉ outs.*1 -> inv m' -> low m c ->
  (forall y, y <> g -> cost (packet_weight m) outs y + charge m' c' g y <= charge m c g y + Z.b2z (inits y ev) * entry m c g) ->
  packet_weight m * Z.of_nat (length outs) + total (charge m' c' g) (others m' g) <= total (charge m c g) (others m g) + Z.b2z (is_init ev) * entry m c g.
Proof.
  intros Hi Hw Hp E Hk Hg Hno Hi' Hlow Hy. destruct (fq_step_ok ev m Hi Hw Hp) as (m1 & o1 & E1 & _ & _ & Ho & Hm). rewrite E in E1. injection E1 as <- <-. destruct (i_weight m Hi) as [Hw1 _].
  assert (Hcost : packet_weight m * Z.of_nat (length outs) <= total (cost (packet_weight m) outs) (others m g)).
  { destruct (frees ev) eqn:Ef; [rewrite (proj2 Ho) by (by intros ->); clear; cbn [length]; rewrite Z.mul_0_r; unfold total, cost; induction (others m g); cbn in *; lia|]. apply total_cost; [lia|apply NoDup_filter, (i_list m Hi)|].
    intros o Hin. apply others_flow; [done|]. split; [intros <-; apply Hno, list_elem_of_fmap; eauto|]. destruct (v_outs _ _ _ _ _ (Hm eq_refl)) as [->|(s & Es & ->)]; [by apply elem_of_nil in Hin|]. apply list_elem_of_singleton in Hin as ->. destruct (i_sending m Hi s Es) as (f & Hf & _). eauto. }
  assert (Hold : total (cost (packet_weight m) outs) (others m g) + total (charge m' c' g) (others m g) <= total (charge m c g) (others m g)).
  { rewrite <- total_add. apply total_le. intros y Hin. apply others_flow in Hin as [Hne Hsome]; [|done]. specialize (Hy y Hne). assert (Hni : inits y ev = false); [|rewrite Hni in Hy; cbn in Hy; lia].
    destruct ev; try done. cbn [possible inits] in *. apply andb_true_iff in Hp as [_ Hp]. apply Nat.eqb_neq. intros ->. destruct Hsome as [? Es]. by rewrite Es in Hp. }
  destruct ev as [| | |x|x| |]; try (unfold others at 1; rewrite (v_list _ _ _ _ _ (Hm eq_refl)), app_nil_r; fold (others m g); cbn [is_init Z.b2z]; lia).
  - unfold others at 1. rewrite (v_list _ _ _ _ _ (Hm eq_refl)), filter_app. fold (others m g). rewrite total_app. cbn [new_of is_init Z.b2z].
    cbn [possible] in Hp. apply andb_true_iff in Hp as [_ Hx]. destruct (waits_flow m g Hi Hg) as (fg & Hfg & _). assert (Hxg : x <> g) by (intros ->; by rewrite Hfg in Hx).
    rewrite filter_cons_True by done. specialize (Hy x Hxg). cbn [inits] in Hy. rewrite Nat.eqb_refl in Hy. unfold charge at 2 in Hy. rewrite decide_False in Hy by (intros [? Es]; by rewrite Es in Hx). rewrite total_cons. change (filter _ []) with (@nil nat). cbn [total foldr Z.b2z] in *.
    assert (0 <= cost (packet_weight m) outs x) by (rewrite (proj2 Ho) by done; cbn; lia). lia.
  - cbn [keeps step] in *. apply negb_true_iff, Nat.eqb_neq in Hk. destruct (PacketPassFairQueueFlow_Free x m) as [m2|] eqn:E2; [|done]. injection E as <- <-. destruct (free_waits m m2 c x g Hi Hlow E2 Hk Hg) as (_ & El & _).
    assert (Eo : others m2 g = filter (fun y => y <> x) (others m g)) by (unfold others; rewrite El, !list_filter_filter; apply list_filter_iff; intros; tauto). rewrite Eo. cbn [is_init Z.b2z].
    pose proof (total_filter_le (charge m2 c' g) (fun y => y <> x) (others m g) (charge_nonneg m2 c' g)). lia.
Qed.

Lemma run_total g evs : forall m c m' outs, inv m -> works m -> low m c -> possible_run evs m = true -> forallb (keeps g) evs = true -> waits m g ->
  run evs m = Some (m', outs) -> g ∉ outs.*1 -> packet_weight m * Z.of_nat (length outs) <= total (charge m c g) (others m g) + number is_init evs * entry m c g.
Proof.
  induction evs as [|ev evs IH]; intros m c m' outs Hi Hw Hlow Hp Hk Hg E Hno.
  { injection E as _ <-. change (number is_init []) with 0. pose proof (total_le (fun _ => 0) (charge m c g) (others m g) (fun y _ => charge_nonneg m c g y)) as Ht. assert (E0 : total (fun _ => 0) (others m g) = 0) by (clear; unfold total; induction (others m g); cbn in *; lia). cbn [length]. lia. }
  pose proof (run_waits g (ev :: evs) m c m' outs Hi Hw Hlow Hp Hk Hg E Hno) as [Hnil _]. pose proof (entry_pos m c g Hi Hlow Hg) as Hent. cbn [possible_run] in Hp. apply andb_true_iff in Hp as [Hp1 Hp2]. cbn [forallb] in Hk. apply andb_true_iff in Hk as [Hk1 Hk2].
  destruct (fq_step_ok ev m Hi Hw Hp1) as (m1 & o1 & E1 & Hi1 & Hw1 & _ & _). cbn [run] in E. rewrite E1 in E, Hp2. cbn [mbind option_bind] in E. destruct (run evs m1) as [[m2 o2]|] eqn:E2; [|done]. injection E as <- <-.
  rewrite fmap_app, not_elem_of_app in Hno. destruct Hno as [Hno1 Hno2]. destruct (event_waits ev m m1 o1 c g Hi Hw Hlow Hp1 E1 Hk1 Hg Hno1) as (Hg1 & Hpw & Hs & c' & Hlow' & Hrest).
  destruct (decide (sending_flow m = Some g)) as [Esg|Esg].
  - rewrite (Hnil Esg). pose proof (total_le (fun _ => 0) (charge m c g) (others m g) (fun y _ => charge_nonneg m c g y)) as Ht. assert (E0 : total (fun _ => 0) (others m g) = 0) by (clear; unfold total; induction (others m g); cbn in *; lia). assert (0 <= number is_init (ev :: evs)) by (unfold number; lia). cbn [length]. nia.
  - destruct (Hrest Esg) as [Hen Hst]. pose proof (event_total ev m m1 o1 c c' g Hi Hw Hp1 E1 Hk1 Hg Hno1 Hi1 Hlow Hst) as Ht. specialize (IH m1 c' m2 o2 Hi1 Hw1 Hlow' Hp2 Hk2 Hg1 E2 Hno2). rewrite Hpw, Hen in IH. rewrite number_cons, length_app, Nat2Z.inj_add. lia.
Qed.

Lemma fq_init_ok mtu cancel has_cancel weight m : PacketPassFairQueue_Init mtu cancel has_cancel weight = Some (Some m) -> 0 <= mtu -> inv m /\ works m /\ forall x, outstanding m x = [].
Proof.
  unfold PacketPassFairQueue_Init. intros E Hm. destruct (Z.ltb_spec 0 weight) as [Hw|]; [|done]. cbn [andb] in E. destruct (negb cancel || has_cancel); [|done]. cbn [assert mbind option_bind] in E.
  destruct (negb _) eqn:Eb; [done|]. apply negb_false_iff, andb_true_iff in Eb as [E1 E2]. injection E as <-. split; [|split; [intros _ Hne; cbn in Hne; by rewrite (proj2 ok_Init) in Hne|done]].
  split; cbn; rewrite ?(proj2 ok_Init); try done.
  - split; [apply NoDup_nil_2|]. intros x. rewrite lookup_empty. split; [set_solver|by intros [? ?]].
  - intros x. unfold queued. cbn. split; [set_solver|]. intros (f & Hf & _). by rewrite lookup_empty in Hf.
  - intros x f [Hf _]. cbn in Hf. by rewrite lookup_empty in Hf.
  - lia.
  - apply ok_Init.
Qed.

(** From [PacketPassFairQueue_Init] on, whatever the sources, the output and the owner of the
    flows do within the contracts of the interfaces: no assertion fails, no flow is used after it
    is freed, and the invariant holds: the flow being sent has at most the time of every queued
    flow, times and charges stay within 64 bits, packets within the MTU.  The output never
    idles while a flow is queued.  If no flow is freed, the packets of each flow were sent
    each once and in order, except those still outstanding. *)
Theorem fair_queue_safe mtu cancel has_cancel weight m0 evs :
  PacketPassFairQueue_Init mtu cancel has_cancel weight = Some (Some m0) -> 0 <= mtu -> possible_run evs m0 = true ->
  exists m outs, run evs m0 = Some (m, outs) /\ inv m /\ works m
    /\ (forallb (fun ev => negb (frees ev)) evs = true -> forall x, (filter (fun o => o.1 = x) outs).*2 ++ outstanding m x = mjoin ((fun ev => sends_of ev x) <$> evs)).
Proof.
  intros E Hm Hp. destruct (fq_init_ok _ _ _ _ _ E Hm) as (Hi & Hw & Ho). destruct (fq_run_ok evs m0 Hi Hw Hp) as (m & outs & Er & Hi' & Hw' & Hx). exists m, outs. split; [done|]. split; [done|]. split; [done|].
  intros Hf x. by rewrite (Hx Hf x), Ho.
Qed.

(** C28. Bounded waiting.  In any state [m] the queue can reach, let a packet of flow [g] be accepted and not sent, and
    [c] be the current time of the queue.  Then the output is busy or the job is set.  Whatever happens from there on,
    flows being created and freed included, as long as [g] is not freed and the packet waits: every flow is charged at
    most the time it lags behind [g] plus one packet of the MTU (its [allowance]), and a flow that is created at most the
    time that [g] is ahead of [c] plus one packet ([entry]), for each time it is created; so the packet is sent at the latest
    when the output has been done more often than the sum of the allowances of the flows there are and of the entries
    of those that come, divided by the weight of a packet. *)
Theorem fair_queue_bounded_wait mtu cancel has_cancel weight m0 evs0 m outs0 g c evs m' outs :
  PacketPassFairQueue_Init mtu cancel has_cancel weight = Some (Some m0) -> 0 <= mtu -> possible_run evs0 m0 = true -> run evs0 m0 = Some (m, outs0) ->
  waits m g -> get_current_time m = Some c -> possible_run evs m = true -> forallb (keeps g) evs = true -> run evs m = Some (m', outs) ->
  (freeing m = false -> sending_flow m <> None \/ schedule_job m = true)
  /\ (g ∉ outs.*1 -> forall y, y <> g -> cost (packet_weight m) outs y <= charge m c g y + number (inits y) evs * entry m c g)
  /\ (total (charge m c g) (others m g) + number is_init evs * entry m c g < packet_weight m * number is_done evs -> g ∈ outs.*1).
Proof.
  intros E Hm Hp0 E0 Hg Hc Hp Hk Er. destruct (fq_init_ok _ _ _ _ _ E Hm) as (Hi0 & Hw0 & _). destruct (fq_run_ok evs0 m0 Hi0 Hw0 Hp0) as (m1 & o1 & E1 & Hi & Hw & _). rewrite E0 in E1. injection E1 as <- <-.
  destruct (get_current_time_ok m Hi) as (t & Et & _ & _ & Hlow & _). rewrite Hc in Et. injection Et as <-. destruct (waits_flow m g Hi Hg) as (f & Hf & Hcase). split; [|split].
  - intros Hfr. destruct Hcase as [Hs|[Hq _]]; [left; by rewrite Hs|]. apply Hw; [done|]. intros Ee. by apply (no_queued m Hi Ee g f).
  - intros Hno. by destruct (run_waits g evs m c m' outs Hi Hw Hlow Hp Hk Hg Er Hno).
  - intros Hlt. destruct (decide (g ∈ outs.*1)) as [|Hno]; [done|exfalso]. pose proof (run_total g evs m c m' outs Hi Hw Hlow Hp Hk Hg Er Hno) as Ht. rewrite (run_dones evs m m' outs Hi Hw Hp Er) in Ht. lia.
Qed.

End Inv.

(** ** Runs *)

(** Over the tree in memory. *)
Definition example_queue : PacketPassFairQueue BAVL := mkQueue ∅ [] BAVL_Init None [] 0 None false false 1 100 false.

(** Two flows; the first sends alone before the second has a packet. *)
Definition alone : list event :=
  [EvFlowInit 1; EvFlowInit 2; EvSend 1 [7; 7; 7]; EvOutputDone; EvSend 1 [8; 8; 8]; EvJob; EvSend 2 [1]].

(** The second flow starts where the first is, and then goes first: it has the smaller packets. *)
Definition together : list event := [EvOutputDone; EvSend 1 [9; 9; 9]; EvJob; EvOutputDone; EvSend 2 [2]; EvJob; EvOutputDone; EvSend 2 [3]; EvJob].

Lemma fair_queue_safe_witness : exists m outs, run (alone ++ together) example_queue = Some (m, outs) /\ inv m /\ works m
  /\ (filter (fun o => o.1 = 2%nat) outs).*2 ++ outstanding m 2 = [[1]; [2]; [3]].
Proof.
  destruct (fair_queue_safe 100 false false 1 example_queue (alone ++ together)) as (m & outs & E & Hi & Hw & Hx); [reflexivity|lia|vm_compute; reflexivity|].
  exists m, outs. split; [exact E|]. split; [exact Hi|]. split; [exact Hw|]. exact (Hx eq_refl 2%nat).
Defined.

Definition after_alone : PacketPassFairQueue BAVL := match run alone example_queue with Some (m, _) => m | None => example_queue end.

(** The second flow waits while the first goes on and a third comes in. *)
Definition newcomer : list event := [EvOutputDone; EvFlowInit 3; EvSend 3 [5]; EvSend 1 [9]; EvFlowFree 3].
Definition newcomer_run : PacketPassFairQueue BAVL * list (nat * list Z) := default (example_queue, []) (run newcomer after_alone).

Lemma fair_queue_bounded_wait_witness : newcomer_run.2.*1 = [1]%nat /\ cost 1 newcomer_run.2 1 = 4
  /\ forall y, y <> 2%nat -> cost 1 newcomer_run.2 y <= charge after_alone 4 2 y + number (inits y) newcomer * entry after_alone 4 2.
Proof.
  split; [vm_compute; reflexivity|]. split; [vm_compute; reflexivity|].
  destruct (fair_queue_bounded_wait 100 false false 1 example_queue alone after_alone [(1%nat, [7; 7; 7])] 2 4 newcomer newcomer_run.1 newcomer_run.2) as (_ & Hb & _);
    [reflexivity|lia|vm_compute; reflexivity|vm_compute; reflexivity|vm_compute; discriminate|vm_compute; reflexivity|vm_compute; reflexivity|reflexivity|vm_compute; reflexivity|].
  apply Hb. vm_compute. intros H. inversion H; subst. inversion H2.
Defined.

(** A flow that has sent alone keeps its time when it pauses: flow 1 sent five packets before
    flow 2 had any, and waits until flow 2 has sent five. *)
Definition burst (x : nat) : list event := [EvSend x [0]; EvOutputDone; EvJob].
Definition again (x : nat) : list event := [EvOutputDone; EvSend x [0]; EvJob].
Example fair_queue_debt :
  snd <$> run ([EvFlowInit 1; EvFlowInit 2] ++ burst 1 ++ burst 1 ++ burst 1 ++ burst 1 ++ burst 1
    ++ [EvSend 2 [0]; EvSend 1 [5]] ++ again 2 ++ again 2 ++ again 2 ++ again 2 ++ again 2 ++ [EvOutputDone]) example_queue
  = Some ((1%nat, [0]) :: (1%nat, [0]) :: (1%nat, [0]) :: (1%nat, [0]) :: (1%nat, [0])
     :: (2%nat, [0]) :: (2%nat, [0]) :: (2%nat, [0]) :: (2%nat, [0]) :: (2%nat, [0]) :: [(1%nat, [5])]).
Proof. vm_compute. reflexivity. Qed.
