(* ===== verification/UdpGw.v ===== *)
(** * The client of the UDP gateway

    Models badvpn/udpgw_client/UdpGwClient.c with badvpn/protocol/udpgw_proto.h: datagrams go to
    a gateway over one stream; each pair of a local and a remote address is a connection with an
    identifier, and the least recently used connection gives its identifier to a new pair
    when all are taken.  The packets of each connection pass through a buffer of their own and
    share the stream through the fair queue of [FairQueue].

    Connections live at addresses of the heap; the two trees over them are any instance of
    [Avl].  The program is built with PSIPHON defined, where no keep-alive packets are sent.
    A function is [None] where the code would violate an assertion or the contract of an
    interface, write past a buffer or use freed memory. *)

From S2P Require Import Prelude Baddr PacketProto Avl FairQueue.

(** ** The protocol *)

Definition UDPGW_CLIENT_FLAG_KEEPALIVE : Z := 1.
Definition UDPGW_CLIENT_FLAG_REBIND : Z := 2.
Definition UDPGW_CLIENT_FLAG_DNS : Z := 4.
Definition UDPGW_CLIENT_FLAG_IPV6 : Z := 8.

(** The packed structures of the protocol. *)
Definition sizeof_udpgw_header : Z := 3.
Definition sizeof_udpgw_addr_ipv4 : Z := 6.
Definition sizeof_udpgw_addr_ipv6 : Z := 18.

Definition udpgw_compute_mtu (dgram_mtu : Z) : Z :=
  let bs := bsize_add (bsize_fromsize sizeof_udpgw_header)
              (bsize_add (bsize_max (bsize_fromsize sizeof_udpgw_addr_ipv4) (bsize_fromsize sizeof_udpgw_addr_ipv6)) (bsize_fromint dgram_mtu)) in
  default (-1) (bsize_toint bs).

(** ** State *)

Record UdpGwClient_conaddr := mkConaddr { local_addr : BAddr; remote_addr : BAddr }.

#[global] Instance conaddr_eq_dec : EqDecision UdpGwClient_conaddr.
Proof. solve_decision. Defined.

(** [out]: the buffer that the writer [send_if] has been given, if any; [first_job]: whether the
    job is set. *)
Record UdpGwClient_connection := mkCon {
  conaddr : UdpGwClient_conaddr; first_flags : Z; first_data : list Z; conid : Z; first_job : bool; out : option (list Z)
}.

Record UdpGwClient (T : Type) := mkClient {
  udp_mtu : Z; max_connections : Z; send_buffer_size : Z; udpgw_mtu : Z; pp_mtu : Z;
  cons : gmap nat UdpGwClient_connection;
  connections_tree_by_conaddr : T; connections_tree_by_conid : T; connections_list : list nat;
  num_connections : Z; next_conid : Z;
  send_queue : PacketPassFairQueue T; keepalive_qflow : nat; keepalive_sending : bool; have_server : bool
}.
#[global] Arguments mkClient {T}.
#[global] Arguments udp_mtu {T}. #[global] Arguments max_connections {T}. #[global] Arguments send_buffer_size {T}. #[global] Arguments udpgw_mtu {T}.
#[global] Arguments pp_mtu {T}. #[global] Arguments cons {T}. #[global] Arguments connections_tree_by_conaddr {T}. #[global] Arguments connections_tree_by_conid {T}.
#[global] Arguments connections_list {T}. #[global] Arguments num_connections {T}. #[global] Arguments next_conid {T}. #[global] Arguments send_queue {T}.
#[global] Arguments keepalive_qflow {T}. #[global] Arguments keepalive_sending {T}. #[global] Arguments have_server {T}.

(** What leaves the client: a packet for the gateway, in the buffer of a connection; a datagram
    for the user. *)
Inductive output :=
  | Packet (con : nat) (packet : list Z)
  | Received (local remote : BAddr) (data : list Z).

Section Client.
Context {T : Type} `{Avl T}.
#[local] Notation Client := (UdpGwClient T).

Definition set_connections (h : gmap nat UdpGwClient_connection) (ta ti : T) (l : list nat) (n : Z) (o : Client) : Client :=
  mkClient (udp_mtu o) (max_connections o) (send_buffer_size o) (udpgw_mtu o) (pp_mtu o) h ta ti l n (next_conid o)
    (send_queue o) (keepalive_qflow o) (keepalive_sending o) (have_server o).
Definition set_cons (h : gmap nat UdpGwClient_connection) (o : Client) : Client :=
  set_connections h (connections_tree_by_conaddr o) (connections_tree_by_conid o) (connections_list o) (num_connections o) o.
Definition set_list (l : list nat) (o : Client) : Client :=
  set_connections (cons o) (connections_tree_by_conaddr o) (connections_tree_by_conid o) l (num_connections o) o.
Definition set_next (n : Z) (o : Client) : Client :=
  mkClient (udp_mtu o) (max_connections o) (send_buffer_size o) (udpgw_mtu o) (pp_mtu o) (cons o) (connections_tree_by_conaddr o) (connections_tree_by_conid o)
    (connections_list o) (num_connections o) n (send_queue o) (keepalive_qflow o) (keepalive_sending o) (have_server o).
Definition set_queue (q : PacketPassFairQueue T) (o : Client) : Client :=
  mkClient (udp_mtu o) (max_connections o) (send_buffer_size o) (udpgw_mtu o) (pp_mtu o) (cons o) (connections_tree_by_conaddr o) (connections_tree_by_conid o)
    (connections_list o) (num_connections o) (next_conid o) q (keepalive_qflow o) (keepalive_sending o) (have_server o).
Definition set_server (b : bool) (o : Client) : Client :=
  mkClient (udp_mtu o) (max_connections o) (send_buffer_size o) (udpgw_mtu o) (pp_mtu o) (cons o) (connections_tree_by_conaddr o) (connections_tree_by_conid o)
    (connections_list o) (num_connections o) (next_conid o) (send_queue o) (keepalive_qflow o) (keepalive_sending o) b.
Definition set_keepalive (b : bool) (o : Client) : Client :=
  mkClient (udp_mtu o) (max_connections o) (send_buffer_size o) (udpgw_mtu o) (pp_mtu o) (cons o) (connections_tree_by_conaddr o) (connections_tree_by_conid o)
    (connections_list o) (num_connections o) (next_conid o) (send_queue o) (keepalive_qflow o) b (have_server o).

Definition with_conaddr (a : UdpGwClient_conaddr) (c : UdpGwClient_connection) : UdpGwClient_connection :=
  mkCon a (first_flags c) (first_data c) (conid c) (first_job c) (out c).
Definition with_job (b : bool) (c : UdpGwClient_connection) : UdpGwClient_connection :=
  mkCon (conaddr c) (first_flags c) (first_data c) (conid c) b (out c).
Definition with_out (w : option (list Z)) (c : UdpGwClient_connection) : UdpGwClient_connection :=
  mkCon (conaddr c) (first_flags c) (first_data c) (conid c) (first_job c) w.

(** ** The trees *)

Definition uint16_comparator (v1 v2 : Z) : Z := B_COMPARE v1 v2.
Definition conaddr_comparator (v1 v2 : UdpGwClient_conaddr) : Z :=
  let r := BAddr_CompareOrder (remote_addr v1) (remote_addr v2) in
  if negb (r =? 0) then r else BAddr_CompareOrder (local_addr v1) (local_addr v2).

(** The comparators on the keys in the connections at two addresses, or at one. *)
Definition no_addr : BAddr := mkBAddr BADDR_TYPE_NONE [] [].
Definition conaddr_at (h : gmap nat UdpGwClient_connection) (x : nat) : UdpGwClient_conaddr :=
  match h !! x with Some c => conaddr c | None => mkConaddr no_addr no_addr end.
Definition conid_at (h : gmap nat UdpGwClient_connection) (x : nat) : Z := match h !! x with Some c => conid c | None => 0 end.
Definition by_conaddr (h : gmap nat UdpGwClient_connection) (x y : nat) : Z := conaddr_comparator (conaddr_at h x) (conaddr_at h y).
Definition by_conid (h : gmap nat UdpGwClient_connection) (x y : nat) : Z := uint16_comparator (conid_at h x) (conid_at h y).

Definition find_connection_by_conaddr (a : UdpGwClient_conaddr) (o : Client) : option nat :=
  tree_LookupExact (fun x => conaddr_comparator a (conaddr_at (cons o) x)) (connections_tree_by_conaddr o).
Definition find_connection_by_conid (id : Z) (o : Client) : option nat :=
  tree_LookupExact (fun x => uint16_comparator id (conid_at (cons o) x)) (connections_tree_by_conid o).

(** ** Identifiers *)

Fixpoint unused_loop (fuel : nat) (o : Client) : option (Z * Client) :=
  match fuel with
  | O => None
  | S fuel =>
      match find_connection_by_conid (u16 (next_conid o)) o with
      | None => Some (u16 (next_conid o), o)
      | Some _ => unused_loop fuel (set_next (if next_conid o =? max_connections o - 1 then 0 else next_conid o + 1) o)
      end
  end.

Definition find_unused_conid (o : Client) : option (Z * Client) :=
  assert (num_connections o <? max_connections o);;
  unused_loop (Z.to_nat (max_connections o)) o.

(** ** Sending *)

(** flow/BufferWriter.c *)
Definition BufferWriter_output_handler_recv (buf : list Z) (c : UdpGwClient_connection) : option UdpGwClient_connection :=
  assert (none (out c));; Some (with_out (Some buf) c).
Definition BufferWriter_StartPacket (c : UdpGwClient_connection) : option (list Z) := out c.
Definition BufferWriter_EndPacket (mtu : Z) (buf : list Z) (len : Z) (c : UdpGwClient_connection) : option (UdpGwClient_connection * list Z) :=
  assert ((0 <=? len) && (len <=? mtu) && negb (none (out c)));;
  Some (with_out None c, take (Z.to_nat len) buf).

(** [memcpy] into a buffer; the result: the buffer, and the position after the bytes. *)
Definition put (buf : list Z) (pos : Z) (bs : list Z) : option (list Z * Z) :=
  assert (pos + Z.of_nat (length bs) <=? Z.of_nat (length buf));;
  Some (splice (Z.to_nat pos) bs buf, pos + Z.of_nat (length bs)).

Definition udpgw_header (flags id : Z) : list Z := u8 flags :: htol16 (u16 id).
Definition udpgw_addr (a : BAddr) : list Z :=
  if addr_type a =? BADDR_TYPE_IPV4 then addr_ip a ++ addr_port a
  else if addr_type a =? BADDR_TYPE_IPV6 then addr_ip a ++ addr_port a
  else [].

Definition connection_send (con : nat) (flags : Z) (data : list Z) (o : Client) : option (Client * list output) :=
  c ← cons o !! con;
  assert (Z.of_nat (length data) <=? udp_mtu o);;
  match BufferWriter_StartPacket c with
  | None => Some (o, [])
  | Some buf =>
      let flags := if addr_type (remote_addr (conaddr c)) =? BADDR_TYPE_IPV6 then Z.lor flags UDPGW_CLIENT_FLAG_IPV6 else flags in
      '(buf, out_pos) ← put buf 0 (udpgw_header flags (conid c));
      '(buf, out_pos) ← put buf out_pos (udpgw_addr (remote_addr (conaddr c)));
      '(buf, out_pos) ← put buf out_pos data;
      '(c, packet) ← BufferWriter_EndPacket (udpgw_mtu o) buf out_pos c;
      Some (set_cons (<[con := c]> (cons o)) o, [Packet con packet])
  end.

Definition connection_first_job_handler (con : nat) (o : Client) : option (Client * list output) :=
  c ← cons o !! con;
  assert (first_job c);;
  let o := set_cons (<[con := with_job false c]> (cons o)) o in
  connection_send con (Z.lor UDPGW_CLIENT_FLAG_REBIND (first_flags c)) (first_data c) o.

(** ** Connections *)

(** [mem]: the address that [malloc] returns; [flow_ok]: whether [PacketProtoFlow_Init] succeeds. *)
Definition connection_init (mem : option nat) (flow_ok : bool) (a : UdpGwClient_conaddr) (flags : Z) (data : list Z) (o : Client) : option Client :=
  assert ((num_connections o <? max_connections o) && none (find_connection_by_conaddr a o) && (Z.of_nat (length data) <=? udp_mtu o));;
  match mem with
  | None => Some o
  | Some con =>
      '(id, o) ← find_unused_conid o;
      q ← PacketPassFairQueueFlow_Init con (send_queue o);
      let o := set_queue q o in
      if negb flow_ok then q ← PacketPassFairQueueFlow_Free con (send_queue o); Some (set_queue q o) else
      let h := <[con := mkCon a (u8 flags) data id true None]> (cons o) in
      ta ← tree_Insert (by_conaddr h) con (connections_tree_by_conaddr o);
      ti ← tree_Insert (by_conid h) con (connections_tree_by_conid o);
      Some (set_connections h ta ti (connections_list o ++ [con]) (num_connections o + 1) o)
  end.

Definition connection_free (con : nat) (o : Client) : option Client :=
  _ ← cons o !! con;
  ti ← tree_Remove con (connections_tree_by_conid o);
  ta ← tree_Remove con (connections_tree_by_conaddr o);
  let o := set_connections (cons o) ta ti (filter (fun y => y <> con) (connections_list o)) (num_connections o - 1) o in
  q ← PacketPassFairQueueFlow_Free con (send_queue o);
  Some (set_cons (delete con (cons o)) (set_queue q o)).

Definition reuse_connection (a : UdpGwClient_conaddr) (o : Client) : option (nat * Client) :=
  assert (none (find_connection_by_conaddr a o) && (0 <? num_connections o));;
  con ← head (connections_list o);
  c ← cons o !! con;
  ta ← tree_Remove con (connections_tree_by_conaddr o);
  let h := <[con := with_conaddr a c]> (cons o) in
  ta ← tree_Insert (by_conaddr h) con ta;
  Some (con, set_connections h ta (connections_tree_by_conid o) (connections_list o) (num_connections o) o).

(** [LinkedList1_Remove], [LinkedList1_Append]. *)
Definition move_to_end (con : nat) (o : Client) : Client := set_list (filter (fun y => y <> con) (connections_list o) ++ [con]) o.

(** ** Entry points *)

(** [Some None]: the MTU is too large for the queue. *)
Definition UdpGwClient_Init (mtu max size : Z) (kflow : nat) : option (option Client) :=
  assert ((0 <=? mtu) && (0 <=? udpgw_compute_mtu mtu) && (udpgw_compute_mtu mtu <=? PACKETPROTO_MAXPAYLOAD) && (0 <? max) && (0 <? size));;
  let max := if 65535 + 1 <? max then 65535 + 1 else max in
  let pp := udpgw_compute_mtu mtu + sizeof_packetproto_header in
  r ← PacketPassFairQueue_Init pp false false 1;
  match r with
  | None => Some None
  | Some q =>
      q ← PacketPassFairQueueFlow_Init kflow q;
      Some (Some (mkClient mtu max size (udpgw_compute_mtu mtu) pp ∅ tree_Init tree_Init [] 0 0 q kflow false false))
  end.

Definition UdpGwClient_SubmitPacket (mem : option nat) (flow_ok : bool) (local remote : BAddr) (is_dns : bool) (data : list Z) (o : Client) : option (Client * list output) :=
  let ip a := (addr_type a =? BADDR_TYPE_IPV4) || (addr_type a =? BADDR_TYPE_IPV6) in
  assert (ip local && ip remote && (Z.of_nat (length data) <=? udp_mtu o));;
  let a := mkConaddr local remote in
  let con := find_connection_by_conaddr a o in
  let flags := if is_dns then UDPGW_CLIENT_FLAG_DNS else 0 in
  '(con, flags, o) ← (if none con && (num_connections o =? max_connections o) then
      '(c, o) ← reuse_connection a o; Some (Some c, Z.lor flags UDPGW_CLIENT_FLAG_REBIND, o)
    else Some (con, flags, o));
  match con with
  | None => o ← connection_init mem flow_ok a flags data o; Some (o, [])
  | Some con => connection_send con flags data (move_to_end con o)
  end.

(** A packet from the gateway. *)
Definition recv_interface_handler_send (data : list Z) (o : Client) : option (Client * list output) :=
  assert (have_server o && (Z.of_nat (length data) <=? udpgw_mtu o));;
  if Z.of_nat (length data) <? sizeof_udpgw_header then Some (o, []) else
  let flags := nthb data 0 in
  let id := ltoh16 (slice 1 2 data) in
  let data := drop 3 data in
  let parsed :=
    if negb (Z.land flags UDPGW_CLIENT_FLAG_IPV6 =? 0) then
      if Z.of_nat (length data) <? sizeof_udpgw_addr_ipv6 then None
      else Some (BAddr_InitIPv6 (slice 0 16 data) (slice 16 2 data), drop 18 data)
    else
      if Z.of_nat (length data) <? sizeof_udpgw_addr_ipv4 then None
      else Some (BAddr_InitIPv4 (slice 0 4 data) (slice 4 2 data), drop 6 data) in
  match parsed with
  | None => Some (o, [])
  | Some (remote, data) =>
      if udp_mtu o <? Z.of_nat (length data) then Some (o, []) else
      match find_connection_by_conid id o with
      | None => Some (o, [])
      | Some con =>
          c ← cons o !! con;
          if negb (BAddr_CompareOrder (remote_addr (conaddr c)) remote =? 0) then Some (o, []) else
          Some (move_to_end con o, [Received (local_addr (conaddr c)) (remote_addr (conaddr c)) data])
      end
  end.

(** With PSIPHON. *)
Definition send_monitor_handler (o : Client) : Client := o.
Definition keepalive_if_handler_done (o : Client) : option Client := assert (keepalive_sending o);; Some (set_keepalive false o).

(** [ok]: whether [PacketProtoDecoder_Init] succeeds. *)
Definition UdpGwClient_ConnectServer (ok : bool) (o : Client) : option (bool * Client) :=
  assert (negb (have_server o));; Some (if ok then (true, set_server true o) else (false, o)).
Definition UdpGwClient_DisconnectServer (o : Client) : option Client :=
  assert (have_server o);; Some (set_server false o).

Fixpoint free_connections (fuel : nat) (o : Client) : option Client :=
  match connections_list o with
  | [] => Some o
  | con :: _ => match fuel with O => None | S fuel => o ← connection_free con o; free_connections fuel o end
  end.

(** What is left of the client, without the parts of the connection to the gateway that
    [free_server] frees; [None] also where the queue may not be freed. *)
Definition UdpGwClient_Free (o : Client) : option Client :=
  let o := set_queue (PacketPassFairQueue_PrepareFree (send_queue o)) o in
  o ← free_connections (length (connections_list o)) o;
  q ← PacketPassFairQueueFlow_Free (keepalive_qflow o) (send_queue o);
  _ ← PacketPassFairQueue_Free q;
  Some (set_queue q o).

(** ** Runs *)

(** What happens around the client: the user submits a datagram, the gateway sends a packet, the
    job of a new connection runs, the buffer of a connection is ready for a packet, the
    queue is used by the buffers and the stream, the gateway connects and disconnects. *)
Inductive gw_event :=
  | GSubmit (mem : option nat) (flow_ok : bool) (local remote : BAddr) (is_dns : bool) (data : list Z)
  | GRecv (data : list Z) | GFirstJob (con : nat) | GWriter (con : nat) (buf : list Z)
  | GQueue (ev : event) | GConnect (ok : bool) | GDisconnect.

(** The contracts.  The job of a new connection runs before the next datagram is read; memory is
    fresh; the buffers of the connections use the queue as [FairQueue.possible] says. *)
Definition gw_possible (ev : gw_event) (o : Client) : bool :=
  match ev with
  | GSubmit mem _ local remote _ data =>
      bool_decide (addr_ok local) && bool_decide (addr_ok remote) && (Z.of_nat (length data) <=? udp_mtu o)
      && match mem with Some x => none (cons o !! x) && negb (Nat.eqb x (keepalive_qflow o)) | None => true end
      && bool_decide (map_Forall (fun _ c => first_job c = false) (cons o))
  | GRecv data => have_server o && bool_decide (bytes_ok data) && (Z.of_nat (length data) <=? udpgw_mtu o)
  | GFirstJob x => match cons o !! x with Some c => first_job c | None => false end
  | GWriter x buf => match cons o !! x with Some c => none (out c) && (Z.of_nat (length buf) =? udpgw_mtu o) | None => false end
  | GQueue ev =>
      possible ev (send_queue o)
      && match ev with EvSend x _ => negb (none (cons o !! x)) | EvOutputDone | EvJob => true | _ => false end
  | GConnect _ => negb (have_server o)
  | GDisconnect => have_server o
  end.

Definition gw_step (ev : gw_event) (o : Client) : option (Client * list output) :=
  match ev with
  | GSubmit mem flow_ok local remote is_dns data => UdpGwClient_SubmitPacket mem flow_ok local remote is_dns data o
  | GRecv data => recv_interface_handler_send data o
  | GFirstJob x => connection_first_job_handler x o
  | GWriter x buf => c ← cons o !! x; c ← BufferWriter_output_handler_recv buf c; Some (set_cons (<[x := c]> (cons o)) o, [])
  | GQueue ev => '(q, _) ← step ev (send_queue o); Some (set_queue q o, [])
  | GConnect ok => '(_, o) ← UdpGwClient_ConnectServer ok o; Some (o, [])
  | GDisconnect => o ← UdpGwClient_DisconnectServer o; Some (o, [])
  end.

Fixpoint gw_run (evs : list gw_event) (o : Client) : option (Client * list output) :=
  match evs with
  | [] => Some (o, [])
  | ev :: evs => '(o, o1) ← gw_step ev o; '(o, o2) ← gw_run evs o; Some (o, o1 ++ o2)
  end.

Fixpoint gw_possible_run (evs : list gw_event) (o : Client) : bool :=
  match evs with
  | [] => true
  | ev :: evs => gw_possible ev o && match gw_step ev o with Some (o, _) => gw_possible_run evs o | None => true end
  end.

End Client.
