(* ===== verification/UdpGwSpec.v ===== *)
(** * The client of the UDP gateway: theorems

    The client is a table of connections by recency, with a pending first packet
    ([spec_step]); its packets and those of the gateway follow the wire format ([wire]). *)

From S2P Require Import Prelude Baddr PacketProto Avl Bavl BavlRefine FairQueue FairQueueSpec UdpGw.

(** ** Trees by a key in the elements *)

Record key_order {K} (cmp : K -> K -> Z) (ok : K -> Prop) : Prop := mkKeyOrder {
  k_eq a b : ok a -> ok b -> cmp a b = 0 <-> a = b;
  k_anti a b : ok a -> ok b -> cmp a b < 0 <-> 0 < cmp b a;
  k_trans a b c : ok a -> ok b -> ok c -> cmp a b < 0 -> cmp b c < 0 -> cmp a c < 0;
  k_range a b : in_range (cmp a b)
}.

Definition conaddr_ok (a : UdpGwClient_conaddr) : Prop := addr_ok (local_addr a) /\ addr_ok (remote_addr a).

Lemma conid_order : key_order uint16_comparator (fun _ => True).
Proof. unfold uint16_comparator. split; intros *; [..|apply B_COMPARE_range]; rewrite ?B_COMPARE_0, ?B_COMPARE_lt, ?B_COMPARE_gt; lia. Qed.

Lemma conaddr_cmp_0 a b : conaddr_ok a -> conaddr_ok b -> conaddr_comparator a b = 0 <-> a = b.
Proof.
  intros [La Ra] [Lb Rb]. unfold conaddr_comparator. destruct (Z.eqb_spec (BAddr_CompareOrder (remote_addr a) (remote_addr b)) 0) as [E|E]; cbn [negb].
  - apply BAddr_CompareOrder_0 in E; [|done|done]. rewrite BAddr_CompareOrder_0 by done. destruct a, b; cbn in *. split; congruence.
  - split; [done|]. intros ->. exfalso. apply E. by apply BAddr_CompareOrder_0.
Qed.

Lemma conaddr_cmp_lt a b : conaddr_ok a -> conaddr_ok b ->
  conaddr_comparator a b < 0 <-> BAddr_CompareOrder (remote_addr a) (remote_addr b) < 0 \/ (remote_addr a = remote_addr b /\ BAddr_CompareOrder (local_addr a) (local_addr b) < 0).
Proof.
  intros [La Ra] [Lb Rb]. unfold conaddr_comparator. pose proof (BAddr_CompareOrder_0 (remote_addr a) (remote_addr b) Ra Rb) as H0.
  destruct (Z.eqb_spec (BAddr_CompareOrder (remote_addr a) (remote_addr b)) 0) as [E|E]; cbn [negb]; [rewrite E; apply H0 in E|]; split; intros; try lia; try tauto.
Qed.

Lemma conaddr_cmp_gt a b : conaddr_ok a -> conaddr_ok b ->
  0 < conaddr_comparator a b <-> 0 < BAddr_CompareOrder (remote_addr a) (remote_addr b) \/ (remote_addr a = remote_addr b /\ 0 < BAddr_CompareOrder (local_addr a) (local_addr b)).
Proof.
  intros [La Ra] [Lb Rb]. unfold conaddr_comparator. pose proof (BAddr_CompareOrder_0 (remote_addr a) (remote_addr b) Ra Rb) as H0.
  destruct (Z.eqb_spec (BAddr_CompareOrder (remote_addr a) (remote_addr b)) 0) as [E|E]; cbn [negb]; [rewrite E; apply H0 in E|]; split; intros; try lia; try tauto.
Qed.

Lemma BAddr_CompareOrder_range a1 a2 : in_range (BAddr_CompareOrder a1 a2).
Proof. unfold BAddr_CompareOrder. repeat case_match; first [apply B_COMPARE_range|right; by left]. Qed.
Lemma conaddr_in_range a b : in_range (conaddr_comparator a b).
Proof. unfold conaddr_comparator. case_match; apply BAddr_CompareOrder_range. Qed.

Lemma conaddr_order : key_order conaddr_comparator conaddr_ok.
Proof.
  split; intros *.
  - apply conaddr_cmp_0.
  - intros Ha Hb. rewrite conaddr_cmp_lt, conaddr_cmp_gt by done. destruct Ha as [La Ra], Hb as [Lb Rb].
    rewrite (BAddr_CompareOrder_anti (remote_addr a) (remote_addr b)), (BAddr_CompareOrder_anti (local_addr a) (local_addr b)) by done. intuition congruence.
  - intros Ha Hb Hc. rewrite !conaddr_cmp_lt by done. destruct Ha as [La Ra], Hb as [Lb Rb], Hc as [Lc Rc]. intros [H1|[H1 H1']] [H2|[H2 H2']].
    + left. by apply (BAddr_CompareOrder_trans _ (remote_addr b)).
    + left. by rewrite <- H2.
    + left. by rewrite H1.
    + right. split; [congruence|]. by apply (BAddr_CompareOrder_trans _ (local_addr b)).
  - apply conaddr_in_range.
Qed.

Section Keys.
Context {T : Type} `{HT : Avl T} `{HL : !AvlLaws T}.
Context {K : Type} (cmp : K -> K -> Z) (ok : K -> Prop) (Ho : key_order cmp ok).

Definition keyed (key : nat -> K) : nat -> nat -> Z := fun x y => cmp (key x) (key y).

(** In an ordered tree the keys are distinct. *)
Lemma keyed_inj key l x y : ordered (keyed key) l -> (forall x, x ∈ l -> ok (key x)) -> x ∈ l -> y ∈ l -> key x = key y -> x = y.
Proof.
  intros Hord Hok Hx Hy E. pose proof Hx as [i Hi]%list_elem_of_lookup. pose proof Hy as [j Hj]%list_elem_of_lookup. assert (E0 : cmp (key x) (key y) = 0) by (apply (k_eq _ _ Ho); auto).
  assert (E0' : cmp (key y) (key x) = 0) by (apply (k_eq _ _ Ho); auto). destruct (Nat.lt_trichotomy i j) as [Hlt|[->|Hlt]].
  - pose proof (Hord i j x y Hi Hj Hlt). unfold keyed in *. lia.
  - congruence.
  - pose proof (Hord j i y x Hj Hi Hlt). unfold keyed in *. lia.
Qed.

Lemma keyed_order key l : ordered (keyed key) l -> (forall x, x ∈ l -> ok (key x)) -> order_on (keyed key) (fun x => x ∈ l).
Proof.
  intros Hord Hok. unfold keyed. split.
  - intros x y Hx Hy. rewrite (k_eq _ _ Ho) by auto. split; [by apply (keyed_inj key l)|congruence].
  - intros x y Hx Hy. apply (k_anti _ _ Ho); auto.
  - intros x y z Hx Hy Hz. apply (k_trans _ _ Ho); auto.
Qed.

Lemma keyed_nodup key l : ordered (keyed key) l -> (forall x, x ∈ l -> ok (key x)) -> NoDup l.
Proof. intros Hord Hok. eapply ordered_nodup; [|exact Hord]. by apply keyed_order. Qed.

(** Looking up a key. *)
Lemma keyed_lookup key t k : tree_ok t -> ordered (keyed key) (tree_elements t) -> (forall x, x ∈ tree_elements t -> ok (key x)) -> ok k ->
  match tree_LookupExact (fun x => cmp k (key x)) t with Some x => x ∈ tree_elements t /\ key x = k | None => forall x, x ∈ tree_elements t -> key x <> k end.
Proof.
  intros Htree Hord Hok Hk. pose proof (elements_LookupExact (fun x => cmp k (key x)) t Htree (fun x => k_range _ _ Ho k (key x))) as Hl.
  assert (Hs : seeks (fun x => cmp k (key x)) (tree_elements t)).
  { intros i j x y Hi Hj Hij Hle. pose proof (Hord i j x y Hi Hj Hij) as Hxy. unfold keyed in Hxy. assert (Hx : ok (key x)) by (eapply Hok, list_elem_of_lookup_2; done). assert (Hy : ok (key y)) by (eapply Hok, list_elem_of_lookup_2; done).
    destruct (decide (cmp k (key x) = 0)) as [E|E].
    - apply (k_eq _ _ Ho) in E as ->; auto.
    - apply (k_trans _ _ Ho _ (key x)); auto. lia. }
  specialize (Hl Hs). destruct (tree_LookupExact _ t) as [x|].
  - destruct Hl as [Hx E]. split; [done|]. symmetry. apply (k_eq _ _ Ho); auto.
  - intros x Hx E. apply (Hl x Hx). apply (k_eq _ _ Ho); auto.
Qed.

(** Inserting an element with a new key; [key'] may differ from [key] elsewhere. *)
Lemma keyed_insert key key' t x : tree_ok t -> ordered (keyed key) (tree_elements t) -> (forall y, y ∈ tree_elements t -> ok (key y) /\ key' y = key y /\ key y <> key' x) -> ok (key' x) -> x ∉ tree_elements t ->
  exists t', tree_Insert (keyed key') x t = Some t' /\ tree_ok t' /\ Permutation (tree_elements t') (x :: tree_elements t) /\ ordered (keyed key') (tree_elements t').
Proof.
  intros Htree Hord Hok Hkx Hx. assert (Hord' : ordered (keyed key') (tree_elements t)).
  { eapply ordered_ext; [exact Hord|]. intros a b Ha Hb. unfold keyed. destruct (Hok a Ha) as (_ & -> & _), (Hok b Hb) as (_ & -> & _). done. }
  apply elements_Insert; [done|intros; apply (k_range _ _ Ho)| |done|done].
  assert (Hall : forall y, y = x \/ y ∈ tree_elements t -> ok (key' y)) by (intros y [->|Hy]; [done|]; destruct (Hok y Hy) as (? & -> & _); done).
  unfold keyed. split.
  - intros a b Ha Hb. rewrite (k_eq _ _ Ho) by auto. split; [|congruence]. intros E. destruct Ha as [->|Ha], Hb as [->|Hb]; [done| | |].
    + destruct (Hok b Hb) as (_ & E2 & Hne). congruence.
    + destruct (Hok a Ha) as (_ & E2 & Hne). congruence.
    + destruct (Hok a Ha) as (? & E1 & _), (Hok b Hb) as (? & E2 & _). apply (keyed_inj key (tree_elements t)); try done; [intros y Hy; apply (Hok y Hy)|congruence].
  - intros a b Ha Hb. apply (k_anti _ _ Ho); auto.
  - intros a b c Ha Hb Hc. apply (k_trans _ _ Ho); auto.
Qed.

Lemma keyed_ext key key' l : ordered (keyed key) l -> (forall x, x ∈ l -> key' x = key x) -> ordered (keyed key') l.
Proof. intros Hord He. eapply ordered_ext; [exact Hord|]. intros a b Ha Hb. unfold keyed. by rewrite !He. Qed.

End Keys.

(** ** The wire format *)

Definition packet_of (flags id : Z) (remote : BAddr) (data : list Z) : list Z :=
  udpgw_header (if addr_type remote =? BADDR_TYPE_IPV6 then Z.lor flags UDPGW_CLIENT_FLAG_IPV6 else flags) id ++ udpgw_addr remote ++ data.

(** The bytes of a packet that carries [data] from or to [remote] on connection [id]. *)
Definition wire (bs : list Z) (id : Z) (remote : BAddr) (data : list Z) : Prop :=
  exists flags, is_u8 flags /\ is_u16 id /\ addr_ok remote /\ Z.testbit flags 3 = (addr_type remote =? BADDR_TYPE_IPV6) /\ bs = udpgw_header flags id ++ udpgw_addr remote ++ data.

Lemma land_8_testbit f : is_u8 f -> (Z.land f 8 =? 0) = negb (Z.testbit f 3).
Proof.
  intros Hf. assert (E : Z.land f 8 = if Z.testbit f 3 then 8 else 0).
  { apply Z.bits_inj'. intros n Hn. rewrite Z.land_spec. change 8 with (2 ^ 3). rewrite Z.pow2_bits_eqb by lia. destruct (Z.eqb_spec 3 n) as [<-|Hne]; rewrite ?andb_true_r, ?andb_false_r.
    - destruct (Z.testbit f 3); [by rewrite Z.pow2_bits_eqb by lia|by rewrite Z.bits_0].
    - destruct (Z.testbit f 3); [rewrite Z.pow2_bits_eqb by lia; symmetry; apply Z.eqb_neq; lia|by rewrite Z.bits_0]. }
  rewrite E. by destruct (Z.testbit f 3).
Qed.

Lemma udpgw_addr_app a : addr_ok a -> udpgw_addr a = addr_ip a ++ addr_port a.
Proof. intros (_ & _ & _ & [[E _]|[E _]]); unfold udpgw_addr; rewrite E; done. Qed.

(** What the client reads from bytes of the gateway. *)
Definition parse (bs : list Z) : option (Z * BAddr * list Z) :=
  if Z.of_nat (length bs) <? sizeof_udpgw_header then None else
  let data := drop 3 bs in
  if negb (Z.land (nthb bs 0) UDPGW_CLIENT_FLAG_IPV6 =? 0) then
    if Z.of_nat (length data) <? sizeof_udpgw_addr_ipv6 then None
    else Some (ltoh16 (slice 1 2 bs), BAddr_InitIPv6 (slice 0 16 data) (slice 16 2 data), drop 18 data)
  else
    if Z.of_nat (length data) <? sizeof_udpgw_addr_ipv4 then None
    else Some (ltoh16 (slice 1 2 bs), BAddr_InitIPv4 (slice 0 4 data) (slice 4 2 data), drop 6 data).

Lemma ltoh16_mem16 a b : is_u8 a -> is_u8 b -> is_u16 (ltoh16 [a; b]) /\ htol16 (u16 (ltoh16 [a; b])) = [a; b].
Proof. unfold is_u8, is_u16, ltoh16, htol16, load16, nthb, mem16, u16. cbn. intros. split; [lia|]. f_equal; [zdiv|]. f_equal. zdiv. Qed.

Lemma parse_wire bs : bytes_ok bs -> match parse bs with Some (id, remote, data) => wire bs id remote data | None => forall id remote data, ~ wire bs id remote data end.
Proof.
  intros Hbs. unfold parse, sizeof_udpgw_header, sizeof_udpgw_addr_ipv4, sizeof_udpgw_addr_ipv6.
  assert (Hhl : forall f id, length (udpgw_header f id) = 3%nat) by done.
  assert (Hal : forall a, addr_ok a -> length (udpgw_addr a) = if addr_type a =? BADDR_TYPE_IPV6 then 18%nat else 6%nat).
  { intros a Ha. rewrite udpgw_addr_app by done. destruct Ha as (_ & _ & Hp & [[E Hi]|[E Hi]]); rewrite length_app, Hp, Hi, E; done. }
  destruct (Z.ltb_spec (Z.of_nat (length bs)) 3) as [Hs|Hs].
  { intros id remote data (f & _ & _ & _ & _ & ->). rewrite length_app, Hhl in Hs. lia. }
  destruct bs as [|f [|a [|b bs]]]; cbn [length] in Hs; try lia. unfold bytes_ok in Hbs. rewrite !Forall_cons in Hbs. destruct Hbs as (Hf & Ha & Hb & Hbs). cbn [drop]. change (nthb (f :: a :: b :: bs) 0) with f. change (slice 1 2 (f :: a :: b :: bs)) with [a; b].
  unfold UDPGW_CLIENT_FLAG_IPV6. rewrite land_8_testbit, negb_involutive by done. destruct (ltoh16_mem16 a b Ha Hb) as [Hid Hhd].
  assert (Hhdr : udpgw_header f (ltoh16 [a; b]) = [f; a; b]) by (unfold udpgw_header; rewrite Hhd; unfold u8; rewrite Z.mod_small by (unfold is_u8 in Hf; lia); done).
  assert (Hcut : forall n, (n + 2 <= length bs)%nat -> bytes_ok (slice 0 n bs) /\ bytes_ok (slice n 2 bs) /\ length (slice 0 n bs) = n /\ length (slice n 2 bs) = 2%nat /\ (slice 0 n bs ++ slice n 2 bs) ++ drop (n + 2) bs = bs).
  { intros n Hn. unfold slice, bytes_ok. rewrite drop_0. split; [by apply Forall_take|]. split; [by apply Forall_take, Forall_drop|]. rewrite !length_take, length_drop. split; [lia|]. split; [lia|].
    rewrite <- drop_drop, <- app_assoc, take_drop, take_drop. done. }
  assert (Hshort : forall id remote data, wire (f :: a :: b :: bs) id remote data -> Z.testbit f 3 = (addr_type remote =? BADDR_TYPE_IPV6) /\ (if addr_type remote =? BADDR_TYPE_IPV6 then 18 else 6) <= Z.of_nat (length bs)).
  { intros id remote data (f' & Hf' & _ & Hr & Hbit & E). injection E as E1 _ _ E. unfold u8 in E1. rewrite Z.mod_small in E1 by (unfold is_u8 in Hf'; lia). subst f'. split; [done|]. rewrite E, length_app, Hal by done. destruct (_ =? _); lia. }
  rewrite drop_0.
  destruct (Z.testbit f 3) eqn:Hbit; [destruct (Z.ltb_spec (Z.of_nat (length bs)) 18)|destruct (Z.ltb_spec (Z.of_nat (length bs)) 6)].
  - intros id remote data [E Hl]%Hshort. rewrite <- E in Hl. lia.
  - destruct (Hcut 16%nat ltac:(lia)) as (H1 & H2 & H3 & H4 & H5). exists f. split; [done|]. split; [done|]. split; [split; [done|]; split; [done|]; split; [done|]; right; done|]. split; [done|].
    rewrite Hhdr, udpgw_addr_app by (split; [done|]; split; [done|]; split; [done|]; right; done). cbn in H5. cbn [BAddr_InitIPv6 addr_ip addr_port]. by rewrite H5.
  - intros id remote data [E Hl]%Hshort. rewrite <- E in Hl. lia.
  - destruct (Hcut 4%nat ltac:(lia)) as (H1 & H2 & H3 & H4 & H5). exists f. split; [done|]. split; [done|]. split; [split; [done|]; split; [done|]; split; [done|]; left; done|]. split; [done|].
    rewrite Hhdr, udpgw_addr_app by (split; [done|]; split; [done|]; split; [done|]; left; done). cbn in H5. cbn [BAddr_InitIPv4 addr_ip addr_port]. by rewrite H5.
Qed.

Lemma parse_of_wire bs id remote data : wire bs id remote data -> parse bs = Some (id, remote, data).
Proof.
  intros (f & Hf & Hid & Hr & Hbit & ->). unfold parse, sizeof_udpgw_header, sizeof_udpgw_addr_ipv4, sizeof_udpgw_addr_ipv6, UDPGW_CLIENT_FLAG_IPV6. rewrite udpgw_addr_app by done. set (rest := (addr_ip remote ++ addr_port remote) ++ data).
  assert (Hl : Z.of_nat (length (udpgw_header f id ++ rest)) <? 3 = false) by (apply Z.ltb_ge; rewrite length_app; cbn; lia). rewrite Hl.
  change (nthb (udpgw_header f id ++ rest) 0) with (u8 f). change (drop 3 (udpgw_header f id ++ rest)) with rest. change (slice 1 2 (udpgw_header f id ++ rest)) with (htol16 (u16 id)).
  assert (Ef : u8 f = f) by (unfold u8; rewrite Z.mod_small; unfold is_u8 in *; lia). rewrite Ef, land_8_testbit, negb_involutive, Hbit by done.
  assert (Eid : ltoh16 (htol16 (u16 id)) = id) by (unfold ltoh16, htol16, u16; rewrite Z.mod_small by (unfold is_u16 in *; lia); apply mem16_load; unfold is_u16 in *; lia). rewrite Eid.
  assert (Hcut : forall n, length (addr_ip remote) = n -> slice 0 n rest = addr_ip remote /\ slice n 2 rest = addr_port remote /\ drop (n + 2) rest = data /\ length rest = (n + 2 + length data)%nat).
  { intros n Hn. destruct Hr as (_ & _ & Hp & _). unfold slice, rest. rewrite drop_0, <- app_assoc. split; [by rewrite take_app_length'|]. rewrite drop_app_length' by done. split; [by rewrite take_app_length'|].
    rewrite <- drop_drop, drop_app_length', drop_app_length' by done. split; [done|]. rewrite !length_app. lia. }
  destruct Hr as (_ & _ & _ & [[Et Hn]|[Et Hn]]); rewrite Et; destruct (Hcut _ Hn) as (H1 & H2 & H3 & H4); cbn in H3.
  - change (BADDR_TYPE_IPV4 =? BADDR_TYPE_IPV6) with false. cbn match. destruct (Z.ltb_spec (Z.of_nat (length rest)) 6); [lia|]. rewrite H1, H2, H3. destruct remote; cbn in *. by subst.
  - change (BADDR_TYPE_IPV6 =? BADDR_TYPE_IPV6) with true. cbn match. destruct (Z.ltb_spec (Z.of_nat (length rest)) 18); [lia|]. rewrite H1, H2, H3. destruct remote; cbn in *. by subst.
Qed.

Lemma packet_of_wire flags id remote data : 0 <= flags < 8 -> is_u16 id -> addr_ok remote -> wire (packet_of flags id remote data) id remote data.
Proof.
  intros Hf Hid Hr. unfold packet_of. eexists. assert (flags = 0 \/ flags = 1 \/ flags = 2 \/ flags = 3 \/ flags = 4 \/ flags = 5 \/ flags = 6 \/ flags = 7) as Hc by lia.
  split; [|split; [done|]; split; [done|]; split; [|done]]; destruct (_ =? _); decompose [or] Hc; subst; vm_compute; done.
Qed.

(** ** The invariant *)

Section Inv.
Context {T : Type} `{HT : Avl T} `{HL : !AvlLaws T}.
#[local] Notation Client := (UdpGwClient T).

Definition con_ok (o : Client) (c : UdpGwClient_connection) : Prop :=
  conaddr_ok (conaddr c) /\ 0 <= conid c < max_connections o /\ (first_job c = true -> 0 <= first_flags c < 8 /\ Z.of_nat (length (first_data c)) <= udp_mtu o)
  /\ (forall buf, out c = Some buf -> Z.of_nat (length buf) = udpgw_mtu o).

(** A tree over the connections, ordered by a key. *)
Definition indexes {K} (cmp : K -> K -> Z) (key : gmap nat UdpGwClient_connection -> nat -> K) (t : T) (o : Client) : Prop :=
  Permutation (tree_elements t) (connections_list o) /\ ordered (keyed cmp (key (cons o))) (tree_elements t) /\ tree_ok t.

Record gw_inv (o : Client) : Prop := mkGwInv {
  g_conf : 0 <= udp_mtu o /\ udpgw_mtu o = udp_mtu o + 21 /\ udpgw_mtu o <= PACKETPROTO_MAXPAYLOAD /\ 0 < max_connections o <= 65536;
  g_con x c : cons o !! x = Some c -> con_ok o c;
  g_list : NoDup (connections_list o) /\ (forall x, x ∈ connections_list o <-> is_Some (cons o !! x));
  g_ta : indexes conaddr_comparator conaddr_at (connections_tree_by_conaddr o) o;
  g_ti : indexes uint16_comparator conid_at (connections_tree_by_conid o) o;
  g_num : num_connections o = Z.of_nat (length (connections_list o)) /\ num_connections o <= max_connections o;
  g_next : 0 <= next_conid o < max_connections o;
  g_queue : inv (send_queue o) /\ works (send_queue o) /\ freeing (send_queue o) = false;
  g_flows x : is_Some (flows (send_queue o) !! x) <-> x = keepalive_qflow o \/ is_Some (cons o !! x);
  g_keepalive : cons o !! keepalive_qflow o = None
}.

Lemma conaddr_at_ok o x : gw_inv o -> x ∈ connections_list o -> conaddr_ok (conaddr_at (cons o) x).
Proof. intros Hi Hx. apply (g_list o Hi) in Hx as [c Hc]. unfold conaddr_at. rewrite Hc. apply (g_con o Hi x c Hc). Qed.

Lemma conid_at_ok o x : gw_inv o -> x ∈ connections_list o -> 0 <= conid_at (cons o) x < max_connections o.
Proof. intros Hi Hx. apply (g_list o Hi) in Hx as [c Hc]. unfold conid_at. rewrite Hc. apply (g_con o Hi x c Hc). Qed.

Lemma find_conaddr_ok o a : gw_inv o -> conaddr_ok a ->
  match find_connection_by_conaddr a o with Some x => x ∈ connections_list o /\ conaddr_at (cons o) x = a | None => forall x, x ∈ connections_list o -> conaddr_at (cons o) x <> a end.
Proof.
  intros Hi Ha. destruct (g_ta o Hi) as (Hp & Hord & Hok). unfold find_connection_by_conaddr. pose proof (keyed_lookup conaddr_comparator conaddr_ok conaddr_order (conaddr_at (cons o)) _ a Hok Hord) as Hl.
  specialize (Hl ltac:(intros x Hx; rewrite Hp in Hx; by apply conaddr_at_ok) Ha). destruct (tree_LookupExact _ _); [by rewrite Hp in Hl|]. intros x Hx. apply Hl. by rewrite Hp.
Qed.

Lemma find_conid_ok o id : gw_inv o ->
  match find_connection_by_conid id o with Some x => x ∈ connections_list o /\ conid_at (cons o) x = id | None => forall x, x ∈ connections_list o -> conid_at (cons o) x <> id end.
Proof.
  intros Hi. destruct (g_ti o Hi) as (Hp & Hord & Hok). unfold find_connection_by_conid. pose proof (keyed_lookup uint16_comparator (fun _ => True) conid_order (conid_at (cons o)) _ id Hok Hord ltac:(done) I) as Hl.
  destruct (tree_LookupExact _ _); [by rewrite Hp in Hl|]. intros x Hx. apply Hl. by rewrite Hp.
Qed.

Lemma conid_inj o x y : gw_inv o -> x ∈ connections_list o -> y ∈ connections_list o -> conid_at (cons o) x = conid_at (cons o) y -> x = y.
Proof. intros Hi Hx Hy. destruct (g_ti o Hi) as (Hp & Hord & Hok). apply (keyed_inj uint16_comparator (fun _ => True) conid_order _ _ x y Hord); [done|by rewrite Hp|by rewrite Hp]. Qed.

Lemma conaddr_inj o x y : gw_inv o -> x ∈ connections_list o -> y ∈ connections_list o -> conaddr_at (cons o) x = conaddr_at (cons o) y -> x = y.
Proof.
  intros Hi Hx Hy. destruct (g_ta o Hi) as (Hp & Hord & Hok). apply (keyed_inj conaddr_comparator conaddr_ok conaddr_order _ _ x y Hord); [|by rewrite Hp|by rewrite Hp].
  intros z Hz. rewrite Hp in Hz. by apply conaddr_at_ok.
Qed.

(** ** Identifiers *)

Lemma set_next_inv n o : gw_inv o -> 0 <= n < max_connections o -> gw_inv (set_next n o).
Proof. intros [] Hn. split; try done. Qed.

(** The search for an identifier ends: there are more identifiers than connections. *)
Lemma unused_loop_ok fuel : forall o, gw_inv o -> (exists k, 0 <= k < Z.of_nat fuel /\ forall x, x ∈ connections_list o -> conid_at (cons o) x <> (next_conid o + k) mod max_connections o) ->
  exists id n, unused_loop fuel o = Some (id, set_next n o) /\ 0 <= n < max_connections o /\ id = n /\ forall x, x ∈ connections_list o -> conid_at (cons o) x <> id.
Proof.
  induction fuel as [|fuel IH]; intros o Hi (k & Hk & Hfree); [lia|]. cbn [unused_loop]. pose proof (g_next o Hi) as Hn. destruct (g_conf o Hi) as (_ & _ & _ & Hmax).
  assert (Eu : u16 (next_conid o) = next_conid o) by (unfold u16; rewrite Z.mod_small; lia). rewrite Eu. pose proof (find_conid_ok o (next_conid o) Hi) as Hfind. destruct (find_connection_by_conid (next_conid o) o) as [x|].
  2: { exists (next_conid o), (next_conid o). split; [by destruct o|]. done. }
  set (n := if next_conid o =? max_connections o - 1 then 0 else next_conid o + 1).
  assert (Hn' : 0 <= n < max_connections o /\ n = (next_conid o + 1) mod max_connections o).
  { unfold n. destruct (Z.eqb_spec (next_conid o) (max_connections o - 1)) as [E|E]; [rewrite E; replace (max_connections o - 1 + 1) with (max_connections o) by lia; rewrite Z.mod_same by lia; lia|rewrite Z.mod_small by lia; lia]. }
  destruct Hn' as [Hn1 Hn2]. destruct (IH (set_next n o)) as (id & n' & E & Hr).
  - by apply set_next_inv.
  - destruct (decide (k = 0)) as [->|Hk0].
    + exfalso. destruct Hfind as [Hx Ex]. apply (Hfree x Hx). rewrite Z.add_0_r, Z.mod_small by lia. done.
    + exists (k - 1). split; [lia|]. cbn [set_next next_conid cons connections_list max_connections]. intros y Hy. rewrite Hn2, Zplus_mod_idemp_l. replace (next_conid o + 1 + (k - 1)) with (next_conid o + k) by lia. by apply Hfree.
  - exists id, n'. split; [exact E|exact Hr].
Qed.

Lemma find_unused_ok o : gw_inv o -> num_connections o < max_connections o ->
  exists id o', find_unused_conid o = Some (id, o') /\ gw_inv o' /\ (exists n, o' = set_next n o) /\ 0 <= id < max_connections o /\ forall x, x ∈ connections_list o -> conid_at (cons o) x <> id.
Proof.
  intros Hi Hlt. unfold find_unused_conid. rewrite (proj2 (Z.ltb_lt _ _) Hlt). cbn [assert mbind option_bind]. pose proof (g_next o Hi) as Hn. destruct (g_num o Hi) as [Hnum _].
  assert (Hex : exists id, 0 <= id < max_connections o /\ forall x, x ∈ connections_list o -> conid_at (cons o) x <> id).
  { set (all := seqZ 0 (max_connections o)). set (used := conid_at (cons o) <$> connections_list o).
    destruct (decide (Forall (fun i => i ∈ used) all)) as [Hall|Hex].
    - exfalso. assert (Hle : (length all <= length used)%nat).
      { apply submseteq_length, NoDup_submseteq; [apply NoDup_seqZ|]. intros i Hi'. by eapply Forall_forall in Hall. }
      unfold all, used in Hle. rewrite length_seqZ, length_fmap in Hle. lia.
    - apply not_Forall_Exists, Exists_exists in Hex as (id & Hid & Hno); [|apply _]. apply elem_of_seqZ in Hid. exists id. split; [lia|]. intros x Hx E. apply Hno. unfold used. apply list_elem_of_fmap. eauto. }
  destruct Hex as (id0 & Hid0 & Hfree0).
  destruct (unused_loop_ok (Z.to_nat (max_connections o)) o Hi) as (id & n & E & Hn' & -> & Hfree).
  { exists ((id0 - next_conid o) mod max_connections o). pose proof (Z.mod_pos_bound (id0 - next_conid o) (max_connections o) ltac:(lia)). split; [lia|]. rewrite Zplus_mod_idemp_r. replace (next_conid o + (id0 - next_conid o)) with id0 by lia. rewrite Z.mod_small by lia. done. }
  exists n, (set_next n o). split; [done|]. split; [by apply set_next_inv|]. split; [by exists n|]. done.
Qed.

(** ** The specification *)

Definition entry (o : Client) (x : nat) : UdpGwClient_conaddr * Z := (conaddr_at (cons o) x, conid_at (cons o) x).
Definition table (o : Client) : list (UdpGwClient_conaddr * Z) := entry o <$> connections_list o.

(** The state of the client that matters: the connections, least recently used first, and the
    first packet of a new connection, until it is sent. *)
Definition refines (o : Client) (t : list (UdpGwClient_conaddr * Z)) (p : option (UdpGwClient_conaddr * Z * list Z)) : Prop :=
  table o = t /\ forall x c, cons o !! x = Some c -> first_job c = true -> p = Some (conaddr c, first_flags c, first_data c).

(** Replacing a connection by one with the same keys. *)
Lemma same_keys (o : Client) x c c' : cons o !! x = Some c -> conaddr c' = conaddr c -> conid c' = conid c ->
  (forall y, conaddr_at (<[x := c']> (cons o)) y = conaddr_at (cons o) y) /\ (forall y, conid_at (<[x := c']> (cons o)) y = conid_at (cons o) y).
Proof.
  intros Hc Ha Hid. split; intros y; unfold conaddr_at, conid_at; (destruct (decide (y = x)) as [->|Hy]; [by rewrite lookup_insert_eq, Hc|by rewrite lookup_insert_ne by done]).
Qed.

Lemma replace_ok o x c c' : gw_inv o -> cons o !! x = Some c -> conaddr c' = conaddr c -> conid c' = conid c -> con_ok o c' ->
  gw_inv (set_cons (<[x := c']> (cons o)) o) /\ table (set_cons (<[x := c']> (cons o)) o) = table o.
Proof.
  intros Hi Hc Ha Hid Hok. destruct (same_keys o x c c' Hc Ha Hid) as [Ka Ki].
  assert (Hdom : forall y, is_Some (<[x := c']> (cons o) !! y) <-> is_Some (cons o !! y)) by (intros y; destruct (decide (y = x)) as [->|Hy]; [rewrite lookup_insert_eq, Hc; split; eauto|by rewrite lookup_insert_ne by done]).
  split.
  - destruct Hi as [H1 H2 H3 (H4 & H4' & K4) (H5 & H5' & K5) H6 H7 H8 H9 H10]. split; try done; cbn [cons set_cons set_connections connections_list send_queue keepalive_qflow].
    + intros y d. destruct (decide (y = x)) as [->|Hy]; [rewrite lookup_insert_eq; by intros [= <-]|rewrite lookup_insert_ne by done; apply H2].
    + split; [apply H3|]. intros y. rewrite Hdom. apply H3.
    + split; [done|]. split; [|done]. by eapply keyed_ext.
    + split; [done|]. split; [|done]. by eapply keyed_ext.
    + intros y. rewrite Hdom. apply H9.
    + rewrite lookup_insert_ne; [done|]. congruence.
  - unfold table. cbn. apply list_fmap_ext. intros i y _. unfold entry. cbn. by rewrite Ka, Ki.
Qed.

(** Writing into the buffer. *)
Lemma put_ok buf pos bs : 0 <= pos -> pos + Z.of_nat (length bs) <= Z.of_nat (length buf) ->
  exists buf', put buf pos bs = Some (buf', pos + Z.of_nat (length bs)) /\ length buf' = length buf /\ take (Z.to_nat (pos + Z.of_nat (length bs))) buf' = take (Z.to_nat pos) buf ++ bs.
Proof.
  intros Hp Hl. unfold put. rewrite (proj2 (Z.leb_le _ _) Hl). cbn [assert mbind option_bind]. eexists. split; [done|]. unfold splice.
  split; [rewrite !length_app, length_take, length_drop; lia|]. rewrite app_assoc, take_app_length'; [done|]. rewrite length_app, length_take. lia.
Qed.

Lemma connection_send_ok o x c flags data : gw_inv o -> cons o !! x = Some c -> Z.of_nat (length data) <= udp_mtu o ->
  exists w outs, connection_send x flags data o = Some (set_cons (<[x := with_out w c]> (cons o)) o, outs) /\ con_ok o (with_out w c)
    /\ (outs = [] \/ outs = [Packet x (packet_of flags (conid c) (remote_addr (conaddr c)) data)]) /\ (forall buf, out c = Some buf -> outs <> []).
Proof.
  intros Hi Hc Hlen. unfold connection_send. rewrite Hc. cbn [mbind option_bind]. rewrite (proj2 (Z.leb_le _ _) Hlen). cbn [assert mbind option_bind]. unfold BufferWriter_StartPacket.
  pose proof (g_con o Hi x c Hc) as (Hca & Hid & Hj & Hout). destruct (g_conf o Hi) as (Hm0 & Hm1 & Hm2 & Hmax). destruct (out c) as [buf|] eqn:Eo.
  2: { exists None, []. split; [|split; [done|]; split; [by left|done]]. do 2 f_equal. destruct c; cbn in *. subst. unfold with_out. cbn. rewrite insert_id by done. by destruct o. }
  specialize (Hout buf eq_refl). set (fl := if _ =? _ then _ else flags). set (hdr := udpgw_header fl (conid c)). set (ad := udpgw_addr (remote_addr (conaddr c))).
  assert (Had : Z.of_nat (length ad) <= 18). { unfold ad. destruct Hca as [_ Hr]. rewrite udpgw_addr_app by done. destruct Hr as (_ & _ & Hp & [[_ Hl]|[_ Hl]]); rewrite length_app, Hp, Hl; lia. }
  assert (Hhd : Z.of_nat (length hdr) = 3) by done.
  destruct (put_ok buf 0 hdr) as (b1 & E1 & L1 & T1); [lia|lia|]. rewrite E1. cbn [mbind option_bind]. rewrite Z.add_0_l in T1 |- *.
  destruct (put_ok b1 (Z.of_nat (length hdr)) ad) as (b2 & E2 & L2 & T2); [lia|lia|]. rewrite E2. cbn [mbind option_bind].
  destruct (put_ok b2 (Z.of_nat (length hdr) + Z.of_nat (length ad)) data) as (b3 & E3 & L3 & T3); [lia|lia|]. rewrite E3. cbn [mbind option_bind].
  unfold BufferWriter_EndPacket. rewrite Eo. rewrite (proj2 (Z.leb_le 0 _)), (proj2 (Z.leb_le _ (udpgw_mtu o))) by lia. cbn [none negb andb assert mbind option_bind].
  exists None, [Packet x (packet_of flags (conid c) (remote_addr (conaddr c)) data)]. split; [|split; [done|]; split; [by right|done]]. do 4 f_equal. rewrite T3, T2, T1. unfold packet_of. by rewrite app_nil_l, <- app_assoc.
Qed.

(** A connection becomes the most recently used. *)
Definition touch (a : UdpGwClient_conaddr) (id : Z) (t : list (UdpGwClient_conaddr * Z)) : list (UdpGwClient_conaddr * Z) := filter (fun e => e.1 <> a) t ++ [(a, id)].

Lemma move_to_end_ok o x : gw_inv o -> x ∈ connections_list o ->
  gw_inv (move_to_end x o) /\ table (move_to_end x o) = touch (conaddr_at (cons o) x) (conid_at (cons o) x) (table o).
Proof.
  intros Hi Hx. assert (Hperm : Permutation (filter (fun y => y <> x) (connections_list o) ++ [x]) (connections_list o)).
  { destruct (g_list o Hi) as [Hnd _]. apply NoDup_Permutation; [|done|].
    - apply NoDup_app. split; [by apply NoDup_filter|]. split; [|apply NoDup_singleton]. intros y [Hy _]%list_elem_of_filter ->%list_elem_of_singleton. done.
    - intros y. rewrite elem_of_app, list_elem_of_filter, list_elem_of_singleton. destruct (decide (y = x)) as [->|]; tauto. }
  split.
  - destruct Hi as [H1 H2 [H3 H3'] (H4 & H4' & K4) (H5 & H5' & K5) [H6 H6'] H7 H8 H9 H10]. split; try done; cbn [connections_list move_to_end set_list set_connections].
    + split; [by rewrite Hperm|]. intros y. rewrite Hperm. apply H3'.
    + split; [|done]. cbn. by rewrite Hperm.
    + split; [|done]. cbn. by rewrite Hperm.
    + split; [|done]. cbn. by rewrite Hperm.
  - unfold table, touch. cbn [connections_list move_to_end set_list set_connections]. rewrite fmap_app. cbn [fmap list_fmap]. f_equal.
    assert (Hsub : forall y, y ∈ connections_list o -> y <> x <-> conaddr_at (cons o) y <> conaddr_at (cons o) x) by (intros y Hy; split; [intros Hne E; apply Hne; by apply (conaddr_inj o)|congruence]).
    change (entry (move_to_end x o)) with (entry o). clear Hperm Hx Hi. revert Hsub. generalize (connections_list o) as l. induction l as [|y l IH]; intros Hsub; [done|]. rewrite fmap_cons, !filter_cons. cbn [fst entry].
    rewrite <- IH by (intros; apply Hsub; set_solver). specialize (Hsub y ltac:(set_solver)). destruct (decide (y <> x)), (decide (conaddr_at (cons o) y <> conaddr_at (cons o) x)); tauto.
Qed.

Lemma touch_head a id t : a ∉ t.*1 -> touch a id ((a, id) :: t) = t ++ [(a, id)].
Proof.
  intros Ha. unfold touch. rewrite filter_cons_False by (intros E; by apply E). f_equal. induction t as [|e t IH]; [done|]. rewrite fmap_cons, not_elem_of_cons in Ha. destruct Ha as [Hne Ha].
  rewrite filter_cons_True by (intros E; by apply Hne). by rewrite IH.
Qed.

(** A new flow, and the queue after it is taken back. *)
Lemma queue_add_ok o x : gw_inv o -> cons o !! x = None -> x <> keepalive_qflow o ->
  exists q, PacketPassFairQueueFlow_Init x (send_queue o) = Some q /\ inv q /\ works q /\ freeing q = false
    /\ (forall y, is_Some (flows q !! y) <-> y = x \/ is_Some (flows (send_queue o) !! y)) /\ sending_flow q <> Some x.
Proof.
  intros Hi Hx Hk. destruct (g_queue o Hi) as (Hq & Hw & Hfr). assert (Hf : flows (send_queue o) !! x = None) by (apply eq_None_not_Some; rewrite (g_flows o Hi); intros [?|[? ?]]; congruence).
  destruct (flow_init_ok (send_queue o) x Hq Hw Hfr Hf) as (q & E & Hq' & Hw' & _). destruct (flow_init_flows _ _ _ E) as (Ef & Efr & Es). exists q. split; [done|]. split; [done|]. split; [done|]. split; [congruence|]. split.
  - intros y. rewrite Ef. destruct (decide (y = x)) as [->|Hy]; [rewrite lookup_insert_eq; split; eauto|rewrite lookup_insert_ne by done; split; [by right|by intros [?|?]]].
  - rewrite Es. intros E1. destruct (i_sending _ Hq x E1) as (f & Hf' & _). congruence.
Qed.

Lemma queue_ok_inv o q : gw_inv o -> inv q -> works q -> freeing q = false -> (forall y, is_Some (flows q !! y) <-> is_Some (flows (send_queue o) !! y)) -> gw_inv (set_queue q o).
Proof. intros [] Hq Hw Hf Hfl. split; try done. intros x. cbn. rewrite Hfl. done. Qed.

Lemma connection_new_ok o x a flags data id q : gw_inv o -> cons o !! x = None -> x <> keepalive_qflow o -> conaddr_ok a -> (forall y, y ∈ connections_list o -> conaddr_at (cons o) y <> a) ->
  num_connections o < max_connections o -> 0 <= id < max_connections o -> (forall y, y ∈ connections_list o -> conid_at (cons o) y <> id) -> 0 <= flags < 8 -> Z.of_nat (length data) <= udp_mtu o ->
  inv q -> works q -> freeing q = false -> (forall y, is_Some (flows q !! y) <-> y = x \/ is_Some (flows (send_queue o) !! y)) ->
  let h := <[x := mkCon a (u8 flags) data id true None]> (cons o) in
  exists ta ti, tree_Insert (by_conaddr h) x (connections_tree_by_conaddr o) = Some ta /\ tree_Insert (by_conid h) x (connections_tree_by_conid o) = Some ti
    /\ let o' := set_connections h ta ti (connections_list o ++ [x]) (num_connections o + 1) (set_queue q o) in gw_inv o' /\ table o' = table o ++ [(a, id)].
Proof.
  intros Hi Hx Hk Ha Hna Hnum Hid Hni Hfl Hlen Hq Hw Hfr Hflows h. set (c := mkCon a (u8 flags) data id true None).
  assert (Hxl : x ∉ connections_list o) by (intros [? ?]%(g_list o Hi); congruence). destruct (g_ta o Hi) as (Pa & Oa & Ka), (g_ti o Hi) as (Pi & Oi & Ki).
  assert (Hkey : forall y, y ∈ connections_list o -> conaddr_at h y = conaddr_at (cons o) y /\ conid_at h y = conid_at (cons o) y) by (intros y Hy; unfold conaddr_at, conid_at, h; by rewrite lookup_insert_ne by (intros ->; done)).
  assert (Hkx : conaddr_at h x = a /\ conid_at h x = id) by (unfold conaddr_at, conid_at, h; by rewrite lookup_insert_eq). destruct Hkx as [Kxa Kxi].
  destruct (keyed_insert conaddr_comparator conaddr_ok conaddr_order (conaddr_at (cons o)) (conaddr_at h) (connections_tree_by_conaddr o) x Ka Oa) as (ta & Eta & Kta & Pta & Ota).
  { intros y Hy. rewrite Pa in Hy. rewrite Kxa. split; [by apply conaddr_at_ok|]. split; [by apply Hkey|by apply Hna]. } { by rewrite Kxa. } { by rewrite Pa. }
  destruct (keyed_insert uint16_comparator (fun _ => True) conid_order (conid_at (cons o)) (conid_at h) (connections_tree_by_conid o) x Ki Oi) as (ti & Eti & Kti & Pti & Oti); [|done|by rewrite Pi|].
  { intros y Hy. rewrite Pi in Hy. rewrite Kxi. split; [done|]. split; [by apply Hkey|by apply Hni]. }
  exists ta, ti. split; [done|]. split; [done|]. split.
  - split; cbn [set_connections set_queue udp_mtu udpgw_mtu max_connections cons connections_list connections_tree_by_conaddr connections_tree_by_conid num_connections next_conid send_queue keepalive_qflow].
    + apply (g_conf o Hi).
    + intros y d. unfold h. destruct (decide (y = x)) as [->|Hy]; [rewrite lookup_insert_eq; intros [= <-]|rewrite lookup_insert_ne by done; apply (g_con o Hi)].
      split; [done|]. split; [done|]. split; [|done]. intros _. cbn. unfold u8. rewrite Z.mod_small by lia. done.
    + destruct (g_list o Hi) as [H1 H2]. split; [apply NoDup_app; split; [done|]; split; [|apply NoDup_singleton]; intros y Hy ->%list_elem_of_singleton; done|].
      intros y. rewrite elem_of_app, list_elem_of_singleton, H2. unfold h. destruct (decide (y = x)) as [->|Hy]; [rewrite lookup_insert_eq; split; eauto|rewrite lookup_insert_ne by done; tauto].
    + split; [|by split; [exact Ota|]]. cbn. rewrite Pta, Pa. apply Permutation_cons_append.
    + split; [|by split; [exact Oti|]]. cbn. rewrite Pti, Pi. apply Permutation_cons_append.
    + destruct (g_num o Hi) as [H1 H2]. rewrite length_app. cbn. lia.
    + apply (g_next o Hi).
    + done.
    + intros y. rewrite Hflows, (g_flows o Hi). unfold h. destruct (decide (y = x)) as [->|Hy]; [rewrite lookup_insert_eq; split; eauto|rewrite lookup_insert_ne by done; tauto].
    + unfold h. rewrite lookup_insert_ne by done. apply (g_keepalive o Hi).
  - unfold table. cbn [connections_list set_connections]. rewrite fmap_app. f_equal.
    + apply list_fmap_ext. intros i y Hy%list_elem_of_lookup_2. unfold entry. cbn. destruct (Hkey y Hy) as [-> ->]. done.
    + cbn. unfold entry. cbn. by rewrite Kxa, Kxi.
Qed.

Definition same_conf (o o' : Client) : Prop := max_connections o' = max_connections o /\ udp_mtu o' = udp_mtu o.

Lemma connection_init_ok o mem flow_ok a flags data : gw_inv o -> conaddr_ok a -> find_connection_by_conaddr a o = None -> num_connections o < max_connections o -> 0 <= flags < 8 -> Z.of_nat (length data) <= udp_mtu o ->
  (forall x, mem = Some x -> cons o !! x = None /\ x <> keepalive_qflow o) ->
  exists o', connection_init mem flow_ok a flags data o = Some o' /\ gw_inv o' /\ (have_server o' = have_server o /\ same_conf o o')
    /\ ((table o' = table o /\ cons o' = cons o /\ (mem = None \/ flow_ok = false))
        \/ exists x id, mem = Some x /\ flow_ok = true /\ table o' = table o ++ [(a, id)] /\ id ∉ (table o).*2 /\ 0 <= id < max_connections o /\ cons o' = <[x := mkCon a flags data id true None]> (cons o)).
Proof.
  intros Hi Ha Hfind Hnum Hfl Hlen Hmem. unfold connection_init. pose proof (find_conaddr_ok o a Hi Ha) as Hna. rewrite Hfind in Hna |- *. rewrite (proj2 (Z.ltb_lt _ _) Hnum), (proj2 (Z.leb_le _ _) Hlen). cbn [none andb assert mbind option_bind].
  destruct mem as [x|]; [|exists o; split; [done|]; split; [done|]; split; [done|]; left; auto]. destruct (Hmem x eq_refl) as [Hx Hk].
  destruct (find_unused_ok o Hi Hnum) as (id & o1 & E1 & Hi1 & (n & ->) & Hid & Hni). rewrite E1. cbn [mbind option_bind]. destruct (queue_add_ok (set_next n o) x Hi1 Hx Hk) as (q & Eq & Hq & Hw & Hfr & Hflows & Hns). rewrite Eq. cbn [mbind option_bind].
  destruct flow_ok; cbn [negb].
  - destruct (connection_new_ok (set_next n o) x a flags data id q) as (ta & ti & Eta & Eti & Hi' & Ht'); try done. cbn [set_queue set_next cons connections_tree_by_conaddr connections_tree_by_conid connections_list num_connections] in *.
    rewrite Eta. cbn [mbind option_bind]. rewrite Eti. cbn [mbind option_bind]. eexists. split; [done|]. split; [exact Hi'|]. split; [done|]. right. exists x, id. split; [done|]. split; [done|]. split; [exact Ht'|]. split; [|split; [done|]].
    + unfold table. rewrite <- list_fmap_compose. intros (y & E & Hy)%list_elem_of_fmap. by apply (Hni y Hy).
    + cbn. unfold u8. rewrite Z.mod_small by lia. done.
  - cbn [send_queue set_queue]. destruct (flow_free_ok q x Hq Hw) as (q2 & E2 & Hq2 & Hw2); [apply Hflows; by left|by right|]. rewrite E2. cbn [mbind option_bind]. destruct (flow_free_flows _ _ _ E2) as [Ef Efr].
    eexists. split; [done|]. split; [|split; [done|]; left; split; [done|]; split; [done|]; by right].
    apply (queue_ok_inv (set_next n o) q2 Hi1 Hq2 Hw2); [congruence|]. intros y. rewrite Ef. destruct (decide (y = x)) as [->|Hy].
    + rewrite lookup_delete_eq. split; [by intros [? ?]|]. rewrite (g_flows _ Hi1). intros [?|[? ?]]; [done|]. cbn in *. congruence.
    + rewrite lookup_delete_ne, Hflows by done. split; [by intros [?|?]|by right].
Qed.

(** The least recently used connection changes hands. *)
Lemma reuse_ok o a : gw_inv o -> conaddr_ok a -> find_connection_by_conaddr a o = None -> 0 < num_connections o ->
  exists x c l ta, connections_list o = x :: l /\ cons o !! x = Some c /\ let o' := set_connections (<[x := with_conaddr a c]> (cons o)) ta (connections_tree_by_conid o) (connections_list o) (num_connections o) o in
    reuse_connection a o = Some (x, o') /\ gw_inv o' /\ table o' = (a, conid c) :: (entry o <$> l).
Proof.
  intros Hi Ha Hfind Hnum. unfold reuse_connection. pose proof (find_conaddr_ok o a Hi Ha) as Hna. rewrite Hfind in Hna |- *. rewrite (proj2 (Z.ltb_lt _ _) Hnum). cbn [none andb assert mbind option_bind].
  destruct (g_num o Hi) as [Hn1 Hn2]. destruct (connections_list o) as [|x l] eqn:El; [cbn in Hn1; lia|]. cbn [head mbind option_bind]. destruct (g_list o Hi) as [Hnd Hdom]. rewrite El in Hnd, Hdom.
  destruct (proj1 (Hdom x) ltac:(set_solver)) as [c Hc]. rewrite Hc. cbn [mbind option_bind]. set (h := <[x := with_conaddr a c]> (cons o)). destruct (g_ta o Hi) as (Pa & Oa & Ka), (g_ti o Hi) as (Pi & Oi & Ki). rewrite El in Pa, Pi.
  assert (Hnda : NoDup (tree_elements (connections_tree_by_conaddr o))) by (by rewrite Pa).
  destruct (elements_Remove (connections_tree_by_conaddr o) x Ka Hnda) as (tr & Etr & Ktr & Hrm); [rewrite Pa; set_solver|]. rewrite Etr. cbn [mbind option_bind].
  assert (Hrl : filter (fun y => y <> x) (x :: l) = l) by (rewrite filter_cons_False by tauto; apply filter_all; intros y Hy ->; apply NoDup_cons in Hnd; tauto).
  assert (Hrp : Permutation (filter (fun y => y <> x) (tree_elements (connections_tree_by_conaddr o))) l) by (rewrite <- Hrl; by apply filter_Permutation).
  assert (Hkey : forall y, y <> x -> conaddr_at h y = conaddr_at (cons o) y) by (intros y Hy; unfold conaddr_at, h; by rewrite lookup_insert_ne by done).
  assert (Hkx : conaddr_at h x = a) by (unfold conaddr_at, h; by rewrite lookup_insert_eq).
  assert (Hki : forall y, conid_at h y = conid_at (cons o) y) by (intros y; unfold conid_at, h; destruct (decide (y = x)) as [->|Hy]; [by rewrite lookup_insert_eq, Hc|by rewrite lookup_insert_ne by done]).
  assert (Hxl : x ∉ l) by (apply NoDup_cons in Hnd; tauto).
  destruct (keyed_insert conaddr_comparator conaddr_ok conaddr_order (conaddr_at (cons o)) (conaddr_at h) tr x Ktr) as (ta & Eta & Kta & Pta & Ota).
  { rewrite Hrm. by apply ordered_filter. }
  { intros y. rewrite Hrm. intros Hy. rewrite Hrp in Hy. assert (Hyx : y <> x) by congruence. rewrite Hkx. assert (Hyl : y ∈ connections_list o) by (rewrite El; set_solver). split; [by apply conaddr_at_ok|]. split; [by apply Hkey|apply Hna; set_solver]. }
  { by rewrite Hkx. } { rewrite Hrm, list_elem_of_filter. tauto. }
  exists x, c, l, ta. split; [done|]. split; [done|]. change (by_conaddr h) with (keyed conaddr_comparator (conaddr_at h)). rewrite Eta. cbn [mbind option_bind].
  assert (Hdom' : forall y, is_Some (h !! y) <-> is_Some (cons o !! y)) by (intros y; unfold h; destruct (decide (y = x)) as [->|Hy]; [rewrite lookup_insert_eq, Hc; split; eauto|by rewrite lookup_insert_ne by done]).
  split; [done|]. split.
  - destruct Hi as [H1 H2 _ _ _ H6 H7 H8 H9 H10]. split; try done; cbn [set_connections cons connections_list connections_tree_by_conaddr connections_tree_by_conid num_connections send_queue keepalive_qflow]; fold h.
    + intros y d. unfold h. destruct (decide (y = x)) as [->|Hy]; [rewrite lookup_insert_eq; intros [= <-]|rewrite lookup_insert_ne by done; apply H2]. destruct (H2 x c Hc) as (_ & ? & ? & ?). by split.
    + split; [done|]. intros y. rewrite Hdom'. apply Hdom.
    + split; [|by split; [exact Ota|]]. cbn. by rewrite Pta, Hrm, Hrp.
    + split; [done|]. split; [|done]. cbn. eapply keyed_ext; [exact Oi|done].
    + intros y. rewrite Hdom'. apply H9.
    + unfold h. rewrite lookup_insert_ne; [done|]. congruence.
  - unfold table. cbn [connections_list set_connections]. rewrite fmap_cons. unfold entry at 1. cbn [cons set_connections]. fold h. f_equal.
    + rewrite Hkx, Hki. unfold conid_at. by rewrite Hc.
    + apply list_fmap_ext. intros i y Hy%list_elem_of_lookup_2. unfold entry. cbn. fold h. rewrite Hki, Hkey by congruence. done.
Qed.

(** ** The steps of the specification *)

(** What leaves the client, without the addresses of the heap. *)
Definition erase (x : output) : list Z + (BAddr * BAddr * list Z) := match x with Packet _ bs => inl bs | Received l r data => inr (l, r, data) end.

(** A packet is sent, or dropped because the buffer of the connection is full. *)
Definition sent_or_dropped (bs : list Z) (outs : list (list Z + (BAddr * BAddr * list Z))) : Prop := outs = [] \/ outs = [inl bs].

Definition dns_flag (is_dns : bool) : Z := if is_dns then UDPGW_CLIENT_FLAG_DNS else 0.

#[local] Notation tab := (list (UdpGwClient_conaddr * Z)).
#[local] Notation pend := (option (UdpGwClient_conaddr * Z * list Z)).
#[local] Notation outs_t := (list (list Z + (BAddr * BAddr * list Z))).

Inductive spec_step (max mtu : Z) : tab -> pend -> gw_event -> tab -> pend -> outs_t -> Prop :=
  | S_known t p mem ok local remote dns data id outs :
      (mkConaddr local remote, id) ∈ t -> sent_or_dropped (packet_of (dns_flag dns) id remote data) outs ->
      spec_step max mtu t p (GSubmit mem ok local remote dns data) (touch (mkConaddr local remote) id t) p outs
  | S_new t p x local remote dns data id :
      mkConaddr local remote ∉ t.*1 -> Z.of_nat (length t) < max -> id ∉ t.*2 -> 0 <= id < max ->
      spec_step max mtu t p (GSubmit (Some x) true local remote dns data) (t ++ [(mkConaddr local remote, id)]) (Some (mkConaddr local remote, dns_flag dns, data)) []
  | S_no_memory t p mem ok local remote dns data :
      mkConaddr local remote ∉ t.*1 -> Z.of_nat (length t) < max -> mem = None \/ ok = false ->
      spec_step max mtu t p (GSubmit mem ok local remote dns data) t p []
  | S_reuse t p mem ok local remote dns data a id outs :
      mkConaddr local remote ∉ ((a, id) :: t).*1 -> Z.of_nat (length ((a, id) :: t)) = max ->
      sent_or_dropped (packet_of (Z.lor (dns_flag dns) UDPGW_CLIENT_FLAG_REBIND) id remote data) outs ->
      spec_step max mtu ((a, id) :: t) p (GSubmit mem ok local remote dns data) (t ++ [(mkConaddr local remote, id)]) p outs
  | S_received t p bs a id data :
      wire bs id (remote_addr a) data -> Z.of_nat (length data) <= mtu -> (a, id) ∈ t ->
      spec_step max mtu t p (GRecv bs) (touch a id t) p [inr (local_addr a, remote_addr a, data)]
  | S_refused t p bs :
      (forall a id data, wire bs id (remote_addr a) data -> Z.of_nat (length data) <= mtu -> (a, id) ∉ t) ->
      spec_step max mtu t p (GRecv bs) t p []
  | S_first t x a id flags data outs :
      (a, id) ∈ t -> sent_or_dropped (packet_of (Z.lor UDPGW_CLIENT_FLAG_REBIND flags) id (remote_addr a) data) outs ->
      spec_step max mtu t (Some (a, flags, data)) (GFirstJob x) t None outs
  | S_internal t p ev : match ev with GWriter _ _ | GQueue _ | GConnect _ | GDisconnect => True | _ => False end -> spec_step max mtu t p ev t p [].

Lemma in_table o a id : (a, id) ∈ table o <-> exists x, x ∈ connections_list o /\ conaddr_at (cons o) x = a /\ conid_at (cons o) x = id.
Proof.
  unfold table. rewrite list_elem_of_fmap. split; [intros (x & E & Hx); exists x; unfold entry in E; by injection E as -> ->|intros (x & Hx & <- & <-); by exists x].
Qed.

Lemma conaddr_in_table o a : a ∈ (table o).*1 <-> exists x, x ∈ connections_list o /\ conaddr_at (cons o) x = a.
Proof. unfold table. rewrite <- list_fmap_compose, list_elem_of_fmap. split; intros (x & H1 & H2); exists x; cbn in *; auto. Qed.

Lemma table_length o : length (table o) = length (connections_list o).
Proof. unfold table. apply length_fmap. Qed.

Lemma no_jobs_refines (o' : Client) t : table o' = t -> (forall x c, cons o' !! x = Some c -> first_job c = false) -> forall p, refines o' t p.
Proof. intros Ht Hj p. split; [done|]. intros x c Hc E. by rewrite (Hj x c Hc) in E. Qed.

Lemma gw_submit_ok o mem flow_ok local remote dns data t p : gw_inv o -> refines o t p -> gw_possible (GSubmit mem flow_ok local remote dns data) o = true ->
  exists o' outs t' p', UdpGwClient_SubmitPacket mem flow_ok local remote dns data o = Some (o', outs) /\ gw_inv o' /\ same_conf o o' /\ have_server o' = have_server o
    /\ refines o' t' p' /\ spec_step (max_connections o) (udp_mtu o) t p (GSubmit mem flow_ok local remote dns data) t' p' (erase <$> outs).
Proof.
  intros Hi [<- Hp] Hposs. cbn [gw_possible] in Hposs. rewrite !andb_true_iff, !bool_decide_eq_true in Hposs. destruct Hposs as ((((Hl & Hr) & Hlen) & Hmem) & Hjobs). apply Z.leb_le in Hlen.
  assert (Hno : forall x c, cons o !! x = Some c -> first_job c = false) by (intros x c Hc; by apply (Hjobs x c)). set (a := mkConaddr local remote). assert (Ha : conaddr_ok a) by done.
  unfold UdpGwClient_SubmitPacket. assert (Eip : forall b, addr_ok b -> (addr_type b =? BADDR_TYPE_IPV4) || (addr_type b =? BADDR_TYPE_IPV6) = true) by (intros b (_ & _ & _ & [[-> _]|[-> _]]); done).
  rewrite !Eip by done. rewrite (proj2 (Z.leb_le _ _) Hlen). cbn [andb assert mbind option_bind]. fold a. change (if dns then UDPGW_CLIENT_FLAG_DNS else 0) with (dns_flag dns).
  assert (Hdns : dns_flag dns = 0 \/ dns_flag dns = 4) by (destruct dns; auto). pose proof (find_conaddr_ok o a Hi Ha) as Hfind. destruct (g_num o Hi) as [Hn1 Hn2]. destruct (g_conf o Hi) as (_ & _ & _ & Hmax).
  destruct (find_connection_by_conaddr a o) as [x|] eqn:Ef; cbn [none andb mbind option_bind].
  - destruct Hfind as [Hx Ex]. destruct (move_to_end_ok o x Hi Hx) as [Hi1 Ht1]. pose proof Hx as [c Hc]%(g_list o Hi). assert (Eca : conaddr c = a) by (unfold conaddr_at in Ex; by rewrite Hc in Ex). assert (Eid : conid_at (cons o) x = conid c) by (unfold conid_at; by rewrite Hc).
    destruct (connection_send_ok (move_to_end x o) x c (dns_flag dns) data Hi1 Hc Hlen) as (w & outs & E & Hok & Houts & _). rewrite E. destruct (replace_ok (move_to_end x o) x c (with_out w c) Hi1 Hc eq_refl eq_refl Hok) as [Hi2 Ht2].
    rewrite Ex, Eid in Ht1. eexists _, outs, (touch a (conid c) (table o)), p. split; [done|]. split; [done|]. split; [done|]. split; [done|]. split.
    + apply no_jobs_refines; [congruence|]. intros y d. cbn. destruct (decide (y = x)) as [->|Hy]; [rewrite lookup_insert_eq; intros [= <-]; cbn; by apply (Hno x)|rewrite lookup_insert_ne by done; apply Hno].
    + apply S_known. { unfold table. apply list_elem_of_fmap. exists x. split; [|done]. unfold entry. by rewrite Ex, Eid. }
      unfold sent_or_dropped. destruct Houts as [->| ->]; [by left|right]. cbn. by rewrite Eca.
  - assert (Hna : a ∉ (table o).*1) by (rewrite conaddr_in_table; intros (x & Hx & E); by apply (Hfind x)). destruct (Z.eqb_spec (num_connections o) (max_connections o)) as [Efull|Efull].
    + destruct (reuse_ok o a Hi Ha Ef ltac:(lia)) as (x & c & l & ta & El & Hc & E1 & Hi1 & Ht1). rewrite E1. cbn [mbind option_bind]. set (o1 := set_connections _ _ _ _ _ o) in *.
      assert (Hx1 : x ∈ connections_list o1) by (cbn; rewrite El; set_solver). destruct (move_to_end_ok o1 x Hi1 Hx1) as [Hi2 Ht2]. assert (Hc1 : cons (move_to_end x o1) !! x = Some (with_conaddr a c)) by (cbn; by rewrite lookup_insert_eq).
      assert (Eca : conaddr_at (cons o1) x = a /\ conid_at (cons o1) x = conid c) by (unfold conaddr_at, conid_at; cbn; by rewrite lookup_insert_eq). destruct Eca as [Eca Eid]. rewrite Eca, Eid, Ht1 in Ht2.
      assert (Et : table o = (conaddr c, conid c) :: (entry o <$> l)) by (unfold table; rewrite El, fmap_cons; f_equal; unfold entry, conaddr_at, conid_at; by rewrite Hc).
      assert (Htouch : touch a (conid c) ((a, conid c) :: (entry o <$> l)) = (entry o <$> l) ++ [(a, conid c)]).
      { apply touch_head. intros Hin. apply Hna. rewrite Et, fmap_cons. by right. }
      rewrite Htouch in Ht2. destruct (connection_send_ok (move_to_end x o1) x (with_conaddr a c) (Z.lor (dns_flag dns) UDPGW_CLIENT_FLAG_REBIND) data Hi2 Hc1 Hlen) as (w & outs & E & Hok & Houts & _). rewrite E.
      destruct (replace_ok (move_to_end x o1) x _ (with_out w (with_conaddr a c)) Hi2 Hc1 eq_refl eq_refl Hok) as [Hi3 Ht3].
      eexists _, outs, ((entry o <$> l) ++ [(a, conid c)]), p. split; [done|]. split; [done|]. split; [done|]. split; [done|]. split.
      * apply no_jobs_refines; [congruence|]. intros y d. cbn. destruct (decide (y = x)) as [->|Hy]; [rewrite lookup_insert_eq; intros [= <-]; cbn; by apply (Hno x)|rewrite !lookup_insert_ne by done; apply Hno].
      * rewrite Et. rewrite Et in Hna. apply S_reuse; [done|rewrite <- Et, table_length; lia|]. unfold sent_or_dropped. destruct Houts as [->| ->]; [by left|by right].
    + assert (Hlt : num_connections o < max_connections o) by lia.
      destruct (connection_init_ok o mem flow_ok a (dns_flag dns) data Hi Ha Ef Hlt ltac:(lia) Hlen) as (o' & E & Hi' & [Hs Hsc] & Hcase).
      { intros x ->. apply andb_true_iff in Hmem as [H1 H2]. split; [by destruct (cons o !! x)|]. apply negb_true_iff, Nat.eqb_neq in H2. done. }
      cbn [mbind option_bind]. rewrite E. cbn [mbind option_bind].
      destruct Hcase as [(Ht & Hcons & Hwhy)|(x & id & -> & -> & Ht & Hid & Hidr & Hcons)].
      * exists o', [], (table o), p. split; [done|]. split; [done|]. split; [done|]. split; [done|]. split; [apply no_jobs_refines; [done|]; rewrite Hcons; exact Hno|]. apply S_no_memory; [done|rewrite table_length; lia|done].
      * exists o', [], (table o ++ [(a, id)]), (Some (a, dns_flag dns, data)). split; [done|]. split; [done|]. split; [done|]. split; [done|]. split.
        -- split; [done|]. intros y c. rewrite Hcons. destruct (decide (y = x)) as [->|Hy]; [rewrite lookup_insert_eq; by intros [= <-]|rewrite lookup_insert_ne by done; intros Hc E1; by rewrite (Hno y c Hc) in E1].
        -- apply S_new; [done|rewrite table_length; lia|done|done].
Qed.

(** The handler of packets, in terms of [parse]. *)
Lemma recv_parse bs (o : Client) : recv_interface_handler_send bs o =
  (assert (have_server o && (Z.of_nat (length bs) <=? udpgw_mtu o));;
   match parse bs with
   | None => Some (o, [])
   | Some (id, remote, data) =>
       if udp_mtu o <? Z.of_nat (length data) then Some (o, []) else
       match find_connection_by_conid id o with
       | None => Some (o, [])
       | Some con =>
           c ← cons o !! con;
           if negb (BAddr_CompareOrder (remote_addr (conaddr c)) remote =? 0) then Some (o, []) else
           Some (move_to_end con o, [Received (local_addr (conaddr c)) (remote_addr (conaddr c)) data])
       end
   end).
Proof.
  unfold recv_interface_handler_send, parse. destruct (assert _); [|done]. cbn [mbind option_bind]. destruct (Z.of_nat (length bs) <? sizeof_udpgw_header); [done|].
  destruct (negb _); [destruct (_ <? sizeof_udpgw_addr_ipv6)|destruct (_ <? sizeof_udpgw_addr_ipv4)]; done.
Qed.

Lemma recv_ok o bs t p : gw_inv o -> refines o t p -> gw_possible (GRecv bs) o = true ->
  exists o' outs t', recv_interface_handler_send bs o = Some (o', outs) /\ gw_inv o' /\ same_conf o o' /\ have_server o' = have_server o
    /\ refines o' t' p /\ spec_step (max_connections o) (udp_mtu o) t p (GRecv bs) t' p (erase <$> outs).
Proof.
  intros Hi [<- Hp] Hposs. cbn [gw_possible] in Hposs. rewrite !andb_true_iff, bool_decide_eq_true in Hposs. destruct Hposs as ((Hsrv & Hbs) & Hlen). rewrite recv_parse, Hsrv, Hlen. cbn [andb assert mbind option_bind].
  assert (Hrefuse : (forall a id data, wire bs id (remote_addr a) data -> Z.of_nat (length data) <= udp_mtu o -> (a, id) ∉ table o) ->
    exists o' outs t', Some (o, [] : list output) = Some (o', outs) /\ gw_inv o' /\ same_conf o o' /\ have_server o' = true /\ refines o' t' p /\ spec_step (max_connections o) (udp_mtu o) (table o) p (GRecv bs) t' p (erase <$> outs)).
  { intros Hno. exists o, [], (table o). do 5 (split; [done|]). by apply S_refused. }
  pose proof (parse_wire bs Hbs) as Hpw. destruct (parse bs) as [[[id remote] data]|] eqn:Ep; [|apply Hrefuse; intros a id data Hw; exfalso; by apply (Hpw id (remote_addr a) data)].
  assert (Hun : forall a id' data', wire bs id' (remote_addr a) data' -> id' = id /\ remote_addr a = remote /\ data' = data) by (intros a id' data' Hw%parse_of_wire; rewrite Ep in Hw; by injection Hw as -> -> ->).
  destruct (Z.ltb_spec (udp_mtu o) (Z.of_nat (length data))) as [Hlong|Hlong].
  { apply Hrefuse. intros a id' data' Hw Hl. destruct (Hun a id' data' Hw) as (_ & _ & ->). lia. }
  pose proof (find_conid_ok o id Hi) as Hfind. destruct (find_connection_by_conid id o) as [x|].
  2: { apply Hrefuse. intros a id' data' Hw _. destruct (Hun a id' data' Hw) as (-> & _ & _). rewrite in_table. intros (x & Hx & _ & E). by apply (Hfind x). }
  destruct Hfind as [Hx Eid]. pose proof Hx as [c Hc]%(g_list o Hi). rewrite Hc. cbn [mbind option_bind]. assert (Eca : conaddr_at (cons o) x = conaddr c) by (unfold conaddr_at; by rewrite Hc).
  destruct (g_con o Hi x c Hc) as ((_ & Hrok) & _). assert (Hr : addr_ok remote) by (destruct Hpw as (? & _ & _ & ? & _); done). pose proof (BAddr_CompareOrder_0 _ _ Hrok Hr) as H0.
  destruct (Z.eqb_spec (BAddr_CompareOrder (remote_addr (conaddr c)) remote) 0) as [E|E]; cbn [negb].
  - apply H0 in E. destruct (move_to_end_ok o x Hi Hx) as [Hi' Ht']. eexists _, _, (touch (conaddr c) id (table o)). split; [done|]. split; [done|]. split; [done|]. split; [done|]. split; [split; [by rewrite Ht', Eca, Eid|exact Hp]|].
    cbn. apply S_received; [by rewrite E|done|]. apply in_table. by exists x.
  - apply Hrefuse. intros a id' data' Hw _. destruct (Hun a id' data' Hw) as (-> & Ea & _). rewrite in_table. intros (y & Hy & E1 & E2). assert (y = x) as -> by (apply (conid_inj o); congruence). apply E, H0. congruence.
Qed.

Lemma first_job_ok o x t p : gw_inv o -> refines o t p -> gw_possible (GFirstJob x) o = true ->
  exists o' outs, connection_first_job_handler x o = Some (o', outs) /\ gw_inv o' /\ same_conf o o' /\ have_server o' = have_server o
    /\ refines o' t None /\ spec_step (max_connections o) (udp_mtu o) t p (GFirstJob x) t None (erase <$> outs).
Proof.
  intros Hi [<- Hp] Hposs. cbn [gw_possible] in Hposs. destruct (cons o !! x) as [c|] eqn:Hc; [|done]. unfold connection_first_job_handler. rewrite Hc. cbn [mbind option_bind]. rewrite Hposs. cbn [assert mbind option_bind].
  pose proof (g_con o Hi x c Hc) as (Hca & Hid & Hj & Hout). destruct (Hj Hposs) as [Hfl Hlen]. destruct (replace_ok o x c (with_job false c) Hi Hc eq_refl eq_refl ltac:(done)) as [Hi1 Ht1].
  set (o1 := set_cons (<[x := with_job false c]> (cons o)) o) in *. assert (Hc1 : cons o1 !! x = Some (with_job false c)) by (cbn; by rewrite lookup_insert_eq).
  destruct (connection_send_ok o1 x (with_job false c) (Z.lor UDPGW_CLIENT_FLAG_REBIND (first_flags c)) (first_data c) Hi1 Hc1 Hlen) as (w & outs & E & Hok & Houts & _). rewrite E. destruct (replace_ok o1 x _ (with_out w (with_job false c)) Hi1 Hc1 eq_refl eq_refl Hok) as [Hi2 Ht2].
  assert (Hxl : x ∈ connections_list o) by (apply (g_list o Hi); eauto). eexists _, outs. split; [done|]. split; [done|]. split; [done|]. split; [done|]. split.
  - split; [congruence|]. intros y d. cbn. destruct (decide (y = x)) as [->|Hy]; [rewrite lookup_insert_eq; by intros [= <-]|rewrite !lookup_insert_ne by done]. intros Hd Ed. exfalso. apply Hy.
    assert (Eq : p = Some (conaddr c, first_flags c, first_data c)) by (by apply (Hp x)). rewrite (Hp y d Hd Ed) in Eq. injection Eq as E1 _ _. apply (conaddr_inj o); [done|apply (g_list o Hi); eauto|done|]. unfold conaddr_at. by rewrite Hd, Hc.
  - rewrite (Hp x c Hc Hposs). apply S_first with (id := conid c). { unfold table. apply list_elem_of_fmap. exists x. split; [|done]. unfold entry, conaddr_at, conid_at. by rewrite Hc. }
    unfold sent_or_dropped. destruct Houts as [->| ->]; [by left|by right].
Qed.

(** The queue keeps its flows when it is used. *)
Lemma queue_step_ok o ev : gw_inv o -> possible ev (send_queue o) = true -> match ev with EvSend _ _ | EvOutputDone | EvJob => True | _ => False end ->
  exists q outs, step ev (send_queue o) = Some (q, outs) /\ gw_inv (set_queue q o).
Proof.
  intros Hi Hposs Hev. destruct (g_queue o Hi) as (Hq & Hw & Hfr). destruct (fq_step_ok ev _ Hq Hw Hposs) as (q & outs & E & Hq' & Hw' & _ & Hm). exists q, outs. split; [done|].
  assert (Hm' : moves (send_queue o) q outs (sends_of ev) []) by (destruct ev; try done; by apply Hm). apply queue_ok_inv; try done.
  - rewrite (step_freeing ev (send_queue o) q outs E); [done|]. by intros ->.
  - intros y. rewrite <- (proj2 (i_list q Hq') y), <- (proj2 (i_list _ Hq) y), (v_list _ _ _ _ _ Hm'), app_nil_r. done.
Qed.

Lemma gw_step_ok ev o t p : gw_inv o -> refines o t p -> gw_possible ev o = true ->
  exists o' outs t' p', gw_step ev o = Some (o', outs) /\ gw_inv o' /\ (same_conf o o' /\ match ev with GConnect _ | GDisconnect => True | _ => have_server o' = have_server o end) /\ refines o' t' p' /\ spec_step (max_connections o) (udp_mtu o) t p ev t' p' (erase <$> outs).
Proof.
  intros Hi Hr Hposs. destruct ev as [mem ok local remote dns data|bs|x|x buf|ev|ok|]; cbn [gw_step].
  - destruct (gw_submit_ok o mem ok local remote dns data t p Hi Hr Hposs) as (o' & outs & t' & p' & E & Hi' & Hc & Hv & Hr' & Hs). exists o', outs, t', p'. done.
  - destruct (recv_ok o bs t p Hi Hr Hposs) as (o' & outs & t' & E & Hi' & Hc & Hv & Hr' & Hs). exists o', outs, t', p. done.
  - destruct (first_job_ok o x t p Hi Hr Hposs) as (o' & outs & E & Hi' & Hc & Hv & Hr' & Hs). exists o', outs, t, None. done.
  - cbn [gw_possible] in Hposs. destruct (cons o !! x) as [c|] eqn:Hc; [|done]. apply andb_true_iff in Hposs as [Hn Hlen]. cbn [mbind option_bind]. unfold BufferWriter_output_handler_recv. rewrite Hn. cbn [assert mbind option_bind].
    pose proof (g_con o Hi x c Hc) as (Hca & Hid & Hj & _). destruct (replace_ok o x c (with_out (Some buf) c) Hi Hc eq_refl eq_refl) as [Hi' Ht']. { split; [done|]. split; [done|]. split; [done|]. intros b [= <-]. lia. }
    eexists _, [], t, p. split; [done|]. split; [done|]. split; [done|]. destruct Hr as [Ht Hp]. split; [split; [congruence|]|by apply S_internal].
    intros y d. cbn. destruct (decide (y = x)) as [->|Hy]; [rewrite lookup_insert_eq; intros [= <-]; cbn; by apply (Hp x c)|rewrite lookup_insert_ne by done; apply Hp].
  - cbn [gw_possible] in Hposs. apply andb_true_iff in Hposs as [Hposs Hev]. destruct (queue_step_ok o ev Hi Hposs) as (q & qo & E & Hi'); [by destruct ev|]. rewrite E. cbn [mbind option_bind]. eexists _, [], t, p. split; [done|]. split; [done|]. split; [done|]. split; [done|by apply S_internal].
  - cbn [gw_possible] in Hposs. unfold UdpGwClient_ConnectServer. rewrite Hposs. cbn [assert mbind option_bind]. destruct ok; (eexists _, [], t, p; split; [done|]; split; [by destruct Hi|]; split; [done|]; split; [done|by apply S_internal]).
  - cbn [gw_possible] in Hposs. unfold UdpGwClient_DisconnectServer. rewrite Hposs. cbn [assert mbind option_bind]. eexists _, [], t, p. split; [done|]. split; [by destruct Hi|]. split; [done|]. split; [done|by apply S_internal].
Qed.

Inductive spec_run (max mtu : Z) : tab -> pend -> list gw_event -> tab -> pend -> outs_t -> Prop :=
  | R_nil t p : spec_run max mtu t p [] t p []
  | R_cons t p ev evs t1 p1 o1 t2 p2 o2 : spec_step max mtu t p ev t1 p1 o1 -> spec_run max mtu t1 p1 evs t2 p2 o2 -> spec_run max mtu t p (ev :: evs) t2 p2 (o1 ++ o2).

Lemma gw_run_ok evs : forall o t p, gw_inv o -> refines o t p -> gw_possible_run evs o = true ->
  exists o' outs t' p', gw_run evs o = Some (o', outs) /\ gw_inv o' /\ same_conf o o' /\ refines o' t' p' /\ spec_run (max_connections o) (udp_mtu o) t p evs t' p' (erase <$> outs).
Proof.
  induction evs as [|ev evs IH]; intros o t p Hi Hr Hp.
  { exists o, [], t, p. split; [done|]. split; [done|]. split; [done|]. split; [done|constructor]. }
  cbn [gw_possible_run] in Hp. apply andb_true_iff in Hp as [Hp1 Hp2]. destruct (gw_step_ok ev o t p Hi Hr Hp1) as (o1 & u1 & t1 & p1 & E1 & Hi1 & [[C1 C2] _] & Hr1 & Hs1). rewrite E1 in Hp2.
  destruct (IH o1 t1 p1 Hi1 Hr1 Hp2) as (o2 & u2 & t2 & p2 & E2 & Hi2 & [C3 C4] & Hr2 & Hs2). exists o2, (u1 ++ u2), t2, p2. cbn [gw_run]. rewrite E1. cbn [mbind option_bind]. rewrite E2. split; [done|]. split; [done|].
  split; [split; congruence|]. split; [done|]. rewrite fmap_app. rewrite C1, C2 in Hs2. by econstructor.
Qed.

(** ** Start and end *)

Lemma compute_mtu mtu : 0 <= mtu <= INT_MAX -> 0 <= udpgw_compute_mtu mtu -> udpgw_compute_mtu mtu = mtu + 21.
Proof.
  unfold udpgw_compute_mtu, bsize_toint, bsize_add, bsize_max, bsize_fromsize, bsize_fromint, sizeof_udpgw_header, sizeof_udpgw_addr_ipv4, sizeof_udpgw_addr_ipv6, SIZE_MAX. cbn [is_overflow value orb].
  intros H0. unfold INT_MAX in H0. rewrite (proj2 (Z.ltb_ge mtu 0)) by lia. change (18 <? 6) with false. cbn match.
  rewrite (Z.mod_small mtu), (Z.mod_small (18 + mtu)), (Z.mod_small (3 + (18 + mtu))) by lia. rewrite (proj2 (Z.ltb_ge (2 ^ 64 - 1 - 18) mtu)), (proj2 (Z.ltb_ge (2 ^ 64 - 1 - 3) (18 + mtu))) by lia. cbn [orb]. destruct (INT_MAX <? _); cbn; lia.
Qed.

Lemma gw_init_ok mtu max size kflow o : UdpGwClient_Init mtu max size kflow = Some (Some o) -> mtu <= INT_MAX -> gw_inv o /\ refines o [] None /\ udp_mtu o = mtu /\ max_connections o = Z.min max 65536.
Proof.
  unfold UdpGwClient_Init. intros E Hint. destruct (_ && _) eqn:Ea; [|done]. cbn [assert mbind option_bind] in E. rewrite !andb_true_iff in Ea. destruct Ea as ((((H1 & H2) & H3) & H4) & H5). rewrite Z.leb_le in H1, H2, H3. rewrite Z.ltb_lt in H4, H5.
  pose proof (compute_mtu mtu ltac:(lia) H2) as Em. destruct (PacketPassFairQueue_Init _ _ _ _) as [[q|]|] eqn:Eq; cbn [mbind option_bind] in E; try done. destruct (PacketPassFairQueueFlow_Init kflow q) as [q'|] eqn:Eq'; cbn [mbind option_bind] in E; [|done].
  injection E as <-. unfold sizeof_packetproto_header in Eq. destruct (fq_init_ok _ _ _ _ _ Eq ltac:(lia)) as (Hq & Hw & _).
  assert (Hfr : freeing q = false /\ flows q = ∅) by (unfold PacketPassFairQueue_Init in Eq; destruct (_ && _); [|done]; cbn [assert mbind option_bind] in Eq; destruct (negb _); [done|]; by injection Eq as <-). destruct Hfr as [Hfr Hfl].
  destruct (flow_init_ok q kflow Hq Hw Hfr) as (q2 & E2 & Hq2 & Hw2 & _); [by rewrite Hfl, lookup_empty|]. rewrite Eq' in E2. injection E2 as <-. destruct (flow_init_flows _ _ _ Eq') as (Ef & Efr & _).
  assert (Emax : (if 65535 + 1 <? max then 65535 + 1 else max) = Z.min max 65536) by (destruct (Z.ltb_spec (65535 + 1) max); lia).
  split; [|split; [split; [done|]; intros x c Hc; cbn in Hc; by rewrite lookup_empty in Hc|split; [done|exact Emax]]].
  split; cbn [udp_mtu udpgw_mtu max_connections cons connections_list connections_tree_by_conaddr connections_tree_by_conid num_connections next_conid send_queue keepalive_qflow]; rewrite ?Emax.
  - lia.
  - intros x c Hc. by rewrite lookup_empty in Hc.
  - split; [apply NoDup_nil_2|]. intros x. rewrite lookup_empty. split; [set_solver|by intros [? ?]].
  - split; [|split]; cbn; rewrite ?(proj2 ok_Init); [done|apply ordered_nil|apply ok_Init].
  - split; [|split]; cbn; rewrite ?(proj2 ok_Init); [done|apply ordered_nil|apply ok_Init].
  - cbn. lia.
  - lia.
  - split; [done|]. split; [done|congruence].
  - intros x. rewrite Ef, Hfl, lookup_empty. destruct (decide (x = kflow)) as [->|Hx]; [rewrite lookup_insert_eq; split; eauto|rewrite lookup_insert_ne, lookup_empty by done; split; [by intros [? ?]|intros [?|[? ?]]; done]].
  - apply lookup_empty.
Qed.

(** What holds while the connections are freed. *)
Definition holds_list (t : T) (o : Client) : Prop := tree_ok t /\ Permutation (tree_elements t) (connections_list o).
Definition freeable (o : Client) : Prop :=
  NoDup (connections_list o) /\ (forall x, x ∈ connections_list o <-> is_Some (cons o !! x)) /\ inv (send_queue o) /\ works (send_queue o) /\ freeing (send_queue o) = true
  /\ (forall x, is_Some (flows (send_queue o) !! x) <-> x = keepalive_qflow o \/ is_Some (cons o !! x)) /\ cons o !! keepalive_qflow o = None
  /\ holds_list (connections_tree_by_conaddr o) o /\ holds_list (connections_tree_by_conid o) o.

Lemma holds_list_remove t o x : holds_list t o -> NoDup (connections_list o) -> x ∈ connections_list o ->
  exists t', tree_Remove x t = Some t' /\ tree_ok t' /\ Permutation (tree_elements t') (filter (fun y => y <> x) (connections_list o)).
Proof.
  intros [Ht Hp] Hnd Hx. destruct (elements_Remove t x Ht) as (t' & E & Ht' & El); [by rewrite Hp|by rewrite Hp|]. exists t'. split; [done|]. split; [done|]. rewrite El. by apply filter_Permutation.
Qed.

Lemma free_connections_ok fuel : forall o, freeable o -> (length (connections_list o) <= fuel)%nat -> exists o', free_connections fuel o = Some o' /\ freeable o' /\ connections_list o' = [] /\ keepalive_qflow o' = keepalive_qflow o.
Proof.
  induction fuel as [|fuel IH]; intros o Hf Hl; cbn [free_connections]; destruct (connections_list o) as [|x l] eqn:El; try (exists o; done); [cbn in Hl; lia|].
  destruct Hf as (Hnd & Hdom & Hq & Hw & Hfr & Hfl & Hk & Hta & Hti). destruct (holds_list_remove _ _ x Hta Hnd ltac:(rewrite El; set_solver)) as (ta & Eta & Kta & Pta), (holds_list_remove _ _ x Hti Hnd ltac:(rewrite El; set_solver)) as (ti & Eti & Kti & Pti). rewrite El in Hnd, Hdom. destruct (proj1 (Hdom x) ltac:(set_solver)) as [c Hc]. unfold connection_free. rewrite Hc. cbn [mbind option_bind]. rewrite Eti. cbn [mbind option_bind]. rewrite Eta. cbn [mbind option_bind]. cbn [send_queue set_connections].
  destruct (flow_free_ok (send_queue o) x Hq Hw) as (q & E & Hq' & Hw'); [apply Hfl; eauto|by left|]. rewrite E. cbn [mbind option_bind]. destruct (flow_free_flows _ _ _ E) as [Ef Efr].
  assert (Hrl : filter (fun y => y <> x) (x :: l) = l) by (rewrite filter_cons_False by tauto; apply filter_all; intros y Hy ->; apply NoDup_cons in Hnd; tauto).
  destruct (IH (set_cons (delete x (cons o)) (set_queue q (set_connections (cons o) ta ti (filter (fun y => y <> x) (connections_list o)) (num_connections o - 1) o)))) as (o' & E' & Hf' & Hl' & Hk').
  - unfold freeable. cbn [set_cons set_queue set_connections cons connections_list send_queue keepalive_qflow]. rewrite El, Hrl. apply NoDup_cons in Hnd as [Hx Hnd]. split; [done|]. split; [|split; [done|split; [done|split; [congruence|split]]]].
    + intros y. destruct (decide (y = x)) as [->|Hy]; [rewrite lookup_delete_eq; split; [done|by intros [? ?]]|rewrite lookup_delete_ne, <- Hdom by done; set_solver].
    + intros y. rewrite Ef. destruct (decide (y = x)) as [->|Hy]; [rewrite !lookup_delete_eq; split; [by intros [? ?]|intros [->|[? ?]]; [congruence|done]]|by rewrite !lookup_delete_ne by done].
    + split; [rewrite lookup_delete_None; by right|]. rewrite El, Hrl in Pta, Pti. by split.
  - cbn. rewrite El, Hrl. cbn in Hl. lia.
  - exists o'. split; [rewrite El in E' |- *; exact E'|]. done.
Qed.

Lemma gw_free_ok o : gw_inv o -> exists o', UdpGwClient_Free o = Some o' /\ cons o' = ∅ /\ flows (send_queue o') = ∅.
Proof.
  intros Hi. unfold UdpGwClient_Free. set (o1 := set_queue _ o). destruct (g_queue o Hi) as (Hq & Hw & _).
  assert (Hf : freeable o1).
  { destruct Hi as [_ _ [H1 H2] (H5 & _ & H5') (H6 & _ & H6') _ _ _ H3 H4]. split; [done|]. split; [done|]. split; [by destruct Hq|]. split; [done|]. do 4 (split; [done|]). done. }
  destruct (free_connections_ok (length (connections_list o1)) o1 Hf ltac:(done)) as (o2 & E & (_ & Hdom & Hq2 & Hw2 & Hfr & Hfl & Hk & _) & Hnil & _). rewrite E. cbn [mbind option_bind].
  assert (Hc : cons o2 = ∅) by (apply map_empty; intros x; apply eq_None_not_Some; rewrite <- Hdom, Hnil; set_solver).
  destruct (flow_free_ok (send_queue o2) (keepalive_qflow o2) Hq2 Hw2) as (q & Eq & Hq3 & _); [apply Hfl; by left|by left|]. rewrite Eq. cbn [mbind option_bind]. destruct (flow_free_flows _ _ _ Eq) as [Ef _].
  assert (Hempty : flows q = ∅). { apply map_empty. intros x. rewrite Ef. destruct (decide (x = keepalive_qflow o2)) as [->|Hx]; [by rewrite lookup_delete_eq|rewrite lookup_delete_ne by done]. apply eq_None_not_Some. rewrite Hfl, Hc, lookup_empty. intros [?|[? ?]]; done. }
  assert (Hno : forall x, flows q !! x = None) by (intros x; by rewrite Hempty, lookup_empty).
  assert (Efree : PacketPassFairQueue_Free q = Some tt).
  { unfold PacketPassFairQueue_Free. destruct (flows_list q) as [|x l] eqn:El. 2: { destruct (proj1 (proj2 (i_list q Hq3) x)) as [f Hx]; [rewrite El; set_solver|]. by rewrite Hno in Hx. }
    pose proof (fq_first_ok q Hq3) as Hfirst. destruct (tree_GetFirst _); [destruct Hfirst as (f & [Hx _] & _); by rewrite Hno in Hx|].
    destruct (previous_flow q) as [x|] eqn:Ep; [destruct (i_previous q Hq3 x Ep) as (f & Hx & _); by rewrite Hno in Hx|]. destruct (sending_flow q) as [x|] eqn:Es; [destruct (i_sending q Hq3 x Es) as (f & Hx & _); by rewrite Hno in Hx|]. done. }
  rewrite Efree. cbn [mbind option_bind]. eexists. split; [done|]. done.
Qed.

(** ** Packets and replies *)

(** Every packet that is sent belongs to a pair in the table. *)
Lemma spec_packet max mtu t p ev t' p' outs bs : spec_step max mtu t p ev t' p' outs -> (forall x, ev = GFirstJob x -> forall a f d, p = Some (a, f, d) -> 0 <= f < 8) -> inl bs ∈ outs ->
  exists a id data flags, (a, id) ∈ t' /\ bs = packet_of flags id (remote_addr a) data /\ 0 <= flags < 8.
Proof.
  assert (Hdns : forall d, dns_flag d = 0 \/ dns_flag d = 4) by (intros []; auto).
  assert (Hone : forall b outs, sent_or_dropped b outs -> inl bs ∈ outs -> bs = b) by (intros b os [->| ->] Hin; [set_solver|apply list_elem_of_singleton in Hin; by injection Hin]).
  intros Hs Hf Hin. destruct Hs as [t p mem ok local remote dns data id outs Hm Ho|t p x local remote dns data id|t p mem ok local remote dns data|t p mem ok local remote dns data a id outs Hn Hl Ho|t p b a id data|t p b|t x a id flags data outs Hm Ho|t p ev].
  - exists (mkConaddr local remote), id, data, (dns_flag dns). split; [unfold touch; set_solver|]. split; [by apply (Hone _ outs)|]. destruct (Hdns dns); lia.
  - set_solver.
  - set_solver.
  - exists (mkConaddr local remote), id, data, (Z.lor (dns_flag dns) UDPGW_CLIENT_FLAG_REBIND). split; [set_solver|]. split; [by apply (Hone _ outs)|]. destruct (Hdns dns) as [-> | ->]; vm_compute; done.
  - apply list_elem_of_singleton in Hin. done.
  - set_solver.
  - exists a, id, data, (Z.lor UDPGW_CLIENT_FLAG_REBIND flags). split; [done|]. split; [by apply (Hone _ outs)|]. specialize (Hf x eq_refl a flags data eq_refl).
    assert (flags = 0 \/ flags = 1 \/ flags = 2 \/ flags = 3 \/ flags = 4 \/ flags = 5 \/ flags = 6 \/ flags = 7) as Hc by lia. decompose [or] Hc; subst; vm_compute; done.
  - set_solver.
Qed.

Lemma table_ok o a id : gw_inv o -> (a, id) ∈ table o -> conaddr_ok a /\ is_u16 id.
Proof. intros Hi (x & Hx & <- & <-)%in_table. split; [by apply conaddr_at_ok|]. pose proof (conid_at_ok o x Hi Hx). destruct (g_conf o Hi) as (_ & _ & _ & Hmax). unfold is_u16. lia. Qed.

(** A packet for a pair in the table is handed to the user. *)
Lemma recv_delivers o a id flags payload : gw_inv o -> (a, id) ∈ table o -> have_server o = true -> 0 <= flags < 8 -> Z.of_nat (length payload) <= udp_mtu o ->
  exists o', recv_interface_handler_send (packet_of flags id (remote_addr a) payload) o = Some (o', [Received (local_addr a) (remote_addr a) payload]).
Proof.
  intros Hi Ha Hsrv Hfl Hlen. destruct (table_ok o a id Hi Ha) as [[Hl Hr] Hid]. apply in_table in Ha as (x & Hx & Eca & Eid). rewrite recv_parse, (parse_of_wire _ _ _ _ (packet_of_wire flags id (remote_addr a) payload Hfl Hid Hr)), Hsrv.
  assert (Hfit : Z.of_nat (length (packet_of flags id (remote_addr a) payload)) <= udpgw_mtu o).
  { destruct (g_conf o Hi) as (_ & -> & _). unfold packet_of. rewrite udpgw_addr_app by done. rewrite !length_app. destruct Hr as (_ & _ & Hp & [[_ Hip]|[_ Hip]]); rewrite Hp, Hip; cbn; lia. }
  rewrite (proj2 (Z.leb_le _ _) Hfit). cbn [andb assert mbind option_bind]. rewrite (proj2 (Z.ltb_ge _ _) Hlen). pose proof (find_conid_ok o id Hi) as Hfind. destruct (find_connection_by_conid id o) as [y|]; [|exfalso; by apply (Hfind x)].
  destruct Hfind as [Hy Eid']. assert (y = x) as -> by (apply (conid_inj o); congruence). pose proof Hx as [c Hc]%(g_list o Hi). unfold conaddr_at in Eca. rewrite Hc in Eca. rewrite Hc. cbn [mbind option_bind]. rewrite Eca.
  rewrite (proj2 (BAddr_CompareOrder_0 (remote_addr a) (remote_addr a) Hr Hr)) by done. cbn [negb Z.eqb]. by eexists.
Qed.

(** ** Theorems *)

(** C29. The client is a table of connections with recycled identifiers.  From [UdpGwClient_Init]
    on, for every sequence of datagrams, packets of the gateway, failed allocations and uses of
    the queue within the contracts, no assertion fails, nothing is written past a buffer and the
    search for an identifier ends; the outputs are those of [spec_step]: a known pair of
    addresses keeps its identifier, a new pair gets an unused one or, when all are taken, that of the
    least recently used pair, with the flag REBIND; packets carry the identifier and the remote
    address of their pair; a packet of the gateway is delivered if and only if it is well formed
    and its identifier and address are those of a pair.  [UdpGwClient_Free] can then be
    called at any time and frees every connection and every flow of the queue. *)
Theorem udpgw_refines_table mtu max size kflow o0 evs :
  UdpGwClient_Init mtu max size kflow = Some (Some o0) -> mtu <= INT_MAX -> gw_possible_run evs o0 = true ->
  exists o outs t p, gw_run evs o0 = Some (o, outs) /\ gw_inv o /\ refines o t p /\ spec_run (Z.min max 65536) mtu [] None evs t p (erase <$> outs)
    /\ exists o', UdpGwClient_Free o = Some o' /\ cons o' = ∅ /\ flows (send_queue o') = ∅.
Proof.
  intros E Hint Hp. destruct (gw_init_ok _ _ _ _ _ E Hint) as (Hi & Hr & Em & Ex). destruct (gw_run_ok evs o0 [] None Hi Hr Hp) as (o & outs & t & p & Er & Hi' & _ & Hr' & Hs). rewrite Em, Ex in Hs.
  exists o, outs, t, p. split; [done|]. split; [done|]. split; [done|]. split; [done|]. by apply gw_free_ok.
Qed.

(** Replies come back.  When the client sends a packet, the packet is well formed, and carries
    the identifier and the remote address of a pair in the table; at any later time, as
    long as the pair is in the table, a packet of the gateway with that identifier and address,
    whatever its flags and payload, is handed to the user for exactly that pair of addresses. *)
Theorem udpgw_reply_delivered mtu max size kflow o0 evs0 o outs0 ev o1 outs x bs :
  UdpGwClient_Init mtu max size kflow = Some (Some o0) -> mtu <= INT_MAX -> gw_possible_run evs0 o0 = true -> gw_run evs0 o0 = Some (o, outs0) ->
  gw_possible ev o = true -> gw_step ev o = Some (o1, outs) -> Packet x bs ∈ outs ->
  exists a id data, (a, id) ∈ table o1 /\ wire bs id (remote_addr a) data
    /\ forall evs o2 outs2 flags payload, gw_possible_run evs o1 = true -> gw_run evs o1 = Some (o2, outs2) -> (a, id) ∈ table o2 -> have_server o2 = true ->
         0 <= flags < 8 -> Z.of_nat (length payload) <= mtu ->
         exists o3, recv_interface_handler_send (packet_of flags id (remote_addr a) payload) o2 = Some (o3, [Received (local_addr a) (remote_addr a) payload]).
Proof.
  intros E Hint Hp0 E0 Hp Es Hin. destruct (gw_init_ok _ _ _ _ _ E Hint) as (Hi0 & Hr0 & Em & _). destruct (gw_run_ok evs0 o0 [] None Hi0 Hr0 Hp0) as (o' & ? & t & p & E0' & Hi & [_ C] & Hr & _). rewrite E0 in E0'. injection E0' as <- <-.
  destruct (gw_step_ok ev o t p Hi Hr Hp) as (o1' & outs' & t1 & p1 & Es' & Hi1 & [[_ C1] _] & [Ht1 Hp1] & Hs). rewrite Es in Es'. injection Es' as <- <-.
  destruct (spec_packet _ _ t p ev t1 p1 _ bs Hs) as (a & id & data & flags & Ha & -> & Hfl).
  { intros y -> b f d ->. destruct Hr as [_ Hpp]. cbn [gw_possible] in Hp. destruct (cons o !! y) as [c|] eqn:Hc; [|done]. pose proof (Hpp y c Hc Hp) as Eq. injection Eq as -> -> ->. destruct (g_con o Hi y c Hc) as (_ & _ & Hj & _). by apply Hj. }
  { apply list_elem_of_fmap. by exists (Packet x bs). }
  rewrite <- Ht1 in Ha. destruct (table_ok o1 a id Hi1 Ha) as [Hok Hid]. exists a, id, data. split; [done|]. split; [by apply packet_of_wire; [| |apply Hok]|].
  intros evs o2 outs2 flags' payload Hp2 E2 Ha2 Hsrv Hfl' Hlen. destruct (gw_run_ok evs o1 t1 p1 Hi1 (conj Ht1 Hp1) Hp2) as (o2' & ? & ? & ? & E2' & Hi2 & [_ C2] & _ & _). rewrite E2 in E2'. injection E2' as <- <-. apply recv_delivers; try done. congruence.
Qed.

End Inv.

(** ** Runs *)

Module UdpGwExample.

Definition app_a : BAddr := BAddr_InitIPv4 [10; 0; 0; 1] (hton16 5000).
Definition app_b : BAddr := BAddr_InitIPv4 [10; 0; 0; 1] (hton16 6000).
Definition server : BAddr := BAddr_InitIPv4 [8; 8; 8; 8] (hton16 53).

(** Over the trees in memory. *)
Definition start : UdpGwClient BAVL := match UdpGwClient_Init 100 1 1 0 with Some (Some o) => o | _ => mkClient 0 0 0 0 0 ∅ BAVL_Init BAVL_Init [] 0 0 (mkQueue ∅ [] BAVL_Init None [] 0 None false false 0 0 false) 0 false false end.

(** The first application sends a datagram. *)
Definition first_request : list gw_event := [GConnect true; GSubmit (Some 1%nat) true app_a server false [1; 2; 3]; GWriter 1 (replicate 121 0)].
Definition after_first : UdpGwClient BAVL := match gw_run first_request start with Some (o, _) => o | None => start end.
Definition after_job : UdpGwClient BAVL := match gw_step (GFirstJob 1) after_first with Some (o, _) => o | None => start end.
(** Then another one, to the same server, which takes over the only identifier. *)
Definition second_request : list gw_event := [GWriter 1 (replicate 121 0); GSubmit (Some 2%nat) true app_b server false [4; 5]].

Lemma udpgw_refines_table_witness : exists o outs t p, gw_run (first_request ++ GFirstJob 1 :: second_request) start = Some (o, outs) /\ refines o t p
  /\ spec_run 1 100 [] None (first_request ++ GFirstJob 1 :: second_request) t p (erase <$> outs) /\ exists o', UdpGwClient_Free o = Some o' /\ cons o' = ∅.
Proof.
  destruct (udpgw_refines_table 100 1 1 0 start (first_request ++ GFirstJob 1 :: second_request)) as (o & outs & t & p & E & _ & Hr & Hs & o' & Ef & Hc & _); [vm_compute; reflexivity|vm_compute; discriminate|vm_compute; reflexivity|].
  exists o, outs, t, p. split; [exact E|]. split; [exact Hr|]. split; [exact Hs|]. exists o'. split; [exact Ef|exact Hc].
Defined.

Lemma udpgw_reply_delivered_witness : exists a id data, (a, id) ∈ table after_job /\ wire [2; 0; 0; 8; 8; 8; 8; 0; 53; 1; 2; 3] id (remote_addr a) data
  /\ exists o3, recv_interface_handler_send (packet_of 0 id (remote_addr a) [9; 9]) after_job = Some (o3, [Received (local_addr a) (remote_addr a) [9; 9]]).
Proof.
  destruct (udpgw_reply_delivered 100 1 1 0 start first_request after_first [] (GFirstJob 1) after_job [Packet 1 [2; 0; 0; 8; 8; 8; 8; 0; 53; 1; 2; 3]] 1 [2; 0; 0; 8; 8; 8; 8; 0; 53; 1; 2; 3]) as (a & id & data & Ha & Hw & Hreply);
    [vm_compute; reflexivity|vm_compute; discriminate|vm_compute; reflexivity|vm_compute; reflexivity|vm_compute; reflexivity|vm_compute; reflexivity|apply list_elem_of_singleton; reflexivity|].
  exists a, id, data. split; [exact Ha|]. split; [exact Hw|]. apply (Hreply [] after_job [] 0 [9; 9]); [reflexivity|reflexivity|exact Ha|vm_compute; reflexivity|lia|cbn; lia].
Defined.

(** An identifier that is taken over can carry a late answer to the wrong application.  The
    first application asks a server and its identifier is then given to another application
    that asks the same server; an answer to the first question, with the identifier and the
    address it was asked with, is handed to the second application: the client checks the
    remote address of a packet, which is the same for both, and nothing else. *)
Theorem udpgw_late_reply_misdelivered :
  exists o1 o2 outs, gw_run (first_request ++ [GFirstJob 1]) start = Some (o1, [Packet 1 (packet_of UDPGW_CLIENT_FLAG_REBIND 0 server [1; 2; 3])])
    /\ gw_possible_run (first_request ++ GFirstJob 1 :: second_request) start = true /\ gw_run second_request o1 = Some (o2, outs)
    /\ exists o3, recv_interface_handler_send (packet_of 0 0 server [7; 7]) o2 = Some (o3, [Received app_b server [7; 7]]).
Proof.
  eexists _, _, _. split; [vm_compute; reflexivity|]. split; [vm_compute; reflexivity|]. split; [vm_compute; reflexivity|]. eexists. vm_compute. reflexivity.
Qed.

End UdpGwExample.
