(* ===== verification/SocksUdpGw.v ===== *)
(** * The UDP gateway over SOCKS

    Models badvpn/tun2socks/SocksUdpGwClient.c: the client of [UdpGw] is connected to the gateway
    through a SOCKS client, which is replaced, after a pause, whenever it or the gateway fails.

    The SOCKS client, modelled in [SocksClient], and the timer are the environment: the client
    may fail to start, comes up at most once and may fail at any time. *)

From S2P Require Import Prelude Baddr SocksClient PacketProto Avl Bavl BavlRefine FairQueue FairQueueSpec UdpGw UdpGwSpec.

Record SocksUdpGwClient (T : Type) := mkSocksGw {
  udpgw_client : UdpGwClient T; have_socks : bool; socks_up : bool; reconnect_timer : bool
}.
#[global] Arguments mkSocksGw {T}. #[global] Arguments udpgw_client {T}. #[global] Arguments have_socks {T}. #[global] Arguments socks_up {T}. #[global] Arguments reconnect_timer {T}.

Section SocksGw.
Context {T : Type} `{HT : Avl T}.
#[local] Notation S := (SocksUdpGwClient T).

Definition with_gw (c : UdpGwClient T) (o : S) : S := mkSocksGw c (have_socks o) (socks_up o) (reconnect_timer o).
Definition with_socks (b : bool) (o : S) : S := mkSocksGw (udpgw_client o) b (socks_up o) (reconnect_timer o).
Definition with_up (b : bool) (o : S) : S := mkSocksGw (udpgw_client o) (have_socks o) b (reconnect_timer o).
Definition with_timer (b : bool) (o : S) : S := mkSocksGw (udpgw_client o) (have_socks o) (socks_up o) b.

Definition free_socks (o : S) : option S :=
  assert (have_socks o);;
  o ← (if socks_up o then c ← UdpGwClient_DisconnectServer (udpgw_client o); Some (with_gw c o) else Some o);
  Some (with_socks false o).

(** [ok]: whether [BSocksClient_Init] succeeds. *)
Definition try_connect (ok : bool) (o : S) : option S :=
  assert (negb (have_socks o) && negb (reconnect_timer o));;
  if negb ok then Some (with_timer true o) else
  Some (with_up false (with_socks true o)).

(** The timer has expired. *)
Definition reconnect_timer_handler (ok : bool) (o : S) : option S :=
  let o := with_timer false o in
  assert (negb (have_socks o));; try_connect ok o.

(** [ok]: whether [UdpGwClient_ConnectServer] succeeds. *)
Definition socks_client_handler (event : Z) (ok : bool) (o : S) : option S :=
  assert (have_socks o);;
  if event =? BSOCKSCLIENT_EVENT_UP then
    assert (negb (socks_up o));;
    '(res, c) ← UdpGwClient_ConnectServer ok (udpgw_client o);
    let o := with_gw c o in
    if negb res then o ← free_socks o; Some (with_timer true o) else
    Some (with_up true o)
  else if (event =? BSOCKSCLIENT_EVENT_ERROR) || (event =? BSOCKSCLIENT_EVENT_ERROR_CLOSED) then
    o ← free_socks o; Some (with_timer true o)
  else None.

Definition udpgw_handler_servererror (o : S) : option S :=
  assert (have_socks o && socks_up o);;
  o ← free_socks o; Some (with_timer true o).

(** In the gateway client: it calls the handler. *)
Definition decoder_handler_error (o : S) : option S := assert (have_server (udpgw_client o));; udpgw_handler_servererror o.

Definition SocksUdpGwClient_Init (mtu max size : Z) (kflow : nat) (server dest : BAddr) (ok : bool) : option (option S) :=
  assert (negb (addr_type server =? BADDR_TYPE_NONE) && ((addr_type dest =? BADDR_TYPE_IPV4) || (addr_type dest =? BADDR_TYPE_IPV6)));;
  r ← UdpGwClient_Init mtu max size kflow;
  match r with
  | None => Some None
  | Some c => o ← try_connect ok (mkSocksGw c false false false); Some (Some o)
  end.

Definition SocksUdpGwClient_Free (o : S) : option S :=
  o ← (if have_socks o then free_socks o else Some o);
  let o := with_timer false o in
  c ← UdpGwClient_Free (udpgw_client o); Some (with_gw c o).

(** ** Runs *)

(** The events of the gateway client that do not come from here, [SServerError] for a packet that
    the decoder refuses; those of the SOCKS client; the timer. *)
Inductive sgw_event := SGateway (ev : gw_event) | SServerError | SSocks (event : Z) (ok : bool) | STimer (ok : bool).

Definition sgw_possible (ev : sgw_event) (o : S) : bool :=
  match ev with
  | SGateway ev => gw_possible ev (udpgw_client o) && match ev with GConnect _ | GDisconnect => false | _ => true end
  | SServerError => have_server (udpgw_client o)
  | SSocks event _ => have_socks o && ((event =? BSOCKSCLIENT_EVENT_UP) && negb (socks_up o) || (event =? BSOCKSCLIENT_EVENT_ERROR) || (event =? BSOCKSCLIENT_EVENT_ERROR_CLOSED))
  | STimer _ => reconnect_timer o
  end.

Definition sgw_step (ev : sgw_event) (o : S) : option (S * list output) :=
  match ev with
  | SGateway ev => '(c, outs) ← gw_step ev (udpgw_client o); Some (with_gw c o, outs)
  | SServerError => o ← decoder_handler_error o; Some (o, [])
  | SSocks event ok => o ← socks_client_handler event ok o; Some (o, [])
  | STimer ok => o ← reconnect_timer_handler ok o; Some (o, [])
  end.

Fixpoint sgw_run (evs : list sgw_event) (o : S) : option (S * list output) :=
  match evs with
  | [] => Some (o, [])
  | ev :: evs => '(o, o1) ← sgw_step ev o; '(o, o2) ← sgw_run evs o; Some (o, o1 ++ o2)
  end.

Fixpoint sgw_possible_run (evs : list sgw_event) (o : S) : bool :=
  match evs with
  | [] => true
  | ev :: evs => sgw_possible ev o && match sgw_step ev o with Some (o, _) => sgw_possible_run evs o | None => true end
  end.

End SocksGw.

Section Inv.
Context {T : Type} `{HT : Avl T} `{HL : !AvlLaws T}.
#[local] Notation S := (SocksUdpGwClient T).

(** There is a SOCKS client or the timer runs, never both; the gateway is connected exactly
    while the SOCKS client is up. *)
Record sgw_inv (o : S) : Prop := mkSgwInv {
  sg_gw : gw_inv (udpgw_client o);
  sg_socks : have_socks o = negb (reconnect_timer o);
  sg_up : have_server (udpgw_client o) = have_socks o && socks_up o
}.

Lemma set_server_inv b (c : UdpGwClient T) : gw_inv c -> gw_inv (set_server b c).
Proof. by intros []. Qed.

(** [free_socks] leaves everything but the connection to the gateway. *)
Lemma free_socks_ok o t p : sgw_inv o -> have_socks o = true -> refines (udpgw_client o) t p ->
  exists o', free_socks o = Some o' /\ gw_inv (udpgw_client o') /\ refines (udpgw_client o') t p /\ have_socks o' = false /\ have_server (udpgw_client o') = false
    /\ reconnect_timer o' = reconnect_timer o /\ same_conf (udpgw_client o) (udpgw_client o').
Proof.
  intros [Hi Hs Hu] Hh Hr. unfold free_socks. rewrite Hh in *. cbn [assert mbind option_bind andb] in *. destruct (socks_up o); cbn [mbind option_bind].
  - unfold UdpGwClient_DisconnectServer. rewrite Hu. cbn [assert mbind option_bind]. eexists. split; [done|]. split; [by apply set_server_inv|]. done.
  - eexists. split; [done|]. done.
Qed.

(** What the table sees of an event. *)
Definition as_gw (ev : sgw_event) : gw_event := match ev with SGateway ev => ev | _ => GDisconnect end.

Lemma sgw_step_ok ev o t p : sgw_inv o -> refines (udpgw_client o) t p -> sgw_possible ev o = true ->
  exists o' outs t' p', sgw_step ev o = Some (o', outs) /\ sgw_inv o' /\ same_conf (udpgw_client o) (udpgw_client o') /\ refines (udpgw_client o') t' p'
    /\ spec_step (max_connections (udpgw_client o)) (udp_mtu (udpgw_client o)) t p (as_gw ev) t' p' (erase <$> outs).
Proof.
  intros Hinv Hr Hp. pose proof Hinv as [Hi Hs Hu].
  assert (Hfree : have_socks o = true -> exists o1, free_socks o = Some o1 /\ sgw_inv (with_timer true o1) /\ same_conf (udpgw_client o) (udpgw_client o1) /\ refines (udpgw_client o1) t p).
  { intros Hh. destruct (free_socks_ok o t p Hinv Hh Hr) as (o1 & E & Hi1 & Hr1 & Hh1 & Hv1 & _ & Hc1). exists o1. split; [done|]. split; [|done]. split; [done|done|]. cbn. by rewrite Hv1, Hh1. }
  destruct ev as [ev| |event ok|ok]; cbn [sgw_step sgw_possible] in *.
  - apply andb_true_iff in Hp as [Hp Hev]. destruct (gw_step_ok ev _ t p Hi Hr Hp) as (c & outs & t' & p' & E & Hi' & [Hc Hv] & Hr' & Hsp). rewrite E. cbn [mbind option_bind]. exists (with_gw c o), outs, t', p'. split; [done|]. split; [|done].
    split; [done|done|]. cbn. rewrite <- Hu. by destruct ev.
  - unfold decoder_handler_error, udpgw_handler_servererror. rewrite Hu in Hp |- *. rewrite Hp. cbn [assert mbind option_bind]. apply andb_true_iff in Hp as [Hh _]. destruct (Hfree Hh) as (o1 & E & Hi1 & Hc1 & Hr1). rewrite E. cbn [mbind option_bind].
    eexists _, [], t, p. split; [done|]. split; [done|]. split; [done|]. split; [done|by apply S_internal].
  - apply andb_true_iff in Hp as [Hh Hev]. unfold socks_client_handler. rewrite Hh. cbn [assert mbind option_bind]. destruct (event =? BSOCKSCLIENT_EVENT_UP) eqn:Eup; cbn [andb orb] in Hev.
    + assert (Hup : socks_up o = false) by (apply Z.eqb_eq in Eup; subst event; by destruct (socks_up o)). rewrite Hup. cbn [negb assert mbind option_bind]. rewrite Hh, Hup in Hu. cbn in Hu. unfold UdpGwClient_ConnectServer. rewrite Hu. cbn [negb assert mbind option_bind].
      destruct ok; cbn [negb].
      * eexists _, [], t, p. split; [done|]. split; [|split; [done|]; split; [done|by apply S_internal]]. split; [by apply set_server_inv|done|]. cbn. by rewrite Hh.
      * replace (with_gw (udpgw_client o) o) with o by (by destruct o). destruct (Hfree Hh) as (o1 & E & Hi1 & Hc1 & Hr1). rewrite E. cbn [mbind option_bind]. eexists _, [], t, p. split; [done|]. split; [done|]. split; [done|]. split; [done|by apply S_internal].
    + rewrite Hev. destruct (Hfree Hh) as (o1 & E & Hi1 & Hc1 & Hr1). rewrite E. cbn [mbind option_bind]. eexists _, [], t, p. split; [done|]. split; [done|]. split; [done|]. split; [done|by apply S_internal].
  - unfold reconnect_timer_handler, try_connect. cbn [have_socks reconnect_timer with_timer]. rewrite Hp in Hs. rewrite Hs. cbn [negb andb assert mbind option_bind]. rewrite Hs in Hu. cbn in Hu.
    destruct ok; cbn [negb]; (eexists _, [], t, p; split; [done|]; split; [|split; [done|]; split; [done|by apply S_internal]]); (split; [done|cbn; try done|cbn; rewrite ?Hs; by rewrite Hu]).
Qed.

Lemma sgw_run_ok evs : forall o t p, sgw_inv o -> refines (udpgw_client o) t p -> sgw_possible_run evs o = true ->
  exists o' outs t' p', sgw_run evs o = Some (o', outs) /\ sgw_inv o' /\ refines (udpgw_client o') t' p'
    /\ spec_run (max_connections (udpgw_client o)) (udp_mtu (udpgw_client o)) t p (as_gw <$> evs) t' p' (erase <$> outs).
Proof.
  induction evs as [|ev evs IH]; intros o t p Hi Hr Hp.
  { exists o, [], t, p. split; [done|]. split; [done|]. split; [done|constructor]. }
  cbn [sgw_possible_run] in Hp. apply andb_true_iff in Hp as [Hp1 Hp2]. destruct (sgw_step_ok ev o t p Hi Hr Hp1) as (o1 & u1 & t1 & p1 & E1 & Hi1 & [C1 C2] & Hr1 & Hs1). rewrite E1 in Hp2.
  destruct (IH o1 t1 p1 Hi1 Hr1 Hp2) as (o2 & u2 & t2 & p2 & E2 & Hi2 & Hr2 & Hs2). exists o2, (u1 ++ u2), t2, p2. cbn [sgw_run]. rewrite E1. cbn [mbind option_bind]. rewrite E2. split; [done|]. split; [done|]. split; [done|].
  rewrite fmap_app, fmap_cons. rewrite C1, C2 in Hs2. by econstructor.
Qed.

(** The gateway over SOCKS never gives up and loses no connection.  Whatever the SOCKS client,
    the gateway and the allocator do, no assertion fails; at any time there is a SOCKS client
    or the timer that starts the next one runs, and not both; the gateway is connected exactly
    while the SOCKS client is up; the table of connections goes on across failures and new
    connections as if there had been none.  The whole can be freed at any time. *)
Theorem socks_udpgw_reconnects mtu max size kflow server dest ok o0 evs :
  SocksUdpGwClient_Init mtu max size kflow server dest ok = Some (Some o0) -> mtu <= INT_MAX -> sgw_possible_run evs o0 = true ->
  exists o outs t p, sgw_run evs o0 = Some (o, outs) /\ have_socks o = negb (reconnect_timer o) /\ have_server (udpgw_client o) = have_socks o && socks_up o
    /\ refines (udpgw_client o) t p /\ spec_run (Z.min max 65536) mtu [] None (as_gw <$> evs) t p (erase <$> outs)
    /\ exists o', SocksUdpGwClient_Free o = Some o' /\ have_socks o' = false /\ reconnect_timer o' = false /\ cons (udpgw_client o') = ∅.
Proof.
  intros E Hint Hp. unfold SocksUdpGwClient_Init in E. destruct (_ && _); [|done]. cbn [assert mbind option_bind] in E. destruct (UdpGwClient_Init mtu max size kflow) as [[c|]|] eqn:Ec; cbn [mbind option_bind] in E; try done.
  destruct (gw_init_ok _ _ _ _ _ Ec Hint) as (Hi & Hr & Em & Ex).
  assert (H0 : sgw_inv o0 /\ udpgw_client o0 = c).
  { assert (Hv : have_server c = false) by (unfold UdpGwClient_Init in Ec; destruct (_ && _); [|done]; cbn [assert mbind option_bind] in Ec; destruct (PacketPassFairQueue_Init _ _ _ _) as [[q|]|]; cbn [mbind option_bind] in Ec; try done; destruct (PacketPassFairQueueFlow_Init kflow q); [|done]; by injection Ec as <-).
    unfold try_connect in E. cbn [have_socks reconnect_timer negb andb assert mbind option_bind] in E. destruct ok; cbn [negb mbind option_bind] in E; injection E as <-; (split; [|done]); split; cbn; rewrite ?Hv; done. }
  destruct H0 as [H0 Hc]. rewrite <- Hc in Hr, Em, Ex. destruct (sgw_run_ok evs o0 [] None H0 Hr Hp) as (o & outs & t & p & Er & Hinv & Hr' & Hs). rewrite Em, Ex in Hs. pose proof Hinv as [Hi' Hh Hu].
  exists o, outs, t, p. do 5 (split; [done|]). unfold SocksUdpGwClient_Free. destruct (have_socks o) eqn:Eh.
  - destruct (free_socks_ok o t p Hinv Eh Hr') as (o1 & E1 & Hi1 & _ & Hh1 & _). rewrite E1. cbn [mbind option_bind]. destruct (gw_free_ok (udpgw_client o1) Hi1) as (c' & E2 & Hc' & _). cbn [udpgw_client with_timer]. rewrite E2. cbn [mbind option_bind]. eexists. split; [done|]. done.
  - cbn [mbind option_bind]. destruct (gw_free_ok (udpgw_client o) Hi') as (c' & E2 & Hc' & _). cbn [udpgw_client with_timer]. rewrite E2. cbn [mbind option_bind]. eexists. split; [done|]. done.
Qed.

End Inv.

Module SocksGwExample.
Import UdpGwExample.

Definition begin : SocksUdpGwClient BAVL := mkSocksGw start true false false.
(** The gateway fails while a connection is in use, and comes back. *)
Definition outage : list sgw_event :=
  [SSocks 2 true; SGateway (GSubmit (Some 1%nat) true app_a server false [1; 2; 3]); SGateway (GWriter 1 (replicate 121 0)); SGateway (GFirstJob 1);
   SServerError; STimer false; STimer true; SSocks 3 false; STimer true; SSocks 2 true; SGateway (GRecv [0; 0; 0; 8; 8; 8; 8; 0; 53; 9])].

Lemma socks_udpgw_reconnects_witness : exists o outs t p, sgw_run outage begin = Some (o, outs) /\ have_socks o = negb (reconnect_timer o)
  /\ spec_run 1 100 [] None (as_gw <$> outage) t p (erase <$> outs) /\ exists o', SocksUdpGwClient_Free o = Some o' /\ cons (udpgw_client o') = ∅.
Proof.
  destruct (socks_udpgw_reconnects 100 1 1 0 server server true begin outage) as (o & outs & t & p & E & Hh & _ & _ & Hs & o' & Ef & _ & _ & Hc); [vm_compute; reflexivity|vm_compute; discriminate|vm_compute; reflexivity|].
  exists o, outs, t, p. split; [exact E|]. split; [exact Hh|]. split; [exact Hs|]. exists o'. split; [exact Ef|exact Hc].
Defined.

(** The answer arrives over the third SOCKS connection. *)
Example outage_answer : snd <$> sgw_run outage begin = Some [Packet 1 (packet_of UDPGW_CLIENT_FLAG_REBIND 0 server [1; 2; 3]); Received app_a server [9]].
Proof. vm_compute. reflexivity. Qed.

End SocksGwExample.
