(* ===== verification/DnsProxy.v ===== *)
(** * Resolving names without blocking the engine

    Models lib/dns/hev-task-dns-proxy.c of hev-task-system: a task that resolves a name hands the address of a record
    on its stack to a helper thread and waits; the thread calls the blocking function of the C library and fills the
    record in.  One byte through a socket pair says that the record is there, one byte back that it is filled in; a
    mutex admits one task at a time ([Mutex] has its correctness; here it is held or free).

    The tasks and the thread interleave at every system call.  A record is known by the task whose stack holds it; it
    is gone when the function returns, and an access to one that is gone is [Crashed].  A system call succeeds, has to
    wait ([EAGAIN]) or fails for another reason, which ends the loop around it as it does in the code.

    [dns_proxy_correct]: as long as no call on the socket pair fails, the thread never touches a record that is gone,
    every task gets the answer to its own request, and the task the reactor would wake is the one that waits.
    [dns_proxy_returns]: from every state it can get into, each waiting task can be brought to return by steps of the
    tasks and the thread alone.  [dns_proxy_failed_read]: the assumption is needed. *)

From S2P Require Import Prelude.

(** ** Records *)

Record HevTaskDNSCallGetAddrInfo := mkGai
  { gai_node : list Z; gai_service : list Z; gai_hints : list Z; gai_res : list (list Z); gai_err : Z; gai_ret : Z }.

Record HevTaskDNSCallGetNameInfo := mkGni
  { gni_addr : list Z; gni_addrlen : Z; gni_node : list Z; gni_nodelen : Z; gni_service : list Z; gni_servicelen : Z;
    gni_flags : Z; gni_err : Z; gni_ret : Z }.

(** [HevTaskDNSCall]: [type] tells which record it starts. *)
Inductive HevTaskDNSCall :=
  | GetAddrInfo (gai : HevTaskDNSCallGetAddrInfo)
  | GetNameInfo (gni : HevTaskDNSCallGetNameInfo).

(** Where a task is in [hev_task_dns_proxy_call]; [Returned]: what the record said at the end. *)
Inductive phase := WantsLock | Writes | Reads | Unlocks | Returned (c : HevTaskDNSCall).

(** The thread: before [read], with a request, with an answer to announce. *)
Inductive server_state := ServerReads | ServerResolves | ServerWrites.

#[global] Instance server_state_eq_dec : EqDecision server_state.
Proof. solve_decision. Defined.

(** The proxy, the bytes in its socket pair, the tasks and their records;
    [sched_task = None]: no task yet, or [dummy_task]. *)
Record HevTaskDNSProxy := mkProxy
  { mutex : option nat; call : option nat; sched_task : option nat; to_server : nat; to_client : nat;
    server : server_state; tasks : gmap nat phase; records : gmap nat HevTaskDNSCall }.

(** What [hev_task_dns_proxy_new] returns when nothing it calls fails. *)
Definition new_proxy : HevTaskDNSProxy := mkProxy None None None 0 0 ServerReads ∅ ∅.

(** ** Steps *)

(** A system call: it succeeds, would have to wait, or fails. *)
Inductive io := Done | Again | Fails.

Inductive action :=
  | Call (t : nat) (c : HevTaskDNSCall)   (** a task enters *)
  | Lock (t : nat)
  | Write (t : nat) (res : io)
  | Read (t : nat) (res : io)
  | Unlock (t : nat)
  | ServerRead
  | ServerResolve
  | ServerWrite (res : io).

Inductive outcome := Blocked | Crashed | Next (s : HevTaskDNSProxy).

(** [hev_task_dns_proxy_getaddrinfo] and [hev_task_dns_proxy_getnameinfo] up to the call: the result is -1. *)
Definition enter (c : HevTaskDNSCall) : HevTaskDNSCall :=
  match c with
  | GetAddrInfo g => GetAddrInfo (mkGai (gai_node g) (gai_service g) (gai_hints g) (gai_res g) (gai_err g) (-1))
  | GetNameInfo g =>
      GetNameInfo (mkGni (gni_addr g) (gni_addrlen g) (gni_node g) (gni_nodelen g) (gni_service g) (gni_servicelen g)
                     (gni_flags g) (gni_err g) (-1))
  end.

(** The steps of [hev_task_dns_proxy_call], from the entry to the return of the function around it. *)
Definition hev_task_dns_proxy_call (t : nat) (a : action) (s : HevTaskDNSProxy) : outcome :=
  match a, tasks s !! t with
  | Call _ c, (None | Some (Returned _)) =>
      Next (mkProxy (mutex s) (call s) (sched_task s) (to_server s) (to_client s) (server s)
              (<[t := WantsLock]> (tasks s)) (<[t := enter c]> (records s)))
  | Lock _, Some WantsLock =>
      match mutex s with
      | None => Next (mkProxy (Some t) (Some t) (Some t) (to_server s) (to_client s) (server s)
                        (<[t := Writes]> (tasks s)) (records s))
      | Some _ => Blocked
      end
  | Write _ Again, Some Writes => Next s
  | Write _ res, Some Writes =>
      Next (mkProxy (mutex s) (call s) (sched_task s) (match res with Done => S (to_server s) | _ => to_server s end)
              (to_client s) (server s) (<[t := Reads]> (tasks s)) (records s))
  | Read _ Again, Some Reads => if (to_client s =? 0)%nat then Next s else Blocked
  | Read _ Done, Some Reads =>
      match to_client s with
      | 0%nat => Blocked
      | S n => Next (mkProxy (mutex s) (call s) (sched_task s) (to_server s) n (server s)
                       (<[t := Unlocks]> (tasks s)) (records s))
      end
  | Read _ Fails, Some Reads =>
      Next (mkProxy (mutex s) (call s) (sched_task s) (to_server s) (to_client s) (server s)
              (<[t := Unlocks]> (tasks s)) (records s))
  | Unlock _, Some Unlocks =>
      match records s !! t with
      | None => Crashed
      | Some c => Next (mkProxy None (call s) None (to_server s) (to_client s) (server s)
                          (<[t := Returned c]> (tasks s)) (delete t (records s)))
      end
  | _, _ => Blocked
  end.

Section resolver.
(** The C library: the result, [errno] and what is written through the pointers. *)
Context (getaddrinfo : list Z -> list Z -> list Z -> Z * Z * list (list Z)).
Context (getnameinfo : list Z -> Z -> Z -> Z -> Z -> Z * Z * list Z * list Z).

Definition hev_task_dns_server_getaddrinfo (gai : HevTaskDNSCallGetAddrInfo) : HevTaskDNSCallGetAddrInfo :=
  let '(ret, err, res) := getaddrinfo (gai_node gai) (gai_service gai) (gai_hints gai) in
  mkGai (gai_node gai) (gai_service gai) (gai_hints gai) res err ret.

Definition hev_task_dns_server_getnameinfo (gni : HevTaskDNSCallGetNameInfo) : HevTaskDNSCallGetNameInfo :=
  let '(ret, err, node, service) :=
    getnameinfo (gni_addr gni) (gni_addrlen gni) (gni_nodelen gni) (gni_servicelen gni) (gni_flags gni) in
  mkGni (gni_addr gni) (gni_addrlen gni) node (gni_nodelen gni) service (gni_servicelen gni) (gni_flags gni) err ret.

(** The [switch] of [hev_task_dns_server_handler]. *)
Definition serve (c : HevTaskDNSCall) : HevTaskDNSCall :=
  match c with
  | GetAddrInfo gai => GetAddrInfo (hev_task_dns_server_getaddrinfo gai)
  | GetNameInfo gni => GetNameInfo (hev_task_dns_server_getnameinfo gni)
  end.

(** The steps of [hev_task_dns_server_handler]; a [read] without a byte ends it until the next event. *)
Definition hev_task_dns_server_handler (a : action) (s : HevTaskDNSProxy) : outcome :=
  match a, server s with
  | ServerRead, ServerReads =>
      match to_server s with
      | 0%nat => Next s
      | S n => Next (mkProxy (mutex s) (call s) (sched_task s) n (to_client s) ServerResolves (tasks s) (records s))
      end
  | ServerResolve, ServerResolves =>
      match call s with
      | None => Crashed
      | Some t =>
          match records s !! t with
          | None => Crashed
          | Some c => Next (mkProxy (mutex s) (call s) (sched_task s) (to_server s) (to_client s) ServerWrites
                              (tasks s) (<[t := serve c]> (records s)))
          end
      end
  | ServerWrite Again, ServerWrites => Next s
  | ServerWrite res, ServerWrites =>
      Next (mkProxy (mutex s) (call s) (sched_task s) (to_server s)
              (match res with Done => S (to_client s) | _ => to_client s end) ServerReads (tasks s) (records s))
  | _, _ => Blocked
  end.

Definition step (s : HevTaskDNSProxy) (a : action) : outcome :=
  match a with
  | Call t _ | Lock t | Write t _ | Read t _ | Unlock t => hev_task_dns_proxy_call t a s
  | ServerRead | ServerResolve | ServerWrite _ => hev_task_dns_server_handler a s
  end.

Fixpoint run (s : HevTaskDNSProxy) (l : list action) : outcome :=
  match l with
  | [] => Next s
  | a :: l => match step s a with Next s' => run s' l | o => o end
  end.

(** ** What has been asked *)

(** No call on the socket pair fails for good. *)
Definition sound (a : action) : bool :=
  match a with Write _ Fails | Read _ Fails | ServerWrite Fails => false | _ => true end.

(** A step of a task or the thread that does not start a new call. *)
Definition internal (a : action) : bool := match a with Call _ _ => false | _ => sound a end.

(** What each task has asked for, last. *)
Definition note (a : action) (asked : gmap nat HevTaskDNSCall) : gmap nat HevTaskDNSCall :=
  match a with Call t c => <[t := c]> asked | _ => asked end.

Inductive reaches : HevTaskDNSProxy -> gmap nat HevTaskDNSCall -> Prop :=
  | reaches_new : reaches new_proxy ∅
  | reaches_step s asked a s' :
      reaches s asked -> sound a = true -> step s a = Next s' -> reaches s' (note a asked).

Lemma reaches_run l s asked s' :
  reaches s asked -> forallb sound l = true -> run s l = Next s' -> reaches s' (fold_left (fun m a => note a m) l asked).
Proof.
  revert s asked. induction l as [|a l IH]; simpl; intros s asked Hr Hl Hs; [by simplify_eq|].
  apply andb_true_iff in Hl as [Ha Hl]. destruct (step s a) as [| |s1] eqn:E; try done.
  eapply IH; eauto using reaches_step.
Qed.

(** ** The invariant *)

Definition busy (p : phase) : bool := match p with Writes | Reads | Unlocks => true | _ => false end.

Definition quiet (s : HevTaskDNSProxy) : Prop := to_server s = 0%nat /\ to_client s = 0%nat /\ server s = ServerReads.

(** The request is at one place: in the socket, with the thread, or answered. *)
Definition under_way (s : HevTaskDNSProxy) : Prop :=
  match server s with
  | ServerReads => (to_server s + to_client s)%nat = 1%nat
  | _ => to_server s = 0%nat /\ to_client s = 0%nat
  end.

Definition answered (s : HevTaskDNSProxy) : bool :=
  match server s with ServerWrites => true | ServerResolves => false | ServerReads => (to_client s =? 1)%nat end.

Definition record_ok (s : HevTaskDNSProxy) (q : HevTaskDNSCall) (t : nat) (p : phase) : Prop :=
  match p with
  | Returned c => c = serve (enter q)
  | WantsLock | Writes => records s !! t = Some (enter q)
  | Reads => records s !! t = Some (if answered s then serve (enter q) else enter q)
  | Unlocks => records s !! t = Some (serve (enter q))
  end.

Record proxy_inv (s : HevTaskDNSProxy) (asked : gmap nat HevTaskDNSCall) : Prop := mkProxyInv
  { inv_holder : forall t p, tasks s !! t = Some p -> busy p = true -> mutex s = Some t;
    inv_record : forall t p, tasks s !! t = Some p -> exists q, asked !! t = Some q /\ record_ok s q t p;
    inv_link : match mutex s with
               | None => quiet s
               | Some t => call s = Some t /\ sched_task s = Some t /\
                           match tasks s !! t with
                           | Some Reads => under_way s
                           | Some Writes | Some Unlocks => quiet s
                           | _ => False
                           end
               end }.

(** A task other than the holder of the mutex waits for it or has returned. *)
Lemma idle_elsewhere s asked t t' p :
  proxy_inv s asked -> mutex s = Some t -> tasks s !! t' = Some p -> t' <> t -> busy p = false.
Proof. intros H Hm Hp Hne. destruct (busy p) eqn:E; [|done]. pose proof (inv_holder _ _ H _ _ Hp E). congruence. Qed.

Lemma idle_free s asked t p : proxy_inv s asked -> mutex s = None -> tasks s !! t = Some p -> busy p = false.
Proof. intros H Hm Hp. destruct (busy p) eqn:E; [|done]. pose proof (inv_holder _ _ H _ _ Hp E). congruence. Qed.

(** What a record of an idle task says does not depend on the socket pair or the thread. *)
Lemma record_ok_idle s s' q t p : busy p = false -> records s' !! t = records s !! t -> record_ok s q t p -> record_ok s' q t p.
Proof. intros Hb Hr. destruct p; simpl in *; try done. by rewrite Hr. Qed.

(** A step of the holder [t], which moves to [p']: the others are idle before and after. *)
Lemma proxy_inv_holder s s' asked t p' q :
  proxy_inv s asked -> mutex s = Some t \/ mutex s = None -> mutex s' = (if busy p' then Some t else None) ->
  tasks s' = <[t := p']> (tasks s) -> (forall t', t' <> t -> records s' !! t' = records s !! t') ->
  asked !! t = Some q -> record_ok s' q t p' ->
  (if busy p' then call s' = Some t /\ sched_task s' = Some t /\ match p' with Reads => under_way s' | _ => quiet s' end
   else quiet s') -> proxy_inv s' asked.
Proof.
  intros H Hm Hm' Ht Hr Hq Hok Hlink.
  assert (Hidle : forall t' p, t' <> t -> tasks s !! t' = Some p -> busy p = false).
  { intros t' p Hne Hp. destruct Hm; [eapply idle_elsewhere | eapply idle_free]; eauto. }
  split.
  - intros t' p Hp Hb. rewrite Ht in Hp. destruct (decide (t' = t)) as [->|Hne].
    + rewrite lookup_insert_eq in Hp. simplify_eq. by rewrite Hm', Hb.
    + rewrite lookup_insert_ne in Hp by done. rewrite (Hidle _ _ Hne Hp) in Hb. done.
  - intros t' p Hp. rewrite Ht in Hp. destruct (decide (t' = t)) as [->|Hne].
    + rewrite lookup_insert_eq in Hp. simplify_eq. eauto.
    + rewrite lookup_insert_ne in Hp by done. destruct (inv_record _ _ H _ _ Hp) as (q' & Hq' & Hok').
      exists q'. split; [done|]. apply (record_ok_idle s); eauto.
  - rewrite Hm', Ht. destruct p'; simpl in *; rewrite ?lookup_insert_eq; done.
Qed.

(** A step of the thread while [t] waits for it. *)
Lemma proxy_inv_server s s' asked t q :
  proxy_inv s asked -> tasks s !! t = Some Reads -> mutex s' = mutex s -> call s' = call s ->
  sched_task s' = sched_task s -> tasks s' = tasks s -> (forall t', t' <> t -> records s' !! t' = records s !! t') ->
  asked !! t = Some q -> record_ok s' q t Reads -> under_way s' -> proxy_inv s' asked.
Proof.
  intros H Ht Hm Hc Hsc Hts Hr Hq Hok Hu. pose proof (inv_holder _ _ H _ _ Ht eq_refl) as Hmt.
  pose proof (inv_link _ _ H) as Hl. rewrite Hmt in Hl. destruct Hl as (Hl1 & Hl2 & _).
  split.
  - rewrite Hts, Hm. apply (inv_holder _ _ H).
  - intros t' p Hp. rewrite Hts in Hp. destruct (decide (t' = t)) as [->|Hne].
    + rewrite Ht in Hp. simplify_eq. eauto.
    + destruct (inv_record _ _ H _ _ Hp) as (q' & Hq' & Hok'). exists q'. split; [done|].
      apply (record_ok_idle s); eauto using idle_elsewhere.
  - rewrite Hm, Hmt, Hc, Hsc, Hts, Ht. done.
Qed.

(** While the thread has a request, or a byte is on its way, a task waits for the answer. *)
Lemma thread_has_client s asked :
  proxy_inv s asked -> ~ quiet s ->
  exists t q, tasks s !! t = Some Reads /\ mutex s = Some t /\ call s = Some t /\ sched_task s = Some t /\ under_way s /\
              asked !! t = Some q /\ record_ok s q t Reads.
Proof.
  intros H Hnq. pose proof (inv_link _ _ H) as Hl. destruct (mutex s) as [t|] eqn:Hm; [|done].
  destruct Hl as (Hc & Hs & Hl). destruct (tasks s !! t) as [p|] eqn:Ht; [|done].
  destruct p; try done. destruct (inv_record _ _ H _ _ Ht) as (q & Hq & Hok). exists t, q. done.
Qed.

Lemma proxy_inv_call s asked t c s' :
  proxy_inv s asked -> hev_task_dns_proxy_call t (Call t c) s = Next s' -> proxy_inv s' (<[t := c]> asked).
Proof.
  intros H Hs. unfold hev_task_dns_proxy_call in Hs.
  assert (Hnb : forall p, tasks s !! t = Some p -> busy p = false) by (intros p Hp; rewrite Hp in Hs; by destruct p).
  assert (Hs' : s' = mkProxy (mutex s) (call s) (sched_task s) (to_server s) (to_client s) (server s)
              (<[t := WantsLock]> (tasks s)) (<[t := enter c]> (records s))).
  { destruct (tasks s !! t) as [p|]; [destruct p|]; congruence. }
  clear Hs. subst s'. assert (Hmt : mutex s <> Some t).
  { intros Hm. pose proof (inv_link _ _ H) as Hl. rewrite Hm in Hl. destruct Hl as (_ & _ & Hl).
    destruct (tasks s !! t) as [p|]; [|done]. specialize (Hnb p eq_refl). by destruct p. }
  split; simpl.
  - intros t' p Hp Hb. destruct (decide (t' = t)) as [->|Hne].
    + rewrite lookup_insert_eq in Hp. by simplify_eq.
    + rewrite lookup_insert_ne in Hp by done. by apply (inv_holder _ _ H _ _ Hp).
  - intros t' p Hp. destruct (decide (t' = t)) as [->|Hne].
    + rewrite lookup_insert_eq in Hp. simplify_eq. exists c. rewrite lookup_insert_eq. split; [done|].
      simpl. by rewrite lookup_insert_eq.
    + rewrite lookup_insert_ne in Hp by done. rewrite lookup_insert_ne by done.
      destruct (inv_record _ _ H _ _ Hp) as (q & Hq & Hok). exists q. split; [done|].
      destruct p; simpl in *; rewrite ?lookup_insert_ne by done; done.
  - pose proof (inv_link _ _ H) as Hl. destruct (mutex s) as [m|]; [|done].
    rewrite lookup_insert_ne by congruence. done.
Qed.

(** A task on its way through the critical section: it holds the mutex, and its record is where it should be. *)
Lemma holder_facts s asked t p :
  proxy_inv s asked -> tasks s !! t = Some p -> busy p = true ->
  exists q, asked !! t = Some q /\ record_ok s q t p /\ mutex s = Some t /\ call s = Some t /\ sched_task s = Some t /\
            match p with Reads => under_way s | _ => quiet s end.
Proof.
  intros H Ht Hb. pose proof (inv_holder _ _ H _ _ Ht Hb) as Hm. pose proof (inv_link _ _ H) as Hl.
  rewrite Hm, Ht in Hl. destruct Hl as (Hc & Hs & Hl). destruct (inv_record _ _ H _ _ Ht) as (q & Hq & Hok).
  exists q. by destruct p.
Qed.

Lemma proxy_inv_lock s asked t s' :
  proxy_inv s asked -> hev_task_dns_proxy_call t (Lock t) s = Next s' -> proxy_inv s' asked.
Proof.
  intros H Hs. unfold hev_task_dns_proxy_call in Hs. destruct (tasks s !! t) as [p|] eqn:Ht; [|done].
  destruct p; try done. destruct (mutex s) eqn:Hm; simplify_eq.
  destruct (inv_record _ _ H _ _ Ht) as (q & Hq & Hok). pose proof (inv_link _ _ H) as Hl. rewrite Hm in Hl.
  eapply (proxy_inv_holder s _ _ t Writes q); simpl; eauto.
Qed.

Lemma proxy_inv_write s asked t res s' :
  proxy_inv s asked -> res <> Fails -> hev_task_dns_proxy_call t (Write t res) s = Next s' -> proxy_inv s' asked.
Proof.
  intros H Hres Hs. unfold hev_task_dns_proxy_call in Hs. destruct (tasks s !! t) as [p|] eqn:Ht; [|by destruct res].
  destruct p; try by destruct res. destruct res; simplify_eq; [|done].
  destruct (holder_facts _ _ _ _ H Ht eq_refl) as (q & Hq & Hok & Hm & Hc & Hsc & Hts & Htc & Hsv).
  eapply (proxy_inv_holder s _ _ t Reads q); simpl; eauto.
  - unfold answered. simpl. by rewrite Hsv, Htc.
  - unfold under_way. simpl. by rewrite Hsv, Hts, Htc.
Qed.

Lemma proxy_inv_read s asked t res s' :
  proxy_inv s asked -> res <> Fails -> hev_task_dns_proxy_call t (Read t res) s = Next s' -> proxy_inv s' asked.
Proof.
  intros H Hres Hs. unfold hev_task_dns_proxy_call in Hs. destruct (tasks s !! t) as [p|] eqn:Ht; [|by destruct res].
  destruct p; try by destruct res. destruct res; [|by destruct (to_client s =? 0)%nat; simplify_eq|done].
  destruct (to_client s) as [|n] eqn:Htc; simplify_eq.
  destruct (holder_facts _ _ _ _ H Ht eq_refl) as (q & Hq & Hok & Hm & Hc & Hsc & Hu).
  simpl in Hok. unfold under_way, answered in *.
  destruct (server s) eqn:Hsv; [|lia..]. assert (n = 0%nat /\ to_server s = 0%nat) as [-> Hts] by lia.
  rewrite Htc in Hok. eapply (proxy_inv_holder s _ _ t Unlocks q); simpl; eauto. done.
Qed.

Lemma proxy_inv_unlock s asked t s' :
  proxy_inv s asked -> hev_task_dns_proxy_call t (Unlock t) s = Next s' -> proxy_inv s' asked.
Proof.
  intros H Hs. unfold hev_task_dns_proxy_call in Hs. destruct (tasks s !! t) as [p|] eqn:Ht; [|done].
  destruct p; try done.
  destruct (holder_facts _ _ _ _ H Ht eq_refl) as (q & Hq & Hok & Hm & Hc & Hsc & Hu). simpl in Hok.
  rewrite Hok in Hs. simplify_eq.
  eapply (proxy_inv_holder s _ _ t (Returned (serve (enter q))) q); simpl; eauto.
  intros t' Hne. by rewrite lookup_delete_ne.
Qed.

Lemma proxy_inv_thread s asked a s' :
  proxy_inv s asked -> sound a = true -> hev_task_dns_server_handler a s = Next s' -> proxy_inv s' asked.
Proof.
  intros H Ha Hs. destruct (decide (to_server s = 0%nat /\ server s = ServerReads)) as [[Hts Hsv]|Hnq].
  { unfold hev_task_dns_server_handler in Hs. rewrite Hsv, Hts in Hs. destruct a as [| | | | | | |res]; simplify_eq; [done|by destruct res]. }
  assert (Hq' : ~ quiet s) by (unfold quiet; tauto).
  destruct (thread_has_client _ _ H Hq') as (t & q & Ht & Hm & Hc & Hsc & Hu & Hq & Hok).
  unfold hev_task_dns_server_handler in Hs. simpl in Hok. unfold under_way, answered in *.
  destruct a as [| | | | | | |res], (server s) eqn:Hsv; try done; try by destruct res.
  - destruct (to_server s) as [|n] eqn:Hts; simplify_eq; [done|].
    assert (n = 0%nat /\ to_client s = 0%nat) as [-> Htc] by lia. rewrite Htc in Hok.
    eapply (proxy_inv_server s _ _ t q); simpl; eauto. done.
  - rewrite Hc, Hok in Hs. simplify_eq. eapply (proxy_inv_server s _ _ t q); simpl; eauto.
    + intros t' Hne. by rewrite lookup_insert_ne.
    + by rewrite lookup_insert_eq.
  - destruct res; [|by simplify_eq|done]. simplify_eq. destruct Hu as [Hts Htc].
    eapply (proxy_inv_server s _ _ t q); simpl; eauto; unfold answered, under_way; simpl; by rewrite ?Hts, Htc.
Qed.

Lemma proxy_inv_step s asked a s' :
  proxy_inv s asked -> sound a = true -> step s a = Next s' -> proxy_inv s' (note a asked).
Proof.
  intros H Ha Hs. destruct a as [t c|t|t res|t res|t| | |res]; simpl in *.
  - eauto using proxy_inv_call.
  - eauto using proxy_inv_lock.
  - eapply proxy_inv_write; eauto. by destruct res.
  - eapply proxy_inv_read; eauto. by destruct res.
  - eauto using proxy_inv_unlock.
  - exact (proxy_inv_thread _ _ ServerRead _ H Ha Hs).
  - exact (proxy_inv_thread _ _ ServerResolve _ H Ha Hs).
  - exact (proxy_inv_thread _ _ (ServerWrite res) _ H Ha Hs).
Qed.

Lemma proxy_inv_reaches s asked : reaches s asked -> proxy_inv s asked.
Proof. induction 1; [by split; [simpl; intros ?? Hp; by rewrite lookup_empty in Hp..|]|eauto using proxy_inv_step]. Qed.

Lemma step_no_crash s asked a : proxy_inv s asked -> step s a <> Crashed.
Proof.
  intros H Hs. destruct a as [t c|t|t res|t res|t| | |res]; simpl in Hs; unfold hev_task_dns_proxy_call, hev_task_dns_server_handler in Hs;
    repeat case_match; simplify_eq.
  - match goal with Ht : tasks s !! t = Some Unlocks |- _ => destruct (holder_facts _ _ _ _ H Ht eq_refl) as (q & _ & Hok & _) end.
    simpl in Hok. congruence.
  - destruct (thread_has_client _ _ H) as (t' & q & _ & _ & Hc & _ & _ & _ & Hok); [intros (_ & _ & ?); congruence|].
    simpl in Hok. congruence.
  - destruct (thread_has_client _ _ H) as (t' & q & _ & _ & Hc & _); [intros (_ & _ & ?); congruence|]. congruence.
Qed.

(** ** Every call can return *)

(** The steps between a task that holds the mutex and its return. *)
Definition distance (s : HevTaskDNSProxy) (p : phase) : nat :=
  match p with
  | Writes => 6
  | Reads => match server s with
             | ServerReads => if (to_client s =? 1)%nat then 2 else 5
             | ServerResolves => 4
             | ServerWrites => 3
             end
  | Unlocks => 1
  | _ => 0
  end.

Lemma holder_advances s asked t p :
  proxy_inv s asked -> tasks s !! t = Some p -> busy p = true ->
  exists a s' p', internal a = true /\ step s a = Next s' /\ tasks s' = <[t := p']> (tasks s) /\
                  (distance s' p' < distance s p)%nat /\ (if busy p' then True else mutex s' = None /\ exists c, p' = Returned c).
Proof.
  intros H Ht Hb. destruct (holder_facts _ _ _ _ H Ht Hb) as (q & Hq & Hok & Hm & Hc & Hsc & Hl).
  destruct p; try done; simpl in Hok.
  - destruct Hl as (Hts & Htc & Hsv). exists (Write t Done). eexists _, Reads. split; [done|].
    split; [simpl; by rewrite Ht|]. simpl. rewrite Hsv, Htc. simpl. repeat split; lia.
  - unfold under_way in Hl. assert (Hid : tasks s = <[t := Reads]> (tasks s)) by (symmetry; by apply insert_id).
    destruct (server s) eqn:Hsv.
    + destruct (to_client s) as [|n] eqn:Htc.
      * assert (Hts : to_server s = 1%nat) by lia. exists ServerRead. eexists _, Reads. split; [done|].
        split; [simpl; by rewrite Hsv, Hts|]. simpl. rewrite Hsv, Htc. repeat split; [done|simpl; lia].
      * assert (n = 0%nat) as -> by lia. exists (Read t Done). eexists _, Unlocks. split; [done|].
        split; [simpl; by rewrite Ht, Htc|]. simpl. rewrite Hsv, Htc. repeat split; simpl; lia.
    + exists ServerResolve. eexists _, Reads. split; [done|].
      split; [simpl; by rewrite Hsv, Hc, Hok|]. simpl. rewrite Hsv. repeat split; [done|lia].
    + destruct Hl as [_ Htc]. exists (ServerWrite Done). eexists _, Reads. split; [done|].
      split; [simpl; by rewrite Hsv|]. simpl. rewrite Hsv, Htc. repeat split; [done|simpl; lia].
  - exists (Unlock t). eexists _, (Returned _). split; [done|].
    split; [simpl; by rewrite Ht, Hok|]. simpl. repeat split; eauto.
Qed.

Lemma sound_internal a : internal a = true -> sound a = true.
Proof. by destruct a. Qed.

Lemma note_internal a asked : internal a = true -> note a asked = asked.
Proof. by destruct a. Qed.

(** The holder gets through, and leaves the other tasks where they were. *)
Lemma holder_returns s asked t p :
  proxy_inv s asked -> tasks s !! t = Some p -> busy p = true ->
  exists l s' c, Forall (fun a => internal a = true) l /\ run s l = Next s' /\ mutex s' = None /\
                 tasks s' = <[t := Returned c]> (tasks s) /\ proxy_inv s' asked.
Proof.
  remember (distance s p) as n eqn:Hn. revert s p Hn. induction (lt_wf n) as [n _ IH]. intros s p -> H Ht Hb.
  destruct (holder_advances _ _ _ _ H Ht Hb) as (a & s' & p' & Ha & Hs & Hts & Hd & Hp').
  assert (H' : proxy_inv s' asked).
  { rewrite <- (note_internal a asked Ha). eauto using proxy_inv_step, sound_internal. }
  destruct (busy p') eqn:Hb'.
  - destruct (IH _ Hd s' p' eq_refl H') as (l & s2 & c & Hl & Hr & Hm & Ht2 & H2);
      [rewrite Hts; apply lookup_insert_eq|done|].
    exists (a :: l), s2, c. simpl. rewrite Hs, Ht2, Hts, insert_insert_eq. split_and!; eauto.
  - destruct Hp' as [Hm [c ->]]. exists [a], s', c. simpl. rewrite Hs. split_and!; eauto.
Qed.

Lemma dns_run_app s l l' s' : run s l = Next s' -> run s (l ++ l') = run s' l'.
Proof.
  revert s. induction l as [|a l IH]; simpl; intros s Hs; [by simplify_eq|]. destruct (step s a); try done. eauto.
Qed.

(** With the mutex free, a task that wants it gets through. *)
Lemma waiter_returns s asked t :
  proxy_inv s asked -> tasks s !! t = Some WantsLock -> mutex s = None ->
  exists l s' c, Forall (fun a => internal a = true) l /\ run s l = Next s' /\ tasks s' !! t = Some (Returned c) /\
                 proxy_inv s' asked.
Proof.
  intros H Ht Hm. destruct (step s (Lock t)) as [| |s1] eqn:Hs; simpl in Hs; rewrite Ht, Hm in Hs; try done.
  assert (H1 : proxy_inv s1 asked) by (apply (proxy_inv_lock s asked t); [done|simpl; by rewrite Ht, Hm]).
  destruct (holder_returns s1 asked t Writes H1) as (l & s' & c & Hl & Hr & _ & Hts & H'); [simplify_eq; apply lookup_insert_eq|done|].
  exists (Lock t :: l), s', c. split; [by constructor|]. split; [simpl; rewrite Ht, Hm; by injection Hs as ->|]. split; [|done].
  rewrite Hts. apply lookup_insert_eq.
Qed.

Lemma mutex_holder s asked t :
  proxy_inv s asked -> mutex s = Some t -> exists p, tasks s !! t = Some p /\ busy p = true.
Proof.
  intros H Hm. pose proof (inv_link _ _ H) as Hl. rewrite Hm in Hl. destruct Hl as (_ & _ & Hl).
  destruct (tasks s !! t) as [p|]; [|done]. exists p. by destruct p.
Qed.

Lemma every_call_returns s asked t p :
  proxy_inv s asked -> tasks s !! t = Some p ->
  exists l s' c, Forall (fun a => internal a = true) l /\ run s l = Next s' /\ tasks s' !! t = Some (Returned c) /\
                 proxy_inv s' asked.
Proof.
  intros H Ht. destruct (busy p) eqn:Hb.
  { destruct (holder_returns _ _ _ _ H Ht Hb) as (l & s' & c & Hl & Hr & _ & Hts & H'). exists l, s', c.
    split_and!; eauto. rewrite Hts. apply lookup_insert_eq. }
  destruct p; try done; [|exists [], s, c; by split_and!].
  destruct (mutex s) as [h|] eqn:Hm; [|eauto using waiter_returns].
  destruct (mutex_holder _ _ _ H Hm) as (p & Hp & Hbp).
  destruct (holder_returns _ _ _ _ H Hp Hbp) as (l & s1 & c1 & Hl & Hr & Hm1 & Hts & H1).
  destruct (waiter_returns s1 asked t H1) as (l' & s' & c & Hl' & Hr' & Hts' & H'); [|done|].
  { rewrite Hts, lookup_insert_ne; [done|]. intros ->. simplify_eq. }
  exists (l ++ l'), s', c. split; [by apply Forall_app|]. by rewrite (dns_run_app _ _ _ _ Hr).
Qed.

(** ** Theorems *)

(** C16. Resolving a name through the helper thread, in any interleaving of the tasks and the thread in which no call
    on the socket pair fails for good: no step touches a record whose function has returned; a call that has returned
    has what the C library says to the request of that very task; the task the reactor would wake is the one that is
    in the exchange; there is at most one byte in the socket pair. *)
Theorem dns_proxy_correct s asked :
  reaches s asked ->
  (forall a, step s a <> Crashed) /\
  (forall t c, tasks s !! t = Some (Returned c) -> exists q, asked !! t = Some q /\ c = serve (enter q)) /\
  (forall t, tasks s !! t = Some Writes \/ tasks s !! t = Some Reads -> sched_task s = Some t /\ call s = Some t) /\
  (to_server s + to_client s <= 1)%nat.
Proof.
  intros Hr. apply proxy_inv_reaches in Hr. repeat split.
  - intros a. by apply (step_no_crash s asked).
  - intros t c Ht. exact (inv_record _ _ Hr _ _ Ht).
  - destruct H as [Ht|Ht]; by destruct (holder_facts _ _ _ _ Hr Ht eq_refl) as (? & _ & _ & _ & _ & ? & _).
  - destruct H as [Ht|Ht]; by destruct (holder_facts _ _ _ _ Hr Ht eq_refl) as (? & _ & _ & _ & ? & _).
  - destruct (decide (to_server s = 0%nat /\ to_client s = 0%nat)) as [[-> ->]|Hn]; [lia|].
    destruct (thread_has_client _ _ Hr) as (t & q & _ & _ & _ & _ & Hu & _); [unfold quiet; tauto|].
    unfold under_way in Hu. destruct (server s); lia.
Qed.

(** No task is ever stuck: from every such state, steps of the tasks and the thread bring each task that is in the
    function to its return, with the answer to its request. *)
Theorem dns_proxy_returns s asked t p :
  reaches s asked -> tasks s !! t = Some p ->
  exists l s' q, Forall (fun a => internal a = true) l /\ run s l = Next s' /\ asked !! t = Some q /\
                 tasks s' !! t = Some (Returned (serve (enter q))).
Proof.
  intros Hr Ht. destruct (every_call_returns _ _ _ _ (proxy_inv_reaches _ _ Hr) Ht) as (l & s' & c & Hl & Hrun & Hc & H').
  destruct (inv_record _ _ H' _ _ Hc) as (q & Hq & ->). by exists l, s', q.
Qed.

(** The assumption is needed: if [read] fails for another reason than [EAGAIN] while the thread has yet to look at the
    record, the task returns, the record is gone and the thread uses it. *)
Theorem dns_proxy_failed_read c :
  run new_proxy
    [Call 0 c; Lock 0; Write 0 Done; Read 0 Fails; Unlock 0; ServerRead; ServerResolve] = Crashed.
Proof. reflexivity. Qed.

End resolver.

(** A resolver that finds one address for any name, and one name for any address. *)
Definition one_addr (_ _ _ : list Z) : Z * Z * list (list Z) := (0, 0, [[127; 0; 0; 1]]).
Definition one_name (_ : list Z) (_ _ _ _ : Z) : Z * Z * list Z * list Z := (0, 0, [108], [48]).

Definition sample_query : HevTaskDNSCall := GetAddrInfo (mkGai [108] [56; 48] [] [] 0 0).

(** Two tasks: the first is resolved while the second waits for the mutex. *)
Definition sample_run : list action :=
  [Call 0 sample_query; Lock 0; Write 0 Again; Write 0 Done; Read 0 Again; ServerRead; Call 1 sample_query; ServerResolve;
   ServerWrite Done; Read 0 Done; Unlock 0].

Definition sample_answer : HevTaskDNSCall := GetAddrInfo (mkGai [108] [56; 48] [] [[127; 0; 0; 1]] 0 0).

Lemma dns_proxy_correct_witness :
  exists s, run one_addr one_name new_proxy sample_run = Next s /\ tasks s !! 1%nat = Some WantsLock /\
    tasks s !! 0%nat = Some (Returned sample_answer) /\ forall a, step one_addr one_name s a <> Crashed.
Proof.
  assert (Hc : match run one_addr one_name new_proxy sample_run with
               | Next s => Some (tasks s !! 1%nat, tasks s !! 0%nat) | _ => None end =
               Some (Some WantsLock, Some (Returned sample_answer))) by (vm_compute; reflexivity).
  destruct (run one_addr one_name new_proxy sample_run) as [| |s] eqn:E; [discriminate Hc..|].
  injection Hc as H1 H0. exists s. split; [reflexivity|]. split; [exact H1|]. split; [exact H0|].
  exact (proj1 (dns_proxy_correct one_addr one_name s _ (reaches_run _ _ sample_run _ _ _ (reaches_new _ _) eq_refl E))).
Defined.
